(* ===== verification/_CoqProject ===== *)
-Q . S2P
Prelude.v
Endian.v
Types.v
Wire.v
WireLayout.v
WireFacts.v
WireProps.v
Gf256.v
GfField.v
Rlc.v
RlcProps.v
SMap.v
Table.v
FrameShm.v
FrameFramer.v
FrameSpec.v
FramerFacts.v
JsccLoss.v
FrameReassembler.v
ReassemblerFacts.v
EndToEnd.v
ReassemblerSafe.v
FrameProps.v
TableProps.v
Sha256.v
Sha256Props.v
VehicleCmd.v
Replay.v
VehicleCmdProps.v
Csa.v
CsaProps.v
Rx.v
RxStream.v
RxProps.v
RxEngineProps.v
CacheStore.v
CacheStoreProps.v
Framer.v
FramerProps.v
RecoveryProps.v
CacheController.v
CacheControllerProps.v
CacheExchange.v
HevcBits.v
HevcParse.v
Cabac.v
HevcConceal.v
HevcCodes.v
HevcDecode.v
HevcRoundtrip.v
HevcSegments.v
ConcealProps.v
Spatial.v
SpatialFacts.v
SpatialRepaired.v
SpatialProps.v
McsProbe.v
McsProbeProps.v
Double.v
Selector.v
SelectorSpec.v
SelectorProps.v
UplinkData.v
UplinkProps.v
Feedback.v
FeedbackProps.v
Dwell.v
DwellProps.v
Calibrate.v
CalibrateProps.v
UplinkCalibrate.v
UplinkCalibProps.v
Pacing.v
Jscc.v
TxPower.v
TxPowerProps.v
TxCore.v
TxCoreFacts.v
TxCoreProps.v
TxProtect.v
