(* ===== verification/Prelude.v ===== *)
(** * waybeam-link: a verified model of the link's core

    waybeam-link carries video from a craft to one or more ground stations over
    raw 802.11 frames.  The library under [core/] holds its protocol logic: pure
    C++ with injected time, no sockets and no threads.  This development models
    that library, and the craft's core of [node/] that drives it.  A definition is the translation of one C++ function, method,
    type or named block of one, in the source's order of tests and assignments;
    every file names the C++ files it models.

    ** How the program's parts fit together

    On the craft a frame ring hands a frame blob to [FrameFramer.on_frame], which
    cuts it into source packets and Reed-Solomon repair packets ([Rlc]); RTP and
    other datagram streams go through [Framer.on_datagram].  Both write DATA
    frames with the codec of [Wire].  On the ground every adapter's frames enter
    [RxEngine.on_data], which admits and latches streams, merges the adapters,
    orders packets and declares losses; a frame stream's packets go on to
    [FrameReassembler.push], which rebuilds the blobs.  A cache node overhears
    the air and serves missing symbols ([CacheStore]) to the aggregator's
    [CacheController], and is re-targeted only through its
    [CacheAssignmentGate].  Control runs beside the video: [VcmdIssuer] and
    [VcmdCraft] carry configuration commands, [CsaIssuer] and [CsaFollower] move
    both ends to another channel, both authenticated by [hmac_sha256];
    [LatchRecovery] schedules requests for a fresh picture.  The salvage hook
    of the reassembler is [SpatialRepair.repair], which fills the holes of a
    damaged picture with slices that [make_conceal_slice] synthesises.  The profile table
    ([Table]) is agreed by the hash of its canonical bytes.  The craft's [Selector]
    moves along that table on the reports of the ground ([Reporter], admitted by
    the craft's [ReportGate]), whose [McsProbeWindow] measures the next rate up.
    Small messages for the craft ride the ground's uplink ([UplinkData]).  Once,
    at commissioning, [UplinkCalibrator] and then the craft's [Calibrator] search
    for the transmit power, a [DwellSender] and a [DwellReceiver] measuring each
    power, in the order the [CalibSequencer] keeps.  On the craft all of these
    meet in [TxCore] ([tx_core.h]): the node's loop gives it datagrams, frames,
    packets off the air, ticks and commands, and it drives the framers, the
    selector, the protection of frames ([JsccRuntimeShadow]), the frame-rate
    ladder, the calibrators and the transmit power of every adapter.  [QuietGap]
    and [VideoSlotCadence] time the return traffic.

    ** Conventions

    - An integer of C++ is a [Z] with its width as a predicate ([u8] .. [u64],
      [i8]); every narrowing or wrapping in the source is a [to_*] cast.
    - Memory is [list Z] of bytes; a read or write outside a buffer is [None]
      ([rd8], [wr8], [slice], [memcpy]).  A function that touches memory is in
      the option monad, so a theorem with [= Some _] also says that no access is
      out of bounds.  A pointer that may be null is a [ptr].
    - A class is a Record and its methods take and return it.  A callback that
      only reports ([emit], [deliver]) is the list of its calls, in order; a
      callback that answers (the egress of the reassembler, the salvage hook, the
      apply hook of a command, early delivery, the random nonce) is an argument.
    - [std::map] and [std::set] with an integer key are [SMap]'s ordered lists,
      because their iteration order shows in the program's output; [std::vector]
      and [std::deque] are lists.
    - Loops on data are structural recursions.  Loops on a condition carry fuel
      bounded by the data: evictions by the length of the container, the cursor
      loop of the receive engine by the window it can cross (each turn advances
      the cursor or stops).  Where a theorem depends on it, it says that the
      result is produced, never only what it is if produced.

    ** The files

    Shared:
    - [Prelude]: this header, integers, memory, tactics.  [Endian]: the big-endian
      accessors ([endian.h]).  [Types]: constants and enums ([types.h]) and the
      forward clamp ([clamp.h]).  [SMap]: ordered maps.

    Wire codec ([wire.h], [wire.cpp]):
    - [Wire]: packet records, every encoder, [decode].  [WireLayout]: the byte
      layout of PROTOCOL.md as a specification and the validity of packets.
      [WireFacts]: encoders and decoders against it.
    - [WireProps]: round trip, refinement of the layout, memory safety on any
      input, canonicity (an accepted frame is the layout of what it decodes to),
      restamping as re-encoding.

    Erasure code ([gf256.h/.cpp], [rlc.h/.cpp]):
    - [Gf256]: tables, field operations, scalar and NEON spans.  [GfField]: the
      field axioms.  [Rlc]: repair rows, encoder, decoder.
    - [RlcProps]: Cauchy systems, the elimination, the invariant of the decoder;
      any [k] distinct symbols decode to the sources, in any order
      and with repetitions; fewer are refused.

    Frame path ([frame_shm_format.h], [frame_framer], [jscc_loss_estimator],
    [frame_reassembler]):
    - [FrameShm], [FrameFramer], [JsccLoss], [FrameReassembler]: the code.
      [FrameSpec]: what a block is.  [FramerFacts], [ReassemblerFacts],
      [EndToEnd]: sender and receiver against it.  [ReassemblerSafe]: any input
      at all.
    - [FrameProps]: composed over the wire codec, exactly the frames of which [k]
      distinct packets were heard are delivered, once; order and safety under
      arbitrary packets, ticks and resets; refusals and repair policy.

    Datagram path ([framer.h/.cpp], [rtp.h]): [Framer], [FramerProps]: every
    datagram taken is one frame that decodes to it, blocked as a reference
    reading of the RTP headers says.

    Receive engine ([rx.h], [rx.cpp]):
    - [Rx]: discovery, admission, latch, ingest, gaps, cursor, deadlines, tick.
      [RxStream]: the invariant of a stream; every handler keeps it.
    - [RxProps]: what a stream delivers was received, in increasing order while
      no resync moves the floor.  [RxEngineProps]: an overdue tick delivers
      everything held and leaves no gap; admission, one latched stream per
      output, the invariant of the whole engine under any events.

    Cache repair ([cache_store], [cache_assignment], [cache_controller]):
    - [CacheStore]: store, answers, gate, and the node's branch that offers an
      assignment to the gate ([rx_node.cpp]).
    - [CacheController]: the aggregator's side ([cache_controller]): closing,
      budget, choice of cache, requests, validation of replies, timing.
      [CacheControllerProps]: what a request says, the invariant of the
      controller.  [CacheExchange]: the budget holds over any
      run, and every frame a store answers to a request is accepted.
    - [CacheStoreProps]: well-formedness of every reachable store; a reply is the
      wanted held symbols, verbatim as heard; a replayed assignment never
      applies.

    Concealment ([hevc_conceal.h/.cpp]): when a slice of a picture is lost a
    replacement is synthesised from a surviving one.
    - [HevcBits], [HevcParse]: bit reader and writer, escaping, parameter sets and
      slice headers.  [Cabac]: the arithmetic encoder.  [HevcConceal]: the slice.
    - [HevcCodes]: what a parser may do to a reader, that reading inverts
      writing, and an arithmetic decoder with the standard's own tables that
      reads what the encoder wrote.  [HevcDecode]: the standard's slice data of
      skipped units, context increments and wavefronts included, as a decoder.
      [HevcRoundtrip]: what accepted headers satisfy; the synthesised header.
      [HevcSegments]: what the coding trees encode, substream by substream, and
      that the decoder reads it.
    - [ConcealProps]: the standard's decoder reads the slice data as the CTUs
      asked for, all skipped; the slice parses to its span; exact entry points;
      totality of the parsers and of the synthesis.

    Spatial salvage ([spatial_repair.h/.cpp], [write_egress] of [rx_node.cpp]):
    a block short of [k] symbols is rebuilt from the slices that survive.
    - [Spatial]: learning, repair, freeze, with the egress calling back into the
      object.  [SpatialFacts]: its invariant; which slices survive a set of
      chunks, said of the chunks alone ([Survivor]), and that the scan finds
      exactly those; survivors in their slots, spans tiling the picture.
      [SpatialRepaired]: the specification of a repair - a picture around the
      survivors, a freeze when there is none, or a refusal and its reason - and
      that a repair is defined.
    - [SpatialProps]: every repair meets it; the slices of an emitted picture code
      spans covering every CTU once; the invariant over any run of the node's
      events.

    Control:
    - [Sha256], [Sha256Props] ([hmac_sha256.h]): FIPS 180-4 and RFC 2104.
    - [VehicleCmd], [Replay], [VehicleCmdProps] ([vehicle_cmd]): at most once, authenticated; the exchange composed;
      campaigns end.
    - [Csa], [CsaProps] ([csa]): what the follower accepts, the
      issuer's bounds and termination, and the agreement of both on the instant.
    - [RecoveryProps] ([recovery]): the schedule, and that it is bounded.
    - [Table], [TableProps] ([table], [crc8.h]): canonical bytes and their hash.

    Adaptation: the ground measures, the craft decides the operating point.
    - [McsProbe] ([mcs_probe]): the probe schedule and the evidence window.
      [McsProbeProps]: its ring of bits and its gap walk; it reports what a reference that keeps the sequence numbers reports, and no
      slot is counted twice.
    - [Double]: binary64 as the IEEE specification of the Standard Library.
    - [Selector] ([selector]): reports, smoothing, lockouts, the cascade and its
      sequencing.  [SelectorSpec]: the shape of every reachable selector, the
      cascade as a relation on moves.  [SelectorProps]: every
      tick is one move of the documented cascade, whose conditions are said
      again over the raw fields; rate and bitrate agree with the caller's and
      never oversubscribe a rung; the range of the rung; the fail-safe descent.
      The theorems do not depend on the values the doubles take.
    - [Feedback] ([reporter], [report_gate.h], [selector_state.h], the report
      branches of [rx_core.h], [rx_node.cpp] and [tx_core.h]): the report from
      the ground's counters to the craft's selector.  [FeedbackProps]: through
      the codec and a lossy, reordering air, what the craft counts.
    - [UplinkData] ([uplink_data.h]): classes, queues and the return window.
      [UplinkProps]: in order, at most once, lost only where counted.

    Commissioning of the transmit power:
    - [Dwell] ([calib_dwell.h]): the numbered probes of one power and their
      tally.  [DwellProps]: the tally is the number of distinct probes heard,
      whatever the air does.
    - [Calibrate] ([calibrate.h], [power.h]): the power search and the craft's
      calibrator.  [CalibrateProps]: the calibrator stays within the bounds of
      the rung it has pinned and always gives the power back; the search is a
      reference search.
    - [UplinkCalibrate] ([uplink_calibrate.h]): the ground's calibrator and the
      sequencer.  [UplinkCalibProps]: only a verified placement is handed over,
      and only it starts the craft's phase.

    The craft's core ([tx_core.h], the boot and artifact branches of
    [tx_node.cpp]):
    - [Pacing] ([quietgap.h], [video_slot_cadence.h], [fps_ladder.h]): the gates,
      the cadence and the frame-rate ladder; a scheduled return meets the gap;
      the ladder moves one rung at a time, on evidence, within its bounds.
    - [Jscc] ([jscc_controller], [jscc_runtime_shadow]): the decision on a
      frame's parity and deadline from the ground's last feedback.
    - [TxPower]: who owns the power of each adapter: boot offset, curve, tier,
      operator's latch, calibration.  The hooks into radio and encoder are
      effects in a log; what they answer is the environment's ([TxEnv]), so a
      theorem holds for every radio unless it asks for one that takes writes.
    - [TxCore]: the core's state and every operation that changes it, on top of
      the components above; construction and boot.
    - [TxPowerProps], [TxCoreFacts]: the bound on power writes and the owner of
      the power, kept by every operation.
    - [TxCoreProps]: after any events each call is defined and no adapter is
      driven past its bound; and the last power written is what a ledger of the
      configuration and the commands ([Ledger]) entitles its owner to.
    - [TxProtect]: the feedback sizes each frame's parity or drops it; a command
      is taken exactly when its conditions hold, and a refused one changes
      nothing.

    ** Bounds and fuel

    [k + r <= 256] symbols per block and 4096 payload bytes come from the code's
    own checks and are proved where they are needed.  Theorems on clocks ask for
    clock readings clear of the end of their 64 bits where the code subtracts
    them without a guard ([clock_ok] of [RecoveryProps], the premises of the
    campaign theorems), and the controller's theorems ask for fewer than 2^32
    request ids; wrap-around is otherwise modelled and the theorems hold
    through it.  A receive stream's window is the policy's [fwd_clamp_pkts]; the
    cursor loop has two more turns of fuel than the distance from the cursor to
    the highest sequence number heard, and its theorems prove it never runs out.
    The craft's drain of calibration probes has the probes of one tick, the
    retries left and two more turns of fuel ([drain_probes]); [craft_safe] proves
    it enough.

    ** Not modelled

    - [loss_model.h]: bench only, probabilities in [double].
    - Of [tx_core.h]: the statistics and JSON accessors, logging, and the
      encoder's actuator ([venc_http.cpp]), whose calls are effects; a store of
      artifacts is a function of the environment.
    - [io/], [node/] (except the branches named above), [app/], [tools/]: sockets,
      radios, files, HTTP, threads and the loops that call the core; their
      meaning lies in the operating system and the drivers.
    - [third_party/], tests and generated files. *)
From Stdlib Require Export ZArith Lia Bool.
From stdpp Require Export prelude.
Open Scope Z_scope.

(** ** Machine integers

    A C++ integer is a [Z]; its type is the predicate [u8] ... [u64]
    (or [i8]), and every conversion to a narrower type in the source is
    one of the [to_*] casts below. *)
Definition u8 (z : Z) : Prop := 0 <= z < 256.
Definition u16 (z : Z) : Prop := 0 <= z < 65536.
Definition u32 (z : Z) : Prop := 0 <= z < 4294967296.
Definition u64 (z : Z) : Prop := 0 <= z < 18446744073709551616.
Definition i8 (z : Z) : Prop := -128 <= z < 128.

Definition to_u8 (z : Z) : Z := z mod 256.
Definition to_u16 (z : Z) : Z := z mod 65536.
Definition to_u32 (z : Z) : Z := z mod 4294967296.
Definition to_u64 (z : Z) : Z := z mod 18446744073709551616.
Definition to_i8 (z : Z) : Z :=
  let m := z mod 256 in if m <? 128 then m else m - 256.
Definition to_i32 (z : Z) : Z :=
  let m := z mod 4294967296 in if m <? 2147483648 then m else m - 4294967296.

#[export] Instance u8_dec z : Decision (u8 z).
Proof. unfold u8; apply _. Defined.
#[export] Instance u16_dec z : Decision (u16 z).
Proof. unfold u16; apply _. Defined.
#[export] Instance u32_dec z : Decision (u32 z).
Proof. unfold u32; apply _. Defined.
#[export] Instance u64_dec z : Decision (u64 z).
Proof. unfold u64; apply _. Defined.
#[export] Instance i8_dec z : Decision (i8 z).
Proof. unfold i8; apply _. Defined.

(** A byte string: what a [uint8_t] buffer holds. *)
Definition bytes (l : list Z) : Prop := Forall u8 l.
#[export] Instance bytes_dec l : Decision (bytes l).
Proof. unfold bytes; apply _. Defined.

(** Length of a C++ buffer or vector, as the [size_t] the code compares. *)
Abbreviation len l := (Z.of_nat (length l)).

(** [ints] reduces width facts to linear arithmetic. *)
Ltac ints :=
  unfold u8, u16, u32, u64, i8, to_u8, to_u16, to_u32, to_u64 in *;
  try lia.

Lemma to_u8_id z : u8 z -> to_u8 z = z.
Proof. unfold u8, to_u8; intros; apply Z.mod_small; lia. Qed.
Lemma to_u16_id z : u16 z -> to_u16 z = z.
Proof. unfold u16, to_u16; intros; apply Z.mod_small; lia. Qed.
Lemma to_u32_id z : u32 z -> to_u32 z = z.
Proof. unfold u32, to_u32; intros; apply Z.mod_small; lia. Qed.
Lemma to_u64_id z : u64 z -> to_u64 z = z.
Proof. unfold u64, to_u64; intros; apply Z.mod_small; lia. Qed.
(** A counter kept modulo its width. *)
Lemma to_u32_succ z : to_u32 (to_u32 z + 1) = to_u32 (z + 1).
Proof. unfold to_u32. by rewrite Zplus_mod_idemp_l. Qed.
Lemma to_u64_succ z n : to_u64 (to_u64 z + n) = to_u64 (z + n).
Proof. unfold to_u64. by rewrite Zplus_mod_idemp_l. Qed.
Lemma to_u8_u8 z : u8 (to_u8 z).
Proof. unfold u8, to_u8; apply Z.mod_pos_bound; lia. Qed.
Lemma to_u16_u16 z : u16 (to_u16 z).
Proof. unfold u16, to_u16; apply Z.mod_pos_bound; lia. Qed.
Lemma to_u32_u32 z : u32 (to_u32 z).
Proof. unfold u32, to_u32; apply Z.mod_pos_bound; lia. Qed.
Lemma to_u64_u64 z : u64 (to_u64 z).
Proof. unfold u64, to_u64; apply Z.mod_pos_bound; lia. Qed.
Lemma to_i8_i8 z : i8 (to_i8 z).
Proof.
  unfold i8, to_i8. pose proof (Z.mod_pos_bound z 256 ltac:(lia)).
  destruct (Z.ltb_spec (z mod 256) 128); lia.
Qed.
Lemma i8_roundtrip z : i8 z -> to_i8 (to_u8 z) = z.
Proof.
  unfold i8, to_i8, to_u8; intros. rewrite Z.mod_mod by lia.
  destruct (Z.ltb_spec (z mod 256) 128);
    Z.div_mod_to_equations; lia.
Qed.
Lemma u8_roundtrip_i8 b : u8 b -> to_u8 (to_i8 b) = b.
Proof.
  unfold u8, to_i8, to_u8; intros.
  destruct (Z.ltb_spec (b mod 256) 128); Z.div_mod_to_equations; lia.
Qed.

(** Bit operations on bytes stay bytes. *)
Lemma bits_above (n a : Z) :
  0 <= n -> 0 <= a < 2 ^ n -> forall i, n <= i -> Z.testbit a i = false.
Proof.
  intros Hn Ha i Hi. destruct (Z.eq_dec a 0) as [->|Hz].
  - apply Z.testbit_0_l.
  - apply Z.bits_above_log2; [lia|].
    apply Z.log2_lt_pow2; [lia|].
    pose proof (Z.pow_le_mono_r 2 n i ltac:(lia) ltac:(lia)); lia.
Qed.

Lemma lt_pow2_of_bits (n a : Z) :
  0 <= n -> 0 <= a -> (forall i, n <= i -> Z.testbit a i = false) -> a < 2 ^ n.
Proof.
  intros Hn Ha Hb. destruct (Z.eq_dec a 0) as [->|Hz]; [apply Z.pow_pos_nonneg; lia|].
  apply Z.log2_lt_pow2; [lia|].
  destruct (Z.lt_ge_cases (Z.log2 a) n) as [H|H]; [exact H|].
  specialize (Hb _ H). rewrite Z.bit_log2 in Hb by lia. discriminate.
Qed.

Lemma lxor_u8 a b : u8 a -> u8 b -> u8 (Z.lxor a b).
Proof.
  intros Ha Hb. change (u8 a) with (0 <= a < 2 ^ 8) in Ha.
  change (u8 b) with (0 <= b < 2 ^ 8) in Hb.
  assert (H0 : 0 <= Z.lxor a b) by (apply Z.lxor_nonneg; split; lia).
  split; [exact H0|]. change 256 with (2 ^ 8). apply lt_pow2_of_bits; [lia|lia|].
  intros i Hi. rewrite Z.lxor_spec, !(bits_above 8) by lia. reflexivity.
Qed.

Lemma land_u8 a b : u8 b -> u8 (Z.land a b).
Proof.
  intros Hb. change (u8 b) with (0 <= b < 2 ^ 8) in Hb.
  assert (H0 : 0 <= Z.land a b) by (apply Z.land_nonneg; right; lia).
  split; [exact H0|]. change 256 with (2 ^ 8). apply lt_pow2_of_bits; [lia|lia|].
  intros i Hi. rewrite Z.land_spec, (bits_above 8 b) by lia. apply andb_false_r.
Qed.

Create HintDb ints.
Create Rewrite HintDb ints.
#[export] Hint Resolve to_u8_u8 to_u16_u16 to_u32_u32 to_u64_u64 to_i8_i8
  lxor_u8 land_u8 : ints.
#[export] Hint Rewrite to_u8_id to_u16_id to_u32_id to_u64_id
  using (ints) : ints.

(** ** Memory

    A buffer is the list of its bytes.  A computation that dereferences
    memory is an [option]: [None] is a read or a write outside the buffer
    (undefined behaviour of the C++ program), so a theorem that a function
    returns [Some] is a memory-safety theorem.  A pointer argument the
    source compares with [nullptr] is a [ptr]. *)
Abbreviation ptr := (option (list Z)).

Definition rd8 (buf : list Z) (off : nat) : option Z := buf !! off.

Definition wr8 (buf : list Z) (off : nat) (v : Z) : option (list Z) :=
  if (off <? length buf)%nat then Some (<[off := v]> buf) else None.

(** [memcpy(buf + off, src, n)] where [src] holds at least [n] bytes. *)
Definition memcpy (buf : list Z) (off : nat) (src : list Z) (n : nat)
  : option (list Z) :=
  if ((off + n <=? length buf) && (n <=? length src))%nat
  then Some (take off buf ++ take n src ++ drop (off + n) buf) else None.

(** A loop whose body may leave the memory of the program. *)
Fixpoint foldM {S A} (f : S -> A -> option S) (l : list A) (s : S) : option S :=
  match l with
  | [] => Some s
  | x :: l => s ← f s x; foldM f l s
  end.

(** The [n] bytes at [buf + off], as a view of the buffer. *)
Definition slice (buf : list Z) (off n : nat) : option (list Z) :=
  if (off + n <=? length buf)%nat then Some (take n (drop off buf)) else None.

(** ** Symbolic evaluation of buffer code

    [explode o n] replaces buffer [o], known to hold at least [n] bytes, by
    [n] named bytes followed by the rest, after which reads and writes at
    literal offsets below [n] evaluate. *)
Lemma explode_app (n : nat) (o : list Z) :
  (n <= length o)%nat ->
  exists h, o = h ++ drop n o /\ h = (fun i => nth i o 0) <$> seq 0 n.
Proof.
  intros H. exists (take n o). split; [by rewrite take_drop|].
  apply list_eq. intros i. rewrite list_lookup_fmap.
  destruct (Nat.lt_ge_cases i n).
  - rewrite lookup_take_lt, lookup_seq_lt by lia. cbn.
    destruct (lookup_lt_is_Some_2 o i) as [x Hx]; [lia|].
    rewrite Hx. f_equal. symmetry. by apply nth_lookup_Some.
  - by rewrite lookup_take_ge, lookup_seq_ge by lia.
Qed.

Ltac explode o n :=
  let h := fresh "h" in let E := fresh "E" in let Eh := fresh "Eh" in
  let t := fresh "rest" in
  destruct (explode_app n o) as (h & E & Eh);
  [ lia | cbn [seq fmap list_fmap] in Eh; subst h;
    set (t := drop n o) in *; clearbody t;
    repeat match type of E with context [nth ?i o 0] =>
       let b := fresh "b" in set (b := nth i o 0) in *; clearbody b end;
    subst o ].

(** Case analysis on the Boolean tests of the code. *)
Ltac case_test :=
  match goal with
  | |- context [?a <? ?b] => destruct (Z.ltb_spec a b)
  | |- context [?a <=? ?b] => destruct (Z.leb_spec a b)
  | |- context [?a =? ?b] => destruct (Z.eqb_spec a b)
  | |- context [?a >? ?b] => rewrite (Z.gtb_ltb a b)
  end.

(** A copy that stays inside both buffers. *)
Lemma memcpy_some (buf : list Z) off src n :
  (off + n <= length buf)%nat -> (n <= length src)%nat ->
  memcpy buf off src n = Some (take off buf ++ take n src ++ drop (off + n) buf).
Proof. intros. unfold memcpy. rewrite (proj2 (Nat.leb_le _ _)), (proj2 (Nat.leb_le _ _)) by lia. done. Qed.

Lemma memcpy_app (h t src : list Z) (n : nat) :
  (n <= length src)%nat -> (n <= length t)%nat ->
  memcpy (h ++ t) (length h) src n = Some (h ++ take n src ++ drop n t).
Proof.
  intros Hs Ht. unfold memcpy. rewrite length_app.
  destruct (Nat.leb_spec (length h + n) (length h + length t)) as [_|?]; [|lia].
  destruct (Nat.leb_spec n (length src)) as [_|?]; [|lia]. simpl.
  by rewrite take_app_length, <- drop_drop, drop_app_length.
Qed.

Lemma slice_app (h v t : list Z) :
  slice (h ++ v ++ t) (length h) (length v) = Some v.
Proof.
  unfold slice. rewrite !length_app.
  destruct (Nat.leb_spec (length h + length v)
              (length h + (length v + length t))) as [_|?]; [|lia].
  by rewrite drop_app_length, take_app_length.
Qed.

(** Turn the Boolean conditions the code tests into propositions. *)
Ltac bool_hyps :=
  repeat match goal with
  | H : _ && _ = true |- _ => apply andb_true_iff in H as [? ?]
  | H : _ || _ = false |- _ => apply orb_false_iff in H as [? ?]
  | H : _ && _ = false |- _ => apply andb_false_iff in H
  | H : _ || _ = true |- _ => apply orb_true_iff in H
  | H : negb _ = true |- _ => apply negb_true_iff in H
  | H : negb _ = false |- _ => apply negb_false_iff in H
  | H : (_ =? _) = true |- _ => apply Z.eqb_eq in H
  | H : (_ =? _) = false |- _ => apply Z.eqb_neq in H
  | H : (_ <=? _) = true |- _ => apply Z.leb_le in H
  | H : (_ <=? _) = false |- _ => apply Z.leb_gt in H
  | H : (_ <? _) = true |- _ => apply Z.ltb_lt in H
  | H : (_ <? _) = false |- _ => apply Z.ltb_ge in H
  | H : (_ >? _) = _ |- _ => rewrite Z.gtb_ltb in H
  | H : (_ >=? _) = _ |- _ => rewrite Z.geb_leb in H
  end.
