(* ===== verification/Endian.v ===== *)
(** * Big-endian field access ([core/include/wblink/endian.h])

    The four accessors the wire codec is written with, over the [option]
    memory of the prelude, and their round trips. *)
From S2P Require Import Prelude.

Definition be16_write (p : list Z) (off : nat) (v : Z) : option (list Z) :=
  p ← wr8 p off (to_u8 (Z.shiftr v 8));
  wr8 p (off + 1) (to_u8 (Z.land v 255)).

Definition be32_write (p : list Z) (off : nat) (v : Z) : option (list Z) :=
  p ← wr8 p off (to_u8 (Z.shiftr v 24));
  p ← wr8 p (off + 1) (to_u8 (Z.land (Z.shiftr v 16) 255));
  p ← wr8 p (off + 2) (to_u8 (Z.land (Z.shiftr v 8) 255));
  wr8 p (off + 3) (to_u8 (Z.land v 255)).

Definition be16_read (p : list Z) (off : nat) : option Z :=
  p0 ← rd8 p off;
  p1 ← rd8 p (off + 1);
  Some (to_u16 (Z.lor (Z.shiftl p0 8) p1)).

Definition be32_read (p : list Z) (off : nat) : option Z :=
  p0 ← rd8 p off;
  p1 ← rd8 p (off + 1);
  p2 ← rd8 p (off + 2);
  p3 ← rd8 p (off + 3);
  Some (Z.lor (Z.lor (Z.lor (to_u32 (Z.shiftl p0 24)) (Z.shiftl p1 16))
                     (Z.shiftl p2 8)) p3).

(** ** The bytes a field occupies, and the field a run of bytes holds *)
Definition be16_bytes (v : Z) : list Z :=
  [to_u8 (Z.shiftr v 8); to_u8 (Z.land v 255)].
Definition be32_bytes (v : Z) : list Z :=
  [to_u8 (Z.shiftr v 24); to_u8 (Z.land (Z.shiftr v 16) 255);
   to_u8 (Z.land (Z.shiftr v 8) 255); to_u8 (Z.land v 255)].
Definition be16_of (p0 p1 : Z) : Z := to_u16 (Z.lor (Z.shiftl p0 8) p1).
Definition be32_of (p0 p1 p2 p3 : Z) : Z :=
  Z.lor (Z.lor (Z.lor (to_u32 (Z.shiftl p0 24)) (Z.shiftl p1 16))
               (Z.shiftl p2 8)) p3.

Lemma lor_shiftl_add a b n :
  0 <= n -> 0 <= b < 2 ^ n -> Z.lor (Z.shiftl a n) b = a * 2 ^ n + b.
Proof.
  intros Hn Hb. rewrite <- Z.shiftl_mul_pow2 by lia.
  symmetry. rewrite <- Z.lxor_lor; [apply Z.add_nocarry_lxor|];
    apply Z.bits_inj'; intros i Hi; rewrite Z.land_spec, Z.bits_0;
    destruct (Z.lt_ge_cases i n) as [H|H].
  - rewrite Z.shiftl_spec_low by lia; reflexivity.
  - rewrite (bits_above n b) by lia; apply andb_false_r.
  - rewrite Z.shiftl_spec_low by lia; reflexivity.
  - rewrite (bits_above n b) by lia; apply andb_false_r.
Qed.

Lemma land_255 v : Z.land v 255 = v mod 256.
Proof. change 255 with (Z.ones 8). rewrite Z.land_ones by lia. reflexivity. Qed.

Lemma be16_of_arith p0 p1 : u8 p0 -> u8 p1 -> be16_of p0 p1 = p0 * 256 + p1.
Proof.
  unfold be16_of; intros H0 H1.
  rewrite lor_shiftl_add by (unfold u8 in *; lia).
  apply to_u16_id. unfold u8, u16 in *. lia.
Qed.

Lemma be32_of_arith p0 p1 p2 p3 :
  u8 p0 -> u8 p1 -> u8 p2 -> u8 p3 ->
  be32_of p0 p1 p2 p3 = ((p0 * 256 + p1) * 256 + p2) * 256 + p3.
Proof.
  unfold be32_of, u8; intros H0 H1 H2 H3.
  rewrite to_u32_id by (rewrite Z.shiftl_mul_pow2 by lia; unfold u32; lia).
  assert (S16 : Z.shiftl p1 16 = p1 * 65536) by (rewrite Z.shiftl_mul_pow2; lia).
  assert (S8 : Z.shiftl p2 8 = p2 * 256) by (rewrite Z.shiftl_mul_pow2; lia).
  rewrite S16, S8.
  rewrite (lor_shiftl_add p0 (p1 * 65536) 24) by lia.
  replace (p0 * 2 ^ 24 + p1 * 65536) with (Z.shiftl (p0 * 256 + p1) 16)
    by (rewrite Z.shiftl_mul_pow2; lia).
  rewrite (lor_shiftl_add _ (p2 * 256) 16) by lia.
  replace ((p0 * 256 + p1) * 2 ^ 16 + p2 * 256)
    with (Z.shiftl ((p0 * 256 + p1) * 256 + p2) 8)
    by (rewrite Z.shiftl_mul_pow2; lia).
  rewrite (lor_shiftl_add _ p3 8) by lia. lia.
Qed.

Lemma be16_of_bytes v :
  u16 v -> be16_of (to_u8 (Z.shiftr v 8)) (to_u8 (Z.land v 255)) = v.
Proof.
  intros Hv. rewrite be16_of_arith by apply to_u8_u8.
  rewrite land_255, Z.shiftr_div_pow2 by lia. unfold to_u8, u16 in *.
  change (2 ^ 8) with 256. Z.div_mod_to_equations; lia.
Qed.

Lemma be32_of_bytes v :
  u32 v ->
  be32_of (to_u8 (Z.shiftr v 24)) (to_u8 (Z.land (Z.shiftr v 16) 255))
          (to_u8 (Z.land (Z.shiftr v 8) 255)) (to_u8 (Z.land v 255)) = v.
Proof.
  intros Hv. rewrite be32_of_arith by apply to_u8_u8.
  rewrite !land_255, !Z.shiftr_div_pow2 by lia. unfold to_u8, u32 in *.
  change (2 ^ 24) with 16777216; change (2 ^ 16) with 65536;
    change (2 ^ 8) with 256. Z.div_mod_to_equations; lia.
Qed.

Lemma be16_bytes_of p0 p1 : u8 p0 -> u8 p1 -> be16_bytes (be16_of p0 p1) = [p0; p1].
Proof.
  intros H0 H1. unfold be16_bytes. rewrite be16_of_arith by assumption.
  rewrite land_255, Z.shiftr_div_pow2 by lia. unfold to_u8, u8 in *.
  change (2 ^ 8) with 256. repeat f_equal; Z.div_mod_to_equations; lia.
Qed.

Lemma be32_bytes_of p0 p1 p2 p3 :
  u8 p0 -> u8 p1 -> u8 p2 -> u8 p3 ->
  be32_bytes (be32_of p0 p1 p2 p3) = [p0; p1; p2; p3].
Proof.
  intros H0 H1 H2 H3. unfold be32_bytes. rewrite be32_of_arith by assumption.
  rewrite !land_255, !Z.shiftr_div_pow2 by lia. unfold to_u8, u8 in *.
  change (2 ^ 24) with 16777216; change (2 ^ 16) with 65536;
    change (2 ^ 8) with 256. repeat f_equal; Z.div_mod_to_equations; lia.
Qed.

Lemma be16_of_u16 p0 p1 : u16 (be16_of p0 p1).
Proof. apply to_u16_u16. Qed.
Lemma be32_of_u32 p0 p1 p2 p3 :
  u8 p0 -> u8 p1 -> u8 p2 -> u8 p3 -> u32 (be32_of p0 p1 p2 p3).
Proof. intros. rewrite be32_of_arith by assumption. unfold u8, u32 in *; lia. Qed.

Lemma be16_bytes_bytes v : bytes (be16_bytes v).
Proof. repeat constructor; apply to_u8_u8. Qed.
Lemma be32_bytes_bytes v : bytes (be32_bytes v).
Proof. repeat constructor; apply to_u8_u8. Qed.

#[export] Hint Resolve be16_of_u16 be32_of_u32 be16_bytes_bytes be32_bytes_bytes
  : ints.
