(* ===== verification/Types.v ===== *)
(** * Protocol constants ([core/include/wblink/types.h]) and the forward
      clamp ([core/include/wblink/clamp.h])

    Constants keep the source's names; a constant of a C++ namespace carries
    the namespace as a prefix ([vcmd_flags_kKnownMask]). Wire sizes are [Z],
    as the [size_t] the codec compares lengths with. *)
From S2P Require Import Prelude.

Definition kMagic : Z := 0x5742.
Definition kProtocolVersion : Z := 0.

(** The packet types of the [ver_type] low nibble. *)
Inductive PacketType : Type :=
| kData | kReservedNack | kLinkReport | kHeartbeat | kCsa | kRecoveryRequest
| kJsccFeedback | kCacheStatus | kCacheRequest | kCacheReply | kAnnounce
| kCacheAssign | kVehicleCmd | kSelectorState | kExtended.

Definition packet_type_code (t : PacketType) : Z :=
  match t with
  | kData => 0x1 | kReservedNack => 0x2 | kLinkReport => 0x3
  | kHeartbeat => 0x4 | kCsa => 0x5 | kRecoveryRequest => 0x6
  | kJsccFeedback => 0x7 | kCacheStatus => 0x8 | kCacheRequest => 0x9
  | kCacheReply => 0xA | kAnnounce => 0xB | kCacheAssign => 0xC
  | kVehicleCmd => 0xD | kSelectorState => 0xE | kExtended => 0xF
  end.

(** [static_cast<PacketType>] of a nibble: every enumerator, [None] for a
    value no enumerator has. *)
Definition packet_type_of (n : Z) : option PacketType :=
  match n with
  | 0x1 => Some kData | 0x2 => Some kReservedNack | 0x3 => Some kLinkReport
  | 0x4 => Some kHeartbeat | 0x5 => Some kCsa | 0x6 => Some kRecoveryRequest
  | 0x7 => Some kJsccFeedback | 0x8 => Some kCacheStatus
  | 0x9 => Some kCacheRequest | 0xA => Some kCacheReply | 0xB => Some kAnnounce
  | 0xC => Some kCacheAssign | 0xD => Some kVehicleCmd
  | 0xE => Some kSelectorState | 0xF => Some kExtended
  | _ => None
  end.

Definition stream_type_kUnknown : Z := 0x00.
Definition stream_type_kRtp : Z := 0x01.
Definition stream_type_kTelemetry : Z := 0x02.
Definition stream_type_kControl : Z := 0x03.
Definition stream_type_kAudio : Z := 0x04.

Definition data_flags_kEndOfBlock : Z := 0x01.
Definition data_flags_kRetransmit : Z := 0x04.
Definition data_flags_kFecRepair : Z := 0x08.
Definition data_flags_kCsaArmed : Z := 0x10.

Definition announce_flags_kKnownMask : Z := Z.lor 0x01 0x02.
Definition kAnnouncePskSize : Z := 16.

Definition vcmd_flags_kAck : Z := 0x01.
Definition vcmd_flags_kRejected : Z := 0x02.
Definition vcmd_flags_kKnownMask : Z := Z.lor vcmd_flags_kAck vcmd_flags_kRejected.
Definition vcmd_id_kMode : Z := 0x07.

Definition kVcmdMaxArg : Z := 4.
Definition vcmd_arg_in_wire_range (cmd_id cmd_arg : Z) : bool :=
  (cmd_id =? vcmd_id_kMode) || (cmd_arg <=? kVcmdMaxArg).

Definition kCommonPrefixSize : Z := 11.
Definition kDataHeaderSize : Z := 26.
Definition kLinkReportSize : Z := 39.
Definition kHeartbeatSize : Z := 11.
Definition kCsaSize : Z := 32.
Definition kRecoveryRequestSize : Z := 18.
Definition kJsccFeedbackSize : Z := 37.
Definition kCacheStatusSize : Z := 29.
Definition kCacheRequestFixedSize : Z := 32.
Definition kCacheReplyFixedSize : Z := 17.
Definition kAnnounceSize : Z := 30.
Definition kCacheAssignSize : Z := 23.
Definition kVehicleCmdSize : Z := 23.
Definition kSelectorStateCalibSize : Z := 36.
Definition kSelectorStateSize : Z := 34.
Definition kSelectorStateLegacySize : Z := 32.

Definition ext_type_kReservedInvalid : Z := 0x00.
Definition ext_type_kCalProbe : Z := 0x01.
Definition ext_type_kCalTally : Z := 0x02.
Definition ext_type_kLinkVerdict : Z := 0x03.
Definition kCalibProbeFixedSize : Z := 22.
Definition kCalibTallySize : Z := 26.
Definition kLinkVerdictSize : Z := 23.
Definition link_verdict_kMax : Z := 6.

Definition cache_capability_kKnownMask : Z := 0x01.
Definition jscc_feedback_flags_kKnownMask : Z := Z.lor 0x01 0x02.

Definition selector_state_flags_kActive : Z := 0x01.
Definition selector_state_flags_kLatched : Z := 0x02.
Definition selector_state_flags_kConflict : Z := 0x04.
Definition selector_state_flags_kHolderPresent : Z := 0x08.
Definition selector_state_flags_kCalibPresent : Z := 0x10.
Definition selector_state_flags_kKnownMask : Z :=
  Z.lor (Z.lor (Z.lor (Z.lor selector_state_flags_kActive
    selector_state_flags_kLatched) selector_state_flags_kConflict)
    selector_state_flags_kHolderPresent) selector_state_flags_kCalibPresent.

Definition kMaxDataPayload : Z := 4096.
Definition kDefaultMaxPayload : Z := 1424.

Definition mtu_tier_kMedium : Z := 1.
Definition mtu_tier_kHigh : Z := 2.
Definition mtu_tier_kMediumBudget : Z := 2048.
Definition mtu_tier_kHighBudget : Z := 3072.
Definition mtu_tier_kFecProtectionK : Z := 16.
Definition mtu_tier_budget (tier : Z) : Z :=
  if tier =? mtu_tier_kHigh then mtu_tier_kHighBudget
  else if tier =? mtu_tier_kMedium then mtu_tier_kMediumBudget
  else kDefaultMaxPayload.
Definition mtu_tier_valid (tier : Z) : bool := tier <=? mtu_tier_kHigh.

Definition kFecRepairSubheaderSize : Z := 11.
Definition kFecOffRepairIdx : nat := 0.
Definition kFecOffWindowLen : nat := 1.
Definition kFecOffWindowBaseSeq : nat := 3.
Definition kFecOffFrameLen : nat := 7.
Definition kMinFrameSymbolSize : Z := 32 - kFecRepairSubheaderSize.
Definition kFecSourceSubheaderSize : Z := 4.
Definition kFecSrcOffWindowLen : nat := 0.
Definition kFecSrcOffSymIndex : nat := 2.
Definition kFecMaxSymbols : Z := 256.
Definition kNoProbe : Z := 0xFFFF.

(** [StreamKey]: the tuple all per-stream receive state is keyed by. *)
Record StreamKey : Type := MkStreamKey {
  sk_originator : Z;
  sk_session_id : Z;
  sk_stream_id : Z
}.
#[export] Instance StreamKey_eq_dec : EqDecision StreamKey.
Proof. solve_decision. Defined.

(** [plausible_forward]: no modular arithmetic, a backward candidate is
    always plausible.  The subtraction is a [uint32_t] one. *)
Definition plausible_forward (cursor candidate clamp_k : Z) : bool :=
  if candidate <=? cursor then true
  else to_u32 (candidate - cursor) <=? clamp_k.

Lemma packet_type_of_code t : packet_type_of (packet_type_code t) = Some t.
Proof. by destruct t. Qed.

Lemma packet_type_code_of n t : packet_type_of n = Some t -> packet_type_code t = n.
Proof.
  unfold packet_type_of. intros H.
  destruct n as [|p|p]; try discriminate.
  do 4 (destruct p as [p|p|]; try discriminate; try (by simplify_eq/=)).
Qed.

Lemma plausible_forward_spec cursor candidate k :
  u32 cursor -> u32 candidate ->
  plausible_forward cursor candidate k = true <->
  candidate <= cursor \/ candidate - cursor <= k.
Proof.
  intros Hc Hd. unfold plausible_forward.
  destruct (Z.leb_spec candidate cursor) as [H|H]; [by intuition|].
  rewrite to_u32_id by (unfold u32 in *; lia). rewrite Z.leb_le. lia.
Qed.
