(* ===== verification/Wire.v ===== *)
(** * Wire header codec ([core/include/wblink/wire.h], [core/src/wire.cpp])

    The packet structures, the encoders and [decode], each written at the
    source's byte offsets over the [option] memory of the prelude: a result
    [None] is an access outside a buffer.  An encoder takes the packet, the
    output pointer and its capacity and returns the byte count (0 = refused)
    with the output buffer afterwards. *)
From S2P Require Import Prelude Endian Types.

(** ** Packets *)

Record CommonPrefix : Type := MkCommonPrefix {
  originator : Z;
  destination : Z;
  session_id : Z
}.

Record DataHeader : Type := MkDataHeader {
  dh_prefix : CommonPrefix;
  dh_stream_id : Z;
  dh_stream_type : Z;
  dh_seq : Z;
  dh_block_id : Z;
  dh_data_flags : Z;
  dh_active_profile : Z;
  dh_table_version : Z
}.

(** [payload] is a view of the decode buffer; [None] is the null pointer. *)
Record DataView : Type := MkDataView {
  dv_hdr : DataHeader;
  dv_payload : ptr;
  dv_payload_len : Z
}.

Record ReservedNack : Type := MkReservedNack { rn_prefix : CommonPrefix }.

Record LinkReport : Type := MkLinkReport {
  lr_prefix : CommonPrefix;
  lr_target_originator : Z;
  lr_target_session : Z;
  lr_target_stream_id : Z;
  lr_report_epoch : Z;
  lr_table_version : Z;
  lr_rssi_best : Z;
  lr_rssi_mean : Z;
  lr_loss_postdiv_prearq : Z;
  lr_uniq : Z;
  lr_diversity : Z;
  lr_adapters : Z;
  lr_probe_per : Z;
  lr_recommended_prof : Z
}.

Record Heartbeat : Type := MkHeartbeat { hb_prefix : CommonPrefix }.

Record SelectorState : Type := MkSelectorState {
  ss_prefix : CommonPrefix;
  ss_table_version : Z;
  ss_active_profile : Z;
  ss_safe_floor_profile : Z;
  ss_ceiling_profile : Z;
  ss_lockout_profile : Z;
  ss_state_flags : Z;
  ss_lockout_strikes : Z;
  ss_remaining_ms : Z;
  ss_transition_reason : Z;
  ss_loss_window_milli : Z;
  ss_lockout_active_mask : Z;
  ss_lockout_latched_mask : Z;
  ss_loss_ewma_milli : Z;
  ss_loss_uniq : Z;
  ss_loss_score : Z;
  ss_report_latch_holder : Z;
  ss_calib_word : Z;
  ss_calib_fingerprint : Z
}.

Record CalibProbe : Type := MkCalibProbe {
  cp_prefix : CommonPrefix;
  cp_run_id : Z;
  cp_dwell_id : Z;
  cp_seq : Z;
  cp_count : Z;
  cp_wire_len : Z
}.

Record CalibTally : Type := MkCalibTally {
  ct_prefix : CommonPrefix;
  ct_run_id : Z;
  ct_dwell_id : Z;
  ct_received : Z;
  ct_rssi_sum_dbm : Z;
  ct_rx_mcs : Z;
  ct_adapter_fingerprint : Z
}.

Record LinkVerdictPkt : Type := MkLinkVerdictPkt {
  lv_prefix : CommonPrefix;
  lv_target_originator : Z;
  lv_target_session : Z;
  lv_report_epoch : Z;
  lv_verdict : Z
}.

Record ExtUnknown : Type := MkExtUnknown {
  eu_prefix : CommonPrefix;
  eu_ext_id : Z
}.

Record RecoveryRequest : Type := MkRecoveryRequest {
  rr_prefix : CommonPrefix;
  rr_target_originator : Z;
  rr_target_session : Z;
  rr_target_stream_id : Z
}.

Record JsccFeedback : Type := MkJsccFeedback {
  jf_prefix : CommonPrefix;
  jf_target_originator : Z;
  jf_target_session : Z;
  jf_target_stream_id : Z;
  jf_feedback_epoch : Z;
  jf_repair_demand_permille : Z;
  jf_rtt_p95_us : Z;
  jf_repair_samples : Z;
  jf_rtt_samples : Z;
  jf_valid_flags : Z;
  jf_observed_block_id : Z
}.

Record CacheStatus : Type := MkCacheStatus {
  cs_prefix : CommonPrefix;
  cs_target_originator : Z;
  cs_target_session : Z;
  cs_target_stream_id : Z;
  cs_oldest_block : Z;
  cs_newest_block : Z;
  cs_rx_health_permille : Z;
  cs_capability_flags : Z
}.

Record CacheRequestHeader : Type := MkCacheRequestHeader {
  cr_prefix : CommonPrefix;
  cr_target_originator : Z;
  cr_target_session : Z;
  cr_target_stream_id : Z;
  cr_target_cache : Z;
  cr_request_id : Z;
  cr_block_id : Z;
  cr_window_len : Z;
  cr_max_symbols : Z
}.

Record CacheRequestView : Type := MkCacheRequestView {
  crv_hdr : CacheRequestHeader;
  crv_missing_sources : ptr;
  crv_repair_have : ptr;
  crv_repair_have_len : Z
}.

Record CacheReplyView : Type := MkCacheReplyView {
  cy_prefix : CommonPrefix;
  cy_request_id : Z;
  cy_wrapped : ptr;
  cy_wrapped_len : Z
}.

Record Announce : Type := MkAnnounce {
  an_prefix : CommonPrefix;
  an_flags : Z;
  an_claimed_by : Z;
  an_psk : list Z
}.

Record CacheAssign : Type := MkCacheAssign {
  ca_prefix : CommonPrefix;
  ca_target_cache : Z;
  ca_target_originator : Z;
  ca_assignment_epoch : Z;
  ca_target_chan : Z;
  ca_target_bw : Z;
  ca_target_net_id : Z
}.

Record VehicleCmd : Type := MkVehicleCmd {
  vc_prefix : CommonPrefix;
  vc_cmd_nonce : Z;
  vc_cmd_seq : Z;
  vc_cmd_flags : Z;
  vc_cmd_id : Z;
  vc_cmd_arg : Z;
  vc_cmd_mac : Z
}.

Record CsaPacket : Type := MkCsaPacket {
  csa_prefix : CommonPrefix;
  csa_nonce : Z;
  csa_seq : Z;
  csa_target_chan : Z;
  csa_target_bw : Z;
  csa_retune_class : Z;
  csa_dt_to_switch_ms : Z;
  csa_t_revert_ms : Z;
  csa_prev_chan : Z;
  csa_prev_bw : Z;
  csa_power_intent : Z;
  csa_mac_field : Z
}.

#[export] Instance CommonPrefix_eq_dec : EqDecision CommonPrefix.
Proof. solve_decision. Defined.
#[export] Instance CacheAssign_eq_dec : EqDecision CacheAssign.
Proof. solve_decision. Defined.

Inductive DecodeError : Type :=
| kTooShort | kBadMagic | kBadVersion | kUnknownType
| kTruncated | kLengthMismatch | kInvalidField.

(** The [Decoded] variant. *)
Inductive Decoded : Type :=
| DErr (e : DecodeError)
| DData (v : DataView)
| DReservedNack (v : ReservedNack)
| DLinkReport (v : LinkReport)
| DHeartbeat (v : Heartbeat)
| DCsa (v : CsaPacket)
| DRecoveryRequest (v : RecoveryRequest)
| DJsccFeedback (v : JsccFeedback)
| DCacheStatus (v : CacheStatus)
| DCacheRequest (v : CacheRequestView)
| DCacheReply (v : CacheReplyView)
| DAnnounce (v : Announce)
| DCacheAssign (v : CacheAssign)
| DVehicleCmd (v : VehicleCmd)
| DSelectorState (v : SelectorState)
| DCalibProbe (v : CalibProbe)
| DCalibTally (v : CalibTally)
| DLinkVerdict (v : LinkVerdictPkt)
| DExtUnknown (v : ExtUnknown).

(** [(flags & ~mask) != 0]: a bit outside the mask is set. *)
Definition has_unknown_bits (flags mask : Z) : bool :=
  negb (Z.land flags (Z.lnot mask) =? 0).
Definition flag_set (flags bit : Z) : bool := negb (Z.land flags bit =? 0).

(** ** Prefix *)

Definition encode_prefix (p : CommonPrefix) (type : PacketType) (out : list Z)
  : option (list Z) :=
  out ← be16_write out 0 kMagic;
  out ← wr8 out 2 (to_u8 (Z.lor (Z.shiftl kProtocolVersion 4)
                                (packet_type_code type)));
  out ← be16_write out 3 p.(originator);
  out ← be16_write out 5 p.(destination);
  be32_write out 7 p.(session_id).

Definition decode_prefix (buf : list Z) : option CommonPrefix :=
  o ← be16_read buf 3;
  d ← be16_read buf 5;
  s ← be32_read buf 7;
  Some (MkCommonPrefix o d s).

(** ** Decoders (one per packet type) *)

Definition decode_data (buf : list Z) : option Decoded :=
  if len buf <? kDataHeaderSize then Some (DErr kTruncated) else
  payload_len ← be16_read buf 24;
  if negb (len buf =? kDataHeaderSize + payload_len)
  then Some (DErr kLengthMismatch) else
  if payload_len >? kMaxDataPayload then Some (DErr kInvalidField) else
  prefix ← decode_prefix buf;
  stream_id ← rd8 buf 11;
  stream_type ← rd8 buf 12;
  seq ← be32_read buf 13;
  block_id ← be32_read buf 17;
  data_flags ← rd8 buf 21;
  active_profile ← rd8 buf 22;
  table_version ← rd8 buf 23;
  payload ← (if payload_len >? 0
             then v ← slice buf (Z.to_nat kDataHeaderSize) (Z.to_nat payload_len);
                  Some (Some v)
             else Some None);
  Some (DData (MkDataView
    (MkDataHeader prefix stream_id stream_type seq block_id data_flags
                  active_profile table_version) payload payload_len)).

Definition decode_reserved_nack (buf : list Z) : option Decoded :=
  prefix ← decode_prefix buf;
  Some (DReservedNack (MkReservedNack prefix)).

Definition decode_link_report (buf : list Z) : option Decoded :=
  if len buf <? kLinkReportSize then Some (DErr kTruncated) else
  if negb (len buf =? kLinkReportSize) then Some (DErr kLengthMismatch) else
  prefix ← decode_prefix buf;
  target_originator ← be16_read buf 11;
  target_session ← be32_read buf 13;
  target_stream_id ← rd8 buf 17;
  report_epoch ← be32_read buf 18;
  table_version ← rd8 buf 22;
  rssi_best ← rd8 buf 23;
  rssi_mean ← rd8 buf 24;
  loss ← be16_read buf 25;
  uniq ← be32_read buf 27;
  diversity ← be32_read buf 31;
  adapters ← rd8 buf 35;
  probe_per ← be16_read buf 36;
  recommended_prof ← rd8 buf 38;
  Some (DLinkReport (MkLinkReport prefix target_originator target_session
    target_stream_id report_epoch table_version (to_i8 rssi_best)
    (to_i8 rssi_mean) loss uniq diversity adapters probe_per recommended_prof)).

Definition decode_heartbeat (buf : list Z) : option Decoded :=
  if negb (len buf =? kHeartbeatSize) then Some (DErr kLengthMismatch) else
  prefix ← decode_prefix buf;
  Some (DHeartbeat (MkHeartbeat prefix)).

Definition selector_state_fields_valid (s : SelectorState) : bool :=
  let active := flag_set s.(ss_state_flags) selector_state_flags_kActive in
  let latched := flag_set s.(ss_state_flags) selector_state_flags_kLatched in
  let conflict := flag_set s.(ss_state_flags) selector_state_flags_kConflict in
  if has_unknown_bits s.(ss_state_flags) selector_state_flags_kKnownMask
     || ((latched || conflict) && negb active)
     || (s.(ss_transition_reason) >? 10)
     || (s.(ss_loss_window_milli) >? 1000)
     || (s.(ss_loss_ewma_milli) >? 1000)
     || has_unknown_bits s.(ss_lockout_latched_mask) s.(ss_lockout_active_mask)
  then false
  else if negb active then
    (s.(ss_lockout_profile) =? 0xFF) && (s.(ss_lockout_strikes) =? 0) &&
    (s.(ss_remaining_ms) =? 0) && (s.(ss_lockout_active_mask) =? 0) &&
    (s.(ss_lockout_latched_mask) =? 0)
  else if (s.(ss_lockout_profile) =? 0xFF) || (s.(ss_lockout_strikes) =? 0) ||
     (s.(ss_lockout_active_mask) =? 0) ||
     (latched && (s.(ss_lockout_latched_mask) =? 0))
  then false
  else if latched then s.(ss_remaining_ms) =? 0 else s.(ss_remaining_ms) >? 0.

Definition decode_selector_state (buf : list Z) : option Decoded :=
  if len buf <? kSelectorStateLegacySize then Some (DErr kTruncated) else
  if negb (len buf =? kSelectorStateCalibSize) &&
     negb (len buf =? kSelectorStateSize) &&
     negb (len buf =? kSelectorStateLegacySize)
  then Some (DErr kLengthMismatch) else
  b16 ← rd8 buf 16;
  let holder_present := flag_set b16 selector_state_flags_kHolderPresent in
  let calib_present := flag_set b16 selector_state_flags_kCalibPresent in
  if calib_present && negb holder_present then Some (DErr kInvalidField) else
  let expect := if calib_present then kSelectorStateCalibSize
                else if holder_present then kSelectorStateSize
                else kSelectorStateLegacySize in
  if negb (len buf =? expect) then Some (DErr kLengthMismatch) else
  prefix ← decode_prefix buf;
  table_version ← rd8 buf 11;
  active_profile ← rd8 buf 12;
  safe_floor_profile ← rd8 buf 13;
  ceiling_profile ← rd8 buf 14;
  lockout_profile ← rd8 buf 15;
  state_flags ← rd8 buf 16;
  lockout_strikes ← rd8 buf 17;
  remaining_ms ← be16_read buf 18;
  transition_reason ← rd8 buf 20;
  loss_window_milli ← be16_read buf 21;
  lockout_active_mask ← rd8 buf 23;
  lockout_latched_mask ← rd8 buf 24;
  loss_ewma_milli ← be16_read buf 25;
  loss_uniq ← be32_read buf 27;
  loss_score ← rd8 buf 31;
  report_latch_holder ← (if holder_present then be16_read buf 32 else Some 0);
  calib_word ← (if calib_present then rd8 buf 34 else Some 0);
  calib_fingerprint ← (if calib_present then rd8 buf 35 else Some 0);
  let s := MkSelectorState prefix table_version active_profile
    safe_floor_profile ceiling_profile lockout_profile state_flags
    lockout_strikes remaining_ms transition_reason loss_window_milli
    lockout_active_mask lockout_latched_mask loss_ewma_milli loss_uniq
    loss_score report_latch_holder calib_word calib_fingerprint in
  Some (if selector_state_fields_valid s then DSelectorState s
        else DErr kInvalidField).

Definition decode_csa (buf : list Z) : option Decoded :=
  if len buf <? kCsaSize then Some (DErr kTruncated) else
  if negb (len buf =? kCsaSize) then Some (DErr kLengthMismatch) else
  prefix ← decode_prefix buf;
  nonce ← be32_read buf 11;
  seq ← rd8 buf 15;
  target_chan ← be16_read buf 16;
  target_bw ← rd8 buf 18;
  retune_class ← rd8 buf 19;
  dt_to_switch_ms ← be16_read buf 20;
  t_revert_ms ← be16_read buf 22;
  prev_chan ← be16_read buf 24;
  prev_bw ← rd8 buf 26;
  power_intent ← rd8 buf 27;
  mac ← be32_read buf 28;
  Some (DCsa (MkCsaPacket prefix nonce seq target_chan target_bw retune_class
    dt_to_switch_ms t_revert_ms prev_chan prev_bw power_intent mac)).

(** [len < size ? kTruncated : kLengthMismatch], for a length that is not
    the type's fixed size. *)
Definition size_error (n size : Z) : Decoded :=
  DErr (if n <? size then kTruncated else kLengthMismatch).

Definition decode_recovery_request (buf : list Z) : option Decoded :=
  if negb (len buf =? kRecoveryRequestSize)
  then Some (size_error (len buf) kRecoveryRequestSize) else
  prefix ← decode_prefix buf;
  target_originator ← be16_read buf 11;
  target_session ← be32_read buf 13;
  target_stream_id ← rd8 buf 17;
  Some (DRecoveryRequest (MkRecoveryRequest prefix target_originator
    target_session target_stream_id)).

Definition decode_jscc_feedback (buf : list Z) : option Decoded :=
  if negb (len buf =? kJsccFeedbackSize)
  then Some (size_error (len buf) kJsccFeedbackSize) else
  prefix ← decode_prefix buf;
  target_originator ← be16_read buf 11;
  target_session ← be32_read buf 13;
  target_stream_id ← rd8 buf 17;
  feedback_epoch ← be32_read buf 18;
  repair_demand_permille ← be16_read buf 22;
  rtt_p95_us ← be32_read buf 24;
  repair_samples ← be16_read buf 28;
  rtt_samples ← be16_read buf 30;
  valid_flags ← rd8 buf 32;
  observed_block_id ← be32_read buf 33;
  if has_unknown_bits valid_flags jscc_feedback_flags_kKnownMask
  then Some (DErr kInvalidField) else
  Some (DJsccFeedback (MkJsccFeedback prefix target_originator target_session
    target_stream_id feedback_epoch repair_demand_permille rtt_p95_us
    repair_samples rtt_samples valid_flags observed_block_id)).

Definition decode_cache_status (buf : list Z) : option Decoded :=
  if negb (len buf =? kCacheStatusSize)
  then Some (size_error (len buf) kCacheStatusSize) else
  prefix ← decode_prefix buf;
  target_originator ← be16_read buf 11;
  target_session ← be32_read buf 13;
  target_stream_id ← rd8 buf 17;
  oldest_block ← be32_read buf 18;
  newest_block ← be32_read buf 22;
  rx_health_permille ← be16_read buf 26;
  capability_flags ← rd8 buf 28;
  if (rx_health_permille >? 1000)
     || has_unknown_bits capability_flags cache_capability_kKnownMask
  then Some (DErr kInvalidField) else
  Some (DCacheStatus (MkCacheStatus prefix target_originator target_session
    target_stream_id oldest_block newest_block rx_health_permille
    capability_flags)).

(** [(k + 7) / 8]: bytes of the missing-source bitmap. *)
Definition bitmap_len (k : Z) : Z := (k + 7) / 8.

Definition decode_cache_request (buf : list Z) : option Decoded :=
  if len buf <? kCacheRequestFixedSize then Some (DErr kTruncated) else
  k ← be16_read buf 28;
  max_symbols ← rd8 buf 30;
  repair_have_len ← rd8 buf 31;
  if (k =? 0) || (k >? kFecMaxSymbols) || (max_symbols =? 0)
     || (repair_have_len >? 32)
  then Some (DErr kInvalidField) else
  let src_len := bitmap_len k in
  if negb (len buf =? kCacheRequestFixedSize + src_len + repair_have_len)
  then Some (DErr kLengthMismatch) else
  prefix ← decode_prefix buf;
  target_originator ← be16_read buf 11;
  target_session ← be32_read buf 13;
  target_stream_id ← rd8 buf 17;
  target_cache ← be16_read buf 18;
  request_id ← be32_read buf 20;
  block_id ← be32_read buf 24;
  missing ← slice buf (Z.to_nat kCacheRequestFixedSize) (Z.to_nat src_len);
  repair_have ← (if repair_have_len >? 0
    then v ← slice buf (Z.to_nat (kCacheRequestFixedSize + src_len))
                   (Z.to_nat repair_have_len); Some (Some v)
    else Some None);
  Some (DCacheRequest (MkCacheRequestView
    (MkCacheRequestHeader prefix target_originator target_session
       target_stream_id target_cache request_id block_id k max_symbols)
    (Some missing) repair_have repair_have_len)).

Definition decode_cache_reply (buf : list Z) : option Decoded :=
  if len buf <? kCacheReplyFixedSize then Some (DErr kTruncated) else
  wrapped_len ← be16_read buf 15;
  if wrapped_len <? kDataHeaderSize then Some (DErr kInvalidField) else
  if negb (len buf =? kCacheReplyFixedSize + wrapped_len)
  then Some (DErr kLengthMismatch) else
  prefix ← decode_prefix buf;
  request_id ← be32_read buf 11;
  wrapped ← slice buf (Z.to_nat kCacheReplyFixedSize) (Z.to_nat wrapped_len);
  Some (DCacheReply (MkCacheReplyView prefix request_id (Some wrapped)
    wrapped_len)).

Definition decode_announce (buf : list Z) : option Decoded :=
  if negb (len buf =? kAnnounceSize)
  then Some (size_error (len buf) kAnnounceSize) else
  flags ← rd8 buf 11;
  if has_unknown_bits flags announce_flags_kKnownMask
  then Some (DErr kInvalidField) else
  prefix ← decode_prefix buf;
  claimed_by ← be16_read buf 12;
  psk ← slice buf 14 (Z.to_nat kAnnouncePskSize);
  Some (DAnnounce (MkAnnounce prefix flags claimed_by psk)).

Definition decode_cache_assign (buf : list Z) : option Decoded :=
  if negb (len buf =? kCacheAssignSize)
  then Some (size_error (len buf) kCacheAssignSize) else
  prefix ← decode_prefix buf;
  target_cache ← be16_read buf 11;
  target_originator ← be16_read buf 13;
  assignment_epoch ← be32_read buf 15;
  target_chan ← be16_read buf 19;
  target_bw ← rd8 buf 21;
  target_net_id ← rd8 buf 22;
  if (target_cache =? 0) || (target_originator =? 0) || (target_chan =? 0)
     || (target_bw >? 2)
  then Some (DErr kInvalidField) else
  Some (DCacheAssign (MkCacheAssign prefix target_cache target_originator
    assignment_epoch target_chan target_bw target_net_id)).

Definition decode_calib_probe (buf : list Z) : option Decoded :=
  if len buf <? kCalibProbeFixedSize then Some (DErr kTruncated) else
  if len buf >? mtu_tier_kHighBudget then Some (DErr kLengthMismatch) else
  prefix ← decode_prefix buf;
  run_id ← be32_read buf 12;
  dwell_id ← be16_read buf 16;
  seq ← be16_read buf 18;
  count ← be16_read buf 20;
  if (dwell_id =? 0) || (seq =? 0) || (count =? 0) || (seq >? count)
     || (prefix.(destination) =? 0)
  then Some (DErr kInvalidField) else
  Some (DCalibProbe (MkCalibProbe prefix run_id dwell_id seq count
    (to_u16 (len buf)))).

Definition decode_calib_tally (buf : list Z) : option Decoded :=
  if negb (len buf =? kCalibTallySize)
  then Some (size_error (len buf) kCalibTallySize) else
  prefix ← decode_prefix buf;
  run_id ← be32_read buf 12;
  dwell_id ← be16_read buf 16;
  received ← be16_read buf 18;
  rssi_sum_dbm ← be32_read buf 20;
  rx_mcs ← rd8 buf 24;
  adapter_fingerprint ← rd8 buf 25;
  if (dwell_id =? 0) || (prefix.(destination) =? 0)
  then Some (DErr kInvalidField) else
  Some (DCalibTally (MkCalibTally prefix run_id dwell_id received rssi_sum_dbm
    rx_mcs adapter_fingerprint)).

Definition decode_link_verdict (buf : list Z) : option Decoded :=
  if negb (len buf =? kLinkVerdictSize)
  then Some (size_error (len buf) kLinkVerdictSize) else
  prefix ← decode_prefix buf;
  target_originator ← be16_read buf 12;
  target_session ← be32_read buf 14;
  report_epoch ← be32_read buf 18;
  verdict ← rd8 buf 22;
  if (verdict >? link_verdict_kMax) || (prefix.(destination) =? 0)
  then Some (DErr kInvalidField) else
  Some (DLinkVerdict (MkLinkVerdictPkt prefix target_originator target_session
    report_epoch verdict)).

Definition decode_extended (buf : list Z) : option Decoded :=
  if len buf <? kCommonPrefixSize + 1 then Some (DErr kTruncated) else
  ext_id ← rd8 buf 11;
  if ext_id =? ext_type_kReservedInvalid then Some (DErr kInvalidField)
  else if ext_id =? ext_type_kCalProbe then decode_calib_probe buf
  else if ext_id =? ext_type_kCalTally then decode_calib_tally buf
  else if ext_id =? ext_type_kLinkVerdict then decode_link_verdict buf
  else
    prefix ← decode_prefix buf;
    Some (DExtUnknown (MkExtUnknown prefix ext_id)).

Definition decode_vehicle_cmd (buf : list Z) : option Decoded :=
  if negb (len buf =? kVehicleCmdSize)
  then Some (size_error (len buf) kVehicleCmdSize) else
  flags ← rd8 buf 16;
  if has_unknown_bits flags vcmd_flags_kKnownMask
  then Some (DErr kInvalidField) else
  prefix ← decode_prefix buf;
  cmd_nonce ← be32_read buf 11;
  cmd_seq ← rd8 buf 15;
  cmd_id ← rd8 buf 17;
  cmd_arg ← rd8 buf 18;
  cmd_mac ← be32_read buf 19;
  if negb (vcmd_arg_in_wire_range cmd_id cmd_arg)
  then Some (DErr kInvalidField) else
  Some (DVehicleCmd (MkVehicleCmd prefix cmd_nonce cmd_seq flags cmd_id cmd_arg
    cmd_mac)).

(** [decode]: one frame, strict length; [None] as argument is [nullptr]. *)
Definition decode (buf : ptr) : option Decoded :=
  match buf with
  | None => Some (DErr kTooShort)
  | Some buf =>
    if len buf <? 2 then Some (DErr kTooShort) else
    magic ← be16_read buf 0;
    if negb (magic =? kMagic) then Some (DErr kBadMagic) else
    if len buf <? kCommonPrefixSize then Some (DErr kTooShort) else
    ver_type ← rd8 buf 2;
    if negb (to_u8 (Z.shiftr ver_type 4) =? kProtocolVersion)
    then Some (DErr kBadVersion) else
    match packet_type_of (Z.land ver_type 0x0F) with
    | Some kData => decode_data buf
    | Some kReservedNack => decode_reserved_nack buf
    | Some kLinkReport => decode_link_report buf
    | Some kHeartbeat => decode_heartbeat buf
    | Some kCsa => decode_csa buf
    | Some kRecoveryRequest => decode_recovery_request buf
    | Some kJsccFeedback => decode_jscc_feedback buf
    | Some kCacheStatus => decode_cache_status buf
    | Some kCacheRequest => decode_cache_request buf
    | Some kCacheReply => decode_cache_reply buf
    | Some kAnnounce => decode_announce buf
    | Some kCacheAssign => decode_cache_assign buf
    | Some kExtended => decode_extended buf
    | Some kVehicleCmd => decode_vehicle_cmd buf
    | Some kSelectorState => decode_selector_state buf
    | None => Some (DErr kUnknownType)
    end
  end.

(** ** Encoders *)

(** Result of an encoder: bytes written (0 = refused) and the buffer. *)
Abbreviation encoded := (option (Z * ptr)).
Definition refused (out : ptr) : encoded := Some (0, out).
Definition written (n : Z) (out : option (list Z)) : encoded :=
  o ← out; Some (n, Some o).

Definition encode_data (hdr : DataHeader) (payload : ptr) (payload_len : Z)
    (out : ptr) (cap : Z) : encoded :=
  let total := kDataHeaderSize + payload_len in
  match out with
  | None => refused out
  | Some o =>
    if (cap <? total)
       || (match payload with None => payload_len >? 0 | Some _ => false end)
    then refused out else
    written total (
      o ← encode_prefix hdr.(dh_prefix) kData o;
      o ← wr8 o 11 hdr.(dh_stream_id);
      o ← wr8 o 12 hdr.(dh_stream_type);
      o ← be32_write o 13 hdr.(dh_seq);
      o ← be32_write o 17 hdr.(dh_block_id);
      o ← wr8 o 21 hdr.(dh_data_flags);
      o ← wr8 o 22 hdr.(dh_active_profile);
      o ← wr8 o 23 hdr.(dh_table_version);
      o ← be16_write o 24 payload_len;
      if payload_len >? 0
      then src ← payload;
           memcpy o (Z.to_nat kDataHeaderSize) src (Z.to_nat payload_len)
      else Some o)
  end.

Definition encode_link_report (pkt : LinkReport) (out : ptr) (cap : Z) : encoded :=
  match out with
  | None => refused out
  | Some o =>
    if cap <? kLinkReportSize then refused out else
    written kLinkReportSize (
      o ← encode_prefix pkt.(lr_prefix) kLinkReport o;
      o ← be16_write o 11 pkt.(lr_target_originator);
      o ← be32_write o 13 pkt.(lr_target_session);
      o ← wr8 o 17 pkt.(lr_target_stream_id);
      o ← be32_write o 18 pkt.(lr_report_epoch);
      o ← wr8 o 22 pkt.(lr_table_version);
      o ← wr8 o 23 (to_u8 pkt.(lr_rssi_best));
      o ← wr8 o 24 (to_u8 pkt.(lr_rssi_mean));
      o ← be16_write o 25 pkt.(lr_loss_postdiv_prearq);
      o ← be32_write o 27 pkt.(lr_uniq);
      o ← be32_write o 31 pkt.(lr_diversity);
      o ← wr8 o 35 pkt.(lr_adapters);
      o ← be16_write o 36 pkt.(lr_probe_per);
      wr8 o 38 pkt.(lr_recommended_prof))
  end.

(** [link_report_stamp_epoch]: the boolean result and the frame after it. *)
Definition link_report_stamp_epoch (frame : ptr) (n epoch : Z)
  : option (bool * ptr) :=
  match frame with
  | None => Some (false, frame)
  | Some f =>
    if n <? kLinkReportSize then Some (false, frame) else
    f ← be32_write f 18 epoch;
    Some (true, Some f)
  end.

Definition encode_heartbeat (pkt : Heartbeat) (out : ptr) (cap : Z) : encoded :=
  match out with
  | None => refused out
  | Some o =>
    if cap <? kHeartbeatSize then refused out else
    written kHeartbeatSize (encode_prefix pkt.(hb_prefix) kHeartbeat o)
  end.

Definition encode_selector_state (pkt : SelectorState) (out : ptr) (cap : Z)
  : encoded :=
  let holder_present :=
    flag_set pkt.(ss_state_flags) selector_state_flags_kHolderPresent in
  let calib_present :=
    flag_set pkt.(ss_state_flags) selector_state_flags_kCalibPresent in
  if calib_present && negb holder_present then refused out else
  let size := if calib_present then kSelectorStateCalibSize
              else if holder_present then kSelectorStateSize
              else kSelectorStateLegacySize in
  match out with
  | None => refused out
  | Some o =>
    if (cap <? size) || negb (selector_state_fields_valid pkt) then refused out
    else written size (
      o ← encode_prefix pkt.(ss_prefix) kSelectorState o;
      o ← wr8 o 11 pkt.(ss_table_version);
      o ← wr8 o 12 pkt.(ss_active_profile);
      o ← wr8 o 13 pkt.(ss_safe_floor_profile);
      o ← wr8 o 14 pkt.(ss_ceiling_profile);
      o ← wr8 o 15 pkt.(ss_lockout_profile);
      o ← wr8 o 16 pkt.(ss_state_flags);
      o ← wr8 o 17 pkt.(ss_lockout_strikes);
      o ← be16_write o 18 pkt.(ss_remaining_ms);
      o ← wr8 o 20 pkt.(ss_transition_reason);
      o ← be16_write o 21 pkt.(ss_loss_window_milli);
      o ← wr8 o 23 pkt.(ss_lockout_active_mask);
      o ← wr8 o 24 pkt.(ss_lockout_latched_mask);
      o ← be16_write o 25 pkt.(ss_loss_ewma_milli);
      o ← be32_write o 27 pkt.(ss_loss_uniq);
      o ← wr8 o 31 pkt.(ss_loss_score);
      o ← (if holder_present then be16_write o 32 pkt.(ss_report_latch_holder)
           else Some o);
      if calib_present then
        o ← wr8 o 34 pkt.(ss_calib_word);
        wr8 o 35 pkt.(ss_calib_fingerprint)
      else Some o)
  end.

Definition encode_announce (pkt : Announce) (out : ptr) (cap : Z) : encoded :=
  match out with
  | None => refused out
  | Some o =>
    if cap <? kAnnounceSize then refused out else
    written kAnnounceSize (
      o ← encode_prefix pkt.(an_prefix) kAnnounce o;
      o ← wr8 o 11 pkt.(an_flags);
      o ← be16_write o 12 pkt.(an_claimed_by);
      memcpy o 14 pkt.(an_psk) (Z.to_nat kAnnouncePskSize))
  end.

Definition encode_cache_assign (pkt : CacheAssign) (out : ptr) (cap : Z)
  : encoded :=
  match out with
  | None => refused out
  | Some o =>
    if (cap <? kCacheAssignSize) || (pkt.(ca_target_cache) =? 0)
       || (pkt.(ca_target_originator) =? 0) || (pkt.(ca_target_chan) =? 0)
       || (pkt.(ca_target_bw) >? 2)
    then refused out else
    written kCacheAssignSize (
      o ← encode_prefix pkt.(ca_prefix) kCacheAssign o;
      o ← be16_write o 11 pkt.(ca_target_cache);
      o ← be16_write o 13 pkt.(ca_target_originator);
      o ← be32_write o 15 pkt.(ca_assignment_epoch);
      o ← be16_write o 19 pkt.(ca_target_chan);
      o ← wr8 o 21 pkt.(ca_target_bw);
      wr8 o 22 pkt.(ca_target_net_id))
  end.

Definition encode_vehicle_cmd (pkt : VehicleCmd) (out : ptr) (cap : Z)
  : encoded :=
  match out with
  | None => refused out
  | Some o =>
    if (cap <? kVehicleCmdSize)
       || has_unknown_bits pkt.(vc_cmd_flags) vcmd_flags_kKnownMask
       || negb (vcmd_arg_in_wire_range pkt.(vc_cmd_id) pkt.(vc_cmd_arg))
    then refused out else
    written kVehicleCmdSize (
      o ← encode_prefix pkt.(vc_prefix) kVehicleCmd o;
      o ← be32_write o 11 pkt.(vc_cmd_nonce);
      o ← wr8 o 15 pkt.(vc_cmd_seq);
      o ← wr8 o 16 pkt.(vc_cmd_flags);
      o ← wr8 o 17 pkt.(vc_cmd_id);
      o ← wr8 o 18 pkt.(vc_cmd_arg);
      be32_write o 19 pkt.(vc_cmd_mac))
  end.

(** [min(max(pad_to, 22), kHighBudget)]: the padded length of a probe. *)
Definition calib_probe_total (pad_to : Z) : Z :=
  Z.min (Z.max pad_to kCalibProbeFixedSize) mtu_tier_kHighBudget.

Definition encode_calib_probe (pkt : CalibProbe) (pad_to : Z) (out : ptr)
    (cap : Z) : encoded :=
  let total := calib_probe_total pad_to in
  match out with
  | None => refused out
  | Some o =>
    if (cap <? total) || (pkt.(cp_dwell_id) =? 0) || (pkt.(cp_seq) =? 0)
       || (pkt.(cp_count) =? 0) || (pkt.(cp_seq) >? pkt.(cp_count))
       || (pkt.(cp_prefix).(destination) =? 0)
    then refused out else
    written total (
      o ← encode_prefix pkt.(cp_prefix) kExtended o;
      o ← wr8 o 11 ext_type_kCalProbe;
      o ← be32_write o 12 pkt.(cp_run_id);
      o ← be16_write o 16 pkt.(cp_dwell_id);
      o ← be16_write o 18 pkt.(cp_seq);
      o ← be16_write o 20 pkt.(cp_count);
      let n := Z.to_nat (total - kCalibProbeFixedSize) in
      memcpy o (Z.to_nat kCalibProbeFixedSize) (replicate n 0) n)
  end.

Definition encode_calib_tally (pkt : CalibTally) (out : ptr) (cap : Z)
  : encoded :=
  match out with
  | None => refused out
  | Some o =>
    if (cap <? kCalibTallySize) || (pkt.(ct_dwell_id) =? 0)
       || (pkt.(ct_prefix).(destination) =? 0)
    then refused out else
    written kCalibTallySize (
      o ← encode_prefix pkt.(ct_prefix) kExtended o;
      o ← wr8 o 11 ext_type_kCalTally;
      o ← be32_write o 12 pkt.(ct_run_id);
      o ← be16_write o 16 pkt.(ct_dwell_id);
      o ← be16_write o 18 pkt.(ct_received);
      o ← be32_write o 20 pkt.(ct_rssi_sum_dbm);
      o ← wr8 o 24 pkt.(ct_rx_mcs);
      wr8 o 25 pkt.(ct_adapter_fingerprint))
  end.

Definition encode_link_verdict (pkt : LinkVerdictPkt) (out : ptr) (cap : Z)
  : encoded :=
  match out with
  | None => refused out
  | Some o =>
    if (cap <? kLinkVerdictSize) || (pkt.(lv_prefix).(destination) =? 0)
       || (pkt.(lv_verdict) >? link_verdict_kMax)
    then refused out else
    written kLinkVerdictSize (
      o ← encode_prefix pkt.(lv_prefix) kExtended o;
      o ← wr8 o 11 ext_type_kLinkVerdict;
      o ← be16_write o 12 pkt.(lv_target_originator);
      o ← be32_write o 14 pkt.(lv_target_session);
      o ← be32_write o 18 pkt.(lv_report_epoch);
      wr8 o 22 pkt.(lv_verdict))
  end.

Definition encode_csa (pkt : CsaPacket) (out : ptr) (cap : Z) : encoded :=
  match out with
  | None => refused out
  | Some o =>
    if cap <? kCsaSize then refused out else
    written kCsaSize (
      o ← encode_prefix pkt.(csa_prefix) kCsa o;
      o ← be32_write o 11 pkt.(csa_nonce);
      o ← wr8 o 15 pkt.(csa_seq);
      o ← be16_write o 16 pkt.(csa_target_chan);
      o ← wr8 o 18 pkt.(csa_target_bw);
      o ← wr8 o 19 pkt.(csa_retune_class);
      o ← be16_write o 20 pkt.(csa_dt_to_switch_ms);
      o ← be16_write o 22 pkt.(csa_t_revert_ms);
      o ← be16_write o 24 pkt.(csa_prev_chan);
      o ← wr8 o 26 pkt.(csa_prev_bw);
      o ← wr8 o 27 pkt.(csa_power_intent);
      be32_write o 28 pkt.(csa_mac_field))
  end.

Definition encode_recovery_request (pkt : RecoveryRequest) (out : ptr) (cap : Z)
  : encoded :=
  match out with
  | None => refused out
  | Some o =>
    if cap <? kRecoveryRequestSize then refused out else
    written kRecoveryRequestSize (
      o ← encode_prefix pkt.(rr_prefix) kRecoveryRequest o;
      o ← be16_write o 11 pkt.(rr_target_originator);
      o ← be32_write o 13 pkt.(rr_target_session);
      wr8 o 17 pkt.(rr_target_stream_id))
  end.

Definition encode_jscc_feedback (pkt : JsccFeedback) (out : ptr) (cap : Z)
  : encoded :=
  match out with
  | None => refused out
  | Some o =>
    if (cap <? kJsccFeedbackSize)
       || has_unknown_bits pkt.(jf_valid_flags) jscc_feedback_flags_kKnownMask
    then refused out else
    written kJsccFeedbackSize (
      o ← encode_prefix pkt.(jf_prefix) kJsccFeedback o;
      o ← be16_write o 11 pkt.(jf_target_originator);
      o ← be32_write o 13 pkt.(jf_target_session);
      o ← wr8 o 17 pkt.(jf_target_stream_id);
      o ← be32_write o 18 pkt.(jf_feedback_epoch);
      o ← be16_write o 22 pkt.(jf_repair_demand_permille);
      o ← be32_write o 24 pkt.(jf_rtt_p95_us);
      o ← be16_write o 28 pkt.(jf_repair_samples);
      o ← be16_write o 30 pkt.(jf_rtt_samples);
      o ← wr8 o 32 pkt.(jf_valid_flags);
      be32_write o 33 pkt.(jf_observed_block_id))
  end.

Definition encode_cache_status (pkt : CacheStatus) (out : ptr) (cap : Z)
  : encoded :=
  match out with
  | None => refused out
  | Some o =>
    if (cap <? kCacheStatusSize) || (pkt.(cs_rx_health_permille) >? 1000)
       || has_unknown_bits pkt.(cs_capability_flags) cache_capability_kKnownMask
    then refused out else
    written kCacheStatusSize (
      o ← encode_prefix pkt.(cs_prefix) kCacheStatus o;
      o ← be16_write o 11 pkt.(cs_target_originator);
      o ← be32_write o 13 pkt.(cs_target_session);
      o ← wr8 o 17 pkt.(cs_target_stream_id);
      o ← be32_write o 18 pkt.(cs_oldest_block);
      o ← be32_write o 22 pkt.(cs_newest_block);
      o ← be16_write o 26 pkt.(cs_rx_health_permille);
      wr8 o 28 pkt.(cs_capability_flags))
  end.

Definition encode_cache_request (hdr : CacheRequestHeader)
    (missing_sources repair_have : ptr) (repair_have_len : Z)
    (out : ptr) (cap : Z) : encoded :=
  if (hdr.(cr_window_len) =? 0) || (hdr.(cr_window_len) >? kFecMaxSymbols)
     || (hdr.(cr_max_symbols) =? 0) || (repair_have_len >? 32)
  then refused out else
  let src_len := bitmap_len hdr.(cr_window_len) in
  let total := kCacheRequestFixedSize + src_len + repair_have_len in
  match out, missing_sources with
  | Some o, Some missing =>
    if (cap <? total)
       || (match repair_have with None => repair_have_len >? 0 | _ => false end)
    then refused out else
    written total (
      o ← encode_prefix hdr.(cr_prefix) kCacheRequest o;
      o ← be16_write o 11 hdr.(cr_target_originator);
      o ← be32_write o 13 hdr.(cr_target_session);
      o ← wr8 o 17 hdr.(cr_target_stream_id);
      o ← be16_write o 18 hdr.(cr_target_cache);
      o ← be32_write o 20 hdr.(cr_request_id);
      o ← be32_write o 24 hdr.(cr_block_id);
      o ← be16_write o 28 hdr.(cr_window_len);
      o ← wr8 o 30 hdr.(cr_max_symbols);
      o ← wr8 o 31 repair_have_len;
      o ← memcpy o (Z.to_nat kCacheRequestFixedSize) missing (Z.to_nat src_len);
      if repair_have_len >? 0
      then src ← repair_have;
           memcpy o (Z.to_nat (kCacheRequestFixedSize + src_len)) src
                  (Z.to_nat repair_have_len)
      else Some o)
  | _, _ => refused out
  end.

Definition encode_cache_reply (prefix : CommonPrefix) (request_id : Z)
    (wrapped : ptr) (wrapped_len : Z) (out : ptr) (cap : Z) : encoded :=
  let total := kCacheReplyFixedSize + wrapped_len in
  match out, wrapped with
  | Some o, Some w =>
    if (cap <? total) || (wrapped_len <? kDataHeaderSize) then refused out else
    written total (
      o ← encode_prefix prefix kCacheReply o;
      o ← be32_write o 11 request_id;
      o ← be16_write o 15 wrapped_len;
      memcpy o (Z.to_nat kCacheReplyFixedSize) w (Z.to_nat wrapped_len))
  | _, _ => refused out
  end.
