(* ===== verification/WireLayout.v ===== *)
(** * Abstract specification of the wire format

    [layout p] is the byte string PROTOCOL.md's tables prescribe for packet
    [p], written as a concatenation of fields; [view p] is the decoded value
    a receiver must see; [packet_valid] is the structural validity an encoder
    demands.  [WireFacts] shows that the offset-based encoders and decoders of
    [Wire] implement this specification. *)
From S2P Require Import Prelude Endian Types Wire.

Inductive Packet : Type :=
| PData (hdr : DataHeader) (payload : ptr) (payload_len : Z)
| PLinkReport (r : LinkReport)
| PHeartbeat (h : Heartbeat)
| PSelectorState (s : SelectorState)
| PAnnounce (a : Announce)
| PCacheAssign (a : CacheAssign)
| PVehicleCmd (c : VehicleCmd)
| PCalibProbe (c : CalibProbe) (pad_to : Z)
| PCalibTally (t : CalibTally)
| PLinkVerdict (v : LinkVerdictPkt)
| PCsa (c : CsaPacket)
| PRecoveryRequest (r : RecoveryRequest)
| PJsccFeedback (f : JsccFeedback)
| PCacheStatus (s : CacheStatus)
| PCacheRequest (h : CacheRequestHeader) (missing repair : ptr) (repair_len : Z)
| PCacheReply (p : CommonPrefix) (request_id : Z) (wrapped : ptr) (wrapped_len : Z).

Definition encode_packet (p : Packet) (out : ptr) (cap : Z) : encoded :=
  match p with
  | PData h pl n => encode_data h pl n out cap
  | PLinkReport r => encode_link_report r out cap
  | PHeartbeat h => encode_heartbeat h out cap
  | PSelectorState s => encode_selector_state s out cap
  | PAnnounce a => encode_announce a out cap
  | PCacheAssign a => encode_cache_assign a out cap
  | PVehicleCmd c => encode_vehicle_cmd c out cap
  | PCalibProbe c pad => encode_calib_probe c pad out cap
  | PCalibTally t => encode_calib_tally t out cap
  | PLinkVerdict v => encode_link_verdict v out cap
  | PCsa c => encode_csa c out cap
  | PRecoveryRequest r => encode_recovery_request r out cap
  | PJsccFeedback f => encode_jscc_feedback f out cap
  | PCacheStatus s => encode_cache_status s out cap
  | PCacheRequest h m r n => encode_cache_request h m r n out cap
  | PCacheReply p i w n => encode_cache_reply p i w n out cap
  end.

(** ** Field layouts *)

Definition prefix_layout (t : PacketType) (p : CommonPrefix) : list Z :=
  be16_bytes kMagic ++ [packet_type_code t] ++ be16_bytes p.(originator)
  ++ be16_bytes p.(destination) ++ be32_bytes p.(session_id).

(** The bytes a pointer argument contributes: its first [n]. *)
Definition ptr_bytes (p : ptr) (n : Z) : list Z :=
  take (Z.to_nat n) (default [] p).

Definition ss_holder (s : SelectorState) : bool :=
  flag_set s.(ss_state_flags) selector_state_flags_kHolderPresent.
Definition ss_calib (s : SelectorState) : bool :=
  flag_set s.(ss_state_flags) selector_state_flags_kCalibPresent.

Definition data_header_layout (h : DataHeader) (n : Z) : list Z :=
  prefix_layout kData h.(dh_prefix) ++ [h.(dh_stream_id); h.(dh_stream_type)] ++
  be32_bytes h.(dh_seq) ++ be32_bytes h.(dh_block_id) ++
  [h.(dh_data_flags); h.(dh_active_profile); h.(dh_table_version)] ++
  be16_bytes n.

Definition selector_state_base_layout (s : SelectorState) : list Z :=
  prefix_layout kSelectorState s.(ss_prefix) ++
  [s.(ss_table_version); s.(ss_active_profile); s.(ss_safe_floor_profile);
   s.(ss_ceiling_profile); s.(ss_lockout_profile); s.(ss_state_flags);
   s.(ss_lockout_strikes)] ++ be16_bytes s.(ss_remaining_ms) ++
  [s.(ss_transition_reason)] ++ be16_bytes s.(ss_loss_window_milli) ++
  [s.(ss_lockout_active_mask); s.(ss_lockout_latched_mask)] ++
  be16_bytes s.(ss_loss_ewma_milli) ++ be32_bytes s.(ss_loss_uniq) ++
  [s.(ss_loss_score)].

Definition cache_request_fixed_layout (h : CacheRequestHeader) (n : Z) : list Z :=
  prefix_layout kCacheRequest h.(cr_prefix) ++
  be16_bytes h.(cr_target_originator) ++ be32_bytes h.(cr_target_session) ++
  [h.(cr_target_stream_id)] ++ be16_bytes h.(cr_target_cache) ++
  be32_bytes h.(cr_request_id) ++ be32_bytes h.(cr_block_id) ++
  be16_bytes h.(cr_window_len) ++ [h.(cr_max_symbols); n].

Definition layout (p : Packet) : list Z :=
  match p with
  | PData h pl n => data_header_layout h n ++ ptr_bytes pl n
  | PLinkReport r =>
      prefix_layout kLinkReport r.(lr_prefix) ++
      be16_bytes r.(lr_target_originator) ++ be32_bytes r.(lr_target_session) ++
      [r.(lr_target_stream_id)] ++ be32_bytes r.(lr_report_epoch) ++
      [r.(lr_table_version); to_u8 r.(lr_rssi_best); to_u8 r.(lr_rssi_mean)] ++
      be16_bytes r.(lr_loss_postdiv_prearq) ++ be32_bytes r.(lr_uniq) ++
      be32_bytes r.(lr_diversity) ++ [r.(lr_adapters)] ++
      be16_bytes r.(lr_probe_per) ++ [r.(lr_recommended_prof)]
  | PHeartbeat h => prefix_layout kHeartbeat h.(hb_prefix)
  | PSelectorState s =>
      selector_state_base_layout s ++
      (if ss_holder s then be16_bytes s.(ss_report_latch_holder) else []) ++
      (if ss_calib s then [s.(ss_calib_word); s.(ss_calib_fingerprint)] else [])
  | PAnnounce a =>
      prefix_layout kAnnounce a.(an_prefix) ++ [a.(an_flags)] ++
      be16_bytes a.(an_claimed_by) ++ a.(an_psk)
  | PCacheAssign a =>
      prefix_layout kCacheAssign a.(ca_prefix) ++
      be16_bytes a.(ca_target_cache) ++ be16_bytes a.(ca_target_originator) ++
      be32_bytes a.(ca_assignment_epoch) ++ be16_bytes a.(ca_target_chan) ++
      [a.(ca_target_bw); a.(ca_target_net_id)]
  | PVehicleCmd c =>
      prefix_layout kVehicleCmd c.(vc_prefix) ++ be32_bytes c.(vc_cmd_nonce) ++
      [c.(vc_cmd_seq); c.(vc_cmd_flags); c.(vc_cmd_id); c.(vc_cmd_arg)] ++
      be32_bytes c.(vc_cmd_mac)
  | PCalibProbe c pad =>
      prefix_layout kExtended c.(cp_prefix) ++ [ext_type_kCalProbe] ++
      be32_bytes c.(cp_run_id) ++ be16_bytes c.(cp_dwell_id) ++
      be16_bytes c.(cp_seq) ++ be16_bytes c.(cp_count) ++
      replicate (Z.to_nat (calib_probe_total pad - kCalibProbeFixedSize)) 0
  | PCalibTally t =>
      prefix_layout kExtended t.(ct_prefix) ++ [ext_type_kCalTally] ++
      be32_bytes t.(ct_run_id) ++ be16_bytes t.(ct_dwell_id) ++
      be16_bytes t.(ct_received) ++ be32_bytes t.(ct_rssi_sum_dbm) ++
      [t.(ct_rx_mcs); t.(ct_adapter_fingerprint)]
  | PLinkVerdict v =>
      prefix_layout kExtended v.(lv_prefix) ++ [ext_type_kLinkVerdict] ++
      be16_bytes v.(lv_target_originator) ++ be32_bytes v.(lv_target_session) ++
      be32_bytes v.(lv_report_epoch) ++ [v.(lv_verdict)]
  | PCsa c =>
      prefix_layout kCsa c.(csa_prefix) ++ be32_bytes c.(csa_nonce) ++
      [c.(csa_seq)] ++ be16_bytes c.(csa_target_chan) ++
      [c.(csa_target_bw); c.(csa_retune_class)] ++
      be16_bytes c.(csa_dt_to_switch_ms) ++ be16_bytes c.(csa_t_revert_ms) ++
      be16_bytes c.(csa_prev_chan) ++ [c.(csa_prev_bw); c.(csa_power_intent)] ++
      be32_bytes c.(csa_mac_field)
  | PRecoveryRequest r =>
      prefix_layout kRecoveryRequest r.(rr_prefix) ++
      be16_bytes r.(rr_target_originator) ++ be32_bytes r.(rr_target_session) ++
      [r.(rr_target_stream_id)]
  | PJsccFeedback f =>
      prefix_layout kJsccFeedback f.(jf_prefix) ++
      be16_bytes f.(jf_target_originator) ++ be32_bytes f.(jf_target_session) ++
      [f.(jf_target_stream_id)] ++ be32_bytes f.(jf_feedback_epoch) ++
      be16_bytes f.(jf_repair_demand_permille) ++ be32_bytes f.(jf_rtt_p95_us) ++
      be16_bytes f.(jf_repair_samples) ++ be16_bytes f.(jf_rtt_samples) ++
      [f.(jf_valid_flags)] ++ be32_bytes f.(jf_observed_block_id)
  | PCacheStatus s =>
      prefix_layout kCacheStatus s.(cs_prefix) ++
      be16_bytes s.(cs_target_originator) ++ be32_bytes s.(cs_target_session) ++
      [s.(cs_target_stream_id)] ++ be32_bytes s.(cs_oldest_block) ++
      be32_bytes s.(cs_newest_block) ++ be16_bytes s.(cs_rx_health_permille) ++
      [s.(cs_capability_flags)]
  | PCacheRequest h m r n =>
      cache_request_fixed_layout h n ++
      ptr_bytes m (bitmap_len h.(cr_window_len)) ++ ptr_bytes r n
  | PCacheReply p i w n =>
      prefix_layout kCacheReply p ++ be32_bytes i ++ be16_bytes n ++ ptr_bytes w n
  end.

(** The number of bytes an encoder of [p] writes. *)
Definition packet_size (p : Packet) : Z :=
  match p with
  | PData _ _ n => kDataHeaderSize + n
  | PLinkReport _ => kLinkReportSize
  | PHeartbeat _ => kHeartbeatSize
  | PSelectorState s =>
      if ss_calib s then kSelectorStateCalibSize
      else if ss_holder s then kSelectorStateSize else kSelectorStateLegacySize
  | PAnnounce _ => kAnnounceSize
  | PCacheAssign _ => kCacheAssignSize
  | PVehicleCmd _ => kVehicleCmdSize
  | PCalibProbe _ pad => calib_probe_total pad
  | PCalibTally _ => kCalibTallySize
  | PLinkVerdict _ => kLinkVerdictSize
  | PCsa _ => kCsaSize
  | PRecoveryRequest _ => kRecoveryRequestSize
  | PJsccFeedback _ => kJsccFeedbackSize
  | PCacheStatus _ => kCacheStatusSize
  | PCacheRequest h _ _ n =>
      kCacheRequestFixedSize + bitmap_len h.(cr_window_len) + n
  | PCacheReply _ _ _ n => kCacheReplyFixedSize + n
  end.

(** The arguments an encoder accepts. *)
Definition packet_valid (p : Packet) : bool :=
  match p with
  | PData _ pl n => match pl with None => negb (n >? 0) | Some _ => true end
  | PSelectorState s =>
      negb (ss_calib s && negb (ss_holder s)) && selector_state_fields_valid s
  | PCacheAssign a =>
      negb (a.(ca_target_cache) =? 0) && negb (a.(ca_target_originator) =? 0) &&
      negb (a.(ca_target_chan) =? 0) && (a.(ca_target_bw) <=? 2)
  | PVehicleCmd c =>
      negb (has_unknown_bits c.(vc_cmd_flags) vcmd_flags_kKnownMask) &&
      vcmd_arg_in_wire_range c.(vc_cmd_id) c.(vc_cmd_arg)
  | PCalibProbe c _ =>
      negb (c.(cp_dwell_id) =? 0) && negb (c.(cp_seq) =? 0) &&
      negb (c.(cp_count) =? 0) && (c.(cp_seq) <=? c.(cp_count)) &&
      negb (c.(cp_prefix).(destination) =? 0)
  | PCalibTally t =>
      negb (t.(ct_dwell_id) =? 0) && negb (t.(ct_prefix).(destination) =? 0)
  | PLinkVerdict v =>
      (v.(lv_verdict) <=? link_verdict_kMax) &&
      negb (v.(lv_prefix).(destination) =? 0)
  | PJsccFeedback f =>
      negb (has_unknown_bits f.(jf_valid_flags) jscc_feedback_flags_kKnownMask)
  | PCacheStatus s =>
      (s.(cs_rx_health_permille) <=? 1000) &&
      negb (has_unknown_bits s.(cs_capability_flags) cache_capability_kKnownMask)
  | PCacheRequest h m r n =>
      negb (h.(cr_window_len) =? 0) && (h.(cr_window_len) <=? kFecMaxSymbols) &&
      negb (h.(cr_max_symbols) =? 0) && (n <=? 32) &&
      match m with None => false | Some _ => true end &&
      match r with None => negb (n >? 0) | Some _ => true end
  | PCacheReply _ _ w n =>
      match w with None => false | Some _ => true end && (kDataHeaderSize <=? n)
  | PAnnounce _ | PLinkReport _ | PHeartbeat _ | PCsa _ | PRecoveryRequest _ => true
  end.

(** What the decoder additionally demands of an encoded packet: the DATA
    payload ceiling and the reserved ANNOUNCE bits, which the encoders do not
    check. *)
Definition packet_receivable (p : Packet) : bool :=
  match p with
  | PData _ _ n => n <=? kMaxDataPayload
  | PAnnounce a => negb (has_unknown_bits a.(an_flags) announce_flags_kKnownMask)
  | _ => true
  end.

(** A view pointer into the decode buffer; null when empty. *)
Definition view_ptr (p : ptr) (n : Z) : ptr :=
  if n >? 0 then Some (ptr_bytes p n) else None.

(** What [decode] returns for the packet. *)
Definition view (p : Packet) : Decoded :=
  match p with
  | PData h pl n => DData (MkDataView h (view_ptr pl n) n)
  | PLinkReport r => DLinkReport r
  | PHeartbeat h => DHeartbeat h
  | PSelectorState s => DSelectorState s
  | PAnnounce a => DAnnounce a
  | PCacheAssign a => DCacheAssign a
  | PVehicleCmd c => DVehicleCmd c
  | PCalibProbe c pad =>
      DCalibProbe (MkCalibProbe c.(cp_prefix) c.(cp_run_id) c.(cp_dwell_id)
        c.(cp_seq) c.(cp_count) (calib_probe_total pad))
  | PCalibTally t => DCalibTally t
  | PLinkVerdict v => DLinkVerdict v
  | PCsa c => DCsa c
  | PRecoveryRequest r => DRecoveryRequest r
  | PJsccFeedback f => DJsccFeedback f
  | PCacheStatus s => DCacheStatus s
  | PCacheRequest h m r n =>
      DCacheRequest (MkCacheRequestView h
        (Some (ptr_bytes m (bitmap_len h.(cr_window_len)))) (view_ptr r n) n)
  | PCacheReply p i w n =>
      DCacheReply (MkCacheReplyView p i (Some (ptr_bytes w n)) n)
  end.

(** ** Widths: every field fits the C++ type it is stored in *)

Definition wf_prefix (p : CommonPrefix) : Prop :=
  u16 p.(originator) /\ u16 p.(destination) /\ u32 p.(session_id).

(** [p] points at [n] readable bytes whenever it is not null. *)
Definition wf_ptr (p : ptr) (n : Z) : Prop :=
  match p with None => True | Some l => bytes l /\ n <= len l end.

Definition wf_data_header (h : DataHeader) : Prop :=
  wf_prefix h.(dh_prefix) /\ u8 h.(dh_stream_id) /\ u8 h.(dh_stream_type) /\
  u32 h.(dh_seq) /\ u32 h.(dh_block_id) /\ u8 h.(dh_data_flags) /\
  u8 h.(dh_active_profile) /\ u8 h.(dh_table_version).

(** The selector-state fields that are not on the wire keep their default. *)
Definition wf_selector_state (s : SelectorState) : Prop :=
  wf_prefix s.(ss_prefix) /\ u8 s.(ss_table_version) /\
  u8 s.(ss_active_profile) /\ u8 s.(ss_safe_floor_profile) /\
  u8 s.(ss_ceiling_profile) /\ u8 s.(ss_lockout_profile) /\
  u8 s.(ss_state_flags) /\ u8 s.(ss_lockout_strikes) /\
  u16 s.(ss_remaining_ms) /\ u8 s.(ss_transition_reason) /\
  u16 s.(ss_loss_window_milli) /\ u8 s.(ss_lockout_active_mask) /\
  u8 s.(ss_lockout_latched_mask) /\ u16 s.(ss_loss_ewma_milli) /\
  u32 s.(ss_loss_uniq) /\ u8 s.(ss_loss_score) /\
  u16 s.(ss_report_latch_holder) /\ u8 s.(ss_calib_word) /\
  u8 s.(ss_calib_fingerprint) /\
  (ss_holder s = false -> s.(ss_report_latch_holder) = 0) /\
  (ss_calib s = false -> s.(ss_calib_word) = 0 /\ s.(ss_calib_fingerprint) = 0).

Definition wf_packet (p : Packet) : Prop :=
  match p with
  | PData h pl n => wf_data_header h /\ u16 n /\ wf_ptr pl n
  | PLinkReport r =>
      wf_prefix r.(lr_prefix) /\ u16 r.(lr_target_originator) /\
      u32 r.(lr_target_session) /\ u8 r.(lr_target_stream_id) /\
      u32 r.(lr_report_epoch) /\ u8 r.(lr_table_version) /\
      i8 r.(lr_rssi_best) /\ i8 r.(lr_rssi_mean) /\
      u16 r.(lr_loss_postdiv_prearq) /\ u32 r.(lr_uniq) /\ u32 r.(lr_diversity) /\
      u8 r.(lr_adapters) /\ u16 r.(lr_probe_per) /\ u8 r.(lr_recommended_prof)
  | PHeartbeat h => wf_prefix h.(hb_prefix)
  | PSelectorState s => wf_selector_state s
  | PAnnounce a =>
      wf_prefix a.(an_prefix) /\ u8 a.(an_flags) /\ u16 a.(an_claimed_by) /\
      bytes a.(an_psk) /\ len a.(an_psk) = kAnnouncePskSize
  | PCacheAssign a =>
      wf_prefix a.(ca_prefix) /\ u16 a.(ca_target_cache) /\
      u16 a.(ca_target_originator) /\ u32 a.(ca_assignment_epoch) /\
      u16 a.(ca_target_chan) /\ u8 a.(ca_target_bw) /\ u8 a.(ca_target_net_id)
  | PVehicleCmd c =>
      wf_prefix c.(vc_prefix) /\ u32 c.(vc_cmd_nonce) /\ u8 c.(vc_cmd_seq) /\
      u8 c.(vc_cmd_flags) /\ u8 c.(vc_cmd_id) /\ u8 c.(vc_cmd_arg) /\
      u32 c.(vc_cmd_mac)
  | PCalibProbe c pad =>
      wf_prefix c.(cp_prefix) /\ u32 c.(cp_run_id) /\ u16 c.(cp_dwell_id) /\
      u16 c.(cp_seq) /\ u16 c.(cp_count) /\ u16 pad
  | PCalibTally t =>
      wf_prefix t.(ct_prefix) /\ u32 t.(ct_run_id) /\ u16 t.(ct_dwell_id) /\
      u16 t.(ct_received) /\ u32 t.(ct_rssi_sum_dbm) /\ u8 t.(ct_rx_mcs) /\
      u8 t.(ct_adapter_fingerprint)
  | PLinkVerdict v =>
      wf_prefix v.(lv_prefix) /\ u16 v.(lv_target_originator) /\
      u32 v.(lv_target_session) /\ u32 v.(lv_report_epoch) /\ u8 v.(lv_verdict)
  | PCsa c =>
      wf_prefix c.(csa_prefix) /\ u32 c.(csa_nonce) /\ u8 c.(csa_seq) /\
      u16 c.(csa_target_chan) /\ u8 c.(csa_target_bw) /\ u8 c.(csa_retune_class) /\
      u16 c.(csa_dt_to_switch_ms) /\ u16 c.(csa_t_revert_ms) /\
      u16 c.(csa_prev_chan) /\ u8 c.(csa_prev_bw) /\ u8 c.(csa_power_intent) /\
      u32 c.(csa_mac_field)
  | PRecoveryRequest r =>
      wf_prefix r.(rr_prefix) /\ u16 r.(rr_target_originator) /\
      u32 r.(rr_target_session) /\ u8 r.(rr_target_stream_id)
  | PJsccFeedback f =>
      wf_prefix f.(jf_prefix) /\ u16 f.(jf_target_originator) /\
      u32 f.(jf_target_session) /\ u8 f.(jf_target_stream_id) /\
      u32 f.(jf_feedback_epoch) /\ u16 f.(jf_repair_demand_permille) /\
      u32 f.(jf_rtt_p95_us) /\ u16 f.(jf_repair_samples) /\
      u16 f.(jf_rtt_samples) /\ u8 f.(jf_valid_flags) /\ u32 f.(jf_observed_block_id)
  | PCacheStatus s =>
      wf_prefix s.(cs_prefix) /\ u16 s.(cs_target_originator) /\
      u32 s.(cs_target_session) /\ u8 s.(cs_target_stream_id) /\
      u32 s.(cs_oldest_block) /\ u32 s.(cs_newest_block) /\
      u16 s.(cs_rx_health_permille) /\ u8 s.(cs_capability_flags)
  | PCacheRequest h m r n =>
      wf_prefix h.(cr_prefix) /\ u16 h.(cr_target_originator) /\
      u32 h.(cr_target_session) /\ u8 h.(cr_target_stream_id) /\
      u16 h.(cr_target_cache) /\ u32 h.(cr_request_id) /\ u32 h.(cr_block_id) /\
      u16 h.(cr_window_len) /\ u8 h.(cr_max_symbols) /\ u8 n /\
      wf_ptr m (bitmap_len h.(cr_window_len)) /\ wf_ptr r n
  | PCacheReply p i w n => wf_prefix p /\ u32 i /\ u16 n /\ wf_ptr w n
  end.
