(* ===== verification/WireFacts.v ===== *)
(** * The wire codec implements its layout specification *)
From S2P Require Import Prelude Endian Types Wire WireLayout.
(** Evaluate offset arithmetic but neither the arithmetic of field values nor
    the lengths compared with wire sizes. *)
Ltac wire_cbn :=
  cbn -[Z.shiftr Z.land Z.shiftl Z.lor to_u8 to_u16 to_u32 to_i8 Z.of_nat
        Z.to_nat Z.ltb Z.leb Z.eqb Z.gtb Z.add Z.mul Z.sub bitmap_len
        calib_probe_total has_unknown_bits flag_set vcmd_arg_in_wire_range
        selector_state_fields_valid].

Ltac wire_sizes :=
  unfold kDataHeaderSize, kLinkReportSize, kHeartbeatSize, kCsaSize,
    kRecoveryRequestSize, kJsccFeedbackSize, kCacheStatusSize,
    kCacheRequestFixedSize, kCacheReplyFixedSize, kAnnounceSize,
    kCacheAssignSize, kVehicleCmdSize, kSelectorStateCalibSize,
    kSelectorStateSize, kSelectorStateLegacySize, kCalibProbeFixedSize,
    kCalibTallySize, kLinkVerdictSize, kCommonPrefixSize, kAnnouncePskSize,
    kMaxDataPayload, kFecMaxSymbols, link_verdict_kMax, mtu_tier_kHighBudget
    in *.

(** ** Encoders *)

Definition encodes_as (p : Packet) (o : list Z) (cap : Z) : Prop :=
  encode_packet p (Some o) cap =
  if packet_valid p && (packet_size p <=? cap)
  then Some (packet_size p,
             Some (layout p ++ drop (Z.to_nat (packet_size p)) o))
  else Some (0, Some o).

(** Decide every test of a fixed-size encoder, then write the [n] bytes. *)
Ltac encode_fixed n :=
  intros Hc; unfold encodes_as; cbn [encode_packet packet_size packet_valid];
  wire_sizes;
  lazymatch goal with |- ?f _ _ _ = _ => unfold f end; wire_sizes;
  repeat (case_test ||
    match goal with
    | |- context [has_unknown_bits ?a ?b] => destruct (has_unknown_bits a b)
    | |- context [vcmd_arg_in_wire_range ?a ?b] =>
        destruct (vcmd_arg_in_wire_range a b)
    end);
  cbn [negb andb orb]; try lia; try reflexivity;
  match goal with o : list Z |- _ => explode o n end; reflexivity.

Section FixedSize.
Context (o : list Z) (cap : Z).

Lemma encode_link_report_spec r : cap <= len o -> encodes_as (PLinkReport r) o cap.
Proof. encode_fixed 39%nat. Qed.
Lemma encode_heartbeat_spec h : cap <= len o -> encodes_as (PHeartbeat h) o cap.
Proof. encode_fixed 11%nat. Qed.
Lemma encode_csa_spec c : cap <= len o -> encodes_as (PCsa c) o cap.
Proof. encode_fixed 32%nat. Qed.
Lemma encode_recovery_request_spec r :
  cap <= len o -> encodes_as (PRecoveryRequest r) o cap.
Proof. encode_fixed 18%nat. Qed.
Lemma encode_jscc_feedback_spec f :
  cap <= len o -> encodes_as (PJsccFeedback f) o cap.
Proof. encode_fixed 37%nat. Qed.
Lemma encode_cache_status_spec s :
  cap <= len o -> encodes_as (PCacheStatus s) o cap.
Proof. encode_fixed 29%nat. Qed.
Lemma encode_cache_assign_spec a :
  cap <= len o -> encodes_as (PCacheAssign a) o cap.
Proof. encode_fixed 23%nat. Qed.
Lemma encode_vehicle_cmd_spec c :
  cap <= len o -> encodes_as (PVehicleCmd c) o cap.
Proof. encode_fixed 23%nat. Qed.
Lemma encode_calib_tally_spec t :
  cap <= len o -> encodes_as (PCalibTally t) o cap.
Proof. encode_fixed 26%nat. Qed.
Lemma encode_link_verdict_spec v :
  cap <= len o -> encodes_as (PLinkVerdict v) o cap.
Proof. encode_fixed 23%nat. Qed.

Lemma encode_selector_state_spec s :
  cap <= len o -> encodes_as (PSelectorState s) o cap.
Proof.
  intros Hc. unfold encodes_as; cbn [encode_packet packet_size packet_valid layout].
  unfold encode_selector_state. fold (ss_holder s) (ss_calib s).
  wire_sizes.
  destruct (ss_calib s) eqn:Ec, (ss_holder s) eqn:Eh; cbn [negb andb];
    try reflexivity; repeat case_test; cbn [negb andb orb];
    destruct (selector_state_fields_valid s); try lia; try reflexivity.
  - explode o 36%nat. reflexivity.
  - explode o 34%nat. reflexivity.
  - explode o 32%nat. reflexivity.
Qed.

End FixedSize.

(** A copy behind a header of literal length: evaluate the header's length,
    then split destination and source where the copy ends. *)
Lemma encode_data_spec h pl n o cap :
  cap <= len o -> u16 n -> wf_ptr pl n -> encodes_as (PData h pl n) o cap.
Proof.
  intros Hc Hn Hp. unfold encodes_as; cbn [encode_packet packet_size packet_valid layout].
  unfold encode_data; wire_sizes. unfold u16 in Hn.
  destruct (Z.ltb_spec cap (26 + n)) as [H|H]; destruct (Z.leb_spec (26 + n) cap);
    try lia; rewrite ?andb_false_r, ?orb_true_r; [done|].
  rewrite andb_true_r. cbn [orb].
  rewrite Z2Nat.inj_add by lia. unfold ptr_bytes.
  destruct (Z.gtb_spec n 0) as [Hpos|Hpos]; cbn [negb andb].
  - destruct pl as [src|]; [|done]. destruct Hp as [_ Hp].
    explode o 26%nat. cbn [length] in Hc.
    change (Z.to_nat 26) with 26%nat. cbn [default].
    assert (Hm : (Z.to_nat n <= length src /\ Z.to_nat n <= length rest)%nat)
      by (cbn [app length] in Hc; lia).
    generalize dependent (Z.to_nat n); intros m [? ?].
    pose (hd := data_header_layout h n).
    transitivity (written (26 + n) (memcpy (hd ++ rest) (length hd) src m));
      [reflexivity|].
    rewrite memcpy_app by lia. reflexivity.
  - assert (n = 0) as -> by lia.
    explode o 26%nat. by destruct pl.
Qed.

Lemma encode_announce_spec a o cap :
  cap <= len o -> len a.(an_psk) = kAnnouncePskSize ->
  encodes_as (PAnnounce a) o cap.
Proof.
  intros Hc Hp. unfold encodes_as; cbn [encode_packet packet_size packet_valid layout].
  unfold encode_announce; wire_sizes.
  destruct (Z.ltb_spec cap 30) as [H|H]; destruct (Z.leb_spec 30 cap); try lia; [done|].
  cbn [andb]. explode o 30%nat.
  destruct a as [p f c psk]; cbn [an_psk an_prefix an_flags an_claimed_by] in *.
  explode psk 16%nat.
  destruct rest0 as [|? ?]; [reflexivity | cbn [app length] in Hp; lia].
Qed.

Lemma encode_calib_probe_spec c pad o cap :
  cap <= len o -> encodes_as (PCalibProbe c pad) o cap.
Proof.
  intros Hc. unfold encodes_as; cbn [encode_packet packet_size packet_valid layout].
  unfold encode_calib_probe; wire_sizes.
  assert (Ht : 22 <= calib_probe_total pad) by
    (unfold calib_probe_total; wire_sizes; lia).
  set (total := calib_probe_total pad) in *. clearbody total.
  repeat case_test; cbn [negb andb orb]; try lia; try reflexivity.
  explode o 22%nat.
  set (m := Z.to_nat (total - 22)).
  replace (Z.to_nat total) with (22 + m)%nat by lia.
  change (Z.to_nat 22) with 22%nat.
  set (hd := prefix_layout kExtended c.(cp_prefix) ++ [ext_type_kCalProbe] ++
      be32_bytes c.(cp_run_id) ++ be16_bytes c.(cp_dwell_id) ++
      be16_bytes c.(cp_seq) ++ be16_bytes c.(cp_count)).
  transitivity (written total (memcpy (hd ++ rest) (length hd) (replicate m 0) m));
    [reflexivity|].
  rewrite memcpy_app;
    [| rewrite length_replicate; lia | cbn [app length] in Hc; lia].
  rewrite take_ge by (rewrite length_replicate; lia). reflexivity.
Qed.

Lemma encode_cache_reply_spec p i w n o cap :
  cap <= len o -> u16 n -> wf_ptr w n -> encodes_as (PCacheReply p i w n) o cap.
Proof.
  intros Hc Hn Hp. unfold encodes_as; cbn [encode_packet packet_size packet_valid layout].
  unfold encode_cache_reply; wire_sizes. unfold u16 in Hn.
  destruct w as [w|]; [|done].
  repeat case_test; cbn [negb andb orb]; try lia; try reflexivity.
  destruct Hp as [_ Hp]. rewrite Z2Nat.inj_add by lia. unfold ptr_bytes.
  explode o 17%nat. change (Z.to_nat 17) with 17%nat.
  set (hd := prefix_layout kCacheReply p ++ be32_bytes i ++ be16_bytes n).
  transitivity (written (17 + n)
    (memcpy (hd ++ rest) (length hd) w (Z.to_nat n))); [reflexivity|].
  rewrite memcpy_app by (cbn [app length] in Hc; lia). reflexivity.
Qed.

Lemma bitmap_len_bounds k : 0 < k <= 256 -> 1 <= bitmap_len k <= 32.
Proof. unfold bitmap_len; intros. Z.div_mod_to_equations; lia. Qed.

Lemma encode_cache_request_spec h m r n o cap :
  cap <= len o -> u16 h.(cr_window_len) -> u8 n ->
  wf_ptr m (bitmap_len h.(cr_window_len)) -> wf_ptr r n ->
  encodes_as (PCacheRequest h m r n) o cap.
Proof.
  intros Hc Hk Hn Hm Hr. unfold encodes_as; cbn [encode_packet packet_size packet_valid layout].
  unfold encode_cache_request; wire_sizes. unfold u8, u16 in *.
  destruct m as [m|]; [|repeat case_test; cbn; try done; by rewrite ?andb_false_r].
  repeat case_test; cbn [negb andb orb]; try lia; try reflexivity;
    (destruct r as [r|]; cbn [negb andb orb]; try reflexivity).
  all: pose proof (bitmap_len_bounds h.(cr_window_len) ltac:(lia)) as Hb.
  all: destruct Hm as [_ Hm]; set (b := bitmap_len _) in *.
  all: try (destruct Hr as [_ Hr]).
  all: explode o 32%nat; cbn [app length] in Hc; unfold ptr_bytes; cbn [default].
  all: rewrite ?Z2Nat.inj_add by lia; change (Z.to_nat 32) with 32%nat.
  all: set (hd := cache_request_fixed_layout h n).
  1: transitivity (written (32 + b + n)
       (o ← memcpy (hd ++ rest) (length hd) m (Z.to_nat b);
        memcpy o (length hd + Z.to_nat b) r (Z.to_nat n))); [reflexivity|].
  2,3: transitivity (written (32 + b + n)
         (o ← memcpy (hd ++ rest) (length hd) m (Z.to_nat b); Some o));
       [ reflexivity |].
  all: rewrite memcpy_app by lia.
  - cbn [mbind option_bind].
    replace (length hd + Z.to_nat b)%nat
      with (length (hd ++ take (Z.to_nat b) m))
      by (rewrite length_app, length_take, Nat.min_l by lia; reflexivity).
    rewrite (app_assoc hd), memcpy_app by (rewrite ?length_drop; lia).
    cbn [written mbind option_bind]. rewrite <- !app_assoc, drop_drop.
    reflexivity.
  - assert (n = 0) as -> by lia. cbn [Z.to_nat]. rewrite Nat.add_0_r, take_0, app_nil_r.
    rewrite <- app_assoc. reflexivity.
  - assert (n = 0) as -> by lia. cbn [Z.to_nat]. rewrite Nat.add_0_r, take_nil, app_nil_r.
    rewrite <- app_assoc. reflexivity.
Qed.

Lemma encode_packet_spec p o cap :
  wf_packet p -> cap <= len o -> encodes_as p o cap.
Proof.
  intros Hwf Hc. destruct p; cbn [wf_packet] in Hwf.
  - destruct Hwf as (_&?&?). by apply encode_data_spec.
  - by apply encode_link_report_spec.
  - by apply encode_heartbeat_spec.
  - by apply encode_selector_state_spec.
  - destruct Hwf as (_&_&_&_&?). by apply encode_announce_spec.
  - by apply encode_cache_assign_spec.
  - by apply encode_vehicle_cmd_spec.
  - by apply encode_calib_probe_spec.
  - by apply encode_calib_tally_spec.
  - by apply encode_link_verdict_spec.
  - by apply encode_csa_spec.
  - by apply encode_recovery_request_spec.
  - by apply encode_jscc_feedback_spec.
  - by apply encode_cache_status_spec.
  - destruct Hwf as (_&_&_&_&_&_&_&?&_&?&?&?). by apply encode_cache_request_spec.
  - destruct Hwf as (_&_&?&?). by apply encode_cache_reply_spec.
Qed.

Lemma encode_packet_null p cap : encode_packet p None cap = Some (0, None).
Proof.
  destruct p; cbn [encode_packet]; try reflexivity.
  - unfold encode_selector_state. by destruct (_ && _).
  - unfold encode_cache_request. by destruct (_ || _).
Qed.

(** ** Decoders *)

Lemma be16_rt v : u16 v ->
  to_u16 (Z.lor (Z.shiftl (to_u8 (Z.shiftr v 8)) 8) (to_u8 (Z.land v 255))) = v.
Proof. apply be16_of_bytes. Qed.
Lemma be32_rt v : u32 v ->
  Z.lor (Z.lor (Z.lor (to_u32 (Z.shiftl (to_u8 (Z.shiftr v 24)) 24))
    (Z.shiftl (to_u8 (Z.land (Z.shiftr v 16) 255)) 16))
    (Z.shiftl (to_u8 (Z.land (Z.shiftr v 8) 255)) 8)) (to_u8 (Z.land v 255)) = v.
Proof. apply be32_of_bytes. Qed.

Lemma decode_prefix_layout t p rest :
  wf_prefix p -> decode_prefix (prefix_layout t p ++ rest) = Some p.
Proof.
  intros (H1 & H2 & H3).
  destruct p as [o d s]; cbn [originator destination session_id] in *.
  wire_cbn. by rewrite !be16_rt, be32_rt.
Qed.

(** The decoder [decode] dispatches a frame of type [t] to. *)
Definition decode_body (t : PacketType) : list Z -> option Decoded :=
  match t with
  | kData => decode_data
  | kReservedNack => decode_reserved_nack
  | kLinkReport => decode_link_report
  | kHeartbeat => decode_heartbeat
  | kCsa => decode_csa
  | kRecoveryRequest => decode_recovery_request
  | kJsccFeedback => decode_jscc_feedback
  | kCacheStatus => decode_cache_status
  | kCacheRequest => decode_cache_request
  | kCacheReply => decode_cache_reply
  | kAnnounce => decode_announce
  | kCacheAssign => decode_cache_assign
  | kExtended => decode_extended
  | kVehicleCmd => decode_vehicle_cmd
  | kSelectorState => decode_selector_state
  end.

Lemma decode_dispatch t p rest :
  decode (Some (prefix_layout t p ++ rest)) =
  decode_body t (prefix_layout t p ++ rest).
Proof.
  unfold decode.
  assert (L : len (prefix_layout t p ++ rest) = 11 + len rest)
    by (rewrite length_app; change (length (prefix_layout t p)) with 11%nat; lia).
  rewrite L. wire_sizes.
  destruct (Z.ltb_spec (11 + len rest) 2); [lia|].
  replace (be16_read (prefix_layout t p ++ rest) 0) with (Some kMagic)
    by reflexivity.
  cbn [mbind option_bind]. rewrite Z.eqb_refl. cbn [negb].
  destruct (Z.ltb_spec (11 + len rest) 11); [lia|].
  by destruct t.
Qed.

(** Decide the tests between literals. *)
Ltac lit_tests :=
  repeat match goal with
  | |- context [Z.of_nat (S ?n)] =>
      let v := eval vm_compute in (Z.of_nat (S n)) in
      match v with Zpos _ => change (Z.of_nat (S n)) with v end
  | |- context [Zpos ?a <? Zpos ?b] =>
      let v := eval vm_compute in (Zpos a <? Zpos b) in
      change (Zpos a <? Zpos b) with v
  | |- context [Zpos ?a =? Zpos ?b] =>
      let v := eval vm_compute in (Zpos a =? Zpos b) in
      change (Zpos a =? Zpos b) with v
  end.

Definition decodes_as (p : Packet) : Prop :=
  wf_packet p -> packet_valid p = true -> packet_receivable p = true ->
  decode (Some (layout p)) = Some (view p).

(** Dispatch on the prefix, read every field of a fixed-size packet, and
    discharge the decoder's own checks with the packet's validity. *)
Ltac decode_begin :=
  red; intros; cbn [layout view packet_valid packet_receivable wf_packet] in *;
  destruct_and?;
  unfold data_header_layout, selector_state_base_layout, cache_request_fixed_layout;
  rewrite <- ?app_assoc; rewrite decode_dispatch; cbn [decode_body].
Ltac decode_fields :=
  rewrite ?decode_prefix_layout by done; wire_sizes;
  wire_cbn; lit_tests; cbn [negb andb orb]; wire_cbn;
  rewrite ?be16_rt, ?be32_rt, ?i8_roundtrip by done.
Ltac decode_checks :=
  bool_hyps; repeat match goal with
  | H : has_unknown_bits _ _ = _ |- _ => rewrite H
  | H : vcmd_arg_in_wire_range _ _ = _ |- _ => rewrite H
  end;
  cbn [negb andb orb]; repeat case_test; cbn [negb andb orb]; try lia.
Ltac decode_fixed :=
  decode_begin;
  lazymatch goal with |- ?f _ = _ => unfold f end;
  decode_fields; decode_checks;
  match goal with p : _ |- _ = Some (_ ?p) => by destruct p end.

Lemma decode_link_report_layout r : decodes_as (PLinkReport r).
Proof. decode_fixed. Qed.
Lemma decode_csa_layout c : decodes_as (PCsa c).
Proof. decode_fixed. Qed.
Lemma decode_recovery_request_layout r : decodes_as (PRecoveryRequest r).
Proof. decode_fixed. Qed.
Lemma decode_jscc_feedback_layout f : decodes_as (PJsccFeedback f).
Proof. decode_fixed. Qed.
Lemma decode_cache_status_layout s : decodes_as (PCacheStatus s).
Proof. decode_fixed. Qed.
Lemma decode_cache_assign_layout a : decodes_as (PCacheAssign a).
Proof. decode_fixed. Qed.
Lemma decode_vehicle_cmd_layout c : decodes_as (PVehicleCmd c).
Proof. decode_fixed. Qed.
Lemma decode_heartbeat_layout h : decodes_as (PHeartbeat h).
Proof.
  red; intros. cbn [layout]. rewrite <- (app_nil_r (prefix_layout _ _)).
  rewrite decode_dispatch. cbn [decode_body]. unfold decode_heartbeat.
  rewrite decode_prefix_layout by done. by destruct h.
Qed.

(** An EXTENDED frame is dispatched once more on its first payload byte. *)
Lemma decode_extended_dispatch p rest (id : Z) :
  decode_extended (prefix_layout kExtended p ++ [id] ++ rest) =
  let buf := prefix_layout kExtended p ++ [id] ++ rest in
  if id =? ext_type_kReservedInvalid then Some (DErr kInvalidField)
  else if id =? ext_type_kCalProbe then decode_calib_probe buf
  else if id =? ext_type_kCalTally then decode_calib_tally buf
  else if id =? ext_type_kLinkVerdict then decode_link_verdict buf
  else prefix ← decode_prefix buf; Some (DExtUnknown (MkExtUnknown prefix id)).
Proof.
  unfold decode_extended.
  assert (L : len (prefix_layout kExtended p ++ [id] ++ rest) = 12 + len rest)
    by (rewrite !length_app; change (length (prefix_layout kExtended p)) with 11%nat;
        cbn [length]; lia).
  rewrite L. wire_sizes. by destruct (Z.ltb_spec (12 + len rest) (11 + 1)); [lia|].
Qed.

Lemma decode_calib_tally_layout t : decodes_as (PCalibTally t).
Proof.
  decode_begin. rewrite decode_extended_dispatch. cbn [Z.eqb]. 
  change (decode_calib_tally (layout (PCalibTally t)) = Some (DCalibTally t)).
  unfold decode_calib_tally. cbn [layout].
  decode_fields. decode_checks. by destruct t.
Qed.
Lemma decode_link_verdict_layout v : decodes_as (PLinkVerdict v).
Proof.
  decode_begin. rewrite decode_extended_dispatch.
  change (decode_link_verdict (layout (PLinkVerdict v)) = Some (DLinkVerdict v)).
  unfold decode_link_verdict. cbn [layout].
  decode_fields. decode_checks. by destruct v.
Qed.

Lemma decode_calib_probe_layout c pad : decodes_as (PCalibProbe c pad).
Proof.
  decode_begin. rewrite decode_extended_dispatch.
  change (decode_calib_probe (layout (PCalibProbe c pad)) =
          Some (view (PCalibProbe c pad))).
  unfold decode_calib_probe. cbn [layout].
  assert (Ht : 22 <= calib_probe_total pad <= 3072) by
    (unfold calib_probe_total; wire_sizes; lia).
  set (n := Z.to_nat (calib_probe_total pad - kCalibProbeFixedSize)).
  match goal with |- context [len ?l] =>
    replace (len l) with (calib_probe_total pad)
      by (rewrite !length_app, length_replicate; cbn [length prefix_layout];
          wire_sizes; cbn; lia) end.
  generalize (replicate n 0); intros tl.
  decode_fields. decode_checks.
  rewrite to_u16_id by (unfold u16; lia). reflexivity.
Qed.

Lemma ptr_bytes_length pl n : wf_ptr pl n -> 0 <= n -> is_Some pl \/ n = 0 ->
  len (ptr_bytes pl n) = n.
Proof.
  intros Hp Hn Hs. unfold ptr_bytes. rewrite length_take.
  destruct pl as [l|]; cbn [default].
  - destruct Hp. cbn. lia.
  - destruct Hs as [[? ?]| ->]; [done|]. reflexivity.
Qed.

(** A view of [n] bytes behind a header of literal length. *)
Lemma slice_view (hd v t : list Z) (off : nat) (n : Z) :
  off = length hd -> len v = n ->
  slice (hd ++ v ++ t) off (Z.to_nat n) = Some v.
Proof. intros -> <-. rewrite Nat2Z.id. apply slice_app. Qed.

Lemma decode_data_layout h pl n : decodes_as (PData h pl n).
Proof.
  decode_begin. unfold decode_data.
  assert (L : len (ptr_bytes pl n) = n).
  { apply ptr_bytes_length; [done|unfold u16 in *; lia|].
    destruct pl; [left; eauto|right]. bool_hyps. unfold u16 in *. lia. }
  match goal with |- context [slice ?l _ _] => set (buf := l) end.
  assert (Lb : len buf = 26 + n)
    by (subst buf; rewrite !length_app; cbn [length prefix_layout]; cbn; lia).
  assert (Hs : slice buf (Z.to_nat kDataHeaderSize) (Z.to_nat n)
               = Some (ptr_bytes pl n)).
  { transitivity (slice (data_header_layout h n ++ ptr_bytes pl n ++ []) 26
      (Z.to_nat n)); [by rewrite app_nil_r|by apply slice_view]. }
  assert (H24 : be16_read buf 24 = Some n)
    by (subst buf; cbn [layout]; wire_cbn; by rewrite be16_rt).
  rewrite H24. cbn [mbind option_bind]. rewrite Hs, Lb.
  unfold u16 in *. bool_hyps. subst buf. wire_sizes.
  unfold wf_data_header in *. destruct_and?.
  rewrite decode_prefix_layout by done. unfold view_ptr.
  repeat case_test; cbn [negb]; try lia; wire_cbn; rewrite !be32_rt by done;
    by destruct h.
Qed.

Lemma decode_cache_reply_layout p i w n : decodes_as (PCacheReply p i w n).
Proof.
  decode_begin. unfold decode_cache_reply.
  assert (L : len (ptr_bytes w n) = n).
  { apply ptr_bytes_length; [done|unfold u16 in *; lia|].
    destruct w; [left; eauto|done]. }
  match goal with |- context [slice ?l _ _] => set (buf := l) end.
  assert (Lb : len buf = 17 + n)
    by (subst buf; rewrite !length_app; cbn [length prefix_layout]; cbn; lia).
  assert (Hs : slice buf (Z.to_nat kCacheReplyFixedSize) (Z.to_nat n)
               = Some (ptr_bytes w n)).
  { transitivity (slice ((prefix_layout kCacheReply p ++ be32_bytes i ++
      be16_bytes n) ++ ptr_bytes w n ++ []) 17 (Z.to_nat n));
      [by rewrite app_nil_r|by apply slice_view]. }
  assert (H15 : be16_read buf 15 = Some n)
    by (subst buf; wire_cbn; by rewrite be16_rt).
  rewrite H15. cbn [mbind option_bind]. rewrite Hs, Lb.
  unfold u16 in *. bool_hyps. subst buf. wire_sizes.
  rewrite decode_prefix_layout by done.
  repeat case_test; cbn [negb]; try lia; wire_cbn; by rewrite be32_rt.
Qed.

Lemma decode_announce_layout a : decodes_as (PAnnounce a).
Proof.
  decode_begin. unfold decode_announce.
  destruct a as [p f c psk]; cbn [an_psk an_prefix an_flags an_claimed_by] in *.
  match goal with |- context [slice ?l _ _] => set (buf := l) end.
  assert (Lb : len buf = 30)
    by (subst buf; rewrite !length_app; cbn [length prefix_layout]; wire_sizes; cbn; lia).
  assert (Hs : slice buf 14 (Z.to_nat kAnnouncePskSize) = Some psk).
  { transitivity (slice ((prefix_layout kAnnounce p ++ [f] ++ be16_bytes c) ++
      psk ++ []) 14 (Z.to_nat kAnnouncePskSize)); [by rewrite app_nil_r|].
    by apply slice_view. }
  rewrite Hs, Lb. subst buf. wire_sizes.
  rewrite decode_prefix_layout by done. lit_tests. cbn [negb]. wire_cbn.
  decode_checks. by rewrite be16_rt.
Qed.

Lemma decode_cache_request_layout h m r n : decodes_as (PCacheRequest h m r n).
Proof.
  decode_begin. unfold decode_cache_request. bool_hyps. unfold u8, u16 in *. wire_sizes.
  pose proof (bitmap_len_bounds h.(cr_window_len) ltac:(lia)) as Hb.
  set (k := bitmap_len _) in *.
  assert (Lm : len (ptr_bytes m k) = k)
    by (apply ptr_bytes_length; [done|lia|destruct m; [left; eauto|done]]).
  assert (Lr : len (ptr_bytes r n) = n).
  { apply ptr_bytes_length; [done|lia|].
    destruct r; [left; eauto|right]. bool_hyps. lia. }
  match goal with |- context [slice ?l _ _] => set (buf := l) end.
  assert (Lb : len buf = 32 + k + n)
    by (subst buf; rewrite !length_app; cbn [length prefix_layout]; cbn; lia).
  set (hd := cache_request_fixed_layout h n).
  assert (Hs : slice buf (Z.to_nat 32) (Z.to_nat k) = Some (ptr_bytes m k)).
  { transitivity (slice (hd ++ ptr_bytes m k ++ ptr_bytes r n) 32 (Z.to_nat k));
      [done|by apply slice_view]. }
  assert (Hr : slice buf (Z.to_nat (32 + k)) (Z.to_nat n) = Some (ptr_bytes r n)).
  { transitivity (slice ((hd ++ ptr_bytes m k) ++ ptr_bytes r n ++ [])
      (Z.to_nat (32 + k)) (Z.to_nat n)); [by rewrite app_nil_r, <- app_assoc|].
    apply slice_view; [|done]. rewrite length_app.
    change (length hd) with 32%nat. lia. }
  assert (H28 : be16_read buf 28 = Some h.(cr_window_len))
    by (subst buf; wire_cbn; by rewrite be16_rt).
  assert (H30 : rd8 buf 30 = Some h.(cr_max_symbols)) by reflexivity.
  assert (H31 : rd8 buf 31 = Some n) by reflexivity.
  rewrite H28, H30, H31. cbn [mbind option_bind]. fold k. rewrite Hs, Hr, Lb.
  clear Hs Hr H28 H30 H31 Lb.
  subst buf hd.
  rewrite decode_prefix_layout by done. unfold view_ptr.
  repeat case_test; cbn [negb orb]; try lia; wire_cbn;
    rewrite ?be16_rt, ?be32_rt by done; by destruct h.
Qed.

Lemma decode_selector_state_layout s : decodes_as (PSelectorState s).
Proof.
  decode_begin. unfold decode_selector_state. bool_hyps.
  assert (V : selector_state_fields_valid s = true) by done.
  unfold wf_selector_state in *. destruct_and?.
  rewrite !decode_prefix_layout by done. wire_sizes.
  destruct (ss_calib s) eqn:Ec, (ss_holder s) eqn:Eh; cbn [negb andb] in *;
    try (by destruct_or?); wire_cbn; lit_tests; cbn [negb andb];
    fold (ss_holder s) (ss_calib s); rewrite Ec, Eh; wire_cbn; lit_tests; wire_cbn;
    rewrite ?be16_rt, ?be32_rt by done;
    match goal with |- context [selector_state_fields_valid ?t] =>
      replace t with s; [by rewrite V|] end;
    repeat match goal with H : false = false -> _ |- _ => specialize (H eq_refl) end;
    destruct s; cbn in *; naive_solver.
Qed.

Lemma decode_layout p : decodes_as p.
Proof.
  destruct p.
  - apply decode_data_layout.
  - apply decode_link_report_layout.
  - apply decode_heartbeat_layout.
  - apply decode_selector_state_layout.
  - apply decode_announce_layout.
  - apply decode_cache_assign_layout.
  - apply decode_vehicle_cmd_layout.
  - apply decode_calib_probe_layout.
  - apply decode_calib_tally_layout.
  - apply decode_link_verdict_layout.
  - apply decode_csa_layout.
  - apply decode_recovery_request_layout.
  - apply decode_jscc_feedback_layout.
  - apply decode_cache_status_layout.
  - apply decode_cache_request_layout.
  - apply decode_cache_reply_layout.
Qed.

(** ** No decoder reads outside the received frame *)

Lemma slice_some (buf : list Z) (off n : nat) :
  (off + n <= length buf)%nat -> is_Some (slice buf off n).
Proof. intros H. unfold slice. destruct (Nat.leb_spec (off + n) (length buf)); [eauto|lia]. Qed.

(** The tests of a decoder, once its fixed header has been read. *)
Ltac safe_end :=
  repeat match goal with
  | |- context [match (if ?b then _ else _) with _ => _ end] => destruct b
  | |- is_Some (if ?b then _ else _) => destruct b
  | |- is_Some (Some _) => by eexists
  | |- is_Some (option_bind _ _ _ _ _) => idtac
  end.

Ltac safe_fixed n :=
  repeat case_test; cbn [negb andb orb]; try (by eexists);
  match goal with b : list Z |- _ => wire_sizes; explode b n end;
  wire_cbn; safe_end.

Section Safety.
Context (buf : list Z).
Hypothesis Hlen : 11 <= len buf.

Lemma decode_reserved_nack_safe : is_Some (decode_reserved_nack buf).
Proof. unfold decode_reserved_nack. safe_fixed 11%nat. Qed.
Lemma decode_heartbeat_safe : is_Some (decode_heartbeat buf).
Proof. unfold decode_heartbeat. safe_fixed 11%nat. Qed.
Lemma decode_link_report_safe : is_Some (decode_link_report buf).
Proof. unfold decode_link_report. safe_fixed 39%nat. Qed.
Lemma decode_csa_safe : is_Some (decode_csa buf).
Proof. unfold decode_csa. safe_fixed 32%nat. Qed.
Lemma decode_recovery_request_safe : is_Some (decode_recovery_request buf).
Proof. unfold decode_recovery_request. safe_fixed 18%nat. Qed.
Lemma decode_jscc_feedback_safe : is_Some (decode_jscc_feedback buf).
Proof. unfold decode_jscc_feedback. safe_fixed 37%nat. Qed.
Lemma decode_cache_status_safe : is_Some (decode_cache_status buf).
Proof. unfold decode_cache_status. safe_fixed 29%nat. Qed.
Lemma decode_cache_assign_safe : is_Some (decode_cache_assign buf).
Proof. unfold decode_cache_assign. safe_fixed 23%nat. Qed.
Lemma decode_vehicle_cmd_safe : is_Some (decode_vehicle_cmd buf).
Proof. unfold decode_vehicle_cmd. safe_fixed 23%nat. Qed.
Lemma decode_calib_probe_safe : is_Some (decode_calib_probe buf).
Proof. unfold decode_calib_probe. safe_fixed 22%nat. Qed.
Lemma decode_calib_tally_safe : is_Some (decode_calib_tally buf).
Proof. unfold decode_calib_tally. safe_fixed 26%nat. Qed.
Lemma decode_link_verdict_safe : is_Some (decode_link_verdict buf).
Proof. unfold decode_link_verdict. safe_fixed 23%nat. Qed.
Lemma decode_selector_state_safe : is_Some (decode_selector_state buf).
Proof.
  unfold decode_selector_state. wire_sizes.
  destruct (Z.ltb_spec (len buf) 32); [by eexists|].
  destruct (Z.eqb_spec (len buf) 36) as [E|?]; [|
  destruct (Z.eqb_spec (len buf) 34) as [E|?]; [|
  destruct (Z.eqb_spec (len buf) 32) as [E|?]; [|by eexists]]];
  rewrite E; cbn [negb andb];
  [explode buf 36%nat|explode buf 34%nat|explode buf 32%nat]; wire_cbn;
  match goal with |- context [flag_set ?f selector_state_flags_kHolderPresent] =>
    destruct (flag_set f selector_state_flags_kHolderPresent),
             (flag_set f selector_state_flags_kCalibPresent) end;
  wire_cbn; lit_tests; wire_cbn; by eexists.
Qed.

(** Variable-length types: the length test bounds every view. *)
Lemma be16_read_some n :
  (n + 1 < length buf)%nat -> exists v, be16_read buf n = Some v.
Proof.
  intros H. unfold be16_read, rd8.
  destruct (lookup_lt_is_Some_2 buf n ltac:(lia)) as [a ->].
  destruct (lookup_lt_is_Some_2 buf (n + 1) ltac:(lia)) as [b ->]. by eexists.
Qed.
Lemma be32_read_some n :
  (n + 3 < length buf)%nat -> exists v, be32_read buf n = Some v.
Proof.
  intros H. unfold be32_read, rd8.
  destruct (lookup_lt_is_Some_2 buf n ltac:(lia)) as [a ->].
  destruct (lookup_lt_is_Some_2 buf (n + 1) ltac:(lia)) as [b ->].
  destruct (lookup_lt_is_Some_2 buf (n + 2) ltac:(lia)) as [c ->].
  destruct (lookup_lt_is_Some_2 buf (n + 3) ltac:(lia)) as [d ->]. by eexists.
Qed.
Lemma rd8_some n : (n < length buf)%nat -> exists v, rd8 buf n = Some v.
Proof. intros H. destruct (lookup_lt_is_Some_2 buf n H); eauto. Qed.
Lemma decode_prefix_some : exists p, decode_prefix buf = Some p.
Proof.
  unfold decode_prefix.
  destruct (be16_read_some 3 ltac:(lia)) as [? ->].
  destruct (be16_read_some 5 ltac:(lia)) as [? ->].
  destruct (be32_read_some 7 ltac:(lia)) as [? ->]. by eexists.
Qed.

(** Evaluate the next read, whose offset the length tests bound. *)
Ltac read_some :=
  repeat match goal with
  | |- context [mbind _ (decode_prefix buf)] =>
      let E := fresh in destruct decode_prefix_some as [? E]; rewrite E
  | |- context [mbind _ (be16_read buf ?n)] =>
      let E := fresh in destruct (be16_read_some n ltac:(lia)) as [? E]; rewrite E
  | |- context [mbind _ (be32_read buf ?n)] =>
      let E := fresh in destruct (be32_read_some n ltac:(lia)) as [? E]; rewrite E
  | |- context [mbind _ (rd8 buf ?n)] =>
      let E := fresh in destruct (rd8_some n ltac:(lia)) as [? E]; rewrite E
  | |- context [mbind _ (slice buf ?o ?n)] =>
      let E := fresh in destruct (slice_some buf o n ltac:(lia)) as [? E]; rewrite E
  | |- is_Some (if ?b then _ else _) => case_test
  | |- is_Some (Some _) => by eexists
  | |- _ => progress cbn [mbind option_bind negb andb orb]
  end.

Lemma be16_read_nonneg n v : be16_read buf n = Some v -> 0 <= v.
Proof.
  unfold be16_read. destruct (rd8 buf n), (rd8 buf (n + 1)); try done.
  cbn. intros [= <-]. apply to_u16_u16.
Qed.

Lemma decode_data_safe : is_Some (decode_data buf).
Proof.
  unfold decode_data. wire_sizes. destruct (Z.ltb_spec (len buf) 26); [by eexists|].
  destruct (be16_read_some 24 ltac:(lia)) as [n En]. rewrite En.
  pose proof (be16_read_nonneg _ _ En). cbn [mbind option_bind].
  destruct (Z.eqb_spec (len buf) (26 + n)); cbn [negb]; [|by eexists].
  destruct (n >? 4096); [by eexists|]. read_some.
  destruct (n >? 0); read_some.
Qed.

Lemma decode_cache_reply_safe : is_Some (decode_cache_reply buf).
Proof.
  unfold decode_cache_reply. wire_sizes.
  destruct (Z.ltb_spec (len buf) 17); [by eexists|].
  destruct (be16_read_some 15 ltac:(lia)) as [n En]. rewrite En.
  cbn [mbind option_bind].
  destruct (Z.ltb_spec n 26); [by eexists|].
  destruct (Z.eqb_spec (len buf) (17 + n)); cbn [negb]; [read_some|by eexists].
Qed.

Lemma decode_announce_safe : is_Some (decode_announce buf).
Proof.
  unfold decode_announce. wire_sizes.
  destruct (Z.eqb_spec (len buf) 30); cbn [negb]; [|by eexists].
  destruct (rd8_some 11 ltac:(lia)) as [f ->]. cbn [mbind option_bind].
  destruct (has_unknown_bits _ _); [by eexists|]. read_some.
Qed.

Lemma decode_cache_request_safe (Hb : bytes buf) : is_Some (decode_cache_request buf).
Proof.
  unfold decode_cache_request. wire_sizes.
  destruct (Z.ltb_spec (len buf) 32); [by eexists|].
  destruct (be16_read_some 28 ltac:(lia)) as [k Ek]. rewrite Ek.
  pose proof (be16_read_nonneg _ _ Ek).
  destruct (rd8_some 30 ltac:(lia)) as [m ->].
  destruct (rd8_some 31 ltac:(lia)) as [n En]. rewrite En. cbn [mbind option_bind].
  assert (0 <= n) by (apply (Forall_lookup_1 _ _ _ _ Hb) in En; unfold u8 in En; lia).
  assert (0 <= bitmap_len k) by (unfold bitmap_len; Z.div_mod_to_equations; lia).
  destruct (_ || _); [by eexists|].
  destruct (Z.eqb_spec (len buf) (32 + bitmap_len k + n)); cbn [negb]; [|by eexists].
  read_some. destruct (n >? 0); read_some.
Qed.

Lemma decode_extended_safe : is_Some (decode_extended buf).
Proof.
  unfold decode_extended. wire_sizes.
  destruct (Z.ltb_spec (len buf) (11 + 1)); [by eexists|].
  destruct (rd8_some 11 ltac:(lia)) as [i ->]. cbn [mbind option_bind].
  destruct (_ =? _); [by eexists|].
  destruct (_ =? _); [apply decode_calib_probe_safe|].
  destruct (_ =? _); [apply decode_calib_tally_safe|].
  destruct (_ =? _); [apply decode_link_verdict_safe|]. read_some.
Qed.

Lemma decode_body_safe t : bytes buf -> is_Some (decode_body t buf).
Proof.
  intros Hb; destruct t; cbn [decode_body]; auto using
    decode_data_safe, decode_reserved_nack_safe, decode_link_report_safe,
    decode_heartbeat_safe, decode_csa_safe, decode_recovery_request_safe,
    decode_jscc_feedback_safe, decode_cache_status_safe, decode_cache_request_safe,
    decode_cache_reply_safe, decode_announce_safe, decode_cache_assign_safe,
    decode_extended_safe, decode_vehicle_cmd_safe, decode_selector_state_safe.
Qed.
End Safety.

(** [decode] is the dispatch of a frame with a valid prefix, or one of four
    errors. *)
Lemma decode_cases (buf : list Z) (d : Decoded) :
  decode (Some buf) = Some d ->
  (exists e, d = DErr e) \/
  (exists t v, 11 <= len buf /\ be16_read buf 0 = Some kMagic /\
     rd8 buf 2 = Some v /\ to_u8 (Z.shiftr v 4) = kProtocolVersion /\
     packet_type_of (Z.land v 15) = Some t /\ decode_body t buf = Some d).
Proof.
  unfold decode. wire_sizes.
  destruct (Z.ltb_spec (len buf) 2); [intros [= <-]; eauto|].
  destruct (be16_read buf 0) as [m|]; [|done]. cbn [mbind option_bind].
  destruct (Z.eqb_spec m kMagic) as [->|]; cbn [negb]; [|intros [= <-]; eauto].
  destruct (Z.ltb_spec (len buf) 11); [intros [= <-]; eauto|].
  destruct (rd8 buf 2) as [v|]; [|done]. cbn [mbind option_bind].
  destruct (Z.eqb_spec (to_u8 (Z.shiftr v 4)) kProtocolVersion); cbn [negb];
    [|intros [= <-]; eauto].
  destruct (packet_type_of (Z.land v 15)) as [t|] eqn:Et; [|intros [= <-]; eauto].
  intros H1. right. exists t, v. repeat split; auto. by destruct t.
Qed.

Lemma decode_total_lemma (b : ptr) :
  (forall buf, b = Some buf -> bytes buf) -> is_Some (decode b).
Proof.
  intros Hb. destruct b as [buf|]; [|by eexists]. specialize (Hb _ eq_refl).
  unfold decode. wire_sizes.
  destruct (Z.ltb_spec (len buf) 2); [by eexists|].
  destruct (be16_read_some buf 0 ltac:(lia)) as [m ->]. cbn [mbind option_bind].
  destruct (m =? kMagic); cbn [negb]; [|by eexists].
  destruct (Z.ltb_spec (len buf) 11) as [?|H11]; [by eexists|].
  destruct (rd8_some buf 2 ltac:(lia)) as [v ->]. cbn [mbind option_bind].
  destruct (to_u8 (Z.shiftr v 4) =? kProtocolVersion); cbn [negb]; [|by eexists].
  destruct (packet_type_of _) as [t|]; [|by eexists].
  pose proof (decode_body_safe buf H11 t Hb) as Hs. by destruct t.
Qed.

Lemma be16_bytes_rt p0 p1 : u8 p0 -> u8 p1 ->
  be16_bytes (to_u16 (Z.lor (Z.shiftl p0 8) p1)) = [p0; p1].
Proof. apply be16_bytes_of. Qed.
Lemma be32_bytes_rt p0 p1 p2 p3 : u8 p0 -> u8 p1 -> u8 p2 -> u8 p3 ->
  be32_bytes (Z.lor (Z.lor (Z.lor (to_u32 (Z.shiftl p0 24)) (Z.shiftl p1 16))
               (Z.shiftl p2 8)) p3) = [p0; p1; p2; p3].
Proof. apply be32_bytes_of. Qed.
Lemma be32_rt_u32 p0 p1 p2 p3 : u8 p0 -> u8 p1 -> u8 p2 -> u8 p3 ->
  u32 (Z.lor (Z.lor (Z.lor (to_u32 (Z.shiftl p0 24)) (Z.shiftl p1 16))
               (Z.shiftl p2 8)) p3).
Proof. apply be32_of_u32. Qed.
#[export] Hint Resolve be32_rt_u32 : ints.

(** The eleven prefix bytes of a frame that passed [decode]'s checks. *)
Lemma prefix_canonical buf t v :
  bytes buf -> 11 <= len buf -> be16_read buf 0 = Some kMagic ->
  rd8 buf 2 = Some v -> to_u8 (Z.shiftr v 4) = kProtocolVersion ->
  packet_type_of (Z.land v 15) = Some t ->
  exists pf rest, buf = prefix_layout t pf ++ rest /\ wf_prefix pf /\ bytes rest.
Proof.
  intros Hb Hl Hm Hv Hver Ht. explode buf 11%nat.
  unfold bytes in Hb. rewrite Forall_app in Hb. destruct Hb as [Hh Hr].
  repeat (apply Forall_cons in Hh as [? Hh]). clear Hh.
  cbn in Hv. injection Hv as <-.
  assert (E2 : b1 = packet_type_code t).
  { apply packet_type_code_of in Ht. rewrite Ht.
    change 15 with (Z.ones 4). rewrite Z.land_ones by lia.
    rewrite Z.shiftr_div_pow2 in Hver by lia.
    unfold to_u8, kProtocolVersion, u8 in *. change (2 ^ 4) with 16 in *.
    Z.div_mod_to_equations; lia. }
  assert (E01 : be16_bytes kMagic = [b; b0]).
  { injection Hm as Hm. rewrite <- Hm. by apply be16_bytes_rt. }
  exists (MkCommonPrefix (be16_of b2 b3) (be16_of b4 b5) (be32_of b6 b7 b8 b9)), rest.
  unfold prefix_layout. cbn [originator destination session_id].
  rewrite E01, !be16_bytes_of, be32_bytes_of, <- E2 by done.
  split; [done|]. split; [|done].
  repeat split; auto with ints; apply be16_of_u16 || by apply be32_of_u32.
Qed.

(** [d] came off the wire as exactly packet [p]. *)
Definition received_as (buf : list Z) (d : Decoded) (p : Packet) : Prop :=
  wf_packet p /\ packet_valid p = true /\ packet_receivable p = true /\
  view p = d /\ layout p = buf.

(** Decide the tests in hypothesis [H : decoder buf = Some d], where [d] is
    known not to be an error. *)
Ltac h_tests H Hd :=
  repeat (match type of H with
    | context [?a <? ?b] => destruct (Z.ltb_spec a b)
    | context [?a =? ?b] => destruct (Z.eqb_spec a b)
    | context [?a >? ?b] => rewrite (Z.gtb_ltb a b) in H
    | context [has_unknown_bits ?a ?b] => destruct (has_unknown_bits a b) eqn:?
    | context [vcmd_arg_in_wire_range ?a ?b] =>
        destruct (vcmd_arg_in_wire_range a b) eqn:?
    end; cbn [negb andb orb] in H;
    try (exfalso; injection H as H; by eapply Hd)).

Ltac packet_of d :=
  lazymatch d with
  | DLinkReport ?r => constr:(PLinkReport r)
  | DHeartbeat ?r => constr:(PHeartbeat r)
  | DCsa ?r => constr:(PCsa r)
  | DRecoveryRequest ?r => constr:(PRecoveryRequest r)
  | DJsccFeedback ?r => constr:(PJsccFeedback r)
  | DCacheStatus ?r => constr:(PCacheStatus r)
  | DCacheAssign ?r => constr:(PCacheAssign r)
  | DVehicleCmd ?r => constr:(PVehicleCmd r)
  | DSelectorState ?r => constr:(PSelectorState r)
  | DAnnounce ?r => constr:(PAnnounce r)
  | DCalibTally ?r => constr:(PCalibTally r)
  | DLinkVerdict ?r => constr:(PLinkVerdict r)
  end.

Ltac canon_cbn :=
  cbn -[Z.shiftr Z.land Z.shiftl Z.lor to_u8 to_u16 to_u32 to_i8 Z.of_nat
        Z.to_nat Z.ltb Z.leb Z.eqb Z.gtb Z.add Z.mul Z.sub bitmap_len
        calib_probe_total has_unknown_bits flag_set vcmd_arg_in_wire_range
        selector_state_fields_valid prefix_layout be16_bytes be32_bytes
        wf_prefix ss_holder ss_calib].

Lemma prefix_length t p rest : len (prefix_layout t p ++ rest) = 11 + len rest.
Proof. rewrite length_app. change (length (prefix_layout t p)) with 11%nat. lia. Qed.

(** Split [rest] into exactly [n] bytes. *)
Ltac explode_exact rest n :=
  explode rest n;
  match goal with
  | H : context [length (_ ++ ?t)] |- _ =>
      destruct t; [|cbn [app length] in *; exfalso; lia]
  end;
  repeat match goal with H : bytes _ |- _ => unfold bytes in H end;
  repeat match goal with
  | H : Forall u8 (_ ++ _) |- _ => apply Forall_app in H as [? ?]
  | H : Forall u8 (_ :: _) |- _ => apply Forall_cons in H as [? ?]
  end.

Ltac canon_finish :=
  match goal with |- exists p, received_as _ ?d p =>
    let p := packet_of d in exists p end;
  unfold received_as; canon_cbn;
  split_and?; auto 2 with ints;
  try (rewrite ?be16_bytes_rt, ?be32_bytes_rt, ?u8_roundtrip_i8 by done; reflexivity);
  wire_sizes; repeat case_test; cbn [negb andb]; try lia; try done;
  repeat match goal with H : _ = false |- _ => rewrite H
                       | H : _ = true |- _ => rewrite H end; done.

Ltac canon_fixed n :=
  let H := fresh "Hdec" in
  intros buf H; subst buf;
  lazymatch type of H with ?f _ = _ => unfold f in H end;
  rewrite ?decode_prefix_layout, ?prefix_length in H by done;
  cbn [app length] in H; wire_sizes;
  match goal with Hd : forall e, _ <> DErr e |- _ =>
    h_tests H Hd;
    match goal with rest : list Z |- _ => explode_exact rest n end;
    cbn -[Z.shiftr Z.land Z.shiftl Z.lor to_u8 to_u16 to_u32 to_i8 Z.ltb Z.eqb
          Z.gtb has_unknown_bits vcmd_arg_in_wire_range] in H;
    h_tests H Hd; injection H as <-; canon_finish
  end.

Section Canon.
Context (pf : CommonPrefix) (rest : list Z) (d : Decoded).
Hypothesis Hpf : wf_prefix pf.
Hypothesis Hb : bytes rest.
Hypothesis Hd : forall e, d <> DErr e.

Lemma decode_link_report_canon :
  let buf := prefix_layout kLinkReport pf ++ rest in
  decode_link_report buf = Some d -> exists p, received_as buf d p.
Proof. canon_fixed 28%nat. Qed.
Lemma decode_csa_canon :
  let buf := prefix_layout kCsa pf ++ rest in
  decode_csa buf = Some d -> exists p, received_as buf d p.
Proof. canon_fixed 21%nat. Qed.
Lemma decode_recovery_request_canon :
  let buf := prefix_layout kRecoveryRequest pf ++ rest in
  decode_recovery_request buf = Some d -> exists p, received_as buf d p.
Proof. canon_fixed 7%nat. Qed.
Lemma decode_jscc_feedback_canon :
  let buf := prefix_layout kJsccFeedback pf ++ rest in
  decode_jscc_feedback buf = Some d -> exists p, received_as buf d p.
Proof. canon_fixed 26%nat. Qed.
Lemma decode_cache_status_canon :
  let buf := prefix_layout kCacheStatus pf ++ rest in
  decode_cache_status buf = Some d -> exists p, received_as buf d p.
Proof. canon_fixed 18%nat. Qed.
Lemma decode_cache_assign_canon :
  let buf := prefix_layout kCacheAssign pf ++ rest in
  decode_cache_assign buf = Some d -> exists p, received_as buf d p.
Proof. canon_fixed 12%nat. Qed.
Lemma decode_vehicle_cmd_canon :
  let buf := prefix_layout kVehicleCmd pf ++ rest in
  decode_vehicle_cmd buf = Some d -> exists p, received_as buf d p.
Proof. canon_fixed 12%nat. Qed.
Lemma decode_heartbeat_canon :
  let buf := prefix_layout kHeartbeat pf ++ rest in
  decode_heartbeat buf = Some d -> exists p, received_as buf d p.
Proof.
  intros buf H; subst buf. unfold decode_heartbeat in H.
  rewrite decode_prefix_layout, prefix_length in H by done. wire_sizes.
  h_tests H Hd. destruct rest; [|cbn [length] in *; lia].
  injection H as <-. exists (PHeartbeat (MkHeartbeat pf)).
  unfold received_as; canon_cbn. by rewrite app_nil_r.
Qed.

Lemma decode_calib_tally_canon :
  let buf := prefix_layout kExtended pf ++ [ext_type_kCalTally] ++ rest in
  decode_calib_tally buf = Some d -> exists p, received_as buf d p.
Proof. canon_fixed 14%nat. Qed.
Lemma decode_link_verdict_canon :
  let buf := prefix_layout kExtended pf ++ [ext_type_kLinkVerdict] ++ rest in
  decode_link_verdict buf = Some d -> exists p, received_as buf d p.
Proof. canon_fixed 11%nat. Qed.

Lemma decode_selector_state_canon :
  let buf := prefix_layout kSelectorState pf ++ rest in
  decode_selector_state buf = Some d -> exists p, received_as buf d p.
Proof.
  intros buf H; subst buf. unfold decode_selector_state in H.
  rewrite decode_prefix_layout, prefix_length in H by done. wire_sizes.
  destruct (Z.ltb_spec (11 + len rest) 32); [exfalso; injection H as H; by eapply Hd|].
  assert (L : 11 + len rest = 36 \/ 11 + len rest = 34 \/ 11 + len rest = 32).
  { h_tests H Hd; auto. }
  destruct L as [L|[L|L]]; rewrite L in H;
    [explode_exact rest 25%nat|explode_exact rest 23%nat|explode_exact rest 21%nat];
    cbn -[Z.shiftr Z.land Z.shiftl Z.lor to_u8 to_u16 to_u32 to_i8
          flag_set selector_state_fields_valid] in H;
    match type of H with context [flag_set ?f selector_state_flags_kHolderPresent] =>
      destruct (flag_set f selector_state_flags_kHolderPresent) eqn:Eh,
               (flag_set f selector_state_flags_kCalibPresent) eqn:Ec end;
    cbn -[Z.shiftr Z.land Z.shiftl Z.lor to_u8 to_u16 to_u32 to_i8
          selector_state_fields_valid] in H;
    try (exfalso; injection H as H; by eapply Hd);
    match type of H with context [selector_state_fields_valid ?s] =>
      destruct (selector_state_fields_valid s) eqn:V end;
    try (exfalso; injection H as H; by eapply Hd); injection H as <-;
    match goal with |- exists p, received_as _ ?d p =>
      let p := packet_of d in exists p end;
    unfold received_as, wf_packet, wf_selector_state, packet_valid, layout,
      selector_state_base_layout, ss_holder, ss_calib;
    canon_cbn; rewrite ?Eh, ?Ec, ?V; cbn [negb andb app];
    rewrite ?be16_bytes_rt, ?be32_bytes_rt by done;
    split_and?; auto 2 with ints; done.
Qed.

(** Variable-length types: the view is the rest of the frame. *)
Lemma slice_rest (hd v : list Z) (off : nat) (n : Z) :
  off = length hd -> len v = n -> slice (hd ++ v) off (Z.to_nat n) = Some v.
Proof.
  intros Ho Hn. rewrite <- (app_nil_r v) at 1. by apply slice_view.
Qed.

Ltac bytes_cons :=
  repeat match goal with H : bytes _ |- _ => unfold bytes in H end;
  repeat match goal with
  | H : Forall u8 (_ ++ _) |- _ => apply Forall_app in H as [? ?]
  | H : Forall u8 (_ :: _) |- _ => apply Forall_cons in H as [? ?]
  end.

Lemma view_ptr_some v n : len v = n -> 0 <= n ->
  view_ptr (if n >? 0 then Some v else None) n = (if n >? 0 then Some v else None) /\
  ptr_bytes (if n >? 0 then Some v else None) n = v /\
  wf_ptr (Some v) n = (bytes v /\ n <= len v).
Proof.
  intros L Hn. unfold view_ptr, ptr_bytes. destruct (Z.gtb_spec n 0).
  - cbn. rewrite take_ge by lia. auto.
  - destruct v; [|cbn in L; lia]. cbn [default]. by rewrite take_nil.
Qed.

Lemma decode_data_canon :
  let buf := prefix_layout kData pf ++ rest in
  decode_data buf = Some d -> exists p, received_as buf d p.
Proof.
  intros buf H. unfold decode_data in H.
  assert (Lb : len buf = 11 + len rest) by apply prefix_length.
  assert (Hp : decode_prefix buf = Some pf) by (by apply decode_prefix_layout).
  rewrite Lb, Hp in H. wire_sizes.
  h_tests H Hd. explode rest 15%nat. bytes_cons.
  set (n := be16_of b12 b13) in *.
  replace (be16_read buf 24) with (Some n) in H by reflexivity.
  cbn [mbind option_bind] in H.
  assert (Hn : 0 <= n < 65536) by apply be16_of_u16.
  destruct (Z.eqb_spec (11 + len ([b; b0; b1; b2; b3; b4; b5; b6; b7; b8; b9; b10;
    b11; b12; b13] ++ rest0)) (26 + n)); cbn [negb] in H;
    [|exfalso; injection H as H; by eapply Hd].
  destruct (Z.gtb_spec n 4096); [exfalso; injection H as H; by eapply Hd|].
  assert (L0 : len rest0 = n) by (cbn [app length] in *; lia).
  assert (Hs : slice buf (Z.to_nat 26) (Z.to_nat n) = Some rest0)
    by (subst buf; rewrite app_assoc; by apply slice_rest).
  rewrite Hs in H.
  replace (rd8 buf 11) with (Some b) in H by reflexivity.
  replace (rd8 buf 12) with (Some b0) in H by reflexivity.
  replace (be32_read buf 13) with (Some (be32_of b1 b2 b3 b4)) in H by reflexivity.
  replace (be32_read buf 17) with (Some (be32_of b5 b6 b7 b8)) in H by reflexivity.
  replace (rd8 buf 21) with (Some b9) in H by reflexivity.
  replace (rd8 buf 22) with (Some b10) in H by reflexivity.
  replace (rd8 buf 23) with (Some b11) in H by reflexivity.
  cbn [mbind option_bind] in H.
  set (h := MkDataHeader pf b b0 (be32_of b1 b2 b3 b4) (be32_of b5 b6 b7 b8) b9 b10 b11).
  assert (Ed : d = DData (MkDataView h (if n >? 0 then Some rest0 else None) n))
    by (destruct (n >? 0); cbn in H; by injection H as <-).
  exists (PData h (if n >? 0 then Some rest0 else None) n).
  destruct (view_ptr_some rest0 n L0 ltac:(lia)) as (Hv & Hpb & _).
  unfold received_as, wf_packet, wf_data_header, wf_ptr, packet_valid,
    packet_receivable, view, layout, data_header_layout, h.
  rewrite Hv, Hpb, Ed. cbn [dh_prefix dh_stream_id dh_stream_type dh_seq
    dh_block_id dh_data_flags dh_active_profile dh_table_version].
  assert (Hbn : be16_bytes n = [b12; b13]) by (by apply be16_bytes_of).
  rewrite !be32_bytes_of, Hbn by done.
  split_and?; auto 2 with ints; wire_sizes; rewrite ?Z.gtb_ltb; repeat case_test;
    cbn [negb]; auto with lia; done.
Qed.

Lemma decode_cache_reply_canon :
  let buf := prefix_layout kCacheReply pf ++ rest in
  decode_cache_reply buf = Some d -> exists p, received_as buf d p.
Proof.
  intros buf H. unfold decode_cache_reply in H.
  assert (Lb : len buf = 11 + len rest) by apply prefix_length.
  assert (Hp : decode_prefix buf = Some pf) by (by apply decode_prefix_layout).
  rewrite Lb, Hp in H. wire_sizes.
  h_tests H Hd. explode rest 6%nat. bytes_cons.
  set (n := be16_of b3 b4) in *.
  replace (be16_read buf 15) with (Some n) in H by reflexivity.
  cbn [mbind option_bind] in H. h_tests H Hd.
  assert (L0 : len rest0 = n) by (cbn [app length] in *; lia).
  assert (Hs : slice buf (Z.to_nat 17) (Z.to_nat n) = Some rest0)
    by (subst buf; rewrite app_assoc; by apply slice_rest).
  rewrite Hs in H.
  replace (be32_read buf 11) with (Some (be32_of b b0 b1 b2)) in H by reflexivity.
  cbn [mbind option_bind] in H. injection H as <-.
  assert (Hpb : ptr_bytes (Some rest0) n = rest0)
    by (unfold ptr_bytes; cbn; apply take_ge; lia).
  exists (PCacheReply pf (be32_of b b0 b1 b2) (Some rest0) n).
  unfold received_as, wf_packet, wf_ptr, packet_valid, packet_receivable, view, layout.
  assert (Hbn : be16_bytes n = [b3; b4]) by (by apply be16_bytes_of).
  rewrite Hpb, be32_bytes_of, Hbn by done.
  wire_sizes. split_and?; auto 2 with ints; try done; lia || apply be16_of_u16.
Qed.

Lemma decode_announce_canon :
  let buf := prefix_layout kAnnounce pf ++ rest in
  decode_announce buf = Some d -> exists p, received_as buf d p.
Proof.
  intros buf H. unfold decode_announce in H.
  assert (Lb : len buf = 11 + len rest) by apply prefix_length.
  assert (Hp : decode_prefix buf = Some pf) by (by apply decode_prefix_layout).
  rewrite Lb, Hp in H. wire_sizes.
  h_tests H Hd. explode rest 3%nat. bytes_cons.
  replace (rd8 buf 11) with (Some b) in H by reflexivity.
  cbn [mbind option_bind] in H. h_tests H Hd.
  assert (L0 : len rest0 = 16) by (cbn [app length] in *; lia).
  assert (Hs : slice buf 14 (Z.to_nat 16) = Some rest0)
    by (subst buf; rewrite app_assoc; by apply slice_rest).
  rewrite Hs in H.
  replace (be16_read buf 12) with (Some (be16_of b0 b1)) in H by reflexivity.
  cbn [mbind option_bind] in H. injection H as <-.
  exists (PAnnounce (MkAnnounce pf b (be16_of b0 b1) rest0)).
  unfold received_as, wf_packet, packet_valid, packet_receivable, view, layout.
  cbn [an_prefix an_flags an_claimed_by an_psk]. wire_sizes.
  rewrite be16_bytes_of by done. split_and?; auto 2 with ints; try done.
  by apply negb_true_iff.
Qed.

Lemma decode_cache_request_canon :
  let buf := prefix_layout kCacheRequest pf ++ rest in
  decode_cache_request buf = Some d -> exists p, received_as buf d p.
Proof.
  intros buf H. unfold decode_cache_request in H.
  assert (Lb : len buf = 11 + len rest) by apply prefix_length.
  assert (Hp : decode_prefix buf = Some pf) by (by apply decode_prefix_layout).
  rewrite Lb, Hp in H. wire_sizes.
  h_tests H Hd. explode rest 21%nat. bytes_cons.
  set (k := be16_of b16 b17) in *.
  replace (be16_read buf 28) with (Some k) in H by reflexivity.
  replace (rd8 buf 30) with (Some b18) in H by reflexivity.
  replace (rd8 buf 31) with (Some b19) in H by reflexivity.
  cbn [mbind option_bind] in H.
  assert (Hk : 0 <= k < 65536) by apply be16_of_u16.
  destruct (Z.eqb_spec k 0); [exfalso; injection H as H; by eapply Hd|].
  destruct (Z.gtb_spec k 256); [exfalso; injection H as H; by eapply Hd|].
  destruct (Z.eqb_spec b18 0); [exfalso; injection H as H; by eapply Hd|].
  destruct (Z.gtb_spec b19 32); [exfalso; injection H as H; by eapply Hd|].
  cbn [orb] in H.
  pose proof (bitmap_len_bounds k ltac:(lia)) as Hbl. set (m := bitmap_len k) in *.
  destruct (Z.eqb_spec (11 + len ([b; b0; b1; b2; b3; b4; b5; b6; b7; b8; b9; b10;
    b11; b12; b13; b14; b15; b16; b17; b18; b19] ++ rest0)) (32 + m + b19));
    cbn [negb] in H; [|exfalso; injection H as H; by eapply Hd].
  assert (Hb19 : 0 <= b19 < 256) by done.
  assert (L0 : len rest0 = m + b19) by (cbn [app length] in *; lia).
  set (v1 := take (Z.to_nat m) rest0). set (v2 := drop (Z.to_nat m) rest0).
  assert (E : rest0 = v1 ++ v2) by (symmetry; apply take_drop).
  assert (L1 : len v1 = m) by (unfold v1; rewrite length_take; lia).
  assert (L2 : len v2 = b19) by (unfold v2; rewrite length_drop; lia).
  assert (Hb12 : bytes v1 /\ bytes v2) by (unfold bytes in *; by rewrite E, Forall_app in *).
  set (hd := prefix_layout kCacheRequest pf ++ [b; b0; b1; b2; b3; b4; b5; b6; b7;
    b8; b9; b10; b11; b12; b13; b14; b15; b16; b17; b18; b19]).
  assert (Eb : buf = hd ++ v1 ++ v2)
    by (subst buf hd; rewrite <- app_assoc; by rewrite <- E).
  assert (Hs1 : slice buf (Z.to_nat 32) (Z.to_nat m) = Some v1)
    by (rewrite Eb; by apply slice_view).
  assert (Hs2 : slice buf (Z.to_nat (32 + m)) (Z.to_nat b19) = Some v2).
  { rewrite Eb, app_assoc. apply slice_rest; [|done]. rewrite length_app.
    change (length hd) with 32%nat. lia. }
  rewrite Hs1, Hs2 in H.
  replace (be16_read buf 11) with (Some (be16_of b b0)) in H by reflexivity.
  replace (be32_read buf 13) with (Some (be32_of b1 b2 b3 b4)) in H by reflexivity.
  replace (rd8 buf 17) with (Some b5) in H by reflexivity.
  replace (be16_read buf 18) with (Some (be16_of b6 b7)) in H by reflexivity.
  replace (be32_read buf 20) with (Some (be32_of b8 b9 b10 b11)) in H by reflexivity.
  replace (be32_read buf 24) with (Some (be32_of b12 b13 b14 b15)) in H by reflexivity.
  cbn [mbind option_bind] in H.
  set (h := MkCacheRequestHeader pf (be16_of b b0) (be32_of b1 b2 b3 b4) b5
    (be16_of b6 b7) (be32_of b8 b9 b10 b11) (be32_of b12 b13 b14 b15) k b18).
  set (r := if b19 >? 0 then Some v2 else None).
  assert (Ed : d = DCacheRequest (MkCacheRequestView h (Some v1) r b19))
    by (unfold r; destruct (b19 >? 0); cbn in H; by injection H as <-).
  destruct (view_ptr_some v2 b19 L2 ltac:(lia)) as (Hv & Hpb & _).
  assert (Hpb1 : ptr_bytes (Some v1) m = v1)
    by (unfold ptr_bytes; cbn; apply take_ge; lia).
  exists (PCacheRequest h (Some v1) r b19).
  unfold received_as, wf_packet, wf_ptr, packet_valid, packet_receivable, view,
    layout, cache_request_fixed_layout, r, h.
  cbn [cr_prefix cr_target_originator cr_target_session cr_target_stream_id
    cr_target_cache cr_request_id cr_block_id cr_window_len cr_max_symbols].
  assert (Hbk : be16_bytes k = [b16; b17]) by (by apply be16_bytes_of).
  fold m. rewrite Hv, Hpb, Hpb1, Ed, Hbk.
  rewrite !be32_bytes_of, !be16_bytes_of by done. wire_sizes.
  destruct Hb12.
  split_and?; auto 2 with ints; try done; try lia.
  - destruct (b19 >? 0); [split; [done|lia]|done].
  - destruct (Z.eqb_spec k 0), (Z.leb_spec k 256), (Z.eqb_spec b18 0),
      (Z.leb_spec b19 32); try lia. by destruct (b19 >? 0).
Qed.

(** A probe's padding is not part of the packet: the frame agrees with the
    layout in length and on the 22 fixed bytes. *)
Definition probe_received_as (buf : list Z) (d : Decoded) (p : Packet) : Prop :=
  wf_packet p /\ packet_valid p = true /\ view p = d /\
  (exists c pad, p = PCalibProbe c pad) /\
  len (layout p) = len buf /\
  take (Z.to_nat kCalibProbeFixedSize) (layout p) =
    take (Z.to_nat kCalibProbeFixedSize) buf.

Lemma decode_calib_probe_canon :
  let buf := prefix_layout kExtended pf ++ [ext_type_kCalProbe] ++ rest in
  decode_calib_probe buf = Some d -> exists p, probe_received_as buf d p.
Proof.
  intros buf H. unfold decode_calib_probe in H.
  assert (Lb : len buf = 12 + len rest)
    by (unfold buf; rewrite prefix_length; cbn [app length]; lia).
  assert (Hp : decode_prefix buf = Some pf) by (by apply decode_prefix_layout).
  rewrite Lb, Hp in H. wire_sizes. rewrite Z.gtb_ltb in H.
  h_tests H Hd. explode rest 10%nat. bytes_cons.
  replace (be32_read buf 12) with (Some (be32_of b b0 b1 b2)) in H by reflexivity.
  replace (be16_read buf 16) with (Some (be16_of b3 b4)) in H by reflexivity.
  replace (be16_read buf 18) with (Some (be16_of b5 b6)) in H by reflexivity.
  replace (be16_read buf 20) with (Some (be16_of b7 b8)) in H by reflexivity.
  cbn [mbind option_bind] in H. rewrite <- Lb in *.
  set (n := len buf) in *.
  set (c := MkCalibProbe pf (be32_of b b0 b1 b2) (be16_of b3 b4) (be16_of b5 b6)
    (be16_of b7 b8) n).
  h_tests H Hd. injection H as <-.
  assert (Ht : calib_probe_total n = n) by (unfold calib_probe_total; wire_sizes; lia).
  assert (Hn16 : u16 n) by (unfold u16; lia).
  exists (PCalibProbe c n).
  unfold probe_received_as, wf_packet, packet_valid, view, layout, c.
  cbn [cp_prefix cp_run_id cp_dwell_id cp_seq cp_count].
  rewrite Ht, to_u16_id, be32_bytes_of, !be16_bytes_of by done. wire_sizes.
  split_and?; auto 2 with ints; try done; [|by eauto|].
  - repeat case_test; cbn [negb andb]; lia || done.
  - fold n. rewrite !length_app, length_replicate.
    change (length (prefix_layout _ _)) with 11%nat. cbn [length]. lia.
Qed.

End Canon.

(** Every frame [decode] accepts, reserved and unknown types apart. *)
Lemma decode_canonical_lemma buf d :
  bytes buf -> decode (Some buf) = Some d ->
  (exists e, d = DErr e) \/ (exists v, d = DReservedNack v) \/
  (exists v, d = DExtUnknown v) \/
  (exists p, received_as buf d p \/ probe_received_as buf d p).
Proof.
  intros Hb H. destruct (decode_cases _ _ H)
    as [He | (t & v & Hl & Hm & Hv & Hver & Ht & Hbody)]; [by left|].
  assert (Hcase : (exists e, d = DErr e) \/ forall e, d <> DErr e)
    by (destruct d; eauto; by right).
  destruct Hcase as [He | Hd]; [by left|]. right.
  destruct (prefix_canonical buf t v) as (pf & rest & -> & Hpf & Hr); try done.
  destruct t; cbn [decode_body] in Hbody.
  2: { left. unfold decode_reserved_nack in Hbody.
       rewrite decode_prefix_layout in Hbody by done. injection Hbody as <-; eauto. }
  14: { right. unfold decode_extended in Hbody.
    destruct rest as [|id rest];
      [rewrite prefix_length in Hbody; exfalso; injection Hbody as <-; by eapply Hd|].
    apply Forall_cons in Hr as [_ Hr].
    change (prefix_layout kExtended pf ++ id :: rest)
      with (prefix_layout kExtended pf ++ [id] ++ rest) in *.
    rewrite prefix_length, decode_prefix_layout in Hbody by done.
    replace (rd8 (prefix_layout kExtended pf ++ [id] ++ rest) 11) with (Some id)
      in Hbody by reflexivity.
    cbn [mbind option_bind app length] in Hbody. wire_sizes.
    destruct (Z.ltb_spec (11 + Z.of_nat (S (length rest))) (11 + 1)); [lia|].
    destruct (Z.eqb_spec id ext_type_kReservedInvalid);
      [exfalso; injection Hbody as <-; by eapply Hd|].
    destruct (Z.eqb_spec id ext_type_kCalProbe) as [->|];
      [right; destruct (decode_calib_probe_canon pf rest d) as [p ?]; eauto|].
    destruct (Z.eqb_spec id ext_type_kCalTally) as [->|];
      [right; destruct (decode_calib_tally_canon pf rest d) as [p ?]; eauto|].
    destruct (Z.eqb_spec id ext_type_kLinkVerdict) as [->|];
      [right; destruct (decode_link_verdict_canon pf rest d) as [p ?]; eauto|].
    left. injection Hbody as <-; eauto. }
  all: do 2 right; match goal with |- exists p, received_as ?b ?x p \/ _ =>
    enough (exists p, received_as b x p) as [p ?] by eauto end.
  - by apply decode_data_canon.
  - by apply decode_link_report_canon.
  - by apply decode_heartbeat_canon.
  - by apply decode_csa_canon.
  - by apply decode_recovery_request_canon.
  - by apply decode_jscc_feedback_canon.
  - by apply decode_cache_status_canon.
  - by apply decode_cache_request_canon.
  - by apply decode_cache_reply_canon.
  - by apply decode_announce_canon.
  - by apply decode_cache_assign_canon.
  - by apply decode_vehicle_cmd_canon.
  - by apply decode_selector_state_canon.
Qed.
