(* ===== verification/WireProps.v ===== *)
(** * Properties of the wire codec *)
From S2P Require Import Prelude Endian Types Wire WireLayout WireFacts.

Lemma layout_length p :
  wf_packet p -> packet_valid p = true -> len (layout p) = packet_size p.
Proof.
  assert (PL : forall t q, length (prefix_layout t q) = 11%nat) by reflexivity.
  intros Hwf Hv.
  destruct p; cbn [wf_packet packet_valid layout packet_size] in *;
    unfold data_header_layout, selector_state_base_layout,
      cache_request_fixed_layout in *;
    rewrite ?length_app, ?PL; try (cbn [length be16_bytes be32_bytes]; wire_sizes; lia).
  - destruct Hwf as (_ & Hn & Hp). unfold u16 in Hn.
    assert (L : len (ptr_bytes payload payload_len) = payload_len).
    { apply ptr_bytes_length; [done|lia|].
      destruct payload; [left; eauto|right]. bool_hyps. lia. }
    cbn [length be16_bytes be32_bytes]. wire_sizes. lia.
  - bool_hyps. destruct (ss_calib s), (ss_holder s); destruct_or?; try done;
      cbn [length be16_bytes be32_bytes]; wire_sizes; lia.
  - rewrite length_replicate. cbn [length be16_bytes be32_bytes].
    unfold calib_probe_total; wire_sizes. lia.
  - destruct_and?. bool_hyps. unfold u8, u16 in *. wire_sizes.
    pose proof (bitmap_len_bounds h.(cr_window_len) ltac:(lia)).
    destruct missing as [m|]; [|done].
    pose proof (ptr_bytes_length (Some m) (bitmap_len h.(cr_window_len))
      ltac:(done) ltac:(lia) ltac:(left; eauto)).
    assert (len (ptr_bytes repair repair_len) = repair_len).
    { apply ptr_bytes_length; [done|lia|].
      destruct repair; [left; eauto|right]. bool_hyps. lia. }
    cbn [length be16_bytes be32_bytes]. lia.
  - destruct_and?. bool_hyps. unfold u16 in *. wire_sizes.
    destruct wrapped as [w|]; [|done].
    pose proof (ptr_bytes_length (Some w) wrapped_len
      ltac:(done) ltac:(lia) ltac:(left; eauto)).
    cbn [length be16_bytes be32_bytes]. lia.
Qed.

(** A LINK_REPORT used in the witnesses. *)
Definition sample_prefix : CommonPrefix := MkCommonPrefix 17 9 305419896.
Definition sample_report : LinkReport :=
  MkLinkReport sample_prefix 42 77 255 1000 0xA5 (-67) (-71) 13 90000 1200 2 65535 3.

Lemma sample_prefix_wf : wf_prefix sample_prefix.
Proof. repeat split; cbn; lia. Qed.
Lemma sample_report_wf : wf_packet (PLinkReport sample_report).
Proof. repeat split; cbn; lia. Qed.

(** A packet encoded into a large enough buffer decodes to its view. *)
Lemma encoded_decodes p o cap :
  wf_packet p -> packet_valid p = true -> packet_receivable p = true -> cap <= len o -> packet_size p <= cap ->
  exists o', encode_packet p (Some o) cap = Some (packet_size p, Some o') /\
    decode (Some (take (Z.to_nat (packet_size p)) o')) = Some (view p).
Proof.
  intros Hwf Hv Hr Hc Hs. exists (layout p ++ drop (Z.to_nat (packet_size p)) o).
  pose proof (layout_length p Hwf Hv) as L.
  split; [rewrite encode_packet_spec, Hv by done; by destruct (Z.leb_spec (packet_size p) cap); [|lia]|].
  replace (Z.to_nat (packet_size p)) with (length (layout p)) by lia.
  rewrite take_app_length. by apply decode_layout.
Qed.

(** C5. Round trip: whatever packet an encoder accepts and the receiver's own
    checks allow, encoding it into a large enough buffer succeeds, writes
    exactly the packet's size, leaves the rest of the buffer alone, and
    [decode] of the written bytes returns the packet, field for field. *)
Theorem wire_roundtrip p o cap :
  wf_packet p -> packet_valid p = true -> packet_receivable p = true ->
  cap <= len o -> packet_size p <= cap ->
  exists o', encode_packet p (Some o) cap = Some (packet_size p, Some o') /\
    drop (Z.to_nat (packet_size p)) o' = drop (Z.to_nat (packet_size p)) o /\
    decode (Some (take (Z.to_nat (packet_size p)) o')) = Some (view p).
Proof.
  intros Hwf Hv Hr Hc Hs. exists (layout p ++ drop (Z.to_nat (packet_size p)) o).
  pose proof (layout_length p Hwf Hv) as L.
  assert (Ln : Z.to_nat (packet_size p) = length (layout p)) by lia.
  split; [|split].
  - rewrite encode_packet_spec, Hv by done.
    by destruct (Z.leb_spec (packet_size p) cap); [|lia].
  - by rewrite Ln, drop_app_length.
  - rewrite Ln, take_app_length. by apply decode_layout.
Qed.

Lemma wire_roundtrip_witness :
  exists o', encode_packet (PLinkReport sample_report) (Some (replicate 40 0)) 40
    = Some (39, Some o') /\
    drop 39 o' = [0] /\ decode (Some (take 39 o')) = Some (DLinkReport sample_report).
Proof.
  apply (wire_roundtrip (PLinkReport sample_report) (replicate 40 0) 40);
    [apply sample_report_wf|reflexivity|reflexivity|vm_compute; discriminate
    |vm_compute; discriminate].
Defined.

(** The encoders implement the layout specification on every branch: with
    valid arguments and capacity they write [layout p] at the start of the
    buffer and return its size; otherwise they return 0 and write nothing; they
    never write outside the buffer. *)
Theorem encode_refines_layout p o cap :
  wf_packet p -> cap <= len o ->
  encode_packet p (Some o) cap =
  if packet_valid p && (packet_size p <=? cap)
  then Some (packet_size p,
             Some (layout p ++ drop (Z.to_nat (packet_size p)) o))
  else Some (0, Some o).
Proof. apply encode_packet_spec. Qed.

Lemma encode_refines_layout_witness :
  encode_packet (PLinkReport sample_report) (Some (replicate 38 7)) 38
  = Some (0, Some (replicate 38 7)).
Proof.
  rewrite (encode_refines_layout (PLinkReport sample_report) (replicate 38 7) 38);
    [reflexivity|apply sample_report_wf|vm_compute; discriminate].
Defined.

(** C12. [decode] is total and memory safe: on any byte string (or null
    pointer) it returns a packet or a [DecodeError] and never reads outside the
    received frame. *)
Theorem decode_memory_safe (b : ptr) :
  (forall buf, b = Some buf -> bytes buf) -> exists d, decode b = Some d.
Proof. apply decode_total_lemma. Qed.

Lemma decode_memory_safe_witness : exists d, decode (Some [0x57; 0x42; 0x19]) = Some d.
Proof.
  apply decode_memory_safe. intros buf [= <-].
  repeat constructor; cbn; lia.
Defined.

(** Canonicity: a byte string [decode] accepts as a packet is exactly the
    layout of the packet it returns (for CAL_PROBE, up to its padding), and that
    packet is well formed and structurally valid: two different frames are never
    read as the same packet, and what is received can be re-encoded verbatim. *)
Theorem decode_canonical buf d :
  bytes buf -> decode (Some buf) = Some d ->
  (exists e, d = DErr e) \/ (exists v, d = DReservedNack v) \/
  (exists v, d = DExtUnknown v) \/
  (exists p, received_as buf d p \/ probe_received_as buf d p).
Proof. apply decode_canonical_lemma. Qed.

Lemma decode_canonical_witness :
  let buf := [0x57; 0x42; 0x04; 0; 17; 0; 9; 0; 0; 0; 5] in
  let d := DHeartbeat (MkHeartbeat (MkCommonPrefix 17 9 5)) in
  (exists e, d = DErr e) \/ (exists v, d = DReservedNack v) \/
  (exists v, d = DExtUnknown v) \/
  (exists p, received_as buf d p \/ probe_received_as buf d p).
Proof.
  apply decode_canonical; [repeat constructor; cbn; lia | vm_compute; reflexivity].
Defined.

(** The report with another epoch. *)
Definition with_epoch (r : LinkReport) (e : Z) : LinkReport :=
  MkLinkReport r.(lr_prefix) r.(lr_target_originator) r.(lr_target_session)
    r.(lr_target_stream_id) e r.(lr_table_version) r.(lr_rssi_best) r.(lr_rssi_mean)
    r.(lr_loss_postdiv_prearq) r.(lr_uniq) r.(lr_diversity) r.(lr_adapters)
    r.(lr_probe_per) r.(lr_recommended_prof).

(** Stamping the epoch of an already encoded LINK_REPORT gives the frame
    the encoder would have produced with that epoch, byte for byte, and a buffer
    declared shorter than a report is refused untouched. *)
Theorem stamp_epoch_is_reencode r rest n e :
  link_report_stamp_epoch (Some (layout (PLinkReport r) ++ rest)) n e =
  if n <? kLinkReportSize
  then Some (false, Some (layout (PLinkReport r) ++ rest))
  else Some (true, Some (layout (PLinkReport (with_epoch r e)) ++ rest)).
Proof.
  unfold link_report_stamp_epoch. by destruct (n <? kLinkReportSize).
Qed.
