(* ===== verification/Gf256.v ===== *)
(** * GF(256) arithmetic ([core/include/wblink/gf256.h], [core/src/gf256.cpp])

    The log/exp tables are built by the constructor's loops; [gf_mul],
    [gf_inv] and the span operation [gf_mul_xor] (scalar build and NEON build)
    index them as the source does. *)
From S2P Require Import Prelude.

(** [gf_add]: addition in characteristic 2. *)
Definition gf_add (a b : Z) : Z := to_u8 (Z.lxor a b).

(** Array read at an index that is in range. *)
Definition at_ (t : list Z) (i : Z) : Z := nth (Z.to_nat i) t 0.

(** One iteration of the table loop: state [(x, exp, log)]. *)
Definition gf_table_step (st : Z * list Z * list Z) (i : nat) : Z * list Z * list Z :=
  let '(x, exp, log) := st in
  let exp := <[i := to_u8 x]> exp in
  let log := <[Z.to_nat (to_u8 x) := to_u8 (Z.of_nat i)]> log in
  let x := to_u16 (Z.shiftl x 1) in
  let x := if Z.land x 0x100 =? 0 then x else to_u16 (Z.lxor x 0x11D) in
  (x, exp, log).

Definition gf_exp_double (exp : list Z) (i : nat) : list Z :=
  <[i := nth (i - 255) exp 0]> exp.

Record GfTables : Type := MkGfTables {
  t_log : list Z;
  t_exp : list Z;
  mul_lo : list (list Z);
  mul_hi : list (list Z)
}.

Definition GfTables_init : GfTables :=
  let '(_, exp, log) :=
    fold_left gf_table_step (seq 0 255) (1, replicate 512 0, replicate 256 0) in
  let exp := fold_left gf_exp_double (seq 255 257) exp in
  let log := <[0%nat := 0]> log in
  let product coefficient value :=
    if (coefficient =? 0) || (value =? 0) then 0
    else at_ exp (at_ log coefficient + at_ log value) in
  let table f :=
    map (fun c => map (fun n => product (Z.of_nat c) (f (Z.of_nat n))) (seq 0 16))
        (seq 0 256) in
  MkGfTables log exp (table (fun n => n)) (table (fun n => Z.shiftl n 4)).

(** The function-local static: built once. *)
Definition tables : GfTables := Eval vm_compute in GfTables_init.

Definition gf_mul (a b : Z) : Z :=
  if (a =? 0) || (b =? 0) then 0
  else at_ tables.(t_exp) (at_ tables.(t_log) a + at_ tables.(t_log) b).

Definition gf_inv (a : Z) : Z :=
  at_ tables.(t_exp) (255 - at_ tables.(t_log) a).

(** The span loops: [out[i] = f(input[i], out[i])] for [n] bytes; [None] when a
    span is shorter than [n]. *)
Fixpoint span_loop (f : Z -> Z -> Z) (input out : list Z) (n : nat) {struct n}
  : option (list Z) :=
  match n with
  | O => Some out
  | S n =>
    match input, out with
    | v :: input, o :: out => r ← span_loop f input out n; Some (f v o :: r)
    | _, _ => None
    end
  end.

Definition xor_step (v o : Z) : Z := to_u8 (Z.lxor o v).

Definition mul_xor_step (coefficient_log v o : Z) : Z :=
  if v =? 0 then o
  else to_u8 (Z.lxor o (at_ tables.(t_exp) (coefficient_log + at_ tables.(t_log) v))).

(** [gf_mul_xor], built without NEON. *)
Definition gf_mul_xor (coefficient : Z) (input out : list Z) (n : nat)
  : option (list Z) :=
  if coefficient =? 0 then Some out
  else if coefficient =? 1 then span_loop xor_step input out n
  else span_loop (mul_xor_step (at_ tables.(t_log) coefficient)) input out n.

Section Neon.
(** [vtbl2_u8] of [arm_neon.h], one lane: the indexed byte of a 16-byte table. *)
Context (vtbl2 : list Z -> Z -> Z).

(** One lane of [veorq(out, multiply(input))]. *)
Definition neon_lane (low_table high_table : list Z) (v o : Z) : Z :=
  Z.lxor o (Z.lxor (vtbl2 low_table (Z.land v 0x0f))
                   (vtbl2 high_table (Z.shiftr v 4))).

(** The 16-byte main loop, then the scalar tail. *)
Fixpoint neon_loop (lane tail : Z -> Z -> Z) (input out : list Z) (n : nat)
    (fuel : nat) {struct fuel} : option (list Z) :=
  match fuel with
  | S fuel =>
    if (16 <=? n)%nat then
      head ← span_loop lane (take 16 input) (take 16 out) 16;
      r ← neon_loop lane tail (drop 16 input) (drop 16 out) (n - 16) fuel;
      Some (head ++ r)
    else span_loop tail input out n
  | O => span_loop tail input out n
  end.

(** [gf_mul_xor], built with [__ARM_NEON]; at most [n / 16] main-loop turns. *)
Definition gf_mul_xor_neon (coefficient : Z) (input out : list Z) (n : nat)
  : option (list Z) :=
  if coefficient =? 0 then Some out
  else if coefficient =? 1 then span_loop xor_step input out n
  else
    neon_loop (neon_lane (nth (Z.to_nat coefficient) tables.(mul_lo) [])
                         (nth (Z.to_nat coefficient) tables.(mul_hi) []))
      (mul_xor_step (at_ tables.(t_log) coefficient)) input out n (n / 16).
End Neon.

(** ** Reference: polynomials over GF(2) modulo x^8 + x^4 + x^3 + x^2 + 1 *)

Definition xtime (a : Z) : Z :=
  if Z.testbit a 7 then Z.lxor (2 * a) 0x11D else 2 * a.

(** [a * b]: the sum of [a * x^i] over the bits [i] of [b]. *)
Definition gf_ref (a b : Z) : Z :=
  fold_right (fun i acc =>
    Z.lxor (if Z.testbit b (Z.of_nat i) then Nat.iter i xtime a else 0) acc)
    0 (seq 0 8).

(** ** Finite checks over all bytes *)

Definition all_bytes : list Z := map Z.of_nat (seq 0 256).

Lemma all_bytes_spec a : u8 a -> In a all_bytes.
Proof.
  intros H. unfold all_bytes. apply in_map_iff. exists (Z.to_nat a).
  unfold u8 in H. split; [lia|]. apply in_seq. lia.
Qed.

Lemma forall_bytes (P : Z -> bool) :
  forallb P all_bytes = true -> forall a, u8 a -> P a = true.
Proof. intros H a Ha. eapply forallb_forall in H; eauto using all_bytes_spec. Qed.

Lemma forall_bytes2 (P : Z -> Z -> bool) :
  forallb (fun a => forallb (P a) all_bytes) all_bytes = true ->
  forall a b, u8 a -> u8 b -> P a b = true.
Proof.
  intros H a b Ha Hb. apply (forall_bytes (P a)); [|done].
  by apply (forall_bytes (fun a => forallb (P a) all_bytes) H).
Qed.

Lemma tables_correct : tables = GfTables_init.
Proof. vm_compute. reflexivity. Qed.

Lemma gf_mul_ref_all :
  forallb (fun a => forallb (fun b => gf_mul a b =? gf_ref a b) all_bytes) all_bytes
  = true.
Proof. vm_compute. reflexivity. Qed.

Lemma gf_mul_ref a b : u8 a -> u8 b -> gf_mul a b = gf_ref a b.
Proof. intros Ha Hb. apply Z.eqb_eq. by apply (forall_bytes2 _ gf_mul_ref_all). Qed.

Definition is_u8 (z : Z) : bool := (0 <=? z) && (z <? 256).

Lemma is_u8_spec z : is_u8 z = true <-> u8 z.
Proof. unfold is_u8, u8. rewrite andb_true_iff, Z.leb_le, Z.ltb_lt. lia. Qed.

Lemma gf_mul_u8_all :
  forallb (fun a => forallb (fun b => is_u8 (gf_mul a b)) all_bytes) all_bytes = true.
Proof. vm_compute. reflexivity. Qed.

Lemma gf_mul_u8 a b : u8 a -> u8 b -> u8 (gf_mul a b).
Proof.
  intros. apply is_u8_spec. by apply (forall_bytes2 _ gf_mul_u8_all).
Qed.

Lemma gf_inv_u8 a : u8 a -> u8 (gf_inv a).
Proof.
  intros. apply is_u8_spec.
  apply (forall_bytes (fun a => is_u8 (gf_inv a))); [|done]. vm_compute. reflexivity.
Qed.

Lemma gf_add_u8 a b : u8 (gf_add a b).
Proof. apply to_u8_u8. Qed.

Lemma gf_add_lxor a b : u8 a -> u8 b -> gf_add a b = Z.lxor a b.
Proof. intros. apply to_u8_id. by apply lxor_u8. Qed.

#[export] Hint Resolve gf_mul_u8 gf_inv_u8 gf_add_u8 : ints.

#[global] Arguments gf_mul : simpl never.
#[global] Arguments gf_inv : simpl never.
#[global] Arguments gf_mul_xor : simpl never.
#[global] Arguments gf_mul_xor_neon : simpl never.
