(* ===== verification/GfField.v ===== *)
(** * GF(256) is a field

    The byte operations of [Gf256.v] satisfy the field axioms: commutativity
    and the inverse by exhaustive check, distributivity because the reference
    product is additive, associativity from the 512 products of powers of
    two.  The type [gf] packages a byte with its bound so that [ring] and
    [field] apply to the codec's proofs. *)
From Stdlib Require Import Field.
From S2P Require Import Prelude Gf256.

(** ** Byte induction along XOR *)
Definition byte_bits (a : Z) : list Z :=
  map (fun i => if Z.testbit a (Z.of_nat i) then Z.shiftl 1 (Z.of_nat i) else 0) (seq 0 8).

Lemma byte_bits_xor a : u8 a -> fold_right Z.lxor 0 (byte_bits a) = a.
Proof.
  intros. apply Z.eqb_eq.
  apply (forall_bytes (fun a => fold_right Z.lxor 0 (byte_bits a) =? a)); [|done].
  vm_compute. reflexivity.
Qed.

Definition basis : list Z := map (fun i => Z.shiftl 1 (Z.of_nat i)) (seq 0 8).

Lemma byte_xor_ind (P : Z -> Prop) :
  P 0 -> (forall e, In e basis -> P e) ->
  (forall a b, u8 a -> u8 b -> P a -> P b -> P (Z.lxor a b)) ->
  forall a, u8 a -> P a.
Proof.
  intros H0 Hb Hx a Ha. rewrite <- (byte_bits_xor a Ha).
  assert (Hall : Forall (fun e => u8 e /\ P e) (byte_bits a)).
  { apply Forall_forall. intros e He. apply list_elem_of_In, in_map_iff in He.
    destruct He as (i & <- & Hi).
    destruct (Z.testbit a (Z.of_nat i)); [|split; [unfold u8; lia|done]].
    assert (Hin : In (Z.shiftl 1 (Z.of_nat i)) basis).
    { apply in_map_iff. by exists i. }
    split; [|by apply Hb]. apply in_seq in Hi.
    do 8 (destruct i as [|i]; [vm_compute; intuition congruence|]). lia. }
  clear Ha. induction Hall as [|e l [He HPe] Hl IH]; [done|]. simpl.
  apply Hx; auto. clear -Hl. induction Hl as [|x l [Hx _] _ IH]; [done|].
  simpl. by apply lxor_u8.
Qed.

(** ** Commutativity, distributivity, associativity, inverse *)
Lemma gf_mul_comm a b : u8 a -> u8 b -> gf_mul a b = gf_mul b a.
Proof.
  intros. unfold gf_mul. rewrite (orb_comm (a =? 0)), Z.add_comm. done.
Qed.

Lemma gf_ref_lxor a b c : gf_ref a (Z.lxor b c) = Z.lxor (gf_ref a b) (gf_ref a c).
Proof.
  unfold gf_ref. induction (seq 0 8) as [|i l IH]; [done|].
  cbn [fold_right]. rewrite IH, Z.lxor_spec.
  set (p := Nat.iter i xtime a).
  apply Z.bits_inj'. intros n Hn.
  destruct (Z.testbit b (Z.of_nat i)), (Z.testbit c (Z.of_nat i)); cbn [xorb];
    rewrite !Z.lxor_spec, ?Z.bits_0;
    repeat match goal with |- context [Z.testbit ?x n] =>
      destruct (Z.testbit x n) end; reflexivity.
Qed.

Lemma gf_mul_lxor_r a b c :
  u8 a -> u8 b -> u8 c ->
  gf_mul a (Z.lxor b c) = Z.lxor (gf_mul a b) (gf_mul a c).
Proof. intros. rewrite !gf_mul_ref by auto with ints. apply gf_ref_lxor. Qed.

Lemma gf_mul_lxor_l a b c :
  u8 a -> u8 b -> u8 c ->
  gf_mul (Z.lxor a b) c = Z.lxor (gf_mul a c) (gf_mul b c).
Proof.
  intros. rewrite gf_mul_comm, gf_mul_lxor_r by auto with ints.
  f_equal; apply gf_mul_comm; auto.
Qed.

Lemma gf_mul_0_l a : gf_mul 0 a = 0.
Proof. done. Qed.
Lemma gf_mul_0_r a : gf_mul a 0 = 0.
Proof. unfold gf_mul. by rewrite orb_true_r. Qed.

Lemma gf_mul_1_l a : u8 a -> gf_mul 1 a = a.
Proof.
  intros. apply Z.eqb_eq.
  apply (forall_bytes (fun a => gf_mul 1 a =? a)); [|done]. vm_compute. reflexivity.
Qed.

Lemma gf_inv_l a : u8 a -> a <> 0 -> gf_mul (gf_inv a) a = 1.
Proof.
  intros Ha Hn.
  assert (H : (a =? 0) || (gf_mul (gf_inv a) a =? 1) = true).
  { apply (forall_bytes (fun a => (a =? 0) || (gf_mul (gf_inv a) a =? 1))); [|done].
    vm_compute. reflexivity. }
  bool_hyps. destruct H as [H|H]; bool_hyps; [done|exact H].
Qed.

Lemma basis_u8 e : In e basis -> u8 e.
Proof.
  intros He. apply is_u8_spec. revert e He. apply forallb_forall.
  vm_compute. reflexivity.
Qed.

Lemma gf_mul_assoc_basis :
  forallb (fun a => forallb (fun b => forallb (fun c =>
    gf_mul (gf_mul a b) c =? gf_mul a (gf_mul b c)) basis) basis) basis = true.
Proof. vm_compute. reflexivity. Qed.

Lemma gf_mul_assoc a b c :
  u8 a -> u8 b -> u8 c -> gf_mul (gf_mul a b) c = gf_mul a (gf_mul b c).
Proof.
  intros Ha Hb Hc. revert c Hc.
  apply byte_xor_ind; [by rewrite !gf_mul_0_r| |].
  2: { intros c d Hc Hd IHc IHd.
       rewrite !gf_mul_lxor_r by auto with ints. congruence. }
  intros c Hc. revert b Hb. apply byte_xor_ind;
    [by rewrite gf_mul_0_r, gf_mul_0_l, gf_mul_0_r| |].
  2: { intros b d Hb Hd IHb IHd. pose proof (basis_u8 c Hc).
       rewrite !gf_mul_lxor_r, !gf_mul_lxor_l, gf_mul_lxor_r by auto with ints.
       congruence. }
  intros b Hb. revert a Ha. apply byte_xor_ind; [done| |].
  2: { intros a d Ha Hd IHa IHd.
       pose proof (basis_u8 c Hc). pose proof (basis_u8 b Hb).
       rewrite !gf_mul_lxor_l by auto with ints. congruence. }
  intros a Ha. pose proof gf_mul_assoc_basis as H.
  rewrite forallb_forall in H. specialize (H a Ha).
  rewrite forallb_forall in H. specialize (H b Hb).
  rewrite forallb_forall in H. specialize (H c Hc). by apply Z.eqb_eq.
Qed.

(** ** The field [gf] *)
Record gf : Type := Gf { gval : Z; gval_is_u8 : is_u8 gval = true }.

Lemma gval_u8 a : u8 (gval a).
Proof. apply is_u8_spec, gval_is_u8. Qed.

Lemma gf_eq a b : gval a = gval b -> a = b.
Proof.
  destruct a as [a Ha], b as [b Hb]; cbn; intros <-.
  f_equal. apply (Eqdep_dec.UIP_dec Bool.bool_dec).
Qed.

Lemma to_u8_is_u8 z : is_u8 (to_u8 z) = true.
Proof. apply is_u8_spec, to_u8_u8. Qed.

(** The field element of a byte. *)
Definition el (z : Z) : gf := Gf (to_u8 z) (to_u8_is_u8 z).

Definition g0 : gf := el 0.
Definition g1 : gf := el 1.
Definition gadd (a b : gf) : gf := el (gf_add (gval a) (gval b)).
Definition gmul (a b : gf) : gf := el (gf_mul (gval a) (gval b)).
Definition ginv (a : gf) : gf := el (gf_inv (gval a)).
Definition gdiv (a b : gf) : gf := gmul a (ginv b).
Definition gopp (a : gf) : gf := a.
Definition gsub (a b : gf) : gf := gadd a b.

Lemma gval_el z : u8 z -> gval (el z) = z.
Proof. apply to_u8_id. Qed.
Lemma el_gval a : el (gval a) = a.
Proof. apply gf_eq, gval_el, gval_u8. Qed.
Lemma el_inj a b : u8 a -> u8 b -> el a = el b -> a = b.
Proof. intros Ha Hb H. by rewrite <- (gval_el a), <- (gval_el b), H. Qed.

#[export] Hint Resolve gval_u8 : ints.

Lemma gval_add a b : gval (gadd a b) = Z.lxor (gval a) (gval b).
Proof.
  unfold gadd. rewrite gf_add_lxor by auto with ints. apply gval_el; auto with ints.
Qed.
Lemma gval_mul a b : gval (gmul a b) = gf_mul (gval a) (gval b).
Proof. apply gval_el; auto with ints. Qed.

Lemma el_lxor a b : u8 a -> u8 b -> el (Z.lxor a b) = gadd (el a) (el b).
Proof.
  intros. apply gf_eq. rewrite gval_add, !gval_el by auto with ints. done.
Qed.
Lemma el_mul a b : u8 a -> u8 b -> el (gf_mul a b) = gmul (el a) (el b).
Proof.
  intros. apply gf_eq. rewrite gval_mul, !gval_el by auto with ints. done.
Qed.
Lemma el_inv a : u8 a -> el (gf_inv a) = ginv (el a).
Proof. intros. unfold ginv. by rewrite gval_el. Qed.

Lemma gf_field_theory : field_theory g0 g1 gadd gmul gsub gopp gdiv ginv eq.
Proof.
  constructor; [constructor| | |]; try done; intros; try apply gf_eq.
  - rewrite gval_add. apply Z.lxor_0_l.
  - rewrite !gval_add. apply Z.lxor_comm.
  - rewrite !gval_add. symmetry. apply Z.lxor_assoc.
  - rewrite gval_mul. apply gf_mul_1_l. auto with ints.
  - rewrite !gval_mul. apply gf_mul_comm; auto with ints.
  - rewrite !gval_mul. symmetry. apply gf_mul_assoc; auto with ints.
  - rewrite gval_mul, !gval_add, !gval_mul. apply gf_mul_lxor_l; auto with ints.
  - rewrite gval_add. apply Z.lxor_nilpotent.
  - rewrite gval_mul. unfold ginv. rewrite gval_el by auto with ints.
    apply gf_inv_l; [auto with ints|]. intros H0. apply H. by apply gf_eq.
Qed.

Add Field gf_field : gf_field_theory.

#[export] Instance gf_eq_dec : EqDecision gf.
Proof.
  intros a b. destruct (decide (gval a = gval b)) as [H|H]; [left; by apply gf_eq|].
  right. by intros ->.
Defined.

Lemma gadd_self a : gadd a a = g0.
Proof. apply gf_eq. rewrite gval_add. apply Z.lxor_nilpotent. Qed.

Lemma gadd_eq_0 a b : gadd a b = g0 -> a = b.
Proof.
  intros H. assert (E : gsub (gadd a b) b = a) by ring.
  rewrite <- E, H. unfold gsub. ring.
Qed.

Lemma gadd_neq_0 a b : a <> b -> gadd a b <> g0.
Proof. intros H E. by apply H, gadd_eq_0. Qed.

Lemma g1_neq_g0 : g1 <> g0.
Proof. intros H. by apply (f_equal gval) in H. Qed.

Lemma gmul_eq_0 a b : gmul a b = g0 -> a <> g0 -> b = g0.
Proof.
  intros H Ha. assert (E : b = gmul (ginv a) (gmul a b)) by (field; done).
  rewrite E, H. ring.
Qed.

(** ** The span operation *)

(** [out ^= coefficient * input], byte by byte. *)
Definition mul_xor_ref (coefficient v o : Z) : Z := Z.lxor o (gf_mul coefficient v).

Lemma span_loop_ext f g input out n :
  bytes input -> bytes out ->
  (forall v o, u8 v -> u8 o -> f v o = g v o) ->
  span_loop f input out n = span_loop g input out n.
Proof.
  intros Hi Ho H. revert input out Hi Ho. induction n as [|n IH]; [by intros|].
  intros [|v input] [|o out] Hi Ho; [by cbn..|]. cbn.
  apply Forall_cons in Hi as [Hv Hi], Ho as [Ho' Ho].
  by rewrite IH, H.
Qed.

Lemma mul_xor_step_ref c v o :
  u8 c -> c <> 0 -> u8 v -> u8 o ->
  mul_xor_step (at_ tables.(t_log) c) v o = mul_xor_ref c v o.
Proof.
  intros Hc Hn Hv Ho. pose proof (gf_mul_u8 c v Hc Hv) as Hm.
  unfold mul_xor_step, mul_xor_ref, gf_mul in *.
  destruct (Z.eqb_spec c 0) as [|_]; [done|].
  destruct (Z.eqb_spec v 0) as [->|Hv0]; cbn [orb] in *; [symmetry; apply Z.lxor_0_r|].
  apply to_u8_id. auto with ints.
Qed.

Lemma xor_step_ref v o : u8 v -> u8 o -> xor_step v o = mul_xor_ref 1 v o.
Proof.
  intros. unfold xor_step, mul_xor_ref. rewrite gf_mul_1_l by done.
  apply to_u8_id. auto with ints.
Qed.

Lemma span_loop_id input out n :
  (n <= length input)%nat -> (n <= length out)%nat ->
  span_loop (mul_xor_ref 0) input out n = Some out.
Proof.
  revert input out. induction n as [|n IH]; [by intros|].
  intros [|v input] [|o out]; cbn; try lia. intros.
  rewrite IH by lia. cbn. unfold mul_xor_ref. by rewrite gf_mul_0_l, Z.lxor_0_r.
Qed.

Lemma gf_mul_xor_span c input out n :
  u8 c -> bytes input -> bytes out ->
  (n <= length input)%nat -> (n <= length out)%nat ->
  gf_mul_xor c input out n = span_loop (mul_xor_ref c) input out n.
Proof.
  intros Hc Hi Ho Hni Hno. unfold gf_mul_xor.
  destruct (Z.eqb_spec c 0) as [->|Hc0]; [by rewrite span_loop_id|].
  destruct (Z.eqb_spec c 1) as [->|Hc1].
  - apply span_loop_ext; auto using xor_step_ref.
  - apply span_loop_ext; auto using mul_xor_step_ref.
Qed.

Lemma span_loop_nth f input out n :
  (n <= length input)%nat -> (n <= length out)%nat ->
  exists out', span_loop f input out n = Some out' /\ length out' = length out /\
    forall x, nth x out' 0 =
      if (x <? n)%nat then f (nth x input 0) (nth x out 0) else nth x out 0.
Proof.
  revert input out. induction n as [|n IH]; intros input out Hi Ho.
  - exists out. split; [done|]. split; [done|]. intros x. by destruct (Nat.ltb_spec x 0); [lia|].
  - destruct input as [|v input], out as [|o out]; cbn in Hi, Ho; try lia.
    destruct (IH input out) as (out' & E & Hl & Hn); [lia..|].
    exists (f v o :: out'). cbn [span_loop]. rewrite E. split; [done|].
    split; [cbn; by rewrite Hl|]. intros [|x]; [done|]. cbn [nth]. rewrite Hn.
    by destruct (Nat.ltb_spec x n), (Nat.ltb_spec (S x) (S n)); try lia.
Qed.

Lemma gf_mul_xor_spec c input out n :
  u8 c -> bytes input -> bytes out ->
  (n <= length input)%nat -> (n <= length out)%nat ->
  exists out', gf_mul_xor c input out n = Some out' /\ length out' = length out /\
    bytes out' /\
    forall x, nth x out' 0 =
      if (x <? n)%nat then mul_xor_ref c (nth x input 0) (nth x out 0) else nth x out 0.
Proof.
  intros Hc Hi Ho Hni Hno. rewrite gf_mul_xor_span by done.
  destruct (span_loop_nth (mul_xor_ref c) input out n Hni Hno) as (out' & E & Hl & Hn).
  exists out'. split; [done|]. split; [done|]. split; [|done].
  assert (Hu : forall l x, bytes l -> u8 (nth x l 0)).
  { intros l x Hb. destruct (nth_in_or_default x l 0) as [H | ->]; [|split; lia].
    eapply Forall_forall in Hb; [exact Hb|]. by apply list_elem_of_In. }
  apply Forall_lookup_2. intros i y Hy. apply (nth_lookup_Some _ _ 0) in Hy as <-.
  rewrite Hn. case_match; [|by apply Hu]. apply lxor_u8; [by apply Hu|].
  apply gf_mul_u8; [done|by apply Hu].
Qed.

(** ** The NEON build computes the same bytes *)
Section NeonProofs.
Context (vtbl2 : list Z -> Z -> Z).
(** [vtbl2_u8]: an index below 16 selects that byte of the table. *)
Hypothesis vtbl2_index : forall t i, 0 <= i < 16 -> vtbl2 t i = nth (Z.to_nat i) t 0.

Lemma nibble_tables_all :
  forallb (fun c => forallb (fun v =>
    (0 <=? Z.land v 15) && (Z.land v 15 <? 16) && (0 <=? Z.shiftr v 4) &&
    (Z.shiftr v 4 <? 16) &&
    (Z.lxor (at_ (nth (Z.to_nat c) tables.(mul_lo) []) (Z.land v 15))
            (at_ (nth (Z.to_nat c) tables.(mul_hi) []) (Z.shiftr v 4)) =? gf_mul c v))
    all_bytes) all_bytes = true.
Proof. vm_compute. reflexivity. Qed.

Lemma neon_lane_ref c v o :
  u8 c -> u8 v ->
  neon_lane vtbl2 (nth (Z.to_nat c) tables.(mul_lo) [])
    (nth (Z.to_nat c) tables.(mul_hi) []) v o = mul_xor_ref c v o.
Proof.
  intros Hc Hv. pose proof (forall_bytes2 _ nibble_tables_all c v Hc Hv) as H.
  cbv beta in H. bool_hyps. unfold neon_lane, mul_xor_ref.
  rewrite !vtbl2_index by lia. by f_equal.
Qed.

Lemma span_loop_split f a : forall input out b,
  span_loop f input out (a + b) =
  (head ← span_loop f (take a input) (take a out) a;
   r ← span_loop f (drop a input) (drop a out) b; Some (head ++ r)).
Proof.
  induction a as [|a IH]; intros input out b.
  - cbn. rewrite !drop_0. by destruct (span_loop f input out b).
  - destruct input as [|v input], out as [|o out]; try done. cbn.
    rewrite IH. destruct (span_loop f (take a input) (take a out) a); [|done]. cbn.
    by destruct (span_loop f (drop a input) (drop a out) b).
Qed.

Lemma neon_loop_span lane tail f fuel : forall input out n,
  bytes input -> bytes out ->
  (forall v o, u8 v -> u8 o -> lane v o = f v o) ->
  (forall v o, u8 v -> u8 o -> tail v o = f v o) ->
  neon_loop lane tail input out n fuel = span_loop f input out n.
Proof.
  induction fuel as [|fuel IH]; intros input out n Hi Ho Hl Ht;
    [by apply span_loop_ext|]. cbn [neon_loop].
  destruct (Nat.leb_spec 16 n) as [Hn|Hn]; [|by apply span_loop_ext].
  transitivity (span_loop f input out (16 + (n - 16)));
    [rewrite span_loop_split|f_equal; lia].
  rewrite (span_loop_ext lane f) by (done || by apply Forall_take).
  destruct (span_loop f (take 16 input) (take 16 out) 16); [|done].
  cbn. by rewrite IH by (done || by apply Forall_drop).
Qed.

Lemma gf_mul_xor_neon_span c input out n :
  u8 c -> bytes input -> bytes out ->
  gf_mul_xor_neon vtbl2 c input out n = gf_mul_xor c input out n.
Proof.
  intros Hc Hi Ho. unfold gf_mul_xor_neon, gf_mul_xor.
  destruct (Z.eqb_spec c 0) as [->|Hc0]; [done|].
  destruct (Z.eqb_spec c 1) as [->|Hc1]; [done|].
  rewrite (neon_loop_span _ _ (mul_xor_ref c));
    auto using neon_lane_ref, mul_xor_step_ref.
  symmetry. apply span_loop_ext; auto using mul_xor_step_ref.
Qed.
End NeonProofs.
