(* ===== verification/Rlc.v ===== *)
(** * Systematic Cauchy Reed-Solomon codec ([core/include/wblink/rlc.h],
    [core/src/rlc.cpp])

    Repair rows, repair-symbol encoding and the [RlcDecoder] with its
    Gauss-Jordan elimination.  The flat arrays [a] (k x k) and [b] (k x s) of
    [decode] are lists of rows: row [r] is the run of the flat array from
    [r * k] (from [r * s]). *)
From S2P Require Import Prelude Gf256.

(** [memset(out, 0, s)]. *)
Definition memset0 (out : list Z) (s : nat) : option (list Z) :=
  if (s <=? length out)%nat then Some (replicate s 0 ++ drop s out) else None.

Definition rlc_repair_row (k repair_idx : Z) : list Z :=
  let x := to_u8 (k + repair_idx) in
  map (fun i => let y := to_u8 (Z.of_nat i) in gf_inv (to_u8 (Z.lxor x y)))
      (seq 0 (Z.to_nat k)).

(** One turn of the encoder's loop: [out += row[i] * sources[i]]. *)
Definition encode_step (row : list Z) (sources : list (list Z)) (s : nat)
    (out : list Z) (i : nat) : option (list Z) :=
  c ← row !! i;
  if c =? 0 then Some out
  else src ← sources !! i; gf_mul_xor c src out s.

(** The row lives in a 256-byte stack array. *)
Definition rlc_encode_repair (k repair_idx : Z) (sources : list (list Z))
    (s : nat) (out : list Z) : option (list Z) :=
  if k <=? 256 then
    let row := rlc_repair_row k repair_idx in
    out ← memset0 out s;
    foldM (encode_step row sources s) (seq 0 (Z.to_nat k)) out
  else None.

(** ** The decoder *)
Record RlcDecoder : Type := MkRlcDecoder {
  k_ : Z;
  s_ : nat;
  coeffs_ : list (list Z);
  data_ : list (list Z);
  have_source_ : list Z;
  have_repair_ : list Z
}.

Definition RlcDecoder_init (k : Z) (s : nat) : RlcDecoder :=
  MkRlcDecoder k s [] [] (replicate (Z.to_nat k) 0) (replicate 256 0).

Definition add_source (d : RlcDecoder) (i : Z) (data : list Z) : option RlcDecoder :=
  if (i >=? d.(k_)) || negb (nth (Z.to_nat i) d.(have_source_) 0 =? 0)
     || (len d.(coeffs_) >=? d.(k_))
  then Some d
  else
    payload ← slice data 0 d.(s_);
    let row := <[Z.to_nat i := 1]> (replicate (Z.to_nat d.(k_)) 0) in
    Some (MkRlcDecoder d.(k_) d.(s_) (d.(coeffs_) ++ [row]) (d.(data_) ++ [payload])
            (<[Z.to_nat i := 1]> d.(have_source_)) d.(have_repair_)).

Definition add_repair (d : RlcDecoder) (repair_idx : Z) (data : list Z)
  : option RlcDecoder :=
  if negb (nth (Z.to_nat repair_idx) d.(have_repair_) 0 =? 0)
     || (len d.(coeffs_) >=? d.(k_))
  then Some d
  else
    payload ← slice data 0 d.(s_);
    let row := rlc_repair_row d.(k_) repair_idx in
    Some (MkRlcDecoder d.(k_) d.(s_) (d.(coeffs_) ++ [row]) (d.(data_) ++ [payload])
            d.(have_source_) (<[Z.to_nat repair_idx := 1]> d.(have_repair_))).

Definition have (d : RlcDecoder) : Z := len d.(coeffs_).
Definition can_decode (d : RlcDecoder) : bool := len d.(coeffs_) >=? d.(k_).

(** ** Gauss-Jordan elimination *)

(** [a[r * k + c]]. *)
Definition at2 (m : list (list Z)) (r c : nat) : Z := nth c (nth r m []) 0.

(** [while (pivot < k && a[pivot * k + col] == 0) ++pivot;] with [n] turns left
    before [pivot == k]. *)
Fixpoint find_pivot (a : list (list Z)) (col pivot n : nat) : nat :=
  match n with
  | O => pivot
  | S n => if at2 a pivot col =? 0 then find_pivot a col (S pivot) n else pivot
  end.

Definition swap_rows (m : list (list Z)) (i j : nat) : list (list Z) :=
  <[i := nth j m []]> (<[j := nth i m []]> m).

Definition scale_row (m : list (list Z)) (r : nat) (inv : Z) : list (list Z) :=
  <[r := map (fun v => gf_mul v inv) (nth r m [])]> m.

(** [row r ^= factor * row col]. *)
Definition add_row (m : list (list Z)) (r col : nat) (factor : Z) : list (list Z) :=
  <[r := zip_with (fun x y => to_u8 (Z.lxor x (gf_mul factor y)))
                  (nth r m []) (nth col m [])]> m.

Abbreviation matrices := (list (list Z) * list (list Z))%type.

Definition eliminate_row (col : nat) (ab : matrices) (r : nat) : matrices :=
  let '(a, b) := ab in
  if (r =? col)%nat then (a, b)
  else
    let factor := at2 a r col in
    if factor =? 0 then (a, b)
    else (add_row a r col factor, add_row b r col factor).

Definition normalize (col : nat) (ab : matrices) : matrices :=
  let '(a, b) := ab in
  let inv := gf_inv (at2 a col col) in
  if inv =? 1 then (a, b) else (scale_row a col inv, scale_row b col inv).

(** One turn of the column loop; [None]: no pivot, the loop returns [false]. *)
Definition gauss_step (k : nat) (ab : matrices) (col : nat) : option matrices :=
  let '(a, b) := ab in
  let pivot := find_pivot a col col (k - col) in
  if (pivot =? k)%nat then None
  else
    let ab := if (pivot =? col)%nat then (a, b)
              else (swap_rows a pivot col, swap_rows b pivot col) in
    Some (fold_left (eliminate_row col) (seq 0 k) (normalize col ab)).

(** The loop that copies row [i] of [b] to [out + i * s]. *)
Definition write_rows (b : list (list Z)) (s k : nat) (out : list Z)
  : option (list Z) :=
  foldM (fun out i => memcpy out (i * s) (nth i b []) s) (seq 0 k) out.

(** [decode]: the returned flag and the output buffer. *)
Definition decode (d : RlcDecoder) (out : list Z) : option (bool * list Z) :=
  if len d.(coeffs_) <? d.(k_) then Some (false, out)
  else
    let k := Z.to_nat d.(k_) in
    match foldM (gauss_step k) (seq 0 k) (take k d.(coeffs_), take k d.(data_)) with
    | None => Some (false, out)
    | Some (_, b) => out ← write_rows b d.(s_) k out; Some (true, out)
    end.
