(* ===== verification/RlcProps.v ===== *)
(** * Properties of the erasure code

    The table-driven field is GF(2)[x] / 0x11D, both builds of the span
    operation agree, and the code is MDS. *)
From Stdlib Require Import Field.
From S2P Require Import Prelude Gf256 GfField Rlc.
(** ** Sums *)
Definition lsum {A} (l : list A) (f : A -> gf) : gf :=
  fold_right (fun x acc => gadd (f x) acc) g0 l.

Section Sums.
Context {A : Type}.
Implicit Types (l : list A) (f g : A -> gf).

Lemma lsum_ext l f g :
  (forall x, x ∈ l -> f x = g x) -> lsum l f = lsum l g.
Proof.
  induction l as [|x l IH]; intros H; [done|]. cbn.
  f_equal; [apply H; set_solver|apply IH; set_solver].
Qed.

Lemma lsum_0 l f : (forall x, x ∈ l -> f x = g0) -> lsum l f = g0.
Proof.
  induction l as [|x l IH]; intros H; [done|]. cbn. fold (lsum l f).
  rewrite IH, H by set_solver. ring.
Qed.

Lemma lsum_add l f g : lsum l (fun x => gadd (f x) (g x)) = gadd (lsum l f) (lsum l g).
Proof.
  induction l as [|x l IH]; cbn; [ring|]. fold (lsum l f) (lsum l g).
  unfold lsum in IH at 1. rewrite IH. ring.
Qed.

Lemma lsum_scale l f c : lsum l (fun x => gmul c (f x)) = gmul c (lsum l f).
Proof.
  induction l as [|x l IH]; cbn; [ring|]. fold (lsum l f).
  unfold lsum in IH at 1. rewrite IH. ring.
Qed.

Lemma lsum_single l f x :
  NoDup l -> x ∈ l -> (forall y, y ∈ l -> y <> x -> f y = g0) -> lsum l f = f x.
Proof.
  induction 1 as [|y l Hy Hl IH]; intros Hx H; [set_solver|]. cbn. fold (lsum l f).
  apply elem_of_cons in Hx as [<-|Hx].
  - rewrite lsum_0; [ring|]. intros z Hz. apply H; set_solver.
  - rewrite IH, (H y) by set_solver. ring.
Qed.

Lemma lsum_filter (P : A -> Prop) {dP : forall x, Decision (P x)} l f :
  (forall x, x ∈ l -> ~ P x -> f x = g0) -> lsum (filter P l) f = lsum l f.
Proof.
  induction l as [|x l IH]; intros H; [done|]. rewrite filter_cons.
  assert (IH' : lsum (filter P l) f = lsum l f) by (apply IH; set_solver).
  destruct (decide (P x)).
  - cbn. fold (lsum (filter P l) f) (lsum l f). by rewrite IH'.
  - cbn. fold (lsum l f). rewrite (H x) by set_solver. rewrite IH'. ring.
Qed.
End Sums.

(** ** Cauchy systems have a trivial kernel

    For distinct [x]s and distinct [f y]s, the equations
    [sum_y v(y) / (x + f y) = 0], one for each [x], force [v = 0].  Induction on
    the unknowns: times [x + f y0], minus the equation of [x0], divided by
    [x - x0], every other equation is one of the smaller system in
    [v(y) (f y - f y0) / (x0 + f y)]. *)
Section Cauchy.
Context (f : nat -> gf).

Lemma cauchy_term (x x0 y y0 v : gf) :
  gadd x y <> g0 -> gadd x0 y <> g0 -> gadd x x0 <> g0 ->
  gdiv (gmul v (gdiv (gadd y y0) (gadd x0 y))) (gadd x y) =
  gdiv (gadd (gmul (gadd x y0) (gdiv v (gadd x y)))
             (gmul (gadd x0 y0) (gdiv v (gadd x0 y)))) (gadd x x0).
Proof.
  intros H1 H2 H3.
  assert (E : gmul (gadd y y0) (gadd x x0) =
              gadd (gmul (gadd x y0) (gadd x0 y)) (gmul (gadd x0 y0) (gadd x y))).
  { transitivity (gadd (gmul (gadd y y0) (gadd x x0))
                       (gadd (gadd (gmul x x0) (gmul x x0)) (gadd (gmul y y0) (gmul y y0)))).
    - rewrite !gadd_self. ring.
    - ring. }
  transitivity (gdiv (gmul v (gmul (gadd y y0) (gadd x x0)))
                     (gmul (gmul (gadd x y) (gadd x0 y)) (gadd x x0))).
  - field. auto.
  - rewrite E. field. auto.
Qed.

Lemma cauchy_kernel ys : forall xs v,
  NoDup (f <$> ys) -> NoDup xs ->
  (forall x y, x ∈ xs -> y ∈ ys -> x <> f y) ->
  (length ys <= length xs)%nat ->
  (forall x, x ∈ xs -> lsum ys (fun y => gdiv (v y) (gadd x (f y))) = g0) ->
  forall y, y ∈ ys -> v y = g0.
Proof.
  induction ys as [|y0 ys IH]; intros xs v Hys Hxs Hd Hl Heq; [set_solver|].
  destruct xs as [|x0 xs]; [cbn in Hl; lia|].
  apply NoDup_cons in Hys as [Hy0 Hys]. apply NoDup_cons in Hxs as [Hx0 Hxs].
  assert (Hne : forall x y, x ∈ x0 :: xs -> y ∈ y0 :: ys -> gadd x (f y) <> g0).
  { intros x y Hx Hy. apply gadd_neq_0. by apply Hd. }
  assert (Hmul : forall x, x ∈ x0 :: xs ->
    gadd (v y0) (gmul (gadd x (f y0)) (lsum ys (fun y => gdiv (v y) (gadd x (f y))))) = g0).
  { intros x Hx. specialize (Heq x Hx). cbn in Heq.
    fold (lsum ys (fun y => gdiv (v y) (gadd x (f y)))) in Heq.
    transitivity (gmul (gadd x (f y0)) g0); [|ring]. rewrite <- Heq.
    field. apply Hne; set_solver. }
  assert (Hys0 : forall y, y ∈ ys -> v y = g0).
  { intros y Hy.
    set (w y := gmul (v y) (gdiv (gadd (f y) (f y0)) (gadd x0 (f y)))).
    assert (Hw : w y = g0).
    { apply (IH xs w); try done; [set_solver|cbn in Hl; lia|].
      intros x Hx.
      assert (Hxx : gadd x x0 <> g0) by (apply gadd_neq_0; set_solver).
      rewrite (lsum_ext _ _ (fun y => gmul (ginv (gadd x x0))
        (gadd (gmul (gadd x (f y0)) (gdiv (v y) (gadd x (f y))))
              (gmul (gadd x0 (f y0)) (gdiv (v y) (gadd x0 (f y))))))).
      2: { intros z Hz. unfold w. rewrite cauchy_term by (auto; apply Hne; set_solver).
           unfold gdiv. ring. }
      rewrite lsum_scale, lsum_add, !lsum_scale.
      pose proof (Hmul x ltac:(set_solver)) as E1.
      pose proof (Hmul x0 ltac:(set_solver)) as E2.
      apply gadd_eq_0 in E1, E2. rewrite <- E1, <- E2, gadd_self. ring. }
    unfold w in Hw.
    apply (gmul_eq_0 (gdiv (gadd (f y) (f y0)) (gadd x0 (f y)))).
    - rewrite <- Hw. ring.
    - intros E. apply (gadd_neq_0 (f y) (f y0)).
      + intros E'. apply Hy0. rewrite <- E'. by apply list_elem_of_fmap_2.
      + transitivity (gmul (gdiv (gadd (f y) (f y0)) (gadd x0 (f y))) (gadd x0 (f y))).
        * field. apply Hne; set_solver.
        * rewrite E. ring. }
  intros y Hy. apply elem_of_cons in Hy as [->|Hy]; [|by apply Hys0].
  pose proof (Hmul x0 ltac:(set_solver)) as E.
  rewrite lsum_0 in E.
  - rewrite <- E. ring.
  - intros y Hy. rewrite (Hys0 y Hy). unfold gdiv. ring.
Qed.
End Cauchy.

(** ** Gauss-Jordan on functional matrices

    [a r c] is the coefficient matrix, [b r x] the right-hand side and
    [sol c x] the unknown block. *)
Abbreviation matrix := (nat -> nat -> gf).

Definition solves (k s : nat) (sol a b : matrix) : Prop :=
  forall r x, (r < k)%nat -> (x < s)%nat ->
    lsum (seq 0 k) (fun c => gmul (a r c) (sol c x)) = b r x.

Definition trivial_kernel (k : nat) (a : matrix) : Prop :=
  forall v : nat -> gf,
    (forall r, (r < k)%nat -> lsum (seq 0 k) (fun c => gmul (a r c) (v c)) = g0) ->
    forall c, (c < k)%nat -> v c = g0.

Definition unit_cols (k col : nat) (a : matrix) : Prop :=
  forall j r, (j < col)%nat -> (r < k)%nat -> a r j = if decide (r = j) then g1 else g0.

Record gauss_inv (k s : nat) (sol : matrix) (col : nat) (a b : matrix) : Prop := {
  gi_solves : solves k s sol a b;
  gi_kernel : trivial_kernel k a;
  gi_unit : unit_cols k col a
}.

Lemma seq0_elem k i : i ∈ seq 0 k <-> (i < k)%nat.
Proof. rewrite elem_of_seq. lia. Qed.

Section Gauss.
Context (k s : nat) (sol : matrix).

(** A column below the finished ones has a nonzero entry to pivot on. *)
Lemma gauss_pivot_exists col a b :
  (col < k)%nat -> gauss_inv k s sol col a b ->
  ~ (forall r, (col <= r < k)%nat -> a r col = g0).
Proof.
  intros Hc [_ Hk Hu] Hz.
  set (v c := if decide (c = col) then g1
              else if decide (c < col)%nat then a c col else g0).
  apply g1_neq_g0. transitivity (v col); [unfold v; by rewrite decide_True|].
  apply Hk; [|done]. intros r Hr.
  assert (Hsplit : forall c, gmul (a r c) (v c) =
    gadd (if decide (c = r) then if decide (r < col)%nat then a r col else g0 else g0)
         (if decide (c = col) then a r col else g0)).
  { intros c. unfold v. destruct (decide (c = col)) as [->|Hcc].
    - destruct (decide (col = r)) as [->|]; [rewrite decide_False by lia|]; ring.
    - destruct (decide (c < col)%nat).
      + rewrite Hu by done. destruct (decide (r = c)) as [->|].
        * rewrite decide_True, decide_True by done. ring.
        * rewrite decide_False by done. ring.
      + destruct (decide (c = r)) as [->|]; [rewrite decide_False by lia|]; ring. }
  rewrite (lsum_ext _ _ _ (fun c _ => Hsplit c)), lsum_add.
  rewrite (lsum_single _ _ r); [|apply NoDup_seq|by apply seq0_elem|].
  2: { intros y _ Hy. by rewrite decide_False. }
  rewrite (lsum_single _ _ col); [|apply NoDup_seq|by apply seq0_elem|].
  2: { intros y _ Hy. by rewrite decide_False. }
  rewrite (decide_True (P := r = r)), (decide_True (P := col = col)) by done.
  destruct (decide (r < col)%nat).
  - apply gadd_self.
  - rewrite Hz by lia. ring.
Qed.

(** Exchanging rows. *)
Lemma gauss_permute (p : nat -> nat) col a b a' b' :
  (forall r, (r < k)%nat -> (p r < k)%nat /\ p (p r) = r) ->
  (forall r, (r < col)%nat -> p r = r) ->
  (forall r c, (r < k)%nat -> (c < k)%nat -> a' r c = a (p r) c) ->
  (forall r x, (r < k)%nat -> (x < s)%nat -> b' r x = b (p r) x) ->
  (col < k)%nat -> gauss_inv k s sol col a b -> gauss_inv k s sol col a' b'.
Proof.
  intros Hp Hlow Ha Hb Hcol [Hs Hk Hu]. split.
  - intros r x Hr Hx. rewrite Hb by done. destruct (Hp r Hr) as [Hpr _].
    rewrite <- (Hs (p r) x Hpr Hx). apply lsum_ext.
    intros c Hc%seq0_elem. by rewrite Ha.
  - intros v Hv. apply Hk. intros r Hr. destruct (Hp r Hr) as [Hpr Hinv].
    rewrite <- (Hv (p r) Hpr). apply lsum_ext. intros c Hc%seq0_elem.
    by rewrite Ha, Hinv.
  - intros j r Hj Hr. rewrite Ha by lia. destruct (Hp r Hr) as [Hpr Hinv].
    rewrite Hu by done.
    destruct (decide (r = j)) as [->|Hrj]; [by rewrite Hlow, decide_True|].
    rewrite decide_False; [done|]. intros E. apply Hrj.
    rewrite <- Hinv, E. by apply Hlow.
Qed.

(** Scaling the pivot row to a leading one. *)
Lemma gauss_normalize col q a b a' b' :
  q <> g0 -> (col < k)%nat ->
  (forall r c, (r < k)%nat -> (c < k)%nat ->
     a' r c = if decide (r = col) then gmul (a r c) q else a r c) ->
  (forall r x, (r < k)%nat -> (x < s)%nat ->
     b' r x = if decide (r = col) then gmul (b r x) q else b r x) ->
  gauss_inv k s sol col a b -> gauss_inv k s sol col a' b'.
Proof.
  intros Hq Hcol Ha Hb [Hs Hk Hu].
  assert (Hrow : forall r v, (r < k)%nat ->
    lsum (seq 0 k) (fun c => gmul (a' r c) (v c)) =
    gmul (if decide (r = col) then q else g1) (lsum (seq 0 k) (fun c => gmul (a r c) (v c)))).
  { intros r v Hr. rewrite <- lsum_scale. apply lsum_ext. intros c Hc%seq0_elem.
    rewrite Ha by done. case_decide; ring. }
  split.
  - intros r x Hr Hx. rewrite Hrow, Hb, Hs by done. case_decide; ring.
  - intros v Hv. apply Hk. intros r Hr. specialize (Hv r Hr).
    rewrite Hrow in Hv by done. apply gmul_eq_0 in Hv; [done|].
    case_decide; [done|apply g1_neq_g0].
  - intros j r Hj Hr. rewrite Ha, Hu by lia.
    case_decide as E1; [|done]. rewrite decide_False by lia. ring.
Qed.

(** Clearing the pivot column in every other row. *)
Lemma gauss_eliminate col a b a' b' :
  (col < k)%nat -> a col col = g1 ->
  (forall r c, (r < k)%nat -> (c < k)%nat ->
     a' r c = if decide (r = col) then a r c
              else gadd (a r c) (gmul (a r col) (a col c))) ->
  (forall r x, (r < k)%nat -> (x < s)%nat ->
     b' r x = if decide (r = col) then b r x
              else gadd (b r x) (gmul (a r col) (b col x))) ->
  gauss_inv k s sol col a b -> gauss_inv k s sol (S col) a' b'.
Proof.
  intros Hcol H1 Ha Hb [Hs Hk Hu].
  set (row r v := lsum (seq 0 k) (fun c => gmul (a r c) (v c))).
  assert (Hrow : forall r v, (r < k)%nat ->
    lsum (seq 0 k) (fun c => gmul (a' r c) (v c)) =
    if decide (r = col) then row r v
    else gadd (row r v) (gmul (a r col) (row col v))).
  { intros r v Hr. unfold row. case_decide as E.
    - apply lsum_ext. intros c Hc%seq0_elem. by rewrite Ha, decide_True.
    - rewrite <- lsum_scale, <- lsum_add. apply lsum_ext. intros c Hc%seq0_elem.
      rewrite Ha, decide_False by done. ring. }
  split.
  - intros r x Hr Hx. rewrite Hrow, Hb by done. unfold row. by rewrite !Hs.
  - intros v Hv. apply Hk. intros r Hr. fold (row r v).
    assert (H0 : row col v = g0).
    { rewrite <- (Hv col Hcol). by rewrite Hrow, decide_True. }
    specialize (Hv r Hr). rewrite Hrow in Hv by done. case_decide; [done|].
    rewrite <- Hv, H0. ring.
  - intros j r Hj Hr. rewrite Ha by lia.
    destruct (decide (j = col)) as [->|Hjc].
    + case_decide as E; [by subst|]. rewrite H1. apply eq_trans with (gadd (a r col) (a r col));
        [ring|apply gadd_self].
    + rewrite (Hu j r), (Hu j col) by lia. rewrite (decide_False (P := col = j)) by lia.
      case_decide as E; [done|]. ring.
Qed.

Lemma gauss_done a b r x :
  gauss_inv k s sol k a b -> (r < k)%nat -> (x < s)%nat -> b r x = sol r x.
Proof.
  intros [Hs _ Hu] Hr Hx. rewrite <- (Hs r x Hr Hx).
  rewrite (lsum_single _ _ r); [|apply NoDup_seq|by apply seq0_elem|].
  - rewrite Hu, decide_True by done. ring.
  - intros c Hc%seq0_elem Hne. rewrite Hu, decide_False by (done || lia). ring.
Qed.
End Gauss.

Definition ent (m : list (list Z)) (r c : nat) : gf := el (at2 m r c).

(** An [n] x [w] matrix of bytes. *)
Definition wf_row (w : nat) (row : list Z) : Prop := length row = w /\ bytes row.
Definition wf_mat (n w : nat) (m : list (list Z)) : Prop :=
  length m = n /\ Forall (wf_row w) m.

Lemma nth_u8 (l : list Z) i : bytes l -> u8 (nth i l 0).
Proof.
  intros H. destruct (nth_in_or_default i l 0) as [Hi | ->]; [|unfold u8; lia].
  eapply Forall_forall in H; [exact H|]. by apply list_elem_of_In.
Qed.

Lemma wf_nth n w m r : wf_mat n w m -> (r < n)%nat -> wf_row w (nth r m []).
Proof.
  intros [Hl Hm] Hr. eapply Forall_forall in Hm; [exact Hm|].
  apply list_elem_of_In, nth_In. lia.
Qed.

Lemma at2_u8 n w m r c : wf_mat n w m -> u8 (at2 m r c).
Proof.
  intros Hm. destruct (Nat.lt_ge_cases r n) as [Hr|Hr].
  - apply nth_u8. by eapply wf_nth.
  - unfold at2. rewrite (nth_overflow m) by (destruct Hm; lia).
    destruct c; unfold u8; cbn; lia.
Qed.

Lemma nth_insert {A} (l : list A) i j x d :
  (i < length l)%nat -> nth j (<[i := x]> l) d = if decide (i = j) then x else nth j l d.
Proof.
  intros Hi. rewrite !nth_lookup. case_decide as E.
  - subst j. by rewrite list_lookup_insert_eq.
  - by rewrite list_lookup_insert_ne.
Qed.

Lemma at2_insert m i row r c :
  (i < length m)%nat ->
  at2 (<[i := row]> m) r c = if decide (r = i) then nth c row 0 else at2 m r c.
Proof.
  intros Hi. unfold at2. rewrite nth_insert by done.
  do 2 case_decide; subst; done.
Qed.

Lemma wf_insert n w m i row :
  wf_mat n w m -> wf_row w row -> wf_mat n w (<[i := row]> m).
Proof.
  intros [Hl Hm] Hr. split; [by rewrite length_insert|]. by apply Forall_insert.
Qed.

(** ** Row operations *)
Lemma swap_wf n w m i j :
  wf_mat n w m -> (i < n)%nat -> (j < n)%nat -> wf_mat n w (swap_rows m i j).
Proof. intros. unfold swap_rows. repeat apply wf_insert; eauto using wf_nth. Qed.

Definition transpose_ (i j r : nat) : nat :=
  if decide (r = i) then j else if decide (r = j) then i else r.

Lemma swap_ent n w m i j r c :
  wf_mat n w m -> (i < n)%nat -> (j < n)%nat ->
  ent (swap_rows m i j) r c = ent m (transpose_ i j r) c.
Proof.
  intros [Hl _] Hi Hj. unfold ent, swap_rows, transpose_.
  rewrite !at2_insert by (rewrite ?length_insert; lia).
  repeat case_decide; subst; done.
Qed.

Lemma scale_wf n w m r q :
  wf_mat n w m -> (r < n)%nat -> u8 q -> wf_mat n w (scale_row m r q).
Proof.
  intros Hm Hr Hq. apply wf_insert; [done|]. destruct (wf_nth _ _ _ _ Hm Hr) as [Hl Hb].
  split; [by rewrite length_map|]. apply Forall_map.
  eapply Forall_impl; [exact Hb|]. auto with ints.
Qed.

Lemma scale_ent n w m i q r c :
  wf_mat n w m -> (i < n)%nat -> u8 q ->
  ent (scale_row m i q) r c = if decide (r = i) then gmul (ent m r c) (el q) else ent m r c.
Proof.
  intros Hm Hi Hq. unfold ent, scale_row. rewrite at2_insert by (destruct Hm; lia).
  case_decide as E; [subst|done].
  rewrite <- el_mul by eauto using at2_u8. f_equal.
  change 0 with ((fun v => gf_mul v q) 0) at 1. by rewrite map_nth.
Qed.

Lemma add_row_wf n w m r col f :
  wf_mat n w m -> (r < n)%nat -> (col < n)%nat -> wf_mat n w (add_row m r col f).
Proof.
  intros Hm Hr Hc. apply wf_insert; [done|].
  destruct (wf_nth _ _ _ _ Hm Hr) as [Hl _], (wf_nth _ _ _ _ Hm Hc) as [Hl' _].
  split; [rewrite length_zip_with; lia|].
  apply Forall_forall. intros x Hx. apply list_elem_of_lookup in Hx as [i Hi].
  apply lookup_zip_with_Some in Hi as (a & b & -> & _). apply to_u8_u8.
Qed.

Lemma add_row_ent n w m i col f r c :
  wf_mat n w m -> (i < n)%nat -> (col < n)%nat -> u8 f -> (c < w)%nat ->
  ent (add_row m i col f) r c =
  if decide (r = i) then gadd (ent m r c) (gmul (el f) (ent m col c)) else ent m r c.
Proof.
  intros Hm Hi Hcol Hf Hc. unfold ent, add_row. rewrite at2_insert by (destruct Hm; lia).
  case_decide as E; [subst|done].
  destruct (wf_nth _ _ _ _ Hm Hi) as [Hl _], (wf_nth _ _ _ _ Hm Hcol) as [Hl' _].
  pose proof (at2_u8 _ _ _ i c Hm). pose proof (at2_u8 _ _ _ col c Hm).
  rewrite <- el_mul, <- el_lxor by auto with ints.
  f_equal. unfold at2 in *.
  rewrite <- (to_u8_id (Z.lxor _ _)) by auto with ints.
  set (ri := nth i m []) in *. set (rc := nth col m []) in *.
  rewrite !nth_lookup, lookup_zip_with.
  destruct (lookup_lt_is_Some_2 ri c) as [x Hx]; [lia|].
  destruct (lookup_lt_is_Some_2 rc c) as [y Hy]; [lia|].
  by rewrite Hx, Hy.
Qed.

(** ** One column *)
Section Column.
Context (k s : nat) (sol : matrix).

(** The state of the elimination between two columns. *)
Definition mat_inv (col : nat) (ab : matrices) : Prop :=
  wf_mat k k ab.1 /\ wf_mat k s ab.2 /\
  gauss_inv k s sol col (ent ab.1) (ent ab.2).

Lemma find_pivot_spec a col n : forall pivot,
  let p := find_pivot a col pivot n in
  (pivot <= p <= pivot + n)%nat /\
  (forall r, (pivot <= r < p)%nat -> at2 a r col = 0) /\
  ((p < pivot + n)%nat -> at2 a p col <> 0).
Proof.
  induction n as [|n IH]; intros pivot; cbn.
  - repeat split; intros; lia.
  - destruct (Z.eqb_spec (at2 a pivot col) 0) as [E|E].
    + destruct (IH (S pivot)) as (H1 & H2 & H3). split; [lia|]. split.
      * intros r Hr. destruct (decide (r = pivot)) as [->|]; [done|]. apply H2; lia.
      * intros. apply H3; lia.
    + repeat split; intros; lia || done.
Qed.

Lemma pivot_found col ab :
  (col < k)%nat -> mat_inv col ab ->
  let p := find_pivot ab.1 col col (k - col) in
  (col <= p < k)%nat /\ at2 ab.1 p col <> 0.
Proof.
  intros Hc (Ha & _ & Hg). cbn.
  destruct (find_pivot_spec ab.1 col (k - col) col) as (H1 & H2 & H3).
  destruct (decide (find_pivot ab.1 col col (k - col) = k)) as [E|E].
  - exfalso. eapply (gauss_pivot_exists _ _ _ _ _ _ Hc Hg).
    intros r Hr. unfold ent. by rewrite H2 by lia.
  - split; [lia|]. apply H3. lia.
Qed.

Lemma swap_inv col p ab :
  (col <= p < k)%nat -> mat_inv col ab ->
  mat_inv col (swap_rows ab.1 p col, swap_rows ab.2 p col).
Proof.
  intros Hp (Ha & Hb & Hg). split_and!; cbn; [apply swap_wf; (done || lia)..|].
  apply (gauss_permute k s sol (transpose_ p col) col (ent ab.1) (ent ab.2));
    [| |intros; eapply swap_ent; (done || lia)..|lia|done].
  - intros r Hr. unfold transpose_. repeat case_decide; lia.
  - intros r Hr. unfold transpose_. repeat case_decide; lia.
Qed.

Lemma normalize_inv col ab :
  (col < k)%nat -> at2 ab.1 col col <> 0 -> mat_inv col ab ->
  mat_inv col (normalize col ab) /\ at2 (normalize col ab).1 col col = 1.
Proof.
  intros Hc Hne (Ha & Hb & Hg). destruct ab as [a b]. cbn in *.
  pose proof (at2_u8 _ _ _ col col Ha) as Hu.
  assert (Hi : gf_mul (at2 a col col) (gf_inv (at2 a col col)) = 1).
  { rewrite gf_mul_comm by auto with ints. by apply gf_inv_l. }
  set (q := gf_inv (at2 a col col)) in *.
  assert (Hq : u8 q) by (unfold q; auto with ints).
  assert (Hone : at2 (scale_row a col q) col col = 1).
  { apply el_inj; [|unfold u8; lia|].
    - eapply at2_u8. by apply scale_wf.
    - fold (ent (scale_row a col q) col col).
      rewrite (scale_ent k k) by done. rewrite decide_True by done. unfold ent.
      by rewrite <- el_mul, Hi. }
  unfold normalize. fold q. destruct (Z.eqb_spec q 1) as [E|E].
  - split; [by split_and!|]. cbn [fst]. assert (H1 : u8 1) by (split; done).
    rewrite E, (gf_mul_comm _ 1 Hu H1), (gf_mul_1_l _ Hu) in Hi. done.
  - split; [|done]. split_and!; cbn [fst snd]; [by apply scale_wf..|].
    eapply (gauss_normalize k s sol col (el q)); [|exact Hc| | |exact Hg].
    + intros E0. apply (f_equal (gmul (el (at2 a col col)))) in E0.
      rewrite <- el_mul, Hi in E0 by done. apply g1_neq_g0.
      change g1 with (el 1). rewrite E0. ring.
    + intros. by apply (scale_ent k k).
    + intros. by apply (scale_ent k s).
Qed.

(** The inner loop over the rows [l]. *)
Lemma eliminate_loop col l : forall a b,
  (col < k)%nat -> wf_mat k k a -> wf_mat k s b ->
  NoDup l -> (forall r, r ∈ l -> (r < k)%nat) ->
  let ab' := fold_left (eliminate_row col) l (a, b) in
  wf_mat k k ab'.1 /\ wf_mat k s ab'.2 /\
  (forall r c, (c < k)%nat -> ent ab'.1 r c =
     if decide (r ∈ l /\ r <> col)
     then gadd (ent a r c) (gmul (ent a r col) (ent a col c)) else ent a r c) /\
  (forall r x, (x < s)%nat -> ent ab'.2 r x =
     if decide (r ∈ l /\ r <> col)
     then gadd (ent b r x) (gmul (ent a r col) (ent b col x)) else ent b r x).
Proof.
  induction l as [|i l IH]; intros a b Hc Ha Hb Hnd Hl; cbn [fold_left].
  { split; [|split; [|split]]; [done..| |]; intros; rewrite decide_False; set_solver. }
  apply NoDup_cons in Hnd as [Hi Hnd].
  assert (Hik : (i < k)%nat) by (apply Hl; set_solver).
  pose proof (at2_u8 _ _ _ i col Ha) as Hf.
  destruct (eliminate_row col (a, b) i) as [a1 b1] eqn:E1.
  assert (H1 : wf_mat k k a1 /\ wf_mat k s b1 /\
    (forall r c, (c < k)%nat -> ent a1 r c = if decide (r = i /\ r <> col)
       then gadd (ent a r c) (gmul (ent a r col) (ent a col c)) else ent a r c) /\
    (forall r x, (x < s)%nat -> ent b1 r x = if decide (r = i /\ r <> col)
       then gadd (ent b r x) (gmul (ent a r col) (ent b col x)) else ent b r x)).
  { cbn in E1. destruct (Nat.eqb_spec i col) as [->|Hic].
    { injection E1 as <- <-. split; [|split; [|split]]; [done..| |]; intros;
        rewrite decide_False; naive_solver. }
    revert E1. destruct (Z.eqb_spec (at2 a i col) 0) as [Ez|Ez]; intros [= <- <-].
    - split; [|split; [|split]]; [done..| |]; intros; case_decide as D; try done;
        destruct D as [-> _]; unfold ent at 3; rewrite Ez; change (el 0) with g0; ring.
    - split; [|split; [|split]]; [by apply add_row_wf..| |]; intros;
        [erewrite (add_row_ent k k) by done|erewrite (add_row_ent k s) by done];
        destruct (decide (r = i)) as [->|]; [rewrite decide_True by done; done| |
          rewrite decide_True by done; done|];
        rewrite decide_False by naive_solver; done. }
  destruct H1 as (Ha1 & Hb1 & Ea1 & Eb1).
  destruct (IH a1 b1 Hc Ha1 Hb1 Hnd ltac:(set_solver)) as (H1 & H2 & H3 & H4).
  split; [|split; [|split]]; [done..| |].
  - intros r c Hck. rewrite H3 by done. rewrite !Ea1 by done.
    rewrite (decide_False (P := col = i /\ col <> col)) by naive_solver.
    destruct (decide (r = i)) as [->|Hri].
    + rewrite (decide_False (P := i ∈ l /\ i <> col)) by naive_solver.
      apply decide_ext. set_solver.
    + rewrite !(decide_False (P := r = i /\ r <> col)) by naive_solver.
      apply decide_ext. set_solver.
  - intros r x Hx. rewrite H4 by done. rewrite !Eb1 by done. rewrite !Ea1 by done.
    rewrite (decide_False (P := col = i /\ col <> col)) by naive_solver.
    destruct (decide (r = i)) as [->|Hri].
    + rewrite (decide_False (P := i ∈ l /\ i <> col)) by naive_solver.
      apply decide_ext. set_solver.
    + rewrite !(decide_False (P := r = i /\ r <> col)) by naive_solver.
      apply decide_ext. set_solver.
Qed.

Lemma eliminate_inv col ab :
  (col < k)%nat -> at2 ab.1 col col = 1 -> mat_inv col ab ->
  mat_inv (S col) (fold_left (eliminate_row col) (seq 0 k) ab).
Proof.
  intros Hc H1 (Ha & Hb & Hg). destruct ab as [a b].
  destruct (eliminate_loop col (seq 0 k) a b Hc Ha Hb) as (Ha' & Hb' & Ea & Eb).
  { apply NoDup_seq. }
  { intros r. by rewrite seq0_elem. }
  split_and!; [done..|].
  eapply (gauss_eliminate k s sol col); [exact Hc| | | |exact Hg].
  - unfold ent. cbn in H1 |- *. by rewrite H1.
  - intros r c Hr Hck. rewrite Ea by done. cbn [fst].
    destruct (decide (r = col)) as [->|]; [by rewrite decide_False by naive_solver|].
    rewrite decide_True; [done|]. by rewrite seq0_elem.
  - intros r x Hr Hx. rewrite Eb by done. cbn [fst snd].
    destruct (decide (r = col)) as [->|]; [by rewrite decide_False by naive_solver|].
    rewrite decide_True; [done|]. by rewrite seq0_elem.
Qed.

(** A turn of the column loop finds a pivot and finishes its column. *)
Lemma gauss_step_inv col ab :
  (col < k)%nat -> mat_inv col ab ->
  exists ab', gauss_step k ab col = Some ab' /\ mat_inv (S col) ab'.
Proof.
  intros Hc Hi. destruct (pivot_found col ab Hc Hi) as [Hp Hne].
  destruct ab as [a b]. cbn [fst] in *. unfold gauss_step.
  set (p := find_pivot a col col (k - col)) in *.
  destruct (Nat.eqb_spec p k) as [|_]; [lia|].
  eexists; split; [reflexivity|].
  assert (Hs : exists ab1, (if (p =? col)%nat then (a, b)
                 else (swap_rows a p col, swap_rows b p col)) = ab1 /\
               mat_inv col ab1 /\ at2 ab1.1 col col <> 0).
  { destruct (Nat.eqb_spec p col) as [E|E]; (eexists; split; [reflexivity|]).
    - rewrite E in Hne. done.
    - split; [by apply (swap_inv col p (a, b))|]. cbn [fst].
      destruct Hi as ((Hl & _) & _). cbn in Hl. unfold swap_rows.
      rewrite !at2_insert by (rewrite ?length_insert; lia).
      rewrite decide_False, decide_True by lia. done. }
  destruct Hs as (ab1 & -> & Hi1 & Hne1).
  destruct (normalize_inv col ab1 Hc Hne1 Hi1) as [Hi2 H1].
  by apply eliminate_inv.
Qed.

Lemma gauss_loop n : forall col ab,
  (col + n = k)%nat -> mat_inv col ab ->
  exists ab', foldM (gauss_step k) (seq col n) ab = Some ab' /\ mat_inv k ab'.
Proof.
  induction n as [|n IH]; intros col ab Hn Hi; cbn.
  - exists ab. by replace k with col by lia.
  - destruct (gauss_step_inv col ab ltac:(lia) Hi) as (ab1 & -> & Hi1).
    cbn. by apply IH; [lia|].
Qed.
End Column.

(** ** Symbols *)
Inductive Sym : Type := Src (i : nat) | Rep (j : nat).
#[export] Instance Sym_eq_dec : EqDecision Sym.
Proof. solve_decision. Defined.

(** The symbols of a block of [k] sources: [k + r <= 256] for every repair. *)
Definition sym_valid (k : nat) (y : Sym) : Prop :=
  match y with Src i => (i < k)%nat | Rep j => (k + j <= 255)%nat end.

Definition sym_row (k : nat) (y : Sym) : list Z :=
  match y with
  | Src i => <[i := 1]> (replicate k 0)
  | Rep j => rlc_repair_row (Z.of_nat k) (Z.of_nat j)
  end.

(** The payload the sender ships for a symbol. *)
Definition sym_payload (sources : list (list Z)) (s : nat) (y : Sym) : option (list Z) :=
  match y with
  | Src i => sources !! i
  | Rep j => rlc_encode_repair (len sources) (Z.of_nat j) sources s (replicate s 0)
  end.

Definition receive (sources : list (list Z)) (s : nat) (d : RlcDecoder) (y : Sym)
  : option RlcDecoder :=
  data ← sym_payload sources s y;
  match y with
  | Src i => add_source d (Z.of_nat i) data
  | Rep j => add_repair d (Z.of_nat j) data
  end.

Lemma foldM_ind {St A} (f : St -> A -> option St) (P : list A -> St -> Prop) l s0 :
  P [] s0 ->
  (forall pre x post s, l = pre ++ x :: post -> P pre s ->
     exists s', f s x = Some s' /\ P (pre ++ [x]) s') ->
  exists s', foldM f l s0 = Some s' /\ P l s'.
Proof.
  intros H0 Hstep.
  assert (G : forall post pre s, l = pre ++ post -> P pre s ->
    exists s', foldM f post s = Some s' /\ P l s').
  { induction post as [|x post IH]; intros pre s El HP; cbn.
    - exists s. rewrite app_nil_r in El. by subst.
    - destruct (Hstep pre x post s El HP) as (s' & -> & HP'). cbn.
      apply (IH (pre ++ [x])); [|done]. by rewrite <- app_assoc. }
  by apply (G l []).
Qed.

Section Encode.
Context (k s : nat) (sources : list (list Z)).
Context (Hsrc : wf_mat k s sources) (Hk : (k <= 256)%nat).

Lemma repair_row_wf j : wf_row k (rlc_repair_row (Z.of_nat k) j).
Proof.
  unfold rlc_repair_row. rewrite Nat2Z.id. split; [by rewrite length_map, length_seq|].
  apply Forall_map, Forall_true. intros. auto with ints.
Qed.

Lemma repair_row_nth j i :
  (i < k)%nat -> (k + j <= 255)%nat ->
  el (nth i (rlc_repair_row (Z.of_nat k) (Z.of_nat j)) 0) =
  ginv (gadd (el (Z.of_nat (k + j))) (el (Z.of_nat i))).
Proof.
  intros Hi Hj. unfold rlc_repair_row. rewrite Nat2Z.id, nth_lookup, list_lookup_fmap.
  rewrite lookup_seq_lt by done. cbn.
  assert (Hx : u8 (Z.of_nat k + Z.of_nat j)) by (unfold u8; lia).
  assert (Hy : u8 (Z.of_nat i)) by (unfold u8; lia).
  rewrite (to_u8_id _ Hx), (to_u8_id _ Hy), to_u8_id by auto with ints.
  rewrite el_inv, el_lxor by auto with ints. do 3 f_equal. lia.
Qed.

(** A repair symbol is the linear combination its row describes. *)
Lemma encode_repair_spec j out :
  length out = s ->
  exists e, rlc_encode_repair (Z.of_nat k) j sources s out = Some e /\
    wf_row s e /\
    forall x, (x < s)%nat ->
      el (nth x e 0) = lsum (seq 0 k) (fun i =>
        gmul (el (nth i (rlc_repair_row (Z.of_nat k) j) 0)) (ent sources i x)).
Proof.
  intros Hout. unfold rlc_encode_repair.
  destruct (Z.leb_spec (Z.of_nat k) 256) as [_|]; [|lia].
  unfold memset0. rewrite Hout, Nat.leb_refl. cbn [mbind option_bind].
  rewrite drop_ge, app_nil_r, Nat2Z.id by lia.
  destruct (repair_row_wf j) as [Hrl Hrb].
  set (row := rlc_repair_row (Z.of_nat k) j) in *.
  apply (foldM_ind _ (fun pre e => wf_row s e /\
    forall x, (x < s)%nat -> el (nth x e 0) = lsum pre (fun i =>
        gmul (el (nth i row 0)) (ent sources i x)))).
  { split.
    - split; [by rewrite length_replicate|]. apply Forall_replicate. unfold u8; lia.
    - intros x Hx. rewrite nth_lookup, lookup_replicate_2 by done. done. }
  intros pre i post e Hseq [[Hel Heb] He].
  assert (Hi : (i < k)%nat) by (apply seq0_elem; rewrite Hseq; set_solver).
  destruct (wf_nth _ _ _ _ Hsrc Hi) as [Hsl Hsb].
  unfold encode_step.
  assert (Hsnoc : forall f, lsum (pre ++ [i]) f = gadd (lsum pre f) (f i)).
  { intros f. clear. induction pre as [|y pre IH]; cbn; [ring|].
    fold (lsum (pre ++ [i]) f) (lsum pre f). rewrite IH. ring. }
  destruct (lookup_lt_is_Some_2 row i) as [c Hc]; [lia|].
  destruct (lookup_lt_is_Some_2 sources i) as [src Hs]; [destruct Hsrc; lia|].
  assert (Hn : nth i row 0 = c) by by apply nth_lookup_Some.
  assert (Hns : nth i sources [] = src) by by apply nth_lookup_Some.
  rewrite Hns in Hsl, Hsb.
  assert (Hcu : u8 c) by (rewrite <- Hn; by apply nth_u8).
  rewrite Hc. cbn [mbind option_bind]. destruct (Z.eqb_spec c 0) as [Hc0|Hc0].
  - exists e. split; [done|]. split; [done|]. intros x Hx.
    rewrite Hsnoc, <- He, Hn, Hc0 by done. change (el 0) with g0. ring.
  - rewrite Hs. cbn [mbind option_bind].
    destruct (gf_mul_xor_spec c src e s) as (e' & -> & Hl' & Hb' & He'); try done; [lia..|].
    exists e'. split; [done|]. split; [split; [lia|done]|].
    intros x Hx. rewrite He'. destruct (Nat.ltb_spec x s); [|lia].
    unfold mul_xor_ref.
    pose proof (nth_u8 src x Hsb). pose proof (nth_u8 e x Heb).
    rewrite el_lxor, el_mul by auto with ints.
    rewrite Hsnoc, He, Hn by done. unfold ent, at2. by rewrite Hns.
Qed.

Lemma sym_row_wf y : sym_valid k y -> wf_row k (sym_row k y).
Proof.
  destruct y as [i|j]; intros Hv; [|apply repair_row_wf]. cbn. split.
  - by rewrite length_insert, length_replicate.
  - apply Forall_insert; [|unfold u8; lia]. apply Forall_replicate. unfold u8; lia.
Qed.

Lemma source_row_nth i c :
  (i < k)%nat -> el (nth c (sym_row k (Src i)) 0) = if decide (c = i) then g1 else g0.
Proof.
  intros Hi. cbn. rewrite nth_insert by by rewrite length_replicate.
  do 2 case_decide; subst; try done.
  rewrite nth_lookup. destruct (replicate k 0 !! c) eqn:E; [|done].
  apply lookup_replicate in E as [-> _]. done.
Qed.

(** Every symbol's payload solves its row's equation. *)
Lemma sym_payload_spec y :
  sym_valid k y ->
  exists p, sym_payload sources s y = Some p /\ wf_row s p /\
    forall x, (x < s)%nat ->
      lsum (seq 0 k) (fun c => gmul (el (nth c (sym_row k y) 0)) (ent sources c x))
      = el (nth x p 0).
Proof.
  intros Hv. destruct Hsrc as [Hl _]. destruct y as [i|j]; cbn [sym_payload sym_row].
  - cbn in Hv. destruct (lookup_lt_is_Some_2 sources i) as [p Hp]; [lia|].
    assert (Hn : nth i sources [] = p) by by apply nth_lookup_Some.
    exists p. split; [done|]. split; [rewrite <- Hn; by eapply wf_nth|].
    intros x Hx. rewrite (lsum_single _ _ i); [|apply NoDup_seq|by apply seq0_elem|].
    + rewrite (source_row_nth i) by done. rewrite decide_True by done.
      unfold ent, at2. rewrite Hn. ring.
    + intros c _ Hc. rewrite (source_row_nth i) by done. rewrite decide_False by done. ring.
  - rewrite Hl. destruct (encode_repair_spec (Z.of_nat j) (replicate s 0)) as (e & -> & He & E).
    { by rewrite length_replicate. }
    exists e. split; [done|]. split; [done|]. intros x Hx. by rewrite E.
Qed.
End Encode.

(** ** Any [k] distinct symbols determine the block *)
Definition src_index (y : Sym) : option nat := match y with Src i => Some i | _ => None end.
Definition rep_index (y : Sym) : option nat := match y with Rep j => Some j | _ => None end.

Section Kernel.
Context (k : nat) (held : list Sym).
Context (Hnd : NoDup held) (Hval : Forall (sym_valid k) held) (Hlen : length held = k).

Let missing : list nat := filter (fun i => Src i ∉ held) (seq 0 k).
Let reps : list nat := omap rep_index held.

Lemma index_split l :
  length l = (length (omap src_index l) + length (omap rep_index l))%nat.
Proof. induction l as [|[i|j] l IH]; cbn; lia. Qed.

Lemma omap_nodup (f : Sym -> option nat) l :
  (forall y z i, f y = Some i -> f z = Some i -> y = z) -> NoDup l -> NoDup (omap f l).
Proof.
  intros Hf. induction 1 as [|y l Hy _ IH]; [constructor|]. cbn.
  destruct (f y) eqn:E; [|done]. constructor; [|done].
  intros Hin. apply list_elem_of_omap in Hin as (z & Hz & E').
  by rewrite (Hf y z _ E E') in Hy.
Qed.

Lemma sources_present :
  omap src_index held ≡ₚ filter (fun i => ~ (Src i ∉ held)) (seq 0 k).
Proof.
  apply NoDup_Permutation.
  - apply omap_nodup; [|done]. intros [?|?] [?|?] ? E1 E2; cbn in *; congruence.
  - apply NoDup_filter, NoDup_seq.
  - intros i. rewrite list_elem_of_omap, list_elem_of_filter, seq0_elem. split.
    + intros ([i'|j] & Hy & [= <-]). split; [by intros Hn|].
      eapply Forall_forall in Hval; [|exact Hy]. done.
    + intros [Hn _]. exists (Src i). split; [|done].
      by apply dec_stable.
Qed.

Lemma missing_count : length missing = length reps.
Proof.
  pose proof (index_split held) as H1.
  rewrite (Permutation_length sources_present) in H1.
  assert (H2 : (length missing + length (filter (fun i => ~ (Src i ∉ held)) (seq 0 k)) = k)%nat).
  { unfold missing. clear. rewrite <- (length_seq k 0) at 3.
    induction (seq 0 k) as [|i l IH]; [done|]. rewrite !filter_cons.
    destruct (decide (Src i ∉ held)).
    - rewrite decide_False by tauto. cbn. lia.
    - rewrite decide_True by done. cbn. lia. }
  unfold reps. lia.
Qed.

Lemma symbols_independent : trivial_kernel k (fun r c => ent (sym_row k <$> held) r c).
Proof.
  intros v Hv.
  assert (Hrow : forall y, y ∈ held ->
    lsum (seq 0 k) (fun c => gmul (el (nth c (sym_row k y) 0)) (v c)) = g0).
  { intros y Hy. apply list_elem_of_lookup in Hy as [r Hr].
    rewrite <- (Hv r); [|apply lookup_lt_Some in Hr; lia]. apply lsum_ext.
    intros c _. unfold ent, at2. f_equal. f_equal. f_equal.
    symmetry. apply nth_lookup_Some. by rewrite list_lookup_fmap, Hr. }
  assert (Hk256 : reps <> [] -> (k <= 255)%nat).
  { destruct reps as [|j l] eqn:E; [done|]. intros _.
    assert (Hj : j ∈ reps) by (rewrite E; set_solver).
    apply list_elem_of_omap in Hj as ([i|j'] & Hy & [= ->]).
    eapply Forall_forall in Hval; [|exact Hy]. cbn in Hval. lia. }
  assert (Hpresent : forall c, Src c ∈ held -> v c = g0).
  { intros c Hc. rewrite <- (Hrow _ Hc).
    assert (Hck : (c < k)%nat) by (eapply Forall_forall in Hval; [|exact Hc]; done).
    rewrite (lsum_single _ _ c); [|apply NoDup_seq|by apply seq0_elem|].
    - rewrite (source_row_nth k) by done. rewrite decide_True by done. ring.
    - intros d _ Hd. rewrite (source_row_nth k) by done. rewrite decide_False by done. ring. }
  intros c Hc. destruct (decide (Src c ∈ held)) as [Hin|Hout]; [by apply Hpresent|].
  assert (Hcm : c ∈ missing) by (apply list_elem_of_filter; by rewrite seq0_elem).
  assert (Hk : (k <= 255)%nat).
  { apply Hk256. intros E. pose proof missing_count as Hm. rewrite E in Hm.
    destruct missing; [set_solver|done]. }
  assert (Hel : forall a b, (a <= 255)%nat -> (b <= 255)%nat ->
    el (Z.of_nat a) = el (Z.of_nat b) -> a = b).
  { intros a b Ha Hb E. apply el_inj in E; unfold u8; lia. }
  assert (Hrep : forall j, j ∈ reps -> (k + j <= 255)%nat /\ Rep j ∈ held).
  { intros j Hj. apply list_elem_of_omap in Hj as ([i|j'] & Hy & [= ->]).
    split; [|done]. eapply Forall_forall in Hval; [|exact Hy]. done. }
  eapply (cauchy_kernel (fun i => el (Z.of_nat i)) missing
    ((fun j => el (Z.of_nat (k + j))) <$> reps)); [| | | | |exact Hcm].
  - apply NoDup_fmap_2_strong; [|by apply NoDup_filter, NoDup_seq].
    intros a b [_ Ha%seq0_elem]%list_elem_of_filter [_ Hb%seq0_elem]%list_elem_of_filter.
    apply Hel; lia.
  - apply NoDup_fmap_2_strong; [|apply omap_nodup; [|done]].
    + intros a b Ha%Hrep Hb%Hrep E. apply Hel in E; lia.
    + intros [?|?] [?|?] ? E1 E2; cbn in *; congruence.
  - intros x y Hx [_ Hy%seq0_elem]%list_elem_of_filter E.
    apply list_elem_of_fmap in Hx as (j & -> & Hj%Hrep). apply Hel in E; lia.
  - rewrite length_fmap. by rewrite missing_count.
  - intros x Hx. apply list_elem_of_fmap in Hx as (j & -> & [Hj Hin]%Hrep).
    rewrite <- (Hrow _ Hin). unfold missing. rewrite (lsum_filter (fun i => Src i ∉ held)).
    + apply lsum_ext. intros i Hi%seq0_elem. unfold sym_row.
      rewrite (repair_row_nth k) by lia. unfold gdiv. ring.
    + intros i _ Hi. rewrite Hpresent by (by apply dec_stable).
      unfold gdiv. ring.
Qed.
End Kernel.

(** ** The decoder after any sequence of symbols *)
Section Decoder.
Context (k s : nat) (sources : list (list Z)).
Context (Hsrc : wf_mat k s sources) (Hk : (k <= 256)%nat).

Record holds (seen held : list Sym) (d : RlcDecoder) : Prop := {
  h_k : d.(k_) = Z.of_nat k;
  h_s : d.(s_) = s;
  h_coeffs : d.(coeffs_) = sym_row k <$> held;
  h_data : mapM (sym_payload sources s) held = Some d.(data_);
  h_nodup : NoDup held;
  h_valid : Forall (sym_valid k) held;
  h_source : forall i, (i < k)%nat ->
    nth i d.(have_source_) 0 = if decide (Src i ∈ held) then 1 else 0;
  h_source_len : length d.(have_source_) = k;
  h_repair : forall j, (j < 256)%nat ->
    nth j d.(have_repair_) 0 = if decide (Rep j ∈ held) then 1 else 0;
  h_repair_len : length d.(have_repair_) = 256%nat;
  h_len : (length held <= k)%nat;
  h_seen : (forall y, y ∈ held -> y ∈ seen) /\
    (length held = k \/ forall y, y ∈ seen -> y ∈ held)
}.

Lemma holds_init : holds [] [] (RlcDecoder_init (Z.of_nat k) s).
Proof.
  split; try done; try (constructor; fail); cbn.
  - intros i Hi. rewrite decide_False by set_solver. rewrite Nat2Z.id.
    by rewrite nth_lookup, lookup_replicate_2.
  - by rewrite Nat2Z.id, length_replicate.
  - intros j Hj. rewrite decide_False by set_solver.
    change (nth j (replicate 256 0) 0 = 0). by rewrite nth_lookup, lookup_replicate_2.
  - lia.
  - split; [set_solver|right; set_solver].
Qed.

Lemma mapM_snoc {A B} (f : A -> option B) l bs x b :
  mapM f l = Some bs -> f x = Some b -> mapM f (l ++ [x]) = Some (bs ++ [b]).
Proof.
  intros Hl Hx. apply mapM_Some. apply mapM_Some in Hl.
  apply Forall2_app; [done|]. by constructor.
Qed.

(** A symbol already held, or beyond the [k]th, leaves the decoder alone. *)
Lemma holds_ignored seen held d y :
  holds seen held d -> (y ∈ held \/ length held = k) -> holds (seen ++ [y]) held d.
Proof.
  intros [] Hy. split; try done. destruct h_seen0 as [H1 H2]. split; [set_solver|].
  destruct Hy; [|by left]. destruct H2; [by left|right]. set_solver.
Qed.

Lemma receive_holds seen held d y :
  sym_valid k y -> holds seen held d ->
  exists d' held', receive sources s d y = Some d' /\ holds (seen ++ [y]) held' d'.
Proof.
  intros Hv H. pose proof (holds_ignored _ _ _ y H) as Hign.
  destruct (sym_payload_spec k s sources Hsrc Hk y Hv) as (p & Hp & [Hpl Hpb] & _).
  unfold receive. rewrite Hp. cbn [mbind option_bind].
  assert (Hlen : len d.(coeffs_) = len held) by (rewrite (h_coeffs _ _ _ H); by rewrite length_fmap).
  assert (Hslice : slice p 0 d.(s_) = Some p).
  { rewrite (h_s _ _ _ H). unfold slice. rewrite drop_0.
    destruct (Nat.leb_spec (0 + s) (length p)); [|lia]. by rewrite take_ge by lia. }
  assert (Hnew : forall hs hr,
    y ∉ held -> (length held < k)%nat ->
    length hs = k -> length hr = 256%nat ->
    (forall i, (i < k)%nat -> nth i hs 0 = if decide (Src i ∈ held ++ [y]) then 1 else 0) ->
    (forall j, (j < 256)%nat -> nth j hr 0 = if decide (Rep j ∈ held ++ [y]) then 1 else 0) ->
    holds (seen ++ [y]) (held ++ [y])
      (MkRlcDecoder d.(k_) d.(s_) (d.(coeffs_) ++ [sym_row k y]) (d.(data_) ++ [p]) hs hr)).
  { intros hs hr Hny Hlt Hls Hlr Hhs Hhr. destruct H. split; cbn; try done.
    - by rewrite fmap_app, h_coeffs0.
    - by apply mapM_snoc.
    - apply NoDup_app. split; [done|]. split; [set_solver|]. apply NoDup_singleton.
    - apply Forall_app. by rewrite Forall_singleton.
    - rewrite length_app. cbn. lia.
    - destruct h_seen0 as [H1 H2]. split; [set_solver|].
      destruct H2 as [H2|H2]; [lia|]. right. set_solver. }
  destruct y as [i|j]; cbn [sym_valid] in Hv.
  - unfold add_source. rewrite (h_k _ _ _ H), Hlen, Nat2Z.id, Z.geb_leb, Z.geb_leb.
    destruct (Z.leb_spec (Z.of_nat k) (Z.of_nat i)); [lia|]. cbn [orb].
    rewrite (h_source _ _ _ H) by done.
    destruct (decide (Src i ∈ held)) as [Hin|Hin]; cbn.
    { exists d, held. auto. }
    destruct (Z.leb_spec (Z.of_nat k) (len held)).
    { exists d, held. split; [done|]. apply Hign. right. pose proof (h_len _ _ _ H). lia. }
    rewrite Hslice. cbn. rewrite Nat2Z.id. eexists _, (held ++ [Src i]). split; [reflexivity|].
    rewrite <- (h_k _ _ _ H). pose proof (h_source_len _ _ _ H) as Hsl.
    apply Hnew; [done|lia|by rewrite length_insert|apply H| |].
    + intros i' Hi'. rewrite nth_insert, (h_source _ _ _ H) by lia.
      case_decide as E1; [subst; rewrite decide_True by set_solver; done|].
      apply decide_ext. set_solver.
    + intros j Hj. rewrite (h_repair _ _ _ H) by done. apply decide_ext. set_solver.
  - unfold add_repair. rewrite (h_k _ _ _ H), Hlen, Nat2Z.id, Z.geb_leb.
    rewrite (h_repair _ _ _ H) by lia.
    destruct (decide (Rep j ∈ held)) as [Hin|Hin]; cbn.
    { exists d, held. auto. }
    destruct (Z.leb_spec (Z.of_nat k) (len held)).
    { exists d, held. split; [done|]. apply Hign. right. pose proof (h_len _ _ _ H). lia. }
    rewrite Hslice. cbn. eexists _, (held ++ [Rep j]). split; [reflexivity|].
    rewrite <- (h_k _ _ _ H) at 1. pose proof (h_repair_len _ _ _ H) as Hsl.
    apply Hnew; [done|lia|apply H|by rewrite length_insert| |].
    + intros i Hi. rewrite (h_source _ _ _ H) by done. apply decide_ext. set_solver.
    + intros j' Hj'. rewrite nth_insert, (h_repair _ _ _ H) by lia.
      case_decide as E1; [subst; rewrite decide_True by set_solver; done|].
      apply decide_ext. set_solver.
Qed.

Lemma receive_all syms :
  Forall (sym_valid k) syms ->
  exists d held, foldM (receive sources s) syms (RlcDecoder_init (Z.of_nat k) s) = Some d /\
    holds syms held d.
Proof.
  intros Hall.
  destruct (foldM_ind (receive sources s) (fun pre d => exists held, holds pre held d)
    syms (RlcDecoder_init (Z.of_nat k) s)) as (d & Hd & held & Hh).
  - exists []. apply holds_init.
  - intros pre y post d El [held Hh].
    assert (Hv : sym_valid k y).
    { rewrite El in Hall. apply Forall_app in Hall as [_ Hall].
      by apply Forall_cons in Hall as [? _]. }
    destruct (receive_holds pre held d y Hv Hh) as (d' & held' & Hd' & Hh'). eauto.
  - eauto.
Qed.

(** How many symbols are held: the distinct ones, up to [k]. *)
Lemma holds_count seen held d :
  holds seen held d -> length held = Nat.min k (length (remove_dups seen)).
Proof.
  intros []. destruct h_seen0 as [H1 H2].
  assert (Hle : (length held <= length (remove_dups seen))%nat).
  { apply submseteq_length, NoDup_submseteq; [done|].
    intros y Hy. rewrite elem_of_remove_dups. auto. }
  destruct H2 as [H2|H2]; [lia|].
  assert (Hp : held ≡ₚ remove_dups seen).
  { apply NoDup_Permutation; [done|apply NoDup_remove_dups|].
    intros y. rewrite elem_of_remove_dups. split; auto. }
  apply Permutation_length in Hp. lia.
Qed.

Lemma concat_length w (m : list (list Z)) :
  Forall (wf_row w) m -> length (concat m) = (length m * w)%nat.
Proof.
  induction 1 as [|row m [Hr _] _ IH]; [done|]. cbn. rewrite length_app. lia.
Qed.

Lemma write_rows_spec b out :
  wf_mat k s b -> (k * s <= length out)%nat ->
  write_rows b s k out = Some (concat b ++ drop (k * s) out).
Proof.
  intros [Hl Hb] Hout. unfold write_rows.
  destruct (foldM_ind (fun out i => memcpy out (i * s) (nth i b []) s)
    (fun pre o => o = concat (take (length pre) b) ++ drop (length pre * s) out)
    (seq 0 k) out) as (o & -> & ->).
  - cbn. by rewrite drop_0.
  - intros pre i post o Eseq ->. eexists; split; [|reflexivity].
    assert (Hi : i = length pre).
    { assert (H : seq 0 k !! length pre = Some i) by (rewrite Eseq; by apply list_lookup_middle).
      apply lookup_seq in H. lia. }
    subst i. set (i := length pre) in *.
    assert (Hik : (i < k)%nat).
    { apply (f_equal length) in Eseq. rewrite length_seq, length_app in Eseq. cbn in Eseq. lia. }
    assert (Hlen : length (concat (take i b)) = (i * s)%nat).
    { rewrite (concat_length s), length_take by by apply Forall_take. f_equal. lia. }
    destruct (wf_nth k s b i (conj Hl Hb) Hik) as [Hr _].
    assert (Hroom : ((i + 1) * s <= k * s)%nat) by (apply Nat.mul_le_mono_r; lia).
    rewrite <- Hlen, memcpy_app by (rewrite ?length_drop; lia).
    rewrite (take_ge (nth i b [])) by lia.
    rewrite length_app. cbn [length]. fold i. rewrite drop_drop.
    destruct (lookup_lt_is_Some_2 b i) as [row Hrow]; [lia|].
    replace (i + 1)%nat with (S i) by lia.
    rewrite (take_S_r _ _ _ Hrow), concat_app. cbn. rewrite app_nil_r, <- app_assoc.
    rewrite (nth_lookup_Some b i [] row Hrow). rewrite Hlen. do 4 f_equal. lia.
  - rewrite length_seq. by rewrite take_ge by lia.
Qed.

Lemma payloads_wf held data :
  Forall (sym_valid k) held -> mapM (sym_payload sources s) held = Some data ->
  length data = length held /\ Forall (wf_row s) data /\
  forall r y, held !! r = Some y -> forall x, (x < s)%nat ->
    lsum (seq 0 k) (fun c => gmul (el (nth c (sym_row k y) 0)) (ent sources c x))
    = ent data r x.
Proof.
  intros Hv Hm. apply mapM_Some in Hm. split; [by symmetry; eapply Forall2_length|].
  assert (Hp : forall y p, sym_valid k y -> sym_payload sources s y = Some p ->
    wf_row s p /\ forall x, (x < s)%nat ->
      lsum (seq 0 k) (fun c => gmul (el (nth c (sym_row k y) 0)) (ent sources c x))
      = el (nth x p 0)).
  { intros y p Hy E. destruct (sym_payload_spec k s sources Hsrc Hk y Hy) as (p' & E' & Hw & Hs).
    rewrite E in E'. injection E' as <-. done. }
  split.
  - apply Forall_lookup_2. intros r p Hr.
    destruct (Forall2_lookup_r _ _ _ _ _ Hm Hr) as (y & Hy & E).
    eapply Forall_lookup_1 in Hv; [|exact Hy]. by destruct (Hp y p Hv E).
  - intros r y Hr x Hx.
    destruct (Forall2_lookup_l _ _ _ _ _ Hm Hr) as (p & Hpr & E).
    eapply Forall_lookup_1 in Hv; [|exact Hr].
    destruct (Hp y p Hv E) as [_ ->]; [|done].
    unfold ent, at2. by rewrite (nth_lookup_Some data r [] p Hpr).
Qed.

(** With [k] symbols held the elimination runs to the end and writes the
    sources. *)
Lemma decode_full seen held d out :
  holds seen held d -> length held = k -> (k * s <= length out)%nat ->
  decode d out = Some (true, concat sources ++ drop (k * s) out).
Proof.
  intros H Hfull Hout. unfold decode.
  assert (Hlen : length d.(coeffs_) = k) by (rewrite (h_coeffs _ _ _ H), length_fmap; done).
  destruct (payloads_wf held d.(data_)) as (Hdl & Hdw & Hds); [apply H..|].
  rewrite (h_k _ _ _ H), (h_s _ _ _ H), Nat2Z.id, Hlen.
  destruct (Z.ltb_spec (Z.of_nat k) (Z.of_nat k)); [lia|].
  rewrite !take_ge by lia.
  destruct (gauss_loop k s (ent sources) k 0 (d.(coeffs_), d.(data_))) as
    ([a b] & E & _ & Hb & Hg); [lia| |].
  - split; [|split]; cbn [fst snd].
    + split; [done|]. rewrite (h_coeffs _ _ _ H). apply Forall_fmap.
      eapply Forall_impl; [apply H|]. intros y Hy. by eapply sym_row_wf.
    + split; [lia|done].
    + split.
      * intros r x Hr Hx. destruct (lookup_lt_is_Some_2 held r) as [y Hy]; [lia|].
        rewrite <- (Hds r y Hy x Hx). apply lsum_ext. intros c _.
        unfold ent at 1, at2. do 3 f_equal. apply nth_lookup_Some.
        by rewrite (h_coeffs _ _ _ H), list_lookup_fmap, Hy.
      * rewrite (h_coeffs _ _ _ H). apply symbols_independent; [apply H..|done].
      * intros j r Hj. lia.
  - rewrite E. cbn [fst snd] in *. rewrite write_rows_spec by done. cbn.
    do 4 f_equal. destruct Hb as [Hbl Hbw], Hsrc as [Hsl Hsw].
    apply list_eq. intros r. destruct (Nat.lt_ge_cases r k) as [Hr|Hr].
    2: { rewrite !lookup_ge_None_2 by lia. done. }
    destruct (lookup_lt_is_Some_2 b r) as [p Hp]; [lia|].
    destruct (lookup_lt_is_Some_2 sources r) as [q Hq]; [lia|].
    rewrite Hp, Hq. f_equal.
    pose proof (Forall_lookup_1 _ _ _ _ Hbw Hp) as [Hpl Hpb].
    pose proof (Forall_lookup_1 _ _ _ _ Hsw Hq) as [Hql Hqb].
    apply (nth_ext _ _ 0 0); [lia|]. intros x Hx.
    apply el_inj; [by apply nth_u8..|].
    pose proof (gauss_done k s (ent sources) (ent a) (ent b) r x Hg Hr ltac:(lia)) as G.
    unfold ent, at2 in G.
    by rewrite (nth_lookup_Some b r [] p Hp), (nth_lookup_Some sources r [] q Hq) in G.
Qed.

Lemma decode_short seen held d out :
  holds seen held d -> (length held < k)%nat -> decode d out = Some (false, out).
Proof.
  intros H Hs. unfold decode. rewrite (h_k _ _ _ H), (h_coeffs _ _ _ H), length_fmap.
  by destruct (Z.ltb_spec (len held) (Z.of_nat k)); [|lia].
Qed.
End Decoder.

(** C4. the Cauchy code is MDS and its decoder never fails on enough symbols.
    Feed a fresh [RlcDecoder] any sequence of symbols of a block - sources and
    repairs in any order and mixture, with repetitions, each with the payload
    the sender ships ([rlc_encode_repair] for a repair) - then every
    [add_source]/[add_repair] stays in bounds, [have] counts the distinct
    symbols up to [k], and [decode] returns [true] with the [k] sources in
    order written to [out] (the rest of [out] untouched) exactly when at least
    [k] of the symbols are distinct; otherwise it returns [false] and leaves
    [out] alone. *)
Theorem rlc_mds (k s : nat) (sources : list (list Z)) (syms : list Sym) (out : list Z)
  (Hk : (1 <= k <= 256)%nat)
  (Hsrc : wf_mat k s sources)
  (Hsyms : Forall (sym_valid k) syms)
  (Hout : (k * s <= length out)%nat) :
  let distinct := length (remove_dups syms) in
  exists d,
    foldM (receive sources s) syms (RlcDecoder_init (Z.of_nat k) s) = Some d /\
    have d = Z.of_nat (Nat.min k distinct) /\
    can_decode d = (k <=? distinct)%nat /\
    decode d out = Some (if (k <=? distinct)%nat
                         then (true, concat sources ++ drop (k * s) out)
                         else (false, out)).
Proof.
  intros distinct.
  destruct (receive_all k s sources Hsrc ltac:(lia) syms Hsyms) as (d & held & Hd & Hh).
  pose proof (holds_count k s sources ltac:(lia) _ _ _ Hh) as Hc. fold distinct in Hc.
  exists d. split; [done|]. unfold have, can_decode.
  rewrite (h_coeffs _ _ _ _ _ _ Hh), length_fmap, (h_k _ _ _ _ _ _ Hh), Hc.
  split; [done|]. rewrite Z.geb_leb.
  destruct (Nat.leb_spec k distinct).
  - split; [apply Z.leb_le; lia|].
    eapply decode_full; [exact Hsrc|lia|exact Hh|lia|done].
  - split; [apply Z.leb_gt; lia|]. eapply decode_short; [|exact Hh|]; lia.
Qed.

Definition mds_sources : list (list Z) := [[1; 2]; [0; 255]; [7; 128]].
Definition mds_syms : list Sym := [Rep 1; Src 2; Src 2; Rep 0; Rep 1].

Lemma rlc_mds_witness :
  exists d,
    foldM (receive mds_sources 2) mds_syms (RlcDecoder_init 3 2) = Some d /\
    have d = 3 /\ can_decode d = true /\
    decode d [0; 0; 0; 0; 0; 0; 9] = Some (true, [1; 2; 0; 255; 7; 128; 9]).
Proof.
  refine (rlc_mds 3 2 mds_sources mds_syms [0; 0; 0; 0; 0; 0; 9] _ _ _ _).
  - lia.
  - split; [reflexivity|]. repeat constructor; lia.
  - repeat constructor; lia.
  - cbn. lia.
Defined.

(** a repair row never divides by zero and a repair symbol is the linear
    combination of the sources the Cauchy matrix prescribes:
    with [k + repair_idx <= 255], [out[b] = sum_i sources[i][b] / ((k + idx) + i)]
    in GF(256), for every byte [b < s], and the encoder stays in bounds. *)
Theorem rlc_encode_repair_cauchy (k s : nat) (sources : list (list Z)) (j : nat)
  (out : list Z)
  (Hk : (1 <= k)%nat) (Hj : (k + j <= 255)%nat)
  (Hsrc : wf_mat k s sources) (Hout : length out = s) :
  exists e, rlc_encode_repair (Z.of_nat k) (Z.of_nat j) sources s out = Some e /\
    length e = s /\
    (forall i, (i < k)%nat ->
       gf_mul (Z.lxor (Z.of_nat (k + j)) (Z.of_nat i))
              (nth i (rlc_repair_row (Z.of_nat k) (Z.of_nat j)) 0) = 1) /\
    forall b, (b < s)%nat ->
      nth b e 0 = fold_right (fun i acc =>
        Z.lxor (gf_mul (nth i (rlc_repair_row (Z.of_nat k) (Z.of_nat j)) 0)
                       (at2 sources i b)) acc) 0 (seq 0 k).
Proof.
  destruct (encode_repair_spec k s sources Hsrc ltac:(lia) (Z.of_nat j) out Hout)
    as (e & He & [Hel Heb] & Hsum).
  destruct (repair_row_wf k (Z.of_nat j)) as [_ Hrow].
  exists e. split; [done|]. split; [done|]. split.
  - intros i Hi. set (x := Z.lxor _ _).
    assert (Hx : u8 x) by (apply lxor_u8; unfold u8; lia).
    assert (Hx0 : x <> 0) by (unfold x; rewrite Z.lxor_eq_0_iff; lia).
    apply el_inj; [by apply gf_mul_u8, nth_u8|unfold u8; lia|].
    rewrite el_mul by (done || by apply nth_u8). rewrite (repair_row_nth k) by lia.
    rewrite <- el_lxor by (unfold u8; lia). fold x.
    rewrite <- el_inv, <- el_mul by auto with ints.
    by rewrite gf_mul_comm, gf_inv_l by auto with ints.
  - intros b Hb. specialize (Hsum b Hb).
    set (rhs := fold_right _ _ _).
    assert (Hr : u8 rhs /\ el rhs = lsum (seq 0 k) (fun i =>
      gmul (el (nth i (rlc_repair_row (Z.of_nat k) (Z.of_nat j)) 0)) (ent sources i b))).
    { unfold rhs. clear Hsum rhs. induction (seq 0 k) as [|i l [IHu IHe]].
      - split; [unfold u8; cbn; lia|done].
      - pose proof (nth_u8 _ i Hrow). pose proof (at2_u8 k s sources i b Hsrc).
        cbn [fold_right lsum]. split; [by auto with ints|].
        rewrite el_lxor, el_mul, IHe by auto with ints. done. }
    destruct Hr as [Hru Hre]. apply el_inj; [by apply nth_u8|done|]. congruence.
Qed.

Lemma rlc_encode_repair_cauchy_witness :
  exists e, rlc_encode_repair 3 1 mds_sources 2 [0; 0] = Some e /\ length e = 2%nat /\
    (forall i, (i < 3)%nat ->
       gf_mul (Z.lxor 4 (Z.of_nat i)) (nth i (rlc_repair_row 3 1) 0) = 1) /\
    forall b, (b < 2)%nat ->
      nth b e 0 = fold_right (fun i acc =>
        Z.lxor (gf_mul (nth i (rlc_repair_row 3 1) 0) (at2 mds_sources i b)) acc)
        0 (seq 0 3).
Proof.
  refine (rlc_encode_repair_cauchy 3 2 mds_sources 1 [0; 0] _ _ _ _).
  - lia.
  - lia.
  - split; [reflexivity|]. repeat constructor; lia.
  - reflexivity.
Defined.

(** The log/exp tables compute the field.  On all bytes [gf_mul] is the
    product of polynomials over GF(2) modulo [x^8 + x^4 + x^3 + x^2 + 1]
    (0x11D), stays a byte, is associative, commutative and distributes over
    [gf_add], and [gf_inv] is the inverse of every nonzero byte. *)
Theorem gf256_is_field (a b c : Z) (Ha : u8 a) (Hb : u8 b) (Hc : u8 c) :
  gf_mul a b = gf_ref a b /\ u8 (gf_mul a b) /\
  gf_mul a b = gf_mul b a /\
  gf_mul (gf_mul a b) c = gf_mul a (gf_mul b c) /\
  gf_mul a (gf_add b c) = gf_add (gf_mul a b) (gf_mul a c) /\
  gf_mul 1 a = a /\
  (a = 0 \/ gf_mul a (gf_inv a) = 1).
Proof.
  split; [by apply gf_mul_ref|]. split; [by apply gf_mul_u8|].
  split; [by apply gf_mul_comm|]. split; [by apply gf_mul_assoc|].
  split.
  - rewrite !gf_add_lxor by auto with ints. by apply gf_mul_lxor_r.
  - split; [by apply gf_mul_1_l|].
    destruct (Z.eq_dec a 0) as [|Hn]; [by left|right].
    rewrite gf_mul_comm by auto with ints. by apply gf_inv_l.
Qed.

Lemma gf256_is_field_witness :
  gf_mul 2 142 = gf_ref 2 142 /\ u8 (gf_mul 2 142) /\ gf_mul 2 142 = gf_mul 142 2 /\
  gf_mul (gf_mul 2 142) 255 = gf_mul 2 (gf_mul 142 255) /\
  gf_mul 2 (gf_add 142 255) = gf_add (gf_mul 2 142) (gf_mul 2 255) /\
  gf_mul 1 2 = 2 /\ (2 = 0 \/ gf_mul 2 (gf_inv 2) = 1).
Proof. apply (gf256_is_field 2 142 255); split; reflexivity || discriminate. Defined.

(** the NEON build of [gf_mul_xor] (16-byte nibble-table lookups, then the
    scalar tail) leaves the same bytes as the scalar build, for every
    coefficient, length and alignment, given that [vtbl2_u8] selects a byte
    of its 16-byte table. *)
Theorem neon_equals_scalar (vtbl2 : list Z -> Z -> Z) (coefficient : Z)
  (input out : list Z) (n : nat)
  (Hvtbl : forall t i, 0 <= i < 16 -> vtbl2 t i = nth (Z.to_nat i) t 0)
  (Hc : u8 coefficient) (Hi : bytes input) (Ho : bytes out) :
  gf_mul_xor_neon vtbl2 coefficient input out n = gf_mul_xor coefficient input out n.
Proof. by apply gf_mul_xor_neon_span. Qed.

Lemma neon_equals_scalar_witness :
  let vtbl2 := fun t i => nth (Z.to_nat i) t 0 in
  let input := map Z.of_nat (seq 100 20) in
  let out := map Z.of_nat (seq 7 20) in
  gf_mul_xor_neon vtbl2 29 input out 20 = gf_mul_xor 29 input out 20.
Proof.
  apply neon_equals_scalar; [intros; reflexivity|unfold u8; lia|..];
    repeat (constructor; [unfold u8; cbn; lia|]); constructor.
Defined.
