(* ===== verification/SMap.v ===== *)
(** * Ordered maps

    [std::map<K, V>] with an unsigned integer key, as the list of its entries
    in key order: iteration order is part of the program's behaviour (which
    block is finalised first, which symbol reaches the decoder first). A
    [std::set] is a map to [unit]. *)
From stdpp Require Import sorting.
From S2P Require Import Prelude.

Abbreviation smap V := (list (Z * V)).

Section Operations.
Context {V : Type}.
Implicit Types (m : smap V) (k : Z) (v : V).

(** [find]: the value at a key. *)
Fixpoint sm_find k m : option V :=
  match m with
  | [] => None
  | (k', v) :: m => if k =? k' then Some v else sm_find k m
  end.

Definition sm_mem k m : bool := match sm_find k m with Some _ => true | None => false end.

(** [emplace]: inserts unless the key is present; [snd]: whether it did. *)
Fixpoint sm_emplace k v m : smap V * bool :=
  match m with
  | [] => ([(k, v)], true)
  | (k', v') :: m' =>
    if k <? k' then ((k, v) :: m, true)
    else if k =? k' then (m, false)
    else let '(m', b) := sm_emplace k v m' in ((k', v') :: m', b)
  end.

(** [m[k] = v]. *)
Fixpoint sm_assign k v m : smap V :=
  match m with
  | [] => [(k, v)]
  | (k', v') :: m' =>
    if k <? k' then (k, v) :: m
    else if k =? k' then (k, v) :: m'
    else (k', v') :: sm_assign k v m'
  end.

(** [erase(k)]. *)
Fixpoint sm_erase k m : smap V :=
  match m with
  | [] => []
  | (k', v') :: m' => if k =? k' then m' else (k', v') :: sm_erase k m'
  end.

(** [std::set::rbegin]: the largest key. *)
Definition sm_max_key m : option Z := fst <$> last m.

(** [lower_bound]: the entries from the first key that is not below [k]. *)
Definition sm_lower_bound k m : smap V := filter (fun e => k <= e.1) m.

(** The invariant of the container: keys strictly increasing. *)
Definition sm_sorted m : Prop := StronglySorted Z.lt (map fst m).
End Operations.

Section Lemmas.
Context {V : Type}.
Implicit Types (m : smap V) (k : Z) (v : V).

Lemma sm_sorted_cons k v m :
  sm_sorted ((k, v) :: m) <-> sm_sorted m /\ forall e, e ∈ m -> k < e.1.
Proof.
  unfold sm_sorted. cbn. split.
  - intros H. apply StronglySorted_inv in H as [Hs Hf]. split; [done|].
    intros e He. eapply Forall_forall in Hf; [exact Hf|]. by apply list_elem_of_fmap_2.
  - intros [Hs Hf]. constructor; [done|]. apply Forall_forall.
    intros k' Hk'. apply list_elem_of_fmap in Hk' as (e & -> & He). auto.
Qed.

Lemma sm_find_elem k v m : sm_find k m = Some v -> (k, v) ∈ m.
Proof.
  induction m as [|[k' v'] m IH]; [done|]. cbn.
  destruct (Z.eqb_spec k k') as [->|]; intros H; [|set_solver].
  injection H as ->. set_solver.
Qed.

Lemma sm_elem_find k v m : sm_sorted m -> (k, v) ∈ m -> sm_find k m = Some v.
Proof.
  induction m as [|[k' v'] m IH]; [set_solver|].
  intros [Hs Hf]%sm_sorted_cons He. cbn.
  apply elem_of_cons in He as [[= -> ->]|He]; [by rewrite Z.eqb_refl|].
  specialize (Hf _ He) as Hlt. cbn in Hlt.
  destruct (Z.eqb_spec k k'); [lia|auto].
Qed.

Lemma sm_find_below k m : sm_sorted m -> (forall e, e ∈ m -> k < e.1) -> sm_find k m = None.
Proof.
  intros _ H. destruct (sm_find k m) eqn:E; [|done].
  apply sm_find_elem, H in E. cbn in E. lia.
Qed.

Lemma sm_find_none k m : (forall e, e ∈ m -> e.1 <> k) -> sm_find k m = None.
Proof.
  intros H. destruct (sm_find k m) eqn:E; [|done]. by apply sm_find_elem, H in E.
Qed.

(** ** [emplace] *)
Lemma sm_emplace_elem k v m e : e ∈ (sm_emplace k v m).1 -> e = (k, v) \/ e ∈ m.
Proof.
  induction m as [|[k' v'] m IH]; cbn; [set_solver|].
  destruct (Z.ltb_spec k k'); [set_solver|].
  destruct (Z.eqb_spec k k'); [set_solver|].
  destruct (sm_emplace k v m) as [m' b]. cbn in *. set_solver.
Qed.

Lemma sm_emplace_sorted k v m : sm_sorted m -> sm_sorted (sm_emplace k v m).1.
Proof.
  induction m as [|[k' v'] m IH]; cbn.
  - intros _. apply sm_sorted_cons. split; [constructor|set_solver].
  - intros Hs. pose proof Hs as [Hm Hf]%sm_sorted_cons.
    destruct (Z.ltb_spec k k').
    + apply sm_sorted_cons. split; [done|].
      intros e [->|He]%elem_of_cons; [done|]. specialize (Hf e He). lia.
    + destruct (Z.eqb_spec k k'); [done|].
      pose proof (sm_emplace_elem k v m) as He.
      destruct (sm_emplace k v m) as [m' b]. cbn in *.
      apply sm_sorted_cons. split; [auto|].
      intros e [->|H']%He; cbn; [lia|auto].
Qed.

Lemma sm_find_emplace k v m k' :
  sm_sorted m ->
  sm_find k' (sm_emplace k v m).1 =
  match sm_find k' m with
  | Some x => Some x
  | None => if k' =? k then Some v else None
  end.
Proof.
  induction m as [|[k1 v1] m IH]; cbn.
  { intros _. done. }
  intros Hs. pose proof Hs as [Hm Hf]%sm_sorted_cons.
  destruct (Z.ltb_spec k k1).
  - cbn. destruct (Z.eqb_spec k' k); [subst k'|by repeat case_match].
    destruct (Z.eqb_spec k k1); [lia|].
    rewrite (sm_find_below k m Hm); [done|]. intros e He. specialize (Hf e He). lia.
  - destruct (Z.eqb_spec k k1) as [->|].
    + cbn. destruct (Z.eqb_spec k' k1); [done|]. by destruct (sm_find k' m).
    + destruct (sm_emplace k v m) as [m' b] eqn:E. cbn in *.
      destruct (Z.eqb_spec k' k1); [done|]. by rewrite IH.
Qed.

Lemma sm_emplace_fresh k v m :
  sm_sorted m -> (sm_emplace k v m).2 = negb (sm_mem k m).
Proof.
  unfold sm_mem. induction m as [|[k1 v1] m IH]; cbn; [done|].
  intros Hs. pose proof Hs as [Hm Hf]%sm_sorted_cons.
  destruct (Z.ltb_spec k k1).
  - destruct (Z.eqb_spec k k1); [lia|]. cbn.
    rewrite (sm_find_below k m Hm); [done|]. intros e He. specialize (Hf e He). lia.
  - destruct (Z.eqb_spec k k1); [done|].
    destruct (sm_emplace k v m) as [m' b] eqn:E. cbn in *. by apply IH.
Qed.

(** ** [m[k] = v] *)
Lemma sm_assign_elem k v m e : e ∈ sm_assign k v m -> e = (k, v) \/ e ∈ m.
Proof.
  induction m as [|[k' v'] m IH]; cbn; [set_solver|].
  destruct (Z.ltb_spec k k'); [set_solver|].
  destruct (Z.eqb_spec k k'); set_solver.
Qed.

Lemma sm_assign_sorted k v m : sm_sorted m -> sm_sorted (sm_assign k v m).
Proof.
  induction m as [|[k' v'] m IH]; cbn.
  - intros _. apply sm_sorted_cons. split; [constructor|set_solver].
  - intros Hs. pose proof Hs as [Hm Hf]%sm_sorted_cons.
    destruct (Z.ltb_spec k k').
    + apply sm_sorted_cons. split; [done|].
      intros e [->|He]%elem_of_cons; [done|]. specialize (Hf e He). lia.
    + destruct (Z.eqb_spec k k') as [->|]; [by apply sm_sorted_cons|].
      apply sm_sorted_cons. split; [auto|].
      intros e [->|H']%sm_assign_elem; cbn; [lia|auto].
Qed.

Lemma sm_find_assign k v m k' :
  sm_sorted m ->
  sm_find k' (sm_assign k v m) = if k' =? k then Some v else sm_find k' m.
Proof.
  induction m as [|[k1 v1] m IH]; cbn; [done|].
  intros Hs. pose proof Hs as [Hm Hf]%sm_sorted_cons.
  destruct (Z.ltb_spec k k1); [done|].
  destruct (Z.eqb_spec k k1) as [->|].
  - cbn. by destruct (Z.eqb_spec k' k1).
  - cbn. rewrite IH by done.
    destruct (Z.eqb_spec k' k1), (Z.eqb_spec k' k); congruence.
Qed.

(** ** [erase] *)
Lemma sm_erase_elem k m e : e ∈ sm_erase k m -> e ∈ m.
Proof.
  induction m as [|[k' v'] m IH]; cbn; [done|].
  destruct (Z.eqb_spec k k'); set_solver.
Qed.

Lemma sm_erase_sorted k m : sm_sorted m -> sm_sorted (sm_erase k m).
Proof.
  induction m as [|[k' v'] m IH]; cbn; [done|].
  intros [Hm Hf]%sm_sorted_cons. destruct (Z.eqb_spec k k'); [done|].
  apply sm_sorted_cons. split; [auto|]. intros e He%sm_erase_elem. auto.
Qed.

Lemma sm_find_erase k m k' :
  sm_sorted m ->
  sm_find k' (sm_erase k m) = if k' =? k then None else sm_find k' m.
Proof.
  induction m as [|[k1 v1] m IH]; cbn; [by case_match|].
  intros [Hm Hf]%sm_sorted_cons.
  destruct (Z.eqb_spec k k1) as [->|].
  - destruct (Z.eqb_spec k' k1); [subst k'|done]. by apply sm_find_below.
  - cbn. rewrite IH by done.
    destruct (Z.eqb_spec k' k1), (Z.eqb_spec k' k); congruence.
Qed.

(** ** Extensionality: a sorted map is determined by its lookups *)
Lemma sm_ext m1 : forall m2,
  sm_sorted m1 -> sm_sorted m2 ->
  (forall k, sm_find k m1 = sm_find k m2) -> m1 = m2.
Proof.
  induction m1 as [|[k1 v1] m1 IH]; intros [|[k2 v2] m2] H1 H2 He; [done|..].
  - specialize (He k2). cbn in He. by rewrite Z.eqb_refl in He.
  - specialize (He k1). cbn in He. by rewrite Z.eqb_refl in He.
  - pose proof H1 as [Hs1 Hf1]%sm_sorted_cons. pose proof H2 as [Hs2 Hf2]%sm_sorted_cons.
    assert (Hk : k1 = k2).
    { pose proof (He k1) as E1. pose proof (He k2) as E2. cbn in E1, E2.
      rewrite Z.eqb_refl in E1, E2.
      destruct (Z.eqb_spec k1 k2); [done|]. exfalso.
      destruct (Z.eqb_spec k2 k1); [congruence|].
      symmetry in E1. apply sm_find_elem, Hf2 in E1. apply sm_find_elem, Hf1 in E2.
      cbn in *. lia. }
    subst k2. assert (Hv : v1 = v2).
    { specialize (He k1). cbn in He. rewrite Z.eqb_refl in He. congruence. }
    subst v2. f_equal. apply IH; [done..|]. intros k.
    destruct (Z.eq_dec k k1) as [->|Hne].
    + by rewrite !sm_find_below.
    + specialize (He k). cbn in He. by destruct (Z.eqb_spec k k1).
Qed.
End Lemmas.

(** Appending above everything keeps a list strictly increasing. *)
Lemma sorted_snoc l (x : Z) :
  StronglySorted Z.lt l -> (forall i, i ∈ l -> i < x) -> StronglySorted Z.lt (l ++ [x]).
Proof.
  induction 1 as [|y l Hs IH Hy]; intros Hx; cbn; [by repeat constructor|].
  constructor; [apply IH; set_solver|]. apply Forall_app. split; [done|].
  constructor; [apply Hx; set_solver|constructor].
Qed.

(** A part of an increasing list is increasing. *)
Lemma sorted_sublist (l l' : list Z) : sublist l l' -> StronglySorted Z.lt l' -> StronglySorted Z.lt l.
Proof.
  induction 1 as [|x l l' Hsub IH|x l l' Hsub IH]; intros Hs; [done| |].
  - apply StronglySorted_inv in Hs as [Hs Hx]. constructor; [auto|].
    rewrite Forall_forall in *. intros y Hy. apply Hx. by eapply sublist_subseteq.
  - apply StronglySorted_inv in Hs as [Hs _]. auto.
Qed.

Lemma filter_sublist {A} (P : A -> Prop) `{forall x, Decision (P x)} (l : list A) : sublist (filter P l) l.
Proof.
  induction l as [|x l IH]; [constructor|]. rewrite filter_cons. case_decide; by constructor.
Qed.

(** The keys below a bound are at most as many as the range is wide. *)
Lemma sorted_range_length (l : list Z) : forall a b,
  StronglySorted Z.lt l -> (forall x, x ∈ l -> a <= x <= b) -> len l <= Z.max 0 (b - a + 1).
Proof.
  induction l as [|x l IH]; intros a b Hs Hr; [cbn; lia|].
  apply StronglySorted_inv in Hs as [Hs Hx]. rewrite Forall_forall in Hx.
  assert (H : len l <= Z.max 0 (b - (x + 1) + 1)).
  { apply IH; [done|]. intros y Hy. specialize (Hx y Hy). specialize (Hr y ltac:(set_solver)). lia. }
  pose proof (Hr x ltac:(set_solver)). cbn [length]. lia.
Qed.

(** ** Keys of an ordered map *)
Section Keys.
Context {V : Type}.
Implicit Types (m : smap V) (k : Z).

Lemma sm_find_keys k m : sm_find k m = None <-> k ∉ m.*1.
Proof.
  induction m as [|[k' v] m IH]; cbn; [set_solver|].
  destruct (Z.eqb_spec k k'); set_solver.
Qed.

Lemma sm_emplace_keys k v m : sm_find k m = None -> (sm_emplace k v m).1.*1 ≡ₚ k :: m.*1.
Proof.
  induction m as [|[k' v'] m IH]; cbn; [done|].
  destruct (Z.eqb_spec k k'); [done|]. destruct (Z.ltb_spec k k'); [done|].
  intros Hk%IH. destruct (sm_emplace k v m) as [m1 b]. cbn in *. rewrite Hk. apply perm_swap.
Qed.

Lemma sm_erase_keys k m : k ∈ m.*1 -> m.*1 ≡ₚ k :: (sm_erase k m).*1.
Proof.
  induction m as [|[k' v'] m IH]; cbn; [set_solver|].
  destruct (Z.eqb_spec k k') as [->|]; [done|]. cbn. intros Hin.
  rewrite IH by set_solver. apply perm_swap.
Qed.

Lemma smap_assign_keys k v m : k ∈ m.*1 -> sm_sorted m -> (sm_assign k v m).*1 = m.*1.
Proof.
  induction m as [|[k' v'] m IH]; cbn; [set_solver|].
  intros Hk [Hs Hf]%sm_sorted_cons. destruct (Z.ltb_spec k k').
  - exfalso. apply elem_of_cons in Hk as [|(e & -> & He)%list_elem_of_fmap]; [lia|].
    specialize (Hf e He). lia.
  - destruct (Z.eqb_spec k k') as [->|]; [done|]. cbn. f_equal. apply IH; [set_solver|done].
Qed.
End Keys.

(** ** Maps over an ordered map's values *)
Section MapValues.
Context {V W : Type} (f : Z -> V -> W).

Lemma sm_find_map k (m : smap V) :
  sm_find k (map (fun kv => (kv.1, f kv.1 kv.2)) m) = f k <$> sm_find k m.
Proof.
  induction m as [|[k' v] m IH]; [done|]. cbn. destruct (Z.eqb_spec k k') as [->|]; [done|exact IH].
Qed.

Lemma sm_sorted_map (m : smap V) : sm_sorted m -> sm_sorted (map (fun kv => (kv.1, f kv.1 kv.2)) m).
Proof. unfold sm_sorted. by rewrite map_map. Qed.
End MapValues.

(** ** Filters *)
Lemma smap_filter_sorted {V} (f : Z * V -> bool) (m : smap V) : sm_sorted m -> sm_sorted (List.filter f m).
Proof.
  induction m as [|[k v] m IH]; [done|]. intros [Hs Hf]%sm_sorted_cons. cbn. destruct (f (k, v)); [|auto].
  apply sm_sorted_cons. split; [auto|]. intros e He. apply Hf. apply list_elem_of_In, List.filter_In in He as [He _].
  by apply list_elem_of_In.
Qed.

Lemma smap_find_filter {V} (f : Z * V -> bool) k (m : smap V) :
  sm_sorted m ->
  sm_find k (List.filter f m) = match sm_find k m with Some v => if f (k, v) then Some v else None | None => None end.
Proof.
  induction m as [|[k' v] m IH]; [done|]. intros [Hs Hf]%sm_sorted_cons. cbn [List.filter sm_find].
  destruct (Z.eqb_spec k k') as [->|Hne].
  - destruct (f (k', v)) eqn:E; [cbn; by rewrite Z.eqb_refl|].
    rewrite IH by done. by rewrite (sm_find_below k' m Hs Hf).
  - destruct (f (k', v)); [cbn; destruct (Z.eqb_spec k k'); [done|]|]; by apply IH.
Qed.

Create HintDb smap.
#[export] Hint Resolve sm_emplace_sorted sm_assign_sorted sm_erase_sorted : smap.
