(* ===== verification/Table.v ===== *)
(** * Profile table and its content hash ([core/include/wblink/table.h],
    [core/src/table.cpp], [core/include/wblink/crc8.h]) *)
From stdpp Require Import sorting.
From S2P Require Import Prelude Endian.

(** ** CRC-8/DVB-S2 *)
Definition crc8_bit (crc : Z) : Z :=
  if Z.land crc 0x80 =? 0 then to_u8 (Z.shiftl crc 1)
  else to_u8 (Z.lxor (Z.shiftl crc 1) 0xD5).

Definition make_crc8_dvbs2_table : list Z :=
  map (fun i => Nat.iter 8 crc8_bit (to_u8 (Z.of_nat i))) (seq 0 256).

Definition kCrc8Dvbs2Table : list Z := Eval vm_compute in make_crc8_dvbs2_table.

(** One turn of the loop: [crc = table[crc ^ data[i]]]. *)
Definition crc8_step (crc byte : Z) : Z :=
  nth (Z.to_nat (to_u8 (Z.lxor crc byte))) kCrc8Dvbs2Table 0.

Definition crc8_dvbs2 (data : list Z) (crc : Z) : Z := fold_left crc8_step data crc.

(** ** Profiles *)
Inductive FecScheme : Type := kNone | kRlc256 | kRlc256Iframe | kTetrysReactive.
#[export] Instance FecScheme_eq_dec : EqDecision FecScheme.
Proof. solve_decision. Defined.

Definition FecScheme_code (f : FecScheme) : Z :=
  match f with kNone => 0 | kRlc256 => 1 | kRlc256Iframe => 2 | kTetrysReactive => 3 end.

Inductive GuardInterval : Type := kLong | kShort.
Definition GuardInterval_code (g : GuardInterval) : Z :=
  match g with kLong => 0 | kShort => 1 end.

Record Profile : Type := MkProfile {
  pf_id : Z;
  pf_mcs : Z;
  pf_gi : GuardInterval;
  pf_tx_power_level : Z;
  pf_airtime_budget_permille : Z;
  pf_max_payload : Z;
  pf_fec_scheme : FecScheme;
  pf_fec_overhead_permille : Z;
  pf_arq_deadline_iframe_ms : Z;
  pf_arq_deadline_pframe_ms : Z;
  pf_bitrate_min_kbps : Z;
  pf_reserve_control_bps : Z;
  pf_reserve_telemetry_bps : Z
}.

Record ProfileTable : Type := MkProfileTable {
  profiles : list Profile;
  floor_profile : Z;
  probe_period : Z;
  probe_slot : Z
}.

Definition kCanonicalProfileSize : nat := 27.

(** [std::sort] with a comparison on the ids. *)
Definition id_le (a b : Profile) : Prop := pf_id a <= pf_id b.
#[export] Instance id_le_dec a b : Decision (id_le a b).
Proof. unfold id_le; apply _. Defined.

Fixpoint adjacent_dup (l : list Z) : bool :=
  match l with
  | a :: (b :: _) as l' => (a =? b) || adjacent_dup l'
  | _ => false
  end.

Definition has_duplicate_ids (table : ProfileTable) : bool :=
  adjacent_dup (merge_sort Z.le (map pf_id table.(profiles))).

(** The 27-byte record [f] of one profile, written at the source's offsets. *)
Definition profile_record (p : Profile) : option (list Z) :=
  let f := replicate kCanonicalProfileSize 0 in
  f ← wr8 f 0 p.(pf_id);
  f ← wr8 f 1 p.(pf_mcs);
  f ← wr8 f 2 (GuardInterval_code p.(pf_gi));
  f ← wr8 f 3 p.(pf_tx_power_level);
  f ← be16_write f 4 p.(pf_airtime_budget_permille);
  f ← wr8 f 6 (FecScheme_code p.(pf_fec_scheme));
  f ← be16_write f 7 p.(pf_fec_overhead_permille);
  f ← be16_write f 9 p.(pf_arq_deadline_iframe_ms);
  f ← be16_write f 11 p.(pf_arq_deadline_pframe_ms);
  f ← be32_write f 13 p.(pf_bitrate_min_kbps);
  f ← be32_write f 17 p.(pf_reserve_control_bps);
  f ← be32_write f 21 p.(pf_reserve_telemetry_bps);
  be16_write f 25 p.(pf_max_payload).

Definition canonical_serialize (table : ProfileTable) : option (list Z) :=
  let sorted := merge_sort id_le table.(profiles) in
  let out := [to_u8 (len sorted)] in
  out ← foldM (fun out p => f ← profile_record p; Some (out ++ f)) sorted out;
  let out := out ++ [table.(floor_profile)] in
  sched ← be16_write (replicate 4 0) 0 table.(probe_period);
  sched ← be16_write sched 2 table.(probe_slot);
  Some (out ++ sched).

Definition table_version (table : ProfileTable) : option Z :=
  canon ← canonical_serialize table; Some (crc8_dvbs2 canon 0).
