(* ===== verification/FrameShm.v ===== *)
(** * Frame blobs of the producer ring ([core/include/wblink/frame_shm_format.h])

    The 8-byte metadata prefix of every frame blob.  The fields are
    native-endian on the same host; the targets are little-endian. *)
From S2P Require Import Prelude.

Definition kVencFrameMetaSize : Z := 8.
Definition kFrameCodecH265 : Z := 0x01.
Definition kFrameFlagIdr : Z := 0x01.
Definition kFrameFlagGdr : Z := 0x02.
Definition kFrameFlagEnhance : Z := 0x04.
Definition kFrameFlagSalvaged : Z := 0x08.
Definition kFrameFlagsKnown : Z :=
  Z.lor (Z.lor (Z.lor kFrameFlagIdr kFrameFlagGdr) kFrameFlagEnhance) kFrameFlagSalvaged.

Record VencFrameMeta : Type := MkVencFrameMeta {
  pts : Z;
  codec : Z;
  flags : Z;
  gdr_pos : Z;
  gdr_len : Z
}.

Definition VencFrameMeta_init : VencFrameMeta := MkVencFrameMeta 0 0 0 0 0.

(** The four bytes of [pts], least significant first. *)
Definition le32_of (b0 b1 b2 b3 : Z) : Z := b0 + 256 * (b1 + 256 * (b2 + 256 * b3)).

(** [read_frame_meta]: the flag it returns and [*out] afterwards. *)
Definition read_frame_meta (blob : ptr) (len : Z) (out : VencFrameMeta)
  : option (bool * VencFrameMeta) :=
  match blob with
  | None => Some (false, out)
  | Some b =>
    if len <? kVencFrameMetaSize then Some (false, out)
    else
      p0 ← rd8 b 0; p1 ← rd8 b 1; p2 ← rd8 b 2; p3 ← rd8 b 3;
      c ← rd8 b 4; f ← rd8 b 5; gp ← rd8 b 6; gl ← rd8 b 7;
      Some (true, MkVencFrameMeta (le32_of p0 p1 p2 p3) c f gp gl)
  end.

Definition frame_blob_is_idr (blob : ptr) (len : Z) : option bool :=
  '(ok, m) ← read_frame_meta blob len VencFrameMeta_init;
  Some (ok && negb (Z.land m.(flags) kFrameFlagIdr =? 0)).
