(* ===== verification/FrameFramer.v ===== *)
(** * Frame framer ([core/include/wblink/frame_framer.h],
    [core/src/frame_framer.cpp])

    One [on_frame] call fragments a frame blob into [k] source packets and, by
    the FEC policy, [r] repair packets.  The [emit] callback returns nothing
    to the framer, so a call's emissions are the list of packets it was given,
    in order. *)
From S2P Require Import Prelude Endian Types Wire Rlc Table FrameShm.

Record FrameFecConfig : Type := MkFrameFecConfig {
  scheme : FecScheme;
  i_rate_permille : Z;
  p_rate_permille : Z;
  e_rate_permille : option Z;
  min_r : Z
}.

Definition FrameFecConfig_init : FrameFecConfig := MkFrameFecConfig kNone 250 100 None 2.

Record FrameFramerConfig : Type := MkFrameFramerConfig {
  ff_originator : Z;
  ff_session_id : Z;
  ff_stream_id : Z;
  ff_stream_type : Z;
  ff_destination : Z;
  ff_fec : FrameFecConfig
}.

Record FrameFramerStats : Type := MkFrameFramerStats {
  frames : Z;
  source_symbols : Z;
  repair_symbols : Z;
  malformed_frame : Z;
  fec_oversize_k : Z;
  mtu_fec_guard_frames : Z;
  idr_frames : Z;
  fec_enhance_frames : Z
}.

Definition FrameFramerStats_init : FrameFramerStats := MkFrameFramerStats 0 0 0 0 0 0 0 0.

Inductive FrameFecClass : Type := kP | kEnhance | kIdr.

Record FrameFramer : Type := MkFrameFramer {
  cfg_ : FrameFramerConfig;
  stats_ : FrameFramerStats;
  active_profile_ : Z;
  table_version_ : Z;
  extra_flags_ : Z;
  profile_max_payload_ : Z;
  negotiated_packet_budget_ : Z;
  next_seq_ : Z;
  block_id_ : Z;
  override_parity_ : option Z;
  src_payload_ : list Z;
  frame_buf_ : list Z
}.

Definition FrameFramer_init (cfg : FrameFramerConfig) : FrameFramer :=
  MkFrameFramer cfg FrameFramerStats_init 0 0 0 kDefaultMaxPayload kDefaultMaxPayload
    0 0 None [] (replicate (Z.to_nat (kDataHeaderSize + kMaxDataPayload)) 0).

(** ** Setters *)
Definition set_cfg (f : FrameFramer) cfg : FrameFramer :=
  MkFrameFramer cfg f.(stats_) f.(active_profile_) f.(table_version_) f.(extra_flags_)
    f.(profile_max_payload_) f.(negotiated_packet_budget_) f.(next_seq_) f.(block_id_)
    f.(override_parity_) f.(src_payload_) f.(frame_buf_).
Definition set_stats (f : FrameFramer) st : FrameFramer :=
  MkFrameFramer f.(cfg_) st f.(active_profile_) f.(table_version_) f.(extra_flags_)
    f.(profile_max_payload_) f.(negotiated_packet_budget_) f.(next_seq_) f.(block_id_)
    f.(override_parity_) f.(src_payload_) f.(frame_buf_).
Definition set_operating_point (f : FrameFramer) active_profile table_version max_payload
  : FrameFramer :=
  MkFrameFramer f.(cfg_) f.(stats_) active_profile table_version f.(extra_flags_)
    max_payload f.(negotiated_packet_budget_) f.(next_seq_) f.(block_id_)
    f.(override_parity_) f.(src_payload_) f.(frame_buf_).
Definition set_negotiated_packet_budget (f : FrameFramer) budget : FrameFramer :=
  MkFrameFramer f.(cfg_) f.(stats_) f.(active_profile_) f.(table_version_) f.(extra_flags_)
    f.(profile_max_payload_) budget f.(next_seq_) f.(block_id_)
    f.(override_parity_) f.(src_payload_) f.(frame_buf_).
Definition set_extra_flags (f : FrameFramer) flags : FrameFramer :=
  MkFrameFramer f.(cfg_) f.(stats_) f.(active_profile_) f.(table_version_) flags
    f.(profile_max_payload_) f.(negotiated_packet_budget_) f.(next_seq_) f.(block_id_)
    f.(override_parity_) f.(src_payload_) f.(frame_buf_).
Definition set_counters (f : FrameFramer) next_seq block_id : FrameFramer :=
  MkFrameFramer f.(cfg_) f.(stats_) f.(active_profile_) f.(table_version_) f.(extra_flags_)
    f.(profile_max_payload_) f.(negotiated_packet_budget_) next_seq block_id
    f.(override_parity_) f.(src_payload_) f.(frame_buf_).
Definition set_override (f : FrameFramer) ov : FrameFramer :=
  MkFrameFramer f.(cfg_) f.(stats_) f.(active_profile_) f.(table_version_) f.(extra_flags_)
    f.(profile_max_payload_) f.(negotiated_packet_budget_) f.(next_seq_) f.(block_id_)
    ov f.(src_payload_) f.(frame_buf_).
Definition set_next_frame_override (f : FrameFramer) (parity_symbols : Z) : FrameFramer :=
  set_override f (Some parity_symbols).
Definition set_buffers (f : FrameFramer) src buf : FrameFramer :=
  MkFrameFramer f.(cfg_) f.(stats_) f.(active_profile_) f.(table_version_) f.(extra_flags_)
    f.(profile_max_payload_) f.(negotiated_packet_budget_) f.(next_seq_) f.(block_id_)
    f.(override_parity_) src buf.

Definition set_fec_rates (f : FrameFramer) i_permille p_permille min_r' e_permille
  : FrameFramer :=
  let c := f.(cfg_) in
  set_cfg f (MkFrameFramerConfig c.(ff_originator) c.(ff_session_id) c.(ff_stream_id)
    c.(ff_stream_type) c.(ff_destination)
    (MkFrameFecConfig c.(ff_fec).(scheme) i_permille p_permille e_permille min_r')).

Definition reset_stats (f : FrameFramer) : FrameFramer := set_stats f FrameFramerStats_init.

Definition effective_packet_budget (f : FrameFramer) : Z :=
  if f.(profile_max_payload_) <? f.(negotiated_packet_budget_)
  then f.(profile_max_payload_) else f.(negotiated_packet_budget_).

Definition symbol_size (f : FrameFramer) : Z :=
  let s := effective_packet_budget f - kDataHeaderSize - kFecRepairSubheaderSize in
  if s >? 0 then to_u16 s else 1.

(** ** Counters ([uint64_t]) *)
Definition stat_frames st := MkFrameFramerStats (to_u64 (st.(frames) + 1)) st.(source_symbols) st.(repair_symbols) st.(malformed_frame) st.(fec_oversize_k) st.(mtu_fec_guard_frames) st.(idr_frames) st.(fec_enhance_frames).
Definition stat_source st := MkFrameFramerStats st.(frames) (to_u64 (st.(source_symbols) + 1)) st.(repair_symbols) st.(malformed_frame) st.(fec_oversize_k) st.(mtu_fec_guard_frames) st.(idr_frames) st.(fec_enhance_frames).
Definition stat_repair st := MkFrameFramerStats st.(frames) st.(source_symbols) (to_u64 (st.(repair_symbols) + 1)) st.(malformed_frame) st.(fec_oversize_k) st.(mtu_fec_guard_frames) st.(idr_frames) st.(fec_enhance_frames).
Definition stat_malformed st := MkFrameFramerStats st.(frames) st.(source_symbols) st.(repair_symbols) (to_u64 (st.(malformed_frame) + 1)) st.(fec_oversize_k) st.(mtu_fec_guard_frames) st.(idr_frames) st.(fec_enhance_frames).
Definition stat_oversize st := MkFrameFramerStats st.(frames) st.(source_symbols) st.(repair_symbols) st.(malformed_frame) (to_u64 (st.(fec_oversize_k) + 1)) st.(mtu_fec_guard_frames) st.(idr_frames) st.(fec_enhance_frames).
Definition stat_guard st := MkFrameFramerStats st.(frames) st.(source_symbols) st.(repair_symbols) st.(malformed_frame) st.(fec_oversize_k) (to_u64 (st.(mtu_fec_guard_frames) + 1)) st.(idr_frames) st.(fec_enhance_frames).
Definition stat_idr st := MkFrameFramerStats st.(frames) st.(source_symbols) st.(repair_symbols) st.(malformed_frame) st.(fec_oversize_k) st.(mtu_fec_guard_frames) (to_u64 (st.(idr_frames) + 1)) st.(fec_enhance_frames).
Definition stat_enhance st := MkFrameFramerStats st.(frames) st.(source_symbols) st.(repair_symbols) st.(malformed_frame) st.(fec_oversize_k) st.(mtu_fec_guard_frames) st.(idr_frames) (to_u64 (st.(fec_enhance_frames) + 1)).

(** ** FEC policy *)
Definition class_rate (f : FrameFramer) (cls : FrameFecClass) : Z :=
  let fec := f.(cfg_).(ff_fec) in
  match cls with
  | kIdr => fec.(i_rate_permille)
  | kEnhance => default fec.(p_rate_permille) fec.(e_rate_permille)
  | kP => fec.(p_rate_permille)
  end.

Definition is_rlc256 (f : FrameFramer) : bool :=
  bool_decide (f.(cfg_).(ff_fec).(scheme) = kRlc256).

Definition repair_count (f : FrameFramer) (k : Z) (cls : FrameFecClass)
  : Z * FrameFramer :=
  if negb (is_rlc256 f) then (0, f) else
  let rate := class_rate f cls in
  if rate =? 0 then (0, f) else
  let r := to_u32 (to_u32 (k * rate) + 999) / 1000 in
  let r := if r <? f.(cfg_).(ff_fec).(min_r) then f.(cfg_).(ff_fec).(min_r) else r in
  if r =? 0 then (0, f) else
  if to_u32 (k + r) >? kFecMaxSymbols
  then (0, set_stats f (stat_oversize f.(stats_)))
  else (to_u16 r, f).

(** ** One frame *)

(** What [emit] receives: the frame bytes, the header and the time. *)
Record Emitted : Type := MkEmitted {
  e_frame : list Z;
  e_hdr : DataHeader;
  e_now_ms : Z
}.

Abbreviation framing := (FrameFramer * list Emitted)%type.

Definition resize (l : list Z) (n : nat) : list Z := take n l ++ replicate (n - length l) 0.

Definition frame_header (f : FrameFramer) (block_id data_flags : Z) : DataHeader :=
  MkDataHeader
    (MkCommonPrefix f.(cfg_).(ff_originator) f.(cfg_).(ff_destination)
       f.(cfg_).(ff_session_id))
    f.(cfg_).(ff_stream_id) f.(cfg_).(ff_stream_type) f.(next_seq_) block_id data_flags
    f.(active_profile_) f.(table_version_).

(** [encode_data(hdr, payload, plen, frame_buf_)] and, when it succeeds, [emit]
    and the counter; [next_seq_++] has been evaluated. *)
Definition send_packet (bump : FrameFramerStats -> FrameFramerStats) (now_ms : Z)
    (hdr : DataHeader) (payload : list Z) (plen : Z) (st : framing) : option framing :=
  let '(f, out) := st in
  '(fl, buf) ← encode_data hdr (Some payload) (to_u16 plen) (Some f.(frame_buf_))
                 (len f.(frame_buf_));
  frame ← buf;
  let f := set_buffers f f.(src_payload_) frame in
  if fl >? 0
  then Some (set_stats f (bump f.(stats_)),
             out ++ [MkEmitted (take (Z.to_nat fl) frame) hdr now_ms])
  else Some (f, out).

(** Turn [i] of the source loop. *)
Definition send_source (blob : list Z) (blen s k r now_ms block_id base_flags : Z)
    (st : framing) (i : nat) : option framing :=
  let '(f, out) := st in
  let off := Z.of_nat i * s in
  let chunk := Z.min s (blen - off) in
  p ← be16_write f.(src_payload_) kFecSrcOffWindowLen k;
  p ← be16_write p kFecSrcOffSymIndex (Z.of_nat i);
  src ← slice blob (Z.to_nat off) (Z.to_nat chunk);
  p ← memcpy p (Z.to_nat kFecSourceSubheaderSize) src (Z.to_nat chunk);
  let plen := kFecSourceSubheaderSize + chunk in
  let eob := if (r =? 0) && (Z.of_nat i =? k - 1) then data_flags_kEndOfBlock else 0 in
  let hdr := frame_header f block_id (to_u8 (Z.lor base_flags eob)) in
  let f := set_counters f (to_u32 (f.(next_seq_) + 1)) f.(block_id_) in
  send_packet stat_source now_ms hdr p plen (set_buffers f p f.(frame_buf_), out).

(** The [k] rows of the zero-padded source block. *)
Definition source_rows (pad : list Z) (s k : Z) : list (list Z) :=
  map (fun i => take (Z.to_nat s) (drop (i * Z.to_nat s) pad)) (seq 0 (Z.to_nat k)).

(** Turn [j] of the repair loop. *)
Definition send_repair (rows : list (list Z)) (blen s k r now_ms block_id base_flags base_seq : Z)
    (st : framing) (payload : list Z) (j : nat) : option (framing * list Z) :=
  let '(f, out) := st in
  p ← wr8 payload kFecOffRepairIdx (to_u8 (Z.of_nat j));
  p ← be16_write p kFecOffWindowLen k;
  p ← be32_write p kFecOffWindowBaseSeq base_seq;
  p ← be32_write p kFecOffFrameLen (to_u32 blen);
  coded ← rlc_encode_repair k (to_u8 (Z.of_nat j)) rows (Z.to_nat s)
            (drop (Z.to_nat kFecRepairSubheaderSize) p);
  let p := take (Z.to_nat kFecRepairSubheaderSize) p ++ coded in
  let eob := if Z.of_nat j =? r - 1 then data_flags_kEndOfBlock else 0 in
  let hdr := frame_header f block_id
               (to_u8 (Z.lor (Z.lor base_flags data_flags_kFecRepair) eob)) in
  let f := set_counters f (to_u32 (f.(next_seq_) + 1)) f.(block_id_) in
  st ← send_packet stat_repair now_ms hdr p (len p) (f, out);
  Some (st, p).

(** The class and the guard of [on_frame], from the blob's length and flags. *)
Definition fec_class (flags : Z) : FrameFecClass :=
  let is_idr := negb (Z.land flags kFrameFlagIdr =? 0) in
  let is_enhance := negb is_idr && negb (Z.land flags kFrameFlagEnhance =? 0) in
  if is_idr then kIdr else if is_enhance then kEnhance else kP.

Definition jumbo_fec_guard (f : FrameFramer) (blen s k : Z) : bool :=
  let default_symbol :=
    Z.min s (to_u16 (kDefaultMaxPayload - kDataHeaderSize - kFecRepairSubheaderSize)) in
  let default_k := 1 + (blen - 1) / default_symbol in
  is_rlc256 f && (s >? default_symbol) && (k <? mtu_tier_kFecProtectionK)
  && (default_k >=? mtu_tier_kFecProtectionK).

(** [r]: the policy's count, then the one-shot override, then the guard. *)
Definition choose_repairs (f : FrameFramer) (k : Z) (cls : FrameFecClass)
    (ov_parity : option Z) (guard : bool) : Z * FrameFramer :=
  let '(r, f) := repair_count f k cls in
  let is_enhance := match cls with kEnhance => true | _ => false end in
  let r :=
    match ov_parity with
    | Some ov =>
      if negb is_enhance && is_rlc256 f
      then to_u16 (Z.min ov (if k <? kFecMaxSymbols then kFecMaxSymbols - k else 0))
      else r
    | None => r
    end in
  if guard then
    let rate := class_rate f cls in
    let cap := to_u32 (kFecMaxSymbols - k) in
    let guard_r := to_u16 (Z.max f.(cfg_).(ff_fec).(min_r)
                             ((mtu_tier_kFecProtectionK * rate + 999) / 1000)) in
    if negb (rate =? 0) && (guard_r <=? cap) && (r <? guard_r)
    then (guard_r, set_stats f (stat_guard f.(stats_)))
    else (r, f)
  else (r, f).

(** [on_frame]: the flag it returns, the framer afterwards and the packets it
    emitted. *)
Definition on_frame (f : FrameFramer) (blob : ptr) (blen now_ms : Z)
  : option (bool * FrameFramer * list Emitted) :=
  let ov_parity := f.(override_parity_) in
  let f := set_override f None in
  match blob with
  | None => Some (false, set_stats f (stat_malformed f.(stats_)), [])
  | Some b =>
    if blen <? kVencFrameMetaSize
    then Some (false, set_stats f (stat_malformed f.(stats_)), []) else
    let s := symbol_size f in
    let k_sz := 1 + (blen - 1) / s in
    if k_sz >? 0xFFFF
    then Some (false, set_stats f (stat_malformed f.(stats_)), []) else
    let k := to_u16 k_sz in
    let guard := jumbo_fec_guard f blen s k in
    '(_, meta) ← read_frame_meta blob blen VencFrameMeta_init;
    let cls := fec_class meta.(flags) in
    let block_id := f.(block_id_) in
    let f := set_counters f f.(next_seq_) (to_u32 (f.(block_id_) + 1)) in
    let base_seq := f.(next_seq_) in
    let base_flags := f.(extra_flags_) in
    let '(r, f) := choose_repairs f k cls ov_parity guard in
    let f := set_stats f (stat_frames f.(stats_)) in
    let f := match cls with
             | kIdr => set_stats f (stat_idr f.(stats_))
             | kEnhance => set_stats f (stat_enhance f.(stats_))
             | kP => f
             end in
    let f := set_buffers f
               (resize f.(src_payload_) (Z.to_nat (kFecSourceSubheaderSize + s)))
               f.(frame_buf_) in
    st ← foldM (send_source b blen s k r now_ms block_id base_flags)
               (seq 0 (Z.to_nat k)) (f, []);
    if r =? 0 then Some (true, st.1, st.2) else
    src ← slice b 0 (Z.to_nat blen);
    pad ← memcpy (replicate (Z.to_nat (k * s)) 0) 0 src (Z.to_nat blen);
    let rows := source_rows pad s k in
    st ← foldM (fun '(st, p) j =>
                  send_repair rows blen s k r now_ms block_id base_flags base_seq st p j)
               (seq 0 (Z.to_nat r))
               (st, replicate (Z.to_nat (kFecRepairSubheaderSize + s)) 0);
    Some (true, st.1.1, st.1.2)
  end.
