(* ===== verification/FrameSpec.v ===== *)
(** * Specification of a frame block

    What PROTOCOL.md 5.1a and 14.1 prescribe for a blob cut into symbols of
    [s] bytes: its chunks, the zero-padded source matrix, and the payload of
    every source and repair packet.  The framer and the reassembler are both
    proved against it. *)
From S2P Require Import Prelude Endian Types Wire WireLayout Gf256 GfField Rlc RlcProps FrameShm FrameFramer.

Section Block.
Context (b : list Z) (s : nat).

(** [1 + (len - 1) / s] symbols. *)
Definition block_k : nat := (1 + (length b - 1) / s)%nat.

(** The unpadded bytes of source symbol [i]. *)
Definition chunk (i : nat) : list Z := take s (drop (i * s) b).

Definition padded : list Z := b ++ replicate (block_k * s - length b) 0.

Definition block_rows : list (list Z) :=
  map (fun i => take s (drop (i * s) padded)) (seq 0 block_k).

(** The coded bytes of a repair symbol. *)
Definition coded (j : nat) : list Z := default [] (sym_payload block_rows s (Rep j)).

Definition source_payload (i : nat) : list Z :=
  be16_bytes (Z.of_nat block_k) ++ be16_bytes (Z.of_nat i) ++ chunk i.

Definition repair_payload (base_seq : Z) (j : nat) : list Z :=
  [Z.of_nat j] ++ be16_bytes (Z.of_nat block_k) ++ be32_bytes base_seq ++
  be32_bytes (len b) ++ coded j.

(** The DATA payload of a symbol. *)
Definition symbol_payload (base_seq : Z) (y : Sym) : list Z :=
  match y with Src i => source_payload i | Rep j => repair_payload base_seq j end.

(** The symbols of a block with [r] repairs, in transmission order. *)
Definition block_symbols (r : nat) : list Sym :=
  map Src (seq 0 block_k) ++ map Rep (seq 0 r).

(** ** Geometry *)
Context (Hs : (0 < s)%nat) (Hb : (0 < length b)%nat).

Lemma block_k_pos : (1 <= block_k)%nat.
Proof. unfold block_k. lia. Qed.

Lemma block_k_bounds : ((block_k - 1) * s < length b <= block_k * s)%nat.
Proof.
  unfold block_k. replace (1 + (length b - 1) / s - 1)%nat with ((length b - 1) / s)%nat by lia.
  pose proof (Nat.div_mod (length b - 1) s ltac:(lia)) as E.
  pose proof (Nat.mod_upper_bound (length b - 1) s ltac:(lia)). nia.
Qed.

Lemma padded_length : length padded = (block_k * s)%nat.
Proof.
  unfold padded. rewrite length_app, length_replicate. pose proof block_k_bounds. lia.
Qed.

Lemma chunk_length i :
  (i < block_k)%nat -> length (chunk i) = Nat.min s (length b - i * s).
Proof. intros. unfold chunk. by rewrite length_take, length_drop. Qed.

Lemma chunk_full i : (S i < block_k)%nat -> length (chunk i) = s.
Proof.
  intros Hi. rewrite chunk_length by lia. pose proof block_k_bounds.
  assert (S i * s <= (block_k - 1) * s)%nat by (apply Nat.mul_le_mono_r; lia). lia.
Qed.

Lemma chunk_nonempty i : (i < block_k)%nat -> (0 < length (chunk i) <= s)%nat.
Proof.
  intros Hi. rewrite chunk_length by lia. pose proof block_k_bounds.
  assert (i * s <= (block_k - 1) * s)%nat by (apply Nat.mul_le_mono_r; lia). lia.
Qed.

Lemma block_rows_length : length block_rows = block_k.
Proof. unfold block_rows. by rewrite length_map, length_seq. Qed.

Lemma block_rows_lookup i :
  (i < block_k)%nat ->
  block_rows !! i = Some (chunk i ++ replicate (s - length (chunk i)) 0).
Proof.
  intros Hi. unfold block_rows. rewrite list_lookup_fmap, lookup_seq_lt by done. cbn. f_equal.
  pose proof block_k_bounds. pose proof (chunk_length i Hi) as Hl.
  assert (S i * s <= block_k * s)%nat by (apply Nat.mul_le_mono_r; lia).
  assert (i * s <= (block_k - 1) * s)%nat by (apply Nat.mul_le_mono_r; lia).
  unfold padded. rewrite drop_app_le by lia. rewrite take_app, length_drop. unfold chunk at 1.
  f_equal. rewrite take_replicate. f_equal. lia.
Qed.

Lemma block_rows_wf : bytes b -> wf_mat block_k s block_rows.
Proof.
  intros Hbytes. split; [apply block_rows_length|].
  apply Forall_lookup_2. intros i row Hrow.
  assert (Hi : (i < block_k)%nat).
  { apply lookup_lt_Some in Hrow. by rewrite block_rows_length in Hrow. }
  rewrite block_rows_lookup in Hrow by done. injection Hrow as <-.
  pose proof (chunk_nonempty i Hi). split.
  - rewrite length_app, length_replicate. lia.
  - apply Forall_app. split; [by apply Forall_take, Forall_drop|].
    apply Forall_replicate. unfold u8; lia.
Qed.

Lemma concat_rows_from (l : list Z) : forall n i,
  length l = ((i + n) * s)%nat ->
  concat (map (fun i => take s (drop (i * s) l)) (seq i n)) = drop (i * s) l.
Proof.
  induction n as [|n IH]; intros i Hl; cbn.
  - rewrite drop_ge; [done|]. lia.
  - rewrite IH by lia. replace (S i * s)%nat with (i * s + s)%nat by lia.
    rewrite <- drop_drop. apply take_drop.
Qed.

(** The padded rows hold the blob, then zeros. *)
Lemma concat_rows : concat block_rows = padded.
Proof.
  unfold block_rows. rewrite concat_rows_from; [by rewrite drop_0|].
  rewrite padded_length. lia.
Qed.

Lemma concat_chunks_from : forall n i,
  (length b <= (i + n) * s)%nat ->
  concat (map chunk (seq i n)) = drop (i * s) b.
Proof.
  induction n as [|n IH]; intros i Hl; cbn.
  - rewrite drop_ge; [done|]. lia.
  - rewrite IH by lia. unfold chunk. replace (S i * s)%nat with (i * s + s)%nat by lia.
    rewrite <- drop_drop. apply take_drop.
Qed.

(** The chunks are the blob. *)
Lemma concat_chunks : concat (map chunk (seq 0 block_k)) = b.
Proof. rewrite concat_chunks_from; [by rewrite drop_0|]. pose proof block_k_bounds. lia. Qed.

Lemma coded_spec j :
  bytes b -> (block_k + j <= 255)%nat ->
  sym_payload block_rows s (Rep j) = Some (coded j) /\
  rlc_encode_repair (Z.of_nat block_k) (Z.of_nat j) block_rows s (replicate s 0)
    = Some (coded j) /\
  wf_row s (coded j).
Proof.
  intros Hbytes Hj.
  destruct (sym_payload_spec block_k s block_rows (block_rows_wf Hbytes) ltac:(lia) (Rep j))
    as (p & Hp & Hw & _); [exact Hj|].
  unfold coded. rewrite Hp. cbn [default]. split; [done|]. split; [|done].
  cbn [sym_payload] in Hp. by rewrite block_rows_length in Hp.
Qed.
End Block.

(** ** Packets of a block *)

(** Header of the [n]-th packet of block [bid], [last] telling whether it closes it. *)
Definition block_header (f : FrameFramer) (bid : Z) (n : nat) (y : Sym) (last : bool) : DataHeader :=
  frame_header (set_counters f (to_u32 (f.(next_seq_) + Z.of_nat n)) 0) bid
    (to_u8 (Z.lor
       (match y with Src _ => f.(extra_flags_) | Rep _ => Z.lor f.(extra_flags_) data_flags_kFecRepair end)
       (if last then data_flags_kEndOfBlock else 0))).

(** The packet of a symbol as the wire specification lays it out. *)
Definition block_packet (f : FrameFramer) (bid : Z) (b : list Z) (s r : nat) (now_ms : Z)
    (n : nat) (y : Sym) : Emitted :=
  let h := block_header f bid n y (n =? block_k b s + r - 1)%nat in
  let p := symbol_payload b s f.(next_seq_) y in
  MkEmitted (layout (PData h (Some p) (len p))) h now_ms.

Definition block_packets (f : FrameFramer) (bid : Z) (b : list Z) (s r : nat) (now_ms : Z)
  : list Emitted :=
  imap (block_packet f bid b s r now_ms) (block_symbols b s r).
