(* ===== verification/FramerFacts.v ===== *)
(** * The framer emits the specified block: lemmas *)
From S2P Require Import Prelude Endian Types Wire WireLayout WireFacts Gf256 GfField Rlc RlcProps Table FrameShm FrameFramer FrameSpec.

(** Every field fits its C++ type; the frame buffer has its declared size. *)
Record wf_framer (f : FrameFramer) : Prop := {
  wff_originator : u16 f.(cfg_).(ff_originator);
  wff_destination : u16 f.(cfg_).(ff_destination);
  wff_session : u32 f.(cfg_).(ff_session_id);
  wff_stream_id : u8 f.(cfg_).(ff_stream_id);
  wff_stream_type : u8 f.(cfg_).(ff_stream_type);
  wff_i_rate : u16 f.(cfg_).(ff_fec).(i_rate_permille);
  wff_p_rate : u16 f.(cfg_).(ff_fec).(p_rate_permille);
  wff_e_rate : u16 (default 0 f.(cfg_).(ff_fec).(e_rate_permille));
  wff_min_r : u16 f.(cfg_).(ff_fec).(min_r);
  wff_profile : u8 f.(active_profile_);
  wff_table : u8 f.(table_version_);
  wff_flags : u8 f.(extra_flags_);
  wff_max_payload : u16 f.(profile_max_payload_);
  wff_budget : u16 f.(negotiated_packet_budget_);
  wff_seq : u32 f.(next_seq_);
  wff_block : u32 f.(block_id_);
  wff_override : u16 (default 0 f.(override_parity_));
  wff_src : bytes f.(src_payload_);
  wff_buf : length f.(frame_buf_) = 4122%nat
}.

(** What the loops of [on_frame] leave of the framer after [n] packets. *)
Record framer_at (f : FrameFramer) (n : nat) (f' : FrameFramer) : Prop := {
  fa_cfg : f'.(cfg_) = f.(cfg_);
  fa_profile : f'.(active_profile_) = f.(active_profile_);
  fa_table : f'.(table_version_) = f.(table_version_);
  fa_flags : f'.(extra_flags_) = f.(extra_flags_);
  fa_max_payload : f'.(profile_max_payload_) = f.(profile_max_payload_);
  fa_budget : f'.(negotiated_packet_budget_) = f.(negotiated_packet_budget_);
  fa_seq : f'.(next_seq_) = to_u32 (f.(next_seq_) + Z.of_nat n);
  fa_block : f'.(block_id_) = f.(block_id_);
  fa_override : f'.(override_parity_) = f.(override_parity_);
  fa_src : length f'.(src_payload_) = length f.(src_payload_);
  fa_bytes : bytes f'.(src_payload_);
  fa_buf : length f'.(frame_buf_) = length f.(frame_buf_)
}.

Lemma framer_at_0 f : u32 f.(next_seq_) -> bytes f.(src_payload_) -> framer_at f 0 f.
Proof. intros. split; try done. rewrite Z.add_0_r, to_u32_id; done. Qed.

Lemma to_u32_next a n : to_u32 (to_u32 (a + Z.of_nat n) + 1) = to_u32 (a + Z.of_nat (S n)).
Proof. rewrite to_u32_succ. f_equal. lia. Qed.

Lemma layout_take h payload plen :
  0 <= plen <= len payload ->
  layout (PData h (Some payload) plen) =
  layout (PData h (Some (take (Z.to_nat plen) payload)) (len (take (Z.to_nat plen) payload))).
Proof.
  intros Hp. set (p := take (Z.to_nat plen) payload).
  assert (Hl : len p = plen) by (unfold p; rewrite length_take; lia).
  rewrite Hl. cbn [layout]. unfold ptr_bytes. cbn [default]. f_equal.
  unfold id, p. by rewrite take_take, Nat.min_id.
Qed.

Lemma length_data_header h n : length (data_header_layout h n) = 26%nat.
Proof. reflexivity. Qed.

Lemma send_packet_spec bump now hdr payload plen f out :
  0 <= plen <= 4096 -> plen <= len payload -> bytes payload ->
  length f.(frame_buf_) = 4122%nat ->
  exists buf', length buf' = 4122%nat /\
    send_packet bump now hdr payload plen (f, out) =
    Some (set_stats (set_buffers f f.(src_payload_) buf') (bump f.(stats_)),
          out ++ [MkEmitted (layout (PData hdr (Some payload) plen)) hdr now]).
Proof.
  intros Hp Hl Hb Hf. unfold send_packet.
  rewrite to_u16_id by (unfold u16; lia).
  pose proof (encode_data_spec hdr (Some payload) plen f.(frame_buf_) (len f.(frame_buf_)))
    as E. unfold encodes_as in E. cbn [encode_packet packet_valid packet_size andb] in E.
  rewrite E by (unfold u16; try lia; split; done). clear E.
  change kDataHeaderSize with 26 in *.
  destruct (Z.leb_spec (26 + plen) (len f.(frame_buf_))); [|lia].
  cbn [mbind option_bind].
  set (lay := layout (PData hdr (Some payload) plen)).
  assert (Hlay : length lay = (26 + Z.to_nat plen)%nat).
  { unfold lay. cbn [layout]. rewrite length_app, length_data_header. unfold ptr_bytes.
    cbn [default id]. rewrite length_take. lia. }
  exists (lay ++ drop (Z.to_nat (26 + plen)) f.(frame_buf_)). split.
  - rewrite length_app, length_drop. lia.
  - destruct (Z.gtb_spec (26 + plen) 0); [|lia]. do 4 f_equal.
    replace (Z.to_nat (26 + plen)) with (length lay) by lia. by rewrite take_app_length.
Qed.

Lemma memcpy_at (h t src : list Z) (off n : nat) :
  length h = off -> (n <= length src)%nat -> (n <= length t)%nat ->
  memcpy (h ++ t) off src n = Some (h ++ take n src ++ drop n t).
Proof. intros <-. apply memcpy_app. Qed.

Section Loops.
Context (f : FrameFramer) (bid : Z) (b : list Z) (s r : nat) (now : Z).
Context (Hf : wf_framer f) (Hb : bytes b) (Hlen : (0 < length b)%nat).
Context (Hs : (0 < s)%nat) (Hs2 : Z.of_nat s <= 4085) (Hk : Z.of_nat (block_k b s) <= 65535).
Context (Hblen : u32 (len b)).

Let k := block_k b s.

Lemma source_header f' i :
  framer_at f i f' -> (i < k)%nat ->
  frame_header f' bid (to_u8 (Z.lor f.(extra_flags_)
    (if (Z.of_nat r =? 0) && (Z.of_nat i =? Z.of_nat k - 1) then data_flags_kEndOfBlock else 0)))
  = block_header f bid i (Src i) (i =? k + r - 1)%nat.
Proof.
  intros [] Hi. unfold block_header, frame_header, set_counters.
  cbn [cfg_ next_seq_ active_profile_ table_version_ block_id_ extra_flags_].
  rewrite fa_cfg0, fa_profile0, fa_table0, fa_seq0.
  assert (E : ((Z.of_nat r =? 0) && (Z.of_nat i =? Z.of_nat k - 1)) = (i =? k + r - 1)%nat).
  { destruct (Z.eqb_spec (Z.of_nat r) 0), (Z.eqb_spec (Z.of_nat i) (Z.of_nat k - 1)),
      (Nat.eqb_spec i (k + r - 1)); cbn; lia || done. }
  by rewrite E.
Qed.

Lemma send_source_spec f' out i :
  framer_at f i f' -> (i < k)%nat -> length f'.(src_payload_) = (4 + s)%nat ->
  length f'.(frame_buf_) = 4122%nat ->
  exists f'', send_source b (len b) (Z.of_nat s) (Z.of_nat k) (Z.of_nat r) now
      bid f.(extra_flags_) (f', out) i
    = Some (f'', out ++ [block_packet f bid b s r now i (Src i)]) /\
    framer_at f (S i) f''.
Proof.
  intros Hat Hi Hsrc Hbuf. unfold send_source.
  pose proof (chunk_nonempty b s Hs Hlen i Hi) as Hc.
  pose proof (chunk_length b s i Hi) as Hcl.
  pose proof (block_k_bounds b s Hs Hlen) as Hkb. fold k in Hkb.
  assert (Hoff : (i * s <= (k - 1) * s)%nat) by (apply Nat.mul_le_mono_r; lia).
  set (c := Z.min (Z.of_nat s) (len b - Z.of_nat i * Z.of_nat s)).
  assert (Ec : Z.to_nat c = length (chunk b s i)) by (unfold c; lia).
  destruct f'.(src_payload_) as [|x0 [|x1 [|x2 [|x3 rest]]]] eqn:Esrc;
    cbn [length] in Hsrc; try lia.
  unfold be16_write, wr8.
  cbn [length Nat.ltb Nat.leb kFecSrcOffWindowLen kFecSrcOffSymIndex Nat.add mbind option_bind
       insert list_insert].
  assert (Hsl : slice b (Z.to_nat (Z.of_nat i * Z.of_nat s)) (Z.to_nat c) = Some (chunk b s i)).
  { unfold slice. rewrite Ec. replace (Z.to_nat (Z.of_nat i * Z.of_nat s)) with (i * s)%nat by lia.
    destruct (Nat.leb_spec (i * s + length (chunk b s i)) (length b)); [|lia].
    f_equal. rewrite Hcl, <- length_drop, <- take_take. unfold chunk. by rewrite firstn_all. }
  rewrite Hsl. cbn [mbind option_bind].
  change (Z.to_nat kFecSourceSubheaderSize) with 4%nat.
  match goal with |- context [memcpy (?a :: ?b :: ?c :: ?d :: rest)] =>
    change (a :: b :: c :: d :: rest) with ([a; b; c; d] ++ rest) end.
  rewrite memcpy_at by (done || lia). cbn [mbind option_bind].
  set (p := _ ++ take _ _ ++ _).
  assert (Hbr : bytes rest).
  { pose proof (fa_bytes _ _ _ Hat) as Hbs. rewrite Esrc in Hbs.
    by apply Forall_cons in Hbs as [_ Hbs]; apply Forall_cons in Hbs as [_ Hbs];
       apply Forall_cons in Hbs as [_ Hbs]; apply Forall_cons in Hbs as [_ Hbs]. }
  assert (Hpb : bytes p).
  { unfold p. apply Forall_app; split; [repeat constructor; apply to_u8_u8|].
    apply Forall_app; split; [|by apply Forall_drop].
    by apply Forall_take, Forall_take, Forall_drop. }
  assert (Hpl : length p = (4 + s)%nat).
  { unfold p. rewrite !length_app, length_take, length_drop. cbn [length]. lia. }
  rewrite (source_header f' i Hat Hi).
  destruct (send_packet_spec stat_source now (block_header f bid i (Src i) (i =? k + r - 1)%nat) p
    (kFecSourceSubheaderSize + c)
    (set_buffers (set_counters f' (to_u32 (next_seq_ f' + 1)) (block_id_ f')) p
       (frame_buf_ (set_counters f' (to_u32 (next_seq_ f' + 1)) (block_id_ f')))) out)
    as (buf' & Hbl & ->); try done.
  { change kFecSourceSubheaderSize with 4. lia. }
  { change kFecSourceSubheaderSize with 4. lia. }
  assert (E : block_packet f bid b s r now i (Src i) =
    MkEmitted (layout (PData (block_header f bid i (Src i) (i =? k + r - 1)%nat) (Some p)
      (kFecSourceSubheaderSize + c))) (block_header f bid i (Src i) (i =? k + r - 1)%nat) now).
  { unfold block_packet. fold k. f_equal. symmetry.
    rewrite layout_take by (change kFecSourceSubheaderSize with 4; lia).
    assert (Ht : take (Z.to_nat (kFecSourceSubheaderSize + c)) p = source_payload b s i).
    { change kFecSourceSubheaderSize with 4. unfold p, source_payload. fold k.
      rewrite Z2Nat.inj_add, Ec by lia. change (Z.to_nat 4) with 4%nat.
      cbn [app take be16_bytes Nat.add]. do 4 f_equal.
      rewrite (take_ge (chunk b s i)) by lia. by rewrite take_app_length. }
    by rewrite Ht. }
  rewrite E. eexists. split; [reflexivity|].
  destruct Hat. split; cbn; try done.
  - by rewrite fa_seq0, to_u32_next.
  - transitivity (length p); [done|]. rewrite Hpl, <- fa_src0, Esrc. cbn. lia.
  - congruence.
Qed.

Lemma encode_out_irrelevant kk j rows out out' :
  length out = s -> length out' = s ->
  rlc_encode_repair kk j rows s out = rlc_encode_repair kk j rows s out'.
Proof.
  intros H H'. unfold rlc_encode_repair, memset0. by rewrite !drop_ge, H, H' by lia.
Qed.

Lemma repair_header f' j :
  framer_at f (k + j) f' -> (j < r)%nat ->
  frame_header f' bid (to_u8 (Z.lor (Z.lor f.(extra_flags_) data_flags_kFecRepair)
    (if Z.of_nat j =? Z.of_nat r - 1 then data_flags_kEndOfBlock else 0)))
  = block_header f bid (k + j) (Rep j) (k + j =? k + r - 1)%nat.
Proof.
  intros [] Hj. unfold block_header, frame_header, set_counters.
  cbn [cfg_ next_seq_ active_profile_ table_version_ block_id_ extra_flags_].
  rewrite fa_cfg0, fa_profile0, fa_table0, fa_seq0.
  assert (E : (Z.of_nat j =? Z.of_nat r - 1) = (k + j =? k + r - 1)%nat).
  { destruct (Z.eqb_spec (Z.of_nat j) (Z.of_nat r - 1)),
      (Nat.eqb_spec (k + j) (k + r - 1)); lia || done. }
  by rewrite E.
Qed.

Lemma send_repair_spec f' out payload j :
  framer_at f (k + j) f' -> (j < r)%nat -> (k + r <= 256)%nat ->
  length payload = (11 + s)%nat -> length f'.(frame_buf_) = 4122%nat ->
  exists f'', send_repair (block_rows b s) (len b) (Z.of_nat s) (Z.of_nat k) (Z.of_nat r) now
      bid f.(extra_flags_) f.(next_seq_) (f', out) payload j
    = Some (f'', out ++ [block_packet f bid b s r now (k + j) (Rep j)],
            repair_payload b s f.(next_seq_) j) /\
    framer_at f (S (k + j)) f''.
Proof.
  intros Hat Hj Hkr Hpl Hbuf. unfold send_repair.
  pose proof (block_k_pos b s) as Hk1. fold k in Hk1.
  destruct (coded_spec b s Hs Hlen j Hb) as (_ & Hcode & Hcl & Hcb); [fold k; lia|].
  fold k in Hcode. rewrite (to_u8_id (Z.of_nat j)) by (unfold u8; lia).
  rewrite (to_u32_id (len b)) by done.
  do 11 (destruct payload as [|? payload]; [cbn [length] in Hpl; lia|]).
  unfold be16_write, be32_write, wr8.
  cbn [length Nat.ltb Nat.leb kFecOffRepairIdx kFecOffWindowLen kFecOffWindowBaseSeq
       kFecOffFrameLen Nat.add mbind option_bind insert list_insert].
  change (Z.to_nat kFecRepairSubheaderSize) with 11%nat. rewrite Nat2Z.id.
  cbn [drop take]. rewrite drop_0, take_0.
  rewrite (encode_out_irrelevant _ _ _ payload (replicate s 0));
    [|cbn [length] in Hpl; lia|by rewrite length_replicate].
  rewrite Hcode. cbn [mbind option_bind].
  set (p := _ ++ coded b s j).
  assert (Hp : p = repair_payload b s f.(next_seq_) j) by reflexivity.
  assert (Hpl' : length p = (11 + s)%nat) by (unfold p; rewrite length_app, Hcl; done).
  rewrite (repair_header f' j Hat Hj).
  destruct (send_packet_spec stat_repair now (block_header f bid (k + j) (Rep j) (k + j =? k + r - 1)%nat) p
    (len p) (set_counters f' (to_u32 (next_seq_ f' + 1)) (block_id_ f')) out)
    as (buf' & Hbl & ->); try done; [lia| |].
  { rewrite Hp. unfold repair_payload. apply Forall_app; split.
    - constructor; [unfold u8; lia|constructor].
    - repeat (apply Forall_app; split);
        first [apply be16_bytes_bytes|apply be32_bytes_bytes|exact Hcb]. }
  cbn [mbind option_bind].
  assert (E : block_packet f bid b s r now (k + j) (Rep j) =
    MkEmitted (layout (PData (block_header f bid (k + j) (Rep j) (k + j =? k + r - 1)%nat)
      (Some p) (len p))) (block_header f bid (k + j) (Rep j) (k + j =? k + r - 1)%nat) now)
    by reflexivity.
  rewrite E, <- Hp. eexists. split; [reflexivity|].
  destruct Hat. split; cbn; try done.
  - by rewrite fa_seq0, to_u32_next.
  - congruence.
Qed.

Lemma imap_snoc {A B} (g : nat -> A -> B) l x :
  imap g (l ++ [x]) = imap g l ++ [g (length l) x].
Proof. rewrite imap_app. cbn. by rewrite Nat.add_0_r. Qed.

Lemma source_loop :
  length f.(src_payload_) = (4 + s)%nat -> length f.(frame_buf_) = 4122%nat ->
  bytes f.(src_payload_) ->
  exists f'', foldM (send_source b (len b) (Z.of_nat s) (Z.of_nat k) (Z.of_nat r) now
      bid f.(extra_flags_)) (seq 0 k) (f, [])
    = Some (f'', imap (block_packet f bid b s r now) (map Src (seq 0 k))) /\
    framer_at f k f''.
Proof.
  intros Hsrc Hbuf Hbs.
  destruct (foldM_ind (send_source b (len b) (Z.of_nat s) (Z.of_nat k) (Z.of_nat r) now
      bid f.(extra_flags_))
    (fun pre st => framer_at f (length pre) st.1 /\
       st.2 = imap (block_packet f bid b s r now) (map Src pre)) (seq 0 k) (f, []))
    as ([f'' out] & E & Hat & Eout).
  - split; [|done]. apply framer_at_0; [apply Hf|done].
  - intros pre i post [f' out] Eseq [Hat Eout]. cbn [fst snd] in *. subst out.
    assert (Hi : i = length pre /\ (i < k)%nat).
    { assert (H : seq 0 k !! length pre = Some i) by (rewrite Eseq; by apply list_lookup_middle).
      apply lookup_seq in H. lia. }
    destruct Hi as [-> Hi].
    destruct (send_source_spec f' (imap (block_packet f bid b s r now) (map Src pre))
      (length pre)) as (f'' & E & Hat'); try done.
    { by rewrite (fa_src _ _ _ Hat). }
    { by rewrite (fa_buf _ _ _ Hat). }
    eexists. split; [exact E|]. split.
    + rewrite length_app. cbn [length fst]. by rewrite Nat.add_1_r.
    + rewrite map_app. cbn [map snd]. by rewrite imap_snoc, length_map.
  - cbn [fst snd] in *. subst out. rewrite length_seq in Hat. eauto.
Qed.

Lemma repair_loop f1 out1 :
  framer_at f k f1 -> length f.(frame_buf_) = 4122%nat -> (k + r <= 256)%nat ->
  out1 = imap (block_packet f bid b s r now) (map Src (seq 0 k)) ->
  exists f'' p, foldM (fun '(st, p) j =>
      send_repair (block_rows b s) (len b) (Z.of_nat s) (Z.of_nat k) (Z.of_nat r) now
        bid f.(extra_flags_) f.(next_seq_) st p j)
      (seq 0 r) (f1, out1, replicate (11 + s) 0)
    = Some (f'', block_packets f bid b s r now, p) /\ framer_at f (k + r) f''.
Proof.
  intros Hat Hbuf Hkr ->.
  set (step := fun '(st, p) j => _).
  destruct (foldM_ind step
    (fun pre st => framer_at f (k + length pre) st.1.1 /\
       st.1.2 = imap (block_packet f bid b s r now) (map Src (seq 0 k) ++ map Rep pre) /\
       length st.2 = (11 + s)%nat)
    (seq 0 r) (f1, imap (block_packet f bid b s r now) (map Src (seq 0 k)), replicate (11 + s) 0))
    as ([[f'' out] p] & E & Hat' & Eout & _).
  - cbn [fst snd]. rewrite Nat.add_0_r, app_nil_r, length_replicate. done.
  - intros pre j post [[f' out] p] Eseq (Hat' & Eout & Hpl). cbn [fst snd] in *. subst out.
    assert (Hj : j = length pre /\ (j < r)%nat).
    { assert (H : seq 0 r !! length pre = Some j) by (rewrite Eseq; by apply list_lookup_middle).
      apply lookup_seq in H. lia. }
    destruct Hj as [-> Hj].
    destruct (send_repair_spec f'
      (imap (block_packet f bid b s r now) (map Src (seq 0 k) ++ map Rep pre)) p (length pre))
      as (f'' & E & Hat''); try done.
    { by rewrite (fa_buf _ _ _ Hat'). }
    eexists. split; [exact E|]. cbn [fst snd]. split; [|split].
    + rewrite length_app. cbn [length]. by replace (k + (length pre + 1))%nat with (S (k + length pre)) by lia.
    + rewrite map_app. cbn [map]. rewrite app_assoc, imap_snoc.
      by rewrite length_app, !length_map, length_seq.
    + unfold repair_payload. rewrite !length_app.
      destruct (coded_spec b s Hs Hlen (length pre) Hb) as (_ & _ & Hcl & _); [fold k; lia|].
      rewrite Hcl. cbn. lia.
  - cbn [fst snd] in *. subst out. rewrite length_seq in Hat'. exists f'', p. done.
Qed.
End Loops.

(** ** The FEC policy *)

(** The repairs a frame gets: a function of the configuration, the blob's
    length and flags and the pending override. *)
Definition frame_k (f : FrameFramer) (blen : Z) : Z := 1 + (blen - 1) / symbol_size f.

Definition frame_repairs (f : FrameFramer) (blen flags : Z) : Z :=
  (choose_repairs f (frame_k f blen) (fec_class flags) f.(override_parity_)
     (jumbo_fec_guard f blen (symbol_size f) (frame_k f blen))).1.

Lemma choose_repairs_state f k cls ov g :
  exists st, (choose_repairs f k cls ov g).2 = set_stats f st.
Proof.
  assert (Hid : exists st, f = set_stats f st) by (exists f.(stats_); by destruct f).
  assert (Hrc : exists st, (repair_count f k cls).2 = set_stats f st).
  { unfold repair_count. repeat case_match; cbn; eauto. }
  unfold choose_repairs. destruct (repair_count f k cls) as [r f1]. cbn in Hrc.
  destruct Hrc as [st ->]. repeat case_match; cbn; eauto.
Qed.

Lemma choose_repairs_cfg f f' k cls ov g :
  f'.(cfg_) = f.(cfg_) ->
  (choose_repairs f' k cls ov g).1 = (choose_repairs f k cls ov g).1.
Proof.
  intros E. unfold choose_repairs, repair_count, is_rlc256, class_rate. rewrite E.
  repeat case_match; simplify_eq; cbn [cfg_ set_stats] in *; rewrite ?E in *;
    first [done | congruence].
Qed.

Lemma class_rate_u16 f cls : wf_framer f -> u16 (class_rate f cls).
Proof.
  intros []. destruct cls; cbn; try done.
  destruct (e_rate_permille (ff_fec (cfg_ f))); done.
Qed.

(** The policy's own count, as plain arithmetic. *)
Definition policy_repairs (f : FrameFramer) (k : Z) (cls : FrameFecClass) : Z :=
  let rate := class_rate f cls in
  let want := Z.max ((k * rate + 999) / 1000) f.(cfg_).(ff_fec).(min_r) in
  if negb (is_rlc256 f) || (rate =? 0) || (k + want >? 256) then 0 else want.

Lemma repair_count_policy f k cls :
  wf_framer f -> 1 <= k <= 65535 -> (repair_count f k cls).1 = policy_repairs f k cls.
Proof.
  intros Hf Hk. pose proof (class_rate_u16 f cls Hf) as Hr. pose proof (wff_min_r f Hf) as Hm.
  unfold repair_count, policy_repairs, kFecMaxSymbols.
  destruct (is_rlc256 f); [|done]. cbn [negb orb].
  destruct (Z.eqb_spec (class_rate f cls) 0); [done|].
  set (rate := class_rate f cls) in *. set (m := min_r (ff_fec (cfg_ f))) in *.
  unfold u16 in *.
  assert (Hkr : 0 <= k * rate <= 65535 * 65535) by nia.
  rewrite (to_u32_id (k * rate)) by (unfold u32; lia).
  rewrite (to_u32_id (k * rate + 999)) by (unfold u32; lia).
  set (w := (k * rate + 999) / 1000).
  assert (Hw : 1 <= w <= 4294838).
  { unfold w. split; [apply Z.div_le_lower_bound; nia|].
    apply Z.div_le_upper_bound; lia. }
  assert (E : (if w <? m then m else w) = Z.max w m) by (case_test; lia).
  cbv zeta. rewrite E.
  destruct (Z.eqb_spec (Z.max w m) 0); [lia|].
  rewrite to_u32_id by (unfold u32; lia).
  destruct (Z.gtb_spec (k + Z.max w m) 256); cbn [fst]; [done|].
  change (to_u16 (Z.max w m) = Z.max w m). apply to_u16_id. unfold u16. lia.
Qed.

Lemma policy_repairs_bound f k cls :
  wf_framer f -> 1 <= k ->
  0 <= policy_repairs f k cls /\ (policy_repairs f k cls = 0 \/ k + policy_repairs f k cls <= 256).
Proof.
  intros Hf Hk. unfold policy_repairs. pose proof (wff_min_r f Hf). unfold u16 in *.
  destruct (is_rlc256 f); cbn [negb orb]; [|split; [done|by left]].
  case_test; cbn [orb]; [split; [done|by left]|].
  destruct (Z.gtb_spec (k + Z.max ((k * class_rate f cls + 999) / 1000)
    (min_r (ff_fec (cfg_ f)))) 256); lia.
Qed.

Lemma frame_repairs_bound f blen flags :
  wf_framer f -> 1 <= frame_k f blen <= 65535 ->
  0 <= frame_repairs f blen flags /\
  (frame_repairs f blen flags = 0 \/ frame_k f blen + frame_repairs f blen flags <= 256).
Proof.
  intros Hf Hk. unfold frame_repairs. set (k := frame_k f blen) in *.
  set (g := jumbo_fec_guard _ _ _ _). set (cls := fec_class flags).
  pose proof (repair_count_policy f k cls Hf Hk) as Hrc.
  pose proof (policy_repairs_bound f k cls Hf ltac:(lia)) as Hpb.
  pose proof (wff_override f Hf) as Hov. pose proof (wff_min_r f Hf) as Hmin.
  assert (Hg : g = true -> k < 16).
  { unfold g, jumbo_fec_guard, mtu_tier_kFecProtectionK. intros H. bool_hyps. done. }
  unfold choose_repairs. destruct (repair_count f k cls) as [r0 f1]. cbn in Hrc. subst r0.
  set (r1 := match override_parity_ f with Some _ => _ | None => _ end).
  assert (H1 : 0 <= r1 /\ (r1 = 0 \/ k + r1 <= 256)).
  { unfold r1. destruct (override_parity_ f) as [ov|]; [|done]. cbn in Hov.
    destruct (_ && _); [|done]. unfold kFecMaxSymbols, u16 in *.
    destruct (Z.ltb_spec k 256); rewrite to_u16_id by (unfold u16; lia); lia. }
  destruct g; [|done]. specialize (Hg eq_refl).
  unfold kFecMaxSymbols. rewrite (to_u32_id (256 - k)) by (unfold u32; lia).
  destruct (negb _ && _ && _) eqn:E; [|done]. bool_hyps. cbn [fst].
  split; [apply to_u16_u16|lia].
Qed.

(** ** [on_frame] *)
Lemma frame_k_block f b :
  0 < symbol_size f -> (0 < length b)%nat ->
  frame_k f (len b) = Z.of_nat (block_k b (Z.to_nat (symbol_size f))).
Proof.
  intros Hs Hl. unfold frame_k, block_k.
  rewrite Nat2Z.inj_add, Nat2Z.inj_div, Nat2Z.inj_sub, Z2Nat.id by lia. done.
Qed.

Lemma symbol_size_pos f : wf_framer f -> 0 < symbol_size f <= 65535.
Proof.
  intros [] . unfold symbol_size.
  assert (H : u16 (effective_packet_budget f)) by (unfold effective_packet_budget; by case_test).
  unfold kDataHeaderSize, kFecRepairSubheaderSize, u16 in *.
  destruct (Z.gtb_spec (effective_packet_budget f - 26 - 11) 0); [|lia].
  rewrite to_u16_id by (unfold u16; lia). lia.
Qed.

Lemma source_rows_block b s :
  (0 < s)%nat -> (0 < length b)%nat ->
  source_rows (padded b s) (Z.of_nat s) (Z.of_nat (block_k b s)) = block_rows b s.
Proof. intros Hs Hl. unfold source_rows, block_rows. by rewrite !Nat2Z.id. Qed.

Lemma pad_memcpy b s :
  (0 < s)%nat -> (0 < length b)%nat ->
  memcpy (replicate (Z.to_nat (Z.of_nat (block_k b s) * Z.of_nat s)) 0) 0 b (length b)
  = Some (padded b s).
Proof.
  intros Hs Hl. pose proof (block_k_bounds b s Hs Hl) as Hk.
  rewrite Z2Nat.inj_mul, !Nat2Z.id by lia.
  unfold memcpy. rewrite length_replicate.
  destruct (Nat.leb_spec (0 + length b) (block_k b s * s)); [|lia].
  rewrite Nat.leb_refl, take_0, firstn_all, drop_replicate. done.
Qed.

Lemma resize_length l n : length (resize l n) = n.
Proof. unfold resize. rewrite length_app, length_take, length_replicate. lia. Qed.

Lemma resize_bytes l n : bytes l -> bytes (resize l n).
Proof.
  intros H. apply Forall_app. split; [by apply Forall_take|].
  apply Forall_replicate. unfold u8. lia.
Qed.

(** The flags byte of the blob's metadata. *)
Definition blob_flags (b : list Z) : Z := nth 5 b 0.

Lemma read_meta_flags b :
  (8 <= length b)%nat ->
  exists m, read_frame_meta (Some b) (len b) VencFrameMeta_init = Some (true, m) /\
    m.(flags) = blob_flags b.
Proof.
  intros Hl. unfold read_frame_meta, kVencFrameMetaSize.
  destruct (Z.ltb_spec (len b) 8); [lia|].
  do 8 (destruct b as [|? b]; [cbn in Hl; lia|]). cbn. eauto.
Qed.

Section OnFrame.
Context (f : FrameFramer) (b : list Z) (now : Z).
Let s := Z.to_nat (symbol_size f).
Let r := Z.to_nat (frame_repairs f (len b) (blob_flags b)).
Context (Hf : wf_framer f) (Hb : bytes b) (Hb8 : (8 <= length b)%nat) (Hb32 : u32 (len b)).
Context (Hs : symbol_size f <= 4085) (Hk : frame_k f (len b) <= 65535).

Lemma on_frame_spec :
  exists f', on_frame f (Some b) (len b) now
    = Some (true, f', block_packets f f.(block_id_) b s r now) /\
    f'.(cfg_) = f.(cfg_) /\ f'.(next_seq_) = to_u32 (f.(next_seq_) + Z.of_nat (block_k b s + r)) /\
    f'.(block_id_) = to_u32 (f.(block_id_) + 1) /\ f'.(override_parity_) = None /\
    f'.(extra_flags_) = f.(extra_flags_) /\ f'.(active_profile_) = f.(active_profile_) /\
    f'.(table_version_) = f.(table_version_) /\
    f'.(profile_max_payload_) = f.(profile_max_payload_) /\
    f'.(negotiated_packet_budget_) = f.(negotiated_packet_budget_) /\
    bytes f'.(src_payload_) /\ length f'.(frame_buf_) = 4122%nat.
Proof.
  pose proof (symbol_size_pos f Hf) as Hsp.
  assert (Hs0 : (0 < s)%nat) by (unfold s; lia).
  assert (Hl0 : (0 < length b)%nat) by lia.
  assert (Hsz : Z.of_nat s = symbol_size f) by (unfold s; lia).
  pose proof (frame_k_block f b ltac:(lia) Hl0) as Hkk. fold s in Hkk.
  pose proof (block_k_pos b s Hs0 Hl0) as Hk1.
  pose proof (frame_repairs_bound f (len b) (blob_flags b) Hf ltac:(lia)) as [Hr0 Hrk].
  destruct (read_meta_flags b Hb8) as (m & Hm & Hmf).
  unfold on_frame. unfold kVencFrameMetaSize at 1.
  destruct (Z.ltb_spec (len b) 8); [lia|].
  change (symbol_size (set_override f None)) with (symbol_size f).
  change (1 + (len b - 1) / symbol_size f) with (frame_k f (len b)).
  destruct (Z.gtb_spec (frame_k f (len b)) 65535); [lia|].
  rewrite (to_u16_id (frame_k f (len b))) by (unfold u16; lia).
  rewrite Hm. cbn [mbind option_bind]. rewrite Hmf.
  change (jumbo_fec_guard (set_override f None)) with (jumbo_fec_guard f).
  set (g := jumbo_fec_guard f (len b) (symbol_size f) (frame_k f (len b))).
  set (f0 := set_counters _ _ _).
  pose proof (choose_repairs_cfg f f0 (frame_k f (len b)) (fec_class (blob_flags b))
    (override_parity_ f) g eq_refl) as Hrr.
  pose proof (choose_repairs_state f0 (frame_k f (len b)) (fec_class (blob_flags b))
    (override_parity_ f) g) as [st Hst].
  destruct (choose_repairs f0 _ _ _ _) as [r' f1]. cbn [fst snd] in Hrr, Hst.
  change (choose_repairs f _ _ _ _).1 with (frame_repairs f (len b) (blob_flags b)) in Hrr.
  subst r' f1.
  set (r_ := frame_repairs f (len b) (blob_flags b)) in *.
  set (f2 := match fec_class (blob_flags b) with kP => _ | _ => _ end).
  assert (Hf2 : exists st', f2 = set_stats f0 st').
  { unfold f2. destruct (fec_class (blob_flags b)); cbn; eauto. }
  destruct Hf2 as [st' ->].
  set (f3 := set_buffers _ _ _).
  assert (Hsp4 : Z.to_nat (kFecSourceSubheaderSize + symbol_size f) = (4 + s)%nat).
  { unfold s, kFecSourceSubheaderSize. lia. }
  assert (Hsrc3 : length f3.(src_payload_) = (4 + s)%nat).
  { unfold f3. cbn [src_payload_ set_buffers]. by rewrite resize_length, Hsp4. }
  assert (Hwf3 : wf_framer f3).
  { destruct Hf. split; try done; unfold f3; cbn [src_payload_ set_buffers].
    - apply to_u32_u32.
    - by apply resize_bytes. }
  assert (Hpk : forall n y, block_packet f3 f.(block_id_) b s r now n y
    = block_packet f f.(block_id_) b s r now n y) by done.
  destruct (source_loop f3 f.(block_id_) b s r now Hwf3 Hb Hl0 Hs0 ltac:(lia)
    Hsrc3 ltac:(apply Hwf3) ltac:(apply Hwf3)) as (f4 & Hsl & Hat).
  assert (Er : Z.of_nat r = r_) by (unfold r, r_; lia).
  rewrite Er, Hsz in Hsl. rewrite !Hkk, !Nat2Z.id.
  change (extra_flags_ f0) with (extra_flags_ f3). change (block_id_ (set_override f None)) with (block_id_ f).
  rewrite Hsl. cbn [mbind option_bind].
  destruct (Z.eqb_spec r_ 0) as [Er0|Er0].
  - assert (r = 0%nat) as Hrz by lia. exists f4. cbn [fst snd]. split.
    + do 2 f_equal. unfold block_packets, block_symbols. rewrite Hrz. cbn [seq map].
      by rewrite app_nil_r.
    + rewrite Hrz, Nat.add_0_r. destruct Hat. split_and!; try done.
      by rewrite fa_buf0, (wff_buf _ Hwf3).
  - assert (Hslice : slice b 0 (length b) = Some b).
    { unfold slice. rewrite drop_0, firstn_all. by rewrite Nat.leb_refl. }
    rewrite Hslice. cbn [mbind option_bind]. rewrite <- Hsz, pad_memcpy by done. cbn [mbind option_bind].
    rewrite source_rows_block by done.
    replace (Z.to_nat (kFecRepairSubheaderSize + Z.of_nat s)) with (11 + s)%nat
      by (unfold kFecRepairSubheaderSize; lia).
    destruct (repair_loop f3 f.(block_id_) b s r now Hb Hl0 Hs0 ltac:(lia) Hb32
      f4 _ Hat ltac:(apply Hwf3) ltac:(lia) eq_refl) as (f5 & p & Hrl & Hat5).
    fold r. rewrite Er in Hrl. change (next_seq_ f0) with (next_seq_ f3).
    rewrite Hrl. cbn [mbind option_bind fst snd].
    exists f5. split; [done|]. destruct Hat5. split_and!; try done.
    by rewrite fa_buf0, (wff_buf _ Hwf3).
Qed.
End OnFrame.
