(* ===== verification/JsccLoss.v ===== *)
(** * Sliding-window quantile predictor
    ([core/include/wblink/jscc_loss_estimator.h],
    [core/src/jscc_loss_estimator.cpp]) *)
From stdpp Require Import sorting.
From S2P Require Import Prelude.

Record JsccLossEstimatorConfig : Type := MkJsccLossEstimatorConfig {
  window : Z;
  quantile_permille : Z;
  min_samples : Z;
  cold_start : Z
}.

Definition JsccLossEstimatorConfig_init : JsccLossEstimatorConfig :=
  MkJsccLossEstimatorConfig 120 950 20 0.

Record JsccLossEstimator : Type := MkJsccLossEstimator {
  je_cfg : JsccLossEstimatorConfig;
  samples_ : list Z
}.

(** [predict]: [None] is the read [ordered[rank - 1]] outside the deque. *)
Definition predict (e : JsccLossEstimator) : option Z :=
  let n := len e.(samples_) in
  if (n <? e.(je_cfg).(min_samples)) || (n =? 0) then Some e.(je_cfg).(cold_start)
  else
    let rank := Z.max 1 ((n * e.(je_cfg).(quantile_permille) + 999) / 1000) in
    let ordered := merge_sort Z.le e.(samples_) in
    ordered !! Z.to_nat (rank - 1).

Definition observe (e : JsccLossEstimator) (sample : Z) : JsccLossEstimator :=
  let samples := e.(samples_) ++ [sample] in
  MkJsccLossEstimator e.(je_cfg)
    (if len samples >? e.(je_cfg).(window) then drop 1 samples else samples).

Definition reset (e : JsccLossEstimator) : JsccLossEstimator :=
  MkJsccLossEstimator e.(je_cfg) [].

Definition sample_count (e : JsccLossEstimator) : Z := len e.(samples_).
