(* ===== verification/FrameReassembler.v ===== *)
(** * Frame reassembler ([core/include/wblink/frame_reassembler.h],
    [core/src/frame_reassembler.cpp])

    Collects the symbols of each block and emits one blob per block.  The two
    callbacks of the class are modelled as what they can do to it: [emit] is a
    function of an environment that answers whether the egress accepted the
    frame, and a salvage hook is a program that calls [emit] any number of
    times ([HookProg]).  Every call is recorded in [em_log]. *)
From S2P Require Import Prelude Endian Types Rlc SMap FrameShm JsccLoss.

Record FrameReassemblerConfig : Type := MkFrameReassemblerConfig {
  deadline_ms : Z;
  max_blocks_ahead : Z;
  max_frame_bytes : Z
}.

Definition FrameReassemblerConfig_init : FrameReassemblerConfig :=
  MkFrameReassemblerConfig 50 0 (640 * 1024).

(** The counters of [FrameReassemblerStats]. *)
Inductive RxStat : Type :=
| frames_delivered | frames_fast | frames_fec | frames_egress_rejected
| fec_recovered_source_symbols | frames_fec_only | frames_superseded
| frames_deadline | frames_unrecoverable | frames_salvaged | frames_frozen
| salvage_failed | slices_synthesized | decode_failures | malformed
| jscc_shadow_blocks | jscc_predicted_loss_symbols | jscc_observed_loss_symbols
| jscc_underpredicted_blocks | jscc_predicted_parity_symbols
| jscc_predicted_repair_symbols | jscc_observed_repair_symbols
| jscc_repair_underpredicted_blocks | jscc_repair_demand_censored_blocks
| jscc_repair_predicted_parity_symbols.
#[export] Instance RxStat_eq_dec : EqDecision RxStat.
Proof. solve_decision. Defined.

Definition FrameReassemblerStats : Type := RxStat -> Z.
Definition stats_zero : FrameReassemblerStats := fun _ => 0.
Definition stat_put (st : FrameReassemblerStats) (c : RxStat) (v : Z)
  : FrameReassemblerStats := fun c' => if decide (c' = c) then v else st c'.
Definition stat_add (st : FrameReassemblerStats) (c : RxStat) (n : Z)
  : FrameReassemblerStats := stat_put st c (to_u64 (st c + n)).
Definition stat_inc st c := stat_add st c 1.

Record JsccRepairFeedbackState : Type := MkJsccRepairFeedbackState {
  repair_demand_permille : Z;
  repair_samples : Z;
  observed_block_id : Z;
  repair_ready : bool;
  have_observation : bool
}.

Record RepairCandidate : Type := MkRepairCandidate {
  rc_block_id : Z;
  rc_k : Z;
  rc_unique : Z;
  rc_have_eob : bool;
  rc_first_ms : Z;
  rc_last_new_ms : Z;
  rc_eob_ms : Z;
  rc_missing_sources : list Z;
  rc_have_repairs : list Z
}.

Record SalvageView : Type := MkSalvageView {
  sv_block_id : Z;
  sv_k : Z;
  sv_s : Z;
  sv_frame_len : Z;
  sv_sources : smap (list Z)
}.

(** A callback's behaviour: calls to [emit], each continued on its answer. *)
Inductive HookProg (R : Type) : Type :=
| HRet (r : R)
| HEmit (frame : list Z) (cont : bool -> HookProg R).
Arguments HRet {R}.
Arguments HEmit {R}.

Record Block : Type := MkBlock {
  b_k : Z;
  b_s : Z;
  b_frame_len : Z;
  b_first_ms : Z;
  b_last_new_ms : Z;
  b_eob_ms : Z;
  b_have_eob : bool;
  b_shadow_armed : bool;
  b_shadow_prediction : Z;
  b_repair_prediction : Z;
  b_sources : smap (list Z);
  b_repairs : smap (list Z);
  b_air_sources : smap unit;
  b_air_repairs : smap unit
}.

Definition Block_init (now_ms : Z) : Block :=
  MkBlock 0 0 0 now_ms 0 0 false false 0 0 [] [] [] [].

Definition set_geometry (b : Block) k s frame_len : Block :=
  MkBlock k s frame_len b.(b_first_ms) b.(b_last_new_ms) b.(b_eob_ms) b.(b_have_eob)
    b.(b_shadow_armed) b.(b_shadow_prediction) b.(b_repair_prediction)
    b.(b_sources) b.(b_repairs) b.(b_air_sources) b.(b_air_repairs).
Definition set_eob (b : Block) (eob : bool) (now_ms : Z) : Block :=
  if eob && negb b.(b_have_eob) then
    MkBlock b.(b_k) b.(b_s) b.(b_frame_len) b.(b_first_ms) b.(b_last_new_ms) now_ms true
      b.(b_shadow_armed) b.(b_shadow_prediction) b.(b_repair_prediction)
      b.(b_sources) b.(b_repairs) b.(b_air_sources) b.(b_air_repairs)
  else b.
Definition set_shadow (b : Block) (armed : bool) shadow repair : Block :=
  MkBlock b.(b_k) b.(b_s) b.(b_frame_len) b.(b_first_ms) b.(b_last_new_ms) b.(b_eob_ms)
    b.(b_have_eob) armed shadow repair
    b.(b_sources) b.(b_repairs) b.(b_air_sources) b.(b_air_repairs).
Definition set_symbols (b : Block) last_new sources repairs air_sources air_repairs : Block :=
  MkBlock b.(b_k) b.(b_s) b.(b_frame_len) b.(b_first_ms) last_new b.(b_eob_ms)
    b.(b_have_eob) b.(b_shadow_armed) b.(b_shadow_prediction) b.(b_repair_prediction)
    sources repairs air_sources air_repairs.

(** Wrap-safe block order. *)
Definition bid_diff (a b : Z) : Z := to_i32 (a - b).

Inductive SalvageOutcome : Type := kUnavailable | kAccepted | kRejected.

Section Reassembler.
Context {HS E : Type}.

Record FrameReassembler : Type := MkFrameReassembler {
  fr_cfg : FrameReassemblerConfig;
  fr_stats : FrameReassemblerStats;
  salvage_ : option (HS -> SalvageView -> HookProg (HS * bool));
  blocks_ : smap Block;
  highest_block_ : Z;
  have_highest_ : bool;
  last_emitted_ : Z;
  have_emitted_ : bool;
  finalized_upto_ : Z;
  have_finalized_ : bool;
  loss_estimator_ : JsccLossEstimator;
  repair_estimator_ : JsccLossEstimator;
  latest_observed_block_ : Z;
  have_observed_block_ : bool
}.

Definition FrameReassembler_init (cfg : FrameReassemblerConfig) : FrameReassembler :=
  MkFrameReassembler cfg stats_zero None [] 0 false 0 false 0 false
    (MkJsccLossEstimator JsccLossEstimatorConfig_init [])
    (MkJsccLossEstimator (MkJsccLossEstimatorConfig 120 1000 20 100) []) 0 false.

Definition set_salvage_hook (t : FrameReassembler) hook : FrameReassembler :=
  MkFrameReassembler t.(fr_cfg) t.(fr_stats) (Some hook) t.(blocks_) t.(highest_block_)
    t.(have_highest_) t.(last_emitted_) t.(have_emitted_) t.(finalized_upto_)
    t.(have_finalized_) t.(loss_estimator_) t.(repair_estimator_)
    t.(latest_observed_block_) t.(have_observed_block_).
Definition with_stats (t : FrameReassembler) st : FrameReassembler :=
  MkFrameReassembler t.(fr_cfg) st t.(salvage_) t.(blocks_) t.(highest_block_)
    t.(have_highest_) t.(last_emitted_) t.(have_emitted_) t.(finalized_upto_)
    t.(have_finalized_) t.(loss_estimator_) t.(repair_estimator_)
    t.(latest_observed_block_) t.(have_observed_block_).
Definition with_blocks (t : FrameReassembler) blocks : FrameReassembler :=
  MkFrameReassembler t.(fr_cfg) t.(fr_stats) t.(salvage_) blocks t.(highest_block_)
    t.(have_highest_) t.(last_emitted_) t.(have_emitted_) t.(finalized_upto_)
    t.(have_finalized_) t.(loss_estimator_) t.(repair_estimator_)
    t.(latest_observed_block_) t.(have_observed_block_).
Definition with_highest (t : FrameReassembler) id : FrameReassembler :=
  MkFrameReassembler t.(fr_cfg) t.(fr_stats) t.(salvage_) t.(blocks_) id
    true t.(last_emitted_) t.(have_emitted_) t.(finalized_upto_)
    t.(have_finalized_) t.(loss_estimator_) t.(repair_estimator_)
    t.(latest_observed_block_) t.(have_observed_block_).
Definition with_emitted (t : FrameReassembler) id : FrameReassembler :=
  MkFrameReassembler t.(fr_cfg) t.(fr_stats) t.(salvage_) t.(blocks_) t.(highest_block_)
    t.(have_highest_) id true t.(finalized_upto_)
    t.(have_finalized_) t.(loss_estimator_) t.(repair_estimator_)
    t.(latest_observed_block_) t.(have_observed_block_).
Definition with_finalized (t : FrameReassembler) id : FrameReassembler :=
  MkFrameReassembler t.(fr_cfg) t.(fr_stats) t.(salvage_) t.(blocks_) t.(highest_block_)
    t.(have_highest_) t.(last_emitted_) t.(have_emitted_) id
    true t.(loss_estimator_) t.(repair_estimator_)
    t.(latest_observed_block_) t.(have_observed_block_).
Definition with_observation (t : FrameReassembler) loss repair id : FrameReassembler :=
  MkFrameReassembler t.(fr_cfg) t.(fr_stats) t.(salvage_) t.(blocks_) t.(highest_block_)
    t.(have_highest_) t.(last_emitted_) t.(have_emitted_) t.(finalized_upto_)
    t.(have_finalized_) loss repair id true.

Definition count (t : FrameReassembler) (c : RxStat) : FrameReassembler :=
  with_stats t (stat_inc t.(fr_stats) c).

(** ** Emission *)
Context (emit : E -> list Z -> E * bool).

(** One call of [emit]: the block it is made for, the frame, the answer. *)
Record Call : Type := MkCall { c_block : Z; c_frame : list Z; c_ok : bool }.

(** The callbacks' state, [push]'s [emission_attempted], and the record of the
    calls made (for specifications only: no operation reads it). *)
Record Em : Type := MkEm {
  em_env : E;
  em_hook : HS;
  em_attempted : bool;
  em_log : list Call
}.

(** [tracked_emit] of [push]. *)
Definition call_emit (em : Em) (id : Z) (frame : list Z) : Em * bool :=
  let '(e, ok) := emit em.(em_env) frame in
  (MkEm e em.(em_hook) true (em.(em_log) ++ [MkCall id frame ok]), ok).

(** Runs a hook under the [tracked_emit] of [try_salvage]: the result with
    [attempted] and [accepted]. *)
Fixpoint run_hook {R} (id : Z) (p : HookProg R) (em : Em) (attempted accepted : bool)
  : Em * R * bool * bool :=
  match p with
  | HRet r => (em, r, attempted, accepted)
  | HEmit frame cont =>
    let '(em, ok) := call_emit em id frame in run_hook id (cont ok) em true ok
  end.

Definition note_emitted (t : FrameReassembler) (id : Z) : FrameReassembler :=
  if negb t.(have_emitted_) || (bid_diff id t.(last_emitted_) >? 0)
  then with_emitted t id else t.

Definition finalize (t : FrameReassembler) (id : Z) : FrameReassembler :=
  if negb t.(have_finalized_) || (bid_diff id t.(finalized_upto_) >? 0)
  then with_finalized t id else t.

Definition try_salvage (t : FrameReassembler) (em : Em) (id : Z) (b : Block)
  : SalvageOutcome * FrameReassembler * Em :=
  match t.(salvage_) with
  | None => (kUnavailable, t, em)
  | Some hook =>
    if (b.(b_k) =? 0) || (len b.(b_sources) =? 0) then (kUnavailable, t, em) else
    if t.(have_emitted_) && (bid_diff id t.(last_emitted_) <=? 0)
    then (kUnavailable, t, em) else
    let view := MkSalvageView id b.(b_k) b.(b_s) b.(b_frame_len) b.(b_sources) in
    let '(em, (hs, repaired), attempted, accepted) :=
      run_hook id (hook em.(em_hook) view) em false false in
    let em := MkEm em.(em_env) hs em.(em_attempted) em.(em_log) in
    if attempted && negb accepted
    then (kRejected, count t frames_egress_rejected, em)
    else if negb repaired || negb attempted then (kUnavailable, t, em)
    else (kAccepted, count (count (note_emitted t id) frames_delivered) frames_salvaged, em)
  end.

(** [observe_shadow]; the cleared [shadow_armed] belongs to a block every
    caller then erases. *)
Definition observe_shadow (t : FrameReassembler) (id : Z) (b : Block) : FrameReassembler :=
  if negb b.(b_shadow_armed) || (b.(b_k) =? 0) then t else
  let observed := to_u16 (b.(b_k) - Z.min (len b.(b_air_sources)) b.(b_k)) in
  let repairs_seen := to_u16 (len b.(b_air_repairs)) in
  let emitted_so_far :=
    match sm_max_key b.(b_air_repairs) with None => 0 | Some m => to_u16 (m + 1) end in
  let demand_censored := repairs_seen <? observed in
  let repair_demand :=
    if demand_censored
    then to_u16 (Z.min 0xFFFF (to_u32 (emitted_so_far + observed - repairs_seen)))
    else if observed =? 0 then 0 else emitted_so_far in
  let st := t.(fr_stats) in
  let st := stat_put st jscc_predicted_loss_symbols b.(b_shadow_prediction) in
  let st := stat_put st jscc_observed_loss_symbols observed in
  let st := stat_add st jscc_underpredicted_blocks
              (Z.b2z (b.(b_shadow_prediction) <? observed)) in
  let st := stat_add st jscc_predicted_parity_symbols b.(b_shadow_prediction) in
  let st := stat_put st jscc_predicted_repair_symbols b.(b_repair_prediction) in
  let st := stat_put st jscc_observed_repair_symbols repair_demand in
  let st := stat_add st jscc_repair_underpredicted_blocks
              (Z.b2z (b.(b_repair_prediction) <? repair_demand)) in
  let st := stat_add st jscc_repair_demand_censored_blocks (Z.b2z demand_censored) in
  let st := stat_add st jscc_repair_predicted_parity_symbols b.(b_repair_prediction) in
  let st := stat_inc st jscc_shadow_blocks in
  let demand_rate := to_u32 (to_u32 (repair_demand * 1000) + b.(b_k) - 1) / b.(b_k) in
  with_observation (with_stats t st) (observe t.(loss_estimator_) observed)
    (observe t.(repair_estimator_) demand_rate) id.

(** ** Completion *)

(** The fast path's length loop: [None] when the sum passes the cap. *)
Fixpoint sum_chunks (cap : Z) (sources : smap (list Z)) (frame_len : Z) : option Z :=
  match sources with
  | [] => Some frame_len
  | (_, c) :: sources =>
    if len c >? to_u64 (cap - frame_len) then None
    else sum_chunks cap sources (frame_len + len c)
  end.

(** [std::fill(pad, 0); memcpy(pad, chunk, min(chunk.size(), s))]. *)
Definition pad_chunk (s : nat) (c : list Z) : option (list Z) :=
  memcpy (replicate s 0) 0 c (Nat.min (length c) s).

Definition feed_source (s : nat) (dec : RlcDecoder) (kv : Z * list Z) : option RlcDecoder :=
  pad ← pad_chunk s kv.2; add_source dec kv.1 pad.

Definition feed_repair (s : nat) (dec : RlcDecoder) (kv : Z * list Z) : option RlcDecoder :=
  if (s <=? length kv.2)%nat then add_repair dec kv.1 kv.2 else Some dec.

Definition resize_buf (l : list Z) (n : nat) : list Z :=
  take n l ++ replicate (n - length l) 0.

(** [try_complete]: whether the block is finished (the caller erases it). *)
Definition try_complete (t : FrameReassembler) (em : Em) (id : Z) (b : Block)
  : option (bool * FrameReassembler * Em) :=
  if b.(b_k) =? 0 then Some (false, t, em) else
  let k := b.(b_k) in
  if len b.(b_sources) =? k then
    match sum_chunks t.(fr_cfg).(max_frame_bytes) b.(b_sources) 0 with
    | None => Some (true, finalize (count t malformed) id, em)
    | Some frame_len =>
      if frame_len <? kVencFrameMetaSize
      then Some (true, finalize (count t malformed) id, em)
      else
        let scratch := concat (map snd b.(b_sources)) in
        let '(em, accepted) := call_emit em id scratch in
        let t := observe_shadow t id b in
        let t := if accepted
                 then count (count (note_emitted t id) frames_delivered) frames_fast
                 else count t frames_egress_rejected in
        Some (true, finalize t id, em)
    end
  else if (to_u16 (len b.(b_sources) + len b.(b_repairs)) >=? k)
          && (b.(b_s) >? 0) && (b.(b_frame_len) >? 0)
          && (b.(b_frame_len) <=? t.(fr_cfg).(max_frame_bytes))
  then
    let s := Z.to_nat b.(b_s) in
    dec ← foldM (feed_source s) b.(b_sources) (RlcDecoder_init k s);
    dec ← foldM (feed_repair s) b.(b_repairs) dec;
    if can_decode dec then
      '(ok, scratch) ← decode dec (replicate (Z.to_nat k * s) 0);
      if ok : bool then
        let scratch := resize_buf scratch (Z.to_nat b.(b_frame_len)) in
        let '(em, accepted) := call_emit em id scratch in
        let t := observe_shadow t id b in
        let t :=
          if accepted then
            let t := note_emitted t id in
            let t := with_stats t (stat_add t.(fr_stats) fec_recovered_source_symbols
                                     (to_u64 (k - len b.(b_sources)))) in
            count (count (count t frames_fec_only) frames_delivered) frames_fec
          else count t frames_egress_rejected in
        Some (true, finalize t id, em)
      else Some (false, count t decode_failures, em)
    else Some (false, t, em)
  else Some (false, t, em).

(** ** Dropping blocks *)

(** The body of the two loops that give up on a block. *)
Definition drop_block (reason : RxStat) (t : FrameReassembler) (em : Em) (id : Z) (b : Block)
  : FrameReassembler * Em :=
  let '(t, em) :=
    if (b.(b_k) =? 0) || (len b.(b_sources) + len b.(b_repairs) <? b.(b_k)) then
      let '(outcome, t, em) := try_salvage t em id b in
      match outcome with
      | kUnavailable => (count (count t frames_unrecoverable) reason, em)
      | _ => (t, em)
      end
    else (count t reason, em) in
  (finalize (observe_shadow t id b) id, em).

(** One pass over the map in key order; [due] tells which blocks to drop. *)
Fixpoint sweep (due : Z -> Block -> bool) (reason : RxStat) (entries : smap Block)
    (t : FrameReassembler) (em : Em) : smap Block * FrameReassembler * Em :=
  match entries with
  | [] => ([], t, em)
  | (id, b) :: entries =>
    if due id b then
      let '(t, em) := drop_block reason t em id b in sweep due reason entries t em
    else
      let '(kept, t, em) := sweep due reason entries t em in ((id, b) :: kept, t, em)
  end.

Definition supersede (t : FrameReassembler) (em : Em) (new_highest : Z)
  : FrameReassembler * Em :=
  let '(kept, t, em) :=
    sweep (fun id _ => bid_diff new_highest id >? to_i32 t.(fr_cfg).(max_blocks_ahead))
          frames_superseded t.(blocks_) t em in
  (with_blocks t kept, em).

Definition tick (t : FrameReassembler) (em : Em) (now_ms : Z) : FrameReassembler * Em :=
  let '(kept, t, em) :=
    sweep (fun _ b => now_ms >=? to_u64 (b.(b_first_ms) + t.(fr_cfg).(deadline_ms)))
          frames_deadline t.(blocks_) t em in
  (with_blocks t kept, em).

(** ** Receiving a symbol *)

(** The repair branch of [push]: the block afterwards, and whether the symbol
    was well formed. *)
Definition push_repair (max_bytes : Z) (b : Block) (payload : ptr) (payload_len now_ms : Z)
    (eob air_path : bool) : option (Block * bool) :=
  if payload_len <=? kFecRepairSubheaderSize then Some (b, false) else
  p ← payload;
  k ← be16_read p kFecOffWindowLen;
  flen ← be32_read p kFecOffFrameLen;
  ridx ← rd8 p kFecOffRepairIdx;
  let coded := payload_len - kFecRepairSubheaderSize in
  if (k =? 0) || (k >? kFecMaxSymbols) || (flen <? kVencFrameMetaSize)
     || (flen >? max_bytes) || (coded =? 0) || (coded >? kMaxDataPayload)
     || (k + ridx >=? kFecMaxSymbols)
  then Some (b, false) else
  if (negb (b.(b_k) =? 0) && negb (b.(b_k) =? k))
     || (negb (b.(b_frame_len) =? 0) && negb (b.(b_frame_len) =? flen))
     || (negb (b.(b_s) =? 0) && negb (b.(b_s) =? coded))
  then Some (b, false) else
  let b := set_geometry b k (to_u16 coded) flen in
  let air := if air_path then (sm_emplace ridx tt b.(b_air_repairs)).1
             else b.(b_air_repairs) in
  let b := set_eob b eob now_ms in
  bytes ← slice p (Z.to_nat kFecRepairSubheaderSize) (Z.to_nat coded);
  let '(repairs, fresh) := sm_emplace ridx bytes b.(b_repairs) in
  Some (set_symbols b (if fresh : bool then now_ms else b.(b_last_new_ms))
          b.(b_sources) repairs b.(b_air_sources) air, true).

(** The source branch of [push]: [k] and [s] may already be recorded when a
    later check rejects the symbol. *)
Definition push_source (max_bytes : Z) (b : Block) (payload : ptr) (payload_len now_ms : Z)
    (eob air_path : bool) : option (Block * bool) :=
  if payload_len <? kFecSourceSubheaderSize then Some (b, false) else
  p ← payload;
  k ← be16_read p kFecSrcOffWindowLen;
  idx ← be16_read p kFecSrcOffSymIndex;
  let min_frame_len := if k >? 1 then (k - 1) * kMinFrameSymbolSize + 1 else 1 in
  if (k =? 0) || (idx >=? k) || (min_frame_len >? max_bytes)
     || (negb (b.(b_k) =? 0) && negb (b.(b_k) =? k))
  then Some (b, false) else
  let b := set_geometry b k b.(b_s) b.(b_frame_len) in
  let clen := payload_len - kFecSourceSubheaderSize in
  if (clen =? 0) || (clen >? kMaxDataPayload)
     || (negb (b.(b_s) =? 0) &&
         ((negb (idx =? k - 1) && negb (clen =? b.(b_s)))
          || ((idx =? k - 1) && (clen >? b.(b_s)))))
  then Some (b, false) else
  let b := if negb (idx =? k - 1) && (b.(b_s) =? 0)
           then set_geometry b k (to_u16 clen) b.(b_frame_len) else b in
  if (k >? 1) && (b.(b_s) >? 0) && ((k - 1) * b.(b_s) + 1 >? max_bytes)
  then Some (b, false) else
  let b := set_eob b eob now_ms in
  let air := if air_path then (sm_emplace idx tt b.(b_air_sources)).1
             else b.(b_air_sources) in
  bytes ← slice p (Z.to_nat kFecSourceSubheaderSize) (Z.to_nat clen);
  let '(sources, fresh) := sm_emplace idx bytes b.(b_sources) in
  Some (set_symbols b (if fresh : bool then now_ms else b.(b_last_new_ms))
          sources b.(b_repairs) air b.(b_air_repairs), true).

(** Arming the shadow predictors when the block has its first valid symbol. *)
Definition arm_shadow (t : FrameReassembler) (b : Block) : option Block :=
  if b.(b_shadow_armed) then Some b else
  loss ← predict t.(loss_estimator_);
  rate ← predict t.(repair_estimator_);
  Some (set_shadow b true (to_u16 (Z.min loss 0xFFFF))
          (to_u16 (Z.min ((rate * b.(b_k) + 999) / 1000) 0xFFFF))).

(** [push]: the returned flag, the reassembler and the callbacks' state. *)
Definition push (t : FrameReassembler) (em : Em) (block_id flags : Z) (payload : ptr)
    (payload_len now_ms : Z) (air_path : bool)
  : option (bool * FrameReassembler * Em) :=
  if t.(have_finalized_) && (bid_diff block_id t.(finalized_upto_) <=? 0)
  then Some (false, t, em) else
  let em := MkEm em.(em_env) em.(em_hook) false em.(em_log) in
  let is_repair := negb (Z.land flags data_flags_kFecRepair =? 0) in
  let eob := negb (Z.land flags data_flags_kEndOfBlock =? 0) in
  let t := with_blocks t (sm_emplace block_id (Block_init now_ms) t.(blocks_)).1 in
  b ← sm_find block_id t.(blocks_);
  '(b, ok) ← (if is_repair : bool
              then push_repair t.(fr_cfg).(max_frame_bytes) b payload payload_len now_ms eob air_path
              else push_source t.(fr_cfg).(max_frame_bytes) b payload payload_len now_ms eob air_path);
  let t := with_blocks t (sm_assign block_id b t.(blocks_)) in
  if negb ok then Some (false, count t malformed, em) else
  let '(t, em) :=
    if negb t.(have_highest_) || (bid_diff block_id t.(highest_block_) >? 0)
    then supersede (with_highest t block_id) em block_id
    else (t, em) in
  match sm_find block_id t.(blocks_) with
  | None => Some (em.(em_attempted), t, em)
  | Some b =>
    b ← arm_shadow t b;
    let t := with_blocks t (sm_assign block_id b t.(blocks_)) in
    '(done, t, em) ← try_complete t em block_id b;
    let t := if done : bool then with_blocks t (sm_erase block_id t.(blocks_)) else t in
    Some (em.(em_attempted), t, em)
  end.

(** ** Snapshots and resets *)

(** [bits[i / 8] |= 1 << (i % 8)]. *)
Definition set_bit (bits : list Z) (i : Z) : list Z :=
  let j := Z.to_nat (i / 8) in
  <[j := to_u8 (Z.lor (nth j bits 0) (Z.shiftl 1 (i mod 8)))]> bits.

Definition candidate_of (id : Z) (b : Block) : RepairCandidate :=
  let unique := len b.(b_sources) + len b.(b_repairs) in
  let missing :=
    fold_left (fun bits i => if sm_mem i b.(b_sources) then bits else set_bit bits i)
      (map Z.of_nat (seq 0 (Z.to_nat b.(b_k)))) (replicate 32 0) in
  let repairs := fold_left (fun bits kv => set_bit bits kv.1) b.(b_repairs) (replicate 32 0) in
  MkRepairCandidate id b.(b_k) (to_u16 unique) b.(b_have_eob) b.(b_first_ms)
    b.(b_last_new_ms) b.(b_eob_ms) missing repairs.

Fixpoint collect_candidates (entries : smap Block) (cap : nat) : list RepairCandidate :=
  match cap, entries with
  | O, _ | _, [] => []
  | S cap', (id, b) :: entries =>
    let unique := len b.(b_sources) + len b.(b_repairs) in
    if (b.(b_k) =? 0) || (b.(b_k) >? kFecMaxSymbols) || (unique >=? b.(b_k))
    then collect_candidates entries cap
    else candidate_of id b :: collect_candidates entries cap'
  end.

Definition repair_candidates (t : FrameReassembler) (cap : nat) : list RepairCandidate :=
  collect_candidates t.(blocks_) cap.

Definition jscc_feedback (t : FrameReassembler) : option JsccRepairFeedbackState :=
  demand ← predict t.(repair_estimator_);
  Some (MkJsccRepairFeedbackState (to_u16 (Z.min demand 0xFFFF))
          (to_u16 (Z.min (sample_count t.(repair_estimator_)) 0xFFFF))
          t.(latest_observed_block_) (sample_count t.(repair_estimator_) >=? 20)
          t.(have_observed_block_)).

Definition reset_stats (t : FrameReassembler) : FrameReassembler :=
  MkFrameReassembler t.(fr_cfg) stats_zero t.(salvage_)
    (map (fun e => (e.1, set_shadow e.2 true 0
                           (to_u16 (to_u32 (100 * e.2.(b_k) + 999) / 1000)))) t.(blocks_))
    t.(highest_block_) t.(have_highest_) t.(last_emitted_) t.(have_emitted_)
    t.(finalized_upto_) t.(have_finalized_)
    (reset t.(loss_estimator_)) (reset t.(repair_estimator_)) 0 false.

Definition reset_stream (t : FrameReassembler) : FrameReassembler :=
  MkFrameReassembler t.(fr_cfg) stats_zero t.(salvage_) [] 0 false 0 false 0 false
    (reset t.(loss_estimator_)) (reset t.(repair_estimator_)) 0 false.
End Reassembler.

Arguments FrameReassembler : clear implicits.
Arguments Em : clear implicits.
