(* ===== verification/ReassemblerFacts.v ===== *)
(** * Receiving the symbols of a block: lemmas

    The reassembler's record of a block whose symbols [R] arrived, the push of
    one more symbol, and the completion test, against [FrameSpec.v]. *)
From stdpp Require Import sorting.
From S2P Require Import Prelude Endian Types Wire Gf256 GfField Rlc RlcProps SMap FrameShm FrameFramer FrameSpec JsccLoss FrameReassembler.
(** ** Maps listed by a filter of an index range *)
Section Canon.
Context {V : Type} (f : nat -> V).

Definition canon (l : list nat) : smap V := map (fun i => (Z.of_nat i, f i)) l.

Lemma canon_find l i : i ∈ l -> sm_find (Z.of_nat i) (canon l) = Some (f i).
Proof.
  induction l as [|j l IH]; [set_solver|]. cbn. intros Hi.
  destruct (Z.eqb_spec (Z.of_nat i) (Z.of_nat j)) as [E|E].
  - by apply Nat2Z.inj in E as ->.
  - apply IH. apply elem_of_cons in Hi as [->|]; done.
Qed.

Lemma canon_find_none l z : (forall i, i ∈ l -> Z.of_nat i <> z) -> sm_find z (canon l) = None.
Proof.
  induction l as [|j l IH]; [done|]. cbn. intros H.
  destruct (Z.eqb_spec z (Z.of_nat j)) as [->|E].
  - by destruct (H j); [set_solver|].
  - apply IH. intros i Hi. apply H. set_solver.
Qed.

Lemma canon_sorted l : StronglySorted lt l -> sm_sorted (canon l).
Proof.
  induction 1 as [|i l Hl IH Hi]; [constructor|]. apply sm_sorted_cons. split; [done|].
  intros e He. apply list_elem_of_In, in_map_iff in He as (j & <- & Hj).
  eapply Forall_forall in Hi; [|by apply list_elem_of_In]. cbn. lia.
Qed.

Lemma seq_sorted n m : StronglySorted lt (seq n m).
Proof.
  revert n. induction m as [|m IH]; intros n; cbn; constructor; [done|].
  apply Forall_forall. intros i Hi. apply elem_of_seq in Hi. lia.
Qed.

Lemma filter_sorted (P : nat -> Prop) {dP : forall x, Decision (P x)} l :
  StronglySorted lt l -> StronglySorted lt (filter P l).
Proof.
  induction 1 as [|i l Hl IH Hi]; [constructor|]. rewrite filter_cons.
  destruct (decide (P i)); [|done]. constructor; [done|].
  apply Forall_forall. intros j Hj. apply list_elem_of_filter in Hj as [_ Hj].
  by eapply Forall_forall in Hi.
Qed.

(** [emplace] of one more index. *)
Lemma canon_emplace (P Q : nat -> Prop) {dP : forall x, Decision (P x)}
    {dQ : forall x, Decision (Q x)} n i :
  (i < n)%nat -> (forall j, Q j <-> P j \/ j = i) ->
  (sm_emplace (Z.of_nat i) (f i) (canon (filter P (seq 0 n)))).1
  = canon (filter Q (seq 0 n)).
Proof.
  intros Hi HQ.
  assert (Hs : forall (R : nat -> Prop) {dR : forall x, Decision (R x)},
    sm_sorted (canon (filter R (seq 0 n)))).
  { intros. apply canon_sorted, filter_sorted, seq_sorted. }
  apply sm_ext; [by apply sm_emplace_sorted|done|].
  intros z. rewrite sm_find_emplace by done.
  destruct (decide (0 <= z < Z.of_nat n)) as [Hz|Hz].
  - assert (Hex : exists j, z = Z.of_nat j /\ (j < n)%nat) by (exists (Z.to_nat z); lia).
    destruct Hex as (j & -> & Hj).
    destruct (decide (P j)) as [HP|HP].
    + rewrite !canon_find; [done|apply list_elem_of_filter; split; [by apply HQ; left|by apply seq0_elem]|].
      apply list_elem_of_filter. split; [done|by apply seq0_elem].
    + rewrite (canon_find_none (filter P (seq 0 n))).
      2: { intros j' [HP' _]%list_elem_of_filter E. apply Nat2Z.inj in E as ->. done. }
      destruct (Z.eqb_spec (Z.of_nat j) (Z.of_nat i)) as [E|E].
      * apply Nat2Z.inj in E as ->. rewrite canon_find; [done|].
        apply list_elem_of_filter. split; [by apply HQ; right|by apply seq0_elem].
      * rewrite canon_find_none; [done|].
        intros j' [HQ' _]%list_elem_of_filter E'. apply Nat2Z.inj in E' as ->.
        apply HQ in HQ' as [?| ->]; done.
  - assert (Hn : forall (R : nat -> Prop) {dR : forall x, Decision (R x)},
      sm_find z (canon (filter R (seq 0 n))) = None).
    { intros. apply canon_find_none. intros j [_ Hj%seq0_elem]%list_elem_of_filter E.
      lia. }
    rewrite !Hn. destruct (Z.eqb_spec z (Z.of_nat i)); [lia|done].
Qed.
End Canon.

Section Block.
Context (b : list Z) (s : nat) (base_seq : Z) (max_bytes : Z).
Context (Hb : bytes b) (Hb8 : (8 <= length b)%nat) (Hmax : len b <= max_bytes).
Context (Hmax32 : u32 max_bytes).
Context (Hs : (21 <= s)%nat) (Hs2 : Z.of_nat s <= 4085).
Context (Hk : Z.of_nat (block_k b s) <= 65535) (Hseq : u32 base_seq).

Let k := block_k b s.

(** A symbol a sender can ship: repairs only when [k + r <= 256]. *)
Definition sendable (y : Sym) : Prop := sym_valid k y.

Definition src_idx (R : list Sym) : list nat := filter (fun i => Src i ∈ R) (seq 0 k).
Definition rep_idx (R : list Sym) : list nat := filter (fun j => Rep j ∈ R) (seq 0 256).

(** What the received symbols tell of the geometry. *)
Definition knows_s (y : Sym) : Prop :=
  match y with Src i => i <> (k - 1)%nat | Rep _ => True end.
Definition is_rep (y : Sym) : Prop := match y with Src _ => False | Rep _ => True end.
#[export] Instance knows_s_dec y : Decision (knows_s y).
Proof. destruct y; cbn; apply _. Defined.
#[export] Instance is_rep_dec y : Decision (is_rep y).
Proof. destruct y; cbn; apply _. Defined.

Record matches (R : list Sym) (blk : Block) : Prop := {
  m_k : blk.(b_k) = if decide (R = []) then 0 else Z.of_nat k;
  m_s : blk.(b_s) = if decide (Exists knows_s R) then Z.of_nat s else 0;
  m_len : blk.(b_frame_len) = if decide (Exists is_rep R) then len b else 0;
  m_sources : blk.(b_sources) = canon (chunk b s) (src_idx R);
  m_repairs : blk.(b_repairs) = canon (coded b s) (rep_idx R)
}.

Lemma src_idx_nil : src_idx [] = [].
Proof.
  unfold src_idx. induction (seq 0 k) as [|i l IH]; [done|].
  by rewrite filter_cons_False by apply not_elem_of_nil.
Qed.

Lemma matches_init now : matches [] (Block_init now).
Proof. split; try reflexivity. by rewrite src_idx_nil. Qed.

Lemma matches_ext R blk blk' :
  blk'.(b_k) = blk.(b_k) -> blk'.(b_s) = blk.(b_s) -> blk'.(b_frame_len) = blk.(b_frame_len) ->
  blk'.(b_sources) = blk.(b_sources) -> blk'.(b_repairs) = blk.(b_repairs) ->
  matches R blk -> matches R blk'.
Proof. intros E1 E2 E3 E4 E5 []. split; congruence. Qed.

Lemma set_eob_fields blk eob now :
  (set_eob blk eob now).(b_k) = blk.(b_k) /\ (set_eob blk eob now).(b_s) = blk.(b_s) /\
  (set_eob blk eob now).(b_frame_len) = blk.(b_frame_len) /\
  (set_eob blk eob now).(b_sources) = blk.(b_sources) /\
  (set_eob blk eob now).(b_repairs) = blk.(b_repairs).
Proof. unfold set_eob. by destruct (eob && _). Qed.

(** Reading the sub-headers back. *)
Lemma be16_read_at (h : list Z) v t :
  u16 v -> be16_read (h ++ be16_bytes v ++ t) (length h) = Some v.
Proof.
  intros Hv. unfold be16_read, rd8, be16_bytes. cbn [app].
  rewrite (list_lookup_middle h _ _ _ eq_refl). cbn [mbind option_bind].
  rewrite lookup_app_r by lia. replace (length h + 1 - length h)%nat with 1%nat by lia.
  cbn. f_equal. by apply (be16_of_bytes v).
Qed.

Lemma be32_read_at (h : list Z) v t :
  u32 v -> be32_read (h ++ be32_bytes v ++ t) (length h) = Some v.
Proof.
  intros Hv. unfold be32_read, rd8, be32_bytes. cbn [app].
  rewrite (list_lookup_middle h _ _ _ eq_refl). cbn [mbind option_bind].
  rewrite !lookup_app_r by lia.
  replace (length h + 1 - length h)%nat with 1%nat by lia.
  replace (length h + 2 - length h)%nat with 2%nat by lia.
  replace (length h + 3 - length h)%nat with 3%nat by lia.
  cbn. f_equal. by apply be32_of_bytes.
Qed.

Lemma Exists_snoc (P : Sym -> Prop) R y : Exists P (R ++ [y]) <-> Exists P R \/ P y.
Proof. rewrite Exists_app, Exists_cons, Exists_nil. tauto. Qed.

Lemma src_idx_snoc_rep R j : src_idx (R ++ [Rep j]) = src_idx R.
Proof.
  unfold src_idx. apply list_filter_iff. intros i. set_solver.
Qed.

Lemma rep_idx_snoc_src R i : rep_idx (R ++ [Src i]) = rep_idx R.
Proof.
  unfold rep_idx. apply list_filter_iff. intros j. set_solver.
Qed.

Lemma push_repair_matches R blk j now eob air :
  (k + j <= 255)%nat -> matches R blk ->
  exists blk', push_repair max_bytes blk (Some (repair_payload b s base_seq j))
      (len (repair_payload b s base_seq j)) now eob air = Some (blk', true) /\
    matches (R ++ [Rep j]) blk' /\ blk'.(b_shadow_armed) = blk.(b_shadow_armed).
Proof.
  intros Hj [Mk Ms Ml Msrc Mrep].
  destruct (coded_spec b s ltac:(lia) ltac:(lia) j Hb Hj) as (_ & _ & Hcl & Hcb).
  assert (Hk1 : (1 <= k)%nat) by (unfold k, block_k; lia).
  set (p := repair_payload b s base_seq j).
  assert (Hp : p = [Z.of_nat j] ++ be16_bytes (Z.of_nat k) ++ be32_bytes base_seq ++
    be32_bytes (len b) ++ coded b s j) by reflexivity.
  assert (Hl : len p = 11 + Z.of_nat s).
  { rewrite Hp, !length_app, Hcl. cbn [length be16_bytes be32_bytes]. lia. }
  assert (Hb32 : u32 (len b)) by (unfold u32 in *; lia).
  assert (Rk : be16_read p kFecOffWindowLen = Some (Z.of_nat k)).
  { rewrite Hp. apply (be16_read_at [Z.of_nat j]). unfold u16; lia. }
  assert (Rl : be32_read p kFecOffFrameLen = Some (len b)).
  { rewrite Hp. apply (be32_read_at ([Z.of_nat j] ++ be16_bytes (Z.of_nat k) ++ be32_bytes base_seq)).
    done. }
  assert (Rj : rd8 p kFecOffRepairIdx = Some (Z.of_nat j)) by (by rewrite Hp).
  assert (Rs : slice p 11 s = Some (coded b s j)).
  { pose proof (slice_app ([Z.of_nat j] ++ be16_bytes (Z.of_nat k) ++ be32_bytes base_seq ++
      be32_bytes (len b)) (coded b s j) []) as Hsl.
    rewrite app_nil_r, Hcl in Hsl. rewrite Hp. exact Hsl. }
  unfold push_repair. rewrite Hl.
  change kFecRepairSubheaderSize with 11.
  destruct (Z.leb_spec (11 + Z.of_nat s) 11); [lia|].
  cbn [mbind option_bind]. rewrite Rk, Rl, Rj. cbn [mbind option_bind].
  replace (11 + Z.of_nat s - 11) with (Z.of_nat s) by lia.
  unfold kFecMaxSymbols, kVencFrameMetaSize, kMaxDataPayload.
  match goal with |- context [if ?c then Some (blk, false) else if ?d then Some (blk, false) else _] =>
    assert (Hc : c = false); [|assert (Hd : d = false); [|rewrite Hc, Hd; clear Hc Hd]] end.
  { repeat case_test; cbn [orb]; try lia; rewrite ?Z.geb_leb; repeat case_test; lia. }
  { rewrite Mk, Ms, Ml.
    destruct (decide (R = [])) as [E|E]; repeat case_decide;
      rewrite ?Z.eqb_refl, ?andb_false_r; done. }
  rewrite Nat2Z.id.
  set (b1 := set_geometry blk _ _ _).
  pose proof (set_eob_fields b1 eob now) as (E1 & E2 & E3 & E4 & E5).
  assert (E6 : (set_eob b1 eob now).(b_shadow_armed) = blk.(b_shadow_armed)).
  { unfold set_eob. by destruct (eob && _). }
  set (b2 := set_eob b1 eob now) in *.
  change (Z.to_nat 11) with 11%nat. rewrite Rs. cbn [mbind option_bind].
  assert (Er : (sm_emplace (Z.of_nat j) (coded b s j) b2.(b_repairs)).1
    = canon (coded b s) (rep_idx (R ++ [Rep j]))).
  { rewrite E5. cbn [b1 set_geometry b_repairs]. rewrite Mrep.
    apply canon_emplace; [lia|]. intros j'. set_solver. }
  destruct (sm_emplace (Z.of_nat j) (coded b s j) b2.(b_repairs)) as [reps fresh].
  cbn [fst] in Er. subst reps.
  eexists. split; [reflexivity|]. split; [|by rewrite <- E6].
  assert (Hne : R ++ [Rep j] <> []) by (by destruct R).
  split; cbn [set_symbols b_k b_s b_frame_len b_sources b_repairs].
  - rewrite E1. by rewrite decide_False by done.
  - rewrite E2. cbn. rewrite decide_True by (apply Exists_snoc; by right).
    apply to_u16_id. unfold u16; lia.
  - rewrite E3. cbn. by rewrite decide_True by (apply Exists_snoc; by right).
  - rewrite E4, src_idx_snoc_rep. exact Msrc.
  - done.
Qed.

Lemma push_source_matches R blk i now eob air :
  (i < k)%nat -> matches R blk ->
  exists blk', push_source max_bytes blk (Some (source_payload b s i))
      (len (source_payload b s i)) now eob air = Some (blk', true) /\
    matches (R ++ [Src i]) blk' /\ blk'.(b_shadow_armed) = blk.(b_shadow_armed).
Proof.
  intros Hi [Mk Ms Ml Msrc Mrep].
  pose proof (block_k_bounds b s ltac:(lia) ltac:(lia)) as Hkb. fold k in Hkb.
  pose proof (chunk_nonempty b s ltac:(lia) ltac:(lia) i Hi) as Hcl.
  assert (Hcf : i <> (k - 1)%nat -> length (chunk b s i) = s).
  { intros. apply chunk_full; fold k; lia. }
  set (p := source_payload b s i). set (c := chunk b s i) in *.
  assert (Hp : p = be16_bytes (Z.of_nat k) ++ be16_bytes (Z.of_nat i) ++ c) by reflexivity.
  assert (Hl : len p = 4 + len c) by (rewrite Hp, !length_app; cbn [length be16_bytes]; lia).
  assert (Rk : be16_read p kFecSrcOffWindowLen = Some (Z.of_nat k)).
  { rewrite Hp. apply (be16_read_at []). unfold u16; lia. }
  assert (Ri : be16_read p kFecSrcOffSymIndex = Some (Z.of_nat i)).
  { rewrite Hp. apply (be16_read_at (be16_bytes (Z.of_nat k))). unfold u16; lia. }
  assert (Rs : slice p 4 (length c) = Some c).
  { pose proof (slice_app (be16_bytes (Z.of_nat k) ++ be16_bytes (Z.of_nat i)) c []) as Hsl.
    rewrite app_nil_r in Hsl. rewrite Hp. exact Hsl. }
  assert (Hmin : (Z.of_nat k - 1) * Z.of_nat s + 1 <= max_bytes).
  { replace (Z.of_nat k - 1) with (Z.of_nat (k - 1)) by lia.
    rewrite <- Nat2Z.inj_mul. lia. }
  unfold push_source. rewrite Hl. change kFecSourceSubheaderSize with 4.
  destruct (Z.ltb_spec (4 + len c) 4); [lia|].
  cbn [mbind option_bind]. rewrite Rk, Ri. cbn [mbind option_bind].
  replace (4 + len c - 4) with (len c) by lia.
  unfold kMinFrameSymbolSize, kFecRepairSubheaderSize, kMaxDataPayload.
  match goal with |- context [if ?x then Some (blk, false) else _] => assert (Hc : x = false) end.
  { rewrite Mk. rewrite Z.geb_leb, !Z.gtb_ltb.
    destruct (Z.eqb_spec (Z.of_nat k) 0); [lia|].
    destruct (Z.leb_spec (Z.of_nat k) (Z.of_nat i)); [lia|].
    assert (E : (max_bytes <? (if 1 <? Z.of_nat k then (Z.of_nat k - 1) * (32 - 11) + 1 else 1)) = false).
    { apply Z.ltb_ge. destruct (Z.ltb_spec 1 (Z.of_nat k)); [nia|lia]. }
    rewrite E. cbn [orb]. destruct (decide (R = [])); [done|]. rewrite Z.eqb_refl. apply andb_false_r. }
  rewrite Hc. clear Hc. cbn [set_geometry b_s b_frame_len].
  assert (Ei : (Z.of_nat i =? Z.of_nat k - 1) = bool_decide (i = (k - 1)%nat)).
  { case_bool_decide; [apply Z.eqb_eq|apply Z.eqb_neq]; lia. }
  rewrite Ei.
  match goal with |- context [if ?x then Some (set_geometry _ _ _ _, false) else _] =>
    assert (Hc : x = false) end.
  { rewrite Ms, !Z.gtb_ltb. destruct (Z.eqb_spec (len c) 0); [lia|].
    destruct (Z.ltb_spec 4096 (len c)); [lia|]. cbn [orb].
    destruct (decide (Exists knows_s R)); [|done].
    case_bool_decide as Hi'; cbn [negb andb orb].
    - rewrite (proj2 (Z.ltb_ge (Z.of_nat s) (len c))) by lia. apply andb_false_r.
    - rewrite (proj2 (Z.eqb_eq (len c) (Z.of_nat s))) by (rewrite Hcf by done; done). by rewrite andb_false_r. }
  rewrite Hc. clear Hc.
  set (b1 := if _ && _ then set_geometry _ _ _ _ else _).
  assert (Eb1 : b1.(b_k) = Z.of_nat k /\
    b1.(b_s) = (if decide (Exists knows_s (R ++ [Src i])) then Z.of_nat s else 0) /\
    b1.(b_frame_len) = blk.(b_frame_len) /\ b1.(b_sources) = blk.(b_sources) /\
    b1.(b_repairs) = blk.(b_repairs) /\ b1.(b_shadow_armed) = blk.(b_shadow_armed)).
  { unfold b1. rewrite Ms. case_bool_decide as Hi'; cbn [negb andb].
    - split_and!; try done. cbn [set_geometry b_s]. apply decide_ext.
      rewrite Exists_snoc. cbn. naive_solver.
    - rewrite (decide_True (P := Exists knows_s (R ++ [Src i]))) by (apply Exists_snoc; by right).
      destruct (decide (Exists knows_s R)).
      + destruct (Z.eqb_spec (Z.of_nat s) 0); [lia|]. split_and!; done.
      + cbn. split_and!; try done. rewrite Hcf by done. apply to_u16_id. unfold u16; lia. }
  destruct Eb1 as (F1 & F2 & F3 & F4 & F5 & F6).
  match goal with |- context [if ?x then Some (b1, false) else _] => assert (Hc : x = false) end.
  { rewrite F2, !Z.gtb_ltb. destruct (decide (Exists knows_s (R ++ [Src i]))); [|by rewrite andb_false_r].
    rewrite (proj2 (Z.ltb_ge max_bytes _)) by lia. apply andb_false_r. }
  rewrite Hc. clear Hc.
  pose proof (set_eob_fields b1 eob now) as (E1 & E2 & E3 & E4 & E5).
  assert (E6 : (set_eob b1 eob now).(b_shadow_armed) = b1.(b_shadow_armed)).
  { unfold set_eob. by destruct (eob && _). }
  set (b2 := set_eob b1 eob now) in *.
  change (Z.to_nat 4) with 4%nat. rewrite Nat2Z.id, Rs. cbn [mbind option_bind].
  assert (Er : (sm_emplace (Z.of_nat i) c b2.(b_sources)).1
    = canon (chunk b s) (src_idx (R ++ [Src i]))).
  { rewrite E4, F4, Msrc. unfold c. apply canon_emplace; [done|]. intros i'. set_solver. }
  destruct (sm_emplace (Z.of_nat i) c b2.(b_sources)) as [srcs fresh].
  cbn [fst] in Er. subst srcs.
  eexists. split; [reflexivity|]. split; [|cbn; congruence].
  assert (Hne : R ++ [Src i] <> []) by (by destruct R).
  split; cbn [set_symbols b_k b_s b_frame_len b_sources b_repairs].
  - rewrite E1, F1. by rewrite decide_False by done.
  - by rewrite E2.
  - rewrite E3, F3, Ml. apply decide_ext. rewrite Exists_snoc. cbn. tauto.
  - done.
  - rewrite E5, F5, rep_idx_snoc_src. exact Mrep.
Qed.

(** ** How many symbols are held *)
Lemma distinct_count R :
  Forall sendable R ->
  length (remove_dups R) = (length (src_idx R) + length (rep_idx R))%nat.
Proof.
  intros HR. rewrite <- (length_fmap Src (src_idx R)), <- (length_fmap Rep (rep_idx R)), <- length_app.
  apply Permutation_length, NoDup_Permutation.
  - apply NoDup_remove_dups.
  - apply NoDup_app. split; [|split].
    + apply NoDup_fmap_2; [by intros ? ? [= ->]|]. apply NoDup_filter, NoDup_seq.
    + intros y Hy Hy'. apply list_elem_of_fmap in Hy as (i & -> & _).
      by apply list_elem_of_fmap in Hy' as (j & ? & _).
    + apply NoDup_fmap_2; [by intros ? ? [= ->]|]. apply NoDup_filter, NoDup_seq.
  - intros y. rewrite elem_of_remove_dups, elem_of_app, !list_elem_of_fmap.
    unfold src_idx, rep_idx. setoid_rewrite list_elem_of_filter. setoid_rewrite elem_of_seq.
    split.
    + intros Hy. pose proof Hy as Hv. eapply Forall_forall in Hv; [|exact HR].
      destruct y as [i|j]; unfold sendable, sym_valid in Hv; [left|right]; eexists; (split; [done|split; [done|lia]]).
    + intros [(i & -> & Hi & _)|(j & -> & Hj & _)]; done.
Qed.

Lemma matches_count R blk :
  Forall sendable R -> matches R blk ->
  (length blk.(b_sources) + length blk.(b_repairs))%nat = length (remove_dups R).
Proof.
  intros HR []. rewrite m_sources0, m_repairs0. unfold canon. rewrite !length_map.
  symmetry. by apply distinct_count.
Qed.
End Block.

(** ** The predictors never read outside their window *)
Definition est_ok (e : JsccLossEstimator) : Prop :=
  0 <= e.(je_cfg).(quantile_permille) <= 1000.

Lemma predict_some e : est_ok e -> exists v, predict e = Some v.
Proof.
  intros H. unfold predict, est_ok in *.
  destruct (_ || (len (samples_ e) =? 0)) eqn:E; [by eauto|].
  apply orb_false_iff in E as [_ E]. apply Z.eqb_neq in E.
  apply lookup_lt_is_Some_2. rewrite (Permutation_length (merge_sort_Permutation Z.le _)).
  set (q := quantile_permille _) in *. remember (len (samples_ e)) as n eqn:En.
  assert (Hn : 0 <= n) by lia.
  assert (Hd : (n * q + 999) / 1000 <= n).
  { apply Z.lt_succ_r, Z.div_lt_upper_bound; nia. }
  assert (0 <= (n * q + 999) / 1000) by (apply Z.div_pos; nia). lia.
Qed.

Lemma observe_ok e x : est_ok e -> est_ok (observe e x).
Proof. done. Qed.

Section Core.
Context {HS E : Type}.
Implicit Types t : FrameReassembler HS.

(** The part of the state the bookkeeping operations do not touch. *)
Record same_core t t' : Prop := {
  sc_cfg : t'.(fr_cfg) = t.(fr_cfg);
  sc_salvage : t'.(salvage_) = t.(salvage_);
  sc_blocks : t'.(blocks_) = t.(blocks_);
  sc_highest : t'.(highest_block_) = t.(highest_block_);
  sc_have_highest : t'.(have_highest_) = t.(have_highest_);
  sc_est : est_ok t.(loss_estimator_) /\ est_ok t.(repair_estimator_) ->
           est_ok t'.(loss_estimator_) /\ est_ok t'.(repair_estimator_)
}.

Lemma same_core_refl t : same_core t t.
Proof. by split. Qed.
Lemma same_core_trans t1 t2 t3 : same_core t1 t2 -> same_core t2 t3 -> same_core t1 t3.
Proof. intros [] []. split; try congruence. auto. Qed.

Lemma count_core t c : same_core t (count t c).
Proof. by split. Qed.
Lemma note_emitted_core t id : same_core t (note_emitted t id).
Proof. unfold note_emitted. by case_match; split. Qed.
Lemma finalize_core t id : same_core t (finalize t id).
Proof. unfold finalize. by case_match; split. Qed.
Lemma observe_shadow_core t id b : same_core t (observe_shadow t id b).
Proof.
  unfold observe_shadow. case_match; [apply same_core_refl|]. split; try done.
Qed.

(** The watermark. *)
Definition same_marks t t' : Prop :=
  t'.(finalized_upto_) = t.(finalized_upto_) /\ t'.(have_finalized_) = t.(have_finalized_).

Lemma observe_shadow_marks t id b :
  same_marks t (observe_shadow t id b) /\
  (observe_shadow t id b).(last_emitted_) = t.(last_emitted_) /\
  (observe_shadow t id b).(have_emitted_) = t.(have_emitted_).
Proof. unfold observe_shadow. by case_match. Qed.
Lemma note_emitted_marks t id : same_marks t (note_emitted t id).
Proof. unfold note_emitted. by case_match. Qed.

Lemma bid_diff_small a b : 0 <= a < 2147483648 -> 0 <= b < 2147483648 -> bid_diff a b = a - b.
Proof.
  intros Ha Hb. unfold bid_diff, to_i32.
  destruct (Z.ltb_spec ((a - b) mod 4294967296) 2147483648);
    Z.div_mod_to_equations; lia.
Qed.

(** All finalised blocks are below [n]. *)
Definition fin_below (n : Z) t : Prop := t.(have_finalized_) = true -> 0 <= t.(finalized_upto_) < n.

Lemma finalize_below n t id : 0 <= id < n -> fin_below n t -> fin_below n (finalize t id).
Proof.
  intros Hid H. unfold finalize. case_match; [|done]. by intros _.
Qed.

Lemma finalize_new t id :
  0 <= id < 2147483648 -> fin_below id t ->
  (finalize t id).(have_finalized_) = true /\ (finalize t id).(finalized_upto_) = id.
Proof.
  intros Hid H. unfold finalize. destruct (have_finalized_ t) eqn:Ef; [|done]. cbn [negb orb].
  specialize (H Ef). rewrite bid_diff_small by lia.
  by destruct (Z.gtb_spec (id - finalized_upto_ t) 0); [|lia].
Qed.

(** ** Sweeps without a salvage hook *)
Context (emit : E -> list Z -> E * bool).

Lemma drop_block_nohook reason t em id b n :
  t.(salvage_) = None -> 0 <= id < n -> fin_below n t ->
  exists t', drop_block emit reason t em id b = (t', em) /\ same_core t t' /\ fin_below n t'.
Proof.
  intros Hs Hid Hf. unfold drop_block, try_salvage. rewrite Hs.
  assert (Hgo : forall t1, same_core t t1 -> same_marks t t1 ->
    same_core t (finalize (observe_shadow t1 id b) id) /\
    fin_below n (finalize (observe_shadow t1 id b) id)).
  { intros t1 H1 [M1 M2]. split.
    - eapply same_core_trans; [exact H1|].
      eapply same_core_trans; [apply (observe_shadow_core _ id b)|apply finalize_core].
    - apply finalize_below; [done|]. destruct (observe_shadow_marks t1 id b) as [[E1 E2] _].
      unfold fin_below. by rewrite E1, E2, M1, M2. }
  destruct (_ || _); (eexists; split; [reflexivity|]); apply Hgo; by split.
Qed.

Lemma sweep_nohook due reason n : forall entries t em,
  t.(salvage_) = None ->
  (forall e, e ∈ entries -> due e.1 e.2 = true -> 0 <= e.1 < n) -> fin_below n t ->
  exists t', sweep emit due reason entries t em
      = (filter (fun e => due e.1 e.2 = false) entries, t', em) /\
    same_core t t' /\ fin_below n t'.
Proof.
  induction entries as [|[id b] entries IH]; intros t em Hs Hk Hf; cbn [sweep].
  - exists t. split; [done|]. split; [apply same_core_refl|done].
  - rewrite filter_cons. cbn [fst snd].
    destruct (due id b) eqn:Ed.
    + destruct (drop_block_nohook reason t em id b n Hs) as (t1 & -> & Hc & Hf1);
        [apply (Hk (id, b)); [set_solver|done]|done|].
      destruct (IH t1 em) as (t2 & -> & Hc2 & Hf2); [|set_solver|done|].
      { by rewrite (sc_salvage _ _ Hc). }
      exists t2. split; [done|]. split; [by eapply same_core_trans|done].
    + destruct (IH t em Hs) as (t2 & -> & Hc2 & Hf2); [set_solver|done|].
      exists t2. done.
Qed.
End Core.

Lemma sorted_filter {V} (P : Z * V -> Prop) {dP : forall e, Decision (P e)} (m : smap V) :
  sm_sorted m -> sm_sorted (filter P m).
Proof.
  induction m as [|[k v] m IH]; [done|]. intros [Hs Hf]%sm_sorted_cons.
  rewrite filter_cons. case_decide; [|auto]. apply sm_sorted_cons. split; [auto|].
  intros e [_ He]%list_elem_of_filter. auto.
Qed.

Section Complete.
Context {HS E : Type} (emit : E -> list Z -> E * bool).
Context (b : list Z) (s : nat) (max_bytes : Z).
Context (Hb : bytes b) (Hb8 : (8 <= length b)%nat) (Hmax : len b <= max_bytes).
Context (Hmax32 : u32 max_bytes).
Context (Hs : (21 <= s)%nat) (Hs2 : Z.of_nat s <= 4085).
Context (Hk : Z.of_nat (block_k b s) <= 65535).

Let k := block_k b s.

Lemma sum_chunks_total m acc :
  0 <= acc -> acc + len (concat (map snd m)) <= max_bytes ->
  sum_chunks max_bytes m acc = Some (acc + len (concat (map snd m))).
Proof.
  revert acc. induction m as [|[id c] m IH]; intros acc H0 Hm; cbn [sum_chunks map concat snd].
  - cbn. by rewrite Z.add_0_r.
  - cbn [map concat snd] in Hm. rewrite length_app in Hm |- *. unfold u32 in Hmax32.
    rewrite to_u64_id by (unfold u64; lia).
    destruct (Z.gtb_spec (len c) (max_bytes - acc)); [lia|].
    rewrite IH by lia. f_equal. lia.
Qed.

Lemma full_sources R :
  Forall (sendable b s) R -> length (src_idx b s R) = k -> src_idx b s R = seq 0 k.
Proof.
  intros _ Hl. unfold src_idx in *. fold k in Hl |- *.
  enough (H : forall l, (length (filter (fun i => Src i ∈ R) l) = length l) ->
    filter (fun i => Src i ∈ R) l = l) by (apply H; by rewrite length_seq).
  clear. induction l as [|i l IH]; [done|]. rewrite filter_cons. case_decide; cbn.
  - intros [= Hl]. f_equal. auto.
  - intros Hl. pose proof (length_filter (fun i => Src i ∈ R) l). lia.
Qed.

(** Feeding the decoder from the maps is receiving the symbols they hold. *)
Lemma feed_sources_receive l dec :
  Forall (fun i => (i < k)%nat) l ->
  foldM (feed_source s) (canon (chunk b s) l) dec
  = foldM (receive (block_rows b s) s) (map Src l) dec.
Proof.
  intros Hl. revert dec. induction Hl as [|i l Hi Hl IH]; intros dec; [done|].
  cbn [canon map foldM].
  change (feed_source s dec (Z.of_nat i, chunk b s i))
    with (pad ← pad_chunk s (chunk b s i); add_source dec (Z.of_nat i) pad).
  change (receive (block_rows b s) s dec (Src i))
    with (data ← block_rows b s !! i; add_source dec (Z.of_nat i) data).
  rewrite (block_rows_lookup b s) by (done || lia). cbn [mbind option_bind].
  pose proof (chunk_nonempty b s ltac:(lia) ltac:(lia) i Hi) as Hc.
  assert (Hp : pad_chunk s (chunk b s i)
    = Some (chunk b s i ++ replicate (s - length (chunk b s i)) 0)).
  { unfold pad_chunk. rewrite Nat.min_l by lia. unfold memcpy. rewrite length_replicate.
    destruct (Nat.leb_spec (0 + length (chunk b s i)) s); [|lia].
    rewrite Nat.leb_refl, take_0, firstn_all, drop_replicate. done. }
  rewrite Hp. cbn [mbind option_bind].
  destruct (add_source dec (Z.of_nat i) _); [|done]. apply IH.
Qed.

Lemma feed_repairs_receive l dec :
  Forall (fun j => (k + j <= 255)%nat) l ->
  foldM (feed_repair s) (canon (coded b s) l) dec
  = foldM (receive (block_rows b s) s) (map Rep l) dec.
Proof.
  intros Hl. revert dec. induction Hl as [|j l Hj Hl IH]; intros dec; [done|].
  destruct (coded_spec b s ltac:(lia) ltac:(lia) j Hb Hj) as (Hp & _ & Hcl & _).
  cbn [canon map foldM].
  change (feed_repair s dec (Z.of_nat j, coded b s j))
    with (if (s <=? length (coded b s j))%nat
          then add_repair dec (Z.of_nat j) (coded b s j) else Some dec).
  change (receive (block_rows b s) s dec (Rep j))
    with (data ← sym_payload (block_rows b s) s (Rep j); add_repair dec (Z.of_nat j) data).
  rewrite Hp, Hcl, Nat.leb_refl. cbn [mbind option_bind].
  destruct (add_repair dec (Z.of_nat j) _); [|done]. apply IH.
Qed.

Lemma foldM_app {St A} (g : St -> A -> option St) l1 l2 st :
  foldM g (l1 ++ l2) st = (st ← foldM g l1 st; foldM g l2 st).
Proof.
  revert st. induction l1 as [|x l1 IH]; intros st; [done|]. cbn.
  by destruct (g st x); cbn.
Qed.

(** The decode of a block that holds exactly [k] symbols, not all sources. *)
Lemma decode_block R :
  Forall (sendable b s) R -> (k <= 256)%nat ->
  (length (src_idx b s R) + length (rep_idx R))%nat = k ->
  exists dec1 dec,
    foldM (feed_source s) (canon (chunk b s) (src_idx b s R))
      (RlcDecoder_init (Z.of_nat k) s) = Some dec1 /\
    foldM (feed_repair s) (canon (coded b s) (rep_idx R)) dec1 = Some dec /\
    can_decode dec = true /\
    decode dec (replicate (k * s) 0) = Some (true, padded b s).
Proof.
  intros HR Hk256 Hcount.
  pose proof (block_rows_wf b s ltac:(lia) ltac:(lia) Hb) as Hrows. fold k in Hrows.
  set (syms := map Src (src_idx b s R) ++ map Rep (rep_idx R)).
  assert (Hsrc : Forall (fun i => (i < k)%nat) (src_idx b s R)).
  { apply Forall_forall. intros i [_ Hi%seq0_elem]%list_elem_of_filter. done. }
  assert (Hrep : Forall (fun j => (k + j <= 255)%nat) (rep_idx R)).
  { apply Forall_forall. intros j [Hj _]%list_elem_of_filter.
    eapply Forall_forall in HR; [|exact Hj]. done. }
  assert (Hval : Forall (sym_valid k) syms).
  { apply Forall_app. split; apply Forall_map; done. }
  destruct (receive_all k s (block_rows b s) Hrows Hk256 syms Hval) as (dec & held & Hd & Hh).
  assert (Hnd : NoDup syms).
  { apply NoDup_app. split; [|split].
    - apply NoDup_fmap_2; [by intros ? ? [= ->]|]. apply NoDup_filter, NoDup_seq.
    - intros y Hy Hy'. apply list_elem_of_fmap in Hy as (i & -> & _).
      by apply list_elem_of_fmap in Hy' as (j & ? & _).
    - apply NoDup_fmap_2; [by intros ? ? [= ->]|]. apply NoDup_filter, NoDup_seq. }
  assert (Hfull : length held = k).
  { rewrite (holds_count k s (block_rows b s) Hk256 _ _ _ Hh).
    assert (Hrd : remove_dups syms ≡ₚ syms).
    { apply NoDup_Permutation; [apply NoDup_remove_dups|done|].
      intros y. apply elem_of_remove_dups. }
    rewrite (Permutation_length Hrd). unfold syms. rewrite length_app, !length_map, Hcount. lia. }
  unfold syms in Hd. rewrite foldM_app, <- (feed_sources_receive _ _ Hsrc) in Hd.
  destruct (foldM (feed_source s) _ _) as [dec1|] eqn:E1; [|done]. cbn [mbind option_bind] in Hd.
  rewrite <- (feed_repairs_receive _ _ Hrep) in Hd.
  exists dec1, dec. split; [done|]. split; [done|]. split.
  - unfold can_decode. rewrite (h_coeffs _ _ _ _ _ _ Hh), length_fmap, (h_k _ _ _ _ _ _ Hh).
    rewrite Z.geb_leb. apply Z.leb_le. lia.
  - rewrite (decode_full k s (block_rows b s) Hrows Hk256 _ _ _ _ Hh Hfull)
      by (rewrite length_replicate; lia).
    rewrite drop_replicate, Nat.sub_diag, app_nil_r.
    by rewrite (concat_rows b s) by lia.
Qed.
End Complete.

Section Push.
Context {HS E : Type} (emit : E -> list Z -> E * bool).
Context (b : list Z) (s : nat) (base_seq : Z) (max_bytes : Z).
Context (Hb : bytes b) (Hb8 : (8 <= length b)%nat) (Hmax : len b <= max_bytes).
Context (Hmax32 : u32 max_bytes).
Context (Hs : (21 <= s)%nat) (Hs2 : Z.of_nat s <= 4085).
Context (Hk : Z.of_nat (block_k b s) <= 65535) (Hseq : u32 base_seq).
Implicit Types t : FrameReassembler HS.
Implicit Types em : Em HS E.

Let k := block_k b s.

Lemma matches_k R blk : R <> [] -> matches b s R blk -> blk.(b_k) = Z.of_nat k.
Proof. intros HR Hm. rewrite (m_k _ _ _ _ Hm). by rewrite decide_False. Qed.

Lemma k_pos : (1 <= k)%nat.
Proof. unfold k, block_k. lia. Qed.

Lemma incomplete_block t em id blk R :
  R <> [] -> Forall (sendable b s) R -> matches b s R blk ->
  (length (remove_dups R) < k)%nat ->
  try_complete emit t em id blk = Some (false, t, em).
Proof.
  intros HR Hall Hm Hlt. pose proof (matches_count b s Hb8 Hs R blk Hall Hm) as Hc.
  pose proof (matches_k R blk HR Hm) as Ek. unfold try_complete. rewrite Ek.
  pose proof k_pos.
  destruct (Z.eqb_spec (Z.of_nat k) 0); [done|].
  destruct (Z.eqb_spec (len (b_sources blk)) (Z.of_nat k)); [lia|].
  rewrite <- Nat2Z.inj_add, Hc, Z.geb_leb.
  rewrite to_u16_id by (unfold u16; lia).
  by destruct (Z.leb_spec (Z.of_nat k) (len (remove_dups R))); [lia|].
Qed.

Lemma finish_core t0 t id (acc : bool) (f : FrameReassembler HS -> FrameReassembler HS) :
  same_core t0 t -> same_marks t0 t ->
  (forall t, same_core t (f t) /\ same_marks t (f t)) ->
  same_core t0 (finalize (f t) id) /\
  (0 <= id < 2147483648 -> fin_below id t0 ->
   (finalize (f t) id).(have_finalized_) = true /\ (finalize (f t) id).(finalized_upto_) = id).
Proof.
  intros H1 [M1 M2] Hf. destruct (Hf t) as [C [N1 N2]]. split.
  - eapply same_core_trans; [exact H1|].
    eapply same_core_trans; [exact C|apply finalize_core].
  - intros Hid Hb0. apply finalize_new; [done|]. unfold fin_below.
    by rewrite N1, N2, M1, M2.
Qed.

Lemma call_emit_answer em id frame :
  exists ok, call_emit emit em id frame = ((call_emit emit em id frame).1, ok).
Proof. by destruct (call_emit emit em id frame) as [e ok]; exists ok. Qed.

Lemma core_marks_comp (f g : FrameReassembler HS -> FrameReassembler HS) :
  (forall t, same_core t (f t) /\ same_marks t (f t)) ->
  (forall t, same_core t (g t) /\ same_marks t (g t)) ->
  forall t, same_core t (g (f t)) /\ same_marks t (g (f t)).
Proof.
  intros Hf Hg t. destruct (Hf t) as [C1 [M1 M2]], (Hg (f t)) as [C2 [N1 N2]]. split.
  - by eapply same_core_trans.
  - split; congruence.
Qed.

Lemma complete_block t em id blk R :
  R <> [] -> Forall (sendable b s) R -> matches b s R blk ->
  length (remove_dups R) = k -> t.(fr_cfg).(max_frame_bytes) = max_bytes ->
  exists t', try_complete emit t em id blk = Some (true, t', (call_emit emit em id b).1) /\
    same_core t t' /\
    (0 <= id < 2147483648 -> fin_below id t ->
     t'.(have_finalized_) = true /\ t'.(finalized_upto_) = id).
Proof.
  intros HR Hall Hm Hn Hcfg. pose proof (matches_count b s Hb8 Hs R blk Hall Hm) as Hc.
  pose proof (matches_k R blk HR Hm) as Ek. destruct Hm as [Mk Ms Ml Msrc Mrep].
  pose proof k_pos as Hk1. unfold try_complete. rewrite Ek, Hcfg.
  destruct (Z.eqb_spec (Z.of_nat k) 0); [lia|].
  destruct (Z.eqb_spec (len (b_sources blk)) (Z.of_nat k)) as [Hfull|Hpart].
  - assert (Hidx : src_idx b s R = seq 0 k).
    { apply full_sources; [done|]. rewrite Msrc in Hfull. unfold canon in Hfull.
      rewrite length_map in Hfull. fold k. lia. }
    assert (Hcat : concat (map snd (b_sources blk)) = b).
    { rewrite Msrc, Hidx. unfold canon. rewrite map_map. cbn [snd].
      apply concat_chunks; lia. }
    rewrite (sum_chunks_total b s max_bytes Hb8 Hmax32 Hs) by (rewrite ?Hcat; lia).
    rewrite Hcat, Z.add_0_l. unfold kVencFrameMetaSize.
    destruct (Z.ltb_spec (len b) 8); [lia|].
    destruct (call_emit_answer em id b) as [ok ->].
    eexists. split; [reflexivity|].
    apply (finish_core t t id ok (fun t => let t := observe_shadow t id blk in
      if ok then count (count (note_emitted t id) frames_delivered) frames_fast
      else count t frames_egress_rejected)); [apply same_core_refl|done|].
    apply (core_marks_comp (fun t => observe_shadow t id blk)
      (fun t => if ok then count (count (note_emitted t id) frames_delivered) frames_fast
      else count t frames_egress_rejected)).
    + intros t1. split; [apply observe_shadow_core|apply observe_shadow_marks].
    + intros t1. destruct ok; split; try done.
      * eapply same_core_trans; [apply (note_emitted_core _ id)|by split].
      * apply (note_emitted_marks t1 id).
  - assert (Hlt : (length (src_idx b s R) < k)%nat).
    { assert (Hle : (length (src_idx b s R) <= k)%nat).
      { unfold src_idx. etransitivity; [apply length_filter|]. by rewrite length_seq. }
      rewrite Msrc in Hpart. unfold canon in Hpart. rewrite length_map in Hpart. lia. }
    rewrite (distinct_count b s Hb8 Hs R Hall) in Hn.
    assert (Hrep : Exists is_rep R).
    { destruct (rep_idx R) as [|j l] eqn:E0; [cbn [length] in Hn; lia|].
      assert (Hj : j ∈ rep_idx R) by (rewrite E0; set_solver).
      apply list_elem_of_filter in Hj as [Hj _]. apply Exists_exists. by exists (Rep j). }
    assert (Hk255 : (k <= 255)%nat).
    { apply Exists_exists in Hrep as ([i|j] & Hj & ?); [done|].
      eapply Forall_forall in Hall; [|exact Hj]. unfold sendable, sym_valid in Hall. fold k in Hall. lia. }
    rewrite <- Nat2Z.inj_add, Hc, (distinct_count b s Hb8 Hs R Hall), Hn, Z.geb_leb.
    rewrite to_u16_id by (unfold u16; lia). rewrite Z.leb_refl.
    rewrite Ms, Ml. rewrite (decide_True (P := Exists is_rep R)) by done.
    rewrite (decide_True (P := Exists (knows_s b s) R)).
    2: { eapply Exists_impl; [exact Hrep|]. by intros [i|j]. }
    destruct (Z.gtb_spec (Z.of_nat s) 0); [|lia].
    destruct (Z.gtb_spec (len b) 0); [|lia].
    destruct (Z.leb_spec (len b) max_bytes); [|lia]. cbn [andb].
    destruct (decode_block b s Hb Hb8 Hs R Hall ltac:(fold k; lia) Hn)
      as (dec1 & dec & D1 & D2 & D3 & D4).
    rewrite Msrc, Mrep, !Nat2Z.id. fold k in D1, D4. rewrite D1. cbn [mbind option_bind].
    rewrite D2. cbn [mbind option_bind]. rewrite D3, D4. cbn [mbind option_bind].
    assert (Hres : resize_buf (padded b s) (length b) = b).
    { unfold resize_buf. rewrite (padded_length b s) by lia.
      pose proof (block_k_bounds b s ltac:(lia) ltac:(lia)).
      unfold padded. rewrite take_app_length.
      replace (length b - block_k b s * s)%nat with 0%nat by lia. by rewrite app_nil_r. }
    rewrite Hres. destruct (call_emit_answer em id b) as [ok ->].
    eexists. split; [reflexivity|].
    set (g := fun t : FrameReassembler HS => if ok then
        let t := note_emitted t id in
        let t := with_stats t (stat_add t.(fr_stats) fec_recovered_source_symbols
                   (to_u64 (Z.of_nat k - len (canon (chunk b s) (src_idx b s R))))) in
        count (count (count t frames_fec_only) frames_delivered) frames_fec
      else count t frames_egress_rejected).
    apply (finish_core t t id ok (fun t => g (observe_shadow t id blk)));
      [apply same_core_refl|done|].
    apply (core_marks_comp (fun t => observe_shadow t id blk) g).
    + intros t1. split; [apply observe_shadow_core|apply observe_shadow_marks].
    + intros t1. unfold g. destruct ok; split; try done.
      * eapply same_core_trans; [apply (note_emitted_core _ id)|by split].
      * apply (note_emitted_marks t1 id).
Qed.

(** ** The state between and during blocks *)
Record ready t (next : Z) : Prop := {
  rd_salvage : t.(salvage_) = None;
  rd_bytes : t.(fr_cfg).(max_frame_bytes) = max_bytes;
  rd_ahead : 0 <= t.(fr_cfg).(max_blocks_ahead) < 2147483648;
  rd_sorted : sm_sorted t.(blocks_);
  rd_keys : forall e, e ∈ t.(blocks_) -> 0 <= e.1 < next;
  rd_fin : fin_below next t;
  rd_high : t.(have_highest_) = true -> 0 <= t.(highest_block_) < next;
  rd_est : est_ok t.(loss_estimator_) /\ est_ok t.(repair_estimator_)
}.

(** The block [bid] is open and holds the symbols [R]. *)
Record open_block t (bid : Z) (R : list Sym) : Prop := {
  ob_ready : ready t (bid + 1);
  ob_fin : fin_below bid t;
  ob_have : t.(have_highest_) = true;
  ob_highest : t.(highest_block_) = bid;
  ob_block : exists blk, sm_find bid t.(blocks_) = Some blk /\ matches b s R blk
}.

(** The block [bid] has been delivered. *)
Record closed_block t (bid : Z) : Prop := {
  cb_ready : ready t (bid + 1);
  cb_have : t.(have_finalized_) = true;
  cb_upto : t.(finalized_upto_) = bid
}.

Lemma remove_dups_snoc R (y : Sym) :
  (length (remove_dups (R ++ [y])) <= S (length (remove_dups R)))%nat.
Proof.
  apply (submseteq_length _ (y :: remove_dups R)), NoDup_submseteq; [apply NoDup_remove_dups|].
  intros x. rewrite elem_of_remove_dups. set_solver by (rewrite ?elem_of_remove_dups; done).
Qed.

Lemma sm_assign_keys {V} bid (v : V) m next :
  0 <= bid < next -> (forall e, e ∈ m -> 0 <= e.1 < next) ->
  forall e, e ∈ sm_assign bid v m -> 0 <= e.1 < next.
Proof. intros Hb0 H e [->|He]%sm_assign_elem; auto. Qed.

(** From the recorded symbol to the end of [push]. *)
Lemma push_tail t em bid R blk :
  0 <= bid < 2147483648 ->
  R <> [] -> Forall (sendable b s) R -> (length (remove_dups R) <= k)%nat ->
  ready t (bid + 1) -> fin_below bid t -> t.(have_highest_) = true ->
  t.(highest_block_) = bid -> sm_find bid t.(blocks_) = Some blk -> matches b s R blk ->
  exists blk', arm_shadow t blk = Some blk' /\
    let t1 := with_blocks t (sm_assign bid blk' t.(blocks_)) in
    if decide (length (remove_dups R) < k)%nat
    then try_complete emit t1 em bid blk' = Some (false, t1, em) /\ open_block t1 bid R
    else exists t2, try_complete emit t1 em bid blk' = Some (true, t2, (call_emit emit em bid b).1) /\
           closed_block (with_blocks t2 (sm_erase bid t2.(blocks_))) bid.
Proof.
  intros Hbid HR Hall Hle Hrd Hfin Hhave Hhigh Hfind Hm.
  destruct Hrd as [Rs Rb Ra Rsort Rk Rf Rh Re].
  destruct (predict_some _ (proj1 Re)) as [loss Hloss].
  destruct (predict_some _ (proj2 Re)) as [rate Hrate].
  assert (Harm : exists blk', arm_shadow t blk = Some blk' /\ matches b s R blk').
  { unfold arm_shadow. rewrite Hloss, Hrate. destruct (b_shadow_armed blk).
    - eauto.
    - cbn [mbind option_bind]. eexists; split; [reflexivity|]. by apply (matches_ext b s R blk). }
  destruct Harm as (blk' & Harm & Hm'). exists blk'. split; [done|]. intros t1.
  assert (Hrd1 : ready t1 (bid + 1)).
  { split; try done.
    - by apply sm_assign_sorted.
    - apply sm_assign_keys; [lia|done]. }
  case_decide as Hd.
  - split; [by eapply incomplete_block|]. split; try done.
    exists blk'. split; [|done]. cbn [t1 with_blocks blocks_].
    rewrite sm_find_assign by done. by rewrite Z.eqb_refl.
  - destruct (complete_block t1 em bid blk' R) as (t2 & E2 & C2 & F2); try done; [lia|].
    exists t2. split; [done|]. destruct (F2 Hbid Hfin) as [Fh Fu].
    destruct C2 as [Cc Cs Cb Ch Chh Ce].
    cbn [t1 with_blocks fr_cfg salvage_ blocks_ highest_block_ have_highest_] in Cc, Cs, Cb, Ch, Chh.
    split; [|done|done].
    split; cbn [with_blocks fr_cfg salvage_ blocks_ highest_block_ have_highest_
      loss_estimator_ repair_estimator_].
    + congruence.
    + congruence.
    + by rewrite Cc.
    + apply sm_erase_sorted. rewrite Cb. apply Hrd1.
    + intros e He%sm_erase_elem. rewrite Cb in He. by apply Hrd1.
    + intros _. cbn [with_blocks finalized_upto_]. lia.
    + rewrite Chh, Ch. apply Hrd1.
    + by apply Ce.
Qed.

(** A push of one symbol of the block being received. *)
Definition receiving t (bid : Z) (R : list Sym) : Prop :=
  (R = [] /\ ready t bid) \/ (R <> [] /\ open_block t bid R).

Definition flags_for (fl : Z) (y : Sym) : Prop :=
  (Z.land fl data_flags_kFecRepair =? 0) = match y with Src _ => true | Rep _ => false end.

Lemma receiving_find t bid R now :
  0 <= bid -> receiving t bid R ->
  let m := (sm_emplace bid (Block_init now) t.(blocks_)).1 in
  exists blk, sm_find bid m = Some blk /\ matches b s R blk /\ sm_sorted m /\
    (forall e, e ∈ m -> 0 <= e.1 < bid + 1).
Proof.
  intros Hbid [[-> Hr]|[HR Ho]] m.
  - exists (Block_init now). split; [|split; [apply matches_init|split]].
    + unfold m. rewrite sm_find_emplace by apply Hr.
      rewrite sm_find_none; [by rewrite Z.eqb_refl|].
      intros e He. apply Hr in He. lia.
    + apply sm_emplace_sorted, Hr.
    + intros e [->|He]%sm_emplace_elem; [cbn; lia|]. apply Hr in He. lia.
  - destruct (ob_block _ _ _ Ho) as (blk & Hf & Hm). pose proof (ob_ready _ _ _ Ho) as Hr.
    exists blk. split; [|split; [done|split]].
    + unfold m. rewrite sm_find_emplace by apply Hr. by rewrite Hf.
    + apply sm_emplace_sorted, Hr.
    + intros e [->|He]%sm_emplace_elem; [cbn; lia|]. apply Hr in He. lia.
Qed.

Lemma receiving_fin t bid R : receiving t bid R -> fin_below bid t.
Proof. intros [[_ H]|[_ H]]; [apply H|apply H]. Qed.

Lemma receiving_base t bid R :
  receiving t bid R ->
  t.(salvage_) = None /\ t.(fr_cfg).(max_frame_bytes) = max_bytes /\
  0 <= t.(fr_cfg).(max_blocks_ahead) < 2147483648 /\
  (est_ok t.(loss_estimator_) /\ est_ok t.(repair_estimator_)) /\
  (t.(have_highest_) = true -> 0 <= t.(highest_block_) <= bid) /\
  (R <> [] -> t.(have_highest_) = true /\ t.(highest_block_) = bid).
Proof.
  intros [[-> H]|[HR H]].
  - split_and!; try apply H; try done. intros E0. apply H in E0. lia.
  - pose proof (ob_ready _ _ _ H) as Hr. split_and!; try apply Hr; try done.
    + intros E0. apply Hr in E0. lia.
    + intros _. split; apply H.
Qed.

(** After the optional supersession the block is still there. *)
Lemma push_supersede t em bid R m blk :
  0 <= bid < 2147483648 -> receiving t bid R ->
  sm_sorted m -> (forall e, e ∈ m -> 0 <= e.1 < bid + 1) -> sm_find bid m = Some blk ->
  let t2 := with_blocks t m in
  exists t3, (if negb t2.(have_highest_) || (bid_diff bid t2.(highest_block_) >? 0)
              then supersede emit (with_highest t2 bid) em bid else (t2, em)) = (t3, em) /\
    ready t3 (bid + 1) /\ fin_below bid t3 /\ t3.(have_highest_) = true /\
    t3.(highest_block_) = bid /\ sm_find bid t3.(blocks_) = Some blk.
Proof.
  intros Hbid Hrec Hsort Hkeys Hfind t2.
  pose proof (receiving_fin _ _ _ Hrec) as Hfin.
  destruct (receiving_base _ _ _ Hrec) as (Hsal & Hbytes & Hahead & Hest & Hhigh & Hopen).
  destruct (_ || _) eqn:Ec.
  - unfold supersede. set (due := fun (id : Z) (_ : Block) =>
      bid_diff bid id >? to_i32 (max_blocks_ahead (fr_cfg (with_highest t2 bid)))).
    change (blocks_ (with_highest t2 bid)) with m.
    assert (Hahead' : to_i32 (max_blocks_ahead (fr_cfg t)) = max_blocks_ahead (fr_cfg t)).
    { unfold to_i32. rewrite Z.mod_small by lia. by case_test; [|lia]. }
    assert (Hdue : forall v, due bid v = false).
    { intros v. unfold due. rewrite bid_diff_small by lia.
      change (fr_cfg (with_highest t2 bid)) with (fr_cfg t). rewrite Hahead'.
      destruct (Z.gtb_spec (bid - bid) (max_blocks_ahead (fr_cfg t))); [lia|done]. }
    destruct (sweep_nohook emit due frames_superseded bid m (with_highest t2 bid) em)
      as (t3 & -> & C3 & F3); [done| |done|].
    { intros e He Hd. specialize (Hkeys e He).
      assert (e.1 <> bid) by (intros E0; rewrite E0, Hdue in Hd; done). lia. }
    eexists. split; [reflexivity|]. destruct C3 as [Cc Cs Cb Ch Chh Ce].
    assert (Hfind' : sm_find bid (filter (fun e => due e.1 e.2 = false) m) = Some blk).
    { apply sm_elem_find; [by apply sorted_filter|]. apply list_elem_of_filter.
      split; [apply Hdue|by apply sm_find_elem]. }
    split; [|split; [done|split; [exact Chh|split; [exact Ch|exact Hfind']]]].
    cbn [t2 with_blocks with_highest fr_cfg salvage_ blocks_] in Cc, Cs, Cb.
    split; cbn [with_blocks fr_cfg salvage_ blocks_ highest_block_ have_highest_
      loss_estimator_ repair_estimator_]; try congruence.
    + by apply sorted_filter.
    + intros e [_ He]%list_elem_of_filter. auto.
    + intros Hh. apply F3 in Hh. cbn [with_blocks finalized_upto_]. lia.
    + intros _. rewrite Ch. cbn. lia.
    + by apply Ce.
  - apply orb_false_iff in Ec as [Eh Eb]. apply negb_false_iff in Eh.
    cbn [t2 with_blocks have_highest_ highest_block_] in Eh, Eb.
    specialize (Hhigh Eh). rewrite Z.gtb_ltb in Eb. apply Z.ltb_ge in Eb.
    rewrite bid_diff_small in Eb by lia.
    exists t2. split; [done|]. split.
    + split; try done.
      * intros Hh. apply Hfin in Hh. cbn [t2 with_blocks finalized_upto_]. lia.
      * intros _. cbn [t2 with_blocks highest_block_]. lia.
    + split; [done|]. split; [done|]. split; [cbn [t2 with_blocks highest_block_]; lia|done].
Qed.

Lemma push_symbol t em bid R y fl now air :
  0 <= bid < 2147483648 -> receiving t bid R -> Forall (sendable b s) (R ++ [y]) ->
  (length (remove_dups R) < k)%nat -> flags_for fl y ->
  let p := symbol_payload b s base_seq y in
  let em0 := MkEm em.(em_env) em.(em_hook) false em.(em_log) in
  if decide (length (remove_dups (R ++ [y])) < k)%nat
  then exists t', push emit t em bid fl (Some p) (len p) now air = Some (false, t', em0) /\
         open_block t' bid (R ++ [y])
  else exists t', push emit t em bid fl (Some p) (len p) now air
         = Some (true, t', (call_emit emit em0 bid b).1) /\ closed_block t' bid.
Proof.
  intros Hbid Hrec Hall Hlt Hfl p em0.
  pose proof (receiving_fin _ _ _ Hrec) as Hfin.
  destruct (receiving_base _ _ _ Hrec) as (Hsal & Hbytes & Hahead & Hest & Hhigh & Hopen).
  destruct (receiving_find t bid R now ltac:(lia) Hrec) as (blk & Hfind & Hm & Hsort & Hkeys).
  pose proof (remove_dups_snoc R y) as Hsn.
  assert (Hne : R ++ [y] <> []) by (by destruct R).
  set (eob := negb (Z.land fl data_flags_kEndOfBlock =? 0)).
  assert (Hsym : exists blk1,
    (if negb (Z.land fl data_flags_kFecRepair =? 0)
     then push_repair max_bytes blk (Some p) (len p) now eob air
     else push_source max_bytes blk (Some p) (len p) now eob air) = Some (blk1, true) /\
    matches b s (R ++ [y]) blk1).
  { rewrite Hfl. apply Forall_app in Hall as [_ Hy]. apply Forall_cons in Hy as [Hy _].
    destruct y as [i|j]; cbn [negb].
    - destruct (push_source_matches b s base_seq max_bytes Hb Hb8 Hmax Hmax32 Hs Hs2 Hk Hseq
        R blk i now eob air Hy Hm) as (blk1 & E1 & M1 & _). eauto.
    - destruct (push_repair_matches b s base_seq max_bytes Hb Hb8 Hmax Hmax32 Hs Hs2 Hk Hseq
        R blk j now eob air Hy Hm) as (blk1 & E1 & M1 & _). eauto. }
  destruct Hsym as (blk1 & Hsym & Hm1).
  set (m := (sm_emplace bid (Block_init now) (blocks_ t)).1) in *.
  set (m1 := sm_assign bid blk1 m).
  destruct (push_supersede t em0 bid R m1 blk1 Hbid Hrec) as
    (t3 & Hsup & Hr3 & Hf3 & Hh3 & Hhb3 & Hfind3).
  { by apply sm_assign_sorted. }
  { by apply sm_assign_keys; [lia|]. }
  { unfold m1. rewrite sm_find_assign by done. by rewrite Z.eqb_refl. }
  destruct (push_tail t3 em0 bid (R ++ [y]) blk1) as (blk2 & Harm & Htail); try done; [lia|].
  assert (Hpush : push emit t em bid fl (Some p) (len p) now air =
    '(done, t5, em5) ← try_complete emit (with_blocks t3 (sm_assign bid blk2 t3.(blocks_))) em0 bid blk2;
    let t5 := if done : bool then with_blocks t5 (sm_erase bid t5.(blocks_)) else t5 in
    Some (em5.(em_attempted), t5, em5)).
  { unfold push.
    assert (Hnf : have_finalized_ t && (bid_diff bid (finalized_upto_ t) <=? 0) = false).
    { destruct (have_finalized_ t) eqn:Eh; [|done]. specialize (Hfin Eh).
      rewrite bid_diff_small by lia. by apply Z.leb_gt; lia. }
    rewrite Hnf. fold em0. cbn [with_blocks blocks_ fr_cfg]. fold m. rewrite Hfind.
    cbn [mbind option_bind]. rewrite Hbytes. fold eob. rewrite Hsym.
    cbn [mbind option_bind negb]. fold m1.
    change (with_blocks (with_blocks t m) m1) with (with_blocks t m1).
    rewrite Hsup, Hfind3. cbn [mbind option_bind]. rewrite Harm. done. }
  rewrite Hpush. cbn zeta in Htail.
  case_decide as Hd.
  - destruct Htail as [-> Ho]. eexists. split; [reflexivity|done].
  - destruct Htail as (t5 & -> & Hcl). eexists. split; [|exact Hcl].
    cbn [mbind option_bind]. unfold call_emit. by destruct (emit _ b).
Qed.

(** A later copy of a delivered block's symbol is ignored. *)
Lemma push_closed t em bid fl p n now air :
  0 <= bid < 2147483648 -> closed_block t bid ->
  push emit t em bid fl p n now air = Some (false, t, em).
Proof.
  intros Hbid [Hr Hh Hu]. unfold push. rewrite Hh, Hu, bid_diff_small by lia.
  by rewrite Z.sub_diag.
Qed.
End Push.
