(* ===== verification/EndToEnd.v ===== *)
(** * From framer to egress: lemmas

    A sender frames blobs ([FrameFramer.on_frame]); of each frame's packets a
    receiver hears any selection, in any order and with repetitions; each
    heard packet is decoded ([Wire.decode]) and, being DATA, pushed into the
    reassembler the way the receive node's delivery callback does
    ([node/src/rx_node.cpp]: block id, flags, payload and length of the
    decoded view). *)
From stdpp Require Import sorting.
From S2P Require Import Prelude Endian Types Wire WireLayout WireFacts Gf256 GfField Rlc RlcProps SMap Table FrameShm FrameFramer FrameSpec FramerFacts JsccLoss FrameReassembler ReassemblerFacts.

(** A frame to send, and which of its packets (by index) are heard, when, and
    whether over the air. *)
Record Sending : Type := MkSending {
  sd_blob : list Z;
  sd_ms : Z;
  sd_heard : list (nat * Z * bool)
}.

Section Link.
Context {HS E : Type} (emit : E -> list Z -> E * bool).

Abbreviation receiver := (FrameReassembler HS * Em HS E)%type.

(** The delivery callback of the receive node on one received packet. *)
Definition deliver (st : receiver) (frame : list Z) (now : Z) (air : bool)
  : option receiver :=
  d ← Wire.decode (Some frame);
  match d with
  | DData v =>
    '(_, t, em) ← push emit st.1 st.2 v.(dv_hdr).(dh_block_id) v.(dv_hdr).(dh_data_flags)
                    v.(dv_payload) v.(dv_payload_len) now air;
    Some (t, em)
  | _ => Some st
  end.

Definition hear (out : list Emitted) (st : receiver) (h : nat * Z * bool) : option receiver :=
  pkt ← out !! h.1.1; deliver st pkt.(e_frame) h.1.2 h.2.

(** One frame over the link. *)
Definition transmit (st : FrameFramer * receiver) (x : Sending)
  : option (FrameFramer * receiver) :=
  '(_, f, out) ← on_frame st.1 (Some x.(sd_blob)) (len x.(sd_blob)) x.(sd_ms);
  rx ← foldM (hear out) x.(sd_heard) st.2;
  Some (f, rx).

(** Enough distinct packets were heard. *)
Definition heard_enough (s : nat) (x : Sending) : bool :=
  (block_k x.(sd_blob) s <=? length (remove_dups (map (fun h => h.1.1) x.(sd_heard))))%nat.

(** The frames of which enough was heard: block id and blob. *)
Fixpoint recoverable (s : nat) (bid : Z) (xs : list Sending) : list (Z * list Z) :=
  match xs with
  | [] => []
  | x :: xs => (if heard_enough s x then [(bid, x.(sd_blob))] else [])
               ++ recoverable s (bid + 1) xs
  end.

(** ** One packet *)
Section Packet.
Context (f : FrameFramer) (bid : Z) (b : list Z) (s r : nat) (ms : Z).
Context (Hf : wf_framer f) (Hbid : u32 bid) (Hb : bytes b) (Hb8 : (8 <= length b)%nat).
Context (Hb32 : u32 (len b)) (Hs : (21 <= s)%nat) (Hs2 : Z.of_nat s <= 4085).
Context (Hk : Z.of_nat (block_k b s) <= 65535).
Context (Hflags : Z.land f.(extra_flags_) data_flags_kFecRepair = 0).

Lemma symbol_payload_wf y :
  sendable b s y ->
  bytes (symbol_payload b s f.(next_seq_) y) /\
  0 < len (symbol_payload b s f.(next_seq_) y) <= 4096.
Proof.
  intros Hy. destruct y as [i|j]; cbn [symbol_payload].
  - unfold source_payload. pose proof (chunk_nonempty b s ltac:(lia) ltac:(lia) i Hy) as Hc.
    split.
    + repeat (apply Forall_app; split);
        first [apply be16_bytes_bytes|by apply Forall_take, Forall_drop].
    + rewrite !length_app. cbn [length be16_bytes]. lia.
  - destruct (coded_spec b s ltac:(lia) ltac:(lia) j Hb Hy) as (_ & _ & Hcl & Hcb).
    unfold sendable, sym_valid in Hy. unfold repair_payload. split.
    + apply Forall_app; split; [constructor; [unfold u8; lia|constructor]|].
      repeat (apply Forall_app; split);
        first [apply be16_bytes_bytes|apply be32_bytes_bytes|exact Hcb].
    + rewrite !length_app, Hcl. cbn [length be16_bytes be32_bytes]. lia.
Qed.

Lemma block_header_wf n y last : wf_data_header (block_header f bid n y last).
Proof.
  destruct Hf. unfold block_header, frame_header, wf_data_header, wf_prefix.
  cbn [dh_prefix dh_stream_id dh_stream_type dh_seq dh_block_id dh_data_flags
    dh_active_profile dh_table_version originator destination session_id
    set_counters cfg_ next_seq_ active_profile_ table_version_].
  split_and!; auto using to_u8_u8, to_u32_u32.
Qed.

Lemma packet_decodes n y :
  sendable b s y ->
  Wire.decode (Some (block_packet f bid b s r ms n y).(e_frame)) =
  Some (DData (MkDataView (block_header f bid n y (n =? block_k b s + r - 1)%nat)
    (Some (symbol_payload b s f.(next_seq_) y)) (len (symbol_payload b s f.(next_seq_) y)))).
Proof.
  intros Hy. destruct (symbol_payload_wf y Hy) as [Hp Hl].
  unfold block_packet. cbn [e_frame].
  set (p := symbol_payload b s f.(next_seq_) y) in *. set (h := block_header _ _ _ _ _).
  pose proof (decode_layout (PData h (Some p) (len p))) as H. red in H.
  cbn [packet_valid packet_receivable wf_packet view] in H.
  unfold kMaxDataPayload in H. rewrite H; [| |done|apply Z.leb_le; lia].
  - do 3 f_equal. unfold view_ptr, ptr_bytes. destruct (Z.gtb_spec (len p) 0); [|lia].
    cbn [default id]. by rewrite Nat2Z.id, firstn_all.
  - split; [apply block_header_wf|]. split; [unfold u16; lia|]. split; [done|lia].
Qed.

Lemma header_flags n y last : flags_for (block_header f bid n y last).(dh_data_flags) y.
Proof.
  unfold flags_for, block_header, frame_header, data_flags_kFecRepair, data_flags_kEndOfBlock in *.
  cbn [dh_data_flags extra_flags_ set_counters]. pose proof (wff_flags f Hf) as Hu.
  set (x := extra_flags_ f) in *.
  assert (Hbit : Z.testbit x 3 = false).
  { assert (H : Z.testbit (Z.land x 8) 3 = false) by (by rewrite Hflags).
    rewrite Z.land_spec in H. by destruct (Z.testbit x 3). }
  assert (Hland : forall z, u8 z -> (Z.land z 8 =? 0) = negb (Z.testbit z 3)).
  { intros z Hz. apply Bool.eqb_prop.
    apply (forall_bytes (fun z => Bool.eqb (Z.land z 8 =? 0) (negb (Z.testbit z 3)))); [|done].
    vm_compute. reflexivity. }
  assert (Hlor : forall a c, u8 a -> u8 c -> u8 (Z.lor a c)).
  { intros a c Ha Hc. pose proof (lxor_u8 a c Ha Hc).
    change (u8 a) with (0 <= a < 2 ^ 8) in Ha. change (u8 c) with (0 <= c < 2 ^ 8) in Hc.
    assert (H0 : 0 <= Z.lor a c) by (apply Z.lor_nonneg; lia).
    split; [done|]. change 256 with (2 ^ 8). apply lt_pow2_of_bits; [lia|done|].
    intros i Hi. by rewrite Z.lor_spec, !(bits_above 8) by lia. }
  assert (Hlast : u8 (if last then 1 else 0)) by (destruct last; split; done).
  destruct y as [i|j].
  - rewrite to_u8_id by auto. rewrite Hland by auto. rewrite Z.lor_spec, Hbit.
    by destruct last.
  - assert (H8 : u8 8) by (split; done).
    rewrite to_u8_id by auto. rewrite Hland by auto. rewrite !Z.lor_spec, Hbit.
    by destruct last.
Qed.
End Packet.

(** ** One block *)
Section BlockLink.
Context (f : FrameFramer) (bid : Z) (b : list Z) (s r : nat) (ms max_bytes : Z).
Context (Hf : wf_framer f) (Hbid : 0 <= bid < 2147483648).
Context (Hb : bytes b) (Hb8 : (8 <= length b)%nat) (Hmax : len b <= max_bytes).
Context (Hmax32 : u32 max_bytes) (Hs : (21 <= s)%nat) (Hs2 : Z.of_nat s <= 4085).
Context (Hk : Z.of_nat (block_k b s) <= 65535).
Context (Hr : r = 0%nat \/ (block_k b s + r <= 256)%nat).
Context (Hflags : Z.land f.(extra_flags_) data_flags_kFecRepair = 0).

Lemma block_symbols_sendable : Forall (sendable b s) (block_symbols b s r).
Proof.
  apply Forall_app. split; apply Forall_map, Forall_seq; intros i Hi;
    unfold sendable, sym_valid; lia.
Qed.

Lemma block_symbols_nodup : NoDup (block_symbols b s r).
Proof.
  apply NoDup_app. split; [|split].
  - apply NoDup_fmap_2; [by intros ? ? [= ->]|]. apply NoDup_seq.
  - intros y Hy Hy'. apply list_elem_of_fmap in Hy as (i & -> & _).
    by apply list_elem_of_fmap in Hy' as (j & ? & _).
  - apply NoDup_fmap_2; [by intros ? ? [= ->]|]. apply NoDup_seq.
Qed.

(** The symbol of a heard packet. *)
Definition heard_symbol (h : nat * Z * bool) : option Sym := block_symbols b s r !! h.1.1.

Lemma hear_packet h y (st : receiver) :
  heard_symbol h = Some y ->
  hear (block_packets f bid b s r ms) st h =
  '(_, t, em) ← push emit st.1 st.2 bid
     (block_header f bid h.1.1 y (h.1.1 =? block_k b s + r - 1)%nat).(dh_data_flags)
     (Some (symbol_payload b s f.(next_seq_) y)) (len (symbol_payload b s f.(next_seq_) y))
     h.1.2 h.2;
  Some (t, em).
Proof.
  intros Hy. unfold hear, block_packets. rewrite list_lookup_imap.
  unfold heard_symbol in Hy. rewrite Hy. cbn [fmap option_fmap option_map mbind option_bind].
  unfold deliver. assert (Hys : sendable b s y).
  { pose proof block_symbols_sendable as H. eapply Forall_lookup_1 in H; [|exact Hy]. done. }
  rewrite packet_decodes by (done || unfold u32 in *; lia). done.
Qed.

Definition fresh_call (em : Em HS E) (em' : Em HS E) : Prop :=
  exists ok, em'.(em_log) = em.(em_log) ++ [MkCall bid b ok].

Lemma block_received (hs : list (nat * Z * bool)) (ys : list Sym) t em :
  ready max_bytes t bid -> mapM heard_symbol hs = Some ys ->
  exists t' em', foldM (hear (block_packets f bid b s r ms)) hs (t, em) = Some (t', em') /\
    if decide (length (remove_dups ys) < block_k b s)%nat
    then em'.(em_log) = em.(em_log) /\ receiving b s max_bytes t' bid ys
    else fresh_call em em' /\ closed_block max_bytes t' bid.
Proof.
  intros Hready Hys.
  assert (Hk1 : (1 <= block_k b s)%nat) by (unfold block_k; lia).
  destruct (foldM_ind (hear (block_packets f bid b s r ms))
    (fun pre st => exists ys', mapM heard_symbol pre = Some ys' /\
      if decide (length (remove_dups ys') < block_k b s)%nat
      then st.2.(em_log) = em.(em_log) /\ receiving b s max_bytes st.1 bid ys'
      else fresh_call em st.2 /\ closed_block max_bytes st.1 bid) hs (t, em))
    as ([t' em'] & E1 & ys' & E2 & H).
  - exists []. split; [done|]. rewrite decide_True by (cbn; lia). split; [done|]. by left.
  - intros pre h post [t1 em1] El (ys1 & E1 & H1). cbn [fst snd] in *.
    assert (Hh : exists y, heard_symbol h = Some y).
    { pose proof (proj1 (mapM_Some _ _ _) Hys) as HF.
      destruct (Forall2_lookup_l _ _ _ (length pre) h HF) as (y & _ & Hy); [|by exists y].
      rewrite El. by apply list_lookup_middle. }
    destruct Hh as [y Ey].
    rewrite (hear_packet h y) by done. cbn [fst snd].
    assert (Hsnoc : mapM heard_symbol (pre ++ [h]) = Some (ys1 ++ [y])) by by apply mapM_snoc.
    assert (Hall : Forall (sendable b s) (ys1 ++ [y])).
    { apply Forall_lookup_2. intros i z Hz. apply mapM_Some in Hsnoc.
      destruct (Forall2_lookup_r _ _ _ _ _ Hsnoc Hz) as (h' & _ & Hh').
      pose proof block_symbols_sendable as H. eapply Forall_lookup_1 in H; [|exact Hh']. done. }
    set (fl := dh_data_flags _).
    assert (Hfl : flags_for fl y) by (by apply (header_flags f bid b s)).
    destruct (decide (length (remove_dups ys1) < block_k b s)%nat) as [Hlt|Hge].
    + destruct H1 as [Hlog Hrec].
      pose proof (push_symbol emit b s f.(next_seq_) max_bytes Hb Hb8 Hmax Hmax32 Hs Hs2 Hk
        (wff_seq f Hf) t1 em1 bid ys1 y fl h.1.2 h.2 Hbid Hrec Hall Hlt Hfl) as Hp.
      cbn zeta in Hp.
      destruct (decide (length (remove_dups (ys1 ++ [y])) < block_k b s)%nat) as [Hlt'|Hge'].
      * destruct Hp as (t2 & -> & Ho). cbn [mbind option_bind].
        eexists; split; [reflexivity|]. exists (ys1 ++ [y]). split; [done|].
        rewrite decide_True by done. cbn [fst snd em_log]. split; [done|].
        right. split; [by destruct ys1|done].
      * destruct Hp as (t2 & -> & Hc). cbn [mbind option_bind].
        eexists; split; [reflexivity|]. exists (ys1 ++ [y]). split; [done|].
        rewrite decide_False by done. cbn [fst snd]. split; [|done].
        unfold fresh_call, call_emit. cbn [em_env em_log].
        destruct (emit (em_env em1) b) as [e ok]. exists ok. cbn. by rewrite Hlog.
    + destruct H1 as [Hfc Hc].
      rewrite (push_closed emit b s max_bytes) by done. cbn [mbind option_bind].
      eexists; split; [reflexivity|]. exists (ys1 ++ [y]). split; [done|].
      rewrite decide_False; [done|]. intros Hlt. apply Hge.
      eapply Nat.le_lt_trans; [|exact Hlt].
      apply submseteq_length, NoDup_submseteq; [apply NoDup_remove_dups|].
      intros z. rewrite !elem_of_remove_dups. set_solver.
  - exists t', em'. split; [done|]. rewrite E2 in Hys. injection Hys as <-. done.
Qed.
End BlockLink.

(** ** A stream of blocks *)

(** The number of packets the framer emits for a frame. *)
Definition packet_count (f : FrameFramer) (x : Sending) : nat :=
  (block_k x.(sd_blob) (Z.to_nat (symbol_size f)) +
   Z.to_nat (frame_repairs f (len x.(sd_blob)) (blob_flags x.(sd_blob))))%nat.

Definition sending_ok (f : FrameFramer) (max_bytes : Z) (x : Sending) : Prop :=
  bytes x.(sd_blob) /\ 8 <= len x.(sd_blob) <= max_bytes /\
  Forall (fun h => (h.1.1 < packet_count f x)%nat) x.(sd_heard).

(** A framer in a configuration whose symbols fit a DATA packet. *)
Record sender_ok (f : FrameFramer) (max_bytes : Z) : Prop := {
  so_wf : wf_framer f;
  so_s : 21 <= symbol_size f <= 4085;
  so_max : max_bytes <= 65535 * 21;
  so_flags : Z.land f.(extra_flags_) data_flags_kFecRepair = 0;
  so_override : f.(override_parity_) = None
}.

(** Same configuration: same symbol size, same repairs. *)
Record same_config (f f' : FrameFramer) : Prop := {
  cfgs_cfg : f'.(cfg_) = f.(cfg_);
  cfgs_max : f'.(profile_max_payload_) = f.(profile_max_payload_);
  cfgs_budget : f'.(negotiated_packet_budget_) = f.(negotiated_packet_budget_);
  cfgs_override : f'.(override_parity_) = f.(override_parity_)
}.

Lemma same_symbol_size f f' : same_config f f' -> symbol_size f' = symbol_size f.
Proof. intros [_ E1 E2 _]. unfold symbol_size, effective_packet_budget. by rewrite E1, E2. Qed.

Lemma same_repairs f f' blen fl :
  same_config f f' -> frame_repairs f' blen fl = frame_repairs f blen fl.
Proof.
  intros H. pose proof (same_symbol_size f f' H) as Es. unfold frame_repairs, frame_k.
  rewrite Es, (cfgs_override _ _ H).
  assert (Eg : forall s k, jumbo_fec_guard f' blen s k = jumbo_fec_guard f blen s k).
  { intros. unfold jumbo_fec_guard, is_rlc256. by rewrite (cfgs_cfg _ _ H). }
  rewrite Eg. apply choose_repairs_cfg, H.
Qed.

Lemma same_sending f f' mb x : same_config f f' -> sending_ok f mb x -> sending_ok f' mb x.
Proof.
  intros H (H1 & H2 & H3). split; [done|]. split; [done|].
  unfold packet_count in *. by rewrite (same_symbol_size f f' H), (same_repairs f f' _ _ H).
Qed.

Lemma remove_dups_map {A B} `{EqDecision A} `{EqDecision B} (g : A -> B) (l : list A) :
  (forall x y, x ∈ l -> y ∈ l -> g x = g y -> x = y) ->
  length (remove_dups (map g l)) = length (remove_dups l).
Proof.
  intros Hg. rewrite <- (length_map g (remove_dups l)).
  apply Permutation_length, NoDup_Permutation.
  - apply NoDup_remove_dups.
  - apply NoDup_fmap_2_strong; [|apply NoDup_remove_dups].
    intros x y Hx Hy. rewrite elem_of_remove_dups in Hx, Hy. auto.
  - intros z. rewrite elem_of_remove_dups, !list_elem_of_fmap.
    split; intros (x & -> & Hx); exists x; (split; [done|]); by apply elem_of_remove_dups.
Qed.

(** Distinct packets are distinct symbols. *)
Lemma heard_distinct b s r (hs : list (nat * Z * bool)) :
  (0 < s)%nat -> (0 < length b)%nat ->
  Forall (fun h => (h.1.1 < block_k b s + r)%nat) hs ->
  exists ys, mapM (heard_symbol b s r) hs = Some ys /\
    length (remove_dups ys) = length (remove_dups (map (fun h => h.1.1) hs)).
Proof.
  intros Hs Hb Hh. set (l := block_symbols b s r).
  assert (Hlen : length l = (block_k b s + r)%nat).
  { unfold l, block_symbols. by rewrite length_app, !length_map, !length_seq. }
  set (g := fun i => nth i l (Src 0)).
  assert (Hg : forall i, (i < block_k b s + r)%nat -> l !! i = Some (g i)).
  { intros i Hi. destruct (lookup_lt_is_Some_2 l i) as [y Hy]; [lia|].
    rewrite Hy. f_equal. symmetry. by apply nth_lookup_Some. }
  exists (map (fun h => g h.1.1) hs). split.
  - apply mapM_Some. induction Hh as [|h hs Hh0 Hh IH]; [constructor|].
    constructor; [by apply Hg|done].
  - rewrite <- (map_map (fun h : nat * Z * bool => h.1.1) g). apply remove_dups_map.
    assert (Hlt : forall i, i ∈ map (fun h : nat * Z * bool => h.1.1) hs -> (i < block_k b s + r)%nat).
    { intros i Hi. apply list_elem_of_fmap in Hi as (h & -> & Hin).
      eapply Forall_forall in Hh; [|exact Hin]. done. }
    intros i j Hi%Hlt Hj%Hlt E0.
    eapply (NoDup_lookup l); [|apply Hg, Hi|rewrite E0; apply Hg, Hj].
    apply (block_symbols_nodup b s r).
Qed.

Lemma ready_later max_bytes (t : FrameReassembler HS) next : ready max_bytes t next -> ready max_bytes t (next + 1).
Proof.
  intros [? ? ? ? Hk Hf Hh ?]. split; try done.
  - intros e He%Hk. lia.
  - unfold fin_below in *. intros Hx%Hf. lia.
  - intros Hx%Hh. lia.
Qed.

Lemma transmit_ok f t em x max_bytes :
  sender_ok f max_bytes -> sending_ok f max_bytes x -> u32 max_bytes ->
  0 <= f.(block_id_) < 2147483647 -> ready max_bytes t f.(block_id_) ->
  exists f' t' em' new, transmit (f, (t, em)) x = Some (f', (t', em')) /\
    sender_ok f' max_bytes /\ same_config f f' /\ f'.(block_id_) = f.(block_id_) + 1 /\
    ready max_bytes t' (f.(block_id_) + 1) /\ em'.(em_log) = em.(em_log) ++ new /\
    map (fun c => (c.(c_block), c.(c_frame))) new =
      if heard_enough (Z.to_nat (symbol_size f)) x then [(f.(block_id_), x.(sd_blob))] else [].
Proof.
  intros [Hwf Hs Hmx Hfl Hov] (Hb & Hlen & Hh) Hmax32 Hbid Hready.
  set (s := Z.to_nat (symbol_size f)). set (b := x.(sd_blob)) in *.
  assert (Hk : Z.of_nat (block_k b s) <= 65535).
  { pose proof (block_k_bounds b s ltac:(lia) ltac:(lia)) as Hkb.
    assert (21 * (block_k b s - 1) <= s * (block_k b s - 1))%nat by (apply Nat.mul_le_mono_r; lia).
    lia. }
  pose proof (frame_k_block f b ltac:(lia) ltac:(lia)) as Hfk. fold s in Hfk.
  pose proof (block_k_pos b s ltac:(lia) ltac:(lia)) as Hk1.
  pose proof (frame_repairs_bound f (len b) (blob_flags b) Hwf ltac:(lia)) as [Hr0 Hr].
  destruct (on_frame_spec f b x.(sd_ms) Hwf Hb ltac:(lia) ltac:(unfold u32 in *; lia)
    ltac:(lia) ltac:(lia)) as (f' & Hof & F1 & F2 & F3 & F4 & F5 & F6 & F7 & F8 & F9 & F10 & F11).
  fold s in Hof, F2. set (r := Z.to_nat (frame_repairs f (len b) (blob_flags b))) in *.
  assert (Hrk : r = 0%nat \/ (block_k b s + r <= 256)%nat) by (unfold r; lia).
  destruct (heard_distinct b s r x.(sd_heard)) as (ys & Hys & Hcount); [lia..|exact Hh|].
  destruct (block_received f f.(block_id_) b s r x.(sd_ms) max_bytes Hwf ltac:(lia) Hb ltac:(lia)
    ltac:(lia) Hmax32 ltac:(lia) ltac:(lia) Hk Hrk Hfl x.(sd_heard) ys t em Hready Hys)
    as (t' & em' & Hrx & Hres).
  assert (Hsc : same_config f f') by (split; congruence).
  assert (Hwf' : wf_framer f').
  { destruct Hwf. split; rewrite ?F1, ?F2, ?F3, ?F4, ?F5, ?F6, ?F7, ?F8, ?F9; auto using to_u32_u32.
    cbn. unfold u16; lia. }
  assert (Hso : sender_ok f' max_bytes).
  { split; [done| |done|by rewrite F5|done]. rewrite (same_symbol_size f f' Hsc). done. }
  assert (Hbid' : f'.(block_id_) = f.(block_id_) + 1).
  { rewrite F3. apply to_u32_id. unfold u32; lia. }
  exists f', t', em'.
  assert (Htx : transmit (f, (t, em)) x = Some (f', (t', em'))).
  { unfold transmit. cbn [fst snd]. fold b. rewrite Hof. cbn [mbind option_bind].
    rewrite Hrx. done. }
  unfold heard_enough. fold b. rewrite <- Hcount.
  destruct (decide (length (remove_dups ys) < block_k b s)%nat) as [Hlt|Hge].
  - destruct Hres as [Hlog Hrec]. exists []. split; [done|]. split; [done|]. split; [done|].
    split; [done|]. split.
    + destruct Hrec as [[_ H]|[_ H]]; [by apply ready_later with (next := block_id_ f)|apply H].
    + rewrite app_nil_r. split; [done|].
      by destruct (Nat.leb_spec (block_k b s) (length (remove_dups ys))); [lia|].
  - destruct Hres as [[ok Hlog] Hc]. exists [MkCall f.(block_id_) b ok].
    split; [done|]. split; [done|]. split; [done|]. split; [done|]. split; [apply Hc|].
    split; [done|].
    by destruct (Nat.leb_spec (block_k b s) (length (remove_dups ys))); [|lia].
Qed.

Lemma stream_ok xs : forall f t em max_bytes,
  sender_ok f max_bytes -> Forall (sending_ok f max_bytes) xs -> u32 max_bytes ->
  0 <= f.(block_id_) -> f.(block_id_) + len xs <= 2147483647 ->
  ready max_bytes t f.(block_id_) ->
  exists f' t' em' new, foldM transmit xs (f, (t, em)) = Some (f', (t', em')) /\
    em'.(em_log) = em.(em_log) ++ new /\
    map (fun c => (c.(c_block), c.(c_frame))) new =
      recoverable (Z.to_nat (symbol_size f)) f.(block_id_) xs.
Proof.
  induction xs as [|x xs IH]; intros f t em mb Hso Hxs Hmb Hb0 Hbn Hr.
  - exists f, t, em, []. rewrite app_nil_r. done.
  - apply Forall_cons in Hxs as [Hx Hxs]. cbn [length] in Hbn.
    destruct (transmit_ok f t em x mb Hso Hx Hmb ltac:(lia) Hr)
      as (f1 & t1 & em1 & new1 & E1 & Hso1 & Hsc & Hb1 & Hr1 & L1 & N1).
    destruct (IH f1 t1 em1 mb) as (f2 & t2 & em2 & new2 & E2 & L2 & N2); [done| |done|lia|lia| |].
    { eapply Forall_impl; [exact Hxs|]. intros y. by apply same_sending. }
    { by rewrite Hb1. }
    exists f2, t2, em2, (new1 ++ new2). cbn [foldM]. rewrite E1. cbn [mbind option_bind].
    split; [done|]. split; [by rewrite L2, L1, app_assoc|].
    rewrite map_app, N1, N2, Hb1, (same_symbol_size f f1 Hsc). done.
Qed.
End Link.
