(* ===== verification/ReassemblerSafe.v ===== *)
(** * The reassembler under arbitrary input: lemmas

    The invariant of the reassembler, which holds whatever packets arrive, and
    what it guarantees: no operation leaves the memory of the program, emitted
    frames have a bounded size, and accepted frames leave in block order. *)
From stdpp Require Import sorting.
From S2P Require Import Prelude Endian Types Gf256 GfField Rlc RlcProps SMap FrameShm JsccLoss FrameReassembler ReassemblerFacts.
(** ** The decoder on arbitrary symbols *)

(** Shape of a decoder: rows of the right widths, one payload per row. *)
Record dec_ok (k s : nat) (d : RlcDecoder) : Prop := {
  dk_k : d.(k_) = Z.of_nat k;
  dk_s : d.(s_) = s;
  dk_len : length d.(data_) = length d.(coeffs_);
  dk_coeffs : Forall (wf_row k) d.(coeffs_);
  dk_data : Forall (wf_row s) d.(data_)
}.

Lemma dec_ok_init k s : dec_ok k s (RlcDecoder_init (Z.of_nat k) s).
Proof. by split. Qed.

Lemma slice_row s data : bytes data -> (s <= length data)%nat ->
  exists p, slice data 0 s = Some p /\ wf_row s p.
Proof.
  intros Hb Hl. unfold slice. destruct (Nat.leb_spec (0 + s) (length data)); [|lia].
  eexists. split; [reflexivity|]. split; [rewrite length_take, length_drop; lia|].
  by apply Forall_take, Forall_drop.
Qed.

Lemma add_source_ok k s d i data :
  dec_ok k s d -> 0 <= i -> bytes data -> (s <= length data)%nat ->
  exists d', add_source d i data = Some d' /\ dec_ok k s d'.
Proof.
  intros [Hk Hs Hl Hc Hd] Hi Hb Hdl. unfold add_source.
  destruct (_ || _) eqn:G; [by exists d|].
  assert (Hik : i < Z.of_nat k).
  { rewrite Hk in G. destruct (Z.geb_spec i (Z.of_nat k)); [done|lia]. }
  rewrite Hs. destruct (slice_row s data Hb Hdl) as (p & -> & Hp). cbn [mbind option_bind].
  eexists. split; [reflexivity|]. split; cbn [k_ s_ data_ coeffs_].
  - done.
  - done.
  - rewrite !length_app. cbn. lia.
  - apply Forall_app. split; [done|]. constructor; [|constructor].
    rewrite Hk, Nat2Z.id. split; [by rewrite length_insert, length_replicate|].
    apply Forall_insert; [|unfold u8; lia]. apply Forall_replicate. unfold u8; lia.
  - apply Forall_app. auto.
Qed.

Lemma add_repair_ok k s d j data :
  dec_ok k s d -> bytes data -> (s <= length data)%nat ->
  exists d', add_repair d j data = Some d' /\ dec_ok k s d'.
Proof.
  intros [Hk Hs Hl Hc Hd] Hb Hdl. unfold add_repair. destruct (_ || _); [by exists d|].
  rewrite Hs. destruct (slice_row s data Hb Hdl) as (p & -> & Hp). cbn [mbind option_bind].
  eexists. split; [reflexivity|]. split; cbn [k_ s_ data_ coeffs_].
  - done.
  - done.
  - rewrite !length_app. cbn. lia.
  - apply Forall_app. split; [done|]. constructor; [|constructor]. rewrite Hk. apply repair_row_wf.
  - apply Forall_app. auto.
Qed.

(** Elimination preserves the shape of both matrices. *)
Definition shaped (k s : nat) (ab : matrices) : Prop := wf_mat k k ab.1 /\ wf_mat k s ab.2.

Lemma eliminate_shaped k s col l : forall ab,
  (col < k)%nat -> Forall (fun r => (r < k)%nat) l -> shaped k s ab ->
  shaped k s (fold_left (eliminate_row col) l ab).
Proof.
  induction l as [|r l IH]; intros [a b] Hc Hl [Ha Hb]; [done|].
  apply Forall_cons in Hl as [Hr Hl]. cbn [fold_left]. apply IH; [done|done|].
  unfold eliminate_row. destruct (r =? col)%nat; [done|]. destruct (_ =? 0); [done|].
  split; cbn in *; by apply add_row_wf.
Qed.

Lemma gauss_step_shaped k s col ab ab' :
  (col < k)%nat -> shaped k s ab -> gauss_step k ab col = Some ab' -> shaped k s ab'.
Proof.
  intros Hc [Ha Hb] H. unfold gauss_step in H. destruct ab as [a b]. cbn in Ha, Hb.
  set (p := find_pivot a col col (k - col)) in *.
  pose proof (find_pivot_spec a col (k - col) col) as [Hp _]. fold p in Hp.
  destruct (Nat.eqb_spec p k) as [|Hne]; [done|]. injection H as <-.
  apply eliminate_shaped; [done|by apply Forall_seq; lia|].
  set (ab := if (p =? col)%nat then (a, b) else _).
  assert (Hab : shaped k s ab).
  { unfold ab. destruct (p =? col)%nat; [done|]. split; apply swap_wf; (done || lia). }
  destruct ab as [a1 b1], Hab as [Ha1 Hb1]. cbn in Ha1, Hb1. unfold normalize.
  destruct (_ =? 1); [done|]. split; apply scale_wf; eauto using at2_u8 with ints.
Qed.

Lemma gauss_loop_shaped k s l : forall ab ab',
  Forall (fun c => (c < k)%nat) l -> shaped k s ab ->
  foldM (gauss_step k) l ab = Some ab' -> shaped k s ab'.
Proof.
  induction l as [|c l IH]; intros ab ab' Hl Hab H; [by injection H as <-|].
  apply Forall_cons in Hl as [Hc Hl]. cbn [foldM] in H.
  destruct (gauss_step k ab c) as [ab1|] eqn:E; [|done]. cbn in H.
  apply (IH ab1); [done|by eapply gauss_step_shaped|done].
Qed.

Lemma write_rows_ok k s b out :
  wf_mat k s b -> length out = (k * s)%nat -> bytes out ->
  exists out', write_rows b s k out = Some out' /\ length out' = (k * s)%nat /\ bytes out'.
Proof.
  intros Hm Hl Hb. unfold write_rows.
  destruct (foldM_ind (fun out i => memcpy out (i * s) (nth i b []) s)
    (fun _ o => length o = (k * s)%nat /\ bytes o) (seq 0 k) out) as (o & Ho & H); [done| |].
  - intros pre i post o E [Hlo Hbo].
    assert (Hi : (i < k)%nat).
    { assert (H : i ∈ seq 0 k) by (rewrite E; set_solver). apply elem_of_seq in H. lia. }
    destruct (wf_nth _ _ _ _ Hm Hi) as [Hr Hrb]. unfold memcpy.
    destruct (Nat.leb_spec (i * s + s) (length o)); [|nia].
    destruct (Nat.leb_spec s (length (nth i b []))); [|lia].
    eexists. split; [reflexivity|]. split.
    + rewrite !length_app, !length_take, length_drop. nia.
    + repeat (apply Forall_app; split); [by apply Forall_take| |by apply Forall_drop].
      by apply Forall_take.
  - eauto.
Qed.

Lemma decode_safe k s d :
  dec_ok k s d ->
  exists ok out, decode d (replicate (k * s) 0) = Some (ok, out) /\
    length out = (k * s)%nat /\ bytes out.
Proof.
  intros [Hk Hs Hl Hc Hd]. unfold decode.
  assert (H0 : bytes (replicate (k * s) 0)) by (apply Forall_replicate; unfold u8; lia).
  assert (Hr : length (replicate (k * s) 0) = (k * s)%nat) by apply length_replicate.
  destruct (Z.ltb_spec (len (coeffs_ d)) (k_ d)); [by eauto|].
  rewrite Hk, Hs, Nat2Z.id.
  destruct (foldM _ _ _) as [[a b]|] eqn:E; [|by eauto].
  apply (gauss_loop_shaped k s) in E as [_ Hb]; [|by apply Forall_seq; lia|].
  - destruct (write_rows_ok k s b _ Hb Hr H0) as (o & -> & Ho). cbn. eauto.
  - split; cbn [fst snd]; (split; [rewrite length_take; lia|by apply Forall_take]).
Qed.

(** ** The invariant *)
Section Invariant.
Context (max_bytes : Z).

(** A block under construction, whatever its symbols were. *)
Record wf_block (b : Block) : Prop := {
  wb_k : u16 b.(b_k);
  wb_s : 0 <= b.(b_s) <= kMaxDataPayload;
  wb_len : b.(b_frame_len) = 0 \/ kVencFrameMetaSize <= b.(b_frame_len);
  wb_none : b.(b_k) = 0 -> b.(b_sources) = [] /\ b.(b_repairs) = [];
  wb_sources : sm_sorted b.(b_sources) /\
    forall e, e ∈ b.(b_sources) -> 0 <= e.1 < b.(b_k) /\ bytes e.2 /\ 0 < len e.2;
  wb_repairs : sm_sorted b.(b_repairs) /\
    forall e, e ∈ b.(b_repairs) ->
      0 <= e.1 /\ b.(b_k) + e.1 < kFecMaxSymbols /\ bytes e.2 /\ 0 < len e.2 /\ len e.2 = b.(b_s)
}.

Lemma wf_block_init now : wf_block (Block_init now).
Proof.
  split; cbn; try (split; [constructor|]); try (intros e He; by apply not_elem_of_nil in He);
    unfold u16, kMaxDataPayload; try lia; auto.
Qed.

Lemma wf_block_eob b eob now : wf_block b -> wf_block (set_eob b eob now).
Proof. intros []. unfold set_eob. by destruct (_ && _); split. Qed.

Lemma payload_be16 p off :
  bytes p -> (off + 2 <= length p)%nat -> exists v, be16_read p off = Some v /\ u16 v.
Proof.
  intros Hb Hl. unfold be16_read, rd8.
  destruct (lookup_lt_is_Some_2 p off) as [x Hx]; [lia|].
  destruct (lookup_lt_is_Some_2 p (off + 1)) as [y Hy]; [lia|].
  rewrite Hx, Hy. cbn. eexists. split; [reflexivity|]. auto with ints.
Qed.

Lemma payload_be32 p off :
  bytes p -> (off + 4 <= length p)%nat -> exists v, be32_read p off = Some v.
Proof.
  intros Hb Hl. unfold be32_read, rd8.
  destruct (lookup_lt_is_Some_2 p off) as [x0 ->]; [lia|].
  destruct (lookup_lt_is_Some_2 p (off + 1)) as [x1 ->]; [lia|].
  destruct (lookup_lt_is_Some_2 p (off + 2)) as [x2 ->]; [lia|].
  destruct (lookup_lt_is_Some_2 p (off + 3)) as [x3 ->]; [lia|]. cbn. eauto.
Qed.

Lemma payload_slice p off n :
  bytes p -> (off + n <= length p)%nat ->
  exists l, slice p off n = Some l /\ bytes l /\ length l = n.
Proof.
  intros Hb Hl. unfold slice. destruct (Nat.leb_spec (off + n) (length p)); [|lia].
  eexists. split; [reflexivity|]. split; [by apply Forall_take, Forall_drop|].
  rewrite length_take, length_drop. lia.
Qed.

Lemma wf_geometry b k s flen :
  wf_block b -> u16 k -> k <> 0 -> 0 <= s <= kMaxDataPayload ->
  (b.(b_k) = 0 \/ b.(b_k) = k) -> (b.(b_s) = 0 \/ b.(b_s) = s) ->
  (flen = b.(b_frame_len) \/ kVencFrameMetaSize <= flen) ->
  wf_block (set_geometry b k s flen).
Proof.
  intros [Hk Hs Hl Hn [Hs1 Hs2] [Hr1 Hr2]] Hku Hk0 Hsr Ek Es Hfl. split; cbn; try done.
  - destruct Hfl as [->|]; auto.
  - split; [done|]. intros e He. destruct Ek as [E | <-]; [|auto].
    destruct (Hn E) as [E1 _]. rewrite E1 in He. by apply not_elem_of_nil in He.
  - split; [done|]. intros e He. pose proof (Hr2 e He) as (? & ? & ? & ? & ?).
    destruct Ek as [E | <-].
    + destruct (Hn E) as [_ E1]. rewrite E1 in He. by apply not_elem_of_nil in He.
    + split_and!; try done. destruct Es; lia.
Qed.

Lemma wf_symbols b last m1 m2 air1 air2 :
  wf_block b -> b.(b_k) <> 0 -> sm_sorted m1 -> sm_sorted m2 ->
  (forall e, e ∈ m1 -> e ∈ b.(b_sources) \/ (0 <= e.1 < b.(b_k) /\ bytes e.2 /\ 0 < len e.2)) ->
  (forall e, e ∈ m2 -> e ∈ b.(b_repairs) \/
     (0 <= e.1 /\ b.(b_k) + e.1 < kFecMaxSymbols /\ bytes e.2 /\ 0 < len e.2 /\
      len e.2 = b.(b_s))) ->
  wf_block (set_symbols b last m1 m2 air1 air2).
Proof.
  intros [Hk Hs Hl Hn [Hs1 Hs2] [Hr1 Hr2]] Hk0 S1 S2 M1 M2. split; cbn; try done;
    (split; [done|]); intros e He; [destruct (M1 e He)|destruct (M2 e He)]; auto.
Qed.

(** [field already set to something else] was false. *)
Lemma or_known a c :
  negb (a =? 0) = false \/ negb (a =? c) = false -> a = 0 \/ a = c.
Proof. intros [H|H]; bool_hyps; auto. Qed.

Lemma push_repair_safe b p n now eob air :
  wf_block b -> bytes p -> n <= len p ->
  exists b' ok, push_repair max_bytes b (Some p) n now eob air = Some (b', ok) /\ wf_block b'.
Proof.
  intros Hb Hp Hn. unfold push_repair.
  destruct (Z.leb_spec n kFecRepairSubheaderSize) as [|H11]; [by eauto|]. cbn [mbind option_bind].
  change kFecRepairSubheaderSize with 11 in *.
  destruct (payload_be16 p kFecOffWindowLen Hp) as (k & -> & Hk); [cbn; lia|].
  destruct (payload_be32 p kFecOffFrameLen Hp) as (fl & ->); [cbn; lia|].
  destruct (lookup_lt_is_Some_2 p kFecOffRepairIdx) as [j Hj]; [unfold kFecOffRepairIdx; lia|].
  unfold rd8. rewrite Hj. cbn [mbind option_bind].
  assert (Hj8 : u8 j) by by apply (Forall_lookup_1 _ _ _ _ Hp Hj).
  repeat match goal with |- context [if ?c then Some (b, false) else _] =>
    let G := fresh "G" in destruct c eqn:G; [by eauto|] end.
  bool_hyps. change kMaxDataPayload with 4096 in *. change kFecMaxSymbols with 256 in *.
  rewrite to_u16_id by (unfold u16; lia).
  destruct (payload_slice p (Z.to_nat 11) (Z.to_nat (n - 11)) Hp) as (l & -> & Hl & Hll); [lia|].
  cbn [mbind option_bind].
  set (b1 := set_eob _ eob now).
  assert (Hb1 : wf_block b1).
  { apply wf_block_eob, wf_geometry; auto using or_known. unfold kMaxDataPayload. lia. }
  assert (E1 : b1.(b_k) = k /\ b1.(b_s) = n - 11) by (split; apply set_eob_fields).
  destruct E1 as [Ek Es], (wb_sources _ Hb1) as [S1 S2], (wb_repairs _ Hb1) as [R1 R2].
  destruct (sm_emplace j l b1.(b_repairs)) as [reps fresh] eqn:Er.
  apply (f_equal fst) in Er. cbn in Er. subst reps.
  eexists _, true. split; [reflexivity|]. apply wf_symbols; rewrite ?Ek, ?Es; auto with smap.
  intros e [->|He]%sm_emplace_elem; [|by left].
  right. cbn. unfold u8 in *. change kFecMaxSymbols with 256. split_and!; (done || lia).
Qed.

Lemma push_source_safe b p n now eob air :
  wf_block b -> bytes p -> n <= len p ->
  exists b' ok, push_source max_bytes b (Some p) n now eob air = Some (b', ok) /\ wf_block b'.
Proof.
  intros Hb Hp Hn. unfold push_source. change kFecSourceSubheaderSize with 4.
  destruct (Z.ltb_spec n 4) as [|H4]; [by eauto|]. cbn [mbind option_bind].
  destruct (payload_be16 p kFecSrcOffWindowLen Hp) as (k & -> & Hk); [cbn; lia|].
  destruct (payload_be16 p kFecSrcOffSymIndex Hp) as (i & -> & Hi); [cbn; lia|].
  cbn [mbind option_bind].
  match goal with |- context [if ?c then Some (b, false) else _] =>
    destruct c eqn:G1; [by eauto|] end.
  bool_hyps. pose proof (wb_s _ Hb) as Hbs.
  set (b0 := set_geometry b k (b_s b) (b_frame_len b)).
  assert (Hb0 : wf_block b0) by (apply wf_geometry; auto using or_known).
  match goal with |- context [if ?c then Some (b0, false) else _] =>
    destruct c eqn:G2; [by eauto|] end.
  apply orb_false_iff in G2 as [G2 _]. bool_hyps.
  set (b1 := if negb (i =? k - 1) && _ then _ else b0).
  assert (Hb1 : wf_block b1 /\ b1.(b_k) = k).
  { unfold b1. destruct (_ && (b_s b0 =? 0)) eqn:G3; [|done]. bool_hyps. split; [|done].
    change kMaxDataPayload with 4096 in *.
    rewrite to_u16_id by (unfold u16; lia). apply wf_geometry; auto. unfold kMaxDataPayload. lia. }
  destruct Hb1 as [Hb1 Ek1].
  match goal with |- context [if ?c then Some (b1, false) else _] =>
    destruct c eqn:G3; [by eauto|] end.
  destruct (payload_slice p (Z.to_nat 4) (Z.to_nat (n - 4)) Hp) as (l & -> & Hl & Hll); [lia|].
  cbn [mbind option_bind]. clearbody b0 b1. set (b2 := set_eob b1 eob now).
  assert (Hb2 : wf_block b2) by by apply wf_block_eob.
  assert (Ek : b2.(b_k) = k) by (rewrite <- Ek1; apply set_eob_fields).
  destruct (wb_sources _ Hb2) as [S1 S2], (wb_repairs _ Hb2) as [R1 R2].
  destruct (sm_emplace i l b2.(b_sources)) as [srcs fresh] eqn:Er.
  apply (f_equal fst) in Er. cbn in Er. subst srcs.
  eexists _, true. split; [reflexivity|]. apply wf_symbols; rewrite ?Ek; auto with smap.
  intros e [->|He]%sm_emplace_elem; [|by left].
  right. cbn. unfold u16 in *. split_and!; (done || lia).
Qed.
End Invariant.

(** ** Calls made by an operation *)

(** Every frame a hook emits satisfies [P]. *)
Fixpoint hook_emits {R} (P : list Z -> Prop) (p : HookProg R) : Prop :=
  match p with
  | HRet _ => True
  | HEmit frame cont => P frame /\ forall ok, hook_emits P (cont ok)
  end.

(** A hook that emits at most once, and reports success when the frame was
    accepted. *)
Definition hook_faithful {HS} (p : HookProg (HS * bool)) : Prop :=
  match p with
  | HRet _ => True
  | HEmit _ cont =>
    exists r, cont true = HRet r /\ r.2 = true /\ exists r', cont false = HRet r'
  end.

Section Safe.
Context {HS E : Type} (emit : E -> list Z -> E * bool).
Implicit Types (t : FrameReassembler HS) (em : Em HS E).

(** [em'] has made further calls, all satisfying [P]. *)
Definition logs (P : Call -> Prop) em em' : Prop :=
  exists new, em'.(em_log) = em.(em_log) ++ new /\ Forall P new.

Lemma logs_refl P em : logs P em em.
Proof. exists []. by rewrite app_nil_r. Qed.
Lemma logs_trans P em1 em2 em3 : logs P em1 em2 -> logs P em2 em3 -> logs P em1 em3.
Proof.
  intros (n1 & E1 & F1) (n2 & E2 & F2). exists (n1 ++ n2).
  split; [by rewrite E2, E1, app_assoc|by apply Forall_app].
Qed.
Lemma logs_one P em id fr : (forall ok, P (MkCall id fr ok)) -> logs P em (call_emit emit em id fr).1.
Proof.
  intros HP. unfold call_emit. destruct (emit (em_env em) fr) as [e ok]. exists [MkCall id fr ok]. auto.
Qed.

Lemma run_hook_logs {R} (P : list Z -> Prop) (p : HookProg R) id : forall em a c,
  hook_emits P p -> let '(em', _, _, _) := run_hook emit id p em a c in
  logs (fun call => P call.(c_frame)) em em'.
Proof.
  induction p as [r|fr cont IH]; intros em a c Hp; cbn [run_hook].
  - apply logs_refl.
  - destruct Hp as [Hfr Hc]. pose proof (logs_one (fun c => P c.(c_frame)) em id fr) as H1.
    destruct (call_emit emit em id fr) as [em1 ok]. cbn in H1.
    pose proof (IH ok em1 true ok (Hc ok)) as H2. destruct (run_hook _ _ _ _ _ _) as [[[? ?] ?] ?].
    eapply logs_trans; [apply H1; auto|exact H2].
Qed.

(** ** Giving up on blocks *)
Definition hooks_emit (P : list Z -> Prop) t : Prop :=
  forall hook hs v, t.(salvage_) = Some hook -> hook_emits P (hook hs v).

Lemma try_salvage_safe P t em id b :
  hooks_emit P t ->
  let '(_, t', em') := try_salvage emit t em id b in
  same_core t t' /\ logs (fun c => P c.(c_frame)) em em'.
Proof.
  intros HP. unfold try_salvage. destruct (salvage_ t) as [hook|] eqn:Eh;
    [|split; [apply same_core_refl|apply logs_refl]].
  destruct (_ || _); [split; [apply same_core_refl|apply logs_refl]|].
  destruct (_ && _); [split; [apply same_core_refl|apply logs_refl]|].
  pose proof (run_hook_logs P _ id em false false (HP hook (em_hook em) (MkSalvageView id b.(b_k) b.(b_s)
    b.(b_frame_len) b.(b_sources)) Eh)) as Hl.
  destruct (run_hook _ _ _ _ _ _) as [[[em1 [hs rep]] att] acc].
  destruct (att && negb acc); [by split|].
  destruct (negb rep || negb att); [by split|]. split; [|done].
  eapply same_core_trans; [apply (note_emitted_core t id)|by split].
Qed.

Lemma drop_block_safe P reason t em id b :
  hooks_emit P t ->
  let '(t', em') := drop_block emit reason t em id b in
  same_core t t' /\ logs (fun c => P c.(c_frame)) em em'.
Proof.
  intros HP. unfold drop_block.
  assert (Hgo : forall t1 em1, same_core t t1 -> logs (fun c => P c.(c_frame)) em em1 ->
    same_core t (finalize (observe_shadow t1 id b) id) /\ logs (fun c => P c.(c_frame)) em em1).
  { intros t1 em1 H1 Hl. split; [|done]. eapply same_core_trans; [exact H1|].
    eapply same_core_trans; [apply (observe_shadow_core _ id b)|apply finalize_core]. }
  destruct (_ || _).
  - pose proof (try_salvage_safe P t em id b HP) as Hs.
    destruct (try_salvage emit t em id b) as [[o t1] em1]. destruct Hs as [Hc Hl].
    destruct o; apply Hgo; try done. eapply same_core_trans; [exact Hc|by split].
  - apply Hgo; [by split|apply logs_refl].
Qed.

(** A sweep drops the due blocks, in key order, and keeps the others. *)
Lemma sweep_ind (Inv : FrameReassembler HS -> Em HS E -> Prop) due reason entries : forall t em,
  (forall e t em, e ∈ entries -> due e.1 e.2 = true -> Inv t em ->
     let '(t', em') := drop_block emit reason t em e.1 e.2 in Inv t' em') ->
  Inv t em ->
  let '(kept, t', em') := sweep emit due reason entries t em in
  Inv t' em' /\ kept = filter (fun e => due e.1 e.2 = false) entries.
Proof.
  induction entries as [|[id b] entries IH]; intros t em Hd Hi; cbn [sweep]; [done|].
  rewrite filter_cons. cbn [fst snd]. destruct (due id b) eqn:Ed.
  - rewrite decide_False by done.
    pose proof (Hd (id, b) t em ltac:(set_solver) Ed Hi) as H. cbn [fst snd] in H.
    destruct (drop_block _ _ _ _ _ _) as [t1 em1]. apply IH; [|done].
    intros e t2 em2 He. apply Hd. set_solver.
  - rewrite decide_True by done.
    assert (Hd' : forall e t em, e ∈ entries -> due e.1 e.2 = true -> Inv t em ->
      let '(t', em') := drop_block emit reason t em e.1 e.2 in Inv t' em').
    { intros e t2 em2 He. apply Hd. set_solver. }
    pose proof (IH t em Hd' Hi) as H. destruct (sweep _ _ _ _ _ _) as [[kept t1] em1].
    destruct H as [H ->]. done.
Qed.

(** ** The reassembler's invariant *)
Record wf_reassembler t : Prop := {
  wr_max : 0 <= t.(fr_cfg).(max_frame_bytes) < 9223372036854775808;
  wr_est : est_ok t.(loss_estimator_) /\ est_ok t.(repair_estimator_);
  wr_sorted : sm_sorted t.(blocks_);
  wr_blocks : forall e, e ∈ t.(blocks_) -> wf_block e.2
}.

(** A frame the reassembler itself puts together. *)
Definition frame_ok t (fr : list Z) : Prop :=
  bytes fr /\ kVencFrameMetaSize <= len fr <= t.(fr_cfg).(max_frame_bytes).

Definition emits_ok (P : list Z -> Prop) t (c : Call) : Prop :=
  frame_ok t c.(c_frame) \/ P c.(c_frame).

Lemma wf_core t t' : wf_reassembler t -> same_core t t' -> wf_reassembler t'.
Proof.
  intros [W1 W2 W3 W4] [C1 _ C3 _ _ C6].
  split; [by rewrite C1|auto|by rewrite C3|intros e; rewrite C3; auto].
Qed.

Lemma hooks_core P t t' : hooks_emit P t -> same_core t t' -> hooks_emit P t'.
Proof. intros H Hc hook hs v Hh. apply H. by rewrite <- (sc_salvage _ _ Hc). Qed.

Lemma logs_impl (P Q : Call -> Prop) em em' : (forall c, P c -> Q c) -> logs P em em' -> logs Q em em'.
Proof. intros H (n & E0 & F). exists n. split; [done|]. eapply Forall_impl; eauto. Qed.

Lemma sum_chunks_some cap m acc v :
  0 <= acc <= cap -> cap < 9223372036854775808 -> sum_chunks cap m acc = Some v ->
  v = acc + len (concat (map snd m)) /\ v <= cap.
Proof.
  revert acc. induction m as [|[i c] m IH]; intros acc Ha Hc H; cbn [sum_chunks] in H.
  - injection H as <-. cbn. lia.
  - rewrite to_u64_id in H by (unfold u64; lia).
    destruct (Z.gtb_spec (len c) (cap - acc)); [done|].
    apply IH in H; [|lia|done]. cbn [map concat snd]. rewrite length_app. lia.
Qed.

Lemma concat_bytes (m : smap (list Z)) :
  (forall e, e ∈ m -> bytes e.2) -> bytes (concat (map snd m)).
Proof.
  intros H. induction m as [|e m IH]; [constructor|]. cbn. apply Forall_app. split.
  - apply H. set_solver.
  - apply IH. set_solver.
Qed.

Lemma pad_chunk_ok s c : bytes c ->
  exists p, pad_chunk s c = Some p /\ bytes p /\ length p = s.
Proof.
  intros Hc. unfold pad_chunk, memcpy. rewrite length_replicate.
  destruct (Nat.leb_spec (0 + Nat.min (length c) s) s); [|lia].
  destruct (Nat.leb_spec (Nat.min (length c) s) (length c)); [|lia]. cbn [andb].
  eexists. split; [reflexivity|]. split.
  - repeat (apply Forall_app; split); [done|by apply Forall_take|].
    apply Forall_drop, Forall_replicate. unfold u8; lia.
  - rewrite !length_app, !length_take, length_drop, length_replicate. lia.
Qed.

Lemma feed_sources_ok k s m : forall dec,
  dec_ok k s dec -> (forall e, e ∈ m -> 0 <= e.1 /\ bytes e.2) ->
  exists dec', foldM (feed_source s) m dec = Some dec' /\ dec_ok k s dec'.
Proof.
  intros dec Hd Hm.
  apply (foldM_ind (feed_source s) (fun _ => dec_ok k s)); [done|].
  intros pre e post d El Hd1. destruct (Hm e) as [H0 Hb]; [rewrite El; set_solver|].
  unfold feed_source. destruct (pad_chunk_ok s e.2 Hb) as (p & -> & Hpb & Hpl).
  cbn [mbind option_bind]. apply add_source_ok; (done || lia).
Qed.

Lemma feed_repairs_ok k s m : forall dec,
  dec_ok k s dec -> (forall e, e ∈ m -> bytes e.2) ->
  exists dec', foldM (feed_repair s) m dec = Some dec' /\ dec_ok k s dec'.
Proof.
  intros dec Hd Hm.
  apply (foldM_ind (feed_repair s) (fun _ => dec_ok k s)); [done|].
  intros pre e post d El Hd1. pose proof (Hm e ltac:(rewrite El; set_solver)) as Hb.
  unfold feed_repair. destruct (Nat.leb_spec s (length e.2)); [|by eauto].
  by apply add_repair_ok.
Qed.

Lemma resize_buf_ok l n : bytes l -> bytes (resize_buf l n) /\ length (resize_buf l n) = n.
Proof.
  intros H. unfold resize_buf. split.
  - apply Forall_app. split; [by apply Forall_take|]. apply Forall_replicate. unfold u8; lia.
  - rewrite length_app, length_take, length_replicate. lia.
Qed.

(** Completing a block never leaves the memory; a block is emitted at most
    once, as a frame of acceptable size. *)
Lemma try_complete_safe t em id b :
  wf_reassembler t -> wf_block b ->
  exists done t' em', try_complete emit t em id b = Some (done, t', em') /\
    same_core t t' /\ logs (fun c => c.(c_block) = id /\ frame_ok t c.(c_frame)) em em'.
Proof.
  intros [Hmax _ _ _] Hb. unfold try_complete.
  destruct (Z.eqb_spec (b_k b) 0) as [|Hk0];
    [eexists _, _, _; split; [reflexivity|]; split; [apply same_core_refl|apply logs_refl]|].
  destruct (wb_sources _ Hb) as [S1 S2], (wb_repairs _ Hb) as [R1 R2].
  assert (Hfin : forall t1, same_core t t1 -> same_core t (finalize t1 id)).
  { intros t1 H. eapply same_core_trans; [exact H|apply finalize_core]. }
  destruct (Z.eqb_spec (len (b_sources b)) (b_k b)) as [Hlen|Hlen].
  - destruct (sum_chunks _ _ _) as [fl|] eqn:Esum;
      [|eexists _, _, _; split; [reflexivity|]; split; [by apply Hfin|apply logs_refl]].
    apply sum_chunks_some in Esum as [Efl Hcap]; [|lia..].
    destruct (Z.ltb_spec fl kVencFrameMetaSize);
      [eexists _, _, _; split; [reflexivity|]; split; [by apply Hfin|apply logs_refl]|].
    set (fr := concat _) in *.
    pose proof (logs_one (fun c => c.(c_block) = id /\ frame_ok t c.(c_frame)) em id fr) as Hl.
    destruct (call_emit emit em id fr) as [em1 acc]. eexists _, _, _. split; [reflexivity|]. split.
    + apply Hfin. pose proof (observe_shadow_core t id b) as H1. destruct acc.
      * eapply same_core_trans; [exact H1|]. eapply same_core_trans; [apply note_emitted_core|by split].
      * eapply same_core_trans; [exact H1|by split].
    + apply Hl. intros ok. split; [done|]. split; [|cbn; lia].
      apply concat_bytes. intros e He. by apply S2.
  - match goal with |- context [if ?c then _ else _] => destruct c eqn:G end;
      [|eexists _, _, _; split; [reflexivity|]; split; [apply same_core_refl|apply logs_refl]].
    bool_hyps. set (s := Z.to_nat (b_s b)).
    replace (RlcDecoder_init (b_k b) s) with (RlcDecoder_init (Z.of_nat (Z.to_nat (b_k b))) s)
      by (f_equal; pose proof (wb_k _ Hb); unfold u16 in *; lia).
    destruct (feed_sources_ok (Z.to_nat (b_k b)) s (b_sources b) _ (dec_ok_init _ _)) as (d1 & -> & Hd1).
    { intros e He. destruct (S2 e He) as (? & ? & ?). split; [lia|done]. }
    destruct (feed_repairs_ok (Z.to_nat (b_k b)) s (b_repairs b) _ Hd1) as (d2 & E2 & Hd2).
    { intros e He. by apply R2. }
    cbn [mbind option_bind]. rewrite E2. cbn [mbind option_bind].
    destruct (can_decode d2);
      [|eexists _, _, _; split; [reflexivity|]; split; [apply same_core_refl|apply logs_refl]].
    destruct (decode_safe _ _ _ Hd2) as (ok & out & -> & Hol & Hob). cbn [mbind option_bind].
    destruct ok; [|eexists _, _, _; split; [reflexivity|]; split; [by split|apply logs_refl]].
    destruct (resize_buf_ok out (Z.to_nat (b_frame_len b)) Hob) as [Hrb Hrl].
    set (fr := resize_buf _ _) in *.
    pose proof (logs_one (fun c => c.(c_block) = id /\ frame_ok t c.(c_frame)) em id fr) as Hl.
    destruct (call_emit emit em id fr) as [em1 acc]. eexists _, _, _. split; [reflexivity|]. split.
    + apply Hfin. pose proof (observe_shadow_core t id b) as H9. destruct acc.
      * eapply same_core_trans; [exact H9|]. eapply same_core_trans; [apply note_emitted_core|by split].
      * eapply same_core_trans; [exact H9|by split].
    + apply Hl. intros ok. split; [done|]. split; [done|]. cbn [c_frame]. rewrite Hrl.
      destruct (wb_len _ Hb); lia.
Qed.

Lemma wf_with_blocks t m :
  wf_reassembler t -> sm_sorted m -> (forall e, e ∈ m -> wf_block e.2) ->
  wf_reassembler (with_blocks t m).
Proof. intros [] Hs Hm. by split. Qed.

Lemma sm_assign_blocks m id b :
  (forall e, e ∈ m -> wf_block e.2) -> wf_block b ->
  forall e, e ∈ sm_assign id b m -> wf_block e.2.
Proof. intros Hm Hb e [->|He]%sm_assign_elem; auto. Qed.

(** A sweep, with any hook. *)
Lemma sweep_safe P due reason t em :
  wf_reassembler t -> hooks_emit P t ->
  let '(kept, t', em') := sweep emit due reason t.(blocks_) t em in
  wf_reassembler (with_blocks t' kept) /\ same_core t t' /\
  logs (emits_ok P t) em em' /\ kept = filter (fun e => due e.1 e.2 = false) t.(blocks_).
Proof.
  intros Hw HP.
  pose proof (sweep_ind (fun t' em' => same_core t t' /\ logs (emits_ok P t) em em')
    due reason t.(blocks_) t em) as H.
  destruct (sweep _ _ _ _ _ _) as [[kept t1] em1].
  destruct H as [[Hc Hl] Hk].
  - intros e t2 em2 He _ [Hc Hl].
    pose proof (drop_block_safe P reason t2 em2 e.1 e.2 (hooks_core _ _ _ HP Hc)) as H.
    destruct (drop_block _ _ _ _ _ _) as [t3 em3]. destruct H as [Hc3 Hl3]. split.
    + by eapply same_core_trans.
    + eapply logs_trans; [exact Hl|]. eapply logs_impl; [|exact Hl3]. intros c. by right.
  - split; [apply same_core_refl|apply logs_refl].
  - split; [|split; [|split]]; try done. apply wf_with_blocks; [by eapply wf_core|..]; rewrite Hk.
    + apply sorted_filter, Hw.
    + intros e [_ He]%list_elem_of_filter. by apply Hw.
Qed.

Lemma supersede_safe P t em id :
  wf_reassembler t -> hooks_emit P t ->
  let '(t', em') := supersede emit t em id in
  wf_reassembler t' /\ hooks_emit P t' /\ t'.(fr_cfg) = t.(fr_cfg) /\ logs (emits_ok P t) em em'.
Proof.
  intros Hw HP. unfold supersede.
  pose proof (sweep_safe P (fun i _ => bid_diff id i >? to_i32 t.(fr_cfg).(max_blocks_ahead))
    frames_superseded t em Hw HP) as H.
  destruct (sweep _ _ _ _ _ _) as [[kept t1] em1]. destruct H as (H1 & H2 & H3 & _).
  split; [done|]. split; [|split; [apply H2|done]]. exact (hooks_core _ _ _ HP H2).
Qed.

Lemma tick_safe P t em now :
  wf_reassembler t -> hooks_emit P t ->
  let '(t', em') := tick emit t em now in
  wf_reassembler t' /\ hooks_emit P t' /\ t'.(fr_cfg) = t.(fr_cfg) /\ logs (emits_ok P t) em em'.
Proof.
  intros Hw HP. unfold tick.
  pose proof (sweep_safe P (fun _ b => now >=? to_u64 (b.(b_first_ms) + t.(fr_cfg).(deadline_ms)))
    frames_deadline t em Hw HP) as H.
  destruct (sweep _ _ _ _ _ _) as [[kept t1] em1]. destruct H as (H1 & H2 & H3 & _).
  split; [done|]. split; [|split; [apply H2|done]]. exact (hooks_core _ _ _ HP H2).
Qed.

(** A payload argument: a buffer of at least the given length. *)
Definition payload_ok (payload : ptr) (n : Z) : Prop :=
  match payload with Some p => bytes p /\ 0 <= n <= len p | None => n = 0 end.

Lemma arm_shadow_safe t b :
  wf_reassembler t -> wf_block b -> exists b', arm_shadow t b = Some b' /\ wf_block b'.
Proof.
  intros Hw Hb. unfold arm_shadow. destruct (b_shadow_armed b); [by eauto|].
  destruct (wr_est _ Hw) as [H1 H2].
  destruct (predict_some _ H1) as (v1 & ->), (predict_some _ H2) as (v2 & ->).
  cbn [mbind option_bind]. eexists. split; [reflexivity|]. by destruct Hb.
Qed.

Lemma push_safe P t em id flags payload n now air :
  wf_reassembler t -> hooks_emit P t -> payload_ok payload n ->
  exists r t' em', push emit t em id flags payload n now air = Some (r, t', em') /\
    wf_reassembler t' /\ hooks_emit P t' /\ t'.(fr_cfg) = t.(fr_cfg) /\
    logs (emits_ok P t) em em'.
Proof.
  intros Hw HP Hpay. unfold push.
  destruct (_ && _); [eexists _, _, _; split; [reflexivity|]; auto using logs_refl|].
  set (em0 := MkEm _ _ false _). assert (L0 : logs (emits_ok P t) em em0) by (exists []; by rewrite app_nil_r).
  set (t0 := with_blocks t _). set (max := max_frame_bytes _).
  assert (Hw0 : wf_reassembler t0).
  { apply wf_with_blocks; [done|apply sm_emplace_sorted, Hw|].
    intros e [->|He]%sm_emplace_elem; [apply wf_block_init|by apply Hw]. }
  assert (Hf : exists b, sm_find id t0.(blocks_) = Some b).
  { cbn. rewrite sm_find_emplace by apply Hw. rewrite Z.eqb_refl. destruct (sm_find id _); eauto. }
  destruct Hf as [b Hf]. rewrite Hf. cbn [mbind option_bind].
  assert (Hb : wf_block b) by apply (wr_blocks _ Hw0 (id, b)), sm_find_elem, Hf.
  set (r := if negb (Z.land flags data_flags_kFecRepair =? 0) then _ else _).
  assert (Hr : exists b' ok, r = Some (b', ok) /\ wf_block b').
  { unfold r. destruct payload as [p|]; cbn in Hpay.
    - destruct Hpay as [Hp Hn]. destruct (negb _); [apply push_repair_safe|apply push_source_safe]; (done || lia).
    - subst n. destruct (negb _); by eexists _, _. }
  destruct Hr as (b' & ok & -> & Hb'). cbn [mbind option_bind].
  set (t1 := with_blocks t0 _).
  assert (Hw1 : wf_reassembler t1).
  { apply wf_with_blocks; [done|apply sm_assign_sorted, Hw0|].
    apply sm_assign_blocks; [apply Hw0|done]. }
  destruct ok; cbn [negb];
    [|eexists _, _, _; split; [reflexivity|]; split; [by eapply wf_core, count_core|done]].
  assert (H2 : exists t2 em2, (if negb t1.(have_highest_) || (bid_diff id t1.(highest_block_) >? 0)
    then supersede emit (with_highest t1 id) em0 id else (t1, em0)) = (t2, em2) /\
    wf_reassembler t2 /\ hooks_emit P t2 /\ t2.(fr_cfg) = t.(fr_cfg) /\ logs (emits_ok P t) em em2).
  { destruct (_ || _); [|by eexists _, _].
    pose proof (supersede_safe P (with_highest t1 id) em0 id ltac:(by destruct Hw1; split) HP) as H.
    destruct (supersede _ _ _ _) as [t2 em2]. destruct H as (? & ? & ? & ?).
    eexists _, _. split; [reflexivity|]. split; [done|]. split; [done|]. split; [done|].
    eapply logs_trans; [exact L0|assumption]. }
  destruct H2 as (t2 & em2 & -> & Hw2 & HP2 & Hc2 & L2).
  destruct (sm_find id (blocks_ t2)) as [b2|] eqn:Hf2; [|by eexists _, _, _].
  assert (Hb2 : wf_block b2) by apply (wr_blocks _ Hw2 (id, b2)), sm_find_elem, Hf2.
  destruct (arm_shadow_safe t2 b2 Hw2 Hb2) as (b3 & -> & Hb3). cbn [mbind option_bind].
  set (t3 := with_blocks t2 _).
  assert (Hw3 : wf_reassembler t3).
  { apply wf_with_blocks; [done|apply sm_assign_sorted, Hw2|].
    apply sm_assign_blocks; [apply Hw2|done]. }
  destruct (try_complete_safe t3 em2 id b3 Hw3 Hb3) as (d & t4 & em4 & -> & Hc4 & L4).
  cbn [mbind option_bind]. eexists _, _, _. split; [reflexivity|].
  assert (Hw4 : wf_reassembler t4) by by eapply wf_core.
  assert (HP4 : hooks_emit P t4) by exact (hooks_core P t3 t4 HP2 Hc4).
  assert (Hcf : t4.(fr_cfg) = t.(fr_cfg)) by by rewrite (sc_cfg _ _ Hc4).
  assert (L5 : logs (emits_ok P t) em em4).
  { eapply logs_trans; [exact L2|]. eapply logs_impl; [|exact L4].
    intros c [_ Hfr]. left. unfold frame_ok in *. cbn [fr_cfg t3 with_blocks] in Hfr. by rewrite <- Hc2. }
  destruct d; [|done]. split; [|done]. apply wf_with_blocks; [done|apply sm_erase_sorted, Hw4|].
  intros e He%sm_erase_elem. by apply Hw4.
Qed.
End Safe.

Abbreviation small n := (0 <= n < 2147483648).

Section Order.
Context {HS E : Type} (emit : E -> list Z -> E * bool).
Implicit Types (t : FrameReassembler HS) (em : Em HS E).

(** The blocks delivered so far, in the order of delivery. *)
Definition accepted (log : list Call) : list Z :=
  map c_block (filter (fun c => c.(c_ok) = true) log).

Record ordered t (log : list Call) : Prop := {
  od_sorted : StronglySorted Z.lt (accepted log);
  od_none : t.(have_emitted_) = false -> accepted log = [];
  od_last : t.(have_emitted_) = true ->
    small t.(last_emitted_) /\ (forall i, i ∈ accepted log -> i <= t.(last_emitted_)) /\
    t.(have_finalized_) = true /\ t.(last_emitted_) <= t.(finalized_upto_);
  od_fin : t.(have_finalized_) = true -> small t.(finalized_upto_)
}.

Lemma accepted_snoc log id fr ok :
  accepted (log ++ [MkCall id fr ok]) = accepted log ++ (if ok then [id] else []).
Proof.
  unfold accepted. rewrite filter_app, map_app. f_equal. by destruct ok.
Qed.

(** A block is given up or completes: the watermark moves to it. *)
Lemma finalize_ordered t id log :
  small id -> ordered t log -> ordered (finalize t id) log.
Proof.
  intros Hid [O1 O2 O3 O4]. unfold finalize.
  destruct (_ || _) eqn:G; [|by split]. split; cbn; try done.
  intros He. destruct (O3 He) as (L1 & L2 & L3 & L4). rewrite L3 in G. cbn in G.
  rewrite bid_diff_small in G by auto. bool_hyps. split_and!; (done || lia).
Qed.

Lemma deliver_ordered t id log fr :
  small id -> (t.(have_emitted_) = true -> t.(last_emitted_) < id) -> ordered t log ->
  ordered (finalize (note_emitted t id) id) (log ++ [MkCall id fr true]).
Proof.
  intros Hid Hlt [O1 O2 O3 O4].
  assert (Hnote : note_emitted t id = with_emitted t id).
  { unfold note_emitted. destruct (have_emitted_ t) eqn:He; [|done]. cbn.
    destruct (O3 eq_refl) as (L1 & _). rewrite bid_diff_small by done.
    specialize (Hlt eq_refl). by destruct (Z.gtb_spec (id - last_emitted_ t) 0); [|lia]. }
  rewrite Hnote.
  assert (Hall : forall i, i ∈ accepted log -> i < id).
  { intros i Hi. destruct (have_emitted_ t) eqn:He.
    - destruct (O3 eq_refl) as (_ & L2 & _). specialize (L2 i Hi). specialize (Hlt eq_refl). lia.
    - rewrite O2 in Hi by done. by apply not_elem_of_nil in Hi. }
  assert (Hle : forall i, i ∈ accepted (log ++ [MkCall id fr true]) -> i <= id).
  { intros i. rewrite accepted_snoc. intros [Hi%Hall|Hi]%elem_of_app; [lia|].
    apply list_elem_of_singleton in Hi. lia. }
  assert (Hst : StronglySorted Z.lt (accepted (log ++ [MkCall id fr true]))).
  { rewrite accepted_snoc. by apply sorted_snoc. }
  unfold finalize. cbn [have_finalized_ finalized_upto_ with_emitted].
  destruct (_ || _) eqn:G; split; cbn; try done; intros _.
  apply orb_false_iff in G as [G1 G2]. bool_hyps. specialize (O4 ltac:(done)).
  rewrite bid_diff_small in G2 by done. bool_hyps.
  split; [done|]. split; [exact Hle|]. split; [done|lia].
Qed.

(** What [ordered] depends on. *)
Definition marks t : Z * bool * Z * bool :=
  (t.(last_emitted_), t.(have_emitted_), t.(finalized_upto_), t.(have_finalized_)).

Lemma ordered_marks t t' log : marks t' = marks t -> ordered t log -> ordered t' log.
Proof. intros [= E1 E2 E3 E4] []. split; rewrite ?E1, ?E2, ?E3, ?E4; done. Qed.

Lemma marks_finalize t t' id : marks t' = marks t -> marks (finalize t' id) = marks (finalize t id).
Proof.
  intros [= E1 E2 E3 E4]. unfold finalize. rewrite E3, E4.
  destruct (_ || _); unfold marks; cbn; congruence.
Qed.

Lemma marks_observe t id b : marks (observe_shadow t id b) = marks t.
Proof. unfold observe_shadow. by case_match. Qed.

Lemma marks_note t t' id : marks t' = marks t -> marks (note_emitted t' id) = marks (note_emitted t id).
Proof.
  intros [= E1 E2 E3 E4]. unfold note_emitted. rewrite E1, E2.
  destruct (_ || _); unfold marks; cbn; congruence.
Qed.

Lemma ordered_reject t id log fr : ordered t log -> ordered t (log ++ [MkCall id fr false]).
Proof. intros []. split; rewrite ?accepted_snoc, ?app_nil_r; done. Qed.

Definition hooks_faithful t : Prop :=
  forall hook hs v, t.(salvage_) = Some hook -> hook_faithful (hook hs v).

Lemma hooks_faithful_core t t' : hooks_faithful t -> same_core t t' -> hooks_faithful t'.
Proof. intros H Hc hook hs v Hh. apply H. by rewrite <- (sc_salvage _ _ Hc). Qed.

(** The two events that change the marks of a salvage. *)
Lemma try_salvage_ordered t em id b :
  small id -> hooks_faithful t -> ordered t em.(em_log) ->
  let '(_, t', em') := try_salvage emit t em id b in
  ordered (finalize t' id) em'.(em_log) /\ same_marks t t'.
Proof.
  intros Hid HF Ho. unfold try_salvage.
  assert (Hskip : ordered (finalize t id) em.(em_log) /\ same_marks t t)
    by (split; [by apply finalize_ordered|done]).
  destruct (salvage_ t) as [hook|] eqn:Eh; [|done].
  destruct (_ || _); [done|]. destruct (_ && _) eqn:Gl; [done|].
  assert (Hlt : t.(have_emitted_) = true -> t.(last_emitted_) < id).
  { intros He. rewrite He in Gl. cbn in Gl. bool_hyps.
    destruct (od_last _ _ Ho He) as [L1 _]. rewrite bid_diff_small in Gl by done. lia. }
  set (v := MkSalvageView _ _ _ _ _). pose proof (HF hook (em_hook em) v Eh) as Hf.
  destruct (hook (em_hook em) v) as [[hs rep]|fr cont]; cbn [run_hook].
  { cbn [andb]. by rewrite orb_true_r. }
  destruct Hf as ((hs & rep) & Ec & Hrep & (hs' & rep') & Ec'). cbn in Hrep. subst rep.
  unfold call_emit. destruct (emit (em_env em) fr) as [e ok]. destruct ok.
  - rewrite Ec. cbn [run_hook andb negb orb em_log]. split.
    + eapply ordered_marks; [|by apply (deliver_ordered t id em.(em_log) fr)].
      by apply marks_finalize.
    + apply (note_emitted_marks t id).
  - rewrite Ec'. cbn [run_hook andb negb orb em_log]. split; [|done].
    apply finalize_ordered; [done|]. apply ordered_reject. by destruct Ho.
Qed.

Lemma drop_block_ordered reason t em id b n :
  small id -> id < n -> hooks_faithful t -> ordered t em.(em_log) -> fin_below n t ->
  let '(t', em') := drop_block emit reason t em id b in
  ordered t' em'.(em_log) /\ fin_below n t'.
Proof.
  intros Hid Hn HF Ho Hfb. unfold drop_block.
  assert (Hgo : forall t1 em1, ordered (finalize t1 id) em1.(em_log) -> same_marks t t1 ->
    ordered (finalize (observe_shadow t1 id b) id) em1.(em_log) /\
    fin_below n (finalize (observe_shadow t1 id b) id)).
  { intros t1 em1 H [M1 M2]. destruct (observe_shadow_marks t1 id b) as [[E1 E2] [E3 E4]]. split.
    - eapply ordered_marks; [|exact H]. apply marks_finalize, marks_observe.
    - apply finalize_below; [lia|]. unfold fin_below. by rewrite E1, E2, M1, M2. }
  destruct (_ || _).
  - pose proof (try_salvage_ordered t em id b Hid HF Ho) as H.
    destruct (try_salvage emit t em id b) as [[o t1] em1]. destruct H as [H1 H2].
    destruct o; apply Hgo; try done.
    eapply ordered_marks; [|exact H1]. by apply marks_finalize.
  - apply Hgo; [|done]. apply finalize_ordered; [done|]. by destruct Ho.
Qed.

(** Case analysis on the paths of [try_complete]; [H] says what it returns. *)
Ltac split_complete H emit em id Ec :=
  repeat lazymatch type of H with
  | Some _ = Some _ => fail
  | mbind _ ?c = _ => destruct c as [?|]; [cbn [mbind option_bind] in H|discriminate H]
  | (let '(_, _) := call_emit emit em id ?fr in _) = _ =>
    let em1 := fresh "em1" in let acc := fresh "acc" in
    destruct (call_emit emit em id fr) as [em1 acc] eqn:Ec; destruct acc
  | (let '(_, _) := ?c in _) = _ => destruct c
  | (if ?c then _ else _) = _ => destruct c
  | (match ?c with None => _ | Some _ => _ end) = _ => destruct c
  end; injection H as <- <- <-.

Lemma try_complete_core t em id b d t' em' :
  try_complete emit t em id b = Some (d, t', em') -> same_core t t'.
Proof.
  intros H. unfold try_complete in H.
  assert (Hf : forall t1, same_core t t1 -> same_core t (finalize t1 id)).
  { intros t1 H1. eapply same_core_trans; [exact H1|apply finalize_core]. }
  assert (Hn : forall t1, same_core t t1 -> same_core t (note_emitted t1 id)).
  { intros t1 H1. eapply same_core_trans; [exact H1|apply note_emitted_core]. }
  assert (Hst : forall t1 st, same_core t t1 -> same_core t (with_stats t1 st)).
  { intros t1 st []. by split. }
  pose proof (observe_shadow_core t id b) as Ho. pose proof (same_core_refl t) as Hr.
  split_complete H emit em id Ec; unfold count; auto 10.
Qed.

Lemma try_complete_ordered t em id b done_ t' em' :
  small id -> fin_below id t -> ordered t em.(em_log) ->
  try_complete emit t em id b = Some (done_, t', em') -> ordered t' em'.(em_log).
Proof.
  intros Hid Hfb Ho H.
  assert (Hlt : t.(have_emitted_) = true -> t.(last_emitted_) < id).
  { intros He. destruct (od_last _ _ Ho He) as (_ & _ & L3 & L4). specialize (Hfb L3). lia. }
  assert (Hemit : forall fr em1 ok, call_emit emit em id fr = (em1, ok) ->
    forall t1, marks t1 = marks (if ok : bool then note_emitted t id else t) ->
    ordered (finalize t1 id) em1.(em_log)).
  { intros fr em1 ok Ec t1 M. unfold call_emit in Ec.
    destruct (emit (em_env em) fr) as [e ok']. injection Ec as <- <-. cbn [em_log].
    eapply ordered_marks; [by apply marks_finalize|]. destruct ok'.
    - by apply deliver_ordered.
    - by apply finalize_ordered, ordered_reject. }
  assert (Hnote : marks (note_emitted (observe_shadow t id b) id) = marks (note_emitted t id))
    by apply marks_note, marks_observe.
  assert (Hfin : forall t1, marks t1 = marks t -> ordered (finalize t1 id) em.(em_log)).
  { intros t1 M. eapply ordered_marks; [by apply marks_finalize|]. by apply finalize_ordered. }
  unfold try_complete in H.
  split_complete H emit em id Ec; try apply (Hemit _ _ _ Ec); try exact Hnote;
    try apply marks_observe; auto. eapply ordered_marks; [|exact Ho]. done.
Qed.

(** ** Whole operations *)

(** Every block the reassembler holds has a small identifier. *)
Definition small_blocks t : Prop := forall e, e ∈ t.(blocks_) -> small e.1.

Record in_order t em : Prop := {
  io_ordered : ordered t em.(em_log);
  io_blocks : small_blocks t;
  io_hooks : hooks_faithful t
}.

Lemma sweep_ordered due reason n t em :
  in_order t em -> fin_below n t ->
  (forall e, e ∈ t.(blocks_) -> due e.1 e.2 = true -> e.1 < n) ->
  let '(kept, t', em') := sweep emit due reason t.(blocks_) t em in
  in_order (with_blocks t' kept) em' /\ fin_below n t'.
Proof.
  intros [Ho Hb Hh] Hf Hdue.
  pose proof (sweep_ind emit (fun t' em' => ordered t' em'.(em_log) /\ fin_below n t' /\
      hooks_faithful t') due reason t.(blocks_) t em) as H.
  destruct (sweep _ _ _ _ _ _) as [[kept t1] em1]. destruct H as [(H1 & H2 & H3) Hk].
  - intros e t2 em2 He Hd (O2 & F2 & K2).
    pose proof (drop_block_ordered reason t2 em2 e.1 e.2 n (Hb e He) (Hdue e He Hd) K2 O2 F2) as H.
    pose proof (drop_block_safe emit (fun _ => True) reason t2 em2 e.1 e.2) as Hc.
    destruct (drop_block _ _ _ _ _ _) as [t3 em3]. destruct H as [O3 F3].
    split; [done|]. split; [done|]. eapply hooks_faithful_core; [exact K2|]. apply Hc.
    intros hook hs v _. generalize (hook hs v). clear.
    induction h as [|fr cont IH]; [done|]. cbn. auto.
  - done.
  - split; [|done]. split; [|intros e; cbn; rewrite Hk; by intros [_ He]%list_elem_of_filter; apply Hb|done].
    eapply ordered_marks; [|exact H1]. done.
Qed.

Lemma tick_ordered t em now :
  in_order t em -> let '(t', em') := tick emit t em now in in_order t' em'.
Proof.
  intros Hi. unfold tick.
  pose proof (sweep_ordered (fun _ b => now >=? to_u64 (b.(b_first_ms) + t.(fr_cfg).(deadline_ms)))
    frames_deadline 2147483648 t em Hi) as H.
  destruct (sweep _ _ _ _ _ _) as [[kept t1] em1]. apply H.
  - intros Hf. apply (od_fin _ _ (io_ordered _ _ Hi) Hf).
  - intros e He _. by apply (io_blocks _ _ Hi).
Qed.

Lemma push_ordered t em id flags payload n now air r t' em' :
  small id -> in_order t em ->
  push emit t em id flags payload n now air = Some (r, t', em') -> in_order t' em'.
Proof.
  intros Hid Hi H. unfold push in H.
  destruct (t.(have_finalized_) && _) eqn:Gf; [by injection H as <- <- <-|].
  assert (Hf0 : fin_below id t).
  { intros Hf. rewrite Hf in Gf. cbn in Gf. pose proof (od_fin _ _ (io_ordered _ _ Hi) Hf) as Hs.
    rewrite bid_diff_small in Gf by done. bool_hyps. lia. }
  set (em0 := MkEm _ _ false _) in H. set (t0 := with_blocks t _) in H.
  destruct (sm_find id (blocks_ t0)) as [b|]; [|done]. cbn [mbind option_bind] in H.
  destruct (if negb (Z.land flags data_flags_kFecRepair =? 0) then _ else _) as [[b' ok]|]; [|done].
  cbn [mbind option_bind] in H. set (t1 := with_blocks t0 _) in H.
  destruct Hi as [Ho Hb Hh].
  assert (Hb1 : small_blocks t1).
  { intros e [->|He]%sm_assign_elem; [done|]. apply sm_emplace_elem in He as [->|He]; auto. }
  destruct ok; cbn [negb] in H.
  2:{ injection H as <- <- <-. split; [|done|done]. eapply ordered_marks; [|exact Ho]. done. }
  assert (Hs2 : exists t2 em2, (if negb t1.(have_highest_) || (bid_diff id t1.(highest_block_) >? 0)
    then supersede emit (with_highest t1 id) em0 id else (t1, em0)) = (t2, em2) /\
    in_order t2 em2 /\ (is_Some (sm_find id t2.(blocks_)) -> fin_below id t2)).
  { destruct (negb t1.(have_highest_) || _).
    2:{ eexists _, _. split; [reflexivity|]. split; [split|]; try done. by destruct Ho. }
    unfold supersede. set (due := fun i _ => _).
    assert (Hi0 : in_order (with_highest t1 id) em0) by (split; [by destruct Ho|done|done]).
    destruct (Z.le_gt_cases 0 (to_i32 t.(fr_cfg).(max_blocks_ahead))) as [Ha|Ha].
    - pose proof (sweep_ordered due frames_superseded id (with_highest t1 id) em0 Hi0 Hf0) as Hs.
      destruct (sweep _ _ _ _ _ _) as [[kept t2] em2]. destruct Hs as [Hs1 Hs2].
      { intros e He Hd. unfold due in Hd. cbn in Hd. rewrite bid_diff_small in Hd by auto.
        bool_hyps. lia. }
      by eexists _, _.
    - pose proof (sweep_ordered due frames_superseded 2147483648 (with_highest t1 id) em0 Hi0) as Hs.
      pose proof (sweep_ind emit (fun _ _ => True) due frames_superseded
        (with_highest t1 id).(blocks_) (with_highest t1 id) em0) as Hk.
      destruct (sweep _ _ _ _ _ _) as [[kept t2] em2].
      destruct Hs as [Hs1 Hs2].
      { intros Hf. apply (od_fin _ _ Ho Hf). }
      { intros e He _. by apply Hb1. }
      eexists _, _. split; [reflexivity|]. split; [done|].
      destruct Hk as [_ Hk]; [by intros; destruct (drop_block _ _ _ _ _ _)|done|].
      intros [b0 Hb0%sm_find_elem]. cbn in Hb0. rewrite Hk in Hb0.
      apply list_elem_of_filter in Hb0 as [Hd _]. unfold due in Hd. cbn in Hd.
      rewrite bid_diff_small, Z.sub_diag in Hd by done. bool_hyps. lia. }
  destruct Hs2 as (t2 & em2 & E2 & Hi2 & Hf2). rewrite E2 in H.
  destruct (sm_find id (blocks_ t2)) as [b2|] eqn:Eb2; [|by injection H as <- <- <-].
  specialize (Hf2 ltac:(by eexists)).
  destruct (arm_shadow t2 b2) as [b3|]; [|done]. cbn [mbind option_bind] in H.
  set (t3 := with_blocks t2 _) in H.
  assert (Hb3 : small_blocks t3).
  { intros e [->|He]%sm_assign_elem; [done|]. by apply (io_blocks _ _ Hi2). }
  destruct (try_complete emit t3 em2 id b3) as [[[d t4] em4]|] eqn:Ec; [|done].
  cbn [mbind option_bind] in H. injection H as <- <- <-.
  assert (Ho4 : ordered t4 em4.(em_log)).
  { eapply try_complete_ordered; [exact Hid| | |exact Ec]; [exact Hf2|].
    eapply ordered_marks; [|apply (io_ordered _ _ Hi2)]. done. }
  pose proof (try_complete_core _ _ _ _ _ _ _ Ec) as Hc.
  assert (Hb4 : small_blocks t4) by (intros e; rewrite (sc_blocks _ _ Hc); apply Hb3).
  assert (Hh4 : hooks_faithful t4) by exact (hooks_faithful_core t3 t4 (io_hooks _ _ Hi2) Hc).
  destruct d; split; try done.
  - eapply ordered_marks; [|exact Ho4]. done.
  - intros e He%sm_erase_elem. auto.
Qed.

(** The watermark covers [n]. *)
Definition covers t (n : Z) : Prop := t.(have_finalized_) = true /\ n <= t.(finalized_upto_).

Lemma drop_block_covers reason t em id b n :
  small id -> hooks_faithful t -> ordered t em.(em_log) ->
  let '(t', em') := drop_block emit reason t em id b in
  ordered t' em'.(em_log) /\ hooks_faithful t' /\ covers t' id /\ (covers t n -> covers t' n).
Proof.
  intros Hid HF Ho.
  pose proof (drop_block_ordered reason t em id b 2147483648 Hid ltac:(lia) HF Ho) as H1.
  pose proof (drop_block_safe emit (fun _ => True) reason t em id b) as H2.
  assert (H3 : exists t1 em1, drop_block emit reason t em id b
      = (finalize (observe_shadow t1 id b) id, em1) /\ same_marks t t1).
  { unfold drop_block. destruct (_ || _).
    - pose proof (try_salvage_ordered t em id b Hid HF Ho) as H.
      destruct (try_salvage emit t em id b) as [[o t1] em1]. destruct H as [_ [M1 M2]].
      destruct o; eexists _, _; (split; [reflexivity|]); by split.
    - eexists _, _. by split. }
  destruct H3 as (t1 & em1 & E1 & M1 & M2). rewrite E1 in *.
  destruct H1 as [H1 _]; [by intros Hf; apply (od_fin _ _ Ho)|].
  destruct H2 as [H2 _]; [intros hook hs v _; generalize (hook hs v); clear;
    induction h as [|fr cont IH]; [done|cbn; auto]|].
  split; [done|]. split; [by eapply hooks_faithful_core|].
  destruct (observe_shadow_marks t1 id b) as [[E2 E3] _].
  pose proof (od_fin _ _ Ho) as Hs. unfold covers, finalize. rewrite E2, E3, M1, M2.
  destruct (have_finalized_ t) eqn:Hf; cbn [negb orb].
  - specialize (Hs eq_refl). rewrite bid_diff_small by done.
    destruct (Z.gtb_spec (id - finalized_upto_ t) 0); cbn; rewrite ?E2, ?E3, ?M1, ?M2; lia.
  - cbn. split; [split; [done|lia]|]. by intros [? _].
Qed.

Lemma sweep_covers due reason entries : forall t em,
  (forall e, e ∈ entries -> small e.1) -> hooks_faithful t -> ordered t em.(em_log) ->
  let '(_, t', em') := sweep emit due reason entries t em in
  (forall e, e ∈ entries -> due e.1 e.2 = true -> covers t' e.1) /\
  (forall n, covers t n -> covers t' n).
Proof.
  induction entries as [|[id b] entries IH]; intros t em Hk HF Ho; cbn [sweep].
  { split; [|done]. intros e He. by apply not_elem_of_nil in He. }
  assert (Hk' : forall e, e ∈ entries -> small e.1) by (intros; apply Hk; set_solver).
  destruct (due id b) eqn:Ed.
  - pose proof (fun n => drop_block_covers reason t em id b n (Hk (id, b) ltac:(set_solver)) HF Ho) as H.
    destruct (drop_block _ _ _ _ _ _) as [t1 em1]. destruct (H 0) as (Ho1 & HF1 & Hc & _).
    pose proof (IH t1 em1 Hk' HF1 Ho1) as H2. destruct (sweep _ _ _ _ _ _) as [[kept t2] em2].
    destruct H2 as [H2 H3]. split.
    + intros e [->|He]%elem_of_cons Hd; [by apply H3|auto].
    + intros n Hn. apply H3. by apply (H n).
  - pose proof (IH t em Hk' HF Ho) as H2. destruct (sweep _ _ _ _ _ _) as [[kept t2] em2].
    destruct H2 as [H2 H3]. split; [|done].
    intros e [->|He]%elem_of_cons Hd; [cbn in Hd; congruence|auto].
Qed.
End Order.
