(* ===== verification/FrameProps.v ===== *)
(** * Properties of the frame path

    Framer, link and reassembler: what is sent, what is delivered, and what
    holds whatever arrives. *)
From stdpp Require Import sorting.
From S2P Require Import Prelude Endian Types Wire WireLayout Rlc RlcProps SMap Table FrameShm FrameFramer FrameSpec FramerFacts JsccLoss FrameReassembler ReassemblerFacts EndToEnd ReassemblerSafe.

(** ** Runs *)
Inductive Event : Type :=
| EvPush (block_id flags : Z) (payload : ptr) (payload_len now_ms : Z) (air_path : bool)
| EvTick (now_ms : Z)
| EvResetStats
| EvResetStream.

Section Runs.
Context {HS E : Type} (emit : E -> list Z -> E * bool).

Definition step (st : FrameReassembler HS * Em HS E) (ev : Event)
  : option (FrameReassembler HS * Em HS E) :=
  match ev with
  | EvPush id flags payload n now air =>
    '(_, t, em) ← push emit st.1 st.2 id flags payload n now air; Some (t, em)
  | EvTick now => Some (tick emit st.1 st.2 now)
  | EvResetStats => Some (FrameReassembler.reset_stats st.1, st.2)
  | EvResetStream => Some (reset_stream st.1, st.2)
  end.

Definition event_ok (ev : Event) : Prop :=
  match ev with EvPush _ _ payload n _ _ => payload_ok payload n | _ => True end.

(** No restart of the stream, and identifiers below 2^31. *)
Definition event_ordered (ev : Event) : Prop :=
  match ev with
  | EvPush id _ _ _ _ _ => small id
  | EvResetStream => False
  | _ => True
  end.
End Runs.

(** A reassembler before the first packet, with or without a salvage hook. *)
Definition fresh {HS} (cfg : FrameReassemblerConfig)
    (hook : option (HS -> SalvageView -> HookProg (HS * bool))) : FrameReassembler HS :=
  match hook with
  | Some h => set_salvage_hook (FrameReassembler_init cfg) h
  | None => FrameReassembler_init cfg
  end.

Section RunLemmas.
Context {HS E : Type} (emit : E -> list Z -> E * bool).
Implicit Types (t : FrameReassembler HS) (em : Em HS E).

Lemma fresh_wf cfg hook :
  0 <= cfg.(max_frame_bytes) < 9223372036854775808 -> wf_reassembler (@fresh HS cfg hook).
Proof.
  intros H. assert (Hb : forall e, e ∈ ([] : smap Block) -> wf_block e.2).
  { intros e He. by apply not_elem_of_nil in He. }
  destruct hook; split; cbn; try done; try (constructor; fail);
    unfold est_ok; cbn; repeat split; lia || constructor.
Qed.

Lemma reset_stats_wf t : wf_reassembler t -> wf_reassembler (FrameReassembler.reset_stats t).
Proof.
  intros [W1 W2 W3 W4]. split; cbn; try done.
  - unfold sm_sorted in *. by rewrite map_map.
  - intros e He. apply list_elem_of_fmap in He as (e0 & -> & He0). destruct (W4 e0 He0). by split.
Qed.

Lemma reset_stream_wf t : wf_reassembler t -> wf_reassembler (reset_stream t).
Proof.
  intros [W1 W2 W3 W4]. split; cbn; try done; [constructor|].
  intros e He. by apply not_elem_of_nil in He.
Qed.

Lemma step_safe P t em ev :
  event_ok ev -> wf_reassembler t -> hooks_emit P t ->
  exists t' em', step emit (t, em) ev = Some (t', em') /\
    wf_reassembler t' /\ hooks_emit P t' /\ t'.(fr_cfg) = t.(fr_cfg) /\ logs (emits_ok P t) em em'.
Proof.
  intros Hev Hw HP. destruct ev as [id flags payload n now air|now| |]; cbn [step event_ok fst snd] in *.
  - destruct (push_safe emit P t em id flags payload n now air Hw HP Hev) as (r & t' & em' & -> & H).
    cbn. eauto.
  - pose proof (tick_safe emit P t em now Hw HP) as H. destruct (tick emit t em now). eauto.
  - eexists _, _. split; [reflexivity|]. split; [by apply reset_stats_wf|]. auto using logs_refl.
  - eexists _, _. split; [reflexivity|]. split; [by apply reset_stream_wf|]. auto using logs_refl.
Qed.

Lemma step_ordered t em ev t' em' :
  event_ordered ev -> in_order t em -> step emit (t, em) ev = Some (t', em') -> in_order t' em'.
Proof.
  intros Hev Hi H. destruct ev as [id flags payload n now air|now| |]; cbn [step event_ordered fst snd] in *.
  - destruct (push _ _ _ _ _ _ _ _ _) as [[[r t1] em1]|] eqn:Ep; [|done]. injection H as <- <-.
    by eapply push_ordered.
  - pose proof (tick_ordered emit t em now Hi) as Ht. destruct (tick emit t em now). by injection H as <- <-.
  - injection H as <- <-. destruct Hi as [Ho Hb Hh]. split; [|intros e He|done].
    + eapply ordered_marks; [|exact Ho]. done.
    + cbn in He. apply list_elem_of_fmap in He as (e0 & -> & He0). exact (Hb e0 He0).
  - done.
Qed.
Lemma fresh_in_order cfg hook e hs :
  (forall h hs v, hook = Some h -> hook_faithful (h hs v)) ->
  in_order (@fresh HS cfg hook) (MkEm e hs false [] : Em HS E).
Proof.
  intros Hhook. split.
  - destruct hook; split; cbn; try done; constructor.
  - intros ev Hev. by destruct hook; apply not_elem_of_nil in Hev.
  - intros h hs0 v Hh. apply Hhook. by destruct hook.
Qed.

Lemma run_ordered evs : forall t em t' em',
  Forall event_ordered evs -> in_order t em -> foldM (step emit) evs (t, em) = Some (t', em') ->
  in_order t' em'.
Proof.
  induction evs as [|ev evs IH]; intros t em t' em' Hevs Hi H; cbn [foldM] in H.
  - by injection H as <- <-.
  - apply Forall_cons in Hevs as [Hev Hevs].
    destruct (step emit (t, em) ev) as [[t1 em1]|] eqn:E1; [|done]. cbn [mbind option_bind] in H.
    apply (IH t1 em1); try done. by eapply step_ordered.
Qed.
End RunLemmas.

(** ** Properties *)

(** C1. exactly-once, in-order, byte-identical delivery over the whole path.
    A framer in any configuration whose symbols fit a DATA packet frames any
    sequence of blobs; of each frame's packets the receiver hears any
    selection, in any order, with repetitions, at any times; every heard
    packet goes through [Wire.decode] and [FrameReassembler.push].  Then no
    step fails, and the frames handed to the egress are exactly the blobs of
    which at least [k] distinct packets were heard - byte for byte, once each,
    in the order sent - whatever mixture of source and repair symbols that
    was. *)
Theorem link_exactly_once {HS E : Type} (emit : E -> list Z -> E * bool)
  (f : FrameFramer) (cfg : FrameReassemblerConfig) (e : E) (hs : HS) (xs : list Sending)
  (Hf : sender_ok f cfg.(max_frame_bytes))
  (Hxs : Forall (sending_ok f cfg.(max_frame_bytes)) xs)
  (Hmb : u32 cfg.(max_frame_bytes))
  (Hahead : 0 <= cfg.(max_blocks_ahead) < 2147483648)
  (Hid : 0 <= f.(block_id_)) (Hids : f.(block_id_) + len xs <= 2147483647) :
  exists f' t' em',
    foldM (transmit emit) xs (f, (FrameReassembler_init cfg, MkEm e hs false []))
      = Some (f', (t', em')) /\
    map (fun c => (c.(c_block), c.(c_frame))) em'.(em_log) =
      recoverable (Z.to_nat (symbol_size f)) f.(block_id_) xs.
Proof.
  destruct (stream_ok emit xs f (FrameReassembler_init cfg) (MkEm e hs false []) cfg.(max_frame_bytes))
    as (f' & t' & em' & new & H1 & H2 & H3); try done.
  - split; cbn; try done; [constructor|by intros ? ?%not_elem_of_nil].
  - exists f', t', em'. split; [done|]. by rewrite H2.
Qed.

Definition link_framer : FrameFramer :=
  set_operating_point
    (FrameFramer_init (MkFrameFramerConfig 258 7 3 2 65535
       (MkFrameFecConfig kRlc256 500 250 None 2))) 1 2 60.

Definition link_blob (n : nat) : list Z := map (fun i => Z.of_nat (n + i)) (seq 0 60).

(** The first frame loses a source symbol and hears the last packet before the
    others; the second loses too much; the third hears every packet twice. *)
Definition link_sendings : list Sending :=
  [MkSending (link_blob 1) 1000 [(4%nat, 1010, true); (0%nat, 1011, true); (2%nat, 1012, false)];
   MkSending (link_blob 2) 1016 [(1%nat, 1020, true); (3%nat, 1021, true)];
   MkSending (link_blob 3) 1033
     (map (fun i => (i, 1040, true)) [0; 0; 1; 1; 2; 2; 3; 3; 4; 4]%nat)].

Lemma link_exactly_once_witness :
  exists f' t' em',
    foldM (transmit (fun (e : unit) _ => (e, true))) link_sendings
      (link_framer, (@FrameReassembler_init unit FrameReassemblerConfig_init, MkEm tt tt false []))
      = Some (f', (t', em')) /\
    map (fun c => (c.(c_block), c.(c_frame))) em'.(em_log) =
      [(0, link_blob 1); (2, link_blob 3)].
Proof.
  destruct (link_exactly_once (HS := unit) (fun (e : unit) _ => (e, true)) link_framer
    FrameReassemblerConfig_init tt tt link_sendings) as (f' & t' & em' & H1 & H2).
  - split; [split; first [reflexivity|vm_compute; by constructor|vm_compute; split; congruence]
            |vm_compute; split; congruence|cbn; lia|done|done].
  - repeat constructor; cbn; unfold u8; try lia; apply Nat.ltb_lt; vm_compute; reflexivity.
  - unfold u32; cbn; lia.
  - cbn; lia.
  - cbn; lia.
  - cbn; lia.
  - exists f', t', em'. split; [exact H1|]. rewrite H2. vm_compute. reflexivity.
Defined.

(** [on_frame] emits exactly the block the wire format prescribes.
    On a blob of at least 8 bytes that fits 65535 symbols of at most 4085
    bytes, it returns [true], stays in bounds, and emits [k] source packets in
    order followed by the policy's repairs: packet [n] carries sequence
    number [next_seq + n] (mod 2^32), the block id, [kFecRepair] on repairs
    only and [kEndOfBlock] on the last packet only; the bytes are the wire
    layout of that header and of the symbol.  The framer then points at the
    next sequence number and block, the one-shot override is spent, and
    nothing else of its configuration changed. *)
Theorem on_frame_emits_block (f : FrameFramer) (b : list Z) (now : Z)
  (Hf : wf_framer f) (Hb : bytes b) (Hb8 : 8 <= len b) (Hb32 : u32 (len b))
  (Hs : symbol_size f <= 4085) (Hk : frame_k f (len b) <= 65535) :
  let s := Z.to_nat (symbol_size f) in
  let r := Z.to_nat (frame_repairs f (len b) (blob_flags b)) in
  exists f',
    on_frame f (Some b) (len b) now
      = Some (true, f', block_packets f f.(block_id_) b s r now) /\
    length (block_packets f f.(block_id_) b s r now) = (block_k b s + r)%nat /\
    f'.(next_seq_) = to_u32 (f.(next_seq_) + Z.of_nat (block_k b s + r)) /\
    f'.(block_id_) = to_u32 (f.(block_id_) + 1) /\
    f'.(override_parity_) = None /\ f'.(cfg_) = f.(cfg_) /\
    f'.(extra_flags_) = f.(extra_flags_) /\ f'.(profile_max_payload_) = f.(profile_max_payload_) /\
    f'.(negotiated_packet_budget_) = f.(negotiated_packet_budget_).
Proof.
  intros s r.
  destruct (on_frame_spec f b now Hf Hb ltac:(lia) Hb32 Hs Hk)
    as (f' & F0 & F1 & F2 & F3 & F4 & F5 & F6 & F7 & F8 & F9 & F10 & F11).
  exists f'. split; [exact F0|]. split; [|done].
  unfold block_packets, block_symbols. by rewrite length_imap, length_app, !length_map, !length_seq.
Qed.

Lemma on_frame_emits_block_witness :
  exists f',
    on_frame link_framer (Some (link_blob 1)) 60 1000
      = Some (true, f', block_packets link_framer 0 (link_blob 1) 23 2 1000) /\
    f'.(next_seq_) = 5.
Proof.
  destruct (on_frame_emits_block link_framer (link_blob 1) 1000) as (f' & H & _ & Hn & _).
  - split; first [reflexivity|vm_compute; by constructor|vm_compute; split; congruence].
  - repeat constructor; cbn; unfold u8; lia.
  - cbn; lia.
  - unfold u32; cbn; lia.
  - vm_compute; congruence.
  - vm_compute; congruence.
  - exists f'. split; [exact H|]. rewrite Hn. vm_compute. reflexivity.
Defined.

(** A blob the framer cannot frame is refused cleanly.  With a null
    pointer, fewer than 8 bytes, or more symbols than the 16-bit count can
    name, [on_frame] returns [false] and emits nothing; block id, sequence
    number and buffers are unchanged, [malformed_frame] counts it, and a
    pending override is spent. *)
Theorem on_frame_refuses (f : FrameFramer) (blob : ptr) (blen now : Z)
  (Hbad : blob = None \/ blen < 8 \/ frame_k f blen > 65535) :
  on_frame f blob blen now =
  Some (false, set_stats (set_override f None) (stat_malformed f.(stats_)), []).
Proof.
  unfold on_frame. destruct blob as [b|]; [|done]. unfold kVencFrameMetaSize.
  destruct (Z.ltb_spec blen 8); [done|].
  change (symbol_size (set_override f None)) with (symbol_size f). unfold frame_k in Hbad.
  destruct (Z.gtb_spec (1 + (blen - 1) / symbol_size f) 0xFFFF); [done|].
  destruct Hbad as [|[|]]; [done|lia|lia].
Qed.

Lemma on_frame_refuses_witness :
  exists f', on_frame link_framer (Some [0; 0; 0; 0]) 4 1000 = Some (false, f', []) /\
    f'.(block_id_) = 0.
Proof.
  eexists. split; [apply (on_frame_refuses link_framer (Some [0; 0; 0; 0]) 4 1000); right; left; lia|].
  reflexivity.
Defined.

(** the repair policy.  For a block of [k] symbols [on_frame] adds [r]
    repairs where either [r = 0] or [k + r <= 256] (the code's limit, so no
    [repair_idx] or coefficient ever wraps); without an override and without
    the jumbo guard [r = max(ceil(k * rate / 1000), min_r)], or [0] when the
    scheme is off, the class's rate is zero or that sum passes 256; an
    override replaces it, clamped to the limit, except on enhancement frames;
    the guard, which only fires below 16 symbols, never lowers it. *)
Theorem framer_repair_policy (f : FrameFramer) (blen flags : Z)
  (Hf : wf_framer f) (Hk : 1 <= frame_k f blen <= 65535) :
  let k := frame_k f blen in
  let cls := fec_class flags in
  let guard := jumbo_fec_guard f blen (symbol_size f) k in
  let r := frame_repairs f blen flags in
  let base := match f.(override_parity_) with
              | Some ov =>
                if is_rlc256 f && negb (match cls with kEnhance => true | _ => false end)
                then Z.min ov (Z.max 0 (256 - k)) else policy_repairs f k cls
              | None => policy_repairs f k cls
              end in
  0 <= r /\ (r = 0 \/ k + r <= 256) /\
  (guard = false -> r = base) /\
  (guard = true -> k < 16 /\ base <= r) /\
  policy_repairs f k cls =
    (let rate := class_rate f cls in
     let want := Z.max ((k * rate + 999) / 1000) f.(cfg_).(ff_fec).(min_r) in
     if negb (is_rlc256 f) || (rate =? 0) || (k + want >? 256) then 0 else want).
Proof.
  intros k cls guard r base.
  pose proof (frame_repairs_bound f blen flags Hf Hk) as [H1 H2].
  split; [done|]. split; [done|].
  pose proof (repair_count_policy f k cls Hf Hk) as Hrc.
  pose proof (wff_override f Hf) as Hov.
  assert (Hr : r = (choose_repairs f k cls f.(override_parity_) guard).1) by done.
  assert (Hbase : forall g, (choose_repairs f k cls f.(override_parity_) g).1 =
    if g && (negb (class_rate f cls =? 0)
             && (to_u16 (Z.max f.(cfg_).(ff_fec).(min_r) ((16 * class_rate f cls + 999) / 1000))
                 <=? to_u32 (256 - k))
             && (base <? to_u16 (Z.max f.(cfg_).(ff_fec).(min_r) ((16 * class_rate f cls + 999) / 1000))))
    then to_u16 (Z.max f.(cfg_).(ff_fec).(min_r) ((16 * class_rate f cls + 999) / 1000)) else base).
  { intros g. unfold choose_repairs.
    pose proof (choose_repairs_state f k cls None false) as [st Hst].
    unfold choose_repairs in Hst. destruct (repair_count f k cls) as [r0 f1]. cbn in Hrc, Hst. subst r0 f1.
    set (r1 := match override_parity_ f with Some _ => _ | None => _ end).
    assert (E1 : r1 = base).
    { unfold r1, base. destruct (override_parity_ f) as [ov|]; [|done]. cbn in Hov.
      change (is_rlc256 (set_stats f st)) with (is_rlc256 f). rewrite andb_comm.
      destruct (_ && _); [|done]. unfold kFecMaxSymbols, u16 in *.
      destruct (Z.ltb_spec k 256); rewrite to_u16_id by (unfold u16; lia); lia. }
    rewrite E1. destruct g; [|done]. cbn [andb].
    change (class_rate (set_stats f st) cls) with (class_rate f cls).
    change (cfg_ (set_stats f st)) with (cfg_ f).
    unfold mtu_tier_kFecProtectionK, kFecMaxSymbols. by destruct (_ && _ && _). }
  split; [|split]; [| |done].
  - intros Hg. rewrite Hr, Hbase, Hg. done.
  - intros Hg. split.
    + unfold guard, jumbo_fec_guard, mtu_tier_kFecProtectionK in Hg. bool_hyps. done.
    + rewrite Hr, Hbase, Hg. cbn [andb]. destruct (_ && _ && _) eqn:G; [bool_hyps; lia|lia].
Qed.

Lemma framer_repair_policy_witness :
  frame_repairs link_framer 1000 0 = 11 /\ frame_k link_framer 1000 = 44.
Proof.
  assert (H : 1 <= frame_k link_framer 1000 <= 65535) by (vm_compute; split; congruence).
  assert (Hf : wf_framer link_framer)
    by (split; first [reflexivity|vm_compute; by constructor|vm_compute; split; congruence]).
  destruct (framer_repair_policy link_framer 1000 0 Hf H) as (_ & _ & Hg & _).
  split; [rewrite Hg by (vm_compute; reflexivity)|]; vm_compute; reflexivity.
Defined.

(** C11. the reassembler is safe under arbitrary input.  Whatever sequence of
    pushes (any identifiers, flags and payload bytes), ticks and resets
    arrives, no operation reads or writes outside its buffers, the invariant
    of the block map (one geometry per block, indices and payload lengths in
    range, predictors in their windows) holds throughout, and every frame
    handed to the egress is either a frame the salvage hook made or one of 8
    to [max_frame_bytes] bytes. *)
Theorem reassembler_safe {HS E : Type} (emit : E -> list Z -> E * bool)
  (cfg : FrameReassemblerConfig) (hook : option (HS -> SalvageView -> HookProg (HS * bool)))
  (P : list Z -> Prop) (em : Em HS E) (evs : list Event)
  (Hmax : 0 <= cfg.(max_frame_bytes) < 9223372036854775808)
  (Hhook : forall h hs v, hook = Some h -> hook_emits P (h hs v))
  (Hevs : Forall event_ok evs) :
  exists t' em', foldM (step emit) evs (fresh cfg hook, em) = Some (t', em') /\
    wf_reassembler t' /\
    exists new, em'.(em_log) = em.(em_log) ++ new /\
      Forall (fun c => (bytes c.(c_frame) /\ 8 <= len c.(c_frame) <= cfg.(max_frame_bytes))
                       \/ P c.(c_frame)) new.
Proof.
  destruct (foldM_ind (step emit) (fun _ st => wf_reassembler st.1 /\ hooks_emit P st.1 /\
      st.1.(fr_cfg) = cfg /\ logs (emits_ok P (fresh cfg hook)) em st.2)
    evs (fresh cfg hook, em)) as ([t' em'] & Hrun & Hw & _ & _ & Hl).
  - cbn [fst snd]. split; [by apply fresh_wf|]. split; [|split; [by destruct hook|apply logs_refl]].
    intros h hs v Hh. apply Hhook. by destruct hook.
  - intros pre ev post [t1 em1] -> (Hw & HP & Hc & Hl). cbn [fst snd] in *.
    apply Forall_app in Hevs as [_ Hev]. apply Forall_cons in Hev as [Hev _].
    destruct (step_safe emit P t1 em1 ev Hev Hw HP) as (t2 & em2 & -> & Hw2 & HP2 & Hc2 & Hl2).
    eexists. split; [reflexivity|]. cbn [fst snd]. split; [done|]. split; [done|].
    split; [congruence|]. eapply logs_trans; [exact Hl|]. eapply logs_impl; [|exact Hl2].
    intros c [[Hb Hlen]|Hc']; [left|by right]. split; [done|].
    assert (Ef : (@fresh HS cfg hook).(fr_cfg) = cfg) by by destruct hook.
    by rewrite Ef, <- Hc.
  - cbn [fst snd] in *. exists t', em'. split; [done|]. split; [done|].
    destruct Hl as (new & E1 & F). exists new. split; [done|].
    eapply Forall_impl; [exact F|]. intros c [[Hb Hlen]|Hc']; [left|by right]. split; [done|].
    assert (Ef : (@fresh HS cfg hook).(fr_cfg) = cfg) by by destruct hook. by rewrite Ef in Hlen.
Qed.

(** Garbage of every kind, then a one-symbol frame. *)
Definition noise : list Event :=
  [EvPush 7 8 (Some [255; 255; 255; 255; 255; 255; 255; 255; 255; 255; 255; 255]) 12 10 true;
   EvPush 4294967295 0 (Some [0; 2; 0; 1; 9]) 5 11 true;
   EvPush 9 0 None 0 12 false; EvTick 100;
   EvPush 7 1 (Some [0; 1; 0; 0; 1; 2; 3; 4; 5; 6; 7; 8]) 12 101 true; EvResetStats].

Lemma reassembler_safe_witness :
  exists t' em',
    foldM (step (fun (e : unit) _ => (e, true))) noise
      (@fresh unit FrameReassemblerConfig_init None, MkEm tt tt false []) = Some (t', em') /\
    wf_reassembler t'.
Proof.
  destruct (reassembler_safe (HS := unit) (fun (e : unit) _ => (e, true)) FrameReassemblerConfig_init
    None (fun _ => False) (MkEm tt tt false []) noise) as (t' & em' & H & Hw & _).
  - cbn. lia.
  - intros h hs v [=].
  - repeat constructor; cbn; unfold u8; lia.
  - exists t', em'. split; [exact H|exact Hw].
Defined.

(** C10. the egress sees blocks in order, each at most once, on a stream that
    does not restart and whose block ids stay below 2^31, where the serial order
    is the integer order.  Whatever losses, duplicates and reorderings the
    symbols of such a stream arrive with, and with any egress and any salvage
    hook that emits at most one frame per call and reports an accepted frame as
    repaired, the block ids of the accepted frames strictly increase: the
    watermark makes duplicates, late symbols and salvage of an older block after
    a newer one impossible.  Both restrictions are needed: ids more than half
    the ring apart cycle in the serial order ([serial_order_cycles]). *)
Theorem reassembler_in_order {HS E : Type} (emit : E -> list Z -> E * bool)
  (cfg : FrameReassemblerConfig) (hook : option (HS -> SalvageView -> HookProg (HS * bool)))
  (e : E) (hs : HS) (evs : list Event) t' em'
  (Hhook : forall h hs v, hook = Some h -> hook_faithful (h hs v))
  (Hevs : Forall event_ordered evs)
  (Hrun : foldM (step emit) evs (fresh cfg hook, MkEm e hs false []) = Some (t', em')) :
  StronglySorted Z.lt (accepted em'.(em_log)).
Proof.
  apply (io_ordered _ _ (run_ordered emit evs _ _ _ _ Hevs (fresh_in_order cfg hook e hs Hhook) Hrun)).
Qed.

(** A hook that fills a block with its first source symbol. *)
Definition first_source_hook (_ : unit) (v : SalvageView) : HookProg (unit * bool) :=
  HEmit (default [] (snd <$> head v.(sv_sources))) (fun ok => HRet (tt, ok)).

(** Block 3 waits for its second symbol; block 5 completes and block 3 is
    salvaged; block 3's missing symbol comes too late; block 6 completes. *)
Definition reordered : list Event :=
  [EvPush 3 0 (Some [0; 2; 0; 0; 1; 1; 1; 1; 1; 1; 1; 1]) 12 10 true;
   EvPush 5 1 (Some [0; 1; 0; 0; 5; 5; 5; 5; 5; 5; 5; 5]) 12 11 true;
   EvPush 3 1 (Some [0; 2; 0; 1; 2]) 5 12 true;
   EvPush 6 1 (Some [0; 1; 0; 0; 6; 6; 6; 6; 6; 6; 6; 6]) 12 13 true].

(** Three ids a third of the ring apart and more: each is "after" the one before,
    and the first is after the last, so its block is accepted again. *)
Definition cycling : list Event :=
  map (fun id => EvPush id 1 (Some [0; 1; 0; 0; 5; 5; 5; 5; 5; 5; 5; 5]) 12 10 true) [5; 0x7fffffff; 0xfffffffe; 5].
Example serial_order_cycles :
  (fun st => accepted st.2.(em_log)) <$>
    foldM (step (fun (e : unit) _ => (e, true))) cycling
      (fresh FrameReassemblerConfig_init (Some first_source_hook), MkEm tt tt false []) = Some [5; 0x7fffffff; 0xfffffffe; 5].
Proof. vm_compute. reflexivity. Qed.

Lemma reassembler_in_order_witness :
  exists t' em',
    foldM (step (fun (e : unit) _ => (e, true))) reordered
      (fresh FrameReassemblerConfig_init (Some first_source_hook), MkEm tt tt false [])
      = Some (t', em') /\
    accepted em'.(em_log) = [3; 5; 6] /\ StronglySorted Z.lt (accepted em'.(em_log)).
Proof.
  assert (Hl : (fun st => accepted st.2.(em_log)) <$>
    foldM (step (fun (e : unit) _ => (e, true))) reordered
      (fresh FrameReassemblerConfig_init (Some first_source_hook), MkEm tt tt false [])
    = Some [3; 5; 6]) by (vm_compute; reflexivity).
  destruct (foldM (step (fun (e : unit) _ => (e, true))) reordered
    (fresh FrameReassemblerConfig_init (Some first_source_hook), MkEm tt tt false []))
    as [[t' em']|] eqn:H; [|discriminate Hl].
  exists t', em'. split; [reflexivity|]. split; [by injection Hl|].
  - refine (reassembler_in_order (fun (e : unit) _ => (e, true)) FrameReassemblerConfig_init
      (Some first_source_hook) tt tt reordered t' em' _ _ H).
    + intros h hs v [= <-]. cbn. exists (tt, true). split; [done|]. split; [done|]. by exists (tt, false).
    + repeat constructor; cbn; lia.
Defined.

(** no block outlives its deadline, and a retired block stays retired.
    After [tick now], in a state any run without restart can reach, the blocks
    still open are exactly those whose deadline lies ahead, in the same order
    and untouched; and the watermark covers every other one, so a later
    symbol of it is refused without any effect or emission. *)
Theorem tick_retires_overdue {HS E : Type} (emit : E -> list Z -> E * bool)
  (cfg : FrameReassemblerConfig) (hook : option (HS -> SalvageView -> HookProg (HS * bool)))
  (e : E) (hs : HS) (evs : list Event) t em now
  (Hhook : forall h hs v, hook = Some h -> hook_faithful (h hs v))
  (Hevs : Forall event_ordered evs)
  (Hrun : foldM (step emit) evs (fresh cfg hook, MkEm e hs false []) = Some (t, em)) :
  let overdue := fun b => now >=? to_u64 (b.(b_first_ms) + t.(fr_cfg).(deadline_ms)) in
  let '(t', em') := tick emit t em now in
  t'.(blocks_) = filter (fun en => overdue en.2 = false) t.(blocks_) /\
  forall id b, (id, b) ∈ t.(blocks_) -> overdue b = true ->
    forall em0 flags payload n now' air,
      push emit t' em0 id flags payload n now' air = Some (false, t', em0).
Proof.
  pose proof (run_ordered emit evs _ _ _ _ Hevs (fresh_in_order cfg hook e hs Hhook) Hrun) as Hi.
  intros overdue. unfold tick.
  pose proof (sweep_covers emit (fun _ b => overdue b) frames_deadline t.(blocks_) t em
    (io_blocks _ _ Hi) (io_hooks _ _ Hi) (io_ordered _ _ Hi)) as H1.
  pose proof (sweep_ind emit (fun _ _ => True) (fun _ b => overdue b) frames_deadline t.(blocks_) t em) as H2.
  pose proof (sweep_ordered emit (fun _ b => overdue b) frames_deadline 2147483648 t em Hi) as H3.
  fold overdue. destruct (sweep _ _ _ _ _ _) as [[kept t'] em'].
  destruct H1 as [H1 _], H2 as [_ H2]; [by intros; destruct (drop_block _ _ _ _ _ _)|done|].
  destruct H3 as [H3 _]; [exact (od_fin _ _ (io_ordered _ _ Hi))|intros e0 He _; by apply (io_blocks _ _ Hi)|].
  split; [done|]. intros id b Hb Hov em0 flags payload n now' air.
  destruct (H1 (id, b) Hb Hov) as [Hf Hle]. cbn in Hf, Hle.
  pose proof (od_fin _ _ (io_ordered _ _ H3) Hf) as Hs. cbn in Hs.
  pose proof (io_blocks _ _ Hi _ Hb) as Hid. cbn in Hid.
  unfold push. cbn [have_finalized_ finalized_upto_ with_blocks]. rewrite Hf.
  rewrite bid_diff_small by done.
  by destruct (Z.leb_spec (id - finalized_upto_ t') 0); [|lia].
Qed.

Definition late : list Event :=
  [EvPush 3 0 (Some [0; 2; 0; 0; 1; 1; 1; 1; 1; 1; 1; 1]) 12 10 true;
   EvPush 4 0 (Some [0; 2; 0; 0; 1; 1; 1; 1; 1; 1; 1; 1]) 12 50 true].

Definition patient : FrameReassemblerConfig := MkFrameReassemblerConfig 50 8 655360.

(** Block 3 is 55 ms old at the tick, block 4 is 15 ms old. *)
Lemma tick_retires_overdue_witness :
  exists t em, foldM (step (fun (e : unit) _ => (e, true))) late
      (@fresh unit patient None, MkEm tt tt false []) = Some (t, em) /\
    map fst t.(blocks_) = [3; 4] /\
    let '(t', _) := tick (fun (e : unit) _ => (e, true)) t em 65 in
    map fst t'.(blocks_) = [4] /\
    push (fun (e : unit) _ => (e, true)) t' em 3 1 (Some [0; 2; 0; 1; 2]) 5 66 true
      = Some (false, t', em).
Proof.
  assert (Hl : (fun st => (map fst st.1.(blocks_),
      bool_decide (Exists (fun en => en.1 = 3 /\
        (65 >=? to_u64 (en.2.(b_first_ms) + st.1.(fr_cfg).(deadline_ms))) = true) st.1.(blocks_)),
      map fst (filter (fun en => (65 >=? to_u64 (en.2.(b_first_ms) + st.1.(fr_cfg).(deadline_ms))) = false)
        st.1.(blocks_)))) <$>
    foldM (step (fun (e : unit) _ => (e, true))) late
      (@fresh unit patient None, MkEm tt tt false [])
    = Some ([3; 4], true, [4])) by (vm_compute; reflexivity).
  destruct (foldM (step (fun (e : unit) _ => (e, true))) late
    (@fresh unit patient None, MkEm tt tt false [])) as [[t em]|] eqn:H; [|discriminate Hl].
  cbn [fmap option_fmap option_map fst] in Hl. injection Hl as H1 H2 H3.
  exists t, em. split; [reflexivity|]. split; [exact H1|].
  pose proof (tick_retires_overdue (fun (e : unit) _ => (e, true)) patient None tt tt late t em 65) as Hp.
  cbn zeta in Hp.
  destruct (tick _ t em 65) as [t' em']. destruct Hp as [Hp1 Hp2].
  - intros h hs v [=].
  - repeat constructor; cbn; lia.
  - exact H.
  - split; [rewrite Hp1; exact H3|].
    apply bool_decide_eq_true in H2. apply Exists_exists in H2 as ([id b] & Hin & Hid & Hov).
    cbn in Hid, Hov. subst id. by apply (Hp2 3 b).
Defined.

(** ** What modelling showed *)

(** [push] answers [true] although the symbol it was given completes nothing:
    the first symbol of block 5 (of two) supersedes block 3, whose salvage
    emits a frame. *)
Lemma push_reports_other_block :
  exists t em t' em',
    foldM (step (fun (e : unit) _ => (e, true)))
      [EvPush 3 0 (Some [0; 2; 0; 0; 1; 1; 1; 1; 1; 1; 1; 1]) 12 10 true]
      (fresh FrameReassemblerConfig_init (Some first_source_hook), MkEm tt tt false []) = Some (t, em) /\
    push (fun (e : unit) _ => (e, true)) t em 5 0 (Some [0; 2; 0; 0; 5; 5; 5; 5; 5; 5; 5; 5]) 12 11 true
      = Some (true, t', em') /\
    accepted em'.(em_log) = [3] /\ map fst t'.(blocks_) = [5].
Proof.
  assert (H : (fun st => (st.1.1, accepted st.2.(em_log), map fst st.1.2.(blocks_))) <$>
    (st ← foldM (step (fun (e : unit) _ => (e, true)))
      [EvPush 3 0 (Some [0; 2; 0; 0; 1; 1; 1; 1; 1; 1; 1; 1]) 12 10 true]
      (fresh FrameReassemblerConfig_init (Some first_source_hook), MkEm tt tt false []);
     push (fun (e : unit) _ => (e, true)) st.1 st.2 5 0
       (Some [0; 2; 0; 0; 5; 5; 5; 5; 5; 5; 5; 5]) 12 11 true)
    = Some (true, [3], [5])) by (vm_compute; reflexivity).
  destruct (foldM _ _ _) as [[t em]|]; [|discriminate H]. cbn [mbind option_bind fst snd] in H.
  destruct (push _ t em _ _ _ _ _ _) as [[[r t'] em']|] eqn:E0; [|discriminate H].
  cbn in H. injection H as -> H1 H2. by exists t, em, t', em'.
Qed.

(** A malformed symbol of a block far ahead (two payload bytes, id 1000) leaves
    an empty block behind; when it times out the watermark moves to 1000 and
    the stream's real blocks are refused. *)
Lemma malformed_symbol_moves_watermark :
  exists t em,
    foldM (step (fun (e : unit) _ => (e, true)))
      [EvPush 1000 0 (Some [0; 0]) 2 10 true; EvTick 60]
      (@fresh unit FrameReassemblerConfig_init None, MkEm tt tt false []) = Some (t, em) /\
    push (fun (e : unit) _ => (e, true)) t em 5 1 (Some [0; 1; 0; 0; 5; 5; 5; 5; 5; 5; 5; 5]) 12 61 true
      = Some (false, t, em).
Proof.
  assert (H : (fun st => (st.1.(have_finalized_), st.1.(finalized_upto_))) <$>
    foldM (step (fun (e : unit) _ => (e, true)))
      [EvPush 1000 0 (Some [0; 0]) 2 10 true; EvTick 60]
      (@fresh unit FrameReassemblerConfig_init None, MkEm tt tt false []) = Some (true, 1000))
    by (vm_compute; reflexivity).
  destruct (foldM _ _ _) as [[t em]|]; [|discriminate H]. exists t, em. split; [done|].
  cbn in H. injection H as H1 H2. unfold push. by rewrite H1, H2.
Qed.
