(* ===== verification/TableProps.v ===== *)
(** * Properties of the profile table and its hash *)
From stdpp Require Import sorting.
From S2P Require Import Prelude Endian Gf256 Table.

(** ** CRC-8 *)

(** The checksum bit by bit: shift the message through the register, most
    significant bit first, subtracting the polynomial 0xD5 (x^8 implied). *)
Definition crc8_ref (data : list Z) (crc : Z) : Z :=
  fold_left (fun c b => Nat.iter 8 crc8_bit (Z.lxor c b)) data crc.

Lemma crc8_step_bitwise c b : u8 c -> u8 b -> crc8_step c b = Nat.iter 8 crc8_bit (Z.lxor c b).
Proof.
  intros Hc Hb. pose proof (lxor_u8 c b Hc Hb) as Hx. unfold crc8_step. rewrite to_u8_id by done.
  set (x := Z.lxor c b) in *. apply Z.eqb_eq.
  apply (forall_bytes (fun x => nth (Z.to_nat x) kCrc8Dvbs2Table 0 =? Nat.iter 8 crc8_bit x)); [|done].
  vm_compute. reflexivity.
Qed.

Lemma crc8_step_u8 c b : u8 c -> u8 b -> u8 (crc8_step c b).
Proof.
  intros Hc Hb. pose proof (lxor_u8 c b Hc Hb) as Hx. unfold crc8_step. rewrite to_u8_id by done.
  apply is_u8_spec.
  apply (forall_bytes (fun x => is_u8 (nth (Z.to_nat x) kCrc8Dvbs2Table 0))); [|done].
  vm_compute. reflexivity.
Qed.

(** The table is a permutation of the bytes: it has an inverse. *)
Definition crc8_unstep : list Z :=
  Eval vm_compute in
  map (fun v => Z.of_nat (default 0%nat (fst <$> list_find (fun y => y = Z.of_nat v) kCrc8Dvbs2Table)))
    (seq 0 256).

Lemma crc8_step_inj x y c d :
  u8 x -> u8 y -> u8 c -> u8 d -> crc8_step c x = crc8_step d y -> Z.lxor c x = Z.lxor d y.
Proof.
  intros Hx Hy Hc Hd. unfold crc8_step. rewrite !to_u8_id by auto with ints.
  assert (Hinv : forall z, u8 z -> nth (Z.to_nat (nth (Z.to_nat z) kCrc8Dvbs2Table 0)) crc8_unstep 0 = z).
  { intros z Hz. apply Z.eqb_eq.
    apply (forall_bytes (fun z =>
      nth (Z.to_nat (nth (Z.to_nat z) kCrc8Dvbs2Table 0)) crc8_unstep 0 =? z)); [|done].
    vm_compute. reflexivity. }
  intros H. rewrite <- (Hinv (Z.lxor c x)), <- (Hinv (Z.lxor d y)), H by auto with ints. done.
Qed.

Lemma lxor_cancel_l a b c : Z.lxor a b = Z.lxor a c -> b = c.
Proof.
  intros H. apply (f_equal (Z.lxor a)) in H. by rewrite <- !Z.lxor_assoc, Z.lxor_nilpotent, !Z.lxor_0_l in H.
Qed.

Lemma crc8_u8 data : forall c, bytes data -> u8 c -> u8 (crc8_dvbs2 data c).
Proof.
  induction data as [|b data IH]; intros c Hb Hc; [done|]. apply Forall_cons in Hb as [Hb Hd].
  apply IH; [done|]. by apply crc8_step_u8.
Qed.

(** A difference in the register survives the rest of the message. *)
Lemma crc8_inj data : forall c d, bytes data -> u8 c -> u8 d ->
  crc8_dvbs2 data c = crc8_dvbs2 data d -> c = d.
Proof.
  induction data as [|b data IH]; intros c d Hb Hc Hd H; [done|].
  apply Forall_cons in Hb as [Hb Hdata].
  apply IH in H; [|done|by apply crc8_step_u8|by apply crc8_step_u8].
  apply crc8_step_inj in H; [|done..].
  apply (lxor_cancel_l b). by rewrite !(Z.lxor_comm b).
Qed.

Lemma crc8_app d1 d2 c : crc8_dvbs2 (d1 ++ d2) c = crc8_dvbs2 d2 (crc8_dvbs2 d1 c).
Proof. unfold crc8_dvbs2. apply fold_left_app. Qed.

(** ** The canonical form *)
Definition wf_profile (p : Profile) : Prop :=
  u8 p.(pf_id) /\ u8 p.(pf_mcs) /\ u8 p.(pf_tx_power_level) /\
  u16 p.(pf_airtime_budget_permille) /\ u16 p.(pf_max_payload) /\
  u16 p.(pf_fec_overhead_permille) /\ u16 p.(pf_arq_deadline_iframe_ms) /\
  u16 p.(pf_arq_deadline_pframe_ms) /\ u32 p.(pf_bitrate_min_kbps) /\
  u32 p.(pf_reserve_control_bps) /\ u32 p.(pf_reserve_telemetry_bps).

Record wf_table (t : ProfileTable) : Prop := {
  wt_profiles : Forall wf_profile t.(profiles);
  wt_ids : NoDup (map pf_id t.(profiles));
  wt_floor : u8 t.(floor_profile);
  wt_period : u16 t.(probe_period);
  wt_slot : u16 t.(probe_slot)
}.

(** The record of a profile, field by field (PROTOCOL.md 3.6). *)
Definition record_bytes (p : Profile) : list Z :=
  [p.(pf_id); p.(pf_mcs); GuardInterval_code p.(pf_gi); p.(pf_tx_power_level)] ++
  be16_bytes p.(pf_airtime_budget_permille) ++ [FecScheme_code p.(pf_fec_scheme)] ++
  be16_bytes p.(pf_fec_overhead_permille) ++ be16_bytes p.(pf_arq_deadline_iframe_ms) ++
  be16_bytes p.(pf_arq_deadline_pframe_ms) ++ be32_bytes p.(pf_bitrate_min_kbps) ++
  be32_bytes p.(pf_reserve_control_bps) ++ be32_bytes p.(pf_reserve_telemetry_bps) ++
  be16_bytes p.(pf_max_payload).

Lemma profile_record_spec p : profile_record p = Some (record_bytes p).
Proof. destruct p. reflexivity. Qed.

Definition table_bytes (t : ProfileTable) : list Z :=
  [to_u8 (len t.(profiles))] ++ concat (map record_bytes (merge_sort id_le t.(profiles))) ++
  [t.(floor_profile)] ++ be16_bytes t.(probe_period) ++ be16_bytes t.(probe_slot).

Lemma canonical_serialize_spec t : canonical_serialize t = Some (table_bytes t).
Proof.
  unfold canonical_serialize, table_bytes.
  rewrite (Permutation_length (merge_sort_Permutation id_le t.(profiles))).
  assert (H : forall l out, foldM (fun out p => f ← profile_record p; Some (out ++ f)) l out
    = Some (out ++ concat (map record_bytes l))).
  { induction l as [|p l IH]; intros out; cbn [foldM map concat]; [by rewrite app_nil_r|].
    rewrite profile_record_spec. cbn [mbind option_bind]. rewrite IH. by rewrite <- app_assoc. }
  rewrite H. cbn [mbind option_bind]. cbn -[record_bytes]. by rewrite <- !app_assoc.
Qed.

Lemma record_length p : length (record_bytes p) = 27%nat.
Proof. reflexivity. Qed.

Lemma be16_bytes_inj a b : u16 a -> u16 b -> be16_bytes a = be16_bytes b -> a = b.
Proof.
  intros Ha Hb H. rewrite <- (be16_of_bytes a), <- (be16_of_bytes b) by done.
  unfold be16_bytes in H. by injection H as -> ->.
Qed.

Lemma be32_bytes_inj a b : u32 a -> u32 b -> be32_bytes a = be32_bytes b -> a = b.
Proof.
  intros Ha Hb H. rewrite <- (be32_of_bytes a), <- (be32_of_bytes b) by done.
  unfold be32_bytes in H. by injection H as -> -> -> ->.
Qed.

Lemma record_bytes_inj p q : wf_profile p -> wf_profile q -> record_bytes p = record_bytes q -> p = q.
Proof.
  intros (P1 & P2 & P3 & P4 & P5 & P6 & P7 & P8 & P9 & P10 & P11)
         (Q1 & Q2 & Q3 & Q4 & Q5 & Q6 & Q7 & Q8 & Q9 & Q10 & Q11) H.
  destruct p as [i1 m1 g1 t1 a1 mp1 f1 fo1 ai1 ap1 b1 c1 d1], q as [i2 m2 g2 t2 a2 mp2 f2 fo2 ai2 ap2 b2 c2 d2].
  unfold record_bytes in H. cbn [pf_id pf_mcs pf_gi pf_tx_power_level pf_airtime_budget_permille
    pf_max_payload pf_fec_scheme pf_fec_overhead_permille pf_arq_deadline_iframe_ms
    pf_arq_deadline_pframe_ms pf_bitrate_min_kbps pf_reserve_control_bps
    pf_reserve_telemetry_bps] in *.
  repeat match type of H with
  | _ ++ _ = _ ++ _ => let E := fresh "E" in apply app_inj_1 in H as [E H]; [|reflexivity];
    first [apply be16_bytes_inj in E; [|done..]|apply be32_bytes_inj in E; [|done..]|idtac]
  end.
  apply be16_bytes_inj in H; [|done..].
  simplify_eq.
  assert (g1 = g2) by (by destruct g1, g2).
  assert (f1 = f2) by (by destruct f1, f2). congruence.
Qed.

Lemma records_inj l1 : forall l2,
  Forall wf_profile l1 -> Forall wf_profile l2 -> length l1 = length l2 ->
  concat (map record_bytes l1) = concat (map record_bytes l2) -> l1 = l2.
Proof.
  induction l1 as [|p l1 IH]; intros [|q l2] H1 H2 Hl H; try done.
  apply Forall_cons in H1 as [Hp H1], H2 as [Hq H2]. cbn [map concat] in H.
  apply app_inj_1 in H as [Ep El]; [|by rewrite !record_length].
  f_equal; [by apply record_bytes_inj|]. apply IH; auto.
Qed.

#[export] Instance id_le_total : Total id_le.
Proof. intros a b. unfold id_le. lia. Qed.
#[export] Instance id_le_trans : Transitive id_le.
Proof. intros a b c. unfold id_le. lia. Qed.

(** With unique ids the sorted order does not depend on the authored order. *)
Lemma sorted_unique (l1 : list Profile) : forall l2,
  NoDup (map pf_id l1) -> l1 ≡ₚ l2 -> StronglySorted id_le l1 -> StronglySorted id_le l2 -> l1 = l2.
Proof.
  induction l1 as [|p l1 IH]; intros l2 Hn Hp S1 S2.
  { by apply Permutation_nil in Hp as ->. }
  destruct l2 as [|q l2]; [by apply Permutation_sym, Permutation_nil in Hp|].
  apply NoDup_cons in Hn as [Hpn Hn].
  inversion_clear S1 as [|? ? S1' F1]. inversion_clear S2 as [|? ? S2' F2].
  assert (E0 : p = q).
  { assert (Hq : q ∈ p :: l1) by (rewrite Hp; by left).
    assert (Hp' : p ∈ q :: l2) by (rewrite <- Hp; by left).
    apply elem_of_cons in Hq as [->|Hq]; [done|].
    apply elem_of_cons in Hp' as [->|Hp']; [done|].
    assert (Hle1 : id_le p q) by (eapply Forall_forall in F1; [exact F1|exact Hq]).
    assert (Hle2 : id_le q p) by (eapply Forall_forall in F2; [exact F2|exact Hp']).
    exfalso. apply Hpn. apply list_elem_of_fmap. exists q. split; [unfold id_le in *; lia|done]. }
  subst q. f_equal. apply IH; try done. by apply Permutation_cons_inv in Hp.
Qed.

Lemma merge_sort_unique l1 l2 :
  NoDup (map pf_id l1) -> l1 ≡ₚ l2 -> merge_sort id_le l1 = merge_sort id_le l2.
Proof.
  intros Hn Hp. apply sorted_unique.
  - by rewrite (merge_sort_Permutation id_le l1).
  - by rewrite !merge_sort_Permutation.
  - apply (StronglySorted_merge_sort id_le).
  - apply (StronglySorted_merge_sort id_le).
Qed.

Lemma adjacent_dup_sorted l :
  StronglySorted Z.le l -> adjacent_dup l = false <-> NoDup l.
Proof.
  induction l as [|a l IH]; intros Hs; [by split; [constructor|]|].
  inversion_clear Hs as [|? ? Hs' Hf]. specialize (IH Hs').
  destruct l as [|b l]; [by split; [intros; repeat constructor; set_solver|]|].
  change (adjacent_dup (a :: b :: l)) with ((a =? b) || adjacent_dup (b :: l)).
  rewrite orb_false_iff, IH, Z.eqb_neq, !(NoDup_cons a). split; [|set_solver].
  intros [Hab Hn]. split; [|done]. intros Hin.
  apply elem_of_cons in Hin as [|Hin]; [done|].
  inversion_clear Hs' as [|? ? _ Hf'].
  assert (Hle1 : a <= b) by by apply Forall_cons in Hf as [? _].
  assert (Hle2 : b <= a) by (eapply Forall_forall in Hf'; [exact Hf'|exact Hin]). lia.
Qed.

(** ** Properties *)

(** the table-driven CRC is the CRC-8/DVB-S2 bit register, and it catches
    every change confined to one byte.  For byte strings the loop over
    [kCrc8Dvbs2Table] equals the bit-serial division by 0xD5 from any register
    value, it stays a byte, and two messages that differ in exactly one byte
    never have the same checksum. *)
Theorem crc8_dvbs2_correct (pre post : list Z) (crc b1 b2 : Z)
  (Hpre : bytes pre) (Hpost : bytes post) (Hc : u8 crc) (H1 : u8 b1) (H2 : u8 b2) :
  crc8_dvbs2 (pre ++ b1 :: post) crc = crc8_ref (pre ++ b1 :: post) crc /\
  u8 (crc8_dvbs2 (pre ++ b1 :: post) crc) /\
  (crc8_dvbs2 (pre ++ b1 :: post) crc = crc8_dvbs2 (pre ++ b2 :: post) crc -> b1 = b2).
Proof.
  assert (Href : forall data c, bytes data -> u8 c -> crc8_dvbs2 data c = crc8_ref data c).
  { induction data as [|b data IH]; intros c Hb Hcc; [done|]. apply Forall_cons in Hb as [Hb Hd].
    unfold crc8_dvbs2, crc8_ref. cbn [fold_left]. rewrite <- crc8_step_bitwise by done.
    apply IH; [done|]. by apply crc8_step_u8. }
  assert (Hall : bytes (pre ++ b1 :: post)) by (apply Forall_app; split; [done|by constructor]).
  split; [by apply Href|]. split; [by apply crc8_u8|].
  rewrite !crc8_app. pose proof (crc8_u8 pre crc Hpre Hc) as Hp.
  set (p := crc8_dvbs2 pre crc) in *. intros H.
  change (crc8_dvbs2 post (crc8_step p b1) = crc8_dvbs2 post (crc8_step p b2)) in H.
  apply crc8_inj in H; [|done|by apply crc8_step_u8..].
  apply crc8_step_inj in H; [|done..]. by apply (lxor_cancel_l p).
Qed.

(** The check value of the algorithm: "123456789" hashes to 0xBC. *)
Lemma crc8_dvbs2_correct_witness :
  crc8_dvbs2 [49; 50; 51; 52; 53; 54; 55; 56; 57] 0 = 188 /\
  crc8_dvbs2 [49; 50; 51; 52; 53; 54; 55; 56; 57] 0 <> crc8_dvbs2 [49; 50; 51; 52; 63; 54; 55; 56; 57] 0.
Proof.
  split; [vm_compute; reflexivity|]. intros H.
  assert (E : 53 = 63); [|discriminate E].
  refine (proj2 (proj2 (crc8_dvbs2_correct [49; 50; 51; 52] [54; 55; 56; 57] 0 53 63 _ _ _ _ _)) H);
    repeat constructor; unfold u8; lia.
Defined.

(** The canonical form determines the table.  Serialization always
    succeeds and is [count, records by ascending id, floor, period, slot]; two
    well-formed tables of at most 255 profiles serialize to the same bytes
    exactly when they have the same profiles (in whatever authored order), the
    same floor and the same probe schedule - so the hash covers every field. *)
Theorem canonical_serialize_injective (t1 t2 : ProfileTable)
  (H1 : wf_table t1) (H2 : wf_table t2)
  (L1 : len t1.(profiles) <= 255) (L2 : len t2.(profiles) <= 255) :
  canonical_serialize t1 = Some (table_bytes t1) /\
  (canonical_serialize t1 = canonical_serialize t2 <->
   t1.(profiles) ≡ₚ t2.(profiles) /\ t1.(floor_profile) = t2.(floor_profile) /\
   t1.(probe_period) = t2.(probe_period) /\ t1.(probe_slot) = t2.(probe_slot)).
Proof.
  split; [apply canonical_serialize_spec|]. rewrite !canonical_serialize_spec.
  destruct H1 as [W1 N1 F1 P1 S1], H2 as [W2 N2 F2 P2 S2]. split.
  - intros H. apply (inj Some) in H. unfold table_bytes in H.
    apply app_inj_1 in H as [Hl H]; [|done]. injection Hl as Hl.
    rewrite !to_u8_id in Hl by (unfold u8; lia). apply Nat2Z.inj in Hl.
    assert (Hsort : forall t, Forall wf_profile t.(profiles) -> Forall wf_profile (merge_sort id_le t.(profiles))).
    { intros t Ht. by rewrite merge_sort_Permutation. }
    assert (Hlen : length (merge_sort id_le t1.(profiles)) = length (merge_sort id_le t2.(profiles)))
      by by rewrite !(Permutation_length (merge_sort_Permutation _ _)).
    assert (Hcl : forall l, length (concat (map record_bytes l)) = (27 * length l)%nat).
    { induction l as [|p l IH]; [done|]. cbn [map concat length]. rewrite length_app, IH, record_length. lia. }
    apply app_inj_1 in H as [Hr H]; [|by rewrite !Hcl, Hlen].
    apply app_inj_1 in H as [Hf H]; [|done]. injection Hf as Hf.
    apply app_inj_1 in H as [Hp Hs]; [|done].
    apply be16_bytes_inj in Hp, Hs; [|done..].
    apply records_inj in Hr; auto. split; [|done].
    by rewrite <- (merge_sort_Permutation id_le t1.(profiles)), Hr, merge_sort_Permutation.
  - intros (Hp & Hf & Hpe & Hs). f_equal. unfold table_bytes.
    rewrite (Permutation_length Hp), (merge_sort_unique _ _ N1 Hp). congruence.
Qed.

Definition profile_a : Profile := MkProfile 1 3 kLong 4 800 1424 kNone 0 30 20 2000 1000 2000.
Definition profile_b : Profile := MkProfile 0 1 kShort 4 700 1424 kRlc256 100 30 20 1000 1000 2000.

Lemma canonical_serialize_injective_witness :
  canonical_serialize (MkProfileTable [profile_a; profile_b] 0 16 3) =
  canonical_serialize (MkProfileTable [profile_b; profile_a] 0 16 3).
Proof.
  assert (Hw : forall l, l ≡ₚ [profile_a; profile_b] -> wf_table (MkProfileTable l 0 16 3)).
  { intros l Hl. split; cbn [profiles floor_profile probe_period probe_slot].
    - rewrite Hl. repeat constructor; cbn; unfold u8, u16, u32; lia.
    - rewrite Hl. cbn. repeat constructor; set_solver.
    - unfold u8; lia.
    - unfold u16; lia.
    - unfold u16; lia. }
  apply (canonical_serialize_injective (MkProfileTable [profile_a; profile_b] 0 16 3)
    (MkProfileTable [profile_b; profile_a] 0 16 3)).
  - by apply Hw.
  - apply Hw. cbn. constructor.
  - cbn. lia.
  - cbn. lia.
  - split; [cbn; constructor|done].
Defined.

(** the duplicate check the loader relies on is exact: it answers [false]
    precisely when all ids are distinct, which is what makes the canonical
    order - and therefore the hash - unambiguous. *)
Theorem has_duplicate_ids_exact (t : ProfileTable) :
  has_duplicate_ids t = false <-> NoDup (map pf_id t.(profiles)).
Proof.
  unfold has_duplicate_ids. rewrite adjacent_dup_sorted.
  - by rewrite merge_sort_Permutation.
  - apply (StronglySorted_merge_sort Z.le).
Qed.
