(* ===== verification/Sha256.v ===== *)
(** * SHA-256 and HMAC ([core/include/wblink/hmac_sha256.h])

    The streaming hash object (chaining value, length, one block of buffer),
    HMAC over it and the two truncated MACs.  A pointer and its length are a
    list; reading or writing past a buffer is [None]. *)
From S2P Require Import Prelude.

Definition kDigestLen : nat := 32.
Definition kBlockLen : nat := 64.

(** The eight 32-bit words of a 256-bit literal, most significant first. *)
Definition words (v : Z) : list Z :=
  map (fun i => Z.land (Z.shiftr v (32 * (7 - Z.of_nat i))) 0xffffffff) (seq 0 8).

Definition kInit : list Z := Eval vm_compute in
  words 0x6a09e667bb67ae853c6ef372a54ff53a510e527f9b05688c1f83d9ab5be0cd19.

(** The round constants, eight to a line. *)
Definition kK : list Z := Eval vm_compute in
  concat (map words
    [0x428a2f9871374491b5c0fbcfe9b5dba53956c25b59f111f1923f82a4ab1c5ed5;
     0xd807aa9812835b01243185be550c7dc372be5d7480deb1fe9bdc06a7c19bf174;
     0xe49b69c1efbe47860fc19dc6240ca1cc2de92c6f4a7484aa5cb0a9dc76f988da;
     0x983e5152a831c66db00327c8bf597fc7c6e00bf3d5a7914706ca635114292967;
     0x27b70a852e1b21384d2c6dfc53380d13650a7354766a0abb81c2c92e92722c85;
     0xa2bfe8a1a81a664bc24b8b70c76c51a3d192e819d6990624f40e3585106aa070;
     0x19a4c1161e376c082748774c34b0bcb5391c0cb34ed8aa4a5b9cca4f682e6ff3;
     0x748f82ee78a5636f84c878148cc7020890befffaa4506cebbef9a3f7c67178f2]).

(** The object: [h_], [len_], [buf_] and [buf_used_]. *)
Record Sha256 : Type := MkSha256 {
  h_ : list Z;
  len_ : Z;
  buf_ : list Z;
  buf_used_ : nat
}.

(** A fresh object; [buf_] is not initialised, and only its first
    [buf_used_] bytes are ever read. *)
Definition Sha256_init : Sha256 := MkSha256 kInit 0 (replicate kBlockLen 0) 0.

Definition rotr (x r : Z) : Z := Z.lor (Z.shiftr x r) (to_u32 (Z.shiftl x (32 - r))).

(** [w[i]] for [i < 16]: four big-endian bytes of the block. *)
Definition load_word (p : list Z) (i : nat) : Z :=
  Z.lor (Z.lor (Z.lor (to_u32 (Z.shiftl (nth (4 * i) p 0) 24))
                      (Z.shiftl (nth (4 * i + 1) p 0) 16))
               (Z.shiftl (nth (4 * i + 2) p 0) 8)) (nth (4 * i + 3) p 0).

(** [w[i]] for [16 <= i], appended to the schedule built so far. *)
Definition schedule_step (w : list Z) (i : nat) : list Z :=
  let w15 := nth (i - 15) w 0 in
  let w2 := nth (i - 2) w 0 in
  let s0 := Z.lxor (Z.lxor (rotr w15 7) (rotr w15 18)) (Z.shiftr w15 3) in
  let s1 := Z.lxor (Z.lxor (rotr w2 17) (rotr w2 19)) (Z.shiftr w2 10) in
  w ++ [to_u32 (nth (i - 16) w 0 + s0 + nth (i - 7) w 0 + s1)].

Definition schedule (p : list Z) : list Z :=
  fold_left schedule_step (seq 16 48) (map (load_word p) (seq 0 16)).

(** The working variables [a] to [h]. *)
Record Vars : Type := MkVars { va : Z; vb : Z; vc : Z; vd : Z; ve : Z; vf : Z; vg : Z; vh : Z }.

Definition round (w : list Z) (v : Vars) (i : nat) : Vars :=
  let '(MkVars a b c d e f g h) := v in
  let s1 := Z.lxor (Z.lxor (rotr e 6) (rotr e 11)) (rotr e 25) in
  let ch := Z.lxor (Z.land e f) (Z.land (Z.lxor e 0xFFFFFFFF) g) in
  let t1 := to_u32 (h + s1 + ch + nth i kK 0 + nth i w 0) in
  let s0 := Z.lxor (Z.lxor (rotr a 2) (rotr a 13)) (rotr a 22) in
  let maj := Z.lxor (Z.lxor (Z.land a b) (Z.land a c)) (Z.land b c) in
  let t2 := to_u32 (s0 + maj) in
  MkVars (to_u32 (t1 + t2)) a b c (to_u32 (d + t1)) e f g.

(** [compress] on a block of 64 bytes. *)
Definition compress_block (h p : list Z) : list Z :=
  let n i := nth i h 0 in
  let w := schedule p in
  let v := fold_left (round w) (seq 0 64)
             (MkVars (n 0%nat) (n 1%nat) (n 2%nat) (n 3%nat) (n 4%nat) (n 5%nat) (n 6%nat) (n 7%nat)) in
  [to_u32 (n 0%nat + va v); to_u32 (n 1%nat + vb v); to_u32 (n 2%nat + vc v);
   to_u32 (n 3%nat + vd v); to_u32 (n 4%nat + ve v); to_u32 (n 5%nat + vf v);
   to_u32 (n 6%nat + vg v); to_u32 (n 7%nat + vh v)].

(** [compress(p)] reads 64 bytes at [p]. *)
Definition compress (h p : list Z) : option (list Z) :=
  if (kBlockLen <=? length p)%nat then Some (compress_block h p) else None.

(** [while (n >= kBlockLen)]; the fuel is the number of bytes left. *)
Fixpoint absorb (fuel : nat) (h p : list Z) : option (list Z * list Z) :=
  if (kBlockLen <=? length p)%nat then
    match fuel with
    | O => None
    | S fuel => h ← compress h p; absorb fuel h (drop kBlockLen p)
    end
  else Some (h, p).

Definition update (s : Sha256) (p : list Z) : option Sha256 :=
  let len := to_u64 (s.(len_) + len p) in
  '(h, buf, used, p) ←
    if negb (s.(buf_used_) =? 0)%nat then
      let take_n := if (length p <? kBlockLen - s.(buf_used_))%nat
                    then length p else (kBlockLen - s.(buf_used_))%nat in
      buf ← memcpy s.(buf_) s.(buf_used_) p take_n;
      let used := (s.(buf_used_) + take_n)%nat in
      let p := drop take_n p in
      if (used =? kBlockLen)%nat
      then h ← compress s.(h_) buf; Some (h, buf, 0%nat, p)
      else Some (s.(h_), buf, used, p)
    else Some (s.(h_), s.(buf_), s.(buf_used_), p);
  '(h, p) ← absorb (length p) h p;
  if negb (length p =? 0)%nat
  then buf ← memcpy buf 0 p (length p); Some (MkSha256 h len buf (length p))
  else Some (MkSha256 h len buf used).

(** [while (buf_used_ != 56) update(&zero, 1)]. *)
Fixpoint pad_zeros (fuel : nat) (s : Sha256) : option Sha256 :=
  if (s.(buf_used_) =? 56)%nat then Some s
  else match fuel with
       | O => None
       | S fuel => s ← update s [0]; pad_zeros fuel s
       end.

Definition be64_bytes (bits : Z) : list Z :=
  map (fun i => to_u8 (Z.shiftr bits (56 - 8 * Z.of_nat i))) (seq 0 8).

(** The digest bytes of [h_]. *)
Definition digest_bytes (h : list Z) : list Z :=
  concat (map (fun v => [to_u8 (Z.shiftr v 24); to_u8 (Z.shiftr v 16);
                         to_u8 (Z.shiftr v 8); to_u8 v]) h).

Definition final (s : Sha256) : option (list Z) :=
  let bits := to_u64 (s.(len_) * 8) in
  s ← update s [0x80];
  s ← pad_zeros kBlockLen s;
  s ← update s (be64_bytes bits);
  Some (digest_bytes s.(h_)).

Definition digest (p : list Z) : option (list Z) := s ← update Sha256_init p; final s.

(** ** HMAC *)
Definition hmac_sha256 (key msg : list Z) : option (list Z) :=
  let zero := replicate kBlockLen 0 in
  k ← if (kBlockLen <? length key)%nat
      then d ← digest key; memcpy zero 0 d kDigestLen
      else if negb (length key =? 0)%nat then memcpy zero 0 key (length key) else Some zero;
  inner ← update Sha256_init (map (fun b => to_u8 (Z.lxor b 0x36)) k);
  inner ← update inner msg;
  inner_digest ← final inner;
  outer ← update Sha256_init (map (fun b => to_u8 (Z.lxor b 0x5c)) k);
  outer ← update outer inner_digest;
  final outer.

(** The leftmost four tag bytes, read big-endian. *)
Definition tag32 (tag : list Z) : Z :=
  Z.lor (Z.lor (Z.lor (to_u32 (Z.shiftl (nth 0 tag 0) 24)) (Z.shiftl (nth 1 tag 0) 16))
               (Z.shiftl (nth 2 tag 0) 8)) (nth 3 tag 0).

Definition csa_mac (psk csa_bytes28 : list Z) : option Z :=
  msg ← slice csa_bytes28 0 28; tag ← hmac_sha256 psk msg; Some (tag32 tag).

Definition vcmd_mac (psk cmd_bytes19 : list Z) : option Z :=
  msg ← slice cmd_bytes19 0 19; tag ← hmac_sha256 psk msg; Some (tag32 tag).
