(* ===== verification/Sha256Props.v ===== *)
(** * Properties of SHA-256 and HMAC

    The streaming object computes the padded, block-wise hash of FIPS 180-4 of
    everything it was given, however it was cut up. *)
From S2P Require Import Prelude Sha256.

(** ** The hash of a whole message *)

(** Chaining over the first [n] blocks of a message. *)
Fixpoint hash_blocks (n : nat) (h m : list Z) : list Z :=
  match n with
  | O => h
  | S n => hash_blocks n (compress_block h (take kBlockLen m)) (drop kBlockLen m)
  end.

(** FIPS 180-4, 5.1.1: a one bit, zeros up to 56 modulo 64, the bit length. *)
Definition pad (m : list Z) : list Z :=
  [0x80] ++ replicate (Z.to_nat ((55 - len m) mod 64)) 0 ++ be64_bytes (to_u64 (len m * 8)).

Definition sha256_ref (m : list Z) : list Z :=
  let pm := m ++ pad m in digest_bytes (hash_blocks (length pm / kBlockLen) kInit pm).

(** RFC 2104. *)
Definition hmac_key (key : list Z) : list Z :=
  let k := if (kBlockLen <? length key)%nat then sha256_ref key else key in
  k ++ replicate (kBlockLen - length k) 0.

Definition hmac_ref (key msg : list Z) : list Z :=
  let k := hmac_key key in
  sha256_ref (map (fun b => to_u8 (Z.lxor b 0x5c)) k ++
              sha256_ref (map (fun b => to_u8 (Z.lxor b 0x36)) k ++ msg)).

(** ** Blocks *)
Lemma compress_block_take h p : compress_block h (take kBlockLen p) = compress_block h p.
Proof.
  unfold compress_block, schedule.
  assert (H : map (load_word (take kBlockLen p)) (seq 0 16) = map (load_word p) (seq 0 16)).
  { apply map_ext_in. intros i Hi%in_seq. unfold load_word, kBlockLen.
    rewrite !nth_lookup, !lookup_take_lt by lia. by rewrite <- !nth_lookup. }
  by rewrite H.
Qed.

Lemma hash_blocks_app a : forall b h m1 m2,
  length m1 = (kBlockLen * a)%nat ->
  hash_blocks (a + b) h (m1 ++ m2) = hash_blocks b (hash_blocks a h m1) m2.
Proof.
  induction a as [|a IH]; intros b h m1 m2 Hl; unfold kBlockLen in *.
  - destruct m1; [done|cbn in Hl; lia].
  - cbn [hash_blocks Nat.add]. unfold kBlockLen.
    rewrite take_app_le, drop_app_le by lia. apply IH. rewrite length_drop. unfold kBlockLen. lia.
Qed.

Lemma absorb_spec fuel : forall h p,
  (length p / kBlockLen <= fuel)%nat ->
  absorb fuel h p = Some (hash_blocks (length p / kBlockLen) h p,
                          drop (kBlockLen * (length p / kBlockLen)) p).
Proof.
  induction fuel as [|fuel IH]; intros h p Hf; cbn [absorb];
    destruct (Nat.leb_spec kBlockLen (length p)) as [Hle|Hlt];
    try (rewrite Nat.div_small by done; by rewrite Nat.mul_0_r).
  - assert (1 <= length p / kBlockLen)%nat by (apply Nat.div_le_lower_bound; unfold kBlockLen in *; lia). lia.
  - assert (Hd : (length p / kBlockLen = S (length (drop kBlockLen p) / kBlockLen))%nat).
    { rewrite length_drop. replace (length p) with (length p - kBlockLen + 1 * kBlockLen)%nat at 1 by lia.
      rewrite Nat.div_add by done. lia. }
    unfold compress. destruct (Nat.leb_spec kBlockLen (length p)); [|lia]. cbn [mbind option_bind].
    rewrite IH by lia. rewrite Hd. cbn [hash_blocks]. rewrite compress_block_take.
    rewrite drop_drop. do 3 f_equal. lia.
Qed.

(** ** The object holds the message *)
Record hashed (m : list Z) (s : Sha256) : Prop := {
  hs_h : s.(h_) = hash_blocks (length m / kBlockLen) kInit m;
  hs_len : s.(len_) = to_u64 (len m);
  hs_used : s.(buf_used_) = (length m mod kBlockLen)%nat;
  hs_buf : take s.(buf_used_) s.(buf_) = drop (kBlockLen * (length m / kBlockLen)) m;
  hs_size : length s.(buf_) = kBlockLen
}.

Lemma hashed_init : hashed [] Sha256_init.
Proof. split; reflexivity. Qed.

(** The tail of a message, as a block being filled. *)
Lemma split_tail (m : list Z) :
  exists q r, m = q ++ r /\ length q = (kBlockLen * (length m / kBlockLen))%nat /\
    length r = (length m mod kBlockLen)%nat /\ r = drop (kBlockLen * (length m / kBlockLen)) m.
Proof.
  exists (take (kBlockLen * (length m / kBlockLen)) m), (drop (kBlockLen * (length m / kBlockLen)) m).
  pose proof (Nat.div_mod (length m) kBlockLen ltac:(done)).
  split; [by rewrite take_drop|]. split; [rewrite length_take; lia|]. split; [rewrite length_drop; lia|done].
Qed.

(** Whole blocks followed by a rest: the state after absorbing them. *)
Lemma hashed_blocks q n r h len buf :
  length q = (kBlockLen * n)%nat -> (length r < kBlockLen)%nat ->
  h = hash_blocks n kInit q -> len = to_u64 (Z.of_nat (length (q ++ r))) ->
  take (length r) buf = r -> length buf = kBlockLen ->
  hashed (q ++ r) (MkSha256 h len buf (length r)).
Proof.
  intros Hq Hr -> -> Hb Hl.
  assert (Hdiv : (length (q ++ r) / kBlockLen = n)%nat).
  { rewrite length_app, Hq, Nat.mul_comm, Nat.div_add_l by done. rewrite Nat.div_small by done. lia. }
  assert (Hmod : (length (q ++ r) mod kBlockLen = length r)%nat).
  { rewrite length_app, Hq, Nat.mul_comm, Nat.add_comm, Nat.Div0.mod_add. by apply Nat.mod_small. }
  split; cbn [h_ len_ buf_ buf_used_]; rewrite ?Hdiv, ?Hmod; try done.
  - replace n with (n + 0)%nat at 1 by lia.
    replace (hash_blocks n kInit (q ++ r)) with (hash_blocks (n + 0) kInit (q ++ r)) by (f_equal; lia).
    by rewrite (hash_blocks_app n 0), Nat.add_0_r.
  - by rewrite <- Hq, drop_app_length.
Qed.

Lemma hash_blocks_take n h p : (kBlockLen * n <= length p)%nat ->
  hash_blocks n h (take (kBlockLen * n) p) = hash_blocks n h p.
Proof.
  intros Hn. rewrite <- (take_drop (kBlockLen * n) p) at 2.
  rewrite <- (Nat.add_0_r n) at 3. rewrite (hash_blocks_app n 0); [done|rewrite length_take; lia].
Qed.

Lemma take_memcpy (buf src : list Z) off n buf' :
  memcpy buf off src n = Some buf' ->
  take (off + n) buf' = take off buf ++ take n src /\ length buf' = length buf.
Proof.
  unfold memcpy. destruct (_ && _)%nat eqn:G; [|done]. intros [= <-].
  apply andb_true_iff in G as [G1 G2]. apply Nat.leb_le in G1, G2. split.
  - rewrite app_assoc. apply take_app_length'. rewrite length_app, !length_take. lia.
  - rewrite !length_app, !length_take, length_drop. lia.
Qed.

(** The rest of [update] once the buffer is empty. *)
Lemma absorb_tail Q n p buf len :
  length Q = (kBlockLen * n)%nat -> length buf = kBlockLen -> len = to_u64 (Z.of_nat (length (Q ++ p))) ->
  exists s', ('(h, p) ← absorb (length p) (hash_blocks n kInit Q) p;
    if negb (length p =? 0)%nat
    then buf ← memcpy buf 0 p (length p); Some (MkSha256 h len buf (length p))
    else Some (MkSha256 h len buf 0)) = Some s' /\ hashed (Q ++ p) s'.
Proof.
  intros HQ Hbuf Hlen. pose proof (Nat.div_mod (length p) kBlockLen ltac:(done)) as Hdm.
  pose proof (Nat.mod_upper_bound (length p) kBlockLen ltac:(done)) as Hmu.
  rewrite absorb_spec by (apply Nat.Div0.div_le_upper_bound; unfold kBlockLen; lia).
  cbn [mbind option_bind]. set (n2 := (length p / kBlockLen)%nat) in *.
  set (rest := drop (kBlockLen * n2) p).
  assert (Hrl : length rest = (length p mod kBlockLen)%nat) by (unfold rest; rewrite length_drop; lia).
  assert (EQ : Q ++ p = (Q ++ take (kBlockLen * n2) p) ++ rest).
  { unfold rest. by rewrite <- app_assoc, take_drop. }
  assert (Hq : length (Q ++ take (kBlockLen * n2) p) = (kBlockLen * (n + n2))%nat).
  { rewrite length_app, length_take, HQ. lia. }
  assert (Hh : hash_blocks n2 (hash_blocks n kInit Q) p = hash_blocks (n + n2) kInit (Q ++ take (kBlockLen * n2) p)).
  { rewrite hash_blocks_app by done. symmetry. apply hash_blocks_take. lia. }
  destruct (Nat.eqb_spec (length rest) 0) as [E0|Hne]; cbn [negb].
  - eexists. split; [reflexivity|]. rewrite EQ in *.
    replace 0%nat with (length rest). apply (hashed_blocks _ (n + n2)); try done; [lia|].
    apply nil_length_inv in E0. by rewrite E0.
  - assert (exists buf', memcpy buf 0 rest (length rest) = Some buf') as [buf' Hb'] by (eexists; apply memcpy_some; unfold kBlockLen in *; lia).
    rewrite Hb'. cbn [mbind option_bind]. apply take_memcpy in Hb' as [Ht Hl'].
    eexists. split; [reflexivity|]. rewrite EQ in *.
    apply (hashed_blocks _ (n + n2)); try done; [lia| |congruence].
    cbn [Nat.add take] in Ht. by rewrite Ht, take_0, firstn_all.
Qed.

Lemma update_spec m s p : hashed m s -> exists s', update s p = Some s' /\ hashed (m ++ p) s'.
Proof.
  intros [Hh Hlen Hused Hbuf Hsz].
  destruct (split_tail m) as (q & r & Em & Hq & Hr & Er). rewrite <- Er in Hbuf.
  pose proof (Nat.mod_upper_bound (length m) kBlockLen ltac:(done)) as Hmu.
  set (n := (length m / kBlockLen)%nat) in *. rewrite <- Hr in Hused.
  assert (Hhq : h_ s = hash_blocks n kInit q).
  { rewrite Hh, Em. rewrite <- (Nat.add_0_r n) at 1. by rewrite (hash_blocks_app n 0). }
  assert (Hlen' : to_u64 (len_ s + len p) = to_u64 (Z.of_nat (length (m ++ p)))).
  { by rewrite Hlen, to_u64_succ, length_app, Nat2Z.inj_add. }
  unfold update. rewrite Hlen', Hused.
  destruct (Nat.eqb_spec (length r) 0) as [E0|Hne]; cbn [negb].
  - rewrite E0. apply nil_length_inv in E0. rewrite E0, app_nil_r in Em. rewrite <- Em in Hq, Hhq.
    cbn [mbind option_bind]. rewrite Hhq. by apply absorb_tail.
  - set (t := if (length p <? kBlockLen - length r)%nat then _ else _).
    assert (Ht : t = Nat.min (length p) (kBlockLen - length r)).
    { unfold t. destruct (Nat.ltb_spec (length p) (kBlockLen - length r)); lia. }
    assert (exists buf', memcpy (buf_ s) (length r) p t = Some buf') as [buf' Hb'] by (eexists; apply memcpy_some; unfold kBlockLen in *; lia).
    rewrite Hb'. apply take_memcpy in Hb' as [Htk Hl']. cbn [mbind option_bind].
    assert (Hb2 : take (length r + t) buf' = r ++ take t p) by (rewrite Htk; by rewrite Hused in Hbuf; rewrite Hbuf).
    destruct (Nat.eqb_spec (length r + t) kBlockLen) as [Efull|Hpart].
    + assert (Hbuf64 : buf' = r ++ take t p).
      { rewrite <- Hb2, Efull. rewrite <- Hsz, <- Hl'. by rewrite firstn_all. }
      unfold compress. destruct (Nat.leb_spec kBlockLen (length buf')); [|lia]. cbn [mbind option_bind].
      assert (HQ : length (m ++ take t p) = (kBlockLen * S n)%nat).
      { rewrite length_app, Em, length_app, length_take. lia. }
      assert (Ehash : compress_block (h_ s) buf' = hash_blocks (S n) kInit (m ++ take t p)).
      { rewrite Em, <- app_assoc, <- Hbuf64. replace (S n) with (n + 1)%nat by lia.
        rewrite hash_blocks_app by done. rewrite <- Hhq. cbn [hash_blocks]. by rewrite compress_block_take. }
      rewrite Ehash. replace (m ++ p) with ((m ++ take t p) ++ drop t p) by (by rewrite <- app_assoc, take_drop).
      apply absorb_tail; [done|congruence|done].
    + assert (Hall : t = length p) by lia.
      rewrite Hall, drop_all. cbn [absorb length]. cbn [mbind option_bind negb Nat.eqb].
      eexists. split; [reflexivity|].
      rewrite Em, <- app_assoc. rewrite <- Hall. replace (length r + t)%nat with (length (r ++ p)) by (rewrite length_app; lia).
      rewrite Hall, firstn_all in Hb2.
      apply (hashed_blocks q n (r ++ p)); [done|rewrite length_app; lia|done|done| |congruence].
      by rewrite length_app.
Qed.

(** ** Padding and the digest *)
Lemma pad_zeros_spec d : forall m s fuel,
  hashed m s -> (d <= fuel)%nat -> ((length m + d) mod kBlockLen = 56)%nat -> (d < kBlockLen)%nat ->
  exists s', pad_zeros fuel s = Some s' /\ hashed (m ++ replicate d 0) s'.
Proof.
  induction d as [|d IH]; intros m s fuel Hm Hf Hmod Hd.
  - exists s. rewrite app_nil_r. split; [|done]. rewrite Nat.add_0_r in Hmod.
    destruct fuel; cbn [pad_zeros]; by rewrite (hs_used _ _ Hm), Hmod.
  - assert (Hne : (buf_used_ s =? 56)%nat = false).
    { rewrite (hs_used _ _ Hm). apply Nat.eqb_neq. unfold kBlockLen in *. intros E56.
      assert (E1 : ((length m + S d) mod 64 = (56 + S d) mod 64)%nat) by by rewrite <- (Nat.Div0.add_mod_idemp_l (length m)), E56.
      rewrite E1 in Hmod.
      pose proof (Nat.div_mod (56 + S d) 64 ltac:(done)).
      assert (Hq1 : ((56 + S d) / 64 <= 1)%nat) by (apply Nat.lt_succ_r, Nat.Div0.div_lt_upper_bound; lia). lia. }
    destruct fuel as [|fuel]; [lia|]. cbn [pad_zeros]. rewrite Hne.
    destruct (update_spec m s [0] Hm) as (s1 & -> & H1). cbn [mbind option_bind].
    destruct (IH (m ++ [0]) s1 fuel H1) as (s2 & -> & H2); [lia| |lia|].
    + rewrite length_app. cbn [length]. rewrite <- Hmod. f_equal. lia.
    + exists s2. split; [done|]. by rewrite <- app_assoc in H2.
Qed.

Lemma final_spec m s : hashed m s -> final s = Some (sha256_ref m).
Proof.
  intros Hm. unfold final.
  destruct (update_spec m s [0x80] Hm) as (s1 & -> & H1). cbn [mbind option_bind].
  set (d := Z.to_nat ((55 - len m) mod 64)).
  pose proof (Z.mod_pos_bound (55 - len m) 64 ltac:(lia)) as Hb.
  assert (Hmod : ((length (m ++ [0x80%Z]) + d) mod kBlockLen = 56)%nat).
  { apply Nat2Z.inj. rewrite Nat2Z.inj_mod, length_app, !Nat2Z.inj_add. unfold d. rewrite Z2Nat.id by lia.
    cbn [length]. change (Z.of_nat kBlockLen) with 64. change (Z.of_nat 56) with 56.
    rewrite Zplus_mod_idemp_r. replace (len m + Z.of_nat 1 + (55 - len m)) with 56 by lia. done. }
  destruct (pad_zeros_spec d (m ++ [0x80]) s1 kBlockLen H1) as (s2 & -> & H2);
    [unfold d, kBlockLen; lia|done|unfold d, kBlockLen; lia|]. cbn [mbind option_bind].
  assert (Ebits : to_u64 (len_ s * 8) = to_u64 (len m * 8)).
  { rewrite (hs_len _ _ Hm). unfold to_u64. by rewrite Zmult_mod_idemp_l. }
  rewrite Ebits.
  destruct (update_spec _ s2 (be64_bytes (to_u64 (len m * 8))) H2) as (s3 & -> & H3).
  cbn [mbind option_bind]. unfold sha256_ref. f_equal. f_equal.
  rewrite (hs_h _ _ H3). unfold pad. fold d. by rewrite <- !app_assoc.
Qed.

Lemma hmac_sha256_spec key msg : hmac_sha256 key msg = Some (hmac_ref key msg).
Proof.
  assert (Hd : forall p, digest p = Some (sha256_ref p)).
  { intros p. unfold digest. destruct (update_spec [] Sha256_init p hashed_init) as (s & -> & Hs).
    cbn [mbind option_bind]. by apply final_spec in Hs. }
  assert (H2 : forall a b, (s ← update Sha256_init a; s ← update s b; final s) = Some (sha256_ref (a ++ b))).
  { intros a b. destruct (update_spec [] Sha256_init a hashed_init) as (s & -> & Hs).
    cbn [mbind option_bind]. destruct (update_spec _ s b Hs) as (s' & -> & Hs').
    cbn [mbind option_bind]. by apply final_spec in Hs'. }
  assert (Hlen : forall m, length (sha256_ref m) = 32%nat).
  { intros m. unfold sha256_ref. assert (Hn : forall n h x, length h = 8%nat -> length (hash_blocks n h x) = 8%nat).
    { induction n as [|n IH]; intros h x Hh; [done|]. cbn [hash_blocks]. by apply IH. }
    assert (Hdb : forall h, length (digest_bytes h) = (4 * length h)%nat).
    { intros h. unfold digest_bytes. induction h as [|v h IH]; [done|]. cbn [map concat length].
      rewrite length_app, IH. cbn [length]. lia. }
    by rewrite Hdb, Hn. }
  assert (Hk : forall k', (length k' <= kBlockLen)%nat ->
    memcpy (replicate kBlockLen 0) 0 k' (length k') = Some (k' ++ replicate (kBlockLen - length k') 0)).
  { intros k' Hk'. unfold memcpy. rewrite length_replicate.
    destruct (Nat.leb_spec (0 + length k') kBlockLen); [|lia].
    rewrite Nat.leb_refl, take_0, firstn_all, drop_replicate. done. }
  unfold hmac_sha256, hmac_ref, hmac_key.
  assert (Ekey : (if (kBlockLen <? length key)%nat
    then d ← digest key; memcpy (replicate kBlockLen 0) 0 d kDigestLen
    else if negb (length key =? 0)%nat then memcpy (replicate kBlockLen 0) 0 key (length key)
         else Some (replicate kBlockLen 0)) = Some (hmac_key key)).
  { unfold hmac_key. destruct (Nat.ltb_spec kBlockLen (length key)).
    - rewrite Hd. cbn [mbind option_bind]. replace kDigestLen with (length (sha256_ref key)) by apply Hlen.
      apply Hk. rewrite Hlen. unfold kBlockLen. lia.
    - destruct (Nat.eqb_spec (length key) 0) as [E0|]; cbn [negb]; [|by apply Hk].
      apply nil_length_inv in E0. by rewrite E0. }
  rewrite Ekey. cbn [mbind option_bind]. unfold hmac_key.
  set (k := _ ++ replicate _ 0). specialize (H2 (map (fun b => to_u8 (Z.lxor b 0x36)) k) msg) as Hi.
  destruct (update Sha256_init _) as [s1|]; [|done]. cbn [mbind option_bind] in Hi |- *.
  destruct (update s1 msg) as [s2|]; [|done]. cbn [mbind option_bind] in Hi |- *. rewrite Hi.
  cbn [mbind option_bind]. apply H2.
Qed.

(** ** Properties *)

(** the streaming SHA-256 computes FIPS 180-4.  However a message is cut
    into [update] calls (any pieces, empty ones included), the calls and
    [final] stay inside the object's buffer, their loops end, and the digest
    is the block-wise hash of the padded message - so it depends on the
    concatenation only. *)
Theorem sha256_streaming (pieces : list (list Z)) :
  exists s, foldM update pieces Sha256_init = Some s /\
    final s = Some (sha256_ref (concat pieces)).
Proof.
  assert (H : forall m s, hashed m s -> exists s', foldM update pieces s = Some s' /\ hashed (m ++ concat pieces) s').
  { induction pieces as [|p pieces IH]; intros m s Hm; cbn [foldM concat].
    - exists s. by rewrite app_nil_r.
    - destruct (update_spec m s p Hm) as (s1 & -> & H1). cbn [mbind option_bind].
      destruct (IH _ _ H1) as (s2 & -> & H2). exists s2. by rewrite app_assoc. }
  destruct (H [] Sha256_init hashed_init) as (s & -> & Hs). exists s. split; [done|]. by apply final_spec.
Qed.

(** The vectors of FIPS 180-4: "abc", cut after one byte, and the 56-byte
    message that needs two blocks. *)
Example sha256_abc :
  (s ← foldM update [[97]; []; [98; 99]] Sha256_init; final s) =
  Some [186; 120; 22; 191; 143; 1; 207; 234; 65; 65; 64; 222; 93; 174; 34; 35;
        176; 3; 97; 163; 150; 23; 122; 156; 180; 16; 255; 97; 242; 0; 21; 173].
Proof. vm_compute. reflexivity. Qed.

(** C36. [hmac_sha256] is RFC 2104 over that hash, for keys of any length
    (longer than a block: hashed first), and the two MACs are its leftmost
    four bytes read big-endian over the first 28 (19) bytes of the packet. *)
Theorem hmac_sha256_rfc2104 (key msg : list Z) :
  hmac_sha256 key msg = Some (hmac_ref key msg) /\
  csa_mac key msg = (if (28 <=? length msg)%nat then Some (tag32 (hmac_ref key (take 28 msg))) else None) /\
  vcmd_mac key msg = (if (19 <=? length msg)%nat then Some (tag32 (hmac_ref key (take 19 msg))) else None).
Proof.
  split; [apply hmac_sha256_spec|]. unfold csa_mac, vcmd_mac, slice. cbn [Nat.add]. rewrite drop_0.
  split.
  - destruct (28 <=? length msg)%nat; [|done]. cbn [mbind option_bind]. by rewrite hmac_sha256_spec.
  - destruct (19 <=? length msg)%nat; [|done]. cbn [mbind option_bind]. by rewrite hmac_sha256_spec.
Qed.

(** RFC 4231, test case 1. *)
Example hmac_rfc4231_1 :
  hmac_sha256 (replicate 20 0x0b) [72; 105; 32; 84; 104; 101; 114; 101] =
  Some [176; 52; 76; 97; 216; 219; 56; 83; 92; 168; 175; 206; 175; 11; 241; 43;
        136; 29; 194; 0; 201; 131; 61; 167; 38; 233; 55; 108; 46; 50; 207; 247].
Proof. vm_compute. reflexivity. Qed.
