(* ===== verification/VehicleCmd.v ===== *)
(** * Vehicle command engines ([core/include/wblink/vehicle_cmd.h],
    [core/src/vehicle_cmd.cpp])

    The craft side validates commands, applies them through a caller's hook and
    echoes the outcome; the issuer side runs a campaign of copies and retries
    and waits for an authenticated echo.  The hook is a function of an
    environment. *)
From stdpp Require Import gmap.
From S2P Require Import Prelude Types Wire Sha256.

Record VcmdParams : Type := MkVcmdParams {
  psk : list Z;
  copies : Z;
  copy_interval_ms : Z;
  echo_copies : Z;
  ack_timeout_ms : Z;
  retry_cap : Z;
  vp_min_interval_ms : Z
}.

Definition VcmdParams_init : VcmdParams := MkVcmdParams [] 3 20 2 1000 3 250.

Definition VehicleCmd_init : VehicleCmd := MkVehicleCmd (MkCommonPrefix 0 0 0) 0 0 0 0 0 0.

(** [mac_of]: re-encodes into a local buffer; the inner [None] is [nullopt]. *)
Definition mac_of (pkt : VehicleCmd) (psk : list Z) : option (option Z) :=
  '(n, out) ← encode_vehicle_cmd pkt (Some (replicate (Z.to_nat kVehicleCmdSize) 0)) kVehicleCmdSize;
  if negb (n =? kVehicleCmdSize) then Some None
  else buf ← out; m ← vcmd_mac psk buf; Some (Some m).

Definition mac_matches (want : option Z) (got : Z) : bool :=
  match want with Some w => w =? got | None => false end.

Definition set_destination (p : CommonPrefix) (d : Z) : CommonPrefix :=
  MkCommonPrefix p.(originator) d p.(session_id).

(** The field updates [cmd_seq = ] and [cmd_mac = ]. *)
Definition with_seq (c : VehicleCmd) (seq : Z) : VehicleCmd :=
  MkVehicleCmd c.(vc_prefix) c.(vc_cmd_nonce) seq c.(vc_cmd_flags) c.(vc_cmd_id) c.(vc_cmd_arg) c.(vc_cmd_mac).
Definition with_mac (c : VehicleCmd) (mac : Z) : VehicleCmd :=
  MkVehicleCmd c.(vc_prefix) c.(vc_cmd_nonce) c.(vc_cmd_seq) c.(vc_cmd_flags) c.(vc_cmd_id) c.(vc_cmd_arg) mac.

(** ** The craft *)
Record Outcome : Type := MkOutcome {
  o_nonce : Z;
  o_cmd_id : Z;
  o_cmd_arg : Z;
  o_rejected : bool
}.

Record VcmdCraft : Type := MkVcmdCraft {
  cr_policy : VcmdParams;
  cr_self : CommonPrefix;
  last_applied_ : gmap (Z * Z) Outcome;
  last_ : Outcome;
  last_accept_us_ : Z;
  echo_ : VehicleCmd;
  echoes_left_ : Z;
  next_echo_us_ : Z;
  last_echo_nonce_ : Z;
  last_echo_start_us_ : Z;
  echoed_once_ : bool
}.

Definition VcmdCraft_init (policy : VcmdParams) (self : CommonPrefix) : VcmdCraft :=
  MkVcmdCraft policy self ∅ (MkOutcome 0 0 0 false) 0 VehicleCmd_init 0 0 0 0 false.

Definition queue_echo (c : VcmdCraft) (o : Outcome) (to now_us : Z) : VcmdCraft :=
  if c.(echoed_once_) && (c.(last_echo_nonce_) =? o.(o_nonce))
     && ((c.(echoes_left_) >? 0)
         || (to_u64 (now_us - c.(last_echo_start_us_)) <? c.(cr_policy).(vp_min_interval_ms) * 1000))
  then c else
  let echo := MkVehicleCmd (set_destination c.(cr_self) to) o.(o_nonce) 0
                (to_u8 (Z.lor vcmd_flags_kAck (if o.(o_rejected) then vcmd_flags_kRejected else 0)))
                o.(o_cmd_id) o.(o_cmd_arg) 0 in
  MkVcmdCraft c.(cr_policy) c.(cr_self) c.(last_applied_) c.(last_) c.(last_accept_us_)
    echo c.(cr_policy).(echo_copies) now_us o.(o_nonce) now_us true.

(** [set_psk]: a new pairing epoch. *)
Definition craft_set_psk (c : VcmdCraft) (key : list Z) : VcmdCraft :=
  let p := c.(cr_policy) in
  MkVcmdCraft (MkVcmdParams key p.(copies) p.(copy_interval_ms) p.(echo_copies)
                 p.(ack_timeout_ms) p.(retry_cap) p.(vp_min_interval_ms))
    c.(cr_self) ∅ c.(last_) c.(last_accept_us_) c.(echo_) 0 c.(next_echo_us_)
    c.(last_echo_nonce_) c.(last_echo_start_us_) c.(echoed_once_).

Section Craft.
Context {E : Type}.

(** [Apply]: an empty [std::function] is [None]. *)
Definition Apply : Type := option (E -> Z -> Z -> E * bool).

(** [on_cmd]: the returned flag, the engine and the hook's environment. *)
Definition on_cmd (c : VcmdCraft) (env : E) (pkt : VehicleCmd) (now_us : Z)
    (bound_issuer : option Z) (apply : Apply) : option (bool * VcmdCraft * E) :=
  if negb (Z.land pkt.(vc_cmd_flags) vcmd_flags_kAck =? 0) then Some (false, c, env) else
  if (length c.(cr_policy).(psk) =? 0)%nat then Some (false, c, env) else
  want ← mac_of pkt c.(cr_policy).(psk);
  if negb (mac_matches want pkt.(vc_cmd_mac)) then Some (false, c, env) else
  if negb (match bound_issuer with Some i => i =? pkt.(vc_prefix).(originator) | None => false end)
  then Some (false, c, env) else
  let key := (pkt.(vc_prefix).(originator), pkt.(vc_prefix).(session_id)) in
  let seen := c.(last_applied_) !! key in
  if match seen with Some o => pkt.(vc_cmd_nonce) <=? o.(o_nonce) | None => false end then
    match seen with
    | Some o =>
      if (pkt.(vc_cmd_nonce) =? o.(o_nonce)) && (pkt.(vc_cmd_id) =? o.(o_cmd_id))
         && (pkt.(vc_cmd_arg) =? o.(o_cmd_arg))
      then Some (false, queue_echo c o pkt.(vc_prefix).(originator) now_us, env)
      else Some (false, c, env)
    | None => Some (false, c, env)
    end
  else
  if negb (c.(last_accept_us_) =? 0)
     && (to_u64 (now_us - c.(last_accept_us_)) <? c.(cr_policy).(vp_min_interval_ms) * 1000)
  then Some (false, c, env) else
  let '(env, applied) :=
    match apply with
    | Some f => f env pkt.(vc_cmd_id) pkt.(vc_cmd_arg)
    | None => (env, false)
    end in
  let o := MkOutcome pkt.(vc_cmd_nonce) pkt.(vc_cmd_id) pkt.(vc_cmd_arg) (negb applied) in
  let c := MkVcmdCraft c.(cr_policy) c.(cr_self) (<[key := o]> c.(last_applied_)) o now_us
             c.(echo_) c.(echoes_left_) c.(next_echo_us_) c.(last_echo_nonce_)
             c.(last_echo_start_us_) c.(echoed_once_) in
  Some (negb o.(o_rejected), queue_echo c o pkt.(vc_prefix).(originator) now_us, env).
End Craft.

(** [tick]: the next echo copy. *)
Definition craft_tick (c : VcmdCraft) (now_us : Z) : option (option VehicleCmd * VcmdCraft) :=
  if (c.(echoes_left_) =? 0) || (now_us <? c.(next_echo_us_)) then Some (None, c) else
  let out := with_seq c.(echo_) c.(echoes_left_) in
  let echoes left next :=
    MkVcmdCraft c.(cr_policy) c.(cr_self) c.(last_applied_) c.(last_) c.(last_accept_us_)
      c.(echo_) left next c.(last_echo_nonce_) c.(last_echo_start_us_) c.(echoed_once_) in
  m ← mac_of out c.(cr_policy).(psk);
  match m with
  | None => Some (None, echoes 0 c.(next_echo_us_))
  | Some mac =>
    Some (Some (with_mac out mac),
          echoes (to_u8 (c.(echoes_left_) - 1)) (to_u64 (now_us + c.(cr_policy).(copy_interval_ms) * 1000)))
  end.

(** ** The issuer *)
Inductive IssuerState : Type := kIdle | kSending | kAwaitEcho | kAcked | kRejected | kTimeout.

Record VcmdIssuer : Type := MkVcmdIssuer {
  is_policy : VcmdParams;
  state_ : IssuerState;
  next_nonce_ : Z;
  last_start_us_ : Z;
  tmpl_ : VehicleCmd;
  target_ : Z;
  copies_left_ : Z;
  campaigns_left_ : Z;
  next_copy_us_ : Z;
  echo_deadline_us_ : Z
}.

Definition VcmdIssuer_init (policy : VcmdParams) : VcmdIssuer :=
  MkVcmdIssuer policy kIdle 1 0 VehicleCmd_init 0 0 0 0 0.

Definition active (i : VcmdIssuer) : bool :=
  match i.(state_) with kSending | kAwaitEcho => true | _ => false end.

Definition issuer_set_psk (i : VcmdIssuer) (key : list Z) : bool * VcmdIssuer :=
  if active i then (false, i) else
  let p := i.(is_policy) in
  (true, MkVcmdIssuer (MkVcmdParams key p.(copies) p.(copy_interval_ms) p.(echo_copies)
                         p.(ack_timeout_ms) p.(retry_cap) p.(vp_min_interval_ms))
           i.(state_) i.(next_nonce_) i.(last_start_us_) i.(tmpl_) i.(target_)
           i.(copies_left_) i.(campaigns_left_) i.(next_copy_us_) i.(echo_deadline_us_)).

Definition seed_nonce (i : VcmdIssuer) (n : Z) : VcmdIssuer :=
  MkVcmdIssuer i.(is_policy) i.(state_) n i.(last_start_us_) i.(tmpl_) i.(target_)
    i.(copies_left_) i.(campaigns_left_) i.(next_copy_us_) i.(echo_deadline_us_).

Definition start (i : VcmdIssuer) (prefix : CommonPrefix) (target_originator cmd_id cmd_arg now_us : Z)
  : bool * VcmdIssuer :=
  if active i || (length i.(is_policy).(psk) =? 0)%nat || (target_originator =? 0)
     || negb (vcmd_arg_in_wire_range cmd_id cmd_arg)
  then (false, i) else
  if negb (i.(last_start_us_) =? 0)
     && (to_u64 (now_us - i.(last_start_us_))
         <? to_u32 (i.(is_policy).(vp_min_interval_ms) + i.(is_policy).(copy_interval_ms)) * 1000)
  then (false, i) else
  let tmpl := MkVehicleCmd (set_destination prefix target_originator) i.(next_nonce_) 0 0 cmd_id cmd_arg 0 in
  (true, MkVcmdIssuer i.(is_policy) kSending (to_u32 (i.(next_nonce_) + 1)) now_us tmpl
           target_originator i.(is_policy).(copies) i.(is_policy).(retry_cap) now_us i.(echo_deadline_us_)).

Definition with_state (i : VcmdIssuer) (s : IssuerState) : VcmdIssuer :=
  MkVcmdIssuer i.(is_policy) s i.(next_nonce_) i.(last_start_us_) i.(tmpl_) i.(target_)
    i.(copies_left_) i.(campaigns_left_) i.(next_copy_us_) i.(echo_deadline_us_).

Definition on_echo (i : VcmdIssuer) (pkt : VehicleCmd) : option (bool * VcmdIssuer) :=
  if negb (active i) then Some (false, i) else
  if (Z.land pkt.(vc_cmd_flags) vcmd_flags_kAck =? 0)
     || negb (pkt.(vc_prefix).(originator) =? i.(target_))
     || negb (pkt.(vc_cmd_nonce) =? i.(tmpl_).(vc_cmd_nonce))
     || negb (pkt.(vc_cmd_id) =? i.(tmpl_).(vc_cmd_id))
     || negb (pkt.(vc_cmd_arg) =? i.(tmpl_).(vc_cmd_arg))
  then Some (false, i) else
  want ← mac_of pkt i.(is_policy).(psk);
  if negb (mac_matches want pkt.(vc_cmd_mac)) then Some (false, i) else
  Some (true, with_state i (if negb (Z.land pkt.(vc_cmd_flags) vcmd_flags_kRejected =? 0)
                            then kRejected else kAcked)).

(** [tick]: [Some pkt] is the action [kSendCopy]. *)
Definition issuer_tick (i : VcmdIssuer) (now_us : Z) : option (option VehicleCmd * VcmdIssuer) :=
  let p := i.(is_policy) in
  match i.(state_) with
  | kSending =>
    if now_us >=? i.(next_copy_us_) then
      let pkt := with_seq i.(tmpl_) i.(copies_left_) in
      m ← mac_of pkt p.(psk);
      let pkt := match m with Some mac => with_mac pkt mac | None => pkt end in
      let next_copy := to_u64 (now_us + p.(copy_interval_ms) * 1000) in
      let left := to_u8 (i.(copies_left_) - 1) in
      Some (Some pkt,
        if left =? 0
        then MkVcmdIssuer p kAwaitEcho i.(next_nonce_) i.(last_start_us_) i.(tmpl_) i.(target_)
               left i.(campaigns_left_) next_copy (to_u64 (now_us + p.(ack_timeout_ms) * 1000))
        else MkVcmdIssuer p kSending i.(next_nonce_) i.(last_start_us_) i.(tmpl_) i.(target_)
               left i.(campaigns_left_) next_copy i.(echo_deadline_us_))
    else Some (None, i)
  | kAwaitEcho =>
    if now_us >=? i.(echo_deadline_us_) then
      let left := to_u8 (i.(campaigns_left_) - 1) in
      Some (None,
        if left =? 0
        then MkVcmdIssuer p kTimeout i.(next_nonce_) i.(last_start_us_) i.(tmpl_) i.(target_)
               i.(copies_left_) left i.(next_copy_us_) i.(echo_deadline_us_)
        else MkVcmdIssuer p kSending i.(next_nonce_) i.(last_start_us_) i.(tmpl_) i.(target_)
               p.(copies) left now_us i.(echo_deadline_us_))
    else Some (None, i)
  | _ => Some (None, i)
  end.

(** [state_str], as the names of the REST interface. *)
Inductive StateName : Type := s_idle | s_pending | s_acked | s_rejected | s_timeout.
Definition state_str (i : VcmdIssuer) : StateName :=
  match i.(state_) with
  | kIdle => s_idle | kSending | kAwaitEcho => s_pending
  | kAcked => s_acked | kRejected => s_rejected | kTimeout => s_timeout
  end.
