(* ===== verification/Replay.v ===== *)
(** * Anti-replay logs

    Both command engines keep, per sender session, the last nonce they
    consumed, and a rate limit anchored on the last acceptance (zero: none
    yet).  This file states once what that state means for the log of accepted
    packets, over any type [A] of log entries. *)
From stdpp Require Import gmap sorting.
From S2P Require Import Prelude SMap.

Section Replay.
Context {A : Type} (key : A -> Z * Z) (nonce time : A -> Z).

(** The nonces accepted for one sender session, in order. *)
Definition nonces_of (k : Z * Z) (log : list A) : list Z :=
  map nonce (filter (fun a => key a = k) log).

(** Successive acceptances are spaced by [gap] (modulo the 64-bit clock). *)
Fixpoint rate_ok (gap : Z) (prev : Z) (log : list A) : Prop :=
  match log with
  | [] => True
  | a :: log => (prev = 0 \/ gap <= to_u64 (time a - prev)) /\ rate_ok gap (time a) log
  end.

(** What the remembered nonces [seen] and the anchor say of the log. *)
Record replay_inv (seen : Z * Z -> option Z) (anchor gap : Z) (log : list A) : Prop := {
  ri_sorted : forall k, StronglySorted Z.lt (nonces_of k log);
  ri_seen : forall k x, x ∈ nonces_of k log -> exists n, seen k = Some n /\ x <= n;
  ri_anchor : anchor = default 0 (time <$> last log);
  ri_rate : rate_ok gap 0 log
}.

Lemma rate_ok_snoc gap log : forall prev0 a,
  rate_ok gap prev0 (log ++ [a]) <->
  rate_ok gap prev0 log /\
  let prev := default prev0 (time <$> last log) in (prev = 0 \/ gap <= to_u64 (time a - prev)).
Proof.
  induction log as [|b log IH]; intros l a; cbn [app rate_ok].
  - cbn. tauto.
  - rewrite IH. assert (E : default (time b) (time <$> last log) = default l (time <$> last (b :: log))).
    { rewrite (last_cons b). by destruct (last log). }
    cbn zeta. rewrite E. tauto.
Qed.

Lemma nonces_snoc k log a :
  nonces_of k (log ++ [a]) = nonces_of k log ++ (if decide (key a = k) then [nonce a] else []).
Proof. unfold nonces_of. rewrite filter_app, map_app. f_equal. rewrite filter_cons. by case_decide. Qed.

Lemma replay_nil seen gap : replay_inv seen 0 gap [].
Proof.
  split; try done.
  - intros k. constructor.
  - intros k x Hx. by apply not_elem_of_nil in Hx.
Qed.

(** An accepted packet: its nonce is new and the rate limit is clear. *)
Lemma replay_accept seen seen' anchor gap log a :
  replay_inv seen anchor gap log ->
  (forall n, seen (key a) = Some n -> n < nonce a) ->
  (anchor = 0 \/ gap <= to_u64 (time a - anchor)) ->
  seen' (key a) = Some (nonce a) -> (forall k, k <> key a -> seen' k = seen k) ->
  replay_inv seen' (time a) gap (log ++ [a]).
Proof.
  intros [I1 I2 I3 I4] Hf Hs Hk Ho. split.
  - intros k. rewrite nonces_snoc. case_decide as Ek; [|by rewrite app_nil_r].
    apply sorted_snoc; [done|]. intros x Hx. destruct (I2 k x Hx) as (n & Hn & Hle).
    rewrite <- Ek in Hn. specialize (Hf n Hn). lia.
  - intros k x. rewrite nonces_snoc. intros Hx. case_decide as Ek.
    + subst k. exists (nonce a). split; [done|].
      apply elem_of_app in Hx as [Hx|Hx]; [|apply list_elem_of_singleton in Hx; lia].
      destruct (I2 _ x Hx) as (n & Hn & Hle). specialize (Hf n Hn). lia.
    + rewrite app_nil_r in Hx. rewrite Ho by done. by apply I2.
  - by rewrite last_snoc.
  - apply rate_ok_snoc. split; [done|]. cbn zeta. by rewrite <- I3.
Qed.

(** Nothing accepted: the remembered nonces may only be forgotten with them. *)
Lemma replay_keep seen seen' anchor gap log :
  replay_inv seen anchor gap log -> (forall k, seen' k = seen k) -> replay_inv seen' anchor gap log.
Proof. intros [I1 I2 I3 I4] H. split; try done. intros k x Hx. rewrite H. by apply I2. Qed.
End Replay.
