(* ===== verification/VehicleCmdProps.v ===== *)
(** * Properties of the vehicle command engines

    What the craft applies is authentic, from its issuer and applied once; a
    campaign of the issuer ends; and the two composed: a copy heard by the craft
    is applied and its echo ends the campaign. *)
From stdpp Require Import gmap sorting.
From S2P Require Import Prelude Endian Types Wire WireLayout WireFacts SMap Sha256 Sha256Props VehicleCmd Replay.
(** ** The MAC *)

(** The MAC of a packet the codec accepts: HMAC over its first 19 bytes. *)
Definition cmd_mac (pkt : VehicleCmd) (key : list Z) : Z :=
  tag32 (hmac_ref key (take 19 (layout (PVehicleCmd pkt)))).

Lemma mac_of_spec pkt key :
  mac_of pkt key = Some (if packet_valid (PVehicleCmd pkt) then Some (cmd_mac pkt key) else None).
Proof.
  unfold mac_of. pose proof (encode_vehicle_cmd_spec (replicate (Z.to_nat kVehicleCmdSize) 0) kVehicleCmdSize pkt) as H.
  red in H. cbn [encode_packet packet_size] in H. rewrite H by (rewrite length_replicate; unfold kVehicleCmdSize; lia).
  rewrite Z.leb_refl, andb_true_r.
  destruct (packet_valid (PVehicleCmd pkt)); [|done]. cbn [mbind option_bind].
  rewrite Z.eqb_refl. cbn [negb]. rewrite drop_replicate, Nat.sub_diag, app_nil_r.
  unfold vcmd_mac, slice.
  assert (Hl : length (layout (PVehicleCmd pkt)) = 23%nat) by reflexivity.
  rewrite Hl. cbn [Nat.leb Nat.add]. rewrite drop_0. cbn [mbind option_bind].
  by rewrite hmac_sha256_spec.
Qed.

(** The tag does not cover itself. *)
Lemma cmd_mac_field pkt key mac : cmd_mac (with_mac pkt mac) key = cmd_mac pkt key.
Proof.
  unfold cmd_mac.
  assert (H : take 19 (layout (PVehicleCmd (with_mac pkt mac))) = take 19 (layout (PVehicleCmd pkt))) by reflexivity.
  by rewrite H.
Qed.

Lemma mac_matches_spec pkt key want :
  mac_of pkt key = Some want ->
  mac_matches want pkt.(vc_cmd_mac) = true ->
  packet_valid (PVehicleCmd pkt) = true /\ pkt.(vc_cmd_mac) = cmd_mac pkt key.
Proof.
  rewrite mac_of_spec. intros Hw Hm. apply (inj Some) in Hw. subst want.
  destruct (packet_valid (PVehicleCmd pkt)); [|discriminate Hm].
  apply Z.eqb_eq in Hm. by rewrite Hm.
Qed.

(** ** The craft *)

(** A command the craft must obey: not an echo, key present, authentic, from
    the bound issuer. *)
Definition authentic (key : list Z) (bound : option Z) (pkt : VehicleCmd) : Prop :=
  Z.land pkt.(vc_cmd_flags) vcmd_flags_kAck = 0 /\ key <> [] /\
  packet_valid (PVehicleCmd pkt) = true /\ pkt.(vc_cmd_mac) = cmd_mac pkt key /\
  bound = Some pkt.(vc_prefix).(originator).

Definition cmd_key (pkt : VehicleCmd) : Z * Z :=
  (pkt.(vc_prefix).(originator), pkt.(vc_prefix).(session_id)).

(** Its nonce is new for its sender's session. *)
Definition fresh_nonce (c : VcmdCraft) (pkt : VehicleCmd) : Prop :=
  match c.(last_applied_) !! cmd_key pkt with
  | Some o => o.(o_nonce) < pkt.(vc_cmd_nonce)
  | None => True
  end.

Definition spaced (c : VcmdCraft) (now : Z) : Prop :=
  c.(last_accept_us_) = 0 \/ c.(cr_policy).(vp_min_interval_ms) * 1000 <= to_u64 (now - c.(last_accept_us_)).

Lemma queue_echo_keeps c o to now :
  (queue_echo c o to now).(cr_policy) = c.(cr_policy) /\
  (queue_echo c o to now).(cr_self) = c.(cr_self) /\
  (queue_echo c o to now).(last_applied_) = c.(last_applied_) /\
  (queue_echo c o to now).(last_accept_us_) = c.(last_accept_us_).
Proof. unfold queue_echo. by destruct (_ && _). Qed.

Section Craft.
Context {E : Type}.
Implicit Types (c : VcmdCraft) (env : E) (f : E -> Z -> Z -> E * bool).

(** What an accepted command does to the engine. *)
Definition accepts c (pkt : VehicleCmd) (now : Z) (c' : VcmdCraft) : Prop :=
  exists rej,
  c'.(last_applied_) = <[cmd_key pkt := MkOutcome pkt.(vc_cmd_nonce) pkt.(vc_cmd_id) pkt.(vc_cmd_arg) rej]> c.(last_applied_) /\
  c'.(last_accept_us_) = now /\ c'.(cr_policy) = c.(cr_policy) /\ c'.(cr_self) = c.(cr_self).

Definition ignores c c' : Prop :=
  c'.(last_applied_) = c.(last_applied_) /\ c'.(last_accept_us_) = c.(last_accept_us_) /\
  c'.(cr_policy) = c.(cr_policy) /\ c'.(cr_self) = c.(cr_self).

Lemma on_cmd_cases c env pkt now bound f :
  exists r c' env', on_cmd c env pkt now bound (Some f) = Some (r, c', env') /\
    ((authentic c.(cr_policy).(psk) bound pkt /\ fresh_nonce c pkt /\ spaced c now /\
      (env', r) = f env pkt.(vc_cmd_id) pkt.(vc_cmd_arg) /\ accepts c pkt now c') \/
     (r = false /\ env' = env /\ ignores c c' /\
      ~ (authentic c.(cr_policy).(psk) bound pkt /\ fresh_nonce c pkt /\ spaced c now))).
Proof.
  assert (Hig : ignores c c) by done. unfold on_cmd.
  destruct (Z.eqb_spec (Z.land (vc_cmd_flags pkt) vcmd_flags_kAck) 0) as [Hack|Hack]; cbn [negb].
  2:{ eexists _, _, _. split; [reflexivity|]. right. split_and!; try done. by intros ((? & _) & _). }
  destruct (Nat.eqb_spec (length (psk (cr_policy c))) 0) as [Hk|Hk].
  { eexists _, _, _. split; [reflexivity|]. right. apply nil_length_inv in Hk. split_and!; try done.
    by intros ((_ & ? & _) & _). }
  rewrite mac_of_spec. cbn [mbind option_bind].
  set (want := if packet_valid _ then _ else _).
  destruct (mac_matches want (vc_cmd_mac pkt)) eqn:Hm; cbn [negb].
  2:{ eexists _, _, _. split; [reflexivity|]. right. split_and!; try done.
      intros ((_ & _ & Hv & Heq & _) & _). unfold want in Hm. rewrite Hv in Hm. cbn in Hm.
      by rewrite Heq, Z.eqb_refl in Hm. }
  apply (mac_matches_spec pkt (psk (cr_policy c))) in Hm as [Hv Heq]; [|by rewrite mac_of_spec].
  destruct (match bound with Some i => i =? originator (vc_prefix pkt) | None => false end) eqn:Hb; cbn [negb].
  2:{ eexists _, _, _. split; [reflexivity|]. right. split_and!; try done.
      intros ((_ & _ & _ & _ & Hbd) & _). by rewrite Hbd, Z.eqb_refl in Hb. }
  assert (Hauth : authentic (psk (cr_policy c)) bound pkt).
  { split; [done|]. split; [intros E0; by rewrite E0 in Hk|]. split; [done|]. split; [done|].
    destruct bound as [i|]; [|done]. by apply Z.eqb_eq in Hb as ->. }
  fold (cmd_key pkt).
  destruct (match last_applied_ c !! cmd_key pkt with Some o => vc_cmd_nonce pkt <=? o_nonce o | None => false end) eqn:Hn.
  - assert (Hnf : ~ fresh_nonce c pkt).
    { unfold fresh_nonce. destruct (last_applied_ c !! cmd_key pkt); [|done]. apply Z.leb_le in Hn. lia. }
    destruct (last_applied_ c !! cmd_key pkt) as [o|] eqn:Ho; [|done].
    assert (Hno : ~ (authentic (psk (cr_policy c)) bound pkt /\ fresh_nonce c pkt /\ spaced c now)) by tauto.
    destruct (queue_echo_keeps c o (originator (vc_prefix pkt)) now) as (E1 & E2 & E3 & E4).
    destruct (_ && _ && _); (eexists _, _, _; split; [reflexivity|]; right).
    + split; [done|]. split; [done|]. split; [|done]. by repeat split.
    + done.
  - assert (Hf : fresh_nonce c pkt).
    { unfold fresh_nonce. destruct (last_applied_ c !! cmd_key pkt); [|done]. apply Z.leb_gt in Hn. lia. }
    destruct (negb (last_accept_us_ c =? 0) && _) eqn:Hs.
    + eexists _, _, _. split; [reflexivity|]. right. split_and!; try done.
      intros (_ & _ & [H0|Hsp]); bool_hyps; lia.
    + assert (Hsp : spaced c now).
      { unfold spaced. apply andb_false_iff in Hs as [Hs|Hs]; bool_hyps; auto. }
      destruct (f env (vc_cmd_id pkt) (vc_cmd_arg pkt)) as [env' r] eqn:Ef.
      eexists _, _, _. split; [reflexivity|]. left.
      split; [done|]. split; [done|]. split; [done|].
      split; [cbn [o_rejected]; by rewrite negb_involutive|].
      set (c1 := MkVcmdCraft _ _ _ _ _ _ _ _ _ _ _). set (o := MkOutcome _ _ _ _) in *.
      destruct (queue_echo_keeps c1 o (originator (vc_prefix pkt)) now) as (E1 & E2 & E3 & E4).
      exists (negb r). by rewrite E1, E2, E3, E4.
Qed.
End Craft.

(** ** Runs of the craft *)
Inductive CraftEvent : Type :=
| CrCmd (pkt : VehicleCmd) (now_us : Z) (bound_issuer : option Z)
| CrTick (now_us : Z).

(** A command the hook was called for, when, and who was bound then. *)
Abbreviation applied_cmd := (VehicleCmd * Z * option Z)%type.

(** The hook counts its calls; its answers are arbitrary. *)
Definition counting_hook (answer : nat -> Z -> Z -> bool) (n : nat) (id arg : Z) : nat * bool :=
  (S n, answer n id arg).

Definition craft_step (answer : nat -> Z -> Z -> bool)
    (st : VcmdCraft * nat * list applied_cmd) (ev : CraftEvent)
  : option (VcmdCraft * nat * list applied_cmd) :=
  let '(c, n, log) := st in
  match ev with
  | CrCmd pkt now bound =>
    '(_, c, n') ← on_cmd c n pkt now bound (Some (counting_hook answer));
    Some (c, n', if (n' =? n)%nat then log else log ++ [(pkt, now, bound)])
  | CrTick now => '(_, c) ← craft_tick c now; Some (c, n, log)
  end.

Lemma craft_tick_keeps c now :
  exists out c', craft_tick c now = Some (out, c') /\ ignores c c'.
Proof.
  unfold craft_tick. destruct (_ || _); [by eexists _, _|]. rewrite mac_of_spec. cbn [mbind option_bind].
  destruct (packet_valid _); by eexists _, _.
Qed.

(** What the engine remembers of each sender session. *)
Definition seen_nonce (c : VcmdCraft) (k : Z * Z) : option Z := o_nonce <$> c.(last_applied_) !! k.
Definition log_key (a : applied_cmd) : Z * Z := cmd_key a.1.1.
Definition log_nonce (a : applied_cmd) : Z := a.1.1.(vc_cmd_nonce).
Definition log_time (a : applied_cmd) : Z := a.1.2.

Record craft_inv (policy : VcmdParams) (c : VcmdCraft) (log : list applied_cmd) : Prop := {
  ci_policy : c.(cr_policy) = policy;
  ci_auth : Forall (fun a => authentic policy.(psk) a.2 a.1.1) log;
  ci_replay : replay_inv log_key log_nonce log_time (seen_nonce c) c.(last_accept_us_)
                (policy.(vp_min_interval_ms) * 1000) log
}.

Lemma craft_inv_ignores policy c c' log : craft_inv policy c log -> ignores c c' -> craft_inv policy c' log.
Proof.
  intros [I1 I2 I3] (E1 & E2 & E3 & E4). split; [congruence|done|].
  rewrite E2. apply (replay_keep _ _ _ _ _ _ _ _ I3). intros k. unfold seen_nonce. by rewrite E1.
Qed.

Lemma craft_inv_accept policy c c' log pkt now bound :
  craft_inv policy c log -> authentic policy.(psk) bound pkt -> fresh_nonce c pkt -> spaced c now ->
  accepts c pkt now c' -> craft_inv policy c' (log ++ [(pkt, now, bound)]).
Proof.
  intros [I1 I2 I3] Ha Hf Hs (rej & A1 & A2 & A3 & A4). split.
  - congruence.
  - apply Forall_app. split; [done|by constructor].
  - rewrite A2. apply (replay_accept _ _ _ (seen_nonce c) _ _ _ _ (pkt, now, bound) I3); unfold seen_nonce, log_key; cbn.
    + intros n. unfold fresh_nonce in Hf. destruct (last_applied_ c !! cmd_key pkt); [|done]. by intros [= <-].
    + unfold spaced in Hs. by rewrite I1 in Hs.
    + by rewrite A1, lookup_insert_eq.
    + intros k Hk. by rewrite A1, lookup_insert_ne.
Qed.

Lemma craft_step_inv answer policy c n log ev :
  craft_inv policy c log ->
  exists c' n' log', craft_step answer (c, n, log) ev = Some (c', n', log') /\ craft_inv policy c' log'.
Proof.
  intros Hi. pose proof (ci_policy _ _ _ Hi) as Hp. destruct ev as [pkt now bound|now]; cbn [craft_step].
  - destruct (on_cmd_cases c n pkt now bound (counting_hook answer))
      as (r & c' & n' & -> & [(Ha & Hf & Hs & Hh & Hacc)|(-> & -> & Hig & _)]); cbn [mbind option_bind].
    + injection Hh as -> _. eexists _, _, _. split; [reflexivity|].
      destruct (Nat.eqb_spec (S n) n); [lia|]. rewrite Hp in Ha. by eapply craft_inv_accept.
    + eexists _, _, _. split; [reflexivity|]. rewrite Nat.eqb_refl. by eapply craft_inv_ignores.
  - destruct (craft_tick_keeps c now) as (out & c' & -> & Hig). cbn [mbind option_bind].
    eexists _, _, _. split; [reflexivity|]. by eapply craft_inv_ignores.
Qed.

(** ** The issuer *)

(** Copies a campaign can still send. *)
Definition budget (i : VcmdIssuer) : Z :=
  match i.(state_) with
  | kSending => i.(copies_left_) + i.(is_policy).(copies) * (i.(campaigns_left_) - 1)
  | kAwaitEcho => i.(is_policy).(copies) * (i.(campaigns_left_) - 1)
  | _ => 0
  end.

Record issuer_ok (i : VcmdIssuer) : Prop := {
  io_copies : 1 <= i.(is_policy).(copies) <= 255;
  io_left : i.(state_) = kSending -> 1 <= i.(copies_left_) <= 255;
  io_campaigns : active i = true -> 1 <= i.(campaigns_left_) <= 255
}.

(** One [tick]: a copy costs one unit, nothing else does. *)
Lemma issuer_tick_budget i now :
  issuer_ok i ->
  exists out i', issuer_tick i now = Some (out, i') /\ issuer_ok i' /\
    i'.(is_policy) = i.(is_policy) /\ i'.(tmpl_) = i.(tmpl_) /\ i'.(target_) = i.(target_) /\
    0 <= budget i' /\ budget i = budget i' + (match out with Some _ => 1 | None => 0 end) /\
    (forall pkt, out = Some pkt -> pkt = with_mac (with_seq i.(tmpl_) i.(copies_left_)) pkt.(vc_cmd_mac)).
Proof.
  intros Hok. pose proof Hok as [Hc Hl Hk].
  assert (Hb : 0 <= budget i).
  { unfold budget, active in *. destruct (state_ i); try lia.
    - specialize (Hl eq_refl). specialize (Hk eq_refl). nia.
    - specialize (Hk eq_refl). nia. }
  assert (Hnoop : exists out i', Some (@None VehicleCmd, i) = Some (out, i') /\ issuer_ok i' /\
    i'.(is_policy) = i.(is_policy) /\ i'.(tmpl_) = i.(tmpl_) /\ i'.(target_) = i.(target_) /\
    0 <= budget i' /\ budget i = budget i' + (match out with Some _ => 1 | None => 0 end) /\
    (forall pkt, out = Some pkt -> pkt = with_mac (with_seq i.(tmpl_) i.(copies_left_)) pkt.(vc_cmd_mac))).
  { exists None, i. split_and!; try done. lia. }
  unfold issuer_tick. destruct (state_ i) eqn:Es; try exact Hnoop.
  - specialize (Hl eq_refl). unfold active in Hk. rewrite Es in Hk. specialize (Hk eq_refl).
    destruct (Z.geb_spec now (next_copy_us_ i)); [|exact Hnoop].
    rewrite mac_of_spec. cbn [mbind option_bind].
    set (pkt := match (if packet_valid _ then _ else _) with Some _ => _ | None => _ end).
    assert (Hpkt : pkt = with_mac (with_seq (tmpl_ i) (copies_left_ i)) pkt.(vc_cmd_mac)).
    { unfold pkt. by destruct (packet_valid _). }
    rewrite to_u8_id by (unfold u8; lia). unfold budget in *. rewrite Es in *.
    destruct (Z.eqb_spec (copies_left_ i - 1) 0); eexists (Some pkt), _; (split; [reflexivity|]);
      (split; [split; unfold active; cbn; intros; (done || lia)|]);
      cbn [is_policy tmpl_ target_ state_ copies_left_ campaigns_left_];
      (split_and!; try done; try nia; by intros p [= <-]).
  - unfold active in Hk. rewrite Es in Hk. specialize (Hk eq_refl).
    destruct (Z.geb_spec now (echo_deadline_us_ i)); [|exact Hnoop].
    rewrite to_u8_id by (unfold u8; lia). unfold budget in *. rewrite Es in *.
    destruct (Z.eqb_spec (campaigns_left_ i - 1) 0); eexists None, _; (split; [reflexivity|]);
      (split; [split; unfold active; cbn; intros; (done || lia)|]);
      cbn [is_policy tmpl_ target_ state_ copies_left_ campaigns_left_];
      (split_and!; try done; nia).
Qed.

(** Ticks at the given times: what is sent, and the engine afterwards. *)
Fixpoint issuer_ticks (i : VcmdIssuer) (ts : list Z) : option (list VehicleCmd * VcmdIssuer) :=
  match ts with
  | [] => Some ([], i)
  | now :: ts =>
    '(out, i) ← issuer_tick i now;
    '(sent, i) ← issuer_ticks i ts;
    Some (match out with Some p => p :: sent | None => sent end, i)
  end.

(** Ticks still needed when every tick comes late enough. *)
Definition work (i : VcmdIssuer) : Z :=
  let c := i.(is_policy).(copies) in
  match i.(state_) with
  | kSending => i.(copies_left_) + 1 + (c + 1) * (i.(campaigns_left_) - 1)
  | kAwaitEcho => 1 + (c + 1) * (i.(campaigns_left_) - 1)
  | _ => 0
  end.

Definition gap_us (p : VcmdParams) : Z := Z.max p.(copy_interval_ms) p.(ack_timeout_ms) * 1000.

(** A tick at [t] or later acts. *)
Definition due_at (i : VcmdIssuer) (t : Z) : Prop :=
  match i.(state_) with
  | kSending => i.(next_copy_us_) <= t
  | kAwaitEcho => i.(echo_deadline_us_) <= t
  | _ => True
  end.

(** Times at least [gap] apart, the first from [t] on, below [2^63]. *)
Fixpoint paced (gap t : Z) (ts : list Z) : Prop :=
  match ts with
  | [] => True
  | now :: ts => Z.max 0 t <= now < 9223372036854775808 /\ paced gap (now + gap) ts
  end.

Lemma issuer_ticks_budget ts : forall i,
  issuer_ok i ->
  exists sent i', issuer_ticks i ts = Some (sent, i') /\ issuer_ok i' /\
    budget i = budget i' + len sent /\ 0 <= budget i' /\
    Forall (fun p => p.(vc_prefix) = i.(tmpl_).(vc_prefix) /\ p.(vc_cmd_nonce) = i.(tmpl_).(vc_cmd_nonce) /\
       p.(vc_cmd_id) = i.(tmpl_).(vc_cmd_id) /\ p.(vc_cmd_arg) = i.(tmpl_).(vc_cmd_arg)) sent.
Proof.
  induction ts as [|now ts IH]; intros i Hi; cbn [issuer_ticks].
  - exists [], i. split_and!; try done; [cbn; lia|].
    destruct (issuer_tick_budget i 0 Hi) as (out & i' & _ & _ & _ & _ & _ & Hb & E & _). destruct out; lia.
  - destruct (issuer_tick_budget i now Hi) as (out & i1 & -> & H1 & _ & Et & _ & Hb1 & Eb & Hout).
    cbn [mbind option_bind]. destruct (IH i1 H1) as (sent & i2 & -> & H2 & Eb2 & Hb2 & Hall).
    cbn [mbind option_bind]. eexists _, _. split; [reflexivity|]. split; [done|].
    rewrite Et in Hall. destruct out as [p|]; [|split_and!; (done || lia)].
    split; [cbn [length]; lia|]. split; [done|]. constructor; [|done].
    specialize (Hout p eq_refl). rewrite Hout. done.
Qed.

Lemma issuer_tick_work i now t :
  issuer_ok i -> due_at i t -> Z.max 0 t <= now < 9223372036854775808 ->
  0 <= i.(is_policy).(copy_interval_ms) < 4294967296 -> 0 <= i.(is_policy).(ack_timeout_ms) < 4294967296 ->
  exists out i', issuer_tick i now = Some (out, i') /\ due_at i' (now + gap_us i.(is_policy)) /\
    i'.(is_policy) = i.(is_policy) /\ work i' = Z.max 0 (work i - 1) /\
    (state_str i = s_pending -> state_str i' = if work i' =? 0 then s_timeout else s_pending) /\
    (state_str i <> s_pending -> i' = i).
Proof.
  intros Hok Hdue Ht Hci Hat. pose proof Hok as [Hc Hl Hk]. unfold issuer_tick, due_at, gap_us in *.
  unfold active in Hk.
  destruct (state_ i) eqn:Es; try (eexists None, i; split; [reflexivity|]; unfold work, state_str; rewrite Es;
    split_and!; try done; lia).
  - specialize (Hl eq_refl). specialize (Hk eq_refl).
    destruct (Z.geb_spec now (next_copy_us_ i)); [|lia].
    rewrite mac_of_spec. cbn [mbind option_bind]. rewrite to_u8_id by (unfold u8; lia).
    rewrite !to_u64_id by (unfold u64; lia). unfold state_str, work in *. rewrite Es in *.
    destruct (Z.eqb_spec (copies_left_ i - 1) 0); eexists _, _; (split; [reflexivity|]);
      cbn [is_policy state_ copies_left_ campaigns_left_ next_copy_us_ echo_deadline_us_];
      (split; [lia|]); (split; [done|]); (split; [nia|]); (split; [|done]); intros _;
      case_test; (done || nia).
  - specialize (Hk eq_refl).
    destruct (Z.geb_spec now (echo_deadline_us_ i)); [|lia]. rewrite to_u8_id by (unfold u8; lia).
    unfold state_str, work in *. rewrite Es in *.
    destruct (Z.eqb_spec (campaigns_left_ i - 1) 0); eexists None, _; (split; [reflexivity|]);
      cbn [is_policy state_ copies_left_ campaigns_left_ next_copy_us_ echo_deadline_us_].
    + split_and!; try done; nia.
    + split; [lia|]. split; [done|]. split; [nia|]. split; [|done]. intros _.
      case_test; [nia|done].
Qed.

Lemma issuer_ticks_work ts : forall i t,
  issuer_ok i -> due_at i t -> paced (gap_us i.(is_policy)) t ts ->
  0 <= i.(is_policy).(copy_interval_ms) < 4294967296 -> 0 <= i.(is_policy).(ack_timeout_ms) < 4294967296 ->
  state_str i = (if work i =? 0 then s_timeout else s_pending) -> 0 <= work i ->
  exists sent i', issuer_ticks i ts = Some (sent, i') /\
    work i' = Z.max 0 (work i - len ts) /\
    state_str i' = if work i' =? 0 then s_timeout else s_pending.
Proof.
  induction ts as [|now ts IH]; intros i t Hok Hdue Hp Hci Hat Hst Hw; cbn [issuer_ticks].
  - exists [], i. split; [done|]. split; [cbn; lia|done].
  - destruct Hp as [Ht Hp].
    destruct (issuer_tick_work i now t Hok Hdue Ht Hci Hat) as (out & i1 & E1 & Hdue1 & Hpol & Hw1 & Hs1 & Hs2).
    destruct (issuer_tick_budget i now Hok) as (out' & i1' & E1' & Hok1 & _).
    rewrite E1 in E1'. injection E1' as <- <-. rewrite E1. cbn [mbind option_bind].
    destruct (IH i1 (now + gap_us (is_policy i1))) as (sent & i2 & -> & Hw2 & Hst2); rewrite ?Hpol; try done.
    + destruct (Z.eqb_spec (work i) 0) as [E0|E0].
      * rewrite Hs2 by by rewrite Hst. rewrite Hst. by rewrite E0.
      * by apply Hs1.
    + lia.
    + cbn [mbind option_bind]. eexists _, _. split; [reflexivity|]. split; [|done].
      cbn [length]. lia.
Qed.

(** ** What the engines promise *)

Fixpoint craft_run (answer : nat -> Z -> Z -> bool) (st : VcmdCraft * nat * list applied_cmd)
    (evs : list CraftEvent) : option (VcmdCraft * nat * list applied_cmd) :=
  match evs with
  | [] => Some st
  | ev :: evs => st ← craft_step answer st ev; craft_run answer st evs
  end.

Lemma craft_inv_init policy self : craft_inv policy (VcmdCraft_init policy self) [].
Proof. split; [done|constructor|apply replay_nil]. Qed.

Lemma craft_run_inv answer policy evs : forall c n log,
  craft_inv policy c log ->
  exists c' n' log', craft_run answer (c, n, log) evs = Some (c', n', log') /\ craft_inv policy c' log'.
Proof.
  induction evs as [|ev evs IH]; intros c n log Hi; cbn [craft_run]; [by eexists _, _, _|].
  destruct (craft_step_inv answer policy c n log ev Hi) as (c1 & n1 & log1 & -> & H1).
  cbn [mbind option_bind]. by apply IH.
Qed.

(** C16. Over any sequence of received packets and ticks, whatever the hook
    answers, the craft returns and every command it applied was authentic under
    its key and came from the issuer bound at that moment; per sender session
    the applied nonces strictly increase (no command is applied twice, and no
    replay is), and two applications are never closer than the rate limit. *)
Theorem vcmd_applied_once answer policy self evs :
  exists c n log, craft_run answer (VcmdCraft_init policy self, O, []) evs = Some (c, n, log) /\
    Forall (fun a => authentic policy.(psk) a.2 a.1.1) log /\
    (forall k, StronglySorted Z.lt (nonces_of log_key log_nonce k log)) /\
    rate_ok log_time (policy.(vp_min_interval_ms) * 1000) 0 log.
Proof.
  destruct (craft_run_inv answer policy evs _ O _ (craft_inv_init policy self)) as (c & n & log & E & [? ? []]).
  by exists c, n, log.
Qed.

(** [on_cmd] calls the hook exactly for an authentic command with a new
    nonce outside the rate limit; otherwise the hook's world, the anti-replay
    map and the rate limit's anchor stay as they are and [false] is returned. *)
Theorem on_cmd_exact (E : Type) (c : VcmdCraft) (env : E) pkt now bound (f : E -> Z -> Z -> E * bool) :
  exists r c' env', on_cmd c env pkt now bound (Some f) = Some (r, c', env') /\
    ((authentic c.(cr_policy).(psk) bound pkt /\ fresh_nonce c pkt /\ spaced c now /\
      (env', r) = f env pkt.(vc_cmd_id) pkt.(vc_cmd_arg) /\ accepts c pkt now c') \/
     (r = false /\ env' = env /\ ignores c c' /\
      ~ (authentic c.(cr_policy).(psk) bound pkt /\ fresh_nonce c pkt /\ spaced c now))).
Proof. apply on_cmd_cases. Qed.

(** The state a successful [start] leaves. *)
Lemma start_ok i prefix target id arg now i' :
  start i prefix target id arg now = (true, i') ->
  1 <= i.(is_policy).(copies) <= 255 -> 1 <= i.(is_policy).(retry_cap) <= 255 ->
  issuer_ok i' /\ i'.(is_policy) = i.(is_policy) /\ state_str i' = s_pending /\ i'.(next_copy_us_) = now /\
  i'.(state_) = kSending /\ i'.(copies_left_) = i.(is_policy).(copies) /\
  i'.(campaigns_left_) = i.(is_policy).(retry_cap) /\ i'.(tmpl_).(vc_cmd_nonce) = i.(next_nonce_) /\
  i'.(tmpl_).(vc_cmd_id) = id /\ i'.(tmpl_).(vc_cmd_arg) = arg /\
  i'.(tmpl_).(vc_prefix) = set_destination prefix target.
Proof.
  unfold start. intros H Hc Hr. destruct (_ || _); [discriminate|]. destruct (_ && _); [discriminate|].
  apply (f_equal snd) in H. cbn in H. subst i'. cbn. split; [|by split_and!]. by split; cbn.
Qed.

(** A started campaign ends: however it is ticked, it sends at most
    [copies * retry_cap] copies, all of the one nonce and command; and after
    [(copies + 1) * retry_cap] ticks spaced by the copy interval and the ack
    window it has sent exactly that many and reports a timeout, if no echo
    came. *)
Theorem vcmd_campaign_terminates i prefix target id arg now i' ts
    (Hs : start i prefix target id arg now = (true, i'))
    (Hc : 1 <= i.(is_policy).(copies) <= 255) (Hr : 1 <= i.(is_policy).(retry_cap) <= 255)
    (Hi : 0 <= i.(is_policy).(copy_interval_ms) < 4294967296)
    (Ha : 0 <= i.(is_policy).(ack_timeout_ms) < 4294967296) :
  exists sent i'', issuer_ticks i' ts = Some (sent, i'') /\
    len sent <= i.(is_policy).(copies) * i.(is_policy).(retry_cap) /\
    Forall (fun p => p.(vc_cmd_nonce) = i.(next_nonce_) /\ p.(vc_cmd_id) = id /\ p.(vc_cmd_arg) = arg) sent /\
    (paced (gap_us i.(is_policy)) now ts ->
     (i.(is_policy).(copies) + 1) * i.(is_policy).(retry_cap) <= len ts ->
     state_str i'' = s_timeout /\ len sent = i.(is_policy).(copies) * i.(is_policy).(retry_cap)).
Proof.
  destruct (start_ok _ _ _ _ _ _ _ Hs Hc Hr) as (Hok & Hp & Hst & Hnx & Es & El & Ek & En & Eid & Earg & _).
  destruct (issuer_ticks_budget ts i' Hok) as (sent & i2 & E & Hok2 & Eb & Hb & Hall).
  assert (Hb0 : budget i' = copies (is_policy i) * retry_cap (is_policy i)).
  { unfold budget. rewrite Es, El, Ek, Hp. nia. }
  exists sent, i2. split; [done|]. split; [lia|]. split.
  { eapply Forall_impl; [exact Hall|]. cbn. intros p (_ & -> & -> & ->). by rewrite En. }
  intros Hpac Hlen.
  assert (Hw : work i' = (copies (is_policy i) + 1) * retry_cap (is_policy i)).
  { unfold work. rewrite Es, El, Ek, Hp. nia. }
  destruct (issuer_ticks_work ts i' now) as (sent' & i2' & E' & Hw' & Hs'); rewrite ?Hp; try done; [| |lia|].
  - unfold due_at. rewrite Es. lia.
  - rewrite Hst. case_test; [nia|done].
  - rewrite E in E'. injection E' as <- <-. rewrite Hw' in Hs'.
    replace (Z.max 0 (work i' - len ts)) with 0 in Hs' by lia. cbn in Hs'. split; [done|].
    assert (budget i2 = 0); [|lia]. unfold state_str in Hs'. unfold budget. by destruct (state_ i2).
Qed.
Lemma vcmd_campaign_terminates_witness :
  exists i' sent i'',
    start (VcmdIssuer_init (MkVcmdParams [1; 2] 3 20 2 1000 3 250)) (MkCommonPrefix 7 0 9) 5 1 0 1000 = (true, i') /\
    issuer_ticks i' (map (fun k => 1000 + 1000000 * Z.of_nat k) (seq 0 12)) = Some (sent, i'') /\
    state_str i'' = s_timeout /\ len sent = 9.
Proof.
  pose (i0 := VcmdIssuer_init (MkVcmdParams [1; 2] 3 20 2 1000 3 250)).
  exists (start i0 (MkCommonPrefix 7 0 9) 5 1 0 1000).2.
  destruct (vcmd_campaign_terminates i0 (MkCommonPrefix 7 0 9) 5 1 0 1000
    (start i0 (MkCommonPrefix 7 0 9) 5 1 0 1000).2 (map (fun k => 1000 + 1000000 * Z.of_nat k) (seq 0 12)))
    as (sent & i'' & E & _ & _ & H); [reflexivity|(vm_compute; split; (discriminate || reflexivity))..|].
  exists sent, i''. split; [reflexivity|]. split; [exact E|].
  apply H; vm_compute; repeat split; discriminate.
Defined.

(** A campaign configured with no copies: the first copy leaves and
    [--copies_left_] wraps, so 255 more follow. *)
Lemma zero_copies_wraps :
  exists pkt i', issuer_tick (start (VcmdIssuer_init (MkVcmdParams [1] 0 20 2 1000 1 250))
                                (MkCommonPrefix 7 0 9) 5 1 0 1000).2 1000 = Some (Some pkt, i') /\
    i'.(state_) = kSending /\ i'.(copies_left_) = 255.
Proof. unfold issuer_tick. cbn [start snd]. rewrite mac_of_spec. by eexists _, _. Qed.

(** No echo burst for this nonce is held down. *)
Definition no_burst (c : VcmdCraft) (nonce : Z) : Prop :=
  c.(echoed_once_) = true -> c.(last_echo_nonce_) <> nonce.

(** The engine right after an accepted command, before its echo is queued. *)
Definition accepted_craft (c : VcmdCraft) (pkt : VehicleCmd) (now : Z) (r : bool) : VcmdCraft :=
  let o := MkOutcome pkt.(vc_cmd_nonce) pkt.(vc_cmd_id) pkt.(vc_cmd_arg) (negb r) in
  MkVcmdCraft c.(cr_policy) c.(cr_self) (<[cmd_key pkt := o]> c.(last_applied_)) o now
    c.(echo_) c.(echoes_left_) c.(next_echo_us_) c.(last_echo_nonce_)
    c.(last_echo_start_us_) c.(echoed_once_).

(** The echo of an accepted command, before its sequence and MAC are stamped. *)
Definition echo_of (c : VcmdCraft) (pkt : VehicleCmd) (r : bool) : VehicleCmd :=
  MkVehicleCmd (set_destination c.(cr_self) pkt.(vc_prefix).(originator)) pkt.(vc_cmd_nonce) 0
    (to_u8 (Z.lor vcmd_flags_kAck (if negb r then vcmd_flags_kRejected else 0)))
    pkt.(vc_cmd_id) pkt.(vc_cmd_arg) 0.

Section Link.
Context {E : Type} (f : E -> Z -> Z -> E * bool).

Lemma on_cmd_accept (c : VcmdCraft) (env : E) pkt now bound :
  authentic c.(cr_policy).(psk) bound pkt -> fresh_nonce c pkt -> spaced c now ->
  on_cmd c env pkt now bound (Some f) =
  let '(env', r) := f env pkt.(vc_cmd_id) pkt.(vc_cmd_arg) in
  Some (r, queue_echo (accepted_craft c pkt now r)
             (MkOutcome pkt.(vc_cmd_nonce) pkt.(vc_cmd_id) pkt.(vc_cmd_arg) (negb r))
             pkt.(vc_prefix).(originator) now, env').
Proof.
  intros (Ha & Hk & Hv & Hm & Hb) Hf Hs. unfold on_cmd. rewrite Ha, Hb. cbn [Z.eqb negb].
  destruct (psk (cr_policy c)) as [|k ks] eqn:Ek; [contradiction|]. cbn [length Nat.eqb].
  rewrite mac_of_spec, Hv. cbn [mbind option_bind mac_matches]. rewrite Hm, !Z.eqb_refl. cbn [negb].
  fold (cmd_key pkt). unfold fresh_nonce in Hf.
  assert (Hn : match last_applied_ c !! cmd_key pkt with Some o => vc_cmd_nonce pkt <=? o_nonce o | None => false end = false).
  { destruct (last_applied_ c !! cmd_key pkt); [apply Z.leb_gt; lia|done]. }
  rewrite Hn.
  assert (Hsp : negb (last_accept_us_ c =? 0) && (to_u64 (now - last_accept_us_ c) <? vp_min_interval_ms (cr_policy c) * 1000) = false).
  { destruct Hs as [->|Hs]; [done|]. apply andb_false_iff. right. apply Z.ltb_ge. lia. }
  rewrite Hsp. destruct (f env _ _) as [env' r]. cbn [o_rejected]. by rewrite negb_involutive.
Qed.

Lemma queue_echo_burst (c : VcmdCraft) pkt now r :
  no_burst c pkt.(vc_cmd_nonce) ->
  let c' := queue_echo (accepted_craft c pkt now r)
              (MkOutcome pkt.(vc_cmd_nonce) pkt.(vc_cmd_id) pkt.(vc_cmd_arg) (negb r))
              pkt.(vc_prefix).(originator) now in
  c'.(echo_) = echo_of c pkt r /\ c'.(echoes_left_) = c.(cr_policy).(echo_copies) /\
  c'.(next_echo_us_) = now /\ c'.(cr_policy) = c.(cr_policy).
Proof.
  unfold no_burst, queue_echo. cbn. intros Hb.
  destruct (echoed_once_ c) eqn:He; cbn [andb]; [|done].
  destruct (Z.eqb_spec (last_echo_nonce_ c) (vc_cmd_nonce pkt)); [by destruct (Hb eq_refl)|done].
Qed.

Lemma echo_valid (c : VcmdCraft) pkt r seq :
  packet_valid (PVehicleCmd pkt) = true -> packet_valid (PVehicleCmd (with_seq (echo_of c pkt r) seq)) = true.
Proof. cbn [packet_valid]. intros H. apply andb_true_iff in H as [_ H]. by destruct r. Qed.

(** The first echo copy a craft emits for an accepted command. *)
Lemma first_echo (c' : VcmdCraft) pkt c r now t :
  packet_valid (PVehicleCmd pkt) = true ->
  c'.(echo_) = echo_of c pkt r -> 0 < c'.(echoes_left_) -> c'.(next_echo_us_) = now -> now <= t ->
  exists c2, craft_tick c' t =
    Some (Some (with_mac (with_seq (echo_of c pkt r) c'.(echoes_left_))
                  (cmd_mac (with_seq (echo_of c pkt r) c'.(echoes_left_)) c'.(cr_policy).(psk))), c2).
Proof.
  intros Hv He Hl Hn Ht. unfold craft_tick. rewrite He, Hn.
  destruct (Z.eqb_spec (echoes_left_ c') 0); [lia|]. destruct (Z.ltb_spec t now); [lia|]. cbn [orb].
  rewrite mac_of_spec, (echo_valid c pkt r _ Hv). by eexists.
Qed.
End Link.

(** The first copy of a started campaign, and the engine that sent it. *)
Lemma campaign_copy i prefix target id arg t0 i1 t1 pkt i2 :
  start i prefix target id arg t0 = (true, i1) ->
  issuer_tick i1 t1 = Some (Some pkt, i2) ->
  1 <= i.(is_policy).(copies) <= 255 -> 1 <= i.(is_policy).(retry_cap) <= 255 ->
  i.(is_policy).(psk) <> [] /\ packet_valid (PVehicleCmd pkt) = true /\
  pkt.(vc_cmd_flags) = 0 /\ pkt.(vc_prefix) = set_destination prefix target /\
  (pkt.(vc_cmd_nonce) = i.(next_nonce_) /\ pkt.(vc_cmd_id) = id /\ pkt.(vc_cmd_arg) = arg) /\
  pkt.(vc_cmd_mac) = cmd_mac pkt i.(is_policy).(psk) /\
  active i2 = true /\ i2.(is_policy) = i.(is_policy) /\ i2.(target_) = target /\
  (i2.(tmpl_).(vc_cmd_nonce) = i.(next_nonce_) /\ i2.(tmpl_).(vc_cmd_id) = id /\ i2.(tmpl_).(vc_cmd_arg) = arg).
Proof.
  unfold start. destruct (_ || _) eqn:Hg; [discriminate|]. destruct (_ && _); [discriminate|].
  intros Hs Htick Hc Hr. apply (f_equal snd) in Hs. cbn [snd] in Hs. subst i1.
  assert (Hrange : vcmd_arg_in_wire_range id arg = true) by (bool_hyps; done).
  assert (Hk : psk (is_policy i) <> []).
  { intros E0. rewrite E0 in Hg. cbn in Hg. bool_hyps. done. }
  revert Htick. unfold issuer_tick. cbn [state_ next_copy_us_ tmpl_ copies_left_ is_policy].
  destruct (t1 >=? t0); [|done]. set (q := with_seq _ _).
  assert (Hq : packet_valid (PVehicleCmd q) = true) by (unfold q; cbn; by rewrite Hrange).
  rewrite mac_of_spec, Hq. cbn [mbind option_bind]. intros H. apply (inj Some) in H.
  pose proof (f_equal fst H) as H1. pose proof (f_equal snd H) as H2. cbn [fst snd] in H1, H2.
  apply (inj Some) in H1. rewrite <- H1, <- H2.
  split; [exact Hk|]. split; [exact Hq|]. split; [reflexivity|]. split; [reflexivity|].
  split; [by split_and!|]. split; [by rewrite cmd_mac_field|]. by destruct (to_u8 _ =? 0).
Qed.

(** An authentic echo of the command in flight ends the campaign. *)
Lemma on_echo_matches i e key :
  active i = true -> i.(is_policy).(psk) = key ->
  Z.land e.(vc_cmd_flags) vcmd_flags_kAck <> 0 -> e.(vc_prefix).(originator) = i.(target_) ->
  e.(vc_cmd_nonce) = i.(tmpl_).(vc_cmd_nonce) -> e.(vc_cmd_id) = i.(tmpl_).(vc_cmd_id) ->
  e.(vc_cmd_arg) = i.(tmpl_).(vc_cmd_arg) -> packet_valid (PVehicleCmd e) = true ->
  on_echo i (with_mac e (cmd_mac e key)) =
  Some (true, with_state i (if negb (Z.land e.(vc_cmd_flags) vcmd_flags_kRejected =? 0) then kRejected else kAcked)).
Proof.
  intros Ha Hk Hf Ho Hn Hi Harg Hv. unfold on_echo.
  cbn [with_mac vc_cmd_flags vc_prefix vc_cmd_nonce vc_cmd_id vc_cmd_arg vc_cmd_mac].
  rewrite Ha, Ho, Hn, Hi, Harg, !Z.eqb_refl. apply Z.eqb_neq in Hf. rewrite Hf. cbn [negb orb].
  rewrite mac_of_spec. assert (Hmv : packet_valid (PVehicleCmd (with_mac e (cmd_mac e key))) = true) by exact Hv.
  rewrite Hmv, cmd_mac_field. cbn [mbind option_bind mac_matches]. by rewrite Hk, Z.eqb_refl.
Qed.

(** The exchange: a copy of a started campaign, heard by a craft bound to
    the issuer, calls the hook once; the craft's next echo, heard by the issuer,
    ends the campaign as acked when the hook applied the command and as
    rejected when it refused. *)
Theorem vcmd_handshake (E : Type) (f : E -> Z -> Z -> E * bool) (env : E) (i i1 i2 : VcmdIssuer) (c : VcmdCraft)
    prefix id arg t0 t1 t2 t3 pkt
    (Hs : start i prefix c.(cr_self).(originator) id arg t0 = (true, i1))
    (Htick : issuer_tick i1 t1 = Some (Some pkt, i2))
    (Hkey : c.(cr_policy).(psk) = i.(is_policy).(psk))
    (Hech : 0 < c.(cr_policy).(echo_copies))
    (Hcop : 1 <= i.(is_policy).(copies) <= 255) (Hcap : 1 <= i.(is_policy).(retry_cap) <= 255)
    (Hfresh : fresh_nonce c pkt) (Hsp : spaced c t2) (Hnb : no_burst c i.(next_nonce_))
    (Ht : t2 <= t3) :
  let '(env', r) := f env id arg in
  exists c' c'' echo i3,
    on_cmd c env pkt t2 (Some prefix.(originator)) (Some f) = Some (r, c', env') /\
    craft_tick c' t3 = Some (Some echo, c'') /\
    on_echo i2 echo = Some (true, i3) /\
    state_str i3 = if r then s_acked else s_rejected.
Proof.
  destruct (campaign_copy _ _ _ _ _ _ _ _ _ _ Hs Htick Hcop Hcap)
    as (Hpsk & Hv & Hfl & Hpre & (En & Ei & Ea) & Hmac & Hact & Hp2 & Htg & (Tn & Ti & Ta)).
  assert (Eo : originator (vc_prefix pkt) = originator prefix) by by rewrite Hpre.
  assert (Hauth : authentic (psk (cr_policy c)) (Some (originator prefix)) pkt).
  { split; [by rewrite Hfl|]. rewrite Hkey, Eo. split; [exact Hpsk|]. by split_and!. }
  pose proof (on_cmd_accept f c env pkt t2 _ Hauth Hfresh Hsp) as Hon.
  rewrite Ei, Ea in Hon. destruct (f env id arg) as [env' r]. rewrite <- Ei, <- Ea, <- En in *.
  destruct (queue_echo_burst c pkt t2 r Hnb) as (He & Hel & Hne & Hpo).
  set (c' := queue_echo _ _ _ _) in *.
  destruct (first_echo c' pkt c r t2 t3 Hv He) as (c'' & Hct); [by rewrite Hel|done|exact Ht|].
  eexists c', c'', _, _. split; [exact Hon|]. split; [exact Hct|].
  rewrite on_echo_matches; [by split; [reflexivity|destruct r]|try done..].
  - by rewrite Hp2, Hpo, Hkey.
  - by destruct r.
  - by apply echo_valid.
Qed.
Lemma vcmd_handshake_witness :
  exists i2 pkt c' c'' echo i3,
    on_cmd (VcmdCraft_init (MkVcmdParams [1] 3 20 2 1000 3 250) (MkCommonPrefix 5 0 4)) O pkt 1100 (Some 7)
      (Some (fun n _ _ => (S n, true))) = Some (true, c', 1%nat) /\
    craft_tick c' 1100 = Some (Some echo, c'') /\ on_echo i2 echo = Some (true, i3) /\ state_str i3 = s_acked.
Proof.
  pose (i := VcmdIssuer_init (MkVcmdParams [1] 3 20 2 1000 3 250)).
  assert (Ht : exists pkt i2, issuer_tick (start i (MkCommonPrefix 7 0 9) 5 1 0 1000).2 1000 = Some (Some pkt, i2)).
  { unfold issuer_tick. cbn [i start snd]. rewrite mac_of_spec. by eexists _, _. }
  destruct Ht as (pkt & i2 & Et).
  pose (c := VcmdCraft_init (MkVcmdParams [1] 3 20 2 1000 3 250) (MkCommonPrefix 5 0 4)).
  exists i2, pkt.
  apply (vcmd_handshake nat (fun n _ _ => (S n, true)) O i (start i (MkCommonPrefix 7 0 9) 5 1 0 1000).2 i2 c
           (MkCommonPrefix 7 0 9) 1 0 1000 1000 1100 1100 pkt);
    [reflexivity|exact Et|reflexivity|reflexivity|split; discriminate|split; discriminate
    |exact I|left; reflexivity|discriminate|lia].
Defined.
