(* ===== verification/Csa.v ===== *)
(** * Follow-me channel switch engines ([core/include/wblink/csa.h],
    [core/src/csa.cpp])

    The follower (craft and spectators) validates campaigns and walks idle,
    armed, retuned (verify), committed; the issuer (ground) sends copies of one
    campaign until acknowledged, commits, beacons and closes.  Neither touches
    a radio: they return actions.  Times are microseconds, the TSF is the
    radio's 32-bit clock. *)
From stdpp Require Import gmap.
From S2P Require Import Prelude Types Wire Sha256.

Definition kCsaVerifyTimeoutMsDefault : Z := 500.

Record CsaParams : Type := MkCsaParams {
  psk : list Z;
  allow_unauthenticated : bool;
  settle_ms : Z;
  verify_timeout_ms : Z;
  min_interval_ms : Z;
  ack_timeout_ms : Z;
  bind_release_ms : Z;
  allowlist : list Z
}.

Definition CsaParams_init : CsaParams :=
  MkCsaParams [] false 3000 kCsaVerifyTimeoutMsDefault 5000 1000 90000 [].

Definition with_psk (p : CsaParams) (key : list Z) : CsaParams :=
  MkCsaParams key p.(allow_unauthenticated) p.(settle_ms) p.(verify_timeout_ms)
    p.(min_interval_ms) p.(ack_timeout_ms) p.(bind_release_ms) p.(allowlist).

Inductive ActionKind : Type := kNone | kRetune | kRevert.

Record CsaAction : Type := MkCsaAction {
  ac_kind : ActionKind;
  ac_chan_mhz : Z;
  ac_bw : Z;
  ac_fast : bool;
  ac_power_intent : Z
}.
Definition CsaAction_init : CsaAction := MkCsaAction kNone 0 0 false 0.

Definition CsaPacket_init : CsaPacket := MkCsaPacket (MkCommonPrefix 0 0 0) 0 0 0 0 0 0 0 0 0 0 0.

(** The stamped fields [csa_seq], [dt_to_switch_ms] and [csa_mac]. *)
Definition with_seq (p : CsaPacket) (seq : Z) : CsaPacket :=
  MkCsaPacket p.(csa_prefix) p.(csa_nonce) seq p.(csa_target_chan) p.(csa_target_bw) p.(csa_retune_class)
    p.(csa_dt_to_switch_ms) p.(csa_t_revert_ms) p.(csa_prev_chan) p.(csa_prev_bw) p.(csa_power_intent) p.(csa_mac_field).
Definition with_dt (p : CsaPacket) (dt : Z) : CsaPacket :=
  MkCsaPacket p.(csa_prefix) p.(csa_nonce) p.(csa_seq) p.(csa_target_chan) p.(csa_target_bw) p.(csa_retune_class)
    dt p.(csa_t_revert_ms) p.(csa_prev_chan) p.(csa_prev_bw) p.(csa_power_intent) p.(csa_mac_field).
Definition with_mac (p : CsaPacket) (mac : Z) : CsaPacket :=
  MkCsaPacket p.(csa_prefix) p.(csa_nonce) p.(csa_seq) p.(csa_target_chan) p.(csa_target_bw) p.(csa_retune_class)
    p.(csa_dt_to_switch_ms) p.(csa_t_revert_ms) p.(csa_prev_chan) p.(csa_prev_bw) p.(csa_power_intent) mac.

(** [mac_of]: the inner [None] is [nullopt]. *)
Definition mac_of (pkt : CsaPacket) (key : list Z) : option (option Z) :=
  '(n, out) ← encode_csa pkt (Some (replicate 32 0)) 32;
  if negb (n =? 32) then Some None
  else buf ← out; m ← csa_mac key buf; Some (Some m).

Definition mac_matches (want : option Z) (got : Z) : bool :=
  match want with Some w => w =? got | None => false end.

Definition allowed (allowlist : list Z) (chan : Z) : bool :=
  existsb (fun c => c =? chan) allowlist.

(** ** The follower *)
Inductive FollowerState : Type := fIdle | fArmed | fVerify | fCommitted.

(** One counter per exit of [on_csa]. *)
Record Refusals : Type := MkRefusals {
  no_key : Z;
  bad_mac : Z;
  issuer_lock : Z;
  nonce_replay : Z;
  not_allowlisted : Z;
  rate_limited : Z;
  beacon : Z;
  accepted : Z
}.
Definition Refusals_init : Refusals := MkRefusals 0 0 0 0 0 0 0 0.

Inductive Exit : Type :=
| eNoKey | eBadMac | eIssuerLock | eNonceReplay | eNotAllowlisted | eRateLimited | eBeacon | eAccepted.

Definition bump (r : Refusals) (e : Exit) : Refusals :=
  let inc (here : Exit) n := match here, e with
    | eNoKey, eNoKey | eBadMac, eBadMac | eIssuerLock, eIssuerLock | eNonceReplay, eNonceReplay
    | eNotAllowlisted, eNotAllowlisted | eRateLimited, eRateLimited | eBeacon, eBeacon
    | eAccepted, eAccepted => to_u32 (n + 1)
    | _, _ => n end in
  MkRefusals (inc eNoKey r.(no_key)) (inc eBadMac r.(bad_mac)) (inc eIssuerLock r.(issuer_lock))
    (inc eNonceReplay r.(nonce_replay)) (inc eNotAllowlisted r.(not_allowlisted))
    (inc eRateLimited r.(rate_limited)) (inc eBeacon r.(beacon)) (inc eAccepted r.(accepted)).

Record CsaFollower : Type := MkCsaFollower {
  cf_policy : CsaParams;
  cf_state : FollowerState;
  latched_ : option Z;
  refusals_ : Refusals;
  unauth_rejected_ : Z;
  last_applied_ : gmap (Z * Z) Z;
  last_accept_us_ : Z;
  campaign_ : CsaPacket;
  cf_switch_at_us : Z;
  cf_verify_deadline_us : Z;
  freeze_until_us_ : Z;
  last_bound_rx_us_ : Z
}.

Definition CsaFollower_init (policy : CsaParams) : CsaFollower :=
  MkCsaFollower policy fIdle None Refusals_init 0 ∅ 0 CsaPacket_init 0 0 0 0.

(** Field updates. *)
Definition set_cf_policy (c : CsaFollower) (x : CsaParams) : CsaFollower :=
  MkCsaFollower x c.(cf_state) c.(latched_) c.(refusals_) c.(unauth_rejected_) c.(last_applied_) c.(last_accept_us_) c.(campaign_) c.(cf_switch_at_us) c.(cf_verify_deadline_us) c.(freeze_until_us_) c.(last_bound_rx_us_).
Definition set_cf_state (c : CsaFollower) (x : FollowerState) : CsaFollower :=
  MkCsaFollower c.(cf_policy) x c.(latched_) c.(refusals_) c.(unauth_rejected_) c.(last_applied_) c.(last_accept_us_) c.(campaign_) c.(cf_switch_at_us) c.(cf_verify_deadline_us) c.(freeze_until_us_) c.(last_bound_rx_us_).
Definition set_latched_ (c : CsaFollower) (x : option Z) : CsaFollower :=
  MkCsaFollower c.(cf_policy) c.(cf_state) x c.(refusals_) c.(unauth_rejected_) c.(last_applied_) c.(last_accept_us_) c.(campaign_) c.(cf_switch_at_us) c.(cf_verify_deadline_us) c.(freeze_until_us_) c.(last_bound_rx_us_).
Definition set_refusals_ (c : CsaFollower) (x : Refusals) : CsaFollower :=
  MkCsaFollower c.(cf_policy) c.(cf_state) c.(latched_) x c.(unauth_rejected_) c.(last_applied_) c.(last_accept_us_) c.(campaign_) c.(cf_switch_at_us) c.(cf_verify_deadline_us) c.(freeze_until_us_) c.(last_bound_rx_us_).
Definition set_unauth_rejected_ (c : CsaFollower) (x : Z) : CsaFollower :=
  MkCsaFollower c.(cf_policy) c.(cf_state) c.(latched_) c.(refusals_) x c.(last_applied_) c.(last_accept_us_) c.(campaign_) c.(cf_switch_at_us) c.(cf_verify_deadline_us) c.(freeze_until_us_) c.(last_bound_rx_us_).
Definition set_last_applied_ (c : CsaFollower) (x : gmap (Z * Z) Z) : CsaFollower :=
  MkCsaFollower c.(cf_policy) c.(cf_state) c.(latched_) c.(refusals_) c.(unauth_rejected_) x c.(last_accept_us_) c.(campaign_) c.(cf_switch_at_us) c.(cf_verify_deadline_us) c.(freeze_until_us_) c.(last_bound_rx_us_).
Definition set_campaign_ (c : CsaFollower) (x : CsaPacket) : CsaFollower :=
  MkCsaFollower c.(cf_policy) c.(cf_state) c.(latched_) c.(refusals_) c.(unauth_rejected_) c.(last_applied_) c.(last_accept_us_) x c.(cf_switch_at_us) c.(cf_verify_deadline_us) c.(freeze_until_us_) c.(last_bound_rx_us_).
Definition set_cf_verify_deadline_us (c : CsaFollower) (x : Z) : CsaFollower :=
  MkCsaFollower c.(cf_policy) c.(cf_state) c.(latched_) c.(refusals_) c.(unauth_rejected_) c.(last_applied_) c.(last_accept_us_) c.(campaign_) c.(cf_switch_at_us) x c.(freeze_until_us_) c.(last_bound_rx_us_).
Definition set_last_bound_rx_us_ (c : CsaFollower) (x : Z) : CsaFollower :=
  MkCsaFollower c.(cf_policy) c.(cf_state) c.(latched_) c.(refusals_) c.(unauth_rejected_) c.(last_applied_) c.(last_accept_us_) c.(campaign_) c.(cf_switch_at_us) c.(cf_verify_deadline_us) c.(freeze_until_us_) x.

(** [return false] after counting the exit. *)
Definition refuse (f : CsaFollower) (e : Exit) : bool * CsaFollower :=
  (false, set_refusals_ f (bump f.(refusals_) e)).

(** The guards of [on_csa] up to the issuer lock: [inl] is an exit. *)
Definition check_key (f : CsaFollower) (pkt : CsaPacket) : option ((bool * CsaFollower) + unit) :=
  let key := f.(cf_policy).(psk) in
  if (length key =? 0)%nat then
    Some (if negb f.(cf_policy).(allow_unauthenticated)
          then inl (refuse (set_unauth_rejected_ f (to_u64 (f.(unauth_rejected_) + 1))) eNoKey)
          else inr tt)
  else
    want ← mac_of pkt key;
    Some (if negb (mac_matches want pkt.(csa_mac_field)) then inl (refuse f eBadMac) else inr tt).

(** The rendezvous beacon of the armed campaign. *)
Definition on_beacon (f : CsaFollower) (pkt : CsaPacket) (now_us : Z) : bool * CsaFollower :=
  let f := set_refusals_ f (bump f.(refusals_) eBeacon) in
  if match f.(cf_state) with fVerify => true | _ => false end
     && (pkt.(csa_prefix).(originator) =? f.(campaign_).(csa_prefix).(originator))
     && (pkt.(csa_prefix).(session_id) =? f.(campaign_).(csa_prefix).(session_id))
     && (pkt.(csa_nonce) =? f.(campaign_).(csa_nonce))
  then (false, set_last_bound_rx_us_ (set_cf_state f fCommitted) now_us)
  else (false, f).

(** The time since the copy left the air, as the same adapter's TSF tells it. *)
Definition csa_elapsed (tsf_now_us : option Z) (rx_tsfl_us dt_us : Z) : Z :=
  match tsf_now_us with
  | Some tsf =>
    let elapsed := to_u32 (to_u32 tsf - rx_tsfl_us) in
    if elapsed >? dt_us then 0 else elapsed
  | None => 0
  end.

Definition accept_csa (f : CsaFollower) (pkt : CsaPacket) (now_us : Z) (tsf_now_us : option Z)
    (rx_tsfl_us : Z) : CsaFollower :=
  let key := (pkt.(csa_prefix).(originator), pkt.(csa_prefix).(session_id)) in
  let dt_us := pkt.(csa_dt_to_switch_ms) * 1000 in
  let elapsed := csa_elapsed tsf_now_us rx_tsfl_us dt_us in
  MkCsaFollower f.(cf_policy) fArmed (Some pkt.(csa_prefix).(originator))
    (bump f.(refusals_) eAccepted) f.(unauth_rejected_)
    (<[key := pkt.(csa_nonce)]> f.(last_applied_)) now_us pkt
    (to_u64 (now_us + (if dt_us >? elapsed then dt_us - elapsed else 0)))
    f.(cf_verify_deadline_us) (to_u64 (now_us + f.(cf_policy).(settle_ms) * 1000)) now_us.

Definition on_csa (f : CsaFollower) (pkt : CsaPacket) (now_us : Z) (tsf_now_us : option Z)
    (rx_tsfl_us : Z) (latched_issuer : option Z) : option (bool * CsaFollower) :=
  guard ← check_key f pkt;
  match guard with
  | inl out => Some out
  | inr _ =>
    let lock := match latched_issuer with Some i => Some i | None => f.(latched_) end in
    if match lock with Some l => negb (l =? pkt.(csa_prefix).(originator)) | None => false end
    then Some (refuse f eIssuerLock) else
    if pkt.(csa_dt_to_switch_ms) =? 0 then Some (on_beacon f pkt now_us) else
    let key := (pkt.(csa_prefix).(originator), pkt.(csa_prefix).(session_id)) in
    if match f.(last_applied_) !! key with Some n => pkt.(csa_nonce) <=? n | None => false end
    then Some (refuse f eNonceReplay) else
    if negb (allowed f.(cf_policy).(allowlist) pkt.(csa_target_chan))
    then Some (refuse f eNotAllowlisted) else
    if negb (f.(last_accept_us_) =? 0)
       && (to_u64 (now_us - f.(last_accept_us_)) <? f.(cf_policy).(min_interval_ms) * 1000)
    then Some (refuse f eRateLimited) else
    Some (true, accept_csa f pkt now_us tsf_now_us rx_tsfl_us)
  end.

Definition note_valid_rx (f : CsaFollower) (now_us from_originator : Z) : CsaFollower :=
  let f := match f.(cf_state) with fVerify => set_cf_state f fCommitted | _ => f end in
  if match f.(latched_) with Some l => from_originator =? l | None => false end
  then set_last_bound_rx_us_ f now_us else f.

(** The verify window: the issuer may shorten it, never lengthen it. *)
Definition verify_window_ms (f : CsaFollower) : Z :=
  let vt := f.(cf_policy).(verify_timeout_ms) in
  Z.min (if negb (f.(campaign_).(csa_t_revert_ms) =? 0) then f.(campaign_).(csa_t_revert_ms) else vt) vt.

Definition follower_tick (f : CsaFollower) (now_us : Z) : CsaAction * CsaFollower :=
  match f.(cf_state) with
  | fArmed =>
    if now_us >=? f.(cf_switch_at_us) then
      (MkCsaAction kRetune f.(campaign_).(csa_target_chan) f.(campaign_).(csa_target_bw)
         (f.(campaign_).(csa_retune_class) =? 0) f.(campaign_).(csa_power_intent),
       set_cf_state (set_cf_verify_deadline_us f 0) fVerify)
    else (CsaAction_init, f)
  | fVerify =>
    let f := if f.(cf_verify_deadline_us) =? 0
             then set_cf_verify_deadline_us f (to_u64 (now_us + verify_window_ms f * 1000)) else f in
    (CsaAction_init, if now_us >=? f.(cf_verify_deadline_us) then set_cf_state f fCommitted else f)
  | fCommitted =>
    (CsaAction_init,
     if match f.(latched_) with Some _ => true | None => false end
        && (now_us >=? f.(last_bound_rx_us_))
        && (now_us - f.(last_bound_rx_us_) >? f.(cf_policy).(bind_release_ms) * 1000)
     then set_latched_ f None else f)
  | fIdle => (CsaAction_init, f)
  end.

Definition armed (f : CsaFollower) : bool := match f.(cf_state) with fArmed => true | _ => false end.
Definition campaign_active (f : CsaFollower) : bool :=
  match f.(cf_state) with fArmed | fVerify => true | _ => false end.
Definition release_binding (f : CsaFollower) : CsaFollower := set_latched_ f None.
Definition clear_campaign (f : CsaFollower) : CsaFollower :=
  set_cf_state (set_campaign_ f CsaPacket_init) fIdle.
Definition follower_set_psk (f : CsaFollower) (key : list Z) : CsaFollower :=
  clear_campaign (set_last_applied_ (set_latched_ (set_cf_policy f (with_psk f.(cf_policy) key)) None) ∅).

(** ** The issuer *)
Definition kDtToSwitchMs : Z := 5000.
Definition kCopies : Z := 5.
Definition kCopySpacingUs : Z := 20000.
Definition kCopyCutoffUs : Z := 50000.

Inductive IssuerState : Type := iIdle | iAnnounce | iAwaitAck | iVerify.

Record CsaIssuer : Type := MkCsaIssuer {
  ci_policy : CsaParams;
  ci_state : IssuerState;
  next_nonce_ : Z;
  last_campaign_us_ : Z;
  prefix_ : CommonPrefix;
  tmpl_ : CsaPacket;
  copies_left_ : Z;
  next_copy_us_ : Z;
  started_us_ : Z;
  switch_at_us_ : Z;
  verify_deadline_us_ : Z;
  next_beacon_us_ : Z;
  armed_seen_ : bool;
  video_seen_ : bool;
  landing_seen_ : bool
}.

Definition CsaIssuer_init (policy : CsaParams) : CsaIssuer :=
  MkCsaIssuer policy iIdle 1 0 (MkCommonPrefix 0 0 0) CsaPacket_init 0 0 0 0 0 0 false false false.

(** Field updates. *)
Definition put_ci_policy (c : CsaIssuer) (x : CsaParams) : CsaIssuer :=
  MkCsaIssuer x c.(ci_state) c.(next_nonce_) c.(last_campaign_us_) c.(prefix_) c.(tmpl_) c.(copies_left_) c.(next_copy_us_) c.(started_us_) c.(switch_at_us_) c.(verify_deadline_us_) c.(next_beacon_us_) c.(armed_seen_) c.(video_seen_) c.(landing_seen_).
Definition put_ci_state (c : CsaIssuer) (x : IssuerState) : CsaIssuer :=
  MkCsaIssuer c.(ci_policy) x c.(next_nonce_) c.(last_campaign_us_) c.(prefix_) c.(tmpl_) c.(copies_left_) c.(next_copy_us_) c.(started_us_) c.(switch_at_us_) c.(verify_deadline_us_) c.(next_beacon_us_) c.(armed_seen_) c.(video_seen_) c.(landing_seen_).
Definition put_copies_left_ (c : CsaIssuer) (x : Z) : CsaIssuer :=
  MkCsaIssuer c.(ci_policy) c.(ci_state) c.(next_nonce_) c.(last_campaign_us_) c.(prefix_) c.(tmpl_) x c.(next_copy_us_) c.(started_us_) c.(switch_at_us_) c.(verify_deadline_us_) c.(next_beacon_us_) c.(armed_seen_) c.(video_seen_) c.(landing_seen_).
Definition put_next_copy_us_ (c : CsaIssuer) (x : Z) : CsaIssuer :=
  MkCsaIssuer c.(ci_policy) c.(ci_state) c.(next_nonce_) c.(last_campaign_us_) c.(prefix_) c.(tmpl_) c.(copies_left_) x c.(started_us_) c.(switch_at_us_) c.(verify_deadline_us_) c.(next_beacon_us_) c.(armed_seen_) c.(video_seen_) c.(landing_seen_).
Definition put_verify_deadline_us_ (c : CsaIssuer) (x : Z) : CsaIssuer :=
  MkCsaIssuer c.(ci_policy) c.(ci_state) c.(next_nonce_) c.(last_campaign_us_) c.(prefix_) c.(tmpl_) c.(copies_left_) c.(next_copy_us_) c.(started_us_) c.(switch_at_us_) x c.(next_beacon_us_) c.(armed_seen_) c.(video_seen_) c.(landing_seen_).
Definition put_next_beacon_us_ (c : CsaIssuer) (x : Z) : CsaIssuer :=
  MkCsaIssuer c.(ci_policy) c.(ci_state) c.(next_nonce_) c.(last_campaign_us_) c.(prefix_) c.(tmpl_) c.(copies_left_) c.(next_copy_us_) c.(started_us_) c.(switch_at_us_) c.(verify_deadline_us_) x c.(armed_seen_) c.(video_seen_) c.(landing_seen_).
Definition put_armed_seen_ (c : CsaIssuer) (x : bool) : CsaIssuer :=
  MkCsaIssuer c.(ci_policy) c.(ci_state) c.(next_nonce_) c.(last_campaign_us_) c.(prefix_) c.(tmpl_) c.(copies_left_) c.(next_copy_us_) c.(started_us_) c.(switch_at_us_) c.(verify_deadline_us_) c.(next_beacon_us_) x c.(video_seen_) c.(landing_seen_).
Definition put_video_seen_ (c : CsaIssuer) (x : bool) : CsaIssuer :=
  MkCsaIssuer c.(ci_policy) c.(ci_state) c.(next_nonce_) c.(last_campaign_us_) c.(prefix_) c.(tmpl_) c.(copies_left_) c.(next_copy_us_) c.(started_us_) c.(switch_at_us_) c.(verify_deadline_us_) c.(next_beacon_us_) c.(armed_seen_) x c.(landing_seen_).
Definition put_landing_seen_ (c : CsaIssuer) (x : bool) : CsaIssuer :=
  MkCsaIssuer c.(ci_policy) c.(ci_state) c.(next_nonce_) c.(last_campaign_us_) c.(prefix_) c.(tmpl_) c.(copies_left_) c.(next_copy_us_) c.(started_us_) c.(switch_at_us_) c.(verify_deadline_us_) c.(next_beacon_us_) c.(armed_seen_) c.(video_seen_) x.

Definition active (i : CsaIssuer) : bool := match i.(ci_state) with iIdle => false | _ => true end.

Definition issuer_set_psk (i : CsaIssuer) (key : list Z) : bool * CsaIssuer :=
  if active i then (false, i) else (true, put_ci_policy i (with_psk i.(ci_policy) key)).

Definition start (i : CsaIssuer) (prefix : CommonPrefix)
    (target_chan_mhz target_bw retune_class prev_chan_mhz prev_bw power_intent now_us : Z) : bool * CsaIssuer :=
  let p := i.(ci_policy) in
  if active i || (length p.(psk) =? 0)%nat then (false, i) else
  if negb (allowed p.(allowlist) target_chan_mhz) then (false, i) else
  if negb (i.(last_campaign_us_) =? 0)
     && (to_u64 (now_us - i.(last_campaign_us_)) <? p.(min_interval_ms) * 1000)
  then (false, i) else
  let tmpl := MkCsaPacket prefix i.(next_nonce_) 0 target_chan_mhz target_bw retune_class 0
                (to_u16 p.(verify_timeout_ms)) prev_chan_mhz prev_bw power_intent 0 in
  (true, MkCsaIssuer p iAnnounce (to_u32 (i.(next_nonce_) + 1)) now_us prefix tmpl kCopies now_us now_us
           (to_u64 (now_us + kDtToSwitchMs * 1000)) i.(verify_deadline_us_) i.(next_beacon_us_)
           false false false).

Definition note_craft_armed (i : CsaIssuer) : CsaIssuer :=
  match i.(ci_state) with iAnnounce | iAwaitAck => put_armed_seen_ i true | _ => i end.

(** The MAC of a packet, or the packet as it is when it cannot be encoded. *)
Definition stamp_mac (i : CsaIssuer) (pkt : CsaPacket) : option CsaPacket :=
  m ← mac_of pkt i.(ci_policy).(psk);
  Some (match m with Some mac => with_mac pkt mac | None => pkt end).

Definition stamp_copy (i : CsaIssuer) (pkt : CsaPacket) (now_us : Z) : option CsaPacket :=
  let left_us := if i.(switch_at_us_) >? now_us then i.(switch_at_us_) - now_us else 1000 in
  stamp_mac i (with_dt pkt (to_u16 (if left_us / 1000 =? 0 then 1 else left_us / 1000))).

(** [switch_at_us_ <= now_us + kCopyCutoffUs]: too late for a copy. *)
Definition past_cutoff (i : CsaIssuer) (now_us : Z) : bool :=
  i.(switch_at_us_) <=? to_u64 (now_us + kCopyCutoffUs).

Definition restamp_copy (i : CsaIssuer) (pkt : CsaPacket) (now_us : Z) : option (bool * CsaPacket) :=
  if past_cutoff i now_us then Some (false, pkt) else
  if negb (active i) || negb (pkt.(csa_nonce) =? i.(tmpl_).(csa_nonce)) then Some (false, pkt) else
  pkt ← stamp_copy i pkt now_us; Some (true, pkt).

Definition note_craft_video (i : CsaIssuer) (now_us : Z) (craft_armed : bool) : CsaIssuer :=
  let verifying := match i.(ci_state) with iVerify => true | _ => false end in
  if craft_armed then
    if verifying && (now_us >=? i.(switch_at_us_)) && negb i.(landing_seen_)
    then put_verify_deadline_us_ (put_landing_seen_ i true)
           (to_u64 (now_us + i.(ci_policy).(verify_timeout_ms) * 1000))
    else i
  else if verifying && (now_us >=? i.(switch_at_us_)) then put_video_seen_ i true else i.

Definition note_commit_failed (i : CsaIssuer) : CsaIssuer :=
  match i.(ci_state) with iVerify => put_ci_state i iIdle | _ => i end.

(** [IssuerAction]; the channel fields of [kCommit] and of the last
    [kSuccess] are the campaign's target. *)
Inductive IssuerAction : Type :=
| iaNone
| iaSendCopy (pkt : CsaPacket)
| iaCommit (chan_mhz bw : Z) (fast : bool) (power_intent : Z)
| iaSendBeacon (pkt : CsaPacket)
| iaSuccess (chan_mhz bw : Z) (fast : bool) (power_intent : Z)
| iaRevert (chan_mhz bw : Z)
| iaAbort.

Definition tick_announce (i : CsaIssuer) (now_us : Z) : option (IssuerAction * CsaIssuer) :=
  '(a, i) ←
    (if (now_us >=? i.(next_copy_us_)) && negb (past_cutoff i now_us) then
       pkt ← stamp_copy i (with_seq i.(tmpl_) i.(copies_left_)) now_us;
       let left := to_u8 (i.(copies_left_) - 1) in
       let i := put_copies_left_ (put_next_copy_us_ i (to_u64 (now_us + kCopySpacingUs))) left in
       Some (iaSendCopy pkt, if left =? 0 then put_ci_state i iAwaitAck else i)
     else Some (iaNone, i));
  Some (a, if match i.(ci_state) with iAnnounce => true | _ => false end && past_cutoff i now_us
           then put_ci_state i iAwaitAck else i).

Definition tick_await_ack (i : CsaIssuer) (now_us : Z) : option (IssuerAction * CsaIssuer) :=
  if negb i.(armed_seen_) && negb (past_cutoff i now_us) && (now_us >=? i.(next_copy_us_)) then
    pkt ← stamp_copy i (with_seq i.(tmpl_) 0) now_us;
    Some (iaSendCopy pkt, put_next_copy_us_ i (to_u64 (now_us + kCopySpacingUs)))
  else if i.(armed_seen_) then
    Some (iaCommit i.(tmpl_).(csa_target_chan) i.(tmpl_).(csa_target_bw)
            (i.(tmpl_).(csa_retune_class) =? 0) i.(tmpl_).(csa_power_intent),
          put_ci_state (put_verify_deadline_us_ i 0) iVerify)
  else if now_us >=? i.(switch_at_us_) then Some (iaAbort, put_ci_state i iIdle)
  else Some (iaNone, i).

Definition tick_verify (i : CsaIssuer) (now_us : Z) : option (IssuerAction * CsaIssuer) :=
  let i := if i.(verify_deadline_us_) =? 0 then
      put_next_beacon_us_ (put_verify_deadline_us_ i
        (to_u64 ((if now_us >? i.(switch_at_us_) then now_us else i.(switch_at_us_))
                 + i.(ci_policy).(verify_timeout_ms) * 1000))) now_us
    else i in
  if now_us >=? i.(verify_deadline_us_) then
    Some (if i.(video_seen_) then iaSuccess 0 0 false 0
          else iaSuccess i.(tmpl_).(csa_target_chan) i.(tmpl_).(csa_target_bw)
                 (i.(tmpl_).(csa_retune_class) =? 0) i.(tmpl_).(csa_power_intent),
          put_ci_state i iIdle)
  else if now_us >=? i.(next_beacon_us_) then
    pkt ← stamp_mac i (with_dt (with_seq i.(tmpl_) 0) 0);
    Some (iaSendBeacon pkt, put_next_beacon_us_ i (to_u64 (now_us + kCopySpacingUs)))
  else Some (iaNone, i).

Definition issuer_tick (i : CsaIssuer) (now_us : Z) : option (IssuerAction * CsaIssuer) :=
  match i.(ci_state) with
  | iAnnounce => tick_announce i now_us
  | iAwaitAck => tick_await_ack i now_us
  | iVerify => tick_verify i now_us
  | iIdle => Some (iaNone, i)
  end.

(** [evidence], as armed, landing and video seen. *)
Record Evidence : Type := MkEvidence { ev_armed_seen : bool; ev_landing_seen : bool; ev_video_seen : bool }.
Definition evidence (i : CsaIssuer) : Evidence :=
  MkEvidence i.(armed_seen_) i.(landing_seen_) i.(video_seen_).
