(* ===== verification/CsaProps.v ===== *)
(** * Properties of the channel switch engines

    What the follower accepts and when it retunes; the bounds and the end of a
    campaign of the issuer; and the agreement of both on the instant. *)
From stdpp Require Import gmap sorting.
From S2P Require Import Prelude Types Wire WireLayout WireFacts Sha256 Sha256Props Replay Csa.
(** The MAC of a campaign packet: HMAC over its first 28 bytes. *)
Definition packet_mac (pkt : CsaPacket) (key : list Z) : Z :=
  tag32 (hmac_ref key (take 28 (layout (PCsa pkt)))).

Lemma csa_mac_of_spec pkt key : mac_of pkt key = Some (Some (packet_mac pkt key)).
Proof.
  unfold mac_of. pose proof (encode_csa_spec (replicate 32 0) 32 pkt) as H.
  red in H. cbn [encode_packet packet_size] in H. rewrite H by (rewrite length_replicate; lia).
  cbn [packet_valid andb]. unfold kCsaSize. cbn [Z.leb Z.compare Pos.compare Pos.compare_cont mbind option_bind].
  rewrite Z.eqb_refl. cbn [negb].
  unfold csa_mac, slice.
  assert (Hl : length (layout (PCsa pkt)) = 32%nat) by reflexivity.
  rewrite length_app, Hl, length_drop, length_replicate. cbn [Nat.leb Nat.add Nat.sub]. rewrite drop_0.
  rewrite take_app_le by (rewrite Hl; lia). cbn [mbind option_bind].
  by rewrite hmac_sha256_spec.
Qed.

Lemma packet_mac_field pkt key mac : packet_mac (with_mac pkt mac) key = packet_mac pkt key.
Proof.
  unfold packet_mac.
  assert (H : take 28 (layout (PCsa (with_mac pkt mac))) = take 28 (layout (PCsa pkt))) by reflexivity.
  by rewrite H.
Qed.

Definition pkt_key (pkt : CsaPacket) : Z * Z :=
  (pkt.(csa_prefix).(originator), pkt.(csa_prefix).(session_id)).

(** The key admits the packet: authentic, or the node is an unauthenticated
    spectator with no key. *)
Definition admitted (p : CsaParams) (pkt : CsaPacket) : Prop :=
  if (length p.(psk) =? 0)%nat then p.(allow_unauthenticated) = true
  else pkt.(csa_mac_field) = packet_mac pkt p.(psk).

(** The command source the packet must come from, if any. *)
Definition lock_of (f : CsaFollower) (latched_issuer : option Z) : option Z :=
  match latched_issuer with Some i => Some i | None => f.(latched_) end.

(** A campaign copy the follower must accept. *)
Definition acceptable (f : CsaFollower) (pkt : CsaPacket) (now : Z) (latched_issuer : option Z) : Prop :=
  admitted f.(cf_policy) pkt /\
  (forall l, lock_of f latched_issuer = Some l -> l = pkt.(csa_prefix).(originator)) /\
  pkt.(csa_dt_to_switch_ms) <> 0 /\
  (forall n, f.(last_applied_) !! pkt_key pkt = Some n -> n < pkt.(csa_nonce)) /\
  pkt.(csa_target_chan) ∈ f.(cf_policy).(allowlist) /\
  (f.(last_accept_us_) = 0 \/
   f.(cf_policy).(min_interval_ms) * 1000 <= to_u64 (now - f.(last_accept_us_))).

Lemma allowed_spec l c : allowed l c = true <-> c ∈ l.
Proof.
  unfold allowed. rewrite existsb_exists. setoid_rewrite list_elem_of_In. split.
  - intros (x & Hx & E). apply Z.eqb_eq in E. by subst.
  - intros H. exists c. by rewrite Z.eqb_refl.
Qed.

(** What a rejected packet may change: the counters, and the state only from
    verify to committed (a beacon). *)
Definition keeps (f f' : CsaFollower) : Prop :=
  f'.(cf_policy) = f.(cf_policy) /\ f'.(last_applied_) = f.(last_applied_) /\
  f'.(last_accept_us_) = f.(last_accept_us_) /\ f'.(campaign_) = f.(campaign_) /\
  f'.(latched_) = f.(latched_) /\ f'.(cf_switch_at_us) = f.(cf_switch_at_us) /\
  (f'.(cf_state) = f.(cf_state) \/ f.(cf_state) = fVerify /\ f'.(cf_state) = fCommitted).

(** What a call may answer: one counted exit; true exactly for an acceptable
    packet, with the state [accept_csa] describes. *)
Definition csa_outcome (f : CsaFollower) pkt now tsf rx latched (out : bool * CsaFollower) : Prop :=
  exists r f' e, Some out = Some (r, f') /\ f'.(refusals_) = bump f.(refusals_) e /\
    ((r = true /\ e = eAccepted /\ acceptable f pkt now latched /\ f' = accept_csa f pkt now tsf rx) \/
     (r = false /\ e <> eAccepted /\ ~ acceptable f pkt now latched /\ keeps f f')).

Section Exits.
Context (f : CsaFollower) (pkt : CsaPacket) (now : Z) (tsf : option Z) (rx : Z) (latched : option Z).

Lemma refused_outcome f' e :
  f'.(refusals_) = bump f.(refusals_) e -> keeps f f' -> e <> eAccepted ->
  ~ acceptable f pkt now latched -> csa_outcome f pkt now tsf rx latched (false, f').
Proof. intros E K He Hn. exists false, f', e. split; [done|]. split; [done|]. by right. Qed.

Lemma exit_outcome e :
  e <> eAccepted -> ~ acceptable f pkt now latched -> csa_outcome f pkt now tsf rx latched (refuse f e).
Proof. intros He Hn. apply (refused_outcome _ e); [done|unfold keeps; cbn; auto 10|done|done]. Qed.

Lemma check_key_cases :
  exists g, check_key f pkt = Some g /\
    match g with
    | inl out => csa_outcome f pkt now tsf rx latched out
    | inr _ => admitted f.(cf_policy) pkt
    end.
Proof.
  unfold check_key, admitted. destruct (Nat.eqb_spec (length (psk (cf_policy f))) 0) as [E0|E0].
  - eexists. split; [reflexivity|]. destruct (allow_unauthenticated (cf_policy f)) eqn:Ea; [done|]. cbn [negb].
    apply (refused_outcome _ eNoKey); [done|unfold keeps; cbn; auto 10|done|].
    unfold acceptable, admitted. rewrite E0. cbn. intros (? & _). congruence.
  - rewrite csa_mac_of_spec. eexists. split; [reflexivity|]. cbn [mac_matches].
    destruct (Z.eqb_spec (packet_mac pkt (psk (cf_policy f))) (csa_mac_field pkt)) as [Em|Em]; [done|].
    apply exit_outcome; [done|]. unfold acceptable, admitted. apply Nat.eqb_neq in E0. rewrite E0.
    intros (? & _). congruence.
Qed.

Lemma on_beacon_outcome :
  csa_dt_to_switch_ms pkt = 0 -> csa_outcome f pkt now tsf rx latched (on_beacon f pkt now).
Proof.
  intros Hd. assert (Hn : ~ acceptable f pkt now latched) by (intros (_ & _ & ? & _); lia).
  unfold on_beacon. destruct (_ && _) eqn:Hb; (apply (refused_outcome _ eBeacon); [done| |done|done]);
    unfold keeps; cbn; [|by auto 10].
  bool_hyps. cbn in *. destruct (cf_state f) eqn:Es; try done. split_and!; try done. by right.
Qed.

(** [on_csa] leaves through exactly one counted exit, and accepts exactly the
    acceptable packets. *)
Lemma on_csa_cases :
  exists out, on_csa f pkt now tsf rx latched = Some out /\ csa_outcome f pkt now tsf rx latched out.
Proof.
  unfold on_csa. destruct check_key_cases as (g & -> & Hg). cbn [mbind option_bind].
  destruct g as [out|_]; [by exists out|].
  fold (lock_of f latched). fold (pkt_key pkt).
  destruct (match lock_of f latched with Some l => _ | None => _ end) eqn:Hl.
  { eexists. split; [done|]. apply exit_outcome; [done|]. intros (_ & Hlk & _).
    destruct (lock_of f latched) as [l|]; [|done]. by rewrite (Hlk l eq_refl), Z.eqb_refl in Hl. }
  destruct (Z.eqb_spec (csa_dt_to_switch_ms pkt) 0) as [Hd|Hd].
  { eexists. split; [done|]. by apply on_beacon_outcome. }
  destruct (match last_applied_ f !! pkt_key pkt with Some n => _ | None => _ end) eqn:Hn.
  { eexists. split; [done|]. apply exit_outcome; [done|]. intros (_ & _ & _ & Hnn & _).
    destruct (last_applied_ f !! pkt_key pkt) as [n|]; [|done]. specialize (Hnn n eq_refl). bool_hyps. lia. }
  destruct (allowed (allowlist (cf_policy f)) (csa_target_chan pkt)) eqn:Ha; cbn [negb].
  2:{ eexists. split; [done|]. apply exit_outcome; [done|]. intros (_ & _ & _ & _ & Hal & _).
      apply allowed_spec in Hal. congruence. }
  destruct (negb (last_accept_us_ f =? 0) && _) eqn:Hr.
  { eexists. split; [done|]. apply exit_outcome; [done|]. intros (_ & _ & _ & _ & _ & Hsp). bool_hyps. lia. }
  eexists. split; [done|]. exists true, (accept_csa f pkt now tsf rx), eAccepted. split; [done|]. split; [done|]. left.
  split; [done|]. split; [done|]. split; [|done]. split; [exact Hg|]. split.
  { intros l El. rewrite El in Hl. bool_hyps. done. }
  split; [exact Hd|]. split.
  { intros n En. rewrite En in Hn. bool_hyps. lia. }
  split; [by apply allowed_spec|]. apply andb_false_iff in Hr as [Hr|Hr]; bool_hyps; auto.
Qed.
End Exits.

(** ** Runs of the follower *)
Inductive FollowerEvent : Type :=
| FeCsa (pkt : CsaPacket) (now_us : Z) (tsf_now_us : option Z) (rx_tsfl_us : Z) (latched_issuer : option Z)
| FeValidRx (now_us from : Z)
| FeTick (now_us : Z)
| FeRelease
| FeClear.

(** The engine, the accepted packets with their times, and the retunes asked. *)
Definition follower_run_state : Type := (CsaFollower * list (CsaPacket * Z) * list CsaAction)%type.

Definition follower_step (st : follower_run_state) (ev : FollowerEvent) : option follower_run_state :=
  let '(f, log, acts) := st in
  match ev with
  | FeCsa pkt now tsf rx latched =>
    '(r, f) ← on_csa f pkt now tsf rx latched;
    Some (f, if (r : bool) then log ++ [(pkt, now)] else log, acts)
  | FeValidRx now from => Some (note_valid_rx f now from, log, acts)
  | FeTick now =>
    let '(a, f) := follower_tick f now in
    Some (f, log, match a.(ac_kind) with kNone => acts | _ => acts ++ [a] end)
  | FeRelease => Some (release_binding f, log, acts)
  | FeClear => Some (clear_campaign f, log, acts)
  end.

Fixpoint follower_run (st : follower_run_state) (evs : list FollowerEvent) : option follower_run_state :=
  match evs with
  | [] => Some st
  | ev :: evs => st ← follower_step st ev; follower_run st evs
  end.

(** An accepted campaign the policy allows. *)
Definition campaign_ok (p : CsaParams) (a : CsaPacket * Z) : Prop :=
  admitted p a.1 /\ a.1.(csa_dt_to_switch_ms) <> 0 /\ a.1.(csa_target_chan) ∈ p.(allowlist).

Definition csa_log_key (a : CsaPacket * Z) : Z * Z := pkt_key a.1.
Definition csa_log_nonce (a : CsaPacket * Z) : Z := a.1.(csa_nonce).
Definition csa_log_time (a : CsaPacket * Z) : Z := a.2.

(** The retune a campaign asks for. *)
Definition retune_of (pkt : CsaPacket) : CsaAction :=
  MkCsaAction kRetune pkt.(csa_target_chan) pkt.(csa_target_bw) (pkt.(csa_retune_class) =? 0) pkt.(csa_power_intent).

(** Retunes follow the accepted campaigns: a subsequence of them, in order. *)
Record follower_inv (p : CsaParams) (f : CsaFollower) (log : list (CsaPacket * Z)) (acts : list CsaAction) : Prop := {
  fi_policy : f.(cf_policy) = p;
  fi_ok : Forall (campaign_ok p) log;
  fi_replay : replay_inv csa_log_key csa_log_nonce csa_log_time (fun k => f.(last_applied_) !! k)
                f.(last_accept_us_) (p.(min_interval_ms) * 1000) log;
  fi_acts : exists fin pend : list (CsaPacket * Z), log = fin ++ pend /\
    sublist acts (map (fun a => retune_of a.1) fin) /\
    (f.(cf_state) = fArmed -> exists a, pend = [a] /\ f.(campaign_) = a.1)
}.

Lemma follower_inv_init p : follower_inv p (CsaFollower_init p) [] [].
Proof.
  split; [done|constructor|apply replay_nil|]. exists [], []. split; [done|]. split; [constructor|done].
Qed.

(** A step that keeps the nonces and the anchor, and arms nothing. *)
Lemma follower_inv_keeps p f f' log acts :
  follower_inv p f log acts -> f'.(cf_policy) = f.(cf_policy) -> f'.(last_applied_) = f.(last_applied_) ->
  f'.(last_accept_us_) = f.(last_accept_us_) ->
  (f'.(cf_state) = fArmed -> f.(cf_state) = fArmed /\ f'.(campaign_) = f.(campaign_)) ->
  follower_inv p f' log acts.
Proof.
  intros [I1 I2 I3 (fin & pend & El & Hs & Ha)] E1 E2 E3 E4. split; [congruence|done| |].
  - rewrite E2, E3. done.
  - exists fin, pend. split; [done|]. split; [done|]. intros H. destruct (E4 H) as [H1 H2].
    rewrite H2. by apply Ha.
Qed.

Lemma follower_inv_accept p f pkt now tsf rx latched log acts :
  follower_inv p f log acts -> acceptable f pkt now latched ->
  follower_inv p (accept_csa f pkt now tsf rx) (log ++ [(pkt, now)]) acts.
Proof.
  intros [I1 I2 I3 (fin & pend & El & Hs & Ha)] (A1 & A2 & A3 & A4 & A5 & A6). subst p.
  split; [done| | |].
  - apply Forall_app. split; [done|]. by repeat constructor.
  - refine (replay_accept csa_log_key csa_log_nonce csa_log_time _ _ _ _ _ (pkt, now) I3 A4 A6 _ _); cbn.
    + by rewrite lookup_insert_eq.
    + intros k Hk. by rewrite lookup_insert_ne.
  - exists log, [(pkt, now)]. split; [done|]. split; [|intros _; by exists (pkt, now)].
    etransitivity; [exact Hs|]. rewrite El, map_app. apply sublist_inserts_r. done.
Qed.

(** [tick] asks for a retune only when armed, and only to the campaign's target. *)
Lemma follower_tick_cases f now :
  let '(a, f') := follower_tick f now in
  f'.(cf_policy) = f.(cf_policy) /\ f'.(last_applied_) = f.(last_applied_) /\
  f'.(last_accept_us_) = f.(last_accept_us_) /\ f'.(campaign_) = f.(campaign_) /\
  (a.(ac_kind) = kNone /\ (f'.(cf_state) = fArmed -> f.(cf_state) = fArmed) \/
   f.(cf_state) = fArmed /\ a = retune_of f.(campaign_) /\ f'.(cf_state) = fVerify).
Proof.
  unfold follower_tick. destruct (cf_state f) eqn:Es.
  - cbn. split_and!; try done. left. split; congruence.
  - destruct (now >=? cf_switch_at_us f); cbn; (split_and!; try done); [by right|left; auto].
  - set (f1 := if cf_verify_deadline_us f =? 0 then _ else f).
    assert (H : cf_policy f1 = cf_policy f /\ last_applied_ f1 = last_applied_ f /\
      last_accept_us_ f1 = last_accept_us_ f /\ campaign_ f1 = campaign_ f /\ cf_state f1 = fVerify).
    { unfold f1. by destruct (_ =? 0). }
    destruct H as (E1 & E2 & E3 & E4 & E5).
    destruct (now >=? cf_verify_deadline_us f1); cbn; (split_and!; try done); left; split; congruence.
  - destruct (_ && _ && _); cbn; (split_and!; try done); left; split; congruence.
Qed.

Lemma follower_step_inv p f log acts ev :
  follower_inv p f log acts ->
  exists f' log' acts', follower_step (f, log, acts) ev = Some (f', log', acts') /\ follower_inv p f' log' acts'.
Proof.
  intros Hi. destruct ev as [pkt now tsf rx latched|now from|now| |]; cbn [follower_step].
  - destruct (on_csa_cases f pkt now tsf rx latched) as (out & -> & r & f' & e & E & _ & H). apply (inj Some) in E.
    subst out. cbn [mbind option_bind]. eexists _, _, _. split; [reflexivity|].
    destruct H as [(-> & _ & Ha & ->)|(-> & _ & _ & K)].
    + by eapply follower_inv_accept.
    + destruct K as (K1 & K2 & K3 & K4 & _ & _ & K5). apply (follower_inv_keeps p f); try done.
      intros H. destruct K5 as [K5|[_ K5]]; [|congruence]. split; congruence.
  - eexists _, _, _. split; [reflexivity|]. unfold note_valid_rx.
    destruct (cf_state f) eqn:Es; destruct (match latched_ _ with Some _ => _ | None => _ end);
      (apply (follower_inv_keeps p f); [exact Hi|done|done|done|]; cbn; rewrite ?Es; intros; split; congruence).
  - pose proof (follower_tick_cases f now) as H. destruct (follower_tick f now) as [a f'].
    destruct H as (E1 & E2 & E3 & E4 & [(En & Es)|(Es & -> & Es')]); eexists _, _, _; (split; [reflexivity|]).
    + rewrite En. apply (follower_inv_keeps p f); auto.
    + cbn [retune_of ac_kind]. destruct Hi as [I1 I2 I3 (fin & pend & El & Hs & Ha)].
      split; [congruence|done|by rewrite E2, E3|].
      destruct (Ha Es) as (x & -> & Ex). exists log, []. split; [by rewrite app_nil_r|]. split; [|congruence].
      rewrite El, map_app, Ex. cbn. by apply sublist_app.
  - eexists _, _, _. split; [reflexivity|]. by apply (follower_inv_keeps p f).
  - eexists _, _, _. split; [reflexivity|]. by apply (follower_inv_keeps p f).
Qed.

Lemma follower_run_inv p evs : forall f log acts,
  follower_inv p f log acts ->
  exists f' log' acts', follower_run (f, log, acts) evs = Some (f', log', acts') /\ follower_inv p f' log' acts'.
Proof.
  induction evs as [|ev evs IH]; intros f log acts Hi; cbn [follower_run]; [by eexists _, _, _|].
  destruct (follower_step_inv p f log acts ev Hi) as (f1 & log1 & acts1 & -> & H1).
  cbn [mbind option_bind]. by apply IH.
Qed.

(** C14. Over any sequence of received copies, traffic, ticks, releases and
    local retunes, the follower returns; every campaign it accepted passed the
    key, was not a beacon and targets an allowlisted channel; per issuer session
    the accepted nonces strictly increase and acceptances respect the rate
    limit; and the retunes it asks for are the targets of accepted campaigns,
    at most one each and in order - it never asks for a revert. *)
Theorem csa_follower_sound policy evs :
  exists f log acts, follower_run (CsaFollower_init policy, [], []) evs = Some (f, log, acts) /\
    Forall (campaign_ok policy) log /\
    (forall k, StronglySorted Z.lt (nonces_of csa_log_key csa_log_nonce k log)) /\
    rate_ok csa_log_time (policy.(min_interval_ms) * 1000) 0 log /\
    sublist acts (map (fun a => retune_of a.1) log).
Proof.
  destruct (follower_run_inv policy evs _ _ _ (follower_inv_init policy)) as (f & log & acts & E & [_ H1 [] (fin & pend & El & Hs & _)]).
  exists f, log, acts. split_and!; try done. rewrite El, map_app. by apply sublist_inserts_r.
Qed.

(** [on_csa] leaves through exactly one exit, each of which bumps its own
    counter; it answers true exactly for an acceptable packet, and a refused
    packet leaves the campaign, the binding and the anti-replay state alone (a
    beacon may confirm a pending verify). *)
Theorem on_csa_exits f pkt now tsf rx latched :
  exists r f' e, on_csa f pkt now tsf rx latched = Some (r, f') /\ f'.(refusals_) = bump f.(refusals_) e /\
    (r = true <-> acceptable f pkt now latched) /\ (r = true <-> e = eAccepted) /\
    (r = true -> f' = accept_csa f pkt now tsf rx) /\ (r = false -> keeps f f').
Proof.
  destruct (on_csa_cases f pkt now tsf rx latched) as (out & -> & r & f' & e & E & Hb & H). apply (inj Some) in E.
  subst out. exists r, f', e. split; [done|]. split; [done|].
  destruct H as [(-> & -> & Ha & Hf)|(-> & He & Hn & Hk)]; by split_and!.
Qed.

(** ** Stamping *)

(** A copy of template [t] for the campaign switching at [T], stamped at [now]. *)
Definition stamped (key : list Z) (t : CsaPacket) (seq dt : Z) : CsaPacket :=
  let p := with_dt (with_seq t seq) dt in with_mac p (packet_mac p key).

Lemma stamp_mac_spec i pkt :
  stamp_mac i pkt = Some (with_mac pkt (packet_mac pkt i.(ci_policy).(psk))).
Proof. unfold stamp_mac. by rewrite csa_mac_of_spec. Qed.

(** The remaining time of a copy, in whole milliseconds, at least one. *)
Definition dt_of (T now : Z) : Z := Z.max 1 ((T - now) / 1000).

Lemma stamp_copy_spec i pkt now :
  now < i.(switch_at_us_) -> i.(switch_at_us_) - now < 65536000 ->
  stamp_copy i pkt now =
  let p := with_dt pkt (dt_of i.(switch_at_us_) now) in
  Some (with_mac p (packet_mac p i.(ci_policy).(psk))).
Proof.
  intros Hlt Hb. unfold stamp_copy, dt_of. rewrite stamp_mac_spec.
  destruct (Z.gtb_spec (switch_at_us_ i) now); [|lia].
  set (q := (switch_at_us_ i - now) / 1000).
  assert (Hq : 0 <= q < 65536).
  { unfold q. split; [apply Z.div_pos; lia|]. apply Z.div_lt_upper_bound; lia. }
  assert (E : to_u16 (if q =? 0 then 1 else q) = Z.max 1 q).
  { destruct (Z.eqb_spec q 0); rewrite to_u16_id by (unfold u16; lia); lia. }
  by rewrite E.
Qed.

(** ** Runs of the issuer *)
Inductive IssuerEvent : Type :=
| IeTick (now_us : Z)
| IeArmed
| IeVideo (now_us : Z) (craft_armed : bool)
| IeCommitFailed.

Definition ev_time (ev : IssuerEvent) : Z :=
  match ev with IeTick t => t | IeVideo t _ => t | _ => 0 end.

Definition issuer_step (i : CsaIssuer) (ev : IssuerEvent) : option (IssuerAction * CsaIssuer) :=
  match ev with
  | IeTick now => issuer_tick i now
  | IeArmed => Some (iaNone, note_craft_armed i)
  | IeVideo now armed => Some (iaNone, note_craft_video i now armed)
  | IeCommitFailed => Some (iaNone, note_commit_failed i)
  end.

Fixpoint issuer_run (i : CsaIssuer) (evs : list IssuerEvent) : option (list IssuerAction * CsaIssuer) :=
  match evs with
  | [] => Some ([], i)
  | ev :: evs => '(a, i) ← issuer_step i ev; '(acts, i) ← issuer_run i evs; Some (a :: acts, i)
  end.

Definition is_copy (a : IssuerAction) : bool := match a with iaSendCopy _ => true | _ => false end.
Definition is_commit (a : IssuerAction) : bool := match a with iaCommit _ _ _ _ => true | _ => false end.
Definition count (f : IssuerAction -> bool) (acts : list IssuerAction) : Z := len (List.filter f acts).

(** What one campaign may put on the air or ask of its radios. *)
Definition action_ok (key : list Z) (t : CsaPacket) (a : IssuerAction) : Prop :=
  match a with
  | iaNone | iaAbort => True
  | iaSendCopy pkt => exists seq dt, pkt = stamped key t seq dt /\ 1 <= dt <= kDtToSwitchMs
  | iaSendBeacon pkt => pkt = stamped key t 0 0
  | iaCommit chan bw fast pw =>
    chan = t.(csa_target_chan) /\ bw = t.(csa_target_bw) /\ fast = (t.(csa_retune_class) =? 0) /\
    pw = t.(csa_power_intent)
  | iaSuccess chan _ _ _ => chan = 0 \/ chan = t.(csa_target_chan)
  | iaRevert _ _ => False
  end.

(** Copies the window still has room for. *)
Definition room (T : Z) (i : CsaIssuer) : Z :=
  match i.(ci_state) with
  | iAnnounce | iAwaitAck => Z.max 0 ((T - kCopyCutoffUs - i.(next_copy_us_) + kCopySpacingUs - 1) / kCopySpacingUs)
  | _ => 0
  end.
Definition commits_left (i : CsaIssuer) : Z :=
  match i.(ci_state) with iAnnounce | iAwaitAck => 1 | _ => 0 end.

(** A campaign of template [t] switching at [T], seen no later than [M]. *)
Record issuer_inv (p : CsaParams) (t : CsaPacket) (T M : Z) (i : CsaIssuer) : Prop := {
  ii_policy : i.(ci_policy) = p;
  ii_tmpl : i.(tmpl_) = t;
  ii_switch : i.(switch_at_us_) = T;
  ii_next : T - 5000000 <= i.(next_copy_us_);
  ii_left : i.(ci_state) = iAnnounce -> 1 <= i.(copies_left_) <= kCopies;
  ii_deadline : i.(ci_state) = iVerify -> i.(verify_deadline_us_) <= Z.max T M + p.(verify_timeout_ms) * 1000
}.

Section Run.
Context (p : CsaParams) (t : CsaPacket) (T M : Z).
Hypothesis HT : 5000000 <= T < 9223372036854775808.
Hypothesis HM : 0 <= M < 9223372036854775808.
Hypothesis Hvt : 0 <= p.(verify_timeout_ms) < 4294967296.
Local Abbreviation inv := (issuer_inv p t T M).

Lemma room_nonneg i : 0 <= room T i.
Proof. unfold room. destruct (ci_state i); lia. Qed.

(** Sending a copy at [now] uses up one place of the window. *)
Lemma room_spent i i' now :
  i.(ci_state) = iAnnounce \/ i.(ci_state) = iAwaitAck ->
  i.(next_copy_us_) <= now -> now + kCopyCutoffUs < T -> i'.(next_copy_us_) = now + kCopySpacingUs ->
  room T i' + 1 <= room T i.
Proof.
  unfold room, kCopyCutoffUs, kCopySpacingUs. intros Hs Hn Hc ->.
  set (a := T - 50000 - (now + 20000) + 20000 - 1). set (b := T - 50000 - next_copy_us_ i + 20000 - 1).
  assert (Hab : a + 20000 <= b) by (unfold a, b; lia).
  assert (Ha : 0 <= a) by (unfold a; lia).
  assert (H1 : a / 20000 + 1 <= b / 20000).
  { replace (a / 20000 + 1) with ((a + 1 * 20000) / 20000) by (rewrite Z.div_add by lia; lia).
    apply Z.div_le_mono; lia. }
  pose proof (Z.div_pos a 20000 Ha ltac:(lia)).
  destruct Hs as [-> | ->]; destruct (ci_state i'); lia.
Qed.

(** What a step guarantees. *)
Definition step_ok (i : CsaIssuer) (a : IssuerAction) (i' : CsaIssuer) : Prop :=
  inv i' /\ action_ok p.(psk) t a /\
  (if is_copy a then 1 else 0) + room T i' <= room T i /\
  (if is_commit a then 1 else 0) + commits_left i' <= commits_left i /\
  (is_commit a = true -> i.(armed_seen_) = true).

(** A step that sends nothing and does not go back a state. *)
Lemma quiet_step i i' :
  i'.(next_copy_us_) = i.(next_copy_us_) ->
  (i'.(ci_state) = i.(ci_state) \/ i'.(ci_state) = iIdle \/ i'.(ci_state) = iVerify \/
   (i.(ci_state) = iAnnounce /\ i'.(ci_state) = iAwaitAck)) ->
  room T i' <= room T i /\ commits_left i' <= commits_left i.
Proof.
  intros En Hs. unfold room, commits_left. rewrite En.
  destruct Hs as [-> |[-> |[-> |[-> ->]]]]; split; try lia; destruct (ci_state i); lia.
Qed.

(** A copy due inside the window is stamped with a legal remaining time. *)
Lemma copy_ok i seq now :
  inv i -> past_cutoff i now = false -> T - 5000000 <= now -> 0 <= now <= M ->
  exists pkt, stamp_copy i (with_seq i.(tmpl_) seq) now = Some pkt /\ action_ok p.(psk) t (iaSendCopy pkt) /\
    now + kCopyCutoffUs < T.
Proof.
  intros [Ep Et Es _ _ _] Hc Hlo Hm. unfold past_cutoff, kCopyCutoffUs in Hc. apply Z.leb_gt in Hc.
  rewrite to_u64_id in Hc by (unfold u64; lia). rewrite Es in Hc.
  rewrite stamp_copy_spec by lia. eexists. split; [reflexivity|]. rewrite Ep, Et, Es. split; [|exact Hc].
  exists seq, (dt_of T now). split; [done|]. unfold dt_of, kDtToSwitchMs.
  assert ((T - now) / 1000 <= 5000) by (apply Z.div_le_upper_bound; lia). lia.
Qed.

Lemma tick_announce_ok i now :
  inv i -> i.(ci_state) = iAnnounce -> 0 <= now <= M ->
  exists a i', tick_announce i now = Some (a, i') /\ step_ok i a i'.
Proof.
  intros Hi Es Hm. pose proof Hi as [E1 E2 E3 E4 E5 E6]. specialize (E5 Es). unfold tick_announce, kCopies in *.
  destruct ((now >=? next_copy_us_ i) && negb (past_cutoff i now)) eqn:Hb; cbn [mbind option_bind].
  - bool_hyps. destruct (copy_ok i (copies_left_ i) now) as (pkt & -> & Hok & Hc); [done|done|lia|done|].
    cbn [mbind option_bind]. rewrite to_u8_id by (unfold u8; lia). unfold kCopySpacingUs, kCopyCutoffUs in *.
    rewrite to_u64_id by (unfold u64; lia). eexists _, _. split; [reflexivity|].
    set (i1 := if copies_left_ i - 1 =? 0 then _ else _).
    assert (H1 : ci_policy i1 = p /\ tmpl_ i1 = t /\ switch_at_us_ i1 = T /\ next_copy_us_ i1 = now + 20000 /\
      (ci_state i1 = iAnnounce /\ 1 <= copies_left_ i1 <= 5 \/ ci_state i1 = iAwaitAck)).
    { unfold i1. case_test; cbn; split_and!; try done; [by right|left; split; [done|lia]]. }
    destruct H1 as (F1 & F2 & F3 & F4 & F5).
    set (i2 := if _ && past_cutoff i1 now then _ else i1).
    assert (H2 : ci_policy i2 = p /\ tmpl_ i2 = t /\ switch_at_us_ i2 = T /\ next_copy_us_ i2 = now + 20000 /\
      (ci_state i2 = iAnnounce /\ 1 <= copies_left_ i2 <= 5 \/ ci_state i2 = iAwaitAck)).
    { unfold i2. destruct (_ && _); cbn; split_and!; try done. by right. }
    destruct H2 as (G1 & G2 & G3 & G4 & G5). split; [|split; [exact Hok|split; [|split; [|done]]]].
    + split; try done; [lia|unfold kCopies|]; intros Hx; destruct G5 as [[? ?]|?]; congruence || lia.
    + cbn [is_copy]. pose proof (room_spent i i2 now ltac:(auto) ltac:(lia) Hc G4). lia.
    + cbn [is_commit]. unfold commits_left. rewrite Es. destruct (ci_state i2); lia.
  - eexists _, _. split; [reflexivity|].
    set (i2 := if _ && past_cutoff i now then _ else i).
    assert (H2 : ci_policy i2 = p /\ tmpl_ i2 = t /\ switch_at_us_ i2 = T /\ next_copy_us_ i2 = next_copy_us_ i /\
      copies_left_ i2 = copies_left_ i /\ (ci_state i2 = iAnnounce \/ ci_state i2 = iAwaitAck)).
    { clear Hb. unfold i2. destruct (_ && _); cbn; split_and!; auto. }
    destruct H2 as (G1 & G2 & G3 & G4 & G5 & G6).
    destruct (quiet_step i i2 G4) as [Q1 Q2]; [rewrite Es; tauto|].
    split; [|split; [exact I|split; [|split; [|done]]]]; [|cbn; lia..].
    split; try done; [lia|rewrite G5; intros _; unfold kCopies; lia|]. intros H. destruct G6; congruence.
Qed.

Lemma tick_await_ack_ok i now :
  inv i -> i.(ci_state) = iAwaitAck -> 0 <= now <= M ->
  exists a i', tick_await_ack i now = Some (a, i') /\ step_ok i a i'.
Proof.
  intros Hi Es Hm. pose proof Hi as [E1 E2 E3 E4 E5 E6]. unfold tick_await_ack.
  destruct (negb (armed_seen_ i) && negb (past_cutoff i now) && (now >=? next_copy_us_ i)) eqn:Hb.
  - bool_hyps. destruct (copy_ok i 0 now) as (pkt & -> & Hok & Hc); [done|done|lia|done|].
    cbn [mbind option_bind]. unfold kCopySpacingUs, kCopyCutoffUs in *.
    rewrite to_u64_id by (unfold u64; lia). eexists _, _. split; [reflexivity|].
    split; [|split; [exact Hok|split; [|split; [|done]]]].
    + split; cbn; try done; [lia|congruence..].
    + cbn [is_copy]. pose proof (room_spent i (put_next_copy_us_ i (now + 20000)) now ltac:(auto) ltac:(lia) Hc eq_refl). lia.
    + unfold commits_left. cbn. rewrite Es. lia.
  - destruct (armed_seen_ i) eqn:Ha.
    + eexists _, _. split; [reflexivity|]. split; [|split; [|split; [|split; [|done]]]].
      * split; cbn; try done; intros _; lia.
      * rewrite E2. by cbn.
      * unfold room. cbn. rewrite Es. lia.
      * unfold commits_left. cbn. rewrite Es. lia.
    + destruct (now >=? switch_at_us_ i); (eexists _, _; split; [reflexivity|]).
      * destruct (quiet_step i (put_ci_state i iIdle) eq_refl) as [Q1 Q2]; [cbn; auto|].
        split; [|split; [exact I|split; [|split; [|done]]]]; [|cbn [is_copy is_commit]; lia..].
        by split.
      * split; [done|]. split; [exact I|]. split; [|split; [|done]]; cbn; lia.
Qed.

Lemma tick_verify_ok i now :
  inv i -> i.(ci_state) = iVerify -> 0 <= now <= M ->
  exists a i', tick_verify i now = Some (a, i') /\ step_ok i a i'.
Proof.
  intros Hi Es Hm. pose proof Hi as [E1 E2 E3 E4 E5 E6]. unfold tick_verify.
  set (i1 := if verify_deadline_us_ i =? 0 then _ else i).
  assert (H1 : inv i1 /\ ci_state i1 = iVerify /\ next_copy_us_ i1 = next_copy_us_ i).
  { unfold i1. case_test; [|by auto]. split; [|done]. split; cbn; try done. intros _.
    rewrite E1, E3, to_u64_id by (unfold u64; destruct (now >? T); lia). destruct (Z.gtb_spec now T); lia. }
  destruct H1 as (H1 & F1 & F2). clearbody i1. pose proof H1 as [G1 G2 G3 G4 G5 G6].
  assert (Hroom : room T i = 0 /\ commits_left i = 0) by (unfold room, commits_left; by rewrite Es).
  assert (Hidle : room T (put_ci_state i1 iIdle) = 0 /\ commits_left (put_ci_state i1 iIdle) = 0) by done.
  assert (Hver : forall i2, ci_state i2 = iVerify -> room T i2 = 0 /\ commits_left i2 = 0)
    by (intros i2 E; unfold room, commits_left; by rewrite E).
  destruct (now >=? verify_deadline_us_ i1).
  - eexists _, _. split; [reflexivity|].
    split; [by split|]. split; [destruct (video_seen_ i1); rewrite ?G2; cbn; auto|].
    destruct (video_seen_ i1); cbn [is_copy is_commit]; split_and!; (done || lia).
  - destruct (now >=? next_beacon_us_ i1).
    + rewrite stamp_mac_spec. cbn [mbind option_bind]. eexists _, _. split; [reflexivity|].
      split; [|split; [|split; [|split; [|done]]]].
      * split; cbn; try done; congruence.
      * cbn. by rewrite G1, G2.
      * cbn [is_copy]. destruct (Hver (put_next_beacon_us_ i1 (to_u64 (now + kCopySpacingUs))) F1). lia.
      * cbn [is_commit]. destruct (Hver (put_next_beacon_us_ i1 (to_u64 (now + kCopySpacingUs))) F1). lia.
    + eexists _, _. split; [reflexivity|]. destruct (Hver i1 F1).
      split; [done|]. split; [exact I|]. split; [|split; [|done]]; cbn [is_copy is_commit]; lia.
Qed.

Lemma issuer_step_ok i ev :
  inv i -> 0 <= ev_time ev <= M -> exists a i', issuer_step i ev = Some (a, i') /\ step_ok i a i'.
Proof.
  intros Hi Hm. assert (Hq : forall i', inv i' -> next_copy_us_ i' = next_copy_us_ i ->
      (ci_state i' = ci_state i \/ ci_state i' = iIdle) ->
      exists a i'', Some (iaNone, i') = Some (a, i'') /\ step_ok i a i'').
  { intros i' Hi' En Hs. eexists _, _. split; [reflexivity|].
    destruct (quiet_step i i' En) as [Q1 Q2]; [tauto|].
    split; [done|]. split; [exact I|]. split; [|split; [|done]]; cbn [is_copy is_commit]; lia. }
  pose proof Hi as [E1 E2 E3 E4 E5 E6]. destruct ev as [now| |now armed|]; cbn [issuer_step ev_time] in *.
  - unfold issuer_tick. destruct (ci_state i) eqn:Es.
    + apply Hq; auto.
    + by apply tick_announce_ok.
    + by apply tick_await_ack_ok.
    + by apply tick_verify_ok.
  - unfold note_craft_armed. destruct (ci_state i) eqn:Es; apply Hq; cbn; auto;
      (split; cbn; rewrite ?Es; done).
  - unfold note_craft_video. destruct armed; destruct (_ && _) eqn:Hb; apply Hq; cbn; auto.
    + split; cbn; try done. intros _. rewrite E1, to_u64_id by (unfold u64; lia). lia.
    + by split.
  - unfold note_commit_failed. destruct (ci_state i) eqn:Es; apply Hq; cbn; auto. by split.
Qed.

Lemma issuer_run_ok evs : forall i,
  inv i -> Forall (fun ev => 0 <= ev_time ev <= M) evs ->
  exists acts i', issuer_run i evs = Some (acts, i') /\ inv i' /\ Forall (action_ok p.(psk) t) acts /\
    count is_copy acts + room T i' <= room T i /\ count is_commit acts + commits_left i' <= commits_left i.
Proof.
  induction evs as [|ev evs IH]; intros i Hi Hev; cbn [issuer_run].
  - eexists [], i. split; [done|]. split; [done|]. split; [done|]. unfold count. cbn. lia.
  - apply Forall_cons in Hev as [He Hev]. destruct (issuer_step_ok i ev Hi He) as (a & i1 & -> & H1 & Ha & Hc & Hm & _).
    cbn [mbind option_bind]. destruct (IH i1 H1 Hev) as (acts & i2 & -> & H2 & Hacts & Hc2 & Hm2).
    cbn [mbind option_bind]. eexists _, _. split; [reflexivity|]. split; [done|]. split; [by constructor|].
    unfold count in *. cbn [List.filter]. destruct (is_copy a), (is_commit a); cbn [length]; lia.
Qed.
End Run.

(** ** Campaigns *)

(** Only the craft's flag arms the issuer. *)
Lemma step_unarmed i ev a i' :
  i.(armed_seen_) = false -> issuer_step i ev = Some (a, i') -> ev <> IeArmed -> i'.(armed_seen_) = false.
Proof.
  intros Ha H Hn. destruct ev as [now| |now armed|]; cbn [issuer_step] in H; try done.
  - unfold issuer_tick in H. destruct (ci_state i).
    + by injection H as _ <-.
    + unfold tick_announce, stamp_copy in H. rewrite stamp_mac_spec in H.
      destruct (_ && negb _); cbn in H; injection H as _ <-; repeat case_match; done.
    + unfold tick_await_ack, stamp_copy in H. rewrite stamp_mac_spec in H.
      destruct (_ && _ && _); cbn in H; [by injection H as _ <-|]. rewrite Ha in H.
      destruct (_ >=? _); by injection H as _ <-.
    + unfold tick_verify in H. rewrite stamp_mac_spec in H. cbn zeta in H.
      destruct (verify_deadline_us_ i =? 0); destruct (_ >=? _); cbn in H; try (by injection H as _ <-);
        destruct (_ >=? _); cbn in H; by injection H as _ <-.
  - injection H as _ <-. unfold note_craft_video. destruct armed; by destruct (_ && _).
  - injection H as _ <-. unfold note_commit_failed. by destruct (ci_state i).
Qed.

(** The template a successful [start] installs. *)
Lemma start_inv i prefix chan bw rc pchan pbw pw now i1 M :
  start i prefix chan bw rc pchan pbw pw now = (true, i1) ->
  0 <= now < 4611686018427387904 ->
  let t := MkCsaPacket prefix i.(next_nonce_) 0 chan bw rc 0 (to_u16 i.(ci_policy).(verify_timeout_ms))
             pchan pbw pw 0 in
  issuer_inv i.(ci_policy) t (now + 5000000) M i1 /\ i1.(ci_state) = iAnnounce /\ i1.(next_copy_us_) = now /\
  i1.(armed_seen_) = false /\ chan ∈ i.(ci_policy).(allowlist) /\ i.(ci_policy).(psk) <> [].
Proof.
  unfold start. intros H Hn. destruct (active i || _) eqn:Hg; [discriminate|].
  destruct (allowed _ _) eqn:Ha; [|discriminate]. cbn [negb] in H. destruct (_ && _); [discriminate|].
  apply (f_equal snd) in H. cbn [snd] in H. subst i1. cbn. unfold kDtToSwitchMs, kCopies.
  split; [|split_and!; try done].
  - split; cbn; try done; [|lia]. rewrite to_u64_id by (unfold u64; lia). lia.
  - by apply allowed_spec.
  - intros E0. rewrite E0 in Hg. cbn in Hg. bool_hyps. done.
Qed.

Lemma run_unarmed p t T M :
  5000000 <= T < 9223372036854775808 -> 0 <= M < 9223372036854775808 ->
  0 <= p.(verify_timeout_ms) < 4294967296 ->
  forall evs i acts i', issuer_inv p t T M i -> Forall (fun ev => 0 <= ev_time ev <= M) evs ->
  i.(armed_seen_) = false -> IeArmed ∉ evs -> issuer_run i evs = Some (acts, i') -> count is_commit acts = 0.
Proof.
  intros HT HM Hvt. induction evs as [|ev evs IH]; intros i acts i' Hi Hev Ea Hna E; cbn [issuer_run] in E.
  { by injection E as <- <-. }
  apply Forall_cons in Hev as [He Hev]. apply not_elem_of_cons in Hna as [Hn1 Hn2].
  destruct (issuer_step_ok _ _ _ _ HT HM Hvt i ev Hi He) as (a & i3 & E3 & H3 & _ & _ & _ & Hcm).
  rewrite E3 in E. cbn [mbind option_bind] in E. destruct (issuer_run i3 evs) as [[acts' i4]|] eqn:E4; [|done].
  cbn in E. injection E as <- <-.
  assert (Ea3 : armed_seen_ i3 = false) by (eapply step_unarmed; [exact Ea|exact E3|congruence]).
  unfold count. cbn [List.filter]. destruct (is_commit a) eqn:Ec; [by rewrite Hcm in Ea|].
  by apply (IH i3 acts' i4).
Qed.

(** A ground issuer and its campaign, for the examples. *)
Definition demo_policy : CsaParams := MkCsaParams [1; 2; 3] false 3000 500 5000 1000 90000 [5745; 5805].
Definition demo_prefix : CommonPrefix := MkCommonPrefix 7 0 9.
Definition demo_campaign : CsaIssuer :=
  (start (CsaIssuer_init demo_policy) demo_prefix 5745 1 0 5805 1 2 1000000).2.

(** Whatever the ticks, acknowledgements, craft frames and retune failures
    that follow a started campaign, the issuer returns; it sends at most 248
    copies and asks for at most one commit - none unless the craft's ARMED flag
    was seen; every copy is the campaign's template, stamped with a remaining
    time of 1 to 5000 ms and authenticated, every beacon has a zero time, the
    commit goes to the campaign's allowlisted target, and no revert is ever
    asked for. *)
Theorem csa_campaign_bounded i prefix chan bw rc pchan pbw pw now i1 evs
    (Hs : start i prefix chan bw rc pchan pbw pw now = (true, i1))
    (Hn : 0 <= now < 4611686018427387904)
    (Hvt : 0 <= i.(ci_policy).(verify_timeout_ms) < 4294967296)
    (Hev : Forall (fun ev => 0 <= ev_time ev < 9223372036854775808) evs) :
  let t := MkCsaPacket prefix i.(next_nonce_) 0 chan bw rc 0 (to_u16 i.(ci_policy).(verify_timeout_ms))
             pchan pbw pw 0 in
  exists acts i2, issuer_run i1 evs = Some (acts, i2) /\
    count is_copy acts <= 248 /\ count is_commit acts <= 1 /\
    (IeArmed ∉ evs -> count is_commit acts = 0) /\
    chan ∈ i.(ci_policy).(allowlist) /\ Forall (action_ok i.(ci_policy).(psk) t) acts.
Proof.
  destruct (start_inv _ _ _ _ _ _ _ _ _ _ 9223372036854775807 Hs Hn) as (Hi & Es & En & Ea & Hal & _).
  set (t := MkCsaPacket _ _ _ _ _ _ _ _ _ _ _ _) in *. cbn zeta.
  assert (HT : 5000000 <= now + 5000000 < 9223372036854775808) by lia.
  assert (HM : 0 <= 9223372036854775807 < 9223372036854775808) by lia.
  assert (Hev' : Forall (fun ev => 0 <= ev_time ev <= 9223372036854775807) evs)
    by (eapply Forall_impl; [exact Hev|]; cbn; lia).
  destruct (issuer_run_ok _ _ _ _ HT HM Hvt evs i1 Hi Hev') as (acts & i2 & E & H2 & Hacts & Hc & Hm).
  exists acts, i2. split; [done|].
  pose proof (room_nonneg (now + 5000000) i2).
  assert (Hr : room (now + 5000000) i1 = 248).
  { unfold room, kCopyCutoffUs, kCopySpacingUs. rewrite Es, En.
    replace (now + 5000000 - 50000 - now + 20000 - 1) with 4969999 by lia. reflexivity. }
  assert (Hl : 0 <= commits_left i2) by (unfold commits_left; destruct (ci_state i2); lia).
  unfold commits_left at 2 in Hm. rewrite Es in Hm. split; [lia|]. split; [lia|]. split; [|done].
  intros Hna. by eapply (run_unarmed _ _ _ _ HT HM Hvt evs i1 acts i2).
Qed.


Lemma csa_campaign_bounded_witness :
  exists acts i2, issuer_run demo_campaign [IeTick 1000000; IeArmed; IeTick 1020000; IeVideo 6100000 false] = Some (acts, i2) /\
    count is_copy acts <= 248 /\ Forall (action_ok [1; 2; 3]
      (MkCsaPacket demo_prefix 1 0 5745 1 0 0 500 5805 1 2 0)) acts.
Proof.
  destruct (csa_campaign_bounded (CsaIssuer_init demo_policy) demo_prefix 5745 1 0 5805 1 2 1000000 demo_campaign
    [IeTick 1000000; IeArmed; IeTick 1020000; IeVideo 6100000 false])
    as (acts & i2 & E & Hc & _ & _ & _ & Ha); [reflexivity|lia|cbn; lia|repeat constructor; cbn; lia|].
  exists acts, i2. split; [exact E|]. split; [exact Hc|exact Ha].
Defined.

Lemma issuer_run_app evs1 evs2 : forall i,
  issuer_run i (evs1 ++ evs2) =
  ('(a, i) ← issuer_run i evs1; '(b, i) ← issuer_run i evs2; Some (a ++ b, i)).
Proof.
  induction evs1 as [|ev evs1 IH]; intros i; cbn [issuer_run app].
  - cbn [mbind option_bind]. by destruct (issuer_run i evs2) as [[b i']|].
  - destruct (issuer_step i ev) as [[a i']|]; [|done]. cbn [mbind option_bind]. rewrite IH.
    destruct (issuer_run i' evs1) as [[b i'']|]; [|done]. cbn [mbind option_bind].
    by destruct (issuer_run i'' evs2) as [[c i3]|].
Qed.

Section End_.
Context (p : CsaParams) (t : CsaPacket) (T : Z).
Hypothesis HT : 5000000 <= T < 9223372036854775808.
Hypothesis Hvt : 0 <= p.(verify_timeout_ms) < 4294967296.

(** Past the switch instant each tick leaves its state, but for an open verify
    window. *)
Lemma tick_past M i now :
  issuer_inv p t T M i -> T <= now -> 0 <= M <= now ->
  now + p.(verify_timeout_ms) * 1000 < 9223372036854775808 ->
  exists a i', issuer_tick i now = Some (a, i') /\ issuer_inv p t T now i' /\
    match i.(ci_state) with
    | iIdle => i'.(ci_state) = iIdle
    | iAnnounce => i'.(ci_state) = iAwaitAck
    | iAwaitAck => i'.(ci_state) = iIdle \/ i'.(ci_state) = iVerify
    | iVerify => i'.(ci_state) = iIdle \/ i'.(ci_state) = iVerify /\ i'.(verify_deadline_us_) <> 0 /\
                 now < i'.(verify_deadline_us_)
    end.
Proof.
  intros Hi HTn HMn Hb.
  assert (Hi' : issuer_inv p t T now i) by (destruct Hi as [? ? ? ? ? E6]; split; try done; intros Hx; specialize (E6 Hx); lia).
  destruct (issuer_step_ok p t T now HT ltac:(lia) Hvt i (IeTick now) Hi' ltac:(cbn; lia))
    as (a & i' & E & Hi2 & _). cbn [issuer_step] in E.
  exists a, i'. split; [done|]. split; [done|]. destruct Hi as [E1 E2 E3 E4 E5 E6].
  unfold issuer_tick in E.
  assert (Hpast : past_cutoff i now = true).
  { unfold past_cutoff, kCopyCutoffUs. apply Z.leb_le. rewrite E3.
    rewrite to_u64_id by (unfold u64; lia). lia. }
  destruct (ci_state i) eqn:Es.
  - by injection E as _ <-.
  - unfold tick_announce in E. rewrite Hpast, andb_false_r in E. cbn [mbind option_bind] in E.
    rewrite Es in E. cbn in E. rewrite Hpast in E. by injection E as _ <-.
  - unfold tick_await_ack in E. rewrite Hpast, andb_false_r in E. cbn [andb] in E.
    destruct (armed_seen_ i); [injection E as _ <-; by right|].
    destruct (Z.geb_spec now (switch_at_us_ i)); [|lia]. injection E as _ <-. by left.
  - unfold tick_verify in E. rewrite stamp_mac_spec in E. cbn zeta in E. revert E.
    set (i1 := if verify_deadline_us_ i =? 0 then _ else i). cbn [mbind option_bind].
    assert (Hd : ci_state i1 = iVerify /\ verify_deadline_us_ i1 <> 0).
    { unfold i1. case_test; [|done]. cbn. split; [done|]. rewrite E1, E3.
      rewrite to_u64_id by (unfold u64; destruct (now >? T); lia). destruct (now >? T); lia. }
    destruct Hd as [Hs Hd]. clearbody i1.
    destruct (Z.geb_spec now (verify_deadline_us_ i1)); [intros [= _ <-]; by left|].
    destruct (now >=? next_beacon_us_ i1); intros [= _ <-]; right; cbn; auto.
Qed.

(** The fourth tick: past the deadline. *)
Lemma verify_closes i now :
  i.(ci_state) = iIdle \/ i.(ci_state) = iVerify /\ i.(verify_deadline_us_) <> 0 /\ i.(verify_deadline_us_) <= now ->
  exists a i', issuer_tick i now = Some (a, i') /\ active i' = false.
Proof.
  unfold issuer_tick. intros [Es|(Es & Hd & Hn)]; rewrite Es; [eexists _, _; split; [done|]; unfold active; by rewrite Es|].
  unfold tick_verify. destruct (Z.eqb_spec (verify_deadline_us_ i) 0); [done|].
  destruct (Z.geb_spec now (verify_deadline_us_ i)); [|lia]. by eexists _, _.
Qed.

Lemma ticks_end i t1 t2 t3 t4 :
  issuer_inv p t T t1 i -> T <= t1 -> t1 <= t2 -> t2 <= t3 ->
  t3 + p.(verify_timeout_ms) * 1000 <= t4 -> t4 < 9223372036854775808 ->
  exists acts i', issuer_run i (map IeTick [t1; t2; t3; t4]) = Some (acts, i') /\ active i' = false.
Proof.
  intros Hi Ht H2 H3 H4 H5. cbn [map issuer_run issuer_step].
  destruct (tick_past t1 i t1 Hi) as (a1 & i1 & -> & I1 & S1); [lia..|]. cbn [mbind option_bind].
  destruct (tick_past t1 i1 t2 I1) as (a2 & i2 & -> & I2 & S2); [lia..|]. cbn [mbind option_bind].
  destruct (tick_past t2 i2 t3 I2) as (a3 & i3 & -> & I3 & S3); [lia..|]. cbn [mbind option_bind].
  assert (Hend : i3.(ci_state) = iIdle \/
    i3.(ci_state) = iVerify /\ i3.(verify_deadline_us_) <> 0 /\ i3.(verify_deadline_us_) <= t4).
  { pose proof (ii_deadline _ _ _ _ _ I3) as Hd.
    destruct (ci_state i) eqn:Ei; destruct (ci_state i1) eqn:E1; destruct (ci_state i2) eqn:E2;
      naive_solver lia. }
  destruct (verify_closes i3 t4 Hend) as (a4 & i4 & -> & Ha). cbn [mbind option_bind].
  by eexists _, _.
Qed.
End End_.

(** C39. Every campaign ends: whatever happened before, four ticks past the
    agreed instant, the last one a verify window after the third, leave the
    issuer idle. *)
Theorem csa_campaign_terminates i prefix chan bw rc pchan pbw pw now i1 evs t1 t2 t3 t4
    (Hs : start i prefix chan bw rc pchan pbw pw now = (true, i1))
    (Hn : 0 <= now < 4611686018427387904)
    (Hvt : 0 <= i.(ci_policy).(verify_timeout_ms) < 4294967296)
    (Hev : Forall (fun ev => 0 <= ev_time ev <= t1) evs)
    (H1 : now + 5000000 <= t1) (H2 : t1 <= t2) (H3 : t2 <= t3)
    (H4 : t3 + i.(ci_policy).(verify_timeout_ms) * 1000 <= t4) (H5 : t4 < 9223372036854775808) :
  exists acts i2, issuer_run i1 (evs ++ map IeTick [t1; t2; t3; t4]) = Some (acts, i2) /\ active i2 = false.
Proof.
  destruct (start_inv _ _ _ _ _ _ _ _ _ _ t1 Hs Hn) as (Hi & _).
  set (t := MkCsaPacket _ _ _ _ _ _ _ _ _ _ _ _) in *.
  destruct (issuer_run_ok _ t (now + 5000000) t1 ltac:(lia) ltac:(lia) Hvt evs i1 Hi Hev) as (acts & i2 & E & Hi2 & _).
  assert (Hend : exists acts' i3, issuer_run i2 (map IeTick [t1; t2; t3; t4]) = Some (acts', i3) /\ active i3 = false).
  { apply (ticks_end (ci_policy i) t (now + 5000000)); [lia|exact Hvt|exact Hi2|lia..]. }
  destruct Hend as (acts' & i3 & E3 & Hact). exists (acts ++ acts'), i3. split; [|done].
  rewrite (issuer_run_app evs _ i1), E. cbn [mbind option_bind]. by rewrite E3.
Qed.

Lemma csa_campaign_terminates_witness :
  exists acts i2, issuer_run demo_campaign ([IeTick 1000000; IeArmed] ++ map IeTick [6000000; 6000000; 6100000; 6700000])
    = Some (acts, i2) /\ active i2 = false.
Proof.
  apply (csa_campaign_terminates (CsaIssuer_init demo_policy) demo_prefix 5745 1 0 5805 1 2 1000000 demo_campaign
    [IeTick 1000000; IeArmed] 6000000 6000000 6100000 6700000);
    [reflexivity|lia|cbn; lia|repeat constructor; cbn; lia|lia|lia|lia|cbn; lia|lia].
Defined.

(** ** The agreed instant *)

(** The time since a copy left the air that the follower counts: what the
    adapter's TSF tells, unless it exceeds the copy's own remaining window. *)
Definition counted (tsf : option Z) (rx window : Z) : Z :=
  match tsf with Some x => let m := to_u32 (to_u32 x - rx) in if m <=? window then m else 0 | None => 0 end.

(** C15. Both ends agree on the switch, up to the flight the follower cannot
    see: a copy stamped by the issuer at [now] and heard [e] microseconds later,
    however late, by a follower whose clock is [d] ahead makes the follower
    switch within the last millisecond before the issuer's instant plus the part
    of [e] that its adapter's TSF did not tell. So the instants agree to a
    millisecond where a TSF is read and tells [e] and [e] is within the copy's
    remaining time; the switch is [e] late where no TSF is read, and where the
    TSF's difference exceeds that time, which the code takes for garbage. *)
Theorem csa_switch_agreement i pkt now pkt' f f' d e tsf rx latched
    (Hlt : i.(switch_at_us_) - now < 65536000) (Hge : 1000 <= i.(switch_at_us_) - now)
    (Hst : stamp_copy i pkt now = Some pkt')
    (He : 0 <= e)
    (Hclk : 0 <= now + d) (Hbig : i.(switch_at_us_) + d + e < 18446744073709551616)
    (Hon : on_csa f pkt' (now + d + e) tsf rx latched = Some (true, f')) :
  let late := e - counted tsf rx (pkt'.(csa_dt_to_switch_ms) * 1000) in
  i.(switch_at_us_) + d + late - 1000 < f'.(cf_switch_at_us) <= i.(switch_at_us_) + d + late /\
  (forall x, tsf = Some x -> to_u32 (to_u32 x - rx) = e -> e <= pkt'.(csa_dt_to_switch_ms) * 1000 ->
     i.(switch_at_us_) + d - 1000 < f'.(cf_switch_at_us) <= i.(switch_at_us_) + d) /\
  f'.(campaign_) = pkt' /\ armed f' = true.
Proof.
  rewrite stamp_copy_spec in Hst by lia. cbn zeta in Hst. apply (inj Some) in Hst.
  assert (Edt : csa_dt_to_switch_ms pkt' = dt_of (switch_at_us_ i) now) by by rewrite <- Hst.
  destruct (on_csa_cases f pkt' (now + d + e) tsf rx latched) as (out & E & r & f2 & ex & E2 & _ & H).
  rewrite Hon in E. apply (inj Some) in E. subst out. apply (inj Some) in E2.
  pose proof (f_equal fst E2) as Er. pose proof (f_equal snd E2) as Ef. cbn in Er, Ef. subst r f2.
  destruct H as [(_ & _ & _ & ->)|(? & _)]; [|done]. cbn zeta.
  assert (Hsw : switch_at_us_ i + d + (e - counted tsf rx (csa_dt_to_switch_ms pkt' * 1000)) - 1000
      < cf_switch_at_us (accept_csa f pkt' (now + d + e) tsf rx)
      <= switch_at_us_ i + d + (e - counted tsf rx (csa_dt_to_switch_ms pkt' * 1000))).
  { unfold accept_csa, csa_elapsed, counted. cbn [cf_switch_at_us]. rewrite Edt in *. unfold dt_of in *.
    set (T := switch_at_us_ i) in *. set (q := (T - now) / 1000) in *.
    assert (Hq : 1000 * q <= T - now < 1000 * q + 1000 /\ 1 <= q).
    { unfold q. pose proof (Z.mod_pos_bound (T - now) 1000 ltac:(lia)). pose proof (Z.div_mod (T - now) 1000 ltac:(lia)).
      split; [lia|]. apply Z.div_le_lower_bound; lia. }
    rewrite Z.max_r in * by lia. destruct tsf as [x|].
    - pose proof (to_u32_u32 (to_u32 x - rx)) as Hm. set (m := to_u32 (to_u32 x - rx)) in *. clearbody m. unfold u32 in Hm.
      destruct (Z.gtb_spec m (q * 1000)), (Z.leb_spec m (q * 1000)); try lia;
        destruct (Z.gtb_spec (q * 1000) 0); try lia; try (destruct (Z.gtb_spec (q * 1000) m)); rewrite to_u64_id by (unfold u64; lia); lia.
    - destruct (Z.gtb_spec (q * 1000) 0); [|lia]. rewrite to_u64_id by (unfold u64; lia). lia. }
  split; [exact Hsw|]. split; [|done]. intros x -> Ex Hle. unfold counted in Hsw. rewrite Ex in Hsw.
  rewrite (proj2 (Z.leb_le _ _) Hle) in Hsw. lia.
Qed.
Lemma csa_switch_agreement_witness :
  exists pkt' f', on_csa (CsaFollower_init (MkCsaParams [] true 3000 500 5000 1000 90000 [5745])) pkt' 1000800
      (Some 5700) 5000 None = Some (true, f') /\
    6000100 - 1000 < f'.(cf_switch_at_us) <= 6000100.
Proof.
  pose (pkt := with_dt (tmpl_ demo_campaign) (dt_of 6000000 1000000)).
  pose (pkt' := with_mac pkt (packet_mac pkt [1; 2; 3])).
  pose (f := CsaFollower_init (MkCsaParams [] true 3000 500 5000 1000 90000 [5745])).
  exists pkt', (accept_csa f pkt' 1000800 (Some 5700) 5000).
  assert (Hon : on_csa f pkt' 1000800 (Some 5700) 5000 None = Some (true, accept_csa f pkt' 1000800 (Some 5700) 5000))
    by reflexivity.
  split; [exact Hon|].
  apply (csa_switch_agreement demo_campaign (tmpl_ demo_campaign) 1000000 pkt' f
           (accept_csa f pkt' 1000800 (Some 5700) 5000) 100 700 (Some 5700) 5000 None);
    [reflexivity|discriminate|apply stamp_copy_spec; reflexivity|lia|lia|reflexivity|exact Hon].
Defined.
