(* ===== verification/Rx.v ===== *)
(** * The merged receive engine ([core/include/wblink/rx.h], [core/src/rx.cpp])

    Every local adapter feeds one engine; the state of a stream is keyed by its
    tuple.  Discovery and admission, the latch with its startup floor,
    de-duplication across adapters, gaps and their short-circuits, in-order
    delivery, deadlines and teardown.  Delivery is a callback: the model
    returns the list of its calls.  The early-delivery callback is a function
    of an environment. *)
From S2P Require Import Prelude Types Wire SMap Table.

Record RxPolicy : Type := MkRxPolicy {
  fwd_clamp_pkts : Z;
  fwd_clamp_blocks : Z;
  stall_timeout_ms : Z;
  dwell_ceiling_ms : Z;
  admit_n : Z;
  admit_window_ms : Z;
  idle_teardown_ms : Z;
  clamp_resync_ms : Z;
  default_deadline_iframe_ms : Z;
  default_deadline_pframe_ms : Z;
  discovery_cache_cap : Z
}.
Definition RxPolicy_init : RxPolicy := MkRxPolicy 256 4 200 20 3 1000 5000 500 50 16 64.

Record WantSpec : Type := MkWantSpec {
  w_local_stream_id : Z;
  w_stream_type : Z;
  w_originator : option Z
}.

Record RxStreamCounters : Type := MkRxStreamCounters {
  uniq : Z;
  diversity : Z;
  delivered : Z;
  lost_declared : Z;
  dropped_superseded : Z;
  dropped_deadline : Z;
  dropped_unrecoverable : Z;
  clamp_rejected : Z;
  resyncs : Z;
  table_mismatch : Z;
  prediv_expected : Z;
  prediv_lost : Z;
  highest_seq : Z
}.
Definition RxStreamCounters_init : RxStreamCounters := MkRxStreamCounters 0 0 0 0 0 0 0 0 0 0 0 0 0.

Record Held : Type := MkHeld {
  h_payload : list Z;
  h_block_id : Z;
  h_flags : Z;
  h_delivered_early : bool
}.

Record BlockInfo : Type := MkBlockInfo { first_seen_ms : Z; deadline_ms : Z }.

Record Gap : Type := MkGap {
  first_missing_ms : Z;
  declared_lost : bool;
  superseded : bool;
  fec_satisfied : bool
}.

Record AdapterSeq : Type := MkAdapterSeq {
  as_have : bool;
  as_highest : Z;
  as_expected : Z;
  as_received : Z;
  as_missing : smap unit
}.
Definition AdapterSeq_init : AdapterSeq := MkAdapterSeq false 0 0 0 [].

Record Stream : Type := MkStream {
  st_key : StreamKey;
  st_local_stream_id : Z;
  st_stream_type : Z;
  best_effort : bool;
  st_active_profile : Z;
  peer_table_version : Z;
  cursor : Z;
  max_seq : Z;
  max_block : Z;
  last_delivered_block : Z;
  last_activity_ms : Z;
  first_clamp_ms : Z;
  held : smap Held;
  blocks : smap BlockInfo;
  gaps : smap Gap;
  completed_blocks : smap unit;
  adapter_last_seq : smap Z;
  adapter_seq : smap AdapterSeq;
  counters : RxStreamCounters
}.

Record Adapter : Type := MkAdapter {
  ad_last_seq : Z;
  ad_last_rx_ms : Z;
  ad_rx : Z;
  rssi_last : Z;
  rssi_ewma_q4 : Z;
  have_rssi : bool
}.
Definition Adapter_init : Adapter := MkAdapter 0 0 0 0 0 false.

Record Candidate : Type := MkCandidate {
  cd_count : Z;
  cd_first_ms : Z;
  cd_last_ms : Z;
  cd_stream_type : Z;
  cd_stream_id : Z
}.
Definition Candidate_init : Candidate := MkCandidate 0 0 0 0 0.

Record RxEngine : Type := MkRxEngine {
  policy_ : RxPolicy;
  wants_ : list WantSpec;
  table_ : option ProfileTable;
  local_table_version_ : option Z;
  streams_ : smap Stream;
  adapters_ : smap Adapter;
  discovery_ : smap Candidate
}.
Definition RxEngine_init (policy : RxPolicy) (wants : list WantSpec) (table : option ProfileTable)
    (local_table_version : option Z) : RxEngine :=
  MkRxEngine policy wants table local_table_version [] [] [].

(** A call of the delivery callback; [dl_seq] is the cursor it was made at. *)
Record Delivery : Type := MkDelivery {
  dl_seq : Z;
  dl_local_stream_id : Z;
  dl_block_id : Z;
  dl_flags : Z;
  dl_payload : list Z
}.

(** Field updates. *)
Definition set_best_effort (s : Stream) (x : bool) : Stream :=
  MkStream s.(st_key) s.(st_local_stream_id) s.(st_stream_type) x s.(st_active_profile) s.(peer_table_version) s.(cursor) s.(max_seq) s.(max_block) s.(last_delivered_block) s.(last_activity_ms) s.(first_clamp_ms) s.(held) s.(blocks) s.(gaps) s.(completed_blocks) s.(adapter_last_seq) s.(adapter_seq) s.(counters).
Definition set_st_active_profile (s : Stream) (x : Z) : Stream :=
  MkStream s.(st_key) s.(st_local_stream_id) s.(st_stream_type) s.(best_effort) x s.(peer_table_version) s.(cursor) s.(max_seq) s.(max_block) s.(last_delivered_block) s.(last_activity_ms) s.(first_clamp_ms) s.(held) s.(blocks) s.(gaps) s.(completed_blocks) s.(adapter_last_seq) s.(adapter_seq) s.(counters).
Definition set_peer_table_version (s : Stream) (x : Z) : Stream :=
  MkStream s.(st_key) s.(st_local_stream_id) s.(st_stream_type) s.(best_effort) s.(st_active_profile) x s.(cursor) s.(max_seq) s.(max_block) s.(last_delivered_block) s.(last_activity_ms) s.(first_clamp_ms) s.(held) s.(blocks) s.(gaps) s.(completed_blocks) s.(adapter_last_seq) s.(adapter_seq) s.(counters).
Definition set_cursor (s : Stream) (x : Z) : Stream :=
  MkStream s.(st_key) s.(st_local_stream_id) s.(st_stream_type) s.(best_effort) s.(st_active_profile) s.(peer_table_version) x s.(max_seq) s.(max_block) s.(last_delivered_block) s.(last_activity_ms) s.(first_clamp_ms) s.(held) s.(blocks) s.(gaps) s.(completed_blocks) s.(adapter_last_seq) s.(adapter_seq) s.(counters).
Definition set_max_seq (s : Stream) (x : Z) : Stream :=
  MkStream s.(st_key) s.(st_local_stream_id) s.(st_stream_type) s.(best_effort) s.(st_active_profile) s.(peer_table_version) s.(cursor) x s.(max_block) s.(last_delivered_block) s.(last_activity_ms) s.(first_clamp_ms) s.(held) s.(blocks) s.(gaps) s.(completed_blocks) s.(adapter_last_seq) s.(adapter_seq) s.(counters).
Definition set_max_block (s : Stream) (x : Z) : Stream :=
  MkStream s.(st_key) s.(st_local_stream_id) s.(st_stream_type) s.(best_effort) s.(st_active_profile) s.(peer_table_version) s.(cursor) s.(max_seq) x s.(last_delivered_block) s.(last_activity_ms) s.(first_clamp_ms) s.(held) s.(blocks) s.(gaps) s.(completed_blocks) s.(adapter_last_seq) s.(adapter_seq) s.(counters).
Definition set_last_delivered_block (s : Stream) (x : Z) : Stream :=
  MkStream s.(st_key) s.(st_local_stream_id) s.(st_stream_type) s.(best_effort) s.(st_active_profile) s.(peer_table_version) s.(cursor) s.(max_seq) s.(max_block) x s.(last_activity_ms) s.(first_clamp_ms) s.(held) s.(blocks) s.(gaps) s.(completed_blocks) s.(adapter_last_seq) s.(adapter_seq) s.(counters).
Definition set_last_activity_ms (s : Stream) (x : Z) : Stream :=
  MkStream s.(st_key) s.(st_local_stream_id) s.(st_stream_type) s.(best_effort) s.(st_active_profile) s.(peer_table_version) s.(cursor) s.(max_seq) s.(max_block) s.(last_delivered_block) x s.(first_clamp_ms) s.(held) s.(blocks) s.(gaps) s.(completed_blocks) s.(adapter_last_seq) s.(adapter_seq) s.(counters).
Definition set_first_clamp_ms (s : Stream) (x : Z) : Stream :=
  MkStream s.(st_key) s.(st_local_stream_id) s.(st_stream_type) s.(best_effort) s.(st_active_profile) s.(peer_table_version) s.(cursor) s.(max_seq) s.(max_block) s.(last_delivered_block) s.(last_activity_ms) x s.(held) s.(blocks) s.(gaps) s.(completed_blocks) s.(adapter_last_seq) s.(adapter_seq) s.(counters).
Definition set_held (s : Stream) (x : smap Held) : Stream :=
  MkStream s.(st_key) s.(st_local_stream_id) s.(st_stream_type) s.(best_effort) s.(st_active_profile) s.(peer_table_version) s.(cursor) s.(max_seq) s.(max_block) s.(last_delivered_block) s.(last_activity_ms) s.(first_clamp_ms) x s.(blocks) s.(gaps) s.(completed_blocks) s.(adapter_last_seq) s.(adapter_seq) s.(counters).
Definition set_blocks (s : Stream) (x : smap BlockInfo) : Stream :=
  MkStream s.(st_key) s.(st_local_stream_id) s.(st_stream_type) s.(best_effort) s.(st_active_profile) s.(peer_table_version) s.(cursor) s.(max_seq) s.(max_block) s.(last_delivered_block) s.(last_activity_ms) s.(first_clamp_ms) s.(held) x s.(gaps) s.(completed_blocks) s.(adapter_last_seq) s.(adapter_seq) s.(counters).
Definition set_gaps (s : Stream) (x : smap Gap) : Stream :=
  MkStream s.(st_key) s.(st_local_stream_id) s.(st_stream_type) s.(best_effort) s.(st_active_profile) s.(peer_table_version) s.(cursor) s.(max_seq) s.(max_block) s.(last_delivered_block) s.(last_activity_ms) s.(first_clamp_ms) s.(held) s.(blocks) x s.(completed_blocks) s.(adapter_last_seq) s.(adapter_seq) s.(counters).
Definition set_completed_blocks (s : Stream) (x : smap unit) : Stream :=
  MkStream s.(st_key) s.(st_local_stream_id) s.(st_stream_type) s.(best_effort) s.(st_active_profile) s.(peer_table_version) s.(cursor) s.(max_seq) s.(max_block) s.(last_delivered_block) s.(last_activity_ms) s.(first_clamp_ms) s.(held) s.(blocks) s.(gaps) x s.(adapter_last_seq) s.(adapter_seq) s.(counters).
Definition set_adapter_last_seq (s : Stream) (x : smap Z) : Stream :=
  MkStream s.(st_key) s.(st_local_stream_id) s.(st_stream_type) s.(best_effort) s.(st_active_profile) s.(peer_table_version) s.(cursor) s.(max_seq) s.(max_block) s.(last_delivered_block) s.(last_activity_ms) s.(first_clamp_ms) s.(held) s.(blocks) s.(gaps) s.(completed_blocks) x s.(adapter_seq) s.(counters).
Definition set_adapter_seq (s : Stream) (x : smap AdapterSeq) : Stream :=
  MkStream s.(st_key) s.(st_local_stream_id) s.(st_stream_type) s.(best_effort) s.(st_active_profile) s.(peer_table_version) s.(cursor) s.(max_seq) s.(max_block) s.(last_delivered_block) s.(last_activity_ms) s.(first_clamp_ms) s.(held) s.(blocks) s.(gaps) s.(completed_blocks) s.(adapter_last_seq) x s.(counters).
Definition set_counters (s : Stream) (x : RxStreamCounters) : Stream :=
  MkStream s.(st_key) s.(st_local_stream_id) s.(st_stream_type) s.(best_effort) s.(st_active_profile) s.(peer_table_version) s.(cursor) s.(max_seq) s.(max_block) s.(last_delivered_block) s.(last_activity_ms) s.(first_clamp_ms) s.(held) s.(blocks) s.(gaps) s.(completed_blocks) s.(adapter_last_seq) s.(adapter_seq) x.
Definition put_uniq (r : RxStreamCounters) (x : Z) : RxStreamCounters :=
  MkRxStreamCounters x r.(diversity) r.(delivered) r.(lost_declared) r.(dropped_superseded) r.(dropped_deadline) r.(dropped_unrecoverable) r.(clamp_rejected) r.(resyncs) r.(table_mismatch) r.(prediv_expected) r.(prediv_lost) r.(highest_seq).
Definition put_diversity (r : RxStreamCounters) (x : Z) : RxStreamCounters :=
  MkRxStreamCounters r.(uniq) x r.(delivered) r.(lost_declared) r.(dropped_superseded) r.(dropped_deadline) r.(dropped_unrecoverable) r.(clamp_rejected) r.(resyncs) r.(table_mismatch) r.(prediv_expected) r.(prediv_lost) r.(highest_seq).
Definition put_delivered (r : RxStreamCounters) (x : Z) : RxStreamCounters :=
  MkRxStreamCounters r.(uniq) r.(diversity) x r.(lost_declared) r.(dropped_superseded) r.(dropped_deadline) r.(dropped_unrecoverable) r.(clamp_rejected) r.(resyncs) r.(table_mismatch) r.(prediv_expected) r.(prediv_lost) r.(highest_seq).
Definition put_lost_declared (r : RxStreamCounters) (x : Z) : RxStreamCounters :=
  MkRxStreamCounters r.(uniq) r.(diversity) r.(delivered) x r.(dropped_superseded) r.(dropped_deadline) r.(dropped_unrecoverable) r.(clamp_rejected) r.(resyncs) r.(table_mismatch) r.(prediv_expected) r.(prediv_lost) r.(highest_seq).
Definition put_dropped_superseded (r : RxStreamCounters) (x : Z) : RxStreamCounters :=
  MkRxStreamCounters r.(uniq) r.(diversity) r.(delivered) r.(lost_declared) x r.(dropped_deadline) r.(dropped_unrecoverable) r.(clamp_rejected) r.(resyncs) r.(table_mismatch) r.(prediv_expected) r.(prediv_lost) r.(highest_seq).
Definition put_dropped_deadline (r : RxStreamCounters) (x : Z) : RxStreamCounters :=
  MkRxStreamCounters r.(uniq) r.(diversity) r.(delivered) r.(lost_declared) r.(dropped_superseded) x r.(dropped_unrecoverable) r.(clamp_rejected) r.(resyncs) r.(table_mismatch) r.(prediv_expected) r.(prediv_lost) r.(highest_seq).
Definition put_dropped_unrecoverable (r : RxStreamCounters) (x : Z) : RxStreamCounters :=
  MkRxStreamCounters r.(uniq) r.(diversity) r.(delivered) r.(lost_declared) r.(dropped_superseded) r.(dropped_deadline) x r.(clamp_rejected) r.(resyncs) r.(table_mismatch) r.(prediv_expected) r.(prediv_lost) r.(highest_seq).
Definition put_clamp_rejected (r : RxStreamCounters) (x : Z) : RxStreamCounters :=
  MkRxStreamCounters r.(uniq) r.(diversity) r.(delivered) r.(lost_declared) r.(dropped_superseded) r.(dropped_deadline) r.(dropped_unrecoverable) x r.(resyncs) r.(table_mismatch) r.(prediv_expected) r.(prediv_lost) r.(highest_seq).
Definition put_resyncs (r : RxStreamCounters) (x : Z) : RxStreamCounters :=
  MkRxStreamCounters r.(uniq) r.(diversity) r.(delivered) r.(lost_declared) r.(dropped_superseded) r.(dropped_deadline) r.(dropped_unrecoverable) r.(clamp_rejected) x r.(table_mismatch) r.(prediv_expected) r.(prediv_lost) r.(highest_seq).
Definition put_table_mismatch (r : RxStreamCounters) (x : Z) : RxStreamCounters :=
  MkRxStreamCounters r.(uniq) r.(diversity) r.(delivered) r.(lost_declared) r.(dropped_superseded) r.(dropped_deadline) r.(dropped_unrecoverable) r.(clamp_rejected) r.(resyncs) x r.(prediv_expected) r.(prediv_lost) r.(highest_seq).
Definition put_highest_seq (r : RxStreamCounters) (x : Z) : RxStreamCounters :=
  MkRxStreamCounters r.(uniq) r.(diversity) r.(delivered) r.(lost_declared) r.(dropped_superseded) r.(dropped_deadline) r.(dropped_unrecoverable) r.(clamp_rejected) r.(resyncs) r.(table_mismatch) r.(prediv_expected) r.(prediv_lost) x.
Definition with_wants_ (r : RxEngine) (x : list WantSpec) : RxEngine :=
  MkRxEngine r.(policy_) x r.(table_) r.(local_table_version_) r.(streams_) r.(adapters_) r.(discovery_).
Definition with_streams_ (r : RxEngine) (x : smap Stream) : RxEngine :=
  MkRxEngine r.(policy_) r.(wants_) r.(table_) r.(local_table_version_) x r.(adapters_) r.(discovery_).
Definition with_adapters_ (r : RxEngine) (x : smap Adapter) : RxEngine :=
  MkRxEngine r.(policy_) r.(wants_) r.(table_) r.(local_table_version_) r.(streams_) x r.(discovery_).
Definition with_discovery_ (r : RxEngine) (x : smap Candidate) : RxEngine :=
  MkRxEngine r.(policy_) r.(wants_) r.(table_) r.(local_table_version_) r.(streams_) r.(adapters_) x.

Definition bump (get : RxStreamCounters -> Z) (put : RxStreamCounters -> Z -> RxStreamCounters)
    (n : Z) (s : Stream) : Stream :=
  set_counters s (put s.(counters) (to_u64 (get s.(counters) + n))).

(** ** Keys, adapters, deadlines *)
Definition pack_key (k : StreamKey) : Z :=
  Z.lor (Z.lor (Z.shiftl k.(sk_originator) 40) (Z.shiftl k.(sk_session_id) 8)) k.(sk_stream_id).

Definition view_key (v : DataView) : StreamKey :=
  MkStreamKey v.(dv_hdr).(dh_prefix).(originator) v.(dv_hdr).(dh_prefix).(session_id) v.(dv_hdr).(dh_stream_id).

(** [payload.assign]: the bytes a view points to. *)
Definition view_bytes (v : DataView) : option (list Z) :=
  if v.(dv_payload_len) >? 0
  then p ← v.(dv_payload); slice p 0 (Z.to_nat v.(dv_payload_len))
  else Some [].

(** A sibling is another entry of the map, so another identifier. *)
Definition adapter_stalled (e : RxEngine) (id : Z) (a : Adapter) (now_ms : Z) : bool :=
  let live (x : Adapter) := to_u64 (now_ms - x.(ad_last_rx_ms)) <=? e.(policy_).(stall_timeout_ms) in
  if live a then false
  else existsb (fun kv => negb (kv.1 =? id) && live kv.2) e.(adapters_).

Definition min_live_adapter_seq (e : RxEngine) (s : Stream) (now_ms : Z) : option Z :=
  fold_left (fun min_seq kv =>
    match sm_find kv.1 e.(adapters_) with
    | None => min_seq
    | Some a =>
      if adapter_stalled e kv.1 a now_ms then min_seq
      else match min_seq with
           | Some m => if kv.2 <? m then Some kv.2 else min_seq
           | None => Some kv.2
           end
    end) s.(adapter_last_seq) None.

Definition block_deadline (e : RxEngine) (s : Stream) (first_seen : Z) : Z :=
  let budget := Z.min e.(policy_).(default_deadline_iframe_ms) e.(policy_).(default_deadline_pframe_ms) in
  let budget := match e.(table_) with
    | Some t =>
      match List.find (fun p => p.(pf_id) =? s.(st_active_profile)) t.(profiles) with
      | Some p => Z.min p.(pf_arq_deadline_iframe_ms) p.(pf_arq_deadline_pframe_ms)
      | None => budget
      end
    | None => budget
    end in
  to_u64 (first_seen + budget).

(** ** Discovery and latch *)

(** The loop over the wants: the want to satisfy, and the key of the stream it
    replaces. *)
Fixpoint find_want (wants : list WantSpec) (streams : smap Stream) (v : DataView)
  : option (WantSpec * option Z) :=
  match wants with
  | [] => None
  | w :: wants =>
    if negb (w.(w_stream_type) =? v.(dv_hdr).(dh_stream_type)) then find_want wants streams v else
    if match w.(w_originator) with
       | Some o => negb (o =? v.(dv_hdr).(dh_prefix).(originator)) | None => false end
    then find_want wants streams v else
    match List.find (fun kv => kv.2.(st_local_stream_id) =? w.(w_local_stream_id)) streams with
    | None => Some (w, None)
    | Some (k, s) =>
      if (s.(st_key).(sk_originator) =? v.(dv_hdr).(dh_prefix).(originator))
         && negb (s.(st_key).(sk_session_id) =? v.(dv_hdr).(dh_prefix).(session_id))
      then Some (w, Some k)
      else find_want wants streams v
    end
  end.

(** The least recently heard candidate other than [key]. *)
Definition oldest_candidate (key : Z) (d : smap Candidate) : option (Z * Candidate) :=
  fold_left (fun oldest kv =>
    if kv.1 =? key then oldest else
    match oldest with
    | None => Some kv
    | Some o => if kv.2.(cd_last_ms) <? o.2.(cd_last_ms) then Some kv else oldest
    end) d None.

Fixpoint evict_candidates (fuel : nat) (cap key : Z) (d : smap Candidate) : smap Candidate :=
  match fuel with
  | O => d
  | S fuel =>
    if len d >? cap then
      match oldest_candidate key d with
      | None => d
      | Some (k, _) => evict_candidates fuel cap key (sm_erase k d)
      end
    else d
  end.

(** [discovery_[key]] counted up, within the admission window. *)
Definition note_candidate (p : RxPolicy) (d : smap Candidate) (key : Z) (v : DataView) (now_ms : Z)
  : smap Candidate :=
  let c := default Candidate_init (sm_find key d) in
  let c := if (c.(cd_count) =? 0) || (to_u64 (now_ms - c.(cd_first_ms)) >? p.(admit_window_ms))
           then MkCandidate 0 now_ms 0 0 0 else c in
  sm_assign key (MkCandidate (to_u8 (c.(cd_count) + 1)) c.(cd_first_ms) now_ms
                   v.(dv_hdr).(dh_stream_type) v.(dv_hdr).(dh_stream_id)) d.

Definition new_stream (w : WantSpec) (v : DataView) (now_ms : Z) : Stream :=
  let h := v.(dv_hdr) in
  MkStream (view_key v) w.(w_local_stream_id) h.(dh_stream_type) false 0 0
    h.(dh_seq) h.(dh_seq) h.(dh_block_id) h.(dh_block_id) now_ms 0 [] [] [] [] [] [] RxStreamCounters_init.

(** [try_latch]: whether the tuple's stream is now latched. *)
Definition try_latch (e : RxEngine) (v : DataView) (now_ms : Z) : bool * RxEngine :=
  match find_want e.(wants_) e.(streams_) v with
  | None => (false, e)
  | Some (want, replace_key) =>
    let key := pack_key (view_key v) in
    let d := note_candidate e.(policy_) e.(discovery_) key v now_ms in
    let d := evict_candidates (length d) e.(policy_).(discovery_cache_cap) key d in
    match sm_find key d with
    | Some c =>
      if c.(cd_count) <? e.(policy_).(admit_n) then (false, with_discovery_ e d) else
      let streams := match replace_key with Some k => sm_erase k e.(streams_) | None => e.(streams_) end in
      (true, with_streams_ (with_discovery_ e (sm_erase key d))
               (sm_emplace key (new_stream want v now_ms) streams).1)
    | None => (false, with_discovery_ e d)
    end
  end.

(** ** Gaps *)
Definition gap_block (s : Stream) (seq : Z) : option Z :=
  let upper := head (sm_lower_bound seq s.(held)) in
  let lower := last (filter (fun kv => kv.1 < seq) s.(held)) in
  match upper, lower with
  | Some (k, u), Some (_, l) =>
    if k =? seq then Some u.(h_block_id) else
    if u.(h_block_id) =? l.(h_block_id) then Some u.(h_block_id) else
    Some (if negb (Z.land l.(h_flags) data_flags_kEndOfBlock =? 0) then u.(h_block_id) else l.(h_block_id))
  | Some (_, u), None => Some u.(h_block_id)
  | None, Some (_, l) => Some l.(h_block_id)
  | None, None => None
  end.

Definition note_gap (s : Stream) (now_ms m : Z) : Stream :=
  if sm_mem m s.(held) || sm_mem m s.(gaps) then s else
  let fec := match gap_block s m with Some b => sm_mem b s.(completed_blocks) | None => false end in
  set_gaps s (sm_emplace m (MkGap now_ms false false fec) s.(gaps)).1.

Definition note_gaps (p : RxPolicy) (s : Stream) (now_ms : Z) : Stream :=
  let span := to_u32 (s.(max_seq) - s.(cursor)) in
  if span >? p.(fwd_clamp_pkts) then s else
  fold_left (fun s n => note_gap s now_ms (to_u32 (s.(cursor) + Z.of_nat n))) (seq 0 (Z.to_nat span)) s.

(** [while (size() > cap) erase(begin())] *)
Definition keep_last {V} (cap : Z) (m : smap V) : smap V := drop (length m - Z.to_nat cap) m.

Definition mark_frame_complete (p : RxPolicy) (s : Stream) (block_id : Z) : Stream :=
  let s := set_completed_blocks s
    (keep_last (to_u32 (p.(fwd_clamp_blocks) + 2)) (sm_emplace block_id tt s.(completed_blocks)).1) in
  set_gaps s (map (fun kv =>
    (kv.1, if match gap_block s kv.1 with Some b => b =? block_id | None => false end
           then MkGap kv.2.(first_missing_ms) kv.2.(declared_lost) kv.2.(superseded) true
           else kv.2)) s.(gaps)).

(** [held.upper_bound(m)]: the first packet held above [m]. *)
Definition held_above (s : Stream) (m : Z) : option Held := snd <$> head (filter (fun kv => m < kv.1) s.(held)).

(** One gap of [evaluate_gaps], and whether it is declared lost now. *)
Definition evaluate_gap (p : RxPolicy) (s : Stream) (min_live : option Z) (now_ms m : Z) (g : Gap) : Gap * bool :=
  if g.(fec_satisfied) then (g, false) else
  let sup := g.(superseded) ||
    (negb s.(best_effort) &&
     match held_above s m with Some h => h.(h_block_id) <? s.(max_block) | None => false end) in
  let declare := negb g.(declared_lost) &&
    (match min_live with Some l => l >? m | None => false end
     || (to_u64 (now_ms - g.(first_missing_ms)) >=? p.(dwell_ceiling_ms))) in
  (MkGap g.(first_missing_ms) (g.(declared_lost) || declare) sup false, declare).

Definition evaluate_gaps (e : RxEngine) (s : Stream) (now_ms : Z) : Stream :=
  let min_live := min_live_adapter_seq e s now_ms in
  let evald := map (fun kv => (kv.1, evaluate_gap e.(policy_) s min_live now_ms kv.1 kv.2)) s.(gaps) in
  bump lost_declared put_lost_declared (len (List.filter (fun kv => snd (snd kv)) evald))
    (set_gaps s (map (fun kv => (kv.1, fst (snd kv))) evald)).

(** ** The cursor *)
Definition refloor_on_wrap (s : Stream) : Stream :=
  let s := bump resyncs put_resyncs 1 s in
  let s := set_max_block (set_max_seq s s.(cursor)) s.(last_delivered_block) in
  set_first_clamp_ms (set_adapter_last_seq (set_completed_blocks (set_blocks (set_gaps (set_held s []) []) []) []) []) 0.

(** Block info older than the last delivered block is pruned. *)
Fixpoint prune_blocks (below : Z) (b : smap BlockInfo) : smap BlockInfo :=
  match b with
  | [] => []
  | (k, i) :: b' => if k <? below then prune_blocks below b' else b
  end.

(** The decision on a gap at the cursor: [None] waits. *)
Definition skip_gap (s : Stream) (now_ms : Z) (g : Gap) : option Stream :=
  if g.(fec_satisfied) then Some s
  else if g.(superseded) then Some (bump dropped_superseded put_dropped_superseded 1 s)
  else if negb s.(best_effort) then
    let deadline := h ← held_above s s.(cursor); b ← sm_find h.(h_block_id) s.(blocks); Some b.(deadline_ms) in
    match deadline with
    | Some d => if now_ms >=? d then Some (bump dropped_deadline put_dropped_deadline 1 s) else None
    | None => None
    end
  else if g.(declared_lost) then Some (bump dropped_unrecoverable put_dropped_unrecoverable 1 s)
  else None.

(** One iteration: the stream after it, the call made, and whether the loop
    goes on. *)
Definition cursor_step (s : Stream) (now_ms : Z) : Stream * option Delivery * bool :=
  match sm_find s.(cursor) s.(held) with
  | Some h =>
    let call := if h.(h_delivered_early) then None
      else Some (MkDelivery s.(cursor) s.(st_local_stream_id) h.(h_block_id) h.(h_flags) h.(h_payload)) in
    let s := if h.(h_delivered_early) then s else bump delivered put_delivered 1 s in
    let s := set_last_delivered_block s h.(h_block_id) in
    let s := set_gaps (set_held s (sm_erase s.(cursor) s.(held))) (sm_erase s.(cursor) s.(gaps)) in
    let s := set_cursor s (to_u32 (s.(cursor) + 1)) in
    if s.(cursor) =? 0 then (refloor_on_wrap s, call, false)
    else (set_blocks s (prune_blocks s.(last_delivered_block) s.(blocks)), call, true)
  | None =>
    match sm_find s.(cursor) s.(gaps) with
    | None => (s, None, false)
    | Some g =>
      match skip_gap s now_ms g with
      | None => (s, None, false)
      | Some s =>
        let s := set_gaps s (sm_erase s.(cursor) s.(gaps)) in
        let s := set_cursor s (to_u32 (s.(cursor) + 1)) in
        if s.(cursor) =? 0 then (refloor_on_wrap s, None, false) else (s, None, true)
      end
    end
  end.

Definition app_call (c : option Delivery) (out : list Delivery) : list Delivery :=
  match c with Some d => d :: out | None => out end.

(** [None]: out of fuel. *)
Fixpoint cursor_loop (fuel : nat) (s : Stream) (now_ms : Z) : option (Stream * list Delivery) :=
  match fuel with
  | O => None
  | S fuel =>
    if s.(cursor) <=? s.(max_seq) then
      let '(s, call, go) := cursor_step s now_ms in
      if (go : bool) then '(s, out) ← cursor_loop fuel s now_ms; Some (s, app_call call out)
      else Some (s, app_call call [])
    else Some (s, [])
  end.

(** Every iteration that goes on moves the cursor up. *)
Definition advance_cursor (s : Stream) (now_ms : Z) : option (Stream * list Delivery) :=
  cursor_loop (S (S (Z.to_nat (s.(max_seq) - s.(cursor))))) s now_ms.

(** ** Per-adapter accounting *)
Definition note_adapter_seq (p : RxPolicy) (s : Stream) (adapter_id q : Z) : Stream :=
  let a := default AdapterSeq_init (sm_find adapter_id s.(adapter_seq)) in
  let inc z := to_u64 (z + 1) in
  let a :=
    if negb a.(as_have) then MkAdapterSeq true q (inc a.(as_expected)) (inc a.(as_received)) a.(as_missing)
    else if q >? a.(as_highest) then
      let delta := to_u32 (q - a.(as_highest)) in
      if delta >? p.(fwd_clamp_pkts)
      then MkAdapterSeq true q (inc a.(as_expected)) (inc a.(as_received)) []
      else MkAdapterSeq true q (to_u64 (a.(as_expected) + delta)) (inc a.(as_received))
             (fold_left (fun m n => (sm_emplace (a.(as_highest) + 1 + Z.of_nat n) tt m).1)
                (seq 0 (Z.to_nat (q - a.(as_highest) - 1))) a.(as_missing))
    else if sm_mem q a.(as_missing)
    then MkAdapterSeq a.(as_have) a.(as_highest) a.(as_expected) (inc a.(as_received)) (sm_erase q a.(as_missing))
    else a in
  set_adapter_seq s (sm_assign adapter_id a s.(adapter_seq)).

(** [als = std::max(als, seq)] *)
Definition note_last_seq (s : Stream) (adapter_id q : Z) : Stream :=
  set_adapter_last_seq s
    (sm_assign adapter_id (Z.max (default 0 (sm_find adapter_id s.(adapter_last_seq))) q) s.(adapter_last_seq)).

Definition hear_adapter (e : RxEngine) (adapter_id now_ms rssi : Z) : RxEngine :=
  let a := default Adapter_init (sm_find adapter_id e.(adapters_)) in
  let rx := to_u64 (a.(ad_rx) + 1) in
  let a :=
    if negb (rssi =? 0) then
      let q4 := rssi * 16 in
      MkAdapter a.(ad_last_seq) now_ms rx rssi
        (if a.(have_rssi) then a.(rssi_ewma_q4) + Z.quot (q4 - a.(rssi_ewma_q4)) 4 else q4) true
    else MkAdapter a.(ad_last_seq) now_ms rx a.(rssi_last) a.(rssi_ewma_q4) a.(have_rssi) in
  with_adapters_ e (sm_assign adapter_id a e.(adapters_)).

(** ** Ingest *)

(** The sustained-clamp resync: a fresh floor at this packet. *)
Definition resync (s : Stream) (v : DataView) : Stream :=
  let s := bump resyncs put_resyncs 1 s in
  let s := set_max_seq (set_cursor s v.(dv_hdr).(dh_seq)) v.(dv_hdr).(dh_seq) in
  let s := set_last_delivered_block (set_max_block s v.(dv_hdr).(dh_block_id)) v.(dv_hdr).(dh_block_id) in
  set_adapter_last_seq (set_completed_blocks (set_blocks (set_gaps (set_held s []) []) []) []) [].

(** A clamp-rejected packet: [false] drops it; a storm that lasts resyncs. *)
Definition clamp_reject (p : RxPolicy) (s : Stream) (v : DataView) (now_ms : Z) : bool * Stream :=
  let s := bump clamp_rejected put_clamp_rejected 1 s in
  if s.(first_clamp_ms) =? 0 then (false, set_first_clamp_ms s now_ms) else
  if (now_ms <=? s.(first_clamp_ms)) || (now_ms - s.(first_clamp_ms) <? p.(clamp_resync_ms))
  then (false, s)
  else (true, set_first_clamp_ms (resync s v) 0).

Definition clamp_check (p : RxPolicy) (s : Stream) (v : DataView) (now_ms : Z) : bool * Stream :=
  if negb (plausible_forward s.(cursor) v.(dv_hdr).(dh_seq) p.(fwd_clamp_pkts))
     || negb (plausible_forward s.(max_block) v.(dv_hdr).(dh_block_id) p.(fwd_clamp_blocks))
  then clamp_reject p s v now_ms
  else (true, set_first_clamp_ms s 0).

(** A first copy: counted, its block opened, held. *)
Definition hold_packet (e : RxEngine) (s : Stream) (adapter_id : Z) (v : DataView) (payload : list Z) (now_ms : Z)
  : Stream :=
  let q := v.(dv_hdr).(dh_seq) in let b := v.(dv_hdr).(dh_block_id) in
  let s := set_gaps s (sm_erase q s.(gaps)) in
  let s := bump uniq put_uniq 1 s in
  let s := set_max_seq s (Z.max s.(max_seq) q) in
  let s := set_counters s (put_highest_seq s.(counters) s.(max_seq)) in
  let s := note_last_seq s adapter_id q in
  let s := set_max_block s (Z.max s.(max_block) b) in
  let s := if negb s.(best_effort) then
      let i := default (MkBlockInfo 0 0) (sm_find b s.(blocks)) in
      let fs := if i.(first_seen_ms) =? 0 then now_ms else i.(first_seen_ms) in
      set_blocks s (sm_assign b (MkBlockInfo fs (block_deadline e s fs)) s.(blocks))
    else s in
  set_held s (sm_emplace q (MkHeld payload b v.(dv_hdr).(dh_data_flags) false) s.(held)).1.

Record EarlyDeliverResult : Type := MkEarly { handled : bool; block_complete : bool }.

Section OnData.
Context {E : Type}.

Definition EarlyDeliver : Type := option (E -> StreamKey -> Z -> Z -> Z -> list Z -> E * EarlyDeliverResult).

Definition early_deliver (p : RxPolicy) (s : Stream) (v : DataView) (payload : list Z) (early : EarlyDeliver) (env : E)
  : Stream * E :=
  match early with
  | None => (s, env)
  | Some f =>
    let q := v.(dv_hdr).(dh_seq) in
    let '(env, r) := f env s.(st_key) s.(st_local_stream_id) v.(dv_hdr).(dh_block_id) v.(dv_hdr).(dh_data_flags) payload in
    let s := match sm_find q s.(held) with
      | Some h => set_held s (sm_assign q (MkHeld h.(h_payload) h.(h_block_id) h.(h_flags) r.(handled)) s.(held))
      | None => s
      end in
    let s := if r.(handled) then bump delivered put_delivered 1 s else s in
    (if r.(block_complete) then mark_frame_complete p s v.(dv_hdr).(dh_block_id) else s, env)
  end.

(** [on_data] from the latched stream on. *)
Definition on_stream (e : RxEngine) (s : Stream) (adapter_id : Z) (v : DataView) (now_ms : Z)
    (early : EarlyDeliver) (env : E) : option (Stream * list Delivery * E) :=
  let p := e.(policy_) in let q := v.(dv_hdr).(dh_seq) in
  let s := set_peer_table_version (set_st_active_profile (set_last_activity_ms s now_ms)
             v.(dv_hdr).(dh_active_profile)) v.(dv_hdr).(dh_table_version) in
  let s := if match e.(local_table_version_) with
              | Some t => negb (v.(dv_hdr).(dh_table_version) =? t) | None => false end
    then bump table_mismatch put_table_mismatch 1 (set_best_effort s true) else s in
  let '(pass, s) := clamp_check p s v now_ms in
  if negb pass then Some (s, [], env) else
  let s := if Z.land v.(dv_hdr).(dh_data_flags) data_flags_kRetransmit =? 0
           then note_adapter_seq p s adapter_id q else s in
  if (q <? s.(cursor)) || sm_mem q s.(held)
  then Some (note_last_seq (bump diversity put_diversity 1 s) adapter_id q, [], env)
  else
    payload ← view_bytes v;
    let s := hold_packet e s adapter_id v payload now_ms in
    let s := note_gaps p s now_ms in
    let '(s, env) := early_deliver p s v payload early env in
    let s := evaluate_gaps e s now_ms in
    '(s, out) ← advance_cursor s now_ms;
    Some (s, out, env).

Definition on_data (e : RxEngine) (adapter_id : Z) (v : DataView) (now_ms rssi : Z)
    (early : EarlyDeliver) (env : E) : option (RxEngine * list Delivery * E) :=
  let e := hear_adapter e adapter_id now_ms rssi in
  let key := pack_key (view_key v) in
  let '(latched, e) := match sm_find key e.(streams_) with
    | Some _ => (true, e)
    | None => try_latch e v now_ms
    end in
  if negb latched then Some (e, [], env) else
  s ← sm_find key e.(streams_);
  '(s, out, env) ← on_stream e s adapter_id v now_ms early env;
  Some (with_streams_ e (sm_assign key s e.(streams_)), out, env).
End OnData.

Definition complete_frame (e : RxEngine) (local_stream_id block_id now_ms : Z)
  : option (RxEngine * list Delivery) :=
  match List.find (fun kv => kv.2.(st_local_stream_id) =? local_stream_id) e.(streams_) with
  | None => Some (e, [])
  | Some (key, s) =>
    let s := mark_frame_complete e.(policy_) s block_id in
    let s := evaluate_gaps e s now_ms in
    '(s, out) ← advance_cursor s now_ms;
    Some (with_streams_ e (sm_assign key s e.(streams_)), out)
  end.

(** ** The tick *)
Definition idle (p : RxPolicy) (s : Stream) (now_ms : Z) : bool :=
  (now_ms >? s.(last_activity_ms)) && (now_ms - s.(last_activity_ms) >? p.(idle_teardown_ms)).

Fixpoint tick_streams (e : RxEngine) (ss : smap Stream) (now_ms : Z) : option (smap Stream * list Delivery) :=
  match ss with
  | [] => Some ([], [])
  | (k, s) :: ss =>
    if idle e.(policy_) s now_ms then tick_streams e ss now_ms else
    '(s, out) ← advance_cursor (evaluate_gaps e s now_ms) now_ms;
    '(ss, outs) ← tick_streams e ss now_ms;
    Some ((k, s) :: ss, out ++ outs)
  end.

Definition tick (e : RxEngine) (now_ms : Z) : option (RxEngine * list Delivery) :=
  '(ss, out) ← tick_streams e e.(streams_) now_ms;
  Some (with_discovery_ (with_streams_ e ss)
    (List.filter (fun kv => negb (to_u64 (now_ms - kv.2.(cd_last_ms)) >? to_u64 (4 * e.(policy_).(admit_window_ms))))
       e.(discovery_)), out).

(** ** Introspection and resets *)
Definition adapters (e : RxEngine) : smap (Adapter * bool) :=
  let newest := fold_left (fun n kv => Z.max n kv.2.(ad_last_rx_ms)) e.(adapters_) 0 in
  map (fun kv => (kv.1, (kv.2,
    (newest >? kv.2.(ad_last_rx_ms)) && (newest - kv.2.(ad_last_rx_ms) >? e.(policy_).(stall_timeout_ms)))))
    e.(adapters_).

Definition live_adapter_count (e : RxEngine) : Z :=
  fold_left (fun n kv => to_u8 (n + (if (snd (snd kv) : bool) then 0 else 1))) (adapters e) 0.

Definition reset_stats (e : RxEngine) : RxEngine :=
  with_adapters_ (with_streams_ e (map (fun kv => (kv.1,
      set_adapter_seq (set_counters kv.2 RxStreamCounters_init)
        (map (fun ka => (ka.1, MkAdapterSeq ka.2.(as_have) ka.2.(as_highest) 0 0 [])) kv.2.(adapter_seq))))
      e.(streams_)))
    (map (fun kv => (kv.1, MkAdapter kv.2.(ad_last_seq) kv.2.(ad_last_rx_ms) 0 kv.2.(rssi_last)
                             kv.2.(rssi_ewma_q4) kv.2.(have_rssi))) e.(adapters_)).

Definition pinned_to (originator : Z) (w : WantSpec) : bool :=
  match w.(w_originator) with Some o => o =? originator | None => false end.

Definition select_originator (e : RxEngine) (originator : Z) : RxEngine :=
  if originator =? 0 then e else
  if forallb (pinned_to originator) e.(wants_) then e else
  with_discovery_ (with_streams_ (with_wants_ e
    (map (fun w => MkWantSpec w.(w_local_stream_id) w.(w_stream_type) (Some originator)) e.(wants_))) []) [].

Fixpoint selected_loop (ws : list WantSpec) (selected : option Z) : option Z :=
  match ws with
  | [] => selected
  | w :: ws =>
    match w.(w_originator), selected with
    | None, _ => None
    | Some o, Some s => if s =? o then selected_loop ws (Some o) else None
    | Some o, None => selected_loop ws (Some o)
    end
  end.
Definition selected_originator (e : RxEngine) : option Z := selected_loop e.(wants_) None.

Definition unpin_originator (e : RxEngine) : RxEngine :=
  with_discovery_ (with_streams_ (with_wants_ e
    (map (fun w => MkWantSpec w.(w_local_stream_id) w.(w_stream_type) None) e.(wants_))) []) [].
