(* ===== verification/RxStream.v ===== *)
(** * The receive stream's steps: what each handler preserves *)
From stdpp Require Import sorting.
From S2P Require Import Prelude Types Wire SMap Table Rx.
Lemma sm_mem_find {V} k (m : smap V) : sm_mem k m = true <-> is_Some (sm_find k m).
Proof. unfold sm_mem. destruct (sm_find k m); split; (done || by intros []). Qed.

Lemma sm_mem_false {V} k (m : smap V) : sm_mem k m = false <-> sm_find k m = None.
Proof. unfold sm_mem. by destruct (sm_find k m). Qed.

(** ** The invariant *)
Record wf_stream (K : Z) (s : Stream) : Prop := {
  ws_cursor : u32 s.(cursor);
  ws_max : u32 s.(max_seq);
  ws_held : sm_sorted s.(held);
  ws_gaps : sm_sorted s.(gaps);
  ws_held_in : forall m h, sm_find m s.(held) = Some h -> s.(cursor) <= m <= s.(max_seq);
  ws_gap_in : forall m g, sm_find m s.(gaps) = Some g ->
    s.(cursor) <= m < s.(max_seq) /\ sm_find m s.(held) = None;
  ws_window : s.(max_seq) - s.(cursor) <= K;
  ws_cover : forall m, s.(cursor) <= m < s.(max_seq) ->
    is_Some (sm_find m s.(held)) \/ is_Some (sm_find m s.(gaps));
  ws_top : s.(cursor) <= s.(max_seq) ->
    is_Some (sm_find s.(max_seq) s.(held)) \/
    (s.(held) = [] /\ s.(gaps) = [] /\ s.(cursor) = s.(max_seq))
}.

(** The window bounds what a stream stores. *)
Lemma wf_held_bound K s : 0 <= K -> wf_stream K s -> len s.(held) <= K + 1 /\ len s.(gaps) <= K.
Proof.
  intros HK [? ? Hh Hg Hin Hgi Hw _ _]. split.
  - assert (H : len (map fst s.(held)) <= Z.max 0 (s.(max_seq) - s.(cursor) + 1)).
    { apply sorted_range_length; [exact Hh|]. intros x Hx. apply list_elem_of_fmap in Hx as ([m h] & -> & He).
      apply (Hin _ h). by apply sm_elem_find. }
    rewrite length_map in H. lia.
  - assert (H : len (map fst s.(gaps)) <= Z.max 0 (s.(max_seq) - 1 - s.(cursor) + 1)).
    { apply sorted_range_length; [exact Hg|]. intros x Hx. apply list_elem_of_fmap in Hx as ([m g] & -> & He).
      destruct (Hgi m g); [by apply sm_elem_find|]. cbn. lia. }
    rewrite length_map in H. lia.
Qed.

(** Steps that only change what the gaps say. *)
Lemma wf_regap K s s' (f : Z -> Gap -> Gap) :
  wf_stream K s -> s'.(cursor) = s.(cursor) -> s'.(max_seq) = s.(max_seq) -> s'.(held) = s.(held) ->
  s'.(gaps) = map (fun kv => (kv.1, f kv.1 kv.2)) s.(gaps) -> wf_stream K s'.
Proof.
  intros [W1 W2 W3 W4 W5 W6 W7 W8 W9] E1 E2 E3 E4. split; rewrite ?E1, ?E2, ?E3, ?E4; try done.
  - by apply sm_sorted_map.
  - intros m g. rewrite sm_find_map. destruct (sm_find m (gaps s)) as [g0|] eqn:Eg; [|done].
    intros _. by apply (W6 m g0).
  - intros m Hm. destruct (W8 m Hm) as [?|[g Hg]]; [by left|right]. by rewrite sm_find_map, Hg.
  - intros H. destruct (W9 H) as [?|(? & -> & ?)]; [by left|by right].
Qed.

Lemma wf_same K s s' :
  wf_stream K s -> s'.(cursor) = s.(cursor) -> s'.(max_seq) = s.(max_seq) -> s'.(held) = s.(held) ->
  s'.(gaps) = s.(gaps) -> wf_stream K s'.
Proof.
  intros W E1 E2 E3 E4. apply (wf_regap K s s' (fun _ g => g)); try done.
  rewrite E4. clear. induction (gaps s) as [|[k g] l IH]; [done|]. cbn. by f_equal.
Qed.

(** What the cursor never touches. *)
Definition same_id (s s' : Stream) : Prop :=
  s'.(st_key) = s.(st_key) /\ s'.(st_local_stream_id) = s.(st_local_stream_id) /\ s'.(best_effort) = s.(best_effort).

(** ** One iteration of the cursor loop *)
Definition delivery_of (s : Stream) (q : Z) (h : Held) : Delivery :=
  MkDelivery q s.(st_local_stream_id) h.(h_block_id) h.(h_flags) h.(h_payload).

Lemma wf_refloor K s : 0 <= K -> u32 s.(cursor) -> wf_stream K (refloor_on_wrap s).
Proof.
  intros HK Hc. split; cbn; try done; [constructor|constructor|lia|intros m Hm; lia|by right].
Qed.

(** What an iteration does at a held packet. *)
Lemma cursor_step_held K s now h :
  0 <= K -> wf_stream K s -> sm_find s.(cursor) s.(held) = Some h ->
  let '(s', call, go) := cursor_step s now in
  call = (if h.(h_delivered_early) then None else Some (delivery_of s s.(cursor) h)) /\
  wf_stream K s' /\ same_id s s' /\
  (if (go : bool) then s'.(cursor) = s.(cursor) + 1 /\ s'.(max_seq) = s.(max_seq) /\
     s'.(held) = sm_erase s.(cursor) s.(held) /\ s'.(gaps) = s.(gaps) /\ s'.(counters).(resyncs) = s.(counters).(resyncs)
   else s.(cursor) = 4294967295 /\ s'.(held) = [] /\ s'.(gaps) = [] /\ s'.(cursor) = 0 /\ s'.(max_seq) = 0 /\
     s'.(counters).(resyncs) = to_u64 (s.(counters).(resyncs) + 1)).
Proof.
  intros HK W Hh. pose proof W as [W1 W2 W3 W4 W5 W6 W7 W8 W9].
  assert (Hcm : cursor s <= max_seq s) by (apply (W5 (cursor s) h Hh)).
  assert (Hng : sm_find (cursor s) (gaps s) = None).
  { destruct (sm_find (cursor s) (gaps s)) as [g|] eqn:E; [|done]. destruct (W6 _ g E). congruence. }
  assert (Eg : sm_erase (cursor s) (gaps s) = gaps s).
  { apply sm_ext; [by apply sm_erase_sorted|done|]. intros k. rewrite sm_find_erase by done.
    destruct (Z.eqb_spec k (cursor s)); [by subst|done]. }
  unfold cursor_step. rewrite Hh.
  set (s1 := if h_delivered_early h then s else _).
  assert (E1 : cursor s1 = cursor s /\ max_seq s1 = max_seq s /\ held s1 = held s /\ gaps s1 = gaps s /\
               resyncs (counters s1) = resyncs (counters s) /\ same_id s s1)
    by (unfold s1; by destruct (h_delivered_early h)).
  destruct E1 as (E1 & E2 & E3 & E4 & E5 & E6). clearbody s1.
  cbn [set_cursor set_gaps set_held set_last_delivered_block cursor max_seq held gaps last_delivered_block].
  rewrite E1, E3, E4, Eg.
  destruct (Z.eqb_spec (to_u32 (cursor s + 1)) 0) as [E0|E0].
  - split; [done|]. assert (Hc : cursor s = 4294967295).
    { unfold to_u32, u32 in *. destruct (Z.eq_dec (cursor s + 1) 4294967296); [lia|]. rewrite Z.mod_small in E0; lia. }
    split; [apply wf_refloor; [done|]; cbn; apply to_u32_u32|]. split; [exact E6|].
    cbn. rewrite E0, E5. by split_and!.
  - assert (Hlt : cursor s + 1 < 4294967296).
    { unfold u32 in *. destruct (Z.eq_dec (cursor s + 1) 4294967296) as [E|]; [by rewrite E in E0|lia]. }
    assert (Hc : to_u32 (cursor s + 1) = cursor s + 1) by (apply to_u32_id; unfold u32 in *; lia).
    split; [done|]. cbn. rewrite Hc, E2. split; [|split; [exact E6|by rewrite E5]].
    split; cbn; rewrite ?Hc, ?E2; unfold u32 in *; try done; try lia.
    + by apply sm_erase_sorted.
    + intros m h'. rewrite sm_find_erase by done. destruct (Z.eqb_spec m (cursor s)); [done|].
      intros H. specialize (W5 m h' H). lia.
    + intros m g H. destruct (W6 m g H) as [Hm Hn]. split.
      * destruct (Z.eq_dec m (cursor s)); [congruence|lia].
      * rewrite sm_find_erase by done. by destruct (_ =? _).
    + intros m Hm. rewrite sm_find_erase by done. destruct (Z.eqb_spec m (cursor s)); [lia|]. apply W8. lia.
    + intros Hle. left. rewrite sm_find_erase by done. destruct (Z.eqb_spec (max_seq s) (cursor s)); [lia|].
      destruct (W9 Hcm) as [?|(Hnil & _)]; [done|]. by rewrite Hnil in Hh.
Qed.

(** What an iteration does at a gap it may skip, and otherwise. *)
Lemma skip_gap_same s now g s' :
  skip_gap s now g = Some s' ->
  s'.(cursor) = s.(cursor) /\ s'.(max_seq) = s.(max_seq) /\ s'.(held) = s.(held) /\ s'.(gaps) = s.(gaps) /\
  s'.(blocks) = s.(blocks) /\ same_id s s' /\
  s'.(counters).(resyncs) = s.(counters).(resyncs).
Proof. unfold skip_gap. intros H. repeat case_match; simplify_eq/=; done. Qed.

Lemma cursor_step_gap K s now :
  wf_stream K s -> s.(cursor) <= s.(max_seq) -> sm_find s.(cursor) s.(held) = None ->
  let '(s', call, go) := cursor_step s now in
  call = None /\ wf_stream K s' /\ same_id s s' /\
  (if (go : bool) then s'.(cursor) = s.(cursor) + 1 /\ s'.(max_seq) = s.(max_seq) /\ s'.(held) = s.(held) /\
     s'.(gaps) = sm_erase s.(cursor) s.(gaps) /\ s'.(counters).(resyncs) = s.(counters).(resyncs)
   else s' = s).
Proof.
  intros W Hcm Hh. pose proof W as [W1 W2 W3 W4 W5 W6 W7 W8 W9]. unfold cursor_step. rewrite Hh.
  destruct (sm_find (cursor s) (gaps s)) as [g|] eqn:Eg; [|done].
  destruct (skip_gap s now g) as [s1|] eqn:Es; [|done].
  destruct (skip_gap_same _ _ _ _ Es) as (E1 & E2 & E3 & E4 & E5 & E6 & E7). clear Es.
  destruct (W6 _ g Eg) as [Hc _]. unfold u32 in *.
  cbn [set_cursor set_gaps cursor]. rewrite E1.
  rewrite (to_u32_id (cursor s + 1)) by (unfold u32; lia). destruct (Z.eqb_spec (cursor s + 1) 0); [lia|].
  cbn. rewrite E2, E3, E4, E7. split; [done|]. split; [|split; [exact E6|done]].
  split; cbn; rewrite ?E2, ?E3, ?E4; unfold u32; try done; try lia.
  - by apply sm_erase_sorted.
  - intros m h H. specialize (W5 m h H). destruct (Z.eq_dec m (cursor s)); [congruence|lia].
  - intros m g'. rewrite sm_find_erase by done. destruct (Z.eqb_spec m (cursor s)); [done|].
    intros H. destruct (W6 m g' H). split; [lia|done].
  - intros m Hm. rewrite sm_find_erase by done. destruct (Z.eqb_spec m (cursor s)); [lia|]. apply W8. lia.
  - intros _. left. destruct (W9 Hcm) as [?|(? & Hnil & ?)]; [done|]. by rewrite Hnil in Eg.
Qed.

(** ** The loop *)
Definition seqs (out : list Delivery) : list Z := map dl_seq out.

(** A call the loop may make from [s]: a packet held, not delivered early. *)
Definition from_held (s : Stream) (d : Delivery) : Prop :=
  exists h, sm_find d.(dl_seq) s.(held) = Some h /\ h.(h_delivered_early) = false /\ d = delivery_of s d.(dl_seq) h.

Record advanced (K : Z) (s s' : Stream) (out : list Delivery) : Prop := {
  av_wf : wf_stream K s';
  av_id : same_id s s';
  av_held : forall m h, sm_find m s'.(held) = Some h -> sm_find m s.(held) = Some h;
  av_out : Forall (from_held s) out;
  av_sorted : StronglySorted Z.lt (seqs out);
  av_low : Forall (fun q => s.(cursor) <= q) (seqs out);
  av_high : s'.(counters).(resyncs) = s.(counters).(resyncs) ->
    s.(cursor) <= s'.(cursor) /\ s'.(max_seq) = s.(max_seq) /\ Forall (fun q => q < s'.(cursor)) (seqs out);
  av_resyncs : s'.(counters).(resyncs) = s.(counters).(resyncs) \/
    s'.(counters).(resyncs) = to_u64 (s.(counters).(resyncs) + 1)
}.

Lemma advanced_refl K s : wf_stream K s -> advanced K s s [].
Proof. intros W. split; try done; try (by constructor). Qed.

Lemma to_u64_succ_ne z : to_u64 (z + 1) <> z.
Proof.
  unfold to_u64. intros H. pose proof (Z.mod_pos_bound (z + 1) 18446744073709551616 ltac:(lia)) as Hb.
  rewrite H in Hb. destruct (Z.eq_dec (z + 1) 18446744073709551616) as [E|E].
  - rewrite E, Z.mod_same in H by lia. lia.
  - rewrite Z.mod_small in H by lia. lia.
Qed.

Lemma to_u64_succ2_ne z : to_u64 (to_u64 (z + 1) + 1) <> z.
Proof.
  unfold to_u64. rewrite Z.add_mod_idemp_l by lia. intros H.
  pose proof (Z.mod_pos_bound (z + 1 + 1) 18446744073709551616 ltac:(lia)) as Hb. rewrite H in Hb.
  destruct (Z.le_gt_cases 18446744073709551616 (z + 1 + 1)) as [E|E].
  - rewrite <- (Z.mod_unique_pos (z + 1 + 1) 18446744073709551616 1 (z + 2 - 18446744073709551616)) in H; lia.
  - rewrite Z.mod_small in H by lia. lia.
Qed.

Lemma same_id_trans s1 s2 s3 : same_id s1 s2 -> same_id s2 s3 -> same_id s1 s3.
Proof. intros (? & ? & ?) (? & ? & ?). split_and!; congruence. Qed.

(** A call from a later stream is a call from the first. *)
Lemma from_held_back s s1 d :
  same_id s s1 -> (forall m h, sm_find m s1.(held) = Some h -> sm_find m s.(held) = Some h) ->
  from_held s1 d -> from_held s d.
Proof.
  intros (_ & E & _) Hh (h & H1 & H2 & H3). exists h. split; [by apply Hh|]. split; [done|].
  rewrite H3 at 1. unfold delivery_of. by rewrite E.
Qed.

(** Composition with one iteration that goes on. *)
Lemma advanced_step K s s1 s' call out :
  same_id s s1 -> (forall m h, sm_find m s1.(held) = Some h -> sm_find m s.(held) = Some h) ->
  s1.(cursor) = s.(cursor) + 1 -> s1.(max_seq) = s.(max_seq) ->
  s1.(counters).(resyncs) = s.(counters).(resyncs) ->
  (forall d, call = Some d -> d.(dl_seq) = s.(cursor) /\ from_held s d) ->
  advanced K s1 s' out -> advanced K s s' (app_call call out).
Proof.
  intros Hid Hh Ec Em Er Hc [A1 A2 A3 A4 A5 A6 A7 A8]. rewrite Ec in A6.
  assert (Hback : Forall (from_held s) out) by (eapply Forall_impl; [exact A4|]; intros; by eapply from_held_back).
  assert (Hlow : Forall (fun q => s.(cursor) <= q) (seqs out)) by (eapply Forall_impl; [exact A6|]; cbn; lia).
  split; [done|by eapply same_id_trans|auto| | | | |by rewrite Er in A8].
  - destruct call as [d|]; cbn; [|done]. constructor; [by apply Hc|done].
  - destruct call as [d|]; cbn; [|done]. destruct (Hc d eq_refl) as [-> _]. constructor; [done|].
    eapply Forall_impl; [exact A6|]. cbn. lia.
  - destruct call as [d|]; cbn; [|done]. destruct (Hc d eq_refl) as [-> _]. constructor; [lia|done].
  - rewrite <- Er, <- Em, Ec in *. intros H. destruct (A7 H) as (? & ? & Hhi). split; [lia|]. split; [done|].
    destruct call as [d|]; cbn; [|done]. destruct (Hc d eq_refl) as [-> _]. constructor; [lia|done].
Qed.

Lemma cursor_loop_ok K : 0 <= K -> forall fuel s now,
  wf_stream K s -> (Z.to_nat (s.(max_seq) - s.(cursor) + 1) < fuel)%nat ->
  exists s' out, cursor_loop fuel s now = Some (s', out) /\ advanced K s s' out.
Proof.
  intros HK. induction fuel as [|fuel IH]; intros s now W Hf; [lia|]. cbn [cursor_loop].
  destruct (Z.leb_spec (cursor s) (max_seq s)) as [Hcm|Hcm]; [|eexists _, _; split; [done|by apply advanced_refl]].
  destruct (sm_find (cursor s) (held s)) as [h|] eqn:Eh.
  - pose proof (cursor_step_held K s now h HK W Eh) as H. destruct (cursor_step s now) as [[s1 call] go].
    destruct H as (Ecall & W1 & Hid & H).
    assert (Hcall : forall d, call = Some d -> dl_seq d = cursor s /\ from_held s d).
    { intros d ->. destruct (h_delivered_early h) eqn:Ee; [done|]. injection Ecall as ->. split; [done|]. by exists h. }
    destruct go.
    + destruct H as (E1 & E2 & E3 & E4 & E5).
      destruct (IH s1 now W1) as (s' & out & -> & Ha); [lia|]. cbn [mbind option_bind].
      eexists _, _. split; [done|]. eapply (advanced_step K s s1); try done.
      intros m h'. rewrite E3. pose proof (ws_held _ _ W). rewrite sm_find_erase by done. by destruct (_ =? _).
    + destruct H as (Ec & E1 & E2 & E3 & E4 & E5). eexists _, _. split; [done|].
      split; [done|done|by rewrite E1| | | | |by right].
      * destruct call; cbn; [|done]. constructor; [by apply Hcall|done].
      * destruct call; cbn; repeat constructor.
      * destruct call as [d|]; cbn; [|done]. destruct (Hcall d eq_refl) as [-> _]. by constructor.
      * rewrite E5. intros E. by apply to_u64_succ_ne in E.
  - pose proof (cursor_step_gap K s now W Hcm Eh) as H. destruct (cursor_step s now) as [[s1 call] go].
    destruct H as (-> & W1 & Hid & H). destruct go.
    + destruct H as (E1 & E2 & E3 & E4 & E5).
      destruct (IH s1 now W1) as (s' & out & -> & Ha); [lia|]. cbn [mbind option_bind].
      eexists _, _. split; [done|]. eapply (advanced_step K s s1); try done. intros m h'. by rewrite E3.
    + subst s1. eexists _, _. split; [done|]. by apply advanced_refl.
Qed.

Lemma advance_cursor_ok K s now :
  0 <= K -> wf_stream K s -> exists s' out, advance_cursor s now = Some (s', out) /\ advanced K s s' out.
Proof. intros HK W. apply cursor_loop_ok; [done|done|lia]. Qed.

(** Domain equality of ordered maps. *)
Definition same_dom {V W} (m : smap V) (m' : smap W) : Prop :=
  forall k, is_Some (sm_find k m') <-> is_Some (sm_find k m).

Lemma same_dom_none {V W} (m : smap V) (m' : smap W) k :
  same_dom m m' -> sm_find k m = None -> sm_find k m' = None.
Proof.
  intros H E. destruct (sm_find k m') as [x|] eqn:E'; [|done].
  assert (Hs : is_Some (sm_find k m)) by (apply H; by exists x). rewrite E in Hs. by destruct Hs.
Qed.

Lemma same_dom_nil {V W} (m : smap V) (m' : smap W) : same_dom m m' -> m = [] -> m' = [].
Proof.
  intros H ->. destruct m' as [|[k v] m']; [done|]. destruct (H k) as [H1 _].
  cbn in H1. rewrite Z.eqb_refl in H1. destruct H1; [by eexists|done].
Qed.

Lemma wf_dom K s s' :
  wf_stream K s -> s'.(cursor) = s.(cursor) -> s'.(max_seq) = s.(max_seq) ->
  sm_sorted s'.(held) -> sm_sorted s'.(gaps) -> same_dom s.(held) s'.(held) -> same_dom s.(gaps) s'.(gaps) ->
  wf_stream K s'.
Proof.
  intros [W1 W2 W3 W4 W5 W6 W7 W8 W9] E1 E2 Sh Sg Dh Dg. split; rewrite ?E1, ?E2; try done.
  - intros m h H. destruct (Dh m) as [D _]. destruct D as [h' Hh']; [by exists h|]. by apply (W5 m h').
  - intros m g H. destruct (Dg m) as [D _]. destruct D as [g' Hg']; [by exists g|].
    destruct (W6 m g' Hg'). split; [done|]. by apply (same_dom_none _ _ _ Dh).
  - intros m Hm. destruct (W8 m Hm) as [?|?]; [left; by apply Dh|right; by apply Dg].
  - intros H. destruct (W9 H) as [?|(? & ? & ?)]; [left; by apply Dh|right].
    split; [by apply (same_dom_nil _ _ Dh)|]. split; [by apply (same_dom_nil _ _ Dg)|done].
Qed.

Lemma same_dom_assign {V} k v (m : smap V) :
  sm_sorted m -> is_Some (sm_find k m) -> same_dom m (sm_assign k v m).
Proof.
  intros Hs Hk k'. rewrite sm_find_assign by done. destruct (Z.eqb_spec k' k) as [->|]; [|done].
  split; [done|]. intros _. by eexists.
Qed.

(** ** Packets received and the packets held *)
Definition received : Type := list (Z * Z * Z * list Z).
Definition packet_of (v : DataView) (payload : list Z) : Z * Z * Z * list Z :=
  (v.(dv_hdr).(dh_seq), v.(dv_hdr).(dh_block_id), v.(dv_hdr).(dh_data_flags), payload).
Definition held_packet (q : Z) (h : Held) : Z * Z * Z * list Z := (q, h.(h_block_id), h.(h_flags), h.(h_payload)).

(** Everything held was received. *)
Definition holds (rec : received) (s : Stream) : Prop :=
  forall q h, sm_find q s.(held) = Some h -> held_packet q h ∈ rec.

(** A call of the delivery callback hands on a received packet. *)
Definition authentic_call (rec : received) (id : Z) (d : Delivery) : Prop :=
  d.(dl_local_stream_id) = id /\ (d.(dl_seq), d.(dl_block_id), d.(dl_flags), d.(dl_payload)) ∈ rec.

Lemma from_held_authentic rec s d :
  holds rec s -> from_held s d -> authentic_call rec s.(st_local_stream_id) d.
Proof.
  intros Hr (h & Hh & _ & ->). split; [done|]. cbn. exact (Hr _ _ Hh).
Qed.

(** ** Handlers that leave the sequence state alone *)

(** Cursor, window, packets and gap domain unchanged. *)
Record quiet (s s' : Stream) : Prop := {
  qt_id : s'.(st_key) = s.(st_key) /\ s'.(st_local_stream_id) = s.(st_local_stream_id);
  qt_cursor : s'.(cursor) = s.(cursor);
  qt_max : s'.(max_seq) = s.(max_seq);
  qt_held : s'.(held) = s.(held);
  qt_gaps : exists f : Z -> Gap -> Gap, s'.(gaps) = map (fun kv => (kv.1, f kv.1 kv.2)) s.(gaps);
  qt_resyncs : s'.(counters).(resyncs) = s.(counters).(resyncs)
}.

Lemma map_same_gaps (g : smap Gap) : g = map (fun kv => (kv.1, (fun (_ : Z) x => x) kv.1 kv.2)) g.
Proof. induction g as [|[k x] g IH]; [done|]. cbn. by f_equal. Qed.

Lemma quiet_gaps_same s s' :
  s'.(st_key) = s.(st_key) -> s'.(st_local_stream_id) = s.(st_local_stream_id) -> s'.(cursor) = s.(cursor) ->
  s'.(max_seq) = s.(max_seq) -> s'.(held) = s.(held) -> s'.(gaps) = s.(gaps) ->
  s'.(counters).(resyncs) = s.(counters).(resyncs) -> quiet s s'.
Proof. intros. split; try done. exists (fun _ g => g). congruence || (rewrite H4; apply map_same_gaps). Qed.

Lemma quiet_trans s1 s2 s3 : quiet s1 s2 -> quiet s2 s3 -> quiet s1 s3.
Proof.
  intros [[] ? ? ? [f F] ?] [[] ? ? ? [g G] ?]. split; try congruence; [split; congruence|].
  exists (fun k x => g k (f k x)). rewrite G, F, map_map. done.
Qed.

Lemma quiet_wf K s s' : quiet s s' -> wf_stream K s -> wf_stream K s'.
Proof. intros [_ E1 E2 E3 [f E4] _] W. by apply (wf_regap K s s' f). Qed.

Lemma quiet_holds rec s s' : quiet s s' -> holds rec s -> holds rec s'.
Proof. intros [_ _ _ E _ _] H q h. rewrite E. apply H. Qed.

Lemma evaluate_gaps_quiet e s now : quiet s (evaluate_gaps e s now).
Proof.
  split; try done. cbn. eexists (fun m g => (evaluate_gap (policy_ e) s (min_live_adapter_seq e s now) now m g).1).
  by rewrite map_map.
Qed.

Lemma mark_frame_complete_quiet p s b : quiet s (mark_frame_complete p s b).
Proof.
  split; try done. cbn.
  exists (fun m g => if match gap_block s m with Some b' => b' =? b | None => false end
    then MkGap g.(first_missing_ms) g.(declared_lost) g.(superseded) true else g).
  apply map_ext. intros [m g]. cbn. done.
Qed.

Lemma note_adapter_seq_quiet p s a q : quiet s (note_adapter_seq p s a q).
Proof. by apply quiet_gaps_same. Qed.

Lemma note_last_seq_quiet s a q : quiet s (note_last_seq s a q).
Proof. by apply quiet_gaps_same. Qed.

(** ** A packet taken in: the invariant before its gaps are noted *)
Record open_stream (K : Z) (s : Stream) : Prop := {
  op_cursor : u32 s.(cursor);
  op_max : u32 s.(max_seq);
  op_held : sm_sorted s.(held);
  op_gaps : sm_sorted s.(gaps);
  op_held_in : forall m h, sm_find m s.(held) = Some h -> s.(cursor) <= m <= s.(max_seq);
  op_gap_in : forall m g, sm_find m s.(gaps) = Some g ->
    s.(cursor) <= m < s.(max_seq) /\ sm_find m s.(held) = None;
  op_window : 0 <= s.(max_seq) - s.(cursor) <= K;
  op_top : is_Some (sm_find s.(max_seq) s.(held))
}.

Definition covered (s : Stream) (m : Z) : Prop :=
  is_Some (sm_find m s.(held)) \/ is_Some (sm_find m s.(gaps)).

Lemma open_wf K s :
  open_stream K s -> (forall m, s.(cursor) <= m < s.(max_seq) -> covered s m) -> wf_stream K s.
Proof. intros [] C. split; try done; [lia|]. intros _. by left. Qed.

(** What noting a gap leaves alone. *)
Definition gaps_only (s s' : Stream) : Prop :=
  s'.(st_key) = s.(st_key) /\ s'.(st_local_stream_id) = s.(st_local_stream_id) /\ s'.(cursor) = s.(cursor) /\
  s'.(max_seq) = s.(max_seq) /\ s'.(held) = s.(held) /\ s'.(counters) = s.(counters).

Lemma note_gap_open K s now m :
  open_stream K s -> s.(cursor) <= m < s.(max_seq) ->
  let s' := note_gap s now m in
  open_stream K s' /\ gaps_only s s' /\ covered s' m /\ (forall k, covered s k -> covered s' k).
Proof.
  intros O Hm. unfold note_gap. cbn zeta. destruct (sm_mem m (held s) || sm_mem m (gaps s)) eqn:Hb.
  - split; [done|]. split; [done|]. split; [|done].
    apply orb_true_iff in Hb as [Hb|Hb]; apply sm_mem_find in Hb; [by left|by right].
  - apply orb_false_iff in Hb as [Hh Hg]. apply sm_mem_false in Hh, Hg.
    set (g := MkGap _ _ _ _). pose proof O as [O1 O2 O3 O4 O5 O6 O7 O8].
    assert (Hf : forall k, sm_find k (sm_emplace m g (gaps s)).1 =
      match sm_find k (gaps s) with Some x => Some x | None => if k =? m then Some g else None end)
      by (intros k; by apply sm_find_emplace).
    split; [|split; [done|split]].
    + split; cbn; try done; [by apply sm_emplace_sorted|]. intros k g'. rewrite Hf.
      destruct (sm_find k (gaps s)) eqn:E; [intros _; by apply (O6 k g0)|].
      destruct (Z.eqb_spec k m); [|done]. intros _. by subst k.
    + right. cbn. rewrite Hf, Hg, Z.eqb_refl. by eexists.
    + intros k [?|[x Hx]]; [by left|right]. cbn. rewrite Hf, Hx. by eexists.
Qed.

Lemma note_gaps_wf p K s now :
  K = p.(fwd_clamp_pkts) -> open_stream K s ->
  let s' := note_gaps p s now in wf_stream K s' /\ gaps_only s s'.
Proof.
  intros EK O. unfold note_gaps. cbn zeta. pose proof O as [O1 O2 _ _ _ _ O7 _]. unfold u32 in *.
  rewrite to_u32_id by (unfold u32; lia). destruct (Z.gtb_spec (max_seq s - cursor s) (fwd_clamp_pkts p)) as [Hgt|_]; [lia|].
  set (d := max_seq s - cursor s).
  assert (H : forall n s0, open_stream K s0 -> gaps_only s s0 ->
    let s1 := fold_left (fun s n => note_gap s now (to_u32 (cursor s + Z.of_nat n))) (seq n (Z.to_nat d - n)) s0 in
    (n <= Z.to_nat d)%nat -> (forall m, cursor s <= m < cursor s + Z.of_nat n -> covered s0 m) ->
    open_stream K s1 /\ gaps_only s s1 /\ (forall m, cursor s <= m < max_seq s -> covered s1 m)).
  { intros n s0. remember (Z.to_nat d - n)%nat as k eqn:Ek. revert n s0 Ek.
    induction k as [|k IH]; intros n s0 Ek O0 G0 s1 Hn Hc.
    - split; [done|]. split; [done|]. intros m Hm. apply Hc. unfold d in *. lia.
    - cbn [seq fold_left] in s1. pose proof G0 as (_ & _ & Ec & Em & _ & _).
      assert (Hm : cursor s0 <= to_u32 (cursor s0 + Z.of_nat n) < max_seq s0).
      { rewrite Ec, Em, to_u32_id; unfold u32, d in *; lia. }
      destruct (note_gap_open K s0 now _ O0 Hm) as (O2' & G2 & C2 & C3).
      subst s1. apply (IH (S n)); [lia|done| |lia|].
      + destruct G0 as (? & ? & ? & ? & ? & ?), G2 as (? & ? & ? & ? & ? & ?). split_and!; congruence.
      + intros m Hmm. destruct (Z.eq_dec m (cursor s + Z.of_nat n)) as [->|]; [|apply C3, Hc; lia].
        replace (cursor s + Z.of_nat n) with (to_u32 (cursor s0 + Z.of_nat n)); [exact C2|].
        rewrite Ec, to_u32_id; [done|unfold u32, d in *; lia]. }
  specialize (H 0%nat s O). rewrite Nat.sub_0_r in H. destruct H as (O' & G' & C'); [done|lia|intros; lia|].
  split; [|done]. apply open_wf; [done|]. destruct G' as (_ & _ & -> & -> & _ & _). exact C'.
Qed.

(** ** Taking a packet in *)
Lemma hold_packet_open K e s a v payload now :
  wf_stream K s -> u32 v.(dv_hdr).(dh_seq) -> s.(cursor) <= v.(dv_hdr).(dh_seq) ->
  v.(dv_hdr).(dh_seq) - s.(cursor) <= K -> sm_find v.(dv_hdr).(dh_seq) s.(held) = None ->
  let s' := hold_packet e s a v payload now in
  open_stream K s' /\ s'.(st_key) = s.(st_key) /\ s'.(st_local_stream_id) = s.(st_local_stream_id) /\
  s'.(cursor) = s.(cursor) /\ s'.(counters).(resyncs) = s.(counters).(resyncs) /\
  (forall q, sm_find q s'.(held) = if q =? v.(dv_hdr).(dh_seq)
     then Some (MkHeld payload v.(dv_hdr).(dh_block_id) v.(dv_hdr).(dh_data_flags) false) else sm_find q s.(held)).
Proof.
  intros W Hq Hc HK Hn. pose proof W as [W1 W2 W3 W4 W5 W6 W7 W8 W9].
  set (q := dh_seq (dv_hdr v)) in *. set (h := MkHeld payload _ _ _). cbn zeta.
  assert (Hfields : forall s1, s1 = hold_packet e s a v payload now ->
    cursor s1 = cursor s /\ max_seq s1 = Z.max (max_seq s) q /\ gaps s1 = sm_erase q (gaps s) /\
    held s1 = (sm_emplace q h (held s)).1 /\ st_key s1 = st_key s /\ st_local_stream_id s1 = st_local_stream_id s /\
    resyncs (counters s1) = resyncs (counters s)).
  { intros s1 ->. unfold hold_packet. cbn. by destruct (best_effort s). }
  destruct (Hfields _ eq_refl) as (E1 & E2 & E3 & E4 & E5 & E6 & E7). set (s1 := hold_packet _ _ _ _ _ _) in *.
  clearbody s1. clear Hfields.
  assert (Hf : forall k, sm_find k (held s1) = if k =? q then Some h else sm_find k (held s)).
  { intros k. rewrite E4, sm_find_emplace by done. destruct (Z.eqb_spec k q) as [->|]; [by rewrite Hn|].
    by destruct (sm_find k (held s)). }
  split; [|by split_and!].
  split; rewrite ?E1, ?E2, ?E3; unfold u32 in *; try done; try lia.
  - rewrite E4. by apply sm_emplace_sorted.
  - by apply sm_erase_sorted.
  - intros m h'. rewrite Hf. destruct (Z.eqb_spec m q) as [->|]; [intros _; lia|].
    intros H. specialize (W5 m h' H). lia.
  - intros m g. rewrite sm_find_erase by done. destruct (Z.eqb_spec m q) as [->|Hmq]; [done|].
    intros H. destruct (W6 m g H) as [? Hmn]. split; [lia|]. rewrite Hf. by destruct (Z.eqb_spec m q).
  - rewrite Hf. destruct (Z.eqb_spec (Z.max (max_seq s) q) q) as [|Hne]; [by eexists|].
    rewrite Z.max_l by lia. destruct (W9 ltac:(lia)) as [?|(_ & _ & ?)]; [done|lia].
Qed.

(** ** The clamp *)

(** A stream with nothing stored, at any floor. *)
Lemma wf_empty K s :
  0 <= K -> u32 s.(cursor) -> s.(max_seq) = s.(cursor) -> s.(held) = [] -> s.(gaps) = [] -> wf_stream K s.
Proof.
  intros HK Hc E1 E2 E3. split; rewrite ?E1, ?E2, ?E3; try done; [constructor|constructor|lia|intros m Hm; lia|].
  intros _. right. by split_and!.
Qed.

(** What the clamp decides, and the floor it leaves. *)
Definition clamp_outcome (K : Z) (s : Stream) (v : DataView) (r : bool * Stream) : Prop :=
  let '(pass, s') := r in
  wf_stream K s' /\ s'.(st_key) = s.(st_key) /\ s'.(st_local_stream_id) = s.(st_local_stream_id) /\
  (pass = true -> v.(dv_hdr).(dh_seq) - s'.(cursor) <= K) /\
  ((s'.(counters).(resyncs) = s.(counters).(resyncs) /\ s'.(cursor) = s.(cursor) /\ s'.(held) = s.(held) /\
    s'.(max_seq) = s.(max_seq)) \/
   (s'.(counters).(resyncs) = to_u64 (s.(counters).(resyncs) + 1) /\ s'.(held) = [])).

Lemma clamp_reject_ok p K s v now :
  0 <= K -> wf_stream K s -> u32 v.(dv_hdr).(dh_seq) -> clamp_outcome K s v (clamp_reject p s v now).
Proof.
  intros HK W Hq. unfold clamp_reject, clamp_outcome. cbn [first_clamp_ms set_counters bump].
  destruct (first_clamp_ms s =? 0).
  - split; [by apply (wf_same K s)|]. cbn. split_and!; (done || left; by split_and!).
  - destruct (_ || _).
    + split; [by apply (wf_same K s)|]. cbn. split_and!; (done || left; by split_and!).
    + split; [by apply wf_empty|]. cbn. rewrite Z.sub_diag. split_and!; (done || right; by split_and!).
Qed.

Lemma clamp_check_ok p K s v now :
  K = p.(fwd_clamp_pkts) -> 0 <= K -> wf_stream K s -> u32 v.(dv_hdr).(dh_seq) ->
  clamp_outcome K s v (clamp_check p s v now).
Proof.
  intros EK HK W Hq. unfold clamp_check. pose proof W as [W1 W2 _ _ _ _ _ _ _].
  destruct (plausible_forward (cursor s) (dh_seq (dv_hdr v)) (fwd_clamp_pkts p)) eqn:Hp; cbn [negb orb];
    [|by apply clamp_reject_ok].
  destruct (plausible_forward (max_block s) _ _); cbn [negb]; [|by apply clamp_reject_ok].
  split; [by apply (wf_same K s)|]. cbn. apply plausible_forward_spec in Hp; [|done|done].
  split_and!; (done || (intros; lia) || left; by split_and!).
Qed.

(** ** The handlers *)

(** What a handler promises: the invariant, the stream's identity, that only
    received packets are held and delivered, and - unless the floor moved -
    that the delivered packets are consecutive steps of the cursor. *)
Record step_outcome (K : Z) (rec : received) (s s' : Stream) (out : list Delivery) : Prop := {
  so_wf : wf_stream K s';
  so_id : s'.(st_key) = s.(st_key) /\ s'.(st_local_stream_id) = s.(st_local_stream_id);
  so_holds : holds rec s';
  so_calls : Forall (authentic_call rec s.(st_local_stream_id)) out;
  so_sorted : StronglySorted Z.lt (seqs out);
  so_range : s'.(counters).(resyncs) = s.(counters).(resyncs) ->
    s.(cursor) <= s'.(cursor) /\ Forall (fun q => s.(cursor) <= q < s'.(cursor)) (seqs out)
}.

Lemma silent_outcome K rec s s' :
  wf_stream K s' -> holds rec s' -> s'.(st_key) = s.(st_key) /\ s'.(st_local_stream_id) = s.(st_local_stream_id) ->
  (s'.(counters).(resyncs) = s.(counters).(resyncs) -> s'.(cursor) = s.(cursor)) ->
  step_outcome K rec s s' [].
Proof.
  intros W H Hid Hc. split; try done; [constructor|]. intros E. rewrite (Hc E). split; [lia|constructor].
Qed.

(** Evaluating the gaps and advancing the cursor, after changes [s -> s1]. *)
Lemma evaluate_advance e K rec s s1 now :
  0 <= K -> wf_stream K s1 -> holds rec s1 ->
  s1.(st_key) = s.(st_key) /\ s1.(st_local_stream_id) = s.(st_local_stream_id) ->
  (s1.(counters).(resyncs) = s.(counters).(resyncs) -> s1.(cursor) = s.(cursor)) ->
  (s1.(counters).(resyncs) = s.(counters).(resyncs) \/ s1.(counters).(resyncs) = to_u64 (s.(counters).(resyncs) + 1)) ->
  exists s' out, advance_cursor (evaluate_gaps e s1 now) now = Some (s', out) /\ step_outcome K rec s s' out.
Proof.
  intros HK W H [Hk Hi] Hc Hr. pose proof (evaluate_gaps_quiet e s1 now) as Q.
  pose proof (quiet_wf K _ _ Q W) as W2. pose proof (quiet_holds rec _ _ Q H) as H2.
  destruct Q as [[Qk Qi] Q2 Q3 Q4 _ Q6]. set (s2 := evaluate_gaps e s1 now) in *. clearbody s2.
  destruct (advance_cursor_ok K s2 now HK W2) as (s' & out & -> & [A1 (A2 & A2' & _) A3 A4 A5 A6 A7 A8]).
  exists s', out. split; [done|]. split; [done|split; congruence| | |done|].
  - intros q h Hq. apply H2. by apply A3.
  - eapply Forall_impl; [exact A4|]. intros d Hd. rewrite <- Hi, <- Qi. by apply from_held_authentic.
  - intros E. assert (E2 : resyncs (counters s2) = resyncs (counters s)).
    { rewrite Q6. destruct Hr as [Hr|Hr]; [done|]. exfalso. rewrite Q6, Hr in A8.
      destruct A8 as [A8|A8]; rewrite E in A8; symmetry in A8; [by apply to_u64_succ_ne in A8|by apply to_u64_succ2_ne in A8]. }
    assert (Ec : cursor s2 = cursor s) by (rewrite Q2; apply Hc; congruence).
    rewrite Ec in *. destruct (A7 ltac:(congruence)) as (? & _ & Hhi). split; [done|].
    rewrite Forall_forall in A6, Hhi |- *. intros q Hq. split; auto.
Qed.

Section Handlers.
Context {E : Type}.

Lemma early_deliver_ok K rec p s v payload (early : @EarlyDeliver E) env :
  wf_stream K s -> holds rec s ->
  let '(s', _) := early_deliver p s v payload early env in
  wf_stream K s' /\ holds rec s' /\ s'.(st_key) = s.(st_key) /\ s'.(st_local_stream_id) = s.(st_local_stream_id) /\
  s'.(cursor) = s.(cursor) /\ s'.(counters).(resyncs) = s.(counters).(resyncs).
Proof.
  intros W H. unfold early_deliver. destruct early as [f|]; [|by split_and!].
  destruct (f env _ _ _ _ _) as [env' r]. set (q := dh_seq (dv_hdr v)).
  set (s1 := match sm_find q (held s) with Some h => _ | None => s end).
  assert (H1 : wf_stream K s1 /\ holds rec s1 /\ st_key s1 = st_key s /\ st_local_stream_id s1 = st_local_stream_id s /\
    cursor s1 = cursor s /\ resyncs (counters s1) = resyncs (counters s)).
  { unfold s1. destruct (sm_find q (held s)) as [h|] eqn:Eh; [|by split_and!]. pose proof (ws_held _ _ W) as Hs.
    split; [|split; [|by split_and!]].
    - apply (wf_dom K s); try done; [by apply sm_assign_sorted|apply (ws_gaps _ _ W)|].
      apply same_dom_assign; [done|by eexists].
    - intros q' h'. cbn. rewrite sm_find_assign by done. destruct (Z.eqb_spec q' q) as [->|]; [|apply H].
      intros E'. injection E' as <-. exact (H q h Eh). }
  destruct H1 as (W1 & H1 & E1 & E2 & E3 & E4). clearbody s1.
  set (s2 := if handled r then _ else s1). assert (Q2 : quiet s1 s2) by (unfold s2; destruct (handled r); by apply quiet_gaps_same).
  clearbody s2. set (s3 := if block_complete r then _ else s2).
  assert (Q3 : quiet s1 s3).
  { unfold s3. destruct (block_complete r); [|done]. eapply quiet_trans; [exact Q2|apply mark_frame_complete_quiet]. }
  split; [by apply (quiet_wf K s1)|]. split; [by apply (quiet_holds rec s1)|].
  destruct Q3 as [[? ?] ? ? ? ? ?]. split_and!; congruence.
Qed.

Lemma on_stream_ok K rec e s a v payload now (early : @EarlyDeliver E) env :
  K = e.(policy_).(fwd_clamp_pkts) -> 0 <= K -> wf_stream K s -> holds rec s ->
  u32 v.(dv_hdr).(dh_seq) -> view_bytes v = Some payload ->
  exists s' out env', on_stream e s a v now early env = Some (s', out, env') /\
    step_outcome K (rec ++ [packet_of v payload]) s s' out.
Proof.
  intros EK HK W H Hq Hv. set (rec' := rec ++ [packet_of v payload]).
  assert (Hrec : forall s, holds rec s -> holds rec' s).
  { intros s0 H0 q h Hqh. apply elem_of_app. left. by apply H0. }
  unfold on_stream. set (s1 := if match local_table_version_ e with Some t => negb (_ =? t) | None => false end then _ else _).
  assert (Q1 : quiet s s1) by (unfold s1; destruct (match local_table_version_ e with Some t => negb (_ =? t) | None => false end); by apply quiet_gaps_same).
  clearbody s1. pose proof (quiet_wf K _ _ Q1 W) as W1. pose proof (quiet_holds rec _ _ Q1 H) as H1.
  pose proof (clamp_check_ok (policy_ e) K s1 v now EK HK W1 Hq) as Hcl.
  destruct (clamp_check (policy_ e) s1 v now) as [pass s2]. destruct Hcl as (W2 & Ek & Ei & Hpass & Hfl).
  destruct Q1 as [[Qk Qi] Qc _ Qh _ Qr].
  assert (H2 : holds rec s2).
  { destruct Hfl as [(_ & _ & Eh & _)|(_ & Eh)]; intros q h; rewrite Eh; [apply H1|done]. }
  assert (Hfloor : (resyncs (counters s2) = resyncs (counters s) /\ cursor s2 = cursor s) \/
    resyncs (counters s2) = to_u64 (resyncs (counters s) + 1)).
  { destruct Hfl as [(? & ? & _)|(? & _)]; [left|right]; [split|]; congruence. }
  assert (Hfl2 : resyncs (counters s2) = resyncs (counters s) -> cursor s2 = cursor s).
  { destruct Hfloor as [[? ?]|Hf]; [done|]. intros E0. rewrite Hf in E0. by apply to_u64_succ_ne in E0. }
  destruct pass; cbn [negb].
  2:{ eexists _, _, _. split; [done|]. apply silent_outcome; [done|by apply Hrec|split; congruence|done]. }
  set (s3 := if Z.land _ _ =? 0 then _ else s2).
  assert (Q3 : quiet s2 s3) by (unfold s3; destruct (_ =? 0); [apply note_adapter_seq_quiet|by apply quiet_gaps_same]).
  clearbody s3. pose proof (quiet_wf K _ _ Q3 W2) as W3. pose proof (quiet_holds rec _ _ Q3 H2) as H3.
  destruct Q3 as [[Rk Ri] Rc _ Rh _ Rr].
  destruct ((dh_seq (dv_hdr v) <? cursor s3) || sm_mem (dh_seq (dv_hdr v)) (held s3)) eqn:Hdup.
  - eexists _, _, _. split; [done|]. apply silent_outcome.
    + apply (quiet_wf K s3); [by apply quiet_gaps_same|done].
    + apply (quiet_holds rec' s3); [by apply quiet_gaps_same|by apply Hrec].
    + cbn. split; congruence.
    + cbn. rewrite Rr, Rc. exact Hfl2.
  - apply orb_false_iff in Hdup as [Hlo Hnh]. apply Z.ltb_ge in Hlo. apply sm_mem_false in Hnh.
    rewrite Hv. cbn [mbind option_bind].
    destruct (hold_packet_open K e s3 a v payload now W3 Hq Hlo) as (O4 & Hk4 & Hi4 & Hc4 & Hr4 & Hf4);
      [rewrite Rc; by apply Hpass|done|].
    set (s4 := hold_packet e s3 a v payload now) in *. clearbody s4.
    assert (H4 : holds rec' s4).
    { intros q h. rewrite Hf4. destruct (Z.eqb_spec q (dh_seq (dv_hdr v))) as [->|]; [|by apply Hrec].
      intros E0. injection E0 as <-. apply elem_of_app. right. by apply list_elem_of_singleton. }
    destruct (note_gaps_wf (policy_ e) K s4 now EK O4) as (W5 & Gk & Gi & Gc & _ & Gh & Gr).
    set (s5 := note_gaps (policy_ e) s4 now) in *. clearbody s5.
    assert (H5 : holds rec' s5) by (intros q h; rewrite Gh; apply H4).
    pose proof (early_deliver_ok K rec' (policy_ e) s5 v payload early env W5 H5) as He.
    destruct (early_deliver _ _ _ _ _ _) as [s6 env']. destruct He as (W6 & H6 & Fk & Fi & Fc & Fr).
    assert (Er : resyncs (counters s6) = resyncs (counters s2)) by (rewrite Fr, Gr, Hr4; exact Rr).
    destruct (evaluate_advance e K rec' s s6 now HK W6 H6) as (s' & out & -> & Ho).
    + split; congruence.
    + rewrite Er. intros E0. rewrite Fc, Gc, Hc4, Rc. by apply Hfl2.
    + rewrite Er. destruct Hfloor as [[? _]|?]; auto.
    + cbn [mbind option_bind]. by eexists _, _, _.
Qed.
End Handlers.

(** The tick's work on one stream, and a completed frame's. *)
Lemma evaluate_stream_ok e K rec s now :
  0 <= K -> wf_stream K s -> holds rec s ->
  exists s' out, advance_cursor (evaluate_gaps e s now) now = Some (s', out) /\ step_outcome K rec s s' out.
Proof. intros HK W H. apply evaluate_advance; auto. Qed.

Lemma complete_stream_ok e K rec s block now :
  0 <= K -> wf_stream K s -> holds rec s ->
  exists s' out, advance_cursor (evaluate_gaps e (mark_frame_complete e.(policy_) s block) now) now = Some (s', out) /\
    step_outcome K rec s s' out.
Proof.
  intros HK W H. pose proof (mark_frame_complete_quiet (policy_ e) s block) as Q.
  pose proof (quiet_wf K _ _ Q W). pose proof (quiet_holds rec _ _ Q H). destruct Q as [[? ?] ? ? ? ? ?].
  apply evaluate_advance; auto.
Qed.
