(* ===== verification/RxProps.v ===== *)
(** * Properties of the merged receive engine *)
From stdpp Require Import sorting.
From S2P Require Import Prelude Types Wire SMap Table Rx RxStream.

(** ** Runs of one latched stream *)
Inductive StreamEvent : Type :=
| SePacket (e : RxEngine) (adapter_id : Z) (v : DataView) (now_ms : Z)
| SeTick (e : RxEngine) (now_ms : Z)
| SeComplete (e : RxEngine) (block_id now_ms : Z).

Definition event_engine (ev : StreamEvent) : RxEngine :=
  match ev with SePacket e _ _ _ => e | SeTick e _ => e | SeComplete e _ _ => e end.

(** A decoded packet: a 32-bit sequence number and a readable payload. *)
Definition packet_ok (v : DataView) : Prop := u32 v.(dv_hdr).(dh_seq) /\ is_Some (view_bytes v).

Definition event_ok (p : RxPolicy) (ev : StreamEvent) : Prop :=
  (event_engine ev).(policy_) = p /\ match ev with SePacket _ _ v _ => packet_ok v | _ => True end.

Definition packets_of (evs : list StreamEvent) : received :=
  omap (fun ev => match ev with SePacket _ _ v _ => packet_of v <$> view_bytes v | _ => None end) evs.

Section StreamRun.
Context {E : Type} (early : @EarlyDeliver E).

Definition stream_step (s : Stream) (env : E) (ev : StreamEvent) : option (Stream * list Delivery * E) :=
  match ev with
  | SePacket e a v now => on_stream e s a v now early env
  | SeTick e now => '(s, out) ← advance_cursor (evaluate_gaps e s now) now; Some (s, out, env)
  | SeComplete e b now =>
    '(s, out) ← advance_cursor (evaluate_gaps e (mark_frame_complete e.(policy_) s b) now) now; Some (s, out, env)
  end.

(** The stream, the calls in order, the environment, and whether the floor
    moved on the way. *)
Fixpoint stream_run (s : Stream) (env : E) (evs : list StreamEvent) : option (Stream * list Delivery * E * bool) :=
  match evs with
  | [] => Some (s, [], env, false)
  | ev :: evs =>
    '(s', out, env) ← stream_step s env ev;
    '(s'', outs, env, moved) ← stream_run s' env evs;
    Some (s'', out ++ outs, env, (moved : bool) || negb (s'.(counters).(resyncs) =? s.(counters).(resyncs)))
  end.

Lemma stream_step_ok p K rec s env ev :
  K = p.(fwd_clamp_pkts) -> 0 <= K -> wf_stream K s -> holds rec s -> event_ok p ev ->
  exists s' out env', stream_step s env ev = Some (s', out, env') /\
    step_outcome K (rec ++ packets_of [ev]) s s' out.
Proof.
  intros EK HK W H [Ep Hev]. destruct ev as [e a v now|e now|e b now]; cbn [stream_step event_engine] in *.
  - destruct Hev as [Hq [payload Hv]]. rewrite <- Ep in EK.
    destruct (on_stream_ok K rec e s a v payload now early env EK HK W H Hq Hv) as (s' & out & env' & -> & Ho).
    eexists _, _, _. split; [done|]. unfold packets_of. cbn. by rewrite Hv.
  - destruct (evaluate_stream_ok e K rec s now HK W H) as (s' & out & -> & Ho).
    eexists _, _, _. split; [done|]. cbn. by rewrite app_nil_r.
  - destruct (complete_stream_ok e K rec s b now HK W H) as (s' & out & -> & Ho).
    eexists _, _, _. split; [done|]. cbn. by rewrite app_nil_r.
Qed.

Lemma authentic_mono (rec rec' : received) id d :
  (forall x, x ∈ rec -> x ∈ rec') -> authentic_call rec id d -> authentic_call rec' id d.
Proof. intros Hs [? ?]. split; auto. Qed.

Lemma seqs_app (a b : list Delivery) : seqs (a ++ b) = seqs a ++ seqs b.
Proof. apply map_app. Qed.

(** Two increasing ranges, one after the other. *)
Lemma sorted_app_ranges (a b : list Z) (m : Z) :
  StronglySorted Z.lt a -> StronglySorted Z.lt b -> Forall (fun q => q < m) a -> Forall (fun q => m <= q) b ->
  StronglySorted Z.lt (a ++ b).
Proof.
  intros Ha Hb. induction Ha as [|x a Ha IH Hx]; intros H1 H2; [done|]. apply Forall_cons in H1 as [H1 H1'].
  cbn. constructor; [auto|]. apply Forall_app. split; [done|]. eapply Forall_impl; [exact H2|]. cbn. lia.
Qed.

Lemma stream_run_ok p K (evs : list StreamEvent) : K = p.(fwd_clamp_pkts) -> 0 <= K -> forall rec s env,
  wf_stream K s -> holds rec s -> Forall (event_ok p) evs ->
  exists s' out env' moved, stream_run s env evs = Some (s', out, env', moved) /\
    wf_stream K s' /\ Forall (authentic_call (rec ++ packets_of evs) s.(st_local_stream_id)) out /\
    (moved = false -> StronglySorted Z.lt (seqs out) /\ s.(cursor) <= s'.(cursor) /\
       Forall (fun q => s.(cursor) <= q < s'.(cursor)) (seqs out)).
Proof.
  intros EK HK. induction evs as [|ev evs IH]; intros rec s env W H Hev; cbn [stream_run].
  - eexists _, _, _, _. split; [done|]. split; [done|]. split; [constructor|]. intros _.
    split; [constructor|]. split; [lia|constructor].
  - apply Forall_cons in Hev as [He Hev].
    destruct (stream_step_ok p K rec s env ev EK HK W H He) as (s1 & out & env1 & -> & [W1 [_ Ei] H1 C1 S1 R1]).
    cbn [mbind option_bind].
    destruct (IH _ s1 env1 W1 H1 Hev) as (s2 & outs & env2 & moved & -> & W2 & C2 & R2). cbn [mbind option_bind].
    eexists _, _, _, _. split; [done|]. split; [done|].
    assert (Erec : forall x, x ∈ (rec ++ packets_of [ev]) ++ packets_of evs -> x ∈ rec ++ packets_of (ev :: evs)).
    { intros x. rewrite <- app_assoc. unfold packets_of. rewrite <- omap_app. done. }
    split.
    + apply Forall_app. split; (eapply Forall_impl; [|intros d; apply (authentic_mono _ _ _ _ Erec)]).
      * eapply Forall_impl; [exact C1|]. intros d. apply authentic_mono. intros x Hx. apply elem_of_app. by left.
      * by rewrite Ei in C2.
    + intros Hm. apply orb_false_iff in Hm as [Hm1 Hm2]. bool_hyps.
      destruct (R1 Hm2) as [Hc1 F1]. destruct (R2 Hm1) as (S2 & Hc2 & F2). rewrite seqs_app.
      split; [|split; [lia|]].
      * apply (sorted_app_ranges _ _ s1.(cursor)); [done|done| |]; (eapply Forall_impl; [eassumption|]; cbn; lia).
      * apply Forall_app. split; (eapply Forall_impl; [eassumption|]; cbn; lia).
Qed.
End StreamRun.

Lemma new_stream_wf K w v now : 0 <= K -> u32 v.(dv_hdr).(dh_seq) -> wf_stream K (new_stream w v now).
Proof. intros HK Hq. by apply wf_empty. Qed.

(** A stream, and packets of it, for the examples. *)
Definition demo_want : WantSpec := MkWantSpec 1 0 None.
Definition demo_view (seq block flags : Z) : DataView :=
  MkDataView (MkDataHeader (MkCommonPrefix 7 0 9) 2 0 seq block flags 0 0) (Some [seq; block]) 2.
Definition demo_engine : RxEngine := RxEngine_init RxPolicy_init [demo_want] None None.
Definition demo_events : list StreamEvent :=
  [SePacket demo_engine 0 (demo_view 10 1 0) 100; SePacket demo_engine 0 (demo_view 12 1 0) 101;
   SePacket demo_engine 0 (demo_view 12 1 0) 102; SePacket demo_engine 0 (demo_view 13 1 1) 103].

Lemma demo_events_ok : Forall (event_ok RxPolicy_init) demo_events.
Proof. repeat constructor; cbn; (lia || by eexists). Qed.

(** C6. Whatever packets, ticks and completed frames a stream sees, from any
    state that satisfies its invariant and with any early-delivery callback, it
    returns and stores at most [fwd_clamp_pkts + 1] packets and
    [fwd_clamp_pkts] gaps; it delivers only packets it received, unaltered;
    and as long as no resync moves the floor, deliveries are in strictly
    increasing sequence order - so nothing is delivered twice. *)
Theorem rx_stream_sound (E : Type) (early : @EarlyDeliver E) (p : RxPolicy) rec s env evs
    (HK : 0 <= p.(fwd_clamp_pkts)) (W : wf_stream p.(fwd_clamp_pkts) s) (H : holds rec s)
    (Hev : Forall (event_ok p) evs) :
  exists s' out env' moved, stream_run early s env evs = Some (s', out, env', moved) /\
    len s'.(held) <= p.(fwd_clamp_pkts) + 1 /\ len s'.(gaps) <= p.(fwd_clamp_pkts) /\
    Forall (authentic_call (rec ++ packets_of evs) s.(st_local_stream_id)) out /\
    (moved = false -> StronglySorted Z.lt (seqs out)).
Proof.
  destruct (stream_run_ok early p _ evs eq_refl HK rec s env W H Hev) as (s' & out & env' & moved & E0 & W' & Hc & Hs).
  exists s', out, env', moved. split; [done|]. destruct (wf_held_bound _ s' HK W').
  split; [done|]. split; [done|]. split; [done|]. intros Hm. by apply Hs.
Qed.
Lemma rx_stream_sound_witness :
  exists s' out moved, stream_run (E := unit) None (new_stream demo_want (demo_view 10 1 0) 100) tt demo_events
      = Some (s', out, tt, moved) /\
    seqs out = [10] /\ len s'.(held) <= 257 /\ (moved = false -> StronglySorted Z.lt (seqs out)).
Proof.
  assert (HK : 0 <= fwd_clamp_pkts RxPolicy_init) by (vm_compute; discriminate).
  destruct (rx_stream_sound unit None RxPolicy_init [] (new_stream demo_want (demo_view 10 1 0) 100) tt demo_events HK
    (new_stream_wf (fwd_clamp_pkts RxPolicy_init) demo_want (demo_view 10 1 0) 100 HK ltac:(split; [discriminate|reflexivity]))
    ltac:(done) demo_events_ok) as (s' & out & env' & moved & E0 & Hh & _ & _ & Hs).
  destruct env'. exists s', out, moved. split; [exact E0|]. split; [|split; [exact Hh|exact Hs]].
  vm_compute in E0. injection E0 as _ <- _. reflexivity.
Defined.
