(* ===== verification/RxEngineProps.v ===== *)
(** * The receive engine as a whole

    A tick when every gap is overdue drains a stream; admission, discovery and
    one stream per output over any run. *)
From stdpp Require Import sorting.
From S2P Require Import Prelude Types Wire SMap Table Rx RxStream RxProps.
(** ** Blocks *)

(** No packet held or delivered is newer than the newest block heard, and a
    stream with deadlines knows the newest block's. *)
Record wf_blocks (s : Stream) : Prop := {
  wb_sorted : sm_sorted s.(blocks);
  wb_last : s.(last_delivered_block) <= s.(max_block);
  wb_held : forall q h, sm_find q s.(held) = Some h -> h.(h_block_id) <= s.(max_block);
  wb_known : forall q h, sm_find q s.(held) = Some h -> s.(best_effort) = false ->
    h.(h_block_id) = s.(max_block) -> is_Some (sm_find s.(max_block) s.(blocks))
}.

Definition block_quiet (s s' : Stream) : Prop :=
  s'.(held) = s.(held) /\ s'.(blocks) = s.(blocks) /\ s'.(max_block) = s.(max_block) /\
  s'.(last_delivered_block) = s.(last_delivered_block) /\ (s'.(best_effort) = false -> s.(best_effort) = false).

Lemma block_quiet_wf s s' : block_quiet s s' -> wf_blocks s -> wf_blocks s'.
Proof.
  intros (E1 & E2 & E3 & E4 & E5) [B1 B2 B3 B4]. split; rewrite ?E1, ?E2, ?E3, ?E4; auto.
  intros q h Hq Hb. by apply (B4 q h), E5.
Qed.

Lemma block_quiet_trans s1 s2 s3 : block_quiet s1 s2 -> block_quiet s2 s3 -> block_quiet s1 s3.
Proof. intros (? & ? & ? & ? & ?) (? & ? & ? & ? & ?). repeat split; try congruence. auto. Qed.

Lemma note_adapter_block_quiet p s a q : block_quiet s (note_adapter_seq p s a q).
Proof. unfold note_adapter_seq. by repeat split. Qed.

Lemma note_last_seq_block_quiet s a q : block_quiet s (note_last_seq s a q).
Proof. by repeat split. Qed.

Lemma note_gaps_block_quiet p s now : block_quiet s (note_gaps p s now).
Proof.
  unfold note_gaps. cbn zeta. destruct (_ >? _); [by repeat split|].
  assert (H : forall l s0, block_quiet s s0 ->
    block_quiet s (fold_left (fun s n => note_gap s now (to_u32 (cursor s + Z.of_nat n))) l s0)).
  { induction l as [|n l IH]; intros s0 H0; [done|]. cbn. apply IH. eapply block_quiet_trans; [exact H0|].
    unfold note_gap. cbn zeta. destruct (_ || _); by repeat split. }
  apply H. by repeat split.
Qed.

Lemma sm_find_prune below (b : smap BlockInfo) k :
  sm_sorted b -> sm_find k (prune_blocks below b) = if k <? below then None else sm_find k b.
Proof.
  induction b as [|[k' i] b IH]; intros Hs; cbn; [by destruct (_ <? _)|].
  pose proof Hs as [Hb Hf]%sm_sorted_cons. destruct (Z.ltb_spec k' below) as [Hlt|Hge].
  - rewrite IH by done. destruct (Z.ltb_spec k below); [done|]. destruct (Z.eqb_spec k k'); [lia|done].
  - destruct (Z.ltb_spec k below); [|done]. apply (sm_find_none k ((k', i) :: b)).
    intros e [->|He]%elem_of_cons; cbn; [lia|]. specialize (Hf e He). lia.
Qed.

Lemma prune_sorted below (b : smap BlockInfo) : sm_sorted b -> sm_sorted (prune_blocks below b).
Proof.
  induction b as [|[k' i] b IH]; intros Hs; cbn; [done|]. destruct (k' <? below); [|done].
  apply sm_sorted_cons in Hs as [Hs _]. auto.
Qed.

(** ** The cursor step *)
Lemma cursor_step_blocks K s now :
  wf_stream K s -> wf_blocks s -> wf_blocks (cursor_step s now).1.1.
Proof.
  intros W B. pose proof B as [B1 B2 B3 B4]. pose proof (ws_held _ _ W) as Hs. unfold cursor_step.
  destruct (sm_find (cursor s) (held s)) as [h|] eqn:Eh.
  - pose proof (B3 _ h Eh) as Hb. set (s1 := if h_delivered_early h then s else _).
    assert (Q1 : block_quiet s s1) by (unfold s1; destruct (h_delivered_early h); by repeat split).
    pose proof (block_quiet_wf _ _ Q1 B) as W1. destruct Q1 as (E1 & E2 & E3 & E4 & E5). clearbody s1. destruct W1 as [C1 C2 C3 C4].
    cbn [cursor set_cursor]. destruct (_ =? 0); cbn.
    + split; cbn; [constructor|lia|done|done].
    + split; cbn.
      * by apply prune_sorted.
      * by rewrite E3.
      * intros q h'. rewrite E1, sm_find_erase by done. destruct (_ =? _); [done|]. rewrite <- E1. apply C3.
      * intros q h' Hq Hbe Hm. rewrite E1, sm_find_erase in Hq by done. destruct (_ =? _); [done|].
        rewrite <- E1 in Hq. destruct (C4 q h' Hq Hbe Hm) as [i Hi]. rewrite sm_find_prune by done.
        rewrite E3 in *. destruct (Z.ltb_spec (max_block s) (h_block_id h)); [lia|]. by exists i.
  - destruct (sm_find (cursor s) (gaps s)) as [g|]; [|done]. destruct (skip_gap s now g) as [s1|] eqn:Es; [|done].
    assert (Q : block_quiet s s1) by (unfold skip_gap in Es; repeat case_match; simplify_eq/=; by repeat split).
    pose proof (block_quiet_wf _ _ Q B) as [C1 C2 C3 C4]. cbn [cursor set_cursor]. destruct (_ =? 0); cbn; split; cbn;
      (done || constructor || lia).
Qed.

Lemma cursor_loop_blocks K : 0 <= K -> forall fuel s now s' out,
  wf_stream K s -> wf_blocks s -> cursor_loop fuel s now = Some (s', out) -> wf_blocks s'.
Proof.
  intros HK. induction fuel as [|fuel IH]; intros s now s' out W B E; [done|]. cbn [cursor_loop] in E.
  destruct (Z.leb_spec (cursor s) (max_seq s)) as [Hcm|_]; [|by injection E as <- _].
  pose proof (cursor_step_blocks K s now W B) as B1.
  assert (W1 : wf_stream K (cursor_step s now).1.1).
  { destruct (sm_find (cursor s) (held s)) as [h|] eqn:Eh.
    - pose proof (cursor_step_held K s now h HK W Eh) as H. destruct (cursor_step s now) as [[s1 c] go]. apply H.
    - pose proof (cursor_step_gap K s now W Hcm Eh) as H. destruct (cursor_step s now) as [[s1 c] go]. apply H. }
  destruct (cursor_step s now) as [[s1 call] go]. cbn [fst] in *. destruct go; [|by injection E as <- _].
  destruct (cursor_loop fuel s1 now) as [[s2 outs]|] eqn:E2; [|done]. cbn in E. injection E as <- _.
  by apply (IH s1 now s2 outs).
Qed.

Lemma advance_blocks e K s now s' out :
  0 <= K -> wf_stream K s -> wf_blocks s -> advance_cursor (evaluate_gaps e s now) now = Some (s', out) -> wf_blocks s'.
Proof.
  intros HK W B E. apply (cursor_loop_blocks K HK _ (evaluate_gaps e s now) now s' out) in E; [done| |].
  - by apply (quiet_wf K s); [apply evaluate_gaps_quiet|].
  - apply (block_quiet_wf s); [by repeat split|done].
Qed.

(** ** Taking a packet in *)
Lemma clamp_check_blocks p s v now : wf_blocks s -> wf_blocks (clamp_check p s v now).2.
Proof.
  intros B. unfold clamp_check, clamp_reject. destruct (_ || _); [|by apply (block_quiet_wf s); [repeat split|]].
  cbn [first_clamp_ms bump set_counters]. destruct (_ =? 0); [by apply (block_quiet_wf s); [repeat split|]|].
  destruct (_ || _); [by apply (block_quiet_wf s); [repeat split|]|]. cbn. split; cbn; [constructor|lia|done|done].
Qed.

Lemma hold_packet_blocks K e s a v payload now :
  wf_stream K s -> wf_blocks s -> sm_find v.(dv_hdr).(dh_seq) s.(held) = None ->
  wf_blocks (hold_packet e s a v payload now).
Proof.
  intros W [B1 B2 B3 B4] Hn. pose proof (ws_held _ _ W) as Hs. unfold hold_packet. cbn zeta.
  set (q := dh_seq (dv_hdr v)) in *. set (b := dh_block_id (dv_hdr v)).
  set (hh := MkHeld _ _ _ _).
  assert (Hf : forall k, sm_find k (sm_emplace q hh (held s)).1 = if k =? q then Some hh else sm_find k (held s)).
  { intros k. rewrite sm_find_emplace by done. destruct (Z.eqb_spec k q) as [->|]; [by rewrite Hn|].
    by destruct (sm_find k (held s)). }
  split; cbn.
  - destruct (best_effort s); cbn; [done|by apply sm_assign_sorted].
  - destruct (best_effort s); cbn; lia.
  - intros k h. destruct (best_effort s); cbn; rewrite Hf; (destruct (k =? q); [intros [= <-]; cbn; lia|]);
      intros H; specialize (B3 k h H); lia.
  - intros k h. destruct (best_effort s) eqn:Eb; cbn; rewrite Hf; [rewrite Eb; by intros _ ?|].
    intros Hk _ Hm. rewrite sm_find_assign by done. destruct (Z.eqb_spec (Z.max (max_block s) b) b) as [|Hne]; [by eexists|].
    assert (Em : Z.max (max_block s) b = max_block s) by lia. rewrite Em in Hm, Hne |- *.
    destruct (k =? q); [|by apply (B4 k h)]. injection Hk as <-. cbn in Hm. congruence.
Qed.

Section Handlers.
Context {E : Type}.

Lemma early_deliver_blocks K p s v payload (early : @EarlyDeliver E) env :
  wf_stream K s -> wf_blocks s -> wf_blocks (early_deliver p s v payload early env).1.
Proof.
  intros W B. unfold early_deliver. destruct early as [f|]; [|done]. destruct (f env _ _ _ _ _) as [env' r].
  set (q := dh_seq (dv_hdr v)). cbn [fst]. set (s1 := match sm_find q (held s) with Some h => _ | None => s end).
  assert (B1 : wf_blocks s1).
  { unfold s1. destruct (sm_find q (held s)) as [h|] eqn:Eh; [|done]. destruct B as [C1 C2 C3 C4].
    pose proof (ws_held _ _ W) as Hs. split; cbn; try done.
    - intros k h'. rewrite sm_find_assign by done. destruct (_ =? _); [intros [= <-]; by apply (C3 q h)|apply C3].
    - intros k h'. rewrite sm_find_assign by done. destruct (_ =? _); [intros [= <-]; by apply (C4 q h)|apply C4]. }
  destruct (handled r), (block_complete r); cbn; (apply (block_quiet_wf s1); [by repeat split|done]).
Qed.

Lemma early_deliver_wf K p s v payload (early : @EarlyDeliver E) env :
  wf_stream K s -> wf_stream K (early_deliver p s v payload early env).1.
Proof.
  intros W. set (rec := map (fun kv => held_packet kv.1 kv.2) s.(held)).
  assert (H : holds rec s).
  { intros k h Hk. apply sm_find_elem in Hk. by apply (list_elem_of_fmap_2 (fun kv => held_packet kv.1 kv.2) _ (k, h)). }
  pose proof (early_deliver_ok K rec p s v payload early env W H) as W6.
  by destruct (early_deliver p s v payload early env), W6.
Qed.

Lemma on_stream_blocks K rec e s a v payload now (early : @EarlyDeliver E) env r :
  K = e.(policy_).(fwd_clamp_pkts) -> 0 <= K -> wf_stream K s -> holds rec s -> wf_blocks s ->
  u32 v.(dv_hdr).(dh_seq) -> view_bytes v = Some payload ->
  on_stream e s a v now early env = Some r -> wf_blocks r.1.1.
Proof.
  intros EK HK W H B Hq Hv. unfold on_stream.
  set (s1 := if match local_table_version_ e with Some t => negb (_ =? t) | None => false end then _ else _).
  assert (Q1 : quiet s s1 /\ block_quiet s s1).
  { unfold s1. destruct (match local_table_version_ e with Some t => negb (_ =? t) | None => false end);
      (split; [by apply quiet_gaps_same|by repeat split]). }
  destruct Q1 as [Q1 R1]. clearbody s1.
  pose proof (quiet_wf K _ _ Q1 W) as W1. pose proof (block_quiet_wf _ _ R1 B) as B1.
  pose proof (clamp_check_ok (policy_ e) K s1 v now EK HK W1 Hq) as Hcl.
  pose proof (clamp_check_blocks (policy_ e) s1 v now B1) as B2.
  destruct (clamp_check (policy_ e) s1 v now) as [pass s2]. cbn [snd] in B2. destruct Hcl as (W2 & _ & _ & Hpass & _).
  destruct pass; cbn [negb]; [|intros Hr; apply (inj Some) in Hr; rewrite <- Hr; exact B2].
  set (s3 := if Z.land _ _ =? 0 then _ else s2).
  assert (Q3 : quiet s2 s3 /\ block_quiet s2 s3).
  { unfold s3. destruct (_ =? 0).
    - split; [apply note_adapter_seq_quiet|apply note_adapter_block_quiet].
    - split; [by apply quiet_gaps_same|by repeat split]. }
  destruct Q3 as [Q3 R3]. pose proof (qt_cursor _ _ Q3) as Ec. clearbody s3.
  pose proof (quiet_wf K _ _ Q3 W2) as W3. pose proof (block_quiet_wf _ _ R3 B2) as B3.
  destruct ((dh_seq (dv_hdr v) <? cursor s3) || sm_mem (dh_seq (dv_hdr v)) (held s3)) eqn:Hdup.
  { intros Hr. apply (inj Some) in Hr. rewrite <- Hr. cbn [fst]. apply (block_quiet_wf (bump diversity put_diversity 1 s3)); [apply note_last_seq_block_quiet|].
    apply (block_quiet_wf s3); [by repeat split|done]. }
  apply orb_false_iff in Hdup as [Hlo Hnh]. apply Z.ltb_ge in Hlo. apply sm_mem_false in Hnh.
  rewrite Hv. cbn [mbind option_bind].
  destruct (hold_packet_open K e s3 a v payload now W3 Hq Hlo) as (O4 & _); [rewrite Ec; by apply Hpass|done|].
  pose proof (hold_packet_blocks K e s3 a v payload now W3 B3 Hnh) as B4.
  set (s4 := hold_packet e s3 a v payload now) in *. clearbody s4.
  destruct (note_gaps_wf (policy_ e) K s4 now EK O4) as (W5 & _).
  pose proof (block_quiet_wf _ _ (note_gaps_block_quiet (policy_ e) s4 now) B4) as B5.
  set (s5 := note_gaps (policy_ e) s4 now) in *. clearbody s5.
  pose proof (early_deliver_blocks K (policy_ e) s5 v payload early env W5 B5) as B6.
  pose proof (early_deliver_wf K (policy_ e) s5 v payload early env W5) as W6.
  destruct (early_deliver (policy_ e) s5 v payload early env) as [s6 env1]. cbn [fst] in B6, W6.
  destruct (advance_cursor (evaluate_gaps e s6 now) now) as [[s7 out7]|] eqn:E7; [|discriminate]. cbn [mbind option_bind].
  intros Hr. apply (inj Some) in Hr. rewrite <- Hr. exact (advance_blocks e K s6 now s7 out7 HK W6 B6 E7).
Qed.
End Handlers.

(** ** Draining *)

(** The cursor may skip this gap now. *)
Definition skippable (s : Stream) (now m : Z) (g : Gap) : Prop :=
  g.(fec_satisfied) = true \/ g.(superseded) = true \/
  (s.(best_effort) = true /\ g.(declared_lost) = true) \/
  (s.(best_effort) = false /\ exists h i, held_above s m = Some h /\ h.(h_block_id) = s.(max_block) /\
     sm_find s.(max_block) s.(blocks) = Some i /\ i.(deadline_ms) <= now).

Lemma skip_gap_skippable s now g :
  skippable s now s.(cursor) g -> exists s', skip_gap s now g = Some s'.
Proof.
  unfold skip_gap. intros [->|[Hs|[[Hb Hd]|(Hb & h & i & Hh & Hm & Hi & Hd)]]]; [by eexists| | |];
    (destruct (fec_satisfied g); [by eexists|]).
  - rewrite Hs. by eexists.
  - destruct (superseded g); [by eexists|]. rewrite Hb. cbn [negb]. rewrite Hd. by eexists.
  - destruct (superseded g); [by eexists|]. rewrite Hb. cbn [negb]. rewrite Hh. cbn [mbind option_bind].
    rewrite Hm, Hi. cbn [mbind option_bind]. destruct (Z.geb_spec now (deadline_ms i)); [by eexists|lia].
Qed.

(** The calls that hand over everything held. *)
Definition pending_calls (s : Stream) : list Delivery :=
  omap (fun kv => if h_delivered_early kv.2 then None else Some (delivery_of s kv.1 kv.2)) s.(held).

Lemma sm_head_min {V} (m : smap V) k v :
  sm_sorted m -> sm_find k m = Some v -> (forall k' v', sm_find k' m = Some v' -> k <= k') ->
  m = (k, v) :: sm_erase k m.
Proof.
  destruct m as [|[k1 v1] m]; [done|]. intros Hs Hf Hmin. cbn in *.
  destruct (Z.eqb_spec k k1) as [->|Hne]; [congruence|]. exfalso.
  apply sm_sorted_cons in Hs as [_ Hlt]. apply sm_find_elem, Hlt in Hf. cbn in Hf.
  specialize (Hmin k1 v1). rewrite Z.eqb_refl in Hmin. specialize (Hmin eq_refl). lia.
Qed.

(** Erasing the cursor's packet does not change what is held above a gap. *)
Lemma held_above_erase s s1 c m :
  sm_sorted s.(held) -> s1.(held) = sm_erase c s.(held) -> c < m -> held_above s1 m = held_above s m.
Proof.
  unfold held_above. intros Hs -> Hcm. f_equal. f_equal. clear s1.
  induction (held s) as [|[k h] l IH]; [done|]. apply sm_sorted_cons in Hs as [Hs _]. cbn [sm_erase].
  destruct (Z.eqb_spec c k) as [->|]; rewrite !filter_cons; cbn [fst].
  - destruct (decide (m < k)); [lia|done].
  - destruct (decide (m < k)); [f_equal|]; by apply IH.
Qed.

Record drains (K now : Z) (s : Stream) : Prop := {
  dr_wf : wf_stream K s;
  dr_blocks : wf_blocks s;
  dr_skip : forall m g, sm_find m s.(gaps) = Some g -> skippable s now m g
}.

Lemma skippable_mono s s1 now m g :
  s1.(best_effort) = s.(best_effort) -> s1.(max_block) = s.(max_block) -> held_above s1 m = held_above s m ->
  (forall i, sm_find s.(max_block) s.(blocks) = Some i -> sm_find s.(max_block) s1.(blocks) = Some i) ->
  skippable s now m g -> skippable s1 now m g.
Proof.
  unfold skippable. intros E1 E2 E3 Hi. rewrite E1, E2, E3.
  intros [?|[?|[?|(? & h & i & ? & ? & ? & ?)]]]; auto. right; right; right. split; [done|].
  exists h, i. split_and!; auto.
Qed.

(** A held packet at the cursor: one call, and the rest still drains. *)
Lemma drains_held K now s h :
  0 <= K -> drains K now s -> sm_find s.(cursor) s.(held) = Some h ->
  let '(s1, call, go) := cursor_step s now in
  pending_calls s = app_call call (pending_calls s1) /\ same_id s s1 /\
  (if (go : bool) then drains K now s1 /\ s1.(cursor) = s.(cursor) + 1 /\ s1.(max_seq) = s.(max_seq)
   else s1.(held) = [] /\ s1.(gaps) = []).
Proof.
  intros HK [W B D] Hh. pose proof (cursor_step_held K s now h HK W Hh) as H.
  pose proof (cursor_step_blocks K s now W B) as B1.
  pose proof (ws_held _ _ W) as Hs. pose proof (wb_held _ B _ _ Hh) as Hbh.
  assert (Hhead : held s = (cursor s, h) :: sm_erase (cursor s) (held s)).
  { apply sm_head_min; [done|done|]. intros k v Hk. apply (ws_held_in _ _ W k v Hk). }
  assert (Hkeep : forall s1 c, cursor_step s now = (s1, c, true) ->
    max_block s1 = max_block s /\ blocks s1 = prune_blocks (h_block_id h) (blocks s)).
  { unfold cursor_step. rewrite Hh. intros s1 c E. cbn [cursor set_cursor] in E.
    destruct (_ =? 0) in E; injection E as <- _; [done|]. cbn. by destruct (h_delivered_early h). }
  destruct (cursor_step s now) as [[s1 call] go]. destruct H as (Ec & W1 & Hid & H). cbn [fst] in B1.
  assert (Hpend : forall s2, same_id s s2 -> held s2 = sm_erase (cursor s) (held s) ->
    pending_calls s = app_call call (pending_calls s2)).
  { intros s2 (_ & Ei & _) Eh. unfold pending_calls. rewrite Hhead, Eh. cbn [omap list_omap]. rewrite Ec. unfold delivery_of.
    rewrite Ei. cbn [snd fst]. by destruct (h_delivered_early h). }
  destruct go.
  - destruct H as (E1 & E2 & E3 & E4 & _). split; [by apply Hpend|]. split; [done|]. split; [|done]. split; [done|done|].
    destruct (Hkeep s1 call eq_refl) as [Em Eb]. intros m g. rewrite E4. intros Hg.
    pose proof (ws_gap_in _ _ W m g Hg) as [Hm Hnh].
    assert (Hlt : cursor s < m) by (destruct (Z.eq_dec m (cursor s)) as [->|]; [congruence|lia]).
    apply (skippable_mono s); [apply Hid|done|by apply (held_above_erase s s1 (cursor s))| |by apply D].
    intros i Hi. rewrite Eb, sm_find_prune by apply B. destruct (Z.ltb_spec (max_block s) (h_block_id h)); [lia|done].
  - destruct H as (Hc & E1 & E2 & E3 & E4 & _). split; [|done].
    assert (Hnil : sm_erase (cursor s) (held s) = []).
    { destruct (sm_erase (cursor s) (held s)) as [|[k v] l] eqn:El; [done|]. exfalso.
      assert (Hk : sm_find k (held s) = Some v).
      { apply sm_elem_find; [done|]. apply (sm_erase_elem (cursor s)). rewrite El. set_solver. }
      assert (Hnk : sm_find k (sm_erase (cursor s) (held s)) = Some v) by (rewrite El; cbn; by rewrite Z.eqb_refl).
      rewrite sm_find_erase in Hnk by done. destruct (Z.eqb_spec k (cursor s)); [done|].
      pose proof (ws_held_in _ _ W k v Hk). pose proof (ws_max _ _ W). unfold u32 in *. lia. }
    apply Hpend; [done|]. by rewrite E1, Hnil.
Qed.

(** A gap at the cursor: skipped, and the rest still drains. *)
Lemma drains_gap K now s :
  drains K now s -> s.(cursor) <= s.(max_seq) -> sm_find s.(cursor) s.(held) = None ->
  let '(s1, call, go) := cursor_step s now in
  pending_calls s = app_call call (pending_calls s1) /\ same_id s s1 /\
  (if (go : bool) then drains K now s1 /\ s1.(cursor) = s.(cursor) + 1 /\ s1.(max_seq) = s.(max_seq)
   else s1.(held) = [] /\ s1.(gaps) = []).
Proof.
  intros [W B D] Hcm Hh. pose proof (cursor_step_gap K s now W Hcm Hh) as H.
  pose proof (cursor_step_blocks K s now W B) as B1. pose proof (ws_gaps _ _ W) as Hs.
  destruct (sm_find (cursor s) (gaps s)) as [g|] eqn:Eg.
  2:{ unfold cursor_step in *. rewrite Hh, Eg in *. split; [done|]. split; [done|].
      destruct (Z.eq_dec (cursor s) (max_seq s)) as [E|E].
      - destruct (ws_top _ _ W Hcm) as [[h Hx]|(? & ? & _)]; [congruence|done].
      - destruct (ws_cover _ _ W (cursor s) ltac:(lia)) as [[? ?]|[? ?]]; congruence. }
  destruct (skip_gap_skippable s now g (D _ _ Eg)) as [s0 Es].
  destruct (skip_gap_same _ _ _ _ Es) as (E1 & E2 & E3 & E4 & E5 & E6 & E7).
  assert (Em : max_block s0 = max_block s).
  { unfold skip_gap in Es. repeat case_match; by simplify_eq/=. }
  pose proof (ws_gap_in _ _ W _ _ Eg) as [Hlt _]. pose proof (ws_max _ _ W) as Hmax. unfold u32 in Hmax.
  pose proof (ws_cursor _ _ W) as Hcu. unfold u32 in Hcu.
  assert (Hgo : cursor_step s now = (set_cursor (set_gaps s0 (sm_erase (cursor s0) (gaps s0))) (cursor s + 1), None, true)).
  { unfold cursor_step. rewrite Hh, Eg, Es. cbn [cursor set_cursor set_gaps]. rewrite E1, (to_u32_id (cursor s + 1)) by (unfold u32; lia).
    by destruct (Z.eqb_spec (cursor s + 1) 0); [lia|]. }
  rewrite Hgo in *. destruct H as (_ & W1 & Hid & F1 & F2 & F3 & F4 & _). cbn [fst] in B1.
  split; [|split; [done|split; [|done]]].
  - unfold app_call, pending_calls. rewrite F3. destruct Hid as (_ & Hi & _).
    apply list_omap_ext. apply Forall_Forall2_diag. apply Forall_forall. intros kv _.
    unfold delivery_of. by rewrite Hi.
  - split; [done|done|]. intros m g'. rewrite F4, sm_find_erase by done. destruct (Z.eqb_spec m (cursor s)); [done|].
    intros Hg'. apply (skippable_mono s); [apply Hid|done| |cbn; by rewrite E5|by apply D].
    unfold held_above. by rewrite F3.
Qed.

Lemma cursor_loop_drains K now : 0 <= K -> forall fuel s,
  drains K now s -> (Z.to_nat (s.(max_seq) - s.(cursor) + 1) < fuel)%nat ->
  exists s', cursor_loop fuel s now = Some (s', pending_calls s) /\ s'.(held) = [] /\ s'.(gaps) = [].
Proof.
  intros HK. induction fuel as [|fuel IH]; intros s Dr Hf; [lia|]. cbn [cursor_loop]. pose proof (dr_wf _ _ _ Dr) as W.
  destruct (Z.leb_spec (cursor s) (max_seq s)) as [Hcm|Hcm].
  2:{ assert (Hh : held s = []).
      { destruct (held s) as [|[k v] l] eqn:El; [done|]. destruct (ws_held_in _ _ W k v); [|lia].
        rewrite El. cbn. by rewrite Z.eqb_refl. }
      assert (Hg : gaps s = []).
      { destruct (gaps s) as [|[k v] l] eqn:El; [done|]. destruct (ws_gap_in _ _ W k v); [|lia].
        rewrite El. cbn. by rewrite Z.eqb_refl. }
      exists s. unfold pending_calls. rewrite Hh. done. }
  assert (H : let '(s1, call, go) := cursor_step s now in
    pending_calls s = app_call call (pending_calls s1) /\ same_id s s1 /\
    (if (go : bool) then drains K now s1 /\ s1.(cursor) = s.(cursor) + 1 /\ s1.(max_seq) = s.(max_seq)
     else s1.(held) = [] /\ s1.(gaps) = [])).
  { destruct (sm_find (cursor s) (held s)) as [h|] eqn:Eh; [by apply (drains_held K now s h)|by apply (drains_gap K)]. }
  destruct (cursor_step s now) as [[s1 call] go]. destruct H as (Ep & _ & H). destruct go.
  - destruct H as (D1 & E1 & E2). destruct (IH s1 D1) as (s' & -> & Hh & Hg); [lia|]. cbn [mbind option_bind].
    exists s'. by rewrite Ep.
  - destruct H as [H1 H2]. exists s1. rewrite Ep. unfold pending_calls. by rewrite H1.
Qed.

(** ** The overdue stream *)

(** Every gap has waited out its stream's patience: the block deadlines, or for
    a best-effort stream the dwell ceiling. *)
Definition overdue (p : RxPolicy) (s : Stream) (now : Z) : Prop :=
  if s.(best_effort)
  then forall m g, sm_find m s.(gaps) = Some g -> p.(dwell_ceiling_ms) <= to_u64 (now - g.(first_missing_ms))
  else forall b i, sm_find b s.(blocks) = Some i -> i.(deadline_ms) <= now.

Lemma held_above_some s m q h0 :
  sm_find q s.(held) = Some h0 -> m < q -> exists k h, held_above s m = Some h /\ (k, h) ∈ s.(held).
Proof.
  intros Hq Hm. unfold held_above. destruct (filter (fun kv => m < kv.1) (held s)) as [|[k h] l] eqn:E.
  - exfalso. assert (Hin : (q, h0) ∈ filter (fun kv => m < kv.1) (held s)).
    { apply list_elem_of_filter. split; [done|]. by apply sm_find_elem. }
    rewrite E in Hin. by apply not_elem_of_nil in Hin.
  - exists k, h. split; [done|]. assert (Hin : (k, h) ∈ filter (fun kv => m < kv.1) (held s)) by (rewrite E; set_solver).
    by apply list_elem_of_filter in Hin as [_ ?].
Qed.

Lemma evaluate_drains K e s now :
  wf_stream K s -> wf_blocks s -> overdue e.(policy_) s now -> drains K now (evaluate_gaps e s now).
Proof.
  intros W B Ho. pose proof (evaluate_gaps_quiet e s now) as Q. split.
  - by apply (quiet_wf K s).
  - apply (block_quiet_wf s); [by repeat split|done].
  - intros m g'. cbn [gaps evaluate_gaps bump set_counters set_gaps]. rewrite map_map. cbn [fst snd].
    rewrite (sm_find_map (fun m g => (evaluate_gap (policy_ e) s (min_live_adapter_seq e s now) now m g).1)).
    destruct (sm_find m (gaps s)) as [g|] eqn:Eg; [|done]. cbn [fmap option_fmap option_map]. intros [= <-].
    destruct (ws_gap_in _ _ W m g Eg) as [Hm _].
    destruct (ws_top _ _ W ltac:(lia)) as [[h0 Hh0]|(_ & Hnil & _)]; [|by rewrite Hnil in Eg].
    destruct (held_above_some s m _ h0 Hh0 ltac:(lia)) as (k & h & Hab & Hin).
    assert (Hk : sm_find k (held s) = Some h) by (apply sm_elem_find; [apply W|done]).
    unfold skippable, evaluate_gap, overdue in *. cbn [best_effort evaluate_gaps bump set_counters set_gaps max_block blocks].
    destruct (fec_satisfied g) eqn:Ef; [left; exact Ef|]. cbn [fst fec_satisfied superseded declared_lost].
    destruct (best_effort s) eqn:Eb.
    + right; right; left. split; [done|]. specialize (Ho m g Eg).
      destruct (declared_lost g); [done|]. cbn [negb andb orb].
      destruct (Z.geb_spec (to_u64 (now - first_missing_ms g)) (dwell_ceiling_ms (policy_ e))); [|lia].
      by rewrite orb_true_r.
    + pose proof (wb_held _ B k h Hk) as Hle. rewrite Hab. destruct (Z.ltb_spec (h_block_id h) (max_block s)).
      * right; left. cbn. by rewrite orb_true_r.
      * right; right; right. split; [done|]. assert (Em : h_block_id h = max_block s) by lia.
        destruct (wb_known _ B k h Hk Eb Em) as [i Hi]. exists h, i.
        split; [exact Hab|]. split; [done|]. split; [done|]. by apply (Ho _ i Hi).
Qed.

Section Reach.
Context {E : Type} (early : @EarlyDeliver E).

Lemma stream_step_blocks p K rec s env ev r :
  K = p.(fwd_clamp_pkts) -> 0 <= K -> wf_stream K s -> holds rec s -> wf_blocks s -> event_ok p ev ->
  stream_step early s env ev = Some r -> wf_blocks r.1.1.
Proof.
  intros EK HK W H B [Ep Hev]. destruct ev as [e a v now|e now|e b now]; cbn [stream_step event_engine] in *.
  - destruct Hev as [Hq [payload Hv]]. rewrite <- Ep in EK. by apply (on_stream_blocks K rec e s a v payload now).
  - destruct (advance_cursor _ now) as [[s1 out]|] eqn:E1; [|done]. cbn [mbind option_bind].
    intros Hr. apply (inj Some) in Hr. rewrite <- Hr. exact (advance_blocks e K s now s1 out HK W B E1).
  - destruct (advance_cursor _ now) as [[s1 out]|] eqn:E1; [|done]. cbn [mbind option_bind].
    intros Hr. apply (inj Some) in Hr. rewrite <- Hr.
    apply (advance_blocks e K (mark_frame_complete (policy_ e) s b) now s1 out HK); [| |done].
    + apply (quiet_wf K s); [apply mark_frame_complete_quiet|done].
    + apply (block_quiet_wf s); [by repeat split|done].
Qed.

Lemma stream_run_reach p K evs : K = p.(fwd_clamp_pkts) -> 0 <= K -> forall rec s env s' out env' moved,
  wf_stream K s -> holds rec s -> wf_blocks s -> Forall (event_ok p) evs ->
  stream_run early s env evs = Some (s', out, env', moved) -> wf_stream K s' /\ wf_blocks s'.
Proof.
  intros EK HK. induction evs as [|ev evs IH]; intros rec s env s' out env' moved W H B Hev; cbn [stream_run].
  - intros [= <- _ _ _]. done.
  - apply Forall_cons in Hev as [He Hev].
    destruct (stream_step_ok early p K rec s env ev EK HK W H He) as (s1 & o1 & env1 & E1 & [W1 _ H1 _ _ _]).
    pose proof (stream_step_blocks p K rec s env ev _ EK HK W H B He E1) as B1. cbn [fst] in B1.
    rewrite E1. cbn [mbind option_bind].
    destruct (stream_run early s1 env1 evs) as [[[[s2 o2] env2] mv]|] eqn:E2; [|done]. cbn [mbind option_bind].
    intros [= <- _ _ _]. by apply (IH _ s1 env1 s2 o2 env2 mv W1 H1 B1).
Qed.
End Reach.

(** A latched stream never stalls: in any state its handlers reach, a tick
    at a time when every gap is overdue delivers, in sequence order, every
    packet still held (those not already delivered early), and leaves neither
    packets nor gaps behind. *)
Theorem rx_tick_drains (X : Type) (early : @EarlyDeliver X) p w v now0 env evs s out env' moved e now
    (HK : 0 <= p.(fwd_clamp_pkts)) (Hq : u32 v.(dv_hdr).(dh_seq)) (Hev : Forall (event_ok p) evs)
    (Hrun : stream_run early (new_stream w v now0) env evs = Some (s, out, env', moved))
    (Hp : e.(policy_) = p) (Ho : overdue p s now) :
  exists s', advance_cursor (evaluate_gaps e s now) now = Some (s', pending_calls s) /\
    s'.(held) = [] /\ s'.(gaps) = [].
Proof.
  assert (W0 : wf_stream (fwd_clamp_pkts p) (new_stream w v now0)) by by apply new_stream_wf.
  assert (B0 : wf_blocks (new_stream w v now0)) by (split; cbn; (done || constructor || lia)).
  destruct (stream_run_reach early p _ evs eq_refl HK [] _ env s out env' moved W0 ltac:(done) B0 Hev Hrun) as [W B].
  rewrite <- Hp in Ho. pose proof (evaluate_drains _ e s now W B Ho) as D.
  destruct (cursor_loop_drains _ now HK (S (S (Z.to_nat (max_seq (evaluate_gaps e s now) - cursor (evaluate_gaps e s now)))))
    (evaluate_gaps e s now) D ltac:(lia)) as (s' & Hl & Hh & Hg).
  exists s'. split; [|done]. unfold advance_cursor. rewrite Hl. done.
Qed.
Lemma rx_tick_drains_witness :
  exists s s', stream_run (E := unit) None (new_stream demo_want (demo_view 10 1 0) 100) tt demo_events
      = Some (s, [MkDelivery 10 1 1 0 [10; 1]], tt, false) /\
    advance_cursor (evaluate_gaps demo_engine s 200) 200 = Some (s', pending_calls s) /\
    seqs (pending_calls s) = [12; 13] /\ s'.(held) = [].
Proof.
  assert (HK : 0 <= fwd_clamp_pkts RxPolicy_init) by (vm_compute; discriminate).
  destruct (stream_run (E := unit) None (new_stream demo_want (demo_view 10 1 0) 100) tt demo_events)
    as [[[[s out] env'] moved]|] eqn:E0; [|vm_compute in E0; discriminate].
  assert (Ho : overdue RxPolicy_init s 200).
  { vm_compute in E0. injection E0 as <- _ _ _. intros b i Hb. cbn in Hb.
    destruct (b =? 1); [injection Hb as <-; cbn; lia|discriminate]. }
  destruct (rx_tick_drains unit None RxPolicy_init demo_want (demo_view 10 1 0) 100 tt demo_events s out env' moved
    demo_engine 200 HK ltac:(split; [discriminate|reflexivity]) demo_events_ok E0 eq_refl Ho) as (s' & H1 & H2 & _).
  exists s, s'. destruct env'. vm_compute in E0. injection E0 as <- <- <-.
  split; [reflexivity|]. split; [exact H1|]. split; [reflexivity|exact H2].
Defined.

Inductive EngineEvent : Type :=
| EvData (adapter_id : Z) (v : DataView) (now_ms rssi : Z)
| EvTick (now_ms : Z)
| EvComplete (local_stream_id block_id now_ms : Z)
| EvResetStats
| EvSelect (originator : Z)
| EvUnpin.

Section EngineRun.
Context {E : Type} (early : @EarlyDeliver E).

Definition engine_step (e : RxEngine) (env : E) (ev : EngineEvent) : option (RxEngine * list Delivery * E) :=
  match ev with
  | EvData a v now rssi => on_data e a v now rssi early env
  | EvTick now => '(e, out) ← tick e now; Some (e, out, env)
  | EvComplete id b now => '(e, out) ← complete_frame e id b now; Some (e, out, env)
  | EvResetStats => Some (reset_stats e, [], env)
  | EvSelect o => Some (select_originator e o, [], env)
  | EvUnpin => Some (unpin_originator e, [], env)
  end.

Fixpoint engine_run (e : RxEngine) (env : E) (evs : list EngineEvent) : option (RxEngine * list Delivery * E) :=
  match evs with
  | [] => Some (e, [], env)
  | ev :: evs =>
    '(e, out, env) ← engine_step e env ev; '(e, outs, env) ← engine_run e env evs; Some (e, out ++ outs, env)
  end.
End EngineRun.

(** ** Admission *)

(** When a tuple was heard. *)
Definition heard (k : Z) (evs : list EngineEvent) : list Z :=
  omap (fun ev => match ev with
    | EvData _ v now _ => if pack_key (view_key v) =? k then Some now else None
    | _ => None end) evs.

(** [n] packets of the tuple within one admission window. *)
Definition heard_in_window (p : RxPolicy) (k n : Z) (first : Z) (evs : list EngineEvent) : Prop :=
  exists ts, len ts = n /\ sublist ts (heard k evs) /\
    Forall (fun t => to_u64 (t - first) <= p.(admit_window_ms)) ts.

Definition admitted_tuple (p : RxPolicy) (evs : list EngineEvent) (k : Z) : Prop :=
  exists first n, p.(admit_n) <= n /\ heard_in_window p k n first evs.

Record engine_ok (p : RxPolicy) (evs : list EngineEvent) (e : RxEngine) : Prop := {
  eo_policy : e.(policy_) = p;
  eo_sorted : sm_sorted e.(streams_);
  eo_streams : forall k s, (k, s) ∈ e.(streams_) -> wf_stream p.(fwd_clamp_pkts) s /\ admitted_tuple p evs k;
  eo_unique : forall k1 s1 k2 s2, (k1, s1) ∈ e.(streams_) -> (k2, s2) ∈ e.(streams_) ->
    s1.(st_local_stream_id) = s2.(st_local_stream_id) -> k1 = k2;
  eo_disc_sorted : sm_sorted e.(discovery_);
  eo_disc : forall k c, (k, c) ∈ e.(discovery_) -> 1 <= c.(cd_count) < p.(admit_n) /\
    heard_in_window p k c.(cd_count) c.(cd_first_ms) evs;
  eo_cap : len e.(discovery_) <= Z.max 1 p.(discovery_cache_cap)
}.

Lemma heard_snoc k evs ev : heard k (evs ++ [ev]) = heard k evs ++ heard k [ev].
Proof. unfold heard. by rewrite omap_app. Qed.

Lemma heard_in_window_mono p k n first evs ev :
  heard_in_window p k n first evs -> heard_in_window p k n first (evs ++ [ev]).
Proof.
  intros (ts & Hl & Hs & Hw). exists ts. split; [done|]. split; [|done]. rewrite heard_snoc.
  by apply sublist_inserts_r.
Qed.

Lemma admitted_mono p k evs ev : admitted_tuple p evs k -> admitted_tuple p (evs ++ [ev]) k.
Proof. intros (first & n & Hn & H). exists first, n. split; [done|]. by apply heard_in_window_mono. Qed.

Lemma engine_ok_mono p evs ev e : engine_ok p evs e -> engine_ok p (evs ++ [ev]) e.
Proof.
  intros [H1 H2 H3 H4 H5 H6 H7]. split; try done.
  - intros k s Hs. destruct (H3 k s Hs). split; [done|]. by apply admitted_mono.
  - intros k c Hc. destruct (H6 k c Hc). split; [done|]. by apply heard_in_window_mono.
Qed.

(** ** Eviction *)
Lemma oldest_fold key (d : smap Candidate) : forall acc,
  let r := fold_left (fun oldest kv =>
    if kv.1 =? key then oldest else
    match oldest with None => Some kv | Some o => if kv.2.(cd_last_ms) <? o.2.(cd_last_ms) then Some kv else oldest end)
    d acc in
  (r = None -> acc = None /\ forall e, e ∈ d -> e.1 = key) /\
  (forall o, r = Some o -> acc = Some o \/ (o ∈ d /\ o.1 <> key)).
Proof.
  induction d as [|kv d IH]; intros acc; cbn.
  - split; [|by left]. intros ->. split; [done|]. intros e He. by apply not_elem_of_nil in He.
  - destruct (Z.eqb_spec kv.1 key) as [Hk|Hk].
    + destruct (IH acc) as [I1 I2]. split.
      * intros Hr. destruct (I1 Hr) as [? Hall]. split; [done|]. intros e [->|He]%elem_of_cons; [done|auto].
      * intros o Ho. destruct (I2 o Ho) as [|[]]; [by left|right; set_solver].
    + set (acc' := match acc with None => _ | Some o => _ end). destruct (IH acc') as [I1 I2]. split.
      * intros Hr. destruct (I1 Hr) as [Ha _]. unfold acc' in Ha. destruct acc as [o|]; [|done]. by destruct (_ <? _).
      * intros o Ho. destruct (I2 o Ho) as [Ha|[]]; [|right; set_solver]. unfold acc' in Ha.
        destruct acc as [o'|]; [destruct (_ <? _); [|by left]|]; injection Ha as <-; right; (split; [set_solver|done]).
Qed.

Lemma sorted_one_key {V} key (m : smap V) : sm_sorted m -> (forall e, e ∈ m -> e.1 = key) -> (length m <= 1)%nat.
Proof.
  intros Hs Hk. destruct m as [|[k1 v1] [|[k2 v2] m]]; cbn; [lia|lia|]. exfalso.
  apply sm_sorted_cons in Hs as [_ Hf]. pose proof (Hk (k1, v1) ltac:(set_solver)). pose proof (Hk (k2, v2) ltac:(set_solver)).
  specialize (Hf (k2, v2) ltac:(set_solver)). cbn in *. lia.
Qed.

Lemma sm_erase_length {V} k v (m : smap V) : sm_find k m = Some v -> length m = S (length (sm_erase k m)).
Proof.
  induction m as [|[k' v'] m IH]; [done|]. cbn. destruct (Z.eqb_spec k k'); [done|]. intros H. cbn. f_equal. auto.
Qed.

Lemma evict_ok cap key : forall fuel (d : smap Candidate),
  sm_sorted d -> (length d <= fuel)%nat ->
  let d' := evict_candidates fuel cap key d in
  sm_sorted d' /\ (forall e, e ∈ d' -> e ∈ d) /\ sm_find key d' = sm_find key d /\ len d' <= Z.max 1 cap.
Proof.
  induction fuel as [|fuel IH]; intros d Hs Hl; cbn [evict_candidates].
  - destruct d; [|cbn in Hl; lia]. split; [done|]. split; [done|]. split; [done|]. cbn. lia.
  - destruct (Z.gtb_spec (len d) cap) as [Hgt|]; [|split_and!; (done || lia)].
    destruct (oldest_fold key d None) as [O1 O2]. unfold oldest_candidate.
    destruct (fold_left _ d None) as [[k c]|].
    + destruct (O2 _ eq_refl) as [?|[Hin Hk]]; [done|]. cbn [fst] in Hk.
      pose proof (sm_elem_find k c d Hs Hin) as Hf. pose proof (sm_erase_length k c d Hf) as Hlen.
      destruct (IH (sm_erase k d)) as (I1 & I2 & I3 & I4); [by apply sm_erase_sorted|lia|].
      split; [done|]. split; [intros e He; by apply (sm_erase_elem k), I2|]. split; [|done].
      rewrite I3, sm_find_erase by done. by destruct (Z.eqb_spec key k).
    + destruct (O1 eq_refl) as [_ Hall]. split; [done|]. split; [done|]. split; [done|].
      pose proof (sorted_one_key key d Hs Hall). lia.
Qed.

(** ** Latching *)
Lemma find_want_spec ws ss v w rk :
  find_want ws ss v = Some (w, rk) ->
  match rk with
  | None => forall k s, (k, s) ∈ ss -> s.(st_local_stream_id) <> w.(w_local_stream_id)
  | Some k => exists s, (k, s) ∈ ss /\ s.(st_local_stream_id) = w.(w_local_stream_id)
  end.
Proof.
  induction ws as [|w0 ws IH]; cbn [find_want]; [done|]. destruct (negb _); [auto|].
  destruct (match w_originator w0 with Some o => _ | None => _ end); [auto|].
  destruct (List.find _ ss) as [[k s]|] eqn:Ef.
  - apply List.find_some in Ef as [Hin Hl]. apply Z.eqb_eq in Hl. apply list_elem_of_In in Hin. cbn in Hl.
    destruct (_ && _); [|auto]. intros [= <- <-]. by exists s.
  - intros [= <- <-] k s Hin Hl. apply list_elem_of_In in Hin. pose proof (List.find_none _ _ Ef _ Hin) as Hn.
    cbn in Hn. rewrite Hl, Z.eqb_refl in Hn. done.
Qed.

Lemma sm_find_emplace_new {V} k (v : V) m : sm_sorted m -> sm_find k m = None -> sm_find k (sm_emplace k v m).1 = Some v.
Proof. intros Hs Hn. by rewrite sm_find_emplace, Hn, Z.eqb_refl. Qed.

Section Latch.
Context (p : RxPolicy) (evs : list EngineEvent) (e : RxEngine) (a : Z) (v : DataView) (now rssi : Z).
Hypothesis HK : 0 <= p.(fwd_clamp_pkts).
Hypothesis Hadm : 0 <= p.(admit_n) <= 255.
Hypothesis Hwin : 0 <= p.(admit_window_ms).
Hypothesis Hq : u32 v.(dv_hdr).(dh_seq).
Hypothesis He : engine_ok p evs e.
Let ev := EvData a v now rssi.
Let key := pack_key (view_key v).

Lemma heard_here : heard key [ev] = [now].
Proof. unfold heard, ev, key. cbn. by rewrite Z.eqb_refl. Qed.

(** The candidate after this packet: its count is the packets of its window. *)
Lemma note_candidate_ok :
  exists c, sm_find key (note_candidate p e.(discovery_) key v now) = Some c /\
    1 <= c.(cd_count) <= Z.max 1 p.(admit_n) /\ heard_in_window p key c.(cd_count) c.(cd_first_ms) (evs ++ [ev]).
Proof.
  unfold note_candidate. set (c0 := default Candidate_init (sm_find key (discovery_ e))).
  set (c1 := if _ || _ then _ else c0). eexists. rewrite sm_find_assign, Z.eqb_refl by apply He.
  split; [done|]. cbn [cd_count cd_first_ms].
  assert (H1 : heard_in_window p key c1.(cd_count) c1.(cd_first_ms) evs /\ 0 <= c1.(cd_count) < Z.max 1 p.(admit_n) /\
    to_u64 (now - c1.(cd_first_ms)) <= p.(admit_window_ms)).
  { unfold c1. destruct ((cd_count c0 =? 0) || _) eqn:Hb.
    - cbn. split; [|split; [lia|rewrite Z.sub_diag; exact Hwin]]. exists []. split; [done|]. split; [apply sublist_nil_l|constructor].
    - apply orb_false_iff in Hb as [Hc Hw]. apply Z.eqb_neq in Hc. rewrite Z.gtb_ltb in Hw. apply Z.ltb_ge in Hw.
      unfold c0 in *. destruct (sm_find key (discovery_ e)) as [c|] eqn:Ef; [|done]. cbn in *.
      destruct (eo_disc _ _ _ He key c (sm_find_elem _ _ _ Ef)) as [? ?]. split; [done|]. split; lia. }
  destruct H1 as ((ts & Hl & Hs & Hf) & Hc & Hw). rewrite to_u8_id by (unfold u8; lia). split; [lia|].
  exists (ts ++ [now]). split; [rewrite length_app; cbn; lia|]. split.
  - rewrite heard_snoc, heard_here. by apply sublist_app.
  - apply Forall_app. split; [done|]. by constructor.
Qed.

(** [try_latch] keeps the invariant; a latched stream's tuple was admitted. *)
Lemma try_latch_ok :
  sm_find key e.(streams_) = None ->
  let '(latched, e') := try_latch e v now in
  engine_ok p (evs ++ [ev]) e' /\ (latched = true -> is_Some (sm_find key e'.(streams_))).
Proof.
  intros Hnone. pose proof (engine_ok_mono p evs ev e He) as He'. unfold try_latch. fold key.
  destruct (find_want (wants_ e) (streams_ e) v) as [[w rk]|] eqn:Ew; [|done].
  rewrite (eo_policy _ _ _ He).
  destruct note_candidate_ok as (c & Hc & Hcount & Hwindow).
  set (d := note_candidate p (discovery_ e) key v now) in *.
  assert (Hds : sm_sorted d) by (apply sm_assign_sorted, He).
  assert (Hdin : forall k c', (k, c') ∈ d -> k = key \/ (k, c') ∈ discovery_ e).
  { intros k c' Hin. apply sm_assign_elem in Hin as [Hin|?]; [injection Hin as -> _; by left|by right]. }
  destruct (evict_ok (discovery_cache_cap p) key (length d) d Hds ltac:(lia)) as (E1 & E2 & E3 & E4).
  set (d' := evict_candidates _ _ _ d) in *. rewrite E3, Hc.
  destruct He' as [P1 P2 P3 P4 P5 P6 P7].
  assert (Hother : forall k c', (k, c') ∈ d' -> k <> key ->
    1 <= c'.(cd_count) < p.(admit_n) /\ heard_in_window p k c'.(cd_count) c'.(cd_first_ms) (evs ++ [ev])).
  { intros k c' Hin Hk. destruct (Hdin k c' (E2 _ Hin)); [done|by apply P6]. }
  destruct (Z.ltb_spec (cd_count c) (admit_n p)) as [Hlt|Hge].
  - split; [|done]. split; cbn; try done. intros k c' Hin. destruct (Z.eq_dec k key) as [->|]; [|by apply Hother].
    apply sm_elem_find in Hin; [|done]. rewrite E3, Hc in Hin. injection Hin as <-. split; [lia|done].
  - set (ss := match rk with Some k => sm_erase k (streams_ e) | None => streams_ e end).
    assert (Hss : sm_sorted ss) by (unfold ss; destruct rk; [by apply sm_erase_sorted|done]).
    assert (Hin : forall x, x ∈ ss -> x ∈ streams_ e) by (intros x; unfold ss; destruct rk; [apply sm_erase_elem|done]).
    assert (Hnew : sm_find key ss = None).
    { unfold ss. destruct rk; [|done]. rewrite sm_find_erase by done. by destruct (_ =? _). }
    assert (Huniq : forall k s, (k, s) ∈ ss -> s.(st_local_stream_id) <> w.(w_local_stream_id)).
    { pose proof (find_want_spec _ _ _ _ _ Ew) as Hw. unfold ss. destruct rk as [kr|]; [|done].
      destruct Hw as (sr & Hr1 & Hr2). intros k s Hks Hl.
      assert (Hkk : k = kr) by (apply (P4 k s kr sr); [by apply (sm_erase_elem kr)|done|congruence]).
      subst k. apply sm_elem_find in Hks; [|by apply sm_erase_sorted].
      rewrite sm_find_erase, Z.eqb_refl in Hks by done. done. }
    split; [|intros _; cbn; exists (new_stream w v now); by apply sm_find_emplace_new].
    split; cbn; try done.
    + by apply sm_emplace_sorted.
    + intros k s Hks. apply sm_emplace_elem in Hks as [Hks|Hks]; [|by apply P3, Hin].
      injection Hks as -> ->. split; [by apply wf_empty|]. exists c.(cd_first_ms), c.(cd_count). split; [lia|done].
    + intros k1 s1 k2 s2 H1 H2 Hl. apply sm_emplace_elem in H1 as [H1|H1], H2 as [H2|H2].
      * congruence.
      * injection H1 as -> ->. cbn in Hl. symmetry in Hl. by apply (Huniq k2 s2) in Hl.
      * injection H2 as -> ->. cbn in Hl. by apply (Huniq k1 s1) in Hl.
      * by apply (P4 k1 s1 k2 s2); auto.
    + by apply sm_erase_sorted.
    + intros k c' Hks. apply Hother; [by apply (sm_erase_elem key)|]. intros ->.
      apply sm_elem_find in Hks; [|by apply sm_erase_sorted]. by rewrite sm_find_erase, Z.eqb_refl in Hks.
    + pose proof (sm_erase_length key c d' ltac:(by rewrite E3)). lia.
Qed.

End Latch.

(** ** The other operations *)
Section Steps.
Context (p : RxPolicy) (evs : list EngineEvent).
Hypothesis HK : 0 <= p.(fwd_clamp_pkts).

(** Writing a handled stream back. *)
Lemma assign_stream_ok e key s s' :
  engine_ok p evs e -> sm_find key e.(streams_) = Some s -> wf_stream p.(fwd_clamp_pkts) s' ->
  s'.(st_local_stream_id) = s.(st_local_stream_id) ->
  engine_ok p evs (with_streams_ e (sm_assign key s' e.(streams_))).
Proof.
  intros [P1 P2 P3 P4 P5 P6 P7] Hs W Hl. apply sm_find_elem in Hs.
  split; cbn; try done.
  - by apply sm_assign_sorted.
  - intros k x Hx. apply sm_assign_elem in Hx as [Hx|Hx]; [|by apply P3]. injection Hx as -> ->.
    split; [done|by apply (P3 key s)].
  - intros k1 s1 k2 s2 H1 H2 H12.
    apply sm_assign_elem in H1 as [H1|H1], H2 as [H2|H2].
    + congruence.
    + injection H1 as -> ->. apply (P4 key s k2 s2); [done|done|congruence].
    + injection H2 as -> ->. apply (P4 k1 s1 key s); [done|done|congruence].
    + by apply (P4 k1 s1 k2 s2).
Qed.

Lemma tick_streams_ok e now : forall ss,
  sm_sorted ss -> (forall k s, (k, s) ∈ ss -> wf_stream p.(fwd_clamp_pkts) s) ->
  exists ss' out, tick_streams e ss now = Some (ss', out) /\ sm_sorted ss' /\
    (forall k s', (k, s') ∈ ss' -> wf_stream p.(fwd_clamp_pkts) s' /\
       exists s, (k, s) ∈ ss /\ s'.(st_local_stream_id) = s.(st_local_stream_id)).
Proof.
  induction ss as [|[k s] ss IH]; intros Hs Hw; cbn [tick_streams].
  - eexists _, _. split; [done|]. split; [done|]. intros k s' H. by apply not_elem_of_nil in H.
  - apply sm_sorted_cons in Hs as [Hs Hlt].
    destruct IH as (ss' & outs & E1 & S1 & H1); [done|intros k' s' ?; apply (Hw k'); set_solver|].
    destruct (idle (policy_ e) s now).
    + rewrite E1. eexists _, _. split; [done|]. split; [done|]. intros k' s' Hin.
      destruct (H1 k' s' Hin) as (? & s0 & ? & ?). split; [done|]. exists s0. split; [set_solver|done].
    + assert (W : wf_stream (fwd_clamp_pkts p) s) by (apply (Hw k); set_solver).
      set (rec := map (fun kv => held_packet kv.1 kv.2) s.(held)).
      assert (H : holds rec s).
      { intros q h Hq. apply sm_find_elem in Hq. by apply (list_elem_of_fmap_2 (fun kv => held_packet kv.1 kv.2) _ (q, h)). }
      destruct (evaluate_stream_ok e _ rec s now HK W H) as (s' & out & -> & [W' [_ Hl] _ _ _ _]).
      cbn [mbind option_bind]. rewrite E1. cbn [mbind option_bind]. eexists _, _. split; [done|]. split.
      * apply sm_sorted_cons. split; [done|]. intros [k' x] Hin. destruct (H1 k' x Hin) as (_ & s0 & Hin0 & _).
        by apply (Hlt (k', s0)).
      * intros k' x [Hx|Hx]%elem_of_cons.
        -- injection Hx as -> ->. split; [done|]. exists s. split; [set_solver|done].
        -- destruct (H1 k' x Hx) as (? & s0 & ? & ?). split; [done|]. exists s0. split; [set_solver|done].
Qed.

Lemma filter_length_le {A} (f : A -> bool) (l : list A) : (length (List.filter f l) <= length l)%nat.
Proof. induction l as [|x l IH]; cbn; [lia|]. destruct (f x); cbn; lia. Qed.

Lemma tick_ok e now :
  engine_ok p evs e -> exists e' out, tick e now = Some (e', out) /\ engine_ok p evs e'.
Proof.
  intros [P1 P2 P3 P4 P5 P6 P7]. unfold tick.
  destruct (tick_streams_ok e now e.(streams_) P2 ltac:(intros k s H; by apply (P3 k))) as (ss & out & -> & S1 & H1).
  cbn [mbind option_bind]. eexists _, _. split; [done|]. split; cbn; try done.
  - intros k s' Hin. destruct (H1 k s' Hin) as (? & s & Hs & _). split; [done|by apply (P3 k s)].
  - intros k1 s1 k2 s2 Hin1 Hin2 Hl. destruct (H1 k1 s1 Hin1) as (_ & t1 & Ht1 & E1), (H1 k2 s2 Hin2) as (_ & t2 & Ht2 & E2).
    apply (P4 k1 t1 k2 t2); [done|done|congruence].
  - by apply smap_filter_sorted.
  - intros k c Hin. apply P6. apply list_elem_of_In, List.filter_In in Hin as [Hin _]. by apply list_elem_of_In.
  - pose proof (filter_length_le (fun kv => negb (to_u64 (now - kv.2.(cd_last_ms)) >? to_u64 (4 * e.(policy_).(admit_window_ms)))) e.(discovery_)).
    lia.
Qed.

Lemma complete_frame_ok e id b now :
  engine_ok p evs e -> exists e' out, complete_frame e id b now = Some (e', out) /\ engine_ok p evs e'.
Proof.
  intros He. pose proof He as [P1 P2 P3 P4 P5 P6 P7]. unfold complete_frame.
  destruct (List.find _ (streams_ e)) as [[key s]|] eqn:Ef; [|by eexists _, _].
  apply List.find_some in Ef as [Hin _]. apply list_elem_of_In in Hin.
  destruct (P3 _ _ Hin) as [W _]. set (rec := map (fun kv => held_packet kv.1 kv.2) s.(held)).
  assert (H : holds rec s).
  { intros q h Hq. apply sm_find_elem in Hq. by apply (list_elem_of_fmap_2 (fun kv => held_packet kv.1 kv.2) _ (q, h)). }
  destruct (complete_stream_ok e _ rec s b now HK W H) as (s' & out & -> & [W' [_ Hl] _ _ _ _]).
  cbn [mbind option_bind]. eexists _, _. split; [done|]. apply (assign_stream_ok e key s s'); try done.
  by apply sm_elem_find.
Qed.

Lemma reset_stats_ok e : engine_ok p evs e -> engine_ok p evs (reset_stats e).
Proof.
  intros [P1 P2 P3 P4 P5 P6 P7].
  set (g := fun (_ : Z) s => set_adapter_seq (set_counters s RxStreamCounters_init)
    (map (fun ka => (ka.1, MkAdapterSeq ka.2.(as_have) ka.2.(as_highest) 0 0 [])) s.(adapter_seq))).
  assert (Hin : forall k s, (k, s) ∈ streams_ (reset_stats e) -> exists s0, (k, s0) ∈ streams_ e /\ s = g k s0).
  { intros k s H. cbn in H. apply list_elem_of_fmap in H as ([k0 s0] & H & H0). injection H as -> ->. by exists s0. }
  split; try done.
  - apply (sm_sorted_map g). exact P2.
  - intros k s H. destruct (Hin k s H) as (s0 & H0 & ->). destruct (P3 k s0 H0) as [W A]. split; [|done].
    by apply (wf_same _ s0).
  - intros k1 s1 k2 s2 H1 H2 Hl. destruct (Hin k1 s1 H1) as (t1 & T1 & ->), (Hin k2 s2 H2) as (t2 & T2 & ->).
    by apply (P4 k1 t1 k2 t2).
Qed.

(** A dropped subscription: nothing latched, nothing discovered. *)
Lemma empty_engine_ok e : e.(policy_) = p -> e.(streams_) = [] -> e.(discovery_) = [] -> engine_ok p evs e.
Proof.
  intros Hp Hs Hd. split; rewrite ?Hs, ?Hd; try done; try constructor; try (intros; set_solver). cbn. lia.
Qed.
End Steps.

Section Engine.
Context {X : Type} (early : @EarlyDeliver X) (p : RxPolicy).
Hypothesis HK : 0 <= p.(fwd_clamp_pkts).
Hypothesis Hadm : 0 <= p.(admit_n) <= 255.
Hypothesis Hwin : 0 <= p.(admit_window_ms).

Definition engine_event_ok (ev : EngineEvent) : Prop :=
  match ev with EvData _ v _ _ => packet_ok v | _ => True end.

Lemma on_data_ok evs e a v now rssi env :
  engine_ok p evs e -> packet_ok v ->
  exists e' out env', on_data e a v now rssi early env = Some (e', out, env') /\
    engine_ok p (evs ++ [EvData a v now rssi]) e'.
Proof.
  intros He [Hq [payload Hv]]. unfold on_data.
  assert (He1 : engine_ok p evs (hear_adapter e a now rssi)) by (destruct He; by split).
  set (e1 := hear_adapter e a now rssi) in *. clearbody e1. set (key := pack_key (view_key v)).
  assert (H : let '(latched, e2) := match sm_find key e1.(streams_) with Some _ => (true, e1) | None => try_latch e1 v now end in
    engine_ok p (evs ++ [EvData a v now rssi]) e2 /\ (latched = true -> is_Some (sm_find key e2.(streams_)))).
  { destruct (sm_find key (streams_ e1)) as [s|] eqn:Es.
    - split; [by apply engine_ok_mono|]. intros _. rewrite Es. by eexists.
    - by apply (try_latch_ok p evs e1 a v now rssi). }
  destruct (match sm_find key (streams_ e1) with Some _ => _ | None => _ end) as [latched e2]. destruct H as [He2 Hl].
  destruct latched; cbn [negb]; [|by eexists _, _, _].
  destruct (Hl eq_refl) as [s Hs]. rewrite Hs. cbn [mbind option_bind].
  destruct (eo_streams _ _ _ He2 key s (sm_find_elem _ _ _ Hs)) as [W _].
  set (rec := map (fun kv => held_packet kv.1 kv.2) s.(held)).
  assert (H : holds rec s).
  { intros q h Hqh. apply sm_find_elem in Hqh. by apply (list_elem_of_fmap_2 (fun kv => held_packet kv.1 kv.2) _ (q, h)). }
  assert (EK : fwd_clamp_pkts p = fwd_clamp_pkts (policy_ e2)) by by rewrite (eo_policy _ _ _ He2).
  destruct (on_stream_ok _ rec e2 s a v payload now early env EK HK W H Hq Hv) as (s' & out & env' & -> & [W' [_ Hid] _ _ _ _]).
  cbn [mbind option_bind]. eexists _, _, _. split; [done|]. by apply (assign_stream_ok p _ e2 key s s').
Qed.

Lemma engine_step_ok evs e env ev :
  engine_ok p evs e -> engine_event_ok ev ->
  exists e' out env', engine_step early e env ev = Some (e', out, env') /\ engine_ok p (evs ++ [ev]) e'.
Proof.
  intros He Hev. pose proof (engine_ok_mono p evs ev e He) as He'. destruct ev as [a v now rssi|now|id b now| |o|]; cbn [engine_step].
  - by apply on_data_ok.
  - destruct (tick_ok p _ HK e now He') as (e' & out & -> & H). cbn [mbind option_bind]. by eexists _, _, _.
  - destruct (complete_frame_ok p _ HK e id b now He') as (e' & out & -> & H). cbn [mbind option_bind]. by eexists _, _, _.
  - eexists _, _, _. split; [done|]. by apply reset_stats_ok.
  - eexists _, _, _. split; [done|]. unfold select_originator. destruct (o =? 0); [done|].
    destruct (forallb _ _); [done|]. apply empty_engine_ok; [exact HK|apply He'|done|done].
  - eexists _, _, _. split; [done|]. apply empty_engine_ok; [exact HK|apply He'|done|done].
Qed.

Lemma engine_run_ok evs2 : forall evs e env,
  engine_ok p evs e -> Forall engine_event_ok evs2 ->
  exists e' out env', engine_run early e env evs2 = Some (e', out, env') /\ engine_ok p (evs ++ evs2) e'.
Proof.
  induction evs2 as [|ev evs2 IH]; intros evs e env He Hev; cbn [engine_run].
  - rewrite app_nil_r. by eexists _, _, _.
  - apply Forall_cons in Hev as [H1 H2]. destruct (engine_step_ok evs e env ev He H1) as (e1 & out & env1 & -> & He1).
    cbn [mbind option_bind]. destruct (IH _ e1 env1 He1 H2) as (e2 & outs & env2 & -> & He2). cbn [mbind option_bind].
    eexists _, _, _. split; [done|]. by rewrite <- app_assoc in He2.
Qed.
End Engine.

(** C27. From a fresh engine, over any packets, ticks, completed frames, counter
    resets and subscription changes, the engine returns and keeps: every
    latched tuple had at least [admit_n] packets inside one admission window
    (so a one-shot forgery never latches); at most one stream is latched per
    output; every stream stores at most [fwd_clamp_pkts + 1] packets and
    [fwd_clamp_pkts] gaps; and the discovery cache stays within its cap. *)
Theorem rx_admission (X : Type) (early : @EarlyDeliver X) p wants table version env evs
    (HK : 0 <= p.(fwd_clamp_pkts)) (Hadm : 0 <= p.(admit_n) <= 255) (Hwin : 0 <= p.(admit_window_ms))
    (Hev : Forall engine_event_ok evs) :
  exists e out env', engine_run early (RxEngine_init p wants table version) env evs = Some (e, out, env') /\
    (forall k s, sm_find k e.(streams_) = Some s -> admitted_tuple p evs k /\
       len s.(held) <= p.(fwd_clamp_pkts) + 1 /\ len s.(gaps) <= p.(fwd_clamp_pkts)) /\
    (forall k1 s1 k2 s2, sm_find k1 e.(streams_) = Some s1 -> sm_find k2 e.(streams_) = Some s2 ->
       s1.(st_local_stream_id) = s2.(st_local_stream_id) -> k1 = k2) /\
    len e.(discovery_) <= Z.max 1 p.(discovery_cache_cap).
Proof.
  destruct (engine_run_ok early p HK Hadm Hwin evs [] (RxEngine_init p wants table version) env) as (e & out & env' & E0 & He).
  { by apply empty_engine_ok. }
  { exact Hev. }
  exists e, out, env'. split; [done|]. destruct He as [P1 P2 P3 P4 P5 P6 P7]. split; [|split; [|done]].
  - intros k s Hs. destruct (P3 k s (sm_find_elem _ _ _ Hs)) as [W A]. split; [done|]. by apply wf_held_bound.
  - intros k1 s1 k2 s2 H1 H2. apply P4; by apply sm_find_elem.
Qed.
Lemma rx_admission_witness :
  exists e out, engine_run (E := unit) None demo_engine tt
      [EvData 0 (demo_view 10 1 0) 100 0; EvData 1 (demo_view 11 1 0) 101 0; EvData 0 (demo_view 12 1 0) 102 0;
       EvTick 110] = Some (e, out, tt) /\
    length e.(streams_) = 1%nat /\ len e.(discovery_) <= 64.
Proof.
  destruct (rx_admission unit None RxPolicy_init [demo_want] None None tt
    [EvData 0 (demo_view 10 1 0) 100 0; EvData 1 (demo_view 11 1 0) 101 0; EvData 0 (demo_view 12 1 0) 102 0; EvTick 110])
    as (e & out & env' & E0 & _ & _ & Hc).
  - vm_compute. discriminate.
  - vm_compute. split; discriminate.
  - vm_compute. discriminate.
  - repeat constructor; cbn; (lia || by eexists).
  - exists e, out. destruct env'. split; [exact E0|]. split; [|exact Hc].
    vm_compute in E0. injection E0 as <- _. reflexivity.
Defined.

(** A tick one millisecond behind a candidate's last packet forgets it: the
    unsigned age wraps. *)
Lemma stale_tick_forgets :
  let '(_, e) := try_latch demo_engine (demo_view 10 1 0) 100 in
  length e.(discovery_) = 1%nat /\
  exists e', tick e 99 = Some (e', []) /\ e'.(discovery_) = [].
Proof. vm_compute. split; [reflexivity|]. eexists. split; reflexivity. Qed.
