(* ===== verification/CacheStore.v ===== *)
(** * The cache node's symbol store ([core/include/wblink/cache_store.h],
    [core/src/cache_store.cpp]) and its assignment gate
    ([core/include/wblink/cache_assignment.h], [core/src/cache_assignment.cpp])

    Heard DATA frames are kept verbatim per tracked stream, block and symbol
    index; a request is answered with a bounded subset.  A replayed or
    conflicting assignment never re-targets the cache. *)
From S2P Require Import Prelude Endian Types Wire SMap.

Record CacheStoreConfig : Type := MkCacheStoreConfig {
  cc_self_originator : Z;
  cc_target_originator : Z;
  cc_stream_ids : list Z;
  cc_blocks : Z;
  cc_reply_limit : Z;
  cc_max_requests_per_s : Z;
  cc_health_window_blocks : Z
}.
Definition CacheStoreConfig_init : CacheStoreConfig := MkCacheStoreConfig 0 0 [] 96 4 400 90.

Record CacheStoreStats : Type := MkCacheStoreStats {
  cs_requests_received : Z;
  cs_requests_answered : Z;
  cs_requests_rejected : Z;
  cs_symbols_sent : Z;
  cs_status_sent : Z;
  cs_blocks_held : Z;
  cs_health_permille : Z
}.
Definition CacheStoreStats_init : CacheStoreStats := MkCacheStoreStats 0 0 0 0 0 0 0.

Record BlockEntry : Type := MkBlockEntry {
  be_k : Z;
  be_symbols : smap (list Z);
  be_sources_held : Z
}.
Definition BlockEntry_init : BlockEntry := MkBlockEntry 0 [] 0.

Record StreamState : Type := MkStreamState {
  ss_key : StreamKey;
  ss_blocks : smap BlockEntry;
  ss_order : list Z
}.
Definition StreamState_init : StreamState := MkStreamState (MkStreamKey 0 0 0) [] [].

Record RequesterState : Type := MkRequesterState {
  rq_session_id : Z;
  rq_window_start_ms : Z;
  rq_window_count : Z;
  rq_recent_ids : list Z
}.
Definition RequesterState_init : RequesterState := MkRequesterState 0 0 0 [].

Record CacheStore : Type := MkCacheStore {
  cs_cfg : CacheStoreConfig;
  cs_stats : CacheStoreStats;
  cs_streams : smap StreamState;
  cs_requesters : smap RequesterState
}.
Definition CacheStore_init (cfg : CacheStoreConfig) : CacheStore := MkCacheStore cfg CacheStoreStats_init [] [].

Definition set_gauges (s : CacheStoreStats) (held health : Z) : CacheStoreStats :=
  MkCacheStoreStats s.(cs_requests_received) s.(cs_requests_answered) s.(cs_requests_rejected)
    s.(cs_symbols_sent) s.(cs_status_sent) held health.

(** Request counters: received, answered, rejected, symbols sent. *)
Definition count_requests (s : CacheStoreStats) (received answered rejected symbols : Z) : CacheStoreStats :=
  MkCacheStoreStats (to_u64 (s.(cs_requests_received) + received)) (to_u64 (s.(cs_requests_answered) + answered))
    (to_u64 (s.(cs_requests_rejected) + rejected)) (to_u64 (s.(cs_symbols_sent) + symbols))
    s.(cs_status_sent) s.(cs_blocks_held) s.(cs_health_permille).

(** [bit_set]: the byte is only read inside the length. *)
Definition bit_set (bm : ptr) (n i : Z) : option bool :=
  if i / 8 <? n
  then p ← bm; b ← rd8 p (Z.to_nat (i / 8)); Some (negb (Z.land b (Z.shiftl 1 (i mod 8)) =? 0))
  else Some false.

Definition tracked (c : CacheStore) (stream_id : Z) : bool :=
  existsb (fun x => x =? stream_id) c.(cs_cfg).(cc_stream_ids).

Definition assign_target (c : CacheStore) (originator : Z) : CacheStore :=
  let g := c.(cs_cfg) in
  if (originator =? 0) || (originator =? g.(cc_target_originator)) then c else
  MkCacheStore (MkCacheStoreConfig g.(cc_self_originator) originator g.(cc_stream_ids) g.(cc_blocks)
                  g.(cc_reply_limit) g.(cc_max_requests_per_s) g.(cc_health_window_blocks))
    (set_gauges c.(cs_stats) 0 0) [] [].

(** The unified symbol index of a heard frame: [k] and the index, or [None]
    when its subheader is refused. *)
Definition symbol_of (v : DataView) : option (option (Z * Z)) :=
  if negb (Z.land v.(dv_hdr).(dh_data_flags) data_flags_kFecRepair =? 0) then
    if v.(dv_payload_len) <=? kFecRepairSubheaderSize then Some None else
    p ← v.(dv_payload);
    k ← be16_read p kFecOffWindowLen;
    ridx ← rd8 p kFecOffRepairIdx;
    Some (if (k =? 0) || (k >? kFecMaxSymbols) || (k + ridx >=? kFecMaxSymbols) then None
          else Some (k, to_u16 (k + ridx)))
  else
    if v.(dv_payload_len) <? kFecSourceSubheaderSize then Some None else
    p ← v.(dv_payload);
    k ← be16_read p kFecSrcOffWindowLen;
    idx ← be16_read p kFecSrcOffSymIndex;
    Some (if (k =? 0) || (k >? kFecMaxSymbols) || (idx >=? k) then None else Some (k, idx)).

(** [health_permille]: newest blocks first. *)
Fixpoint health_loop (blocks : smap BlockEntry) (order : list Z) (window sum n : Z) : Z * Z :=
  match order with
  | [] => (sum, n)
  | b :: order =>
    if n <? window then
      match sm_find b blocks with
      | Some e =>
        if e.(be_k) =? 0 then health_loop blocks order window sum n
        else
          let uniq := Z.min (len e.(be_symbols)) e.(be_k) in
          health_loop blocks order window (to_u32 (sum + uniq * 1000 / e.(be_k))) (n + 1)
      | None => health_loop blocks order window sum n
      end
    else (sum, n)
  end.

Definition health_permille (c : CacheStore) (st : StreamState) : Z :=
  let '(sum, n) := health_loop st.(ss_blocks) (rev st.(ss_order)) c.(cs_cfg).(cc_health_window_blocks) 0 0 in
  if n =? 0 then 0 else to_u16 (Z.min 1000 (sum / n)).

(** Retention: the oldest blocks leave until the window fits. *)
Fixpoint evict_blocks (fuel : nat) (cap : Z) (blocks : smap BlockEntry) (order : list Z)
  : smap BlockEntry * list Z :=
  match fuel, order with
  | S fuel, b :: rest =>
    if len order >? cap then evict_blocks fuel cap (sm_erase b blocks) rest else (blocks, order)
  | _, _ => (blocks, order)
  end.

(** A block is opened, evicting the oldest. *)
Definition open_block (cap b : Z) (st : StreamState) : StreamState :=
  match sm_find b st.(ss_blocks) with
  | Some _ => st
  | None =>
    let order := st.(ss_order) ++ [b] in
    let '(blocks, order) := evict_blocks (length order) cap (sm_emplace b BlockEntry_init st.(ss_blocks)).1 order in
    MkStreamState st.(ss_key) blocks order
  end.

(** The symbol stored, unless the block disagrees on [k] or has it. *)
Definition store_symbol (e : BlockEntry) (k idx : Z) (frame : list Z) : option BlockEntry :=
  if negb (e.(be_k) =? 0) && negb (e.(be_k) =? k) then None else
  let '(symbols, inserted) := sm_emplace idx frame e.(be_symbols) in
  Some (MkBlockEntry k symbols
          (if inserted && (idx <? k) then to_u16 (e.(be_sources_held) + 1) else e.(be_sources_held))).

Definition set_streams (c : CacheStore) (ss : smap StreamState) : CacheStore :=
  MkCacheStore c.(cs_cfg) c.(cs_stats) ss c.(cs_requesters).

(** The gauges after a stored symbol. *)
Definition refresh_gauges (c : CacheStore) : CacheStore :=
  let held := fold_left (fun n kv => n + len kv.2.(ss_blocks)) c.(cs_streams) 0 in
  let health := match c.(cs_streams) with
    | (_, st) :: _ => health_permille c st
    | [] => c.(cs_stats).(cs_health_permille)
    end in
  MkCacheStore c.(cs_cfg) (set_gauges c.(cs_stats) (to_u32 held) health) c.(cs_streams) c.(cs_requesters).

Definition note_data (c : CacheStore) (v : DataView) (frame : ptr) (frame_len : Z) : option CacheStore :=
  match frame with
  | None => Some c
  | Some f =>
    if (frame_len =? 0) || negb (tracked c v.(dv_hdr).(dh_stream_id)) then Some c else
    sym ← symbol_of v;
    match sym with
    | None => Some c
    | Some (k, idx) =>
      bytes ← slice f 0 (Z.to_nat frame_len);
      let sid := v.(dv_hdr).(dh_stream_id) in
      let key := MkStreamKey v.(dv_hdr).(dh_prefix).(originator) v.(dv_hdr).(dh_prefix).(session_id) sid in
      let st := default StreamState_init (sm_find sid c.(cs_streams)) in
      let target := c.(cs_cfg).(cc_target_originator) in
      let put st := set_streams c (sm_assign sid st c.(cs_streams)) in
      if negb (target =? 0) && negb (key.(sk_originator) =? target) then Some (put st) else
      if negb (st.(ss_key).(sk_originator) =? 0) && negb (st.(ss_key).(sk_originator) =? key.(sk_originator))
      then Some (put st) else
      let st := if bool_decide (st.(ss_key) = key) then st else MkStreamState key [] [] in
      let b := v.(dv_hdr).(dh_block_id) in
      let st := open_block c.(cs_cfg).(cc_blocks) b st in
      match sm_find b st.(ss_blocks) with
      | None => Some (put st)
      | Some e =>
        match store_symbol e k idx bytes with
        | None => Some (put st)
        | Some e => Some (refresh_gauges (put (MkStreamState st.(ss_key) (sm_assign b e st.(ss_blocks)) st.(ss_order))))
        end
      end
    end
  end.

(** ** Answering *)
Inductive Verdict : Type :=
| kAnswered | kNotOurs | kUnknownStream | kNoWindow | kRateLimited | kDuplicate.

(** The requester's dedup and rate window: [inl] refuses. *)
Definition admit_request (limit request_id now_ms session : Z) (rq : RequesterState) : RequesterState * option Verdict :=
  let rq := if rq.(rq_session_id) =? session then rq else MkRequesterState session 0 0 [] in
  if existsb (fun x => x =? request_id) rq.(rq_recent_ids) then (rq, Some kDuplicate) else
  let rq := if to_u64 (now_ms - rq.(rq_window_start_ms)) >=? 1000
            then MkRequesterState rq.(rq_session_id) now_ms 0 rq.(rq_recent_ids) else rq in
  if negb (limit =? 0) && (rq.(rq_window_count) >=? limit) then (rq, Some kRateLimited) else
  let ids := rq.(rq_recent_ids) ++ [request_id] in
  (MkRequesterState rq.(rq_session_id) rq.(rq_window_start_ms) (to_u16 (rq.(rq_window_count) + 1))
     (drop (length ids - 32) ids), None).

(** The symbols a request asks for, in index order, up to the allowance. *)
Fixpoint select_symbols (k : Z) (missing : ptr) (missing_len : Z) (have : ptr) (have_len : Z) (allowance : Z)
    (symbols : smap (list Z)) (out : list (list Z)) : option (list (list Z)) :=
  match symbols with
  | [] => Some out
  | (idx, frame) :: symbols =>
    if len out >=? allowance then Some out else
    want ← (if idx <? k then bit_set missing missing_len idx
            else h ← bit_set have have_len (to_u16 (idx - k)); Some (negb h));
    select_symbols k missing missing_len have have_len allowance symbols
      (if (want : bool) then out ++ [frame] else out)
  end.

Definition answer (c : CacheStore) (req : CacheRequestView) (now_ms : Z)
  : option (Verdict * list (list Z) * CacheStore) :=
  let h := req.(crv_hdr) in
  let count a r s := count_requests c.(cs_stats) 1 a r s in
  if negb (h.(cr_target_cache) =? c.(cs_cfg).(cc_self_originator))
  then Some (kNotOurs, [], MkCacheStore c.(cs_cfg) (count 0 1 0) c.(cs_streams) c.(cs_requesters)) else
  let who := h.(cr_prefix).(originator) in
  let rq := default RequesterState_init (sm_find who c.(cs_requesters)) in
  let '(rq, refused) := admit_request c.(cs_cfg).(cc_max_requests_per_s) h.(cr_request_id) now_ms
                          h.(cr_prefix).(session_id) rq in
  let done verdict out a r s :=
    Some (verdict, out, MkCacheStore c.(cs_cfg) (count a r s) c.(cs_streams) (sm_assign who rq c.(cs_requesters))) in
  match refused with
  | Some kDuplicate => done kDuplicate [] 0 0 0
  | Some v => done v [] 0 1 0
  | None =>
    let want := MkStreamKey h.(cr_target_originator) h.(cr_target_session) h.(cr_target_stream_id) in
    match sm_find h.(cr_target_stream_id) c.(cs_streams) with
    | None => done kUnknownStream [] 0 1 0
    | Some st =>
      if negb (bool_decide (st.(ss_key) = want)) then done kUnknownStream [] 0 1 0 else
      match sm_find h.(cr_block_id) st.(ss_blocks) with
      | None => done kNoWindow [] 0 1 0
      | Some e =>
        if (e.(be_k) =? 0) || negb (e.(be_k) =? h.(cr_window_len)) then done kNoWindow [] 0 1 0 else
        out ← select_symbols e.(be_k) req.(crv_missing_sources) ((h.(cr_window_len) + 7) / 8)
                req.(crv_repair_have) req.(crv_repair_have_len)
                (Z.min h.(cr_max_symbols) c.(cs_cfg).(cc_reply_limit)) e.(be_symbols) [];
        done kAnswered out 1 0 (len out)
      end
    end
  end.

Record StatusEntry : Type := MkStatusEntry {
  se_key : StreamKey;
  se_stream_id : Z;
  se_oldest_block : Z;
  se_newest_block : Z;
  se_rx_health_permille : Z
}.
Definition status (c : CacheStore) : list StatusEntry :=
  omap (fun kv => match head kv.2.(ss_order), last kv.2.(ss_order) with
    | Some o, Some n => Some (MkStatusEntry kv.2.(ss_key) kv.1 o n (health_permille c kv.2))
    | _, _ => None
    end) c.(cs_streams).

Definition reset_stats (c : CacheStore) : CacheStore :=
  MkCacheStore c.(cs_cfg)
    (set_gauges CacheStoreStats_init c.(cs_stats).(cs_blocks_held) c.(cs_stats).(cs_health_permille))
    c.(cs_streams) c.(cs_requesters).

(** ** The assignment gate *)
Inductive AssignVerdict : Type :=
| aApply | aDuplicate | aWrongController | aWrongCache | aStale | aEpochConflict.

Record CacheAssignmentGate : Type := MkGate {
  ga_self : Z;
  ga_controller : Z;
  ga_current : option CacheAssign;
  retired_sessions_ : list Z
}.
Definition CacheAssignmentGate_init (self controller : Z) : CacheAssignmentGate := MkGate self controller None [].

Definition retired (g : CacheAssignmentGate) (session : Z) : bool :=
  existsb (fun s => s =? session) g.(retired_sessions_).

Definition evaluate (g : CacheAssignmentGate) (a : CacheAssign) : AssignVerdict :=
  if negb (a.(ca_prefix).(originator) =? g.(ga_controller)) then aWrongController else
  if negb (a.(ca_prefix).(destination) =? g.(ga_self)) || negb (a.(ca_target_cache) =? g.(ga_self))
  then aWrongCache else
  match g.(ga_current) with
  | None => aApply
  | Some cur =>
    if negb (a.(ca_prefix).(session_id) =? cur.(ca_prefix).(session_id)) then
      if retired g a.(ca_prefix).(session_id) then aStale else aApply
    else if a.(ca_assignment_epoch) <? cur.(ca_assignment_epoch) then aStale
    else if a.(ca_assignment_epoch) >? cur.(ca_assignment_epoch) then aApply
    else if bool_decide (a = cur) then aDuplicate else aEpochConflict
  end.

Definition commit (g : CacheAssignmentGate) (a : CacheAssign) : CacheAssignmentGate :=
  let retired_sessions :=
    match g.(ga_current) with
    | Some cur =>
      if negb (cur.(ca_prefix).(session_id) =? a.(ca_prefix).(session_id)) then
        let l := g.(retired_sessions_) ++ [cur.(ca_prefix).(session_id)] in drop (length l - 8) l
      else g.(retired_sessions_)
    | None => g.(retired_sessions_)
    end in
  MkGate g.(ga_self) g.(ga_controller) (Some a) retired_sessions.

(** ** The node's use of the gate: an assignment is committed only after the
    radio has retuned. [known_peer]: the datagram came from the controller's
    endpoint; [allowed]: the channel is on the allow-list; [retuned]: the radio
    took it. *)
Definition on_cache_assign (known_peer allowed retuned : bool) (s : CacheAssignmentGate * CacheStore) (a : CacheAssign)
  : CacheAssignmentGate * CacheStore * bool :=
  let '(gate, store) := s in
  if negb known_peer then (gate, store, false) else
  match evaluate gate a with
  | aDuplicate => (gate, store, false)
  | aApply =>
    if negb allowed then (gate, store, false) else
    if negb retuned then (gate, store, false) else
    (commit gate a, assign_target store a.(ca_target_originator), true)
  | _ => (gate, store, false)
  end.
