(* ===== verification/CacheStoreProps.v ===== *)
(** * Cache store: what the cache answers, and whom it serves

    Every reachable store is well formed; over any run of it, every reply is
    made of frames heard verbatim for exactly the block asked, in index order,
    within the allowance; and a replayed assignment never applies. *)
From stdpp Require Import sorting.
From S2P Require Import Prelude Endian Types Wire SMap CacheStore.
(** ** What was heard *)

(** A DATA frame as the store files it. *)
Record Heard : Type := MkHeard {
  he_key : StreamKey;
  he_block : Z;
  he_k : Z;
  he_idx : Z;
  he_frame : list Z
}.

(** What a frame says of itself: its stream, block and unified symbol index. *)
Definition heard_of (v : DataView) (frame : list Z) : list Heard :=
  match symbol_of v with
  | Some (Some (k, idx)) =>
    [MkHeard (MkStreamKey v.(dv_hdr).(dh_prefix).(originator) v.(dv_hdr).(dh_prefix).(session_id)
                v.(dv_hdr).(dh_stream_id)) v.(dv_hdr).(dh_block_id) k idx frame]
  | _ => []
  end.

(** A decoded view: the payload pointer covers its length. *)
Definition view_ok (v : DataView) : Prop :=
  match v.(dv_payload) with
  | Some p => len p = v.(dv_payload_len) /\ bytes p
  | None => v.(dv_payload_len) = 0
  end.
Definition request_ok (r : CacheRequestView) : Prop :=
  0 <= r.(crv_hdr).(cr_window_len) /\ 0 <= r.(crv_hdr).(cr_max_symbols) /\
  from_option (fun m => len m = bitmap_len r.(crv_hdr).(cr_window_len)) False r.(crv_missing_sources) /\
  match r.(crv_repair_have) with
  | Some h => len h = r.(crv_repair_have_len)
  | None => r.(crv_repair_have_len) = 0
  end.
#[export] Instance view_ok_dec v : Decision (view_ok v).
Proof. unfold view_ok. destruct (dv_payload v); apply _. Defined.
#[export] Instance request_ok_dec r : Decision (request_ok r).
Proof. unfold request_ok. destruct (crv_missing_sources r), (crv_repair_have r); cbn; apply _. Defined.

Lemma symbol_of_ok v :
  view_ok v -> exists s, symbol_of v = Some s /\
  from_option (fun ki => 0 < ki.1 <= kFecMaxSymbols /\ 0 <= ki.2 < kFecMaxSymbols) True s.
Proof.
  unfold view_ok, symbol_of, be16_read, rd8, kFecRepairSubheaderSize, kFecSourceSubheaderSize, kFecMaxSymbols,
    kFecOffWindowLen, kFecOffRepairIdx, kFecSrcOffWindowLen, kFecSrcOffSymIndex.
  intros Hv. destruct (dv_payload v) as [p|]; case_match eqn:Er; [case_test|case_test|case_test|case_test];
    try (by eexists); try lia; destruct Hv as [Hl Hb]; cbn [mbind option_bind];
    do 4 (destruct p as [|? p]; [cbn in Hl; lia|]); cbn -[to_u16 Z.lor Z.shiftl];
    (eexists; split; [reflexivity|]); repeat case_match; cbn; try done; bool_hyps.
  - pose proof (to_u16_u16 (Z.lor (Z.shiftl z0 8) z1)) as Hk.
    assert (Hz : u8 z) by (unfold bytes in Hb; by inversion Hb).
    revert Hk Hz. generalize dependent (to_u16 (Z.lor (Z.shiftl z0 8) z1)). intros k **.
    rewrite to_u16_id; ints.
  - pose proof (to_u16_u16 (Z.lor (Z.shiftl z 8) z0)). pose proof (to_u16_u16 (Z.lor (Z.shiftl z1 8) z2)).
    generalize dependent (to_u16 (Z.lor (Z.shiftl z 8) z0)). generalize dependent (to_u16 (Z.lor (Z.shiftl z1 8) z2)).
    intros. ints.
Qed.

(** ** The invariant *)
Definition sources_of (k : Z) (symbols : smap (list Z)) : Z := len (filter (fun kv => kv.1 < k) symbols).

(** A retained block: what it holds was heard for it, each index once. *)
Record entry_wf (heard : list Heard) (key : StreamKey) (b : Z) (e : BlockEntry) : Prop := {
  ew_k : 0 < e.(be_k) <= kFecMaxSymbols;
  ew_sorted : sm_sorted e.(be_symbols);
  ew_heard : forall i f, (i, f) ∈ e.(be_symbols) ->
    0 <= i < kFecMaxSymbols /\ MkHeard key b e.(be_k) i f ∈ heard;
  ew_sources : e.(be_sources_held) = sources_of e.(be_k) e.(be_symbols)
}.

(** A stream: [order] lists its blocks, at most the window of them. *)
Record stream_wf (cap : Z) (heard : list Heard) (st : StreamState) : Prop := {
  sw_sorted : sm_sorted st.(ss_blocks);
  sw_order : st.(ss_blocks).*1 ≡ₚ st.(ss_order);
  sw_window : len st.(ss_order) <= cap;
  sw_entries : forall b e, (b, e) ∈ st.(ss_blocks) -> entry_wf heard st.(ss_key) b e
}.

Definition total_blocks (ss : smap StreamState) : Z := fold_left (fun n kv => n + len kv.2.(ss_blocks)) ss 0.

Record store_wf (heard : list Heard) (c : CacheStore) : Prop := {
  cw_sorted : sm_sorted c.(cs_streams);
  cw_streams : forall sid st, (sid, st) ∈ c.(cs_streams) -> stream_wf c.(cs_cfg).(cc_blocks) heard st;
  cw_gauge : c.(cs_stats).(cs_blocks_held) = to_u32 (total_blocks c.(cs_streams));
  cw_health : 0 <= c.(cs_stats).(cs_health_permille) <= 1000;
  cw_requesters : sm_sorted c.(cs_requesters);
  cw_recent : forall who rq, (who, rq) ∈ c.(cs_requesters) -> len rq.(rq_recent_ids) <= 32
}.

Lemma total_blocks_from ss n :
  fold_left (fun n kv => n + len kv.2.(ss_blocks)) ss n = n + total_blocks ss.
Proof.
  unfold total_blocks. revert n. induction ss as [|[k st] ss IH]; intros n; cbn [fold_left snd]; [lia|].
  rewrite (IH (n + _)), (IH (0 + _)). lia.
Qed.
Lemma total_blocks_cons kv ss : total_blocks (kv :: ss) = len kv.2.(ss_blocks) + total_blocks ss.
Proof. unfold total_blocks at 1. cbn [fold_left]. by rewrite total_blocks_from. Qed.

Arguments total_blocks : simpl never.

(** Replacing a stream by one with as many blocks keeps the total. *)
Lemma total_blocks_same sid st ss :
  sm_sorted ss ->
  len st.(ss_blocks) = len (default StreamState_init (sm_find sid ss)).(ss_blocks) ->
  total_blocks (sm_assign sid st ss) = total_blocks ss.
Proof.
  induction ss as [|[k st'] ss IH]; cbn [sm_assign sm_find].
  { intros _ Hl. cbn in Hl |- *. unfold total_blocks. cbn. lia. }
  intros Hs Hl. pose proof Hs as [Hm Hf]%sm_sorted_cons.
  destruct (Z.ltb_spec sid k).
  - rewrite (total_blocks_cons (sid, st)). destruct (Z.eqb_spec sid k); [lia|].
    rewrite (sm_find_below sid ss Hm) in Hl; [cbn in Hl |- *; lia|].
    intros e He. specialize (Hf e He). lia.
  - destruct (Z.eqb_spec sid k); rewrite !total_blocks_cons; cbn [snd] in *; [cbn in Hl; lia|].
    by rewrite IH.
Qed.

Lemma entry_wf_mono heard heard' key b e :
  heard ⊆ heard' -> entry_wf heard key b e -> entry_wf heard' key b e.
Proof. intros Hh [? ? He ?]. split; try done. intros i f [? ?]%He. split; [done|set_solver]. Qed.

Lemma stream_wf_mono cap heard heard' st :
  heard ⊆ heard' -> stream_wf cap heard st -> stream_wf cap heard' st.
Proof. intros Hh [? ? ? He]. split; try done. intros b e Hb. by apply (entry_wf_mono heard), He. Qed.

Lemma stream_init_wf cap heard key : 0 <= cap -> stream_wf cap heard (MkStreamState key [] []).
Proof. intros. split; cbn; [constructor|done|lia|]. intros b e Hb. by apply not_elem_of_nil in Hb. Qed.

Lemma stream_lookup_wf cap heard ss sid :
  0 <= cap -> (forall s st, (s, st) ∈ ss -> stream_wf cap heard st) ->
  stream_wf cap heard (default StreamState_init (sm_find sid ss)).
Proof.
  intros Hc Hs. destruct (sm_find sid ss) as [st|] eqn:E; cbn; [|by apply stream_init_wf].
  by eapply Hs, sm_find_elem.
Qed.

(** ** Opening a block *)
Lemma evict_blocks_spec cap : 0 <= cap -> forall order fuel blocks,
  (length order <= fuel)%nat -> sm_sorted blocks -> blocks.*1 ≡ₚ order ->
  let '(blocks', order') := evict_blocks fuel cap blocks order in
  sm_sorted blocks' /\ blocks'.*1 ≡ₚ order' /\ len order' <= cap /\ blocks' ⊆ blocks /\
  order' = drop (length order - Z.to_nat cap) order.
Proof.
  intros Hc. induction order as [|b order IH]; intros fuel blocks Hf Hs Hp.
  { replace (evict_blocks fuel cap blocks []) with (blocks, @nil Z) by by destruct fuel.
    split_and!; try done. }
  destruct fuel as [|fuel]; [cbn in Hf; lia|]. cbn [evict_blocks].
  rewrite Z.gtb_ltb. destruct (Z.ltb_spec cap (len (b :: order))) as [Hlt|Hle].
  - assert (Hb : (sm_erase b blocks).*1 ≡ₚ order).
    { apply (Permutation_cons_inv (a := b)). rewrite <- Hp. symmetry. apply sm_erase_keys.
      rewrite Hp. set_solver. }
    specialize (IH fuel (sm_erase b blocks) ltac:(cbn in Hf; lia) (sm_erase_sorted _ _ Hs) Hb).
    destruct (evict_blocks fuel cap (sm_erase b blocks) order) as [bl' or'].
    destruct IH as (? & ? & ? & Hsub & ->). split_and!; try done.
    + intros e He. eapply sm_erase_elem, Hsub, He.
    + cbn [length] in *. by replace (S (length order) - Z.to_nat cap)%nat
        with (S (length order - Z.to_nat cap)) by lia.
  - split_and!; try done. replace (_ - _)%nat with 0%nat by lia. done.
Qed.

(** The block is there afterwards (unless nothing is retained at all), empty
    if it is new; every other block is as before. *)
Record opened (cap : Z) (heard : list Heard) (b : Z) (st st' : StreamState) : Prop := {
  op_key : st'.(ss_key) = st.(ss_key);
  op_sorted : sm_sorted st'.(ss_blocks);
  op_order : st'.(ss_blocks).*1 ≡ₚ st'.(ss_order);
  op_window : len st'.(ss_order) <= cap;
  op_entries : forall b' e, (b', e) ∈ st'.(ss_blocks) -> entry_wf heard st.(ss_key) b' e \/ b' = b /\ e = BlockEntry_init;
  op_fresh : sm_find b st'.(ss_blocks) = None -> cap = 0;
  op_old : forall e, sm_find b st'.(ss_blocks) = Some e -> e.(be_k) <> 0 -> st' = st
}.

Lemma open_block_spec cap heard b st :
  0 <= cap -> stream_wf cap heard st -> opened cap heard b st (open_block cap b st).
Proof.
  intros Hc [Hs Ho Hw He]. unfold open_block.
  destruct (sm_find b (ss_blocks st)) as [e0|] eqn:Eb.
  { split; try done; [intros; left; by apply He|congruence]. }
  pose proof (evict_blocks_spec cap Hc (ss_order st ++ [b]) (length (ss_order st ++ [b]))
    (sm_emplace b BlockEntry_init (ss_blocks st)).1) as Hv.
  destruct (evict_blocks _ _ _ _) as [bl or].
  destruct Hv as (Hs' & Hp & Hl & Hsub & Hor); [done|by apply sm_emplace_sorted|..].
  { rewrite sm_emplace_keys by done. rewrite Ho. apply Permutation_cons_append. }
  assert (Hel : forall b' e, (b', e) ∈ bl -> (b', e) = (b, BlockEntry_init) \/ (b', e) ∈ ss_blocks st).
  { intros b' e Hbe. by apply sm_emplace_elem, Hsub. }
  split; try done; cbn [ss_key ss_blocks ss_order].
  - intros b' e [[= -> ->]|Hin]%Hel; [by right|left; by apply He].
  - intros Hn%sm_find_keys. rewrite Hp in Hn. rewrite Hor in Hn. rewrite length_app in Hn.
    destruct (decide (cap = 0)); [done|]. exfalso. apply Hn.
    rewrite drop_app_le by (cbn; lia). set_solver.
  - intros e Hf%sm_find_elem Hk. apply Hel in Hf as [[= ->]|Hin]; [done|].
    apply sm_elem_find in Hin; congruence.
Qed.

(** ** Storing a symbol *)
Lemma sources_emplace k idx f m :
  sm_sorted m ->
  sources_of k (sm_emplace idx f m).1 =
  sources_of k m + (if (sm_emplace idx f m).2 && (idx <? k) then 1 else 0).
Proof.
  unfold sources_of. induction m as [|[i g] m IH]; cbn [sm_emplace].
  { intros _. cbn. repeat case_decide; case_test; cbn in *; lia. }
  intros [Hs Hf]%sm_sorted_cons. destruct (Z.ltb_spec idx i).
  { cbn [fst snd andb]. rewrite !(filter_cons _ (idx, f)). cbn [fst].
    case_decide; case_test; cbn; lia. }
  destruct (Z.eqb_spec idx i); [cbn; lia|]. specialize (IH Hs).
  destruct (sm_emplace idx f m) as [m' ins]. cbn [fst snd] in *.
  rewrite !filter_cons. cbn [fst]. case_decide; cbn [length]; lia.
Qed.

Lemma sources_le k m : sm_sorted m -> (forall e, e ∈ m -> 0 <= e.1) -> 0 <= k -> 0 <= sources_of k m <= k.
Proof.
  intros Hs Hp Hk. split; [unfold sources_of; lia|]. unfold sources_of.
  enough (len (filter (fun kv : Z * list Z => kv.1 < k) m).*1 <= Z.max 0 (k - 1 - 0 + 1)) as H0.
  { rewrite length_fmap in H0. lia. }
  apply sorted_range_length.
  - eapply sorted_sublist, Hs. apply (fmap_sublist fst), filter_sublist.
  - intros x (e & -> & [Hx He]%list_elem_of_filter)%list_elem_of_fmap. specialize (Hp e He). cbn in Hx. lia.
Qed.

Lemma store_symbol_wf heard key b e e' k idx f :
  0 < k <= kFecMaxSymbols -> 0 <= idx < kFecMaxSymbols -> MkHeard key b k idx f ∈ heard ->
  entry_wf heard key b e \/ e = BlockEntry_init ->
  store_symbol e k idx f = Some e' -> entry_wf heard key b e'.
Proof.
  intros Hk Hi Hh He. unfold store_symbol.
  destruct (negb _ && negb _) eqn:E; [done|]. rewrite andb_false_iff, !negb_false_iff, !Z.eqb_eq in E.
  assert (Hsrt : sm_sorted (be_symbols e)) by (destruct He as [[]| ->]; [done|constructor]).
  assert (Hs : be_sources_held e = sources_of k (be_symbols e)).
  { destruct He as [[]| ->]; [|done]. destruct E as [E|E]; [lia|congruence]. }
  assert (Hin : forall i g, (i, g) ∈ be_symbols e -> 0 <= i < kFecMaxSymbols /\ MkHeard key b k i g ∈ heard).
  { destruct He as [[He _ Hx _]| ->]; [|intros i g Hg; by apply not_elem_of_nil in Hg].
    destruct E as [E|E]; [lia|]. by rewrite E in Hx. }
  pose proof (sm_emplace_sorted idx f _ Hsrt) as Hsrt'.
  pose proof (sources_emplace k idx f _ Hsrt) as Hsrc.
  pose proof (sm_emplace_elem idx f (be_symbols e)) as Hel.
  destruct (sm_emplace idx f (be_symbols e)) as [m ins]. cbn [fst snd] in *.
  intros [= <-]. split; cbn [be_k be_symbols be_sources_held]; [done..| |].
  - intros i g [[= -> ->]|Hg]%Hel; [done|by apply Hin].
  - pose proof (sources_le k m Hsrt') as Hle. destruct (ins && (idx <? k)); [|lia].
    rewrite to_u16_id; [lia|]. unfold u16, kFecMaxSymbols in *.
    enough (0 <= sources_of k m <= k) by lia. apply Hle; [|lia].
    intros [i g] [[= -> ->]|Hg]%Hel; cbn; [lia|]. by apply Hin in Hg as [? _]; lia.
Qed.

(** ** Hearing a frame *)
Lemma slice_whole (f : list Z) : slice f 0 (Z.to_nat (len f)) = Some f.
Proof.
  unfold slice. rewrite Nat2Z.id, drop_0, firstn_all. by destruct (Nat.leb_spec (0 + length f) (length f)); [|lia].
Qed.

Lemma health_loop_bound blocks order : forall w s n, 0 <= s -> 0 <= n ->
  0 <= (health_loop blocks order w s n).1 /\ 0 <= (health_loop blocks order w s n).2.
Proof.
  induction order as [|b order IH]; intros w s n Hs Hn; [done|]. cbn [health_loop].
  repeat case_match; try done; apply IH; try lia.
  apply to_u32_u32.
Qed.

Lemma health_bound c st : 0 <= health_permille c st <= 1000.
Proof.
  unfold health_permille.
  pose proof (health_loop_bound (ss_blocks st) (rev (ss_order st)) (cc_health_window_blocks (cs_cfg c)) 0 0) as H.
  destruct (health_loop _ _ _ _ _) as [s n]. destruct H as [? ?]; [lia..|]. cbn in *.
  case_test; [lia|]. assert (0 <= s / n) by (apply Z.div_pos; lia). rewrite to_u16_id; ints.
Qed.

(** A stream replaced: the store is well-formed if its blocks are as many, or
    once the gauges are taken again. *)
Lemma put_same_wf heard c sid st :
  0 <= c.(cs_cfg).(cc_blocks) ->
  store_wf heard c -> stream_wf c.(cs_cfg).(cc_blocks) heard st ->
  len st.(ss_blocks) = len (default StreamState_init (sm_find sid c.(cs_streams))).(ss_blocks) ->
  store_wf heard (set_streams c (sm_assign sid st c.(cs_streams))).
Proof.
  intros Hc [Hs Hst Hg Hh Hr Hq] Hw Hl. split; cbn; try done.
  - auto with smap.
  - intros s st' [[= -> ->]|Hin]%sm_assign_elem; [done|by eapply Hst].
  - by rewrite total_blocks_same.
Qed.

Lemma put_refresh_wf heard c sid st :
  store_wf heard c -> stream_wf c.(cs_cfg).(cc_blocks) heard st ->
  store_wf heard (refresh_gauges (set_streams c (sm_assign sid st c.(cs_streams)))).
Proof.
  intros [Hs Hst Hg Hh Hr Hq] Hw. split; cbn; try done.
  - auto with smap.
  - intros s st' [[= -> ->]|Hin]%sm_assign_elem; [done|by eapply Hst].
  - case_match; [done|]. case_match. apply health_bound.
Qed.

Lemma opened_wf cap heard b st st' e e' :
  opened cap heard b st st' -> sm_find b st'.(ss_blocks) = Some e -> entry_wf heard st.(ss_key) b e' ->
  stream_wf cap heard (MkStreamState st'.(ss_key) (sm_assign b e' st'.(ss_blocks)) st'.(ss_order)).
Proof.
  intros [Hk Hs Ho Hw He Hf Hold] Hfind Hb. pose proof (sm_find_elem _ _ _ Hfind) as Hin.
  split; cbn; try done.
  - auto with smap.
  - rewrite smap_assign_keys; [done| |done]. by apply (list_elem_of_fmap_2 fst _ _ Hin).
  - rewrite Hk. intros b0 e0 Hin0. pose proof (sm_elem_find b0 e0 _ (sm_assign_sorted b e' _ Hs) Hin0) as Hf0.
    rewrite sm_find_assign in Hf0 by done. destruct (Z.eqb_spec b0 b) as [->|Hne].
    + by injection Hf0 as <-.
    + apply sm_find_elem in Hf0. apply He in Hf0 as [Hf0|[? ?]]; [done|lia].
Qed.

Lemma store_wf_mono heard heard' c : heard ⊆ heard' -> store_wf heard c -> store_wf heard' c.
Proof. intros Hh [? Hs ? ? ? ?]. split; try done. intros sid st Hin. by apply (stream_wf_mono _ heard), (Hs sid). Qed.

(** The symbol filed under its block, in a stream [st] of the store or one just
    cleared. *)
Lemma file_symbol_wf heard c sid b k idx f st1 :
  let cap := c.(cs_cfg).(cc_blocks) in
  let st := default StreamState_init (sm_find sid c.(cs_streams)) in
  let put st := set_streams c (sm_assign sid st c.(cs_streams)) in
  let st2 := open_block cap b st1 in
  0 <= cap -> store_wf heard c -> stream_wf cap heard st1 ->
  len st1.(ss_blocks) = len st.(ss_blocks) \/ st1.(ss_blocks) = [] ->
  0 < k <= kFecMaxSymbols -> 0 <= idx < kFecMaxSymbols -> MkHeard st1.(ss_key) b k idx f ∈ heard ->
  store_wf heard match sm_find b st2.(ss_blocks) with
    | None => put st2
    | Some e => match store_symbol e k idx f with
      | None => put st2
      | Some e => refresh_gauges (put (MkStreamState st2.(ss_key) (sm_assign b e st2.(ss_blocks)) st2.(ss_order)))
      end
    end.
Proof.
  intros cap st put st2 Hc Hwf Hst1 Hlen Hk Hi Hh.
  pose proof (open_block_spec cap heard b st1 Hc Hst1) as Hop. fold st2 in Hop. clearbody st2.
  pose proof (stream_lookup_wf cap heard (cs_streams c) sid Hc (cw_streams _ _ Hwf)) as Hst. fold st in Hst.
  destruct (sm_find b (ss_blocks st2)) as [e|] eqn:Ee; [destruct (store_symbol e k idx f) as [e'|] eqn:Est|].
  - apply put_refresh_wf; [done|]. eapply opened_wf; [done..|].
    eapply (store_symbol_wf _ _ _ e); [done..| |done].
    apply sm_find_elem, (op_entries _ _ _ _ _ Hop) in Ee as [?|[_ ?]]; auto.
  - assert (He : e.(be_k) <> 0).
    { unfold store_symbol in Est. destruct (Z.eqb_spec (be_k e) 0) as [E0|]; [|done].
      cbn in Est. by destruct (sm_emplace _ _ _). }
    pose proof (op_old _ _ _ _ _ Hop e Ee He) as ->.
    apply put_same_wf; [done..|]. destruct Hlen as [Hl|Hn]; [done|]. by rewrite Hn in Ee.
  - pose proof (op_fresh _ _ _ _ _ Hop Ee) as H0. subst cap. destruct Hop as [_ Hs2 Ho2 Hw2 _ _ _].
    assert (Hnil : ss_order st2 = []) by (destruct (ss_order st2); [done|cbn [length] in Hw2; lia]).
    rewrite Hnil in Ho2. apply Permutation_nil_r in Ho2. apply fmap_nil_inv in Ho2.
    apply put_same_wf; [done..| |].
    + split; rewrite ?Ho2, ?Hnil; cbn; [constructor|done|lia|]. intros b0 e0 Hin. by apply not_elem_of_nil in Hin.
    + fold st. destruct Hst as [_ Hord Hwin _]. rewrite Ho2. apply Permutation_length in Hord.
      rewrite length_fmap in Hord. cbn. lia.
Qed.

Lemma note_data_wf heard c v f :
  0 <= c.(cs_cfg).(cc_blocks) -> view_ok v -> store_wf heard c ->
  exists c', note_data c v (Some f) (len f) = Some c' /\ store_wf (heard ++ heard_of v f) c' /\
    c'.(cs_cfg) = c.(cs_cfg) /\ c'.(cs_requesters) = c.(cs_requesters).
Proof.
  intros Hc Hv Hwf0. assert (Hwf : store_wf (heard ++ heard_of v f) c) by (eapply store_wf_mono; [|done]; set_solver).
  clear Hwf0. unfold note_data. destruct (_ || _); [by exists c|].
  destruct (symbol_of_ok v Hv) as (s & Es & Hs). unfold heard_of in *. rewrite Es in *. cbn [mbind option_bind].
  destruct s as [[k idx]|]; [|by exists c]. cbn in Hs. destruct Hs as [Hk Hi].
  rewrite slice_whole. cbn [mbind option_bind].
  set (key := MkStreamKey _ _ _) in *. set (sid := dh_stream_id _). set (b := dh_block_id _) in *.
  set (heard' := heard ++ _) in *.
  pose proof (stream_lookup_wf _ heard' (cs_streams c) sid Hc (cw_streams _ _ Hwf)) as Hst.
  set (st := default StreamState_init _) in *.
  assert (Hput : store_wf heard' (set_streams c (sm_assign sid st (cs_streams c)))) by by apply put_same_wf.
  destruct (_ && _); [by eexists|]. destruct (_ && _); [by eexists|].
  set (st1 := if bool_decide (ss_key st = key) then _ else _).
  assert (Hst1 : stream_wf (cc_blocks (cs_cfg c)) heard' st1 /\ ss_key st1 = key /\
    (len (ss_blocks st1) = len (ss_blocks st) \/ ss_blocks st1 = [])).
  { subst st1. case_bool_decide; [by split_and!; [..|left]|]. split_and!; [by apply stream_init_wf|done|by right]. }
  destruct Hst1 as (Hst1 & Hkey1 & Hlen1). clearbody st1.
  pose proof (file_symbol_wf heard' c sid b k idx f st1 Hc Hwf Hst1 Hlen1 Hk Hi) as Hfile.
  rewrite Hkey1 in Hfile. specialize (Hfile ltac:(subst heard'; set_solver)).
  repeat case_match; eexists; done.
Qed.

(** ** The symbols a request asks for *)
Definition bitmap_bit (m : list Z) (i : Z) : bool := Z.testbit (nth (Z.to_nat (i / 8)) m 0) (i mod 8).

(** A missing source, or a repair the requester does not have. *)
Definition wants (r : CacheRequestView) (i : Z) : bool :=
  if i <? r.(crv_hdr).(cr_window_len) then bitmap_bit (default [] r.(crv_missing_sources)) i
  else negb (bitmap_bit (default [] r.(crv_repair_have)) (i - r.(crv_hdr).(cr_window_len))).

Lemma bit_set_spec p n i :
  0 <= i -> match p with Some m => len m = n | None => n = 0 end ->
  bit_set p n i = Some (bitmap_bit (default [] p) i).
Proof.
  intros Hi Hp. unfold bit_set, bitmap_bit. assert (0 <= i / 8) by (apply Z.div_pos; lia).
  pose proof (Z.mod_pos_bound i 8 ltac:(lia)).
  destruct (Z.ltb_spec (i / 8) n) as [Hlt|Hge].
  - destruct p as [m|]; [|lia]. cbn [default mbind option_bind from_option]. unfold rd8.
    destruct (lookup_lt_is_Some_2 m (Z.to_nat (i / 8)) ltac:(lia)) as [b Hb]. rewrite Hb. cbn.
    rewrite (nth_lookup_Some _ _ _ _ Hb). f_equal.
    rewrite Z.shiftl_1_l. destruct (Z.testbit b (i mod 8)) eqn:E.
    + destruct (Z.eqb_spec (Z.land b (2 ^ (i mod 8))) 0) as [Hz|]; [|done].
      apply (f_equal (fun z => Z.testbit z (i mod 8))) in Hz.
      by rewrite Z.land_spec, E, Z.pow2_bits_true, Z.bits_0 in Hz by lia.
    + enough (Z.land b (2 ^ (i mod 8)) = 0) as -> by done.
      apply Z.bits_inj'. intros j Hj. rewrite Z.land_spec, Z.bits_0, Z.pow2_bits_eqb by lia.
      destruct (Z.eqb_spec (i mod 8) j) as [<-|]; [by rewrite E|apply andb_false_r].
  - f_equal. symmetry. rewrite nth_overflow; [apply Z.bits_0|]. destruct p; cbn; lia.
Qed.

Lemma select_symbols_spec r allowance symbols : forall out,
  request_ok r -> (forall e, e ∈ symbols -> 0 <= e.1 < 65536) ->
  select_symbols r.(crv_hdr).(cr_window_len) r.(crv_missing_sources) (bitmap_len r.(crv_hdr).(cr_window_len))
    r.(crv_repair_have) r.(crv_repair_have_len) allowance symbols out =
  Some (out ++ take (Z.to_nat (allowance - len out)) (filter (fun e => wants r e.1 = true) symbols).*2).
Proof.
  induction symbols as [|[i f] symbols IH]; intros out Hr Hs; cbn [select_symbols].
  { rewrite filter_nil. cbn [fmap list_fmap]. by rewrite take_nil, app_nil_r. }
  rewrite Z.geb_leb. destruct (Z.leb_spec allowance (len out)) as [Hle|Hgt].
  { replace (Z.to_nat (allowance - len out)) with 0%nat by lia. by rewrite take_0, app_nil_r. }
  pose proof Hr as (Hk & _ & Hm & Hh). pose proof (Hs (i, f) ltac:(set_solver)) as Hi. cbn in Hi.
  assert (Hw : (if i <? cr_window_len (crv_hdr r)
    then bit_set (crv_missing_sources r) (bitmap_len (cr_window_len (crv_hdr r))) i
    else h ← bit_set (crv_repair_have r) (crv_repair_have_len r) (to_u16 (i - cr_window_len (crv_hdr r)));
         Some (negb h)) = Some (wants r i)).
  { unfold wants. destruct (Z.ltb_spec i (cr_window_len (crv_hdr r))).
    - apply bit_set_spec; [lia|]. by destruct (crv_missing_sources r).
    - rewrite to_u16_id by (unfold u16; lia). rewrite bit_set_spec; [done|lia|]. exact Hh. }
  rewrite Hw. cbn [mbind option_bind]. rewrite IH by set_solver. rewrite filter_cons. cbn [fst].
  destruct (wants r i); cbn [decide fmap list_fmap].
  - rewrite decide_True by done. cbn [fmap list_fmap snd]. rewrite length_app, <- app_assoc. cbn [length app].
    replace (Z.to_nat (allowance - len out)) with (S (Z.to_nat (allowance - Z.of_nat (length out + 1)))) by lia.
    done.
  - by rewrite decide_False.
Qed.

(** ** One answer *)

(** The symbols held for the block a request names, if the store follows that
    stream and session and agrees on the block's geometry. *)
Definition held_symbols (c : CacheStore) (r : CacheRequestView) : option (smap (list Z)) :=
  let h := r.(crv_hdr) in
  st ← sm_find h.(cr_target_stream_id) c.(cs_streams);
  if bool_decide (st.(ss_key) = MkStreamKey h.(cr_target_originator) h.(cr_target_session) h.(cr_target_stream_id))
  then e ← sm_find h.(cr_block_id) st.(ss_blocks);
       if e.(be_k) =? h.(cr_window_len) then Some e.(be_symbols) else None
  else None.

(** An answered request gets the wanted symbols held, in index order, up to
    its allowance; any other verdict sends nothing. *)
Definition answer_ok (c : CacheStore) (r : CacheRequestView) (verdict : Verdict) (out : list (list Z)) : Prop :=
  match verdict with
  | kAnswered => exists symbols, held_symbols c r = Some symbols /\
      out = take (Z.to_nat (Z.min r.(crv_hdr).(cr_max_symbols) c.(cs_cfg).(cc_reply_limit)))
              (filter (fun e => wants r e.1 = true) symbols).*2
  | _ => out = []
  end.

(** What an answer leaves alone. *)
Definition same_frames (c c' : CacheStore) : Prop :=
  c'.(cs_cfg) = c.(cs_cfg) /\ c'.(cs_streams) = c.(cs_streams) /\
  c'.(cs_stats).(cs_blocks_held) = c.(cs_stats).(cs_blocks_held) /\
  c'.(cs_stats).(cs_health_permille) = c.(cs_stats).(cs_health_permille).

Lemma admit_request_recent limit id now session rq :
  len rq.(rq_recent_ids) <= 32 -> len (admit_request limit id now session rq).1.(rq_recent_ids) <= 32.
Proof.
  intros Hl. unfold admit_request.
  repeat case_match; cbn [fst rq_recent_ids] in *; try rewrite length_drop, length_app; cbn [length]; lia.
Qed.

Lemma held_symbols_wf heard c r symbols :
  store_wf heard c -> held_symbols c r = Some symbols ->
  sm_sorted symbols /\ forall i f, (i, f) ∈ symbols -> 0 <= i < kFecMaxSymbols /\
    MkHeard (MkStreamKey r.(crv_hdr).(cr_target_originator) r.(crv_hdr).(cr_target_session)
               r.(crv_hdr).(cr_target_stream_id)) r.(crv_hdr).(cr_block_id) r.(crv_hdr).(cr_window_len) i f ∈ heard.
Proof.
  intros Hwf. unfold held_symbols.
  destruct (sm_find _ (cs_streams c)) as [st|] eqn:Est; cbn [mbind option_bind]; [|done].
  case_bool_decide as Hkey; [|done].
  destruct (sm_find _ (ss_blocks st)) as [e|] eqn:Ee; cbn [mbind option_bind]; [|done].
  destruct (Z.eqb_spec (be_k e) (cr_window_len (crv_hdr r))) as [Hk|]; [|done]. intros [= <-].
  apply sm_find_elem, (cw_streams _ _ Hwf) in Est. apply sm_find_elem, (sw_entries _ _ _ Est) in Ee as [_ Hs Hh _].
  rewrite <- Hkey, <- Hk. auto.
Qed.

Lemma answer_spec heard c r now :
  store_wf heard c -> request_ok r ->
  exists verdict out c', answer c r now = Some (verdict, out, c') /\ answer_ok c r verdict out /\
    same_frames c c' /\
    exists rq, c'.(cs_requesters) = c.(cs_requesters) \/
      c'.(cs_requesters) = sm_assign r.(crv_hdr).(cr_prefix).(originator) rq c.(cs_requesters) /\
      len rq.(rq_recent_ids) <= 32.
Proof.
  intros Hwf Hr. unfold answer.
  destruct (negb _).
  { eexists _, _, _. split; [done|]. split; [done|]. split; [done|]. exists RequesterState_init. by left. }
  set (who := originator _). set (rq0 := default RequesterState_init _).
  assert (Hq0 : len rq0.(rq_recent_ids) <= 32).
  { subst rq0. destruct (sm_find who (cs_requesters c)) as [q|] eqn:E; cbn; [|lia].
    by eapply (cw_recent _ _ Hwf), sm_find_elem. }
  pose proof (admit_request_recent (cc_max_requests_per_s (cs_cfg c)) (cr_request_id (crv_hdr r)) now
    (session_id (cr_prefix (crv_hdr r))) rq0 Hq0) as Hq.
  destruct (admit_request _ _ _ _ _) as [rq refused] eqn:Ea. cbn [fst] in Hq.
  assert (Hdone : forall verdict out a rj s, answer_ok c r verdict out ->
    exists v o c', Some (verdict, out, MkCacheStore c.(cs_cfg) (count_requests c.(cs_stats) 1 a rj s) c.(cs_streams)
                    (sm_assign who rq c.(cs_requesters))) = Some (v, o, c') /\ answer_ok c r v o /\ same_frames c c' /\
      exists q, c'.(cs_requesters) = c.(cs_requesters) \/
        c'.(cs_requesters) = sm_assign who q c.(cs_requesters) /\ len q.(rq_recent_ids) <= 32).
  { intros verdict out a rj s Ho. eexists _, _, _. split; [done|]. split; [done|]. split; [done|]. exists rq. by right. }
  destruct refused as [v|].
  { assert (Hv : v = kDuplicate \/ v = kRateLimited) by (unfold admit_request in Ea; repeat case_match; naive_solver).
    destruct Hv as [-> | ->]; by apply Hdone. }
  destruct (sm_find _ (cs_streams c)) as [st|] eqn:Est; [|by apply Hdone].
  case_bool_decide as Hkey; cbn [negb]; [|by apply Hdone].
  destruct (sm_find _ (ss_blocks st)) as [e|] eqn:Ee; [|by apply Hdone].
  destruct (_ || _) eqn:Ek; [by apply Hdone|]. apply orb_false_iff in Ek as [Hk0 Hk]. bool_hyps.
  assert (Hheld : held_symbols c r = Some (be_symbols e)).
  { unfold held_symbols. rewrite Est. cbn [mbind option_bind]. rewrite bool_decide_true by done.
    rewrite Ee. cbn [mbind option_bind]. by rewrite Hk, Z.eqb_refl. }
  rewrite Hk. rewrite select_symbols_spec; [|done|].
  - cbn [mbind option_bind app length]. rewrite Z.sub_0_r. apply Hdone. by eexists.
  - intros [i f] Hin. apply (held_symbols_wf _ _ _ _ Hwf Hheld) in Hin as [Hi _]. unfold kFecMaxSymbols in Hi. cbn. lia.
Qed.

(** The frames of an answer, each with the index it was heard for. *)
Lemma answer_frames_ok heard c r verdict out :
  let h := r.(crv_hdr) in
  store_wf heard c -> answer_ok c r verdict out ->
  len out <= Z.max 0 (Z.min h.(cr_max_symbols) c.(cs_cfg).(cc_reply_limit)) /\
  exists idxs, StronglySorted Z.lt idxs /\
    Forall2 (fun i f => wants r i = true /\
      MkHeard (MkStreamKey h.(cr_target_originator) h.(cr_target_session) h.(cr_target_stream_id))
        h.(cr_block_id) h.(cr_window_len) i f ∈ heard) idxs out.
Proof.
  intros h Hwf Ha.
  assert (Hnil : out = [] -> len out <= Z.max 0 (Z.min h.(cr_max_symbols) c.(cs_cfg).(cc_reply_limit)) /\
    exists idxs, StronglySorted Z.lt idxs /\ Forall2 (fun i f => wants r i = true /\
      MkHeard (MkStreamKey h.(cr_target_originator) h.(cr_target_session) h.(cr_target_stream_id))
        h.(cr_block_id) h.(cr_window_len) i f ∈ heard) idxs out).
  { intros ->. split; [cbn; lia|]. exists []. split; constructor. }
  destruct verdict; cbn in Ha; try by apply Hnil.
  destruct Ha as (symbols & Hheld & ->). fold h. clear Hnil.
  destruct (held_symbols_wf _ _ _ _ Hwf Hheld) as [Hs Hh]. fold h in Hh.
  set (n := Z.to_nat _). set (sel := filter _ symbols).
  split; [rewrite length_take; lia|]. exists (take n sel.*1). split.
  - eapply sorted_sublist, Hs. etrans; [apply sublist_take|apply (fmap_sublist fst), filter_sublist].
  - rewrite <- !fmap_take. apply Forall2_fmap, Forall_Forall2_diag, Forall_take, Forall_forall.
    intros [i f] [Hw Hin]%list_elem_of_filter. split; [done|by apply Hh].
Qed.

(** ** Runs *)
Inductive StoreOp : Type :=
| NoteData (v : DataView) (frame : list Z)
| Answer (r : CacheRequestView) (now_ms : Z)
| AssignTarget (originator : Z)
| ResetStats.

(** A reply, the store it was made from and what had been heard by then. *)
Record Reply : Type := MkReply {
  rp_heard : list Heard;
  rp_store : CacheStore;
  rp_request : CacheRequestView;
  rp_verdict : Verdict;
  rp_frames : list (list Z)
}.

Definition op_ok (o : StoreOp) : Prop :=
  match o with NoteData v _ => view_ok v | Answer r _ => request_ok r | _ => True end.
#[export] Instance op_ok_dec o : Decision (op_ok o).
Proof. destruct o; cbn; apply _. Defined.

Definition store_step (c : CacheStore) (heard : list Heard) (o : StoreOp) : option (CacheStore * list Heard * list Reply) :=
  match o with
  | NoteData v f => c' ← note_data c v (Some f) (len f); Some (c', heard ++ heard_of v f, [])
  | Answer r now => '(verdict, out, c') ← answer c r now; Some (c', heard, [MkReply heard c r verdict out])
  | AssignTarget o => Some (assign_target c o, heard, [])
  | ResetStats => Some (reset_stats c, heard, [])
  end.

Fixpoint store_run (c : CacheStore) (heard : list Heard) (ops : list StoreOp) : option (CacheStore * list Heard * list Reply) :=
  match ops with
  | [] => Some (c, heard, [])
  | o :: ops =>
    '(c, heard, replies) ← store_step c heard o;
    '(c, heard, more) ← store_run c heard ops;
    Some (c, heard, replies ++ more)
  end.

Definition reply_ok (p : Reply) : Prop :=
  answer_ok p.(rp_store) p.(rp_request) p.(rp_verdict) p.(rp_frames) /\ store_wf p.(rp_heard) p.(rp_store).

Lemma answer_wf heard c c' who rq :
  store_wf heard c -> same_frames c c' ->
  c'.(cs_requesters) = c.(cs_requesters) \/
    c'.(cs_requesters) = sm_assign who rq c.(cs_requesters) /\ len rq.(rq_recent_ids) <= 32 ->
  store_wf heard c'.
Proof.
  intros [Hs Hst Hg Hh Hrs Hq] (Ec & Es & Eb & Ehl) Hr. split; rewrite ?Ec, ?Es, ?Eb, ?Ehl; try done.
  - destruct Hr as [-> | [-> _]]; auto with smap.
  - intros w q. destruct Hr as [-> | [-> Hl]]; [by apply Hq|].
    intros [[= -> ->]|Hin]%sm_assign_elem; [done|by eapply Hq].
Qed.

Lemma empty_store_wf heard cfg stats :
  stats.(cs_blocks_held) = 0 -> 0 <= stats.(cs_health_permille) <= 1000 ->
  store_wf heard (MkCacheStore cfg stats [] []).
Proof.
  intros Hb Hh. split; cbn; [apply SSorted_nil| |done|done|apply SSorted_nil|];
    intros ?? Hin; by apply not_elem_of_nil in Hin.
Qed.

Lemma store_step_wf c heard o :
  0 <= c.(cs_cfg).(cc_blocks) -> op_ok o -> store_wf heard c ->
  exists c' heard' replies, store_step c heard o = Some (c', heard', replies) /\
    store_wf heard' c' /\ c'.(cs_cfg).(cc_blocks) = c.(cs_cfg).(cc_blocks) /\ Forall reply_ok replies.
Proof.
  intros Hc Ho Hwf. destruct o as [v f|r now|t|]; cbn [store_step op_ok] in *.
  - destruct (note_data_wf heard c v f Hc Ho Hwf) as (c' & -> & Hwf' & Ecfg & _). cbn.
    eexists _, _, _. split; [done|]. rewrite Ecfg. auto.
  - destruct (answer_spec heard c r now Hwf Ho) as (vd & out & c' & -> & Hok & Hsame & rq & Hrq). cbn.
    eexists _, _, _. split; [done|]. split; [by eapply answer_wf|].
    destruct Hsame as [-> _]. split; [done|]. apply Forall_singleton. by split.
  - unfold assign_target. destruct (_ || _); (eexists _, _, _; split; [done|]); [by auto|].
    split; [|by auto]. by apply empty_store_wf.
  - eexists _, _, _. split; [done|]. split; [|by auto]. by destruct Hwf.
Qed.

Lemma store_run_wf ops : forall c heard,
  0 <= c.(cs_cfg).(cc_blocks) -> Forall op_ok ops -> store_wf heard c ->
  exists c' heard' replies, store_run c heard ops = Some (c', heard', replies) /\
    store_wf heard' c' /\ Forall reply_ok replies.
Proof.
  induction ops as [|o ops IH]; intros c heard Hc Ho Hwf; cbn [store_run].
  { eexists _, _, _. by split_and!. }
  apply Forall_cons in Ho as [Ho Hops].
  destruct (store_step_wf c heard o Hc Ho Hwf) as (c1 & h1 & r1 & -> & Hwf1 & Ec & Hr1). cbn [mbind option_bind].
  destruct (IH c1 h1 ltac:(lia) Hops Hwf1) as (c2 & h2 & r2 & -> & Hwf2 & Hr2).
  eexists _, _, _. split; [done|]. split; [done|]. by apply Forall_app.
Qed.

(** ** Properties *)

(** C40. Every reachable cache store is well-formed: per stream at most the
    configured window of blocks, each listed once in eviction order; per block a
    geometry [1..256] and symbol indices below 256, each once, each holding
    verbatim a frame heard for exactly that stream, session, block, geometry and
    index; the source count, the block gauge and the request-id window exact or
    bounded. No operation reads outside its buffers. *)
Theorem cache_store_typed cfg ops :
  0 <= cfg.(cc_blocks) -> Forall op_ok ops ->
  exists c heard replies, store_run (CacheStore_init cfg) [] ops = Some (c, heard, replies) /\ store_wf heard c.
Proof.
  intros Hc Hops.
  destruct (store_run_wf ops (CacheStore_init cfg) [] Hc Hops) as (c & heard & replies & E & Hwf & _);
    [by apply empty_store_wf|]. eauto.
Qed.

(** C28. Every reply the cache makes, over any run: an answered request gets
    exactly the wanted symbols held for its block (missing sources asked for,
    repairs not already had), in index order, cut at its allowance; each is a
    frame heard verbatim before for exactly the stream, session, block, geometry
    and index; and a refused request gets nothing. *)
Theorem cache_answers_verbatim cfg ops :
  0 <= cfg.(cc_blocks) -> Forall op_ok ops ->
  exists c heard replies, store_run (CacheStore_init cfg) [] ops = Some (c, heard, replies) /\
  forall p, p ∈ replies ->
    let h := p.(rp_request).(crv_hdr) in
    answer_ok p.(rp_store) p.(rp_request) p.(rp_verdict) p.(rp_frames) /\
    len p.(rp_frames) <= Z.max 0 (Z.min h.(cr_max_symbols) p.(rp_store).(cs_cfg).(cc_reply_limit)) /\
    exists idxs, StronglySorted Z.lt idxs /\
      Forall2 (fun i f => wants p.(rp_request) i = true /\
        MkHeard (MkStreamKey h.(cr_target_originator) h.(cr_target_session) h.(cr_target_stream_id))
          h.(cr_block_id) h.(cr_window_len) i f ∈ p.(rp_heard)) idxs p.(rp_frames).
Proof.
  intros Hc Hops.
  destruct (store_run_wf ops (CacheStore_init cfg) [] Hc Hops) as (c & heard & replies & E & Hwf & Hr);
    [by apply empty_store_wf|].
  exists c, heard, replies. split; [done|]. intros p Hp. rewrite Forall_forall in Hr.
  apply Hr in Hp as [Ha Hw]. split; [done|]. by apply (answer_frames_ok p.(rp_heard) p.(rp_store) _ p.(rp_verdict)).
Qed.

(** ** Witnesses: a block of three sources, one repair, and four requests *)
Definition demo_view (flags : Z) (payload : list Z) : DataView :=
  MkDataView (MkDataHeader (MkCommonPrefix 7 0 99) 1 1 500 42 flags 0 0) (Some payload) (len payload).
Definition demo_request (id block max : Z) (missing have : list Z) : CacheRequestView :=
  MkCacheRequestView (MkCacheRequestHeader (MkCommonPrefix 3 0 11) 7 99 1 20 id block 3 max)
    (Some missing) (Some have) (len have).
Definition demo_cache_cfg : CacheStoreConfig := MkCacheStoreConfig 20 0 [1] 2 4 400 90.
Definition demo_store_ops : list StoreOp :=
  [ NoteData (demo_view 0 [0; 3; 0; 2; 50]) [1; 2; 3];
    NoteData (demo_view 0 [0; 3; 0; 0; 51]) [4; 5; 6];
    NoteData (demo_view 8 [1; 0; 3; 0; 0; 0; 0; 0; 0; 0; 0; 52]) [7; 8; 9];
    NoteData (demo_view 0 [0; 0; 0; 0; 51]) [0];
    Answer (demo_request 1 42 4 [5] []) 1000;
    Answer (demo_request 1 42 4 [5] []) 1001;
    Answer (demo_request 2 42 1 [4] [2]) 1002;
    Answer (demo_request 3 43 4 [7] [0]) 1003 ].

Example demo_replies :
  (fun r => map (fun p => (p.(rp_verdict), p.(rp_frames))) r.2) <$>
    store_run (CacheStore_init demo_cache_cfg) [] demo_store_ops =
  Some [(kAnswered, [[4; 5; 6]; [1; 2; 3]; [7; 8; 9]]); (kDuplicate, []); (kAnswered, [[1; 2; 3]]); (kNoWindow, [])].
Proof. vm_compute. reflexivity. Qed.

Lemma cache_store_typed_witness :
  exists c heard replies,
    store_run (CacheStore_init demo_cache_cfg) [] demo_store_ops = Some (c, heard, replies) /\ store_wf heard c.
Proof.
  apply cache_store_typed; [cbn; lia|].
  exact (bool_decide_unpack (Forall op_ok demo_store_ops) ltac:(vm_compute; exact I)).
Defined.

Lemma cache_answers_verbatim_witness :
  exists c heard replies, store_run (CacheStore_init demo_cache_cfg) [] demo_store_ops = Some (c, heard, replies) /\
  forall p, p ∈ replies ->
    answer_ok p.(rp_store) p.(rp_request) p.(rp_verdict) p.(rp_frames).
Proof.
  destruct (cache_answers_verbatim demo_cache_cfg demo_store_ops) as (c & heard & replies & E & H).
  - cbn. lia.
  - exact (bool_decide_unpack (Forall op_ok demo_store_ops) ltac:(vm_compute; exact I)).
  - exists c, heard, replies. split; [exact E|]. intros p Hp. apply (H p Hp).
Defined.

(** What a node was offered: the assignment and what its radio made of it. *)
Record Offer : Type := MkOffer {
  of_assign : CacheAssign;
  of_peer : bool;
  of_allowed : bool;
  of_retuned : bool
}.

Definition assign_step (s : CacheAssignmentGate * CacheStore) (log : list CacheAssign) (o : Offer)
  : CacheAssignmentGate * CacheStore * list CacheAssign :=
  let '(gate, store, applied) := on_cache_assign o.(of_peer) o.(of_allowed) o.(of_retuned) s o.(of_assign) in
  (gate, store, if (applied : bool) then log ++ [o.(of_assign)] else log).

Definition assign_run (self controller : Z) (cfg : CacheStoreConfig) (os : list Offer)
  : CacheAssignmentGate * CacheStore * list CacheAssign :=
  fold_left (fun '(g, c, log) o => assign_step (g, c) log o) os
    (CacheAssignmentGate_init self controller, CacheStore_init cfg, []).

Abbreviation session a := (session_id (ca_prefix a)).

(** The sessions left, in order: the session before each change. *)
Fixpoint departures (log : list CacheAssign) : list Z :=
  match log with
  | a :: (b :: _) as log => if session a =? session b then departures log else session a :: departures log
  | _ => []
  end.

Lemma departures_cons a b log :
  departures (a :: b :: log) = (if session a =? session b then [] else [session a]) ++ departures (b :: log).
Proof. cbn [departures]. by case_match. Qed.

Lemma departures_snoc log a b :
  departures ((log ++ [a]) ++ [b]) =
  departures (log ++ [a]) ++ (if session a =? session b then [] else [session a]).
Proof.
  induction log as [|x log IH]; [cbn; by case_match|].
  destruct log as [|y log]; cbn [app] in *; rewrite !departures_cons.
  - cbn. by case_match; case_match.
  - by rewrite IH, app_assoc.
Qed.

Lemma departures_app_r l1 a l2 : exists l, departures (l1 ++ a :: l2) = l ++ departures (a :: l2).
Proof.
  induction l1 as [|x l1 [l IH]]; [by exists []|].
  destruct l1 as [|y l1]; cbn [app] in *; rewrite departures_cons; [by eexists|].
  rewrite IH, app_assoc. by eexists.
Qed.

(** A session that is no longer the current one was left. *)
Lemma departed m : forall a c,
  last (a :: m) = Some c -> session c <> session a -> session a ∈ departures (a :: m).
Proof.
  induction m as [|y m IH]; intros a c Hl Hne; [cbn in Hl; congruence|].
  rewrite last_cons_cons in Hl. cbn [departures]. destruct (Z.eqb_spec (session a) (session y)) as [E|E].
  - rewrite E. apply (IH y c Hl). congruence.
  - set_solver.
Qed.

(** The last eight of a list, as the gate keeps them. *)
Definition last8 (l : list Z) : list Z := drop (length l - 8) l.
Lemma last8_snoc l x : last8 (last8 l ++ [x]) = last8 (l ++ [x]).
Proof.
  unfold last8. rewrite !length_app, length_drop. cbn [length].
  destruct (decide (length l <= 7)%nat) as [Hl|Hl].
  - replace (length l - 8)%nat with 0%nat by lia. rewrite drop_0. f_equal. lia.
  - rewrite !drop_app_le by (rewrite ?length_drop; lia). rewrite drop_drop. f_equal. f_equal. lia.
Qed.
Lemma last8_old l l' x : (length l' <= 8)%nat -> x ∈ l' -> x ∈ last8 (l ++ l').
Proof.
  intros Hl Hx. unfold last8. rewrite length_app.
  rewrite drop_app. apply elem_of_app. right. by replace (_ - _ - _)%nat with 0%nat by lia.
Qed.

(** ** The invariant *)

(** Applied twice in one session: with a newer epoch, or across ten changes of
    session at least. *)
Definition replay_safe (log : list CacheAssign) : Prop :=
  forall l1 a m b l2, log = l1 ++ a :: m ++ b :: l2 -> session a = session b ->
  a.(ca_assignment_epoch) < b.(ca_assignment_epoch) \/ (10 <= length (departures (a :: m ++ [b])))%nat.

Record gate_inv (self controller : Z) (gate : CacheAssignmentGate) (store : CacheStore) (log : list CacheAssign) : Prop := {
  gi_self : gate.(ga_self) = self;
  gi_controller : gate.(ga_controller) = controller;
  gi_current : gate.(ga_current) = last log;
  gi_retired : gate.(retired_sessions_) = last8 (departures log);
  gi_genuine : Forall (fun a => a.(ca_prefix).(originator) = controller /\
                 a.(ca_prefix).(destination) = self /\ a.(ca_target_cache) = self) log;
  gi_target : forall a, last log = Some a -> a.(ca_target_originator) <> 0 ->
    store.(cs_cfg).(cc_target_originator) = a.(ca_target_originator);
  gi_replay : replay_safe log
}.

Lemma retired_spec g s : retired g s = true <-> s ∈ g.(retired_sessions_).
Proof.
  unfold retired. rewrite existsb_exists. split.
  - intros (x & Hx & ->%Z.eqb_eq). by apply list_elem_of_In.
  - intros Hs. exists s. split; [by apply list_elem_of_In|apply Z.eqb_refl].
Qed.

(** What an applied assignment passed. *)
Lemma evaluate_apply g a :
  evaluate g a = aApply ->
  a.(ca_prefix).(originator) = g.(ga_controller) /\ a.(ca_prefix).(destination) = g.(ga_self) /\
  a.(ca_target_cache) = g.(ga_self) /\
  match g.(ga_current) with
  | None => True
  | Some c => session a <> session c /\ (session a ∉ g.(retired_sessions_)) \/
      session a = session c /\ c.(ca_assignment_epoch) < a.(ca_assignment_epoch)
  end.
Proof.
  unfold evaluate. destruct (negb _) eqn:E1; [done|]. destruct (negb _ || negb _) eqn:E2; [done|].
  apply orb_false_iff in E2 as [E2 E3]. bool_hyps. intros H. split_and!; [done..|].
  destruct (ga_current g) as [c|]; [|done]. destruct (negb _) eqn:E4.
  - destruct (retired g _) eqn:Er; [done|]. left. bool_hyps. split; [done|].
    rewrite <- retired_spec. congruence.
  - right. bool_hyps. split; [done|]. destruct (_ <? _); [done|].
    rewrite Z.gtb_ltb in H. destruct (Z.ltb_spec (ca_assignment_epoch c) (ca_assignment_epoch a)); [done|].
    by case_bool_decide.
Qed.

Lemma replay_safe_snoc log b c :
  last log = Some c -> replay_safe log ->
  session b <> session c /\ (session b ∉ last8 (departures log)) \/
    session b = session c /\ c.(ca_assignment_epoch) < b.(ca_assignment_epoch) ->
  replay_safe (log ++ [b]).
Proof.
  intros Hlast Hr Hb l1 a m b' l2 E Hs. destruct l2 as [|z l2 _] using rev_ind.
  - replace (l1 ++ a :: m ++ [b']) with ((l1 ++ a :: m) ++ [b']) in E by by rewrite <- app_assoc.
    apply app_inj_tail in E as [-> ->].
    assert (Hlm : last (a :: m) = Some c) by by rewrite last_app_cons in Hlast.
    destruct (last_Some (a :: m) c) as [[m0 Em] _]; [done|].
    assert (Hd : departures ((a :: m) ++ [b']) = departures (a :: m) ++ (if session c =? session b' then [] else [session c]))
      by (rewrite Em; apply departures_snoc).
    change (a :: m ++ [b']) with ((a :: m) ++ [b']). rewrite Hd.
    destruct Hb as [[Hne Hold]|[Heq Hlt]].
    + right. rewrite length_app. destruct (Z.eqb_spec (session c) (session b')); [congruence|]. cbn [length].
      enough (~ (length (departures (a :: m)) <= 8)%nat) by lia. intros Hlen. apply Hold.
      destruct (departures_app_r l1 a m) as [l ->]. apply last8_old; [done|].
      rewrite <- Hs. apply (departed m a c Hlm). congruence.
    + destruct m as [|y m _] using rev_ind.
      { injection Hlm as ->. by left. }
      change (a :: m ++ [y]) with ((a :: m) ++ [y]) in Hlm. rewrite last_snoc in Hlm. injection Hlm as ->.
      destruct (Hr l1 a m c []) as [?|Hl]; [done|congruence|left; lia|right]. rewrite length_app. lia.
  - replace (l1 ++ a :: m ++ b' :: l2 ++ [z]) with ((l1 ++ a :: m ++ b' :: l2) ++ [z]) in E
      by (by rewrite <- !app_assoc; cbn; rewrite <- app_assoc).
    apply app_inj_tail in E as [E _]. by apply (Hr l1 a m b' l2).
Qed.

Lemma commit_inv self controller g c log a :
  gate_inv self controller g c log -> evaluate g a = aApply ->
  gate_inv self controller (commit g a) (assign_target c a.(ca_target_originator)) (log ++ [a]).
Proof.
  intros [Hs Hc Hcur Hret Hgen Htgt Hrep] (Ho & Hd & Ht & Hnew)%evaluate_apply.
  rewrite Hcur in Hnew. split; cbn; rewrite ?last_snoc; try done.
  - rewrite Hcur. destruct (last log) as [cur|] eqn:Elast.
    + apply last_Some in Elast as [l ->]. rewrite departures_snoc. rewrite Hret.
      destruct (Z.eqb_spec (session cur) (session a)); cbn; [by rewrite app_nil_r|]. apply last8_snoc.
    + apply last_None in Elast as ->. by rewrite Hret.
  - apply Forall_app. split; [done|]. apply Forall_singleton. split_and!; congruence.
  - intros ? [= <-] Hnz. unfold assign_target. destruct (Z.eqb_spec (ca_target_originator a) 0); [done|].
    cbn [orb]. by destruct (Z.eqb_spec (ca_target_originator a) (cc_target_originator (cs_cfg c))).
  - destruct (last log) as [cur|] eqn:Elast; [|apply last_None in Elast as ->].
    + apply (replay_safe_snoc log a cur); [done..|]. by rewrite <- Hret.
    + intros l1 x m b l2 E. apply (f_equal length) in E. rewrite !length_app in E. cbn in E. rewrite length_app in E.
      cbn in E. lia.
Qed.

Lemma assign_step_inv self controller g c log o :
  gate_inv self controller g c log ->
  let '(g', c', log') := assign_step (g, c) log o in gate_inv self controller g' c' log'.
Proof.
  intros Hi. unfold assign_step, on_cache_assign.
  destruct (negb _); [done|]. destruct (evaluate _ _) eqn:E; try done.
  do 2 (destruct (negb _); [done|]). by apply commit_inv.
Qed.

Lemma assign_run_inv self controller cfg os :
  let '(g, c, log) := assign_run self controller cfg os in gate_inv self controller g c log.
Proof.
  induction os as [|o os IH] using rev_ind.
  - split; cbn; try done. intros l1 a m b l2 E. by destruct l1.
  - unfold assign_run in *. rewrite fold_left_app. cbn [fold_left].
    destruct (fold_left _ os _) as [[g c] log]. by apply assign_step_inv.
Qed.

(** ** Properties *)

(** C37. Over any sequence of offered assignments (replays, other controllers,
    failed retunes): the applied ones are the controller's own, addressed to
    this cache; the gate's current assignment and the store's target are those
    of the last applied one; and a replay never applies: of two applied in the
    same session the later has the greater epoch, unless at least ten session
    changes lie between (the gate remembers the last eight sessions it left). *)
Theorem assignment_replay_safe self controller cfg os :
  let '(g, c, log) := assign_run self controller cfg os in
  Forall (fun a => a.(ca_prefix).(originator) = controller /\ a.(ca_prefix).(destination) = self /\
            a.(ca_target_cache) = self) log /\
  g.(ga_current) = last log /\
  (forall a, last log = Some a -> a.(ca_target_originator) <> 0 ->
     c.(cs_cfg).(cc_target_originator) = a.(ca_target_originator)) /\
  replay_safe log.
Proof.
  pose proof (assign_run_inv self controller cfg os) as H.
  destruct (assign_run self controller cfg os) as [[g c] log]. by destruct H.
Qed.

(** The gate forgets a session after ten changes: the bound is met. *)
Definition demo_assign (session epoch : Z) : Offer :=
  MkOffer (MkCacheAssign (MkCommonPrefix 5 9 session) 9 7 epoch 100 20 1) true true true.
Example replay_after_ten :
  map (fun a => session a) (assign_run 9 5 CacheStoreConfig_init
    (map (fun s => demo_assign s 1) [1; 2; 3; 4; 5; 6; 7; 8; 9; 1; 10; 1])).2 = [1; 2; 3; 4; 5; 6; 7; 8; 9; 10; 1].
Proof. vm_compute. reflexivity. Qed.
