(* ===== verification/Framer.v ===== *)
(** * Datagram framer ([core/include/wblink/framer.h], [core/src/framer.cpp])
    and the RTP header it reads ([core/include/wblink/rtp.h])

    One ingress datagram becomes one DATA frame; on an RTP stream the marker
    bit and the timestamp decide where a block ends. *)
From S2P Require Import Prelude Endian Types Wire.

(** ** RTP fixed header *)
Definition kRtpFixedHeaderSize : Z := 12.

Record RtpHeader : Type := MkRtpHeader {
  rtp_version : Z;
  rtp_padding : bool;
  rtp_extension : bool;
  rtp_csrc_count : Z;
  rtp_marker : bool;
  rtp_payload_type : Z;
  rtp_seq : Z;
  rtp_timestamp : Z;
  rtp_ssrc : Z
}.

Definition parse_rtp_header (d : ptr) (n : Z) : option (option RtpHeader) :=
  match d with
  | None => Some None
  | Some d =>
    if n <? kRtpFixedHeaderSize then Some None else
    b0 ← rd8 d 0;
    let version := to_u8 (Z.shiftr b0 6) in
    if negb (version =? 2) then Some None else
    let csrc_count := to_u8 (Z.land b0 0x0F) in
    if n <? kRtpFixedHeaderSize + csrc_count * 4 then Some None else
    b1 ← rd8 d 1;
    seq ← be16_read d 2;
    timestamp ← be32_read d 4;
    ssrc ← be32_read d 8;
    Some (Some (MkRtpHeader version (negb (Z.land b0 0x20 =? 0)) (negb (Z.land b0 0x10 =? 0)) csrc_count
                  (negb (Z.land b1 0x80 =? 0)) (to_u8 (Z.land b1 0x7F)) seq timestamp ssrc))
  end.

(** The payload as its offset and length in the datagram. *)
Definition rtp_payload (d : list Z) (n : Z) (h : RtpHeader) : option (option (Z * Z)) :=
  let off := kRtpFixedHeaderSize + h.(rtp_csrc_count) * 4 in
  off ← (if h.(rtp_extension) then
           if off + 4 >? n then Some None else
           words ← be16_read d (Z.to_nat (off + 2));
           Some (Some (off + (4 + 4 * words)))
         else Some (Some off));
  match off with
  | None => Some None
  | Some off =>
    end_ ← (if h.(rtp_padding) then
              pad ← rd8 d (Z.to_nat (n - 1));
              Some (if (pad =? 0) || (pad >? n) then None else Some (n - pad))
            else Some (Some n));
    match end_ with
    | None => Some None
    | Some end_ => Some (if off >? end_ then None else Some (off, end_ - off))
    end
  end.

(** ** Framer *)
Record FramerConfig : Type := MkFramerConfig {
  fc_originator : Z;
  fc_session_id : Z;
  fc_stream_id : Z;
  fc_stream_type : Z;
  fc_destination : Z
}.

Record FramerStats : Type := MkFramerStats {
  fs_datagrams : Z;
  fs_frames : Z;
  fs_blocks : Z;
  fs_oversize_ingress : Z
}.
Definition FramerStats_init : FramerStats := MkFramerStats 0 0 0 0.

Record Framer : Type := MkFramer {
  fr_cfg : FramerConfig;
  fr_stats : FramerStats;
  fr_active_profile : Z;
  fr_table_version : Z;
  fr_extra_flags : Z;
  fr_next_seq : Z;
  fr_block_id : Z;
  fr_block_open : bool;
  fr_have_rtp_ts : bool;
  fr_last_rtp_ts : Z;
  fr_prev_was_marker : bool
}.
Definition Framer_init (cfg : FramerConfig) : Framer :=
  MkFramer cfg FramerStats_init 0 0 0 0 0 false false 0 false.

Definition set_operating_point (f : Framer) (active_profile table_version : Z) : Framer :=
  MkFramer f.(fr_cfg) f.(fr_stats) active_profile table_version f.(fr_extra_flags) f.(fr_next_seq) f.(fr_block_id)
    f.(fr_block_open) f.(fr_have_rtp_ts) f.(fr_last_rtp_ts) f.(fr_prev_was_marker).
Definition set_extra_flags (f : Framer) (x : Z) : Framer :=
  MkFramer f.(fr_cfg) f.(fr_stats) f.(fr_active_profile) f.(fr_table_version) x f.(fr_next_seq) f.(fr_block_id)
    f.(fr_block_open) f.(fr_have_rtp_ts) f.(fr_last_rtp_ts) f.(fr_prev_was_marker).
Definition with_stats (f : Framer) (s : FramerStats) : Framer :=
  MkFramer f.(fr_cfg) s f.(fr_active_profile) f.(fr_table_version) f.(fr_extra_flags) f.(fr_next_seq) f.(fr_block_id)
    f.(fr_block_open) f.(fr_have_rtp_ts) f.(fr_last_rtp_ts) f.(fr_prev_was_marker).
Definition reset_stats (f : Framer) : Framer := with_stats f FramerStats_init.

Definition count_stats (s : FramerStats) (datagrams frames blocks oversize : Z) : FramerStats :=
  MkFramerStats (to_u64 (s.(fs_datagrams) + datagrams)) (to_u64 (s.(fs_frames) + frames))
    (to_u64 (s.(fs_blocks) + blocks)) (to_u64 (s.(fs_oversize_ingress) + oversize)).

(** The block this datagram falls in, and whether it ends it. *)
Definition rtp_boundary (f : Framer) (rtp : option RtpHeader) : Framer * bool :=
  let new_block :=
    negb f.(fr_block_open) || f.(fr_prev_was_marker) ||
    match rtp with
    | Some h => f.(fr_have_rtp_ts) && negb (h.(rtp_timestamp) =? f.(fr_last_rtp_ts))
    | None => false
    end in
  let block_id := if new_block && f.(fr_block_open) then to_u32 (f.(fr_block_id) + 1) else f.(fr_block_id) in
  let stats := if new_block then count_stats f.(fr_stats) 0 0 1 0 else f.(fr_stats) in
  let block_open := new_block || f.(fr_block_open) in
  match rtp with
  | Some h =>
    (MkFramer f.(fr_cfg) stats f.(fr_active_profile) f.(fr_table_version) f.(fr_extra_flags) f.(fr_next_seq) block_id
       block_open true h.(rtp_timestamp) h.(rtp_marker), h.(rtp_marker))
  | None =>
    (MkFramer f.(fr_cfg) stats f.(fr_active_profile) f.(fr_table_version) f.(fr_extra_flags) f.(fr_next_seq) block_id
       block_open f.(fr_have_rtp_ts) f.(fr_last_rtp_ts) true, true)
  end.

Definition datagram_boundary (f : Framer) : Framer * bool :=
  (MkFramer f.(fr_cfg) (count_stats f.(fr_stats) 0 0 1 0) f.(fr_active_profile) f.(fr_table_version) f.(fr_extra_flags)
     f.(fr_next_seq) (if f.(fr_block_open) then to_u32 (f.(fr_block_id) + 1) else f.(fr_block_id))
     true f.(fr_have_rtp_ts) f.(fr_last_rtp_ts) f.(fr_prev_was_marker), true).

Definition frame_hdr (f : Framer) (end_of_block : bool) : DataHeader :=
  MkDataHeader (MkCommonPrefix f.(fr_cfg).(fc_originator) f.(fr_cfg).(fc_destination) f.(fr_cfg).(fc_session_id))
    f.(fr_cfg).(fc_stream_id) f.(fr_cfg).(fc_stream_type) f.(fr_next_seq) f.(fr_block_id)
    (to_u8 (Z.lor (if end_of_block then data_flags_kEndOfBlock else 0) f.(fr_extra_flags)))
    f.(fr_active_profile) f.(fr_table_version).

(** [on_datagram]: whether it was taken, and the calls of [emit]. *)
Definition on_datagram (f : Framer) (data : list Z) (now_ms : Z)
  : option (bool * list (list Z * DataHeader * Z) * Framer) :=
  let f := with_stats f (count_stats f.(fr_stats) 1 0 0 0) in
  if len data >? kMaxDataPayload then Some (false, [], with_stats f (count_stats f.(fr_stats) 0 0 0 1)) else
  '(f, end_of_block) ← (if f.(fr_cfg).(fc_stream_type) =? stream_type_kRtp
    then rtp ← parse_rtp_header (Some data) (len data); Some (rtp_boundary f rtp)
    else Some (datagram_boundary f));
  let hdr := frame_hdr f end_of_block in
  let f := MkFramer f.(fr_cfg) f.(fr_stats) f.(fr_active_profile) f.(fr_table_version) f.(fr_extra_flags)
    (to_u32 (f.(fr_next_seq) + 1)) f.(fr_block_id) f.(fr_block_open) f.(fr_have_rtp_ts) f.(fr_last_rtp_ts)
    f.(fr_prev_was_marker) in
  let frame := replicate (Z.to_nat (kDataHeaderSize + kMaxDataPayload)) 0 in
  '(n, buf) ← encode_data hdr (Some data) (to_u16 (len data)) (Some frame) (len frame);
  if (n : Z) =? 0 then Some (false, [], f) else
  frame ← buf;
  Some (true, [(take (Z.to_nat n) frame, hdr, now_ms)], with_stats f (count_stats f.(fr_stats) 0 1 0 0)).
