(* ===== verification/FramerProps.v ===== *)
(** * Datagram framer: the frames sent

    Every datagram taken is one DATA frame that decodes back to it, with the
    next sequence number and the block a reference reading of the RTP headers
    gives it. *)
From S2P Require Import Prelude Endian Types Wire WireLayout WireFacts WireProps Framer.

(** ** The RTP header parser reads inside the datagram *)
Definition rtp_of (d : list Z) : option RtpHeader := default None (parse_rtp_header (Some d) (len d)).

Arguments rtp_of : simpl never.

Lemma parse_rtp_ok d : parse_rtp_header (Some d) (len d) = Some (rtp_of d).
Proof.
  unfold rtp_of, parse_rtp_header, kRtpFixedHeaderSize. destruct (Z.ltb_spec (len d) 12); [done|].
  destruct (rd8_some d 0) as [b0 ->]; [lia|]. cbn [mbind option_bind].
  destruct (negb _); [done|]. destruct (_ <? _); [done|].
  destruct (rd8_some d 1) as [b1 ->]; [lia|]. destruct (be16_read_some d 2) as [sq ->]; [lia|].
  destruct (be32_read_some d 4) as [ts ->]; [lia|]. destruct (be32_read_some d 8) as [ss ->]; [lia|]. done.
Qed.

Lemma be16_read_u16 d off v : be16_read d off = Some v -> u16 v.
Proof.
  unfold be16_read. destruct (rd8 d off); [|done]. cbn. destruct (rd8 d (off + 1)); [|done]. cbn.
  intros [= <-]. apply to_u16_u16.
Qed.

(** The payload located is a part of the datagram, after the header. *)
Lemma rtp_payload_inside d h :
  bytes d -> rtp_of d = Some h ->
  exists r, rtp_payload d (len d) h = Some r /\
  from_option (fun '(off, n) => kRtpFixedHeaderSize <= off /\ 0 <= n /\ off + n <= len d) True r.
Proof.
  intros Hb Hh. pose proof (parse_rtp_ok d) as Hp. rewrite Hh in Hp. unfold parse_rtp_header, kRtpFixedHeaderSize in Hp.
  destruct (Z.ltb_spec (len d) 12) as [|H12]; [done|].
  destruct (rd8_some d 0) as [b0 E0]; [lia|]. rewrite E0 in Hp. cbn [mbind option_bind] in Hp.
  destruct (negb _); [done|]. destruct (Z.ltb_spec (len d) (12 + to_u8 (Z.land b0 15) * 4)) as [|Hc]; [done|].
  assert (Hcc : h.(rtp_csrc_count) = to_u8 (Z.land b0 15)).
  { destruct (rd8 d 1), (be16_read d 2), (be32_read d 4), (be32_read d 8); by simplify_eq/=. }
  pose proof (to_u8_u8 (Z.land b0 15)) as Hu. rewrite <- Hcc in *. unfold u8 in Hu. clear Hp Hcc.
  unfold rtp_payload, kRtpFixedHeaderSize.
  assert (Hext : exists o, (if h.(rtp_extension) then
      if 12 + h.(rtp_csrc_count) * 4 + 4 >? len d then Some None
      else words ← be16_read d (Z.to_nat (12 + h.(rtp_csrc_count) * 4 + 2));
           Some (Some (12 + h.(rtp_csrc_count) * 4 + (4 + 4 * words)))
    else Some (Some (12 + h.(rtp_csrc_count) * 4))) = Some o /\ from_option (fun o => 12 <= o) True o).
  { destruct (rtp_extension h); [|eexists; split; [done|cbn; lia]].
    rewrite Z.gtb_ltb. destruct (Z.ltb_spec (len d) (12 + rtp_csrc_count h * 4 + 4)); [by exists None|].
    destruct (be16_read_some d (Z.to_nat (12 + rtp_csrc_count h * 4 + 2))) as [w Ew]; [lia|]. rewrite Ew.
    eexists; split; [done|]. cbn. pose proof (be16_read_u16 d _ w Ew). unfold u16 in *. lia. }
  destruct Hext as (o & -> & Ho). cbn [mbind option_bind]. destruct o as [off|]; [|by exists None].
  destruct (rtp_padding h).
  - destruct (rd8_some d (Z.to_nat (len d - 1))) as [pad Ep]; [lia|]. rewrite Ep. cbn [mbind option_bind].
    destruct (_ || _) eqn:Eb; [by exists None|]. apply orb_false_iff in Eb as [_ Eb]. bool_hyps.
    rewrite Z.gtb_ltb.
    assert (u8 pad) by (eapply Forall_lookup_1; [exact Hb|exact Ep]).
    destruct (Z.ltb_spec (len d - pad) off); (eexists; split; [done|cbn; try done]). cbn in Ho. ints.
  - cbn [mbind option_bind]. rewrite Z.gtb_ltb. destruct (Z.ltb_spec (len d) off); (eexists; split; [done|cbn; try done]).
    cbn in Ho. lia.
Qed.

(** ** A frame decodes to the datagram it carries *)
Lemma frame_decodes hdr d :
  wf_data_header hdr -> bytes d -> len d <= kMaxDataPayload ->
  exists n buf, encode_data hdr (Some d) (to_u16 (len d))
      (Some (replicate (Z.to_nat (kDataHeaderSize + kMaxDataPayload)) 0))
      (len (replicate (Z.to_nat (kDataHeaderSize + kMaxDataPayload)) 0)) = Some (n, Some buf) /\ n <> 0 /\
    decode (Some (take (Z.to_nat n) buf)) =
    Some (DData (MkDataView hdr (if len d >? 0 then Some d else None) (len d))).
Proof.
  intros Hh Hd Hl. unfold kMaxDataPayload, kDataHeaderSize in *. rewrite length_replicate.
  rewrite to_u16_id by (unfold u16; lia).
  assert (Hwf : wf_packet (PData hdr (Some d) (len d))) by (split; [done|]; split; [unfold u16; lia|]; split; [done|lia]).
  assert (Hv : packet_valid (PData hdr (Some d) (len d)) = true) by (cbn; by destruct (len d >? 0)).
  destruct (encoded_decodes (PData hdr (Some d) (len d)) (replicate (Z.to_nat (26 + 4096)) 0) (26 + 4096))
    as (o' & E & D); [done|done|by apply Z.leb_le|rewrite length_replicate; lia|cbn; wire_sizes; lia|].
  cbn [encode_packet packet_size] in E, D. unfold kDataHeaderSize in E, D.
  rewrite Z2Nat.id by lia. do 2 eexists. split; [exact E|]. split; [lia|]. rewrite D.
  cbn [view]. unfold view_ptr, ptr_bytes. cbn [default]. by rewrite Nat2Z.id, firstn_all.
Qed.

(** ** The reference: which datagram starts and which ends a block *)

(** On an RTP stream a datagram starts a block after a marked or unparseable
    one, and when its timestamp moved; on any other stream every one does. *)
Definition starts_block (rtp : bool) (prev d : list Z) : bool :=
  negb rtp ||
  match rtp_of prev with
  | None => true
  | Some p => p.(rtp_marker) ||
    match rtp_of d with Some h => negb (h.(rtp_timestamp) =? p.(rtp_timestamp)) | None => false end
  end.
Definition ends_block (rtp : bool) (d : list Z) : bool :=
  negb rtp || match rtp_of d with None => true | Some h => h.(rtp_marker) end.

Arguments starts_block : simpl never.

(** Blocks started after the first: the number of the last datagram's block. *)
Fixpoint boundaries (rtp : bool) (ds : list (list Z)) : Z :=
  match ds with
  | a :: (b :: _) as ds => (if starts_block rtp a b then 1 else 0) + boundaries rtp ds
  | _ => 0
  end.

Lemma boundaries_snoc rtp ds a b :
  boundaries rtp ((ds ++ [a]) ++ [b]) = boundaries rtp (ds ++ [a]) + (if starts_block rtp a b then 1 else 0).
Proof.
  induction ds as [|x ds IH]; [cbn; lia|].
  destruct ds as [|y ds]; [cbn; lia|]. cbn [app boundaries] in *. lia.
Qed.

(** ** Runs *)
Definition framer_run (f : Framer) (ds : list (list Z * Z)) : option (list (list Z * DataHeader * Z) * Framer) :=
  foldl (fun acc '(d, now) => '(out, f) ← acc; '(_, sent, f) ← on_datagram f d now; Some (out ++ sent, f))
    (Some ([], f)) ds.

Record wf_framer_cfg (f : Framer) : Prop := {
  wfc_originator : u16 f.(fr_cfg).(fc_originator);
  wfc_session : u32 f.(fr_cfg).(fc_session_id);
  wfc_stream : u8 f.(fr_cfg).(fc_stream_id);
  wfc_type : u8 f.(fr_cfg).(fc_stream_type);
  wfc_destination : u16 f.(fr_cfg).(fc_destination);
  wfc_profile : u8 f.(fr_active_profile);
  wfc_table : u8 f.(fr_table_version)
}.

(** A framer of this configuration and operating point. *)
Definition same_setup (f f' : Framer) : Prop :=
  f'.(fr_cfg) = f.(fr_cfg) /\ f'.(fr_active_profile) = f.(fr_active_profile) /\
  f'.(fr_table_version) = f.(fr_table_version) /\ f'.(fr_extra_flags) = f.(fr_extra_flags).

Definition is_rtp (f : Framer) : bool := f.(fr_cfg).(fc_stream_type) =? stream_type_kRtp.

(** The header of the last datagram of [ds]. *)
Definition expected_hdr (f : Framer) (ds : list (list Z)) (d : list Z) : DataHeader :=
  MkDataHeader (MkCommonPrefix f.(fr_cfg).(fc_originator) f.(fr_cfg).(fc_destination) f.(fr_cfg).(fc_session_id))
    f.(fr_cfg).(fc_stream_id) f.(fr_cfg).(fc_stream_type) (to_u32 (len ds)) (to_u32 (boundaries (is_rtp f) (ds ++ [d])))
    (to_u8 (Z.lor (if ends_block (is_rtp f) d then data_flags_kEndOfBlock else 0) f.(fr_extra_flags)))
    f.(fr_active_profile) f.(fr_table_version).

(** What the framer remembers of the datagrams [ks] taken so far. *)
Record framer_inv (f0 : Framer) (ks : list (list Z)) (n_all over : Z) (f : Framer) : Prop := {
  fi_setup : same_setup f0 f;
  fi_seq : f.(fr_next_seq) = to_u32 (len ks);
  fi_open : f.(fr_block_open) = bool_decide (ks <> []);
  fi_block : f.(fr_block_id) = to_u32 (boundaries (is_rtp f0) ks);
  fi_rtp : is_rtp f0 = true -> forall d, last ks = Some d ->
    f.(fr_prev_was_marker) = ends_block true d /\
    from_option (fun h => f.(fr_have_rtp_ts) = true /\ f.(fr_last_rtp_ts) = h.(rtp_timestamp)) True (rtp_of d);
  fi_start : ks = [] -> f.(fr_prev_was_marker) = false /\ f.(fr_have_rtp_ts) = false;
  fi_stats : f.(fr_stats) = MkFramerStats (to_u64 n_all) (to_u64 (len ks))
    (to_u64 (if bool_decide (ks = []) then 0 else boundaries (is_rtp f0) ks + 1)) (to_u64 over)
}.

Lemma boundaries_last rtp ks d0 d : last ks = Some d0 ->
  boundaries rtp (ks ++ [d]) = boundaries rtp ks + (if starts_block rtp d0 d then 1 else 0).
Proof. intros [l ->]%last_Some. apply boundaries_snoc. Qed.

(** The boundary decision agrees with the reference. *)
Definition boundary (f : Framer) (d : list Z) : Framer * bool :=
  if is_rtp f then rtp_boundary f (rtp_of d) else datagram_boundary f.

Record bounded_to (f0 : Framer) (ks : list (list Z)) (d : list Z) (f f' : Framer) : Prop := {
  bt_setup : same_setup f0 f';
  bt_seq : f'.(fr_next_seq) = f.(fr_next_seq);
  bt_open : f'.(fr_block_open) = true;
  bt_block : f'.(fr_block_id) = to_u32 (boundaries (is_rtp f0) (ks ++ [d]));
  bt_rtp : is_rtp f0 = true ->
    f'.(fr_prev_was_marker) = ends_block true d /\
    from_option (fun h => f'.(fr_have_rtp_ts) = true /\ f'.(fr_last_rtp_ts) = h.(rtp_timestamp)) True (rtp_of d);
  bt_stats : f'.(fr_stats) = MkFramerStats f.(fr_stats).(fs_datagrams) f.(fr_stats).(fs_frames)
    (to_u64 (boundaries (is_rtp f0) (ks ++ [d]) + 1)) f.(fr_stats).(fs_oversize_ingress)
}.

Ltac boundary_counts Hstat :=
  rewrite ?Hstat; unfold count_stats; cbn [fs_datagrams fs_frames fs_blocks fs_oversize_ingress];
  rewrite ?to_u64_succ, ?to_u32_succ, ?Z.add_0_r; try done; do 2 f_equal; lia.

Lemma boundary_first f0 n o f d :
  framer_inv f0 [] n o f ->
  (boundary f d).2 = ends_block (is_rtp f0) d /\ bounded_to f0 [] d f (boundary f d).1.
Proof.
  intros [(Ec & Ep & Et & Ex) Hs Ho Hb Hr Hst Hstat]. unfold boundary.
  assert (Ei : is_rtp f = is_rtp f0) by (unfold is_rtp; by rewrite Ec). rewrite Ei.
  rewrite bool_decide_false in Ho by (by intros []). destruct (Hst eq_refl) as [Hm Ht]. cbn in Hstat.
  destruct (is_rtp f0) eqn:Er; [|by split; [done|]; split; cbn; rewrite ?Er, ?Ho; try done; boundary_counts Hstat].
  unfold rtp_boundary. rewrite Ho. cbn [negb orb andb].
  destruct (rtp_of d) as [h|] eqn:Ed; (split; [unfold ends_block; by rewrite Ed|]);
    split; cbn; rewrite ?Ed, ?Er; try done; try (by (unfold ends_block; rewrite Ed)); boundary_counts Hstat.
Qed.

Lemma boundary_next f0 ks n o f d0 d :
  last ks = Some d0 -> framer_inv f0 ks n o f ->
  (boundary f d).2 = ends_block (is_rtp f0) d /\ bounded_to f0 ks d f (boundary f d).1.
Proof.
  intros El [(Ec & Ep & Et & Ex) Hs Ho Hb Hr Hst Hstat]. unfold boundary.
  assert (Ei : is_rtp f = is_rtp f0) by (unfold is_rtp; by rewrite Ec). rewrite Ei.
  assert (Hne : ks <> []) by (by intros ->). rewrite bool_decide_true in Ho by done.
  rewrite bool_decide_false in Hstat by done.
  pose proof (boundaries_last (is_rtp f0) ks d0 d El) as Hbl.
  destruct (is_rtp f0) eqn:Er.
  - destruct (Hr eq_refl d0 El) as [Hm Hts].
    assert (Hnew : negb f.(fr_block_open) || f.(fr_prev_was_marker) ||
      match rtp_of d with Some h => f.(fr_have_rtp_ts) && negb (h.(rtp_timestamp) =? f.(fr_last_rtp_ts)) | None => false end
      = starts_block true d0 d).
    { rewrite Ho, Hm. unfold starts_block, ends_block. cbn [negb orb].
      destruct (rtp_of d0) as [p|]; [|by destruct (rtp_of d)]. destruct Hts as [-> ->]. by destruct (rtp_of d). }
    unfold rtp_boundary. rewrite Hnew, Ho, andb_true_r, orb_true_r, Hb.
    destruct (rtp_of d) as [h|] eqn:Ed; (split; [unfold ends_block; by rewrite Ed|]);
      split; cbn; rewrite ?Ed, ?Er, ?Hbl; try done; try (by (unfold ends_block; rewrite Ed));
      destruct (starts_block true d0 d); boundary_counts Hstat.
  - split; [done|]. split; cbn; rewrite ?Er, ?Hbl, ?Ho, ?Hb; try done; boundary_counts Hstat.
Qed.

Lemma boundary_spec f0 ks n o f d :
  framer_inv f0 ks n o f ->
  (boundary f d).2 = ends_block (is_rtp f0) d /\ bounded_to f0 ks d f (boundary f d).1.
Proof.
  intros Hi. destruct (last ks) as [d0|] eqn:El; [by eapply boundary_next|].
  apply last_None in El as ->. by eapply boundary_first.
Qed.

(** ** One datagram *)

(** The frame sent for the last datagram of [ks ++ [d]]. *)
Definition sent_ok (f0 : Framer) (ks : list (list Z)) (d : list Z) (now : Z) (x : list Z * DataHeader * Z) : Prop :=
  x.1.2 = expected_hdr f0 ks d /\ x.2 = now /\
  decode (Some x.1.1) =
    Some (DData (MkDataView (expected_hdr f0 ks d) (if len d >? 0 then Some d else None) (len d))).

Lemma expected_hdr_wf f0 ks d : wf_framer_cfg f0 -> wf_data_header (expected_hdr f0 ks d).
Proof.
  intros []. unfold expected_hdr, wf_data_header, wf_prefix. cbn.
  split_and!; auto using to_u8_u8, to_u32_u32.
Qed.

Lemma on_datagram_spec f0 ks n o f d now :
  wf_framer_cfg f0 -> bytes d -> framer_inv f0 ks n o f ->
  exists ok sent f', on_datagram f d now = Some (ok, sent, f') /\
  if len d <=? kMaxDataPayload
  then ok = true /\ framer_inv f0 (ks ++ [d]) (n + 1) o f' /\ exists x, sent = [x] /\ sent_ok f0 ks d now x
  else ok = false /\ framer_inv f0 ks (n + 1) (o + 1) f' /\ sent = [].
Proof.
  intros Hwf Hd Hi. unfold on_datagram.
  assert (H1 : framer_inv f0 ks (n + 1) o (with_stats f (count_stats (fr_stats f) 1 0 0 0))).
  { destruct Hi as [? ? ? ? ? ? Hst]. split; try done. cbn. boundary_counts Hst. }
  set (f1 := with_stats f _) in *. clearbody f1. clear Hi f. rewrite Z.gtb_ltb.
  destruct (Z.ltb_spec kMaxDataPayload (len d)), (Z.leb_spec (len d) kMaxDataPayload); try lia.
  { eexists _, _, _. split; [done|]. split_and!; try done.
    destruct H1 as [? ? ? ? ? ? Hst]. split; try done. cbn. boundary_counts Hst. }
  assert (Eb : (if f1.(fr_cfg).(fc_stream_type) =? stream_type_kRtp
    then rtp ← parse_rtp_header (Some d) (len d); Some (rtp_boundary f1 rtp)
    else Some (datagram_boundary f1)) = Some (boundary f1 d)).
  { unfold boundary, is_rtp. rewrite parse_rtp_ok. by destruct (_ =? _). }
  rewrite Eb. cbn [mbind option_bind].
  destruct (boundary_spec f0 ks (n + 1) o f1 d H1) as [Hend [(Ec & Ep & Et & Ex) Hs Ho Hb Hr Hst]].
  destruct H1 as [_ Hseq _ _ _ _ Hst1].
  destruct (boundary f1 d) as [f2 eob]. cbn [fst snd] in *. subst eob.
  assert (Eh : frame_hdr f2 (ends_block (is_rtp f0) d) = expected_hdr f0 ks d).
  { unfold frame_hdr, expected_hdr. by rewrite Ec, Ep, Et, Ex, Hs, Hseq, Hb. }
  rewrite Eh. destruct (frame_decodes (expected_hdr f0 ks d) d) as (m & buf & -> & Hm & Hdec);
    [by apply expected_hdr_wf|done|lia|]. cbn [mbind option_bind].
  destruct (Z.eqb_spec m 0); [done|]. eexists _, _, _. split; [done|]. split; [done|]. split; [|by eexists].
  assert (Hne : ks ++ [d] <> []) by (intros E%(f_equal length); rewrite length_app in E; cbn in E; lia).
  split; cbn; rewrite ?Ec, ?Ep, ?Et, ?Ex, ?Hs, ?Hseq, ?Ho, ?Hb, ?length_app; try done.
  - rewrite to_u32_succ. f_equal. cbn. lia.
  - by rewrite bool_decide_true.
  - intros Hrtp d' Hl. rewrite last_snoc in Hl. injection Hl as <-. by apply Hr.
  - rewrite Hst, Hst1. cbn [fs_datagrams fs_frames fs_blocks fs_oversize_ingress length].
    rewrite bool_decide_false by done. boundary_counts Hst1.
Qed.

(** ** A run *)
Definition taken (ds : list (list Z * Z)) : list (list Z * Z) := filter (fun d => len d.1 <= kMaxDataPayload) ds.

(** The [i]-th frame sent is that of the [i]-th datagram taken. *)
Definition all_sent (f0 : Framer) (ks : list (list Z * Z)) (out : list (list Z * DataHeader * Z)) : Prop :=
  length out = length ks /\
  forall i d now, ks !! i = Some (d, now) -> exists x, out !! i = Some x /\ sent_ok f0 (take i ks.*1) d now x.

Lemma all_sent_snoc f0 ks out d now x :
  all_sent f0 ks out -> sent_ok f0 ks.*1 d now x -> all_sent f0 (ks ++ [(d, now)]) (out ++ [x]).
Proof.
  intros [Hl Ha] Hx. split; [by rewrite !length_app, Hl|]. intros i d' now' Hi.
  rewrite fmap_app. apply lookup_snoc_Some in Hi as [[Hlt Hi]|[-> [= <- <-]]].
  - destruct (Ha i d' now' Hi) as (y & Hy & Hs). exists y. split; [by apply lookup_app_l_Some|].
    rewrite take_app_le by (rewrite length_fmap; lia). done.
  - exists x. split; [by rewrite <- Hl, list_lookup_middle|]. by rewrite <- (length_fmap fst), take_app_length.
Qed.

Lemma framer_run_spec f0 ds :
  wf_framer_cfg f0 -> framer_inv f0 [] 0 0 f0 -> Forall (fun d => bytes d.1) ds ->
  exists out f, framer_run f0 ds = Some (out, f) /\ all_sent f0 (taken ds) out /\
    framer_inv f0 (taken ds).*1 (len ds) (len ds - len (taken ds)) f.
Proof.
  intros Hwf H0 Hds. induction ds as [|[d now] ds IH] using rev_ind.
  { exists [], f0. split_and!; try done. }
  apply Forall_app in Hds as [Hds Hd]. rewrite Forall_singleton in Hd. cbn in Hd.
  destruct (IH Hds) as (out & f & E & Ha & Hi). unfold framer_run in *. rewrite foldl_app, E. cbn [foldl mbind option_bind].
  destruct (on_datagram_spec f0 _ _ _ f d now Hwf Hd Hi) as (ok & sent & f' & -> & Hstep). cbn [mbind option_bind].
  exists (out ++ sent), f'. split; [done|]. unfold taken in *. rewrite filter_app, filter_cons, filter_nil. cbn [fst].
  rewrite length_app. cbn [length]. destruct (Z.leb_spec (len d) kMaxDataPayload).
  - rewrite decide_True by done. destruct Hstep as (_ & Hi' & x & -> & Hx).
    split; [by apply all_sent_snoc|]. rewrite fmap_app. rewrite length_app. cbn [length fmap list_fmap].
    replace (Z.of_nat (length ds + 1)) with (len ds + 1) by lia.
    by replace (len ds + 1 - _) with (len ds - len (filter (fun d => len d.1 <= kMaxDataPayload) ds)) by lia.
  - rewrite decide_False by lia. destruct Hstep as (_ & Hi' & ->). rewrite !app_nil_r. split; [done|].
    replace (Z.of_nat (length ds + 1)) with (len ds + 1) by lia.
    by replace (len ds + 1 - _) with (len ds - len (filter (fun d => len d.1 <= kMaxDataPayload) ds) + 1) by lia.
Qed.

(** ** Properties *)

(** A framer of configuration [cfg], at an operating point, with extra flags. *)
Definition framer_at (cfg : FramerConfig) (profile table flags : Z) : Framer :=
  set_extra_flags (set_operating_point (Framer_init cfg) profile table) flags.

(** C34. Over any run every datagram within the size limit becomes exactly one
    frame, which decodes to it byte for byte, with the next sequence number, the
    stream's identity and operating point, and the block and end-of-block flag
    that a reference reading of the RTP headers gives; an oversize datagram
    sends nothing and changes nothing but its counter. The four counters count
    the datagrams, the frames, the blocks and the oversize ones. *)
Theorem framer_frames cfg profile table flags ds :
  let f0 := framer_at cfg profile table flags in
  wf_framer_cfg f0 -> Forall (fun d => bytes d.1) ds ->
  exists out f, framer_run f0 ds = Some (out, f) /\ all_sent f0 (taken ds) out /\
    f.(fr_stats) = MkFramerStats (to_u64 (len ds)) (to_u64 (len (taken ds)))
      (to_u64 (match taken ds with [] => 0 | _ => boundaries (is_rtp f0) (taken ds).*1 + 1 end))
      (to_u64 (len ds - len (taken ds))).
Proof.
  intros f0 Hwf Hds. destruct (framer_run_spec f0 ds Hwf) as (out & f & E & Ha & Hi); [|done|].
  { by split. }
  exists out, f. split; [done|]. split; [done|]. destruct Hi as [_ _ _ _ _ _ ->].
  rewrite length_fmap. by destruct (taken ds).
Qed.

Definition demo_framer : Framer := framer_at (MkFramerConfig 7 99 1 stream_type_kRtp 0) 3 5 0.
(** RTP datagrams of timestamp 1, an unparseable one, an oversize one, then a
    marked one and one more. *)
Definition demo_rtp (marker ts : Z) : list Z := [128; marker + 96; 0; 1; 0; 0; 0; ts; 0; 0; 0; 9; 42].
Definition demo_datagrams : list (list Z * Z) :=
  [(demo_rtp 0 1, 10); (demo_rtp 0 1, 11); ([1; 2], 12); (replicate (Z.to_nat 4097) 0, 13); (demo_rtp 128 2, 14); (demo_rtp 0 2, 15); (demo_rtp 0 3, 16)].

(** The unparseable datagram joins the block it interrupts and closes it. *)
Example demo_framer_blocks :
  (fun r => map (fun x => (x.1.2.(dh_seq), x.1.2.(dh_block_id), x.1.2.(dh_data_flags))) r.1) <$> framer_run demo_framer demo_datagrams =
  Some [(0, 0, 0); (1, 0, 0); (2, 0, 1); (3, 1, 1); (4, 2, 0); (5, 3, 0)].
Proof. vm_compute. reflexivity. Qed.

Lemma framer_frames_witness :
  exists out f, framer_run demo_framer demo_datagrams = Some (out, f) /\ all_sent demo_framer (taken demo_datagrams) out.
Proof.
  destruct (framer_frames (MkFramerConfig 7 99 1 stream_type_kRtp 0) 3 5 0 demo_datagrams) as (out & f & E & H & _).
  - split; refine (bool_decide_unpack _ _); vm_compute; exact I.
  - exact (bool_decide_unpack (Forall (fun d => bytes d.1) demo_datagrams) ltac:(vm_compute; exact I)).
  - exists out, f. split; [exact E|exact H].
Defined.
