(* ===== verification/RecoveryProps.v ===== *)
(** * Latch-triggered recovery requests ([core/include/wblink/recovery.h],
    [core/src/recovery.cpp]): the schedule, and that it is bounded

    The bounded schedule of RECOVERY_REQUESTs of each latched stream, its early
    exit on an IRAP and its re-arming on damage. *)
From S2P Require Import Prelude Types.
Record LatchStream : Type := MkLatchStream {
  lt_key : StreamKey;
  lt_local_stream_id : Z
}.

Definition kAttempts : Z := 5.
Definition kPeriodMs : Z := 1000.
Definition kRearmBackoffMs : Z := 10000.

Record Entry : Type := MkEntry {
  en_key : StreamKey;
  en_local_stream_id : Z;
  en_attempts : Z;
  en_next_ms : Z;
  en_done : bool;
  en_answered : bool;
  en_rearm_not_before_ms : Z
}.

(** The tracked entries, in the order they were first seen. *)
Abbreviation LatchRecovery := (list Entry).
Definition LatchRecovery_init : LatchRecovery := [].

(** A stream's turn in [due]: the request is sent when its time has come. *)
Definition due_entry (s : LatchStream) (now_ms : Z) (e : Entry) : Entry * bool :=
  let e := MkEntry e.(en_key) s.(lt_local_stream_id) e.(en_attempts) e.(en_next_ms) e.(en_done) e.(en_answered)
             e.(en_rearm_not_before_ms) in
  if e.(en_done) || (e.(en_attempts) >=? kAttempts) || (now_ms <? e.(en_next_ms)) then (e, false) else
  let attempts := to_u8 (e.(en_attempts) + 1) in
  (MkEntry e.(en_key) e.(en_local_stream_id) attempts (to_u64 (now_ms + kPeriodMs)) e.(en_done) e.(en_answered)
     (if attempts >=? kAttempts then to_u64 (now_ms + kRearmBackoffMs) else e.(en_rearm_not_before_ms)), true).

(** Its entry found, or added at first sight. *)
Fixpoint due_stream (s : LatchStream) (now_ms : Z) (entries : LatchRecovery) : LatchRecovery * bool :=
  match entries with
  | [] =>
    let '(e, sent) := due_entry s now_ms (MkEntry s.(lt_key) s.(lt_local_stream_id) 0 now_ms false false 0) in
    ([e], sent)
  | e :: entries =>
    if bool_decide (e.(en_key) = s.(lt_key)) then
      let '(e, sent) := due_entry s now_ms e in (e :: entries, sent)
    else let '(entries, sent) := due_stream s now_ms entries in (e :: entries, sent)
  end.

Definition due (r : LatchRecovery) (latched : list LatchStream) (now_ms : Z) : LatchRecovery * list StreamKey :=
  let r := List.filter (fun e => existsb (fun s => bool_decide (s.(lt_key) = e.(en_key))) latched) r in
  fold_left (fun '(r, out) s =>
    let '(r, sent) := due_stream s now_ms r in (r, if (sent : bool) then out ++ [s.(lt_key)] else out)) latched (r, []).

Definition note_irap (r : LatchRecovery) (local_stream_id : Z) : LatchRecovery :=
  map (fun e => if e.(en_local_stream_id) =? local_stream_id
    then MkEntry e.(en_key) e.(en_local_stream_id) e.(en_attempts) e.(en_next_ms) true true e.(en_rearm_not_before_ms)
    else e) r.

Definition note_damage (r : LatchRecovery) (local_stream_id now_ms : Z) : LatchRecovery :=
  map (fun e =>
    if negb (e.(en_local_stream_id) =? local_stream_id) then e else
    if negb e.(en_done) && (e.(en_attempts) <? kAttempts) then e else
    if negb e.(en_answered) && (now_ms <? e.(en_rearm_not_before_ms)) then e else
    MkEntry e.(en_key) e.(en_local_stream_id) 0 now_ms false false e.(en_rearm_not_before_ms)) r.

Definition find (r : LatchRecovery) (key : StreamKey) : option Entry :=
  List.find (fun e => bool_decide (e.(en_key) = key)) r.
Definition attempts (r : LatchRecovery) (key : StreamKey) : Z :=
  match find r key with Some e => e.(en_attempts) | None => 0 end.
Definition settled (r : LatchRecovery) (key : StreamKey) : bool :=
  match find r key with Some e => e.(en_done) || (e.(en_attempts) >=? kAttempts) | None => false end.

#[export] Instance LatchStream_eq_dec : EqDecision LatchStream.
Proof. solve_decision. Defined.

(** ** One stream's entry, whatever the others do *)
Section OneKey.
Context (K : StreamKey).

Lemma find_cons e r : find (e :: r) K = if bool_decide (e.(en_key) = K) then Some e else find r K.
Proof. done. Qed.

Lemma due_entry_key s now e : (due_entry s now e).1.(en_key) = e.(en_key).
Proof. unfold due_entry. by case_match. Qed.

Lemma due_stream_other s now r : s.(lt_key) <> K -> find (due_stream s now r).1 K = find r K.
Proof.
  intros Hne. induction r as [|e r IH]; cbn [due_stream].
  - pose proof (due_entry_key s now (MkEntry (lt_key s) (lt_local_stream_id s) 0 now false false 0)) as Hk.
    destruct (due_entry _ _ _) as [e sent]. cbn [fst] in *. rewrite find_cons, bool_decide_false; [done|].
    rewrite Hk. done.
  - case_bool_decide as Hk.
    + pose proof (due_entry_key s now e) as He. destruct (due_entry s now e) as [e' sent]. cbn [fst] in *.
      rewrite !find_cons, !bool_decide_false by congruence. done.
    + destruct (due_stream s now r) as [r' sent]. cbn [fst] in *. by rewrite !find_cons, IH.
Qed.

(** The entry a stream starts from at first sight. *)
Definition fresh (s : LatchStream) (now : Z) : Entry := MkEntry s.(lt_key) s.(lt_local_stream_id) 0 now false false 0.

Lemma due_stream_own s now r : s.(lt_key) = K ->
  let e' := due_entry s now (default (fresh s now) (find r K)) in
  find (due_stream s now r).1 K = Some e'.1 /\ (due_stream s now r).2 = e'.2.
Proof.
  intros Hs. induction r as [|e r IH]; cbn [due_stream].
  - cbn [default]. pose proof (due_entry_key s now (fresh s now)) as Hk. change (MkEntry _ _ _ _ _ _ _) with (fresh s now).
    cbn [find List.find]. unfold from_option. cbn.
    destruct (due_entry s now (fresh s now)) as [e sent]. cbn [fst snd] in *.
    rewrite find_cons, bool_decide_true; [done|by rewrite Hk].
  - rewrite find_cons. case_bool_decide as Hk.
    + rewrite bool_decide_true by congruence. cbn.
      pose proof (due_entry_key s now e) as He. destruct (due_entry s now e) as [e' sent]. cbn [fst snd] in *.
      rewrite find_cons, bool_decide_true by congruence. done.
    + rewrite bool_decide_false by congruence. destruct (due_stream s now r) as [r' sent]. cbn [fst snd] in *.
      rewrite find_cons, bool_decide_false by congruence. done.
Qed.

Lemma find_filter (f : Entry -> bool) r :
  (forall e, e.(en_key) = K -> f e = true) -> find (List.filter f r) K = find r K.
Proof.
  intros Hf. induction r as [|e r IH]; [done|]. cbn [List.filter].
  destruct (f e) eqn:E; rewrite !find_cons; [by rewrite IH|].
  case_bool_decide as Hk; [|done]. apply Hf in Hk. congruence.
Qed.

Lemma find_map (f : Entry -> Entry) r :
  (forall e, (f e).(en_key) = e.(en_key)) -> find (map f r) K = f <$> find r K.
Proof.
  intros Hf. induction r as [|e r IH]; [done|]. cbn [map]. rewrite !find_cons, Hf, IH. by case_bool_decide.
Qed.

(** The requests for [K] among those of a call. *)
Definition own (out : list StreamKey) : list StreamKey := filter (fun k => k = K) out.

Definition due_loop (now : Z) (latched : list LatchStream) (acc : LatchRecovery * list StreamKey) :=
  fold_left (fun '(r, out) s =>
    let '(r, sent) := due_stream s now r in (r, if (sent : bool) then out ++ [s.(lt_key)] else out)) latched acc.

Lemma due_loop_cons now s latched r out :
  due_loop now (s :: latched) (r, out) =
  due_loop now latched ((due_stream s now r).1, if (due_stream s now r).2 then out ++ [s.(lt_key)] else out).
Proof. unfold due_loop. cbn. by destruct (due_stream s now r). Qed.

Lemma due_loop_other now latched : forall r out,
  K ∉ map lt_key latched ->
  find (due_loop now latched (r, out)).1 K = find r K /\ own (due_loop now latched (r, out)).2 = own out.
Proof.
  induction latched as [|s latched IH]; intros r out Hk; [done|].
  rewrite due_loop_cons. cbn [map] in Hk. apply not_elem_of_cons in Hk as [Hne Hk].
  destruct (IH (due_stream s now r).1 (if (due_stream s now r).2 then out ++ [s.(lt_key)] else out) Hk) as [-> ->].
  split; [by apply due_stream_other|]. unfold own. destruct (due_stream s now r).2; [|done].
  rewrite filter_app, filter_cons_False, filter_nil, app_nil_r by done. done.
Qed.

(** A [due] call serves a latched stream exactly once. *)
Lemma due_own s now latched r :
  NoDup (map lt_key latched) -> s ∈ latched -> s.(lt_key) = K ->
  let e' := due_entry s now (default (fresh s now) (find r K)) in
  find (due r latched now).1 K = Some e'.1 /\ own (due r latched now).2 = if e'.2 then [K] else [].
Proof.
  intros Hnd (l1 & l2 & ->)%list_elem_of_split Hs. rewrite map_app in Hnd. cbn [map] in Hnd.
  apply NoDup_app in Hnd as (_ & Hd & [Hn2 _]%NoDup_cons).
  assert (Hn1 : K ∉ map lt_key l1) by (intros Hin; apply (Hd K Hin); rewrite Hs; set_solver).
  rewrite Hs in Hn2. unfold due.
  set (f := fun e : Entry => existsb (fun s0 => bool_decide (lt_key s0 = en_key e)) (l1 ++ s :: l2)).
  assert (Hf : find (List.filter f r) K = find r K).
  { apply find_filter. intros e He. unfold f. apply existsb_exists. exists s. split; [apply in_elt|].
    apply bool_decide_eq_true. congruence. }
  change (fold_left _ _ _) with (due_loop now (l1 ++ s :: l2) (List.filter f r, [])).
  assert (Happ : due_loop now (l1 ++ s :: l2) (List.filter f r, []) =
    due_loop now (s :: l2) (due_loop now l1 (List.filter f r, []))) by apply fold_left_app.
  rewrite Happ. destruct (due_loop_other now l1 (List.filter f r) [] Hn1) as [Hr1 Ho1].
  destruct (due_loop now l1 _) as [r1 out1]. cbn [fst snd] in *. rewrite due_loop_cons.
  destruct (due_stream_own s now r1 Hs) as [Hfind Hsent].
  destruct (due_loop_other now l2 (due_stream s now r1).1 (if (due_stream s now r1).2 then out1 ++ [s.(lt_key)] else out1) Hn2)
    as [-> ->].
  rewrite Hr1, Hf in Hfind, Hsent. rewrite Hfind. split; [done|].
  rewrite Hsent. destruct (due_entry s now _).2; [|done]. unfold own in *.
  rewrite filter_app, Ho1, filter_cons_True by done. by rewrite Hs.
Qed.

(** ** Runs *)

(** A call on the schedule; [Due] with the streams latched at the time. *)
Inductive RecoveryOp : Type :=
| Due (latched : list LatchStream) (now_ms : Z)
| NoteIrap (local_stream_id : Z)
| NoteDamage (local_stream_id now_ms : Z).

(** The schedule after a run, and when a request for [K] was sent. *)
Definition recovery_step (st : LatchRecovery * list Z) (o : RecoveryOp) : LatchRecovery * list Z :=
  let '(r, times) := st in
  match o with
  | Due latched now => let '(r, out) := due r latched now in (r, times ++ map (fun _ => now) (own out))
  | NoteIrap id => (note_irap r id, times)
  | NoteDamage id now => (note_damage r id now, times)
  end.
Definition recovery_run (ops : list RecoveryOp) : LatchRecovery * list Z :=
  fold_left recovery_step ops (LatchRecovery_init, []).

Definition time_of (o : RecoveryOp) : option Z :=
  match o with Due _ now | NoteDamage _ now => Some now | NoteIrap _ => None end.

(** [K] stays latched as the local stream [lid] and no IRAP is seen on it. *)
Definition unanswered (lid : Z) (o : RecoveryOp) : Prop :=
  match o with
  | Due latched _ => NoDup (map lt_key latched) /\ MkLatchStream K lid ∈ latched
  | NoteIrap id => id <> lid
  | NoteDamage _ _ => True
  end.

#[export] Instance unanswered_dec lid o : Decision (unanswered lid o).
Proof. destruct o; cbn; apply _. Defined.

(** The clock does not go back, and stays clear of its end. *)
Fixpoint clock_ok (t : Z) (ops : list RecoveryOp) : Prop :=
  match ops with
  | [] => True
  | o :: ops => match time_of o with
    | Some now => t <= now /\ 0 <= now < 2 ^ 63 /\ clock_ok now ops
    | None => clock_ok t ops
    end
  end.

(** Requests at least a period apart, and any six of them at least the backoff. *)
Definition spaced (times : list Z) : Prop :=
  forall i j t t', times !! i = Some t -> times !! j = Some t' -> (i < j)%nat ->
  t + kPeriodMs <= t' /\ (Z.of_nat i + kAttempts <= Z.of_nat j -> t + kRearmBackoffMs <= t').

(** ** The invariant of the entry *)
Record entry_inv (lid clock : Z) (times : list Z) (e : Entry) : Prop := {
  ei_local : e.(en_local_stream_id) = lid;
  ei_open : e.(en_done) = false /\ e.(en_answered) = false;
  ei_attempts : 0 <= e.(en_attempts) <= kAttempts /\ e.(en_attempts) <= len times;
  ei_spaced : spaced times;
  ei_next : forall t, t ∈ times -> t + kPeriodMs <= e.(en_next_ms) /\ t <= clock;
  ei_round : forall i t, times !! i = Some t -> Z.of_nat i + e.(en_attempts) < len times -> t + kRearmBackoffMs <= e.(en_next_ms);
  ei_rearm : e.(en_attempts) = kAttempts -> forall t, t ∈ times -> t + kRearmBackoffMs <= e.(en_rearm_not_before_ms)
}.

Lemma entry_inv_clock lid clock clock' times e :
  clock <= clock' -> entry_inv lid clock times e -> entry_inv lid clock' times e.
Proof. intros Hc [? ? ? ? Hn ? ?]. split; try done. intros t Ht. destruct (Hn t Ht). lia. Qed.

Lemma spaced_snoc times now (n : Z) :
  spaced times -> n < kAttempts ->
  (forall t, t ∈ times -> t + kPeriodMs <= now) ->
  (forall i t, times !! i = Some t -> Z.of_nat i + n < len times -> t + kRearmBackoffMs <= now) ->
  spaced (times ++ [now]).
Proof.
  intros Hs Hn Hp Hr i j t t' Hi Hj Hij.
  apply lookup_snoc_Some in Hj as [[Hlt Hj]|[-> <-]];
    apply lookup_snoc_Some in Hi as [[Hli Hi]|[-> <-]]; try lia; [by eapply Hs|].
  split; [by eapply Hp, list_elem_of_lookup_2|]. intros Hk. apply (Hr i t Hi). lia.
Qed.

Lemma due_entry_inv lid clock now times s e :
  s.(lt_local_stream_id) = lid -> clock <= now -> 0 <= now < 2 ^ 63 -> entry_inv lid clock times e ->
  entry_inv lid now (times ++ (if (due_entry s now e).2 then [now] else [])) (due_entry s now e).1.
Proof.
  intros Hs Hck Hnow [Hl [Hd Ha] [Hn Hlen] Hsp Hnx Hro Hre]. unfold due_entry.
  cbn [en_key en_local_stream_id en_attempts en_next_ms en_done en_answered en_rearm_not_before_ms].
  rewrite Hd, Z.geb_leb. cbn [orb].
  destruct (Z.leb_spec kAttempts (en_attempts e)) as [H5|H5]; cbn [orb].
  { rewrite app_nil_r. split; cbn; try done. intros t Ht. destruct (Hnx t Ht). lia. }
  destruct (Z.ltb_spec now (en_next_ms e));
    cbn [fst snd en_key en_local_stream_id en_attempts en_next_ms en_done en_answered en_rearm_not_before_ms].
  { rewrite app_nil_r. split; cbn; try done. intros t Ht. destruct (Hnx t Ht). lia. }
  unfold kAttempts, kPeriodMs, kRearmBackoffMs in *.
  rewrite to_u8_id by (unfold u8; lia). rewrite !to_u64_id by (unfold u64; lia).
  assert (Hp : forall t, t ∈ times -> t + kPeriodMs <= now) by (intros t [? ?]%Hnx; unfold kPeriodMs; lia).
  assert (Hr : forall i t, times !! i = Some t -> Z.of_nat i + en_attempts e < len times -> t + kRearmBackoffMs <= now).
  { intros i t Hi Hlt. specialize (Hro i t Hi Hlt). unfold kRearmBackoffMs. lia. }
  split; cbn [en_local_stream_id en_done en_answered en_attempts en_next_ms en_rearm_not_before_ms];
    try done; rewrite ?length_app; unfold kAttempts, kPeriodMs, kRearmBackoffMs in *; cbn [length]; try lia.
  - by apply (spaced_snoc times now (en_attempts e)).
  - intros t [Ht| ->%list_elem_of_singleton]%elem_of_app; [specialize (Hp t Ht); destruct (Hnx t Ht)|]; lia.
  - intros i t Hi Hlt. apply lookup_snoc_Some in Hi as [[Hli Hi]|[-> <-]]; [|lia].
    specialize (Hr i t Hi). lia.
  - intros H5' t Ht. rewrite H5'. cbn. apply elem_of_app in Ht as [Ht| ->%list_elem_of_singleton]; [|lia].
    specialize (Hp t Ht). lia.
Qed.

Lemma fresh_inv lid s now : s.(lt_local_stream_id) = lid -> entry_inv lid now [] (fresh s now).
Proof.
  intros Hs. split; cbn; try done; try (by intros t Ht%not_elem_of_nil).
Qed.

(** The damage call on one entry. *)
Definition damaged (id now : Z) (e : Entry) : Entry :=
  if negb (e.(en_local_stream_id) =? id) then e else
  if negb e.(en_done) && (e.(en_attempts) <? kAttempts) then e else
  if negb e.(en_answered) && (now <? e.(en_rearm_not_before_ms)) then e else
  MkEntry e.(en_key) e.(en_local_stream_id) 0 now false false e.(en_rearm_not_before_ms).

Lemma damaged_key id now e : (damaged id now e).(en_key) = e.(en_key).
Proof. unfold damaged. by repeat case_match. Qed.

Lemma damaged_inv lid clock id now times e :
  clock <= now -> entry_inv lid clock times e -> entry_inv lid now times (damaged id now e).
Proof.
  intros Hc Hi. pose proof (entry_inv_clock lid clock now times e Hc Hi) as Hi'.
  unfold damaged. destruct (negb _); [done|]. destruct Hi as [Hl [Hd Ha] [Hn Hlen] Hsp Hnx Hro Hre].
  rewrite Hd, Ha. cbn [negb andb]. destruct (Z.ltb_spec (en_attempts e) kAttempts); [done|].
  destruct (Z.ltb_spec now (en_rearm_not_before_ms e)); [done|].
  assert (H5 : en_attempts e = kAttempts) by lia.
  split; cbn; try done; unfold kAttempts, kPeriodMs, kRearmBackoffMs in *; try lia.
  - intros t Ht. specialize (Hre H5 t Ht). destruct (Hnx t Ht). lia.
  - intros i t Hi _. specialize (Hre H5 t ltac:(by eapply list_elem_of_lookup_2)). lia.
Qed.

(** ** The invariant of the schedule *)
Definition recovery_inv (lid clock : Z) (st : LatchRecovery * list Z) : Prop :=
  match find st.1 K with Some e => entry_inv lid clock st.2 e | None => st.2 = [] end.

Lemma recovery_step_inv lid clock clock' st o :
  unanswered lid o -> match time_of o with Some now => (clock <= now /\ 0 <= now < 2 ^ 63) /\ clock' = now | None => clock' = clock end ->
  recovery_inv lid clock st -> recovery_inv lid clock' (recovery_step st o).
Proof.
  destruct st as [r times]. intros Ho Ht Hi. unfold recovery_inv in *. cbn [fst snd] in *. destruct o as [latched now|id|id now].
  - destruct Ho as [Hnd Hin]. destruct Ht as [[Hck Hnow] ->]. cbn [recovery_step].
    destruct (due_own (MkLatchStream K lid) now latched r Hnd Hin eq_refl) as [Hf Hout].
    destruct (due r latched now) as [r' out]. cbn [fst snd] in *. rewrite Hf, Hout.
    set (e0 := default _ _) in *.
    assert (H0 : entry_inv lid now times e0).
    { subst e0. destruct (find r K) as [e|]; cbn [default]; [by apply (entry_inv_clock lid clock); [lia|]|].
      rewrite Hi. by apply fresh_inv. }
    pose proof (due_entry_inv lid now now times (MkLatchStream K lid) e0 eq_refl (Z.le_refl now) Hnow H0) as H1.
    by destruct (due_entry _ now e0).2.
  - cbn in Ht. subst clock'. cbn [recovery_step fst snd]. unfold note_irap.
    rewrite find_map by (intros x; by destruct (en_local_stream_id x =? id)). destruct (find r K) as [e|]; cbn; [|done].
    destruct (Z.eqb_spec (en_local_stream_id e) id) as [E|]; [|done].
    destruct Hi as [Hl _ _ _ _ _ _]. cbn in Ho. congruence.
  - destruct Ht as [Hnow ->]. cbn [recovery_step fst snd]. change (note_damage r id now) with (map (damaged id now) r).
    rewrite find_map by apply damaged_key. destruct (find r K) as [e|]; cbn; [|done].
    apply (damaged_inv lid clock id now); [lia|done].
Qed.

Lemma recovery_run_inv lid ops : forall clock st,
  Forall (unanswered lid) ops -> clock_ok clock ops -> recovery_inv lid clock st ->
  exists clock', recovery_inv lid clock' (fold_left recovery_step ops st).
Proof.
  induction ops as [|o ops IH]; intros clock st Hu Hc Hi; [by exists clock|].
  apply Forall_cons in Hu as [Ho Hu]. cbn [clock_ok fold_left] in *.
  destruct (time_of o) as [now|] eqn:Et.
  - destruct Hc as (Hn & Hn' & Hc). apply (IH now _ Hu Hc). apply (recovery_step_inv lid clock); [done| |done]. by rewrite Et.
  - apply (IH clock _ Hu Hc). apply (recovery_step_inv lid clock); [done| |done]. by rewrite Et.
Qed.
End OneKey.

(** ** Property *)

(** C38. The requests of a latched stream are bounded whatever the other streams
    do: while no IRAP is seen on it, over any sequence of ticks and damage
    reports its requests are at least a period (1 s) apart and any six of them
    span at least the re-arm backoff (10 s); so a craft that never answers is
    asked at most five times per backoff. *)
Theorem recovery_bounded K lid ops t0 :
  Forall (unanswered K lid) ops -> clock_ok t0 ops -> spaced (recovery_run K ops).2.
Proof.
  intros Hu Hc. destruct (recovery_run_inv K lid ops t0 (LatchRecovery_init, []) Hu Hc) as [clock Hi]; [done|].
  unfold recovery_inv, recovery_run in *. destruct (find _ K) as [e|]; [by destruct Hi|].
  rewrite Hi. by intros i j t t' Ht.
Qed.

Definition demo_key : StreamKey := MkStreamKey 7 99 1.
Definition demo_recovery_ops : list RecoveryOp :=
  map (fun t => Due [MkLatchStream (MkStreamKey 8 1 2) 4; MkLatchStream demo_key 3] t) [0; 500; 1000; 2000; 3000; 4000; 5000; 6000] ++
  [NoteIrap 4; NoteDamage 3 9000; Due [MkLatchStream demo_key 3] 9001; NoteDamage 3 14000; Due [MkLatchStream demo_key 3] 14001].

Example demo_recovery : (recovery_run demo_key demo_recovery_ops).2 = [0; 1000; 2000; 3000; 4000; 14001].
Proof. vm_compute. reflexivity. Qed.

Lemma recovery_bounded_witness : spaced (recovery_run demo_key demo_recovery_ops).2.
Proof.
  apply (recovery_bounded demo_key 3 demo_recovery_ops 0).
  - refine (bool_decide_unpack _ _). vm_compute. exact I.
  - cbn. lia.
Defined.
