(* ===== verification/CacheController.v ===== *)
(** * The aggregator's cache controller ([core/include/wblink/cache_controller.h],
    [core/src/cache_controller.cpp])

    Closes incomplete blocks, asks caches for the missing symbols within a
    budget, and validates every reply against the request it answers. *)
From stdpp Require Import sorting.
From S2P Require Import Prelude Endian Types Wire SMap JsccLoss FrameReassembler.

Record CacheControllerConfig : Type := MkCacheControllerConfig {
  kc_self_originator : Z;
  kc_self_session : Z;
  kc_caches : list Z;
  kc_tail_grace_ms : Z;
  kc_local_quiet_ms : Z;
  kc_min_collect_ms : Z;
  kc_hard_close_ms : Z;
  kc_request_timeout_ms : Z;
  kc_repair_fraction_permille : Z;
  kc_absolute_symbol_limit : Z;
  kc_max_cache_attempts : Z;
  kc_reply_limit : Z;
  kc_health_floor_permille : Z;
  kc_status_timeout_ms : Z
}.
Definition CacheControllerConfig_init : CacheControllerConfig :=
  MkCacheControllerConfig 0 0 [] 1 2 4 8 4 200 8 2 4 800 1500.

Record CacheTimingStats : Type := MkCacheTimingStats { tg_samples : Z; tg_p95_us : Z; tg_max_us : Z }.
Definition CacheTimingStats_init : CacheTimingStats := MkCacheTimingStats 0 0 0.

Record CacheRepairStats : Type := MkCacheRepairStats {
  kr_requests : Z;
  kr_replies : Z;
  kr_symbols_accepted : Z;
  kr_symbols_rejected : Z;
  kr_blocks_closed_deficit : Z;
  kr_blocks_repaired : Z;
  kr_blocks_futile : Z;
  kr_requests_suppressed : Z;
  kr_caches_fresh : Z;
  kr_request_to_first_reply : CacheTimingStats;
  kr_request_to_completion : CacheTimingStats
}.
Definition CacheRepairStats_init : CacheRepairStats :=
  MkCacheRepairStats 0 0 0 0 0 0 0 0 0 CacheTimingStats_init CacheTimingStats_init.

(** The counters the operations bump: requests, replies, accepted, rejected,
    closed, repaired, futile, suppressed. *)
Inductive Count : Type :=
| cRequests | cReplies | cAccepted | cRejected | cClosed | cRepaired | cFutile | cSuppressed.
Definition bump (n : Count) (s : CacheRepairStats) : CacheRepairStats :=
  let at_ n' z := match n, n' with
    | cRequests, cRequests | cReplies, cReplies | cAccepted, cAccepted | cRejected, cRejected
    | cClosed, cClosed | cRepaired, cRepaired | cFutile, cFutile | cSuppressed, cSuppressed => to_u64 (z + 1)
    | _, _ => z
    end in
  MkCacheRepairStats (at_ cRequests s.(kr_requests)) (at_ cReplies s.(kr_replies))
    (at_ cAccepted s.(kr_symbols_accepted)) (at_ cRejected s.(kr_symbols_rejected))
    (at_ cClosed s.(kr_blocks_closed_deficit)) (at_ cRepaired s.(kr_blocks_repaired))
    (at_ cFutile s.(kr_blocks_futile)) (at_ cSuppressed s.(kr_requests_suppressed))
    s.(kr_caches_fresh) s.(kr_request_to_first_reply) s.(kr_request_to_completion).
Definition set_fresh (s : CacheRepairStats) (n : Z) : CacheRepairStats :=
  MkCacheRepairStats s.(kr_requests) s.(kr_replies) s.(kr_symbols_accepted) s.(kr_symbols_rejected)
    s.(kr_blocks_closed_deficit) s.(kr_blocks_repaired) s.(kr_blocks_futile) s.(kr_requests_suppressed)
    n s.(kr_request_to_first_reply) s.(kr_request_to_completion).

Record CacheRequestOut : Type := MkCacheRequestOut {
  ro_cache_originator : Z;
  ro_request_id : Z;
  ro_block_id : Z;
  ro_frame : list Z
}.

Record Registry : Type := MkRegistry { rg_status : CacheStatus; rg_last_seen_ms : Z }.

Record Outstanding : Type := MkOutstanding {
  os_cache_originator : Z;
  os_block_id : Z;
  os_issued_ms : Z;
  os_sent_us : option Z;
  os_first_reply_seen : bool;
  os_allowance : Z;
  os_accepted : Z;
  os_k : Z;
  os_missing_sources : list Z;
  os_have_repairs : list Z
}.

Record BlockState : Type := MkBlockState {
  bs_closed : bool;
  bs_futile : bool;
  bs_suppressed : bool;
  bs_attempts : Z;
  bs_budget_used : Z;
  bs_last_request_ms : Z;
  bs_first_request_us : option Z;
  bs_tried : list Z
}.
Definition BlockState_init : BlockState := MkBlockState false false false 0 0 0 None [].

(** ** Timing series *)
Record TimingSeries : Type := MkTimingSeries { ts_samples : Z; ts_max_us : Z; ts_recent : list Z }.
Definition TimingSeries_init : TimingSeries := MkTimingSeries 0 0 [].
Definition kTimingWindow : Z := 512.
Definition kOutstandingPruneMs : Z := 1000.

Definition timing_observe (t : TimingSeries) (delta_us : Z) : TimingSeries :=
  let sample := to_u32 (Z.min delta_us 0xFFFFFFFF) in
  let recent := t.(ts_recent) ++ [sample] in
  MkTimingSeries (to_u64 (t.(ts_samples) + 1)) (Z.max t.(ts_max_us) sample)
    (if len recent >? kTimingWindow then tail recent else recent).

Definition timing_snapshot (t : TimingSeries) : option CacheTimingStats :=
  match t.(ts_recent) with
  | [] => Some (MkCacheTimingStats t.(ts_samples) 0 t.(ts_max_us))
  | _ =>
    let sorted := merge_sort Z.le t.(ts_recent) in
    let rank := (len sorted * 95 + 99) / 100 in
    p95 ← sorted !! Z.to_nat (rank - 1);
    Some (MkCacheTimingStats t.(ts_samples) p95 t.(ts_max_us))
  end.

Record CacheController : Type := MkCacheController {
  ct_cfg : CacheControllerConfig;
  ct_stats : CacheRepairStats;
  ct_registry : smap (list Registry);
  ct_blocks : smap BlockState;
  ct_outstanding : smap Outstanding;
  ct_first_reply_timing : TimingSeries;
  ct_completion_timing : TimingSeries;
  ct_next_request_id : Z
}.
Definition CacheController_init (cfg : CacheControllerConfig) : CacheController :=
  MkCacheController cfg CacheRepairStats_init [] [] [] TimingSeries_init TimingSeries_init 1.

(** Field updates. *)
Definition put_stats (c : CacheController) (x : CacheRepairStats) : CacheController :=
  MkCacheController c.(ct_cfg) x c.(ct_registry) c.(ct_blocks) c.(ct_outstanding)
    c.(ct_first_reply_timing) c.(ct_completion_timing) c.(ct_next_request_id).
Definition put_registry (c : CacheController) (x : smap (list Registry)) : CacheController :=
  MkCacheController c.(ct_cfg) c.(ct_stats) x c.(ct_blocks) c.(ct_outstanding)
    c.(ct_first_reply_timing) c.(ct_completion_timing) c.(ct_next_request_id).
Definition put_blocks (c : CacheController) (x : smap BlockState) : CacheController :=
  MkCacheController c.(ct_cfg) c.(ct_stats) c.(ct_registry) x c.(ct_outstanding)
    c.(ct_first_reply_timing) c.(ct_completion_timing) c.(ct_next_request_id).
Definition put_outstanding (c : CacheController) (x : smap Outstanding) : CacheController :=
  MkCacheController c.(ct_cfg) c.(ct_stats) c.(ct_registry) c.(ct_blocks) x
    c.(ct_first_reply_timing) c.(ct_completion_timing) c.(ct_next_request_id).
Definition put_timing (c : CacheController) (first_reply completion : TimingSeries) : CacheController :=
  MkCacheController c.(ct_cfg) c.(ct_stats) c.(ct_registry) c.(ct_blocks) c.(ct_outstanding)
    first_reply completion c.(ct_next_request_id).
Definition put_next_id (c : CacheController) (x : Z) : CacheController :=
  MkCacheController c.(ct_cfg) c.(ct_stats) c.(ct_registry) c.(ct_blocks) c.(ct_outstanding)
    c.(ct_first_reply_timing) c.(ct_completion_timing) x.

(** ** Status and eligibility *)

(** The entry of the status's stream, replaced or appended. *)
Fixpoint place_status (st : CacheStatus) (now_ms : Z) (entries : list Registry) : list Registry :=
  match entries with
  | [] => [MkRegistry st now_ms]
  | r :: entries =>
    if (r.(rg_status).(cs_target_originator) =? st.(cs_target_originator))
       && (r.(rg_status).(cs_target_stream_id) =? st.(cs_target_stream_id))
    then MkRegistry st now_ms :: entries else r :: place_status st now_ms entries
  end.

Definition on_status (c : CacheController) (st : CacheStatus) (now_ms : Z) : CacheController :=
  let orig := st.(cs_prefix).(originator) in
  if negb (existsb (fun o => o =? orig) c.(ct_cfg).(kc_caches)) then c else
  put_registry c (sm_assign orig (place_status st now_ms (default [] (sm_find orig c.(ct_registry)))) c.(ct_registry)).

Definition has_fresh_target (c : CacheController) (cache_originator target_originator now_ms : Z) : bool :=
  match sm_find cache_originator c.(ct_registry) with
  | None => false
  | Some entries => existsb (fun r => (r.(rg_status).(cs_target_originator) =? target_originator)
      && (to_u64 (now_ms - r.(rg_last_seen_ms)) <=? c.(ct_cfg).(kc_status_timeout_ms))) entries
  end.

(** The status is of the stream [target]. *)
Definition of_target (s : CacheStatus) (target : StreamKey) : bool :=
  (s.(cs_target_originator) =? target.(sk_originator)) && (s.(cs_target_session) =? target.(sk_session_id))
  && (s.(cs_target_stream_id) =? target.(sk_stream_id)).

Definition eligible (cfg : CacheControllerConfig) (r : Registry) (target : StreamKey) (block_id now_ms : Z) : bool :=
  if to_u64 (now_ms - r.(rg_last_seen_ms)) >? cfg.(kc_status_timeout_ms) then false else
  if negb (of_target r.(rg_status) target) then false else
  if r.(rg_status).(cs_rx_health_permille) <? cfg.(kc_health_floor_permille) then false else
  bid_diff block_id r.(rg_status).(cs_oldest_block) >=? 0.

Definition close_due (cfg : CacheControllerConfig) (c : RepairCandidate) (now_ms : Z) : bool :=
  if c.(rc_have_eob) && (now_ms >=? to_u64 (c.(rc_eob_ms) + cfg.(kc_tail_grace_ms))) then true else
  let quiet := Z.max (to_u64 (c.(rc_first_ms) + cfg.(kc_min_collect_ms)))
                 (to_u64 (c.(rc_last_new_ms) + cfg.(kc_local_quiet_ms))) in
  if now_ms >=? quiet then true else
  now_ms >=? to_u64 (c.(rc_first_ms) + cfg.(kc_hard_close_ms)).

(** ** [tick] *)

(** The best eligible cache not yet tried: health, then freshness, then the
    configured order. *)
Definition rank_cache (c : CacheController) (target : StreamKey) (block_id now_ms : Z) (tried : list Z)
    (best : option (Registry * Z)) (orig : Z) : option (Registry * Z) :=
  if existsb (fun t => t =? orig) tried then best else
  match sm_find orig c.(ct_registry) with
  | None => best
  | Some entries =>
    match List.find (fun r => eligible c.(ct_cfg) r target block_id now_ms) entries with
    | None => best
    | Some r =>
      match best with
      | None => Some (r, orig)
      | Some (b, _) =>
        if (r.(rg_status).(cs_rx_health_permille) >? b.(rg_status).(cs_rx_health_permille))
           || ((r.(rg_status).(cs_rx_health_permille) =? b.(rg_status).(cs_rx_health_permille))
               && (r.(rg_last_seen_ms) >? b.(rg_last_seen_ms)))
        then Some (r, orig) else best
      end
    end
  end.
Definition best_cache (c : CacheController) (target : StreamKey) (block_id now_ms : Z) (tried : list Z)
  : option (Registry * Z) :=
  fold_left (rank_cache c target block_id now_ms tried) c.(ct_cfg).(kc_caches) None.

(** Symbols a block of [k] may ask for. *)
Definition symbol_cap (cfg : CacheControllerConfig) (k : Z) : Z :=
  Z.min (to_u16 (to_u32 (k * cfg.(kc_repair_fraction_permille) + 999) / 1000)) cfg.(kc_absolute_symbol_limit).

(** [repair_have] trimmed to its last non-zero byte. *)
Fixpoint trim_len (have : list Z) (n : nat) : option Z :=
  match n with
  | O => Some 0
  | S n' => b ← rd8 have n'; if b =? 0 then trim_len have n' else Some (Z.of_nat n)
  end.

Definition request_header (c : CacheController) (target : StreamKey) (cand : RepairCandidate) (orig allowance : Z)
  : CacheRequestHeader :=
  MkCacheRequestHeader (MkCommonPrefix c.(ct_cfg).(kc_self_originator) orig c.(ct_cfg).(kc_self_session))
    target.(sk_originator) target.(sk_session_id) target.(sk_stream_id) orig c.(ct_next_request_id)
    cand.(rc_block_id) cand.(rc_k) allowance.

(** The request sent to [orig] for a candidate. *)
Definition issue (c : CacheController) (target : StreamKey) (cand : RepairCandidate) (st : BlockState)
    (orig allowance now_ms : Z) : option (CacheController * list CacheRequestOut) :=
  let hdr := request_header c target cand orig allowance in
  let c := put_blocks c (sm_assign cand.(rc_block_id) st c.(ct_blocks)) in
  let c := put_next_id c (to_u32 (c.(ct_next_request_id) + 1)) in
  rh_len ← trim_len cand.(rc_have_repairs) 32;
  let cap := kCacheRequestFixedSize + 32 + 32 in
  '(sz, frame) ← encode_cache_request hdr (Some cand.(rc_missing_sources))
      (if rh_len >? 0 then Some cand.(rc_have_repairs) else None) rh_len
      (Some (replicate (Z.to_nat cap) 0)) cap;
  if (sz : Z) =? 0 then Some (c, []) else
  frame ← frame;
  let o := MkOutstanding orig cand.(rc_block_id) now_ms None false allowance 0 cand.(rc_k)
             cand.(rc_missing_sources) cand.(rc_have_repairs) in
  let st := MkBlockState st.(bs_closed) st.(bs_futile) st.(bs_suppressed) (to_u8 (st.(bs_attempts) + 1))
              (to_u8 (st.(bs_budget_used) + allowance)) now_ms st.(bs_first_request_us) (st.(bs_tried) ++ [orig]) in
  let c := put_outstanding c (sm_emplace hdr.(cr_request_id) o c.(ct_outstanding)).1 in
  let c := put_blocks c (sm_assign cand.(rc_block_id) st c.(ct_blocks)) in
  Some (put_stats c (bump cRequests c.(ct_stats)),
        [MkCacheRequestOut orig hdr.(cr_request_id) cand.(rc_block_id) (take (Z.to_nat sz) frame)]).

Definition set_closed (st : BlockState) : BlockState :=
  MkBlockState true st.(bs_futile) st.(bs_suppressed) st.(bs_attempts) st.(bs_budget_used) st.(bs_last_request_ms)
    st.(bs_first_request_us) st.(bs_tried).
Definition set_futile (st : BlockState) : BlockState :=
  MkBlockState st.(bs_closed) true st.(bs_suppressed) st.(bs_attempts) st.(bs_budget_used) st.(bs_last_request_ms)
    st.(bs_first_request_us) st.(bs_tried).
Definition set_suppressed (st : BlockState) (x : bool) : BlockState :=
  MkBlockState st.(bs_closed) st.(bs_futile) x st.(bs_attempts) st.(bs_budget_used) st.(bs_last_request_ms)
    st.(bs_first_request_us) st.(bs_tried).

(** A candidate of a tick. *)
Definition tick_candidate (c : CacheController) (now_ms : Z) (target : StreamKey) (cand : RepairCandidate)
  : option (CacheController * list CacheRequestOut) :=
  let id := cand.(rc_block_id) in
  if (cand.(rc_k) =? 0) || (cand.(rc_unique) >=? cand.(rc_k)) then Some (c, []) else
  let st := default BlockState_init (sm_find id c.(ct_blocks)) in
  let keep c st : option (CacheController * list CacheRequestOut) :=
    Some (put_blocks c (sm_assign id st c.(ct_blocks)), []) in
  if st.(bs_futile) then keep c st else
  if negb st.(bs_closed) && negb (close_due c.(ct_cfg) cand now_ms) then keep c st else
  let c := if st.(bs_closed) then c else put_stats c (bump cClosed c.(ct_stats)) in
  let st := set_closed st in
  let deficit := to_u16 (cand.(rc_k) - cand.(rc_unique)) in
  let cap := symbol_cap c.(ct_cfg) cand.(rc_k) in
  if (st.(bs_attempts) =? 0) && (deficit >? cap)
  then keep (put_stats c (bump cFutile c.(ct_stats))) (set_futile st) else
  if st.(bs_attempts) >=? c.(ct_cfg).(kc_max_cache_attempts) then keep c st else
  if (st.(bs_attempts) >? 0) && (to_u64 (now_ms - st.(bs_last_request_ms)) <? c.(ct_cfg).(kc_request_timeout_ms))
  then keep c st else
  let remaining := if cap >? st.(bs_budget_used) then to_u16 (cap - st.(bs_budget_used)) else 0 in
  if remaining =? 0 then keep c st else
  match best_cache c target id now_ms st.(bs_tried) with
  | None =>
    if st.(bs_suppressed) then keep c st
    else keep (put_stats c (bump cSuppressed c.(ct_stats))) (set_suppressed st true)
  | Some (_, orig) =>
    issue c target cand (set_suppressed st false) orig
      (to_u8 (Z.min c.(ct_cfg).(kc_reply_limit) (Z.min deficit remaining))) now_ms
  end.

Fixpoint tick_candidates (c : CacheController) (now_ms : Z) (target : StreamKey) (cands : list RepairCandidate)
  : option (CacheController * list CacheRequestOut) :=
  match cands with
  | [] => Some (c, [])
  | cand :: cands =>
    '(c, out) ← tick_candidate c now_ms target cand;
    '(c, more) ← tick_candidates c now_ms target cands;
    Some (c, out ++ more)
  end.

Definition prune (c : CacheController) (now_ms : Z) (cands : list RepairCandidate) : CacheController :=
  put_outstanding
    (put_blocks c (List.filter (fun kv => existsb (fun cand => cand.(rc_block_id) =? kv.1) cands) c.(ct_blocks)))
    (List.filter (fun kv => negb (to_u64 (now_ms - kv.2.(os_issued_ms)) >? kOutstandingPruneMs)) c.(ct_outstanding)).

Definition count_fresh (c : CacheController) (now_ms : Z) (target : StreamKey) : Z :=
  fold_left (fun n orig =>
    match sm_find orig c.(ct_registry) with
    | None => n
    | Some entries =>
      if existsb (fun r => of_target r.(rg_status) target
           && (to_u64 (now_ms - r.(rg_last_seen_ms)) <=? c.(ct_cfg).(kc_status_timeout_ms))) entries
      then to_u32 (n + 1) else n
    end) c.(ct_cfg).(kc_caches) 0.

Definition tick (c : CacheController) (now_ms : Z) (target : StreamKey) (cands : list RepairCandidate)
  : option (CacheController * list CacheRequestOut) :=
  let c := prune c now_ms cands in
  tick_candidates (put_stats c (set_fresh c.(ct_stats) (count_fresh c now_ms target))) now_ms target cands.

(** ** Requests sent, replies, completion *)
Definition set_sent (o : Outstanding) (t : option Z) : Outstanding :=
  MkOutstanding o.(os_cache_originator) o.(os_block_id) o.(os_issued_ms) t o.(os_first_reply_seen) o.(os_allowance)
    o.(os_accepted) o.(os_k) o.(os_missing_sources) o.(os_have_repairs).
Definition set_first_request (st : BlockState) (t : option Z) : BlockState :=
  MkBlockState st.(bs_closed) st.(bs_futile) st.(bs_suppressed) st.(bs_attempts) st.(bs_budget_used)
    st.(bs_last_request_ms) t st.(bs_tried).

Definition note_request_sent (c : CacheController) (request_id now_us : Z) : CacheController :=
  match sm_find request_id c.(ct_outstanding) with
  | None => c
  | Some o =>
    let c := match o.(os_sent_us) with
      | Some _ => c
      | None => put_outstanding c (sm_assign request_id (set_sent o (Some now_us)) c.(ct_outstanding))
      end in
    match sm_find o.(os_block_id) c.(ct_blocks) with
    | Some st =>
      match st.(bs_first_request_us) with
      | None => put_blocks c (sm_assign o.(os_block_id) (set_first_request st (Some now_us)) c.(ct_blocks))
      | Some _ => c
      end
    | None => c
    end
  end.

Inductive ReplyVerdict : Type :=
| rvAccept | rvUnknownRequest | rvWrongCache | rvWrongBlock | rvNotRequested | rvOverAllowance | rvMalformed.

(** [bit_set] of a 32-byte bitmap. *)
Definition bitmap_has (bm : list Z) (i : Z) : option bool :=
  if i <? 256 then b ← rd8 bm (Z.to_nat (i / 8)); Some (negb (Z.land b (Z.shiftl 1 (i mod 8)) =? 0)) else Some false.

(** The symbol of a reply against the request: [None] if it was asked for. *)
Definition reply_symbol (o : Outstanding) (w : DataView) : option (option ReplyVerdict) :=
  if negb (Z.land w.(dv_hdr).(dh_data_flags) data_flags_kFecRepair =? 0) then
    if w.(dv_payload_len) <=? kFecRepairSubheaderSize then Some (Some rvMalformed) else
    p ← w.(dv_payload);
    k ← be16_read p kFecOffWindowLen;
    if negb (k =? o.(os_k)) then Some (Some rvMalformed) else
    idx ← rd8 p kFecOffRepairIdx;
    has ← bitmap_has o.(os_have_repairs) idx;
    Some (if (has : bool) then Some rvNotRequested else None)
  else
    if w.(dv_payload_len) <? kFecSourceSubheaderSize then Some (Some rvMalformed) else
    p ← w.(dv_payload);
    k ← be16_read p kFecSrcOffWindowLen;
    if negb (k =? o.(os_k)) then Some (Some rvMalformed) else
    idx ← be16_read p kFecSrcOffSymIndex;
    if idx >=? o.(os_k) then Some (Some rvNotRequested) else
    has ← bitmap_has o.(os_missing_sources) idx;
    Some (if (has : bool) then None else Some rvNotRequested).

Definition accept_one (o : Outstanding) : Outstanding :=
  MkOutstanding o.(os_cache_originator) o.(os_block_id) o.(os_issued_ms) o.(os_sent_us) true o.(os_allowance)
    (to_u8 (o.(os_accepted) + 1)) o.(os_k) o.(os_missing_sources) o.(os_have_repairs).

Definition on_reply (c : CacheController) (from_originator request_id : Z) (w : DataView) (now_us : Z)
  : option (ReplyVerdict * CacheController) :=
  let c := put_stats c (bump cReplies c.(ct_stats)) in
  let reject v := Some (v, put_stats c (bump cRejected c.(ct_stats))) in
  match sm_find request_id c.(ct_outstanding) with
  | None => reject rvUnknownRequest
  | Some o =>
    if negb (from_originator =? o.(os_cache_originator)) then reject rvWrongCache else
    if negb (w.(dv_hdr).(dh_block_id) =? o.(os_block_id)) then reject rvWrongBlock else
    verdict ← reply_symbol o w;
    match verdict with
    | Some v => reject v
    | None =>
      if o.(os_accepted) >=? o.(os_allowance) then reject rvOverAllowance else
      let c := put_outstanding c (sm_assign request_id (accept_one o) c.(ct_outstanding)) in
      let c := put_stats c (bump cAccepted c.(ct_stats)) in
      Some (rvAccept,
        match o.(os_first_reply_seen), o.(os_sent_us) with
        | false, Some sent =>
          if now_us >=? sent then put_timing c (timing_observe c.(ct_first_reply_timing) (to_u64 (now_us - sent))) c.(ct_completion_timing)
          else c
        | _, _ => c
        end)
    end
  end.

Definition note_completed (c : CacheController) (block_id now_us : Z) : CacheController :=
  let c := put_stats c (bump cRepaired c.(ct_stats)) in
  let c := match sm_find block_id c.(ct_blocks) with
    | Some st =>
      match st.(bs_first_request_us) with
      | Some t =>
        if now_us >=? t then put_timing c c.(ct_first_reply_timing) (timing_observe c.(ct_completion_timing) (to_u64 (now_us - t)))
        else c
      | None => c
      end
    | None => c
    end in
  put_outstanding (put_blocks c (sm_erase block_id c.(ct_blocks)))
    (List.filter (fun kv => negb (kv.2.(os_block_id) =? block_id)) c.(ct_outstanding)).

Definition stats (c : CacheController) : option CacheRepairStats :=
  let s := c.(ct_stats) in
  first ← timing_snapshot c.(ct_first_reply_timing);
  completion ← timing_snapshot c.(ct_completion_timing);
  Some (MkCacheRepairStats s.(kr_requests) s.(kr_replies) s.(kr_symbols_accepted) s.(kr_symbols_rejected)
    s.(kr_blocks_closed_deficit) s.(kr_blocks_repaired) s.(kr_blocks_futile) s.(kr_requests_suppressed)
    s.(kr_caches_fresh) first completion).

Definition forget_sent (o : Outstanding) : Outstanding :=
  MkOutstanding o.(os_cache_originator) o.(os_block_id) o.(os_issued_ms) None true o.(os_allowance) o.(os_accepted)
    o.(os_k) o.(os_missing_sources) o.(os_have_repairs).
Definition reset_stats (c : CacheController) : CacheController :=
  MkCacheController c.(ct_cfg) CacheRepairStats_init c.(ct_registry)
    (map (fun kv => (kv.1, set_first_request kv.2 None)) c.(ct_blocks))
    (map (fun kv => (kv.1, forget_sent kv.2)) c.(ct_outstanding))
    TimingSeries_init TimingSeries_init c.(ct_next_request_id).

Definition reset_link (c : CacheController) : CacheController :=
  put_stats (put_outstanding (put_blocks (put_registry c []) []) []) (set_fresh c.(ct_stats) 0).
