(* ===== verification/CacheControllerProps.v ===== *)
(** * Cache controller: bounded requests, and the repair exchange *)
From stdpp Require Import sorting.
From S2P Require Import Prelude Endian Types Wire WireLayout WireFacts WireProps SMap JsccLoss FrameReassembler CacheStore CacheStoreProps CacheController.
(** ** Well-formed inputs *)

(** A candidate as the reassembler snapshots it. *)
Record cand_ok (d : RepairCandidate) : Prop := {
  cd_block : u32 d.(rc_block_id);
  cd_k : 0 <= d.(rc_k) <= kFecMaxSymbols;
  cd_unique : u16 d.(rc_unique);
  cd_missing : len d.(rc_missing_sources) = 32 /\ bytes d.(rc_missing_sources);
  cd_have : len d.(rc_have_repairs) = 32 /\ bytes d.(rc_have_repairs)
}.
Definition target_ok (t : StreamKey) : Prop := u16 t.(sk_originator) /\ u32 t.(sk_session_id) /\ u8 t.(sk_stream_id).
Record ctl_cfg_ok (g : CacheControllerConfig) : Prop := {
  gc_self : u16 g.(kc_self_originator);
  gc_session : u32 g.(kc_self_session);
  gc_caches : Forall u16 g.(kc_caches);
  gc_limit : u8 g.(kc_absolute_symbol_limit);
  gc_attempts : u8 g.(kc_max_cache_attempts);
  gc_reply : u8 g.(kc_reply_limit)
}.

(** ** Bitmaps *)
Lemma bitmap_bit_take n m i : 0 <= i -> i / 8 < Z.of_nat n -> bitmap_bit (take n m) i = bitmap_bit m i.
Proof.
  intros Hi Hn. unfold bitmap_bit. f_equal. assert (0 <= i / 8) by (apply Z.div_pos; lia).
  rewrite !nth_lookup, lookup_take_lt by lia. done.
Qed.

Lemma bitmap_bit_zero m i : nth (Z.to_nat (i / 8)) m 0 = 0 -> bitmap_bit m i = false.
Proof. unfold bitmap_bit. intros ->. apply Z.bits_0. Qed.

Lemma bitmap_has_spec m i : len m = 32 -> 0 <= i < 256 -> bitmap_has m i = Some (bitmap_bit m i).
Proof.
  intros Hm Hi. unfold bitmap_has. destruct (Z.ltb_spec i 256); [|lia].
  pose proof (bit_set_spec (Some m) 32 i ltac:(lia) Hm) as Hb. unfold bit_set in Hb. cbn [default mbind option_bind] in Hb.
  assert (i / 8 < 32) by (apply Z.div_lt_upper_bound; lia).
  destruct (Z.ltb_spec (i / 8) 32); [exact Hb|lia].
Qed.

(** Trimming drops zero bytes only. *)
Lemma trim_len_spec have : forall n, (n <= length have)%nat ->
  exists r, trim_len have n = Some r /\ 0 <= r <= Z.of_nat n /\
  forall j, (Z.to_nat r <= j < n)%nat -> nth j have 0 = 0.
Proof.
  induction n as [|n IH]; intros Hn; cbn [trim_len]; [exists 0; split; [done|split; [lia|lia]]|].
  destruct (rd8_some have n) as [b Eb]; [lia|]. rewrite Eb. cbn [mbind option_bind].
  destruct (Z.eqb_spec b 0) as [->|].
  - destruct (IH ltac:(lia)) as (r & -> & Hr & Hz). exists r. split; [done|]. split; [lia|].
    intros j Hj. destruct (decide (j = n)) as [->|]; [|apply Hz; lia].
    unfold rd8 in Eb. by rewrite nth_lookup, Eb.
  - exists (Z.of_nat (S n)). split; [done|]. split; lia.
Qed.

(** ** The request *)

(** The view a cache decodes from a request: what is missing and, trimmed to
    [rh] bytes, the repairs already held. *)
Definition request_view (hdr : CacheRequestHeader) (d : RepairCandidate) (rh : Z) : CacheRequestView :=
  MkCacheRequestView hdr (Some (take (Z.to_nat (bitmap_len hdr.(cr_window_len))) d.(rc_missing_sources)))
    (if rh >? 0 then Some (take (Z.to_nat rh) d.(rc_have_repairs)) else None) rh.

Definition wf_request_header (h : CacheRequestHeader) : Prop :=
  wf_prefix h.(cr_prefix) /\ u16 h.(cr_target_originator) /\ u32 h.(cr_target_session) /\ u8 h.(cr_target_stream_id) /\
  u16 h.(cr_target_cache) /\ u32 h.(cr_request_id) /\ u32 h.(cr_block_id).

Lemma bitmap_len_le k i : 0 <= i < k -> i / 8 < bitmap_len k.
Proof. intros Hi. unfold bitmap_len. Z.div_mod_to_equations. lia. Qed.

Lemma request_encodes hdr d rh :
  cand_ok d -> wf_request_header hdr -> 0 < hdr.(cr_window_len) <= kFecMaxSymbols -> u8 hdr.(cr_max_symbols) ->
  0 <= rh <= 32 ->
  exists sz buf, encode_cache_request hdr (Some d.(rc_missing_sources))
      (if rh >? 0 then Some d.(rc_have_repairs) else None) rh
      (Some (replicate (Z.to_nat (kCacheRequestFixedSize + 32 + 32)) 0)) (kCacheRequestFixedSize + 32 + 32) = Some (sz, Some buf) /\
  if hdr.(cr_max_symbols) =? 0 then sz = 0
  else sz <> 0 /\ decode (Some (take (Z.to_nat sz) buf)) = Some (DCacheRequest (request_view hdr d rh)).
Proof.
  intros [? ? ? [Hml Hmb] [Hhl Hhb]] (Hp & Ht1 & Ht2 & Ht3 & Ht4 & Ht5 & Ht6) Hk Hms Hrh.
  unfold kFecMaxSymbols in *. pose proof (bitmap_len_bounds (cr_window_len hdr) Hk) as Hbl.
  destruct (Z.eqb_spec (cr_max_symbols hdr) 0) as [E0|E0].
  { unfold encode_cache_request. rewrite E0, Z.eqb_refl, orb_true_r. cbn [orb]. eexists _, _. split; [done|done]. }
  set (p := PCacheRequest hdr (Some d.(rc_missing_sources)) (if rh >? 0 then Some d.(rc_have_repairs) else None) rh).
  assert (Hwf : wf_packet p).
  { cbn. split_and!; try done; try (unfold u16, u8; lia).
    destruct (rh >? 0); [|done]. split; [done|]. lia. }
  assert (Hv : packet_valid p = true).
  { cbn. unfold kFecMaxSymbols. destruct (Z.eqb_spec (cr_window_len hdr) 0), (Z.leb_spec (cr_window_len hdr) 256),
      (Z.eqb_spec (cr_max_symbols hdr) 0), (Z.leb_spec rh 32); try lia. cbn. by destruct (rh >? 0). }
  destruct (encoded_decodes p (replicate (Z.to_nat (kCacheRequestFixedSize + 32 + 32)) 0) (kCacheRequestFixedSize + 32 + 32))
    as (o' & E & D); [done|done|done|rewrite length_replicate; wire_sizes; lia|cbn; wire_sizes; lia|].
  unfold p in E, D. cbn [encode_packet packet_size] in E, D. eexists _, _. split; [exact E|].
  split; [wire_sizes; lia|].
  rewrite D. cbn [view]. unfold request_view, view_ptr, ptr_bytes. by destruct (rh >? 0).
Qed.

(** ** What the request asks for *)
Lemma view_request_ok hdr d rh :
  cand_ok d -> 0 < hdr.(cr_window_len) <= kFecMaxSymbols -> u8 hdr.(cr_max_symbols) -> 0 <= rh <= 32 ->
  request_ok (request_view hdr d rh).
Proof.
  intros [? ? ? [Hml _] [Hhl _]] Hk Hm Hr. unfold kFecMaxSymbols in *.
  pose proof (bitmap_len_bounds (cr_window_len hdr) Hk).
  unfold request_ok, request_view. cbn [crv_hdr crv_missing_sources crv_repair_have crv_repair_have_len from_option].
  split; [lia|]. split; [unfold u8 in Hm; lia|]. rewrite length_take.
  split; [lia|]. destruct (Z.gtb_spec rh 0); rewrite ?length_take; lia.
Qed.

Lemma wants_view hdr d rh i :
  cand_ok d -> 0 < hdr.(cr_window_len) <= kFecMaxSymbols -> trim_len d.(rc_have_repairs) 32 = Some rh ->
  0 <= i < kFecMaxSymbols ->
  wants (request_view hdr d rh) i =
  if i <? hdr.(cr_window_len) then bitmap_bit d.(rc_missing_sources) i
  else negb (bitmap_bit d.(rc_have_repairs) (i - hdr.(cr_window_len))).
Proof.
  intros [? ? ? [Hml _] [Hhl _]] Hk Hrh Hi. unfold kFecMaxSymbols in *.
  destruct (trim_len_spec d.(rc_have_repairs) 32 ltac:(lia)) as (r & Er & Hr & Hz).
  rewrite Hrh in Er. injection Er as <-. pose proof (bitmap_len_bounds (cr_window_len hdr) Hk).
  unfold wants, request_view. cbn [crv_hdr crv_missing_sources crv_repair_have default].
  destruct (Z.ltb_spec i (cr_window_len hdr)) as [Hlt|Hge].
  - apply bitmap_bit_take; [lia|]. pose proof (bitmap_len_le (cr_window_len hdr) i ltac:(lia)). lia.
  - f_equal. set (j := i - cr_window_len hdr). assert (Hj : 0 <= j / 8 < 32).
    { split; [apply Z.div_pos; lia|apply Z.div_lt_upper_bound; lia]. }
    assert (Hzero : rh <= j / 8 -> bitmap_bit (rc_have_repairs d) j = false).
    { intros Hle. apply bitmap_bit_zero, Hz. lia. }
    destruct (Z.gtb_spec rh 0); cbn [from_option]; unfold id.
    + destruct (Z.lt_ge_cases (j / 8) rh); [apply bitmap_bit_take; lia|]. rewrite Hzero by lia.
      apply bitmap_bit_zero. rewrite nth_overflow; [done|]. rewrite length_take. lia.
    + rewrite Hzero by lia. apply bitmap_bit_zero. by rewrite nth_overflow by (cbn; lia).
Qed.

(** ** What a reply carries *)

(** A symbol frame of the request's geometry is accepted iff it is wanted. *)
Lemma reply_symbol_wanted o w d k i :
  view_ok w -> cand_ok d -> symbol_of w = Some (Some (k, i)) -> o.(os_k) = k ->
  o.(os_missing_sources) = d.(rc_missing_sources) -> o.(os_have_repairs) = d.(rc_have_repairs) ->
  reply_symbol o w = Some (if (if i <? k then bitmap_bit d.(rc_missing_sources) i
                               else negb (bitmap_bit d.(rc_have_repairs) (i - k))) then None else Some rvNotRequested).
Proof.
  intros Hv [? ? ? [Hml _] [Hhl _]] Hs Hk Hm Hh.
  destruct (symbol_of_ok w Hv) as (s & Es & Hb). rewrite Hs in Es. injection Es as <-. cbn in Hb. unfold kFecMaxSymbols in Hb.
  unfold symbol_of in Hs. unfold view_ok in Hv. unfold reply_symbol. rewrite Hk, Hm, Hh.
  destruct (negb _).
  - destruct (_ <=? _); [done|]. destruct (dv_payload w) as [p|]; [|done]. cbn [mbind option_bind] in *.
    destruct (be16_read p _) as [k'|]; [|done]. cbn [mbind option_bind] in *.
    destruct (rd8 p _) as [ri|] eqn:Eri; [|done]. cbn [mbind option_bind] in *.
    destruct ((_ || _) || _) eqn:Ec; [done|]. injection Hs as -> Hi. rewrite Z.eqb_refl. cbn [negb].
    assert (Hri : u8 ri).
    { unfold rd8 in Eri. by eapply Forall_lookup_1; [apply Hv|]. }
    rewrite bitmap_has_spec by (unfold u8 in Hri; lia). cbn [mbind option_bind].
    rewrite to_u16_id in Hi by (unfold u8, u16 in *; lia).
    destruct (Z.ltb_spec i k); [unfold u8 in Hri; lia|]. replace (i - k) with ri by lia. by destruct (bitmap_bit _ ri).
  - destruct (_ <? _); [done|]. destruct (dv_payload w) as [p|]; [|done]. cbn [mbind option_bind] in *.
    destruct (be16_read p kFecSrcOffWindowLen) as [k'|]; [|done]. cbn [mbind option_bind] in *.
    destruct (be16_read p kFecSrcOffSymIndex) as [ri|]; [|done]. cbn [mbind option_bind] in *.
    destruct ((_ || _) || _) eqn:Ec; [done|]. injection Hs as -> ->. rewrite Z.eqb_refl. cbn [negb].
    apply orb_false_iff in Ec as [_ Ec]. rewrite Ec. rewrite Z.geb_leb in Ec. apply Z.leb_gt in Ec.
    rewrite bitmap_has_spec by lia. cbn [mbind option_bind]. destruct (Z.ltb_spec i k); [done|lia].
Qed.

(** ** The requests of a block *)

(** A request made: the block, the cache asked and the symbols allowed. *)
Record Ask : Type := MkAsk { ak_block : Z; ak_cache : Z; ak_allowance : Z }.

(** Those of block [b], in order. *)
Definition asks (b : Z) (led : list Ask) : list Ask := filter (fun a => a.(ak_block) = b) led.
Fixpoint allowed (l : list Ask) : Z := match l with [] => 0 | a :: l => a.(ak_allowance) + allowed l end.

Lemma allowed_snoc l a : allowed (l ++ [a]) = allowed l + a.(ak_allowance).
Proof. induction l as [|x l IH]; cbn; lia. Qed.
Lemma asks_snoc b led a : asks b (led ++ [a]) = asks b led ++ (if decide (a.(ak_block) = b) then [a] else []).
Proof. unfold asks. rewrite filter_app, filter_cons. done. Qed.

(** ** The invariant *)
Section Controller.
Context (g : CacheControllerConfig) (Hg : ctl_cfg_ok g).

(** The budget of a tracked block against the requests made for it. *)
Record block_inv (l : list Ask) (st : BlockState) : Prop := {
  bi_attempts : st.(bs_attempts) = len l;
  bi_tried : st.(bs_tried) = map ak_cache l;
  bi_budget : st.(bs_budget_used) = allowed l;
  bi_max : len l <= g.(kc_max_cache_attempts);
  bi_limit : allowed l <= g.(kc_absolute_symbol_limit);
  bi_once : NoDup (map ak_cache l);
  bi_each : Forall (fun a => a.(ak_cache) ∈ g.(kc_caches) /\ 1 <= a.(ak_allowance) <= g.(kc_reply_limit)) l
}.

Lemma allowed_nonneg l :
  Forall (fun a => a.(ak_cache) ∈ g.(kc_caches) /\ 1 <= a.(ak_allowance) <= g.(kc_reply_limit)) l -> 0 <= allowed l.
Proof. induction 1 as [|a l [_ Ha] _ IH]; cbn; lia. Qed.

Record out_inv (next id : Z) (o : Outstanding) : Prop := {
  oi_id : 0 <= id < next;
  oi_cache : o.(os_cache_originator) ∈ g.(kc_caches);
  oi_allowance : 1 <= o.(os_allowance) <= g.(kc_reply_limit);
  oi_accepted : 0 <= o.(os_accepted) <= o.(os_allowance);
  oi_bitmaps : len o.(os_missing_sources) = 32 /\ len o.(os_have_repairs) = 32
}.

Record ctl_inv (led : list Ask) (c : CacheController) : Prop := {
  ci_cfg : c.(ct_cfg) = g;
  ci_next : 1 <= c.(ct_next_request_id);
  ci_blocks_sorted : sm_sorted c.(ct_blocks);
  ci_blocks : forall b st, sm_find b c.(ct_blocks) = Some st -> block_inv (asks b led) st;
  ci_tracked : forall a, a ∈ led -> is_Some (sm_find a.(ak_block) c.(ct_blocks));
  ci_out_sorted : sm_sorted c.(ct_outstanding);
  ci_out : forall id o, sm_find id c.(ct_outstanding) = Some o -> out_inv c.(ct_next_request_id) id o
}.

Lemma block_init_inv : block_inv [] BlockState_init.
Proof. destruct Hg as [_ _ _ Hl Hm _]. unfold u8 in Hl, Hm. split; cbn; try done; try lia. constructor. Qed.

Lemma untracked_asks led c b : ctl_inv led c -> sm_find b c.(ct_blocks) = None -> asks b led = [].
Proof.
  intros Hi Hb. destruct (asks b led) as [|a l] eqn:E; [done|].
  assert (Ha : a ∈ asks b led) by (rewrite E; set_solver). apply list_elem_of_filter in Ha as [<- Ha].
  apply (ci_tracked _ _ Hi) in Ha as [st Hst]. congruence.
Qed.

(** The state of a block, tracked or about to be. *)
Lemma state_inv led c b : ctl_inv led c -> block_inv (asks b led) (default BlockState_init (sm_find b c.(ct_blocks))).
Proof.
  intros Hi. destruct (sm_find b (ct_blocks c)) as [st|] eqn:E; cbn; [by apply (ci_blocks _ _ Hi)|].
  rewrite (untracked_asks _ _ _ Hi E). apply block_init_inv.
Qed.

(** Storing a block's state. *)
Lemma put_block_inv led c b st :
  ctl_inv led c -> block_inv (asks b led) st -> ctl_inv led (put_blocks c (sm_assign b st c.(ct_blocks))).
Proof.
  intros [? ? Hs Hb Ht ? ?] Hst. split; cbn; try done; [auto with smap| |].
  - intros b' st'. rewrite sm_find_assign by done. destruct (Z.eqb_spec b' b) as [->|]; [by intros [= <-]|apply Hb].
  - intros a Ha. rewrite sm_find_assign by done. destruct (_ =? _); [by eexists|by apply Ht].
Qed.

Lemma put_stats_inv led c s : ctl_inv led c -> ctl_inv led (put_stats c s).
Proof. by intros []. Qed.

(** Changes of a block's state that leave its budget alone. *)
Lemma block_inv_same l st st' :
  block_inv l st -> st'.(bs_attempts) = st.(bs_attempts) -> st'.(bs_tried) = st.(bs_tried) ->
  st'.(bs_budget_used) = st.(bs_budget_used) -> block_inv l st'.
Proof. intros [] E1 E2 E3. split; rewrite ?E1, ?E2, ?E3; done. Qed.

(** ** Choosing a cache *)
Lemma best_cache_spec c target b now tried r orig :
  best_cache c target b now tried = Some (r, orig) -> orig ∈ c.(ct_cfg).(kc_caches) /\ (orig ∉ tried).
Proof.
  unfold best_cache. generalize c.(ct_cfg).(kc_caches) at 1 2. intros caches.
  assert (Hgen : forall l best, (forall x, best = Some x -> x.2 ∈ caches /\ (x.2 ∉ tried)) -> l ⊆ caches ->
    forall x, fold_left (rank_cache c target b now tried) l best = Some x -> x.2 ∈ caches /\ (x.2 ∉ tried)).
  { induction l as [|o l IH]; intros best Hb Hl x; [by apply Hb|]. cbn [fold_left]. apply IH; [|set_solver].
    intros y. unfold rank_cache. destruct (existsb _ tried) eqn:Et; [by apply Hb|].
    assert (Ho : o ∈ caches /\ (o ∉ tried)).
    { split; [set_solver|]. intros Hin. rewrite <- not_true_iff_false, existsb_exists in Et. apply Et.
      exists o. split; [by apply list_elem_of_In|apply Z.eqb_refl]. }
    destruct (sm_find o _) as [entries|]; [|by apply Hb]. destruct (List.find _ entries) as [e|]; [|by apply Hb].
    destruct best as [[b' o']|]; [|by intros [= <-]]. destruct (_ || _); [by intros [= <-]|by apply Hb]. }
  intros E. apply (Hgen caches None) in E; [done|done|set_solver].
Qed.

Lemma symbol_cap_bound k : 0 <= symbol_cap g k <= g.(kc_absolute_symbol_limit).
Proof.
  destruct Hg as [_ _ _ Hl _ _]. unfold symbol_cap. unfold u8 in Hl.
  pose proof (to_u16_u16 (to_u32 (k * kc_repair_fraction_permille g + 999) / 1000)) as Hu. unfold u16 in Hu. lia.
Qed.

(** ** Issuing a request *)

(** The requests of a call as asks, with the allowance on record. *)
Definition asks_of (c : CacheController) (out : list CacheRequestOut) : list Ask :=
  map (fun q => MkAsk q.(ro_block_id) q.(ro_cache_originator)
    (from_option os_allowance 0 (sm_find q.(ro_request_id) c.(ct_outstanding)))) out.

(** The record of a request for candidate [d], nothing accepted yet. *)
Definition open_for (d : RepairCandidate) (q : CacheRequestOut) (o : Outstanding) : Prop :=
  o.(os_cache_originator) = q.(ro_cache_originator) /\ o.(os_block_id) = d.(rc_block_id) /\ o.(os_k) = d.(rc_k) /\
  o.(os_missing_sources) = d.(rc_missing_sources) /\ o.(os_have_repairs) = d.(rc_have_repairs) /\ o.(os_accepted) = 0.

(** A request that decodes to what candidate [d] needs, and its record. *)
Definition request_for (c : CacheController) (target : StreamKey) (d : RepairCandidate) (q : CacheRequestOut) : Prop :=
  exists o rh, sm_find q.(ro_request_id) c.(ct_outstanding) = Some o /\ open_for d q o /\
  q.(ro_block_id) = d.(rc_block_id) /\ 0 < d.(rc_k) /\ trim_len d.(rc_have_repairs) 32 = Some rh /\
  1 <= o.(os_allowance) <= 255 /\
  decode (Some q.(ro_frame)) = Some (DCacheRequest (request_view
    (MkCacheRequestHeader (MkCommonPrefix g.(kc_self_originator) q.(ro_cache_originator) g.(kc_self_session))
       target.(sk_originator) target.(sk_session_id) target.(sk_stream_id) q.(ro_cache_originator) q.(ro_request_id)
       d.(rc_block_id) d.(rc_k) o.(os_allowance)) d rh)).

(** The records of [c] are still those of [c']. *)
Definition keeps_out (c c' : CacheController) : Prop :=
  forall id o, sm_find id c.(ct_outstanding) = Some o -> sm_find id c'.(ct_outstanding) = Some o.

Lemma block_inv_ask l st st' a :
  block_inv l st -> a.(ak_cache) ∈ g.(kc_caches) -> (a.(ak_cache) ∉ st.(bs_tried)) ->
  1 <= a.(ak_allowance) <= g.(kc_reply_limit) -> st.(bs_attempts) < g.(kc_max_cache_attempts) ->
  st.(bs_budget_used) + a.(ak_allowance) <= g.(kc_absolute_symbol_limit) ->
  st'.(bs_attempts) = to_u8 (st.(bs_attempts) + 1) -> st'.(bs_budget_used) = to_u8 (st.(bs_budget_used) + a.(ak_allowance)) ->
  st'.(bs_tried) = st.(bs_tried) ++ [a.(ak_cache)] -> block_inv (l ++ [a]) st'.
Proof.
  intros [Ha Ht Hb Hm Hl Ho He] Hc Hnt Hal Hlt Hbud E1 E2 E3. destruct Hg as [_ _ _ Hgl Hgm _]. unfold u8 in Hgl, Hgm.
  pose proof (allowed_nonneg l He) as Hpos.
  assert (Hb1 : 0 <= st.(bs_budget_used)) by lia.
  split; rewrite ?E1, ?E2, ?E3, ?allowed_snoc, ?length_app, ?map_app, ?to_u8_id; cbn [length map];
    try (unfold u8; lia); try lia.
  - by rewrite Ht.
  - apply NoDup_app. split; [done|]. split; [|apply NoDup_singleton].
    intros x Hx ->%list_elem_of_singleton. rewrite Ht in Hnt. done.
  - apply Forall_app. split; [done|]. by apply Forall_singleton.
Qed.

Lemma fresh_id led c : ctl_inv led c -> sm_find c.(ct_next_request_id) c.(ct_outstanding) = None.
Proof.
  intros Hi. destruct (sm_find _ _) as [o|] eqn:E; [|done]. apply (ci_out _ _ Hi) in E as [Hid _ _ _ _]. lia.
Qed.

(** Recording a request. *)
Lemma record_inv led c id o b st a :
  ctl_inv led c -> id = c.(ct_next_request_id) -> out_inv (id + 1) id o -> a.(ak_block) = b ->
  block_inv (asks b led ++ [a]) st ->
  let c' := put_blocks (put_outstanding (put_next_id c (id + 1)) (sm_emplace id o c.(ct_outstanding)).1)
              (sm_assign b st c.(ct_blocks)) in
  ctl_inv (led ++ [a]) c'.
Proof.
  intros Hi -> Ho Ha Hst. pose proof (fresh_id _ _ Hi) as Hfresh. destruct Hi as [? ? Hs Hb Ht Hos Hout].
  split; cbn; try done; [lia|auto with smap| | |auto with smap|].
  - intros b' st'. rewrite sm_find_assign by done. rewrite asks_snoc, Ha.
    destruct (Z.eqb_spec b' b) as [->|Hne]; [intros [= <-]; by rewrite decide_True|].
    rewrite decide_False by done. rewrite app_nil_r. apply Hb.
  - intros x [Hx| ->%list_elem_of_singleton]%elem_of_app; rewrite sm_find_assign by done; case_match; [done| | |].
    all: try (by eexists); try (by apply Ht). by rewrite Ha, Z.eqb_refl in *.
  - intros id' o'. rewrite sm_find_emplace by done. destruct (sm_find id' (ct_outstanding c)) as [o1|] eqn:E1.
    + intros [= <-]. destruct (Hout id' o1 E1) as [? ? ? ? ?]. split; try done. lia.
    + destruct (Z.eqb_spec id' (ct_next_request_id c)) as [->|]; [|done]. by intros [= <-].
Qed.

Lemma put_next_inv led c n : ctl_inv led c -> c.(ct_next_request_id) <= n -> ctl_inv led (put_next_id c n).
Proof.
  intros [? ? ? ? ? ? Ho] Hn. split; cbn; try done; [lia|].
  intros id o E. destruct (Ho id o E). split; try done. lia.
Qed.

(** What a candidate's turn does. *)
Definition turn_ok (led : list Ask) (target : StreamKey) (d : RepairCandidate) (c c' : CacheController)
    (out : list CacheRequestOut) : Prop :=
  ctl_inv (led ++ asks_of c' out) c' /\ keeps_out c c' /\
  c'.(ct_next_request_id) <= c.(ct_next_request_id) + 1 /\ Forall (request_for c' target d) out.

Lemma turn_quiet led target d c c' :
  ctl_inv led c' -> keeps_out c c' -> c'.(ct_next_request_id) <= c.(ct_next_request_id) + 1 ->
  turn_ok led target d c c' [].
Proof. intros. split; [by rewrite app_nil_r|]. by split_and!. Qed.

Lemma issue_spec led c target d st orig allow now :
  ctl_inv led c -> cand_ok d -> 0 < d.(rc_k) -> target_ok target ->
  block_inv (asks d.(rc_block_id) led) st -> st.(bs_attempts) < g.(kc_max_cache_attempts) ->
  orig ∈ g.(kc_caches) -> (orig ∉ st.(bs_tried)) -> 0 <= allow <= g.(kc_reply_limit) ->
  st.(bs_budget_used) + allow <= g.(kc_absolute_symbol_limit) ->
  c.(ct_next_request_id) + 1 < 4294967296 ->
  exists c' out, issue c target d st orig allow now = Some (c', out) /\ turn_ok led target d c c' out.
Proof.
  intros Hi Hd Hk (Ht1 & Ht2 & Ht3) Hst Hatt Horig Hnt Hal Hbud Hnext.
  pose proof (ci_cfg _ _ Hi) as Ecfg. pose proof (ci_next _ _ Hi) as Hn1.
  destruct (trim_len_spec d.(rc_have_repairs) 32) as (rh & Erh & Hrh & _).
  { destruct Hd as [_ _ _ _ [Hl _]]. lia. }
  unfold issue. rewrite Erh. cbn [mbind option_bind].
  pose proof Hg as [Hs1 Hs2 Hs3 _ _ Hs6]. rewrite Forall_forall in Hs3.
  set (hdr := request_header c target d orig allow).
  destruct (request_encodes hdr d rh) as (sz & buf & E & Hsz); [done| |..].
  { unfold hdr, request_header, wf_request_header, wf_prefix. cbn. rewrite Ecfg.
    destruct Hd as [Hb _ _ _ _]. specialize (Hs3 orig Horig). split_and!; try done; unfold u32; lia. }
  { destruct Hd as [_ Hkk _ _ _]. cbn. lia. }
  { cbn. unfold u8 in *. lia. }
  { lia. }
  rewrite E. cbn [mbind option_bind].
  pose proof (put_block_inv _ _ _ _ Hi Hst) as Hi1.
  set (c1 := put_blocks c _) in *. change (cr_max_symbols hdr) with allow in Hsz.
  rewrite to_u32_id by (unfold u32; cbn; lia).
  destruct (Z.eqb_spec allow 0) as [E0|E0].
  { subst sz. rewrite Z.eqb_refl. eexists _, _. split; [done|]. apply turn_quiet; [|by intros ? ?|cbn; lia].
    apply put_next_inv; [done|]. cbn. lia. }
  destruct Hsz as [Hsz Hdec]. destruct (Z.eqb_spec sz 0); [done|].
  eexists _, _. split; [done|].
  set (id := ct_next_request_id c) in *.
  change (cr_request_id hdr) with id. cbn [put_next_id ct_next_request_id ct_outstanding put_stats put_blocks put_outstanding].
  set (o := MkOutstanding orig (rc_block_id d) now None false allow 0 (rc_k d) (rc_missing_sources d) (rc_have_repairs d)).
  set (m := (sm_emplace id o (ct_outstanding c)).1).
  assert (Hfind : sm_find id m = Some o).
  { unfold m. rewrite sm_find_emplace by apply Hi. unfold id. rewrite (fresh_id _ _ Hi). by rewrite Z.eqb_refl. }
  split; [|split; [|split; [cbn; lia|]]].
  - change (asks_of _ _) with [MkAsk (rc_block_id d) orig (from_option os_allowance 0 (sm_find id m))].
    rewrite Hfind. cbn [from_option os_allowance]. apply put_stats_inv.
    apply (record_inv led c1 id _ (rc_block_id d)); [done|done| |done|].
    + destruct Hd as [_ _ _ [Hml _] [Hhl _]]. split; cbn; try done; lia.
    + eapply (block_inv_ask _ st); cbn; done || lia.
  - intros id' o' E'. cbn. rewrite sm_find_emplace by apply Hi. by rewrite E'.
  - apply Forall_singleton. eexists _, rh. cbn [ct_outstanding ro_request_id]. split; [exact Hfind|].
    split; [by split_and!|]. split; [done|]. split; [done|]. split; [done|].
    change (os_allowance o) with allow. unfold u8 in Hs6. split; [lia|]. etransitivity; [exact Hdec|]. unfold hdr, request_header. by rewrite Ecfg.
Qed.

(** ** A tick *)

(** What is left of a block's cap. *)
Lemma remaining_bound used k :
  0 <= used ->
  let r := if symbol_cap g k >? used then to_u16 (symbol_cap g k - used) else 0 in
  0 <= r <= 255 /\ (r <> 0 -> used + r <= g.(kc_absolute_symbol_limit)).
Proof.
  intros Hu. pose proof (symbol_cap_bound k) as Hcap. pose proof Hg as [_ _ _ Hlim _ _]. unfold u8 in Hlim.
  cbn zeta. rewrite Z.gtb_ltb. destruct (Z.ltb_spec used (symbol_cap g k)); [|lia].
  rewrite to_u16_id by (unfold u16; lia). lia.
Qed.
Lemma tick_candidate_spec led c now target d :
  ctl_inv led c -> cand_ok d -> target_ok target -> c.(ct_next_request_id) + 1 < 4294967296 ->
  exists c' out, tick_candidate c now target d = Some (c', out) /\ turn_ok led target d c c' out.
Proof.
  intros Hi Hd Ht Hn. unfold tick_candidate.
  assert (Hquiet0 : turn_ok led target d c c []) by (apply turn_quiet; [done|by intros ? ?|lia]).
  destruct (_ || _) eqn:Ek; [by eexists _, _|]. apply orb_false_iff in Ek as [Ek Eu].
  apply Z.eqb_neq in Ek. rewrite Z.geb_leb in Eu. apply Z.leb_gt in Eu.
  pose proof (state_inv led c (rc_block_id d) Hi) as Hst. set (st := default BlockState_init _) in *.
  assert (Hkeep : forall s st', block_inv (asks (rc_block_id d) led) st' ->
    let c' := put_blocks (put_stats c s) (sm_assign (rc_block_id d) st' (ct_blocks c)) in
    turn_ok led target d c c' []).
  { intros s st' Hst'. apply turn_quiet; [|by intros ? ?|cbn; lia].
    apply (put_block_inv led (put_stats c s)); [by apply put_stats_inv|done]. }
  assert (Hown : put_stats c c.(ct_stats) = c) by by destruct c. pose proof (Hkeep c.(ct_stats)) as Hkeep'.
  rewrite Hown in Hkeep'. clear Hown.
  destruct (bs_futile st); [eexists _, _; split; [done|by apply Hkeep']|].
  destruct (negb (bs_closed st) && _); [eexists _, _; split; [done|by apply Hkeep']|].
  assert (Hcl : block_inv (asks (rc_block_id d) led) (set_closed st)) by by apply (block_inv_same _ st).
  set (c1 := if bs_closed st then c else _).
  assert (Hc1 : exists s, c1 = put_stats c s) by (subst c1; destruct (bs_closed st); [exists c.(ct_stats); by destruct c|by eexists]).
  destruct Hc1 as [s1 ->]. set (st1 := set_closed st) in *.
  destruct ((_ =? 0) && _); [eexists _, _; split; [done|by apply Hkeep, (block_inv_same _ st1)]|].
  rewrite Z.geb_leb. change (ct_cfg (put_stats c s1)) with (ct_cfg c). rewrite (ci_cfg _ _ Hi).
  destruct (Z.leb_spec (kc_max_cache_attempts g) (bs_attempts st1)) as [|Hatt]; [eexists _, _; split; [done|by apply Hkeep]|].
  destruct ((_ >? 0) && _); [eexists _, _; split; [done|by apply Hkeep]|].
  pose proof Hd as [_ Hd2 Hd3 _ _]. pose proof Hg as [_ _ _ _ _ Hrep]. unfold u8 in Hrep.
  assert (Hused : 0 <= bs_budget_used st1) by (rewrite (bi_budget _ _ Hcl); apply allowed_nonneg, (bi_each _ _ Hcl)).
  pose proof (remaining_bound (bs_budget_used st1) (rc_k d) Hused) as Hrem. cbn zeta in Hrem.
  set (remaining := if _ >? _ then _ else 0) in *.
  clearbody remaining. destruct (Z.eqb_spec remaining 0); [eexists _, _; split; [done|by apply Hkeep]|].
  destruct (best_cache _ _ _ _ _) as [[r orig]|] eqn:Eb.
  - apply best_cache_spec in Eb as [Horig Hnt]. cbn [put_stats ct_cfg] in Horig. rewrite (ci_cfg _ _ Hi) in Horig.
    rewrite to_u16_id by (unfold u16, kFecMaxSymbols in *; lia).
    rewrite to_u8_id by (unfold u8; lia).
    destruct (issue_spec led (put_stats c s1) target d (set_suppressed st1 false) orig
      (Z.min (kc_reply_limit g) (Z.min (rc_k d - rc_unique d) remaining)) now) as (c' & out & E & Hok);
      [by apply put_stats_inv|done|lia|done|by apply (block_inv_same _ st1)|done|done|done|unfold u16 in *; lia|change (bs_budget_used (set_suppressed st1 false)) with (bs_budget_used st1); lia|done|].
    exists c', out. split; [exact E|]. destruct Hok as (H1 & H2 & H3 & H4). by split_and!.
  - destruct (bs_suppressed st1); [|eexists _, _; split; [done|]; by apply Hkeep, (block_inv_same _ st1)].
    eexists _, _. split; [done|]. by apply Hkeep.
Qed.

Lemma request_for_mono c c' target d q : keeps_out c c' -> request_for c target d q -> request_for c' target d q.
Proof. intros Hk (o & rh & Ho & Hrest). exists o, rh. split; [by apply Hk|done]. Qed.

Lemma asks_of_mono c c' target (cands : list RepairCandidate) out :
  keeps_out c c' -> Forall (fun q => exists d, d ∈ cands /\ request_for c target d q) out -> asks_of c' out = asks_of c out.
Proof.
  intros Hk Ho. unfold asks_of. apply map_ext_Forall. eapply Forall_impl; [exact Ho|].
  intros q (d & _ & o & rh & E & _). cbn. by rewrite (Hk _ _ E), E.
Qed.

(** What a tick's turns do. *)
Definition turns_ok (led : list Ask) (target : StreamKey) (cands : list RepairCandidate) (c c' : CacheController)
    (out : list CacheRequestOut) : Prop :=
  ctl_inv (led ++ asks_of c' out) c' /\ keeps_out c c' /\
  c'.(ct_next_request_id) <= c.(ct_next_request_id) + len cands /\
  Forall (fun q => exists d, d ∈ cands /\ request_for c' target d q) out.

Lemma tick_candidates_spec now target cands : forall led c,
  ctl_inv led c -> Forall cand_ok cands -> target_ok target -> c.(ct_next_request_id) + len cands < 4294967296 ->
  exists c' out, tick_candidates c now target cands = Some (c', out) /\ turns_ok led target cands c c' out.
Proof.
  induction cands as [|d cands IH]; intros led c Hi Hc Ht Hn; cbn [tick_candidates].
  { eexists _, _. split; [done|]. split; [by rewrite app_nil_r|]. split; [by intros ? ?|]. split; [cbn; lia|constructor]. }
  apply Forall_cons in Hc as [Hd Hc]. cbn [length] in *.
  destruct (tick_candidate_spec led c now target d Hi Hd Ht ltac:(lia)) as (c1 & out1 & -> & Hi1 & Hk1 & Hn1 & Hr1).
  cbn [mbind option_bind].
  destruct (IH _ c1 Hi1 Hc Ht ltac:(lia)) as (c2 & out2 & -> & Hi2 & Hk2 & Hn2 & Hr2). cbn [mbind option_bind].
  assert (Hr1' : Forall (fun q => exists d0, d0 ∈ [d] /\ request_for c1 target d0 q) out1).
  { eapply Forall_impl; [exact Hr1|]. intros q Hq. exists d. split; [set_solver|done]. }
  eexists _, _. split; [done|]. split; [|split; [|split]].
  - unfold asks_of at 1. rewrite map_app. fold (asks_of c2 out1). fold (asks_of c2 out2).
    rewrite (asks_of_mono c1 c2 target [d] out1 Hk2 Hr1'). by rewrite app_assoc.
  - intros id o E. by apply Hk2, Hk1.
  - cbn [length]. lia.
  - apply Forall_app. split; [eapply Forall_impl; [exact Hr1|]|eapply Forall_impl; [exact Hr2|]].
    + intros q Hq. exists d. split; [set_solver|]. by apply (request_for_mono c1).
    + intros q (d' & ? & ?). exists d'. split; [set_solver|done].
Qed.

(** The asks of the blocks still tracked. *)
Definition forget (led : list Ask) (c : CacheController) : list Ask :=
  filter (fun a => sm_mem a.(ak_block) c.(ct_blocks) = true) led.

(** Dropping blocks and records. *)
Definition smap_part {V} (m' m : smap V) : Prop :=
  sm_sorted m' /\ forall k v, sm_find k m' = Some v -> sm_find k m = Some v.

Lemma filter_part {V} (f : Z * V -> bool) m : sm_sorted m -> smap_part (List.filter f m) m.
Proof.
  intros Hs. split; [by apply smap_filter_sorted|]. intros k v. rewrite smap_find_filter by done.
  destruct (sm_find k m) as [v'|]; [|done]. destruct (f (k, v')); [done|by intros].
Qed.

Lemma asks_forget b led c : sm_mem b c.(ct_blocks) = true -> asks b (forget led c) = asks b led.
Proof.
  intros Hm. unfold asks, forget. induction led as [|a led IH]; [done|]. rewrite !filter_cons.
  destruct (decide (ak_block a = b)) as [<-|].
  - rewrite decide_True by done. rewrite filter_cons, decide_True by done. by rewrite IH.
  - destruct (decide (sm_mem (ak_block a) (ct_blocks c) = true)); [|done]. by rewrite filter_cons, decide_False.
Qed.

Lemma drop_inv led c blocks outs :
  ctl_inv led c -> smap_part blocks c.(ct_blocks) -> smap_part outs c.(ct_outstanding) ->
  let c' := put_outstanding (put_blocks c blocks) outs in ctl_inv (forget led c') c'.
Proof.
  intros [? ? Hs Hb Ht Hos Ho] [Hbs Hbp] [Hps Hpp] c'. split; cbn; try done.
  - intros b st E. rewrite asks_forget; [by apply Hb, Hbp|]. unfold sm_mem. cbn. by rewrite E.
  - intros a [Hm Ha]%list_elem_of_filter. unfold sm_mem in Hm. by destruct (sm_find (ak_block a) _) eqn:E; [eexists|].
  - intros id o E. by apply Ho, Hpp.
Qed.

Lemma tick_spec led c now target cands :
  ctl_inv led c -> Forall cand_ok cands -> target_ok target -> c.(ct_next_request_id) + len cands < 4294967296 ->
  exists c' out, tick c now target cands = Some (c', out) /\
    ctl_inv (forget led (prune c now cands) ++ asks_of c' out) c' /\
    c'.(ct_next_request_id) <= c.(ct_next_request_id) + len cands /\
    Forall (fun q => exists d, d ∈ cands /\ request_for c' target d q) out.
Proof.
  intros Hi Hc Ht Hn. unfold tick.
  assert (Hp : ctl_inv (forget led (prune c now cands)) (prune c now cands))
    by (apply drop_inv; [done|apply filter_part, Hi|apply filter_part, Hi]).
  eapply put_stats_inv in Hp.
  destruct (tick_candidates_spec now target cands _ _ Hp Hc Ht Hn) as (c' & out & E & H1 & _ & H3 & H4).
  eexists c', out. split; [exact E|]. split; [exact H1|]. by split.
Qed.

(** ** The other operations *)

(** An outstanding record rewritten, its request kept. *)
Lemma put_out_inv led c id o o' :
  ctl_inv led c -> sm_find id c.(ct_outstanding) = Some o ->
  (out_inv c.(ct_next_request_id) id o -> out_inv c.(ct_next_request_id) id o') ->
  ctl_inv led (put_outstanding c (sm_assign id o' c.(ct_outstanding))).
Proof.
  intros [? ? ? ? ? Hos Ho] E Himp. split; cbn; try done; [auto with smap|].
  intros i x. rewrite sm_find_assign by done. destruct (Z.eqb_spec i id) as [->|]; [|apply Ho].
  intros [= <-]. by apply Himp, Ho.
Qed.

Lemma note_request_sent_inv led c id now : ctl_inv led c -> ctl_inv led (note_request_sent c id now).
Proof.
  intros Hi. unfold note_request_sent. destruct (sm_find id _) as [o|] eqn:E; [|done].
  set (c1 := match os_sent_us o with Some _ => c | None => _ end).
  assert (Hi1 : ctl_inv led c1).
  { subst c1. destruct (os_sent_us o); [done|]. apply (put_out_inv led c id o); [done|done|]. by intros []. }
  clearbody c1. destruct (sm_find _ (ct_blocks c1)) as [st|] eqn:Eb; [|done].
  destruct (bs_first_request_us st); [done|]. apply put_block_inv; [done|].
  by apply (block_inv_same _ st); [apply (ci_blocks _ _ Hi1)|..].
Qed.

Lemma reply_symbol_total o w :
  view_ok w -> len o.(os_missing_sources) = 32 -> len o.(os_have_repairs) = 32 -> is_Some (reply_symbol o w).
Proof.
  intros Hv Hm Hh. unfold reply_symbol, view_ok, kFecRepairSubheaderSize, kFecSourceSubheaderSize,
    kFecOffWindowLen, kFecOffRepairIdx, kFecSrcOffWindowLen, kFecSrcOffSymIndex in *.
  assert (Hhas : forall bm i, len bm = 32 -> 0 <= i -> is_Some (bitmap_has bm i)).
  { intros bm i Hb Hi. unfold bitmap_has. destruct (Z.ltb_spec i 256); [|by eexists].
    assert (i / 8 < 32) by (apply Z.div_lt_upper_bound; lia). assert (0 <= i / 8) by (apply Z.div_pos; lia).
    destruct (rd8_some bm (Z.to_nat (i / 8))) as [x ->]; [lia|]. by eexists. }
  destruct (negb _).
  - destruct (Z.leb_spec (dv_payload_len w) 11); [by eexists|]. destruct (dv_payload w) as [p|]; [|lia].
    destruct Hv as [Hl Hb]. destruct (be16_read_some p 1) as [k Ek]; [lia|]. cbn [mbind option_bind]. rewrite Ek.
    cbn [mbind option_bind]. destruct (negb _); [by eexists|]. destruct (rd8_some p 0) as [i Ei]; [lia|]. rewrite Ei. cbn [mbind option_bind].
    assert (u8 i) by (by eapply Forall_lookup_1; [exact Hb|exact Ei]).
    destruct (Hhas _ i Hh) as [x ->]; [unfold u8 in *; lia|]. by eexists.
  - destruct (Z.ltb_spec (dv_payload_len w) 4); [by eexists|]. destruct (dv_payload w) as [p|]; [|lia].
    destruct Hv as [Hl Hb]. destruct (be16_read_some p 0) as [k Ek]; [lia|]. cbn [mbind option_bind]. rewrite Ek.
    cbn [mbind option_bind]. destruct (negb _); [by eexists|]. destruct (be16_read_some p 2) as [i Ei]; [lia|]. rewrite Ei. cbn [mbind option_bind].
    destruct (_ >=? _); [by eexists|]. destruct (Hhas _ i Hm) as [x ->]; [|by eexists].
    unfold be16_read in Ei. destruct (rd8 p 2), (rd8 p (2 + 1)); cbn in Ei; try done. injection Ei as <-.
    pose proof (to_u16_u16 (Z.lor (Z.shiftl z 8) z0)). unfold u16 in *. lia.
Qed.

Lemma on_reply_next c from id w now v c' :
  on_reply c from id w now = Some (v, c') -> c'.(ct_next_request_id) = c.(ct_next_request_id).
Proof.
  unfold on_reply. destruct (sm_find id _) as [o|]; [|by intros [= <- <-]].
  destruct (negb _); [by intros [= <- <-]|]. destruct (negb _); [by intros [= <- <-]|].
  destruct (reply_symbol o w) as [[v'|]|]; cbn [mbind option_bind]; [by intros [= <- <-]| |done].
  destruct (_ >=? _); [by intros [= <- <-]|]. intros [= <- <-]. by repeat case_match.
Qed.

(** An accepted reply, on its record. *)
Lemma accept_inv led c id o :
  ctl_inv led c -> sm_find id c.(ct_outstanding) = Some o -> o.(os_accepted) < o.(os_allowance) ->
  ctl_inv led (put_outstanding c (sm_assign id (accept_one o) c.(ct_outstanding))).
Proof.
  intros Hi E Hlt. apply (put_out_inv led c id o); [done|done|].
  intros [? ? ? ? ?]. pose proof Hg as [_ _ _ _ _ Hr]. unfold u8 in Hr.
  split; cbn; try done. rewrite to_u8_id by (unfold u8; lia). lia.
Qed.

Lemma put_timing_inv led c a b : ctl_inv led c -> ctl_inv led (put_timing c a b).
Proof. by intros []. Qed.

Lemma on_reply_spec led c from id w now :
  ctl_inv led c -> view_ok w -> exists v c', on_reply c from id w now = Some (v, c') /\ ctl_inv led c'.
Proof.
  intros Hi Hv. unfold on_reply. cbn [put_stats ct_outstanding].
  assert (Hrej : forall v s, exists v' c', Some (v : ReplyVerdict, put_stats c s) = Some (v', c') /\ ctl_inv led c').
  { intros v s. eexists _, _. split; [done|]. by apply put_stats_inv. }
  destruct (sm_find id (ct_outstanding c)) as [o|] eqn:E; [|by apply Hrej].
  destruct (negb _); [by apply Hrej|]. destruct (negb _); [by apply Hrej|].
  destruct (ci_out _ _ Hi _ _ E) as [? ? ? ? [Hm Hh]].
  destruct (reply_symbol_total o w Hv Hm Hh) as [rv ->]. cbn [mbind option_bind].
  destruct rv as [v|]; [by apply Hrej|]. rewrite Z.geb_leb.
  destruct (Z.leb_spec (os_allowance o) (os_accepted o)); [by apply Hrej|].
  eexists _, _. split; [done|].
  assert (Hacc : forall s, ctl_inv led (put_stats (put_outstanding (put_stats c s)
    (sm_assign id (accept_one o) (ct_outstanding c))) (bump cAccepted s))).
  { intros s. apply put_stats_inv. by apply (accept_inv led (put_stats c s) id o); [apply put_stats_inv| |]. }
  destruct (os_first_reply_seen o); [apply Hacc|]. destruct (os_sent_us o); [|apply Hacc].
  destruct (_ >=? _); [apply put_timing_inv|]; apply Hacc.
Qed.

Lemma erase_part {V} k (m : smap V) : sm_sorted m -> smap_part (sm_erase k m) m.
Proof.
  intros Hs. split; [auto with smap|]. intros k' v. rewrite sm_find_erase by done. by destruct (_ =? _).
Qed.

Lemma note_completed_inv led c b now :
  ctl_inv led c -> ctl_inv (forget led (note_completed c b now)) (note_completed c b now).
Proof.
  intros Hi. unfold note_completed.
  set (c1 := match sm_find b _ with Some _ => _ | None => _ end).
  assert (Hi1 : ctl_inv led c1).
  { subst c1. apply (put_stats_inv _ _ (bump cRepaired (ct_stats c))) in Hi. destruct (sm_find b _) as [st|]; [|done].
    destruct (bs_first_request_us st); [|done]. destruct (_ >=? _); [by apply put_timing_inv|done]. }
  clearbody c1. apply drop_inv; [done|apply erase_part, Hi1|apply filter_part, Hi1].
Qed.

Lemma reset_link_inv led c : ctl_inv led c -> ctl_inv (forget led (reset_link c)) (reset_link c).
Proof.
  intros Hi. unfold reset_link. apply put_stats_inv.
  assert (Hr : ctl_inv led (put_registry c [])) by by destruct Hi.
  by apply (drop_inv led (put_registry c []) [] []); [|split; [constructor|]..].
Qed.

Lemma reset_stats_inv led c : ctl_inv led c -> ctl_inv led (reset_stats c).
Proof.
  intros [? ? Hs Hb Ht Hos Ho]. split; cbn; try done.
  - by apply (sm_sorted_map (fun _ st => set_first_request st None)).
  - intros b st. rewrite (sm_find_map (fun _ st => set_first_request st None)).
    destruct (sm_find b (ct_blocks c)) as [st'|] eqn:E; [|done]. intros [= <-]. by apply (block_inv_same _ st'); [apply Hb|..].
  - intros a Ha. rewrite (sm_find_map (fun _ st => set_first_request st None)). destruct (Ht a Ha) as [st ->]. by eexists.
  - by apply (sm_sorted_map (fun _ o => forget_sent o)).
  - intros id o. rewrite (sm_find_map (fun _ o => forget_sent o)).
    destruct (sm_find id (ct_outstanding c)) as [o'|] eqn:E; [|done]. intros [= <-]. by destruct (Ho id o' E).
Qed.

(** ** Runs *)
Inductive CtlOp : Type :=
| CStatus (st : CacheStatus) (now_ms : Z)
| CTick (now_ms : Z) (target : StreamKey) (cands : list RepairCandidate)
| CSent (request_id now_us : Z)
| CReply (from request_id : Z) (w : DataView) (now_us : Z)
| CCompleted (block_id now_us : Z)
| CResetStats
| CResetLink.

Definition ctl_op_ok (o : CtlOp) : Prop :=
  match o with
  | CTick _ target cands => target_ok target /\ Forall cand_ok cands
  | CReply _ _ w _ => view_ok w
  | _ => True
  end.

(** The controller and the asks of the blocks it tracks. *)
Definition ctl_step (st : CacheController * list Ask) (o : CtlOp) : option (CacheController * list Ask) :=
  let '(c, led) := st in
  match o with
  | CStatus s now => Some (on_status c s now, led)
  | CTick now target cands =>
    '(c', out) ← tick c now target cands; Some (c', forget led (prune c now cands) ++ asks_of c' out)
  | CSent id now => Some (note_request_sent c id now, led)
  | CReply from id w now => '(_, c') ← on_reply c from id w now; Some (c', led)
  | CCompleted b now => let c' := note_completed c b now in Some (c', forget led c')
  | CResetStats => Some (reset_stats c, led)
  | CResetLink => let c' := reset_link c in Some (c', forget led c')
  end.

Fixpoint ctl_run (st : CacheController * list Ask) (ops : list CtlOp) : option (CacheController * list Ask) :=
  match ops with [] => Some st | o :: ops => st ← ctl_step st o; ctl_run st ops end.

(** Candidates offered: an upper bound of the request ids used. *)
Definition offered (ops : list CtlOp) : Z :=
  fold_right (fun o n => match o with CTick _ _ cands => len cands | _ => 0 end + n) 0 ops.

Lemma ctl_step_inv c led o :
  ctl_inv led c -> ctl_op_ok o -> c.(ct_next_request_id) + offered [o] < 4294967296 ->
  exists c' led', ctl_step (c, led) o = Some (c', led') /\ ctl_inv led' c' /\
    c'.(ct_next_request_id) <= c.(ct_next_request_id) + offered [o].
Proof.
  intros Hi Ho Hn. destruct o as [s now|now target cands|id now|from id w now|b now| |]; cbn [ctl_step offered fold_right] in *.
  - eexists _, _. split; [done|]. unfold on_status. destruct (negb _); [split; [done|lia]|]. split; [by destruct Hi|cbn; lia].
  - destruct Ho as [Ht Hc].
    destruct (tick_spec led c now target cands Hi Hc Ht ltac:(lia)) as (c' & out & -> & Hi' & Hn' & _). cbn [mbind option_bind].
    eexists _, _. split; [done|]. split; [done|lia].
  - eexists _, _. split; [done|]. split; [by apply note_request_sent_inv|].
    unfold note_request_sent. repeat case_match; cbn; lia.
  - destruct (on_reply_spec led c from id w now Hi Ho) as (v & c' & E & Hi'). rewrite E. cbn [mbind option_bind].
    eexists _, _. split; [done|]. split; [done|]. rewrite (on_reply_next _ _ _ _ _ _ _ E). lia.
  - eexists _, _. split; [done|]. split; [by apply note_completed_inv|].
    unfold note_completed. repeat case_match; cbn; lia.
  - eexists _, _. split; [done|]. split; [by apply reset_stats_inv|cbn; lia].
  - eexists _, _. split; [done|]. split; [by apply reset_link_inv|cbn; lia].
Qed.

Lemma ctl_run_inv ops : forall c led,
  ctl_inv led c -> Forall ctl_op_ok ops -> c.(ct_next_request_id) + offered ops < 4294967296 ->
  exists c' led', ctl_run (c, led) ops = Some (c', led') /\ ctl_inv led' c' /\
    c'.(ct_next_request_id) <= c.(ct_next_request_id) + offered ops.
Proof.
  induction ops as [|o ops IH]; intros c led Hi Ho Hn; cbn [ctl_run].
  { eexists _, _. split; [done|]. split; [done|]. cbn. lia. }
  apply Forall_cons in Ho as [Ho Hops].
  assert (Hoff : offered (o :: ops) = offered [o] + offered ops) by (unfold offered; cbn [fold_right]; lia). rewrite Hoff in *.
  assert (Hpos : 0 <= offered ops).
  { clear. unfold offered. induction ops as [|o ops IH]; cbn [fold_right]; [lia|]. destruct o; lia. }
  destruct (ctl_step_inv c led o Hi Ho ltac:(lia)) as (c1 & led1 & -> & Hi1 & Hn1). cbn [mbind option_bind].
  destruct (IH c1 led1 Hi1 Hops ltac:(lia)) as (c2 & led2 & E & Hi2 & Hn2). eexists _, _. split; [exact E|]. split; [done|lia].
Qed.

Lemma ctl_init_inv : ctl_inv [] (CacheController_init g).
Proof. split; cbn; try done; try constructor. intros a Ha. by apply not_elem_of_nil in Ha. Qed.
End Controller.
