(* ===== verification/CacheExchange.v ===== *)
(** * The cache repair exchange: controller, air and store composed

    The controller's requests stay within their budget; and what a store answers
    to one of them is accepted, symbol by symbol. *)
From stdpp Require Import sorting.
From S2P Require Import Prelude Endian Types Wire WireLayout SMap JsccLoss FrameReassembler CacheStore CacheStoreProps CacheController CacheControllerProps.

(** ** Frames a store heard on the air *)

(** A heard frame decodes to the view it was filed from. *)
Definition aired (h : Heard) : Prop :=
  exists v, decode (Some h.(he_frame)) = Some (DData v) /\ view_ok v /\ h ∈ heard_of v h.(he_frame).

(** The store is fed the frames its receiver decoded. *)
Definition fed_decoded (o : StoreOp) : Prop :=
  match o with NoteData v f => decode (Some f) = Some (DData v) | _ => True end.

Lemma heard_of_frame v f h : h ∈ heard_of v f -> h.(he_frame) = f.
Proof.
  unfold heard_of. destruct (symbol_of v) as [[[k idx]|]|]; [|by intros ?%not_elem_of_nil..].
  by intros ->%list_elem_of_singleton.
Qed.

Lemma store_run_aired ops : forall c heard c' heard' replies,
  Forall op_ok ops -> Forall fed_decoded ops -> Forall aired heard ->
  store_run c heard ops = Some (c', heard', replies) -> Forall aired heard'.
Proof.
  induction ops as [|o ops IH]; intros c heard c' heard' replies Ho Hf Ha; cbn [store_run]; [by intros [= <- <- <-]|].
  apply Forall_cons in Ho as [Ho Hops]. apply Forall_cons in Hf as [Hf Hfs].
  destruct (store_step c heard o) as [[[c1 heard1] r1]|] eqn:E; [|done]. cbn [mbind option_bind].
  destruct (store_run c1 heard1 ops) as [[[c2 heard2] r2]|] eqn:E2; [|done]. cbn [mbind option_bind]. intros [= <- <- <-].
  apply (IH c1 heard1 c2 heard2 r2 Hops Hfs); [|done].
  destruct o as [v f|r now|t|]; cbn [store_step] in E.
  - destruct (note_data _ _ _ _) as [c3|]; [|done]. cbn [mbind option_bind] in E. injection E as <- <- <-.
    apply Forall_app. split; [done|]. apply Forall_forall. intros h Hh. pose proof (heard_of_frame _ _ _ Hh) as Hfr.
    exists v. rewrite Hfr. done.
  - destruct (answer c r now) as [[[vd out] c3]|]; [|done]. cbn [mbind option_bind] in E. by injection E as <- <- <-.
  - by injection E as <- <- <-.
  - by injection E as <- <- <-.
Qed.

(** ** Replies fed back *)

(** The replies of a cache to one request, in order. *)
Fixpoint feed_replies (c : CacheController) (from id : Z) (ws : list DataView) (now_us : Z)
  : option (list ReplyVerdict * CacheController) :=
  match ws with
  | [] => Some ([], c)
  | w :: ws =>
    '(v, c) ← on_reply c from id w now_us;
    '(vs, c) ← feed_replies c from id ws now_us;
    Some (v :: vs, c)
  end.

Lemma on_reply_accepts c from id w now o :
  sm_sorted c.(ct_outstanding) -> sm_find id c.(ct_outstanding) = Some o ->
  from = o.(os_cache_originator) -> w.(dv_hdr).(dh_block_id) = o.(os_block_id) -> reply_symbol o w = Some None ->
  0 <= o.(os_accepted) < o.(os_allowance) -> o.(os_allowance) <= 255 ->
  exists c', on_reply c from id w now = Some (rvAccept, c') /\ sm_sorted c'.(ct_outstanding) /\
    sm_find id c'.(ct_outstanding) = Some (accept_one o).
Proof.
  intros Hs E Hfrom Hb Hr Ha Hl. unfold on_reply. cbn [put_stats ct_outstanding]. rewrite E, Hfrom, Hb, !Z.eqb_refl.
  cbn [negb]. rewrite Hr. cbn [mbind option_bind]. rewrite Z.geb_leb.
  destruct (Z.leb_spec (os_allowance o) (os_accepted o)); [lia|]. eexists. split; [done|].
  assert (Hf : sm_sorted (sm_assign id (accept_one o) c.(ct_outstanding)) /\
    sm_find id (sm_assign id (accept_one o) c.(ct_outstanding)) = Some (accept_one o)).
  { split; [auto with smap|]. by rewrite sm_find_assign, Z.eqb_refl. }
  destruct (os_first_reply_seen o); [done|]. destruct (os_sent_us o); [|done]. by destruct (_ >=? _).
Qed.

Lemma feed_accepts from id ws now : forall c o,
  sm_sorted c.(ct_outstanding) -> sm_find id c.(ct_outstanding) = Some o -> from = o.(os_cache_originator) ->
  Forall (fun w => w.(dv_hdr).(dh_block_id) = o.(os_block_id) /\ reply_symbol o w = Some None) ws ->
  0 <= o.(os_accepted) -> o.(os_accepted) + len ws <= o.(os_allowance) -> o.(os_allowance) <= 255 ->
  exists c', feed_replies c from id ws now = Some (replicate (length ws) rvAccept, c').
Proof.
  induction ws as [|w ws IH]; intros c o Hs E Hfrom Hw H0 Ha Hl; cbn [feed_replies]; [by eexists|].
  apply Forall_cons in Hw as [[Hb Hr] Hws]. cbn [length] in Ha.
  destruct (on_reply_accepts c from id w now o Hs E Hfrom Hb Hr ltac:(lia) Hl) as (c1 & -> & Hs1 & E1). cbn [mbind option_bind].
  destruct (IH c1 (accept_one o) Hs1 E1 Hfrom Hws) as (c2 & ->); [| |done|cbn; by eexists].
  all: cbn; rewrite to_u8_id by (unfold u8; lia); lia.
Qed.

(** Each frame of an answer is a symbol its request wants. *)
Lemma answered_symbols c target d q g s heard verdict out o rh :
  cand_ok d -> store_wf heard s -> Forall aired heard -> open_for d q o -> 0 < d.(rc_k) ->
  trim_len d.(rc_have_repairs) 32 = Some rh -> 0 <= o.(os_allowance) ->
  let hdr := MkCacheRequestHeader (MkCommonPrefix g.(kc_self_originator) q.(ro_cache_originator) g.(kc_self_session))
       target.(sk_originator) target.(sk_session_id) target.(sk_stream_id) c q.(ro_request_id)
       d.(rc_block_id) d.(rc_k) o.(os_allowance) in
  answer_ok s (request_view hdr d rh) verdict out ->
  len out <= o.(os_allowance) /\
  exists ws, Forall2 (fun f w => decode (Some f) = Some (DData w)) out ws /\
    Forall (fun w => w.(dv_hdr).(dh_block_id) = o.(os_block_id) /\ reply_symbol o w = Some None) ws.
Proof.
  intros Hd Hwf Ha (_ & Hob & Hok & Hom & Hoh & _) Hk Hrh Hal hdr Hans.
  destruct (answer_frames_ok _ _ _ _ _ Hwf Hans) as (Hlen & idxs & _ & Hf). cbn [request_view crv_hdr hdr cr_max_symbols
    cr_target_originator cr_target_session cr_target_stream_id cr_block_id cr_window_len] in Hlen, Hf.
  split; [lia|]. clear Hlen Hans.
  induction Hf as [|i f idxs out [Hw Hin] _ IH]; [exists []; split; constructor|].
  destruct IH as (ws & H1 & H2). rewrite Forall_forall in Ha. destruct (Ha _ Hin) as (w & Hdec & Hv & Hho).
  cbn [he_frame] in Hdec, Hho. unfold heard_of in Hho.
  destruct (symbol_of w) as [[[k idx]|]|] eqn:Es; [|by apply not_elem_of_nil in Hho..].
  apply list_elem_of_singleton in Hho. injection Hho as _ _ _ Hb <- <-.
  exists (w :: ws). split; [by constructor|]. constructor; [|done]. split; [by rewrite Hob|].
  destruct (symbol_of_ok w Hv) as (sy & Esy & Hbnd). rewrite Es in Esy. injection Esy as <-. cbn in Hbnd.
  rewrite (reply_symbol_wanted o w d _ i Hv Hd Es Hok Hom Hoh).
  rewrite (wants_view hdr d rh i Hd) in Hw; [cbn [hdr cr_window_len] in Hw; by rewrite Hw|cbn; apply Hbnd|done|apply Hbnd].
Qed.

(** ** Properties *)

(** C29. Over any run of the controller (statuses, ticks on any open blocks,
    replies from anyone, completions, resets) no block is asked for beyond its
    budget: while a block is tracked its requests go to distinct configured
    caches, at most [max_cache_attempts] of them, each allows between one and
    [reply_limit] symbols, and together at most [absolute_symbol_limit]; and no
    request ever has more symbols accepted than it allowed. *)
Theorem cache_requests_bounded g ops :
  ctl_cfg_ok g -> Forall ctl_op_ok ops -> 1 + offered ops < 4294967296 ->
  exists c led, ctl_run (CacheController_init g, []) ops = Some (c, led) /\
  (forall b, let l := asks b led in
     len l <= g.(kc_max_cache_attempts) /\ NoDup (map ak_cache l) /\ allowed l <= g.(kc_absolute_symbol_limit) /\
     Forall (fun a => a.(ak_cache) ∈ g.(kc_caches) /\ 1 <= a.(ak_allowance) <= g.(kc_reply_limit)) l) /\
  (forall id o, sm_find id c.(ct_outstanding) = Some o ->
     o.(os_cache_originator) ∈ g.(kc_caches) /\ 0 <= o.(os_accepted) <= o.(os_allowance)).
Proof.
  intros Hg Hops Hoff.
  destruct (ctl_run_inv g Hg ops _ _ (ctl_init_inv g) Hops Hoff) as (c & led & E & Hi & _).
  exists c, led. split; [exact E|]. split.
  - intros b l. by destruct (state_inv g Hg led c b Hi).
  - intros id o Ho. by destruct (ci_out _ _ _ Hi id o Ho).
Qed.

(** C7. The exchange composed over the wire: after any run of the controller,
    each request of a tick decodes at the cache to exactly the symbols its
    block misses (missing sources, repairs not held); and whatever a store that
    heard any decoded traffic answers to it, every frame of the answer decodes
    and the controller accepts all of them. *)
Theorem cache_exchange_accepts g ops now target cands scfg sops :
  ctl_cfg_ok g -> Forall ctl_op_ok ops -> target_ok target -> Forall cand_ok cands ->
  1 + offered ops + len cands < 4294967296 ->
  0 <= scfg.(cc_blocks) -> Forall op_ok sops -> Forall fed_decoded sops ->
  exists c led c1 out s heard replies,
    ctl_run (CacheController_init g, []) ops = Some (c, led) /\ tick c now target cands = Some (c1, out) /\
    store_run (CacheStore_init scfg) [] sops = Some (s, heard, replies) /\
  forall q, q ∈ out -> exists d r, d ∈ cands /\ decode (Some q.(ro_frame)) = Some (DCacheRequest r) /\
    (forall i, 0 <= i < kFecMaxSymbols -> wants r i = if i <? d.(rc_k) then bitmap_bit d.(rc_missing_sources) i
                                                   else negb (bitmap_bit d.(rc_have_repairs) (i - d.(rc_k)))) /\
    forall now2 now3, exists verdict frames s' ws c2,
      answer s r now2 = Some (verdict, frames, s') /\
      Forall2 (fun f w => decode (Some f) = Some (DData w)) frames ws /\
      feed_replies c1 q.(ro_cache_originator) q.(ro_request_id) ws now3 = Some (replicate (length frames) rvAccept, c2).
Proof.
  intros Hg Hops Ht Hc Hoff Hsc Hso Hsf.
  destruct (ctl_run_inv g Hg ops _ _ (ctl_init_inv g) Hops ltac:(cbn; lia)) as (c & led & Er & Hi & Hn).
  destruct (tick_spec g Hg led c now target cands Hi Hc Ht ltac:(cbn in Hn; lia)) as (c1 & out & Et & Hi1 & _ & Hreq).
  destruct (store_run_wf sops (CacheStore_init scfg) [] Hsc Hso) as (s & heard & replies & Es & Hwf & _);
    [by apply empty_store_wf|].
  pose proof (store_run_aired sops _ _ _ _ _ Hso Hsf (Forall_nil_2 _) Es) as Ha.
  exists c, led, c1, out, s, heard, replies. split; [done|]. split; [done|]. split; [done|]. intros q Hq.
  rewrite Forall_forall in Hreq. destruct (Hreq q Hq) as (d & Hd & o & rh & Ho & Hopen & Hqb & Hk & Hrh & Hal & Hdec).
  rewrite Forall_forall in Hc. pose proof (Hc d Hd) as Hdok. eexists d, _. split; [done|]. split; [exact Hdec|].
  split; [intros i Hi0; by rewrite (wants_view _ d rh i Hdok); [|cbn; destruct Hdok; lia|..]|]. intros now2 now3.
  destruct (trim_len_spec d.(rc_have_repairs) 32 ltac:(destruct Hdok as [_ _ _ _ [? _]]; lia)) as (rh' & Erh & Hrb & _).
  rewrite Hrh in Erh. injection Erh as <-.
  match goal with |- context [answer s (request_view ?h d rh) now2] => set (hdr := h) in * end.
  assert (Hrok : request_ok (request_view hdr d rh)).
  { apply view_request_ok; [done|cbn; destruct Hdok; lia|cbn; unfold u8; lia|lia]. }
  destruct (answer_spec heard s (request_view hdr d rh) now2 Hwf Hrok) as (verdict & frames & s' & Eans & Hans & _).
  destruct (answered_symbols _ target d q g s heard verdict frames o rh Hdok Hwf Ha Hopen Hk Hrh ltac:(lia) Hans) as (Hlen & ws & Hws & Hok).
  destruct Hopen as (Hfrom & _ & _ & _ & _ & H0).
  destruct (feed_accepts q.(ro_cache_originator) q.(ro_request_id) ws now3 c1 o (ci_out_sorted _ _ _ Hi1) Ho (eq_sym Hfrom) Hok)
    as (c2 & Ef); [lia|rewrite <- (Forall2_length _ _ _ Hws); lia|lia|].
  exists verdict, frames, s', ws, c2. split; [exact Eans|]. split; [done|]. by rewrite (Forall2_length _ _ _ Hws).
Qed.

(** ** Witnesses: one aggregator, one cache, a block of three sources *)
Definition demo_ctl_cfg : CacheControllerConfig := MkCacheControllerConfig 3 11 [20; 21] 1 2 4 8 4 1000 8 2 4 800 1500.
Definition demo_target : StreamKey := MkStreamKey 7 99 1.
Definition demo_cand (missing have : Z) : RepairCandidate :=
  MkRepairCandidate 42 3 1 false 900 900 0 (missing :: replicate 31 0) (have :: replicate 31 0).
Definition demo_status (cache : Z) : CacheStatus := MkCacheStatus (MkCommonPrefix cache 0 5) 7 99 1 40 42 950 0.

Definition demo_ctl_ops : list CtlOp :=
  [ CStatus (demo_status 20) 990; CStatus (demo_status 21) 995; CStatus (demo_status 77) 995;
    CTick 1000 demo_target [demo_cand 5 0]; CSent 1 1000000; CTick 1010 demo_target [demo_cand 5 0];
    CTick 1020 demo_target [demo_cand 5 0] ].

(** Two caches are asked, in the order of their freshness, and then no more. *)
Example demo_asks :
  (fun s => map (fun a => (a.(ak_cache), a.(ak_allowance))) (asks 42 s.2)) <$>
    ctl_run (CacheController_init demo_ctl_cfg, []) demo_ctl_ops = Some [(21, 2); (20, 1)].
Proof. vm_compute. reflexivity. Qed.

(** A frame on the air, and the operation of the store that heard it. *)
Definition demo_air (flags : Z) (payload : list Z) : StoreOp :=
  NoteData (demo_view flags payload)
    (layout (PData (demo_view flags payload).(dv_hdr) (Some payload) (len payload))).
Definition demo_air_ops : list StoreOp :=
  [ demo_air 0 [0; 3; 0; 2; 50]; demo_air 0 [0; 3; 0; 0; 51]; demo_air 8 [1; 0; 3; 0; 0; 0; 0; 0; 0; 0; 0; 52] ].

Lemma demo_ctl_cfg_ok : ctl_cfg_ok demo_ctl_cfg.
Proof. split; refine (bool_decide_unpack _ _); vm_compute; exact I. Qed.
Lemma demo_cand_ok : cand_ok (demo_cand 5 0).
Proof. split; refine (bool_decide_unpack _ _); vm_compute; exact I. Qed.
Lemma demo_ctl_ops_ok : Forall ctl_op_ok demo_ctl_ops.
Proof.
  pose proof demo_cand_ok. unfold demo_ctl_ops, ctl_op_ok, target_ok.
  repeat (apply Forall_cons; split); try done; try (split; [|by apply Forall_singleton]);
    refine (bool_decide_unpack _ _); vm_compute; exact I.
Qed.

Lemma cache_requests_bounded_witness :
  exists c led, ctl_run (CacheController_init demo_ctl_cfg, []) demo_ctl_ops = Some (c, led) /\
    allowed (asks 42 led) <= 8.
Proof.
  destruct (cache_requests_bounded demo_ctl_cfg demo_ctl_ops) as (c & led & E & H & _).
  - exact demo_ctl_cfg_ok.
  - exact demo_ctl_ops_ok.
  - vm_compute. reflexivity.
  - exists c, led. split; [exact E|]. apply (H 42).
Defined.

(** The request of a tick, the store's answer and the controller's verdicts,
    evaluated: both missing sources come back and are accepted. *)
Definition demo_store_cfg : CacheStoreConfig := MkCacheStoreConfig 21 0 [1] 2 4 400 90.
Definition view_of (f : list Z) : list DataView :=
  match decode (Some f) with Some (DData w) => [w] | _ => [] end.
Example demo_exchange :
  ('(c, _) ← ctl_run (CacheController_init demo_ctl_cfg, []) (take 3 demo_ctl_ops);
   '(c, out) ← tick c 1000 demo_target [demo_cand 5 0];
   '(s, _, _) ← store_run (CacheStore_init demo_store_cfg) [] demo_air_ops;
   q ← head out;
   r ← (match decode (Some q.(ro_frame)) with Some (DCacheRequest r) => Some r | _ => None end);
   '(verdict, frames, _) ← answer s r 2000;
   '(verdicts, _) ← feed_replies c q.(ro_cache_originator) q.(ro_request_id) (concat (map view_of frames)) 5000;
   Some (verdict, map (fun f => drop 26 f) frames, verdicts)) =
  Some (kAnswered, [[0; 3; 0; 0; 51]; [0; 3; 0; 2; 50]], [rvAccept; rvAccept]).
Proof. vm_compute. reflexivity. Qed.

Lemma cache_exchange_accepts_witness :
  exists c led c1 out s heard replies,
    ctl_run (CacheController_init demo_ctl_cfg, []) (take 3 demo_ctl_ops) = Some (c, led) /\
    tick c 1000 demo_target [demo_cand 5 0] = Some (c1, out) /\
    store_run (CacheStore_init demo_store_cfg) [] demo_air_ops = Some (s, heard, replies) /\
  forall q, q ∈ out -> exists r, decode (Some q.(ro_frame)) = Some (DCacheRequest r) /\
    forall now2 now3, exists verdict frames s' ws c2, answer s r now2 = Some (verdict, frames, s') /\
      feed_replies c1 q.(ro_cache_originator) q.(ro_request_id) ws now3 = Some (replicate (length frames) rvAccept, c2).
Proof.
  destruct (cache_exchange_accepts demo_ctl_cfg (take 3 demo_ctl_ops) 1000 demo_target [demo_cand 5 0] demo_store_cfg demo_air_ops)
    as (c & led & c1 & out & s & heard & replies & E1 & E2 & E3 & H).
  - exact demo_ctl_cfg_ok.
  - apply Forall_take. exact demo_ctl_ops_ok.
  - refine (bool_decide_unpack (target_ok demo_target) _). vm_compute. exact I.
  - apply Forall_singleton. exact demo_cand_ok.
  - vm_compute. reflexivity.
  - cbn. lia.
  - refine (bool_decide_unpack (Forall op_ok demo_air_ops) _). vm_compute. exact I.
  - repeat (apply Forall_cons; split); [vm_compute; reflexivity..|apply Forall_nil_2].
  - exists c, led, c1, out, s, heard, replies. split; [exact E1|]. split; [exact E2|]. split; [exact E3|].
    intros q Hq. destruct (H q Hq) as (d & r & _ & Hdec & _ & Hex). exists r. split; [exact Hdec|].
    intros now2 now3. destruct (Hex now2 now3) as (verdict & frames & s' & ws & c2 & Ha & _ & Hf).
    exists verdict, frames, s', ws, c2. split; [exact Ha|exact Hf].
Defined.
