(* ===== verification/HevcBits.v ===== *)
(** * HEVC bit streams ([core/src/hevc_conceal.cpp], first and fourth blocks)

    The sticky-failure bit reader the header parsers are written with, the
    bit writer of the synthesis, emulation prevention in both directions and
    the packing of bits into bytes.

    A parser is a computation in the monad [P]: it reads from a
    [BitReader], may [refuse] (the C++ [return false]) and may leave the
    memory of the program ([None], undefined behaviour). *)
From S2P Require Import Prelude.

(** ** The bit reader *)
Record BitReader : Type := MkBitReader {
  br_d : list Z;
  br_bits : Z;
  br_pos : Z;
  br_fail : bool
}.
Definition BitReader_init (d : list Z) (n : Z) : BitReader := MkBitReader d (to_u32 (to_u32 n * 8)) 0 false.
Definition set_fail (r : BitReader) : BitReader := MkBitReader r.(br_d) r.(br_bits) r.(br_pos) true.
Definition advance (r : BitReader) : BitReader :=
  MkBitReader r.(br_d) r.(br_bits) (to_u32 (r.(br_pos) + 1)) r.(br_fail).

Definition P (A : Type) : Type := BitReader -> option (option (A * BitReader)).
#[export] Instance P_ret : MRet P := fun A a r => Some (Some (a, r)).
#[export] Instance P_bind : MBind P := fun A B k m r =>
  match m r with
  | None => None
  | Some None => Some None
  | Some (Some (a, r)) => k a r
  end.
Definition refuse {A} : P A := fun _ => Some None.
(** A memory access or a signed sum inside a parser. *)
Definition lift {A} (o : option A) : P A := fun r =>
  match o with None => None | Some a => Some (Some (a, r)) end.
Definition r_pos : P Z := fun r => Some (Some (r.(br_pos), r)).
Definition r_failed : P bool := fun r => Some (Some (r.(br_fail), r)).

(** [u(n)]: one iteration per bit, the partial value dropped on an overrun. *)
Fixpoint u_loop (n : nat) (v : Z) : P Z := fun r =>
  match n with
  | O => Some (Some (v, r))
  | S n =>
    if r.(br_pos) >=? r.(br_bits) then Some (Some (0, set_fail r)) else
    b ← rd8 r.(br_d) (Z.to_nat (Z.shiftr r.(br_pos) 3));
    u_loop n (Z.lor (to_u32 (Z.shiftl v 1)) (Z.land (Z.shiftr b (7 - Z.land r.(br_pos) 7)) 1)) (advance r)
  end.
Definition r_u (n : Z) : P Z := u_loop (Z.to_nat n) 0.
Definition r_flag : P bool := b ← r_u 1; mret (negb (b =? 0)).

(** [ue()]: the leading-zero loop gives up at the 32nd zero.  [fuel] is the
    number of zeros still allowed. *)
Fixpoint ue_zeros (fuel : nat) (zeros : Z) : P (option Z) := fun r =>
  if r.(br_fail) then Some (Some (Some zeros, r)) else
  match r_u 1 r with
  | None => None
  | Some None => Some None
  | Some (Some (b, r)) =>
    if negb (b =? 0) then Some (Some (Some zeros, r)) else
    match fuel with
    | O => Some (Some (None, set_fail r))
    | S fuel => ue_zeros fuel (zeros + 1) r
    end
  end.
Definition r_ue : P Z :=
  z ← ue_zeros 31 0;
  match z with
  | None => mret 0
  | Some zeros =>
    f ← r_failed;
    if (f : bool) then mret 0 else
    if negb (zeros =? 0) then
      x ← r_u zeros;
      mret (to_u32 (to_u32 (Z.shiftl 1 zeros) - 1 + x))
    else mret (to_u32 (to_u32 (Z.shiftl 1 zeros) - 1 + 0))
  end.
Definition r_se : P Z :=
  k ← r_ue;
  mret (if negb (Z.land k 1 =? 0) then to_i32 (Z.shiftr (to_u32 (k + 1)) 1) else - to_i32 (Z.shiftr k 1)).

(** A counted [for] loop over a local state. *)
Fixpoint r_loop {S} (n : nat) (i : Z) (f : Z -> S -> P S) (s : S) : P S :=
  match n with
  | O => mret s
  | S n => s ← f i s; r_loop n (i + 1) f s
  end.
Definition r_times (n : Z) (m : P ()) : P () := r_loop (Z.to_nat n) 0 (fun _ _ => m) ().
Definition skip {A} (m : P A) : P () := _ ← m; mret ().

(** Run a parser on a buffer: [None] is undefined behaviour, [Some None] is
    [return false]. *)
Definition run_parser {A} (m : P A) (rbsp : list Z) : option (option A) :=
  match m (BitReader_init rbsp (len rbsp)) with
  | None => None
  | Some None => Some None
  | Some (Some (a, _)) => Some (Some a)
  end.

(** [while ((1u << v) < n) ++v;] from [v]; [None] when [v] reaches 32, a shift
    by the width of the type. *)
Fixpoint bits_loop (fuel : nat) (v n : Z) : option Z :=
  if Z.shiftl 1 v <? n then
    match fuel with
    | O => None
    | S fuel => bits_loop fuel (v + 1) n
    end
  else Some v.
Definition bits_for (n : Z) : option Z := bits_loop 31 0 n.

(** ** Emulation prevention *)
Fixpoint unescape_loop (p : list Z) (cap zeros : Z) : list Z :=
  match p with
  | [] => []
  | c :: p =>
    if cap <=? 0 then [] else
    if (zeros >=? 2) && (c =? 3) then unescape_loop p cap 0
    else c :: unescape_loop p (cap - 1) (if c =? 0 then zeros + 1 else 0)
  end.
Definition unescape (p : list Z) (cap : Z) : list Z := unescape_loop p cap 0.

Fixpoint escape_loop (rbsp : list Z) (zeros : Z) : list Z :=
  match rbsp with
  | [] => []
  | c :: rbsp =>
    let esc := (zeros >=? 2) && (c <=? 3) in
    let zeros := if esc then 0 else zeros in
    (if esc then [3] else []) ++ c :: escape_loop rbsp (if c =? 0 then zeros + 1 else 0)
  end.
Definition escape_zeros (h0 h1 : Z) : Z := if h1 =? 0 then (if h0 =? 0 then 2 else 1) else 0.
(** The bytes [escape_append] pushes. *)
Definition escape_append (rbsp : list Z) (h0 h1 : Z) : list Z :=
  [0; 0; 0; 1; h0; h1] ++ escape_loop rbsp (escape_zeros h0 h1).

(** ** The bit writer: each call is the list of bits it pushes *)
Definition w_u (v n : Z) : option (list Z) :=
  if n >? 32 then None
  else Some ((fun i => Z.land (Z.shiftr v (Z.of_nat i)) 1) <$> rev (seq 0 (Z.to_nat n))).
(** [while ((v >> n) > 1) ++n;] *)
Fixpoint ue_len (fuel : nat) (v n : Z) : option Z :=
  if Z.shiftr v n >? 1 then
    match fuel with
    | O => None
    | S fuel => ue_len fuel v (n + 1)
    end
  else Some n.
Definition w_ue (v : Z) : option (list Z) :=
  let v := to_u32 (v + 1) in
  n ← ue_len 31 v 0;
  a ← w_u 0 n;
  b ← w_u v (n + 1);
  Some (a ++ b).
(** A signed 32-bit sum or product: [None] on overflow. *)
Definition i32_of (z : Z) : option Z :=
  if (z <? -2147483648) || (z >? 2147483647) then None else Some z.
Definition w_se (v : Z) : option (list Z) :=
  if v >? 0 then d ← i32_of (2 * v); e ← i32_of (d - 1); w_ue (to_u32 e)
  else d ← i32_of (-2 * v); w_ue (to_u32 d).
Fixpoint w_copy_loop (rbsp : list Z) (n : nat) (p : Z) : option (list Z) :=
  match n with
  | O => Some []
  | S n =>
    c ← rd8 rbsp (Z.to_nat (Z.shiftr p 3));
    t ← w_copy_loop rbsp n (to_u32 (p + 1));
    Some (Z.land (Z.shiftr c (7 - Z.land p 7)) 1 :: t)
  end.
Definition w_copy_bits (rbsp : list Z) (begin_ end_ : Z) : option (list Z) :=
  w_copy_loop rbsp (Z.to_nat (end_ - begin_)) begin_.
Definition align_zero (bits : list Z) : list Z :=
  bits ++ replicate (Z.to_nat ((- len bits) mod 8)) 0.
Definition align_header (bits : list Z) : list Z := align_zero (bits ++ [1]).

(** [bits[i + j]] past the end of the vector is undefined: [None]. *)
Fixpoint pack_bits (bits : list Z) : option (list Z) :=
  match bits with
  | [] => Some []
  | b0 :: b1 :: b2 :: b3 :: b4 :: b5 :: b6 :: b7 :: bits =>
    t ← pack_bits bits;
    Some (fold_left (fun b x => to_u8 (Z.lor (Z.shiftl b 1) x)) [b0; b1; b2; b3; b4; b5; b6; b7] 0 :: t)
  | _ => None
  end.
