(* ===== verification/HevcParse.v ===== *)
(** * HEVC parameter sets and slice headers ([core/include/wblink/hevc_conceal.h],
    the parsers of [core/src/hevc_conceal.cpp])

    Each parser is written in the reader monad of [HevcBits]: a C++
    [return false] is [refuse], an indexed access is [lift (l !! i)].  The
    out-parameter is the result: on [return false] no caller reads it. *)
From S2P Require Import Prelude HevcBits.

Definition kNalSps : Z := 33.
Definition kNalPps : Z := 34.
Definition nal_is_vcl (t : Z) : bool := t <=? 31.
Definition nal_is_irap (t : Z) : bool := (t >=? 16) && (t <=? 23).
Definition nal_is_idr (t : Z) : bool := (t =? 19) || (t =? 20).
Definition nal_type (nal : list Z) : option Z :=
  b ← rd8 nal 0; Some (Z.land (Z.shiftr b 1) 0x3F).

Record SpsInfo : Type := MkSpsInfo {
  sps_id : Z;
  chroma_format_idc : Z;
  pic_width : Z;
  pic_height : Z;
  log2_max_poc_lsb : Z;
  log2_min_cb : Z;
  log2_ctb : Z;
  sao_enabled : bool;
  temporal_mvp_enabled : bool;
  long_term_ref_pics_present : bool;
  num_long_term_ref_pics_sps : Z;
  num_st_rps : Z;
  st_rps_num_delta : list Z;
  st_rps_num_used : list Z;
  lt_sps_used : list Z;
  pic_width_ctbs : Z;
  pic_height_ctbs : Z;
  pic_size_ctbs : Z;
  addr_bits : Z
}.
Definition SpsInfo_init : SpsInfo :=
  MkSpsInfo 0 1 0 0 0 0 0 false false false 0 0 [] [] [] 0 0 0 0.

Record PpsInfo : Type := MkPpsInfo {
  pps_id : Z;
  pps_sps_id : Z;
  dependent_slice_segments_enabled : bool;
  output_flag_present : bool;
  num_extra_slice_header_bits : Z;
  cabac_init_present : bool;
  num_ref_idx_l0_default : Z;
  num_ref_idx_l1_default : Z;
  init_qp : Z;
  cu_qp_delta_enabled : bool;
  slice_chroma_qp_offsets_present : bool;
  weighted_pred : bool;
  weighted_bipred : bool;
  transquant_bypass_enabled : bool;
  tiles_enabled : bool;
  entropy_coding_sync_enabled : bool;
  loop_filter_across_slices : bool;
  deblocking_filter_control_present : bool;
  deblocking_filter_override_enabled : bool;
  pps_deblocking_filter_disabled : bool;
  lists_modification_present : bool;
  slice_segment_header_extension_present : bool
}.
Definition PpsInfo_init : PpsInfo :=
  MkPpsInfo 0 0 false false 0 false 1 1 26 false false false false false false false false false false false false
    false.

Record SliceInfo : Type := MkSliceInfo {
  nal_header0 : Z;
  nal_header1 : Z;
  nal_unit_type : Z;
  first_slice : bool;
  dependent : bool;
  slice_pps_id : Z;
  address : Z;
  slice_type : Z;
  poc_lsb : Z;
  has_poc : bool;
  temporal_mvp : bool;
  qp_delta : Z;
  num_used_refs : Z;
  num_ref_l0 : Z;
  collocated_ref_idx : Z;
  strps_bit_begin : Z;
  strps_bit_end : Z;
  header_rbsp : list Z
}.
Definition SliceInfo_init : SliceInfo :=
  MkSliceInfo 0 0 0 false false 0 0 0 0 false false 0 0 1 0 0 0 [].

(** ** Shared syntax *)

(** The inter-predicted branch: one step per reference delta. *)
Definition st_rps_inter_step (s : Z * Z) : P (Z * Z) :=
  let '(nd, nu) := s in
  used ← r_u 1;
  use_delta ← (if used =? 0 then r_u 1 else mret 1);
  mret (if negb (used =? 0) || negb (use_delta =? 0) then to_u16 (nd + 1) else nd, to_u16 (nu + used)).

Definition parse_st_rps_inter (idx num_sets : Z) (num_delta_list : list Z) : P (Z * Z) :=
  ref_idx ← (if idx =? num_sets then
      d ← r_ue;
      if d >=? idx then refuse else mret (idx - 1 - d)
    else mret (idx - 1));
  if ref_idx >=? len num_delta_list then refuse else
  r_u 1;;
  r_ue;;
  n ← lift (num_delta_list !! Z.to_nat ref_idx);
  r_loop (Z.to_nat (n + 1)) 0 (fun _ => st_rps_inter_step) (0, 0).

Definition parse_st_rps_explicit : P (Z * Z) :=
  num_neg ← r_ue;
  num_pos ← r_ue;
  let n := to_u32 (num_neg + num_pos) in
  if n >? 16 then refuse else
  nu ← r_loop (Z.to_nat n) 0 (fun _ nu => r_ue;; used ← r_u 1; mret (to_u16 (nu + used))) 0;
  mret (to_u16 n, nu).

(** The pair of [num_delta] and [num_used]. *)
Definition parse_st_rps (idx num_sets : Z) (num_delta_list : list Z) : P (Z * Z) :=
  inter_pred ← (if negb (idx =? 0) then r_flag else mret false);
  res ← (if (inter_pred : bool) then parse_st_rps_inter idx num_sets num_delta_list else parse_st_rps_explicit);
  failed ← r_failed;
  if (failed : bool) then refuse else mret res.

Definition skip_scaling_matrix (size_id : Z) : P () :=
  f ← r_u 1;
  if f =? 0 then skip r_ue else
  (if size_id >? 1 then skip r_se else mret ());;
  r_times (Z.min 64 (Z.shiftl 1 (4 + Z.shiftl size_id 1))) (skip r_se).
Definition skip_scaling_list : P () :=
  r_loop 4 0 (fun size_id _ => r_times (if size_id =? 3 then 2 else 6) (skip_scaling_matrix size_id)) ().

Definition skip_sub_layer (sub_profile sub_level i : Z) : P () :=
  (if negb (Z.land sub_profile (Z.shiftl 1 i) =? 0) then r_u 32;; r_u 32;; skip (r_u 24) else mret ());;
  if negb (Z.land sub_level (Z.shiftl 1 i) =? 0) then skip (r_u 8) else mret ().
Definition skip_profile_tier_level (max_sub_layers_minus1 : Z) : P () :=
  r_u 8;; r_u 32;; r_u 4;; r_u 32;; r_u 12;; r_u 8;;
  if max_sub_layers_minus1 >? 8 then mret () else
  '(sub_profile, sub_level) ← r_loop (Z.to_nat max_sub_layers_minus1) 0 (fun i '(p, l) =>
      a ← r_u 1; b ← r_u 1; mret (Z.lor p (Z.shiftl a i), Z.lor l (Z.shiftl b i))) (0, 0);
  (if max_sub_layers_minus1 >? 0 then r_times (8 - max_sub_layers_minus1) (skip (r_u 2)) else mret ());;
  r_loop (Z.to_nat max_sub_layers_minus1) 0 (fun i _ => skip_sub_layer sub_profile sub_level i) ().

(** ** SPS *)

(** [num_delta] and [num_used] of every short-term set, in order. *)
Definition parse_sps_st_rps (num_st : Z) : P (list Z * list Z) :=
  r_loop (Z.to_nat num_st) 0 (fun i '(nds, nus) =>
    '(nd, nu) ← parse_st_rps i num_st nds;
    mret (nds ++ [nd], nus ++ [nu])) ([], []).

Definition parse_sps_lt (log2_poc : Z) : P (Z * list Z) :=
  n ← r_ue;
  if n >? 32 then refuse else
  used ← r_loop (Z.to_nat n) 0 (fun _ us => r_u log2_poc;; b ← r_u 1; mret (us ++ [to_u8 b])) [];
  mret (to_u8 n, used).

(** The derived geometry, after the range guard. *)
Definition sps_geometry (width height lg2_ctb : Z) : option (Z * Z * Z * Z) :=
  let ctb := Z.shiftl 1 lg2_ctb in
  let wc := Z.shiftr (to_u32 (width + ctb - 1)) lg2_ctb in
  let hc := Z.shiftr (to_u32 (height + ctb - 1)) lg2_ctb in
  let size := to_u32 (wc * hc) in
  v ← bits_for size;
  Some (wc, hc, size, to_u8 v).

Definition sps_body : P SpsInfo :=
  r_u 4;;
  max_sub_layers_minus1 ← r_u 3;
  r_u 1;;
  skip_profile_tier_level max_sub_layers_minus1;;
  id ← r_ue;
  chroma ← r_ue;
  let chroma := to_u8 chroma in
  separate ← (if chroma =? 3 then r_flag else mret false);
  if (separate : bool) then refuse else
  width ← r_ue;
  height ← r_ue;
  window ← r_flag;
  (if (window : bool) then r_ue;; r_ue;; r_ue;; skip r_ue else mret ());;
  r_ue;; r_ue;;
  poc ← r_ue;
  let log2_poc := to_u8 (to_u32 (poc + 4)) in
  ordering ← r_flag;
  r_times (if (ordering : bool) then max_sub_layers_minus1 + 1 else 1) (r_ue;; r_ue;; skip r_ue);;
  a ← r_ue;
  let min_cb := to_u8 (to_u32 (a + 3)) in
  b ← r_ue;
  let ctb := to_u8 (to_u32 (min_cb + b)) in
  r_ue;; r_ue;; r_ue;; r_ue;;
  sl ← r_flag;
  sl ← (if (sl : bool) then r_flag else mret false);
  (if (sl : bool) then skip_scaling_list else mret ());;
  r_u 1;;
  sao ← r_flag;
  pcm ← r_flag;
  (if (pcm : bool) then r_u 8;; r_ue;; r_ue;; skip (r_u 1) else mret ());;
  num_st ← r_ue;
  if num_st >? 64 then refuse else
  '(nds, nus) ← parse_sps_st_rps num_st;
  lt ← r_flag;
  '(n_lt, lt_used) ← (if (lt : bool) then parse_sps_lt log2_poc else mret (0, []));
  tmvp ← r_flag;
  r_u 1;;
  failed ← r_failed;
  if (failed : bool) then refuse else
  if (width =? 0) || (height =? 0) || (width >? 8192) || (height >? 8192) || (ctb <? 4) || (ctb >? 6) ||
     (log2_poc <? 4) || (log2_poc >? 16) then refuse else
  '(wc, hc, size, v) ← lift (sps_geometry width height ctb);
  mret (MkSpsInfo (to_u8 id) chroma width height log2_poc min_cb ctb sao tmvp lt n_lt (to_u8 num_st) nds nus lt_used
          wc hc size v).

Definition parse_sps (nal : list Z) : option (option SpsInfo) :=
  if len nal <? 4 then Some None else
  t ← nal_type nal;
  if negb (t =? kNalSps) then Some None else
  run_parser sps_body (unescape (drop 2 nal) 512).

(** ** PPS *)
Definition pps_body : P PpsInfo :=
  id ← r_ue;
  sid ← r_ue;
  if (id >? 63) || (sid >? 15) then refuse else
  dep ← r_flag;
  outp ← r_flag;
  extra ← r_u 3;
  r_u 1;;
  cabac ← r_flag;
  l0 ← r_ue;
  l1 ← r_ue;
  qp ← r_se;
  qp ← lift (i32_of (qp + 26));
  r_u 1;; r_u 1;;
  cuqp ← r_flag;
  (if (cuqp : bool) then skip r_ue else mret ());;
  r_se;; r_se;;
  chroma ← r_flag;
  wp ← r_flag;
  wb ← r_flag;
  tq ← r_flag;
  tiles ← r_flag;
  sync ← r_flag;
  if (tiles : bool) then refuse else
  lf ← r_flag;
  dbc ← r_flag;
  '(ovr, dis) ← (if (dbc : bool) then
      ovr ← r_flag;
      dis ← r_flag;
      (if negb dis then r_se;; skip r_se else mret ());;
      mret (ovr, dis)
    else mret (false, false));
  sl ← r_flag;
  (if (sl : bool) then skip_scaling_list else mret ());;
  lists ← r_flag;
  r_ue;;
  ext ← r_flag;
  failed ← r_failed;
  if (failed : bool) then refuse else
  mret (MkPpsInfo (to_u8 id) (to_u8 sid) dep outp (to_u8 extra) cabac (to_u16 (to_u32 (l0 + 1)))
          (to_u16 (to_u32 (l1 + 1))) (to_i8 qp) cuqp chroma wp wb tq tiles sync lf dbc ovr dis lists ext).

Definition parse_pps (nal : list Z) : option (option PpsInfo) :=
  if len nal <? 3 then Some None else
  t ← nal_type nal;
  if negb (t =? kNalPps) then Some None else
  run_parser pps_body (unescape (drop 2 nal) 256).

(** ** Slice segment header *)

(** The short-term set: [st_used]. *)
Definition slice_st_rps (sps : SpsInfo) : P Z :=
  f ← r_u 1;
  if f =? 0 then
    '(_, used) ← parse_st_rps sps.(num_st_rps) sps.(num_st_rps) sps.(st_rps_num_delta);
    mret used
  else
    idx ← (if sps.(num_st_rps) >? 1 then bits ← lift (bits_for sps.(num_st_rps)); r_u bits else mret 0);
    if idx >=? len sps.(st_rps_num_used) then refuse else
    lift (sps.(st_rps_num_used) !! Z.to_nat idx).

(** One long-term entry: [num_lt] after it. *)
Definition slice_lt_entry (sps : SpsInfo) (num_lt_sps i num_lt : Z) : P Z :=
  num_lt ← (if i <? num_lt_sps then
      idx ← (if sps.(num_long_term_ref_pics_sps) >? 1
             then bits ← lift (bits_for sps.(num_long_term_ref_pics_sps)); r_u bits else mret 0);
      if idx <? len sps.(lt_sps_used) then
        u ← lift (sps.(lt_sps_used) !! Z.to_nat idx);
        mret (if negb (u =? 0) then to_u16 (num_lt + 1) else num_lt)
      else mret num_lt
    else
      r_u sps.(log2_max_poc_lsb);;
      used ← r_u 1;
      mret (if negb (used =? 0) then to_u16 (num_lt + 1) else num_lt));
  msb ← r_u 1;
  (if negb (msb =? 0) then skip r_ue else mret ());;
  mret num_lt.

Definition slice_lt (sps : SpsInfo) : P Z :=
  if sps.(long_term_ref_pics_present) then
    num_lt_sps ← (if sps.(num_long_term_ref_pics_sps) >? 0 then r_ue else mret 0);
    num_lt_pics ← r_ue;
    let n := to_u32 (num_lt_sps + num_lt_pics) in
    if n >? 32 then refuse else
    r_loop (Z.to_nat n) 0 (slice_lt_entry sps num_lt_sps) 0
  else mret 0.

(** The reference-list part of a B or P header: [num_ref_l0] and
    [collocated_ref_idx]. *)
Definition slice_inter (pps : PpsInfo) (type used_refs : Z) (tmvp : bool) : P (Z * Z) :=
  override ← r_u 1;
  '(l0, l1) ← (if negb (override =? 0) then
      a ← r_ue;
      b ← (if type =? 0 then b ← r_ue; mret (to_u16 (to_u32 (b + 1))) else mret pps.(num_ref_idx_l1_default));
      mret (to_u16 (to_u32 (a + 1)), b)
    else mret (pps.(num_ref_idx_l0_default), pps.(num_ref_idx_l1_default)));
  if (l0 >? 16) || (l1 >? 16) then refuse else
  (if pps.(lists_modification_present) && (used_refs >? 1) then
     bits ← lift (bits_for used_refs);
     f ← r_u 1;
     (if negb (f =? 0) then r_times l0 (skip (r_u bits)) else mret ());;
     g ← (if type =? 0 then r_u 1 else mret 0);
     if negb (g =? 0) then r_times l1 (skip (r_u bits)) else mret ()
   else mret ());;
  (if type =? 0 then skip (r_u 1) else mret ());;
  (if pps.(cabac_init_present) then skip (r_u 1) else mret ());;
  coll ← (if tmvp then
      from_l0 ← (if type =? 0 then r_flag else mret true);
      if (from_l0 && (l0 >? 1)) || (negb from_l0 && (l1 >? 1)) then c ← r_ue; mret (to_u16 c) else mret 0
    else mret 0);
  if (pps.(weighted_pred) && (type =? 1)) || (pps.(weighted_bipred) && (type =? 0)) then refuse else
  r_ue;;
  mret (l0, coll).

(** The picture-order-count block of a non-IDR header: [poc_lsb], the bit
    span, [st_used], [num_lt] and the temporal flag. *)
Definition slice_refs (sps : SpsInfo) : P (Z * Z * Z * Z * Z * bool) :=
  poc ← r_u sps.(log2_max_poc_lsb);
  begin_ ← r_pos;
  st_used ← slice_st_rps sps;
  num_lt ← slice_lt sps;
  end_ ← r_pos;
  tmvp ← (if sps.(temporal_mvp_enabled) then r_flag else mret false);
  mret (poc, begin_, end_, st_used, num_lt, tmvp).

Definition slice_body (sps : SpsInfo) (pps : PpsInfo) (h0 h1 type : Z) (rbsp : list Z) : P SliceInfo :=
  first ← r_flag;
  (if nal_is_irap type then skip (r_u 1) else mret ());;
  id ← r_ue;
  if negb (id =? pps.(pps_id)) then refuse else
  '(dep, addr) ← (if negb first then
      dep ← (if pps.(dependent_slice_segments_enabled) then r_flag else mret false);
      a ← r_u sps.(addr_bits);
      mret (dep, a)
    else mret (false, 0));
  if (dep : bool) then refuse else
  r_times pps.(num_extra_slice_header_bits) (skip (r_u 1));;
  st ← r_ue;
  let st := to_u8 st in
  if st >? 2 then refuse else
  (if pps.(output_flag_present) then skip (r_u 1) else mret ());;
  '(poc, begin_, end_, st_used, num_lt, tmvp) ← (if negb (nal_is_idr type) then slice_refs sps
    else mret (0, 0, 0, 0, 0, false));
  let used_refs := to_u16 (st_used + num_lt) in
  (if sps.(sao_enabled) then r_u 1;; skip (r_u 1) else mret ());;
  '(l0, coll) ← (if (st =? 0) || (st =? 1) then slice_inter pps st used_refs tmvp else mret (1, 0));
  qp ← r_se;
  failed ← r_failed;
  if (failed : bool) then refuse else
  mret (MkSliceInfo h0 h1 type first dep (to_u8 id) addr st poc (negb (nal_is_idr type)) tmvp qp used_refs l0 coll
          begin_ end_ rbsp).

Definition parse_slice_header (nal : list Z) (sps : SpsInfo) (pps : PpsInfo) : option (option SliceInfo) :=
  if len nal <? 3 then Some None else
  h0 ← rd8 nal 0;
  h1 ← rd8 nal 1;
  t ← nal_type nal;
  if negb (nal_is_vcl t) then Some None else
  let rbsp := unescape (drop 2 nal) 256 in
  run_parser (slice_body sps pps h0 h1 t rbsp) rbsp.
