(* ===== verification/Cabac.v ===== *)
(** * CABAC arithmetic encoder ([core/src/hevc_conceal.cpp], "CABAC" block)

    The probability tables, the context initialisation and the put-bit form
    of the arithmetic encoder.  The encoder owns the bit vector it appends
    to; an operation is an [option] because it indexes the tables and
    because its renormalisation loop is a [while]. *)
From S2P Require Import Prelude HevcBits.

Definition kLpsTable : list (list Z) :=
  [
   [128; 176; 208; 240]; [128; 167; 197; 227]; [128; 158; 187; 216]; [123; 150; 178; 205];
   [116; 142; 169; 195]; [111; 135; 160; 185]; [105; 128; 152; 175]; [100; 122; 144; 166];
   [95; 116; 137; 158]; [90; 110; 130; 150]; [85; 104; 123; 142]; [81; 99; 117; 135];
   [77; 94; 111; 128]; [73; 89; 105; 122]; [69; 85; 100; 116]; [66; 80; 95; 110];
   [62; 76; 90; 104]; [59; 72; 86; 99]; [56; 69; 81; 94]; [53; 65; 77; 89];
   [51; 62; 73; 85]; [48; 59; 69; 80]; [46; 56; 66; 76]; [43; 53; 63; 72];
   [41; 50; 59; 69]; [39; 48; 56; 65]; [37; 45; 54; 62]; [35; 43; 51; 59];
   [33; 41; 48; 56]; [32; 39; 46; 53]; [30; 37; 43; 50]; [29; 35; 41; 48];
   [27; 33; 39; 45]; [26; 31; 37; 43]; [24; 30; 35; 41]; [23; 28; 33; 39];
   [22; 27; 32; 37]; [21; 26; 30; 35]; [20; 24; 29; 33]; [19; 23; 27; 31];
   [18; 22; 26; 30]; [17; 21; 25; 28]; [16; 20; 23; 27]; [15; 19; 22; 25];
   [14; 18; 21; 24]; [14; 17; 20; 23]; [13; 16; 19; 22]; [12; 15; 18; 21];
   [12; 14; 17; 20]; [11; 14; 16; 19]; [11; 13; 15; 18]; [10; 12; 15; 17];
   [10; 12; 14; 16]; [9; 11; 13; 15]; [9; 11; 12; 14]; [8; 10; 12; 14];
   [8; 9; 11; 13]; [7; 9; 11; 12]; [7; 9; 10; 12]; [7; 8; 10; 11];
   [6; 8; 9; 11]; [6; 7; 9; 10]; [6; 7; 8; 9]; [2; 2; 2; 2]].

Definition kNextStateMps : list Z :=
  [
   1; 2; 3; 4; 5; 6; 7; 8; 9; 10; 11; 12; 13; 14; 15; 16;
   17; 18; 19; 20; 21; 22; 23; 24; 25; 26; 27; 28; 29; 30; 31; 32;
   33; 34; 35; 36; 37; 38; 39; 40; 41; 42; 43; 44; 45; 46; 47; 48;
   49; 50; 51; 52; 53; 54; 55; 56; 57; 58; 59; 60; 61; 62; 62; 63].

Definition kNextStateLps : list Z :=
  [
   0; 0; 1; 2; 2; 4; 4; 5; 6; 7; 8; 9; 9; 11; 11; 12;
   13; 13; 15; 15; 16; 16; 18; 18; 19; 19; 21; 21; 22; 22; 23; 24;
   24; 25; 26; 26; 27; 27; 28; 29; 29; 30; 30; 30; 31; 32; 32; 33;
   33; 33; 34; 34; 35; 35; 35; 36; 36; 36; 37; 37; 37; 38; 38; 63].

Definition kInitSplitCu : list Z := [107; 139; 126].
Definition kInitCuSkip : list Z := [197; 185; 201].

Record Ctx : Type := MkCtx { ctx_state : Z; ctx_mps : Z }.

Definition clamp_i32 (v lo hi : Z) : Z := if v <? lo then lo else if v >? hi then hi else v.
Definition ctx_init (init_value qp : Z) : Ctx :=
  let qp := clamp_i32 qp 0 51 in
  let slope := Z.shiftr init_value 4 * 5 - 45 in
  let offset := Z.shiftl (Z.land init_value 15) 3 - 16 in
  let pre := clamp_i32 (Z.shiftr (slope * qp) 4 + offset) 1 126 in
  if pre <=? 63 then MkCtx (to_u8 (63 - pre)) 0 else MkCtx (to_u8 (pre - 64)) 1.

Record CtxSet : Type := MkCtxSet { cs_split : list Ctx; cs_skip : list Ctx }.
Definition fresh_contexts (slice_qp : Z) : CtxSet :=
  MkCtxSet ((fun v => ctx_init v slice_qp) <$> kInitSplitCu) ((fun v => ctx_init v slice_qp) <$> kInitCuSkip).

(** ** The encoder *)
Record CabacEnc : Type := MkCabacEnc {
  ce_bits : list Z;          (** the bit vector of the writer *)
  ce_low : Z;
  ce_range : Z;
  ce_outstanding : Z;
  ce_first : bool
}.
Definition cabac_reset (bits : list Z) : CabacEnc := MkCabacEnc bits 0 510 0 true.

Definition put_bit (e : CabacEnc) (b : Z) : CabacEnc :=
  MkCabacEnc (e.(ce_bits) ++ (if e.(ce_first) then [] else [to_u8 b]) ++
              replicate (Z.to_nat e.(ce_outstanding)) (to_u8 (1 - b)))
    e.(ce_low) e.(ce_range) 0 false.

(** One iteration of the renormalisation loop. *)
Definition renorm_step (e : CabacEnc) : CabacEnc :=
  let e :=
    if e.(ce_low) <? 256 then put_bit e 0
    else if e.(ce_low) >=? 512 then
      put_bit (MkCabacEnc e.(ce_bits) (e.(ce_low) - 512) e.(ce_range) e.(ce_outstanding) e.(ce_first)) 1
    else MkCabacEnc e.(ce_bits) (e.(ce_low) - 256) e.(ce_range) (to_u32 (e.(ce_outstanding) + 1)) e.(ce_first) in
  MkCabacEnc e.(ce_bits) (to_u32 (Z.shiftl e.(ce_low) 1)) (to_u32 (Z.shiftl e.(ce_range) 1)) e.(ce_outstanding)
    e.(ce_first).
(** [while (range_ < 256)]: eight doublings at most from a range of 1. *)
Fixpoint renorm_loop (fuel : nat) (e : CabacEnc) : option CabacEnc :=
  if e.(ce_range) <? 256 then
    match fuel with
    | O => None
    | S fuel => renorm_loop fuel (renorm_step e)
    end
  else Some e.
Definition renorm (e : CabacEnc) : option CabacEnc := renorm_loop 8 e.

Definition set_interval (e : CabacEnc) (low range : Z) : CabacEnc :=
  MkCabacEnc e.(ce_bits) low range e.(ce_outstanding) e.(ce_first).

Definition lps_range (state range : Z) : option Z :=
  row ← kLpsTable !! Z.to_nat state;
  row !! Z.to_nat (Z.land (Z.shiftr range 6) 3).

(** The context after a bin: the probability state machine. *)
Definition ctx_update (c : Ctx) (bin : Z) : option Ctx :=
  if negb (bin =? c.(ctx_mps)) then
    s ← kNextStateLps !! Z.to_nat c.(ctx_state);
    Some (MkCtx s (if c.(ctx_state) =? 0 then to_u8 (1 - c.(ctx_mps)) else c.(ctx_mps)))
  else
    s ← kNextStateMps !! Z.to_nat c.(ctx_state);
    Some (MkCtx s c.(ctx_mps)).

Definition encode_bin (e : CabacEnc) (c : Ctx) (bin : Z) : option (CabacEnc * Ctx) :=
  lps ← lps_range c.(ctx_state) e.(ce_range);
  let range := to_u32 (e.(ce_range) - lps) in
  c' ← ctx_update c bin;
  e ← renorm (if negb (bin =? c.(ctx_mps)) then set_interval e (to_u32 (e.(ce_low) + range)) lps
              else set_interval e e.(ce_low) range);
  Some (e, c').

Definition push_bits (e : CabacEnc) (l : list Z) : CabacEnc :=
  MkCabacEnc (e.(ce_bits) ++ l) e.(ce_low) e.(ce_range) e.(ce_outstanding) e.(ce_first).

Definition encode_terminate (e : CabacEnc) (bin : bool) : option CabacEnc :=
  let range := to_u32 (e.(ce_range) - 2) in
  if bin then
    e ← renorm (set_interval e (to_u32 (e.(ce_low) + range)) 2);
    let e := put_bit e (Z.land (Z.shiftr e.(ce_low) 9) 1) in
    let v := Z.lor (Z.land (Z.shiftr e.(ce_low) 7) 3) 1 in
    Some (push_bits e [Z.land (Z.shiftr v 1) 1; Z.land v 1])
  else renorm (set_interval e e.(ce_low) range).
