(* ===== verification/HevcConceal.v ===== *)
(** * HEVC concealment slice synthesis ([core/src/hevc_conceal.cpp],
    [write_conceal_header], [emit_cu], [make_conceal_slice])

    The header of the synthesized slice, the coding quadtree of its all-skip
    payload with the depth grid the context indices read, the WPP substream
    bookkeeping, and the assembly of the escaped NAL.  [None] is undefined
    behaviour (an access outside the grid or a table, a shift by 32 or more,
    a signed overflow); [Some None] is [return false]. *)
From S2P Require Import Prelude HevcBits HevcParse Cabac.

(** [1u << n]. *)
Definition shl1 (n : Z) : option Z :=
  if (0 <=? n) && (n <? 32) then Some (Z.shiftl 1 n) else None.

(** ** The header *)

(** The bits of a list of writer calls, in order. *)
Definition w_all (ls : list (option (list Z))) : option (list Z) :=
  foldM (fun acc l => b ← l; Some (acc ++ b)) ls [].
Definition w_when (b : bool) (l : option (list Z)) : option (list Z) := if b then l else Some [].

Definition conceal_poc (sps : SpsInfo) (donor : SliceInfo) (poc_override : Z) : option Z :=
  if poc_override >=? 0 then
    m ← shl1 sps.(log2_max_poc_lsb);
    Some (Z.land (to_u32 poc_override) (m - 1))
  else Some donor.(poc_lsb).

Definition conceal_num_ref_l0 (donor : SliceInfo) : Z :=
  if donor.(temporal_mvp) then Z.max donor.(num_ref_l0) 1 else 1.

(** [while ((1u << len) < max_off) ++len;] starts at 1. *)
Definition offset_len (entry_points : list Z) : option Z :=
  bits_loop 30 1 (fold_left Z.max entry_points 1).
Definition w_entry_points (entry_points : list Z) : option (list Z) :=
  if bool_decide (entry_points = []) then Some [] else
  n ← offset_len entry_points;
  a ← w_ue (n - 1);
  b ← w_all ((fun ep => w_u (to_u32 (ep - 1)) n) <$> entry_points);
  Some (a ++ b).

(** Up to [slice_type]: the fields that place the slice. *)
Definition w_address (sps : SpsInfo) (pps : PpsInfo) (donor : SliceInfo) (addr : Z) (first : bool)
  : option (list Z) :=
  w_all [
    w_u (if first then 1 else 0) 1;
    w_ue donor.(slice_pps_id);
    w_when (negb first) (w_all [
      w_when pps.(dependent_slice_segments_enabled) (w_u 0 1);
      w_u addr sps.(addr_bits)]);
    w_all (replicate (Z.to_nat pps.(num_extra_slice_header_bits)) (w_u 0 1));
    w_ue 1;
    w_when pps.(output_flag_present) (w_u 1 1)].

(** The picture fields: POC, the donor's reference span, temporal flag, SAO. *)
Definition w_picture (sps : SpsInfo) (donor : SliceInfo) (poc_override : Z) : option (list Z) :=
  poc ← conceal_poc sps donor poc_override;
  w_all [
    w_u poc sps.(log2_max_poc_lsb);
    w_copy_bits donor.(header_rbsp) donor.(strps_bit_begin) donor.(strps_bit_end);
    w_when sps.(temporal_mvp_enabled) (w_u (if donor.(temporal_mvp) then 1 else 0) 1);
    w_when sps.(sao_enabled) (w_all [w_u 0 1; w_u 0 1])].

(** The P reference list down to the QP delta. *)
Definition w_inter (pps : PpsInfo) (donor : SliceInfo) : option (list Z) :=
  let l0 := conceal_num_ref_l0 donor in
  w_all [
    (if negb (pps.(num_ref_idx_l0_default) =? l0) then w_all [w_u 1 1; w_ue (to_u32 (l0 - 1))] else w_u 0 1);
    w_when (pps.(lists_modification_present) && (donor.(num_used_refs) >? 1)) (w_u 0 1);
    w_when pps.(cabac_init_present) (w_u 0 1);
    w_when (donor.(temporal_mvp) && (l0 >? 1)) (w_ue donor.(collocated_ref_idx));
    w_ue 4;
    w_se donor.(qp_delta)].

(** The fields after the QP delta. *)
Definition w_tail (pps : PpsInfo) (entry_points : list Z) : option (list Z) :=
  let deblocking_disabled := pps.(pps_deblocking_filter_disabled) || pps.(deblocking_filter_override_enabled) in
  w_all [
    w_when pps.(slice_chroma_qp_offsets_present) (w_all [w_se 0; w_se 0]);
    w_when pps.(deblocking_filter_override_enabled) (w_all [w_u 1 1; w_u 1 1]);
    w_when (pps.(loop_filter_across_slices) && negb deblocking_disabled) (w_u 0 1);
    w_when pps.(entropy_coding_sync_enabled)
      (w_all [w_ue (to_u32 (len entry_points)); w_entry_points entry_points]);
    w_when pps.(slice_segment_header_extension_present) (w_ue 0)].

Definition write_conceal_header (sps : SpsInfo) (pps : PpsInfo) (donor : SliceInfo) (addr : Z) (first : bool)
    (poc_override : Z) (entry_points : list Z) : option (list Z) :=
  b ← w_all [w_address sps pps donor addr first; w_picture sps donor poc_override; w_inter pps donor;
             w_tail pps entry_points];
  Some (align_header b).

(** ** The all-skip payload *)

(** What [EmitState] points to: the picture, the span, and the mutable
    encoder, contexts and depth grid. *)
Record EmitEnv : Type := MkEmitEnv {
  ee_sps : SpsInfo;
  ee_w_mincb : Z;
  ee_first_ctb : Z;
  ee_cur_ctb : Z
}.
Record EmitState : Type := MkEmitState {
  es_enc : CabacEnc;
  es_ctxs : CtxSet;
  es_depth : list Z
}.

Definition nb_avail (env : EmitEnv) (x y : Z) : bool :=
  let sps := env.(ee_sps) in
  if (x <? 0) || (y <? 0) || (x >=? sps.(pic_width)) || (y >=? sps.(pic_height)) then false else
  let addr := to_u32 (to_u32 (Z.shiftr y sps.(log2_ctb) * sps.(pic_width_ctbs)) + Z.shiftr x sps.(log2_ctb)) in
  (addr >=? env.(ee_first_ctb)) && (addr <=? env.(ee_cur_ctb)).

Definition nb_depth (env : EmitEnv) (depth : list Z) (x y : Z) : option Z :=
  let mx := Z.shiftr (to_u32 x) env.(ee_sps).(log2_min_cb) in
  let my := Z.shiftr (to_u32 y) env.(ee_sps).(log2_min_cb) in
  rd8 depth (Z.to_nat (to_u32 (to_u32 (my * env.(ee_w_mincb)) + mx))).

(** The min-CB coordinates from [a] to the one covering [b - 1]. *)
Definition cb_span (sh a b : Z) : list Z :=
  seqZ (Z.shiftr a sh) (Z.shiftr (to_u32 (b + Z.shiftl 1 sh - 1)) sh - Z.shiftr a sh).
Definition mark_depth (env : EmitEnv) (depth : list Z) (x y size d : Z) : option (list Z) :=
  let sh := env.(ee_sps).(log2_min_cb) in
  let x1 := Z.min (to_u32 (x + size)) env.(ee_sps).(pic_width) in
  let y1 := Z.min (to_u32 (y + size)) env.(ee_sps).(pic_height) in
  foldM (fun depth my =>
    foldM (fun depth mx => wr8 depth (Z.to_nat (to_u32 (to_u32 (my * env.(ee_w_mincb)) + mx))) d)
      (cb_span sh x x1) depth)
    (cb_span sh y y1) depth.

(** [enc->encode_bin(ctxs->split[inc], bin)] and its [skip] twin. *)
Definition encode_ctx (e : CabacEnc) (cs : list Ctx) (inc bin : Z) : option (CabacEnc * list Ctx) :=
  c ← cs !! Z.to_nat inc;
  '(e, c) ← encode_bin e c bin;
  Some (e, <[Z.to_nat inc := c]> cs).
Definition encode_split (st : EmitState) (inc bin : Z) : option EmitState :=
  '(e, cs) ← encode_ctx st.(es_enc) st.(es_ctxs).(cs_split) inc bin;
  Some (MkEmitState e (MkCtxSet cs st.(es_ctxs).(cs_skip)) st.(es_depth)).
Definition encode_skip (st : EmitState) (inc bin : Z) : option EmitState :=
  '(e, cs) ← encode_ctx st.(es_enc) st.(es_ctxs).(cs_skip) inc bin;
  Some (MkEmitState e (MkCtxSet st.(es_ctxs).(cs_split) cs) st.(es_depth)).

(** [ctxInc] of [split_cu_flag]: the available neighbours that are deeper. *)
Definition split_inc (env : EmitEnv) (depth : list Z) (x y d : Z) : option Z :=
  a ← (if nb_avail env (x - 1) y then v ← nb_depth env depth (x - 1) y; Some (if v >? d then 1 else 0)
       else Some 0);
  b ← (if nb_avail env x (y - 1) then v ← nb_depth env depth x (y - 1); Some (if v >? d then 1 else 0)
       else Some 0);
  Some (a + b).
Definition skip_inc (env : EmitEnv) (x y : Z) : Z :=
  (if nb_avail env (x - 1) y then 1 else 0) + (if nb_avail env x (y - 1) then 1 else 0).

(** A coding unit inside the picture. *)
Definition emit_leaf (env : EmitEnv) (st : EmitState) (x y log2size d : Z) : option EmitState :=
  st ← (if log2size >? env.(ee_sps).(log2_min_cb) then
      inc ← split_inc env st.(es_depth) x y d;
      encode_split st inc 0
    else Some st);
  st ← encode_skip st (skip_inc env x y) 1;
  depth ← mark_depth env st.(es_depth) x y (Z.shiftl 1 log2size) d;
  Some (MkEmitState st.(es_enc) st.(es_ctxs) depth).

(** The recursion is on [log2size]: a unit of one sample is never outside. *)
Fixpoint emit_cu (env : EmitEnv) (st : EmitState) (x y : Z) (log2size : nat) (d : Z) : option EmitState :=
  let sps := env.(ee_sps) in
  if (x >=? sps.(pic_width)) || (y >=? sps.(pic_height)) then Some st else
  let size := Z.shiftl 1 (Z.of_nat log2size) in
  let inside := (to_u32 (x + size) <=? sps.(pic_width)) && (to_u32 (y + size) <=? sps.(pic_height)) in
  if inside then emit_leaf env st x y (Z.of_nat log2size) d else
  match log2size with
  | O => None
  | S half =>
    let hs := Z.shiftl 1 (Z.of_nat half) in
    st ← emit_cu env st x y half (to_u8 (d + 1));
    st ← emit_cu env st (to_u32 (x + hs)) y half (to_u8 (d + 1));
    st ← emit_cu env st x (to_u32 (y + hs)) half (to_u8 (d + 1));
    emit_cu env st (to_u32 (x + hs)) (to_u32 (y + hs)) half (to_u8 (d + 1))
  end.

(** ** The CTU loop *)
Record PayloadState : Type := MkPayloadState {
  ps_emit : EmitState;
  ps_snapshot : option CtxSet;
  ps_starts : list Z
}.
Definition with_enc (st : EmitState) (e : CabacEnc) : EmitState := MkEmitState e st.(es_ctxs) st.(es_depth).
Definition with_ctxs (st : EmitState) (c : CtxSet) : EmitState := MkEmitState st.(es_enc) c st.(es_depth).
(** [bw.align_zero()] under the encoder. *)
Definition enc_align (e : CabacEnc) : CabacEnc :=
  MkCabacEnc (align_zero e.(ce_bits)) e.(ce_low) e.(ce_range) e.(ce_outstanding) e.(ce_first).

(** The end of a CTU row under WPP: close the substream and re-initialise. *)
Definition wpp_row_end (ps : PayloadState) (width addr first_addr slice_qp : Z) : option PayloadState :=
  e ← encode_terminate ps.(ps_emit).(es_enc) true;
  let e := enc_align e in
  let starts := ps.(ps_starts) ++ [to_u32 (len e.(ce_bits) / 8)] in
  let e := cabac_reset e.(ce_bits) in
  let above_right := to_u32 (addr + 2 - width) in
  let ctxs := match ps.(ps_snapshot) with
    | Some snapshot => if (width >=? 2) && (above_right >=? first_addr) then snapshot else fresh_contexts slice_qp
    | None => fresh_contexts slice_qp
    end in
  Some (MkPayloadState (with_ctxs (with_enc ps.(ps_emit) e) ctxs) ps.(ps_snapshot) starts).

Definition ctu_step (sps : SpsInfo) (wpp : bool) (w_mincb first_addr slice_qp : Z) (ps : PayloadState) (addr : Z)
    (last : bool) : option PayloadState :=
  let width := sps.(pic_width_ctbs) in
  if (width =? 0) || (sps.(log2_ctb) >=? 32) then None else
  let cx := to_u32 (Z.shiftl (addr mod width) sps.(log2_ctb)) in
  let cy := to_u32 (Z.shiftl (addr / width) sps.(log2_ctb)) in
  st ← emit_cu (MkEmitEnv sps w_mincb first_addr addr) ps.(ps_emit) cx cy (Z.to_nat sps.(log2_ctb)) 0;
  e ← encode_terminate st.(es_enc) last;
  let st := with_enc st e in
  if last then Some (MkPayloadState (with_enc st (enc_align e)) ps.(ps_snapshot) ps.(ps_starts)) else
  let snapshot := if wpp && (addr mod width =? 1) then Some st.(es_ctxs) else ps.(ps_snapshot) in
  let ps := MkPayloadState st snapshot ps.(ps_starts) in
  if wpp && (to_u32 (addr + 1) mod width =? 0) then wpp_row_end ps width addr first_addr slice_qp
  else Some ps.

Fixpoint ctu_loop (sps : SpsInfo) (wpp : bool) (w_mincb first_addr slice_qp : Z) (n : nat) (ps : PayloadState)
    (addr : Z) : option PayloadState :=
  match n with
  | O => Some ps
  | S n =>
    ps ← ctu_step sps wpp w_mincb first_addr slice_qp ps addr (n =? 0)%nat;
    ctu_loop sps wpp w_mincb first_addr slice_qp n ps (to_u32 (addr + 1))
  end.

(** The escaped length of one substream: its bytes plus the prevention bytes. *)
Fixpoint esc_count (l : list Z) (zeros : Z) : Z :=
  match l with
  | [] => 0
  | c :: l =>
    let esc := (zeros >=? 2) && (c <=? 3) in
    let zeros := if esc then 0 else zeros in
    (if esc then 1 else 0) + esc_count l (if c =? 0 then zeros + 1 else 0)
  end.
Fixpoint segment_lengths (payload : list Z) (starts : list Z) : list Z :=
  match starts with
  | a :: (b :: _) as rest =>
    to_u32 (b - a + esc_count (take (Z.to_nat (b - a)) (drop (Z.to_nat a) payload)) 0) ::
    segment_lengths payload rest
  | _ => []
  end.

(** ** The slice *)

(** The shapes [make_conceal_slice] refuses. *)
Definition conceal_refused (sps : SpsInfo) (pps : PpsInfo) (donor : SliceInfo) (addr num_ctbs poc_override : Z)
  : bool :=
  pps.(tiles_enabled) || pps.(transquant_bypass_enabled) || donor.(dependent) || negb donor.(has_poc) ||
  (donor.(slice_type) =? 2) || nal_is_irap donor.(nal_unit_type) ||
  ((poc_override >=? 0) && (donor.(nal_unit_type) <=? 14) && (Z.land donor.(nal_unit_type) 1 =? 0)) ||
  (sps.(pic_size_ctbs) =? 0) || (num_ctbs =? 0) || (to_u32 (addr + num_ctbs) >? sps.(pic_size_ctbs)) ||
  (donor.(strps_bit_end) <? donor.(strps_bit_begin)) ||
  (donor.(strps_bit_end) >? len donor.(header_rbsp) * 8) ||
  (pps.(weighted_pred) && (donor.(slice_type) =? 1)) || (pps.(weighted_bipred) && (donor.(slice_type) =? 0)).

(** The slice data: its bytes and the entry point offsets. *)
Definition conceal_payload (sps : SpsInfo) (pps : PpsInfo) (addr num_ctbs slice_qp : Z)
  : option (list Z * list Z) :=
  mincb ← shl1 sps.(log2_min_cb);
  let w_mincb := Z.shiftr (to_u32 (sps.(pic_width) + mincb - 1)) sps.(log2_min_cb) in
  let h_mincb := Z.shiftr (to_u32 (sps.(pic_height) + mincb - 1)) sps.(log2_min_cb) in
  let st := MkEmitState (cabac_reset []) (fresh_contexts slice_qp) (replicate (Z.to_nat (w_mincb * h_mincb)) 0) in
  ps ← ctu_loop sps pps.(entropy_coding_sync_enabled) w_mincb addr slice_qp (Z.to_nat num_ctbs)
         (MkPayloadState st None [0]) addr;
  payload ← pack_bits ps.(ps_emit).(es_enc).(ce_bits);
  Some (payload, if pps.(entropy_coding_sync_enabled) then segment_lengths payload ps.(ps_starts) else []).

Definition make_conceal_slice (sps : SpsInfo) (pps : PpsInfo) (donor : SliceInfo) (addr num_ctbs : Z) (first : bool)
    (poc_override : Z) : option (option (list Z)) :=
  if conceal_refused sps pps donor addr num_ctbs poc_override then Some None else
  slice_qp ← i32_of (pps.(init_qp) + donor.(qp_delta));
  '(payload, entry_points) ← conceal_payload sps pps addr num_ctbs slice_qp;
  bits ← write_conceal_header sps pps donor addr first poc_override entry_points;
  header ← pack_bits bits;
  Some (Some (escape_append (header ++ payload) donor.(nal_header0) donor.(nal_header1))).
