(* ===== verification/HevcCodes.v ===== *)
(** * Laws and round trips of the HEVC bit reader and writer

    [Total m]: the parser [m] stays inside its buffer and terminates.
    [Reads m w a]: on any input that starts with the bits [w], [m] consumes
    exactly [w] and returns [a].  [Local m]: whatever a successful run of [m]
    consumed determines its result.  The three are closed under the monad, so
    instance resolution proves them of whole parsers.

    [u(n)], [ue(v)] and [se(v)]: the reader is total and local, and reads back
    what the writer wrote; emulation prevention and bit packing invert. *)
From S2P Require Import Prelude Endian HevcBits Cabac.
(** ** The bits of a buffer *)
Definition byte_bits (b : Z) : list Z :=
  (fun i => Z.land (Z.shiftr b (7 - i)) 1) <$> [0; 1; 2; 3; 4; 5; 6; 7].
Definition bits_of (d : list Z) : list Z := flat_map byte_bits d.

Lemma bits_of_app a b : bits_of (a ++ b) = bits_of a ++ bits_of b.
Proof. apply flat_map_app. Qed.

Lemma bits_of_length d : length (bits_of d) = (8 * length d)%nat.
Proof.
  induction d as [|b d IH]; [done|]. change (bits_of (b :: d)) with (byte_bits b ++ bits_of d).
  rewrite length_app, IH. cbn. lia.
Qed.

Lemma bits_of_lookup d (p : Z) b :
  0 <= p -> d !! Z.to_nat (Z.shiftr p 3) = Some b ->
  bits_of d !! Z.to_nat p = Some (Z.land (Z.shiftr b (7 - Z.land p 7)) 1).
Proof.
  intros Hp. rewrite Z.shiftr_div_pow2 by lia. change (2 ^ 3) with 8.
  change 7 with (Z.ones 3) at 2. rewrite Z.land_ones by lia. change (2 ^ 3) with 8.
  revert p Hp. induction d as [|x d IH]; intros p Hp Hb; [done|].
  change (bits_of (x :: d)) with (byte_bits x ++ bits_of d).
  destruct (Z.lt_ge_cases p 8) as [Hlt|Hge].
  - rewrite Z.div_small in Hb by lia. rewrite (Z.mod_small p 8) by lia.
    cbn in Hb. injection Hb as ->. rewrite lookup_app_l by (cbn; lia).
    assert (Hc : p = 0 \/ p = 1 \/ p = 2 \/ p = 3 \/ p = 4 \/ p = 5 \/ p = 6 \/ p = 7) by lia.
    destruct Hc as [->|[->|[->|[->|[->|[->|[->| ->]]]]]]]; reflexivity.
  - rewrite lookup_app_r by (cbn; lia).
    replace (Z.to_nat p - length (byte_bits x))%nat with (Z.to_nat (p - 8)) by (cbn; lia).
    replace (p mod 8) with ((p - 8) mod 8) by (Z.div_mod_to_equations; lia).
    apply IH; [lia|]. replace (Z.to_nat (p / 8)) with (S (Z.to_nat ((p - 8) / 8))) in Hb; [done|].
    Z.div_mod_to_equations; lia.
Qed.

(** A bit, as the reader and the writer hold it. *)
Definition bit (b : Z) : Prop := b = 0 \/ b = 1.
Lemma land_1_bit z : bit (Z.land z 1).
Proof.
  change 1 with (Z.ones 1). rewrite Z.land_ones by lia. change (2 ^ 1) with 2.
  pose proof (Z.mod_pos_bound z 2 ltac:(lia)). unfold bit. lia.
Qed.
Lemma byte_bits_bit b : Forall bit (byte_bits b).
Proof. apply Forall_fmap, Forall_forall. intros i _. apply land_1_bit. Qed.
Lemma bits_of_bit d : Forall bit (bits_of d).
Proof. induction d as [|b d IH]; [constructor|]. apply Forall_app. split; [apply byte_bits_bit|exact IH]. Qed.

(** ** Reader states *)
Definition rwf (r : BitReader) : Prop :=
  r.(br_bits) = 8 * len r.(br_d) /\ r.(br_bits) < 4294967296 /\ 0 <= r.(br_pos) <= r.(br_bits).
Definition rest (r : BitReader) : list Z := drop (Z.to_nat r.(br_pos)) (bits_of r.(br_d)).
(** A live reader whose remaining bits are [l]. *)
Definition at_bits (r : BitReader) (l : list Z) : Prop := rwf r /\ r.(br_fail) = false /\ rest r = l.

Lemma rest_length r : rwf r -> len (rest r) = r.(br_bits) - r.(br_pos).
Proof. intros (Hb & _ & Hp). unfold rest. rewrite length_drop, bits_of_length. lia. Qed.

Lemma reader_init_wf d : 8 * len d < 4294967296 -> rwf (BitReader_init d (len d)).
Proof. intros H. unfold rwf, BitReader_init. cbn. rewrite (to_u32_id (len d)) by ints. rewrite to_u32_id by ints. lia. Qed.

Lemma reader_init_at d : 8 * len d < 4294967296 -> at_bits (BitReader_init d (len d)) (bits_of d).
Proof. intros H. split_and!; [by apply reader_init_wf|done|done]. Qed.

(** The one way a reader moves. *)
Lemma reader_next r b t :
  rwf r -> rest r = b :: t ->
  (r.(br_pos) >=? r.(br_bits)) = false /\
  (exists c, rd8 r.(br_d) (Z.to_nat (Z.shiftr r.(br_pos) 3)) = Some c /\
             Z.land (Z.shiftr c (7 - Z.land r.(br_pos) 7)) 1 = b) /\
  rwf (advance r) /\ rest (advance r) = t.
Proof.
  intros Hw Hr. pose proof (rest_length r Hw) as Hl. rewrite Hr in Hl. cbn [length] in Hl.
  destruct Hw as (Hb & Hm & Hp).
  assert (Hlt : r.(br_pos) < r.(br_bits)) by lia.
  assert (Hn : (Z.to_nat (Z.shiftr (br_pos r) 3) < length (br_d r))%nat).
  { rewrite Z.shiftr_div_pow2 by lia. change (2 ^ 3) with 8. Z.div_mod_to_equations; lia. }
  destruct (lookup_lt_is_Some_2 _ _ Hn) as [c Hc].
  pose proof (bits_of_lookup _ _ _ (proj1 Hp) Hc) as Hbit.
  unfold rest in Hr. rewrite (drop_S _ _ _ Hbit) in Hr. injection Hr as Hhd Htl.
  assert (Hadv : to_u32 (br_pos r + 1) = br_pos r + 1) by (apply to_u32_id; ints).
  split_and!.
  - rewrite Z.geb_leb. apply Z.leb_gt. lia.
  - exists c. done.
  - unfold rwf, advance. cbn. rewrite Hadv. lia.
  - unfold rest, advance. cbn. rewrite Hadv. rewrite <- Htl. f_equal. lia.
Qed.

Lemma reader_end r : rwf r -> rest r = [] -> (r.(br_pos) >=? r.(br_bits)) = true.
Proof.
  intros Hw Hr. pose proof (rest_length r Hw) as Hl. rewrite Hr in Hl. cbn in Hl.
  rewrite Z.geb_leb. apply Z.leb_le. lia.
Qed.

(** ** The three judgements *)
Definition reader_step (r r' : BitReader) : Prop :=
  rwf r' /\ r'.(br_d) = r.(br_d) /\ (r.(br_fail) = true -> r'.(br_fail) = true).
Lemma reader_step_refl r : rwf r -> reader_step r r.
Proof. done. Qed.
Lemma reader_step_trans a b c : reader_step a b -> reader_step b c -> reader_step a c.
Proof. intros (_ & Hd & Hf) (Hw & Hd' & Hf'). split_and!; [done|congruence|auto]. Qed.

Class Total {A} (m : P A) : Prop := total r :
  rwf r -> m r = Some None \/ exists a r', m r = Some (Some (a, r')) /\ reader_step r r'.

Definition Reads {A} (m : P A) (w : list Z) (a : A) : Prop :=
  forall r t, at_bits r (w ++ t) ->
  exists r', m r = Some (Some (a, r')) /\ at_bits r' t /\ r'.(br_d) = r.(br_d).

Definition reads_back {A} (m : P A) : Prop := forall r a r',
  rwf r -> m r = Some (Some (a, r')) -> r'.(br_fail) = false ->
  exists c, at_bits r (c ++ rest r') /\ at_bits r' (rest r') /\ r'.(br_d) = r.(br_d) /\ Reads m c a.
Class Local {A} (m : P A) : Prop := {
  local_step r a r' : rwf r -> m r = Some (Some (a, r')) -> reader_step r r';
  local : reads_back m
}.
Lemma total_step {A} (m : P A) r a r' : Total m -> rwf r -> m r = Some (Some (a, r')) -> reader_step r r'.
Proof. intros H Hr E. destruct (H r Hr) as [E'|(a' & r1 & E' & Hs)]; [congruence|]. by replace r' with r1 by congruence. Qed.
Lemma local_of_total {A} (m : P A) : Total m -> reads_back m -> Local m.
Proof. intros Ht Hl. split; [intros r a r'; by apply total_step|done]. Qed.

(** What every result of a parser satisfies. *)
Definition post {A} (m : P A) (Q : A -> Prop) : Prop :=
  forall r a r', m r = Some (Some (a, r')) -> Q a.

(** ** The monad *)
Lemma bind_eq {A B} (m : P A) (k : A -> P B) r :
  (m ≫= k) r = match m r with None => None | Some None => Some None | Some (Some (a, r)) => k a r end.
Proof. done. Qed.
Lemma bind_inv {A B} (m : P A) (k : A -> P B) r b r' :
  (m ≫= k) r = Some (Some (b, r')) -> exists a r1, m r = Some (Some (a, r1)) /\ k a r1 = Some (Some (b, r')).
Proof. rewrite bind_eq. destruct (m r) as [[[a r1]|]|]; [eauto|done|done]. Qed.

Section Monad.
Context {A B : Type}.
Implicit Types (m : P A) (k : A -> P B).

#[export] Instance total_ret (a : A) : Total (mret a).
Proof. intros r Hr. right. exists a, r. done. Qed.
#[export] Instance total_refuse : Total (refuse : P A).
Proof. intros r Hr. by left. Qed.
Lemma total_bind_post m k (Q : A -> Prop) :
  Total m -> post m Q -> (forall a, Q a -> Total (k a)) -> Total (m ≫= k).
Proof.
  intros Hm HQ Hk r Hr. rewrite bind_eq. destruct (Hm r Hr) as [E|(a & r1 & E & Hs)]; rewrite E; [by left|].
  destruct (Hk a (HQ _ _ _ E) r1 (proj1 Hs)) as [E2|(b & r2 & E2 & Hs2)]; [by left|].
  right. exists b, r2. split; [done|]. by eapply reader_step_trans.
Qed.
#[export] Instance total_bind m k : Total m -> (forall a, Total (k a)) -> Total (m ≫= k).
Proof. intros Hm Hk. apply (total_bind_post m k (fun _ => True)); [done|by intros ?|auto]. Qed.
Lemma total_lift_some (a : A) o : o = Some a -> Total (lift o).
Proof. intros -> r Hr. right. exists a, r. done. Qed.

Lemma reads_ret (a : A) : Reads (mret a) [] a.
Proof. intros r t Hr. exists r. done. Qed.
Lemma reads_lift (a : A) o : o = Some a -> Reads (lift o) [] a.
Proof. intros -> r t Hr. exists r. done. Qed.
Lemma reads_bind m k w1 w2 a b : Reads m w1 a -> Reads (k a) w2 b -> Reads (m ≫= k) (w1 ++ w2) b.
Proof.
  intros Hm Hk r t Hr. rewrite <- app_assoc in Hr. destruct (Hm _ _ Hr) as (r1 & E1 & Hr1 & Hd1).
  destruct (Hk _ _ Hr1) as (r2 & E2 & Hr2 & Hd2). exists r2. rewrite bind_eq, E1.
  split_and!; [done|done|congruence].
Qed.
Lemma reads_bind_nil m k w a b : Reads m [] a -> Reads (k a) w b -> Reads (m ≫= k) w b.
Proof. apply (reads_bind m k [] w). Qed.

#[export] Instance local_ret (a : A) : Local (mret a).
Proof.
  apply local_of_total; [apply _|]. intros r a' r' Hr E Hf. cbv in E. injection E as <- <-. exists [].
  split_and!; try done. apply reads_ret.
Qed.
#[export] Instance local_refuse : Local (refuse : P A).
Proof. apply local_of_total; [apply _|]. intros r a r' Hr [=]. Qed.
#[export] Instance local_lift (o : option A) : Local (lift o).
Proof.
  unfold lift. split; intros r a r' Hr E; (destruct o as [x|]; [|done]); injection E as <- <-; [by apply reader_step_refl|].
  intros Hf. exists []. split_and!; try done. by apply (reads_lift x (Some x)).
Qed.
#[export] Instance local_bind m k : Local m -> (forall a, Local (k a)) -> Local (m ≫= k).
Proof.
  intros Hm Hk. split; intros r b r' Hr E; apply bind_inv in E as (a & r1 & E1 & E2);
    pose proof (local_step _ _ _ Hr E1) as Hs; pose proof (local_step (m := k a) _ _ _ (proj1 Hs) E2) as Hs2.
  - by eapply reader_step_trans.
  - intros Hf. destruct (local (m := k a) r1 b r' (proj1 Hs) E2 Hf) as (c2 & Hr1 & Hr' & Hd2 & HR2).
    pose proof Hr1 as (_ & Hf1 & Hrest1).
    destruct (local (m := m) r a r1 Hr E1 Hf1) as (c1 & Hrr & _ & Hd1 & HR1).
    exists (c1 ++ c2). rewrite <- app_assoc, <- Hrest1.
    split_and!; [done|done|congruence|]. by apply (reads_bind m k c1 c2 a).
Qed.
End Monad.

#[export] Instance total_if {A} (b : bool) (m1 m2 : P A) : Total m1 -> Total m2 -> Total (if b then m1 else m2).
Proof. by destruct b. Qed.
#[export] Instance local_if {A} (b : bool) (m1 m2 : P A) : Local m1 -> Local m2 -> Local (if b then m1 else m2).
Proof. by destruct b. Qed.
#[export] Instance total_pair {A B C} (p : A * B) (m : A -> B -> P C) :
  (forall a b, Total (m a b)) -> Total (let '(a, b) := p in m a b).
Proof. by destruct p. Qed.
#[export] Instance local_pair {A B C} (p : A * B) (m : A -> B -> P C) :
  (forall a b, Local (m a b)) -> Local (let '(a, b) := p in m a b).
Proof. by destruct p. Qed.
#[export] Instance total_loop {S} n i (f : Z -> S -> P S) s :
  (forall i s, Total (f i s)) -> Total (r_loop n i f s).
Proof.
  intros Hf. revert i s. induction n as [|n IH]; intros i s; cbn [r_loop]; [apply _|].
  apply total_bind; [apply Hf|intros a; apply IH].
Qed.
#[export] Instance local_loop {S} n i (f : Z -> S -> P S) s :
  (forall i s, Local (f i s)) -> Local (r_loop n i f s).
Proof.
  intros Hf. revert i s. induction n as [|n IH]; intros i s; cbn [r_loop]; [apply _|].
  apply local_bind; [apply Hf|intros a; apply IH].
Qed.
#[export] Instance total_times n (m : P ()) : Total m -> Total (r_times n m).
Proof. intros H. apply total_loop. auto. Qed.
#[export] Instance local_times n (m : P ()) : Local m -> Local (r_times n m).
Proof. intros H. apply local_loop; auto. Qed.
#[export] Instance total_skip {A} (m : P A) : Total m -> Total (skip m).
Proof. intros H. unfold skip. apply _. Qed.
#[export] Instance local_skip {A} (m : P A) : Local m -> Local (skip m).
Proof. intros H. unfold skip. apply _. Qed.
#[export] Instance total_failed : Total r_failed.
Proof. intros r Hr. right. exists (br_fail r), r. done. Qed.
#[export] Instance local_failed : Local r_failed.
Proof.
  apply local_of_total; [apply _|].
  intros r a r' Hr E Hf. unfold r_failed in E. injection E as <- <-. exists []. split_and!; try done. rewrite Hf.
  intros r2 t (Hw2 & Hf2 & Hr2). exists r2. unfold r_failed. rewrite Hf2. done.
Qed.
Lemma reads_failed : Reads r_failed [] false.
Proof. intros r t (Hw & Hf & Hr). exists r. unfold r_failed. rewrite Hf. done. Qed.
#[export] Instance total_pos : Total r_pos.
Proof. intros r Hr. right. exists (br_pos r), r. done. Qed.

(** A parser that ends with [if failed then refuse else mret a] has a live
    reader on success. *)
Lemma checked_live {A} (m : P A) r a r' :
  (m ≫= fun res => r_failed ≫= fun failed : bool => if failed then refuse else mret res) r = Some (Some (a, r')) ->
  m r = Some (Some (a, r')) /\ r'.(br_fail) = false.
Proof.
  intros E. apply bind_inv in E as (x & r1 & E1 & E2). cbv [r_failed mbind P_bind] in E2.
  destruct (br_fail r1) eqn:Ef; cbv in E2; [done|]. injection E2 as <- <-. done.
Qed.

(** ** [u(n)] *)
Lemma set_fail_step r : rwf r -> reader_step r (set_fail r).
Proof. intros Hr. by split; [exact Hr|]. Qed.
Lemma advance_step r : rwf (advance r) -> reader_step r (advance r).
Proof. by split. Qed.

#[export] Instance total_u_loop n v : Total (u_loop n v).
Proof.
  revert v. induction n as [|n IH]; intros v r Hr; cbn [u_loop].
  - right. by exists v, r.
  - destruct (rest r) as [|b t] eqn:Er.
    + rewrite (reader_end r Hr Er). right. exists 0, (set_fail r). by split; [|apply set_fail_step].
    + destruct (reader_next r b t Hr Er) as (-> & (c & -> & Hb) & Ha & _). cbn [mbind option_bind]. rewrite Hb.
      destruct (IH (Z.lor (to_u32 (Z.shiftl v 1)) b) _ Ha) as [E|(a & r' & E & Hs)]; [by left|].
      right. exists a, r'. split; [done|]. eapply reader_step_trans; [by apply advance_step|done].
Qed.

Definition shift_in (v b : Z) : Z := Z.lor (to_u32 (Z.shiftl v 1)) b.

Lemma reads_u_loop w v : Reads (u_loop (length w) v) w (fold_left shift_in w v).
Proof.
  revert v. induction w as [|b w IH]; intros v r t Hr; [by exists r|].
  destruct Hr as (Hw & Hf & Hr). cbn [length u_loop].
  destruct (reader_next r b (w ++ t) Hw Hr) as (-> & (c & -> & Hb) & Ha & Hra). cbn [mbind option_bind]. rewrite Hb.
  exact (IH _ _ _ (conj Ha (conj Hf Hra))).
Qed.

#[export] Instance local_u_loop n v : Local (u_loop n v).
Proof.
  apply local_of_total; [apply _|].
  intros r a r' Hr E Hf.
  enough (exists c, length c = n /\ rest r = c ++ rest r' /\ r'.(br_d) = r.(br_d) /\ rwf r' /\ br_fail r = false /\
                    a = fold_left shift_in c v) as (c & Hc & Hrr & Hd & Hw' & Hfr & ->).
  { exists c. split_and!; try done. subst n. apply reads_u_loop. }
  revert v r Hr E. induction n as [|n IH]; intros v r Hr E; cbn [u_loop] in E.
  - injection E as <- <-. by exists [].
  - destruct (rest r) as [|b t] eqn:Er.
    + rewrite (reader_end r Hr Er) in E. by injection E as <- <-.
    + destruct (reader_next r b t Hr Er) as (Hp & (c & Hc & Hb) & Ha & Hra). rewrite Hp, Hc in E.
      cbn [mbind option_bind] in E. rewrite Hb in E. destruct (IH _ _ Ha E) as (c' & Hl & Hrr & Hd & Hw' & Hfr & ->).
      exists (b :: c'). split_and!; try done; [cbn; lia|]. cbn. by rewrite <- Hrr, Hra.
Qed.
#[export] Instance total_u n : Total (r_u n).
Proof. unfold r_u. apply _. Qed.
#[export] Instance local_u n : Local (r_u n).
Proof. unfold r_u. apply _. Qed.
#[export] Instance total_flag : Total r_flag.
Proof. unfold r_flag. apply _. Qed.
#[export] Instance local_flag : Local r_flag.
Proof. unfold r_flag. apply _. Qed.

Lemma shift_in_nonneg v b : 0 <= b -> 0 <= shift_in v b.
Proof. intros Hb. apply Z.lor_nonneg. split; [apply to_u32_u32|done]. Qed.
Lemma post_u_loop n v : 0 <= v -> post (u_loop n v) (fun x => 0 <= x).
Proof.
  intros Hv r a r'. revert v r Hv. induction n as [|n IH]; intros v r Hv E; cbn [u_loop] in E.
  - by injection E as <- _.
  - destruct (br_pos r >=? br_bits r); [by injection E as <- _|].
    destruct (rd8 _ _) as [c|]; [|done]. cbn [mbind option_bind] in E. revert E. apply IH.
    apply shift_in_nonneg. destruct (land_1_bit (Z.shiftr c (7 - Z.land (br_pos r) 7))); lia.
Qed.
Lemma post_u n : post (r_u n) (fun x => 0 <= x).
Proof. by apply post_u_loop. Qed.

(** *** The bits of a number, most significant first *)
Definition nbits (v : Z) (n : nat) : list Z := (fun i => Z.land (Z.shiftr v (Z.of_nat i)) 1) <$> rev (seq 0 n).
Lemma nbits_S v n : nbits v (S n) = Z.land (Z.shiftr v (Z.of_nat n)) 1 :: nbits v n.
Proof. unfold nbits. by rewrite seq_S, rev_app_distr. Qed.
Lemma nbits_length v n : length (nbits v n) = n.
Proof. unfold nbits. by rewrite length_fmap, length_rev, length_seq. Qed.
Lemma nbits_bit v n : Forall bit (nbits v n).
Proof. apply Forall_fmap, Forall_forall. intros i _. apply land_1_bit. Qed.
Lemma nbits_0 n : nbits 0 n = replicate n 0.
Proof. induction n as [|n IH]; [done|]. rewrite nbits_S, IH, Z.shiftr_0_l. done. Qed.
Lemma land_shiftr_1 v (n : nat) : Z.land (Z.shiftr v (Z.of_nat n)) 1 = (v / 2 ^ Z.of_nat n) mod 2.
Proof. rewrite Z.shiftr_div_pow2 by lia. change 1 with (Z.ones 1). by rewrite Z.land_ones by lia. Qed.

Lemma shift_in_arith v b : bit b -> 0 <= v -> 2 * v + b < 4294967296 -> shift_in v b = 2 * v + b.
Proof.
  intros Hb Hv Hlt. unfold shift_in. assert (0 <= b <= 1) by (destruct Hb; lia).
  rewrite to_u32_id; [|rewrite Z.shiftl_mul_pow2 by lia; unfold u32; lia].
  rewrite lor_shiftl_add by lia. change (2 ^ 1) with 2. lia.
Qed.

Lemma fold_nbits v n acc :
  0 <= acc -> acc * 2 ^ Z.of_nat n + v mod 2 ^ Z.of_nat n < 4294967296 ->
  fold_left shift_in (nbits v n) acc = acc * 2 ^ Z.of_nat n + v mod 2 ^ Z.of_nat n.
Proof.
  revert acc. induction n as [|n IH]; intros acc Ha Hlt; [cbn; rewrite Z.mod_1_r; lia|].
  rewrite nbits_S. cbn [fold_left]. set (b := Z.land (Z.shiftr v (Z.of_nat n)) 1) in *.
  assert (Hpow : 2 ^ Z.of_nat (S n) = 2 ^ Z.of_nat n * 2) by (rewrite Nat2Z.inj_succ, Z.pow_succ_r; lia).
  assert (Hmod : v mod 2 ^ Z.of_nat (S n) = v mod 2 ^ Z.of_nat n + 2 ^ Z.of_nat n * b).
  { rewrite Hpow, Z.rem_mul_r by lia. unfold b. by rewrite land_shiftr_1. }
  assert (H1 : 1 <= 2 ^ Z.of_nat n) by (pose proof (Z.pow_pos_nonneg 2 (Z.of_nat n)); lia).
  pose proof (Z.mod_pos_bound v (2 ^ Z.of_nat n) ltac:(lia)).
  assert (Hb : bit b) by apply land_1_bit. assert (0 <= b <= 1) by (destruct Hb; lia).
  rewrite shift_in_arith; [|done|done|]; rewrite Hmod, Hpow in *; [rewrite IH|]; nia.
Qed.

Lemma w_u_nbits v n w : w_u v n = Some w -> w = nbits v (Z.to_nat n).
Proof. unfold w_u, nbits. destruct (n >? 32); [done|]. by intros [= <-]. Qed.
Lemma w_u_some v n : n <= 32 -> w_u v n = Some (nbits v (Z.to_nat n)).
Proof. intros H. unfold w_u. destruct (Z.gtb_spec n 32); [lia|done]. Qed.

(** [u(n)] of what [u(v, n)] wrote. *)
Lemma reads_w_u v n w : 0 <= n -> w_u v n = Some w -> Reads (r_u n) w (v mod 2 ^ n).
Proof.
  intros Hn E. assert (Hle : n <= 32) by (unfold w_u in E; destruct (Z.gtb_spec n 32); [done|lia]).
  apply w_u_nbits in E as ->. pose proof (reads_u_loop (nbits v (Z.to_nat n)) 0) as H.
  rewrite nbits_length, fold_nbits in H; rewrite ?Z2Nat.id in * by lia; [exact H|lia|].
  pose proof (Z.mod_pos_bound v (2 ^ n) (Z.pow_pos_nonneg 2 n ltac:(lia) Hn)).
  pose proof (Z.pow_le_mono_r 2 n 32 ltac:(lia) Hle). lia.
Qed.
Lemma reads_w_u_small v n w : 0 <= n -> 0 <= v < 2 ^ n -> w_u v n = Some w -> Reads (r_u n) w v.
Proof. intros Hn Hv E. rewrite <- (Z.mod_small v (2 ^ n)) by lia. by apply reads_w_u. Qed.
Lemma reads_flag (b : bool) w : w_u (if b then 1 else 0) 1 = Some w -> Reads r_flag w b.
Proof.
  intros E. unfold r_flag. rewrite <- (app_nil_r w).
  eapply reads_bind; [apply reads_w_u_small, E; [lia|destruct b; lia]|]. destruct b; apply reads_ret.
Qed.

(** ** [ue(v)] *)
#[export] Instance total_ue_zeros fuel z : Total (ue_zeros fuel z).
Proof.
  revert z. induction fuel as [|fuel IH]; intros z r Hr; cbn [ue_zeros];
    destruct (br_fail r); try (right; by eexists _, r);
    (destruct (total (m := r_u 1) r Hr) as [->|(b & r1 & -> & Hs)]; [by left|]);
    (case_test; cbn [negb]; [|by right; eexists _, r1]).
  - right. eexists _, (set_fail r1). split; [done|]. eapply reader_step_trans, set_fail_step; [done|apply Hs].
  - destruct (IH (z + 1) r1 (proj1 Hs)) as [->|(a & r2 & -> & Hs2)]; [by left|].
    right. eexists _, r2. split; [done|]. by eapply reader_step_trans.
Qed.

Lemma ue_zeros_cons fuel z b w o :
  (b = 0 -> exists fuel', fuel = S fuel' /\ Reads (ue_zeros fuel' (z + 1)) w o) ->
  (b <> 0 -> w = [] /\ o = Some z) ->
  bit b -> Reads (ue_zeros fuel z) (b :: w) o.
Proof.
  intros H0 H1 Hb r t Hr. destruct (reads_u_loop [b] 0 r (w ++ t) Hr) as (r1 & E1 & Hr1 & Hd1).
  assert (Hv : fold_left shift_in [b] 0 = b) by (destruct Hb as [-> | ->]; done). rewrite Hv in E1.
  destruct Hr as (Hw & Hf & Hr). destruct fuel as [|fuel]; cbn [ue_zeros]; rewrite Hf; unfold r_u;
    change (Z.to_nat 1) with (length [b]); rewrite E1;
    (destruct (Z.eqb_spec b 0) as [Ez|Hnz]; cbn [negb];
      [destruct (H0 Ez) as (fuel' & Efu & HR)|destruct (H1 Hnz) as [-> ->]; by exists r1]); [done|].
  injection Efu as ->. destruct (HR r1 t Hr1) as (r2 & E2 & Hr2 & Hd2). exists r2. split_and!; [done|done|congruence].
Qed.

#[export] Instance local_ue_zeros fuel z : Local (ue_zeros fuel z).
Proof.
  apply local_of_total; [apply _|]. revert z. induction fuel as [|fuel IH]; intros z r a r' Hr E Hf'; cbn [ue_zeros] in E;
    (destruct (br_fail r) eqn:Hf; [injection E as <- <-; congruence|]);
    (destruct (r_u 1 r) as [[[b r1]|]|] eqn:E1; [|done|done]).
  all: (destruct (total (m := r_u 1) r Hr) as [?|(b' & r1' & Eb & Hs)]; [congruence|];
        assert (r1' = r1) by congruence; subst r1'; destruct Hs as (Hw1 & Hd1 & Hs)).
  all: destruct (Z.eqb_spec b 0) as [Ez|Hnz]; cbn [negb] in E.
  - by injection E as <- <-.
  - injection E as <- <-. destruct (local (m := r_u 1) r b r1 Hr E1 Hf') as (c & Hc & Hr1 & Hd & HR).
    exists c. split_and!; try done. intros r2 t2 Hr2. destruct (HR r2 t2 Hr2) as (r3 & E3 & Hr3 & Hd3).
    exists r3. split_and!; try done. cbn [ue_zeros]. rewrite (proj1 (proj2 Hr2)), E3.
    by destruct (Z.eqb_spec b 0).
  - destruct (IH (z + 1) r1 a r' Hw1 E Hf') as (c2 & Hc2 & Hr' & Hd2 & HR2).
    pose proof Hc2 as (_ & Hf1 & Hrest1).
    destruct (local (m := r_u 1) r b r1 Hr E1 Hf1) as (c & Hc & Hr1 & Hd & HR).
    exists (c ++ c2). rewrite <- app_assoc, <- Hrest1. split_and!; try done; [congruence|].
    intros r2 t2 Hr2. rewrite <- app_assoc in Hr2. destruct (HR _ _ Hr2) as (r3 & E3 & Hr3 & Hd3).
    destruct (HR2 _ _ Hr3) as (r4 & E4 & Hr4 & Hd4). exists r4.
    split_and!; [|done|congruence]. cbn [ue_zeros]. rewrite (proj1 (proj2 Hr2)), E3.
    by destruct (Z.eqb_spec b 0).
  - injection E as <- <-. destruct (local (m := r_u 1) r b r1 Hr E1 Hf') as (c & Hc & Hr1 & Hd & HR).
    exists c. split_and!; try done. intros r2 t2 Hr2. destruct (HR r2 t2 Hr2) as (r3 & E3 & Hr3 & Hd3).
    exists r3. split_and!; try done. cbn [ue_zeros]. rewrite (proj1 (proj2 Hr2)), E3.
    by destruct (Z.eqb_spec b 0).
Qed.

#[export] Instance total_ue : Total r_ue.
Proof.
  apply total_bind; [apply _|]. intros [z|]; [|apply _].
  apply total_bind; [apply _|]. intros f. apply _.
Qed.
#[export] Instance local_ue : Local r_ue.
Proof.
  apply local_bind; [apply _|]. intros [z|]; [|apply _].
  apply local_bind; [apply _|]. intros f. apply _.
Qed.
#[export] Instance total_se : Total r_se.
Proof. unfold r_se. apply _. Qed.
#[export] Instance local_se : Local r_se.
Proof. unfold r_se. apply _. Qed.

Lemma post_ue : post r_ue (fun x => 0 <= x).
Proof.
  intros r a r' E. apply bind_inv in E as ([z|] & r1 & _ & E); [|by injection E as <- _].
  apply bind_inv in E as (f & r2 & _ & E). destruct f; [by injection E as <- _|].
  destruct (negb (z =? 0)); [apply bind_inv in E as (x & r3 & _ & E)|]; injection E as <- _; apply to_u32_u32.
Qed.

Lemma reads_ue_zeros n fuel z :
  (n <= fuel)%nat -> Reads (ue_zeros fuel z) (replicate n 0 ++ [1]) (Some (z + Z.of_nat n)).
Proof.
  revert fuel z. induction n as [|n IH]; intros fuel z Hf; cbn [replicate app].
  - rewrite Z.add_0_r. apply ue_zeros_cons; [done|done|by right].
  - apply ue_zeros_cons; [|done|by left]. intros _. destruct fuel as [|fuel]; [lia|]. exists fuel. split; [done|].
    replace (z + Z.of_nat (S n)) with (z + 1 + Z.of_nat n) by lia. apply IH. lia.
Qed.

Lemma ue_len_log2 fuel v k :
  0 < v -> 0 <= k <= Z.log2 v -> Z.log2 v <= k + Z.of_nat fuel -> ue_len fuel v k = Some (Z.log2 v).
Proof.
  intros Hv. revert k. induction fuel as [|fuel IH]; intros k Hk Hf; cbn [ue_len];
    rewrite Z.gtb_ltb, Z.shiftr_div_pow2 by lia; pose proof (Z.log2_spec v Hv) as [Hlo Hhi];
    destruct (Z.eq_dec k (Z.log2 v)) as [->|Hne].
  1, 3: (destruct (Z.ltb_spec 1 (v / 2 ^ Z.log2 v)) as [H|H]; [|done]);
    exfalso; rewrite Z.pow_succ_r in Hhi by apply Z.log2_nonneg;
    assert (v / 2 ^ Z.log2 v < 2) by (apply Z.div_lt_upper_bound; lia); lia.
  - lia.
  - assert (H1 : 2 <= v / 2 ^ k).
    { apply Z.div_le_lower_bound; [lia|]. pose proof (Z.pow_le_mono_r 2 (Z.succ k) (Z.log2 v) ltac:(lia) ltac:(lia)).
      rewrite Z.pow_succ_r in * by lia. lia. }
    destruct (Z.ltb_spec 1 (v / 2 ^ k)); [|lia]. apply IH; lia.
Qed.

(** The bits of [ue(v)]: [log2 (v + 1)] zeros, a one, the remaining bits. *)
Lemma w_ue_bits v :
  0 <= v < 4294967295 ->
  let n := Z.to_nat (Z.log2 (v + 1)) in
  w_ue v = Some ((replicate n 0 ++ [1]) ++ nbits (v + 1) n).
Proof.
  intros Hv n. unfold w_ue. rewrite to_u32_id by ints.
  assert (Hlt : Z.log2 (v + 1) < 32) by (apply Z.log2_lt_pow2; lia). pose proof (Z.log2_nonneg (v + 1)).
  rewrite ue_len_log2 by lia. cbn [mbind option_bind]. rewrite !w_u_some by lia. cbn [mbind option_bind].
  rewrite nbits_0. fold n. replace (Z.to_nat (Z.log2 (v + 1) + 1)) with (S n) by lia.
  rewrite nbits_S, <- app_assoc. cbn [app]. do 4 f_equal.
  unfold n. rewrite Z2Nat.id, Z.shiftr_div_pow2 by lia. pose proof (Z.log2_spec (v + 1) ltac:(lia)) as [Hlo Hhi].
  rewrite Z.pow_succ_r in Hhi by lia. assert ((v + 1) / 2 ^ Z.log2 (v + 1) = 1) as ->; [|done].
  symmetry. apply (Z.div_unique _ _ 1 (v + 1 - 2 ^ Z.log2 (v + 1))); lia.
Qed.

Lemma reads_w_ue v w : 0 <= v < 4294967295 -> w_ue v = Some w -> Reads r_ue w v.
Proof.
  intros Hv E. rewrite w_ue_bits in E by done. injection E as <-.
  set (n := Z.to_nat (Z.log2 (v + 1))). assert (Hlt : Z.log2 (v + 1) < 32) by (apply Z.log2_lt_pow2; lia).
  pose proof (Z.log2_nonneg (v + 1)) as Hl0. eapply reads_bind; [apply reads_ue_zeros; lia|]. cbn beta iota.
  eapply reads_bind_nil; [apply reads_failed|]. cbn beta iota. rewrite Z.add_0_l.
  pose proof (Z.log2_spec (v + 1) ltac:(lia)) as [Hlo Hhi]. rewrite Z.pow_succ_r in Hhi by lia.
  assert (Hn : Z.of_nat n = Z.log2 (v + 1)) by (unfold n; lia). rewrite Hn.
  rewrite (to_u32_id (Z.shiftl 1 _)) by (rewrite Z.shiftl_mul_pow2; ints).
  rewrite Z.shiftl_mul_pow2, Z.mul_1_l by lia.
  destruct (Z.eqb_spec (Z.log2 (v + 1)) 0) as [Ez|Hnz]; cbn [negb].
  - rewrite Ez in *. assert (v = 0) by (cbn in *; lia). subst v.
    replace n with 0%nat by lia. apply reads_ret.
  - rewrite <- (app_nil_r (nbits _ _)). eapply reads_bind.
    + apply (reads_w_u (v + 1) (Z.log2 (v + 1))); [lia|]. rewrite w_u_some by lia. done.
    + replace ((v + 1) mod 2 ^ Z.log2 (v + 1)) with (v + 1 - 2 ^ Z.log2 (v + 1))
        by (apply (Z.mod_unique _ _ 1); lia).
      replace (to_u32 _) with v by (rewrite to_u32_id; ints). apply reads_ret.
Qed.

(** ** [se(v)] *)
Lemma i32_of_some z x : i32_of z = Some x -> x = z /\ -2147483648 <= z <= 2147483647.
Proof.
  unfold i32_of. destruct (Z.ltb_spec z (-2147483648)); [done|]. destruct (Z.gtb_spec z 2147483647); [done|].
  intros [= <-]. lia.
Qed.
Lemma i32_of_fits z : -2147483648 <= z <= 2147483647 -> i32_of z = Some z.
Proof.
  intros H. unfold i32_of. destruct (Z.ltb_spec z (-2147483648)); [lia|].
  by destruct (Z.gtb_spec z 2147483647); [lia|].
Qed.
Lemma to_i32_id z : 0 <= z < 2147483648 -> to_i32 z = z.
Proof. intros H. unfold to_i32. rewrite Z.mod_small by lia. by destruct (Z.ltb_spec z 2147483648); [|lia]. Qed.
Lemma land_1_mod z : Z.land z 1 = z mod 2.
Proof. change 1 with (Z.ones 1). by rewrite Z.land_ones by lia. Qed.

Lemma reads_w_se v w : w_se v = Some w -> Reads r_se w v.
Proof.
  intros E. unfold w_se in E. rewrite Z.gtb_ltb in E. rewrite <- (app_nil_r w).
  destruct (Z.ltb_spec 0 v) as [Hv|Hv].
  - destruct (i32_of (2 * v)) as [d|] eqn:E1; [|done]. apply i32_of_some in E1 as [-> H1]. cbn [mbind option_bind] in E.
    destruct (i32_of (2 * v - 1)) as [e|] eqn:E2; [|done]. apply i32_of_some in E2 as [-> H2].
    cbn [mbind option_bind] in E. rewrite to_u32_id in E by ints.
    eapply reads_bind; [apply reads_w_ue, E; lia|]. rewrite land_1_mod.
    replace ((2 * v - 1) mod 2) with 1 by (apply (Z.mod_unique _ _ (v - 1)); lia). cbn [negb Z.eqb].
    rewrite to_u32_id by ints. rewrite Z.shiftr_div_pow2 by lia.
    replace ((2 * v - 1 + 1) / 2 ^ 1) with v by (change (2 ^ 1) with 2; Z.div_mod_to_equations; lia).
    rewrite to_i32_id by lia. apply reads_ret.
  - destruct (i32_of (-2 * v)) as [d|] eqn:E1; [|done]. apply i32_of_some in E1 as [-> H1]. cbn [mbind option_bind] in E.
    rewrite to_u32_id in E by ints. eapply reads_bind; [apply reads_w_ue, E; lia|]. rewrite land_1_mod.
    replace (-2 * v mod 2) with 0 by (apply (Z.mod_unique _ _ (- v)); lia). cbn [negb Z.eqb].
    rewrite Z.shiftr_div_pow2 by lia.
    replace (-2 * v / 2 ^ 1) with (- v) by (change (2 ^ 1) with 2; Z.div_mod_to_equations; lia).
    rewrite to_i32_id by lia. rewrite Z.opp_involutive. apply reads_ret.
Qed.

(** ** The copied span *)
Lemma w_copy_bits_span rbsp b e w :
  0 <= b <= e -> e < 4294967296 -> w_copy_bits rbsp b e = Some w ->
  w = take (Z.to_nat (e - b)) (drop (Z.to_nat b) (bits_of rbsp)).
Proof.
  unfold w_copy_bits. intros Hb He. remember (Z.to_nat (e - b)) as n eqn:Hn.
  assert (Hbe : e = b + Z.of_nat n) by lia. clear Hn. subst e.
  revert b w Hb He. induction n as [|n IH]; intros b w Hb He E; cbn [w_copy_loop] in E; [by injection E as <-|].
  destruct (rd8 rbsp _) as [c|] eqn:Ec; [|done]. cbn [mbind option_bind] in E. rewrite to_u32_id in E by ints.
  destruct (w_copy_loop rbsp n (b + 1)) as [t|] eqn:Et; [|done]. injection E as <-.
  rewrite (drop_S _ _ _ (bits_of_lookup rbsp b c ltac:(lia) Ec)). cbn [take]. f_equal.
  rewrite (IH (b + 1) t) by (lia || done). do 2 f_equal. lia.
Qed.

Lemma w_copy_bits_some rbsp b e :
  0 <= b -> e <= 8 * len rbsp -> e < 4294967296 -> is_Some (w_copy_bits rbsp b e).
Proof.
  unfold w_copy_bits. intros Hb He Hm. remember (Z.to_nat (e - b)) as n eqn:Hn.
  assert (Hbe : b + Z.of_nat n <= 8 * len rbsp \/ n = 0%nat) by lia.
  assert (Hm2 : b + Z.of_nat n < 4294967296 \/ n = 0%nat) by lia. clear Hn He Hm.
  revert b Hb Hbe Hm2. induction n as [|n IH]; intros b Hb Hbe Hm; cbn [w_copy_loop]; [done|].
  assert (Hlt : (Z.to_nat (Z.shiftr b 3) < length rbsp)%nat).
  { rewrite Z.shiftr_div_pow2 by lia. change (2 ^ 3) with 8. Z.div_mod_to_equations; lia. }
  destruct (lookup_lt_is_Some_2 _ _ Hlt) as [c Hc]. unfold rd8. rewrite Hc. cbn [mbind option_bind].
  rewrite to_u32_id by ints. destruct (IH (b + 1)) as [t ->]; [lia..|]. done.
Qed.

(** ** Packing *)
Lemma pack_byte (b : list Z) :
  Forall bit b -> length b = 8%nat ->
  byte_bits (fold_left (fun b x => to_u8 (Z.lor (Z.shiftl b 1) x)) b 0) = b /\
  u8 (fold_left (fun b x => to_u8 (Z.lor (Z.shiftl b 1) x)) b 0).
Proof.
  intros Hb Hl. do 9 (destruct b as [|? b]; try discriminate Hl).
  repeat match goal with H : Forall bit (_ :: _) |- _ => apply Forall_cons in H as [[-> | ->] H] end;
    vm_compute; (split; [reflexivity|split; [discriminate|reflexivity]]).
Qed.

Lemma pack_bits_spec bits : Forall bit bits -> Z.of_nat (length bits) mod 8 = 0 ->
  exists d, pack_bits bits = Some d /\ bits_of d = bits /\ bytes d /\ 8 * len d = len bits.
Proof.
  intros Hb Hl. assert (Hn : exists n, length bits = (8 * n)%nat).
  { exists (Z.to_nat (len bits / 8)). Z.div_mod_to_equations; lia. }
  destruct Hn as [n Hn]. clear Hl. revert bits Hb Hn. induction n as [|n IH]; intros bits Hb Hn.
  - destruct bits; [|cbn in Hn; lia]. exists []. split_and!; done || constructor.
  - do 8 (destruct bits as [|? bits]; [cbn in Hn; lia|]).
    assert (Hn' : length bits = (8 * n)%nat) by (cbn [length] in Hn; lia).
    match goal with |- context [pack_bits (?x0 :: ?x1 :: ?x2 :: ?x3 :: ?x4 :: ?x5 :: ?x6 :: ?x7 :: bits)] =>
      pose (h := [x0; x1; x2; x3; x4; x5; x6; x7]) end.
    change (Forall bit (h ++ bits)) in Hb. apply Forall_app in Hb as [Hh Hb].
    destruct (IH bits Hb Hn') as (d & E & Hbits & Hbytes & Hlen). destruct (pack_byte h Hh eq_refl) as [Hpb Hu].
    cbn [pack_bits]. rewrite E. cbn [mbind option_bind]. fold h. eexists. split; [done|]. split_and!.
    + change (bits_of (?x :: d)) with (byte_bits x ++ bits_of d). cbn [bits_of flat_map].
      rewrite Hpb. change (flat_map byte_bits d) with (bits_of d). by rewrite Hbits.
    + by constructor.
    + cbn [length]. lia.
Qed.

Lemma align_zero_len bits : Z.of_nat (length (align_zero bits)) mod 8 = 0.
Proof. unfold align_zero. rewrite length_app, length_replicate. Z.div_mod_to_equations; lia. Qed.
Lemma align_zero_bit bits : Forall bit bits -> Forall bit (align_zero bits).
Proof. intros H. apply Forall_app. split; [done|]. apply Forall_replicate. by left. Qed.

(** ** The decoding engine *)
Record CabacDec : Type := MkCabacDec { cd_range : Z; cd_offset : Z; cd_rest : list Z }.

Definition val (l : list Z) : Z := fold_left (fun v b => 2 * v + b) l 0.

Definition dec_init (bits : list Z) : CabacDec := MkCabacDec 510 (val (take 9 bits)) (drop 9 bits).

Fixpoint dec_renorm (fuel : nat) (d : CabacDec) : option CabacDec :=
  if d.(cd_range) <? 256 then
    match fuel, d.(cd_rest) with
    | S fuel, b :: rest => dec_renorm fuel (MkCabacDec (2 * d.(cd_range)) (2 * d.(cd_offset) + b) rest)
    | _, _ => None
    end
  else Some d.

(** The standard's tables, written out again: [rangeTabLps] by [qRangeIdx] and
    [transIdxLps]; the transition on a most probable symbol is a successor. *)
Definition rangeTabLps : list (list Z) :=
  [
   [128; 128; 128; 123; 116; 111; 105; 100; 95; 90; 85; 81; 77; 73; 69; 66;
    62; 59; 56; 53; 51; 48; 46; 43; 41; 39; 37; 35; 33; 32; 30; 29;
    27; 26; 24; 23; 22; 21; 20; 19; 18; 17; 16; 15; 14; 14; 13; 12;
    12; 11; 11; 10; 10; 9; 9; 8; 8; 7; 7; 7; 6; 6; 6; 2];
   [176; 167; 158; 150; 142; 135; 128; 122; 116; 110; 104; 99; 94; 89; 85; 80;
    76; 72; 69; 65; 62; 59; 56; 53; 50; 48; 45; 43; 41; 39; 37; 35;
    33; 31; 30; 28; 27; 26; 24; 23; 22; 21; 20; 19; 18; 17; 16; 15;
    14; 14; 13; 12; 12; 11; 11; 10; 9; 9; 9; 8; 8; 7; 7; 2];
   [208; 197; 187; 178; 169; 160; 152; 144; 137; 130; 123; 117; 111; 105; 100; 95;
    90; 86; 81; 77; 73; 69; 66; 63; 59; 56; 54; 51; 48; 46; 43; 41;
    39; 37; 35; 33; 32; 30; 29; 27; 26; 25; 23; 22; 21; 20; 19; 18;
    17; 16; 15; 15; 14; 13; 12; 12; 11; 11; 10; 10; 9; 9; 8; 2];
   [240; 227; 216; 205; 195; 185; 175; 166; 158; 150; 142; 135; 128; 122; 116; 110;
    104; 99; 94; 89; 85; 80; 76; 72; 69; 65; 62; 59; 56; 53; 50; 48;
    45; 43; 41; 39; 37; 35; 33; 31; 30; 28; 27; 25; 24; 23; 22; 21;
    20; 19; 18; 17; 16; 15; 14; 14; 13; 12; 12; 11; 11; 10; 9; 2]].
Definition transIdxLps : list Z :=
  [
   0; 0; 1; 2; 2; 4; 4; 5; 6; 7; 8; 9; 9; 11; 11; 12; 13; 13; 15; 15; 16;
   16; 18; 18; 19; 19; 21; 21; 22; 22; 23; 24; 24; 25; 26; 26; 27; 27; 28; 29; 29; 30;
   30; 30; 31; 32; 32; 33; 33; 33; 34; 34; 35; 35; 35; 36; 36; 36; 37; 37; 37; 38; 38;
   63].
Definition std_lps (state range : Z) : option Z :=
  col ← rangeTabLps !! Z.to_nat ((range / 64) mod 4);
  col !! Z.to_nat state.
Definition std_update (c : Ctx) (bin : Z) : option Ctx :=
  if bin =? c.(ctx_mps) then Some (MkCtx (if c.(ctx_state) <? 62 then c.(ctx_state) + 1 else c.(ctx_state)) c.(ctx_mps))
  else
    s ← transIdxLps !! Z.to_nat c.(ctx_state);
    Some (MkCtx s (if c.(ctx_state) =? 0 then 1 - c.(ctx_mps) else c.(ctx_mps))).

Definition decode_bin (d : CabacDec) (c : Ctx) : option (Z * CabacDec * Ctx) :=
  lps ← std_lps c.(ctx_state) d.(cd_range);
  let range := d.(cd_range) - lps in
  let bin := if d.(cd_offset) >=? range then 1 - c.(ctx_mps) else c.(ctx_mps) in
  c' ← std_update c bin;
  d ← dec_renorm 8 (if d.(cd_offset) >=? range then MkCabacDec lps (d.(cd_offset) - range) d.(cd_rest)
                    else MkCabacDec range d.(cd_offset) d.(cd_rest));
  Some (bin, d, c').

(** [end_of_slice_segment_flag]: no renormalisation once it is set. *)
Definition decode_terminate (d : CabacDec) : option (bool * CabacDec) :=
  let range := d.(cd_range) - 2 in
  if d.(cd_offset) >=? range then Some (true, MkCabacDec range d.(cd_offset) d.(cd_rest))
  else d ← dec_renorm 8 (MkCabacDec range d.(cd_offset) d.(cd_rest)); Some (false, d).

(** ** Values of bit strings *)
Lemma val_acc l v : fold_left (fun v b => 2 * v + b) l v = v * 2 ^ len l + val l.
Proof.
  unfold val. revert v. induction l as [|b l IH]; intros v;
    [cbn [fold_left length]; change (2 ^ Z.of_nat 0) with 1; lia|]. cbn [fold_left length].
  rewrite (IH (2 * v + b)), (IH (2 * 0 + b)), Nat2Z.inj_succ, Z.pow_succ_r by lia. lia.
Qed.
Lemma val_app a b : val (a ++ b) = val a * 2 ^ len b + val b.
Proof. unfold val. rewrite fold_left_app. apply val_acc. Qed.
Lemma val_bound l : Forall bit l -> 0 <= val l < 2 ^ len l.
Proof.
  induction l as [|b l IH] using rev_ind; intros H; [cbn; lia|].
  apply Forall_app in H as [H Hb]. rewrite Forall_singleton in Hb. specialize (IH H).
  rewrite val_app, length_app. cbn [length]. rewrite Nat2Z.inj_add. change (Z.of_nat 1) with 1.
  rewrite Z.pow_add_r by lia. change (2 ^ 1) with 2. change (val [b]) with b.
  destruct Hb as [-> | ->]; lia.
Qed.
Lemma val_replicate_0 n : val (replicate n 0) = 0.
Proof.
  induction n as [|n IH]; [done|]. change (replicate (S n) 0) with ([0] ++ replicate n 0).
  rewrite val_app, IH. change (val [0]) with 0. lia.
Qed.
Lemma val_replicate_1 n : val (replicate n 1) = 2 ^ Z.of_nat n - 1.
Proof.
  induction n as [|n IH]; [done|]. change (replicate (S n) 1) with ([1] ++ replicate n 1).
  rewrite val_app, IH, length_replicate, Nat2Z.inj_succ, Z.pow_succ_r by lia. change (val [1]) with 1. lia.
Qed.
Lemma val_take_succ bs n b :
  bs !! n = Some b -> val (take (n + 1) bs) = 2 * val (take n bs) + b.
Proof. intros H. rewrite Nat.add_1_r, (take_S_r _ _ _ H), val_app. change (val [b]) with b. cbn. lia. Qed.

(** ** What the encoder's state denotes *)
Definition low_val (out : list Z) (e : CabacEnc) : Z :=
  val out * 2 ^ (e.(ce_outstanding) + 10) + (2 ^ e.(ce_outstanding) - 1) * 512 + e.(ce_low).

(** [out] is what the encoder wrote after [pre] since its reset, [k] the
    number of doublings. *)
Record EncInv (pre out : list Z) (k : Z) (e : CabacEnc) : Prop := {
  ei_bits : e.(ce_bits) = pre ++ out;
  ei_out : Forall bit out;
  ei_low : 0 <= e.(ce_low) /\ e.(ce_low) + e.(ce_range) <= 1024;
  ei_range : 2 <= e.(ce_range) <= 510;
  ei_outstanding : 0 <= e.(ce_outstanding);
  ei_count : if e.(ce_first) then out = [] /\ k = e.(ce_outstanding) else k = len out + 1 + e.(ce_outstanding);
  ei_high : low_val out e + e.(ce_range) <= 510 * 2 ^ k
}.

Lemma enc_inv_reset pre : EncInv pre [] 0 (cabac_reset pre).
Proof.
  split; cbn -[low_val]; try lia; [by rewrite app_nil_r|by apply Forall_nil|done|].
  change (low_val [] (cabac_reset pre)) with 0. lia.
Qed.

Lemma ei_k_nonneg pre out k e : EncInv pre out k e -> 0 <= k.
Proof. intros H. pose proof (ei_count _ _ _ _ H). pose proof (ei_outstanding _ _ _ _ H). destruct (ce_first e); lia. Qed.

(** A bit that leaves the low register, the pending bits resolved with it. *)
Lemma put_bit_spec pre out k e b low range :
  EncInv pre out k e -> bit b -> (ce_first e = true -> b = 0) ->
  let e' := put_bit (set_interval e low range) b in
  exists out', e'.(ce_bits) = pre ++ out' /\ Forall bit out' /\ e'.(ce_outstanding) = 0 /\ e'.(ce_first) = false /\
    e'.(ce_low) = low /\ e'.(ce_range) = range /\ k + 1 = len out' + 1 /\
    val out' * 512 = val out * 2 ^ (e.(ce_outstanding) + 10) + (2 ^ e.(ce_outstanding) - 1) * 512 + 512 * b.
Proof.
  intros [Hb Ho Hl Hr Hm Hc Hh] Hbit Hf e'.
  assert (Hu : forall x, bit x -> to_u8 x = x) by (intros x [-> | ->]; done).
  exists (out ++ (if ce_first e then [] else [b]) ++ replicate (Z.to_nat (ce_outstanding e)) (1 - b)).
  assert (Hb1 : bit (1 - b)) by (destruct Hbit; unfold bit; lia).
  split_and!; try done.
  - cbn. rewrite Hb, !Hu by done. by rewrite <- app_assoc.
  - apply Forall_app; split; [done|]. apply Forall_app; split; [destruct (ce_first e); auto|].
    by apply Forall_replicate.
  - rewrite !length_app, length_replicate. destruct (ce_first e); cbn [length] in *; [destruct Hc as [-> Hc]; cbn|]; lia.
  - set (m := ce_outstanding e) in *.
    assert (Hrep : val (replicate (Z.to_nat m) (1 - b)) = (1 - b) * (2 ^ m - 1)).
    { destruct Hbit as [-> | ->]; rewrite ?val_replicate_1, ?val_replicate_0, ?Z2Nat.id by lia; lia. }
    rewrite !val_app, length_app, length_replicate, Hrep, Nat2Z.inj_add, Z2Nat.id by lia.
    rewrite !Z.pow_add_r by lia. change (2 ^ 10) with 1024.
    destruct (ce_first e); [destruct Hc as [-> _]; rewrite (Hf eq_refl)|]; cbn [length app].
    + change (val []) with 0. change (Z.of_nat 0) with 0. lia.
    + change (val [b]) with b. change (2 ^ Z.of_nat 1) with 2. destruct Hbit as [-> | ->]; lia.
Qed.

(** One doubling. *)
Lemma renorm_step_spec pre out k e :
  EncInv pre out k e -> e.(ce_range) < 256 -> k + 1 < 4294967296 ->
  exists out', EncInv pre out' (k + 1) (renorm_step e) /\ low_val out' (renorm_step e) = 2 * low_val out e /\
               (renorm_step e).(ce_range) = 2 * e.(ce_range).
Proof.
  intros HI Hlt Hk. pose proof HI as [Hb Ho Hl Hr Hm Hc Hh]. pose proof (ei_k_nonneg _ _ _ _ HI) as Hk0.
  assert (H2 : 2 ^ (k + 1) = 2 * 2 ^ k) by (rewrite Z.pow_add_r by lia; lia).
  assert (Hshift : forall z, 0 <= z < 1024 -> to_u32 (Z.shiftl z 1) = 2 * z).
  { intros z Hz. rewrite Z.shiftl_mul_pow2 by lia. change (2 ^ 1) with 2. rewrite to_u32_id by ints. lia. }
  assert (Hput : forall b low, bit b -> (ce_first e = true -> b = 0) -> low = ce_low e - 512 * b ->
     0 <= low -> low + ce_range e <= 512 ->
     forall e1, e1 = put_bit (set_interval e low (ce_range e)) b ->
     let e2 := MkCabacEnc (ce_bits e1) (to_u32 (Z.shiftl (ce_low e1) 1)) (to_u32 (Z.shiftl (ce_range e1) 1))
                 (ce_outstanding e1) (ce_first e1) in
     exists out', EncInv pre out' (k + 1) e2 /\ low_val out' e2 = 2 * low_val out e /\ ce_range e2 = 2 * ce_range e).
  { intros b low Hbit Hf Elow Hlow Hsum e1 He1 e2.
    pose proof (put_bit_spec pre out k e b low (ce_range e) HI Hbit Hf) as Hp. cbv zeta in Hp.
    rewrite <- He1 in Hp. destruct Hp as (out' & Hb' & Ho' & Hm' & Hf' & Hl' & Hr' & Hk' & Hv). clear He1.
    assert (He2 : low_val out' e2 = 2 * low_val out e).
    { unfold low_val, e2. cbn [ce_outstanding ce_low]. rewrite Hm', Hl', Hshift by lia.
      change (2 ^ (0 + 10)) with 1024. change (2 ^ 0) with 1. lia. }
    assert (Hre2 : ce_range e2 = 2 * ce_range e) by (unfold e2; cbn; rewrite Hr', Hshift; lia).
    exists out'. split_and!; [|done|done].
    split; rewrite ?He2, ?Hre2; unfold e2; cbn [ce_bits ce_low ce_range ce_outstanding ce_first];
      rewrite ?Hm', ?Hf', ?Hl', ?Hshift by lia; try done; lia. }
  unfold renorm_step. destruct (Z.ltb_spec (ce_low e) 256) as [H1|H1]; [|rewrite Z.geb_leb; destruct (Z.leb_spec 512 (ce_low e)) as [H3|H3]].
  - apply (Hput 0 (ce_low e)); [by left|done|lia|lia|lia|]. by destruct e.
  - apply (Hput 1 (ce_low e - 512)); [by right| |lia|lia|lia|done].
    intros Hf. exfalso. rewrite Hf in Hc. destruct Hc as [-> ->].
    unfold low_val in Hh. change (val []) with 0 in Hh. nia.
  - exists out. cbn [ce_bits ce_low ce_range ce_outstanding ce_first].
    assert (Hmk : ce_outstanding e + 1 < 4294967296) by (destruct (ce_first e); lia).
    rewrite (to_u32_id (ce_outstanding e + 1)) by ints.
    assert (He2 : forall r f, low_val out (MkCabacEnc (ce_bits e) (to_u32 (Z.shiftl (ce_low e - 256) 1)) r
                      (ce_outstanding e + 1) f) = 2 * low_val out e).
    { intros r f. unfold low_val. cbn [ce_outstanding ce_low]. rewrite Hshift by lia.
      rewrite !Z.pow_add_r by lia. change (2 ^ 1) with 2. change (2 ^ 10) with 1024. lia. }
    split_and!; [|apply He2|rewrite Hshift; lia].
    split; rewrite ?He2; cbn [ce_bits ce_low ce_range ce_outstanding ce_first]; rewrite ?Hshift by lia;
      try done; try lia.
    destruct (ce_first e); [destruct Hc; split; [done|lia]|lia].
Qed.

(** ** The stream and the decoder *)

(** The stream [bs] continues inside the encoder's interval. *)
Definition fits (bs : list Z) (k low range : Z) : Prop :=
  9 + k <= len bs /\ low <= val (take (Z.to_nat (9 + k)) bs) < low + range.
(** The decoder's window on [bs]. *)
Definition in_sync (bs : list Z) (k low range : Z) (d : CabacDec) : Prop :=
  d.(cd_range) = range /\ d.(cd_offset) = val (take (Z.to_nat (9 + k)) bs) - low /\
  d.(cd_rest) = drop (Z.to_nat (9 + k)) bs.

Lemma fits_shift bs k low range :
  Forall bit bs -> 0 <= k -> fits bs (k + 1) (2 * low) (2 * range) -> fits bs k low range.
Proof.
  intros HS Hk [Hl Hv]. split; [lia|].
  destruct (lookup_lt_is_Some_2 bs (Z.to_nat (9 + k))) as [b Hb]; [lia|].
  replace (Z.to_nat (9 + (k + 1))) with (Z.to_nat (9 + k) + 1)%nat in Hv by lia.
  rewrite (val_take_succ _ _ _ Hb) in Hv. pose proof (Forall_lookup_1 _ _ _ _ HS Hb) as [-> | ->]; lia.
Qed.

Lemma sync_shift bs k low range d :
  0 <= k -> 9 + (k + 1) <= len bs -> in_sync bs k low range d ->
  exists b rest, d.(cd_rest) = b :: rest /\
    in_sync bs (k + 1) (2 * low) (2 * range) (MkCabacDec (2 * d.(cd_range)) (2 * d.(cd_offset) + b) rest).
Proof.
  intros Hk Hl (Hr & Ho & Hd). destruct (lookup_lt_is_Some_2 bs (Z.to_nat (9 + k))) as [b Hb]; [lia|].
  rewrite (drop_S _ _ _ Hb) in Hd. exists b, (drop (S (Z.to_nat (9 + k))) bs). split; [done|].
  replace (Z.to_nat (9 + (k + 1))) with (Z.to_nat (9 + k) + 1)%nat by lia. split_and!; cbn.
  - lia.
  - replace (Z.to_nat (9 + (k + 1))) with (Z.to_nat (9 + k) + 1)%nat by lia.
    rewrite (val_take_succ _ _ _ Hb). lia.
  - f_equal. lia.
Qed.

(** ** Lockstep *)

(** The interval of an encoder that has written [out]. *)
Definition efits (bs out : list Z) (k : Z) (e : CabacEnc) : Prop := fits bs k (low_val out e) e.(ce_range).
Definition esync (bs out : list Z) (k : Z) (e : CabacEnc) (d : CabacDec) : Prop :=
  in_sync bs k (low_val out e) e.(ce_range) d.

(** From [e] to [e'] the stream's interval only narrows, and a decoder in
    step with [e] ends in step with [e'] returning [x]. *)
Definition tracks {X} (out : list Z) (k : Z) (e : CabacEnc) (out' : list Z) (k' : Z) (e' : CabacEnc)
    (dec : CabacDec -> option (X * CabacDec)) (x : X) : Prop :=
  forall bs, Forall bit bs -> efits bs out' k' e' ->
  efits bs out k e /\
  forall d, esync bs out k e d -> exists d', dec d = Some (x, d') /\ esync bs out' k' e' d'.

Lemma renorm_spec pre fuel out k e :
  EncInv pre out k e -> 256 <= e.(ce_range) * 2 ^ Z.of_nat fuel -> k + Z.of_nat fuel < 4294967296 ->
  exists (j : nat) e' out', (j <= fuel)%nat /\ renorm_loop fuel e = Some e' /\ EncInv pre out' (k + Z.of_nat j) e' /\
    low_val out' e' = 2 ^ Z.of_nat j * low_val out e /\ e'.(ce_range) = 2 ^ Z.of_nat j * e.(ce_range) /\
    256 <= e'.(ce_range) /\
    tracks out k e out' (k + Z.of_nat j) e' (fun d => d ← dec_renorm fuel d; Some ((), d)) ().
Proof.
  revert out k e. induction fuel as [|fuel IH]; intros out k e HI Hr Hk.
  all: pose proof (ei_k_nonneg _ _ _ _ HI) as Hk0; cbn [renorm_loop dec_renorm].
  all: destruct (Z.ltb_spec (ce_range e) 256) as [Hlt|Hge].
  1: { change (2 ^ Z.of_nat 0) with 1 in Hr. lia. }
  1, 3: exists 0%nat, e, out; change (2 ^ Z.of_nat 0) with 1; rewrite Z.add_0_r; split_and!; try done; try lia;
    intros bs Hbs Hf; split; [done|]; intros d Hd; exists d; split; [|done];
    destruct Hd as (-> & _); destruct (Z.ltb_spec (ce_range e) 256); [lia|done].
  destruct (renorm_step_spec pre out k e HI Hlt ltac:(lia)) as (out1 & HI1 & HL1 & HR1).
  destruct (IH out1 (k + 1) (renorm_step e) HI1) as (j & e' & out' & Hj & E & HI' & HL & HR & H256 & HT).
  { rewrite HR1. rewrite Nat2Z.inj_succ, Z.pow_succ_r in Hr by lia. lia. }
  { lia. }
  exists (S j), e', out'. replace (k + Z.of_nat (S j)) with (k + 1 + Z.of_nat j) by lia.
  rewrite Nat2Z.inj_succ, Z.pow_succ_r by lia. split_and!; try done; try lia.
  intros bs Hbs Hf. destruct (HT bs Hbs Hf) as [Hf1 Hsync]. unfold efits in Hf1. rewrite HL1, HR1 in Hf1.
  split; [by apply (fits_shift bs k)|]. intros d Hd.
  destruct (sync_shift bs k _ _ d Hk0 (proj1 Hf1) Hd) as (b & rest & Hrest & Hd1).
  rewrite <- HL1, <- HR1 in Hd1. destruct (Hsync _ Hd1) as (d' & Ed & Hd').
  exists d'. split; [|done]. replace (cd_range d <? 256) with true by (rewrite (proj1 Hd); symmetry; by apply Z.ltb_lt).
  by rewrite Hrest.
Qed.

Lemma enc_narrow pre out k e d range :
  EncInv pre out k e -> 0 <= d -> 2 <= range -> d + range <= e.(ce_range) ->
  EncInv pre out k (set_interval e (e.(ce_low) + d) range) /\
  low_val out (set_interval e (e.(ce_low) + d) range) = low_val out e + d.
Proof.
  intros [] Hd Hr Hs.
  assert (HL : low_val out (set_interval e (ce_low e + d) range) = low_val out e + d)
    by (unfold low_val; cbn; lia).
  split; [|done]. split; cbn [set_interval ce_bits ce_low ce_range ce_outstanding ce_first]; try done; try lia.
Qed.

Definition ctx_ok (c : Ctx) : Prop := 0 <= c.(ctx_state) < 64 /\ bit c.(ctx_mps).

Lemma lps_range_bound state range :
  0 <= state < 64 -> exists lps, lps_range state range = Some lps /\ 2 <= lps <= 240.
Proof.
  intros Hs. assert (HT : Forall (fun row => length row = 4%nat /\ Forall (fun x => 2 <= x <= 240) row) kLpsTable)
    by (refine (bool_decide_unpack _ _); vm_compute; exact I).
  destruct (lookup_lt_is_Some_2 kLpsTable (Z.to_nat state)) as [row Hrow]; [change (length kLpsTable) with 64%nat; lia|].
  destruct (Forall_lookup_1 _ _ _ _ HT Hrow) as [Hl Hb].
  assert (Hi : (Z.to_nat (Z.land (Z.shiftr range 6) 3) < 4)%nat).
  { change 3 with (Z.ones 2). rewrite Z.land_ones by lia. change (2 ^ 2) with 4.
    pose proof (Z.mod_pos_bound (Z.shiftr range 6) 4). lia. }
  rewrite <- Hl in Hi. destruct (lookup_lt_is_Some_2 _ _ Hi) as [x Hx].
  exists x. unfold lps_range. rewrite Hrow. cbn [mbind option_bind]. split; [done|]. by apply (Forall_lookup_1 _ _ _ _ Hb Hx).
Qed.

Lemma ctx_update_ok c bin : ctx_ok c -> bit bin -> exists c', ctx_update c bin = Some c' /\ ctx_ok c'.
Proof.
  intros [Hs Hm] Hb.
  assert (HT : forall t : list Z, length t = 64%nat -> Forall (fun x => 0 <= x < 64) t ->
     exists s, t !! Z.to_nat (ctx_state c) = Some s /\ 0 <= s < 64).
  { intros t Hl Ht. destruct (lookup_lt_is_Some_2 t (Z.to_nat (ctx_state c))) as [s E]; [lia|].
    exists s. split; [done|]. apply (Forall_lookup_1 _ _ _ _ Ht E). }
  unfold ctx_update. destruct (negb (bin =? ctx_mps c)).
  - destruct (HT kNextStateLps) as (s & -> & Hs'); [done|refine (bool_decide_unpack _ _); vm_compute; exact I|].
    eexists. split; [done|]. split; [done|]. cbn. destruct (ctx_state c =? 0); [|done].
    destruct Hm as [-> | ->]; [by right|by left].
  - destruct (HT kNextStateMps) as (s & -> & Hs'); [done|refine (bool_decide_unpack _ _); vm_compute; exact I|].
    eexists. split; [done|]. by split.
Qed.

(** Narrowing then renormalising, with the decoder's test of its window. *)
Lemma narrow_spec pre out k e d range :
  EncInv pre out k e -> 0 <= d -> 2 <= range -> d + range <= e.(ce_range) -> k + 8 < 4294967296 ->
  exists j e' out', 0 <= j <= 8 /\ renorm (set_interval e (e.(ce_low) + d) range) = Some e' /\
    EncInv pre out' (k + j) e' /\ 256 <= e'.(ce_range) /\
    forall bs, Forall bit bs -> efits bs out' (k + j) e' ->
      fits bs k (low_val out e + d) range /\
      forall dc, esync bs out k e dc -> d <= dc.(cd_offset) < d + range /\
        exists d', dec_renorm 8 (MkCabacDec range (dc.(cd_offset) - d) dc.(cd_rest)) = Some d' /\
                   esync bs out' (k + j) e' d'.
Proof.
  intros HI Hd Hr Hs Hk. destruct (enc_narrow _ _ _ _ d range HI Hd Hr Hs) as [HI1 HL1].
  destruct (renorm_spec pre 8 out k _ HI1) as (j & e' & out' & Hj & E & HI' & HL & HR & H256 & HT).
  { cbn [set_interval ce_range]. change (2 ^ Z.of_nat 8) with 256. lia. }
  { lia. }
  exists (Z.of_nat j), e', out'. split_and!; try done; try lia.
  intros bs Hbs Hf. destruct (HT bs Hbs Hf) as [Hf1 Hsync]. unfold efits in Hf1. rewrite HL1 in Hf1.
  split; [done|]. intros dc (Hdr & Hdo & Hdd). destruct Hf1 as [Hlen Hv]. cbn [set_interval ce_range] in Hv.
  split; [lia|]. destruct (Hsync (MkCabacDec range (cd_offset dc - d) (cd_rest dc))) as (d' & Ed & Hd').
  { split_and!; cbn; [done| |done]. rewrite HL1. lia. }
  exists d'. split; [|done]. by destruct (dec_renorm 8 _); [injection Ed as ->|].
Qed.

Lemma fits_wider bs k low range d r :
  0 <= d -> d + r <= range -> fits bs k (low + d) r -> fits bs k low range.
Proof. intros Hd Hr [Hl Hv]. split; [done|lia]. Qed.

(** The code's tables are the standard's. *)
Lemma lps_range_std state range : 0 <= state < 64 -> lps_range state range = std_lps state range.
Proof.
  intros Hs. unfold lps_range, std_lps. rewrite Z.shiftr_div_pow2 by lia. change (2 ^ 6) with 64.
  change 3 with (Z.ones 2). rewrite Z.land_ones by lia. change (2 ^ 2) with 4.
  pose proof (Z.mod_pos_bound (range / 64) 4 ltac:(lia)) as Hq. set (q := (range / 64) mod 4) in *. clearbody q.
  assert (H : forallb (fun s => forallb (fun q => bool_decide ((row ← kLpsTable !! s; row !! q) = (col ← rangeTabLps !! q; col !! s)))
    (seq 0 4)) (seq 0 64) = true) by (vm_compute; reflexivity).
  rewrite forallb_forall in H. specialize (H (Z.to_nat state)). rewrite forallb_forall in H.
  specialize (H ltac:(apply in_seq; lia) (Z.to_nat q) ltac:(apply in_seq; lia)). by apply bool_decide_eq_true in H.
Qed.
Lemma ctx_update_std c bin : ctx_ok c -> ctx_update c bin = std_update c bin.
Proof.
  intros [Hs Hm]. unfold ctx_update, std_update. destruct (bin =? ctx_mps c); cbn [negb].
  - assert (H : forallb (fun s => bool_decide (kNextStateMps !! s = Some (if Z.of_nat s <? 62 then Z.of_nat s + 1 else Z.of_nat s)))
      (seq 0 64) = true) by (vm_compute; reflexivity).
    rewrite forallb_forall in H. specialize (H (Z.to_nat (ctx_state c)) ltac:(apply in_seq; lia)). apply bool_decide_eq_true in H.
    rewrite H, Z2Nat.id by lia. done.
  - change transIdxLps with kNextStateLps. destruct (_ !! _) as [s|]; [|done]. cbn [mbind option_bind].
    by destruct Hm as [-> | ->].
Qed.

(** One context-coded bin. *)
Lemma encode_bin_spec pre out k e c bin :
  EncInv pre out k e -> 256 <= e.(ce_range) -> ctx_ok c -> bit bin -> k + 8 < 4294967296 ->
  exists e' c' j out', encode_bin e c bin = Some (e', c') /\ ctx_ok c' /\ 0 <= j <= 8 /\ EncInv pre out' (k + j) e' /\
    256 <= e'.(ce_range) /\
    tracks out k e out' (k + j) e'
      (fun d => '(b, d, c1) ← decode_bin d c; Some ((b, c1), d)) (bin, c').
Proof.
  intros HI H256 Hc Hb Hk. pose proof HI as [_ _ Hlow Hrange _ _ _].
  destruct (lps_range_bound (ctx_state c) (ce_range e) (proj1 Hc)) as (lps & El & Hlps).
  destruct (ctx_update_ok c bin Hc Hb) as (c' & Ec & Hc').
  pose proof El as Els. rewrite lps_range_std in Els by apply Hc. pose proof Ec as Ecs. rewrite ctx_update_std in Ecs by done.
  unfold encode_bin. rewrite El. cbn [mbind option_bind]. rewrite Ec. cbn [mbind option_bind].
  rewrite (to_u32_id (ce_range e - lps)) by ints.
  destruct (Z.eqb_spec bin (ctx_mps c)) as [Hmps|Hmps]; cbn [negb].
  - destruct (narrow_spec pre out k e 0 (ce_range e - lps) HI) as (j & e' & out' & Hj & E & HI' & H' & HT); try lia.
    rewrite Z.add_0_r in E. rewrite E. cbn [mbind option_bind].
    exists e', c', j, out'. split_and!; try done; try lia. intros bs Hbs Hf. destruct (HT bs Hbs Hf) as [Hf1 Hsync].
    split; [eapply fits_wider; [| |exact Hf1]; lia|]. intros d Hd. destruct (Hsync d Hd) as (Ho & d' & Ed & Hd').
    unfold decode_bin. rewrite (proj1 Hd), Els. cbn [mbind option_bind]. rewrite Z.geb_leb.
    destruct (Z.leb_spec (ce_range e - lps) (cd_offset d)); [lia|]. rewrite <- Hmps, Ecs. cbn [mbind option_bind].
    rewrite Z.sub_0_r in Ed. rewrite Ed. by exists d'.
  - rewrite to_u32_id by ints.
    destruct (narrow_spec pre out k e (ce_range e - lps) lps HI) as (j & e' & out' & Hj & E & HI' & H' & HT); try lia.
    rewrite E. cbn [mbind option_bind].
    exists e', c', j, out'. split_and!; try done; try lia. intros bs Hbs Hf. destruct (HT bs Hbs Hf) as [Hf1 Hsync].
    split; [eapply fits_wider; [| |exact Hf1]; lia|]. intros d Hd. destruct (Hsync d Hd) as (Ho & d' & Ed & Hd').
    unfold decode_bin. rewrite (proj1 Hd), Els. cbn [mbind option_bind]. rewrite Z.geb_leb.
    destruct (Z.leb_spec (ce_range e - lps) (cd_offset d)); [|lia].
    assert (Hflip : 1 - ctx_mps c = bin) by (destruct Hc as [_ [Hm|Hm]], Hb as [Hb|Hb]; lia).
    rewrite Hflip, Ecs. cbn [mbind option_bind]. rewrite Ed. by exists d'.
Qed.

(** [encode_terminate(0)]: the slice goes on. *)
Lemma encode_continue_spec pre out k e :
  EncInv pre out k e -> 256 <= e.(ce_range) -> k + 8 < 4294967296 ->
  exists e' j out', encode_terminate e false = Some e' /\ 0 <= j <= 8 /\ EncInv pre out' (k + j) e' /\
    256 <= e'.(ce_range) /\ tracks out k e out' (k + j) e' decode_terminate false.
Proof.
  intros HI H256 Hk. pose proof HI as [_ _ Hlow Hrange _ _ _]. unfold encode_terminate.
  rewrite (to_u32_id (ce_range e - 2)) by ints.
  destruct (narrow_spec pre out k e 0 (ce_range e - 2) HI) as (j & e' & out' & Hj & E & HI' & H' & HT); try lia.
  rewrite Z.add_0_r in E. exists e', j, out'. split_and!; try done; try lia. intros bs Hbs Hf.
  destruct (HT bs Hbs Hf) as [Hf1 Hsync]. split; [eapply fits_wider; [| |exact Hf1]; lia|].
  intros d Hd. destruct (Hsync d Hd) as (Ho & d' & Ed & Hd'). unfold decode_terminate. rewrite (proj1 Hd), Z.geb_leb.
  destruct (Z.leb_spec (ce_range e - 2) (cd_offset d)); [lia|]. rewrite Z.sub_0_r in Ed. rewrite Ed. by exists d'.
Qed.

(** [encode_terminate(1)]: the flush.  The ninth bit of the window is the
    stop bit it ends with. *)
Lemma encode_end_spec pre out k e :
  EncInv pre out k e -> 256 <= e.(ce_range) -> k + 8 < 4294967296 ->
  exists e' out', encode_terminate e true = Some e' /\ e'.(ce_bits) = pre ++ out' ++ [1] /\ Forall bit (out' ++ [1]) /\
    len (out' ++ [1]) = 9 + k /\
    forall tail, efits ((out' ++ [1]) ++ tail) out k e /\
      forall d, esync ((out' ++ [1]) ++ tail) out k e d ->
        exists d', decode_terminate d = Some (true, d') /\ d'.(cd_rest) = tail.
Proof.
  intros HI H256 Hk. pose proof HI as [_ _ Hlow Hrange _ _ _]. pose proof (ei_k_nonneg _ _ _ _ HI) as Hk0.
  unfold encode_terminate. rewrite (to_u32_id (ce_range e - 2)), to_u32_id by ints.
  destruct (enc_narrow _ _ _ _ (ce_range e - 2) 2 HI) as [HI1 HL1]; [lia..|].
  destruct (renorm_spec pre 8 out k _ HI1) as (j & e2 & out2 & Hj & E & HI2 & HL2 & HR2 & H2 & _);
    [cbn [set_interval ce_range]; change (2 ^ Z.of_nat 8) with 256; lia|lia|].
  unfold renorm. rewrite E. cbn [mbind option_bind]. cbn [set_interval ce_range] in HR2. rewrite HL1 in HL2.
  pose proof HI2 as [Hb2 Ho2 Hl2 Hr2 Hm2 Hc2 Hh2].
  assert (j = 7%nat) as ->.
  { do 9 (destruct j as [|j]; [cbn in HR2; lia || reflexivity|]). lia. }
  change (2 ^ Z.of_nat 7) with 128 in *. change (Z.of_nat 7) with 7 in *.
  set (b := Z.land (Z.shiftr (ce_low e2) 9) 1). set (L1 := low_val out e + (ce_range e - 2)) in *.
  assert (Hq : exists q, ce_low e2 = 128 * q /\ 0 <= q <= 6).
  { unfold low_val in HL2. rewrite Z.pow_add_r in HL2 by lia. change (2 ^ 10) with 1024 in HL2.
    exists (L1 - val out2 * 2 ^ ce_outstanding e2 * 8 - (2 ^ ce_outstanding e2 - 1) * 4). lia. }
  destruct Hq as (q & Eq & Hq).
  assert (Hbq : b = if q <? 4 then 0 else 1).
  { unfold b. rewrite Eq. assert (Hc : q = 0 \/ q = 1 \/ q = 2 \/ q = 3 \/ q = 4 \/ q = 5 \/ q = 6) by lia.
    by destruct Hc as [->|[->|[->|[->|[->|[->| ->]]]]]]. }
  assert (Hfirst : ce_first e2 = true -> b = 0).
  { intros Hf. rewrite Hf in Hc2. destruct Hc2 as [-> Hkm]. rewrite Hbq. destruct (Z.ltb_spec q 4); [done|].
    unfold low_val in Hh2. change (val []) with 0 in Hh2. rewrite <- Hkm in Hh2.
    pose proof (Z.pow_pos_nonneg 2 (k + 7)). lia. }
  destruct (put_bit_spec pre out2 (k + 7) e2 b (ce_low e2) (ce_range e2) HI2 (land_1_bit _) Hfirst)
    as (out3 & Hb3 & Ho3 & _ & _ & Hl3 & _ & Hk3 & Hv3).
  replace (set_interval e2 (ce_low e2) (ce_range e2)) with e2 in * by (by destruct e2).
  set (x := Z.land (Z.shiftr (Z.lor (Z.land (Z.shiftr (ce_low (put_bit e2 b)) 7) 3) 1) 1) 1).
  assert (Hx : x = if (q =? 2) || (q =? 3) || (q =? 6) then 1 else 0).
  { unfold x. rewrite Hl3, Eq. assert (Hc : q = 0 \/ q = 1 \/ q = 2 \/ q = 3 \/ q = 4 \/ q = 5 \/ q = 6) by lia.
    by destruct Hc as [->|[->|[->|[->|[->|[->| ->]]]]]]. }
  assert (Hone : Z.land (Z.lor (Z.land (Z.shiftr (ce_low (put_bit e2 b)) 7) 3) 1) 1 = 1).
  { apply Z.bits_inj'. intros i Hi. rewrite Z.land_spec, Z.lor_spec. change 1 with (Z.ones 1).
    rewrite Z.testbit_ones_nonneg by lia. by destruct (i <? 1); rewrite ?orb_true_r, ?andb_false_r. }
  rewrite Hone. eexists _, (out3 ++ [x]). split; [done|].
  assert (Hlen : len ((out3 ++ [x]) ++ [1]) = 9 + k) by (rewrite !length_app; cbn [length]; lia).
  split_and!; [unfold push_bits; cbn [ce_bits]; rewrite Hb3, <- !app_assoc; done| |done|].
  { apply Forall_app; split; [apply Forall_app; split; [done|]|]; (apply Forall_singleton);
      [apply land_1_bit|by right]. }
  intros tail.
  assert (Htake : take (Z.to_nat (9 + k)) (((out3 ++ [x]) ++ [1]) ++ tail) = (out3 ++ [x]) ++ [1])
    by (rewrite <- Hlen, Nat2Z.id; apply take_app_length).
  assert (Hval : L1 <= val ((out3 ++ [x]) ++ [1]) <= L1 + 1).
  { rewrite !val_app. cbn [length]. change (2 ^ Z.of_nat 1) with 2. change (val [x]) with x. change (val [1]) with 1.
    unfold low_val in HL2. rewrite Hx. rewrite Hbq in Hv3.
    assert (Hc : q = 0 \/ q = 1 \/ q = 2 \/ q = 3 \/ q = 4 \/ q = 5 \/ q = 6) by lia.
    destruct Hc as [->|[->|[->|[->|[->|[->| ->]]]]]]; cbn [orb Z.eqb Z.ltb Z.compare Pos.compare Pos.compare_cont Pos.eqb] in *; lia. }
  split.
  - split; [rewrite length_app; lia|]. rewrite Htake. lia.
  - intros d (Hdr & Hdo & Hdd). rewrite Htake in Hdo. unfold decode_terminate. rewrite Hdr, Z.geb_leb.
    destruct (Z.leb_spec (ce_range e - 2) (cd_offset d)); [|lia]. eexists. split; [done|]. cbn.
    rewrite Hdd, <- Hlen, Nat2Z.id. apply drop_app_length.
Qed.

(** The syntax elements an all-skip slice codes. *)
Inductive Sym : Type := SymSplit (inc : Z) | SymSkip (inc : Z).
(** A context-coded bin, or [end_of_slice_segment_flag] = 0. *)
Inductive Op : Type := OpBin (s : Sym) (bin : Z) | OpContinue.

Definition get_ctx (cs : CtxSet) (s : Sym) : option Ctx :=
  match s with SymSplit i => cs.(cs_split) !! Z.to_nat i | SymSkip i => cs.(cs_skip) !! Z.to_nat i end.
Definition set_ctx (cs : CtxSet) (s : Sym) (c : Ctx) : CtxSet :=
  match s with
  | SymSplit i => MkCtxSet (<[Z.to_nat i := c]> cs.(cs_split)) cs.(cs_skip)
  | SymSkip i => MkCtxSet cs.(cs_split) (<[Z.to_nat i := c]> cs.(cs_skip))
  end.

Definition encode_op (st : CabacEnc * CtxSet) (o : Op) : option (CabacEnc * CtxSet) :=
  let '(e, cs) := st in
  match o with
  | OpBin s b => c ← get_ctx cs s; '(e, c) ← encode_bin e c b; Some (e, set_ctx cs s c)
  | OpContinue => e ← encode_terminate e false; Some (e, cs)
  end.
Definition encode_ops (ops : list Op) (st : CabacEnc * CtxSet) : option (CabacEnc * CtxSet) := foldM encode_op ops st.

(** What a decoder asks for, and the value it gets. *)
Definition req_of (o : Op) : option Sym := match o with OpBin s _ => Some s | OpContinue => None end.
Definition val_of (o : Op) : Z := match o with OpBin _ b => b | OpContinue => 0 end.

Definition decode_req (q : option Sym) (d : CabacDec) (cs : CtxSet) : option (Z * CabacDec * CtxSet) :=
  match q with
  | Some s => c ← get_ctx cs s; '(b, d, c) ← decode_bin d c; Some (b, d, set_ctx cs s c)
  | None => '(t, d) ← decode_terminate d; Some (if (t : bool) then 1 else 0, d, cs)
  end.
Fixpoint decode_reqs (qs : list (option Sym)) (d : CabacDec) (cs : CtxSet) : option (list Z * CabacDec * CtxSet) :=
  match qs with
  | [] => Some ([], d, cs)
  | q :: qs =>
    '(v, d, cs) ← decode_req q d cs;
    '(vs, d, cs) ← decode_reqs qs d cs;
    Some (v :: vs, d, cs)
  end.

Definition ctxs_ok (cs : CtxSet) : Prop :=
  length cs.(cs_split) = 3%nat /\ length cs.(cs_skip) = 3%nat /\ Forall ctx_ok cs.(cs_split) /\ Forall ctx_ok cs.(cs_skip).
Definition sym_ok (s : Sym) : Prop := match s with SymSplit i | SymSkip i => 0 <= i <= 2 end.
Definition op_ok (o : Op) : Prop := match o with OpBin s b => sym_ok s /\ bit b | OpContinue => True end.

Lemma get_ctx_ok cs s : ctxs_ok cs -> sym_ok s -> exists c, get_ctx cs s = Some c /\ ctx_ok c.
Proof.
  intros (H1 & H2 & H3 & H4) Hs.
  assert (HT : forall l i, length l = 3%nat -> Forall ctx_ok l -> 0 <= i <= 2 -> exists c, l !! Z.to_nat i = Some c /\ ctx_ok c).
  { intros l i Hl Hf Hi. destruct (lookup_lt_is_Some_2 l (Z.to_nat i)) as [c Hc]; [lia|]. exists c.
    split; [done|]. by apply (Forall_lookup_1 _ _ _ _ Hf Hc). }
  destruct s; apply HT; done.
Qed.
Lemma set_ctx_ok cs s c : ctxs_ok cs -> ctx_ok c -> ctxs_ok (set_ctx cs s c).
Proof.
  intros (H1 & H2 & H3 & H4) Hc. destruct s; unfold ctxs_ok; cbn; rewrite length_insert; split_and!; try done;
    by apply Forall_insert.
Qed.

Lemma ctx_init_ok v qp : 0 <= v < 256 -> ctx_ok (ctx_init v qp).
Proof.
  intros Hv. unfold ctx_init, ctx_ok. set (pre := clamp_i32 (_ + _) 1 126).
  assert (Hp : 1 <= pre <= 126).
  { unfold pre, clamp_i32. rewrite Z.gtb_ltb. repeat case_test; lia. }
  destruct (Z.leb_spec pre 63); cbn; rewrite to_u8_id by ints; (split; [lia|]); [by left|by right].
Qed.
Lemma fresh_contexts_ok qp : ctxs_ok (fresh_contexts qp).
Proof.
  unfold ctxs_ok, fresh_contexts. split_and!; try done; cbn; repeat (apply Forall_cons; split); try apply Forall_nil_2;
    apply ctx_init_ok; lia.
Qed.

Lemma encode_op_spec pre out k e cs o :
  EncInv pre out k e -> 256 <= e.(ce_range) -> ctxs_ok cs -> op_ok o -> k + 8 < 4294967296 ->
  exists e' cs' j out', encode_op (e, cs) o = Some (e', cs') /\ ctxs_ok cs' /\ 0 <= j <= 8 /\
    EncInv pre out' (k + j) e' /\ 256 <= e'.(ce_range) /\
    tracks out k e out' (k + j) e' (fun d => '(v, d, c) ← decode_req (req_of o) d cs; Some ((v, c), d)) (val_of o, cs').
Proof.
  intros HI H256 Hcs Ho Hk. destruct o as [s b|].
  - destruct Ho as [Hs Hb]. destruct (get_ctx_ok cs s Hcs Hs) as (c & Ec & Hc).
    destruct (encode_bin_spec pre out k e c b HI H256 Hc Hb Hk) as (e' & c' & j & out' & E & Hc' & Hj & HI' & H' & HT).
    exists e', (set_ctx cs s c'), j, out'. cbn [encode_op]. rewrite Ec. cbn [mbind option_bind]. rewrite E.
    split_and!; try done; try lia; [by apply set_ctx_ok|]. intros bs Hbs Hf. destruct (HT bs Hbs Hf) as [Hf1 Hsync].
    split; [done|]. intros d Hd. destruct (Hsync d Hd) as (d' & Ed & Hd'). exists d'. split; [|done].
    cbn [req_of decode_req]. rewrite Ec. cbn [mbind option_bind].
    destruct (decode_bin d c) as [[[b' d1] c1]|]; [|done]. by injection Ed as -> -> ->.
  - destruct (encode_continue_spec pre out k e HI H256 Hk) as (e' & j & out' & E & Hj & HI' & H' & HT).
    exists e', cs, j, out'. cbn [encode_op]. rewrite E. split_and!; try done; try lia.
    intros bs Hbs Hf. destruct (HT bs Hbs Hf) as [Hf1 Hsync].
    split; [done|]. intros d Hd. destruct (Hsync d Hd) as (d' & Ed & Hd'). exists d'. split; [|done].
    cbn [req_of decode_req]. by rewrite Ed.
Qed.

Lemma encode_ops_spec pre ops out k e cs :
  EncInv pre out k e -> 256 <= e.(ce_range) -> ctxs_ok cs -> Forall op_ok ops ->
  k + 8 * len ops + 8 < 4294967296 ->
  exists e' cs' k' out', encode_ops ops (e, cs) = Some (e', cs') /\ ctxs_ok cs' /\ k <= k' <= k + 8 * len ops /\
    EncInv pre out' k' e' /\ 256 <= e'.(ce_range) /\
    tracks out k e out' k' e' (fun d => '(v, d, c) ← decode_reqs (req_of <$> ops) d cs; Some ((v, c), d))
      (val_of <$> ops, cs').
Proof.
  unfold encode_ops. revert out k e cs. induction ops as [|o ops IH]; intros out k e cs HI H256 Hcs Hops Hk.
  - exists e, cs, k, out. cbn [foldM length]. split_and!; try done; try lia. intros bs Hbs Hf. split; [done|].
    intros d Hd. by exists d.
  - apply Forall_cons in Hops as [Ho Hops]. cbn [length] in Hk.
    destruct (encode_op_spec pre out k e cs o HI H256 Hcs Ho ltac:(lia)) as (e1 & cs1 & j & out1 & E1 & Hcs1 & Hj & HI1 & H1 & HT1).
    destruct (IH out1 (k + j) e1 cs1 HI1 H1 Hcs1 Hops ltac:(lia)) as (e' & cs' & k' & out' & E & Hcs' & Hk' & HI' & H' & HT).
    exists e', cs', k', out'. cbn [foldM length]. rewrite E1. cbn [mbind option_bind].
    split_and!; try done; try lia. intros bs Hbs Hf. destruct (HT bs Hbs Hf) as [Hf1 Hsync1].
    destruct (HT1 bs Hbs Hf1) as [Hf0 Hsync0]. split; [done|]. intros d Hd.
    destruct (Hsync0 d Hd) as (d1 & Ed1 & Hd1). destruct (Hsync1 d1 Hd1) as (d' & Ed & Hd').
    exists d'. split; [|done]. rewrite !fmap_cons. cbn [decode_reqs].
    destruct (decode_req (req_of o) d cs) as [[[v d2] c2]|]; [|done]. injection Ed1 as -> -> ->. cbn [mbind option_bind].
    destruct (decode_reqs _ d1 cs1) as [[[vs d3] c3]|]; [|done]. by injection Ed as -> -> ->.
Qed.

(** What the encoder appends to the vector [pre] for a closed substream. *)
Definition encode_substream (pre : list Z) (cs : CtxSet) (ops : list Op) : option (list Z * CtxSet) :=
  '(e, cs) ← encode_ops ops (cabac_reset pre, cs);
  e ← encode_terminate e true;
  Some (e.(ce_bits), cs).

Lemma decode_reqs_app qs1 qs2 d cs :
  decode_reqs (qs1 ++ qs2) d cs =
    '(v1, d, cs) ← decode_reqs qs1 d cs; '(v2, d, cs) ← decode_reqs qs2 d cs; Some (v1 ++ v2, d, cs).
Proof.
  revert d cs. induction qs1 as [|q qs1 IH]; intros d cs; cbn [decode_reqs app].
  - cbn. by destruct (decode_reqs qs2 d cs) as [[[? ?] ?]|].
  - destruct (decode_req q d cs) as [[[v d1] c1]|]; [|done]. cbn [mbind option_bind]. rewrite IH.
    destruct (decode_reqs qs1 d1 c1) as [[[v1 d2] c2]|]; [|done]. cbn [mbind option_bind].
    by destruct (decode_reqs qs2 d2 c2) as [[[v2 d3] c3]|].
Qed.

Lemma substream_decodes pre cs ops :
  ctxs_ok cs -> Forall op_ok ops -> 8 * len ops + 8 < 4294967296 ->
  exists out cs', encode_substream pre cs ops = Some (pre ++ out ++ [1], cs') /\ ctxs_ok cs' /\ Forall bit (out ++ [1]) /\
    len (out ++ [1]) <= 8 * len ops + 9 /\
    forall tail, Forall bit tail ->
      exists d', decode_reqs ((req_of <$> ops) ++ [None]) (dec_init ((out ++ [1]) ++ tail)) cs =
                   Some ((val_of <$> ops) ++ [1], d', cs') /\ d'.(cd_rest) = tail.
Proof.
  intros Hcs Hops Hl.
  destruct (encode_ops_spec pre ops [] 0 (cabac_reset pre) cs (enc_inv_reset pre)) as (e1 & cs1 & k1 & out1 & E1 & Hcs1 & Hk1 & HI1 & H1 & HT);
    [cbn; lia|done..|].
  destruct (encode_end_spec pre out1 k1 e1 HI1 H1) as (e2 & out & E2 & Hb2 & Hbits & Hlen & Htail); [lia|].
  exists out, cs1. unfold encode_substream. rewrite E1. cbn [mbind option_bind]. rewrite E2. cbn [mbind option_bind].
  split_and!; try done; [by rewrite Hb2|lia|]. intros tail Ht. destruct (Htail tail) as [Hf Hend].
  destruct (HT ((out ++ [1]) ++ tail)) as [Hf0 Hsync]; [by apply Forall_app|done|].
  destruct (Hsync (dec_init ((out ++ [1]) ++ tail))) as (d1 & Ed1 & Hd1).
  { split_and!; [done| |done]. change (low_val [] (cabac_reset pre)) with 0. cbn [dec_init cd_offset]. change (Z.to_nat (9 + 0)) with 9%nat. lia. }
  destruct (Hend d1 Hd1) as (d' & Ed & Hd'). exists d'. split; [|done]. rewrite decode_reqs_app.
  destruct (decode_reqs (req_of <$> ops) _ cs) as [[[v d2] c2]|]; [|done]. injection Ed1 as -> -> ->.
  cbn [mbind option_bind decode_reqs decode_req]. by rewrite Ed.
Qed.
