(* ===== verification/HevcDecode.v ===== *)
(** * The slice data of the standard, as a decoder parses it

    H.265 7.3.8 and 9.3 for a P slice of one slice segment without tiles, SAO,
    cu_transquant_bypass and merge candidates to choose from: what the header of
    a synthesized slice announces.  The decoder reads its own flags, derives
    every context increment from the coding units it has decoded in the slice,
    and keeps its own contexts for wavefronts; nothing of the encoder's
    bookkeeping enters.  A unit that is not skipped is outside this syntax. *)
From S2P Require Import Prelude HevcBits HevcParse Cabac HevcCodes.

(** A coding unit: the luma samples it covers, its depth, its flag. *)
Record Cu : Type := MkCu { cu_x : Z; cu_y : Z; cu_log2 : Z; cu_depth : Z; cu_skip_flag : Z }.
Definition in_cu (u : Cu) (x y : Z) : bool :=
  (u.(cu_x) <=? x) && (x <? u.(cu_x) + 2 ^ u.(cu_log2)) && (u.(cu_y) <=? y) && (y <? u.(cu_y) + 2 ^ u.(cu_log2)).
(** A location is available when a unit decoded earlier in the slice covers it. *)
Definition cu_at (l : list Cu) (x y : Z) : option Cu := List.find (fun u => in_cu u x y) l.
(** [ctxInc] of 9.3.4.2.2: the available left and upper neighbours that satisfy [f]. *)
Definition nb_cond (l : list Cu) (x y : Z) (f : Cu -> bool) : Z :=
  match cu_at l x y with Some u => if f u then 1 else 0 | None => 0 end.
Definition ctx_inc (l : list Cu) (x y : Z) (f : Cu -> bool) : Z := nb_cond l (x - 1) y f + nb_cond l x (y - 1) f.

(** 9.3.2.2, and the [initValue]s of [initType] 1. *)
Definition std_ctx (initValue SliceQpY : Z) : Ctx :=
  let m := initValue / 16 * 5 - 45 in
  let n := (initValue mod 16) * 8 - 16 in
  let preCtxState := Z.max 1 (Z.min 126 (m * Z.max 0 (Z.min 51 SliceQpY) / 16 + n)) in
  if preCtxState <=? 63 then MkCtx (63 - preCtxState) 0 else MkCtx (preCtxState - 64) 1.
Definition std_contexts (SliceQpY : Z) : CtxSet :=
  MkCtxSet [std_ctx 107 SliceQpY; std_ctx 139 SliceQpY; std_ctx 126 SliceQpY]
           [std_ctx 197 SliceQpY; std_ctx 185 SliceQpY; std_ctx 201 SliceQpY].

Lemma ctx_init_std v qp : 0 <= v < 256 -> ctx_init v qp = std_ctx v qp.
Proof.
  intros Hv. unfold ctx_init, std_ctx. rewrite Z.shiftl_mul_pow2, !Z.shiftr_div_pow2 by lia. change (2 ^ 4) with 16. change (2 ^ 3) with 8.
  change 15 with (Z.ones 4). rewrite Z.land_ones by lia. change (2 ^ 4) with 16.
  assert (E : forall a lo hi, lo <= hi -> clamp_i32 a lo hi = Z.max lo (Z.min hi a)).
  { intros a lo hi H. unfold clamp_i32. rewrite Z.gtb_ltb. destruct (Z.ltb_spec a lo), (Z.ltb_spec hi a); lia. }
  rewrite !E by lia. set (pre := Z.max 1 _). destruct (Z.leb_spec pre 63); rewrite to_u8_id by (unfold u8; lia); done.
Qed.
Lemma fresh_contexts_std qp : fresh_contexts qp = std_contexts qp.
Proof. unfold fresh_contexts, std_contexts. cbn [fmap list_fmap kInitSplitCu kInitCuSkip]. by rewrite !ctx_init_std by lia. Qed.

(** The arithmetic decoder, the contexts, and the units of the slice so far. *)
Record SliceDec : Type := MkSliceDec { sd_engine : CabacDec; sd_ctxs : CtxSet; sd_cus : list Cu }.
Definition decode_flag (s : Sym) (st : SliceDec) : option (Z * SliceDec) :=
  '(v, e, c) ← decode_req (Some s) st.(sd_engine) st.(sd_ctxs);
  Some (v, MkSliceDec e c st.(sd_cus)).

Section SliceData.
Context (sps : SpsInfo) (wpp : bool) (SliceQpY : Z).
Local Abbreviation min_log2 := sps.(log2_min_cb).

Definition coding_unit (n : nat) (x y d : Z) (st : SliceDec) : option SliceDec :=
  '(skip, st) ← decode_flag (SymSkip (ctx_inc st.(sd_cus) x y (fun u => u.(cu_skip_flag) =? 1))) st;
  if skip =? 1
  then Some (MkSliceDec st.(sd_engine) st.(sd_ctxs) (st.(sd_cus) ++ [MkCu x y (Z.of_nat n) d skip]))
  else None.

(** 7.3.8.4, with the test that the unit starts inside the picture. *)
Fixpoint coding_quadtree (n : nat) (x y d : Z) (st : SliceDec) : option SliceDec :=
  if (sps.(pic_width) <=? x) || (sps.(pic_height) <=? y) then Some st else
  let whole := (x + 2 ^ Z.of_nat n <=? sps.(pic_width)) && (y + 2 ^ Z.of_nat n <=? sps.(pic_height)) in
  '(split, st) ← (if whole && (min_log2 <? Z.of_nat n)
                  then decode_flag (SymSplit (ctx_inc st.(sd_cus) x y (fun u => d <? u.(cu_depth)))) st
                  else Some (if min_log2 <? Z.of_nat n then 1 else 0, st));
  if split =? 0 then coding_unit n x y d st else
  match n with
  | O => None
  | S half =>
    let h := 2 ^ Z.of_nat half in
    st ← coding_quadtree half x y (d + 1) st;
    st ← coding_quadtree half (x + h) y (d + 1) st;
    st ← coding_quadtree half x (y + h) (d + 1) st;
    coding_quadtree half (x + h) (y + h) (d + 1) st
  end.

(** [byte_alignment()] after the bits that the engine has consumed. *)
Definition to_byte (rest : list Z) : option (list Z) :=
  let k := (length rest mod 8)%nat in
  if bool_decide (take k rest = replicate k 0) then Some (drop k rest) else None.

(** 7.3.8.1 from the CTU [addr] on; [saved] are the contexts a wavefront keeps
    after the second CTU of a row.  The result is the units and the CTU after
    the last one. *)
Fixpoint slice_data (fuel : nat) (addr : Z) (saved : option CtxSet) (st : SliceDec) : option (list Cu * Z) :=
  match fuel with
  | O => None
  | S fuel =>
    let width := sps.(pic_width_ctbs) in
    let size := 2 ^ sps.(log2_ctb) in
    st ← coding_quadtree (Z.to_nat sps.(log2_ctb)) (addr mod width * size) (addr / width * size) 0 st;
    let saved := if wpp && (addr mod width =? 1) then Some st.(sd_ctxs) else saved in
    '(end_of_slice, e) ← decode_terminate st.(sd_engine);
    let addr := addr + 1 in
    if end_of_slice : bool then
      rest ← to_byte e.(cd_rest);
      if bool_decide (rest = []) then Some (st.(sd_cus), addr) else None
    else if wpp && (addr mod width =? 0) then
      '(end_of_subset, e) ← decode_terminate e;
      if end_of_subset : bool then
        rest ← to_byte e.(cd_rest);
        ctxs ← match cu_at st.(sd_cus) size (addr / width * size - size) with
               | Some _ => saved
               | None => Some (std_contexts SliceQpY)
               end;
        slice_data fuel addr saved (MkSliceDec (dec_init rest) ctxs st.(sd_cus))
      else None
    else slice_data fuel addr saved (MkSliceDec e st.(sd_ctxs) st.(sd_cus))
  end.
Definition decode_slice_data (addr : Z) (bytes : list Z) : option (list Cu * Z) :=
  slice_data (Z.to_nat sps.(pic_size_ctbs)) addr None (MkSliceDec (dec_init (bits_of bytes)) (std_contexts SliceQpY) []).
End SliceData.
