(* ===== verification/HevcRoundtrip.v ===== *)
(** * Emulation prevention, and the round trip of the synthesized header

    [unescape] undoes [escape_append]; the escaped NAL holds no start-code
    prefix; and escaping a concatenation is escaping the parts when each part
    ends in a non-zero byte, which is what makes the WPP entry points exact.
    [parse_slice_header] on the NAL [make_conceal_slice] emits. *)
From S2P Require Import Prelude Endian HevcBits HevcParse Cabac HevcConceal HevcCodes.
(** ** Bit counts *)
Lemma bits_loop_some fuel v n :
  0 <= v -> n <= 2 ^ (v + Z.of_nat fuel) ->
  exists b, bits_loop fuel v n = Some b /\ v <= b <= v + Z.of_nat fuel /\ n <= 2 ^ b /\ (b = v \/ 2 ^ (b - 1) < n).
Proof.
  revert v. induction fuel as [|fuel IH]; intros v Hv Hn; cbn [bits_loop];
    rewrite Z.shiftl_mul_pow2, Z.mul_1_l by lia; destruct (Z.ltb_spec (2 ^ v) n) as [H|H].
  - rewrite Z.add_0_r in Hn. lia.
  - exists v. split_and!; try done; lia.
  - destruct (IH (v + 1)) as (b & -> & Hb & Hnb & Hmin); [lia|by replace (v + 1 + Z.of_nat fuel) with (v + Z.of_nat (S fuel)) by lia|].
    exists b. split_and!; try done; try lia. right. destruct Hmin as [->|?]; [|done]. by replace (v + 1 - 1) with v by lia.
  - exists v. split_and!; try done; lia.
Qed.
(** The loop is the ceiling of the logarithm. *)
Lemma bits_for_some n : n <= 2147483648 -> exists b, bits_for n = Some b /\ 0 <= b <= 31 /\ n <= 2 ^ b.
Proof.
  intros Hn. destruct (bits_loop_some 31 0 n) as (b & E & Hb & Hnb & _); [lia|done|]. exists b. split_and!; try done; lia.
Qed.

#[export] Instance total_lift_bits n : (n <= 2147483648) -> Total (lift (bits_for n)).
Proof. intros H. destruct (bits_for_some n H) as (b & E & _). by apply (total_lift_some b). Qed.

Lemma total_lift_lookup (l : list Z) i : 0 <= i < len l -> Total (lift (l !! Z.to_nat i)).
Proof.
  intros Hi. destruct (lookup_lt_is_Some_2 l (Z.to_nat i)) as [x Hx]; [lia|]. by apply (total_lift_some x).
Qed.

(** ** Shared syntax *)
#[export] Instance total_st_rps_inter_step s : Total (st_rps_inter_step s).
Proof. destruct s. unfold st_rps_inter_step. apply _. Qed.
#[export] Instance local_st_rps_inter_step s : Local (st_rps_inter_step s).
Proof. destruct s. unfold st_rps_inter_step. apply _. Qed.

Lemma total_st_rps_inter idx num_sets l : 1 <= idx -> Total (parse_st_rps_inter idx num_sets l).
Proof.
  intros Hi. unfold parse_st_rps_inter. apply (total_bind_post _ _ (fun x => 0 <= x)); [apply _| |].
  - intros r a r' E. destruct (idx =? num_sets); [|by injection E as <- _; lia].
    apply bind_inv in E as (d & r1 & E1 & E2). apply post_ue in E1. rewrite Z.geb_leb in E2.
    destruct (Z.leb_spec idx d); [done|]. injection E2 as <- _. lia.
  - intros ref_idx Hr. rewrite Z.geb_leb. destruct (Z.leb_spec (len l) ref_idx); [apply _|].
    repeat (apply total_bind; [apply _|intros ?]). apply total_bind; [by apply total_lift_lookup|intros n]. apply _.
Qed.
#[export] Instance total_st_rps_explicit : Total parse_st_rps_explicit.
Proof. unfold parse_st_rps_explicit. apply _. Qed.
#[export] Instance local_st_rps_explicit : Local parse_st_rps_explicit.
Proof. unfold parse_st_rps_explicit. apply _. Qed.

#[export] Instance local_st_rps_inter idx num_sets l : Local (parse_st_rps_inter idx num_sets l).
Proof. unfold parse_st_rps_inter. apply _. Qed.

Lemma total_st_rps idx num_sets l : 0 <= idx -> Total (parse_st_rps idx num_sets l).
Proof.
  intros Hi. unfold parse_st_rps. apply (total_bind_post _ _ (fun b => b = true -> 1 <= idx)); [apply _| |].
  - intros r b r' E ->. destruct (Z.eqb_spec idx 0); [by injection E|lia].
  - intros [] Hb; [|apply _]. apply total_bind; [apply total_st_rps_inter; auto|intros ?; apply _].
Qed.
#[export] Instance local_st_rps idx num_sets l : Local (parse_st_rps idx num_sets l).
Proof. unfold parse_st_rps. apply _. Qed.

#[export] Instance total_skip_scaling_matrix s : Total (skip_scaling_matrix s).
Proof. unfold skip_scaling_matrix. apply _. Qed.
#[export] Instance total_skip_scaling_list : Total skip_scaling_list.
Proof. unfold skip_scaling_list. apply _. Qed.
#[export] Instance total_skip_sub_layer a b c : Total (skip_sub_layer a b c).
Proof. unfold skip_sub_layer. apply _. Qed.
#[export] Instance total_skip_ptl n : Total (skip_profile_tier_level n).
Proof.
  unfold skip_profile_tier_level. repeat (apply total_bind; [apply _|intros _]). apply total_if; [apply _|].
  apply total_bind; [apply total_loop; intros ? [? ?]; apply _|]. intros [? ?]. apply _.
Qed.

(** ** SPS *)
Lemma total_loop_from {S} n i (f : Z -> S -> P S) s :
  (forall j, i <= j -> forall s, Total (f j s)) -> Total (r_loop n i f s).
Proof.
  revert i s. induction n as [|n IH]; intros i s Hf; cbn [r_loop]; [apply _|].
  apply total_bind; [apply Hf; lia|intros a; apply IH]. intros j Hj. apply Hf. lia.
Qed.
#[export] Instance total_sps_st_rps n : Total (parse_sps_st_rps n).
Proof.
  unfold parse_sps_st_rps. apply total_loop_from. intros j Hj [nds nus].
  apply total_bind; [by apply total_st_rps|]. intros [? ?]. apply _.
Qed.
#[export] Instance total_sps_lt n : Total (parse_sps_lt n).
Proof. unfold parse_sps_lt. apply _. Qed.

(** The picture in CTUs: at most 512 by 512. *)
Lemma sps_geometry_some w h c :
  1 <= w <= 8192 -> 1 <= h <= 8192 -> 4 <= c <= 6 ->
  exists wc hc v, sps_geometry w h c = Some (wc, hc, wc * hc, v) /\ 1 <= wc <= 512 /\ 1 <= hc <= 512 /\
    wc = (w + 2 ^ c - 1) / 2 ^ c /\ hc = (h + 2 ^ c - 1) / 2 ^ c /\ 0 <= v <= 31 /\ wc * hc <= 2 ^ v.
Proof.
  intros Hw Hh Hc. unfold sps_geometry. rewrite Z.shiftl_mul_pow2, Z.mul_1_l, !Z.shiftr_div_pow2 by lia.
  assert (Hp : 16 <= 2 ^ c <= 64) by (assert (c = 4 \/ c = 5 \/ c = 6) as [-> | [-> | ->]] by lia; lia).
  rewrite !(to_u32_id (_ + _ - 1)) by ints.
  assert (Hb : forall x, 1 <= x <= 8192 -> 1 <= (x + 2 ^ c - 1) / 2 ^ c <= 512).
  { intros x Hx. split; [apply Z.div_le_lower_bound; lia|]. apply Z.lt_succ_r, Z.div_lt_upper_bound; lia. }
  pose proof (Hb w Hw). pose proof (Hb h Hh). set (wc := (w + 2 ^ c - 1) / 2 ^ c) in *.
  set (hc := (h + 2 ^ c - 1) / 2 ^ c) in *.
  assert (1 <= wc * hc <= 262144) by nia. rewrite to_u32_id by ints.
  destruct (bits_for_some (wc * hc)) as (v & -> & Hv & Hle); [lia|]. cbn [mbind option_bind].
  rewrite to_u8_id by ints. exists wc, hc, v. split_and!; done || lia.
Qed.

(** The guard of [parse_sps] on non-negative fields. *)
Lemma sps_guard w h c poc :
  0 <= w -> 0 <= h ->
  (w =? 0) || (h =? 0) || (w >? 8192) || (h >? 8192) || (c <? 4) || (c >? 6) || (poc <? 4) || (poc >? 16) = false ->
  1 <= w <= 8192 /\ 1 <= h <= 8192 /\ 4 <= c <= 6 /\ 4 <= poc <= 16.
Proof. intros Hw Hh E. repeat apply orb_false_iff in E as [E ?]. bool_hyps. lia. Qed.

(** One step down a straight-line parser. *)
Ltac total_walk :=
  repeat first
    [ apply total_pair; intros ? ?
    | apply (total_bind_post r_ue _ _ _ post_ue); intros ? ?
    | apply total_bind; [apply _|intros ?]
    | match goal with |- Total (if ?b then _ else _) => destruct b eqn:? ; [apply _|] end ].

#[export] Instance total_sps_body : Total sps_body.
Proof.
  unfold sps_body. cbv zeta. total_walk.
  match goal with H : _ || _ = false |- _ => apply sps_guard in H as (Hw & Hh & Hc & _); [|done..] end.
  destruct (sps_geometry_some _ _ _ Hw Hh Hc) as (wc & hc & v & -> & _).
  apply total_bind; [by apply (total_lift_some (wc, hc, wc * hc, v))|]. intros [[[? ?] ?] ?]. apply _.
Qed.

(** ** What the parsers promise about their results *)
Section Post.
Context {A B : Type}.
Lemma post_bind (m : P A) (k : A -> P B) (Q : A -> Prop) (R : B -> Prop) :
  post m Q -> (forall a, Q a -> post (k a) R) -> post (m ≫= k) R.
Proof. intros Hm Hk r b r' E. apply bind_inv in E as (a & r1 & E1 & E2). eapply Hk, E2. eapply Hm, E1. Qed.
Lemma post_true (m : P A) : post m (fun _ => True).
Proof. done. Qed.
Lemma post_ret (a : A) (Q : A -> Prop) : Q a -> post (mret a) Q.
Proof. intros H r a' r' E. by injection E as <- _. Qed.
Lemma post_refuse (Q : A -> Prop) : post refuse Q.
Proof. intros r a r' E. done. Qed.
Lemma post_lift (o : option A) : post (lift o) (fun a => o = Some a).
Proof. intros r a r' E. unfold lift in E. destruct o; [|done]. by injection E as <- _. Qed.
Lemma post_weaken (m : P A) (Q R : A -> Prop) : post m Q -> (forall a, Q a -> R a) -> post m R.
Proof. intros H HQ r a r' E. eauto. Qed.
End Post.

Lemma post_u_bound n : 0 <= n <= 32 -> post (r_u n) (fun x => 0 <= x < 2 ^ n).
Proof.
  intros Hn. unfold r_u.
  assert (HT : forall k v j, 0 <= j -> 0 <= v < 2 ^ j -> j + Z.of_nat k <= 32 ->
            post (u_loop k v) (fun x => 0 <= x < 2 ^ (j + Z.of_nat k))).
  { intros k. induction k as [|k IH]; intros v j Hj Hv Hk r a r' E; cbn [u_loop] in E.
    - injection E as <- _. by rewrite Z.add_0_r.
    - destruct (br_pos r >=? br_bits r); [injection E as <- _; split; [lia|apply Z.pow_pos_nonneg; lia]|].
      destruct (rd8 _ _) as [c|]; [|done]. cbn [mbind option_bind] in E. revert E.
      set (b := Z.land _ 1). assert (Hb : bit b) by apply land_1_bit. assert (0 <= b <= 1) by (destruct Hb; lia).
      assert (Hp : 2 ^ (j + 1) = 2 * 2 ^ j) by (rewrite Z.pow_add_r by lia; lia).
      pose proof (Z.pow_le_mono_r 2 (j + 1) 32 ltac:(lia) ltac:(lia)).
      change (Z.lor (to_u32 (Z.shiftl v 1)) b) with (shift_in v b). rewrite shift_in_arith by (done || lia).
      replace (j + Z.of_nat (S k)) with (j + 1 + Z.of_nat k) by lia. apply (IH (2 * v + b) (j + 1)); lia. }
  pose proof (HT (Z.to_nat n) 0 0 ltac:(lia) ltac:(lia) ltac:(lia)) as H.
  rewrite Z2Nat.id, Z.add_0_l in H by lia. exact H.
Qed.

(** A parameter set as [parse_sps] leaves it. *)
Record SpsOk (s : SpsInfo) : Prop := {
  so_width : 1 <= s.(pic_width) <= 8192;
  so_height : 1 <= s.(pic_height) <= 8192;
  so_ctb : 4 <= s.(log2_ctb) <= 6;
  so_min_cb : 0 <= s.(log2_min_cb) < 256;
  so_poc : 4 <= s.(log2_max_poc_lsb) <= 16;
  so_st : 0 <= s.(num_st_rps) < 256;
  so_lt : 0 <= s.(num_long_term_ref_pics_sps) < 256;
  so_geometry : sps_geometry s.(pic_width) s.(pic_height) s.(log2_ctb) =
                Some (s.(pic_width_ctbs), s.(pic_height_ctbs), s.(pic_size_ctbs), s.(addr_bits))
}.

Ltac post_step :=
  first
    [ match goal with |- post (let '(_, _) := ?p in _) _ => destruct p end
    | match goal with |- post (lift _ ≫= _) _ => eapply post_bind; [apply post_lift|intros ? ?] end
    | apply (post_bind r_ue _ _ _ post_ue); intros ? ?
    | eapply post_bind; [apply post_true|intros ? _]
    | match goal with |- post (if ?b then _ else _) _ => destruct b eqn:? ; [apply post_refuse|] end ].

Lemma post_sps_lt n : post (parse_sps_lt n) (fun p => 0 <= p.1 < 256).
Proof.
  unfold parse_sps_lt. repeat post_step. apply post_ret. apply to_u8_u8.
Qed.
Lemma post_sps_body : post sps_body SpsOk.
Proof.
  unfold sps_body. cbv zeta.
  repeat first
    [ match goal with |- post ((if ?b then parse_sps_lt ?n else _) ≫= _) _ =>
        apply (post_bind _ _ (fun p : Z * list Z => 0 <= p.1 < 256));
          [destruct b; [apply post_sps_lt|by apply post_ret]|intros ? ?] end
    | post_step ].
  match goal with H : _ || _ = false |- _ => apply sps_guard in H as (Hw & Hh & Hc & Hp); [|done..] end.
  apply post_ret. split; cbn; try done; try apply to_u8_u8.
Qed.

(** ** PPS *)
Record PpsOk (p : PpsInfo) : Prop := {
  po_id : 0 <= p.(pps_id) <= 63;
  po_extra : 0 <= p.(num_extra_slice_header_bits) < 256;
  po_l0 : 0 <= p.(num_ref_idx_l0_default) < 65536;
  po_l1 : 0 <= p.(num_ref_idx_l1_default) < 65536;
  po_qp : -128 <= p.(init_qp) < 128
}.
Lemma post_pps_body : post pps_body PpsOk.
Proof.
  unfold pps_body. cbv zeta. repeat post_step. apply post_ret. bool_hyps.
  split; cbn; try apply to_u8_u8; try apply to_u16_u16; try apply to_i8_i8. rewrite to_u8_id by ints. lia.
Qed.

(** ** The bytes a parser sees *)
Lemma unescape_loop_length p cap zeros : 0 <= cap -> len (unescape_loop p cap zeros) <= cap.
Proof.
  revert cap zeros. induction p as [|c p IH]; intros cap zeros Hc; cbn [unescape_loop]; [done|].
  destruct (Z.leb_spec cap 0); [done|]. destruct ((zeros >=? 2) && (c =? 3)); [by apply IH|].
  cbn [length]. specialize (IH (cap - 1) (if c =? 0 then zeros + 1 else 0) ltac:(lia)). lia.
Qed.
Lemma unescape_length p cap : 0 <= cap -> len (unescape p cap) <= cap.
Proof. apply unescape_loop_length. Qed.

Lemma run_parser_total {A} (m : P A) d : 8 * len d < 4294967296 -> Total m -> is_Some (run_parser m d).
Proof.
  intros Hd Hm. unfold run_parser. destruct (Hm _ (reader_init_wf d Hd)) as [-> |(a & r & -> & _)]; eauto.
Qed.
Lemma run_parser_post {A} (m : P A) d a Q : post m Q -> run_parser m d = Some (Some a) -> Q a.
Proof.
  intros HQ E. unfold run_parser in E. destruct (m _) as [[[x r]|]|] eqn:Em; [|done|done]. injection E as <-. by eapply HQ.
Qed.

Lemma nal_type_some nal : 1 <= len nal -> is_Some (nal_type nal).
Proof. intros H. unfold nal_type, rd8. destruct nal as [|b nal]; [cbn in H; lia|]. by eexists. Qed.

Lemma parse_sps_total nal : is_Some (parse_sps nal).
Proof.
  unfold parse_sps. destruct (Z.ltb_spec (len nal) 4); [done|]. destruct (nal_type_some nal) as [t ->]; [lia|].
  cbn [mbind option_bind]. destruct (negb _); [done|]. apply run_parser_total; [|apply _].
  pose proof (unescape_length (drop 2 nal) 512 ltac:(lia)). lia.
Qed.
Lemma parse_sps_ok nal sps : parse_sps nal = Some (Some sps) -> SpsOk sps.
Proof.
  unfold parse_sps. destruct (len nal <? 4); [done|]. destruct (nal_type nal) as [t|]; [|done].
  cbn [mbind option_bind]. destruct (negb _); [done|]. apply run_parser_post, post_sps_body.
Qed.
Lemma parse_pps_ok nal pps : parse_pps nal = Some (Some pps) -> PpsOk pps.
Proof.
  unfold parse_pps. destruct (len nal <? 3); [done|]. destruct (nal_type nal) as [t|]; [|done].
  cbn [mbind option_bind]. destruct (negb _); [done|]. apply run_parser_post, post_pps_body.
Qed.

(** ** Slice header *)
Section Slice.
Context (sps : SpsInfo) (Hsps : SpsOk sps).

#[local] Instance local_slice_st_rps : Local (slice_st_rps sps).
Proof. unfold slice_st_rps. apply _. Qed.
#[local] Instance local_slice_lt_entry n i s : Local (slice_lt_entry sps n i s).
Proof. unfold slice_lt_entry. apply _. Qed.
#[local] Instance local_slice_lt : Local (slice_lt sps).
Proof. unfold slice_lt. apply _. Qed.

(** The index of a table of [n] entries, when it is coded at all. *)
Lemma total_index n : 0 <= n < 256 ->
  Total (if n >? 1 then lift (bits_for n) ≫= r_u else mret 0) /\
  post (if n >? 1 then lift (bits_for n) ≫= r_u else mret 0) (fun i => 0 <= i).
Proof.
  intros Hn. destruct (n >? 1); (split; [|]); [| |apply _|by apply post_ret].
  - apply total_bind; [apply total_lift_bits; lia|intros ?; apply _].
  - eapply post_bind; [apply post_true|intros ? _; apply post_u].
Qed.

#[local] Instance total_slice_st_rps : Total (slice_st_rps sps).
Proof.
  pose proof (so_st _ Hsps). unfold slice_st_rps. apply total_bind; [apply _|intros f]. destruct (f =? 0).
  - apply total_bind; [apply total_st_rps; lia|]. intros [? ?]. apply _.
  - destruct (total_index (num_st_rps sps)) as [Ht Hp]; [lia|].
    apply (total_bind_post _ _ _ Ht Hp). intros i Hi. rewrite Z.geb_leb.
    destruct (Z.leb_spec (len (st_rps_num_used sps)) i); [apply _|]. by apply total_lift_lookup.
Qed.
#[local] Instance total_slice_lt_entry n i s : Total (slice_lt_entry sps n i s).
Proof.
  pose proof (so_lt _ Hsps). unfold slice_lt_entry. apply total_bind; [|intros ?; apply _]. destruct (i <? n); [|apply _].
  destruct (total_index (num_long_term_ref_pics_sps sps)) as [Ht Hp]; [lia|].
  apply (total_bind_post _ _ _ Ht Hp). intros j Hj. destruct (Z.ltb_spec j (len (lt_sps_used sps))); [|apply _].
  apply total_bind; [by apply total_lift_lookup|intros ?; apply _].
Qed.
#[local] Instance total_slice_lt : Total (slice_lt sps).
Proof. unfold slice_lt. apply _. Qed.
#[local] Instance total_slice_inter pps ty refs tmvp : refs <= 2147483648 -> Total (slice_inter pps ty refs tmvp).
Proof.
  intros Hr. unfold slice_inter. apply total_bind; [apply _|intros ?]. apply total_bind; [apply _|intros [l0 l1]].
  apply total_if; [apply _|]. apply total_bind; [|intros _; apply _]. apply total_if; [|apply _].
  apply total_bind; [by apply total_lift_bits|intros ?; apply _].
Qed.
#[local] Instance total_slice_refs : Total (slice_refs sps).
Proof. unfold slice_refs. apply _. Qed.
Lemma total_slice_body pps h0 h1 ty rbsp : Total (slice_body sps pps h0 h1 ty rbsp).
Proof.
  unfold slice_body. cbv zeta. apply total_bind; [apply _|intros ?]. apply total_bind; [apply _|intros ?].
  apply total_bind; [apply _|intros ?]. apply total_if; [apply _|]. apply total_bind; [apply _|intros [? ?]].
  apply total_if; [apply _|]. apply total_bind; [apply _|intros ?]. apply total_bind; [apply _|intros ?].
  apply total_if; [apply _|]. apply total_bind; [apply _|intros ?]. apply total_bind; [apply _|].
  intros [[[[[? ?] ?] ?] ?] ?]. apply total_bind; [apply _|intros ?].
  apply total_bind; [|intros [? ?]; apply _]. apply total_if; [|apply _].
  apply total_slice_inter. match goal with |- to_u16 ?x <= _ => pose proof (to_u16_u16 x) end. ints.
Qed.

Lemma parse_slice_header_total nal pps : is_Some (parse_slice_header nal sps pps).
Proof.
  unfold parse_slice_header. destruct (Z.ltb_spec (len nal) 3); [done|].
  destruct (nal_type_some nal) as [t ->]; [lia|]. destruct nal as [|h0 [|h1 nal]]; [done|done|].
  cbn [rd8 lookup list_lookup mbind option_bind]. destruct (negb _); [done|].
  apply run_parser_total; [|apply total_slice_body].
  pose proof (unescape_length (drop 2 (h0 :: h1 :: nal)) 256 ltac:(lia)). lia.
Qed.
End Slice.

#[local] Existing Instances total_slice_st_rps total_slice_lt total_slice_refs local_slice_st_rps local_slice_lt.

(** The block a synthesized header copies: the counts it yields. *)
Definition refs_of (sps : SpsInfo) : P (Z * Z) :=
  used ← slice_st_rps sps; lt ← slice_lt sps; mret (used, lt).
#[local] Instance local_refs_of sps : Local (refs_of sps).
Proof. unfold refs_of. apply _. Qed.

Definition bit_span (rbsp : list Z) (b e : Z) : list Z := take (Z.to_nat (e - b)) (drop (Z.to_nat b) (bits_of rbsp)).

(** ** Inversion of a successful parse *)
Tactic Notation "inv_bind" hyp(E) "as" ident(r) ident(E1) :=
  apply bind_inv in E as (? & r & E1 & E).
(** Carry the well-formedness of the reader and its buffer over a step. *)
Ltac reader_forward Hw E1 :=
  let H := fresh "Hstep" in
  pose proof (total_step _ _ _ _ _ Hw E1) as H.

Lemma local_span {A} (m : P A) r a r' :
  Local m -> rwf r -> m r = Some (Some (a, r')) -> r'.(br_fail) = false ->
  0 <= r.(br_pos) <= r'.(br_pos) /\ r'.(br_pos) <= 8 * len r.(br_d) /\
  Reads m (bit_span r.(br_d) r.(br_pos) r'.(br_pos)) a.
Proof.
  intros Hm Hr E Hf. destruct (local (m := m) r a r' Hr E Hf) as (c & (_ & _ & Hc) & (Hw' & _ & _) & Hd & HR).
  pose proof (rest_length r Hr) as Hl. pose proof (rest_length r' Hw') as Hl'. rewrite Hc, length_app in Hl.
  destruct Hr as (Hb & _ & Hp), Hw' as (Hb' & _ & Hp'). rewrite Hd in Hb'.
  assert (Hlen : len c = br_pos r' - br_pos r) by lia. split_and!; try lia.
  unfold bit_span. rewrite <- Hlen, Nat2Z.id. unfold rest in Hc at 1. rewrite Hc, take_app_length. exact HR.
Qed.

Lemma slice_refs_inv sps r poc b e used lt tm r' :
  SpsOk sps -> rwf r -> slice_refs sps r = Some (Some ((poc, b, e, used, lt, tm), r')) -> r'.(br_fail) = false ->
  0 <= poc < 2 ^ sps.(log2_max_poc_lsb) /\ 0 <= b <= e /\ e <= 8 * len r.(br_d) /\
  Reads (refs_of sps) (bit_span r.(br_d) b e) (used, lt) /\ (tm = true -> sps.(temporal_mvp_enabled) = true).
Proof.
  intros Hs Hr E Hf. pose proof (so_poc _ Hs). unfold slice_refs in E.
  inv_bind E as r1 E1. pose proof (total_step _ _ _ _ _ Hr E1) as (Hw1 & Hd1 & _).
  apply post_u_bound in E1; [|lia]. inv_bind E as r1' E2. injection E2 as <- <-.
  inv_bind E as r2 E2. inv_bind E as r3 E3. inv_bind E as r3' E4. injection E4 as <- <-.
  assert (E23 : refs_of sps r1 = Some (Some ((x0, x1), r3))) by (unfold refs_of; rewrite bind_eq, E2, bind_eq, E3; done).
  pose proof (local_step _ _ _ Hw1 E23) as (Hw3 & Hd3 & _).
  inv_bind E as r4 E4. injection E as <- <- <- <- <- <- <-. pose proof (total_step _ _ _ _ _ Hw3 E4) as (_ & _ & Hf3).
  assert (br_fail r3 = false) by (destruct (br_fail r3); [by rewrite Hf3 in Hf|done]).
  destruct (local_span _ r1 _ r3 (local_refs_of sps) Hw1 E23) as (Hp & Hpe & HR); [done|]. rewrite Hd1 in *.
  split_and!; try done; try lia. destruct (temporal_mvp_enabled sps); [done|]. by injection E4 as -> _.
Qed.

(** ** What a parsed P slice guarantees *)
Record DonorOk (sps : SpsInfo) (pps : PpsInfo) (d : SliceInfo) : Prop := {
  do_pps : d.(slice_pps_id) = pps.(pps_id);
  do_rbsp : len d.(header_rbsp) <= 256;
  do_poc : 0 <= d.(poc_lsb) < 2 ^ sps.(log2_max_poc_lsb);
  do_span : 0 <= d.(strps_bit_begin) <= d.(strps_bit_end) /\ d.(strps_bit_end) <= 8 * len d.(header_rbsp);
  do_refs : exists used lt, d.(num_used_refs) = to_u16 (used + lt) /\
            Reads (refs_of sps) (bit_span d.(header_rbsp) d.(strps_bit_begin) d.(strps_bit_end)) (used, lt);
  do_tmvp : d.(temporal_mvp) = true -> sps.(temporal_mvp_enabled) = true;
  do_l0 : 0 <= d.(num_ref_l0) <= 16;
  do_l1 : pps.(num_ref_idx_l1_default) <= 16;
  do_coll : 0 <= d.(collocated_ref_idx) < 65536;
  do_weighted : pps.(weighted_pred) = false
}.

Lemma slice_inter_inv pps refs tm r l0 coll r' :
  PpsOk pps -> slice_inter pps 1 refs tm r = Some (Some ((l0, coll), r')) ->
  0 <= l0 <= 16 /\ pps.(num_ref_idx_l1_default) <= 16 /\ 0 <= coll < 65536 /\ pps.(weighted_pred) = false.
Proof.
  intros Hp E. pose proof (po_l0 _ Hp). unfold slice_inter in E. cbn [Z.eqb Pos.eqb] in E.
  inv_bind E as r1 E1. inv_bind E as r2 E2.
  assert (Hl : exists a, x0 = (a, num_ref_idx_l1_default pps) /\ 0 <= a < 65536).
  { destruct (negb (x =? 0)); [|injection E2 as <- _; eauto]. inv_bind E2 as r2' E3. inv_bind E2 as r2'' E4.
    injection E4 as <- _. injection E2 as <- _. eexists. split; [done|]. apply to_u16_u16. }
  destruct Hl as (a & -> & Ha). destruct ((a >? 16) || _) eqn:Eg; [done|]. bool_hyps.
  inv_bind E as r3 E3. inv_bind E as r4 E4. inv_bind E as r5 E5. inv_bind E as r6 E6.
  destruct (_ || _) eqn:Ew; [done|]. inv_bind E as r7 E7. injection E as <- <- _.
  apply orb_false_iff in Ew as [Ew _]. rewrite andb_true_r in Ew. split_and!; try lia; try done.
  - destruct tm; [|injection E6 as <- _; lia]. inv_bind E6 as r6' E8. destruct (_ || _); [|injection E6 as <- _; lia].
    inv_bind E6 as r6'' E9. injection E6 as <- _. apply to_u16_u16.
  - destruct tm; [|injection E6 as <- _; lia]. inv_bind E6 as r6' E8. destruct (_ || _); [|injection E6 as <- _; lia].
    inv_bind E6 as r6'' E9. injection E6 as <- _. apply to_u16_u16.
Qed.

Lemma slice_body_inv sps pps h0 h1 ty rbsp d r r' :
  SpsOk sps -> PpsOk pps -> rwf r -> r.(br_d) = rbsp -> len rbsp <= 256 ->
  slice_body sps pps h0 h1 ty rbsp r = Some (Some (d, r')) -> nal_is_idr ty = false -> d.(slice_type) = 1 ->
  DonorOk sps pps d.
Proof.
  intros Hs Hp Hr Hrb Hlen E Hidr Hst. unfold slice_body in E. cbv zeta in E. rewrite Hidr in E. cbn [negb] in E.
  inv_bind E as r1 E1. pose proof (total_step _ _ _ _ _ Hr E1) as (Hw1 & Hd1 & _).
  inv_bind E as r2 E2. pose proof (total_step _ _ _ _ _ Hw1 E2) as (Hw2 & Hd2 & _).
  inv_bind E as r3 E3. pose proof (total_step _ _ _ _ _ Hw2 E3) as (Hw3 & Hd3 & _).
  destruct (negb (x1 =? pps_id pps)) eqn:Eid; [done|]. bool_hyps. subst x1.
  inv_bind E as r4 E4. pose proof (total_step _ _ _ _ _ Hw3 E4) as (Hw4 & Hd4 & _).
  destruct x1 as [dep addr]. destruct dep; [done|].
  inv_bind E as r5 E5. pose proof (total_step _ _ _ _ _ Hw4 E5) as (Hw5 & Hd5 & _).
  inv_bind E as r6 E6. pose proof (total_step _ _ _ _ _ Hw5 E6) as (Hw6 & Hd6 & _).
  destruct (to_u8 x2 >? 2); [done|].
  inv_bind E as r7 E7. pose proof (total_step _ _ _ _ _ Hw6 E7) as (Hw7 & Hd7 & _).
  inv_bind E as r8 E8. pose proof (total_step _ _ _ _ (total_slice_refs sps Hs) Hw7 E8) as (Hw8 & Hd8 & _).
  destruct x4 as [[[[[poc b] e] used] lt] tm].
  inv_bind E as r9 E9. pose proof (total_step _ _ _ _ _ Hw8 E9) as (Hw9 & Hd9 & Hf9).
  inv_bind E as r10 E10. destruct x5 as [l0 coll].
  inv_bind E as r11 E11. inv_bind E as r12 E12. injection E12 as <- <-.
  destruct (br_fail r11) eqn:Hf11; [done|]. injection E as <- <-. cbn in Hst.
  rewrite Hst in E10. cbn [Z.eqb Pos.eqb orb] in E10.
  assert (Hu : to_u16 (used + lt) <= 2147483648) by (pose proof (to_u16_u16 (used + lt)); ints).
  pose proof (total_step _ _ _ _ (total_slice_inter pps 1 _ tm Hu) Hw9 E10) as (Hw10 & Hd10 & Hf10).
  pose proof (total_step _ _ _ _ _ Hw10 E11) as (_ & _ & Hf11').
  assert (Hf8 : br_fail r8 = false).
  { destruct (br_fail r8); [|done]. rewrite Hf11' in Hf11; [done|]. auto. }
  destruct (slice_refs_inv _ _ _ _ _ _ _ _ _ Hs Hw7 E8 Hf8) as (Hpoc & Hspan & Hend & HR & Htm).
  assert (Hd : br_d r7 = rbsp) by congruence. rewrite Hd in *.
  destruct (slice_inter_inv _ _ _ _ _ _ _ Hp E10) as (Hl0 & Hl1 & Hc & Hwp). pose proof (po_id _ Hp).
  split; cbn; try done; try lia; [rewrite to_u8_id; ints|eauto].
Qed.

Lemma parse_slice_header_donor nal sps pps d :
  SpsOk sps -> PpsOk pps -> parse_slice_header nal sps pps = Some (Some d) -> d.(slice_type) = 1 -> d.(has_poc) = true ->
  DonorOk sps pps d.
Proof.
  intros Hs Hp E Hst Hpoc. unfold parse_slice_header in E. destruct (len nal <? 3); [done|].
  destruct (rd8 nal 0) as [h0|]; [|done]. destruct (rd8 nal 1) as [h1|]; [|done].
  destruct (nal_type nal) as [ty|]; [|done]. cbn [mbind option_bind] in E. destruct (negb _); [done|].
  set (rbsp := unescape (drop 2 nal) 256) in *. unfold run_parser in E.
  destruct (slice_body sps pps h0 h1 ty rbsp _) as [[[x r']|]|] eqn:Eb; [|done|done]. injection E as ->.
  assert (Hl : len rbsp <= 256) by (apply unescape_length; lia).
  eapply slice_body_inv; [done|done| | |exact Hl|exact Eb| |done]; [apply reader_init_wf; lia|done|].
  destruct (nal_is_idr ty) eqn:Eidr; [|done]. exfalso. revert Hpoc.
  assert (HT : post (slice_body sps pps h0 h1 ty rbsp) (fun d => d.(has_poc) = negb (nal_is_idr ty))).
  { unfold slice_body. cbv zeta. repeat post_step. by apply post_ret. }
  rewrite (HT _ _ _ Eb), Eidr. done.
Qed.

(** The first [cap] bytes, escaped and unescaped from the same run of zeros. *)
Lemma unescape_escape_loop rbsp cap zeros :
  0 <= cap -> unescape_loop (escape_loop rbsp zeros) cap zeros = take (Z.to_nat cap) rbsp.
Proof.
  revert cap zeros. induction rbsp as [|c rbsp IH]; intros cap zeros Hcap; [by rewrite take_nil|].
  cbn [escape_loop]. rewrite Z.geb_leb.
  destruct (Z.leb_spec 2 zeros) as [Hz|Hz], (Z.leb_spec c 3) as [Hc|Hc]; cbn [andb app unescape_loop];
    rewrite ?Z.geb_leb; (destruct (Z.leb_spec cap 0); [by replace cap with 0 by lia|]).
  2: destruct (Z.leb_spec 2 zeros), (Z.eqb_spec c 3); try lia.
  3, 4: destruct (Z.leb_spec 2 zeros); [lia|].
  1: destruct (Z.leb_spec 2 zeros); [|lia]; cbn [andb Z.eqb Pos.eqb Z.leb Z.compare].
  1: destruct (Z.leb_spec cap 0); [lia|]; cbn [andb].
  all: cbn [andb]; rewrite IH by lia; replace (Z.to_nat cap) with (S (Z.to_nat (cap - 1))) by lia; done.
Qed.

(** No [00 00 0x] with [x <= 2] after a run of [zeros] zero bytes. *)
Fixpoint no_start_code (zeros : Z) (l : list Z) : bool :=
  match l with
  | [] => true
  | c :: l => negb ((zeros >=? 2) && (c <=? 2)) && no_start_code (if c =? 0 then zeros + 1 else 0) l
  end.

Lemma escape_loop_no_start_code rbsp zeros : no_start_code zeros (escape_loop rbsp zeros) = true.
Proof.
  revert zeros. induction rbsp as [|c rbsp IH]; intros zeros; [done|]. cbn [escape_loop]. rewrite Z.geb_leb.
  destruct (Z.leb_spec 2 zeros) as [Hz|Hz], (Z.leb_spec c 3) as [Hc|Hc]; cbn [andb app no_start_code];
    rewrite ?Z.geb_leb, IH, ?andb_true_r.
  - cbn [Z.eqb Z.leb Z.compare Pos.compare Pos.compare_cont andb negb]. by rewrite andb_false_r.
  - destruct (Z.leb_spec c 2); [lia|]. by rewrite andb_false_r.
  - destruct (Z.leb_spec 2 zeros); [lia|done].
  - destruct (Z.leb_spec 2 zeros); [lia|done].
Qed.

(** The run of zeros at the end of a byte string. *)
Fixpoint run_zeros (l : list Z) (zeros : Z) : Z :=
  match l with
  | [] => zeros
  | c :: l => run_zeros l (if c =? 0 then (if (zeros >=? 2) && (c <=? 3) then 0 else zeros) + 1 else 0)
  end.
Lemma escape_loop_app a b zeros :
  escape_loop (a ++ b) zeros = escape_loop a zeros ++ escape_loop b (run_zeros a zeros).
Proof.
  revert zeros. induction a as [|c a IH]; intros zeros; [done|]. cbn [app escape_loop run_zeros].
  by rewrite IH, <- app_assoc.
Qed.
Lemma run_zeros_app a b zeros : run_zeros (a ++ b) zeros = run_zeros b (run_zeros a zeros).
Proof. revert zeros. induction a as [|c a IH]; intros zeros; [done|]. cbn [app run_zeros]. apply IH. Qed.
Lemma run_zeros_end a c zeros : c <> 0 -> run_zeros (a ++ [c]) zeros = 0.
Proof. intros Hc. rewrite run_zeros_app. cbn. by destruct (Z.eqb_spec c 0). Qed.

Lemma escape_loop_length l zeros : len (escape_loop l zeros) = len l + esc_count l zeros.
Proof.
  revert zeros. induction l as [|c l IH]; intros zeros; [done|]. cbn [escape_loop esc_count length].
  rewrite length_app. cbn [length]. rewrite Nat2Z.inj_add, !Nat2Z.inj_succ, IH.
  destruct ((zeros >=? 2) && (c <=? 3)); cbn [length]; lia.
Qed.
Lemma esc_count_bound l zeros : 0 <= esc_count l zeros <= len l.
Proof.
  revert zeros. induction l as [|c l IH]; intros zeros; [done|]. cbn [esc_count length].
  destruct ((zeros >=? 2) && (c <=? 3)); (match goal with |- context [esc_count l ?z] => specialize (IH z) end); lia.
Qed.

(** A synthesized NAL carries its RBSP, and a scanner finds no start code in
    it: [h0], [h1] are the NAL header, whose second byte (the temporal id
    plus one) is never zero in a valid stream. *)
Lemma escape_append_inverse rbsp h0 h1 cap :
  h1 <> 0 -> 0 <= cap ->
  unescape (drop 6 (escape_append rbsp h0 h1)) cap = take (Z.to_nat cap) rbsp /\
  no_start_code 0 (drop 4 (escape_append rbsp h0 h1)) = true.
Proof.
  intros Hh Hcap. unfold escape_append, escape_zeros, unescape. destruct (Z.eqb_spec h1 0) as [|_]; [done|].
  cbn [app drop]. split; [by apply unescape_escape_loop|].
  assert (E : no_start_code 0 (h0 :: h1 :: escape_loop rbsp 0) = no_start_code 0 (escape_loop rbsp 0)).
  { cbn [no_start_code]. rewrite !Z.geb_leb. cbn [Z.leb Z.compare andb negb]. destruct (Z.eqb_spec h1 0) as [|_]; [done|].
    destruct (h0 =? 0); cbn [Z.add Z.leb Z.compare Pos.compare Pos.compare_cont andb negb]; done. }
  rewrite E. apply escape_loop_no_start_code.
Qed.

(** ** Writer calls in sequence *)
Definition w_acc (acc : list Z) (l : option (list Z)) : option (list Z) := b ← l; Some (acc ++ b).
Lemma w_all_acc ls acc : foldM w_acc ls acc = b ← foldM w_acc ls []; Some (acc ++ b).
Proof.
  revert acc. induction ls as [|l ls IH]; intros acc; cbn [foldM]; [cbn; by rewrite app_nil_r|].
  destruct l as [b|]; [|done]. change (w_acc acc (Some b)) with (Some (acc ++ b)).
  change (w_acc [] (Some b)) with (Some b). cbn [mbind option_bind]. rewrite (IH (acc ++ b)), (IH b).
  destruct (foldM w_acc ls []) as [c|]; [|done]. cbn [mbind option_bind]. by rewrite app_assoc.
Qed.
Lemma w_all_cons l ls w :
  w_all (l :: ls) = Some w -> exists a b, l = Some a /\ w_all ls = Some b /\ w = a ++ b.
Proof.
  unfold w_all. fold w_acc. cbn [foldM]. destruct l as [a|]; [|done].
  change (w_acc [] (Some a)) with (Some a). cbn [mbind option_bind].
  rewrite w_all_acc. destruct (foldM w_acc ls []) as [b|]; [|done]. intros [= <-]. by exists a, b.
Qed.
Lemma w_all_nil w : w_all [] = Some w -> w = [].
Proof. by intros [= <-]. Qed.

(** Split [w_all [l1; ..; ln] = Some w] into its words. *)
Ltac w_split H :=
  let a := fresh "w" in let b := fresh "w" in let E := fresh "E" in
  apply w_all_cons in H as (a & b & E & H & ->);
  lazymatch type of H with
  | w_all [] = _ => apply w_all_nil in H as ->
  | _ => w_split H
  end.

Lemma w_u_length v n w : 0 <= n -> w_u v n = Some w -> len w = n.
Proof. intros Hn E. apply w_u_nbits in E as ->. rewrite nbits_length. lia. Qed.
Lemma w_ue_length v w : 0 <= v < 4294967295 -> w_ue v = Some w -> len w <= 63.
Proof.
  intros Hv E. rewrite w_ue_bits in E by done. injection E as <-.
  assert (Z.log2 (v + 1) < 32) by (apply Z.log2_lt_pow2; lia). pose proof (Z.log2_nonneg (v + 1)).
  rewrite !length_app, length_replicate, nbits_length. cbn [length]. lia.
Qed.
Lemma w_se_length v w : w_se v = Some w -> len w <= 63.
Proof.
  unfold w_se. rewrite Z.gtb_ltb. destruct (Z.ltb_spec 0 v).
  - destruct (i32_of (2 * v)) as [d|] eqn:E1; [|done]. apply i32_of_some in E1 as [-> H1]. cbn [mbind option_bind].
    destruct (i32_of (2 * v - 1)) as [e|] eqn:E2; [|done]. apply i32_of_some in E2 as [-> H2]. cbn [mbind option_bind].
    apply w_ue_length. rewrite to_u32_id by ints. lia.
  - destruct (i32_of (-2 * v)) as [d|] eqn:E1; [|done]. apply i32_of_some in E1 as [-> H1]. cbn [mbind option_bind].
    apply w_ue_length. rewrite to_u32_id by ints. lia.
Qed.
Lemma w_when_length b l w n : 0 <= n -> w_when b l = Some w -> (forall w', l = Some w' -> len w' <= n) -> len w <= n.
Proof. intros Hn E H. destruct b; [by apply H|]. by injection E as <-. Qed.
Lemma w_bits_replicate n l w b : w_all (replicate n l) = Some w -> l = Some [b] -> w = replicate n b.
Proof.
  intros E ->. revert w E. induction n as [|n IH]; intros w E; [by apply w_all_nil in E|].
  cbn [replicate] in *. apply w_all_cons in E as (a & b' & [= <-] & E & ->). by rewrite (IH _ E).
Qed.

(** ** Reading with a predicate on the result *)
Definition ReadsP {A} (m : P A) (w : list Z) (Q : A -> Prop) : Prop :=
  forall r t, at_bits r (w ++ t) ->
  exists a r', m r = Some (Some (a, r')) /\ at_bits r' t /\ r'.(br_d) = r.(br_d) /\ Q a.
Lemma readsp_bind {A B} (m : P A) (k : A -> P B) w1 w2 a Q :
  Reads m w1 a -> ReadsP (k a) w2 Q -> ReadsP (m ≫= k) (w1 ++ w2) Q.
Proof.
  intros Hm Hk r t Hr. rewrite <- app_assoc in Hr. destruct (Hm _ _ Hr) as (r1 & E1 & Hr1 & Hd1).
  destruct (Hk _ _ Hr1) as (b & r2 & E2 & Hr2 & Hd2 & Hq). exists b, r2. rewrite bind_eq, E1.
  split_and!; try done; congruence.
Qed.
Lemma readsp_bind_nil {A B} (m : P A) (k : A -> P B) w a Q :
  Reads m [] a -> ReadsP (k a) w Q -> ReadsP (m ≫= k) w Q.
Proof. apply (readsp_bind m k [] w). Qed.
Lemma readsp_pos {B} (k : Z -> P B) w Q : (forall p, ReadsP (k p) w Q) -> ReadsP (r_pos ≫= k) w Q.
Proof. intros Hk r t Hr. exact (Hk _ r t Hr). Qed.
Lemma readsp_ret {A} (a : A) (Q : A -> Prop) : Q a -> ReadsP (mret a) [] Q.
Proof. intros H r t Hr. by exists a, r. Qed.
Lemma readsp_assoc {A B C} (m : P A) (k : A -> P B) (h : B -> P C) w Q :
  ReadsP (m ≫= fun a => k a ≫= h) w Q -> ReadsP ((m ≫= k) ≫= h) w Q.
Proof.
  intros H r t Hr. destruct (H r t Hr) as (a & r' & E & Hr'). exists a, r'. split; [|done].
  rewrite !bind_eq in *. by destruct (m r) as [[[x r1]|]|].
Qed.

(** The copied block, read as the two parsers it was written for. *)
Lemma readsp_refs {B C} sps c u l w (K1 : Z -> Z -> P B) (K : B -> P C) Q :
  Reads (refs_of sps) c (u, l) -> ReadsP (K1 u l ≫= K) w Q ->
  ReadsP ((st ← slice_st_rps sps; lt ← slice_lt sps; K1 st lt) ≫= K) (c ++ w) Q.
Proof.
  intros HR HK r t Hr. rewrite <- app_assoc in Hr. destruct (HR _ _ Hr) as (r1 & E1 & Hr1 & Hd1).
  destruct (HK _ _ Hr1) as (b & r2 & E2 & Hr2 & Hd2 & Hq). exists b, r2. split_and!; try done; [|congruence].
  unfold refs_of in E1. apply bind_inv in E1 as (st & r3 & E3 & E1). apply bind_inv in E1 as (lt & r4 & E4 & E1).
  injection E1 as -> -> ->. rewrite !bind_eq, E3, bind_eq, E4. done.
Qed.

(** ** Reading each kind of field *)
Lemma reads_skip {A} (m : P A) w a : Reads m w a -> Reads (skip m) w ().
Proof. intros H. unfold skip. rewrite <- (app_nil_r w). eapply reads_bind; [done|apply reads_ret]. Qed.
Lemma reads_u1 (b : Z) w : bit b -> w_u b 1 = Some w -> Reads (r_u 1) w b.
Proof. intros Hb E. apply reads_w_u_small; [lia| |done]. destruct Hb; lia. Qed.
Lemma reads_when (b : bool) (m : P ()) l w :
  w_when b l = Some w -> (forall w', l = Some w' -> Reads m w' ()) -> Reads (if b then m else mret ()) w ().
Proof. intros E H. destruct b; [by apply H|]. injection E as <-. apply reads_ret. Qed.
Lemma reads_zeros n i : Reads (r_loop n i (fun _ _ => skip (r_u 1)) ()) (replicate n 0) ().
Proof.
  revert i. induction n as [|n IH]; intros i; cbn [replicate r_loop]; [apply reads_ret|].
  eapply (reads_bind _ _ [0]); [|apply IH]. refine (reads_skip _ _ 0 (reads_u1 0 _ _ _)); [by left|done].
Qed.

(** [num_ref_idx_active_override_flag] and the count behind it. *)
Lemma reads_override (l0_default l0 l1 : Z) w :
  (if negb (l0_default =? l0) then w_all [w_u 1 1; w_ue (to_u32 (l0 - 1))] else w_u 0 1) = Some w ->
  1 <= l0 <= 16 ->
  len w <= 64 /\
  exists b wa wb, w = wa ++ wb /\ Reads (r_u 1) wa b /\
    Reads (if negb (b =? 0) then
        a ← r_ue;
        b ← (mret l1 : P Z);
        (mret (to_u16 (to_u32 (a + 1)), b) : P (Z * Z))
      else mret (l0_default, l1)) wb (l0, l1).
Proof.
  intros E Hl. destruct (Z.eqb_spec l0_default l0) as [->|Hne]; cbn [negb] in E.
  - split; [apply w_u_length in E; lia|]. exists 0, w, []. rewrite app_nil_r. split_and!; [done| |apply reads_ret].
    apply reads_u1; [by left|done].
  - apply w_all_cons in E as (wa & wb & Ea & E & ->). apply w_all_cons in E as (wc & wd & Eb & E & ->).
    apply w_all_nil in E as ->. rewrite to_u32_id in Eb by ints. rewrite app_nil_r. split.
    { apply w_u_length in Ea; [|lia]. apply w_ue_length in Eb; [|lia]. rewrite length_app. lia. }
    exists 1, wa, wc. split_and!; [done|apply reads_u1; [by right|done]|]. cbn [negb Z.eqb].
    rewrite <- (app_nil_r wc). eapply reads_bind; [apply reads_w_ue, Eb; lia|].
    eapply reads_bind_nil; [apply reads_ret|]. rewrite to_u32_id, to_u16_id, Z.sub_add by ints. apply reads_ret.
Qed.

(** The reference-list part and the QP delta. *)
Lemma reads_w_inter sps pps d w :
  DonorOk sps pps d -> w_inter pps d = Some w -> d.(num_used_refs) <= 2147483648 ->
  len w <= 255 /\
  exists wi wq, w = wi ++ wq /\ Reads r_se wq d.(qp_delta) /\
    Reads (slice_inter pps 1 d.(num_used_refs) d.(temporal_mvp)) wi
      (conceal_num_ref_l0 d, if d.(temporal_mvp) && (conceal_num_ref_l0 d >? 1) then d.(collocated_ref_idx) else 0).
Proof.
  intros Hd E Hrefs. pose proof (do_l0 _ _ _ Hd). pose proof (do_l1 _ _ _ Hd). pose proof (do_coll _ _ _ Hd).
  assert (Hl0 : 1 <= conceal_num_ref_l0 d <= 16) by (unfold conceal_num_ref_l0; destruct (temporal_mvp d); lia).
  unfold w_inter in E. set (l0 := conceal_num_ref_l0 d) in *.
  apply w_all_cons in E as (w1 & ? & E1 & E & ->). apply w_all_cons in E as (w2 & ? & E2 & E & ->).
  apply w_all_cons in E as (w3 & ? & E3 & E & ->). apply w_all_cons in E as (w4 & ? & E4 & E & ->).
  apply w_all_cons in E as (w5 & ? & E5 & E & ->). apply w_all_cons in E as (w6 & ? & E6 & E & ->).
  apply w_all_nil in E as ->. rewrite app_nil_r.
  destruct (reads_override _ _ (num_ref_idx_l1_default pps) _ E1 Hl0) as (Hlen1 & b & wa & wb & -> & Hb & Hlists).
  split.
  { apply (w_when_length _ _ _ 1) in E2; [|lia|intros ? E7%w_u_length; lia].
    apply (w_when_length _ _ _ 1) in E3; [|lia|intros ? E7%w_u_length; lia].
    apply (w_when_length _ _ _ 63) in E4; [|lia|intros ? E7; eapply w_ue_length, E7; lia].
    apply w_ue_length in E5; [|lia]. apply w_se_length in E6. rewrite !length_app in *. lia. }
  exists (wa ++ wb ++ w2 ++ w3 ++ w4 ++ w5), w6. split; [by rewrite <- !app_assoc|]. split; [by apply reads_w_se|].
  unfold slice_inter. cbn [Z.eqb Pos.eqb].
  eapply reads_bind; [exact Hb|]. eapply reads_bind; [exact Hlists|]. cbn beta iota.
  replace ((l0 >? 16) || _) with false by (symmetry; apply orb_false_iff; split; rewrite Z.gtb_ltb; apply Z.ltb_ge; lia).
  eapply reads_bind.
  { destruct (lists_modification_present pps && (num_used_refs d >? 1)); [|injection E2 as <-; apply reads_ret].
    destruct (bits_for_some (num_used_refs d)) as (n & En & _); [done|]. cbn [w_when] in E2.
    eapply reads_bind_nil; [by apply reads_lift|]. rewrite <- (app_nil_r w2).
    eapply reads_bind; [apply (reads_u1 0), E2; by left|]. cbn [Z.eqb negb].
    eapply reads_bind_nil; [apply reads_ret|]. eapply reads_bind_nil; [apply reads_ret|]. apply reads_ret. }
  eapply reads_bind_nil; [apply reads_ret|].
  eapply reads_bind; [eapply reads_when; [exact E3|]; intros ? E7; eapply reads_skip, (reads_u1 0), E7; by left|].
  eapply (reads_bind _ _ w4 w5 (if temporal_mvp d && (l0 >? 1) then collocated_ref_idx d else 0)).
  { destruct (temporal_mvp d); cbn [andb] in *; [|injection E4 as <-; apply reads_ret].
    eapply reads_bind_nil; [apply reads_ret|]. cbn [andb negb orb]. rewrite orb_false_r.
    destruct (l0 >? 1); [|injection E4 as <-; apply reads_ret]. cbn [w_when] in E4. rewrite <- (app_nil_r w4).
    eapply reads_bind; [apply reads_w_ue, E4; lia|]. rewrite to_u16_id by ints. apply reads_ret. }
  rewrite (do_weighted _ _ _ Hd). cbn [andb orb]. rewrite andb_false_r.
  rewrite <- (app_nil_r w5). eapply reads_bind; [apply reads_w_ue, E5; lia|]. apply reads_ret.
Qed.

Lemma sps_ok_geometry sps : SpsOk sps ->
  1 <= sps.(pic_width_ctbs) <= 512 /\ 1 <= sps.(pic_height_ctbs) <= 512 /\
  sps.(pic_width_ctbs) = (sps.(pic_width) + 2 ^ sps.(log2_ctb) - 1) / 2 ^ sps.(log2_ctb) /\
  sps.(pic_height_ctbs) = (sps.(pic_height) + 2 ^ sps.(log2_ctb) - 1) / 2 ^ sps.(log2_ctb) /\
  sps.(pic_size_ctbs) = sps.(pic_width_ctbs) * sps.(pic_height_ctbs) /\
  0 <= sps.(addr_bits) <= 31 /\ sps.(pic_size_ctbs) <= 2 ^ sps.(addr_bits).
Proof.
  intros [Hw Hh Hc _ _ _ _ Hg].
  destruct (sps_geometry_some _ _ _ Hw Hh Hc) as (wc & hc & v & E & H). rewrite Hg in E. injection E as -> -> -> ->.
  destruct H as (H1 & H2 & H3 & H4 & H5 & H6). split_and!; done || lia.
Qed.

(** The POC field: the donor's, or the low bits of the override. *)
Lemma conceal_poc_bound sps pps d o poc :
  SpsOk sps -> DonorOk sps pps d -> conceal_poc sps d o = Some poc ->
  0 <= poc < 2 ^ sps.(log2_max_poc_lsb) /\ poc = (if o >=? 0 then to_u32 o mod 2 ^ sps.(log2_max_poc_lsb) else d.(poc_lsb)).
Proof.
  intros Hs Hd E. pose proof (so_poc _ Hs). pose proof (do_poc _ _ _ Hd). unfold conceal_poc in E.
  destruct (o >=? 0); [|by injection E as <-]. unfold shl1 in E.
  destruct (Z.leb_spec 0 (log2_max_poc_lsb sps)); [|lia]. destruct (Z.ltb_spec (log2_max_poc_lsb sps) 32); [|lia].
  cbn [andb mbind option_bind] in E. injection E as <-.
  rewrite Z.shiftl_mul_pow2, Z.mul_1_l by lia.
  replace (2 ^ log2_max_poc_lsb sps - 1) with (Z.ones (log2_max_poc_lsb sps)) by (rewrite Z.ones_equiv; lia).
  rewrite Z.land_ones by lia. split; [apply Z.mod_pos_bound, Z.pow_pos_nonneg; lia|done].
Qed.

(** What the reparse of a synthesized header reports. *)
Record ConcealView (sps : SpsInfo) (d : SliceInfo) (addr o : Z) (first : bool) (s : SliceInfo) : Prop := {
  cv_first : s.(first_slice) = first;
  cv_address : s.(address) = if first then 0 else addr;
  cv_dependent : s.(dependent) = false;
  cv_type : s.(slice_type) = 1;
  cv_has_poc : s.(has_poc) = true;
  cv_poc : s.(poc_lsb) = if o >=? 0 then to_u32 o mod 2 ^ sps.(log2_max_poc_lsb) else d.(poc_lsb);
  cv_tmvp : s.(temporal_mvp) = d.(temporal_mvp);
  cv_refs : s.(num_used_refs) = d.(num_used_refs);
  cv_l0 : s.(num_ref_l0) = conceal_num_ref_l0 d;
  cv_qp : s.(qp_delta) = d.(qp_delta)
}.

Section Body.
Context (sps : SpsInfo) (pps : PpsInfo) (d : SliceInfo) (addr o : Z) (first : bool).
Context (Hs : SpsOk sps) (Hp : PpsOk pps) (Hd : DonorOk sps pps d) (Haddr : 0 <= addr < sps.(pic_size_ctbs)).

Lemma w_address_length w : w_address sps pps d addr first = Some w -> len w <= 416.
Proof.
  intros E. pose proof (po_id _ Hp). pose proof (po_extra _ Hp). pose proof (do_pps _ _ _ Hd).
  destruct (sps_ok_geometry _ Hs) as (_ & _ & _ & _ & _ & Hv & _). unfold w_address in E.
  apply w_all_cons in E as (w1 & ? & E1 & E & ->). apply w_all_cons in E as (w2 & ? & E2 & E & ->).
  apply w_all_cons in E as (w3 & ? & E3 & E & ->). apply w_all_cons in E as (w4 & ? & E4 & E & ->).
  apply w_all_cons in E as (w5 & ? & E5 & E & ->). apply w_all_cons in E as (w6 & ? & E6 & E & ->).
  apply w_all_nil in E as ->.
  apply w_u_length in E1; [|lia]. apply w_ue_length in E2; [|lia]. apply w_ue_length in E5; [|lia].
  apply (w_when_length _ _ _ 1) in E6; [|lia|intros ? E7%w_u_length; lia].
  apply (w_bits_replicate _ _ _ 0) in E4; [|done]. subst w4.
  apply (w_when_length _ _ _ 32) in E3; [|lia|].
  - rewrite !length_app, length_replicate. cbn [length]. lia.
  - intros w' E. apply w_all_cons in E as (w7 & ? & E7 & E & ->). apply w_all_cons in E as (w8 & ? & E8 & E & ->).
    apply w_all_nil in E as ->. apply (w_when_length _ _ _ 1) in E7; [|lia|intros ? E9%w_u_length; lia].
    apply w_u_length in E8; [|lia]. rewrite !length_app. cbn [length]. lia.
Qed.

Lemma w_picture_length w : w_picture sps d o = Some w -> len w <= 19 + (d.(strps_bit_end) - d.(strps_bit_begin)).
Proof.
  intros E. pose proof (so_poc _ Hs). pose proof (do_span _ _ _ Hd). pose proof (do_rbsp _ _ _ Hd). unfold w_picture in E.
  destruct (conceal_poc sps d o) as [poc|]; [|done]. cbn [mbind option_bind] in E.
  apply w_all_cons in E as (w1 & ? & E1 & E & ->). apply w_all_cons in E as (w2 & ? & E2 & E & ->).
  apply w_all_cons in E as (w3 & ? & E3 & E & ->). apply w_all_cons in E as (w4 & ? & E4 & E & ->).
  apply w_all_nil in E as ->. apply w_u_length in E1; [|lia].
  apply w_copy_bits_span in E2; [|lia..]. apply (w_when_length _ _ _ 1) in E3; [|lia|intros ? E7%w_u_length; lia].
  apply (w_when_length _ _ _ 2) in E4; [|lia|].
  - assert (len w2 <= strps_bit_end d - strps_bit_begin d) by (rewrite E2, length_take; lia).
    rewrite !length_app. cbn [length]. lia.
  - intros w' E. apply w_all_cons in E as (w5 & ? & E5 & E & ->). apply w_all_cons in E as (w6 & ? & E6 & E & ->).
    apply w_all_nil in E as ->. apply w_u_length in E5, E6; [|lia..]. rewrite !length_app. cbn [length]. lia.
Qed.

Lemma slice_body_reads h0 h1 ty rbsp wa wp wi :
  nal_is_irap ty = false ->
  w_address sps pps d addr first = Some wa -> w_picture sps d o = Some wp -> w_inter pps d = Some wi ->
  ReadsP (slice_body sps pps h0 h1 ty rbsp) (wa ++ wp ++ wi) (ConcealView sps d addr o first).
Proof.
  intros Hirap Ea Ep Ei. assert (Hidr : nal_is_idr ty = false).
  { unfold nal_is_irap, nal_is_idr in *. rewrite Z.geb_leb in Hirap. apply andb_false_iff in Hirap.
    apply orb_false_iff. rewrite !Z.eqb_neq. destruct Hirap as [?%Z.leb_gt|?%Z.leb_gt]; lia. }
  pose proof (so_poc _ Hs). pose proof (do_span _ _ _ Hd). pose proof (do_rbsp _ _ _ Hd). pose proof (po_id _ Hp).
  destruct (sps_ok_geometry _ Hs) as (_ & _ & _ & _ & _ & Hv & Hle).
  unfold slice_body. cbv zeta. rewrite Hirap, Hidr. cbn [negb].
  unfold w_address in Ea.
  apply w_all_cons in Ea as (w1 & ? & E1 & Ea & ->). apply w_all_cons in Ea as (w2 & ? & E2 & Ea & ->).
  apply w_all_cons in Ea as (w3 & ? & E3 & Ea & ->). apply w_all_cons in Ea as (w4 & ? & E4 & Ea & ->).
  apply w_all_cons in Ea as (w5 & ? & E5 & Ea & ->). apply w_all_cons in Ea as (w6 & ? & E6 & Ea & ->).
  apply w_all_nil in Ea as ->. rewrite (do_pps _ _ _ Hd) in E2. rewrite app_nil_r, <- !app_assoc.
  eapply readsp_bind; [by apply reads_flag|]. eapply readsp_bind_nil; [apply reads_ret|].
  eapply readsp_bind; [apply reads_w_ue, E2; lia|]. rewrite Z.eqb_refl. cbn [negb].
  eapply (readsp_bind _ _ w3 _ (false, if first then 0 else addr)).
  { destruct first; cbn [negb w_when] in *; [injection E3 as <-; apply reads_ret|].
    apply w_all_cons in E3 as (w7 & ? & E7 & E3 & ->). apply w_all_cons in E3 as (w8 & ? & E8 & E3 & ->).
    apply w_all_nil in E3 as ->. eapply (reads_bind _ _ w7 _ false).
    - destruct (dependent_slice_segments_enabled pps); [by apply (reads_flag false)|injection E7 as <-; apply reads_ret].
    - eapply reads_bind; [apply reads_w_u_small, E8; lia|apply reads_ret]. }
  eapply readsp_bind.
  { apply (w_bits_replicate _ _ _ 0) in E4; [|done]. subst w4. apply reads_zeros. }
  eapply readsp_bind; [apply reads_w_ue, E5; lia|]. change (to_u8 1) with 1. cbn [Z.gtb Z.compare Pos.compare Pos.compare_cont].
  eapply readsp_bind; [eapply reads_when; [exact E6|]; intros ? E7; eapply reads_skip, (reads_u1 1), E7; by right|].
  (* the picture fields *)
  unfold w_picture in Ep. destruct (conceal_poc sps d o) as [poc|] eqn:Epoc; [|done]. cbn [mbind option_bind] in Ep.
  destruct (conceal_poc_bound _ _ _ _ _ Hs Hd Epoc) as [Hpoc Hpoc'].
  apply w_all_cons in Ep as (w7 & ? & E7 & Ep & ->). apply w_all_cons in Ep as (w8 & ? & E8 & Ep & ->).
  apply w_all_cons in Ep as (w9 & ? & E9 & Ep & ->). apply w_all_cons in Ep as (w10 & ? & E10 & Ep & ->).
  apply w_all_nil in Ep as ->. rewrite app_nil_r, <- !app_assoc.
  destruct (do_refs _ _ _ Hd) as (used & lt & Hrefs & HR). fold (bit_span (header_rbsp d) (strps_bit_begin d) (strps_bit_end d)) in *.
  apply w_copy_bits_span in E8; [|lia..]. subst w8.
  unfold slice_refs. apply readsp_assoc.
  eapply readsp_bind; [apply reads_w_u_small, E7; [lia|done]|]. apply readsp_assoc, readsp_pos. intros b.
  eapply readsp_refs; [exact HR|]. apply readsp_assoc, readsp_pos. intros e. apply readsp_assoc.
  eapply (readsp_bind _ _ w9 _ (temporal_mvp d)).
  { pose proof (do_tmvp _ _ _ Hd). destruct (temporal_mvp_enabled sps); [by apply reads_flag|].
    injection E9 as <-. destruct (temporal_mvp d); [naive_solver|apply reads_ret]. }
  eapply readsp_bind_nil; [apply reads_ret|]. cbn beta iota.
  eapply readsp_bind.
  { eapply reads_when; [exact E10|]. intros w E. apply w_all_cons in E as (w11 & ? & E11 & E & ->).
    apply w_all_cons in E as (w12 & ? & E12 & E & ->). apply w_all_nil in E as ->. rewrite app_nil_r.
    eapply reads_bind; [apply (reads_u1 0), E11; by left|]. eapply reads_skip, (reads_u1 0), E12. by left. }
  rewrite <- Hrefs. assert (Hr16 : num_used_refs d <= 2147483648).
  { rewrite Hrefs. pose proof (to_u16_u16 (used + lt)). ints. }
  destruct (reads_w_inter _ _ _ _ Hd Ei Hr16) as (_ & wi1 & wq & -> & Hq & Hi). cbn [Z.eqb Pos.eqb orb].
  eapply readsp_bind; [exact Hi|]. cbn beta iota. rewrite <- (app_nil_r wq).
  eapply readsp_bind; [exact Hq|]. eapply readsp_bind_nil; [apply reads_failed|]. cbn beta iota.
  apply readsp_ret. by split.
Qed.
End Body.

(** ** The NAL around the header *)
Lemma bits_of_take n l : bits_of (take n l) = take (8 * n) (bits_of l).
Proof.
  revert n. induction l as [|c l IH]; intros n; [change (bits_of []) with (@nil Z); by rewrite !take_nil|]. destruct n as [|n]; [done|].
  cbn [take]. change (bits_of (?x :: ?y)) with (byte_bits x ++ bits_of y). rewrite IH.
  replace (8 * S n)%nat with (length (byte_bits c) + 8 * n)%nat by (cbn; lia). by rewrite take_app_add.
Qed.

(** The NAL header fields of a parsed slice. *)
Definition nal_fields (d : SliceInfo) : Prop :=
  d.(nal_unit_type) = Z.land (Z.shiftr d.(nal_header0) 1) 63 /\ nal_is_vcl d.(nal_unit_type) = true /\
  d.(has_poc) = negb (nal_is_idr d.(nal_unit_type)).
Lemma donor_nal_header nal sps pps d : parse_slice_header nal sps pps = Some (Some d) -> nal_fields d.
Proof.
  unfold parse_slice_header. destruct (len nal <? 3); [done|]. destruct nal as [|h0 [|h1 nal]]; [done|done|].
  cbn [rd8 lookup list_lookup nal_type mbind option_bind]. destruct (negb _) eqn:Ev; [done|]. apply negb_false_iff in Ev.
  apply run_parser_post. unfold slice_body. cbv zeta. repeat post_step. apply post_ret. by split_and!.
Qed.

(** A NAL whose RBSP starts with the three groups of words. *)
Lemma parse_slice_header_escaped sps pps d rbsp wa wp wi t addr o first :
  SpsOk sps -> PpsOk pps -> DonorOk sps pps d -> 0 <= addr < sps.(pic_size_ctbs) ->
  d.(nal_unit_type) = Z.land (Z.shiftr d.(nal_header0) 1) 63 -> nal_is_vcl d.(nal_unit_type) = true ->
  nal_is_irap d.(nal_unit_type) = false -> d.(nal_header1) <> 0 ->
  w_address sps pps d addr first = Some wa -> w_picture sps d o = Some wp -> w_inter pps d = Some wi ->
  bits_of rbsp = (wa ++ wp ++ wi) ++ t -> len (wa ++ wp ++ wi) <= 2048 ->
  exists s, parse_slice_header (drop 4 (escape_append rbsp d.(nal_header0) d.(nal_header1))) sps pps = Some (Some s) /\
    ConcealView sps d addr o first s.
Proof.
  intros Hs Hp Hd Ha Ety Hvcl Hirap Hh1 Ea Ep Ei Ebits Hlen.
  destruct (escape_append_inverse rbsp (nal_header0 d) (nal_header1 d) 256 Hh1 ltac:(lia)) as [Hun _].
  unfold parse_slice_header.
  set (nal := drop 4 (escape_append rbsp (nal_header0 d) (nal_header1 d))) in *.
  assert (En : exists c l, nal = nal_header0 d :: nal_header1 d :: c :: l).
  { unfold nal, escape_append. cbn [app drop]. destruct rbsp as [|c0 l0].
    - exfalso. destruct wa; [|done]. unfold w_address in Ea. apply w_all_cons in Ea as (a & b & Ef & _ & E0).
      apply w_u_length in Ef; [|lia]. destruct a; [cbn in Ef; lia|done].
    - cbn [escape_loop]. destruct (_ && _); cbn [app]; eauto. }
  destruct En as (c & l & En).
  assert (Hun' : unescape (drop 2 nal) 256 = take (Z.to_nat 256) rbsp) by (rewrite <- Hun; unfold nal; by rewrite drop_drop).
  rewrite Hun'. destruct (Z.ltb_spec (len nal) 3) as [Hl|_]; [rewrite En in Hl; cbn [length] in Hl; lia|].
  unfold nal_type. rewrite En. cbn [rd8 lookup list_lookup mbind option_bind]. rewrite <- Ety, Hvcl. cbn [negb].
  set (r := take (Z.to_nat 256) rbsp).
  assert (Hr : at_bits (BitReader_init r (len r)) ((wa ++ wp ++ wi) ++ take (2048 - length (wa ++ wp ++ wi)) t)).
  { replace ((wa ++ wp ++ wi) ++ take _ t) with (bits_of r).
    - apply reader_init_at. unfold r. rewrite length_take. lia.
    - unfold r. rewrite bits_of_take, Ebits, take_app. change (8 * Z.to_nat 256)%nat with 2048%nat.
      by rewrite (take_ge (wa ++ wp ++ wi)) by lia. }
  destruct (slice_body_reads sps pps d addr o first Hs Hp Hd Ha (nal_header0 d) (nal_header1 d) (nal_unit_type d) r wa wp wi
              Hirap Ea Ep Ei _ _ Hr) as (s & r' & E & _ & _ & Hv).
  exists s. unfold run_parser. by rewrite E.
Qed.
