(* ===== verification/HevcSegments.v ===== *)
(** * The payload of a synthesized slice

    The trace of syntax elements a coding quadtree codes and the memory safety
    of the depth grid; then the CTU loop of [make_conceal_slice].

    The invariant of the loop, substream by substream, and what the finished
    payload is: its bytes are the closed substreams in order, its recorded
    starts their offsets. *)
From S2P Require Import Prelude Endian HevcBits HevcParse Cabac HevcConceal HevcCodes HevcDecode HevcRoundtrip.
(** ** The trace of a coding quadtree *)
Definition leaf_ops (env : EmitEnv) (depth : list Z) (x y log2size d : Z) : option (list Op * list Z) :=
  s ← (if log2size >? env.(ee_sps).(log2_min_cb) then
      inc ← split_inc env depth x y d; Some [OpBin (SymSplit inc) 0]
    else Some []);
  depth ← mark_depth env depth x y (Z.shiftl 1 log2size) d;
  Some (s ++ [OpBin (SymSkip (skip_inc env x y)) 1], depth).

Fixpoint cu_ops (env : EmitEnv) (depth : list Z) (x y : Z) (log2size : nat) (d : Z) : option (list Op * list Z) :=
  let sps := env.(ee_sps) in
  if (x >=? sps.(pic_width)) || (y >=? sps.(pic_height)) then Some ([], depth) else
  let size := Z.shiftl 1 (Z.of_nat log2size) in
  let inside := (to_u32 (x + size) <=? sps.(pic_width)) && (to_u32 (y + size) <=? sps.(pic_height)) in
  if inside then leaf_ops env depth x y (Z.of_nat log2size) d else
  match log2size with
  | O => None
  | S half =>
    let hs := Z.shiftl 1 (Z.of_nat half) in
    '(a, depth) ← cu_ops env depth x y half (to_u8 (d + 1));
    '(b, depth) ← cu_ops env depth (to_u32 (x + hs)) y half (to_u8 (d + 1));
    '(c, depth) ← cu_ops env depth x (to_u32 (y + hs)) half (to_u8 (d + 1));
    '(e, depth) ← cu_ops env depth (to_u32 (x + hs)) (to_u32 (y + hs)) half (to_u8 (d + 1));
    Some (a ++ b ++ c ++ e, depth)
  end.

(** The state after the elements of a trace and the depths it marked. *)
Definition run_ops (st : EmitState) (ops : list Op) (depth : list Z) : option EmitState :=
  '(e, cs) ← encode_ops ops (st.(es_enc), st.(es_ctxs)); Some (MkEmitState e cs depth).

Lemma encode_ops_app a b st : encode_ops (a ++ b) st = encode_ops a st ≫= encode_ops b.
Proof.
  unfold encode_ops. revert st. induction a as [|o a IH]; intros st; [done|]. cbn [app foldM].
  destruct (encode_op st o) as [st'|]; [|done]. cbn [mbind option_bind]. apply IH.
Qed.
Lemma run_ops_app st a b d1 d2 : run_ops st (a ++ b) d2 = st' ← run_ops st a d1; run_ops st' b d2.
Proof.
  unfold run_ops. rewrite encode_ops_app. destruct (encode_ops a _) as [[e cs]|]; [|done]. cbn [mbind option_bind es_enc es_ctxs]. done.
Qed.
Lemma run_ops_nil st : run_ops st [] st.(es_depth) = Some st.
Proof. by destruct st. Qed.

Lemma encode_split_op st inc b :
  encode_split st inc b = run_ops st [OpBin (SymSplit inc) b] st.(es_depth).
Proof.
  unfold encode_split, encode_ctx, run_ops, encode_ops. cbn [foldM encode_op get_ctx].
  destruct (cs_split (es_ctxs st) !! Z.to_nat inc) as [c|]; [|done]. cbn [mbind option_bind].
  by destruct (encode_bin _ c b) as [[e c']|].
Qed.
Lemma encode_skip_op st inc b :
  encode_skip st inc b = run_ops st [OpBin (SymSkip inc) b] st.(es_depth).
Proof.
  unfold encode_skip, encode_ctx, run_ops, encode_ops. cbn [foldM encode_op get_ctx].
  destruct (cs_skip (es_ctxs st) !! Z.to_nat inc) as [c|]; [|done]. cbn [mbind option_bind].
  by destruct (encode_bin _ c b) as [[e c']|].
Qed.

(** [emit_cu] codes its trace. *)
Lemma emit_leaf_ops env st x y n d ops depth :
  leaf_ops env st.(es_depth) x y n d = Some (ops, depth) -> emit_leaf env st x y n d = run_ops st ops depth.
Proof.
  unfold leaf_ops, emit_leaf. intros E.
  destruct (if n >? log2_min_cb (ee_sps env) then _ else _) as [s|] eqn:Es; [|done]. cbn [mbind option_bind] in E.
  destruct (mark_depth _ _ _ _ _ _) as [dp|] eqn:Em; [|done]. injection E as <- <-.
  assert (Hs : (if n >? log2_min_cb (ee_sps env)
     then inc ← split_inc env (es_depth st) x y d; encode_split st inc 0 else Some st) = run_ops st s (es_depth st)).
  { destruct (n >? _); [|injection Es as <-; by rewrite run_ops_nil].
    destruct (split_inc _ _ _ _ _) as [inc|]; [|done]. injection Es as <-. apply encode_split_op. }
  rewrite Hs, (run_ops_app st s _ (es_depth st)). unfold run_ops at 1 3.
  destruct (encode_ops s _) as [[e cs]|]; [|done]. cbn [mbind option_bind]. rewrite encode_skip_op.
  unfold run_ops. cbn [es_enc es_ctxs es_depth]. destruct (encode_ops _ (e, cs)) as [[e' cs']|]; [|done].
  cbn [mbind option_bind es_depth es_enc es_ctxs]. by rewrite Em.
Qed.

Lemma run_ops_depth st ops depth st' : run_ops st ops depth = Some st' -> es_depth st' = depth.
Proof. unfold run_ops. destruct (encode_ops _ _) as [[e cs]|]; [|done]. by intros [= <-]. Qed.

Lemma emit_cu_ops env n st x y d ops depth :
  cu_ops env st.(es_depth) x y n d = Some (ops, depth) -> emit_cu env st x y n d = run_ops st ops depth.
Proof.
  revert st x y d ops depth. induction n as [|n IH]; intros st x y d ops depth; cbn [cu_ops emit_cu];
    (destruct (_ || _); [intros [= <- <-]; by rewrite run_ops_nil|]);
    (destruct (_ && _); [apply emit_leaf_ops|]); [done|].
  intros E.
  destruct (cu_ops env (es_depth st) x y n _) as [[a d1]|] eqn:Ea; [|done]. cbn [mbind option_bind] in E.
  destruct (cu_ops env d1 (to_u32 (x + _)) y n _) as [[b d2]|] eqn:Eb; [|done]. cbn [mbind option_bind] in E.
  destruct (cu_ops env d2 x (to_u32 (y + _)) n _) as [[c d3]|] eqn:Ec; [|done]. cbn [mbind option_bind] in E.
  destruct (cu_ops env d3 _ _ n _) as [[e d4]|] eqn:Ee; [|done]. injection E as <- <-.
  rewrite (run_ops_app st a (b ++ c ++ e) d1), <- (IH _ _ _ _ _ _ Ea).
  destruct (emit_cu env st x y n _) as [st1|] eqn:E1; [|done]. cbn [mbind option_bind].
  rewrite (IH _ _ _ _ _ _ Ea) in E1. apply run_ops_depth in E1. rewrite <- E1 in Eb.
  rewrite (run_ops_app st1 b (c ++ e) d2), <- (IH _ _ _ _ _ _ Eb).
  destruct (emit_cu env st1 _ y n _) as [st2|] eqn:E2; [|done]. cbn [mbind option_bind].
  rewrite (IH _ _ _ _ _ _ Eb) in E2. apply run_ops_depth in E2. rewrite <- E2 in Ec.
  rewrite (run_ops_app st2 c e d3), <- (IH _ _ _ _ _ _ Ec).
  destruct (emit_cu env st2 x _ n _) as [st3|] eqn:E3; [|done]. cbn [mbind option_bind].
  rewrite (IH _ _ _ _ _ _ Ec) in E3. apply run_ops_depth in E3. rewrite <- E3 in Ee.
  apply (IH _ _ _ _ _ _ Ee).
Qed.

(** ** The grid is large enough *)
Record EnvOk (env : EmitEnv) : Prop := {
  eo_sps : SpsOk env.(ee_sps);
  eo_min_cb : env.(ee_sps).(log2_min_cb) < 32;
  eo_w : env.(ee_w_mincb) = Z.shiftr (env.(ee_sps).(pic_width) + 2 ^ env.(ee_sps).(log2_min_cb) - 1) env.(ee_sps).(log2_min_cb)
}.
Definition grid_ok (env : EmitEnv) (depth : list Z) : Prop :=
  len depth = env.(ee_w_mincb) *
    Z.shiftr (env.(ee_sps).(pic_height) + 2 ^ env.(ee_sps).(log2_min_cb) - 1) env.(ee_sps).(log2_min_cb).

(** Every syntax element of a skipped unit says so. *)
Definition all_skip (o : Op) : Prop :=
  match o with OpBin (SymSplit _) b => b = 0 | OpBin (SymSkip _) b => b = 1 | OpContinue => True end.

Section Grid.
Context (env : EmitEnv) (Henv : EnvOk env).
Let sh := env.(ee_sps).(log2_min_cb).
Let ceil (z : Z) : Z := Z.shiftr (z + 2 ^ sh - 1) sh.

Lemma sh_bounds : 0 <= sh < 32 /\ 1 <= 2 ^ sh <= 2147483648.
Proof.
  destruct Henv as [[] Hm _]. unfold sh. split; [lia|]. split.
  - pose proof (Z.pow_pos_nonneg 2 (log2_min_cb (ee_sps env))); lia.
  - change 2147483648 with (2 ^ 31). apply Z.pow_le_mono_r; lia.
Qed.
Lemma ceil_bounds z : 1 <= z <= 8192 -> 1 <= ceil z <= 8192.
Proof.
  intros Hz. pose proof sh_bounds as [H1 H2]. unfold ceil. rewrite Z.shiftr_div_pow2 by lia. split.
  - apply Z.div_le_lower_bound; lia.
  - apply Z.lt_succ_r, Z.div_lt_upper_bound; nia.
Qed.
Lemma ceil_mono z z' : 1 <= z <= z' -> z' <= 8192 -> ceil z <= ceil z'.
Proof.
  intros Hz Hz'. pose proof sh_bounds as [H1 H2]. unfold ceil. rewrite !Z.shiftr_div_pow2 by lia.
  apply Z.div_le_mono; lia.
Qed.
Lemma floor_lt_ceil x z : 0 <= x < z -> z <= 8192 -> 0 <= Z.shiftr x sh < ceil z.
Proof.
  intros Hx Hz. pose proof sh_bounds as [H1 H2]. unfold ceil. rewrite !Z.shiftr_div_pow2 by lia.
  split; [apply Z.div_pos; lia|]. apply (Z.lt_le_trans _ (x / 2 ^ sh + 1)); [lia|].
  rewrite <- (Z.div_add x 1) by lia. apply Z.div_le_mono; lia.
Qed.

Lemma grid_index depth mx my :
  grid_ok env depth -> 0 <= mx < env.(ee_w_mincb) -> 0 <= my < ceil env.(ee_sps).(pic_height) ->
  to_u32 (to_u32 (my * env.(ee_w_mincb)) + mx) = my * env.(ee_w_mincb) + mx /\
  (Z.to_nat (my * env.(ee_w_mincb) + mx) < length depth)%nat.
Proof.
  intros Hg Hx Hy. unfold grid_ok in Hg. fold sh in Hg. fold (ceil (pic_height (ee_sps env))) in Hg.
  pose proof (ceil_bounds _ (so_width _ (eo_sps _ Henv))) as Hw. pose proof (ceil_bounds _ (so_height _ (eo_sps _ Henv))) as Hh.
  pose proof (eo_w _ Henv) as Ew. fold sh in Ew. fold (ceil (pic_width (ee_sps env))) in Ew.
  set (w := ee_w_mincb env) in *. assert (my * w + mx < w * ceil (pic_height (ee_sps env))) by nia.
  assert (w * ceil (pic_height (ee_sps env)) <= 8192 * 8192) by nia. assert (0 <= my * w) by nia.
  rewrite (to_u32_id (my * w)) by ints. rewrite to_u32_id by ints. split; [done|lia].
Qed.

Lemma nb_avail_inside x y :
  nb_avail env x y = true -> 0 <= x < env.(ee_sps).(pic_width) /\ 0 <= y < env.(ee_sps).(pic_height).
Proof.
  unfold nb_avail. destruct (_ || _ || _ || _) eqn:E; [done|]. intros _. rewrite !Z.geb_leb in E.
  repeat apply orb_false_iff in E as [E ?]. bool_hyps. lia.
Qed.
Lemma nb_depth_some depth x y :
  grid_ok env depth -> nb_avail env x y = true -> is_Some (nb_depth env depth x y).
Proof.
  intros Hg Hn. apply nb_avail_inside in Hn as [Hx Hy]. pose proof (eo_sps _ Henv) as [].
  unfold nb_depth. rewrite (to_u32_id x), (to_u32_id y) by ints. fold sh.
  destruct (grid_index depth (Z.shiftr x sh) (Z.shiftr y sh)) as [-> Hl]; [done| | |by apply lookup_lt_is_Some_2].
  - rewrite (eo_w _ Henv). apply floor_lt_ceil; lia.
  - apply floor_lt_ceil; lia.
Qed.
Lemma split_inc_some depth x y d :
  grid_ok env depth -> exists inc, split_inc env depth x y d = Some inc /\ 0 <= inc <= 2.
Proof.
  intros Hg. unfold split_inc.
  assert (HT : forall x y, exists a, (if nb_avail env x y then v ← nb_depth env depth x y; Some (if v >? d then 1 else 0)
     else Some 0) = Some a /\ 0 <= a <= 1).
  { intros x' y'. destruct (nb_avail env x' y') eqn:E; [|exists 0; split; [done|lia]].
    destruct (nb_depth_some depth x' y' Hg E) as [v ->]. cbn [mbind option_bind]. eexists. split; [done|]. destruct (v >? d); lia. }
  destruct (HT (x - 1) y) as (a & -> & Ha). cbn [mbind option_bind]. destruct (HT x (y - 1)) as (b & -> & Hb).
  cbn [mbind option_bind]. exists (a + b). split; [done|lia].
Qed.
Lemma skip_inc_bound x y : 0 <= skip_inc env x y <= 2.
Proof. unfold skip_inc. destruct (nb_avail _ _ _), (nb_avail _ _ _); lia. Qed.

Lemma wr8_some (depth : list Z) i v : (i < length depth)%nat -> wr8 depth i v = Some (<[i := v]> depth).
Proof. intros H. unfold wr8. by destruct (Nat.ltb_spec i (length depth)); [|lia]. Qed.

Lemma foldM_keeps {A} (Q : list Z -> Prop) (f : list Z -> A -> option (list Z)) l depth :
  (forall depth a, Q depth -> a ∈ l -> exists depth', f depth a = Some depth' /\ Q depth') ->
  Q depth -> exists depth', foldM f l depth = Some depth' /\ Q depth'.
Proof.
  revert depth. induction l as [|a l IH]; intros depth Hf Hq; cbn [foldM]; [eauto|].
  destruct (Hf depth a Hq) as (d1 & -> & Hq1); [by left|]. apply IH; [|done]. intros d2 b Hd2 Hb. apply Hf; [done|by right].
Qed.

Lemma mark_depth_some depth x y size d :
  grid_ok env depth -> 0 <= x -> 0 <= y -> 1 <= size -> x + size < 16384 -> y + size < 16384 ->
  x < env.(ee_sps).(pic_width) -> y < env.(ee_sps).(pic_height) ->
  exists depth', mark_depth env depth x y size d = Some depth' /\ grid_ok env depth'.
Proof.
  intros Hg Hx Hy Hs Hxs Hys Hxw Hyh. pose proof (eo_sps _ Henv) as []. pose proof sh_bounds as [H1 H2].
  unfold mark_depth. fold sh. rewrite !(to_u32_id (_ + size)) by ints.
  assert (Hspan : forall a b m z, 0 <= a < z -> z <= 8192 -> 1 <= b <= z -> m ∈ cb_span sh a b -> 0 <= m < ceil z).
  { intros a b m z Ha Hz Hb Hm. unfold cb_span in Hm. apply elem_of_seqZ in Hm.
    rewrite Z.shiftl_mul_pow2, Z.mul_1_l in Hm by lia. rewrite to_u32_id in Hm by ints. fold (ceil b) in Hm.
    pose proof (ceil_mono b z ltac:(lia) Hz). pose proof (floor_lt_ceil a z Ha Hz). lia. }
  apply foldM_keeps; [|done]. intros d1 my Hd1 Hmy. apply foldM_keeps; [|done]. intros d2 mx Hd2 Hmx.
  apply (Hspan _ _ _ (pic_height (ee_sps env))) in Hmy; [|lia..].
  apply (Hspan _ _ _ (pic_width (ee_sps env))) in Hmx; [|lia..].
  destruct (grid_index d2 mx my Hd2) as [-> Hl]; [rewrite (eo_w _ Henv); exact Hmx|done|].
  rewrite wr8_some by done. eexists. split; [done|]. unfold grid_ok in *. by rewrite length_insert.
Qed.

Lemma leaf_ops_some depth x y n d :
  0 <= n -> grid_ok env depth -> 0 <= x -> 0 <= y -> x + 2 ^ n < 16384 -> y + 2 ^ n < 16384 ->
  x < env.(ee_sps).(pic_width) -> y < env.(ee_sps).(pic_height) ->
  exists ops depth', leaf_ops env depth x y n d = Some (ops, depth') /\ grid_ok env depth' /\
    len ops <= 2 /\ Forall op_ok ops /\ Forall all_skip ops.
Proof.
  intros Hn Hg Hx Hy Hxs Hys Hxw Hyh. unfold leaf_ops. rewrite Z.shiftl_mul_pow2, Z.mul_1_l by lia.
  pose proof (Z.pow_pos_nonneg 2 n ltac:(lia) Hn).
  destruct (mark_depth_some depth x y (2 ^ n) d) as (depth' & -> & Hg'); try done; try lia.
  destruct (split_inc_some depth x y d Hg) as (inc & -> & Hinc). cbn [mbind option_bind].
  pose proof (skip_inc_bound x y).
  destruct (n >? _); cbn [mbind option_bind app]; eexists _, depth'; (split; [done|]); split_and!; try done;
    repeat (apply Forall_cons; split); try apply Forall_nil_2; cbn; try done; (split; [done|]); by (left + right).
Qed.

(** The trace exists, is all skip, and is at most two elements per sample. *)
Lemma cu_ops_some n depth x y d :
  (n <= 6)%nat -> grid_ok env depth -> 0 <= x -> 0 <= y -> x + 2 ^ Z.of_nat n < 16384 -> y + 2 ^ Z.of_nat n < 16384 ->
  exists ops depth', cu_ops env depth x y n d = Some (ops, depth') /\ grid_ok env depth' /\
    len ops <= 2 * 4 ^ Z.of_nat n /\ Forall op_ok ops /\ Forall all_skip ops.
Proof.
  revert depth x y d. induction n as [|n IH]; intros depth x y d Hn Hg Hx Hy Hxs Hys; cbn [cu_ops].
  all: pose proof (eo_sps _ Henv) as [].
  all: destruct ((x >=? _) || (y >=? _)) eqn:Eout;
    [exists [], depth; split_and!; try done; try apply Forall_nil_2; pose proof (Z.pow_nonneg 4 (Z.of_nat n)); cbn [length]; lia|].
  all: apply orb_false_iff in Eout as [Ex Ey]; rewrite Z.geb_leb in Ex, Ey; bool_hyps.
  all: rewrite !Z.shiftl_mul_pow2, !Z.mul_1_l by lia.
  all: rewrite !(to_u32_id (_ + 2 ^ Z.of_nat _)) by ints.
  - destruct (leaf_ops_some depth x y 0 d) as (ops & depth' & E & H); try done; try lia.
    replace ((x + 2 ^ Z.of_nat 0 <=? _) && _) with true by (symmetry; apply andb_true_iff; split; apply Z.leb_le; lia).
    by exists ops, depth'.
  - assert (Hp : 2 ^ Z.of_nat (S n) = 2 * 2 ^ Z.of_nat n) by (rewrite Nat2Z.inj_succ, Z.pow_succ_r; lia).
    assert (Hp4 : 4 ^ Z.of_nat (S n) = 4 * 4 ^ Z.of_nat n) by (rewrite Nat2Z.inj_succ, Z.pow_succ_r; lia).
    pose proof (Z.pow_pos_nonneg 2 (Z.of_nat n) ltac:(lia) ltac:(lia)).
    pose proof (Z.pow_pos_nonneg 4 (Z.of_nat n) ltac:(lia) ltac:(lia)).
    destruct (_ && _).
    + destruct (leaf_ops_some depth x y (Z.of_nat (S n)) d) as (ops & depth' & -> & Hg' & Hl & Ho & Hk); try done; try lia.
      exists ops, depth'. split_and!; done || lia.
    + rewrite !(to_u32_id (_ + 2 ^ Z.of_nat n)) by ints.
      assert (Hn' : (n <= 6)%nat) by lia.
      destruct (IH depth x y (to_u8 (d + 1))) as (a & d1 & -> & Hg1 & Ha & Ho1 & Hk1); try done; try lia.
      cbn [mbind option_bind].
      destruct (IH d1 (x + 2 ^ Z.of_nat n) y (to_u8 (d + 1))) as (b & d2 & -> & Hg2 & Hb & Ho2 & Hk2); try done; try lia.
      cbn [mbind option_bind].
      destruct (IH d2 x (y + 2 ^ Z.of_nat n) (to_u8 (d + 1))) as (c & d3 & -> & Hg3 & Hc & Ho3 & Hk3); try done; try lia.
      cbn [mbind option_bind].
      destruct (IH d3 (x + 2 ^ Z.of_nat n) (y + 2 ^ Z.of_nat n) (to_u8 (d + 1))) as (e & d4 & -> & Hg4 & He & Ho4 & Hk4);
        try done; try lia.
      eexists _, d4. split; [done|]. split_and!; [done| |by rewrite !Forall_app|by rewrite !Forall_app].
      rewrite !length_app. lia.
Qed.
End Grid.

(** ** The decoder on a trace *)
(** A decoder that asks for the elements of the trace gets their values. *)
Definition decodes (ops : list Op) (e : CabacDec) (c : CtxSet) (e' : CabacDec) (c' : CtxSet) : Prop :=
  decode_reqs (req_of <$> ops) e c = Some (val_of <$> ops, e', c').

Lemma decode_reqs_length qs d cs vs d' cs' : decode_reqs qs d cs = Some (vs, d', cs') -> length vs = length qs.
Proof.
  revert d cs vs. induction qs as [|q qs IH]; intros d cs vs; cbn [decode_reqs]; [by intros [= <-]|].
  destruct (decode_req q d cs) as [[[v d1] c1]|]; [|done]. cbn [mbind option_bind].
  destruct (decode_reqs qs d1 c1) as [[[vs1 d2] c2]|] eqn:E; [|done]. intros [= <- <- <-]. cbn. f_equal. by eapply IH.
Qed.
Lemma decode_reqs_split a b e c vb e' c' :
  decode_reqs ((req_of <$> a) ++ b) e c = Some ((val_of <$> a) ++ vb, e', c') ->
  exists e1 c1, decodes a e c e1 c1 /\ decode_reqs b e1 c1 = Some (vb, e', c').
Proof.
  unfold decodes. rewrite decode_reqs_app. destruct (decode_reqs (req_of <$> a) e c) as [[[v1 e1] c1]|] eqn:E1; [|done].
  cbn [mbind option_bind]. destruct (decode_reqs b e1 c1) as [[[v2 e2] c2]|] eqn:E2; [|done]. intros [= Ev <- <-].
  apply decode_reqs_length in E1 as Hl. rewrite length_fmap in Hl. apply app_inj_1 in Ev as [-> ->]; [|by rewrite length_fmap].
  by exists e1, c1.
Qed.
Lemma decodes_app a b e c e' c' :
  decodes (a ++ b) e c e' c' -> exists e1 c1, decodes a e c e1 c1 /\ decodes b e1 c1 e' c'.
Proof. unfold decodes at 1. rewrite !fmap_app. apply decode_reqs_split. Qed.
Lemma decodes_nil e c e' c' : decodes [] e c e' c' -> e' = e /\ c' = c.
Proof. unfold decodes. cbn. by intros [= <- <-]. Qed.
Lemma decodes_flag s b e c e' c' cus :
  decodes [OpBin s b] e c e' c' -> decode_flag s (MkSliceDec e c cus) = Some (b, MkSliceDec e' c' cus).
Proof.
  unfold decodes, decode_flag. cbn [fmap list_fmap decode_reqs req_of sd_engine sd_ctxs sd_cus].
  destruct (decode_req (Some s) e c) as [[[v e1] c1]|]; [|done]. cbn. by intros [= -> <- <-].
Qed.
Lemma decodes_continue e c e' c' : decodes [OpContinue] e c e' c' -> decode_terminate e = Some (false, e') /\ c' = c.
Proof.
  unfold decodes. cbn [fmap list_fmap decode_reqs decode_req req_of val_of].
  destruct (decode_terminate e) as [[[] e1]|]; [done| |done]. cbn. by intros [= <- <-].
Qed.

(** The contexts evolve with the bins alone. *)
Lemma decode_bin_ctx d c v d' c' : decode_bin d c = Some (v, d', c') -> std_update c v = Some c'.
Proof.
  unfold decode_bin. destruct (std_lps _ _) as [lps|]; [|done]. cbn [mbind option_bind].
  destruct (std_update c _) as [c1|] eqn:E; [|done]. cbn [mbind option_bind]. destruct (dec_renorm _ _); [|done]. by intros [= <- _ <-].
Qed.
Lemma encode_bin_ctx e c b e' c' : ctx_ok c -> encode_bin e c b = Some (e', c') -> std_update c b = Some c'.
Proof.
  intros Hc. unfold encode_bin. destruct (lps_range _ _); [|done]. cbn [mbind option_bind]. rewrite ctx_update_std by done.
  destruct (std_update c b) as [c1|]; [|done]. cbn [mbind option_bind]. destruct (renorm _); [|done]. by intros [= _ <-].
Qed.
Lemma decodes_ctxs ops e cs e' cs' d d' cs2 :
  ctxs_ok cs -> Forall op_ok ops -> encode_ops ops (e, cs) = Some (e', cs') -> decodes ops d cs d' cs2 -> cs2 = cs'.
Proof.
  unfold encode_ops. revert e cs d. induction ops as [|o ops IH]; intros e cs d Hcs Hops E D.
  - injection E as _ <-. by apply decodes_nil in D as [_ ->].
  - apply Forall_cons in Hops as [Ho Hops]. change (o :: ops) with ([o] ++ ops) in D. apply decodes_app in D as (d1 & c1 & D1 & D).
    cbn [foldM] in E. destruct (encode_op (e, cs) o) as [[e1 cs1]|] eqn:E1; [|done]. cbn [mbind option_bind] in E.
    assert (H : c1 = cs1 /\ ctxs_ok cs1).
    { destruct o as [s b|].
      - destruct Ho as [Hs Hb]. destruct (get_ctx_ok cs s Hcs Hs) as (c & Ec & Hc). cbn [encode_op] in E1. rewrite Ec in E1.
        cbn [mbind option_bind] in E1. destruct (encode_bin e c b) as [[e2 c2]|] eqn:Eb; [|done]. injection E1 as _ <-.
        apply encode_bin_ctx in Eb as Eu; [|done]. unfold decodes in D1.
        cbn [fmap list_fmap decode_reqs decode_req req_of val_of] in D1. rewrite Ec in D1. cbn [mbind option_bind] in D1.
        destruct (decode_bin d c) as [[[v d2] c3]|] eqn:Ed; [|done]. cbn in D1. injection D1 as -> _ <-.
        apply decode_bin_ctx in Ed. assert (c3 = c2) as -> by congruence. split; [done|]. apply set_ctx_ok; [done|].
        destruct (ctx_update_ok c b Hc Hb) as (c4 & E4 & H4). rewrite ctx_update_std in E4 by done. by assert (c4 = c2) as <- by congruence.
      - cbn [encode_op] in E1. destruct (encode_terminate e false); [|done]. injection E1 as _ <-.
        apply decodes_continue in D1 as [_ ->]. done. }
    destruct H as [-> H]. by apply (IH e1 cs1 d1).
Qed.

(** ** The units of a slice against the depth grid *)
Definition covered (cus : list Cu) (x y : Z) : Prop := exists u, u ∈ cus /\ in_cu u x y = true.
Lemma cu_at_some cus x y u : cu_at cus x y = Some u -> u ∈ cus /\ in_cu u x y = true.
Proof. intros H. apply List.find_some in H as [H1 H2]. split; [by apply list_elem_of_In|done]. Qed.
Lemma cu_at_none cus x y : cu_at cus x y = None <-> ~ covered cus x y.
Proof.
  split.
  - intros H (u & Hu%list_elem_of_In & E). pose proof (List.find_none _ _ H u Hu) as E'. cbn in E'. congruence.
  - intros H. destruct (cu_at cus x y) as [u|] eqn:E; [|done]. apply cu_at_some in E. destruct H. by exists u.
Qed.
Lemma covered_snoc cus u x y : covered (cus ++ [u]) x y <-> covered cus x y \/ in_cu u x y = true.
Proof.
  unfold covered. split.
  - intros (v & [Hv| ->%list_elem_of_singleton]%elem_of_app & E); [left; by exists v|by right].
  - intros [(v & Hv & E)|E]; [exists v|exists u]; (split; [apply elem_of_app|done]); [by left|right; by apply list_elem_of_singleton].
Qed.
Lemma in_cu_iff u x y : in_cu u x y = true <->
  u.(cu_x) <= x < u.(cu_x) + 2 ^ u.(cu_log2) /\ u.(cu_y) <= y < u.(cu_y) + 2 ^ u.(cu_log2).
Proof. unfold in_cu. rewrite !andb_true_iff, !Z.leb_le, !Z.ltb_lt. lia. Qed.
(** What 7.4.3.2.1 asks of the sequence parameter set. *)
Definition conforming (sps : SpsInfo) : Prop :=
  sps.(log2_min_cb) <= sps.(log2_ctb) /\ sps.(pic_width) mod 2 ^ sps.(log2_min_cb) = 0 /\
  sps.(pic_height) mod 2 ^ sps.(log2_min_cb) = 0.

(** The writes of [d] to the cells [S]. *)
Definition writes (S : nat -> Prop) (d : Z) (a b : list Z) : Prop :=
  (forall i, S i -> b !! i = Some d) /\ (forall i, b !! i = Some d \/ b !! i = a !! i) /\ (forall i, ~ S i -> b !! i = a !! i).
Lemma writes_foldM {A} (S : A -> nat -> Prop) (f : list Z -> A -> option (list Z)) d l a b :
  (forall x a b, x ∈ l -> f a x = Some b -> writes (S x) d a b) -> foldM f l a = Some b ->
  writes (fun i => exists x, x ∈ l /\ S x i) d a b.
Proof.
  revert a. induction l as [|x l IH]; intros a Hf E; cbn [foldM] in E.
  - injection E as <-. split_and!; [by intros i (x & ?%elem_of_nil & _)|by right|done].
  - destruct (f a x) as [a1|] eqn:E1; [|done]. cbn [mbind option_bind] in E.
    destruct (Hf x a a1) as (H1 & H2 & H3); [by left|done|]. destruct (IH a1) as (I1 & I2 & I3); [|done|].
    { intros y u v Hy. apply Hf. by right. }
    split_and!.
    + intros i (y & [->|Hy]%elem_of_cons & HS); [|apply I1; by exists y]. destruct (I2 i) as [->| ->]; [done|by apply H1].
    + intros i. destruct (I2 i) as [->| ->]; [by left|done].
    + intros i Hi. rewrite I3, H3; [done| |].
      * intros HS. apply Hi. exists x. by split; [left|].
      * intros (y & Hy & HS). apply Hi. exists y. by split; [right|].
Qed.
Lemma wr8_writes a i d b : wr8 a i d = Some b -> writes (fun j => j = i) d a b.
Proof.
  unfold wr8. destruct (Nat.ltb_spec i (length a)); [|done]. intros [= <-]. split_and!.
  - intros j ->. by apply list_lookup_insert_eq.
  - intros j. destruct (decide (i = j)) as [->|]; [left; by apply list_lookup_insert_eq|right; by apply list_lookup_insert_ne].
  - intros j Hj. apply list_lookup_insert_ne. congruence.
Qed.

Lemma aligned_range M a b p : 0 < M -> a mod M = 0 -> b mod M = 0 -> a <= p < b <-> a / M <= p / M < b / M.
Proof.
  intros HM Ha Hb. pose proof (Z.div_mod a M). pose proof (Z.div_mod b M). pose proof (Z.div_mod p M).
  pose proof (Z.mod_pos_bound p M). rewrite Ha, Hb in *. nia.
Qed.
Lemma aligned_lt M a b : 0 < M -> a mod M = 0 -> b mod M = 0 -> a < b -> a + M <= b.
Proof.
  intros HM Ha Hb Hlt. pose proof (Z.div_mod a M ltac:(lia)) as Ea. pose proof (Z.div_mod b M ltac:(lia)) as Eb.
  rewrite Ha, Z.add_0_r in Ea. rewrite Hb, Z.add_0_r in Eb.
  generalize dependent (a / M). generalize dependent (b / M). intros q Eq r Er. assert (r < q) by nia. nia.
Qed.
Lemma aligned_add M n x : 0 <= M <= n -> x mod 2 ^ n = 0 -> x mod 2 ^ M = 0 /\ (x + 2 ^ n) mod 2 ^ M = 0.
Proof.
  intros HM Hx. replace (2 ^ n) with (2 ^ (n - M) * 2 ^ M) in * by (rewrite <- Z.pow_add_r; [f_equal; lia|lia..]).
  pose proof (Z.pow_pos_nonneg 2 M ltac:(lia) ltac:(lia)).
  assert (E : x = (x / (2 ^ (n - M) * 2 ^ M) * 2 ^ (n - M)) * 2 ^ M).
  { rewrite <- Z.mul_assoc. pose proof (Z.div_mod x (2 ^ (n - M) * 2 ^ M)). pose proof (Z.pow_pos_nonneg 2 (n - M)). nia. }
  rewrite E, <- Z.mul_add_distr_r, !Z.mod_mul by lia. done.
Qed.
Lemma aligned_half n x h : 0 <= n -> x mod 2 ^ (n + 1) = 0 -> h = 0 \/ h = 2 ^ n -> (x + h) mod 2 ^ n = 0.
Proof.
  intros Hn Hx [-> | ->]; pose proof (Z.pow_pos_nonneg 2 n); destruct (aligned_add n (n + 1) x) as [E _]; try lia.
  - by rewrite Z.add_0_r.
  - rewrite <- (Z.mul_1_l (2 ^ n)) at 1. by rewrite Z.mod_add by lia.
Qed.

Section Units.
Context (env : EmitEnv) (Henv : EnvOk env) (Hconf : conforming env.(ee_sps)).
Local Abbreviation sps := env.(ee_sps).
Local Abbreviation m := env.(ee_sps).(log2_min_cb).
Local Abbreviation PW := env.(ee_sps).(pic_width).
Local Abbreviation PH := env.(ee_sps).(pic_height).

Definition cell (x y : Z) : nat := Z.to_nat (y / 2 ^ m * env.(ee_w_mincb) + x / 2 ^ m).
Definition square (n : Z) (x y px py : Z) : Prop := x <= px < x + 2 ^ n /\ y <= py < y + 2 ^ n.

Lemma m_bounds : 0 <= m < 32 /\ 0 < 2 ^ m.
Proof. destruct (sh_bounds env Henv) as [? ?]. lia. Qed.
Lemma columns_whole : env.(ee_w_mincb) = PW / 2 ^ m /\ PW = PW / 2 ^ m * 2 ^ m /\ PH = PH / 2 ^ m * 2 ^ m.
Proof.
  destruct m_bounds as [H1 H2]. destruct Hconf as (_ & Hw & Hh). rewrite (eo_w _ Henv), Z.shiftr_div_pow2 by lia.
  pose proof (Z.div_mod PW (2 ^ m)). pose proof (Z.div_mod PH (2 ^ m)). rewrite Hw, Hh in *. split_and!; [|lia..].
  replace (PW + 2 ^ m - 1) with (2 ^ m - 1 + PW / 2 ^ m * 2 ^ m) by lia. rewrite Z.div_add, Z.div_small by lia. lia.
Qed.
Lemma cell_inj x y mx my : 0 <= x < PW -> 0 <= y -> 0 <= mx < env.(ee_w_mincb) -> 0 <= my ->
  cell x y = Z.to_nat (my * env.(ee_w_mincb) + mx) -> mx = x / 2 ^ m /\ my = y / 2 ^ m.
Proof.
  destruct m_bounds as [H1 H2]. destruct columns_whole as (Ew & EW & _). intros Hx Hy Hmx Hmy E. unfold cell in E.
  set (w := ee_w_mincb env) in *. assert (0 <= x / 2 ^ m) by (apply Z.div_pos; lia). assert (0 <= y / 2 ^ m) by (apply Z.div_pos; lia).
  assert (x / 2 ^ m < w) by (apply Z.div_lt_upper_bound; lia).
  apply Z2Nat.inj in E; [|nia..]. destruct (Z.div_mod_unique w (y / 2 ^ m) my (x / 2 ^ m) mx); lia.
Qed.
Lemma nb_depth_cell depth x y : grid_ok env depth -> 0 <= x < PW -> 0 <= y < PH -> nb_depth env depth x y = depth !! cell x y.
Proof.
  intros Hg Hx Hy. pose proof (eo_sps _ Henv) as []. destruct m_bounds as [H1 H2]. unfold nb_depth, rd8, cell.
  rewrite (to_u32_id x), (to_u32_id y) by ints.
  destruct (grid_index env Henv depth (Z.shiftr x m) (Z.shiftr y m)) as [-> _]; [done| | |].
  - rewrite (eo_w _ Henv). apply (floor_lt_ceil env Henv); lia.
  - apply (floor_lt_ceil env Henv); lia.
  - by rewrite !Z.shiftr_div_pow2 by lia.
Qed.

(** A unit that fits marks its cells and no other point's. *)
Lemma mark_depth_cells depth x y n d depth' :
  grid_ok env depth -> m <= n <= 6 -> 0 <= x -> 0 <= y -> x + 2 ^ n <= PW -> y + 2 ^ n <= PH -> x mod 2 ^ n = 0 -> y mod 2 ^ n = 0 ->
  mark_depth env depth x y (2 ^ n) d = Some depth' ->
  (forall px py, square n x y px py -> depth' !! cell px py = Some d) /\
  (forall px py, 0 <= px < PW -> 0 <= py < PH -> ~ square n x y px py -> depth' !! cell px py = depth !! cell px py).
Proof.
  intros Hg Hn Hx Hy Hxw Hyh Ax Ay E. destruct m_bounds as [Hm Hp]. pose proof (eo_sps _ Henv) as [].
  destruct (aligned_add m n x) as [Ax0 Ax1]; [lia|done|]. destruct (aligned_add m n y) as [Ay0 Ay1]; [lia|done|].
  destruct columns_whole as (Ew & EW & EH). pose proof (Z.pow_pos_nonneg 2 n ltac:(lia) ltac:(lia)) as Hpn.
  assert (Hsp : forall a, 0 <= a -> a + 2 ^ n <= 8192 -> a mod 2 ^ m = 0 -> (a + 2 ^ n) mod 2 ^ m = 0 ->
    cb_span m a (a + 2 ^ n) = seqZ (a / 2 ^ m) ((a + 2 ^ n) / 2 ^ m - a / 2 ^ m)).
  { intros a Ha Hb A0 A1. unfold cb_span. rewrite Z.shiftl_mul_pow2, Z.mul_1_l, to_u32_id, !Z.shiftr_div_pow2; try lia.
    - do 2 f_equal. pose proof (Z.div_mod (a + 2 ^ n) (2 ^ m)) as Ed. rewrite A1 in Ed.
      replace (a + 2 ^ n + 2 ^ m - 1) with (2 ^ m - 1 + (a + 2 ^ n) / 2 ^ m * 2 ^ m) by lia. rewrite Z.div_add, Z.div_small by lia. lia.
    - pose proof (sh_bounds env Henv) as [_ ?]. ints. }
  unfold mark_depth in E. rewrite !to_u32_id, !Z.min_l, !Hsp in E by (ints || lia || done).
  set (S := fun my mx i => i = Z.to_nat (to_u32 (to_u32 (my * ee_w_mincb env) + mx))).
  apply (writes_foldM (fun my i => exists mx, mx ∈ seqZ (x / 2 ^ m) ((x + 2 ^ n) / 2 ^ m - x / 2 ^ m) /\ S my mx i) _ d) in E.
  2:{ intros my a b _ Eb. apply (writes_foldM (S my) _ d) in Eb; [exact Eb|]. intros mx u v _ Ev. by apply wr8_writes in Ev. }
  destruct E as (E1 & _ & E3).
  assert (Hidx : forall mx my, x / 2 ^ m <= mx < (x + 2 ^ n) / 2 ^ m -> y / 2 ^ m <= my < (y + 2 ^ n) / 2 ^ m ->
    to_u32 (to_u32 (my * ee_w_mincb env) + mx) = my * ee_w_mincb env + mx /\ 0 <= mx < ee_w_mincb env /\ 0 <= my).
  { intros mx my Hmx Hmy. assert (0 <= x / 2 ^ m) by (apply Z.div_pos; lia). assert (0 <= y / 2 ^ m) by (apply Z.div_pos; lia).
    assert ((x + 2 ^ n) / 2 ^ m <= PW / 2 ^ m) by (apply Z.div_le_mono; lia). assert ((y + 2 ^ n) / 2 ^ m <= PH / 2 ^ m) by (apply Z.div_le_mono; lia).
    split; [|lia]. apply (grid_index env Henv depth); [done|lia|]. rewrite Z.shiftr_div_pow2 by lia.
    replace (PH + 2 ^ m - 1) with (2 ^ m - 1 + PH / 2 ^ m * 2 ^ m) by lia. rewrite Z.div_add, (Z.div_small (2 ^ m - 1)) by lia. lia. }
  split.
  - intros px py [Sx Sy]. apply (aligned_range (2 ^ m)) in Sx; [|done..]. apply (aligned_range (2 ^ m)) in Sy; [|done..].
    apply E1. exists (py / 2 ^ m). split; [apply elem_of_seqZ; lia|]. exists (px / 2 ^ m). split; [apply elem_of_seqZ; lia|].
    unfold S. by destruct (Hidx (px / 2 ^ m) (py / 2 ^ m) Sx Sy) as (-> & _).
  - intros px py Hpx Hpy Hsq. apply E3. intros (my & Hmy%elem_of_seqZ & mx & Hmx%elem_of_seqZ & Ei). unfold S in Ei.
    destruct (Hidx mx my) as (Eu & Hw & Hh); [lia..|]. rewrite Eu in Ei. apply cell_inj in Ei as [-> ->]; [|lia..].
    apply Hsq. split; (apply (aligned_range (2 ^ m)); [done..|lia]).
Qed.

(** The decoded units against the encoder's grid. *)
Record Units (cus : list Cu) (depth : list Z) : Prop := {
  un_grid : grid_ok env depth;
  un_depth : forall u x y, u ∈ cus -> in_cu u x y = true -> depth !! cell x y = Some u.(cu_depth);
  un_skip : forall u, u ∈ cus -> u.(cu_skip_flag) = 1;
  un_avail : forall x y, covered cus x y -> nb_avail env x y = true;
  un_once : forall i j u v x y, cus !! i = Some u -> cus !! j = Some v -> in_cu u x y = true -> in_cu v x y = true -> i = j
}.

Lemma nb_cond_avail cus depth x y f : Units cus depth -> (nb_avail env x y = true -> covered cus x y) ->
  nb_cond cus x y f = if nb_avail env x y then match cu_at cus x y with Some u => if f u then 1 else 0 | None => 0 end else 0.
Proof.
  intros HU Hc. unfold nb_cond. destruct (nb_avail env x y) eqn:E; [done|].
  rewrite (proj2 (cu_at_none _ _ _)); [done|]. intros Hcov%(un_avail _ _ HU). congruence.
Qed.
Lemma skip_inc_units cus depth x y : Units cus depth ->
  (nb_avail env (x - 1) y = true -> covered cus (x - 1) y) -> (nb_avail env x (y - 1) = true -> covered cus x (y - 1)) ->
  ctx_inc cus x y (fun u => u.(cu_skip_flag) =? 1) = skip_inc env x y.
Proof.
  intros HU Hl Ha. unfold ctx_inc, skip_inc. rewrite !(nb_cond_avail cus depth) by done.
  assert (HT : forall x y, (nb_avail env x y = true -> covered cus x y) ->
    (if nb_avail env x y then match cu_at cus x y with Some u => if u.(cu_skip_flag) =? 1 then 1 else 0 | None => 0 end else 0) =
    if nb_avail env x y then 1 else 0).
  { intros x' y' Hc. destruct (nb_avail env x' y') eqn:E; [|done]. destruct (cu_at cus x' y') as [u|] eqn:Eu.
    - apply cu_at_some in Eu as [Hu _]. by rewrite (un_skip _ _ HU u Hu).
    - by apply cu_at_none in Eu; destruct Eu; apply Hc. }
  by rewrite !HT.
Qed.
Lemma split_inc_units cus depth x y d : Units cus depth ->
  (nb_avail env (x - 1) y = true -> covered cus (x - 1) y) -> (nb_avail env x (y - 1) = true -> covered cus x (y - 1)) ->
  split_inc env depth x y d = Some (ctx_inc cus x y (fun u => d <? u.(cu_depth))).
Proof.
  intros HU Hl Ha. unfold ctx_inc, split_inc. rewrite !(nb_cond_avail cus depth) by done.
  assert (HT : forall x y, (nb_avail env x y = true -> covered cus x y) ->
    (if nb_avail env x y then v ← nb_depth env depth x y; Some (if v >? d then 1 else 0) else Some 0) =
    Some (if nb_avail env x y then match cu_at cus x y with Some u => if d <? u.(cu_depth) then 1 else 0 | None => 0 end else 0)).
  { intros x' y' Hc. destruct (nb_avail env x' y') eqn:E; [|done]. destruct (cu_at cus x' y') as [u|] eqn:Eu.
    - apply cu_at_some in Eu as [Hu Hin]. destruct (nb_avail_inside env x' y' E) as [Hx Hy].
      rewrite nb_depth_cell by (done || apply HU). rewrite (un_depth _ _ HU u x' y' Hu Hin). cbn [mbind option_bind]. by rewrite Z.gtb_ltb.
    - by apply cu_at_none in Eu; destruct Eu; apply Hc. }
  by rewrite !HT.
Qed.

(** A node of the quadtree about to be coded: nothing of it is decoded, and
    what is available beside and above it is. *)
Record Node (cus : list Cu) (n x y : Z) : Prop := {
  nd_place : 0 <= x <= 16384 - 2 ^ n /\ 0 <= y <= 16384 - 2 ^ n /\ x mod 2 ^ n = 0 /\ y mod 2 ^ n = 0;
  nd_size : m <= n <= 6;
  nd_new : forall px py, square n x y px py -> ~ covered cus px py;
  nd_here : forall px py, square n x y px py -> px < PW -> py < PH -> nb_avail env px py = true;
  nd_left : forall py, y <= py < y + 2 ^ n -> nb_avail env (x - 1) py = true -> covered cus (x - 1) py;
  nd_up : forall px, x <= px < x + 2 ^ n -> nb_avail env px (y - 1) = true -> covered cus px (y - 1)
}.

(** A node at the smallest size that starts inside ends inside. *)
Lemma smallest_fits cus n x y : Node cus n x y -> x < PW -> y < PH -> ~ (x + 2 ^ n <= PW /\ y + 2 ^ n <= PH) -> m < n.
Proof.
  intros [(Hx & Hy & Ax & Ay) Hn _ _ _ _] Hw Hh Hout. destruct m_bounds as [Hm Hp]. destruct Hconf as (_ & Aw & Ah).
  destruct (decide (n = m)) as [->|]; [|lia]. exfalso. apply Hout. split; by apply aligned_lt.
Qed.

Lemma leaf_units (k : nat) cus depth x y d ops depth' :
  Units cus depth -> Node cus (Z.of_nat k) x y -> x + 2 ^ Z.of_nat k <= PW -> y + 2 ^ Z.of_nat k <= PH ->
  leaf_ops env depth x y (Z.of_nat k) d = Some (ops, depth') ->
  let cus' := cus ++ [MkCu x y (Z.of_nat k) d 1] in
  (forall e c e' c', decodes ops e c e' c' ->
     coding_quadtree sps k x y d (MkSliceDec e c cus) = Some (MkSliceDec e' c' cus')) /\ Units cus' depth'.
Proof.
  intros HU HN Hxw Hyh E. pose proof HN as [(Hx & Hy & Ax & Ay) Hn Hnew Hhere Hleft Hup]. pose proof (eo_sps _ Henv) as [].
  set (n := Z.of_nat k) in *. pose proof (Z.pow_pos_nonneg 2 n ltac:(lia) ltac:(lia)) as Hpn. destruct m_bounds as [Hm Hp].
  assert (H2n : Z.shiftl 1 n = 2 ^ n) by (rewrite Z.shiftl_mul_pow2; lia).
  unfold leaf_ops in E. rewrite H2n, (split_inc_units cus depth x y d HU) in E by (apply Hleft || apply Hup; lia).
  cbn [mbind option_bind] in E.
  assert (Hsq : forall px py, in_cu (MkCu x y n d 1) px py = true <-> square n x y px py) by (intros; by rewrite in_cu_iff).
  assert (Hq : exists sops, (if n >? m then Some [OpBin (SymSplit (ctx_inc cus x y (fun u => d <? u.(cu_depth)))) 0] else Some []) = Some sops /\
    ops = sops ++ [OpBin (SymSkip (ctx_inc cus x y (fun u => u.(cu_skip_flag) =? 1))) 1] /\
    mark_depth env depth x y (2 ^ n) d = Some depth').
  { rewrite (skip_inc_units cus depth x y HU) by (apply Hleft || apply Hup; lia).
    destruct (n >? m); (destruct (mark_depth env depth x y (2 ^ n) d) as [dp|]; [|done]); cbn [mbind option_bind] in E;
      injection E as <- <-; eexists; by split_and!. }
  destruct Hq as (sops & Es & -> & Em). split.
  - intros e c e' c' D. apply decodes_app in D as (e1 & c1 & D1 & D2). assert (Hout : (PW <=? x) || (PH <=? y) = false) by (apply orb_false_iff; split; apply Z.leb_gt; lia).
    assert (Hin : (x + 2 ^ n <=? PW) && (y + 2 ^ n <=? PH) = true) by (apply andb_true_iff; split; apply Z.leb_le; lia).
    assert (Hspl : (if (m <? n) then decode_flag (SymSplit (ctx_inc cus x y (fun u => d <? u.(cu_depth)))) (MkSliceDec e c cus)
      else Some (0, MkSliceDec e c cus)) = Some (0, MkSliceDec e1 c1 cus)).
    { rewrite <- Z.gtb_ltb. destruct (n >? m); injection Es as <-.
      - by apply decodes_flag.
      - by apply decodes_nil in D1 as [-> ->]. }
    apply (decodes_flag _ _ _ _ _ _ cus) in D2.
    destruct k as [|k]; cbn [coding_quadtree]; rewrite Hout; fold n; rewrite Hin; cbn [andb sd_cus];
      replace (if m <? n then decode_flag _ _ else _) with (Some (0, MkSliceDec e1 c1 cus))
        by (rewrite <- Hspl; by destruct (m <? n)); cbn [mbind option_bind Z.eqb]; unfold coding_unit; cbn [sd_cus];
      rewrite D2; cbn [mbind option_bind]; done.
  - destruct HU as [Hg Hdep Hskip Hav Honce].
    destruct (mark_depth_cells depth x y n d depth' Hg Hn) as [M1 M2]; try done; try lia.
    split.
    + destruct (mark_depth_some env Henv depth x y (2 ^ n) d) as (dp & E' & Hg'); try done; try lia.
      all: try (assert (2 ^ n <= 2 ^ 6) by (apply Z.pow_le_mono_r; lia); change (2 ^ 6) with 64 in *; lia).
      by assert (dp = depth') as <- by congruence.
    + intros u px py [Hu| ->%list_elem_of_singleton]%elem_of_app Hin.
      * assert (Hcov : covered cus px py) by (by exists u). pose proof (nb_avail_inside env px py (Hav _ _ Hcov)).
        rewrite M2; [by apply Hdep|lia|lia|]. intros Hs. by apply (Hnew px py).
      * apply M1. by apply Hsq.
    + intros u [Hu| ->%list_elem_of_singleton]%elem_of_app; [by apply Hskip|done].
    + intros px py [Hc|Hc]%covered_snoc; [by apply Hav|]. apply Hsq in Hc as Hs. destruct Hs. apply Hhere; [done|lia|lia].
    + intros i j u v px py Hi Hj Hu Hv.
      assert (HT : forall i u, (cus ++ [MkCu x y n d 1]) !! i = Some u -> in_cu u px py = true ->
        (cus !! i = Some u /\ covered cus px py) \/ (i = length cus /\ ~ covered cus px py)).
      { intros i' u' Hi' Hu'. apply lookup_app_Some in Hi' as [Hi'|[Hl Hi']].
        - left. split; [done|]. exists u'. split; [by eapply list_elem_of_lookup_2|done].
        - right. destruct (i' - length cus)%nat eqn:Ei; [|done]. split; [lia|]. injection Hi' as <-. by apply Hnew, Hsq. }
      destruct (HT i u Hi Hu) as [[Hi' Hc]|[-> Hc]], (HT j v Hj Hv) as [[Hj' Hc']|[-> Hc']]; try done. by eapply Honce.
Qed.

(** The quarters of a node, in coding order. *)
Lemma node_quarter cus0 cus n x y hx hy :
  Node cus0 (n + 1) x y -> m <= n -> hx = 0 \/ hx = 2 ^ n -> hy = 0 \/ hy = 2 ^ n ->
  (forall px py, covered cus px py <-> covered cus0 px py \/
     (py < y + hy \/ px < x + hx /\ py < y + hy + 2 ^ n) /\ square (n + 1) x y px py /\ px < PW /\ py < PH) ->
  Node cus n (x + hx) (y + hy).
Proof.
  intros [(Hx & Hy & Ax & Ay) Hn Hnew Hhere Hleft Hup] Hmn Hhx Hhy Hcov. destruct m_bounds as [Hm _].
  pose proof (Z.pow_pos_nonneg 2 n ltac:(lia) ltac:(lia)) as Hp. assert (E2 : 2 ^ (n + 1) = 2 * 2 ^ n) by (rewrite Z.pow_add_r; lia).
  unfold square in *. rewrite E2 in *. split; unfold square.
  - split_and!; try lia; apply aligned_half; try done; try lia; by rewrite E2.
  - lia.
  - intros px py Hs [Hc|Hc]%Hcov; [apply (Hnew px py); [lia|done]|lia].
  - intros px py Hs. apply Hhere. lia.
  - intros py Hpy Ha. apply Hcov. destruct Hhx as [-> | ->].
    + left. replace (x + 0 - 1) with (x - 1) in * by lia. apply Hleft; [lia|done].
    + right. pose proof (nb_avail_inside env _ _ Ha). lia.
  - intros px Hpx Ha. apply Hcov. destruct Hhy as [-> | ->].
    + left. replace (y + 0 - 1) with (y - 1) in * by lia. apply Hup; [lia|done].
    + right. pose proof (nb_avail_inside env _ _ Ha). lia.
Qed.

Lemma cu_units (k : nat) cus depth x y d ops depth' :
  Units cus depth -> Node cus (Z.of_nat k) x y -> 0 <= d <= 6 - Z.of_nat k ->
  cu_ops env depth x y k d = Some (ops, depth') ->
  exists cus', (forall e c e' c', decodes ops e c e' c' ->
      coding_quadtree sps k x y d (MkSliceDec e c cus) = Some (MkSliceDec e' c' cus')) /\ Units cus' depth' /\
    forall px py, covered cus' px py <-> covered cus px py \/ square (Z.of_nat k) x y px py /\ px < PW /\ py < PH.
Proof.
  revert cus depth x y d ops depth'. induction k as [|k IH]; intros cus depth x y d ops depth' HU HN Hd E.
  all: pose proof HN as [(Hx & Hy & Ax & Ay) Hn Hnew Hhere Hleft Hup]; pose proof (eo_sps _ Henv) as [].
  all: destruct (decide (PW <= x \/ PH <= y)) as [Hout|Hout].
  1, 3: (assert (Hout' : (x >=? PW) || (y >=? PH) = true) by (rewrite !Z.geb_leb; apply orb_true_iff; rewrite !Z.leb_le; lia);
    assert (Hout2 : (PW <=? x) || (PH <=? y) = true) by (apply orb_true_iff; rewrite !Z.leb_le; lia);
    cbn [cu_ops coding_quadtree] in *; rewrite Hout' in E; injection E as <- <-;
    exists cus; split_and!; [intros e c e' c' [-> ->]%decodes_nil; by rewrite Hout2|done|]; intros px py; split; [by left|]; intros [?|([? ?] & ? & ?)]; [done|lia]).
  all: assert (Hin : (x >=? PW) || (y >=? PH) = false) by (rewrite !Z.geb_leb; apply orb_false_iff; rewrite !Z.leb_gt; lia).
  all: assert (Hin2 : (PW <=? x) || (PH <=? y) = false) by (apply orb_false_iff; rewrite !Z.leb_gt; lia).
  all: match type of HN with Node _ ?n _ _ => set (n0 := n) in * end.
  all: assert (Hs : Z.shiftl 1 n0 = 2 ^ n0) by (rewrite Z.shiftl_mul_pow2; lia).
  all: assert (H64 : 0 < 2 ^ n0 <= 64) by (split; [apply Z.pow_pos_nonneg; lia|change 64 with (2 ^ 6); apply Z.pow_le_mono_r; lia]).
  all: assert (Hu : to_u32 (x + 2 ^ n0) = x + 2 ^ n0 /\ to_u32 (y + 2 ^ n0) = y + 2 ^ n0) by (split; apply to_u32_id; ints).
  all: destruct Hu as [Hux Huy].
  all: destruct (decide (x + 2 ^ n0 <= PW /\ y + 2 ^ n0 <= PH)) as [Hfit|Hfit].
  1, 3: (assert (Hb : (to_u32 (x + Z.shiftl 1 n0) <=? PW) && (to_u32 (y + Z.shiftl 1 n0) <=? PH) = true)
      by (rewrite Hs, Hux, Huy; apply andb_true_iff; rewrite !Z.leb_le; lia);
    cbn [cu_ops] in E; rewrite Hin in E; fold n0 in E; rewrite Hb in E;
    destruct (leaf_units _ cus depth x y d ops depth' HU HN (proj1 Hfit) (proj2 Hfit) E) as [E2 HU2];
    eexists; split; [exact E2|]; split; [exact HU2|]; intros px py; rewrite covered_snoc, in_cu_iff; cbn;
    unfold square; fold n0; intuition lia).
  { pose proof (smallest_fits _ _ _ _ HN ltac:(lia) ltac:(lia) Hfit). destruct m_bounds. lia. }
  pose proof (smallest_fits _ _ _ _ HN ltac:(lia) ltac:(lia) Hfit) as Hmn.
  assert (Hb : (to_u32 (x + Z.shiftl 1 n0) <=? PW) && (to_u32 (y + Z.shiftl 1 n0) <=? PH) = false).
  { rewrite Hs, Hux, Huy. apply andb_false_iff. rewrite !Z.leb_gt. lia. }
  cbn [cu_ops] in E. fold n0 in E. rewrite Hin in E. rewrite Hb in E.
  assert (Hb2 : (x + 2 ^ n0 <=? PW) && (y + 2 ^ n0 <=? PH) = false) by (apply andb_false_iff; rewrite !Z.leb_gt; lia).
  assert (En : Z.of_nat (S k) = Z.of_nat k + 1) by lia. unfold n0 in *. rewrite En in *. set (n := Z.of_nat k) in *.
  assert (Hp : 2 ^ (n + 1) = 2 * 2 ^ n) by (rewrite Z.pow_add_r; lia). pose proof (Z.pow_pos_nonneg 2 n ltac:(lia) ltac:(lia)) as Hpn.
  assert (Hh : Z.shiftl 1 n = 2 ^ n) by (rewrite Z.shiftl_mul_pow2; lia). rewrite Hh in E.
  rewrite (to_u8_id (d + 1)), !(to_u32_id (_ + 2 ^ n)) in E by ints.
  destruct (cu_ops env depth x y k _) as [[o1 d1]|] eqn:E1; [|done]. cbn [mbind option_bind] in E.
  destruct (cu_ops env d1 (x + 2 ^ n) y k _) as [[o2 d2]|] eqn:E2; [|done]. cbn [mbind option_bind] in E.
  destruct (cu_ops env d2 x (y + 2 ^ n) k _) as [[o3 d3]|] eqn:E3; [|done]. cbn [mbind option_bind] in E.
  destruct (cu_ops env d3 (x + 2 ^ n) (y + 2 ^ n) k _) as [[o4 d4]|] eqn:E4; [|done]. injection E as <- <-.
  destruct (IH cus depth x y (d + 1) o1 d1 HU) as (u1 & R1 & HU1 & C1); [|lia|done|].
  { pose proof (node_quarter cus cus n x y 0 0 HN ltac:(lia)) as HQ. rewrite !Z.add_0_r in HQ. apply HQ; [by left..|].
    intros px py. unfold square. rewrite Hp. intuition lia. }
  destruct (IH u1 d1 (x + 2 ^ n) y (d + 1) o2 d2 HU1) as (u2 & R2 & HU2 & C2); [|lia|done|].
  { pose proof (node_quarter cus u1 n x y (2 ^ n) 0 HN ltac:(lia)) as HQ. rewrite !Z.add_0_r in HQ. apply HQ; [by right|by left|].
    intros px py. rewrite C1. unfold square. rewrite Hp. intuition lia. }
  destruct (IH u2 d2 x (y + 2 ^ n) (d + 1) o3 d3 HU2) as (u3 & R3 & HU3 & C3); [|lia|done|].
  { pose proof (node_quarter cus u2 n x y 0 (2 ^ n) HN ltac:(lia)) as HQ. rewrite !Z.add_0_r in HQ. apply HQ; [by left|by right|].
    intros px py. rewrite C2, C1. unfold square. rewrite Hp. intuition lia. }
  destruct (IH u3 d3 (x + 2 ^ n) (y + 2 ^ n) (d + 1) o4 d4 HU3) as (u4 & R4 & HU4 & C4); [|lia|done|].
  { apply (node_quarter cus u3 n x y (2 ^ n) (2 ^ n) HN); [lia|by right..|].
    intros px py. rewrite C3, C2, C1. unfold square. rewrite Hp. intuition lia. }
  exists u4. split_and!; [|done|].
  - intros e c e' c' D. apply decodes_app in D as (e1 & c1 & D1 & D). apply decodes_app in D as (e2 & c2 & D2 & D).
    apply decodes_app in D as (e3 & c3 & D3 & D4). cbn [coding_quadtree]. rewrite Hin2. fold n. rewrite En, Hb2. cbn [andb].
    rewrite (proj2 (Z.ltb_lt _ _) Hmn). cbn [mbind option_bind Z.eqb].
    rewrite (R1 _ _ _ _ D1). cbn [mbind option_bind]. rewrite (R2 _ _ _ _ D2). cbn [mbind option_bind].
    rewrite (R3 _ _ _ _ D3). cbn [mbind option_bind]. by apply R4.
  - intros px py. rewrite C4, C3, C2, C1. unfold square. rewrite Hp. intuition lia.
Qed.
End Units.

(** A closed substream: the contexts it starts from, its trace, its bits
    with the alignment, its bytes. *)
Record Seg : Type := MkSeg { sg_ctxs : CtxSet; sg_ops : list Op; sg_bits : list Z; sg_bytes : list Z }.

(** The standard's decoder reads a substream as its trace and a final end
    flag, and leaves the alignment zeros. *)
Definition seg_decodes (s : Seg) : Prop :=
  exists pad, (pad < 8)%nat /\ forall tail, Forall bit tail -> exists d' cs',
    decode_reqs ((req_of <$> s.(sg_ops)) ++ [None]) (dec_init (bits_of s.(sg_bytes) ++ tail)) s.(sg_ctxs) =
      Some ((val_of <$> s.(sg_ops)) ++ [1], d', cs') /\ d'.(cd_rest) = replicate pad 0 ++ tail.

Record SegOk (s : Seg) : Prop := {
  gk_pack : pack_bits s.(sg_bits) = Some s.(sg_bytes);
  gk_bits : bits_of s.(sg_bytes) = s.(sg_bits);
  gk_aligned : exists n, length s.(sg_bits) = (8 * n)%nat;
  gk_bit : Forall bit s.(sg_bits);
  gk_size : len s.(sg_bits) <= 8 * len s.(sg_ops) + 16;
  gk_skip : Forall all_skip s.(sg_ops);
  gk_last : exists init c, s.(sg_bytes) = init ++ [c] /\ c <> 0;
  gk_decodes : seg_decodes s
}.

Lemma pack_bits_app n a b :
  length a = (8 * n)%nat -> pack_bits (a ++ b) = x ← pack_bits a; y ← pack_bits b; Some (x ++ y).
Proof.
  revert a. induction n as [|n IH]; intros a Ha.
  - destruct a; [|cbn in Ha; lia]. cbn. by destruct (pack_bits b).
  - do 8 (destruct a as [|? a]; [cbn in Ha; lia|]). assert (Hl : length a = (8 * n)%nat) by (cbn in Ha; lia).
    cbn [app pack_bits]. rewrite (IH a Hl). destruct (pack_bits a) as [x|]; [|done]. cbn [mbind option_bind].
    by destruct (pack_bits b) as [y|].
Qed.

Lemma align_zero_app pre l n :
  length pre = (8 * n)%nat ->
  exists pad, (pad < 8)%nat /\ align_zero (pre ++ l) = pre ++ l ++ replicate pad 0 /\
    exists m, length (l ++ replicate pad 0) = (8 * m)%nat.
Proof.
  intros Hp. exists (Z.to_nat ((- len (pre ++ l)) mod 8)). unfold align_zero. rewrite <- app_assoc.
  rewrite !length_app, length_replicate, Hp.
  pose proof (Z.mod_pos_bound (- Z.of_nat (8 * n + length l)) 8 ltac:(lia)). split_and!; [lia|done|].
  exists (Z.to_nat ((len l + (- Z.of_nat (8 * n + length l)) mod 8) / 8)). Z.div_mod_to_equations. lia.
Qed.

(** The last byte holds the stop bit. *)
Lemma last_byte_nonzero bytes out pad :
  bits_of bytes = out ++ [1] ++ replicate pad 0 -> (pad < 8)%nat -> exists init c, bytes = init ++ [c] /\ c <> 0.
Proof.
  intros E Hp. destruct bytes as [|c init _] using rev_ind.
  { apply (f_equal length) in E. rewrite !length_app in E. cbn in E. lia. }
  exists init, c. split; [done|]. intros ->. rewrite bits_of_app in E.
  pose proof (f_equal length E) as El. rewrite !length_app, length_replicate in El. cbn [length bits_of flat_map] in El.
  change (length (byte_bits 0 ++ [])) with 8%nat in El.
  assert (Hl : (out ++ [1] ++ replicate pad 0) !! length out = Some 1) by (rewrite lookup_app_r, Nat.sub_diag by lia; done).
  rewrite <- E, lookup_app_r in Hl by lia. change (bits_of [0]) with (replicate 8 0) in Hl.
  by apply lookup_replicate in Hl as [? _].
Qed.

(** Closing a substream opened on an aligned vector. *)
Lemma close_segment pre cs ops n e cs' :
  length pre = (8 * n)%nat -> ctxs_ok cs -> Forall op_ok ops -> Forall all_skip ops -> 8 * len ops + 8 < 4294967296 ->
  encode_ops ops (cabac_reset pre, cs) = Some (e, cs') ->
  exists e2 bits bytes, encode_terminate e true = Some e2 /\ align_zero e2.(ce_bits) = pre ++ bits /\
    SegOk (MkSeg cs ops bits bytes).
Proof.
  intros Hpre Hcs Hops Hskip Hl E.
  destruct (substream_decodes pre cs ops Hcs Hops Hl) as (out & cs1 & Es & Hcs1 & Hbits & Hlen & Hdec).
  unfold encode_substream in Es. rewrite E in Es. cbn [mbind option_bind] in Es.
  destruct (encode_terminate e true) as [e2|]; [|done]. cbn [mbind option_bind] in Es. injection Es as Eb _.
  destruct (align_zero_app pre (out ++ [1]) n Hpre) as (pad & Hpad & Ea & m & Hm).
  set (bits := (out ++ [1]) ++ replicate pad 0) in *.
  assert (Hbit : Forall bit bits) by (apply Forall_app; split; [done|apply Forall_replicate; by left]).
  destruct (pack_bits_spec bits Hbit) as (bytes & Ep & Ebits & _); [Z.div_mod_to_equations; lia|].
  exists e2, bits, bytes. split; [done|]. split; [by rewrite Eb|]. split; cbn [sg_ctxs sg_ops sg_bits sg_bytes]; try done.
  - by exists m.
  - unfold bits. rewrite length_app, length_replicate. lia.
  - eapply (last_byte_nonzero _ out pad); [|done]. rewrite Ebits. unfold bits. by rewrite <- app_assoc.
  - exists pad. split; [done|]. intros tail Ht. cbn [sg_ctxs sg_ops sg_bytes]. rewrite Ebits. unfold bits.
    destruct (Hdec (replicate pad 0 ++ tail)) as (d' & Ed & Hd'); [apply Forall_app; split; [apply Forall_replicate; by left|done]|].
    rewrite app_assoc in Ed. by exists d', cs1.
Qed.

(** ** The loop *)
Fixpoint seg_starts (a : Z) (segs : list Seg) : list Z :=
  match segs with
  | [] => [a]
  | s :: segs => a :: seg_starts (a + len s.(sg_bytes)) segs
  end.
#[export] Instance Op_eq_dec : EqDecision Op.
Proof. intros [[i|i] b|] [[j|j] c|]; unfold Decision; first [by left | by right | idtac].
  all: destruct (Z.eq_dec i j) as [->|?], (Z.eq_dec b c) as [->|?]; [by left|right; congruence..].
Defined.
Definition segs_bits (segs : list Seg) : list Z := concat (sg_bits <$> segs).
Definition segs_bytes (segs : list Seg) : list Z := concat (sg_bytes <$> segs).
Definition segs_ops (segs : list Seg) : Z := fold_right Z.add 0 ((fun s => len s.(sg_ops) + 1) <$> segs).

(** The [end_of_slice_segment_flag]s equal to 0: one per CTU but the last. *)
Definition ctus (ops : list Op) : Z := len (filter (fun o => o = OpContinue) ops).
Definition segs_ctus (segs : list Seg) : Z := ctus (concat (sg_ops <$> segs)).
Definition first_ctxs (segs : list Seg) (cs : CtxSet) : CtxSet :=
  match segs with [] => cs | s :: _ => s.(sg_ctxs) end.
Lemma ctus_app a b : ctus (a ++ b) = ctus a + ctus b.
Proof. unfold ctus. rewrite filter_app, length_app. lia. Qed.

Lemma seg_starts_snoc a segs s : seg_starts a (segs ++ [s]) = seg_starts a segs ++ [a + len (segs_bytes (segs ++ [s]))].
Proof.
  revert a. induction segs as [|x segs IH]; intros a; cbn [app seg_starts].
  - unfold segs_bytes. cbn. by rewrite app_nil_r.
  - rewrite IH. unfold segs_bytes. cbn [fmap list_fmap concat app].
    by rewrite (length_app (sg_bytes x)), Nat2Z.inj_add, Z.add_assoc.
Qed.
Lemma segs_snoc {A} (f : Seg -> list A) segs s : concat (f <$> (segs ++ [s])) = concat (f <$> segs) ++ f s.
Proof. rewrite fmap_app, concat_app. cbn. by rewrite app_nil_r. Qed.
Lemma segs_ops_snoc segs s : segs_ops (segs ++ [s]) = segs_ops segs + len s.(sg_ops) + 1.
Proof.
  unfold segs_ops. induction segs as [|x segs IH]; cbn [app fmap list_fmap fold_right] in *; [lia|]. rewrite IH. lia.
Qed.

Lemma segs_pack segs :
  Forall SegOk segs -> pack_bits (segs_bits segs) = Some (segs_bytes segs) /\ (exists n, length (segs_bits segs) = (8 * n)%nat) /\
  8 * len (segs_bytes segs) = len (segs_bits segs) /\ len (segs_bits segs) <= 16 * segs_ops segs.
Proof.
  unfold segs_bits, segs_bytes, segs_ops. induction 1 as [|s segs Hs _ (IH & [n Hn] & Hlen & Hsz)]; [split_and!; try done; by exists 0%nat|].
  destruct Hs as [Hp Hb [m Hm] _ Hz _ _ _]. cbn [fmap list_fmap concat fold_right].
  rewrite (pack_bits_app m), Hp by done. cbn [mbind option_bind]. rewrite IH. cbn [mbind option_bind].
  pose proof (f_equal length Hb) as El. rewrite bits_of_length in El. rewrite !length_app.
  split_and!; [done|exists (m + n)%nat; lia|lia|]. cbn in *. lia.
Qed.

Lemma segs_bytes_length segs : Forall SegOk segs -> (length segs <= length (segs_bytes segs))%nat.
Proof.
  unfold segs_bytes. induction 1 as [|s segs Hs _ IH]; [done|]. cbn [fmap list_fmap concat length]. rewrite length_app.
  destruct (gk_last _ Hs) as (i & c & -> & _). rewrite length_app. cbn [length]. lia.
Qed.

Section Loop.
Context (sps : SpsInfo) (wpp : bool) (w_mincb first_addr slice_qp : Z).
Context (Hsps : SpsOk sps) (Hmin : sps.(log2_min_cb) < 32)
        (Hw : w_mincb = Z.shiftr (sps.(pic_width) + 2 ^ sps.(log2_min_cb) - 1) sps.(log2_min_cb)).
Let env (addr : Z) : EmitEnv := MkEmitEnv sps w_mincb first_addr addr.
Let per : Z := 2 * 4 ^ sps.(log2_ctb) + 2.

(** The whole picture stays far below the width of the bit counters. *)
Lemma budget_small : sps.(pic_size_ctbs) * per <= 140000000 /\ 0 <= per.
Proof.
  destruct (sps_ok_geometry _ Hsps) as (Hwc & Hhc & Ew & Eh & -> & _). destruct Hsps as [Hpw Hph Hc _ _ _ _ _].
  unfold per. change 4 with (2 ^ 2). rewrite <- Z.pow_mul_r, Z.mul_comm by lia.
  replace (2 * log2_ctb sps) with (log2_ctb sps + log2_ctb sps) by lia. rewrite Z.pow_add_r by lia.
  assert (Hp : 16 <= 2 ^ log2_ctb sps <= 64) by (assert (log2_ctb sps = 4 \/ log2_ctb sps = 5 \/ log2_ctb sps = 6) as [-> | [-> | ->]] by lia; lia).
  set (p := 2 ^ log2_ctb sps) in *.
  assert (pic_width_ctbs sps * p <= 8255).
  { rewrite Ew. pose proof (Z.mul_div_le (pic_width sps + p - 1) p ltac:(lia)). lia. }
  assert (pic_height_ctbs sps * p <= 8255).
  { rewrite Eh. pose proof (Z.mul_div_le (pic_height sps + p - 1) p ltac:(lia)). lia. }
  split; [|nia].
  assert ((pic_width_ctbs sps * p) * (pic_height_ctbs sps * p) <= 8255 * 8255) by (apply Z.mul_le_mono_nonneg; nia).
  nia.
Qed.

Lemma env_ok addr : EnvOk (env addr).
Proof. by split. Qed.
(** ** The units of the CTUs done *)
Local Abbreviation PW := sps.(pic_width).
Local Abbreviation PH := sps.(pic_height).
Local Abbreviation width := sps.(pic_width_ctbs).
Local Abbreviation size := (2 ^ sps.(log2_ctb)).
(** The CTU of a location. *)
Definition ctb_of (x y : Z) : Z := y / size * width + x / size.

Lemma size_bounds : 16 <= size <= 64.
Proof. pose proof (so_ctb _ Hsps). assert (log2_ctb sps = 4 \/ log2_ctb sps = 5 \/ log2_ctb sps = 6) as [-> | [-> | ->]] by lia; lia. Qed.
Lemma columns x : 0 <= x < PW -> 0 <= x / size < width.
Proof.
  pose proof size_bounds. destruct (sps_ok_geometry _ Hsps) as (_ & _ & Ew & _). intros Hx. split; [apply Z.div_pos; lia|].
  rewrite Ew. apply Z.div_lt_upper_bound; [lia|]. pose proof (Z.div_mod (PW + size - 1) size ltac:(lia)).
  pose proof (Z.mod_pos_bound (PW + size - 1) size ltac:(lia)). lia.
Qed.
Lemma rows y : 0 <= y < PH -> 0 <= y / size < sps.(pic_height_ctbs).
Proof.
  pose proof size_bounds. destruct (sps_ok_geometry _ Hsps) as (_ & _ & _ & Eh & _). intros Hy. split; [apply Z.div_pos; lia|].
  rewrite Eh. apply Z.div_lt_upper_bound; [lia|]. pose proof (Z.div_mod (PH + size - 1) size ltac:(lia)).
  pose proof (Z.mod_pos_bound (PH + size - 1) size ltac:(lia)). lia.
Qed.
Lemma nb_avail_iff addr x y : nb_avail (env addr) x y = true <->
  0 <= x < PW /\ 0 <= y < PH /\ first_addr <= ctb_of x y <= addr.
Proof.
  destruct (sps_ok_geometry _ Hsps) as (Hwc & Hhc & _). unfold nb_avail. cbn [ee_sps env ee_first_ctb ee_cur_ctb].
  destruct (_ || _ || _ || _) eqn:E; rewrite !Z.geb_leb in E.
  - split; [done|]. rewrite !orb_true_iff, !Z.ltb_lt, !Z.leb_le in E. lia.
  - rewrite !orb_false_iff, !Z.ltb_ge, !Z.leb_gt in E. pose proof (so_ctb _ Hsps).
    pose proof (columns x ltac:(lia)) as Hc. pose proof (rows y ltac:(lia)) as Hr. rewrite !Z.shiftr_div_pow2 by lia.
    assert (0 <= y / size * width <= 262144) by nia.
    rewrite (to_u32_id (y / size * width)) by ints. rewrite to_u32_id by ints. fold (ctb_of x y).
    rewrite andb_true_iff, Z.geb_leb, !Z.leb_le. lia.
Qed.
Lemma ctb_square addr x y : 0 <= addr -> 0 <= x < PW -> 0 <= y < PH ->
  ctb_of x y = addr <-> square sps.(log2_ctb) (addr mod width * size) (addr / width * size) x y.
Proof.
  intros Ha Hx Hy. pose proof size_bounds as Hs. pose proof (columns x Hx) as Hc. unfold ctb_of, square.
  pose proof (Z.div_mod x size ltac:(lia)). pose proof (Z.mod_pos_bound x size ltac:(lia)).
  pose proof (Z.div_mod y size ltac:(lia)). pose proof (Z.mod_pos_bound y size ltac:(lia)).
  set (qx := x / size) in *. set (qy := y / size) in *. split.
  - intros <-. rewrite Z.add_comm, Z.mod_add, Z.div_add, Z.mod_small, (Z.div_small qx) by lia. split; nia.
  - intros [Sx Sy]. assert (qx = addr mod width) as -> by nia. assert (qy = addr / width) as -> by nia.
    pose proof (Z.div_mod addr width ltac:(lia)). lia.
Qed.

(** The units of the first [n] CTUs from [first_addr] on. *)
Record Tiled (n : Z) (cus : list Cu) (depth : list Z) : Prop := {
  tl_grid : grid_ok (env 0) depth;
  tl_depth : forall u x y, u ∈ cus -> in_cu u x y = true -> depth !! cell (env 0) x y = Some u.(cu_depth);
  tl_skip : forall u, u ∈ cus -> u.(cu_skip_flag) = 1;
  tl_once : forall i j u v x y, cus !! i = Some u -> cus !! j = Some v -> in_cu u x y = true -> in_cu v x y = true -> i = j;
  tl_cover : forall x y, covered cus x y <-> 0 <= x < PW /\ 0 <= y < PH /\ first_addr <= ctb_of x y < first_addr + n
}.

Lemma ctu_units n cus depth addr new depth' :
  conforming sps -> 0 <= first_addr -> 0 <= n -> addr = first_addr + n -> addr < sps.(pic_size_ctbs) -> Tiled n cus depth ->
  cu_ops (env addr) depth (addr mod width * size) (addr / width * size) (Z.to_nat sps.(log2_ctb)) 0 = Some (new, depth') ->
  exists cus', Tiled (n + 1) cus' depth' /\ forall e c e' c', decodes new e c e' c' ->
    coding_quadtree sps (Z.to_nat sps.(log2_ctb)) (addr mod width * size) (addr / width * size) 0 (MkSliceDec e c cus) =
      Some (MkSliceDec e' c' cus').
Proof.
  intros Hconf Hf Hn Ha Hsz HT E. pose proof HT as [Hg Hdep Hskip Honce Hcov]. pose proof (so_ctb _ Hsps) as Hc.
  destruct (sps_ok_geometry _ Hsps) as (Hwc & Hhc & Ew & Eh & Esz & _). pose proof size_bounds as Hs.
  pose proof (Z.mod_pos_bound addr width ltac:(lia)) as Hm. pose proof (Z.div_pos addr width ltac:(lia) ltac:(lia)) as Hd.
  assert (Hdh : addr / width < pic_height_ctbs sps) by (apply Z.div_lt_upper_bound; lia).
  assert (Hcov' : forall x y, nb_avail (env addr) x y = true -> ctb_of x y <> addr -> covered cus x y).
  { intros x y H%nb_avail_iff Hne. apply Hcov. lia. }
  assert (HU : Units (env addr) cus depth).
  { split; [exact Hg|exact Hdep|exact Hskip| |exact Honce]. intros x y H%Hcov. apply nb_avail_iff. lia. }
  assert (HN : Node (env addr) cus (Z.of_nat (Z.to_nat (log2_ctb sps))) (addr mod width * size) (addr / width * size)).
  { rewrite Z2Nat.id by lia. split; cbn [ee_sps env].
    - assert (width * size <= PW + 63).
      { rewrite Ew. pose proof (Z.div_mod (PW + size - 1) size ltac:(lia)). pose proof (Z.mod_pos_bound (PW + size - 1) size ltac:(lia)). lia. }
      assert (pic_height_ctbs sps * size <= PH + 63).
      { rewrite Eh. pose proof (Z.div_mod (PH + size - 1) size ltac:(lia)). pose proof (Z.mod_pos_bound (PH + size - 1) size ltac:(lia)). lia. }
      pose proof (so_width _ Hsps). pose proof (so_height _ Hsps). rewrite !Z.mod_mul by lia. split_and!; try done; nia.
    - destruct Hconf. lia.
    - intros x y Hsq Hc'%Hcov. apply ctb_square in Hsq; lia.
    - intros x y Hsq Hx Hy. assert (0 <= x /\ 0 <= y) by (destruct Hsq; nia). apply nb_avail_iff.
      apply ctb_square in Hsq; lia.
    - intros y Hy Hav. apply Hcov'; [done|]. apply nb_avail_iff in Hav. intros [Hsq _]%ctb_square; lia.
    - intros x Hx Hav. apply Hcov'; [done|]. apply nb_avail_iff in Hav. intros [_ Hsq]%ctb_square; lia. }
  destruct (cu_units (env addr) (env_ok addr) Hconf _ cus depth _ _ 0 new depth' HU HN ltac:(lia) E)
    as (cus' & Eq & [Hg' Hdep' Hskip' _ Honce'] & HC).
  exists cus'. split; [|exact Eq]. split; try done. intros x y. rewrite HC, Hcov. cbn [ee_sps env]. rewrite Z2Nat.id by lia.
  split.
  - intros [H|(Hsq & Hx & Hy)]; [lia|]. assert (0 <= x /\ 0 <= y) by (destruct Hsq; nia). apply ctb_square in Hsq; lia.
  - intros (Hx & Hy & Hb). destruct (decide (ctb_of x y = addr)) as [He|He]; [right|left; lia].
    apply ctb_square in He; [|lia..]. split_and!; try lia. exact He.
Qed.

(** ** The decoder up to a CTU *)
Local Abbreviation decoder := (slice_data sps wpp slice_qp).
(** What the decoder has done when the encoder is at [ps]: [n] CTUs, the closed
    substreams, and of the open one the trace [ops]. *)
Record DInv (n : Z) (segs : list Seg) (cs0 : CtxSet) (ops : list Op) (ps : PayloadState) (cus : list Cu) : Prop := {
  dv_tiled : Tiled n cus ps.(ps_emit).(es_depth);
  dv_saved : wpp = true -> forall a, first_addr <= a < first_addr + n -> a mod width = 1 -> is_Some ps.(ps_snapshot);
  dv_run : forall X e', Forall bit X -> (length X mod 8 = 0)%nat -> decodes ops (dec_init X) cs0 e' ps.(ps_emit).(es_ctxs) ->
    forall fuel, decoder (Z.to_nat n + fuel) first_addr None (MkSliceDec (dec_init (bits_of (segs_bytes segs) ++ X)) (std_contexts slice_qp) []) =
      decoder fuel (first_addr + n) ps.(ps_snapshot) (MkSliceDec e' ps.(ps_emit).(es_ctxs) cus)
}.
(** What it has done at the end. *)
Definition DDone (n : Z) (segs : list Seg) (cus : list Cu) : Prop :=
  (exists depth, Tiled n cus depth) /\
  forall fuel, decoder (Z.to_nat n + fuel) first_addr None (MkSliceDec (dec_init (bits_of (segs_bytes segs))) (std_contexts slice_qp) []) =
    Some (cus, first_addr + n).

Lemma to_byte_padding pad X : (pad < 8)%nat -> (length X mod 8 = 0)%nat -> to_byte (replicate pad 0 ++ X) = Some X.
Proof.
  intros Hp HX. unfold to_byte. rewrite length_app, length_replicate.
  assert (E : ((pad + length X) mod 8 = pad)%nat).
  { pose proof (Nat.div_mod_eq (length X) 8) as Ed. rewrite HX, Nat.add_0_r in Ed. rewrite Ed, Nat.mul_comm, Nat.Div0.mod_add.
    by apply Nat.mod_small. }
  rewrite E. assert (Ht : take pad (replicate pad 0 ++ X) = replicate pad 0) by (by rewrite take_app_length' by (by rewrite length_replicate)).
  assert (Hd : drop pad (replicate pad 0 ++ X) = X) by (by rewrite drop_app_length' by (by rewrite length_replicate)).
  by rewrite Ht, Hd, bool_decide_eq_true_2.
Qed.
Lemma bits_multiple bytes : (length (bits_of bytes) mod 8 = 0)%nat.
Proof. rewrite bits_of_length, Nat.mul_comm. apply Nat.Div0.mod_mul. Qed.

(** A substream closed after the trace [ops]. *)
Lemma seg_end cs ops bits bytes X : SegOk (MkSeg cs ops bits bytes) -> Forall bit X -> (length X mod 8 = 0)%nat ->
  exists e c e2, decodes ops (dec_init (bits_of bytes ++ X)) cs e c /\ decode_terminate e = Some (true, e2) /\
    to_byte e2.(cd_rest) = Some X.
Proof.
  intros Hs HX Hl. destruct (gk_decodes _ Hs) as (pad & Hpad & Hd). destruct (Hd X HX) as (d' & c' & Ed & Hr).
  cbn [sg_ops sg_bytes sg_ctxs] in *. apply decode_reqs_split in Ed as (e & c & D & E). exists e, c, d'.
  split; [done|]. cbn [decode_reqs decode_req] in E. destruct (decode_terminate e) as [[[] e2]|]; [|done..].
  cbn in E. injection E as <- _. split; [done|]. rewrite Hr. by apply to_byte_padding.
Qed.

(** One CTU of the decoder on the trace [new] of the encoder. *)
Lemma ctu_run n segs cs0 ops ps cus addr new e0 e1 cs1 cus' X e2 c2 :
  addr = first_addr + n -> DInv n segs cs0 ops ps cus -> ctxs_ok cs0 -> Forall op_ok (ops ++ new) ->
  encode_ops ops (cabac_reset (segs_bits segs), cs0) = Some (e0, ps.(ps_emit).(es_ctxs)) ->
  encode_ops (ops ++ new) (cabac_reset (segs_bits segs), cs0) = Some (e1, cs1) ->
  (forall e c e' c', decodes new e c e' c' ->
    coding_quadtree sps (Z.to_nat sps.(log2_ctb)) (addr mod width * size) (addr / width * size) 0 (MkSliceDec e c cus) =
      Some (MkSliceDec e' c' cus')) ->
  Forall bit X -> (length X mod 8 = 0)%nat -> decodes (ops ++ new) (dec_init X) cs0 e2 c2 ->
  c2 = cs1 /\ exists e, coding_quadtree sps (Z.to_nat sps.(log2_ctb)) (addr mod width * size) (addr / width * size) 0
      (MkSliceDec e ps.(ps_emit).(es_ctxs) cus) = Some (MkSliceDec e2 cs1 cus') /\
    forall fuel, decoder (Z.to_nat n + fuel) first_addr None (MkSliceDec (dec_init (bits_of (segs_bytes segs) ++ X)) (std_contexts slice_qp) []) =
      decoder fuel addr ps.(ps_snapshot) (MkSliceDec e ps.(ps_emit).(es_ctxs) cus).
Proof.
  intros -> HD Hcs Hok E0 E1 Hq HX Hl D. assert (c2 = cs1) as -> by (by eapply decodes_ctxs). split; [done|].
  apply decodes_app in D as (e & c & D1 & D2). apply Forall_app in Hok as [Hok _].
  assert (c = es_ctxs (ps_emit ps)) as -> by (by eapply decodes_ctxs). exists e. split; [by apply Hq|].
  by apply (dv_run _ _ _ _ _ _ HD).
Qed.

(** The next row's contexts are those the encoder takes. *)
Lemma row_contexts n cus depth addr snapshot :
  0 <= first_addr -> addr = first_addr + n -> addr < sps.(pic_size_ctbs) -> Tiled (n + 1) cus depth -> (addr + 1) mod width = 0 ->
  (forall a, first_addr <= a < first_addr + (n + 1) -> a mod width = 1 -> is_Some snapshot) -> 0 <= n ->
  match cu_at cus size ((addr + 1) / width * size - size) with Some _ => snapshot | None => Some (std_contexts slice_qp) end =
  Some (match snapshot with
        | Some s => if (width >=? 2) && (to_u32 (addr + 2 - width) >=? first_addr) then s else fresh_contexts slice_qp
        | None => fresh_contexts slice_qp
        end).
Proof.
  intros Hf Ha Hsz HT Hrow Hsn Hn. destruct (sps_ok_geometry _ Hsps) as (Hwc & Hhc & Ew & Eh & Esz & _). pose proof size_bounds as Hs.
  rewrite <- fresh_contexts_std. set (q := (addr + 1) / width). assert (Hq : addr + 1 = width * q) by (unfold q; pose proof (Z.div_mod (addr + 1) width ltac:(lia)); lia).
  assert (Hq1 : 1 <= q <= pic_height_ctbs sps) by nia.
  assert (Hc : covered cus size (q * size - size) <-> 2 <= width /\ first_addr <= addr + 2 - width).
  { rewrite (tl_cover _ _ _ HT). unfold ctb_of. rewrite Z.div_same by lia. replace (q * size - size) with ((q - 1) * size) by lia.
    rewrite Z.div_mul by lia.
    assert (HW : size < PW <-> 2 <= width).
    { rewrite Ew. split; intros HW; [apply Z.div_le_lower_bound; lia|].
      pose proof (Z.mul_div_le (PW + size - 1) size ltac:(lia)). nia. }
    assert (HH : (q - 1) * size < PH).
    { rewrite Eh in Hq1. pose proof (Z.mul_div_le (PH + size - 1) size ltac:(lia)). nia. }
    nia. }
  assert (Hu : 2 <= width -> to_u32 (addr + 2 - width) = addr + 2 - width).
  { intros. apply to_u32_id. assert (pic_size_ctbs sps <= 262144) by nia. assert (width <= addr + 1) by nia. ints. }
  destruct (cu_at cus size (q * size - size)) as [u|] eqn:Eu.
  - assert (H : covered cus size (q * size - size)) by (apply cu_at_some in Eu; by exists u). apply Hc in H as [Hw2 Hab].
    destruct (Hsn (addr + 2 - width)) as [s ->]; [lia| |].
    + replace (addr + 2 - width) with (1 + (q - 1) * width) by lia. rewrite Z.mod_add by lia. apply Z.mod_small. lia.
    + rewrite Hu by done. rewrite !Z.geb_leb, (proj2 (Z.leb_le _ _)), (proj2 (Z.leb_le _ _)) by lia. done.
  - apply cu_at_none in Eu. destruct snapshot as [s|]; [|done]. destruct (Z.geb_spec width 2) as [Hw2|]; [|done]. cbn [andb].
    rewrite Hu by done. destruct (Z.geb_spec (addr + 2 - width) first_addr); [|done]. destruct Eu. by apply Hc.
Qed.

Record PInv (n : Z) (segs : list Seg) (cs0 : CtxSet) (ops : list Op) (ps : PayloadState) : Prop := {
  pi_starts : ps.(ps_starts) = seg_starts 0 segs;
  pi_segs : Forall SegOk segs;
  pi_enc : encode_ops ops (cabac_reset (segs_bits segs), cs0) = Some (ps.(ps_emit).(es_enc), ps.(ps_emit).(es_ctxs));
  pi_cs0 : ctxs_ok cs0;
  pi_ops : Forall op_ok ops;
  pi_skip : Forall all_skip ops;
  pi_snapshot : match ps.(ps_snapshot) with Some c => ctxs_ok c | None => True end;
  pi_grid : grid_ok (env 0) ps.(ps_emit).(es_depth);
  pi_count : segs_ops segs + len ops <= n * per;
  pi_ctus : segs_ctus segs + ctus ops = n;
  pi_first : first_ctxs segs cs0 = fresh_contexts slice_qp;
  pi_one : wpp = false -> segs = [];
  pi_dec : conforming sps -> exists cus, DInv n segs cs0 ops ps cus
}.

(** The finished payload. *)
Record PDone (n : Z) (segs : list Seg) (ps : PayloadState) : Prop := {
  pd_bits : ps.(ps_emit).(es_enc).(ce_bits) = segs_bits segs;
  pd_segs : Forall SegOk segs;
  pd_starts : exists init s, segs = init ++ [s] /\ ps.(ps_starts) = seg_starts 0 init;
  pd_count : segs_ops segs <= n * per;
  pd_ctus : segs_ctus segs = n - 1;
  pd_first : forall cs, first_ctxs segs cs = fresh_contexts slice_qp;
  pd_one : wpp = false -> length segs = 1%nat;
  pd_dec : conforming sps -> exists cus, DDone n segs cus
}.

(** The position of a CTU, inside the picture. *)
Lemma ctu_position addr :
  0 <= addr < sps.(pic_size_ctbs) ->
  let cx := addr mod width * size in let cy := addr / width * size in
  to_u32 (Z.shiftl (addr mod sps.(pic_width_ctbs)) sps.(log2_ctb)) = cx /\
    to_u32 (Z.shiftl (addr / sps.(pic_width_ctbs)) sps.(log2_ctb)) = cy /\ 0 <= cx < 8192 /\ 0 <= cy < 8192.
Proof.
  intros Ha. destruct (sps_ok_geometry _ Hsps) as (Hwc & Hhc & Ew & Eh & Esz & _). destruct Hsps as [Hpw Hph Hc _ _ _ _ _].
  rewrite !Z.shiftl_mul_pow2 by lia.
  assert (Hp : 16 <= 2 ^ log2_ctb sps <= 64) by (assert (log2_ctb sps = 4 \/ log2_ctb sps = 5 \/ log2_ctb sps = 6) as [-> | [-> | ->]] by lia; lia).
  set (p := 2 ^ log2_ctb sps) in *. set (wc := pic_width_ctbs sps) in *. set (hc := pic_height_ctbs sps) in *.
  assert (Hm : forall v c z, 0 <= v < c -> c = (z + p - 1) / p -> 1 <= z <= 8192 -> 0 <= v * p < 8192).
  { intros v c z Hv -> Hz. split; [nia|].
    pose proof (Z.mul_div_le (z + p - 1) p ltac:(lia)). nia. }
  assert (H1 : 0 <= addr mod wc * p < 8192) by (apply (Hm _ wc (pic_width sps)); [apply Z.mod_pos_bound; lia|done|lia]).
  assert (H2 : 0 <= addr / wc * p < 8192).
  { apply (Hm _ hc (pic_height sps)); [|done|lia]. split; [apply Z.div_pos; lia|apply Z.div_lt_upper_bound; lia]. }
  cbv zeta. rewrite !to_u32_id by ints. split_and!; done || lia.
Qed.

Lemma pow_4_ctb : 4 ^ Z.of_nat (Z.to_nat (log2_ctb sps)) = 4 ^ log2_ctb sps.
Proof. destruct Hsps as [_ _ Hc _ _ _ _ _]. by rewrite Z2Nat.id by lia. Qed.

Lemma cu_ops_ctus k e depth x y d ops depth' : cu_ops e depth x y k d = Some (ops, depth') -> ctus ops = 0.
Proof.
  assert (HL : forall n depth x y d ops depth', leaf_ops e depth x y n d = Some (ops, depth') -> ctus ops = 0).
  { intros n dp x' y' d' ops' dp' E. unfold leaf_ops in E. destruct (n >? _).
    - destruct (split_inc _ _ _ _ _) as [inc|]; [|done]. cbn [mbind option_bind] in E.
      destruct (mark_depth _ _ _ _ _ _); [|done]. by injection E as <- _.
    - cbn [mbind option_bind] in E. destruct (mark_depth _ _ _ _ _ _); [|done]. by injection E as <- _. }
  revert depth x y d ops depth'. induction k as [|k IH]; intros depth x y d ops depth'; cbn [cu_ops];
    (destruct (_ || _); [by intros [= <- _]|]); (destruct (_ && _); [apply HL|]); [done|]. intros E.
  destruct (cu_ops e depth x y k _) as [[a d1]|] eqn:Ea; [|done]. cbn [mbind option_bind] in E.
  destruct (cu_ops e d1 _ y k _) as [[b d2]|] eqn:Eb; [|done]. cbn [mbind option_bind] in E.
  destruct (cu_ops e d2 x _ k _) as [[c d3]|] eqn:Ec; [|done]. cbn [mbind option_bind] in E.
  destruct (cu_ops e d3 _ _ k _) as [[f d4]|] eqn:Ed; [|done]. injection E as <- _.
  rewrite !ctus_app, (IH _ _ _ _ _ _ Ea), (IH _ _ _ _ _ _ Eb), (IH _ _ _ _ _ _ Ec), (IH _ _ _ _ _ _ Ed). done.
Qed.

(** The coding units of one CTU. *)
Lemma emit_ctu_spec n segs cs0 ops ps addr cx cy :
  PInv n segs cs0 ops ps -> 0 <= n < sps.(pic_size_ctbs) -> 0 <= cx < 8192 -> 0 <= cy < 8192 ->
  exists st new, emit_cu (env addr) ps.(ps_emit) cx cy (Z.to_nat sps.(log2_ctb)) 0 = Some st /\
    encode_ops (ops ++ new) (cabac_reset (segs_bits segs), cs0) = Some (st.(es_enc), st.(es_ctxs)) /\
    Forall op_ok (ops ++ new) /\ Forall all_skip (ops ++ new) /\ grid_ok (env 0) st.(es_depth) /\
    ctxs_ok st.(es_ctxs) /\ segs_ops segs + len (ops ++ new) + 2 <= (n + 1) * per /\ ctus new = 0 /\
    cu_ops (env addr) ps.(ps_emit).(es_depth) cx cy (Z.to_nat sps.(log2_ctb)) 0 = Some (new, st.(es_depth)).
Proof.
  intros HI Hn Hx Hy. destruct HI as [Hst Hsegs Henc Hcs Hops Hskip Hsnap Hgrid Hcount _ _ _ _].
  pose proof (so_ctb _ Hsps) as Hc.
  assert (Hp : 2 ^ Z.of_nat (Z.to_nat (log2_ctb sps)) <= 64).
  { rewrite Z2Nat.id by lia. change 64 with (2 ^ 6). apply Z.pow_le_mono_r; lia. }
  destruct (cu_ops_some (env addr) (env_ok addr) (Z.to_nat (log2_ctb sps)) (es_depth (ps_emit ps)) cx cy 0)
    as (new & depth & Ecu & Hg & Hl & Hok & Hsk); [lia|done|lia..|].
  rewrite pow_4_ctb in Hl. destruct budget_small as [Hb Hper0].
  assert (Hcnt : segs_ops segs + len (ops ++ new) + 2 <= (n + 1) * per)
    by (rewrite length_app, Nat2Z.inj_add; unfold per in *; lia).
  assert (Hso : 0 <= segs_ops segs).
  { unfold segs_ops. clear. induction segs as [|s l IH]; cbn; [done|]. lia. }
  assert (Hnp : (n + 1) * per <= 140000000) by nia.
  assert (Hall : Forall op_ok (ops ++ new)) by by apply Forall_app.
  destruct (encode_ops_spec (segs_bits segs) (ops ++ new) [] 0 (cabac_reset (segs_bits segs)) cs0 (enc_inv_reset _))
    as (e' & cs' & k' & out' & Ee & Hcs' & _); [done|done|done|lia|].
  rewrite (emit_cu_ops _ _ _ _ _ _ _ _ Ecu).
  assert (Erun : run_ops (ps_emit ps) new depth = Some (MkEmitState e' cs' depth)).
  { unfold run_ops. rewrite encode_ops_app, Henc in Ee. cbn [mbind option_bind] in Ee. by rewrite Ee. }
  exists (MkEmitState e' cs' depth), new. split_and!; try done; [by apply Forall_app|by eapply cu_ops_ctus].
Qed.

Lemma encode_ops_snoc_continue ops st e cs e' :
  encode_ops ops st = Some (e, cs) -> encode_terminate e false = Some e' ->
  encode_ops (ops ++ [OpContinue]) st = Some (e', cs).
Proof.
  intros E1 E2. rewrite encode_ops_app, E1. cbn [mbind option_bind]. unfold encode_ops. cbn [foldM encode_op].
  by rewrite E2.
Qed.

(** [encode_terminate(0)] after a CTU of the trace is always defined. *)
Lemma continue_some ops segs cs0 e cs :
  encode_ops ops (cabac_reset (segs_bits segs), cs0) = Some (e, cs) -> ctxs_ok cs0 -> Forall op_ok ops ->
  8 * len ops + 16 < 4294967296 -> is_Some (encode_terminate e false).
Proof.
  intros E Hcs Hops Hl.
  destruct (encode_ops_spec (segs_bits segs) (ops ++ [OpContinue]) [] 0 (cabac_reset (segs_bits segs)) cs0 (enc_inv_reset _))
    as (e' & cs' & k' & out' & Ee & _); [done|done|apply Forall_app; split; [done|by repeat constructor]|rewrite length_app; cbn [length]; lia|].
  rewrite encode_ops_app, E in Ee. cbn [mbind option_bind] in Ee. unfold encode_ops in Ee. cbn [foldM encode_op] in Ee.
  destruct (encode_terminate e false); [eauto|done].
Qed.

(** One iteration of the loop. *)
Lemma ctu_step_spec n segs cs0 ops ps addr last :
  PInv n segs cs0 ops ps -> 0 <= n < sps.(pic_size_ctbs) -> 0 <= first_addr -> addr = first_addr + n -> addr < sps.(pic_size_ctbs) ->
  exists ps', ctu_step sps wpp w_mincb first_addr slice_qp ps addr last = Some ps' /\
    if last then exists segs', PDone (n + 1) segs' ps' else exists segs' cs1 ops', PInv (n + 1) segs' cs1 ops' ps'.
Proof.
  intros HI Hn Hf0 Ea Hlast. assert (Ha : 0 <= addr < pic_size_ctbs sps) by lia.
  pose proof HI as [Hst Hsegs Henc0 Hcs _ _ Hsnap _ _ Hctus Hfirst Hone Hdec]. pose proof (so_ctb _ Hsps) as Hc.
  destruct (sps_ok_geometry _ Hsps) as (Hwc & Hhc & _ & _ & Esz & _).
  destruct (ctu_position addr Ha) as (Ecx & Ecy & Hx & Hy). unfold ctu_step.
  replace ((pic_width_ctbs sps =? 0) || (log2_ctb sps >=? 32)) with false
    by (symmetry; apply orb_false_iff; split; [apply Z.eqb_neq|rewrite Z.geb_leb; apply Z.leb_gt]; lia).
  rewrite Ecx, Ecy. fold (env addr). destruct (emit_ctu_spec n segs cs0 ops ps addr _ _ HI Hn Hx Hy)
    as (st & new & -> & Eenc & Hops & Hskip & Hgrid & Hcs' & Hcnt & Hnew & Ecu). cbn [mbind option_bind].
  assert (Hmod : 0 <= n) by lia. assert (Hn1 : Z.to_nat (n + 1) = S (Z.to_nat n)) by lia.
  assert (Hd : conforming sps -> exists cus cus', DInv n segs cs0 ops ps cus /\ Tiled (n + 1) cus' st.(es_depth) /\
    forall e c e' c', decodes new e c e' c' ->
    coding_quadtree sps (Z.to_nat (log2_ctb sps)) (addr mod width * size) (addr / width * size) 0 (MkSliceDec e c cus) =
      Some (MkSliceDec e' c' cus')).
  { intros Hconf. destruct (Hdec Hconf) as [cus HD]. exists cus.
    destruct (ctu_units n cus _ addr new _ Hconf Hf0 Hmod Ea Hlast (dv_tiled _ _ _ _ _ _ HD) Ecu) as (cus' & HT & Hq). by exists cus'. }
  destruct budget_small as [Hb Hper0].
  assert (Hso : 0 <= segs_ops segs) by (unfold segs_ops; clear; induction segs as [|s l IH]; cbn; lia).
  assert (Hnp : (n + 1) * per <= 140000000) by nia.
  destruct (segs_pack segs Hsegs) as (_ & [m Hm] & _ & _).
  destruct last.
  - destruct (close_segment (segs_bits segs) cs0 (ops ++ new) m _ _ Hm Hcs Hops Hskip ltac:(lia) Eenc)
      as (e2 & bits & bytes & -> & Eal & Hseg). cbn [mbind option_bind]. eexists. split; [done|].
    exists (segs ++ [MkSeg cs0 (ops ++ new) bits bytes]). split; cbn [ps_emit with_enc es_enc enc_align ce_bits ps_starts].
    + unfold segs_bits. by rewrite segs_snoc, Eal.
    + by apply Forall_app; split; [|constructor].
    + eexists segs, _. by split.
    + rewrite segs_ops_snoc. cbn [sg_ops]. lia.
    + unfold segs_ctus in *. rewrite segs_snoc, ctus_app. cbn [sg_ops]. rewrite ctus_app. lia.
    + intros cs. by destruct segs.
    + intros Hwpp. by rewrite (Hone Hwpp).
    + intros Hconf. destruct (Hd Hconf) as (cus & cus' & HD & HT & Hq). exists cus'. split; [by eexists|]. intros fuel.
      destruct (seg_end cs0 (ops ++ new) bits bytes [] Hseg) as (e & c & e3 & D & Et & Eb); [done|done|].
      destruct (ctu_run n segs cs0 ops ps cus addr new (es_enc (ps_emit ps)) (es_enc st) (es_ctxs st) cus' (bits_of bytes ++ []) e c) as (-> & e0 & Eq & Erun);
        try done; [apply Forall_app; split; [apply bits_of_bit|done]|rewrite app_nil_r; apply bits_multiple|].
      unfold segs_bytes. rewrite segs_snoc, bits_of_app. fold (segs_bytes segs). rewrite app_nil_r in Erun. cbn [sg_bytes].
      rewrite Hn1. cbn [Nat.add]. rewrite <- Nat.add_succ_r, Erun. cbn [slice_data]. rewrite Eq. cbn [mbind option_bind sd_engine sd_cus].
      rewrite Et. cbn [mbind option_bind]. rewrite Eb. cbn [mbind option_bind]. rewrite bool_decide_eq_true_2 by done. do 2 f_equal. lia.
  - destruct (continue_some _ _ _ _ _ Eenc Hcs Hops ltac:(lia)) as [e1 Ee1]. rewrite Ee1. cbn [mbind option_bind].
    pose proof (encode_ops_snoc_continue _ _ _ _ _ Eenc Ee1) as Eops. set (ops' := (ops ++ new) ++ [OpContinue]) in *.
    assert (Hops' : Forall op_ok ops') by (apply Forall_app; split; [done|by repeat constructor]).
    assert (Hskip' : Forall all_skip ops') by (apply Forall_app; split; [done|by repeat constructor]).
    assert (Hlen' : len ops' = len (ops ++ new) + 1) by (unfold ops'; rewrite (length_app (ops ++ new)); cbn [length]; lia).
    set (snap := if wpp && (addr mod pic_width_ctbs sps =? 1) then _ else _).
    assert (Hsnap' : match snap with Some c => ctxs_ok c | None => True end) by (unfold snap; by destruct (wpp && _)).
    destruct (wpp && (to_u32 (addr + 1) mod pic_width_ctbs sps =? 0)) eqn:Erow.
    + unfold wpp_row_end. cbn [ps_emit with_enc es_enc].
      destruct (close_segment (segs_bits segs) cs0 ops' m _ _ Hm Hcs Hops' Hskip' ltac:(lia) Eops)
        as (e2 & bits & bytes & -> & Eal & Hseg). cbn [mbind option_bind]. eexists. split; [done|].
      set (segs' := segs ++ [MkSeg cs0 ops' bits bytes]).
      assert (Hsegs' : Forall SegOk segs') by (by apply Forall_app; split; [|constructor]).
      assert (Ebits : align_zero (ce_bits e2) = segs_bits segs') by (unfold segs_bits, segs'; by rewrite segs_snoc, Eal).
      assert (Hcnt' : segs_ops segs' <= (n + 1) * per) by (unfold segs'; rewrite segs_ops_snoc; cbn [sg_ops]; lia).
      destruct (segs_pack segs' Hsegs') as (_ & _ & Hb8 & Hsz).
      exists segs', (match snap with Some s => if (pic_width_ctbs sps >=? 2) && (to_u32 (addr + 2 - pic_width_ctbs sps) >=? first_addr)
         then s else fresh_contexts slice_qp | None => fresh_contexts slice_qp end), [].
      split; cbn [ps_starts ps_emit with_enc with_ctxs es_enc es_ctxs es_depth ps_snapshot enc_align ce_bits]; try done.
      * rewrite Hst, Ebits. unfold segs' at 2. rewrite seg_starts_snoc. fold segs'. do 2 f_equal.
        rewrite Z.add_0_l, <- Hb8, Z.mul_comm, Z.div_mul by lia. rewrite to_u32_id by ints. done.
      * rewrite Ebits. done.
      * pose proof (fresh_contexts_ok slice_qp). destruct snap; [|done]. by destruct ((pic_width_ctbs sps >=? 2) && _).
      * cbn [length]. lia.
      * unfold segs_ctus, segs' in *. rewrite segs_snoc, ctus_app. cbn [sg_ops]. unfold ops'. rewrite !ctus_app.
        change (ctus []) with 0. change (ctus [OpContinue]) with 1. lia.
      * unfold segs'. by destruct segs.
      * intros Hwpp. by rewrite Hwpp in Erow.
      * intros Hconf. destruct (Hd Hconf) as (cus & cus' & HD & HT & Hq). exists cus'.
        apply andb_true_iff in Erow as [Hwpp Erow]. apply Z.eqb_eq in Erow. rewrite to_u32_id in Erow by ints.
        assert (Hsv : forall a, first_addr <= a < first_addr + (n + 1) -> a mod width = 1 -> is_Some snap).
        { intros a Ha' Hm1. unfold snap. rewrite Hwpp. cbn [andb]. destruct (Z.eqb_spec (addr mod width) 1) as [|Hne]; [done|].
          apply (dv_saved _ _ _ _ _ _ HD Hwpp a); [|done]. destruct (decide (a = addr)) as [->|]; [done|lia]. }
        split; cbn [ps_emit with_enc with_ctxs es_enc es_ctxs es_depth ps_snapshot]; [done|by intros _|].
        intros X e' HX Hl [-> _]%decodes_nil fuel.
        destruct (seg_end cs0 ops' bits bytes X Hseg HX Hl) as (e & c & e3 & D & Et & Eb).
        apply decodes_app in D as (ea & ca & D & Dc). apply decodes_continue in Dc as [Et0 ->].
        destruct (ctu_run n segs cs0 ops ps cus addr new (es_enc (ps_emit ps)) (es_enc st) (es_ctxs st) cus' (bits_of bytes ++ X) ea ca) as (-> & e0 & Eq & Erun);
          try done; [apply Forall_app; split; [apply bits_of_bit|done]| |].
        { rewrite length_app, <- Nat.Div0.add_mod_idemp_l, bits_multiple. done. }
        unfold segs', segs_bytes. rewrite segs_snoc, bits_of_app. fold (segs_bytes segs). cbn [sg_bytes]. rewrite <- app_assoc.
        rewrite Hn1. cbn [Nat.add]. rewrite <- Nat.add_succ_r, Erun. cbn [slice_data]. rewrite Eq. cbn [mbind option_bind sd_engine sd_ctxs sd_cus].
        rewrite Et0. cbn [mbind option_bind]. rewrite Erow, Hwpp. cbn [andb Z.eqb]. rewrite Et. cbn [mbind option_bind]. rewrite Eb.
        cbn [mbind option_bind]. fold snap.
        replace (if addr mod width =? 1 then Some (es_ctxs st) else ps_snapshot ps) with snap by (unfold snap; by rewrite Hwpp).
        pose proof (row_contexts n cus' _ addr snap Hf0 Ea Hlast HT Erow Hsv Hmod) as Hrc. rewrite Hrc. cbn [mbind option_bind].
        by replace (addr + 1) with (first_addr + (n + 1)) by lia.
    + eexists. split; [done|]. exists segs, cs0, ops'.
      split; cbn [ps_starts ps_emit with_enc es_enc es_ctxs es_depth ps_snapshot]; try done; try lia.
      * unfold ops'. rewrite !ctus_app. change (ctus [OpContinue]) with 1. lia.
      * intros Hconf. destruct (Hd Hconf) as (cus & cus' & HD & HT & Hq). exists cus'.
        assert (Erow' : wpp && ((addr + 1) mod width =? 0) = false) by (rewrite to_u32_id in Erow by ints; done).
        split; cbn [ps_emit with_enc es_enc es_ctxs es_depth ps_snapshot]; [done| |].
        { intros Hwpp a Ha' Hm1. unfold snap. rewrite Hwpp. cbn [andb]. destruct (Z.eqb_spec (addr mod width) 1) as [|Hne]; [done|].
          apply (dv_saved _ _ _ _ _ _ HD Hwpp a); [|done]. destruct (decide (a = addr)) as [->|]; [done|lia]. }
        intros X e' HX Hl D fuel. apply decodes_app in D as (ea & ca & D & Dc). apply decodes_continue in Dc as [Et0 _].
        destruct (ctu_run n segs cs0 ops ps cus addr new (es_enc (ps_emit ps)) (es_enc st) (es_ctxs st) cus' X ea ca) as (-> & e0 & Eq & Erun); try done.
        rewrite Hn1. cbn [Nat.add]. rewrite <- Nat.add_succ_r, Erun. cbn [slice_data]. rewrite Eq. cbn [mbind option_bind sd_engine sd_ctxs sd_cus].
        rewrite Et0. cbn [mbind option_bind]. rewrite Erow'. fold snap. by replace (addr + 1) with (first_addr + (n + 1)) by lia.
Qed.

(** The loop from its first CTU to its last. *)
Lemma ctu_loop_spec k n segs cs0 ops ps addr :
  PInv n segs cs0 ops ps -> 0 <= n -> 0 <= first_addr -> addr = first_addr + n -> n + Z.of_nat (S k) <= sps.(pic_size_ctbs) ->
  addr + Z.of_nat (S k) <= sps.(pic_size_ctbs) ->
  exists ps' segs', ctu_loop sps wpp w_mincb first_addr slice_qp (S k) ps addr = Some ps' /\
    PDone (n + Z.of_nat (S k)) segs' ps'.
Proof.
  destruct (sps_ok_geometry _ Hsps) as (Hwc & Hhc & _ & _ & Esz & _).
  assert (Hsz : sps.(pic_size_ctbs) <= 262144) by (rewrite Esz; nia).
  revert n segs cs0 ops ps addr. induction k as [|k IH]; intros n segs cs0 ops ps addr HI Hn Hf0 Ea Hnk Hak.
  - destruct (ctu_step_spec n segs cs0 ops ps addr true HI) as (ps' & E & segs' & H); [lia..|].
    exists ps', segs'. cbn [ctu_loop Nat.eqb]. rewrite E. done.
  - destruct (ctu_step_spec n segs cs0 ops ps addr false HI) as (ps1 & E & segs1 & cs1 & ops1 & HI1); [lia..|].
    destruct (IH (n + 1) segs1 cs1 ops1 ps1 (addr + 1) HI1) as (ps' & segs' & E' & H'); [lia..|].
    exists ps', segs'. cbn [ctu_loop]. cbn [Nat.eqb]. rewrite E. cbn [mbind option_bind]. rewrite (to_u32_id (addr + 1)) by ints.
    replace (n + Z.of_nat (S (S k))) with (n + 1 + Z.of_nat (S k)) by lia. done.
Qed.
End Loop.
