(* ===== verification/ConcealProps.v ===== *)
(** * The concealment synthesis: theorems

    For parameter sets and a donor slice that parse, [make_conceal_slice] is
    defined and either refuses or emits one NAL; the header of that NAL
    parses to the span it replaces; its slice data is, for the decoder of the
    standard, one skipped CTU after the other; its entry points are the
    lengths of its substreams.  Instances on the stream of
    [tests/hevc_conceal_vector.h]. *)
From S2P Require Import Prelude Endian HevcBits HevcParse Cabac HevcConceal HevcCodes HevcDecode HevcRoundtrip HevcSegments.
(** ** The payload *)
Lemma payload_start sps first_addr slice_qp w_mincb h_mincb :
  SpsOk sps -> sps.(log2_min_cb) < 32 ->
  w_mincb = Z.shiftr (sps.(pic_width) + 2 ^ sps.(log2_min_cb) - 1) sps.(log2_min_cb) ->
  h_mincb = Z.shiftr (sps.(pic_height) + 2 ^ sps.(log2_min_cb) - 1) sps.(log2_min_cb) ->
  forall wpp, PInv sps wpp w_mincb first_addr slice_qp 0 [] (fresh_contexts slice_qp) []
    (MkPayloadState (MkEmitState (cabac_reset []) (fresh_contexts slice_qp) (replicate (Z.to_nat (w_mincb * h_mincb)) 0))
       None [0]).
Proof.
  intros Hs Hm Hw Hh wpp. split; cbn [ps_starts ps_emit es_enc es_ctxs es_depth ps_snapshot]; try done; try apply fresh_contexts_ok.
  - unfold grid_ok. cbn [ee_sps ee_w_mincb]. rewrite length_replicate, <- Hh, Z2Nat.id; [done|].
    assert (Hp : 0 <= 2 ^ log2_min_cb sps) by (apply Z.pow_nonneg; lia). pose proof (so_min_cb _ Hs). pose proof (so_width _ Hs).
    pose proof (so_height _ Hs). apply Z.mul_nonneg_nonneg; subst; apply Z.shiftr_nonneg; lia.
  - intros _. exists []. split; cbn [ps_emit es_enc es_ctxs es_depth ps_snapshot].
    + split; cbn [es_depth]; try (by intros ? ? ? ?%elem_of_nil); try (by intros ? ?%elem_of_nil); try done.
      * unfold grid_ok. cbn [ee_sps ee_w_mincb]. rewrite length_replicate, <- Hh, Z2Nat.id; [done|].
        assert (Hp : 0 <= 2 ^ log2_min_cb sps) by (apply Z.pow_nonneg; lia). pose proof (so_min_cb _ Hs). pose proof (so_width _ Hs).
        pose proof (so_height _ Hs). apply Z.mul_nonneg_nonneg; subst; apply Z.shiftr_nonneg; lia.
      * intros x y. split; [by intros (u & ?%elem_of_nil & _)|lia].
    + lia.
    + intros X e' _ _ [-> _]%decodes_nil fuel. rewrite fresh_contexts_std, Z.add_0_r. done.
Qed.

(** The length of a substream once escaped, as [entry_points] records it. *)
Definition esc_length (l : list Z) : Z := len l + esc_count l 0.
Lemma segment_lengths_cons p a b rest :
  segment_lengths p (a :: b :: rest) =
  to_u32 (b - a + esc_count (take (Z.to_nat (b - a)) (drop (Z.to_nat a) p)) 0) :: segment_lengths p (b :: rest).
Proof. done. Qed.
Lemma segment_lengths_spec init s pre :
  Forall SegOk (init ++ [s]) -> len (pre ++ segs_bytes (init ++ [s])) < 2147483648 ->
  segment_lengths (pre ++ segs_bytes (init ++ [s])) (seg_starts (len pre) init) = (fun s => esc_length s.(sg_bytes)) <$> init.
Proof.
  revert pre. induction init as [|x init IH]; intros pre Hok Hl; [done|].
  cbn [app] in *. apply Forall_cons in Hok as [Hx Hok].
  assert (E : pre ++ segs_bytes (x :: init ++ [s]) = (pre ++ sg_bytes x) ++ segs_bytes (init ++ [s]))
    by (unfold segs_bytes; cbn [fmap list_fmap concat]; by rewrite app_assoc).
  rewrite E in *. specialize (IH (pre ++ sg_bytes x) Hok Hl).
  cbn [seg_starts]. destruct (seg_starts (len pre + len (sg_bytes x)) init) as [|b rest] eqn:Er; [by destruct init|].
  assert (Hb : b = len pre + len (sg_bytes x)) by (destruct init; cbn in Er; by injection Er).
  rewrite (length_app pre), Nat2Z.inj_add, Er in IH. rewrite segment_lengths_cons, IH, fmap_cons. f_equal.
  rewrite Hb, Z.add_simpl_l, !Nat2Z.id, <- app_assoc, drop_app_length, take_app_length. unfold esc_length.
  pose proof (esc_count_bound (sg_bytes x) 0). rewrite !length_app in Hl. apply to_u32_id. ints.
Qed.

(** Every payload: the substreams it is made of, and their entry points. *)
Lemma conceal_payload_spec sps pps addr num qp :
  SpsOk sps -> sps.(log2_min_cb) < 32 -> 0 <= addr -> 1 <= num -> addr + num <= sps.(pic_size_ctbs) ->
  exists init s, let segs := init ++ [s] in
    conceal_payload sps pps addr num qp =
      Some (segs_bytes segs, if pps.(entropy_coding_sync_enabled) then (fun s => esc_length s.(sg_bytes)) <$> init else []) /\
    Forall SegOk segs /\ segs_ctus segs = num - 1 /\ (forall cs, first_ctxs segs cs = fresh_contexts qp) /\
    (pps.(entropy_coding_sync_enabled) = false -> init = []) /\ len (segs_bytes segs) <= 280000000 /\
    (conforming sps -> exists cus, DDone sps pps.(entropy_coding_sync_enabled)
       (Z.shiftr (sps.(pic_width) + 2 ^ sps.(log2_min_cb) - 1) sps.(log2_min_cb)) addr qp num segs cus).
Proof.
  intros Hs Hm Ha Hn Hle. destruct (sps_ok_geometry _ Hs) as (Hwc & Hhc & _ & _ & Esz & _).
  pose proof (so_min_cb _ Hs). pose proof (so_width _ Hs). pose proof (so_height _ Hs).
  assert (Hp : 1 <= 2 ^ log2_min_cb sps <= 2147483648).
  { split; [pose proof (Z.pow_pos_nonneg 2 (log2_min_cb sps)); lia|].
    change 2147483648 with (2 ^ 31). apply Z.pow_le_mono_r; lia. }
  unfold conceal_payload, shl1. destruct (Z.leb_spec 0 (log2_min_cb sps)); [|lia].
  destruct (Z.ltb_spec (log2_min_cb sps) 32); [|lia]. cbn [andb mbind option_bind].
  rewrite Z.shiftl_mul_pow2, Z.mul_1_l by lia. rewrite !(to_u32_id (_ + _ - 1)) by ints.
  set (w := Z.shiftr (pic_width sps + _ - 1) _). set (h := Z.shiftr (pic_height sps + _ - 1) _).
  set (wpp := entropy_coding_sync_enabled pps).
  replace (Z.to_nat num) with (S (Z.to_nat (num - 1))) by lia.
  destruct (ctu_loop_spec sps wpp w addr qp Hs Hm eq_refl (Z.to_nat (num - 1)) 0 [] _ [] _ addr
              (payload_start sps addr qp w h Hs Hm eq_refl eq_refl wpp)) as (ps' & segs & -> & Hd); [lia..|].
  cbn [mbind option_bind]. destruct Hd as [Hbits Hsegs Hstarts Hcnt Hctus Hfirst Hone Hdec].
  destruct Hstarts as (init & s & -> & Hst). destruct (segs_pack _ Hsegs) as (Ep & _ & Hb8 & Hsz).
  destruct (budget_small sps Hs) as [Hbud Hper0].
  rewrite Hbits, Ep, Hst. cbn [mbind option_bind]. exists init, s. cbv zeta.
  assert (Hlen : len (segs_bytes (init ++ [s])) <= 280000000) by nia.
  split_and!; try done; [|lia| |].
  - destruct wpp; [|done]. pose proof (segment_lengths_spec init s [] Hsegs) as HS. change (len []) with 0 in HS. cbn [app] in HS.
    rewrite HS by lia. done.
  - intros Hf. apply Hone in Hf. rewrite length_app in Hf. destruct init; [done|cbn in Hf; lia].
  - intros Hconf. destruct (Hdec Hconf) as [cus HD]. exists cus. by replace (0 + Z.of_nat (S (Z.to_nat (num - 1)))) with num in HD by lia.
Qed.

(** ** The header is always writable *)
Lemma w_all_some ls : Forall is_Some ls -> is_Some (w_all ls).
Proof.
  unfold w_all. generalize ([] : list Z) as acc. induction ls as [|l ls IH]; intros acc H; cbn [foldM]; [done|].
  apply Forall_cons in H as [[x ->] H]. cbn [mbind option_bind]. by apply IH.
Qed.
Lemma w_when_some b l : is_Some l -> is_Some (w_when b l).
Proof. by destruct b. Qed.
Lemma w_ue_some v : 0 <= v < 4294967295 -> is_Some (w_ue v).
Proof. intros H. rewrite w_ue_bits by done. eauto. Qed.
Lemma w_u_is_some v n : n <= 32 -> is_Some (w_u v n).
Proof. intros H. rewrite w_u_some by done. eauto. Qed.
Lemma w_se_some v : -1073741824 < v < 1073741824 -> is_Some (w_se v).
Proof.
  intros H. unfold w_se. rewrite Z.gtb_ltb. destruct (Z.ltb_spec 0 v).
  - rewrite i32_of_fits by lia. cbn [mbind option_bind]. rewrite i32_of_fits by lia. apply w_ue_some. rewrite to_u32_id; ints.
  - rewrite i32_of_fits by lia. cbn [mbind option_bind]. apply w_ue_some. rewrite to_u32_id; ints.
Qed.
Create HintDb writer.
#[local] Hint Resolve w_all_some w_when_some Forall_nil_2 : writer.
#[local] Hint Extern 1 (is_Some (w_u _ _)) => (apply w_u_is_some; lia) : writer.
#[local] Hint Extern 1 (is_Some (w_ue _)) => (apply w_ue_some; lia) : writer.
#[local] Hint Extern 1 (is_Some (w_se _)) => (apply w_se_some; lia) : writer.
#[local] Hint Extern 2 (Forall is_Some (_ :: _)) => (apply Forall_cons; split) : writer.

Lemma fold_max_bound l acc m : acc <= m -> Forall (fun x => x <= m) l -> fold_left Z.max l acc <= m.
Proof. revert acc. induction l as [|x l IH]; intros acc Ha H; [done|]. apply Forall_cons in H as [Hx H]. apply IH; [lia|done]. Qed.
Lemma w_entry_points_some eps : Forall (fun x => 1 <= x <= 1073741824) eps -> is_Some (w_entry_points eps).
Proof.
  intros H. unfold w_entry_points. case_bool_decide; [eauto|]. unfold offset_len.
  destruct (bits_loop_some 30 1 (fold_left Z.max eps 1)) as (n & -> & Hn & _); [lia| |].
  { apply fold_max_bound; [lia|]. eapply Forall_impl; [exact H|]. cbn. lia. }
  cbn [mbind option_bind]. destruct (w_ue_some (n - 1)) as [a ->]; [lia|]. cbn [mbind option_bind].
  destruct (w_all_some ((fun ep => w_u (to_u32 (ep - 1)) n) <$> eps)) as [b ->]; [|cbn; eauto].
  apply Forall_fmap, Forall_forall. intros x _. apply w_u_is_some. lia.
Qed.

Section Header.
Context (sps : SpsInfo) (pps : PpsInfo) (d : SliceInfo).
Context (Hs : SpsOk sps) (Hp : PpsOk pps) (Hd : DonorOk sps pps d).

Lemma w_tail_some eps :
  Forall (fun x => 1 <= x <= 1073741824) eps -> len eps < 4294967295 -> is_Some (w_tail pps eps).
Proof.
  intros He Hl. unfold w_tail. pose proof (w_entry_points_some eps He).
  assert (is_Some (w_ue (to_u32 (len eps)))) by (apply w_ue_some; rewrite to_u32_id; ints). auto 12 with writer.
Qed.
Lemma w_address_some addr first : is_Some (w_address sps pps d addr first).
Proof.
  destruct (sps_ok_geometry _ Hs) as (_ & _ & _ & _ & _ & Hv & _). pose proof (po_id _ Hp). pose proof (do_pps _ _ _ Hd).
  assert (is_Some (w_all (replicate (Z.to_nat (num_extra_slice_header_bits pps)) (w_u 0 1))))
    by (apply w_all_some, Forall_replicate; eauto). unfold w_address. auto 20 with writer.
Qed.
Lemma w_picture_some o : is_Some (w_picture sps d o).
Proof.
  pose proof (so_poc _ Hs). destruct (do_span _ _ _ Hd) as [H1 H2]. pose proof (do_rbsp _ _ _ Hd). unfold w_picture, conceal_poc, shl1.
  assert (is_Some (w_copy_bits (header_rbsp d) (strps_bit_begin d) (strps_bit_end d))) by (apply w_copy_bits_some; lia).
  destruct (Z.leb_spec 0 (log2_max_poc_lsb sps)); [|lia]. destruct (Z.ltb_spec (log2_max_poc_lsb sps) 32); [|lia].
  cbn [andb mbind option_bind]. destruct (o >=? 0); cbn [mbind option_bind]; auto 20 with writer.
Qed.
Lemma w_inter_some : -1073741824 < d.(qp_delta) < 1073741824 -> is_Some (w_inter pps d).
Proof.
  intros Hq. pose proof (do_l0 _ _ _ Hd). pose proof (do_coll _ _ _ Hd).
  assert (Hl0 : 1 <= conceal_num_ref_l0 d <= 16) by (unfold conceal_num_ref_l0; destruct (temporal_mvp d); lia).
  unfold w_inter. assert (is_Some (w_ue (to_u32 (conceal_num_ref_l0 d - 1)))) by (apply w_ue_some; rewrite to_u32_id; ints).
  destruct (negb _); auto 20 with writer.
Qed.
End Header.

(** Every bit the writer pushes is a bit. *)
Definition wbits (l : option (list Z)) : Prop := forall w, l = Some w -> Forall bit w.
Lemma wbits_all ls : Forall wbits ls -> wbits (w_all ls).
Proof.
  intros H w E. revert w E. induction H as [|l ls Hl _ IH]; intros w E; [by apply w_all_nil in E as ->|].
  apply w_all_cons in E as (a & b & -> & E & ->). apply Forall_app. split; [by apply Hl|by apply IH].
Qed.
Lemma wbits_u v n : wbits (w_u v n).
Proof. intros w E. apply w_u_nbits in E as ->. apply nbits_bit. Qed.
Lemma wbits_ue v : wbits (w_ue v).
Proof.
  intros w. unfold w_ue. destruct (ue_len _ _ _) as [n|]; [|done]. cbn [mbind option_bind].
  destruct (w_u 0 n) as [a|] eqn:Ea; [|done]. cbn [mbind option_bind].
  destruct (w_u _ (n + 1)) as [b|] eqn:Eb; [|done]. intros [= <-]. apply Forall_app. by split; eapply wbits_u.
Qed.
Lemma wbits_se v : wbits (w_se v).
Proof.
  intros w. unfold w_se. destruct (v >? 0).
  - destruct (i32_of (2 * v)); [|done]. cbn [mbind option_bind]. destruct (i32_of _); [|done]. apply wbits_ue.
  - destruct (i32_of (-2 * v)); [|done]. apply wbits_ue.
Qed.
Lemma wbits_nil : wbits (Some []).
Proof. by intros w [= <-]. Qed.
Lemma wbits_when b l : wbits l -> wbits (w_when b l).
Proof. destruct b; [done|intros _; apply wbits_nil]. Qed.
Lemma wbits_if (b : bool) l1 l2 : wbits l1 -> wbits l2 -> wbits (if b then l1 else l2).
Proof. by destruct b. Qed.
Lemma wbits_copy rbsp b e : wbits (w_copy_bits rbsp b e).
Proof.
  unfold w_copy_bits. generalize (Z.to_nat (e - b)) as n. intros n. revert b. induction n as [|n IH]; intros b w E; cbn [w_copy_loop] in E.
  - by injection E as <-.
  - destruct (rd8 _ _); [|done]. cbn [mbind option_bind] in E. destruct (w_copy_loop _ _ _) eqn:Ec; [|done]. injection E as <-.
    apply Forall_cons. split; [apply land_1_bit|by eapply IH].
Qed.
#[local] Hint Resolve wbits_all wbits_u wbits_ue wbits_se wbits_nil wbits_when wbits_if wbits_copy : writer.
#[local] Hint Extern 2 (Forall wbits (_ :: _)) => (apply Forall_cons; split) : writer.

Lemma wbits_bind {A} (o : option A) f : (forall a, wbits (f a)) -> wbits (o ≫= f).
Proof. intros H w E. destruct o as [a|]; [|done]. by apply (H a). Qed.
Lemma wbits_app l1 l2 : wbits l1 -> wbits l2 -> wbits (a ← l1; b ← l2; Some (a ++ b)).
Proof.
  intros H1 H2 w E. destruct l1 as [a|]; [|done]. destruct l2 as [b|]; [|done]. injection E as <-.
  apply Forall_app. split; [by apply H1|by apply H2].
Qed.
Lemma header_words_bits sps pps d addr first o eps :
  wbits (w_all [w_address sps pps d addr first; w_picture sps d o; w_inter pps d; w_tail pps eps]).
Proof.
  assert (wbits (w_address sps pps d addr first)).
  { unfold w_address. assert (Forall wbits (replicate (Z.to_nat (num_extra_slice_header_bits pps)) (w_u 0 1)))
      by (apply Forall_replicate; auto with writer). auto 20 with writer. }
  assert (wbits (w_picture sps d o)) by (apply wbits_bind; auto 20 with writer).
  assert (wbits (w_inter pps d)) by (unfold w_inter; auto 20 with writer).
  assert (wbits (w_entry_points eps)).
  { unfold w_entry_points. case_bool_decide; [auto with writer|]. apply wbits_bind. intros n.
    apply wbits_app; [auto with writer|]. apply wbits_all, Forall_fmap, Forall_forall. intros; apply wbits_u. }
  assert (wbits (w_tail pps eps)) by (unfold w_tail; auto 20 with writer). auto 20 with writer.
Qed.

(** The header's bytes: the words in order, then the stop bit and zeros. *)
Lemma header_bytes sps pps d addr first o eps bits :
  write_conceal_header sps pps d addr first o eps = Some bits ->
  exists wa wp wi wt pad header, w_address sps pps d addr first = Some wa /\ w_picture sps d o = Some wp /\
    w_inter pps d = Some wi /\ w_tail pps eps = Some wt /\ (pad < 8)%nat /\
    pack_bits bits = Some header /\ bits_of header = wa ++ wp ++ wi ++ wt ++ [1] ++ replicate pad 0.
Proof.
  intros E. unfold write_conceal_header in E.
  destruct (w_all _) as [w|] eqn:Ew; [|done]. injection E as <-.
  pose proof (header_words_bits _ _ _ _ _ _ _ _ Ew) as Hw.
  apply w_all_cons in Ew as (wa & ? & Ea & Ew & ->). apply w_all_cons in Ew as (wp & ? & Ep & Ew & ->).
  apply w_all_cons in Ew as (wi & ? & Ei & Ew & ->). apply w_all_cons in Ew as (wt & ? & Et & Ew & ->).
  apply w_all_nil in Ew as ->. rewrite app_nil_r in *. unfold align_header.
  set (w := wa ++ wp ++ wi ++ wt) in *.
  assert (Hb : Forall bit (align_zero (w ++ [1]))).
  { apply align_zero_bit, Forall_app. split; [done|]. apply Forall_singleton. by right. }
  destruct (pack_bits_spec _ Hb (align_zero_len _)) as (header & Eh & Ebits & _).
  exists wa, wp, wi, wt, (Z.to_nat ((- len (w ++ [1])) mod 8)), header.
  split_and!; try done; [pose proof (Z.mod_pos_bound (- len (w ++ [1])) 8 ltac:(lia)); lia|].
  rewrite Ebits. unfold align_zero, w. by rewrite <- !app_assoc.
Qed.

(** ** The slice *)
Lemma refused_inv sps pps d addr num o :
  conceal_refused sps pps d addr num o = false ->
  d.(has_poc) = true /\ nal_is_irap d.(nal_unit_type) = false /\ num <> 0 /\ to_u32 (addr + num) <= sps.(pic_size_ctbs).
Proof.
  unfold conceal_refused. intros E. repeat apply orb_false_iff in E as [E ?]. bool_hyps. by split_and!.
Qed.

Lemma esc_length_bound segs s :
  Forall SegOk segs -> len (segs_bytes segs) <= 280000000 -> s ∈ segs -> 1 <= esc_length s.(sg_bytes) <= 1073741824.
Proof.
  intros Hok Hl Hs. rewrite Forall_forall in Hok. destruct (gk_last _ (Hok s Hs)) as (i & c & E & _).
  assert (Hle : len (sg_bytes s) <= len (segs_bytes segs)).
  { unfold segs_bytes. apply list_elem_of_split in Hs as (a & b & ->). rewrite fmap_app, concat_app. cbn [fmap list_fmap concat].
    rewrite !length_app. lia. }
  unfold esc_length. pose proof (esc_count_bound (sg_bytes s) 0).
  assert (1 <= len (sg_bytes s)) by (rewrite E, length_app; cbn [length]; lia). lia.
Qed.

(** Escaping the substreams together is escaping each. *)
Lemma escape_segs segs : Forall SegOk segs -> escape_loop (segs_bytes segs) 0 = concat ((fun s => escape_loop s.(sg_bytes) 0) <$> segs).
Proof.
  unfold segs_bytes. induction 1 as [|s segs Hs _ IH]; [done|]. cbn [fmap list_fmap concat]. rewrite escape_loop_app.
  destruct (gk_last _ Hs) as (i & c & E & Hc). rewrite E at 2. by rewrite run_zeros_end, IH.
Qed.
Lemma sps_size_bound sps : SpsOk sps -> 1 <= sps.(pic_size_ctbs) <= 262144.
Proof.
  intros Hs. destruct (sps_ok_geometry _ Hs) as (H1 & H2 & _ & _ & -> & _). split; [nia|].
  change 262144 with (512 * 512). apply Z.mul_le_mono_nonneg; lia.
Qed.

(** What a defined, unrefused synthesis is made of. *)
Lemma make_conceal_slice_inv sps pps d addr num first o out :
  SpsOk sps -> sps.(log2_min_cb) < 32 -> 0 <= addr -> 0 <= num -> addr + num < 4294967296 ->
  make_conceal_slice sps pps d addr num first o = Some (Some out) ->
  nal_is_irap d.(nal_unit_type) = false /\
  exists init s eps bits header, let segs := init ++ [s] in
    conceal_payload sps pps addr num (pps.(init_qp) + d.(qp_delta)) = Some (segs_bytes segs, eps) /\
    eps = (if pps.(entropy_coding_sync_enabled) then (fun s => esc_length s.(sg_bytes)) <$> init else []) /\
    Forall SegOk segs /\ segs_ctus segs = num - 1 /\
    (forall cs, first_ctxs segs cs = fresh_contexts (pps.(init_qp) + d.(qp_delta))) /\
    (pps.(entropy_coding_sync_enabled) = false -> init = []) /\
    write_conceal_header sps pps d addr first o eps = Some bits /\ pack_bits bits = Some header /\
    out = escape_append (header ++ segs_bytes segs) d.(nal_header0) d.(nal_header1) /\
    (conforming sps -> exists cus, DDone sps pps.(entropy_coding_sync_enabled)
       (Z.shiftr (sps.(pic_width) + 2 ^ sps.(log2_min_cb) - 1) sps.(log2_min_cb)) addr (pps.(init_qp) + d.(qp_delta)) num segs cus).
Proof.
  intros Hs Hm Ha Hn Hw E. unfold make_conceal_slice in E.
  destruct (conceal_refused _ _ _ _ _ _) eqn:Er; [done|]. apply refused_inv in Er as (_ & Hirap & Hn0 & Hsz).
  rewrite to_u32_id in Hsz by ints. split; [done|].
  destruct (i32_of _) as [qp|] eqn:Eq; [|done]. apply i32_of_some in Eq as [-> _]. cbn [mbind option_bind] in E.
  destruct (conceal_payload_spec sps pps addr num (init_qp pps + qp_delta d) Hs Hm Ha) as (init & s & Ep & Hok & Hc & Hf & H1 & _ & HD); [lia..|].
  rewrite Ep in E. cbn [mbind option_bind] in E. set (eps := if entropy_coding_sync_enabled pps then (fun s => esc_length s.(sg_bytes)) <$> init else []) in *.
  destruct (write_conceal_header _ _ _ _ _ _ _) as [bits|] eqn:Eh; [|done]. cbn [mbind option_bind] in E.
  destruct (pack_bits bits) as [header|] eqn:Epk; [|done]. injection E as <-.
  exists init, s, eps, bits, header. by split_and!.
Qed.

(** Every unit is skipped, and the luma samples of the CTUs from [a] up to [e],
    and no others, are each in exactly one unit. *)
Definition skipped_units (sps : SpsInfo) (a e : Z) (cus : list Cu) : Prop :=
  (forall u, u ∈ cus -> u.(cu_skip_flag) = 1) /\
  forall x y, (exists! i, exists u, cus !! i = Some u /\ in_cu u x y = true) <->
    0 <= x < sps.(pic_width) /\ 0 <= y < sps.(pic_height) /\ a <= ctb_of sps x y < e.

Section Conceal.
Context (nal_s nal_p nal : list Z) (sps : SpsInfo) (pps : PpsInfo) (d : SliceInfo).

(** Parameter sets and a P donor, as the code obtains them. *)
Definition parsed_donor : Prop :=
  parse_sps nal_s = Some (Some sps) /\ parse_pps nal_p = Some (Some pps) /\
  parse_slice_header nal sps pps = Some (Some d) /\ d.(slice_type) = 1.

Lemma parsed_donor_ok : parsed_donor -> d.(has_poc) = true -> SpsOk sps /\ PpsOk pps /\ DonorOk sps pps d.
Proof.
  intros (Es & Ep & Ed & Ht) Hpoc. pose proof (parse_sps_ok _ _ Es) as Hs. pose proof (parse_pps_ok _ _ Ep) as Hp.
  split_and!; [done|done|]. by eapply parse_slice_header_donor.
Qed.

Lemma conceal_total addr num first o :
  parsed_donor -> sps.(log2_min_cb) < 32 -> -1073741824 < d.(qp_delta) < 1073741824 ->
  0 <= addr -> 0 <= num -> addr + num < 4294967296 ->
  exists res, make_conceal_slice sps pps d addr num first o = Some res /\
    (res = None <-> conceal_refused sps pps d addr num o = true).
Proof.
  intros Hd Hm Hq Ha Hn Hw. unfold make_conceal_slice.
  destruct (conceal_refused sps pps d addr num o) eqn:Er; [by exists None|].
  pose proof Er as (Hpoc & _ & Hn0 & Hsz)%refused_inv. rewrite to_u32_id in Hsz by ints.
  destruct (parsed_donor_ok Hd Hpoc) as (Hs & Hp & Hdo). pose proof (po_qp _ Hp).
  rewrite i32_of_fits by lia. cbn [mbind option_bind].
  destruct (conceal_payload_spec sps pps addr num (init_qp pps + qp_delta d) Hs Hm Ha) as (init & s & -> & Hok & _ & _ & _ & Hl & _); [lia..|].
  cbn [mbind option_bind]. set (eps := if entropy_coding_sync_enabled pps then _ else _).
  assert (Heps : Forall (fun x => 1 <= x <= 1073741824) eps /\ len eps < 4294967295).
  { unfold eps. destruct (entropy_coding_sync_enabled pps); [|by split]. split.
    - apply Forall_fmap, Forall_forall. intros x Hx. apply (esc_length_bound (init ++ [s])); [done|done|].
      apply elem_of_app. by left.
    - rewrite length_fmap. pose proof (segs_bytes_length _ Hok) as Hll. rewrite length_app in Hll. cbn [length] in Hll. lia. }
  destruct Heps as [He1 He2].
  destruct (w_address_some sps pps d Hs Hp Hdo addr first) as [wa Ea]. destruct (w_picture_some sps pps d Hs Hdo o) as [wp Ep].
  destruct (w_inter_some sps pps d Hdo Hq) as [wi Ei]. destruct (w_tail_some pps eps He1 He2) as [wt Et].
  assert (Hh : is_Some (write_conceal_header sps pps d addr first o eps)).
  { unfold write_conceal_header. rewrite Ea, Ep, Ei, Et. by eexists. }
  destruct Hh as [bits Eb]. rewrite Eb. cbn [mbind option_bind].
  destruct (header_bytes _ _ _ _ _ _ _ _ Eb) as (? & ? & ? & ? & ? & header & _ & _ & _ & _ & _ & -> & _).
  eexists. split; [done|]. done.
Qed.

Lemma conceal_reparses addr num first o out :
  parsed_donor -> sps.(log2_min_cb) < 32 -> d.(nal_header1) <> 0 ->
  d.(strps_bit_end) - d.(strps_bit_begin) <= 1300 -> 0 <= addr -> 1 <= num -> addr + num <= sps.(pic_size_ctbs) ->
  make_conceal_slice sps pps d addr num first o = Some (Some out) ->
  take 6 out = [0; 0; 0; 1; d.(nal_header0); d.(nal_header1)] /\ no_start_code 0 (drop 4 out) = true /\
  exists s, parse_slice_header (drop 4 out) sps pps = Some (Some s) /\ ConcealView sps d addr o first s.
Proof.
  intros Hd Hm Hh1 Hspan Ha Hn Hsz E.
  assert (Hpoc : has_poc d = true).
  { unfold make_conceal_slice in E. destruct (conceal_refused _ _ _ _ _ _) eqn:Er; [done|]. by apply refused_inv in Er as [? _]. }
  destruct (parsed_donor_ok Hd Hpoc) as (Hs & Hp & Hdo). destruct Hd as (_ & _ & Hparse & _).
  assert (Hlt : addr + num < 4294967296) by (pose proof (sps_size_bound _ Hs); lia).
  assert (Hn' : 0 <= num) by lia.
  destruct (make_conceal_slice_inv _ _ _ _ _ _ _ _ Hs Hm Ha Hn' Hlt E)
    as (Hirap & init & s & eps & bits & header & _ & _ & _ & _ & _ & _ & Eb & Epk & -> & _).
  destruct (header_bytes _ _ _ _ _ _ _ _ Eb) as (wa & wp & wi & wt & pad & hd & Ea & Ep & Ei & _ & _ & Epk' & Ebits).
  assert (hd = header) as -> by congruence.
  set (rbsp := header ++ segs_bytes (init ++ [s])). destruct (escape_append_inverse rbsp (nal_header0 d) (nal_header1 d) 256 Hh1 ltac:(lia)) as [Hun Hsc].
  split; [done|]. split; [done|].
  destruct (donor_nal_header _ _ _ _ Hparse) as (Ety & Hvcl & _).
  apply (parse_slice_header_escaped sps pps d rbsp wa wp wi (wt ++ [1] ++ replicate pad 0 ++ bits_of (segs_bytes (init ++ [s])))
           addr o first); try done; [lia| |].
  - unfold rbsp. rewrite bits_of_app, Ebits. by rewrite <- !app_assoc.
  - pose proof (w_address_length _ _ _ _ _ Hs Hp Hdo _ Ea). pose proof (w_picture_length _ _ _ _ Hs Hdo _ Ep).
    assert (Hr : num_used_refs d <= 2147483648).
    { destruct (do_refs _ _ _ Hdo) as (u & l & -> & _). pose proof (to_u16_u16 (u + l)). ints. }
    destruct (reads_w_inter _ _ _ _ Hdo Ei Hr) as [? _]. rewrite !length_app. lia.
Qed.
(** The standard's decoder on the slice data of a synthesized slice. *)
Lemma conceal_decodes addr num first o out :
  parsed_donor -> conforming sps -> d.(nal_header1) <> 0 -> 0 <= addr -> 1 <= num ->
  addr + num <= sps.(pic_size_ctbs) -> make_conceal_slice sps pps d addr num first o = Some (Some out) ->
  exists header payload cus,
    (exists eps bits, write_conceal_header sps pps d addr first o eps = Some bits /\ pack_bits bits = Some header) /\
    (forall cap, len (header ++ payload) <= cap -> unescape (drop 6 out) cap = header ++ payload) /\
    decode_slice_data sps pps.(entropy_coding_sync_enabled) (pps.(init_qp) + d.(qp_delta)) addr payload = Some (cus, addr + num) /\
    skipped_units sps addr (addr + num) cus.
Proof.
  intros Hd Hconf Hh1 Ha Hn Hsz E. destruct Hd as (Es & _). pose proof (parse_sps_ok _ _ Es) as Hs.
  assert (Hm : log2_min_cb sps < 32) by (destruct Hconf as [? _]; pose proof (so_ctb _ Hs); lia).
  assert (Hn' : 0 <= num) by lia. assert (Hlt : addr + num < 4294967296) by (pose proof (sps_size_bound _ Hs); lia).
  destruct (make_conceal_slice_inv _ _ _ _ _ _ _ _ Hs Hm Ha Hn' Hlt E)
    as (_ & init & s & eps & bits & header & _ & _ & Hok & _ & _ & _ & Eb & Epk & -> & HD).
  destruct (HD Hconf) as (cus & (depth & HT) & Hrun). exists header, (segs_bytes (init ++ [s])), cus. split_and!.
  - by exists eps, bits.
  - intros cap Hcap. destruct (escape_append_inverse (header ++ segs_bytes (init ++ [s])) (nal_header0 d) (nal_header1 d) cap Hh1 ltac:(lia)) as [-> _].
    apply take_ge. lia.
  - unfold decode_slice_data. replace (Z.to_nat (pic_size_ctbs sps)) with (Z.to_nat num + Z.to_nat (pic_size_ctbs sps - num))%nat by lia.
    by rewrite Hrun.
  - split; [apply (tl_skip _ _ _ _ _ _ HT)|]. intros x y. rewrite <- (tl_cover _ _ _ _ _ _ HT). split.
    + intros (i & (u & Hi & Hu) & _). exists u. split; [by eapply list_elem_of_lookup_2|done].
    + intros (u & [i Hi]%list_elem_of_lookup & Hu). exists i. split; [by exists u|]. intros j (v & Hj & Hv).
      by eapply (tl_once _ _ _ _ _ _ HT).
Qed.
End Conceal.

(** ** The stream of [tests/hevc_conceal_vector.h]: its parameter sets, the
    first slice of its fourth picture, and the replacement of the second
    slice that the test pins. *)
Definition demo_sps_nal : list Z :=
  [66; 1; 1; 1; 96; 0; 0; 3; 0; 0; 3; 0; 0; 3; 0; 0; 3; 0; 0; 160; 24; 32; 48; 89;
   101; 228; 145; 182; 13; 151; 136; 136; 136; 254; 121; 252; 254; 127; 63; 159; 207; 47; 255; 255; 252; 254; 127; 63;
   159; 207; 231; 243; 243; 249; 252; 254; 127; 63; 157; 146].
Definition demo_pps_nal : list Z := [68; 1; 193; 144; 149; 129; 18].
Definition demo_slice_nal : list Z :=
  [2; 1; 208; 29; 69; 160; 139; 246; 221; 140; 251; 92; 179; 183; 102; 189; 215; 249; 165; 137; 70; 166; 175; 90;
   230; 189; 151; 41; 32; 131; 100; 144; 147; 160; 95; 24; 1; 192; 166; 118; 230; 138; 208; 49; 207; 218; 245; 43;
   177; 8; 254; 160; 139; 16; 78; 32; 254; 145; 43; 109; 159; 167; 122; 110; 161; 133; 184; 89; 253; 3; 78; 177;
   102; 44; 142; 234; 203; 94; 29; 10; 17; 7].
Definition demo_golden : list Z := [0; 0; 0; 1; 2; 1; 77; 1; 212; 98; 130; 36; 59; 160].

(** Parameter sets that are accepted and then undefined: a minimum coding
    block of 2^200 samples, and an initial QP of 2^31 + 25. *)
Definition demo_hostile_sps_nal : list Z :=
  [66; 1; 0; 255; 255; 255; 255; 255; 255; 255; 255; 255; 255; 255; 255; 160; 32; 129; 5; 220; 6; 48; 62; 240;
   136].
Definition demo_hostile_pps_nal : list Z :=
  [68; 1; 192; 96; 0; 0; 3; 0; 63; 255; 255; 255; 128; 0; 0; 3; 0; 0; 32].
(** The same picture parameters with WPP. *)
Definition demo_wpp_pps_nal : list Z := [68; 1; 192; 144; 145; 131; 20].

Definition demo_sps : SpsInfo := default SpsInfo_init (mjoin (parse_sps demo_sps_nal)).
Definition demo_pps : PpsInfo := default PpsInfo_init (mjoin (parse_pps demo_pps_nal)).
Definition demo_wpp_pps : PpsInfo := default PpsInfo_init (mjoin (parse_pps demo_wpp_pps_nal)).
Definition demo_donor : SliceInfo := default SliceInfo_init (mjoin (parse_slice_header demo_slice_nal demo_sps demo_pps)).

(** The model reproduces the pinned output byte for byte. *)
Example demo_conceal_golden :
  parse_sps demo_sps_nal = Some (Some demo_sps) /\ parse_pps demo_pps_nal = Some (Some demo_pps) /\
  parse_slice_header demo_slice_nal demo_sps demo_pps = Some (Some demo_donor) /\
  make_conceal_slice demo_sps demo_pps demo_donor 3 3 false (-1) = Some (Some demo_golden).
Proof. by vm_compute. Qed.

(** [parse_sps] accepts a block size whose shift is undefined, and the sum of
    [init_qp] overflows: neither is checked. *)
Example demo_hostile_sps :
  (exists sps, parse_sps demo_hostile_sps_nal = Some (Some sps) /\ sps.(log2_min_cb) = 200 /\
     make_conceal_slice sps demo_pps demo_donor 0 1 true (-1) = None) /\
  parse_pps demo_hostile_pps_nal = None.
Proof. split; [|by vm_compute]. eexists. split; [vm_compute; reflexivity|]. by vm_compute. Qed.

(** ** The parsers *)

(** On every byte string [parse_sps] stays inside it and returns; with any
    parameter set it accepted so does [parse_slice_header], whatever the
    slice; and what is accepted is in the ranges the synthesis relies on. *)
Theorem parsers_total nal sps :
  is_Some (parse_sps nal) /\
  (parse_sps nal = Some (Some sps) -> SpsOk sps /\ forall slice pps, is_Some (parse_slice_header slice sps pps)).
Proof.
  split; [apply parse_sps_total|]. intros E. pose proof (parse_sps_ok _ _ E) as Hs. split; [done|].
  intros slice pps. by apply parse_slice_header_total.
Qed.
Example parsers_total_witness :
  SpsOk demo_sps /\ forall slice pps, is_Some (parse_slice_header slice demo_sps pps).
Proof. apply (parsers_total demo_sps_nal demo_sps). vm_compute. reflexivity. Defined.

(** ** The slice *)

Section Conceal.
Context (nal_s nal_p nal : list Z) (sps : SpsInfo) (pps : PpsInfo) (d : SliceInfo).
Local Abbreviation parsed_donor := (parsed_donor nal_s nal_p nal sps pps d).

(** From a parsed donor the synthesis never reads or writes outside a
    buffer, never shifts or adds out of range and always returns: a NAL,
    or a refusal exactly on the refused shapes. *)
Theorem make_conceal_slice_total addr num first o :
  parsed_donor -> sps.(log2_min_cb) < 32 -> -1073741824 < d.(qp_delta) < 1073741824 ->
  0 <= addr -> 0 <= num -> addr + num < 4294967296 ->
  exists res, make_conceal_slice sps pps d addr num first o = Some res /\
    (res = None <-> conceal_refused sps pps d addr num o = true).
Proof.
  apply conceal_total.
Qed.

(** C26. Round trip: the emitted NAL starts with a start code and the donor's
    NAL header, holds no start code inside, and parses with the same
    parameter sets to the span it was made for: its address, the POC it
    was given, and the donor's QP, reference counts and temporal flag. *)
Theorem conceal_slice_parses addr num first o out :
  parsed_donor -> sps.(log2_min_cb) < 32 -> d.(nal_header1) <> 0 ->
  d.(strps_bit_end) - d.(strps_bit_begin) <= 1300 -> 0 <= addr -> 1 <= num -> addr + num <= sps.(pic_size_ctbs) ->
  make_conceal_slice sps pps d addr num first o = Some (Some out) ->
  take 6 out = [0; 0; 0; 1; d.(nal_header0); d.(nal_header1)] /\ no_start_code 0 (drop 4 out) = true /\
  exists s, parse_slice_header (drop 4 out) sps pps = Some (Some s) /\ ConcealView sps d addr o first s.
Proof.
  apply conceal_reparses.
Qed.

(** C24. Refinement of the standard's decoding process: the RBSP of the
    emitted NAL is the header the code wrote followed by slice data that the
    decoder of the standard - with its own tables, its own context increments
    from the units it has decoded, its own wavefront contexts - reads as the
    [num] CTUs from [addr] on and then the end: every coding unit is skipped,
    and the luma samples of those CTUs are each in exactly one. *)
Theorem conceal_slice_decodes addr num first o out :
  parsed_donor -> conforming sps -> d.(nal_header1) <> 0 -> 0 <= addr -> 1 <= num ->
  addr + num <= sps.(pic_size_ctbs) -> make_conceal_slice sps pps d addr num first o = Some (Some out) ->
  exists header payload cus,
    (exists eps bits, write_conceal_header sps pps d addr first o eps = Some bits /\ pack_bits bits = Some header) /\
    (forall cap, len (header ++ payload) <= cap -> unescape (drop 6 out) cap = header ++ payload) /\
    decode_slice_data sps pps.(entropy_coding_sync_enabled) (pps.(init_qp) + d.(qp_delta)) addr payload = Some (cus, addr + num) /\
    skipped_units sps addr (addr + num) cus.
Proof. apply conceal_decodes. Qed.

(** The entry points of a WPP slice are exact: cut at the offsets the
    header carries, the bytes after it are the substreams, each escaped on
    its own: no prevention byte straddles a cut. *)
Theorem conceal_entry_points_exact addr num first o out :
  parsed_donor -> sps.(log2_min_cb) < 32 -> d.(nal_header1) <> 0 -> 0 <= addr -> 1 <= num ->
  addr + num <= sps.(pic_size_ctbs) -> pps.(entropy_coding_sync_enabled) = true ->
  make_conceal_slice sps pps d addr num first o = Some (Some out) ->
  exists eps bits header init last,
    write_conceal_header sps pps d addr first o eps = Some bits /\ pack_bits bits = Some header /\
    drop 6 out = escape_loop header 0 ++ concat init ++ last /\ eps = (fun chunk => len chunk) <$> init /\
    Forall (fun chunk => exists s, chunk = escape_loop s.(sg_bytes) 0 /\ seg_decodes s) (init ++ [last]).
Proof.
  intros Hd Hm Hh1 Ha Hn Hsz Hwpp E. destruct Hd as (Es & _). pose proof (parse_sps_ok _ _ Es) as Hs.
  assert (Hn' : 0 <= num) by lia. assert (Hlt : addr + num < 4294967296) by (pose proof (sps_size_bound _ Hs); lia).
  destruct (make_conceal_slice_inv _ _ _ _ _ _ _ _ Hs Hm Ha Hn' Hlt E)
    as (_ & init & s & eps & bits & header & _ & Eeps & Hok & _ & _ & _ & Eb & Epk & -> & _).
  rewrite Hwpp in Eeps.
  destruct (header_bytes _ _ _ _ _ _ _ _ Eb) as (wa & wp & wi & wt & pad & hd & _ & _ & _ & _ & Hpad & Epk' & Ebits).
  assert (hd = header) as -> by congruence.
  destruct (last_byte_nonzero header (wa ++ wp ++ wi ++ wt) pad) as (hi & hc & Ehd & Hhc);
    [rewrite Ebits; by rewrite <- !app_assoc|done|].
  exists eps, bits, header, ((fun s => escape_loop s.(sg_bytes) 0) <$> init), (escape_loop s.(sg_bytes) 0).
  split_and!; [done|done| | |].
  - unfold escape_append, escape_zeros. destruct (Z.eqb_spec (nal_header1 d) 0) as [|_]; [done|]. cbn [app drop].
    rewrite escape_loop_app, Ehd, run_zeros_end by done. f_equal. rewrite (escape_segs _ Hok), fmap_app, concat_app.
    cbn. by rewrite app_nil_r.
  - rewrite Eeps, <- list_fmap_compose. apply list_fmap_ext. intros i x _. cbn. by rewrite escape_loop_length.
  - assert (HT : Forall (fun x => exists s, escape_loop x.(sg_bytes) 0 = escape_loop s.(sg_bytes) 0 /\ seg_decodes s) (init ++ [s])).
    { eapply Forall_impl; [exact Hok|]. intros x Hx. exists x. split; [done|apply (gk_decodes _ Hx)]. }
    apply Forall_app in HT as [H1 H2]. apply Forall_app. split; [by apply Forall_fmap|].
    apply Forall_cons in H2 as [H2 _]. by apply Forall_singleton.
Qed.
End Conceal.

(** ** On the demo stream *)
Lemma demo_parsed : parsed_donor demo_sps_nal demo_pps_nal demo_slice_nal demo_sps demo_pps demo_donor.
Proof. unfold parsed_donor. by vm_compute. Qed.
(** A slice over two CTU rows is two substreams, cut at one entry point. *)
Definition demo_wpp_slice : list Z :=
  default [] (mjoin (make_conceal_slice demo_sps demo_wpp_pps demo_donor 3 6 false (-1))).
Lemma demo_wpp_parsed : parsed_donor demo_sps_nal demo_wpp_pps_nal demo_slice_nal demo_sps demo_wpp_pps demo_donor.
Proof. unfold parsed_donor. by vm_compute. Qed.
Example demo_wpp_entry_point :
  (snd <$> conceal_payload demo_sps demo_wpp_pps 3 6 43) = Some [2] /\
  make_conceal_slice demo_sps demo_wpp_pps demo_donor 3 6 false (-1) = Some (Some demo_wpp_slice).
Proof. by vm_compute. Qed.

Ltac decided := refine (bool_decide_unpack _ _); vm_compute; exact I.

Example make_conceal_slice_total_witness :
  exists res, make_conceal_slice demo_sps demo_pps demo_donor 3 3 false (-1) = Some res /\
    (res = None <-> conceal_refused demo_sps demo_pps demo_donor 3 3 (-1) = true).
Proof. apply (make_conceal_slice_total _ _ _ _ _ _ 3 3 false (-1) demo_parsed); decided. Defined.

Example conceal_slice_parses_witness :
  take 6 demo_golden = [0; 0; 0; 1; 2; 1] /\ no_start_code 0 (drop 4 demo_golden) = true /\
  exists s, parse_slice_header (drop 4 demo_golden) demo_sps demo_pps = Some (Some s) /\
    ConcealView demo_sps demo_donor 3 (-1) false s.
Proof. apply (conceal_slice_parses _ _ _ _ _ _ 3 3 false (-1) demo_golden demo_parsed); decided. Defined.

Example conceal_slice_decodes_witness :
  exists header payload cus,
    (exists eps bits, write_conceal_header demo_sps demo_wpp_pps demo_donor 3 false (-1) eps = Some bits /\ pack_bits bits = Some header) /\
    (forall cap, len (header ++ payload) <= cap -> unescape (drop 6 demo_wpp_slice) cap = header ++ payload) /\
    decode_slice_data demo_sps demo_wpp_pps.(entropy_coding_sync_enabled) (demo_wpp_pps.(init_qp) + demo_donor.(qp_delta)) 3 payload =
      Some (cus, 3 + 6) /\
    skipped_units demo_sps 3 (3 + 6) cus.
Proof. apply (conceal_slice_decodes _ _ _ _ _ _ 3 6 false (-1) demo_wpp_slice demo_wpp_parsed); decided. Defined.

Example conceal_entry_points_exact_witness :
  exists eps bits header init last,
    write_conceal_header demo_sps demo_wpp_pps demo_donor 3 false (-1) eps = Some bits /\ pack_bits bits = Some header /\
    drop 6 demo_wpp_slice = escape_loop header 0 ++ concat init ++ last /\ eps = (fun chunk => len chunk) <$> init /\
    Forall (fun chunk => exists s, chunk = escape_loop s.(sg_bytes) 0 /\ seg_decodes s) (init ++ [last]).
Proof. apply (conceal_entry_points_exact _ _ _ _ _ _ 3 6 false (-1) demo_wpp_slice demo_wpp_parsed); decided. Defined.
