(* ===== verification/Spatial.v ===== *)
(** * Spatial salvage of failed blocks ([core/.../spatial_repair.{h,cpp}])

    [SpatialRepair] learns from every frame the stream delivers its parameter
    sets, the addresses of its slices and a donor header; from the chunks that
    survive of a failed block it rebuilds the picture, with a synthesised slice
    for each erased one.

    [emit] is called back with the object alive: in the node it is
    [write_egress] ([rx_node.cpp]), which calls [learn] or [reset_stream] on
    the same object before it returns.  A callback therefore takes and returns
    the object with the environment of its own.

    Results are two-level: [None] leaves the memory of the program, [Some None]
    is the code's [return fail()].  Scratch vectors are fresh. *)
From S2P Require Import Prelude SMap FrameShm HevcBits HevcParse HevcConceal.

Record SpatialRepairConfig : Type := MkSpatialRepairConfig { freeze_frame : bool; sr_max_frame_bytes : Z }.
Definition SpatialRepairConfig_init : SpatialRepairConfig := MkSpatialRepairConfig true (640 * 1024).

Record SpatialRepairStats : Type := MkSpatialRepairStats {
  st_frames_salvaged : Z;
  st_frames_frozen : Z;
  st_salvage_failed : Z;
  st_slices_synthesized : Z
}.
Definition SpatialRepairStats_init : SpatialRepairStats := MkSpatialRepairStats 0 0 0 0.

Record SpatialRepair : Type := MkSpatialRepair {
  sr_cfg : SpatialRepairConfig;
  sr_stats : SpatialRepairStats;
  sps_ : SpsInfo;
  pps_ : PpsInfo;
  have_sps_ : bool;
  have_pps_ : bool;
  geometry_ : list Z;
  geometry_pending_ : list Z;
  donor_ : SliceInfo;
  have_donor_ : bool;
  rps_stable_ : bool;
  last_poc_ : Z;
  have_poc_ : bool;
  meta_template_ : list Z;
  have_meta_ : bool;
  last_pts_ : Z;
  pts_delta_ : Z
}.
Definition SpatialRepair_init (cfg : SpatialRepairConfig) : SpatialRepair :=
  MkSpatialRepair cfg SpatialRepairStats_init SpsInfo_init PpsInfo_init false false [] [] SliceInfo_init false false
    0 false (replicate 8 0) false 0 0.

(** The members written together. *)
Definition with_stats (t : SpatialRepair) (s : SpatialRepairStats) : SpatialRepair :=
  MkSpatialRepair t.(sr_cfg) s t.(sps_) t.(pps_) t.(have_sps_) t.(have_pps_) t.(geometry_)
    t.(geometry_pending_) t.(donor_) t.(have_donor_) t.(rps_stable_) t.(last_poc_) t.(have_poc_)
    t.(meta_template_) t.(have_meta_) t.(last_pts_) t.(pts_delta_).
Definition with_sps (t : SpatialRepair) (s : SpsInfo) : SpatialRepair :=
  MkSpatialRepair t.(sr_cfg) t.(sr_stats) s t.(pps_) true t.(have_pps_) t.(geometry_) t.(geometry_pending_)
    t.(donor_) t.(have_donor_) t.(rps_stable_) t.(last_poc_) t.(have_poc_) t.(meta_template_) t.(have_meta_)
    t.(last_pts_) t.(pts_delta_).
Definition with_pps (t : SpatialRepair) (p : PpsInfo) : SpatialRepair :=
  MkSpatialRepair t.(sr_cfg) t.(sr_stats) t.(sps_) p t.(have_sps_) true t.(geometry_) t.(geometry_pending_)
    t.(donor_) t.(have_donor_) t.(rps_stable_) t.(last_poc_) t.(have_poc_) t.(meta_template_) t.(have_meta_)
    t.(last_pts_) t.(pts_delta_).
(** [geometry_.clear(); geometry_pending_.clear(); have_donor_ = false]. *)
Definition forget_shape (t : SpatialRepair) : SpatialRepair :=
  MkSpatialRepair t.(sr_cfg) t.(sr_stats) t.(sps_) t.(pps_) t.(have_sps_) t.(have_pps_) [] [] t.(donor_)
    false t.(rps_stable_) t.(last_poc_) t.(have_poc_) t.(meta_template_) t.(have_meta_) t.(last_pts_)
    t.(pts_delta_).
Definition with_poc (t : SpatialRepair) (poc : Z) : SpatialRepair :=
  MkSpatialRepair t.(sr_cfg) t.(sr_stats) t.(sps_) t.(pps_) t.(have_sps_) t.(have_pps_) t.(geometry_)
    t.(geometry_pending_) t.(donor_) t.(have_donor_) t.(rps_stable_) poc true t.(meta_template_)
    t.(have_meta_) t.(last_pts_) t.(pts_delta_).
Definition set_last_poc (t : SpatialRepair) (poc : Z) : SpatialRepair :=
  MkSpatialRepair t.(sr_cfg) t.(sr_stats) t.(sps_) t.(pps_) t.(have_sps_) t.(have_pps_) t.(geometry_)
    t.(geometry_pending_) t.(donor_) t.(have_donor_) t.(rps_stable_) poc t.(have_poc_) t.(meta_template_)
    t.(have_meta_) t.(last_pts_) t.(pts_delta_).
Definition with_donor (t : SpatialRepair) (d : SliceInfo) (stable : bool) : SpatialRepair :=
  MkSpatialRepair t.(sr_cfg) t.(sr_stats) t.(sps_) t.(pps_) t.(have_sps_) t.(have_pps_) t.(geometry_)
    t.(geometry_pending_) d true stable t.(last_poc_) t.(have_poc_) t.(meta_template_) t.(have_meta_)
    t.(last_pts_) t.(pts_delta_).
Definition with_geometry (t : SpatialRepair) (geometry pending : list Z) : SpatialRepair :=
  MkSpatialRepair t.(sr_cfg) t.(sr_stats) t.(sps_) t.(pps_) t.(have_sps_) t.(have_pps_) geometry pending
    t.(donor_) t.(have_donor_) t.(rps_stable_) t.(last_poc_) t.(have_poc_) t.(meta_template_) t.(have_meta_)
    t.(last_pts_) t.(pts_delta_).
Definition with_meta (t : SpatialRepair) (meta : list Z) : SpatialRepair :=
  MkSpatialRepair t.(sr_cfg) t.(sr_stats) t.(sps_) t.(pps_) t.(have_sps_) t.(have_pps_) t.(geometry_)
    t.(geometry_pending_) t.(donor_) t.(have_donor_) t.(rps_stable_) t.(last_poc_) t.(have_poc_) meta true
    t.(last_pts_) t.(pts_delta_).
Definition with_clock (t : SpatialRepair) (pts delta : Z) : SpatialRepair :=
  MkSpatialRepair t.(sr_cfg) t.(sr_stats) t.(sps_) t.(pps_) t.(have_sps_) t.(have_pps_) t.(geometry_)
    t.(geometry_pending_) t.(donor_) t.(have_donor_) t.(rps_stable_) t.(last_poc_) t.(have_poc_)
    t.(meta_template_) t.(have_meta_) pts delta.
Definition count_failed (t : SpatialRepair) : SpatialRepair :=
  let s := t.(sr_stats) in
  with_stats t (MkSpatialRepairStats s.(st_frames_salvaged) s.(st_frames_frozen) (to_u64 (s.(st_salvage_failed) + 1))
                  s.(st_slices_synthesized)).

(** ** Bytes *)

(** Bit [begin + k] of a header against the other's, for [k] below [n]. *)
Fixpoint span_bits_equal (a b : list Z) (n : nat) (pa pb : Z) : option bool :=
  match n with
  | O => Some true
  | S n =>
    x ← a !! Z.to_nat (Z.shiftr pa 3);
    y ← b !! Z.to_nat (Z.shiftr pb 3);
    if Z.land (Z.shiftr x (7 - Z.land pa 7)) 1 =? Z.land (Z.shiftr y (7 - Z.land pb 7)) 1
    then span_bits_equal a b n (pa + 1) (pb + 1) else Some false
  end.
Definition rps_span_equal (a b : SliceInfo) : option bool :=
  let n := to_u32 (a.(strps_bit_end) - a.(strps_bit_begin)) in
  if negb (n =? to_u32 (b.(strps_bit_end) - b.(strps_bit_begin))) then Some false else
  span_bits_equal a.(header_rbsp) b.(header_rbsp) (Z.to_nat n) a.(strps_bit_begin) b.(strps_bit_begin).

Definition rd_le32 (p : list Z) : option Z :=
  b0 ← rd8 p 0; b1 ← rd8 p 1; b2 ← rd8 p 2; b3 ← rd8 p 3;
  Some (le32_of b0 b1 b2 b3).
Definition le32_bytes (v : Z) : list Z :=
  [to_u8 v; to_u8 (Z.shiftr v 8); to_u8 (Z.shiftr v 16); to_u8 (Z.shiftr v 24)].
Definition wr_le32 (p : list Z) (v : Z) : option (list Z) := memcpy p 0 (le32_bytes v) 4.

Definition mark_salvaged (blob : list Z) : option (list Z) :=
  if len blob >=? kVencFrameMetaSize then
    f ← rd8 blob 5;
    wr8 blob 5 (Z.lor f kFrameFlagSalvaged)
  else Some blob.

(** ** Learning *)

Definition is_code (l : list Z) : bool :=
  match l with a :: b :: c :: _ => (a =? 0) && (b =? 0) && (c =? 1) | _ => false end.
(** The bytes before the next start code, and what follows from it. *)
Fixpoint nal_body (l : list Z) : list Z * option (list Z) :=
  if is_code l then ([], Some l) else
  match l with
  | [] => ([], None)
  | a :: t => let '(b, r) := nal_body t in (a :: b, r)
  end.
(** [if (end > nal_off && end < n && p[end - 1] == 0) --end]. *)
Definition trim_zero (body : list Z) : list Z :=
  match last body with
  | Some z => if z =? 0 then take (length body - 1) body else body
  | None => body
  end.
(** The NALs of an Annex-B string, in order; every turn consumes a byte. *)
Fixpoint split_nals (fuel : nat) (l : list Z) : list (list Z) :=
  match fuel with
  | O => []
  | S fuel =>
    if is_code l then
      let '(body, rest) := nal_body (drop 3 l) in
      match rest with
      | Some rest => trim_zero body :: split_nals fuel rest
      | None => [body]
      end
    else match l with [] => [] | _ :: t => split_nals fuel t end
  end.

(** The locals of the scan. *)
Record LearnState : Type := MkLearnState {
  ls_t : SpatialRepair;
  ls_addrs : list Z;
  ls_geometry_ok : bool;
  ls_saw_vcl : bool
}.

Definition learn_sps (t : SpatialRepair) (s : SpsInfo) : SpatialRepair :=
  let t := if t.(have_sps_) && (negb (s.(pic_size_ctbs) =? t.(sps_).(pic_size_ctbs)) ||
                                negb (s.(log2_ctb) =? t.(sps_).(log2_ctb)))
           then forget_shape t else t in
  with_sps t s.

(** A slice whose header parsed. *)
Definition learn_slice (ls : LearnState) (nal_t : Z) (d : SliceInfo) : option LearnState :=
  let t := ls.(ls_t) in
  let addrs := ls.(ls_addrs) ++ [d.(address)] in
  let t := with_poc t (if d.(has_poc) then d.(poc_lsb) else 0) in
  t ← (if (d.(slice_type) =? 1) && negb (nal_is_irap nal_t) && (len addrs =? 1) then
         stable ← (if t.(have_donor_) then rps_span_equal d t.(donor_) else Some false);
         Some (with_donor t d stable)
       else Some t);
  Some (MkLearnState t addrs ls.(ls_geometry_ok) true).

Definition learn_nal (ls : LearnState) (nal : list Z) : option LearnState :=
  let t := ls.(ls_t) in
  if len nal <? 2 then Some ls else
  nal_t ← nal_type nal;
  if nal_t =? kNalSps then
    r ← parse_sps nal;
    Some (match r with Some s => MkLearnState (learn_sps t s) ls.(ls_addrs) ls.(ls_geometry_ok) ls.(ls_saw_vcl) | None => ls end)
  else if nal_t =? kNalPps then
    r ← parse_pps nal;
    Some (match r with Some p => MkLearnState (with_pps t p) ls.(ls_addrs) ls.(ls_geometry_ok) ls.(ls_saw_vcl) | None => ls end)
  else if nal_is_vcl nal_t && t.(have_sps_) && t.(have_pps_) then
    r ← parse_slice_header nal t.(sps_) t.(pps_);
    match r with
    | Some d => learn_slice ls nal_t d
    | None => Some (MkLearnState t ls.(ls_addrs) false true)
    end
  else Some ls.

(** [std::is_sorted] without equal neighbours. *)
Fixpoint strictly_ascending (l : list Z) : bool :=
  match l with
  | a :: ((b :: _) as l) => (a <? b) && strictly_ascending l
  | _ => true
  end.
Definition geometry_shape (addrs : list Z) : bool :=
  match addrs with a :: _ => (a =? 0) && strictly_ascending addrs | [] => false end.

Definition learn_geometry (ls : LearnState) : SpatialRepair :=
  let t := ls.(ls_t) in
  let addrs := ls.(ls_addrs) in
  if negb ls.(ls_saw_vcl) then t else
  if ls.(ls_geometry_ok) && geometry_shape addrs then
    with_geometry t (if bool_decide (addrs = t.(geometry_pending_)) && negb (bool_decide (addrs = t.(geometry_)))
                     then addrs else t.(geometry_)) addrs
  else if negb ls.(ls_geometry_ok) then forget_shape t else t.

(** The prefix of a frame: the template and the clock. *)
Definition learn_meta (t : SpatialRepair) (blob : list Z) : option SpatialRepair :=
  meta ← slice blob 0 (Z.to_nat kVencFrameMetaSize);
  pts ← rd_le32 blob;
  let delta := if negb (t.(last_pts_) =? 0) && (pts >? t.(last_pts_)) then pts - t.(last_pts_) else t.(pts_delta_) in
  Some (with_clock (with_meta t meta) pts delta).

Definition learn (t : SpatialRepair) (blob : list Z) : option SpatialRepair :=
  if len blob <? kVencFrameMetaSize + 4 then Some t else
  codec ← rd8 blob 4;
  if negb (codec =? kFrameCodecH265) then Some t else
  t ← learn_meta t blob;
  let p := drop (Z.to_nat kVencFrameMetaSize) blob in
  ls ← foldM learn_nal (split_nals (length p) p) (MkLearnState t [] true false);
  Some (learn_geometry ls).

Definition reset_stream (t : SpatialRepair) : SpatialRepair :=
  MkSpatialRepair t.(sr_cfg) t.(sr_stats) t.(sps_) t.(pps_) false false [] t.(geometry_pending_) t.(donor_) false false
    t.(last_poc_) false t.(meta_template_) false 0 0.

(** ** Repair *)

Definition conceal_meta (t : SpatialRepair) : option (list Z) :=
  meta ← wr_le32 t.(meta_template_) (to_u32 (t.(last_pts_) + t.(pts_delta_)));
  f ← rd8 meta 5;
  wr8 meta 5 (Z.land f kFrameFlagGdr).

(** The spans the geometry cuts a picture of [total] CTUs into. *)
Fixpoint spans (g : list Z) (total : Z) : list (Z * Z) :=
  match g with
  | [] => []
  | a :: g => (a, match g with b :: _ => b | [] => total end) :: spans g total
  end.

(** *** Laying out the chunks *)

(** [frame_len], or the end of the last chunk. *)
Definition source_total (s frame_len : Z) (sources : smap (list Z)) : option Z :=
  if negb (frame_len =? 0) then Some frame_len else
  '(idx, chunk) ← last sources;
  Some (to_u32 (idx * s + len chunk)).

(** One chunk into [assembly_] and [present_]. *)
Definition lay_chunk (s total : Z) (b : list Z * list Z) (c : Z * list Z) : option (list Z * list Z) :=
  let '(assembly, present) := b in
  let '(idx, chunk) := c in
  let off := idx * s in
  if off >=? total then Some b else
  let nbytes := Z.to_nat (Z.min (len chunk) (total - off)) in
  assembly ← memcpy assembly (Z.to_nat off) chunk nbytes;
  present ← memcpy present (Z.to_nat off) (replicate nbytes 1) nbytes;
  Some (assembly, present).
Definition lay_chunks (s total : Z) (sources : smap (list Z)) : option (list Z * list Z) :=
  foldM (lay_chunk s total) sources (replicate (Z.to_nat total) 0, replicate (Z.to_nat total) 0).

Definition span_present (present : list Z) (total off nbytes : Z) : bool :=
  (off + nbytes <=? total) && forallb (fun b => negb (b =? 0)) (take (Z.to_nat nbytes) (drop (Z.to_nat off) present)).

(** *** The NALs *)

(** Offsets of the start codes all of whose bytes are present, from offset [i]
    on; [assembly] and [present] are the buffers from there.  [i + 3] stays
    below 2^32 for any frame the reassembler can hold. *)
Fixpoint find_codes (i : Z) (assembly present : list Z) : list Z :=
  match assembly, present with
  | a :: ((b :: c :: asm') as asm1), pa :: ((pb :: pc :: pres') as pres1) =>
    if negb (pa =? 0) && negb (pb =? 0) && negb (pc =? 0) && (a =? 0) && (b =? 0) && (c =? 1)
    then i :: find_codes (i + 3) asm' pres'
    else find_codes (i + 1) asm1 pres1
  | _, _ => []
  end.

Record FoundNal : Type := MkFoundNal {
  sc_off : Z;
  nal_off : Z;
  end_off : Z;
  complete : bool;
  is_vcl : bool;
  slice_ : option SliceInfo   (** [slice], valid iff [header_ok] *)
}.

(** Extent and completeness of the NAL at [sc]; [next] is the code after it. *)
Definition found_nal (sps : SpsInfo) (pps : PpsInfo) (assembly present : list Z) (total frame_len sc : Z)
    (next : option Z) : option (option FoundNal) :=
  let nal := sc + 3 in
  let next_sc := default total next in
  let whole := span_present present total sc (next_sc - sc) && (bool_decide (is_Some next) || negb (frame_len =? 0)) in
  trim ← (if (next_sc >? nal) && (next_sc <? total)
          then z ← rd8 assembly (Z.to_nat (next_sc - 1)); Some (z =? 0) else Some false);
  let end_ := if (trim : bool) then next_sc - 1 else next_sc in
  if end_ <? nal + 2 then Some (Some (MkFoundNal sc nal end_ false false None)) else
  t ← nal_type (drop (Z.to_nat nal) assembly);
  if nal_is_irap t then Some None else
  if nal_is_vcl t && whole then
    payload ← slice assembly (Z.to_nat nal) (Z.to_nat (end_ - nal));
    r ← parse_slice_header payload sps pps;
    match r with
    | Some d => if d.(dependent) then Some None else Some (Some (MkFoundNal sc nal end_ whole true (Some d)))
    | None => Some None
    end
  else Some (Some (MkFoundNal sc nal end_ whole (nal_is_vcl t) None)).
Fixpoint found_nals (sps : SpsInfo) (pps : PpsInfo) (assembly present : list Z) (total frame_len : Z)
    (codes : list Z) : option (option (list FoundNal)) :=
  match codes with
  | [] => Some (Some [])
  | sc :: codes =>
    r ← found_nal sps pps assembly present total frame_len sc (head codes);
    match r with
    | None => Some None
    | Some f =>
      r ← found_nals sps pps assembly present total frame_len codes;
      Some (match r with Some l => Some (f :: l) | None => None end)
    end
  end.

(** *** The survivors on the geometry *)

(** [std::find] on the geometry: the slot of an address. *)
Fixpoint slot_of (g : list Z) (addr : Z) : option nat :=
  match g with
  | [] => None
  | a :: g => if a =? addr then Some O else match slot_of g addr with Some i => Some (S i) | None => None end
  end.

(** [by_addr] and [donor]; [any_survivor] is that a slot is taken. *)
Definition place (g : list Z) (m : list (option FoundNal) * option SliceInfo) (f : FoundNal)
  : option (list (option FoundNal) * option SliceInfo) :=
  let '(by_addr, donor) := m in
  match f.(slice_) with
  | None => Some m
  | Some d =>
    i ← slot_of g d.(address);
    slot ← by_addr !! i;
    if bool_decide (is_Some slot) || negb (eqb d.(first_slice) (d.(address) =? 0)) then None else
    Some (<[i := Some f]> by_addr,
          match donor with Some _ => donor | None => if d.(slice_type) =? 1 then Some d else None end)
  end.
Definition place_all (g : list Z) (found : list FoundNal) : option (list (option FoundNal) * option SliceInfo) :=
  foldM (place g) found (replicate (length g) None, None).

(** *** The rebuilt picture *)

Definition nal_bytes (assembly : list Z) (f : FoundNal) : option (list Z) :=
  slice assembly (Z.to_nat f.(sc_off)) (Z.to_nat (f.(end_off) - f.(sc_off))).
(** The complete parameter sets and SEIs ahead of the first slice. *)
Fixpoint leading_nals (assembly : list Z) (found : list FoundNal) : option (list Z) :=
  match found with
  | [] => Some []
  | f :: found =>
    if f.(is_vcl) then Some [] else
    rest ← leading_nals assembly found;
    if f.(complete) then b ← nal_bytes assembly f; Some (b ++ rest) else Some rest
  end.
(** The slices in order, with the number synthesised. *)
Fixpoint rebuild_slices (sps : SpsInfo) (pps : PpsInfo) (donor : SliceInfo) (assembly : list Z) (first : bool)
    (l : list (Z * Z)) (by_addr : list (option FoundNal)) : option (option (list Z * Z)) :=
  match l, by_addr with
  | (addr, end_addr) :: l, slot :: by_addr =>
    if end_addr <=? addr then Some None else
    nal ← (match slot with
           | Some f => b ← nal_bytes assembly f; Some (Some b)
           | None => make_conceal_slice sps pps donor addr (end_addr - addr) first (-1)
           end);
    match nal with
    | None => Some None
    | Some b =>
      r ← rebuild_slices sps pps donor assembly false l by_addr;
      Some (match r with
            | Some (rest, n) => Some (b ++ rest, n + (match slot with Some _ => 0 | None => 1 end))
            | None => None
            end)
    end
  | _, _ => Some (Some ([], 0))
  end.

Section Repair.
Context {EM : Type} (emit : EM -> SpatialRepair -> list Z -> option (EM * SpatialRepair * bool)).

Definition fail (env : EM) (t : SpatialRepair) : option (EM * SpatialRepair * bool) :=
  Some (env, count_failed t, false).

(** The slices of a frozen picture. *)
Fixpoint freeze_slices (t : SpatialRepair) (poc : Z) (first : bool) (l : list (Z * Z)) : option (option (list Z)) :=
  match l with
  | [] => Some (Some [])
  | (addr, end_addr) :: l =>
    if end_addr <=? addr then Some None else
    r ← make_conceal_slice t.(sps_) t.(pps_) t.(donor_) addr (end_addr - addr) first poc;
    match r with
    | None => Some None
    | Some nal =>
      r ← freeze_slices t poc false l;
      Some (match r with Some rest => Some (nal ++ rest) | None => None end)
    end
  end.

(** After a frozen picture is accepted: what [emit] left of the object goes on. *)
Definition frozen (t : SpatialRepair) (poc : Z) : SpatialRepair :=
  let t := with_clock t (to_u32 (t.(last_pts_) + t.(pts_delta_))) t.(pts_delta_) in
  let t := set_last_poc t poc in
  let s := t.(sr_stats) in
  with_stats t (MkSpatialRepairStats s.(st_frames_salvaged) (to_u64 (s.(st_frames_frozen) + 1)) s.(st_salvage_failed)
                  (to_u64 (s.(st_slices_synthesized) + len t.(geometry_)))).

Definition freeze (env : EM) (t : SpatialRepair) (total_ctbs : Z) : option (EM * SpatialRepair * bool) :=
  if negb t.(sr_cfg).(freeze_frame) || negb t.(have_donor_) || negb t.(have_poc_) || negb t.(have_meta_) ||
     (len t.(geometry_) =? 0) || negb t.(rps_stable_) then fail env t else
  period ← shl1 t.(sps_).(log2_max_poc_lsb);
  let poc := Z.land (to_u32 (t.(last_poc_) + 1)) (period - 1) in
  meta ← conceal_meta t;
  r ← freeze_slices t (to_i32 poc) true (spans t.(geometry_) total_ctbs);
  match r with
  | None => fail env t
  | Some body =>
    let rebuilt := meta ++ body in
    if len rebuilt >? t.(sr_cfg).(sr_max_frame_bytes) then fail env t else
    rebuilt ← mark_salvaged rebuilt;
    '(env, t, ok) ← emit env t rebuilt;
    if negb ok then Some (env, reset_stream t, false) else Some (env, frozen t poc, true)
  end.
(** After a salvaged picture is accepted. *)
Definition salvaged (t : SpatialRepair) (synthesized : Z) (donor : SliceInfo) : SpatialRepair :=
  let s := t.(sr_stats) in
  let t := with_stats t (MkSpatialRepairStats (to_u64 (s.(st_frames_salvaged) + 1)) s.(st_frames_frozen)
             s.(st_salvage_failed) (to_u64 (s.(st_slices_synthesized) + synthesized))) in
  if donor.(has_poc) then with_poc t donor.(poc_lsb) else t.

(** Rebuilds the picture around at least one surviving slice. *)
Definition rebuild (env : EM) (t : SpatialRepair) (assembly : list Z) (meta_present : bool) (found : list FoundNal)
    (by_addr : list (option FoundNal)) (donor : SliceInfo) : option (EM * SpatialRepair * bool) :=
  if negb meta_present && negb t.(have_meta_) then fail env t else
  meta ← (if meta_present then slice assembly 0 (Z.to_nat kVencFrameMetaSize) else conceal_meta t);
  leading ← leading_nals assembly found;
  r ← rebuild_slices t.(sps_) t.(pps_) donor assembly true (spans t.(geometry_) t.(sps_).(pic_size_ctbs)) by_addr;
  match r with
  | None => fail env t
  | Some (body, synthesized) =>
    let rebuilt := meta ++ leading ++ body in
    if len rebuilt >? t.(sr_cfg).(sr_max_frame_bytes) then fail env t else
    rebuilt ← mark_salvaged rebuilt;
    '(env, t, ok) ← emit env t rebuilt;
    if negb ok then Some (env, reset_stream t, false) else Some (env, salvaged t synthesized donor, true)
  end.

(** A picture some of whose start codes survive. *)
Definition salvage (env : EM) (t : SpatialRepair) (assembly : list Z) (meta_present : bool) (found : list FoundNal)
  : option (EM * SpatialRepair * bool) :=
  if len t.(geometry_) >? 64 then fail env t else
  match place_all t.(geometry_) found with
  | None => fail env t
  | Some (by_addr, donor) =>
    if negb (existsb (fun slot => bool_decide (is_Some slot)) by_addr) then freeze env t t.(sps_).(pic_size_ctbs) else
    match donor with
    | None => fail env t
    | Some donor => rebuild env t assembly meta_present found by_addr donor
    end
  end.

Definition repair (env : EM) (t : SpatialRepair) (k s frame_len : Z) (sources : smap (list Z))
  : option (EM * SpatialRepair * bool) :=
  if negb t.(have_sps_) || negb t.(have_pps_) || (len t.(geometry_) =? 0) || (k =? 0) || (s =? 0) ||
     (len sources =? 0) then fail env t else
  total ← source_total s frame_len sources;
  if (total <=? kVencFrameMetaSize) || (total >? t.(sr_cfg).(sr_max_frame_bytes)) then fail env t else
  '(assembly, present) ← lay_chunks s total sources;
  let meta_present := span_present present total 0 kVencFrameMetaSize in
  codec ← rd8 assembly 4;
  flags ← rd8 assembly 5;
  if meta_present && (negb (codec =? kFrameCodecH265) || negb (Z.land flags kFrameFlagIdr =? 0)) then fail env t else
  let m := Z.to_nat kVencFrameMetaSize in
  let codes := find_codes kVencFrameMetaSize (drop m assembly) (drop m present) in
  if len codes =? 0 then freeze env t t.(sps_).(pic_size_ctbs) else
  r ← found_nals t.(sps_) t.(pps_) assembly present total frame_len codes;
  match r with
  | None => fail env t
  | Some found => salvage env t assembly meta_present found
  end.
End Repair.

(** ** The egress of the node ([rx_node.cpp], [write_egress])

    What it does to the salvage object: the sink's answer decides between
    [learn] and [reset_stream]. *)
Definition write_egress {E} (sink : E -> list Z -> E * bool) (env : E) (t : SpatialRepair) (frame : list Z)
  : option (E * SpatialRepair * bool) :=
  let '(env, ok) := sink env frame in
  if negb ok then Some (env, reset_stream t, false) else
  t ← learn t frame;
  Some (env, t, true).
