(* ===== verification/SpatialFacts.v ===== *)
(** * The salvage object: its invariant and what learning keeps

    [SpatialOk] is what every method of [SpatialRepair] relies on and leaves:
    parameter sets that parsed, an ascending geometry that starts at CTU 0, a
    donor whose copied span lies in its header, and the widths. *)
From stdpp Require Import sorting.
From S2P Require Import Prelude SMap FrameShm HevcBits HevcParse HevcConceal HevcCodes HevcRoundtrip ConcealProps Spatial.
(** A slice header the donor of a freeze may carry, whatever parameter sets it
    was parsed with. *)
Record SpatialDonor (d : SliceInfo) : Prop := {
  sd_span : 0 <= d.(strps_bit_begin) <= d.(strps_bit_end) /\ d.(strps_bit_end) <= 8 * len d.(header_rbsp);
  sd_rbsp : len d.(header_rbsp) <= 256;
  sd_type : d.(slice_type) = 1;
  sd_poc : 0 <= d.(poc_lsb) < 65536
}.

Definition GeometryOk (g : list Z) : Prop := (g = [] \/ geometry_shape g = true) /\ Forall u32 g.
Lemma geometry_nil : GeometryOk [].
Proof. split; [by left|constructor]. Qed.
#[local] Hint Resolve geometry_nil : core.

Record SpatialOk (t : SpatialRepair) : Prop := {
  so_sps : t.(have_sps_) = true -> exists nal, parse_sps nal = Some (Some t.(sps_));
  so_pps : t.(have_pps_) = true -> exists nal, parse_pps nal = Some (Some t.(pps_));
  so_geometry : GeometryOk t.(geometry_);
  so_pending : GeometryOk t.(geometry_pending_);
  so_donor : t.(have_donor_) = true -> SpatialDonor t.(donor_);
  so_meta : length t.(meta_template_) = 8%nat;
  so_last_poc : 0 <= t.(last_poc_) < 65536
}.

Lemma spatial_init_ok cfg : SpatialOk (SpatialRepair_init cfg).
Proof. split; cbn; auto; done. Qed.
Lemma reset_stream_ok t : SpatialOk t -> SpatialOk (reset_stream t).
Proof. intros []. split; cbn; auto; done. Qed.
Lemma count_failed_ok t : SpatialOk t -> SpatialOk (count_failed t).
Proof. by intros []. Qed.
Lemma with_stats_ok t s : SpatialOk t -> SpatialOk (with_stats t s).
Proof. by intros []. Qed.
Lemma with_poc_ok t poc : 0 <= poc < 65536 -> SpatialOk t -> SpatialOk (with_poc t poc).
Proof. by intros Hp []. Qed.
Lemma with_clock_ok t pts delta : SpatialOk t -> SpatialOk (with_clock t pts delta).
Proof. by intros []. Qed.
Lemma forget_shape_ok t : SpatialOk t -> SpatialOk (forget_shape t).
Proof. intros []. split; cbn; auto; done. Qed.
#[local] Hint Resolve with_poc_ok forget_shape_ok : core.

(** ** A slice that parsed *)
(** What every accepted body satisfies, the parsed header satisfies. *)
Lemma parse_slice_post (Q : SliceInfo -> Prop) nal sps pps d :
  (forall h0 h1 ty rbsp, nal_type nal = Some ty -> post (slice_body sps pps h0 h1 ty rbsp) Q) ->
  parse_slice_header nal sps pps = Some (Some d) -> Q d.
Proof.
  intros HQ. unfold parse_slice_header. destruct (len nal <? 3); [done|].
  destruct (rd8 nal 0) as [h0|]; [|done]. destruct (rd8 nal 1) as [h1|]; [|done].
  destruct (nal_type nal) as [ty|] eqn:Et; [|done]. cbn [mbind option_bind]. destruct (negb _); [done|].
  apply run_parser_post. by apply HQ.
Qed.
Lemma parsed_type nal sps pps d ty :
  parse_slice_header nal sps pps = Some (Some d) -> nal_type nal = Some ty -> d.(nal_unit_type) = ty.
Proof.
  intros E Et. revert E. apply (parse_slice_post (fun d => d.(nal_unit_type) = ty)). intros h0 h1 ty' rbsp E. assert (ty' = ty) as -> by congruence.
  unfold slice_body. cbv zeta. repeat post_step. by apply post_ret.
Qed.
Lemma parsed_poc nal sps pps d : SpsOk sps -> parse_slice_header nal sps pps = Some (Some d) -> 0 <= d.(poc_lsb) < 65536.
Proof.
  intros Hs. apply (parse_slice_post (fun d => 0 <= d.(poc_lsb) < 65536)). intros h0 h1 ty rbsp _. pose proof (HevcRoundtrip.so_poc _ Hs) as Hp.
  assert (H16 : 2 ^ log2_max_poc_lsb sps <= 2 ^ 16) by (apply Z.pow_le_mono_r; lia). change (2 ^ 16) with 65536 in H16.
  assert (Href : post (slice_refs sps) (fun x => 0 <= x.1.1.1.1.1 < 65536)).
  { unfold slice_refs. eapply post_bind; [apply post_u_bound; lia|]. intros poc Hpoc. cbn in Hpoc.
    repeat post_step. apply post_ret. cbn. lia. }
  unfold slice_body. cbv zeta.
  repeat first
    [ match goal with |- post ((if ?b then slice_refs sps else _) ≫= _) _ =>
        apply (post_bind _ _ (fun x : Z * Z * Z * Z * Z * bool => 0 <= x.1.1.1.1.1 < 65536));
          [destruct b; [apply Href|by apply post_ret]|intros [[[[[? ?] ?] ?] ?] ?] ?] end
    | post_step ].
  by apply post_ret.
Qed.

Lemma parsed_address nal sps pps d : SpsOk sps -> parse_slice_header nal sps pps = Some (Some d) -> u32 d.(address).
Proof.
  intros Hs. apply (parse_slice_post (fun d => u32 d.(address))). intros h0 h1 ty rbsp _.
  assert (Ha : 0 <= addr_bits sps <= 32).
  { destruct (sps_ok_geometry _ Hs) as (_ & _ & _ & _ & _ & Hb). lia. }
  assert (H32 : 2 ^ addr_bits sps <= 2 ^ 32) by (apply Z.pow_le_mono_r; lia). change (2 ^ 32) with 4294967296 in H32.
  unfold slice_body. cbv zeta.
  repeat first
    [ match goal with |- post ((if negb ?b then _ else mret (false, 0)) ≫= _) _ =>
        apply (post_bind _ _ (fun x : bool * Z => u32 x.2));
          [destruct b; cbn [negb]; [apply post_ret; cbn; ints|eapply post_bind; [apply post_true|intros ? _];
            eapply post_bind; [apply post_u_bound; lia|intros ? Hb; cbv beta in Hb; apply post_ret; cbn; ints]]|intros [? ?] ?] end
    | post_step ].
  by apply post_ret.
Qed.

(** The donor a P slice makes. *)
Lemma parsed_spatial_donor nal sps pps nal_t d :
  SpsOk sps -> PpsOk pps -> parse_slice_header nal sps pps = Some (Some d) -> nal_type nal = Some nal_t ->
  nal_is_irap nal_t = false -> d.(slice_type) = 1 -> SpatialDonor d /\ d.(has_poc) = true.
Proof.
  intros Hs Hp E Et Hirap Hty.
  assert (Hpoc : has_poc d = true).
  { destruct (donor_nal_header _ _ _ _ E) as (_ & _ & ->). rewrite (parsed_type _ _ _ _ _ E Et). revert Hirap. unfold nal_is_irap, nal_is_idr. lia. }
  split; [|done]. pose proof (parse_slice_header_donor _ _ _ _ Hs Hp E Hty Hpoc) as []. pose proof (parsed_poc _ _ _ _ Hs E).
  by split.
Qed.

(** ** The comparison of two spans *)
Lemma span_bits_total a b n pa pb :
  0 <= pa -> 0 <= pb -> pa + Z.of_nat n <= 8 * len a -> pb + Z.of_nat n <= 8 * len b ->
  is_Some (span_bits_equal a b n pa pb).
Proof.
  revert pa pb. induction n as [|n IH]; intros pa pb Ha Hb Hla Hlb; [done|]. cbn [span_bits_equal].
  rewrite !Z.shiftr_div_pow2 by lia. change (2 ^ 3) with 8.
  destruct (lookup_lt_is_Some_2 a (Z.to_nat (pa / 8))) as [x ->]; [pose proof (Z.mul_div_le pa 8); lia|].
  destruct (lookup_lt_is_Some_2 b (Z.to_nat (pb / 8))) as [y ->]; [pose proof (Z.mul_div_le pb 8); lia|].
  cbn [mbind option_bind]. destruct (_ =? _); [|done]. apply IH; lia.
Qed.
Lemma rps_span_equal_total a b : SpatialDonor a -> SpatialDonor b -> is_Some (rps_span_equal a b).
Proof.
  intros [Ha Hla _ _] [Hb Hlb _ _]. unfold rps_span_equal. rewrite !to_u32_id by ints.
  destruct (negb _) eqn:E; [done|]. bool_hyps. apply span_bits_total; lia.
Qed.

(** ** The scan has fuel enough: a turn consumes a byte *)
Lemma nal_body_rest l b r : nal_body l = (b, Some r) -> (length r <= length l)%nat.
Proof.
  revert b. induction l as [|a l IH]; intros b; cbn [nal_body]; [done|].
  destruct (is_code (a :: l)); [intros H; inversion H; by subst|]. destruct (nal_body l) as [b' r'].
  intros H. inversion H; subst. pose proof (IH b' eq_refl). cbn. lia.
Qed.
Lemma split_nals_fuel n m l : (length l <= n)%nat -> (length l <= m)%nat -> split_nals n l = split_nals m l.
Proof.
  revert m l. induction n as [|n IH]; intros m l Hn Hm.
  { destruct l; [|cbn in Hn; lia]. by destruct m. }
  destruct m as [|m]; [destruct l; [done|cbn in Hm; lia]|]. cbn [split_nals].
  destruct (is_code l) eqn:Ec; [|destruct l; [done|cbn in *; apply IH; lia]].
  destruct l as [|a [|b [|c l]]]; [done..|]. cbn [drop length] in *. rewrite drop_0.
  destruct (nal_body l) as [body [r|]] eqn:Eb; [|done]. apply nal_body_rest in Eb. f_equal. apply IH; lia.
Qed.

(** ** Learning *)
Lemma spatial_sps t : SpatialOk t -> t.(have_sps_) = true -> SpsOk t.(sps_).
Proof. intros Ht Hh. destruct (so_sps _ Ht Hh) as [nal E]. by eapply parse_sps_ok. Qed.
Lemma spatial_pps t : SpatialOk t -> t.(have_pps_) = true -> PpsOk t.(pps_).
Proof. intros Ht Hh. destruct (so_pps _ Ht Hh) as [nal E]. by eapply parse_pps_ok. Qed.

Lemma learn_sps_ok t s nal : SpatialOk t -> parse_sps nal = Some (Some s) -> SpatialOk (learn_sps t s).
Proof.
  intros Ht E. unfold learn_sps.
  assert (H : SpatialOk (if have_sps_ t && (negb (pic_size_ctbs s =? pic_size_ctbs (sps_ t)) || negb (log2_ctb s =? log2_ctb (sps_ t)))
    then forget_shape t else t)) by (destruct (_ && _); auto).
  revert H. generalize (if have_sps_ t && (negb (pic_size_ctbs s =? pic_size_ctbs (sps_ t)) || negb (log2_ctb s =? log2_ctb (sps_ t)))
    then forget_shape t else t). intros u []. split; cbn; try done. by exists nal.
Qed.
Lemma with_pps_ok t p nal : SpatialOk t -> parse_pps nal = Some (Some p) -> SpatialOk (with_pps t p).
Proof. intros [] E. split; cbn; try done. by exists nal. Qed.
Lemma with_donor_ok t d b : SpatialOk t -> SpatialDonor d -> SpatialOk (with_donor t d b).
Proof. intros [] Hd. by split. Qed.
Lemma with_geometry_ok t g p : SpatialOk t -> GeometryOk g -> GeometryOk p -> SpatialOk (with_geometry t g p).
Proof. intros [] ??. by split. Qed.

(** The scan's locals: every address found is a 32-bit one. *)
Definition LearnOk (ls : LearnState) : Prop := SpatialOk ls.(ls_t) /\ Forall u32 ls.(ls_addrs).

Lemma learn_slice_ok ls nal nal_t d :
  LearnOk ls -> ls.(ls_t).(have_sps_) = true -> ls.(ls_t).(have_pps_) = true ->
  parse_slice_header nal ls.(ls_t).(sps_) ls.(ls_t).(pps_) = Some (Some d) -> nal_type nal = Some nal_t ->
  exists ls', learn_slice ls nal_t d = Some ls' /\ LearnOk ls'.
Proof.
  intros [Ht Hu] Hs Hp E Et. pose proof (spatial_sps _ Ht Hs) as Hso. pose proof (spatial_pps _ Ht Hp) as Hpo.
  pose proof (parsed_poc _ _ _ _ Hso E) as Hpoc. unfold learn_slice.
  pose proof (parsed_address _ _ _ _ Hso E) as Haddr.
  assert (Ht' : SpatialOk (with_poc (ls_t ls) (if has_poc d then poc_lsb d else 0))) by (apply with_poc_ok; [destruct (has_poc d); lia|done]).
  assert (Hu' : Forall u32 (ls_addrs ls ++ [address d])) by (apply Forall_app; split; [done|by apply Forall_singleton]).
  destruct (_ && _) eqn:Eg; [|by eexists]. bool_hyps.
  destruct (parsed_spatial_donor _ _ _ _ _ Hso Hpo E Et) as [Hd _]; [done..|].
  cbn [have_donor_ donor_ with_poc]. destruct (have_donor_ (ls_t ls)) eqn:Eh.
  - destruct (rps_span_equal_total d (donor_ (ls_t ls)) Hd (so_donor _ Ht Eh)) as [b ->]. cbn [mbind option_bind].
    eexists. split; [done|]. split; [by apply with_donor_ok|done].
  - eexists. split; [done|]. split; [by apply with_donor_ok|done].
Qed.

(** With every PPS evaluable, a NAL is learnt and the invariant kept. *)
Lemma learn_nal_ok ls nal :
  LearnOk ls -> is_Some (parse_pps nal) -> exists ls', learn_nal ls nal = Some ls' /\ LearnOk ls'.
Proof.
  intros [Ht Hu] [rp Ep]. unfold learn_nal. destruct (Z.ltb_spec (len nal) 2); [by eexists|].
  destruct (nal_type_some nal) as [ty Et]; [lia|]. rewrite Et. cbn [mbind option_bind].
  destruct (ty =? kNalSps).
  { destruct (parse_sps_total nal) as [[s|] E]; rewrite E; cbn [mbind option_bind]; [|by eexists].
    eexists. split; [done|]. split; [by eapply learn_sps_ok|done]. }
  destruct (ty =? kNalPps).
  { rewrite Ep. cbn [mbind option_bind]. destruct rp as [p|]; [|by eexists]. eexists. split; [done|].
    split; [by eapply with_pps_ok|done]. }
  destruct (nal_is_vcl ty && have_sps_ (ls_t ls) && have_pps_ (ls_t ls)) eqn:Eg; [|by eexists]. bool_hyps.
  destruct (parse_slice_header_total (sps_ (ls_t ls)) (spatial_sps _ Ht ltac:(done)) nal (pps_ (ls_t ls))) as [[d|] E];
    rewrite E; cbn [mbind option_bind]; [|by eexists].
  by eapply learn_slice_ok.
Qed.

Lemma learn_nals_ok l ls :
  LearnOk ls -> Forall (fun nal => is_Some (parse_pps nal)) l ->
  exists ls', foldM learn_nal l ls = Some ls' /\ LearnOk ls'.
Proof.
  intros Ht Hl. revert ls Ht. induction Hl as [|nal l Hn _ IH]; intros ls Ht; [by eexists|]. cbn [foldM].
  destruct (learn_nal_ok ls nal Ht Hn) as (ls' & -> & Ht'). by apply IH.
Qed.

Lemma learn_geometry_ok ls : LearnOk ls -> SpatialOk (learn_geometry ls).
Proof.
  intros [Ht Hu]. unfold learn_geometry. destruct (negb (ls_saw_vcl ls)); [done|].
  destruct (ls_geometry_ok ls && geometry_shape (ls_addrs ls)) eqn:E; [|destruct (negb _); auto].
  bool_hyps. assert (Hg : GeometryOk (ls_addrs ls)) by (split; [by right|done]).
  apply with_geometry_ok; [done| |done]. destruct (_ && _); [done|apply (so_geometry _ Ht)].
Qed.

(** The PPS arithmetic of [parse_pps] is the only thing that can go wrong. *)
Definition pps_evaluable (blob : list Z) : bool :=
  let p := drop 8 blob in forallb (fun nal => bool_decide (is_Some (parse_pps nal))) (split_nals (length p) p).

Lemma learn_meta_ok t blob : SpatialOk t -> 12 <= len blob -> exists t', learn_meta t blob = Some t' /\ SpatialOk t'.
Proof.
  intros Ht Hl. unfold learn_meta, slice, rd_le32. change (Z.to_nat kVencFrameMetaSize) with 8%nat.
  destruct blob as [|b0 [|b1 [|b2 [|b3 [|b4 [|b5 [|b6 [|b7 rest]]]]]]]]; try (cbn in Hl; lia).
  cbn [length Nat.add Nat.leb mbind option_bind take drop rd8 lookup list_lookup]. eexists. split; [reflexivity|].
  apply with_clock_ok. destruct Ht. by split.
Qed.
Lemma learn_ok t blob : SpatialOk t -> pps_evaluable blob = true -> exists t', learn t blob = Some t' /\ SpatialOk t'.
Proof.
  intros Ht Hp. unfold learn. change kVencFrameMetaSize with 8. change (8 + 4) with 12.
  destruct (Z.ltb_spec (len blob) 12) as [|Hl]; [by eexists|]. unfold rd8.
  destruct (lookup_lt_is_Some_2 blob 4) as [codec ->]; [lia|]. cbn [mbind option_bind]. destruct (negb _); [by eexists|].
  destruct (learn_meta_ok t blob Ht Hl) as (t1 & -> & Ht1). cbn [mbind option_bind]. change (Z.to_nat 8) with 8%nat.
  unfold pps_evaluable in Hp. apply Is_true_true, forallb_True in Hp. set (p := drop 8 blob) in *.
  destruct (learn_nals_ok (split_nals (length p) p) (MkLearnState t1 [] true false) (conj Ht1 (Forall_nil_2 _))) as (ls & -> & Hls).
  { apply Forall_impl with (1 := Hp). intros nal Hn%Is_true_true. by apply bool_decide_eq_true in Hn. }
  cbn [mbind option_bind]. eexists. split; [done|]. by apply learn_geometry_ok.
Qed.

(** A frame that was learnt leaves a well-formed object. *)
Lemma parse_pps_undefined nal : parse_pps nal = None -> nal_type nal = Some kNalPps /\ 2 <= len nal.
Proof.
  unfold parse_pps. destruct (Z.ltb_spec (len nal) 3); [done|]. destruct (nal_type_some nal) as [ty Et]; [lia|]. rewrite Et.
  cbn [mbind option_bind]. destruct (Z.eqb_spec ty kNalPps) as [->|]; cbn [negb]; [|done]. intros _. split; [done|lia].
Qed.
Lemma learn_nal_keeps ls nal ls' : LearnOk ls -> learn_nal ls nal = Some ls' -> LearnOk ls'.
Proof.
  intros Hls E. destruct (parse_pps nal) as [r|] eqn:Ep.
  - destruct (learn_nal_ok ls nal Hls) as (ls2 & E2 & H2); [by rewrite Ep|]. by assert (ls' = ls2) as -> by congruence.
  - exfalso. destruct (parse_pps_undefined _ Ep) as [Et Hl]. unfold learn_nal in E.
    destruct (Z.ltb_spec (len nal) 2); [lia|]. rewrite Et in E. cbn [mbind option_bind] in E.
    change (kNalPps =? kNalSps) with false in E. change (kNalPps =? kNalPps) with true in E. by rewrite Ep in E.
Qed.
Lemma learn_nals_keep l ls ls' : LearnOk ls -> foldM learn_nal l ls = Some ls' -> LearnOk ls'.
Proof.
  revert ls. induction l as [|nal l IH]; intros ls Hls E; cbn [foldM] in E; [by injection E as <-|].
  destruct (learn_nal ls nal) as [ls1|] eqn:E1; [|done]. apply (IH ls1); [by eapply learn_nal_keeps|done].
Qed.
Lemma learn_keeps t blob t' : SpatialOk t -> learn t blob = Some t' -> SpatialOk t'.
Proof.
  intros Ht E. unfold learn in E. change kVencFrameMetaSize with 8 in E. change (8 + 4) with 12 in E.
  destruct (Z.ltb_spec (len blob) 12) as [|Hl]; [by injection E as <-|].
  destruct (rd8 blob 4); [|done]. cbn [mbind option_bind] in E. destruct (negb _); [by injection E as <-|].
  destruct (learn_meta_ok t blob Ht Hl) as (t1 & E1 & Ht1). rewrite E1 in E. cbn [mbind option_bind] in E.
  destruct (foldM _ _ _) as [ls|] eqn:Ef; [|done]. injection E as <-. apply learn_geometry_ok.
  eapply learn_nals_keep; [|exact Ef]. by split.
Qed.
Lemma write_egress_keeps {E} (sink : E -> list Z -> E * bool) env t f env' t' ok :
  SpatialOk t -> write_egress sink env t f = Some (env', t', ok) -> SpatialOk t'.
Proof.
  intros Ht. unfold write_egress. destruct (sink env f) as [e b]. destruct (negb b); [intros [= <- <- <-]; by apply reset_stream_ok|].
  destruct (learn t f) as [t1|] eqn:El; [|done]. intros [= <- <- <-]. by eapply learn_keeps.
Qed.

(** Byte [p] of the frame is [b] according to a received chunk. *)
Definition received (s : Z) (sources : smap (list Z)) (p : nat) (b : Z) : Prop :=
  exists idx chunk, (idx, chunk) ∈ sources /\ idx * s <= Z.of_nat p /\ chunk !! (p - Z.to_nat (idx * s))%nat = Some b.

(** The buffers after some chunks: every byte marked present is a received one. *)
Record Laid (s : Z) (sources : smap (list Z)) (total : Z) (b : list Z * list Z) : Prop := {
  ld_assembly : len b.1 = total;
  ld_present : len b.2 = total;
  ld_received : forall p m, b.2 !! p = Some m -> m <> 0 -> exists c, b.1 !! p = Some c /\ received s sources p c
}.

Lemma memcpy_lookup (buf : list Z) off (src : list Z) n p :
  (off + n <= length buf)%nat -> (n <= length src)%nat ->
  (take off buf ++ take n src ++ drop (off + n) buf) !! p =
    if bool_decide (off <= p < off + n)%nat then src !! (p - off)%nat else buf !! p.
Proof.
  intros H1 H2. case_bool_decide as Hp.
  - rewrite lookup_app_r by (rewrite length_take; lia). rewrite length_take, Nat.min_l by lia.
    rewrite lookup_app_l by (rewrite length_take; lia). apply lookup_take_lt. lia.
  - destruct (decide (p < off)%nat).
    + rewrite lookup_app_l by (rewrite length_take; lia). by apply lookup_take_lt.
    + rewrite lookup_app_r by (rewrite length_take; lia). rewrite length_take, Nat.min_l by lia.
      rewrite lookup_app_r by (rewrite length_take; lia). rewrite length_take, Nat.min_l by lia.
      rewrite lookup_drop. f_equal. lia.
Qed.

Lemma lay_chunk_laid s sources total b c :
  0 <= s -> 0 <= c.1 -> c ∈ sources -> Laid s sources total b ->
  exists b', lay_chunk s total b c = Some b' /\ Laid s sources total b'.
Proof.
  intros Hs Hc Hin Hb. destruct b as [asm pres], c as [idx chunk], Hb as [Ha Hp Hr]. cbn [fst snd] in *. unfold lay_chunk.
  destruct (Z.geb_spec (idx * s) total); [eexists; by split|].
  set (n := Z.to_nat (Z.min (len chunk) (total - idx * s))).
  assert (H0 : 0 <= idx * s) by nia.
  rewrite !memcpy_some by (rewrite ?length_replicate; lia). cbn [mbind option_bind]. eexists. split; [done|].
  split; cbn [fst snd].
  - rewrite !length_app, !length_take, length_drop. lia.
  - rewrite !length_app, !length_take, length_drop, length_replicate. lia.
  - intros p m. rewrite !memcpy_lookup by (rewrite ?length_replicate; lia). case_bool_decide as Hd; [|apply Hr].
    intros _ _. destruct (lookup_lt_is_Some_2 chunk (p - Z.to_nat (idx * s))) as [v Ev]; [lia|]. exists v. split; [done|].
    exists idx, chunk. split_and!; [done|lia|done].
Qed.

Lemma lay_chunks_laid s sources total :
  0 <= s -> 0 <= total -> Forall (fun c => 0 <= c.1) sources ->
  exists b, lay_chunks s total sources = Some b /\ Laid s sources total b.
Proof.
  intros Hs Ht Hk. unfold lay_chunks.
  assert (H0 : Laid s sources total (replicate (Z.to_nat total) 0, replicate (Z.to_nat total) 0)).
  { split; cbn [fst snd]; rewrite ?length_replicate; try lia. intros p m Hm. by apply lookup_replicate in Hm as [-> _]. }
  revert H0. generalize (replicate (Z.to_nat total) 0, replicate (Z.to_nat total) 0).
  enough (H : forall l, Forall (fun c => 0 <= c.1 /\ c ∈ sources) l -> forall b, Laid s sources total b ->
      exists b', foldM (lay_chunk s total) l b = Some b' /\ Laid s sources total b').
  { intros p. apply H. apply Forall_forall. intros c Hc. split; [|done]. rewrite Forall_forall in Hk. auto. }
  clear Hk. induction 1 as [|c l [Hc Hin] _ IH]; intros b Hb; [by eexists|]. cbn [foldM].
  destruct (lay_chunk_laid s sources total b c Hs Hc Hin Hb) as (b' & -> & Hb'). by apply IH.
Qed.

(** ** Start codes *)
(** A start code at offset [j] of the buffers, all of it present. *)
Definition code_at (asm pres : list Z) (j : nat) : Prop :=
  asm !! j = Some 0 /\ asm !! (j + 1)%nat = Some 0 /\ asm !! (j + 2)%nat = Some 1 /\
  forall i, (i < 3)%nat -> exists m, pres !! (j + i)%nat = Some m /\ m <> 0.

Lemma code_at_S a pa asm pres j : code_at asm pres j -> code_at (a :: asm) (pa :: pres) (S j).
Proof. intros H. exact H. Qed.
Lemma code_at_shift n asm pres j :
  (n <= length asm)%nat -> (n <= length pres)%nat -> code_at (drop n asm) (drop n pres) j -> code_at asm pres (n + j).
Proof.
  intros _ _. unfold code_at. rewrite !lookup_drop. intros (H1 & H2 & H3 & H4).
  split_and!; [done|by rewrite <- Nat.add_assoc..|]. intros i Hi. destruct (H4 i Hi) as (m & E & Hm). rewrite lookup_drop in E.
  exists m. by rewrite <- Nat.add_assoc.
Qed.

Lemma find_codes_spec n i asm pres :
  (length asm <= n)%nat ->
  Forall (fun j => i <= j /\ code_at asm pres (Z.to_nat (j - i))) (find_codes i asm pres) /\
  StronglySorted (fun a b => a + 3 <= b) (find_codes i asm pres).
Proof.
  revert i asm pres. induction n as [|n IH]; intros i asm pres Hl.
  { destruct asm; [|cbn in Hl; lia]. split; constructor. }
  destruct asm as [|a [|b [|c asm]]]; [split; constructor..|].
  destruct pres as [|pa [|pb [|pc pres]]]; [split; constructor..|].
  cbn [find_codes]. destruct (_ && _) eqn:E.
  - bool_hyps. subst. destruct (IH (i + 3) asm pres) as [HF HS]; [cbn in Hl; lia|]. split.
    + constructor.
      * split; [lia|]. rewrite Z.sub_diag. split_and!; try done. intros k Hk. destruct k as [|[|[|]]]; [eexists; by split..|lia].
      * eapply Forall_impl; [exact HF|]. intros j [Hj Hc]. split; [lia|].
        replace (Z.to_nat (j - i)) with (S (S (S (Z.to_nat (j - (i + 3)))))) by lia. exact Hc.
    + constructor; [done|]. eapply Forall_impl; [exact HF|]. intros j [Hj _]. lia.
  - destruct (IH (i + 1) (b :: c :: asm) (pb :: pc :: pres)) as [HF HS]; [cbn in *; lia|]. split; [|exact HS].
    eapply Forall_impl; [exact HF|]. intros j [Hj Hc]. split; [lia|].
    replace (Z.to_nat (j - i)) with (S (Z.to_nat (j - (i + 1)))) by lia. exact Hc.
Qed.

(** ** The NALs found *)
Lemma span_present_inv pres total off n :
  0 <= off -> 0 <= n -> len pres = total -> span_present pres total off n = true ->
  off + n <= total /\ forall p, (Z.to_nat off <= p < Z.to_nat (off + n))%nat -> exists m, pres !! p = Some m /\ m <> 0.
Proof.
  intros Ho Hn Hl E. apply andb_true_iff in E as [E1 H]. split; [lia|]. intros p Hp.
  destruct (lookup_lt_is_Some_2 pres p) as [m Em]; [lia|]. exists m. split; [done|].
  apply Is_true_true, forallb_True in H. rewrite Forall_lookup in H. specialize (H (p - Z.to_nat off)%nat m).
  rewrite lookup_take_lt, lookup_drop in H by lia.
  replace (Z.to_nat off + (p - Z.to_nat off))%nat with p in H by lia.
  specialize (H Em). apply Is_true_true in H. lia.
Qed.

Section Found.
Context (sps : SpsInfo) (pps : PpsInfo) (s : Z) (sources : smap (list Z)) (total : Z) (b : list Z * list Z).
Context (Hsps : SpsOk sps) (Hb : Laid s sources total b).
Local Abbreviation assembly := (b.1).
Local Abbreviation present := (b.2).

(** A stretch of the buffer all of which was received. *)
Definition verbatim (off n : Z) (l : list Z) : Prop :=
  0 <= off /\ len l = n /\ forall i c, l !! i = Some c -> received s sources (Z.to_nat off + i) c.

Lemma slice_verbatim off n :
  0 <= off -> 0 <= n -> span_present present total off n = true ->
  exists l, slice assembly (Z.to_nat off) (Z.to_nat n) = Some l /\ verbatim off n l.
Proof.
  intros Ho Hn E. destruct Hb as [Ha Hp Hr]. apply span_present_inv in E as [Hle Hall]; [|done..].
  unfold slice. rewrite (proj2 (Nat.leb_le _ _)) by lia. eexists. split; [done|]. split_and!; [done| |].
  - rewrite length_take, length_drop. lia.
  - intros i c Hc. apply lookup_take_Some in Hc as [Hc Hi]. rewrite lookup_drop in Hc.
    destruct (Hall (Z.to_nat off + i)%nat) as (m & Em & Hm); [lia|]. destruct (Hr _ _ Em Hm) as (c' & Ec' & Hrec).
    by assert (c = c') as -> by congruence.
Qed.
Lemma span_present_sub off n off' n' :
  0 <= off -> off <= off' -> 0 <= n' -> off' + n' <= off + n ->
  span_present present total off n = true -> span_present present total off' n' = true.
Proof.
  intros Ho Ho' Hn' Hle E. destruct Hb as [Ha Hp _]. apply span_present_inv in E as [Hle' Hall]; [|lia..].
  unfold span_present. apply andb_true_iff. split; [lia|]. apply Is_true_true, forallb_True, Forall_lookup.
  intros i c Hc. apply lookup_take_Some in Hc as [Hc Hi]. rewrite lookup_drop in Hc.
  destruct (Hall (Z.to_nat off' + i)%nat) as (m & Em & Hm); [lia|]. assert (c = m) as -> by congruence.
  apply Is_true_true. lia.
Qed.

(** A NAL that counts: complete, verbatim, and for a slice with its header. *)
Record NalOk (f : FoundNal) : Prop := {
  nk_range : 0 <= f.(sc_off) /\ f.(nal_off) = f.(sc_off) + 3 /\ f.(nal_off) + 2 <= f.(end_off) <= total;
  nk_bytes : exists payload, nal_bytes assembly f = Some ([0; 0; 1] ++ payload) /\
             verbatim f.(sc_off) (f.(end_off) - f.(sc_off)) ([0; 0; 1] ++ payload) /\
             (exists t, nal_type payload = Some t /\ nal_is_irap t = false /\ nal_is_vcl t = f.(is_vcl)) /\
             (forall d, f.(slice_) = Some d -> parse_slice_header payload sps pps = Some (Some d))
}.
Definition FoundOk (f : FoundNal) : Prop :=
  0 <= f.(sc_off) /\ (f.(complete) = true -> NalOk f) /\ (is_Some f.(slice_) -> f.(complete) = true /\ f.(is_vcl) = true).

Lemma code_bytes sc n l :
  code_at assembly present (Z.to_nat sc) -> 3 <= n -> slice assembly (Z.to_nat sc) (Z.to_nat n) = Some l ->
  l = [0; 0; 1] ++ take (Z.to_nat (n - 3)) (drop (Z.to_nat (sc + 3)) assembly) \/ sc < 0.
Proof.
  intros (H0 & H1 & H2 & _) Hn E. destruct (Z.ltb_spec sc 0); [by right|left]. unfold slice in E. destruct (_ <=? _)%nat; [|done].
  injection E as <-. replace (Z.to_nat n) with (S (S (S (Z.to_nat (n - 3))))) by lia.
  replace (Z.to_nat (sc + 3)) with (S (S (S (Z.to_nat sc)))) by lia.
  rewrite (drop_S _ _ _ H0), (drop_S assembly 0 (S (Z.to_nat sc))), (drop_S assembly 1 (S (S (Z.to_nat sc)))); [done|..].
  - by replace (S (S (Z.to_nat sc))) with (Z.to_nat sc + 2)%nat by lia.
  - by replace (S (Z.to_nat sc)) with (Z.to_nat sc + 1)%nat by lia.
Qed.

Lemma nal_type_take l n : (1 <= n)%nat -> nal_type (take n l) = nal_type l.
Proof. intros. destruct n; [lia|]. by destruct l. Qed.

(** The body of the loop on the start code at [sc]: defined, and what it keeps
    is a well-formed NAL. *)
Lemma found_nal_ok frame_len sc next :
  0 <= sc -> sc + 3 <= total -> code_at assembly present (Z.to_nat sc) ->
  (forall n, next = Some n -> sc + 3 <= n <= total) ->
  exists r, found_nal sps pps assembly present total frame_len sc next = Some r /\
    forall f, r = Some f -> FoundOk f /\ f.(sc_off) = sc /\ f.(end_off) <= default total next.
Proof.
  intros Hsc Hsct Hcode Hnext. unfold found_nal. set (next_sc := default total next).
  assert (Hn : sc + 3 <= next_sc <= total) by (unfold next_sc; destruct next; cbn; [auto|lia]).
  set (whole := span_present _ _ _ _ && _). destruct Hb as [Ha Hp _].
  assert (Htrim : exists tr, (if (next_sc >? sc + 3) && (next_sc <? total)
      then z ← rd8 assembly (Z.to_nat (next_sc - 1)); Some (z =? 0) else Some false) = Some tr /\ (tr = true -> sc + 3 < next_sc)).
  { destruct ((next_sc >? sc + 3) && (next_sc <? total)) eqn:E; [|by exists false]. bool_hyps. unfold rd8.
    destruct (lookup_lt_is_Some_2 assembly (Z.to_nat (next_sc - 1))) as [z ->]; [lia|]. eexists. split; [done|]. lia. }
  destruct Htrim as (tr & -> & Htr). cbn [mbind option_bind]. set (end_ := if tr then next_sc - 1 else next_sc).
  assert (He : end_ <= next_sc) by (unfold end_; destruct tr; lia).
  destruct (Z.ltb_spec end_ (sc + 3 + 2)) as [|Hend].
  { eexists. split; [done|]. intros f [= <-]. split_and!; [|done|done]. split_and!; [done|done|]. cbn. by intros []. }
  destruct (nal_type_some (drop (Z.to_nat (sc + 3)) assembly)) as [ty Ety]; [rewrite length_drop; lia|].
  rewrite Ety. cbn [mbind option_bind]. destruct (nal_is_irap ty) eqn:Eirap; [by eexists|].
  assert (Hok : forall d, whole = true ->
    (forall d', d = Some d' -> parse_slice_header (take (Z.to_nat (end_ - (sc + 3))) (drop (Z.to_nat (sc + 3)) assembly)) sps pps = Some (Some d')) ->
    NalOk (MkFoundNal sc (sc + 3) end_ whole (nal_is_vcl ty) d)).
  { intros d Hw Hd. split; cbn; [lia|]. unfold nal_bytes. cbn [sc_off end_off].
    assert (Hs : span_present present total sc (end_ - sc) = true).
    { apply (span_present_sub sc (next_sc - sc)); try lia. unfold whole in Hw. by apply andb_true_iff in Hw as [? _]. }
    destruct (slice_verbatim sc (end_ - sc)) as (l & El & Hl); [lia|lia|exact Hs|].
    destruct (code_bytes sc (end_ - sc) l Hcode) as [->|]; [lia|done| |lia].
    replace (end_ - sc - 3) with (end_ - (sc + 3)) in * by lia. eexists. split_and!; [exact El|exact Hl| |exact Hd].
    exists ty. split_and!; [|done|done]. rewrite nal_type_take by lia. done. }
  destruct (nal_is_vcl ty && whole) eqn:E.
  - apply andb_true_iff in E as [Ev Ew]. unfold slice. rewrite (proj2 (Nat.leb_le _ _)) by lia. cbn [mbind option_bind].
    destruct (parse_slice_header_total sps Hsps (take (Z.to_nat (end_ - (sc + 3))) (drop (Z.to_nat (sc + 3)) assembly)) pps) as [[d|] Ed];
      rewrite Ed; cbn [mbind option_bind]; [|by eexists].
    destruct (dependent d); [by eexists|]. eexists. split; [done|]. intros f [= <-]. split_and!; [|done|done].
    split_and!; [done| |done]. intros _. rewrite <- Ev. apply Hok; [done|]. by intros d' [= <-].
  - eexists. split; [done|]. intros f [= <-]. split_and!; [|done|done]. split_and!; [done| |by intros []].
    intros Hw. by apply Hok.
Qed.

Lemma found_nals_ok frame_len codes :
  Forall (fun j => 0 <= j /\ j + 3 <= total /\ code_at assembly present (Z.to_nat j)) codes ->
  StronglySorted (fun a b => a + 3 <= b) codes ->
  exists r, found_nals sps pps assembly present total frame_len codes = Some r /\
    forall l, r = Some l -> Forall FoundOk l /\ sc_off <$> l = codes.
Proof.
  intros HF HS. induction HF as [|sc codes (H0 & H3 & Hc) HF IH]; [eexists; split; [done|]; by intros l [= <-]|].
  cbn [found_nals]. apply StronglySorted_inv in HS as [HS Hle].
  destruct (found_nal_ok frame_len sc (head codes) H0 H3 Hc) as (r & -> & Hr).
  { intros n Hn. destruct codes as [|c codes]; [done|]. injection Hn as ->. apply Forall_cons in Hle as [? _]. apply Forall_cons in HF as [(? & ? & _) _]. lia. }
  cbn [mbind option_bind]. destruct r as [f|]; [|by eexists]. destruct (Hr f eq_refl) as (Hf & Esc & _).
  destruct (IH HS) as (r' & -> & Hr'). cbn [mbind option_bind]. destruct r' as [l|]; [|by eexists].
  eexists. split; [done|]. intros l' [= <-]. destruct (Hr' l eq_refl) as [Hl <-]. split; [by constructor|]. cbn. by rewrite Esc.
Qed.
End Found.

(** ** What the chunks tell of the frame *)
Section Known.
Context (s fl : Z) (sources : smap (list Z)).
(** The size of the frame: the declared one, or the end of the last chunk. *)
Definition frame_size : Z :=
  if decide (fl = 0) then match last sources with Some (i, c) => (i * s + len c) mod 2 ^ 32 | None => 0 end else fl.
Definition chunk_byte (p : nat) (c : Z * list Z) : option Z :=
  if decide (c.1 * s <= Z.of_nat p) then c.2 !! (p - Z.to_nat (c.1 * s))%nat else None.
Definition known_in (l : list (Z * list Z)) (p : nat) : option Z :=
  fold_left (fun a c => match chunk_byte p c with Some b => Some b | None => a end) l None.
(** Byte [p] of the frame, when a chunk holds it. *)
Definition known (p : nat) : option Z := if decide (Z.of_nat p < frame_size) then known_in sources p else None.
Definition start_code (p : nat) : Prop := known p = Some 0 /\ known (p + 1) = Some 0 /\ known (p + 2) = Some 1.
#[export] Instance start_code_dec p : Decision (start_code p).
Proof. unfold start_code. apply _. Defined.

(** A slice that survived whole: from a start code to the next one, or to the
    end of a frame of declared size, every byte known; the zero byte of a
    four-byte start code belongs to the latter. *)
Definition SurvivorAt (p : nat) (nal : list Z) : Prop :=
  exists e : nat, (8 <= p)%nat /\ start_code p /\ (p + 3 <= e)%nat /\ (forall q, (p + 3 <= q < e)%nat -> ~ start_code q) /\
    (start_code e \/ Z.of_nat e = frame_size /\ fl <> 0) /\ (forall q, (p <= q < e)%nat -> is_Some (known q)) /\
    length nal = (if decide (start_code e /\ known (e - 1) = Some 0%Z /\ p + 3 < e) then e - 1 - p else e - p)%nat /\
    (5 <= length nal)%nat /\ (forall i c, nal !! i = Some c -> known (p + i) = Some c) /\
    exists ty, nal_type (drop 3 nal) = Some ty /\ nal_is_vcl ty = true.
Definition Survivor (nal : list Z) : Prop := exists p, SurvivorAt p nal.
(** What makes the whole frame useless: a NAL of an intra random access
    point, a surviving slice whose header does not parse, a dependent one. *)
Inductive Spoiled (sps : SpsInfo) (pps : PpsInfo) : Prop :=
| spoiled_irap p h : (8 <= p)%nat -> start_code p -> known (p + 3) = Some h -> nal_is_irap (Z.land (Z.shiftr h 1) 63) = true -> Spoiled sps pps
| spoiled_slice nal : Survivor nal ->
    (parse_slice_header (drop 3 nal) sps pps = Some None \/
     exists d, parse_slice_header (drop 3 nal) sps pps = Some (Some d) /\ d.(dependent) = true) -> Spoiled sps pps.

Lemma source_total_size total : source_total s fl sources = Some total -> total = frame_size.
Proof.
  unfold source_total, frame_size. destruct (Z.eqb_spec fl 0); cbn [negb].
  - rewrite decide_True by done. destruct (last sources) as [[i c]|]; [|done]. by intros [= <-].
  - rewrite decide_False by done. by intros [= <-].
Qed.

(** The buffers hold what is known. *)
Definition holds (total : Z) (l : list (Z * list Z)) (b : list Z * list Z) : Prop :=
  len b.1 = total /\ len b.2 = total /\
  forall p, Z.of_nat p < total -> match known_in l p with
    | Some c => b.1 !! p = Some c /\ b.2 !! p = Some 1
    | None => b.1 !! p = Some 0 /\ b.2 !! p = Some 0
    end.
Lemma lay_chunk_holds total l b c b' :
  0 <= s -> 0 <= c.1 -> holds total l b -> lay_chunk s total b c = Some b' -> holds total (l ++ [c]) b'.
Proof.
  intros Hs Hc (Ha & Hp & Hk). destruct b as [asm pres], c as [idx chunk]. cbn [fst snd] in *. unfold lay_chunk.
  assert (Hsn : forall p, known_in (l ++ [(idx, chunk)]) p = match chunk_byte p (idx, chunk) with Some b => Some b | None => known_in l p end).
  { intros p. unfold known_in. by rewrite fold_left_app. }
  destruct (Z.geb_spec (idx * s) total) as [Hge|Hlt].
  - intros [= <-]. split_and!; [done|done|]. intros p Hpt. rewrite Hsn. unfold chunk_byte. cbn [fst snd].
    rewrite decide_False by lia. by apply Hk.
  - set (n := Z.to_nat (Z.min (len chunk) (total - idx * s))). assert (H0 : 0 <= idx * s) by nia.
    rewrite !memcpy_some by (rewrite ?length_replicate; lia). cbn [mbind option_bind]. intros [= <-]. unfold holds. cbn [fst snd].
    split_and!; [rewrite !length_app, !length_take, length_drop; lia|rewrite !length_app, !length_take, length_drop, length_replicate; lia|].
    intros p Hpt. rewrite Hsn, !memcpy_lookup by (rewrite ?length_replicate; lia). unfold chunk_byte. cbn [fst snd].
    specialize (Hk p Hpt). case_decide as Hd.
    + destruct (chunk !! (p - Z.to_nat (idx * s))%nat) as [v|] eqn:Ev.
      * apply lookup_lt_Some in Ev as Hl. rewrite bool_decide_eq_true_2 by lia. split; [done|]. apply lookup_replicate. split; [done|lia].
      * apply lookup_ge_None in Ev. by rewrite bool_decide_eq_false_2 by lia.
    + by rewrite bool_decide_eq_false_2 by lia.
Qed.
Lemma lay_chunks_holds total b :
  0 <= s -> 0 <= total -> Forall (fun c => 0 <= c.1) sources -> lay_chunks s total sources = Some b -> holds total sources b.
Proof.
  intros Hs Ht Hk. unfold lay_chunks.
  assert (H0 : holds total [] (replicate (Z.to_nat total) 0, replicate (Z.to_nat total) 0)).
  { split_and!; cbn [fst snd]; rewrite ?length_replicate; try lia. intros p Hp. split; (apply lookup_replicate; split; [done|lia]). }
  revert H0. generalize (replicate (Z.to_nat total) 0, replicate (Z.to_nat total) 0).
  change sources with ([] ++ sources) at 2. generalize (@nil (Z * list Z)) as pre.
  induction Hk as [|c l Hc _ IH]; intros pre b0 H0 E; cbn [foldM] in E.
  - injection E as <-. by rewrite app_nil_r.
  - destruct (lay_chunk s total b0 c) as [b1|] eqn:E1; [|done]. cbn [mbind option_bind] in E.
    rewrite cons_middle, app_assoc. apply (IH _ b1); [|done]. by eapply lay_chunk_holds.
Qed.

Section Buffers.
Context (b : list Z * list Z) (Hb : holds frame_size sources b).
Lemma present_known p m : b.2 !! p = Some m -> m <> 0 -> exists c, known p = Some c /\ b.1 !! p = Some c.
Proof.
  destruct Hb as (_ & Hp & Hk). intros E Hm. apply lookup_lt_Some in E as Hl. unfold known. rewrite decide_True by lia.
  specialize (Hk p ltac:(lia)). destruct (known_in sources p) as [c|]; [exists c; naive_solver|destruct Hk; congruence].
Qed.
Lemma known_present p c : known p = Some c -> b.1 !! p = Some c /\ b.2 !! p = Some 1.
Proof.
  unfold known. case_decide as Hd; [|done]. intros E. destruct Hb as (_ & _ & Hk). specialize (Hk p Hd). by rewrite E in Hk.
Qed.
Lemma code_at_start p : code_at b.1 b.2 p <-> start_code p.
Proof.
  split.
  - intros (H0 & H1 & H2 & Hm). destruct (Hm 0%nat) as (m0 & E0 & M0); [lia|]. destruct (Hm 1%nat) as (m1 & E1 & M1); [lia|].
    destruct (Hm 2%nat) as (m2 & E2 & M2); [lia|]. rewrite Nat.add_0_r in E0.
    destruct (present_known _ _ E0 M0) as (c0 & K0 & A0). destruct (present_known _ _ E1 M1) as (c1 & K1 & A1).
    destruct (present_known _ _ E2 M2) as (c2 & K2 & A2). unfold start_code. split_and!; congruence.
  - intros (H0 & H1 & H2). apply known_present in H0 as [A0 P0], H1 as [A1 P1], H2 as [A2 P2]. split_and!; try done.
    intros i Hi. destruct i as [|[|[|]]]; [rewrite Nat.add_0_r|..|lia]; by eexists.
Qed.
Lemma span_known off n : 0 <= off -> 0 <= n -> off + n <= frame_size ->
  (forall q, (Z.to_nat off <= q < Z.to_nat (off + n))%nat -> is_Some (known q)) -> span_present b.2 frame_size off n = true.
Proof.
  intros Ho Hn Hle Hall. unfold span_present. apply andb_true_iff. split; [by apply Z.leb_le|]. apply Is_true_true, forallb_True, Forall_lookup.
  intros i m Hm. apply lookup_take_Some in Hm as [Hm Hi]. rewrite lookup_drop in Hm. apply Is_true_true.
  destruct (Hall (Z.to_nat off + i)%nat) as [c Hc]; [lia|]. apply known_present in Hc as [_ Hc].
  by assert (m = 1) as -> by congruence.
Qed.
End Buffers.
End Known.

Lemma survivor_code s fl sources nal : Survivor s fl sources nal -> nal = [0; 0; 1] ++ drop 3 nal.
Proof.
  intros (p & e & _ & (H0 & H1 & H2) & _ & _ & _ & _ & _ & H5 & Hb & _).
  destruct nal as [|a [|b [|c nal]]]; [cbn in H5; lia..|]. pose proof (Hb 0%nat a eq_refl) as E0. pose proof (Hb 1%nat b eq_refl) as E1.
  pose proof (Hb 2%nat c eq_refl) as E2. rewrite Nat.add_0_r in E0. simpl. repeat f_equal; congruence.
Qed.

(** No start code is missed. *)
Lemma find_codes_complete n i asm pres j :
  (length asm <= n)%nat -> i <= j -> code_at asm pres (Z.to_nat (j - i)) -> j ∈ find_codes i asm pres.
Proof.
  revert i asm pres. induction n as [|n IH]; intros i asm pres Hl Hj (H0 & H1 & H2 & Hm).
  { apply lookup_lt_Some in H0. lia. }
  destruct asm as [|a [|b [|c asm]]]; [apply lookup_lt_Some in H2; cbn in H2; lia..|].
  destruct (Hm 2%nat) as (m2 & E2 & M2); [lia|]. apply lookup_lt_Some in E2 as Hl2.
  destruct pres as [|pa [|pb [|pc pres]]]; [cbn in Hl2; lia..|]. cbn [find_codes].
  destruct (Hm 0%nat) as (m0 & E0 & M0); [lia|]. destruct (Hm 1%nat) as (m1 & E1 & M1); [lia|].
  destruct (decide (j = i)) as [->|Hne].
  { rewrite Z.sub_diag in *. cbn in H0, H1, H2, E0, E1, E2. injection H0 as ->. injection H1 as ->. injection H2 as ->.
    injection E0 as ->. injection E1 as ->. injection E2 as ->.
    replace (_ && _) with true by (symmetry; repeat (apply andb_true_iff; split); try done; by apply negb_true_iff, Z.eqb_neq).
    by left. }
  destruct (_ && _) eqn:E.
  - right. bool_hyps. subst. assert (Hj3 : i + 3 <= j).
    { destruct (decide (j = i + 1)) as [->|]; [replace (Z.to_nat (i + 1 - i)) with 1%nat in * by lia; cbn in H1; congruence|].
      destruct (decide (j = i + 2)) as [->|]; [replace (Z.to_nat (i + 2 - i)) with 2%nat in * by lia; cbn in H0; congruence|]. lia. }
    replace (Z.to_nat (j - i)) with (S (S (S (Z.to_nat (j - (i + 3)))))) in * by lia.
    apply IH; [cbn in Hl; lia|done|]. unfold code_at. cbn in H0, H1, H2. by split_and!.
  - replace (Z.to_nat (j - i)) with (S (Z.to_nat (j - (i + 1)))) in * by lia.
    apply (IH (i + 1) (b :: c :: asm) (pb :: pc :: pres)); [cbn in *; lia|lia|]. by split_and!.
Qed.

Lemma sorted_lookup {A} (R : A -> A -> Prop) l i j x y :
  StronglySorted R l -> l !! i = Some x -> l !! j = Some y -> (i < j)%nat -> R x y.
Proof.
  intros HS. revert i j. induction HS as [|a l _ IH HF]; intros i j Hi Hj Hij; [done|].
  destruct j as [|j]; [lia|]. destruct i as [|i]; [|apply (IH i j Hi Hj); lia].
  injection Hi as <-. rewrite Forall_lookup in HF. by apply (HF j).
Qed.
Lemma code_at_drop n asm pres j : (n <= j)%nat -> code_at asm pres j -> code_at (drop n asm) (drop n pres) (j - n).
Proof.
  intros Hn (H0 & H1 & H2 & Hm). unfold code_at. rewrite !lookup_drop.
  replace (n + (j - n))%nat with j by lia. replace (n + (j - n + 1))%nat with (j + 1)%nat by lia. replace (n + (j - n + 2))%nat with (j + 2)%nat by lia.
  split_and!; try done. intros i Hi. rewrite lookup_drop. replace (n + (j - n + i))%nat with (j + i)%nat by lia. by apply Hm.
Qed.
Lemma found_nals_at sps pps asm pres total fl codes found k sc :
  found_nals sps pps asm pres total fl codes = Some (Some found) -> codes !! k = Some sc ->
  exists f, f ∈ found /\ found_nal sps pps asm pres total fl sc (codes !! S k) = Some (Some f).
Proof.
  revert found k. induction codes as [|c codes IH]; intros found k E Hk; [done|]. cbn [found_nals] in E.
  destruct (found_nal _ _ _ _ _ _ _ _) as [[f|]|] eqn:Ef; [|done..]. cbn [mbind option_bind] in E.
  destruct (found_nals _ _ _ _ _ _ codes) as [[l|]|]; [|done..]. injection E as <-. destruct k as [|k].
  - injection Hk as <-. exists f. split; [by left|]. destruct codes; exact Ef.
  - destruct (IH l k eq_refl Hk) as (f' & Hin & Hf'). exists f'. split; [by right|done].
Qed.

Lemma found_nals_each sps pps asm pres total fl codes r :
  found_nals sps pps asm pres total fl codes = Some r ->
  match r with
  | None => exists k sc, codes !! k = Some sc /\ found_nal sps pps asm pres total fl sc (codes !! S k) = Some None
  | Some l => forall k f, l !! k = Some f ->
      exists sc, codes !! k = Some sc /\ found_nal sps pps asm pres total fl sc (codes !! S k) = Some (Some f)
  end.
Proof.
  revert r. induction codes as [|c codes IH]; intros r E; cbn [found_nals] in E; [by injection E as <-|].
  assert (Eh : forall {X} (g : option Z -> X), g (head codes) = g ((c :: codes) !! 1%nat)) by (intros; by destruct codes).
  destruct (found_nal _ _ _ _ _ _ _ _) as [[f|]|] eqn:Ef; [| |done]; cbn [mbind option_bind] in E; rewrite (Eh _ (found_nal _ _ _ _ _ _ _)) in Ef.
  - destruct (found_nals _ _ _ _ _ _ codes) as [r'|]; [|done]. specialize (IH r' eq_refl). destruct r' as [l|]; injection E as <-.
    + intros [|k] f' Hf'; [injection Hf' as <-; by exists c|]. by apply IH.
    + destruct IH as (k & sc & Hk & Ef'). by exists (S k), sc.
  - injection E as <-. by exists 0%nat, c.
Qed.

(** A slice that survived is found, and parsed as one. *)
Section SurvivorFound.
Context (sps : SpsInfo) (pps : PpsInfo) (s fl : Z) (sources : smap (list Z)) (b : list Z * list Z).
Local Abbreviation size := (frame_size s fl sources).
Context (Hb : holds s size sources b).
Local Abbreviation codes := (find_codes 8 (drop 8 b.1) (drop 8 b.2)).

Lemma code_known p : (8 <= p)%nat -> Z.of_nat p ∈ codes <-> start_code s fl sources p.
Proof.
  intros Hp. split.
  - intros Hin. destruct (find_codes_spec _ 8 (drop 8 b.1) (drop 8 b.2) (le_n _)) as [HF _]. rewrite Forall_forall in HF.
    destruct (HF _ Hin) as [Hle Hc]. destruct Hb as (Ha & Hpr & _). apply (code_at_start s fl sources b Hb).
    replace p with (8 + Z.to_nat (Z.of_nat p - 8))%nat by lia. unfold code_at in *. rewrite !lookup_drop in Hc.
    destruct Hc as (H0 & H1 & H2 & Hm). split_and!; [done|by rewrite <- Nat.add_assoc..|]. intros i Hi. rewrite <- Nat.add_assoc, <- lookup_drop. auto.
  - intros Hc. apply (code_at_start s fl sources b Hb) in Hc. apply (find_codes_complete _ 8 _ _ _ (le_n _)); [lia|].
    replace (Z.to_nat (Z.of_nat p - 8)) with (p - 8)%nat by lia. by apply code_at_drop.
Qed.

Lemma code_inside p : start_code s fl sources p -> Z.of_nat p < size.
Proof. intros (H0 & _). unfold known in H0. by case_decide. Qed.

(** The code after the one at [p] is where the NAL ends. *)
Lemma next_code p e k :
  codes !! k = Some (Z.of_nat p) -> (8 <= p)%nat -> (p + 3 <= e)%nat ->
  (forall q, (p + 3 <= q < e)%nat -> ~ start_code s fl sources q) -> start_code s fl sources e \/ Z.of_nat e = size /\ fl <> 0 ->
  codes !! S k = if decide (start_code s fl sources e) then Some (Z.of_nat e) else None.
Proof.
  intros Hk Hp He Hno Hend. destruct (find_codes_spec _ 8 (drop 8 b.1) (drop 8 b.2) (le_n _)) as [HF HS]. rewrite Forall_forall in HF.
  assert (Hord : forall i j x y, codes !! i = Some x -> codes !! j = Some y -> (i < j)%nat -> x + 3 <= y).
  { intros i j x y. by apply (sorted_lookup _ _ i j x y HS). }
  assert (Hafter : forall q, start_code s fl sources q -> (p < q)%nat -> exists j, codes !! j = Some (Z.of_nat q) /\ (k < j)%nat).
  { intros q Hq Hpq. apply code_known in Hq; [|lia]. apply list_elem_of_lookup in Hq as [j Hj]. exists j. split; [done|].
    destruct (Nat.lt_trichotomy j k) as [H| [->|H]]; [pose proof (Hord _ _ _ _ Hj Hk H); lia| |done].
    rewrite Hk in Hj. injection Hj as Hj. lia. }
  destruct (codes !! S k) as [c|] eqn:Ec.
  - pose proof (Hord _ _ _ _ Hk Ec ltac:(lia)) as Hpc. assert (Hc : start_code s fl sources (Z.to_nat c)).
    { apply code_known; [lia|]. rewrite Z2Nat.id by lia. by eapply list_elem_of_lookup_2. }
    assert (Hec : (e <= Z.to_nat c)%nat). { destruct (decide (e <= Z.to_nat c)%nat); [done|]. destruct (Hno (Z.to_nat c)); [lia|done]. }
    case_decide as Hd.
    + destruct (Hafter e Hd ltac:(lia)) as (j & Hj & Hkj). destruct (decide (j = S k)) as [->|]; [congruence|].
      pose proof (Hord _ _ _ _ Ec Hj ltac:(lia)). lia.
    + destruct Hend as [|[Hend _]]; [done|]. apply code_inside in Hc. lia.
  - case_decide as Hd; [|done]. destruct (Hafter e Hd ltac:(lia)) as (j & Hj & Hkj). apply lookup_ge_None in Ec. apply lookup_lt_Some in Hj. lia.
Qed.


Lemma survivor_found p nal found :
  SurvivorAt s fl sources p nal -> found_nals sps pps b.1 b.2 size fl codes = Some (Some found) ->
  exists f, f ∈ found /\ nal_bytes b.1 f = Some nal /\ is_Some f.(slice_).
Proof.
  intros (e & Hp & Hc & He & Hno & Hend & Hall & Hlen & H5 & Hbytes & ty & Ety & Hvcl) E.
  assert (Hin : Z.of_nat p ∈ codes) by by apply code_known. apply list_elem_of_lookup in Hin as [k Hk].
  destruct (found_nals_at _ _ _ _ _ _ _ _ _ _ E Hk) as (f & Hf & Ef). exists f. split; [done|].
  rewrite (next_code p e k Hk Hp He Hno Hend) in Ef.
  assert (Hes : Z.of_nat e <= size).
  { destruct Hend as [Hd%code_inside|[-> _]]; [lia|done]. }
  assert (Elen : Z.of_nat (length nal) = Z.of_nat e - (if decide (start_code s fl sources e /\ known s fl sources (e - 1) = Some 0 /\ (p + 3 < e)%nat) then 1 else 0) - Z.of_nat p).
  { rewrite Hlen. repeat case_decide; first [lia|tauto]. }
  assert (Hpl : (p + length nal <= e)%nat) by (rewrite Hlen; case_decide; lia). clear Hlen.
  assert (Hnal : nal = take (length nal) (drop p b.1)).
  { apply list_eq_same_length with (length nal); [|done|].
    - rewrite length_take, length_drop. destruct Hb as (Ha & _ & _). lia.
    - intros i x y Hi Hx Hy. apply lookup_take_Some in Hy as [Hy _]. rewrite lookup_drop in Hy.
      apply Hbytes, (known_present s fl sources b Hb) in Hx as [Hx _]. congruence. }
  unfold found_nal in Ef. set (nx := if decide (start_code s fl sources e) then Some (Z.of_nat e) else None) in Ef.
  assert (Enx : default size nx = Z.of_nat e) by (unfold nx; destruct (decide (start_code s fl sources e)); [done|]; by destruct Hend as [|[-> _]]).
  rewrite Enx in Ef.
  assert (Ew : span_present b.2 size (Z.of_nat p) (Z.of_nat e - Z.of_nat p) && (bool_decide (is_Some nx) || negb (fl =? 0)) = true).
  { apply andb_true_iff. split.
    - apply (span_known s fl sources b Hb); [lia..|]. intros q Hq. apply Hall. lia.
    - apply orb_true_iff. unfold nx. destruct (decide (start_code s fl sources e)); [left; by apply bool_decide_eq_true_2|]. destruct Hend as [|[_ Hfl]]; [done|].
      right. by apply negb_true_iff, Z.eqb_neq. }
  rewrite Ew in Ef.
  assert (Etr : (if (Z.of_nat e >? Z.of_nat p + 3) && (Z.of_nat e <? size)
      then z ← rd8 b.1 (Z.to_nat (Z.of_nat e - 1)); Some (z =? 0) else Some false) =
    Some (bool_decide (start_code s fl sources e /\ known s fl sources (e - 1) = Some 0 /\ (p + 3 < e)%nat))).
  { rewrite Z.gtb_ltb. destruct (Z.ltb_spec (Z.of_nat p + 3) (Z.of_nat e)) as [Hpe|]; [|by rewrite bool_decide_eq_false_2 by (intros (_ & _ & ?); lia)].
    destruct (Z.ltb_spec (Z.of_nat e) size) as [Hlt|Hge]; cbn [andb].
    - assert (Hce : start_code s fl sources e) by (destruct Hend as [|[]]; [done|lia]).
      destruct (Hall (e - 1)%nat ltac:(lia)) as [z Ez]. pose proof (known_present s fl sources b Hb _ _ Ez) as [Hz _].
      unfold rd8. replace (Z.to_nat (Z.of_nat e - 1)) with (e - 1)%nat by lia. rewrite Hz. cbn [mbind option_bind]. f_equal.
      rewrite Ez. destruct (Z.eqb_spec z 0) as [->|Hz0]; [rewrite bool_decide_eq_true_2; [done|split_and!; [done|done|lia]]|].
      rewrite bool_decide_eq_false_2; [done|]. intros (_ & [= ->] & _). done.
    - rewrite bool_decide_eq_false_2; [done|]. intros (Hd%code_inside & _). lia. }
  rewrite Etr in Ef. cbn [mbind option_bind] in Ef. rewrite bool_decide_decide in Ef.
  set (end_ := if (if decide _ then true else false) then Z.of_nat e - 1 else Z.of_nat e) in Ef.
  assert (Eend : end_ = Z.of_nat p + Z.of_nat (length nal)) by (unfold end_; rewrite Elen; case_decide; lia).
  rewrite Eend in Ef. destruct (Z.ltb_spec (Z.of_nat p + Z.of_nat (length nal)) (Z.of_nat p + 3 + 2)); [lia|].
  assert (Et : nal_type (drop (Z.to_nat (Z.of_nat p + 3)) b.1) = Some ty).
  { rewrite <- Ety. unfold nal_type, rd8. rewrite !lookup_drop. destruct (lookup_lt_is_Some_2 nal (3 + 0)) as [c Hc']; [lia|].
    rewrite Hc'. apply Hbytes, (known_present s fl sources b Hb) in Hc' as [Hc' _]. replace (Z.to_nat (Z.of_nat p + 3) + 0)%nat with (p + (3 + 0))%nat by lia.
    by rewrite Hc'. }
  rewrite Et in Ef. cbn [mbind option_bind] in Ef. destruct (nal_is_irap ty); [done|]. rewrite Hvcl in Ef. cbn [andb] in Ef.
  destruct (slice b.1 _ _) as [payload|]; [|done]. cbn [mbind option_bind] in Ef.
  destruct (parse_slice_header payload sps pps) as [[d|]|]; cbn [mbind option_bind] in Ef; [|done..].
  destruct (dependent d); [done|]. injection Ef as <-. split; [|by eexists]. unfold nal_bytes, slice. cbn [sc_off end_off].
  rewrite Z.add_simpl_l, !Nat2Z.id. rewrite <- Hnal. destruct (Nat.leb_spec (p + length nal) (length b.1)) as [|Hgt]; [done|].
  destruct Hb as (Ha & _ & _). lia.
Qed.
Lemma next_end p k :
  codes !! k = Some (Z.of_nat p) ->
  exists e, Z.of_nat e = default size (codes !! S k) /\ (8 <= p)%nat /\ start_code s fl sources p /\ (p + 3 <= e)%nat /\ Z.of_nat e <= size /\
    (forall q, (p + 3 <= q < e)%nat -> ~ start_code s fl sources q) /\ (is_Some (codes !! S k) <-> start_code s fl sources e).
Proof.
  intros Hk. destruct (find_codes_spec _ 8 (drop 8 b.1) (drop 8 b.2) (le_n _)) as [HF HS]. rewrite Forall_forall in HF.
  assert (Hin : Z.of_nat p ∈ codes) by by eapply list_elem_of_lookup_2. destruct (HF _ Hin) as [Hp _].
  pose proof (proj1 (code_known p ltac:(lia)) Hin) as Hc. pose proof Hc as (_ & _ & H2).
  assert (H2s : Z.of_nat p + 2 < size) by (unfold known in H2; case_decide; [lia|done]). clear H2.
  assert (Hafter : forall q, start_code s fl sources q -> (p + 3 <= q)%nat -> exists c, codes !! S k = Some c /\ c <= Z.of_nat q).
  { intros q Hq Hpq. apply code_known, list_elem_of_lookup in Hq as [j Hj]; [|lia]. assert (k < j)%nat.
    { destruct (Nat.lt_trichotomy j k) as [H| [->|H]]; [pose proof (sorted_lookup _ _ _ _ _ _ HS Hj Hk H); cbn in *; lia| |done].
      rewrite Hk in Hj. injection Hj as Hj. lia. }
    destruct (lookup_lt_is_Some_2 codes (S k)) as [c Ec]; [apply lookup_lt_Some in Hj; lia|]. exists c. split; [done|].
    destruct (decide (j = S k)) as [->|]; [rewrite Ec in Hj; by injection Hj as ->|].
    pose proof (sorted_lookup _ _ _ _ _ _ HS Ec Hj ltac:(lia)). cbn in *. lia. }
  destruct (codes !! S k) as [c|] eqn:Ec.
  - pose proof (sorted_lookup _ _ _ _ _ _ HS Hk Ec ltac:(lia)) as Hpc. cbn in Hpc.
    assert (Hcc : start_code s fl sources (Z.to_nat c)).
    { apply code_known; [lia|]. rewrite Z2Nat.id by lia. by eapply list_elem_of_lookup_2. }
    pose proof (code_inside _ Hcc). exists (Z.to_nat c). cbn. split_and!; try done; try lia.
    intros q Hq Hcq. destruct (Hafter q Hcq ltac:(lia)) as (c' & [= <-] & ?). lia.
  - exists (Z.to_nat size). cbn. split_and!; try done; try lia.
    + intros q Hq Hcq. by destruct (Hafter q Hcq ltac:(lia)) as (c' & ? & ?).
    + split; [by intros []|]. intros Hd%code_inside. lia.
Qed.

(** What the loop keeps of a NAL is a slice that survived, and what it
    stops on spoils the frame. *)
Lemma found_nal_sound p k rf :
  codes !! k = Some (Z.of_nat p) -> found_nal sps pps b.1 b.2 size fl (Z.of_nat p) (codes !! S k) = Some rf ->
  match rf with
  | None => Spoiled s fl sources sps pps
  | Some f => f.(sc_off) = Z.of_nat p /\ forall d, f.(slice_) = Some d ->
      exists nal, SurvivorAt s fl sources p nal /\ nal_bytes b.1 f = Some nal /\ parse_slice_header (drop 3 nal) sps pps = Some (Some d)
  end.
Proof.
  intros Hk Ef. destruct (next_end p k Hk) as (e & Ee & Hp & Hc & Hpe & Hes & Hno & Hnext). pose proof Hb as (Ha & Hpr & Hkn).
  unfold found_nal in Ef. rewrite <- Ee in Ef. set (nx := codes !! S k) in *.
  set (whole := span_present _ _ _ _ && _) in Ef.
  destruct (if (Z.of_nat e >? Z.of_nat p + 3) && _ then _ else _) as [tr|] eqn:Etr; [|done]. cbn [mbind option_bind] in Ef.
  assert (Htr : whole = true -> tr = bool_decide (start_code s fl sources e /\ known s fl sources (e - 1) = Some 0 /\ (p + 3 < e)%nat)).
  { intros Hw. apply andb_true_iff in Hw as [Hw _]. apply span_present_inv in Hw as [_ Hw]; [|lia..]. symmetry. rewrite Z.gtb_ltb in Etr.
    destruct (Z.ltb_spec (Z.of_nat p + 3) (Z.of_nat e)) as [Hlt|]; [|injection Etr as <-; apply bool_decide_eq_false_2; intros (_ & _ & ?); lia].
    destruct (Z.ltb_spec (Z.of_nat e) size) as [Hlts|Hge]; cbn [andb] in Etr.
    - assert (Hce : start_code s fl sources e).
      { apply Hnext. destruct nx; [done|]. cbn in Ee. lia. }
      destruct (Hw (e - 1)%nat ltac:(lia)) as (m & Em & Hm). destruct (present_known s fl sources b Hb _ _ Em Hm) as (c & Ek & Ea).
      unfold rd8 in Etr. replace (Z.to_nat (Z.of_nat e - 1)) with (e - 1)%nat in Etr by lia. rewrite Ea in Etr. injection Etr as <-.
      rewrite Ek. destruct (c =? 0) eqn:Ec0; [apply bool_decide_eq_true_2; split_and!; [done|f_equal; lia|lia]|].
      apply bool_decide_eq_false_2. intros (_ & [= Hc0] & _). lia.
    - injection Etr as <-. apply bool_decide_eq_false_2. intros (Hd%code_inside & _). lia. }
  set (end_ := if tr then Z.of_nat e - 1 else Z.of_nat e) in Ef.
  destruct (Z.ltb_spec end_ (Z.of_nat p + 3 + 2)) as [|Hend]; [injection Ef as <-; by split|].
  destruct (nal_type _) as [ty|] eqn:Ety; [|done]. cbn [mbind option_bind] in Ef.
  assert (Hle : Z.of_nat p + 5 <= end_ <= Z.of_nat e) by (unfold end_ in *; destruct tr; lia).
  destruct (nal_is_irap ty) eqn:Eirap.
  { injection Ef as <-. unfold nal_type, rd8 in Ety. rewrite lookup_drop in Ety.
    replace (Z.to_nat (Z.of_nat p + 3) + 0)%nat with (p + 3)%nat in Ety by lia.
    specialize (Hkn (p + 3)%nat ltac:(lia)). destruct (known_in s sources (p + 3)) as [h|] eqn:Eh.
    - destruct Hkn as [Hh _]. rewrite Hh in Ety. injection Ety as <-. eapply (spoiled_irap _ _ _ _ _ p h); try done.
      unfold known. by rewrite decide_True by lia.
    - destruct Hkn as [Hh _]. rewrite Hh in Ety. injection Ety as <-. done. }
  destruct (nal_is_vcl ty && whole) eqn:E; [|injection Ef as <-; by split]. apply andb_true_iff in E as [Ev Ew].
  destruct (slice b.1 _ _) as [payload|] eqn:Esl; [|done]. cbn [mbind option_bind] in Ef.
  set (nal := take (Z.to_nat (end_ - Z.of_nat p)) (drop p b.1)).
  assert (Hlen : Z.of_nat (length nal) = end_ - Z.of_nat p) by (unfold nal; rewrite length_take, length_drop; lia).
  assert (Epay : payload = drop 3 nal).
  { unfold slice in Esl. destruct (_ <=? _)%nat; [|done]. injection Esl as <-. unfold nal.
    rewrite skipn_firstn_comm, drop_drop. f_equal; [lia|f_equal; lia]. }
  assert (Hkq : forall q, (p <= q < e)%nat -> exists c, known s fl sources q = Some c /\ b.1 !! q = Some c).
  { intros q Hq. apply andb_true_iff in Ew as [Hw _]. apply span_present_inv in Hw as [_ Hw]; [|lia..].
    destruct (Hw q ltac:(lia)) as (m & Em & Hm). by apply (present_known s fl sources b Hb _ m). }
  assert (HS : SurvivorAt s fl sources p nal).
  { exists e. split_and!; try done.
    - apply andb_true_iff in Ew as [_ Hw]. apply orb_true_iff in Hw as [Hw%bool_decide_eq_true|Hw%negb_true_iff%Z.eqb_neq]; [by left; apply Hnext|].
      destruct nx as [c|] eqn:Enx; [left; by apply Hnext|]. right. by cbn in Ee.
    - intros q Hq. destruct (Hkq q Hq) as (c & -> & _). done.
    - unfold end_ in Hlen, Hle. rewrite (Htr Ew), bool_decide_decide in Hlen, Hle.
      destruct (decide _) in Hlen, Hle; destruct (decide _); first [lia|tauto].
    - lia.
    - intros i c Hi. apply lookup_take_Some in Hi as [Hi Hlt]. rewrite lookup_drop in Hi. destruct (Hkq (p + i)%nat ltac:(lia)) as (c' & -> & Ec'). congruence.
    - exists ty. split; [|done]. rewrite <- Ety. unfold nal_type, rd8, nal. rewrite !lookup_drop, lookup_take_lt, lookup_drop by lia.
      by replace (Z.to_nat (Z.of_nat p + 3) + 0)%nat with (p + (3 + 0))%nat by lia. }
  destruct (parse_slice_header payload sps pps) as [[d|]|] eqn:Epar; cbn [mbind option_bind] in Ef; [| |done].
  - destruct (dependent d) eqn:Ed; injection Ef as <-.
    + apply (spoiled_slice _ _ _ _ _ nal); [by exists p|]. rewrite <- Epay. right. by exists d.
    + split; [done|]. intros d' [= <-]. exists nal. rewrite <- Epay. split_and!; [done| |done]. unfold nal_bytes, slice. cbn [sc_off end_off].
      rewrite !Nat2Z.id, (proj2 (Nat.leb_le _ _)) by lia. done.
  - injection Ef as <-. apply (spoiled_slice _ _ _ _ _ nal); [by exists p|]. rewrite <- Epay. by left.
Qed.
Lemma codes_from_prefix k sc : codes !! k = Some sc -> exists p, sc = Z.of_nat p /\ (8 <= p)%nat /\ start_code s fl sources p.
Proof.
  intros Hk. destruct (find_codes_spec _ 8 (drop 8 b.1) (drop 8 b.2) (le_n _)) as [HF _]. rewrite Forall_forall in HF.
  assert (Hin : sc ∈ codes) by by eapply list_elem_of_lookup_2. destruct (HF _ Hin) as [Hp _].
  exists (Z.to_nat sc). rewrite Z2Nat.id by lia. split_and!; [done|lia|]. apply code_known; [lia|]. by rewrite Z2Nat.id by lia.
Qed.
Lemma found_nals_sound r :
  found_nals sps pps b.1 b.2 size fl codes = Some r ->
  match r with
  | None => Spoiled s fl sources sps pps
  | Some found => forall f d, f ∈ found -> f.(slice_) = Some d ->
      exists p nal, f.(sc_off) = Z.of_nat p /\ SurvivorAt s fl sources p nal /\ nal_bytes b.1 f = Some nal /\
        parse_slice_header (drop 3 nal) sps pps = Some (Some d)
  end.
Proof.
  intros E. pose proof (found_nals_each _ _ _ _ _ _ _ _ E) as H. destruct r as [found|].
  - intros f d [k Hf]%list_elem_of_lookup Hd. destruct (H k f Hf) as (sc & Hk & Ef). destruct (codes_from_prefix k sc Hk) as (p & -> & _).
    destruct (found_nal_sound p k _ Hk Ef) as (Esc & Hs). destruct (Hs d Hd) as (nal & ?). by exists p, nal.
  - destruct H as (k & sc & Hk & Ef). destruct (codes_from_prefix k sc Hk) as (p & -> & _). by apply (found_nal_sound p k _ Hk Ef).
Qed.
(** No start code, no survivor. *)
Lemma no_codes_no_survivor nal : codes = [] -> ~ Survivor s fl sources nal.
Proof. intros E (p & e & Hp & Hc & _). apply code_known in Hc; [|done]. rewrite E in Hc. by apply elem_of_nil in Hc. Qed.
End SurvivorFound.

(** ** The survivors in their slots *)
Lemma slot_of_some g addr i : slot_of g addr = Some i -> g !! i = Some addr.
Proof.
  revert i. induction g as [|a g IH]; intros i; cbn [slot_of]; [done|]. destruct (Z.eqb_spec a addr) as [->|].
  - by intros [= <-].
  - destruct (slot_of g addr); [|done]. intros [= <-]. by apply IH.
Qed.

(** [f] is a survivor for the slot of address [a]. *)
Definition survivor_at (a : Z) (f : FoundNal) : Prop :=
  exists d, f.(slice_) = Some d /\ d.(address) = a /\ d.(first_slice) = (a =? 0).

Record Placed (g : list Z) (found : list FoundNal) (m : list (option FoundNal) * option SliceInfo) : Prop := {
  pl_length : length m.1 = length g;
  pl_slots : forall i f, m.1 !! i = Some (Some f) -> f ∈ found /\ exists a, g !! i = Some a /\ survivor_at a f;
  pl_all : forall f, f ∈ found -> is_Some f.(slice_) -> exists i, m.1 !! i = Some (Some f);
  pl_donor : forall d, m.2 = Some d -> d.(slice_type) = 1 /\ exists f, f ∈ found /\ f.(slice_) = Some d
}.

Lemma place_placed g found f m m' :
  Placed g found m -> place g m f = Some m' -> Placed g (found ++ [f]) m'.
Proof.
  destruct m as [by_addr donor]. intros [Hl Hs Ha Hd] E. cbn [fst snd] in *. unfold place in E.
  destruct (slice_ f) as [d|] eqn:Ef.
  2:{ injection E as <-. split; cbn [fst snd]; [done| | |].
      - intros i f' Hi. destruct (Hs i f' Hi) as [H1 H2]. split; [|done]. apply elem_of_app. by left.
      - intros f' [Hf| ->%list_elem_of_singleton]%elem_of_app Hsl; [by apply Ha|]. rewrite Ef in Hsl. by destruct Hsl.
      - intros d Hd'. destruct (Hd d Hd') as (H1 & f' & H2 & H3). split; [done|]. exists f'. split; [|done]. apply elem_of_app. by left. }
  destruct (slot_of g (address d)) as [i|] eqn:Ei; [|done]. cbn [mbind option_bind] in E. apply slot_of_some in Ei.
  destruct (by_addr !! i) as [slot|] eqn:Es; [|done]. cbn [mbind option_bind] in E. destruct (_ || _) eqn:Eg; [done|].
  apply orb_false_iff in Eg as [Eg1 Eg2]. apply bool_decide_eq_false in Eg1. apply negb_false_iff, eqb_prop in Eg2.
  destruct slot as [|]; [by destruct Eg1|]. injection E as <-. pose proof (lookup_lt_Some _ _ _ Es) as Hlt.
  split; cbn [fst snd].
  - by rewrite length_insert.
  - intros j f' Hj. apply list_lookup_insert_Some in Hj as [(<- & [= <-] & _)|[Hne Hj]].
    + split; [apply elem_of_app; right; by apply list_elem_of_singleton|]. exists (address d). split; [done|]. by exists d.
    + destruct (Hs j f' Hj) as [H1 H2]. split; [|done]. apply elem_of_app. by left.
  - intros f' [Hf| ->%list_elem_of_singleton]%elem_of_app Hsl.
    + destruct (Ha f' Hf Hsl) as [j Hj]. exists j. rewrite list_lookup_insert_ne; [done|]. intros ->. congruence.
    + exists i. by apply list_lookup_insert_eq.
  - intros d' Hd'. destruct donor as [d0|].
    + destruct (Hd d' Hd') as (H1 & f' & H2 & H3). split; [done|]. exists f'. split; [|done]. apply elem_of_app. by left.
    + destruct (Z.eqb_spec (slice_type d) 1); [|done]. injection Hd' as <-. split; [done|]. exists f. split; [|done].
      apply elem_of_app. right. by apply list_elem_of_singleton.
Qed.

Lemma place_all_placed g found m : place_all g found = Some m -> Placed g found m.
Proof.
  assert (H0 : Placed g [] (replicate (length g) None, None)).
  { split; cbn [fst snd]; [by rewrite length_replicate| | |done].
    - intros i f Hi. by apply lookup_replicate in Hi as [? _].
    - by intros f ?%elem_of_nil. }
  unfold place_all. change found with ([] ++ found) at 2. revert H0.
  generalize (@nil FoundNal) as pre, (replicate (length g) (@None FoundNal), @None SliceInfo) as m0.
  induction found as [|f found IH]; intros pre m0 H0 E; cbn [foldM] in E.
  - injection E as <-. by rewrite app_nil_r.
  - destruct (place g m0 f) as [m1|] eqn:E1; [|done]. cbn [mbind option_bind] in E.
    rewrite cons_middle, app_assoc. eapply IH; [|exact E]. by eapply place_placed.
Qed.

(** What stops the placing: a survivor whose address is not of the geometry,
    whose first-slice flag is not its address's, or whose address is taken. *)
Lemma slot_of_none g addr : slot_of g addr = None -> addr ∉ g.
Proof.
  induction g as [|a g IH]; cbn [slot_of]; [by intros _ ?%elem_of_nil|]. destruct (Z.eqb_spec a addr) as [|Hne]; [done|].
  destruct (slot_of g addr); [done|]. intros _ [Hin|Hin]%elem_of_cons; [done|by apply IH].
Qed.
Definition misplaced (g : list Z) (found : list FoundNal) : Prop :=
  exists i f d, found !! i = Some f /\ f.(slice_) = Some d /\
    (d.(address) ∉ g \/ d.(first_slice) <> (d.(address) =? 0) \/
     exists j f' d', j <> i /\ found !! j = Some f' /\ f'.(slice_) = Some d' /\ d'.(address) = d.(address)).
Lemma place_all_none g found : place_all g found = None -> misplaced g found.
Proof.
  assert (H0 : Placed g [] (replicate (length g) None, None)).
  { split; cbn [fst snd]; [by rewrite length_replicate| | |done].
    - intros i f Hi. by apply lookup_replicate in Hi as [? _].
    - by intros f ?%elem_of_nil. }
  unfold place_all. change found with ([] ++ found) at 2. revert H0.
  generalize (@nil FoundNal) as pre, (replicate (length g) (@None FoundNal), @None SliceInfo) as m0.
  induction found as [|f found IH]; intros pre m0 H0 E; cbn [foldM] in E; [done|].
  destruct (place g m0 f) as [m1|] eqn:E1; cbn [mbind option_bind] in E.
  { rewrite cons_middle, app_assoc. eapply IH; [|exact E]. by eapply place_placed. }
  clear IH E. destruct m0 as [by_addr donor], H0 as [Hl Hs _ _]. cbn [fst snd] in *. unfold place in E1.
  destruct (slice_ f) as [d|] eqn:Ed; [|done]. exists (length pre), f, d. split_and!; [by apply list_lookup_middle|done|].
  destruct (slot_of g (address d)) as [i|] eqn:Ei; [|left; by apply slot_of_none]. right. cbn [mbind option_bind] in E1.
  apply slot_of_some in Ei. destruct (lookup_lt_is_Some_2 by_addr i) as [slot Es]; [apply lookup_lt_Some in Ei; lia|].
  rewrite Es in E1. cbn [mbind option_bind] in E1. destruct (_ || _) eqn:Eg; [|done].
  apply orb_true_iff in Eg as [Eg%bool_decide_eq_true|Eg%negb_true_iff%eqb_false_iff]; [right|by left].
  destruct Eg as [f' ->]. destruct (Hs i f' Es) as (Hin & a & Ea & d' & Ed' & Ha & _). apply list_elem_of_lookup in Hin as [j Hj].
  exists j, f', d'. apply lookup_lt_Some in Hj as Hlt. split_and!; [lia|by rewrite lookup_app_l|done|congruence].
Qed.

(** No donor: no survivor is a P slice. *)
Lemma place_donor g m f m' : place g m f = Some m' -> m'.2 = None -> m.2 = None /\ forall d, f.(slice_) = Some d -> d.(slice_type) <> 1.
Proof.
  destruct m as [by_addr donor]. unfold place. destruct (slice_ f) as [d|]; [|by intros [= <-]].
  destruct (slot_of g (address d)); [|done]. cbn [mbind option_bind]. destruct (by_addr !! _); [|done]. cbn [mbind option_bind].
  destruct (_ || _); [done|]. intros [= <-]. cbn [snd]. destruct donor; [done|]. destruct (Z.eqb_spec (slice_type d) 1); [done|].
  intros _. split; [done|]. by intros d' [= <-].
Qed.
Lemma place_all_no_donor g found by_addr f d :
  place_all g found = Some (by_addr, None) -> f ∈ found -> f.(slice_) = Some d -> d.(slice_type) <> 1.
Proof.
  unfold place_all. generalize (replicate (length g) (@None FoundNal), @None SliceInfo) as m0.
  assert (HN : forall l m0 m, foldM (place g) l m0 = Some m -> m.2 = None -> m0.2 = None /\ forall f d, f ∈ l -> f.(slice_) = Some d -> d.(slice_type) <> 1).
  { induction l as [|x l IH]; intros m0 m E Hm; cbn [foldM] in E.
    - injection E as <-. split; [done|]. by intros ?? ?%elem_of_nil.
    - destruct (place g m0 x) as [m1|] eqn:E1; [|done]. destruct (IH m1 m E Hm) as [Hm1 HF]. destruct (place_donor _ _ _ _ E1 Hm1) as [Hm0 Hx].
      split; [done|]. intros f0 d0 [->|Hin]%elem_of_cons; [apply Hx|by apply HF]. }
  intros m0 E. by apply (HN found m0 _ E eq_refl).
Qed.

(** ** The spans of a geometry *)
Lemma ascending_above a g i x : strictly_ascending (a :: g) = true -> g !! i = Some x -> a < x.
Proof.
  revert a i. induction g as [|b g IH]; intros a i E Hi; [done|]. cbn [strictly_ascending] in E. apply andb_true_iff in E as [H E].
  apply Z.ltb_lt in H. destruct i as [|i]; [by injection Hi as ->|]. pose proof (IH b i E Hi). lia.
Qed.

(** Consecutive spans from [a] up to [e]. *)
Inductive Tiling : Z -> Z -> list (Z * Z) -> Prop :=
| tiling_nil a : Tiling a a []
| tiling_cons a b e l : a < b -> Tiling b e l -> Tiling a e ((a, b) :: l).

Lemma tiling_lookup a e l i x y : Tiling a e l -> l !! i = Some (x, y) -> a <= x /\ x < y /\ y <= e /\ (i <> O -> a < x).
Proof.
  intros H. revert i. induction H as [|a b e l Hab H IH]; intros i Hi; [done|].
  assert (Hbe : forall a e l, Tiling a e l -> a <= e) by (induction 1; lia).
  pose proof (Hbe _ _ _ H). destruct i as [|i]; [injection Hi as <- <-; lia|]. destruct (IH i Hi) as (H1 & H2 & H3 & _). lia.
Qed.

(** The geometry, once every span of it is found non-empty, tiles the picture. *)
Lemma spans_tiling g total :
  geometry_shape g = true -> Forall (fun s => s.1 < s.2) (spans g total) -> Tiling 0 total (spans g total).
Proof.
  destruct g as [|a g]; [done|]. cbn [geometry_shape]. intros E%andb_true_iff HF. destruct E as [Ha _].
  assert (a = 0) as -> by lia. clear Ha. revert HF. generalize 0 as b. induction g as [|c g IH]; intros b HF.
  - cbn in *. apply Forall_cons in HF as [H _]. constructor; [done|constructor].
  - cbn [spans] in *. apply Forall_cons in HF as [H HF]. constructor; [done|]. by apply IH.
Qed.
Lemma spans_length g total : length (spans g total) = length g.
Proof. induction g; cbn; auto. Qed.
Lemma spans_lookup g total i a b : spans g total !! i = Some (a, b) -> g !! i = Some a.
Proof.
  revert i. induction g as [|c g IH]; intros i; cbn [spans]; [done|]. destruct i as [|i]; [by intros [= -> _]|]. apply IH.
Qed.

(** ** The slices *)
Section Slices.
Context (sps : SpsInfo) (pps : PpsInfo) (s fl : Z) (sources : smap (list Z)) (total : Z).

(** One slice of an emitted picture, for the span of CTUs [x]. *)
Inductive Tile (donor : SliceInfo) (o : Z) (x : Z * Z) (nal : list Z) : Prop :=
| tile_received d :
    Survivor s fl sources nal -> parse_slice_header (drop 3 nal) sps pps = Some (Some d) -> nal_is_irap d.(nal_unit_type) = false ->
    d.(address) = x.1 -> d.(first_slice) = (x.1 =? 0) -> Tile donor o x nal
| tile_synthesised :
    make_conceal_slice sps pps donor x.1 (x.2 - x.1) (x.1 =? 0) o = Some (Some nal) -> Tile donor o x nal.

Lemma freeze_slices_tiles t poc first l r :
  t.(sps_) = sps -> t.(pps_) = pps -> (forall i x, l !! i = Some x -> (x.1 =? 0) = (first && (i =? 0)%nat)) ->
  freeze_slices t poc first l = Some (Some r) ->
  Forall (fun x => x.1 < x.2) l /\ exists nals, r = concat nals /\
    Forall2 (fun x nal => make_conceal_slice sps pps t.(donor_) x.1 (x.2 - x.1) (x.1 =? 0) poc = Some (Some nal)) l nals.
Proof.
  intros Es Ep. revert first r. induction l as [|[a e] l IH]; intros first r Hf E; cbn [freeze_slices] in E.
  - injection E as <-. split; [constructor|]. by exists [].
  - destruct (Z.leb_spec e a); [done|]. pose proof (Hf O _ eq_refl) as H0. rewrite andb_true_r in H0. cbn [fst] in H0.
    rewrite Es, Ep in E. destruct (make_conceal_slice _ _ _ _ _ _ _) as [[nal|]|] eqn:En; [|done..].
    cbn [mbind option_bind] in E. destruct (freeze_slices t poc false l) as [[r'|]|] eqn:Er; [|done..]. injection E as <-.
    destruct (IH false r') as (HF & nals & -> & H2); [|exact Er|].
    { intros i x Hi. rewrite (Hf (S i) x Hi). by rewrite andb_false_r. }
    split; [by constructor|]. exists (nal :: nals). split; [done|]. constructor; [|done]. cbn [fst snd]. by rewrite H0.
Qed.

Context (b : list Z * list Z) (Hsps : SpsOk sps).

(** What the slots may hold. *)
Definition SlotOk (x : Z * Z) (slot : option FoundNal) : Prop :=
  forall f, slot = Some f -> NalOk sps pps s sources total b f /\ survivor_at x.1 f.

(** What was parsed is a survivor's bytes. *)
Definition KeptWhole (f : FoundNal) : Prop := forall d, f.(slice_) = Some d ->
  exists nal, Survivor s fl sources nal /\ nal_bytes b.1 f = Some nal /\ parse_slice_header (drop 3 nal) sps pps = Some (Some d).

Lemma survivor_tile donor o x f nal :
  NalOk sps pps s sources total b f -> KeptWhole f -> survivor_at x.1 f -> nal_bytes b.1 f = Some nal -> Tile donor o x nal.
Proof.
  intros [Hr (payload & Eb & Hv & (t & Et & Hi & _) & Hp)] HK (d & Ed & Ha & Hf) E.
  assert (nal = [0; 0; 1] ++ payload) as -> by congruence. destruct (HK d Ed) as (nal' & HS & Eb' & Epar).
  rewrite E in Eb'. injection Eb' as <-. apply (tile_received _ _ _ _ d); try done.
  change (drop 3 (0 :: 0 :: 1 :: payload)) with payload in Epar. by rewrite (parsed_type _ _ _ _ _ Epar Et).
Qed.

Definition empty_slots (l : list (option FoundNal)) : Z :=
  len (List.filter (fun slot => match slot with Some _ => false | None => true end) l).
Lemma rebuild_slices_tiles donor first l by_addr r n :
  (forall i x, l !! i = Some x -> (x.1 =? 0) = (first && (i =? 0)%nat)) -> Forall2 SlotOk l by_addr ->
  (forall f, Some f ∈ by_addr -> KeptWhole f) -> rebuild_slices sps pps donor b.1 first l by_addr = Some (Some (r, n)) ->
  Forall (fun x => x.1 < x.2) l /\ exists nals, r = concat nals /\ Forall2 (Tile donor (-1)) l nals /\
    n = empty_slots by_addr /\
    (forall i f, by_addr !! i = Some (Some f) -> exists nal, nals !! i = Some nal /\ nal_bytes b.1 f = Some nal).
Proof.
  intros Hf HS. revert first r n Hf. induction HS as [|[a e] slot l by_addr Hslot HS IH]; intros first r n Hf HK E; cbn [rebuild_slices] in E.
  - injection E as <- <-. split; [constructor|]. exists []. split_and!; done.
  - destruct (Z.leb_spec e a); [done|]. pose proof (Hf O _ eq_refl) as H0. rewrite andb_true_r in H0. cbn [fst] in H0.
    assert (HN : exists nal, (match slot with
        | Some f => b0 ← nal_bytes b.1 f; Some (Some b0)
        | None => make_conceal_slice sps pps donor a (e - a) first (-1)
        end) = Some (Some nal) /\ Tile donor (-1) (a, e) nal /\ (forall f, slot = Some f -> nal_bytes b.1 f = Some nal)).
    { destruct slot as [f|].
      - destruct (nal_bytes b.1 f) as [nal|] eqn:En; [|done]. exists nal. split; [done|]. destruct (Hslot f eq_refl) as [H1 H2].
        split; [eapply survivor_tile; try done; apply HK; by left|]. by intros f' [= <-].
      - destruct (make_conceal_slice sps pps donor a (e - a) first (-1)) as [[nal|]|] eqn:En; [|done..]. exists nal.
        split_and!; [done| |done]. apply tile_synthesised. cbn [fst snd]. by rewrite H0. }
    destruct HN as (nal & EN & HT & Hnb). rewrite EN in E. cbn [mbind option_bind] in E.
    destruct (rebuild_slices sps pps donor b.1 false l by_addr) as [[[r' n']|]|] eqn:Er; [|done..]. injection E as <- <-.
    destruct (IH false r' n') as (HF & nals & -> & H2 & -> & H3); [| |exact Er|].
    { intros i x Hi. rewrite (Hf (S i) x Hi). by rewrite andb_false_r. }
    { intros f Hin. apply HK. by right. }
    split; [by constructor|]. exists (nal :: nals). split_and!; [done|by constructor| |].
    + unfold empty_slots. destruct slot as [f|]; cbn; lia.
    + intros [|i] f Hi; [injection Hi as ->; exists nal; auto|]. by apply H3.
Qed.

(** Why the slices cannot be made. *)
Lemma freeze_slices_none t poc first l :
  t.(sps_) = sps -> t.(pps_) = pps -> (forall i x, l !! i = Some x -> (x.1 =? 0) = (first && (i =? 0)%nat)) ->
  freeze_slices t poc first l = Some None ->
  exists x, x ∈ l /\ (x.2 <= x.1 \/ make_conceal_slice sps pps t.(donor_) x.1 (x.2 - x.1) (x.1 =? 0) poc = Some None).
Proof.
  intros Es Ep. revert first. induction l as [|[a e] l IH]; intros first Hf E; cbn [freeze_slices] in E; [done|].
  destruct (Z.leb_spec e a); [exists (a, e); split; [by left|by left]|].
  pose proof (Hf O _ eq_refl) as H0. rewrite andb_true_r in H0. cbn [fst] in H0. rewrite Es, Ep, <- H0 in E.
  destruct (make_conceal_slice _ _ _ _ _ _ _) as [[nal|]|] eqn:En; [| |done].
  - cbn [mbind option_bind] in E. destruct (freeze_slices t poc false l) as [[r'|]|] eqn:Er; [done| |done].
    destruct (IH false) as (x & Hx & Hr); [|exact Er|exists x; split; [by right|done]].
    intros i x Hi. rewrite (Hf (S i) x Hi). by rewrite andb_false_r.
  - exists (a, e). split; [by left|by right].
Qed.
Lemma rebuild_slices_none donor first l by_addr :
  (forall i x, l !! i = Some x -> (x.1 =? 0) = (first && (i =? 0)%nat)) ->
  rebuild_slices sps pps donor b.1 first l by_addr = Some None ->
  exists x, x ∈ l /\ (x.2 <= x.1 \/ make_conceal_slice sps pps donor x.1 (x.2 - x.1) (x.1 =? 0) (-1) = Some None).
Proof.
  revert first by_addr. induction l as [|[a e] l IH]; intros first by_addr Hf E; [done|]. destruct by_addr as [|slot by_addr]; [done|].
  cbn [rebuild_slices] in E. destruct (Z.leb_spec e a); [exists (a, e); split; [by left|by left]|].
  pose proof (Hf O _ eq_refl) as H0. rewrite andb_true_r in H0. cbn [fst] in H0. rewrite <- H0 in E.
  assert (HL : forall r, rebuild_slices sps pps donor b.1 false l by_addr = Some r -> r = None ->
    exists x, x ∈ (a, e) :: l /\ (x.2 <= x.1 \/ make_conceal_slice sps pps donor x.1 (x.2 - x.1) (x.1 =? 0) (-1) = Some None)).
  { intros r Er ->. destruct (IH false by_addr) as (x & Hx & Hr); [|exact Er|exists x; split; [by right|done]].
    intros i x Hi. rewrite (Hf (S i) x Hi). by rewrite andb_false_r. }
  destruct slot as [f|].
  - destruct (nal_bytes b.1 f); [|done]. cbn [mbind option_bind] in E. destruct (rebuild_slices _ _ _ _ _ _ _) as [[[]|]|]; [done|by eapply HL|done].
  - destruct (make_conceal_slice _ _ _ _ _ _ _) as [[nal|]|] eqn:En; [| |done]; cbn [mbind option_bind] in E.
    + destruct (rebuild_slices _ _ _ _ _ _ _) as [[[]|]|]; [done|by eapply HL|done].
    + exists (a, e). split; [by left|by right].
Qed.

Lemma leading_nals_some found :
  Forall (FoundOk sps pps s sources total b) found -> is_Some (leading_nals b.1 found).
Proof.
  induction 1 as [|f found (_ & Hf & _) _ [r IH]]; [done|]. cbn [leading_nals]. destruct (is_vcl f); [done|]. rewrite IH.
  cbn [mbind option_bind]. destruct (complete f); [|done]. destruct (Hf eq_refl) as [_ (p & -> & _)]. done.
Qed.
(** The NALs kept ahead of the slices: received, none of them a slice. *)
Definition Leading (nal : list Z) : Prop :=
  exists off payload t, nal = [0; 0; 1] ++ payload /\ verbatim s sources off (len nal) nal /\
    nal_type payload = Some t /\ nal_is_vcl t = false.
Lemma leading_nals_kept found r :
  Forall (FoundOk sps pps s sources total b) found -> leading_nals b.1 found = Some r ->
  exists nals, r = concat nals /\ Forall Leading nals.
Proof.
  intros HF. revert r. induction HF as [|f found (_ & Hf & _) _ IH]; intros r E; cbn [leading_nals] in E.
  - injection E as <-. by exists [].
  - destruct (is_vcl f) eqn:Ev; [injection E as <-; by exists []|]. destruct (leading_nals b.1 found) as [r'|]; [|done].
    destruct (IH r' eq_refl) as (nals & -> & HL). cbn [mbind option_bind] in E. destruct (complete f); [|injection E as <-; by exists nals].
    destruct (Hf eq_refl) as [_ (p & Eb & Hv & (t & Et & _ & Evt) & _)]. rewrite Eb in E. injection E as <-.
    exists (([0; 0; 1] ++ p) :: nals). split; [done|]. constructor; [|done]. exists (sc_off f), p, t.
    pose proof Hv as (_ & Hl & _). rewrite Hl. split_and!; try done. by rewrite Evt.
Qed.
End Slices.
