(* ===== verification/SpatialRepaired.v ===== *)
(** * What [repair] does: the emitted picture, and that it is defined

    [Repaired] is the specification of one call: a counted refusal, or exactly
    one call of [emit] with a complete picture, after which the object is the
    one [emit] left, updated or reset by its answer.  Laying out the chunks,
    finding and parsing NALs, synthesising and rebuilding stay inside every
    buffer, whatever the bytes; what the synthesis asks for is a block size and
    QP deltas in range and, for a freeze, a donor that parses with the current
    parameter sets. *)
From stdpp Require Import sorting.
From S2P Require Import Prelude SMap FrameShm HevcBits HevcParse HevcConceal HevcCodes HevcRoundtrip ConcealProps Spatial SpatialFacts.
(** ** The prefix *)
Definition flags_ok (f : Z) : Prop := Z.testbit f 3 = true /\ Z.testbit f 0 = false.
Lemma salvaged_flags f : Z.testbit f 0 = false -> flags_ok (Z.lor f kFrameFlagSalvaged).
Proof. intros H. split; rewrite Z.lor_spec; [apply orb_true_r|]. by rewrite H. Qed.
Lemma land_1_testbit f : Z.land f kFrameFlagIdr = 0 -> Z.testbit f 0 = false.
Proof.
  intros H. assert (E : Z.testbit (Z.land f kFrameFlagIdr) 0 = false) by by rewrite H.
  rewrite Z.land_spec in E. change (Z.testbit kFrameFlagIdr 0) with true in E. by rewrite andb_true_r in E.
Qed.
Lemma land_gdr_testbit f : Z.testbit (Z.land f kFrameFlagGdr) 0 = false.
Proof. rewrite Z.land_spec. change (Z.testbit kFrameFlagGdr 0) with false. apply andb_false_r. Qed.

(** A prefix that is not an IDR's, marked. *)
Definition marked (meta : list Z) : list Z := match meta !! 5%nat with Some f => <[5%nat := Z.lor f kFrameFlagSalvaged]> meta | None => meta end.
Lemma mark_salvaged_prefix meta f rest :
  length meta = 8%nat -> meta !! 5%nat = Some f ->
  mark_salvaged (meta ++ rest) = Some (<[5%nat := Z.lor f kFrameFlagSalvaged]> meta ++ rest).
Proof.
  intros Hl Hf. unfold mark_salvaged. rewrite length_app, Hl. destruct (Z.geb_spec (Z.of_nat (8 + length rest)) kVencFrameMetaSize) as [_|H];
    [|unfold kVencFrameMetaSize in H; lia].
  unfold rd8, wr8. rewrite lookup_app_l by lia. rewrite Hf. cbn [mbind option_bind]. rewrite length_app, Hl.
  rewrite insert_app_l by lia. done.
Qed.

(** The synthesised prefix. *)
Lemma conceal_meta_some t : SpatialOk t ->
  exists meta f, conceal_meta t = Some meta /\ length meta = 8%nat /\ meta !! 5%nat = Some f /\ Z.testbit f 0 = false.
Proof.
  intros Ht. pose proof (so_meta _ Ht) as Hl. unfold conceal_meta, wr_le32.
  destruct (meta_template_ t) as [|a [|b [|c [|d [|e [|f [|g [|h [|]]]]]]]]]; try done.
  eexists _, _. split; [reflexivity|]. split_and!; [done|done|]. apply land_gdr_testbit.
Qed.

Section Repaired.
Context {EM : Type} (emit : EM -> SpatialRepair -> list Z -> option (EM * SpatialRepair * bool)).
Context (k s fl : Z) (sources : smap (list Z)).
Local Abbreviation survivor := (Survivor s fl sources).

(** The NALs [repair] finds in the chunks. *)
Definition survivors (t : SpatialRepair) : list FoundNal :=
  default [] (total ← source_total s fl sources;
    b ← lay_chunks s total sources;
    r ← found_nals t.(sps_) t.(pps_) b.1 b.2 total fl (find_codes 8 (drop 8 b.1) (drop 8 b.2));
    r).

(** The prefix of the frame was received. *)
Definition prefix_known : Prop := forall q, (q < 8)%nat -> is_Some (known s fl sources q).
(** The prefix a picture starts from: the template, or the received one. *)
Definition Template (t : SpatialRepair) (meta : list Z) : Prop := t.(have_meta_) = true /\ conceal_meta t = Some meta.
Definition Prefix (t : SpatialRepair) (meta : list Z) : Prop :=
  prefix_known /\ (forall q, (q < 8)%nat -> known s fl sources q = meta !! q) \/ ~ prefix_known /\ Template t meta.

(** An emitted picture: a prefix of [origin], not an IDR's, marked; received
    non-slice NALs; and one slice for each span of the learnt geometry, which
    tiles the picture; the slices of [kept] are among them. *)
Definition Composed (t : SpatialRepair) (origin : list Z -> Prop) (donor : SliceInfo) (o : Z) (kept : list Z -> Prop) (frame : list Z) : Prop :=
  exists meta f leading nals, let sp := spans t.(geometry_) t.(sps_).(pic_size_ctbs) in
    frame = <[5%nat := Z.lor f kFrameFlagSalvaged]> meta ++ concat leading ++ concat nals /\
    origin meta /\ length meta = 8%nat /\ meta !! 5%nat = Some f /\ flags_ok (Z.lor f kFrameFlagSalvaged) /\
    Forall (Leading s sources) leading /\ Tiling 0 t.(sps_).(pic_size_ctbs) sp /\
    Forall2 (Tile t.(sps_) t.(pps_) s fl sources donor o) sp nals /\
    (forall nal, kept nal -> nal ∈ nals).
Definition Picture (t : SpatialRepair) (origin : list Z -> Prop) (donor : SliceInfo) (o : Z) (kept : list Z -> Prop) (frame : list Z) : Prop :=
  Composed t origin donor o kept frame /\ len frame <= t.(sr_cfg).(sr_max_frame_bytes).

(** A P slice of the frame, received whole. *)
Definition frame_donor (t : SpatialRepair) (d : SliceInfo) : Prop :=
  d.(slice_type) = 1 /\ (exists f, f ∈ survivors t /\ f.(slice_) = Some d) /\
  exists nal, survivor nal /\ parse_slice_header (drop 3 nal) t.(sps_) t.(pps_) = Some (Some d).

(** The POC of a frozen picture. *)
Definition frozen_poc (t : SpatialRepair) : Z := (t.(last_poc_) + 1) mod 2 ^ t.(sps_).(log2_max_poc_lsb).
(** Whether a lost picture may be frozen. *)
Definition freezable (t : SpatialRepair) : Prop :=
  t.(sr_cfg).(freeze_frame) = true /\ t.(have_donor_) = true /\ t.(have_poc_) = true /\ t.(have_meta_) = true /\ t.(rps_stable_) = true.

(** The two ways to a picture: around the slices that survived, with a P slice
    among them as the donor; or, when none survived, a freeze. *)
Inductive Plan (t : SpatialRepair) : (list Z -> Prop) -> SliceInfo -> Z -> (list Z -> Prop) -> Prop :=
| plan_salvage donor : frame_donor t donor -> Plan t (Prefix t) donor (-1) survivor
| plan_freeze : (forall nal, ~ survivor nal) -> freezable t -> Plan t (Template t) t.(donor_) (frozen_poc t) (fun _ => False).

(** Why a repair may refuse. *)
Inductive Refusal (t : SpatialRepair) : Prop :=
| refuse_unready :
    t.(have_sps_) = false \/ t.(have_pps_) = false \/ t.(geometry_) = [] \/ k = 0 \/ s = 0 \/ sources = [] -> Refusal t
| refuse_size :
    frame_size s fl sources <= 8 \/ t.(sr_cfg).(sr_max_frame_bytes) < frame_size s fl sources -> Refusal t
| refuse_prefix codec f :
    prefix_known -> known s fl sources 4 = Some codec -> known s fl sources 5 = Some f ->
    codec <> kFrameCodecH265 \/ Z.land f kFrameFlagIdr <> 0 -> Refusal t
| refuse_spoiled : Spoiled s fl sources t.(sps_) t.(pps_) -> Refusal t
| refuse_many : 64 < len t.(geometry_) -> Refusal t
| refuse_misplaced p nal d :
    SurvivorAt s fl sources p nal -> parse_slice_header (drop 3 nal) t.(sps_) t.(pps_) = Some (Some d) ->
    d.(address) ∉ t.(geometry_) \/ d.(first_slice) <> (d.(address) =? 0) \/
      (exists p' nal' d', p' <> p /\ SurvivorAt s fl sources p' nal' /\
         parse_slice_header (drop 3 nal') t.(sps_) t.(pps_) = Some (Some d') /\ d'.(address) = d.(address)) ->
    Refusal t
| refuse_no_donor nal :
    survivor nal ->
    (forall nal d, survivor nal -> parse_slice_header (drop 3 nal) t.(sps_) t.(pps_) = Some (Some d) -> d.(slice_type) <> 1) ->
    Refusal t
| refuse_no_template : ~ prefix_known -> t.(have_meta_) = false -> Refusal t
| refuse_no_freeze : (forall nal, ~ survivor nal) -> ~ freezable t -> Refusal t
| refuse_span origin donor o kept x :
    Plan t origin donor o kept -> x ∈ spans t.(geometry_) t.(sps_).(pic_size_ctbs) ->
    x.2 <= x.1 \/ make_conceal_slice t.(sps_) t.(pps_) donor x.1 (x.2 - x.1) (x.1 =? 0) o = Some None -> Refusal t
| refuse_large origin donor o kept frame :
    Plan t origin donor o kept -> Composed t origin donor o kept frame -> t.(sr_cfg).(sr_max_frame_bytes) < len frame -> Refusal t.

Inductive Repaired (env : EM) (t : SpatialRepair) : EM * SpatialRepair * bool -> Prop :=
| repair_refused : Refusal t -> Repaired env t (env, count_failed t, false)
| repair_salvaged donor n frame env' t' ok :
    t.(have_sps_) = true -> frame_donor t donor -> Picture t (Prefix t) donor (-1) survivor frame -> 0 <= n < len t.(geometry_) ->
    emit env t frame = Some (env', t', ok) ->
    Repaired env t (env', if ok then salvaged t' n donor else reset_stream t', ok)
| repair_frozen frame env' t' ok :
    t.(have_sps_) = true -> (forall nal, ~ survivor nal) -> freezable t ->
    Picture t (Template t) t.(donor_) (frozen_poc t) (fun _ => False) frame -> emit env t frame = Some (env', t', ok) ->
    Repaired env t (env', if ok then frozen t' (frozen_poc t) else reset_stream t', ok).

Lemma first_span g total i x :
  GeometryOk g -> spans g total !! i = Some x -> (x.1 =? 0) = (true && (i =? 0)%nat).
Proof.
  intros Hg Hi. destruct x as [a e]. apply spans_lookup in Hi. cbn [fst].
  destruct Hg as [[->|Hg] _]; [done|]. destruct g as [|g0 g]; [done|]. cbn [geometry_shape] in Hg. apply andb_true_iff in Hg as [H0 Hs].
  destruct i as [|i]; [injection Hi as ->; cbn; lia|]. pose proof (ascending_above _ _ _ _ Hs Hi). cbn. lia.
Qed.

Lemma geometry_shaped t : SpatialOk t -> len t.(geometry_) <> 0 -> geometry_shape t.(geometry_) = true.
Proof. intros Ht Hne. destruct (so_geometry _ Ht) as [[E|] _]; [by rewrite E in Hne|done]. Qed.

(** The next POC, whole and in range. *)
Lemma next_poc t period :
  SpatialOk t -> SpsOk t.(sps_) -> shl1 t.(sps_).(log2_max_poc_lsb) = Some period ->
  let poc := Z.land (to_u32 (t.(last_poc_) + 1)) (period - 1) in
  poc = frozen_poc t /\ to_i32 poc = poc /\ 0 <= poc < 65536.
Proof.
  intros Ht Hs E. pose proof (so_last_poc _ Ht). pose proof (HevcRoundtrip.so_poc _ Hs) as Hp. unfold shl1 in E.
  destruct (_ && _); [|done]. injection E as <-. rewrite Z.shiftl_1_l. unfold frozen_poc. cbv zeta.
  rewrite Z.sub_1_r, <- Z.ones_equiv, Z.land_ones, to_u32_id by ints. set (n := 2 ^ log2_max_poc_lsb (sps_ t)).
  assert (0 < n <= 2 ^ 16) by (split; [apply Z.pow_pos_nonneg; lia|apply Z.pow_le_mono_r; lia]). change (2 ^ 16) with 65536 in *.
  pose proof (Z.mod_pos_bound (last_poc_ t + 1) n ltac:(lia)). split_and!; try done; try lia.
  unfold to_i32. rewrite Z.mod_small by lia. cbv zeta. destruct (Z.ltb_spec ((last_poc_ t + 1) mod n) 2147483648); lia.
Qed.

Lemma spans_first t i x :
  SpatialOk t -> spans t.(geometry_) t.(sps_).(pic_size_ctbs) !! i = Some x -> (x.1 =? 0) = (true && (i =? 0)%nat).
Proof. intros Ht. apply first_span, (so_geometry _ Ht). Qed.

Lemma freeze_repaired env t r :
  SpatialOk t -> t.(have_sps_) = true -> (forall nal, ~ survivor nal) -> len t.(geometry_) <> 0 ->
  freeze emit env t t.(sps_).(pic_size_ctbs) = Some r -> Repaired env t r.
Proof.
  intros Ht Hh Hnone Hg E. pose proof (spatial_sps _ Ht Hh) as Hs. unfold freeze in E.
  destruct (conceal_meta_some t Ht) as (meta & f & Em & Hml & Hmf & Hf0).
  destruct (_ || _) eqn:Eg.
  { injection E as <-. apply repair_refused, refuse_no_freeze; [done|]. intros (Hf & Hd & Hp & Hm & Hr).
    rewrite Hf, Hd, Hp, Hm, Hr in Eg. cbn [negb orb] in Eg. lia. }
  repeat apply orb_false_iff in Eg as [Eg ?]. bool_hyps.
  assert (Hfz : freezable t) by by split_and!.
  pose proof (plan_freeze t Hnone Hfz) as HP.
  destruct (shl1 _) as [period|] eqn:Ep; [|done]. cbn [mbind option_bind] in E.
  destruct (next_poc t period Ht Hs Ep) as (Epoc & Ei32 & Hpoc). rewrite Ei32, Epoc in E. clear Ei32.
  rewrite Em in E. cbn [mbind option_bind] in E.
  destruct (freeze_slices _ _ _ _) as [[body|]|] eqn:Ef; cbn [mbind option_bind] in E; [| |done].
  2:{ injection E as <-. apply repair_refused.
      destruct (freeze_slices_none (sps_ t) (pps_ t) t (frozen_poc t) true _ eq_refl eq_refl (fun i x => spans_first t i x Ht) Ef) as (x & Hx & Hr).
      by eapply refuse_span. }
  destruct (freeze_slices_tiles (sps_ t) (pps_ t) t (frozen_poc t) true _ body eq_refl eq_refl (fun i x => spans_first t i x Ht) Ef) as (HF & nals & -> & HN).
  assert (HC : Composed t (Template t) (donor_ t) (frozen_poc t) (fun _ => False) (<[5%nat := Z.lor f kFrameFlagSalvaged]> meta ++ concat nals)).
  { exists meta, f, [], nals. cbv zeta. split_and!; try done.
    - by apply salvaged_flags.
    - apply spans_tiling; [by apply geometry_shaped|done].
    - eapply Forall2_impl; [exact HN|]. intros x nal Hx. by apply tile_synthesised. }
  assert (Hlen : len (<[5%nat := Z.lor f kFrameFlagSalvaged]> meta ++ concat nals) = len (meta ++ concat nals)) by by rewrite !length_app, length_insert.
  destruct (_ >? _) eqn:Esz.
  { injection E as <-. apply repair_refused. eapply refuse_large; [exact HP|exact HC|]. rewrite Z.gtb_ltb in Esz. lia. }
  rewrite (mark_salvaged_prefix _ _ _ Hml Hmf) in E. cbn [mbind option_bind] in E.
  destruct (emit env t _) as [[[env' t'] ok]|] eqn:Ee; [|done]. cbn [mbind option_bind] in E.
  assert (r = (env', if ok then frozen t' (frozen_poc t) else reset_stream t', ok)) as -> by (destruct ok; cbn in E; congruence).
  eapply repair_frozen; [done|done|done| |exact Ee]. split; [exact HC|]. rewrite Z.gtb_ltb, Z.ltb_ge in Esz. lia.
Qed.

(** The slots after placing: each holds a survivor of its span. *)
Lemma slots_ok t total b found by_addr donor :
  Forall (FoundOk t.(sps_) t.(pps_) s sources total b) found -> Placed t.(geometry_) found (by_addr, donor) ->
  Forall2 (SlotOk t.(sps_) t.(pps_) s sources total b) (spans t.(geometry_) t.(sps_).(pic_size_ctbs)) by_addr.
Proof.
  intros HF [Hl Hs _ _]. cbn [fst snd] in *. apply Forall2_lookup. intros i.
  destruct (spans (geometry_ t) (pic_size_ctbs (sps_ t)) !! i) as [[a e]|] eqn:Ei.
  - destruct (lookup_lt_is_Some_2 by_addr i) as [slot Eslot].
    { apply lookup_lt_Some in Ei. rewrite spans_length in Ei. lia. }
    rewrite Eslot. constructor. intros f ->. destruct (Hs i f Eslot) as (Hin & a' & Ea & Hsv).
    apply spans_lookup in Ei. assert (a' = a) as -> by congruence. split; [|exact Hsv].
    rewrite Forall_forall in HF. destruct (HF f Hin) as (_ & Hc & Hd). destruct Hsv as (d & Ed & _). apply Hc, Hd. by rewrite Ed.
  - rewrite (proj2 (lookup_ge_None by_addr i)); [constructor|]. apply lookup_ge_None in Ei. rewrite spans_length in Ei. lia.
Qed.

(** What [repair] knows once it has scanned the frame. *)
Record Surveyed (t : SpatialRepair) (total : Z) (b : list Z * list Z) (meta_present : bool) (found : list FoundNal) : Prop := {
  sv_found : found = survivors t;
  sv_laid : Laid s sources total b;
  sv_holds : holds s total sources b;
  sv_total : total = frame_size s fl sources;
  sv_long : kVencFrameMetaSize < total;
  sv_ok : Forall (FoundOk t.(sps_) t.(pps_) s sources total b) found;
  sv_sound : forall f d, f ∈ found -> f.(slice_) = Some d ->
    exists p nal, f.(sc_off) = Z.of_nat p /\ SurvivorAt s fl sources p nal /\ nal_bytes b.1 f = Some nal /\
      parse_slice_header (drop 3 nal) t.(sps_) t.(pps_) = Some (Some d);
  sv_complete : forall p nal, SurvivorAt s fl sources p nal ->
    exists f, f ∈ found /\ nal_bytes b.1 f = Some nal /\ is_Some f.(slice_);
  sv_distinct : forall i j f f', found !! i = Some f -> found !! j = Some f' -> sc_off f = sc_off f' -> i = j;
  sv_prefix : if meta_present then prefix_known /\ exists f, b.1 !! 5%nat = Some f /\ Z.testbit f 0 = false else ~ prefix_known
}.

Section Surveyed.
Context (t : SpatialRepair) (total : Z) (b : list Z * list Z) (meta_present : bool) (found : list FoundNal).
Context (Hv : Surveyed t total b meta_present found).

(** The donor is a received slice of the frame. *)
Lemma placed_donor by_addr d : Placed t.(geometry_) found (by_addr, Some d) -> frame_donor t d.
Proof.
  intros [_ _ _ Hd]. destruct (Hd d eq_refl) as (Hty & f & Hin & Ef). split; [done|].
  split; [exists f; by rewrite <- (sv_found _ _ _ _ _ Hv)|]. destruct (sv_sound _ _ _ _ _ Hv f d Hin Ef) as (p & nal & _ & Hs & _ & Hp).
  exists nal. split; [by exists p|done].
Qed.

(** Every slice that survived is one of the rebuilt ones. *)
Lemma placed_kept g by_addr donor (nals : list (list Z)) :
  Placed g found (by_addr, donor) ->
  (forall i f, by_addr !! i = Some (Some f) -> exists nal, nals !! i = Some nal /\ nal_bytes b.1 f = Some nal) ->
  forall nal, survivor nal -> nal ∈ nals.
Proof.
  intros [_ _ Hall _] Hk nal [p Hs]. destruct (sv_complete _ _ _ _ _ Hv p nal Hs) as (f & Hin & Hb & Hsl).
  destruct (Hall f Hin Hsl) as [i Hi]. destruct (Hk i f Hi) as (nal' & Hn & Hb'). assert (nal' = nal) as -> by congruence.
  by eapply list_elem_of_lookup_2.
Qed.

(** No slot taken: no slice survived. *)
Lemma none_placed g by_addr donor :
  Placed g found (by_addr, donor) -> existsb (fun slot => bool_decide (is_Some slot)) by_addr = false ->
  forall nal, ~ survivor nal.
Proof.
  intros [_ _ Hall _] E nal [p Hs]. destruct (sv_complete _ _ _ _ _ Hv p nal Hs) as (f & Hin & _ & Hsl).
  destruct (Hall f Hin Hsl) as [i Hi]. apply list_elem_of_lookup_2 in Hi. assert (Ht : existsb (fun slot => bool_decide (is_Some slot)) by_addr = true).
  { apply existsb_exists. exists (Some f). split; [by apply list_elem_of_In|]. by apply bool_decide_eq_true_2. }
  congruence.
Qed.
(** A slot taken and no donor: a slice survived, and no P slice did. *)
Lemma no_donor_placed g by_addr :
  place_all g found = Some (by_addr, None) -> existsb (fun slot => bool_decide (is_Some slot)) by_addr = true ->
  (exists nal, survivor nal) /\
  forall nal d, survivor nal -> parse_slice_header (drop 3 nal) t.(sps_) t.(pps_) = Some (Some d) -> d.(slice_type) <> 1.
Proof.
  intros E Ex. pose proof (place_all_placed _ _ _ E) as [_ Hs Ha _]. split.
  - apply existsb_exists in Ex as (slot & [i Hi]%list_elem_of_In%list_elem_of_lookup & [f ->]%bool_decide_eq_true).
    destruct (Hs i f Hi) as (Hin & a & _ & d & Ed & _). destruct (sv_sound _ _ _ _ _ Hv f d Hin Ed) as (p & nal & _ & Hsv & _). by exists nal, p.
  - intros nal d [p Hsv] Hpar. destruct (sv_complete _ _ _ _ _ Hv p nal Hsv) as (f & Hin & Hb & d' & Ed).
    destruct (sv_sound _ _ _ _ _ Hv f d' Hin Ed) as (_ & nal' & _ & _ & Hb' & Hpar'). assert (nal' = nal) as -> by congruence.
    assert (d' = d) as -> by congruence. by eapply place_all_no_donor.
Qed.
Lemma surveyed_misplaced : misplaced t.(geometry_) found -> Refusal t.
Proof.
  intros (i & f & d & Hi & Ed & Hwhy). pose proof (list_elem_of_lookup_2 _ _ _ Hi) as Hin.
  destruct (sv_sound _ _ _ _ _ Hv f d Hin Ed) as (p & nal & Eo & Hs & _ & Hpar). apply (refuse_misplaced _ p nal d Hs Hpar).
  destruct Hwhy as [H|[H|(j & f' & d' & Hj & Hf' & Ed' & Ea)]]; [by left|by right; left|right; right].
  destruct (sv_sound _ _ _ _ _ Hv f' d' (list_elem_of_lookup_2 _ _ _ Hf') Ed') as (p' & nal' & Eo' & Hs' & _ & Hpar').
  exists p', nal', d'. split_and!; try done. intros ->. apply Hj. eapply (sv_distinct _ _ _ _ _ Hv j i); try done. congruence.
Qed.
Lemma surveyed_whole f : f ∈ found -> KeptWhole t.(sps_) t.(pps_) s fl sources b f.
Proof.
  intros Hin d Ed. destruct (sv_sound _ _ _ _ _ Hv f d Hin Ed) as (p & nal & _ & Hs & Hb & Hpar). exists nal. split; [by exists p|done].
Qed.

(** The prefix of the rebuilt picture. *)
Lemma surveyed_prefix :
  SpatialOk t -> (meta_present = false -> t.(have_meta_) = true) ->
  exists meta f, (if meta_present then slice b.1 0 (Z.to_nat kVencFrameMetaSize) else conceal_meta t) = Some meta /\
    Prefix t meta /\ length meta = 8%nat /\ meta !! 5%nat = Some f /\ Z.testbit f 0 = false.
Proof.
  intros Ht Hm. pose proof (sv_prefix _ _ _ _ _ Hv) as Hp. pose proof (sv_holds _ _ _ _ _ Hv) as Hh.
  pose proof (sv_total _ _ _ _ _ Hv) as Htot. destruct meta_present.
  - destruct Hp as [Hpk (f & Ef & Hf)]. pose proof Hh as (Ha & _ & _). pose proof (sv_long _ _ _ _ _ Hv) as Hl.
    change kVencFrameMetaSize with 8 in *. unfold slice. rewrite (proj2 (Nat.leb_le _ _)) by lia. change (Z.to_nat 8) with 8%nat.
    eexists _, f. split; [done|]. split_and!; [left; split; [done|]| | |done].
    + intros q Hq. destruct (Hpk q Hq) as [c Hc]. rewrite Hc, lookup_take_lt, lookup_drop, Nat.add_0_l by lia. subst total.
      by apply (known_present s fl sources b Hh) in Hc as [-> _].
    + rewrite length_take, length_drop. lia.
    + rewrite lookup_take_lt, lookup_drop by (cbn; lia). exact Ef.
  - destruct (conceal_meta_some t Ht) as (meta & f & Em & H). exists meta, f. split; [done|]. split; [|done]. right.
    split; [done|]. split; [by apply Hm|done].
Qed.
End Surveyed.

Lemma empty_slots_bound l : existsb (fun slot : option FoundNal => bool_decide (is_Some slot)) l = true -> 0 <= empty_slots l < len l.
Proof.
  unfold empty_slots. induction l as [|[f|] l IH]; cbn [existsb List.filter length]; [done| |].
  - intros _. pose proof (List.filter_length_le (fun slot => match slot with Some _ => false | None => true end) l) as H. lia.
  - rewrite bool_decide_eq_false_2 by by intros []. cbn [orb]. intros E. specialize (IH E). lia.
Qed.

Section Salvage.
Context (env : EM) (t : SpatialRepair) (total : Z) (b : list Z * list Z) (meta_present : bool) (found : list FoundNal).
Context (Hv : Surveyed t total b meta_present found) (Ht : SpatialOk t) (Hh : t.(have_sps_) = true) (Hg : len t.(geometry_) <> 0).

Lemma rebuild_repaired by_addr donor r :
  Placed t.(geometry_) found (by_addr, Some donor) ->
  existsb (fun slot => bool_decide (is_Some slot)) by_addr = true ->
  rebuild emit env t b.1 meta_present found by_addr donor = Some r -> Repaired env t r.
Proof.
  intros HP Hany E. pose proof (sv_ok _ _ _ _ _ Hv) as HF. pose proof (plan_salvage t donor (placed_donor _ _ _ _ _ Hv _ _ HP)) as Hplan. unfold rebuild in E.
  destruct (_ && _) eqn:E1.
  { injection E as <-. bool_hyps. apply repair_refused, refuse_no_template; [|done]. pose proof (sv_prefix _ _ _ _ _ Hv) as Hpm. by destruct meta_present. }
  destruct (surveyed_prefix t total b meta_present found Hv Ht) as (meta & f & Em & Hpre & Hml & Hmf & Hf0).
  { intros ->. by destruct (have_meta_ t). }
  rewrite Em in E. cbn [mbind option_bind] in E.
  destruct (leading_nals_some _ _ _ _ _ _ found HF) as [lead El]. rewrite El in E. cbn [mbind option_bind] in E.
  destruct (leading_nals_kept _ _ _ _ _ _ found lead HF El) as (leading & -> & HL).
  destruct (rebuild_slices _ _ _ _ _ _ _) as [[[body n]|]|] eqn:Er; cbn [mbind option_bind] in E; [| |done].
  2:{ injection E as <-. apply repair_refused.
      destruct (rebuild_slices_none (sps_ t) (pps_ t) b donor true _ by_addr (fun i x => spans_first t i x Ht) Er) as (x & Hx & Hr). by eapply refuse_span. }
  destruct (rebuild_slices_tiles (sps_ t) (pps_ t) s fl sources total b donor true _ by_addr body n (fun i x => spans_first t i x Ht)
    (slots_ok _ _ _ _ _ _ HF HP)) as (HF2 & nals & -> & HT & -> & Hkept); [|exact Er|].
  { intros f' [i Hi]%list_elem_of_lookup. destruct HP as [_ Hs _ _]. destruct (Hs i f' Hi) as [Hin _]. by apply (surveyed_whole t total b meta_present found Hv). }
  assert (HC : Composed t (Prefix t) donor (-1) survivor (<[5%nat := Z.lor f kFrameFlagSalvaged]> meta ++ concat leading ++ concat nals)).
  { exists meta, f, leading, nals. cbv zeta. split_and!; try done.
    - by apply salvaged_flags.
    - apply spans_tiling; [by apply geometry_shaped|done].
    - by eapply placed_kept. }
  assert (Hlen : len (<[5%nat := Z.lor f kFrameFlagSalvaged]> meta ++ concat leading ++ concat nals) = len (meta ++ concat leading ++ concat nals))
    by by rewrite !length_app, length_insert.
  destruct (_ >? _) eqn:Esz.
  { injection E as <-. apply repair_refused. eapply refuse_large; [exact Hplan|exact HC|]. rewrite Z.gtb_ltb in Esz. lia. }
  rewrite (mark_salvaged_prefix _ _ _ Hml Hmf) in E. cbn [mbind option_bind] in E.
  destruct (emit env t _) as [[[env' t'] ok]|] eqn:Ee; [|done]. cbn [mbind option_bind] in E.
  assert (r = (env', if ok then salvaged t' (empty_slots by_addr) donor else reset_stream t', ok)) as -> by (destruct ok; cbn in E; congruence).
  eapply repair_salvaged; [done|by eapply placed_donor| | |exact Ee].
  - split; [exact HC|]. rewrite Z.gtb_ltb, Z.ltb_ge in Esz. lia.
  - destruct HP as [Hl _ _ _]. cbn [fst] in Hl. rewrite <- Hl. by apply empty_slots_bound.
Qed.

Lemma salvage_repaired r : salvage emit env t b.1 meta_present found = Some r -> Repaired env t r.
Proof.
  intros E. unfold salvage in E. destruct (_ >? 64) eqn:E64; [injection E as <-; apply repair_refused, refuse_many; rewrite Z.gtb_ltb in E64; lia|].
  destruct (place_all _ _) as [[by_addr donor]|] eqn:Ep.
  2:{ injection E as <-. apply place_all_none in Ep. apply repair_refused. by apply (surveyed_misplaced t total b meta_present found Hv). }
  pose proof (place_all_placed _ _ _ Ep) as HP. destruct (existsb _ _) eqn:Eany; cbn [negb] in E.
  - destruct donor as [donor|]; [by eapply rebuild_repaired|]. injection E as <-.
    destruct (no_donor_placed t total b meta_present found Hv _ _ Ep Eany) as [[nal Hs] Hn]. by apply repair_refused, (refuse_no_donor _ nal).
  - apply freeze_repaired; try done. by apply (none_placed t total b meta_present found Hv _ _ _ HP).
Qed.
End Salvage.

(** The codes of the frame past its prefix. *)
Lemma frame_codes total b :
  Laid s sources total b -> kVencFrameMetaSize < total ->
  let codes := find_codes 8 (drop 8 b.1) (drop 8 b.2) in
  Forall (fun j => 0 <= j /\ j + 3 <= total /\ code_at b.1 b.2 (Z.to_nat j)) codes /\
  StronglySorted (fun a b => a + 3 <= b) codes.
Proof.
  intros Hb Ht. destruct (find_codes_spec _ 8 (drop 8 b.1) (drop 8 b.2) (le_n _)) as [HF HS]. split; [|done].
  change kVencFrameMetaSize with 8 in Ht. pose proof (ld_assembly _ _ _ _ Hb). pose proof (ld_present _ _ _ _ Hb).
  eapply Forall_impl; [exact HF|]. intros j [Hj Hc]. apply code_at_shift in Hc; [|lia..].
  replace (8 + Z.to_nat (j - 8))%nat with (Z.to_nat j) in Hc by lia. split_and!; [lia| |done].
  destruct Hc as (_ & _ & H2 & _). apply lookup_lt_Some in H2. lia.
Qed.

Lemma source_total_nonneg total : 0 <= fl -> source_total s fl sources = Some total -> 0 <= total.
Proof.
  intros Hf E. unfold source_total in E. destruct (negb (fl =? 0)); [by injection E as <-|].
  destruct (last sources) as [[i c]|]; [|done]. injection E as <-. apply to_u32_u32.
Qed.

Lemma span_prefix total b :
  holds s total sources b -> total = frame_size s fl sources -> 8 <= total ->
  if span_present b.2 total 0 8 then prefix_known else ~ prefix_known.
Proof.
  intros Hb -> Hl. pose proof Hb as (Ha & Hp & _). destruct (span_present _ _ _ _) eqn:E.
  - apply span_present_inv in E as [_ E]; [|lia..]. intros q Hq. destruct (E q ltac:(lia)) as (m & Em & Hm).
    destruct (present_known s fl sources b Hb _ _ Em Hm) as (c & -> & _). done.
  - intros Hk. rewrite (span_known s fl sources b Hb) in E; [done|lia..|]. intros q Hq. apply Hk. lia.
Qed.
Lemma found_distinct l codes i j f f' :
  sc_off <$> l = codes -> StronglySorted (fun a b => a + 3 <= b) codes -> l !! i = Some f -> l !! j = Some f' ->
  sc_off f = sc_off f' -> i = j.
Proof.
  intros <- HS Hi Hj E. assert (Hi' : (sc_off <$> l) !! i = Some (sc_off f)) by by rewrite list_lookup_fmap, Hi.
  assert (Hj' : (sc_off <$> l) !! j = Some (sc_off f')) by by rewrite list_lookup_fmap, Hj.
  destruct (Nat.lt_trichotomy i j) as [H|[H|H]]; [|done|].
  - pose proof (sorted_lookup _ _ _ _ _ _ HS Hi' Hj' H). cbn in *. lia.
  - pose proof (sorted_lookup _ _ _ _ _ _ HS Hj' Hi' H). cbn in *. lia.
Qed.

Lemma repair_repaired env t r :
  SpatialOk t -> 0 <= s -> 0 <= fl -> Forall (fun c => 0 <= c.1) sources ->
  repair emit env t k s fl sources = Some r -> Repaired env t r.
Proof.
  intros Ht Hs0 Hfl Hk E. unfold repair in E. destruct (_ || _) eqn:Eg.
  { injection E as <-. apply repair_refused, refuse_unready. repeat rewrite orb_true_iff in Eg. rewrite !negb_true_iff, !Z.eqb_eq in Eg.
    destruct Eg as [[[[[Eg|Eg]|Eg]|Eg]|Eg]|Eg]; auto 10; [right; right; left|do 5 right]; by apply length_zero_iff_nil; lia. }
  repeat apply orb_false_iff in Eg as [Eg ?]. bool_hyps.
  destruct (source_total s fl sources) as [total|] eqn:Et; [|done]. cbn [mbind option_bind] in E.
  pose proof (source_total_size _ _ _ _ Et) as Etot. pose proof Et as Et'. apply source_total_nonneg in Et; [|done].
  destruct (_ || _) eqn:Esz.
  { injection E as <-. apply repair_refused, refuse_size. rewrite <- Etot. change kVencFrameMetaSize with 8 in Esz.
    rewrite orb_true_iff, Z.gtb_ltb in Esz. lia. }
  apply orb_false_iff in Esz as [Esz _]. apply Z.leb_gt in Esz.
  destruct (lay_chunks_laid s sources total Hs0 Et Hk) as ([asm pres] & El & Hb). rewrite El in E. cbn [mbind option_bind] in E.
  pose proof (lay_chunks_holds s sources total (asm, pres) Hs0 Et Hk El) as Hho.
  destruct (rd8 asm 4) as [codec|] eqn:Ecd; [|done]. cbn [mbind option_bind] in E.
  destruct (rd8 asm 5) as [flags|] eqn:Ef; [|done]. cbn [mbind option_bind] in E.
  change kVencFrameMetaSize with 8 in *. pose proof (span_prefix total (asm, pres) Hho Etot ltac:(lia)) as Hpre. cbn [snd] in Hpre.
  destruct (_ && _) eqn:Em.
  { injection E as <-. apply andb_true_iff in Em as [Em1 Em2]. rewrite Em1 in Hpre. apply repair_refused.
    rewrite orb_true_iff, !negb_true_iff, !Z.eqb_neq in Em2. rewrite Etot in Hho. eapply (refuse_prefix t codec flags); try done.
    - destruct (Hpre 4%nat ltac:(lia)) as [c Hc]. pose proof (known_present s fl sources _ Hho _ _ Hc) as [Ec _]. unfold rd8 in Ecd. cbn in Ec. congruence.
    - destruct (Hpre 5%nat ltac:(lia)) as [c Hc]. pose proof (known_present s fl sources _ Hho _ _ Hc) as [Ec _]. unfold rd8 in Ef. cbn in Ec. congruence. }
  change (Z.to_nat 8) with 8%nat in E. pose proof Hho as Hho'. rewrite Etot in Hho'.
  destruct (len (find_codes _ _ _) =? 0) eqn:Ecodes.
  { apply freeze_repaired in E; [done|done|done| |done]. intros nal. apply (no_codes_no_survivor s fl sources (asm, pres) Hho').
    apply length_zero_iff_nil. cbn [fst snd]. lia. }
  destruct (frame_codes total (asm, pres) Hb Esz) as [HF HS]. cbn [fst snd] in *.
  destruct (found_nals_ok t.(sps_) t.(pps_) s sources total (asm, pres) (spatial_sps _ Ht ltac:(done)) Hb fl _ HF HS) as (rf & Erf & Hrf).
  cbn [fst snd] in Erf. rewrite Erf in E. cbn [mbind option_bind] in E. pose proof Erf as Erf'. rewrite Etot in Erf'.
  pose proof (found_nals_sound t.(sps_) t.(pps_) s fl sources (asm, pres) Hho' rf Erf') as Hsound.
  destruct rf as [found|]; [|injection E as <-; by apply repair_refused, refuse_spoiled].
  destruct (Hrf found eq_refl) as [Hfound Hoffs].
  apply (salvage_repaired env t total (asm, pres) (span_present pres total 0 8) found); try done. split; try done.
  - unfold survivors. rewrite Et'. cbn [mbind option_bind fst snd]. rewrite El. cbn [mbind option_bind fst snd]. by rewrite Erf.
  - intros p nal Hp. by apply (survivor_found t.(sps_) t.(pps_) s fl sources (asm, pres) Hho' p nal found).
  - intros i j f f'. by apply (found_distinct found _ i j f f' Hoffs).
  - destruct (span_present pres total 0 8); [|done]. split; [done|]. cbn [andb] in Em. apply orb_false_iff in Em as [_ Em].
    exists flags. split; [done|]. apply land_1_testbit. lia.
Qed.
End Repaired.

(** A P slice header that parses with the current parameter sets, its QP delta
    small enough to be written back. *)
Definition usable_donor (t : SpatialRepair) (d : SliceInfo) : Prop :=
  d.(slice_type) = 1 /\ -1073741824 < d.(qp_delta) < 1073741824 /\
  exists nal, parse_slice_header nal t.(sps_) t.(pps_) = Some (Some d).

Definition qp_in_range (f : FoundNal) : bool :=
  match f.(slice_) with Some d => (-1073741824 <? d.(qp_delta)) && (d.(qp_delta) <? 1073741824) | None => true end.
(** The QP deltas of the slices that survive of a frame. *)
Definition frame_qp_in_range (t : SpatialRepair) (s fl : Z) (sources : smap (list Z)) : bool :=
  forallb qp_in_range (survivors s fl sources t).

(** What the current parameter sets must satisfy. *)
Record Ready (t : SpatialRepair) : Prop := {
  rd_ok : SpatialOk t;
  rd_sps : t.(have_sps_) = true;
  rd_pps : t.(have_pps_) = true;
  rd_min_cb : t.(sps_).(log2_min_cb) < 32
}.

Lemma conceal_some t d a e first o :
  Ready t -> usable_donor t d -> 0 <= a < e -> e < 4294967296 ->
  is_Some (make_conceal_slice t.(sps_) t.(pps_) d a (e - a) first o).
Proof.
  intros [Ht Hs Hp Hm] (Hty & Hq & nal & E) Ha He. destruct (so_sps _ Ht Hs) as [ns Es]. destruct (so_pps _ Ht Hp) as [np Ep].
  destruct (conceal_total ns np nal (sps_ t) (pps_ t) d a (e - a) first o) as (r & -> & _); try done; lia.
Qed.

Lemma spans_u32 g total : Forall u32 g -> u32 total -> Forall (fun x => u32 x.1 /\ u32 x.2) (spans g total).
Proof.
  intros Hg Ht. induction Hg as [|a g Ha Hg IH]; cbn [spans]; constructor; [|done]. split; [done|]. cbn [snd].
  destruct g; [done|]. by apply Forall_cons in Hg as [? _].
Qed.
Lemma spatial_spans t : Ready t -> Forall (fun x => u32 x.1 /\ u32 x.2) (spans t.(geometry_) t.(sps_).(pic_size_ctbs)).
Proof.
  intros [Ht Hs _ _]. apply spans_u32; [apply (so_geometry _ Ht)|]. pose proof (sps_size_bound _ (spatial_sps _ Ht Hs)). ints.
Qed.

Lemma freeze_slices_some t poc first l :
  Ready t -> usable_donor t t.(donor_) -> Forall (fun x => u32 x.1 /\ u32 x.2) l -> is_Some (freeze_slices t poc first l).
Proof.
  intros Hr Hd HF. revert first. induction HF as [|[a e] l [Ha He] _ IH]; intros first; [done|]. cbn [freeze_slices fst snd] in *.
  destruct (Z.leb_spec e a); [done|]. destruct (conceal_some t (donor_ t) a e first poc Hr Hd) as [r ->]; [ints..|].
  cbn [mbind option_bind]. destruct r as [nal|]; [|done]. destruct (IH false) as [r ->]. done.
Qed.

Section Total.
Context {EM : Type} (emit : EM -> SpatialRepair -> list Z -> option (EM * SpatialRepair * bool)).
Context (Hemit : forall env t f, is_Some (emit env t f)).
Context (s : Z) (sources : smap (list Z)).

Lemma freeze_some env t :
  Ready t -> (t.(have_donor_) = true -> usable_donor t t.(donor_)) -> is_Some (freeze emit env t t.(sps_).(pic_size_ctbs)).
Proof.
  intros Hr Hd. pose proof (rd_ok _ Hr) as Ht. unfold freeze. destruct (_ || _) eqn:Eg; [done|].
  repeat apply orb_false_iff in Eg as [Eg ?]. bool_hyps.
  pose proof (HevcRoundtrip.so_poc _ (spatial_sps _ Ht (rd_sps _ Hr))) as Hp.
  assert (Es : exists p, shl1 (log2_max_poc_lsb (sps_ t)) = Some p).
  { unfold shl1. rewrite (proj2 (Z.leb_le _ _)), (proj2 (Z.ltb_lt _ _)) by lia. by eexists. }
  destruct Es as [p ->]. cbn [mbind option_bind]. destruct (conceal_meta_some t Ht) as (meta & f & -> & Hml & Hmf & _). cbn [mbind option_bind].
  destruct (freeze_slices_some t (to_i32 (Z.land (to_u32 (last_poc_ t + 1)) (p - 1))) true _ Hr (Hd ltac:(done)) (spatial_spans t Hr)) as [[body|] ->];
    cbn [mbind option_bind]; [|done].
  destruct (_ >? _); [done|]. rewrite (mark_salvaged_prefix _ _ _ Hml Hmf). cbn [mbind option_bind].
  destruct (Hemit env t (<[5%nat := Z.lor f kFrameFlagSalvaged]> meta ++ body)) as [[[env' t'] ok] ->]. cbn. by destruct ok.
Qed.

Lemma rebuild_slices_some t total b donor first l by_addr :
  Ready t -> usable_donor t donor -> Forall (fun x => u32 x.1 /\ u32 x.2) l ->
  Forall2 (SlotOk t.(sps_) t.(pps_) s sources total b) l by_addr ->
  is_Some (rebuild_slices t.(sps_) t.(pps_) donor b.1 first l by_addr).
Proof.
  intros Hr Hd HF HS. revert first HF. induction HS as [|[a e] slot l by_addr Hslot HS IH]; intros first HF; [done|].
  apply Forall_cons in HF as [[Ha He] HF]. cbn [rebuild_slices fst snd] in *. destruct (Z.leb_spec e a); [done|].
  assert (HN : is_Some (match slot with Some f => b0 ← nal_bytes b.1 f; Some (Some b0)
    | None => make_conceal_slice (sps_ t) (pps_ t) donor a (e - a) first (-1) end)).
  { destruct slot as [f|]; [|apply conceal_some; try done; ints]. destruct (Hslot f eq_refl) as [[_ (p & -> & _)] _]. by eexists. }
  destruct HN as [r ->]. cbn [mbind option_bind]. destruct r as [nal|]; [|done]. destruct (IH false HF) as [r ->]. done.
Qed.

Lemma rebuild_some env t total b meta_present found by_addr donor :
  Ready t -> Laid s sources total b -> kVencFrameMetaSize < total -> usable_donor t donor ->
  Forall (FoundOk t.(sps_) t.(pps_) s sources total b) found -> Placed t.(geometry_) found (by_addr, Some donor) ->
  is_Some (rebuild emit env t b.1 meta_present found by_addr donor).
Proof.
  intros Hr Hb Htot Hd HF HP. pose proof (rd_ok _ Hr) as Ht. unfold rebuild. destruct (_ && _); [done|].
  assert (HM : exists meta f, (if meta_present then slice b.1 0 (Z.to_nat kVencFrameMetaSize) else conceal_meta t) = Some meta /\
    length meta = 8%nat /\ meta !! 5%nat = Some f).
  { destruct meta_present; [|destruct (conceal_meta_some t Ht) as (m & f & ? & ? & ? & _); eauto]. change kVencFrameMetaSize with 8 in *.
    pose proof (ld_assembly _ _ _ _ Hb). unfold slice. rewrite (proj2 (Nat.leb_le _ _)) by lia.
    set (meta := take (Z.to_nat 8) (drop 0 b.1)). assert (Hl : length meta = 8%nat) by (unfold meta; rewrite length_take, length_drop; lia).
    destruct (lookup_lt_is_Some_2 meta 5) as [f Hf]; [lia|]. by exists meta, f. }
  destruct HM as (meta & f & -> & Hml & Hmf). cbn [mbind option_bind].
  destruct (leading_nals_some _ _ _ _ _ _ found HF) as [lead ->]. cbn [mbind option_bind].
  destruct (rebuild_slices_some t total b donor true _ by_addr Hr Hd (spatial_spans t Hr) (slots_ok _ _ _ _ _ _ _ _ HF HP)) as [[[body n]|] ->];
    cbn [mbind option_bind]; [|done].
  destruct (_ >? _); [done|]. rewrite (mark_salvaged_prefix _ _ _ Hml Hmf). cbn [mbind option_bind].
  destruct (Hemit env t (<[5%nat := Z.lor f kFrameFlagSalvaged]> meta ++ lead ++ body)) as [[[env' t'] ok] ->]. cbn. by destruct ok.
Qed.

Lemma salvage_some env t total b meta_present found :
  Ready t -> (t.(have_donor_) = true -> usable_donor t t.(donor_)) -> Laid s sources total b -> kVencFrameMetaSize < total ->
  Forall (FoundOk t.(sps_) t.(pps_) s sources total b) found -> forallb qp_in_range found = true ->
  is_Some (salvage emit env t b.1 meta_present found).
Proof.
  intros Hr Hd Hb Htot HF Hq. unfold salvage. destruct (_ >? 64); [done|].
  destruct (place_all _ _) as [[by_addr donor]|] eqn:Ep; [|done]. apply place_all_placed in Ep.
  destruct (negb _); [by apply freeze_some|]. destruct donor as [donor|]; [|done]. eapply rebuild_some; try done.
  pose proof Ep as [_ _ _ Hdon]. destruct (Hdon donor eq_refl) as (Hty & f & Hin & Ef).
  apply Is_true_true, forallb_True in Hq. rewrite Forall_forall in Hq, HF. specialize (Hq f Hin). apply Is_true_true in Hq.
  unfold qp_in_range in Hq. rewrite Ef in Hq. destruct (HF f Hin) as (_ & Hc & Hi).
  destruct Hc as [_ (payload & _ & _ & _ & Hpar)]; [apply Hi; by rewrite Ef|]. split_and!; [done|lia|lia|]. exists payload. by apply Hpar.
Qed.

Lemma repair_some env t k fl :
  SpatialOk t -> 0 <= s -> 0 <= fl -> Forall (fun c => 0 <= c.1) sources ->
  t.(sps_).(log2_min_cb) < 32 -> (t.(have_donor_) = true -> usable_donor t t.(donor_)) ->
  frame_qp_in_range t s fl sources = true -> is_Some (repair emit env t k s fl sources).
Proof.
  intros Ht Hs0 Hfl Hk Hm Hd Hq. unfold repair, frame_qp_in_range, survivors in *. destruct (_ || _) eqn:Eg; [done|].
  repeat apply orb_false_iff in Eg as [Eg ?]. bool_hyps. assert (Hr : Ready t) by by split.
  assert (Htot : is_Some (source_total s fl sources)).
  { unfold source_total. destruct (negb (fl =? 0)); [done|]. destruct (last sources) as [[i c]|] eqn:El; [done|].
    apply last_None in El. by subst. }
  destruct Htot as [total Et]. rewrite Et in *. cbn [mbind option_bind default] in *.
  apply source_total_nonneg in Et; [|done]. destruct (_ || _) eqn:Esz; [done|].
  apply orb_false_iff in Esz as [Esz _]. apply Z.leb_gt in Esz. change kVencFrameMetaSize with 8 in *.
  destruct (lay_chunks_laid s sources total Hs0 Et Hk) as ([asm pres] & El & Hb). rewrite El in *. cbn [mbind option_bind fst snd] in *.
  pose proof (ld_assembly _ _ _ _ Hb) as Ha. cbn [fst] in Ha. unfold rd8.
  destruct (lookup_lt_is_Some_2 asm 4) as [codec ->]; [lia|]. destruct (lookup_lt_is_Some_2 asm 5) as [flags ->]; [lia|].
  cbn [mbind option_bind]. destruct (_ && _); [done|]. change (Z.to_nat 8) with 8%nat.
  destruct (len _ =? 0); [by apply freeze_some|]. destruct (frame_codes s sources total (asm, pres) Hb Esz) as [HF HS]. cbn [fst snd] in *.
  destruct (found_nals_ok t.(sps_) t.(pps_) s sources total (asm, pres) (spatial_sps _ Ht ltac:(done)) Hb fl _ HF HS) as (rf & Erf & Hrf).
  cbn [fst snd] in Erf. rewrite Erf in *. cbn [mbind option_bind] in *. destruct rf as [found|]; [|done]. cbn in Hq.
  apply (salvage_some env t total (asm, pres)); try done. by apply Hrf.
Qed.
End Total.
