(* ===== verification/SpatialProps.v ===== *)
(** * Spatial salvage: theorems

    A repair is a counted refusal or one complete picture; every slice of that
    picture parses to its span; repair is defined; the object stays well-formed
    over any run of the node's egress.  Instances on the stream of
    [tests/hevc_conceal_vector.h], cut into frames as
    [tests/spatial_repair_test.cpp] does. *)
From S2P Require Import Prelude SMap FrameShm HevcBits HevcParse HevcConceal HevcCodes HevcDecode HevcRoundtrip HevcSegments ConcealProps Spatial SpatialFacts SpatialRepaired.

(** ** The frames of the test: an IDR (its slices cut to their headers) and the
    three pictures after it. *)
Definition demo_idr : list Z := [
    8; 82; 0; 0; 1; 1; 0; 0; 0; 0; 0; 1; 66; 1; 1; 1; 96; 0; 0; 3; 0; 0; 3; 0; 0; 3; 0; 0; 3; 0; 0; 160; 24;
    32; 48; 89; 101; 228; 145; 182; 13; 151; 136; 136; 136; 254; 121; 252; 254; 127; 63; 159; 207; 47; 255;
    255; 252; 254; 127; 63; 159; 207; 231; 243; 243; 249; 252; 254; 127; 63; 157; 146; 0; 0; 0; 1; 68; 1;
    193; 144; 149; 129; 18; 0; 0; 1; 38; 1; 175; 8; 96; 99; 246; 154; 242; 55; 222; 222; 224; 187; 11; 250;
    131; 247; 17; 94; 5; 72; 215; 178; 55; 167; 0; 0; 1; 38; 1; 38; 240; 134; 245; 124; 193; 255; 137; 132;
    249; 65; 165; 166; 39; 29; 172; 136; 251; 104; 159; 178; 243; 197; 148; 0; 0; 1; 38; 1; 44; 240; 134;
    24; 38; 180; 200; 151; 253; 200; 79; 223; 154; 150; 154; 20; 39; 84; 226; 141; 60; 161; 93; 84].
Definition demo_p1 : list Z := [
    40; 160; 0; 0; 1; 0; 0; 0; 0; 0; 0; 1; 2; 1; 208; 13; 30; 130; 44; 254; 31; 180; 239; 254; 211; 133; 36;
    24; 168; 129; 209; 249; 63; 142; 82; 136; 180; 108; 160; 90; 13; 193; 122; 138; 78; 178; 224; 86; 10;
    240; 51; 2; 190; 107; 99; 59; 166; 148; 217; 122; 245; 30; 60; 177; 173; 168; 228; 25; 95; 118; 140;
    170; 50; 0; 176; 0; 0; 1; 2; 1; 77; 0; 209; 232; 34; 192; 249; 39; 190; 15; 210; 196; 81; 127; 177; 226;
    67; 127; 221; 50; 126; 17; 157; 19; 212; 175; 252; 226; 249; 179; 131; 128; 0; 0; 1; 2; 1; 89; 0; 209;
    232; 34; 192; 254; 73; 1; 197; 94; 53; 160; 177; 93; 40; 249; 212; 248; 212; 3; 190; 159; 123; 64; 203;
    58; 138; 107; 187; 153; 92; 244; 71; 103; 17; 213; 120; 33; 254; 121; 255; 232; 97; 176; 251; 206; 137;
    167; 33; 33; 110; 24; 64; 183; 12; 25; 131; 243; 66; 208; 27; 154; 209; 28; 156; 47; 123; 157; 230; 211;
    113; 8; 120; 16; 38; 66; 63; 114; 155; 95; 32; 204; 215; 43; 39; 36; 112; 234; 237; 50; 64].
Definition demo_p2 : list Z := [
    72; 238; 0; 0; 1; 0; 0; 0; 0; 0; 0; 1; 2; 1; 208; 21; 61; 32; 131; 254; 249; 163; 255; 239; 81; 214; 5;
    178; 171; 222; 89; 143; 96; 6; 80; 124; 6; 140; 139; 83; 123; 78; 219; 104; 254; 253; 20; 237; 219; 95;
    5; 243; 119; 142; 2; 197; 220; 191; 108; 149; 148; 196; 63; 96; 19; 68; 121; 178; 36; 89; 1; 9; 161;
    212; 99; 121; 107; 241; 41; 43; 180; 17; 71; 130; 127; 53; 123; 113; 163; 217; 199; 212; 204; 92; 101;
    228; 66; 153; 61; 104; 204; 227; 83; 75; 8; 168; 115; 0; 0; 1; 2; 1; 77; 1; 83; 210; 8; 48; 253; 157;
    30; 113; 190; 103; 252; 21; 243; 150; 93; 76; 142; 154; 103; 168; 98; 220; 95; 252; 126; 130; 24; 229;
    247; 177; 35; 52; 39; 246; 114; 27; 164; 160; 0; 0; 1; 2; 1; 89; 1; 83; 210; 8; 48; 254; 205; 171; 81;
    139; 27; 194; 18; 7; 96; 255; 138; 89; 213; 5; 228; 226; 17; 67; 69; 181; 237; 136; 79; 155; 239; 93;
    138; 59; 35; 194; 13; 38; 162; 188; 212; 90; 160; 1; 63; 255; 125; 175; 144; 162; 30; 223; 249; 221;
    127; 228; 39; 11; 235; 218; 227; 46; 123; 2; 46; 218; 190; 216; 194; 81; 166; 147; 18; 91; 31; 139; 82;
    210; 42; 202; 6; 217; 245; 36; 9; 215; 255; 3; 175; 32].
Definition demo_p3 : list Z := [
    104; 60; 1; 0; 1; 0; 0; 0; 0; 0; 0; 1; 2; 1; 208; 29; 69; 160; 139; 246; 221; 140; 251; 92; 179; 183;
    102; 189; 215; 249; 165; 137; 70; 166; 175; 90; 230; 189; 151; 41; 32; 131; 100; 144; 147; 160; 95; 24;
    1; 192; 166; 118; 230; 138; 208; 49; 207; 218; 245; 43; 177; 8; 254; 160; 139; 16; 78; 32; 254; 145; 43;
    109; 159; 167; 122; 110; 161; 133; 184; 89; 253; 3; 78; 177; 102; 44; 142; 234; 203; 94; 29; 10; 17; 7;
    0; 0; 1; 2; 1; 77; 1; 212; 90; 8; 176; 95; 240; 29; 230; 31; 105; 59; 240; 81; 228; 89; 164; 38; 231;
    235; 79; 52; 231; 230; 36; 216; 219; 16; 183; 144; 91; 192; 0; 0; 1; 2; 1; 89; 1; 212; 90; 8; 176; 243;
    114; 220; 134; 64; 6; 205; 193; 162; 7; 85; 40; 209; 72; 201; 212; 108; 115; 102; 111; 219; 48; 86; 130;
    116; 120; 64; 63; 239; 227; 125; 151; 15; 118; 239; 191; 187; 126; 28; 203; 66; 31; 51; 22; 220; 210;
    176; 168; 187; 153; 112; 160; 249; 80; 196; 244; 115; 88; 176; 25; 228; 63; 226; 4; 207; 151; 19].

Definition demo_fresh : SpatialRepair := SpatialRepair_init SpatialRepairConfig_init.
Definition demo_learned (l : list (list Z)) : SpatialRepair := default demo_fresh (foldM learn l demo_fresh).
(** The 8-byte chunks of a frame but the dropped ones, as the test's [chunks]. *)
Definition demo_chunks (dropped : list Z) (blob : list Z) : smap (list Z) :=
  let n := ((length blob + 7) / 8)%nat in
  List.filter (fun c => negb (bool_decide (c.1 ∈ dropped)))
    (zip (seqZ 0 (Z.of_nat n)) ((fun i => take 8 (drop (i * 8) blob)) <$> seq 0 n)).
(** An egress that takes every frame and keeps it. *)
Definition demo_sink (log : list (list Z)) (frame : list Z) : list (list Z) * bool := (log ++ [frame], true).
Definition demo_grab (log : list (list Z)) (t : SpatialRepair) (frame : list Z)
  : option (list (list Z) * SpatialRepair * bool) := Some (log ++ [frame], t, true).

(** The fourth picture without the interior of its second slice: the middle
    slice is the one [tests/hevc_conceal_vector.h] pins. *)
Definition demo_state : SpatialRepair := demo_learned [demo_idr; demo_p1; demo_p2].
Definition demo_repaired : option (list (list Z) * SpatialRepair * bool) :=
  repair demo_grab [] demo_state 27 8 (len demo_p3) (demo_chunks [13] demo_p3).
Example demo_salvage :
  geometry_ demo_state = [0; 3; 6] /\
  exists frame t, demo_repaired = Some ([frame], t, true) /\
    st_frames_salvaged t.(sr_stats) = 1 /\ st_slices_synthesized t.(sr_stats) = 1 /\
    take 14 (drop 93 frame) = [0; 0; 0; 1; 2; 1; 77; 1; 212; 98; 130; 36; 59; 160] /\
    take 5 frame = take 5 demo_p3 /\ frame !! 5%nat = Some kFrameFlagSalvaged.
Proof. split; [by vm_compute|]. eexists _, _. split; [vm_compute; reflexivity|]. by vm_compute. Qed.

(** Two lost pictures in a row, through the node's egress: the second is
    stamped three intervals after the last delivered one, not two, because
    [learn] has already advanced the clock when [freeze] advances it. *)
Definition demo_stable : SpatialRepair := demo_learned [demo_idr; demo_p1; demo_p1].
Definition demo_lost : smap (list Z) := demo_chunks (seqZ 0 30) demo_p2.
Definition demo_twice : option (list (list Z) * SpatialRepair * bool) :=
  '(log, t, _) ← repair (write_egress demo_sink) [] demo_stable 31 8 (len demo_p2) demo_lost;
  repair (write_egress demo_sink) log t 31 8 (len demo_p2) demo_lost.
Example demo_freeze_clock :
  (last_pts_ demo_stable, pts_delta_ demo_stable) = (41000, 20000) /\
  (match demo_twice with Some (log, _, ok) => Some (rd_le32 <$> log, ok) | None => None end) =
    Some ([Some (41000 + 20000); Some (41000 + 3 * 20000)], true).
Proof. by vm_compute. Qed.

(** [reset_stream] keeps [geometry_pending_]: the first picture after it is
    adopted alone when it agrees with one from before. *)
Example demo_reset_pending :
  geometry_ (demo_learned [demo_idr]) = [] /\
  (geometry_ <$> learn (reset_stream (demo_learned [demo_idr])) demo_idr) = Some [0; 3; 6].
Proof. by vm_compute. Qed.

(** [rps_stable_] survives an IDR: the picture after it is frozen with a
    reference set from before it. *)
Example demo_freeze_after_idr :
  exists frame t, repair demo_grab [] (demo_learned [demo_idr; demo_p2; demo_p2; demo_idr]) 31 8 (len demo_p2) demo_lost =
    Some ([frame], t, true) /\ last_poc_ t = 1 /\ st_frames_frozen t.(sr_stats) = 1.
Proof. eexists _, _. split; [vm_compute; reflexivity|]. by vm_compute. Qed.

(** ** One repair *)

(** C23. Refinement: whatever chunks arrived, a repair is one of three things.
    When at least one slice survived whole - every byte from its start code to
    the next start code known - and a P slice is among them, [emit] gets
    exactly one picture: the received prefix, or the template when it is not
    known, marked salvaged and not IDR; received non-slice NALs; and for each
    span of the learnt geometry, which tiles the picture, a survivor of that
    address or the slice synthesised from the donor, every survivor kept.
    When no slice survived, the frozen picture: the template and one slice per
    span from the stored donor with the next POC.  Or a refusal is counted and
    nothing else changes, and there is a reason for it: what the object has
    not learnt, the frame's size, its prefix, a NAL that spoils it, survivors
    the geometry has no place for or without a P slice, no template, a freeze
    that is not allowed, a span the synthesis refuses, the frame limit. *)
Theorem repair_refines {EM} (emit : EM -> SpatialRepair -> list Z -> option (EM * SpatialRepair * bool))
    env t k s fl sources r :
  SpatialOk t -> 0 <= s -> 0 <= fl -> Forall (fun c => 0 <= c.1) sources ->
  repair emit env t k s fl sources = Some r -> Repaired emit k s fl sources env t r.
Proof. apply repair_repaired. Qed.

(** A repair is defined: laying out any chunks, scanning them, parsing what
    is found and synthesising the rest stays inside every buffer, provided
    the QP deltas that would be written back fit and the freeze donor, if
    any, parses with the current parameter sets. *)
Theorem repair_total {EM} (emit : EM -> SpatialRepair -> list Z -> option (EM * SpatialRepair * bool))
    env t k s fl sources :
  (forall env t f, is_Some (emit env t f)) -> SpatialOk t -> 0 <= s -> 0 <= fl -> Forall (fun c => 0 <= c.1) sources ->
  t.(sps_).(log2_min_cb) < 32 -> (t.(have_donor_) = true -> usable_donor t t.(donor_)) ->
  frame_qp_in_range t s fl sources = true -> is_Some (repair emit env t k s fl sources).
Proof. intros Hemit. apply repair_some; done. Qed.

(** A NAL with its start code that codes the span [x]: a slice that survived
    whole and starts at the span's first CTU; or a synthesised one whose header
    parses to that CTU and whose slice data the decoder of the standard reads
    as every CTU of the span, all skipped, and then the end. *)
Inductive CodesSpan (t : SpatialRepair) (s fl : Z) (sources : smap (list Z)) (x : Z * Z) (nal : list Z) : Prop :=
| codes_received d :
    Survivor s fl sources nal -> parse_slice_header (drop 3 nal) t.(sps_) t.(pps_) = Some (Some d) ->
    d.(address) = x.1 -> d.(first_slice) = (x.1 =? 0) -> CodesSpan t s fl sources x nal
| codes_synthesised d header payload cus :
    take 4 nal = [0; 0; 0; 1] -> parse_slice_header (drop 4 nal) t.(sps_) t.(pps_) = Some (Some d) ->
    d.(address) = x.1 -> d.(first_slice) = (x.1 =? 0) ->
    (exists donor o eps bits, write_conceal_header t.(sps_) t.(pps_) donor x.1 (x.1 =? 0) o eps = Some bits /\ pack_bits bits = Some header) ->
    (forall cap, len (header ++ payload) <= cap -> unescape (drop 6 nal) cap = header ++ payload) ->
    decode_slice_data t.(sps_) t.(pps_).(entropy_coding_sync_enabled) (t.(pps_).(init_qp) + d.(qp_delta)) x.1 payload = Some (cus, x.2) ->
    skipped_units t.(sps_) x.1 x.2 cus -> CodesSpan t s fl sources x nal.

Lemma tile_codes t s fl sources donor o x nal :
  Ready t -> conforming t.(sps_) -> usable_donor t donor -> donor.(nal_header1) <> 0 -> donor.(strps_bit_end) - donor.(strps_bit_begin) <= 1300 ->
  0 <= x.1 -> x.1 < x.2 -> x.2 <= t.(sps_).(pic_size_ctbs) -> Tile t.(sps_) t.(pps_) s fl sources donor o x nal ->
  CodesSpan t s fl sources x nal.
Proof.
  intros [Ht Hs Hp Hm] Hc (Hty & _ & pl & Epl) Hh1 Hspan H0 H1 H2 [d HS E _ Ha Hf|E]; [by eapply codes_received|].
  destruct (so_sps _ Ht Hs) as [ns Es]. destruct (so_pps _ Ht Hp) as [np Ep].
  destruct (conceal_reparses ns np pl (sps_ t) (pps_ t) donor x.1 (x.2 - x.1) (x.1 =? 0) o nal) as (Htake & _ & d & Ed & [Vf Va _ _ _ _ _ _ _ Vq]);
    try done; try lia.
  destruct (conceal_decodes ns np pl (sps_ t) (pps_ t) donor x.1 (x.2 - x.1) (x.1 =? 0) o nal) as (header & payload & cus & Hh & Hu & Hdec & Hskip);
    try done; try lia.
  rewrite Zplus_minus in Hdec, Hskip. rewrite <- Vq in Hdec. eapply codes_synthesised; try done.
  - replace (take 4 nal) with (take 4 (take 6 nal)) by by rewrite take_take. by rewrite Htake.
  - rewrite Va. destruct (Z.eqb_spec x.1 0) as [->|]; done.
  - by exists donor, o.
Qed.

(** What the headers that may serve as donors must fit. *)
Definition donor_fits (d : SliceInfo) : bool :=
  negb (d.(nal_header1) =? 0) && (d.(strps_bit_end) - d.(strps_bit_begin) <=? 1300) &&
  (-1073741824 <? d.(qp_delta)) && (d.(qp_delta) <? 1073741824).
Definition donors_fit (t : SpatialRepair) (s fl : Z) (sources : smap (list Z)) : bool :=
  forallb (fun f => match f.(slice_) with Some d => donor_fits d | None => true end) (survivors s fl sources t).

Lemma picture_codes t s fl sources origin donor o kept frame :
  Ready t -> conforming t.(sps_) -> usable_donor t donor -> donor_fits donor = true -> Picture s fl sources t origin donor o kept frame ->
  exists prefix nals, frame = prefix ++ concat nals /\
    Tiling 0 t.(sps_).(pic_size_ctbs) (spans t.(geometry_) t.(sps_).(pic_size_ctbs)) /\
    Forall2 (CodesSpan t s fl sources) (spans t.(geometry_) t.(sps_).(pic_size_ctbs)) nals.
Proof.
  intros Hr Hc Hd Hf [(meta & f & leading & nals & -> & _ & _ & _ & _ & _ & HT & HF & _) _]. unfold donor_fits in Hf. bool_hyps.
  exists (<[5%nat := Z.lor f kFrameFlagSalvaged]> meta ++ concat leading), nals. split_and!; [by rewrite app_assoc|done|].
  apply Forall2_same_length_lookup. split; [by eapply Forall2_length|]. intros i [a e] nal Hi Hn.
  pose proof (Forall2_lookup_lr _ _ _ _ _ _ HF Hi Hn) as Htile. destruct (tiling_lookup _ _ _ _ _ _ HT Hi) as (Hx1 & Hx2 & Hx3 & _).
  by eapply tile_codes.
Qed.

(** C25. The picture an accepted repair emitted is complete: its slices, in
    order, code spans that cover every CTU of the picture exactly once, each
    span by a slice that survived whole and starts at the span's first CTU, or
    by a synthesised slice whose header starts there and whose slice data the
    standard's decoder reads as exactly the span's CTUs, every unit skipped.
    The picture is whole coding blocks, and the headers that can serve as
    donors must fit: a NAL header whose second byte is not zero, a reference
    picture set of at most 1300 bits, a QP delta in range. *)
Theorem repair_covers_picture {EM} (emit : EM -> SpatialRepair -> list Z -> option (EM * SpatialRepair * bool))
    env t k s fl sources env' t' :
  SpatialOk t -> 0 <= s -> 0 <= fl -> Forall (fun c => 0 <= c.1) sources ->
  t.(have_pps_) = true -> conforming t.(sps_) -> donors_fit t s fl sources = true ->
  (t.(have_donor_) = true -> usable_donor t t.(donor_) /\ donor_fits t.(donor_) = true) ->
  repair emit env t k s fl sources = Some (env', t', true) ->
  exists frame t0 prefix nals, emit env t frame = Some (env', t0, true) /\ frame = prefix ++ concat nals /\
    Tiling 0 t.(sps_).(pic_size_ctbs) (spans t.(geometry_) t.(sps_).(pic_size_ctbs)) /\
    Forall2 (CodesSpan t s fl sources) (spans t.(geometry_) t.(sps_).(pic_size_ctbs)) nals.
Proof.
  intros Ht Hs0 Hfl Hk Hp Hc Hfit Hdon E. apply (repair_repaired emit k s fl sources) in E; [|done..].
  assert (Hr : t.(have_sps_) = true -> Ready t).
  { intros Hh. split; try done. destruct Hc as [? _]. pose proof (so_ctb _ (spatial_sps _ Ht Hh)). lia. }
  inversion E as [|donor n frame env1 t1 ok Hh (Hty & (f & Hin & Ef) & nal & _ & Hpar) HP _ He|frame env1 t1 ok Hh _ (_ & Hd & _) HP He]; subst.
  - apply Is_true_true, forallb_True in Hfit. rewrite Forall_forall in Hfit. specialize (Hfit f Hin). rewrite Ef in Hfit.
    apply Is_true_true in Hfit.
    destruct (picture_codes t s fl sources (Prefix s fl sources t) donor (-1) (Survivor s fl sources) frame (Hr Hh) Hc) as (prefix & nals & H); [|done|done|by exists frame, t1, prefix, nals].
    unfold donor_fits in Hfit. bool_hyps. split_and!; [done|lia|lia|by exists (drop 3 nal)].
  - destruct (Hdon Hd) as [Hu Hf]. destruct (picture_codes t s fl sources _ _ _ _ _ (Hr Hh) Hc Hu Hf HP) as (prefix & nals & H).
    by exists frame, t1, prefix, nals.
Qed.

(** ** Any run of the node *)

(** What the node does to the object: a delivered frame through its egress, a
    failed block to repair, a change of source. *)
Inductive SpatialEvent : Type :=
| ev_deliver (frame : list Z)
| ev_repair (k s fl : Z) (sources : smap (list Z))
| ev_reset.

Definition event_ok (e : SpatialEvent) : Prop :=
  match e with ev_repair _ s fl sources => 0 <= s /\ 0 <= fl /\ Forall (fun c => 0 <= c.1) sources | _ => True end.

Section Run.
Context {E : Type} (sink : E -> list Z -> E * bool).

Definition spatial_step (st : E * SpatialRepair) (e : SpatialEvent) : option (E * SpatialRepair) :=
  match e with
  | ev_deliver frame => '(env, t, _) ← write_egress sink st.1 st.2 frame; Some (env, t)
  | ev_repair k s fl sources => '(env, t, _) ← repair (write_egress sink) st.1 st.2 k s fl sources; Some (env, t)
  | ev_reset => Some (st.1, reset_stream st.2)
  end.
Definition spatial_run (st : E * SpatialRepair) (evs : list SpatialEvent) : option (E * SpatialRepair) := foldM spatial_step evs st.

Lemma repaired_keeps k s fl sources env t r :
  SpatialOk t -> Repaired (write_egress sink) k s fl sources env t r -> SpatialOk r.1.2.
Proof.
  intros Ht [_|donor n frame env' t' ok Hh (_ & _ & nal & _ & Hpar) _ _ He|frame env' t' ok Hh _ _ _ He]; cbn [fst snd].
  - by apply count_failed_ok.
  - apply write_egress_keeps in He; [|done]. destruct ok; [|by apply reset_stream_ok]. unfold salvaged.
    destruct (has_poc donor); [|by apply with_stats_ok]. apply with_poc_ok; [|by apply with_stats_ok].
    by apply (parsed_poc _ _ _ _ (spatial_sps _ Ht Hh) Hpar).
  - apply write_egress_keeps in He; [|done]. destruct ok; [|by apply reset_stream_ok]. unfold frozen.
    apply with_stats_ok. pose proof (HevcRoundtrip.so_poc _ (spatial_sps _ Ht Hh)) as Hp.
    set (m := 2 ^ log2_max_poc_lsb (sps_ t)). assert (Hm : 0 < m <= 2 ^ 16) by (split; [apply Z.pow_pos_nonneg; lia|apply Z.pow_le_mono_r; lia]).
    change (2 ^ 16) with 65536 in Hm. pose proof (Z.mod_pos_bound (last_poc_ t + 1) m ltac:(lia)).
    destruct (with_clock_ok _ (to_u32 (last_pts_ t' + pts_delta_ t')) (pts_delta_ t') He). split; cbn in *; try done. unfold frozen_poc. fold m. lia.
Qed.

Lemma spatial_run_ok evs st st' :
  Forall event_ok evs -> SpatialOk st.2 -> spatial_run st evs = Some st' -> SpatialOk st'.2.
Proof.
  intros Hev. revert st. unfold spatial_run. induction Hev as [|e evs He _ IH]; intros st Ht E'; cbn [foldM] in E'; [by injection E' as <-|].
  destruct (spatial_step st e) as [st1|] eqn:E1; [|done]. apply (IH st1); [|exact E']. destruct st as [env t]. cbn [snd] in Ht.
  destruct e as [frame|k s fl sources|]; cbn [spatial_step fst snd] in E1.
  - destruct (write_egress sink env t frame) as [[[env1 t1] ok]|] eqn:Ew; [|done]. injection E1 as <-. by eapply write_egress_keeps.
  - destruct (repair _ _ _ _ _ _ _) as [[[env1 t1] ok]|] eqn:Er; [|done]. injection E1 as <-. destruct He as (H1 & H2 & H3).
    apply (repaired_keeps k s fl sources env t (env1, t1, ok) Ht). by eapply repair_repaired.
  - injection E1 as <-. by apply reset_stream_ok.
Qed.

Lemma spatial_run_keeps evs env t env' t' :
  Forall event_ok evs -> SpatialOk t -> spatial_run (env, t) evs = Some (env', t') -> SpatialOk t'.
Proof. intros Hev Ht E'. exact (spatial_run_ok evs (env, t) (env', t') Hev Ht E'). Qed.

(** Invariant: over any run of delivered frames, failed blocks and source
    changes, with the egress calling back into the object as the node's
    does and accepting or rejecting at will, the object stays well-formed:
    its parameter sets are ones that parsed, its geometry ascends from CTU 0,
    its donor's copied bits lie in the donor's header - and every repair in
    the run is a refusal or one complete picture. *)
Theorem spatial_run_invariant cfg env evs env' t' :
  Forall event_ok evs -> spatial_run (env, SpatialRepair_init cfg) evs = Some (env', t') ->
  SpatialOk t' /\
  forall k s fl sources r, 0 <= s -> 0 <= fl -> Forall (fun c => 0 <= c.1) sources ->
    repair (write_egress sink) env' t' k s fl sources = Some r -> Repaired (write_egress sink) k s fl sources env' t' r.
Proof.
  intros Hev E'. pose proof (spatial_run_keeps _ _ _ _ _ Hev (spatial_init_ok cfg) E') as Ht.
  split; [done|]. intros k s fl sources r ???. by apply repair_repaired.
Qed.
End Run.

(** ** On the demo frames *)
Ltac decided := refine (bool_decide_unpack _ _); vm_compute; exact I.
Definition demo_run : list SpatialEvent :=
  [ev_deliver demo_idr; ev_deliver demo_p1; ev_deliver demo_p2; ev_repair 27 8 (len demo_p3) (demo_chunks [13] demo_p3)].
Definition demo_end : list (list Z) * SpatialRepair :=
  default ([], demo_fresh) (spatial_run demo_sink ([], demo_fresh) demo_run).
Lemma demo_run_defined : spatial_run demo_sink ([], demo_fresh) demo_run = Some (demo_end.1, demo_end.2).
Proof. by vm_compute. Qed.
Lemma demo_chunks_ok dropped blob : Forall (fun c => 0 <= c.1) (demo_chunks dropped blob).
Proof.
  unfold demo_chunks. apply Forall_forall. intros c Hc%list_elem_of_In%filter_In. destruct Hc as [Hc%list_elem_of_In _].
  destruct c as [i l]. apply elem_of_zip_l in Hc. apply elem_of_seqZ in Hc. cbn. lia.
Qed.
Lemma demo_state_run :
  spatial_run demo_sink ([], demo_fresh) [ev_deliver demo_idr; ev_deliver demo_p1; ev_deliver demo_p2] =
  Some ([demo_idr; demo_p1; demo_p2], demo_state).
Proof. vm_compute. reflexivity. Qed.
Lemma demo_state_ok : SpatialOk demo_state.
Proof.
  assert (He : Forall event_ok [ev_deliver demo_idr; ev_deliver demo_p1; ev_deliver demo_p2]) by repeat constructor.
  exact (spatial_run_keeps demo_sink _ _ _ _ _ He (spatial_init_ok SpatialRepairConfig_init) demo_state_run).
Qed.

Example repair_refines_witness :
  Repaired demo_grab 27 8 (len demo_p3) (demo_chunks [13] demo_p3) [] demo_state (default ([], demo_fresh, false) demo_repaired).
Proof.
  apply (repair_refines demo_grab [] demo_state 27 8 (len demo_p3)); [apply demo_state_ok|lia|lia|apply demo_chunks_ok|].
  vm_compute. reflexivity.
Defined.

(** The donor of [demo_state] parses with its parameter sets. *)
Lemma demo_donor_usable : usable_donor demo_state demo_state.(donor_).
Proof.
  split; [by vm_compute|]. split; [by vm_compute|]. exists (take 95 (drop 12 demo_p2)). by vm_compute.
Qed.
Example repair_total_witness : is_Some (repair demo_grab [] demo_state 27 8 (len demo_p3) (demo_chunks [13] demo_p3)).
Proof.
  apply (repair_total demo_grab); [intros env t f; by eexists|apply demo_state_ok|lia|lia|apply demo_chunks_ok|decided| |decided].
  intros _. exact demo_donor_usable.
Defined.


Definition demo_emitted : list (list Z) * SpatialRepair := default ([], demo_fresh) (fst <$> demo_repaired).
Example repair_covers_picture_witness :
  exists frame t0 prefix nals, demo_grab [] demo_state frame = Some (demo_emitted.1, t0, true) /\ frame = prefix ++ concat nals /\
    Tiling 0 demo_state.(sps_).(pic_size_ctbs) (spans demo_state.(geometry_) demo_state.(sps_).(pic_size_ctbs)) /\
    Forall2 (CodesSpan demo_state 8 (len demo_p3) (demo_chunks [13] demo_p3)) (spans demo_state.(geometry_) demo_state.(sps_).(pic_size_ctbs)) nals.
Proof.
  apply (repair_covers_picture demo_grab [] demo_state 27 8 (len demo_p3) (demo_chunks [13] demo_p3) demo_emitted.1 demo_emitted.2);
    [apply demo_state_ok|lia|lia|apply demo_chunks_ok|decided|decided|decided| |].
  - intros _. split; [exact demo_donor_usable|decided].
  - vm_compute. reflexivity.
Defined.

Example spatial_run_invariant_witness :
  SpatialOk demo_end.2 /\
  forall k s fl sources r, 0 <= s -> 0 <= fl -> Forall (fun c => 0 <= c.1) sources ->
    repair (write_egress demo_sink) demo_end.1 demo_end.2 k s fl sources = Some r ->
    Repaired (write_egress demo_sink) k s fl sources demo_end.1 demo_end.2 r.
Proof.
  apply (spatial_run_invariant demo_sink SpatialRepairConfig_init [] demo_run); [|exact demo_run_defined].
  unfold demo_run. repeat (apply Forall_cons; split); [exact I..| |constructor]. split; [lia|]. split; [lia|apply demo_chunks_ok].
Defined.
