(* ===== verification/McsProbe.v ===== *)
(** * The rate probe ([core/include/wblink/mcs_probe.h], [core/src/mcs_probe.cpp])

    The probe schedule both ends derive from the sequence number, the candidate
    rate, and the receiver's evidence window: which probe slots arrived at the
    candidate rate, which never arrived, and the failure rate reported. *)
From S2P Require Import Prelude Types Table.

Definition probe_slot_hit (seq period slot : Z) : bool := negb (period =? 0) && (seq mod period =? slot).

(** The locals of the scan of the table. *)
Record RungScan : Type := MkRungScan {
  rs_cur : option Profile;
  rs_next : option Profile;
  rs_top_id : Z;
  rs_ceiling_in_table : bool
}.
Definition rung_step (active_profile max_profile : Z) (r : RungScan) (p : Profile) : RungScan :=
  let '(cur, next) :=
    if p.(pf_id) =? active_profile then (Some p, r.(rs_next))
    else if (p.(pf_id) >? active_profile) &&
            match r.(rs_next) with None => true | Some n => p.(pf_id) <? n.(pf_id) end
    then (r.(rs_cur), Some p) else (r.(rs_cur), r.(rs_next)) in
  MkRungScan cur next (if p.(pf_id) >? r.(rs_top_id) then p.(pf_id) else r.(rs_top_id))
    ((p.(pf_id) =? max_profile) || r.(rs_ceiling_in_table)).
Definition probe_up_candidate_mcs (table : ProfileTable) (active_profile max_profile : Z) : option Z :=
  let r := fold_left (rung_step active_profile max_profile) table.(profiles) (MkRungScan None None 0 false) in
  match r.(rs_cur), r.(rs_next) with
  | Some cur, Some next =>
    if next.(pf_mcs) =? cur.(pf_mcs) then None else
    let ceiling := if r.(rs_ceiling_in_table) then max_profile else r.(rs_top_id) in
    if next.(pf_id) >? ceiling then None else Some next.(pf_mcs)
  | _, _ => None
  end.

Record ProbeParams : Type := MkProbeParams { min_samples : Z; max_age_ms : Z; gap_horizon : Z }.
Definition ProbeParams_init : ProbeParams := MkProbeParams 32 8000 128.

Definition kSeenBits : Z := 1024.
Definition kUplinkRxMcsUnknown : Z := 0xFF.

Record McsProbeWindow : Type := MkMcsProbeWindow {
  pw_table : option ProfileTable;
  pw_tv : option Z;
  pw_p : ProbeParams;
  have_context_ : bool;
  profile_ : Z;
  selected_mcs_ : Z;
  candidate_ : option Z;
  confirmed_ : bool;
  window_start_ms_ : Z;
  successes_ : Z;
  failures_ : Z;
  candidate_observed_ : Z;
  have_head_ : bool;
  head_seq_ : Z;
  walked_seq_ : Z;
  seen_ : list Z           (** [uint64_t seen_[16]] *)
}.
Definition McsProbeWindow_init (table : option ProfileTable) (tv : option Z) (p : ProbeParams) : McsProbeWindow :=
  MkMcsProbeWindow table tv p false 0 0 None false 0 0 0 0 false 0 0 (replicate 16 0).

(** The members written together. *)
Definition with_counts (w : McsProbeWindow) (start successes failures observed : Z) : McsProbeWindow :=
  MkMcsProbeWindow w.(pw_table) w.(pw_tv) w.(pw_p) w.(have_context_) w.(profile_) w.(selected_mcs_) w.(candidate_)
    w.(confirmed_) start successes failures observed w.(have_head_) w.(head_seq_) w.(walked_seq_) w.(seen_).
Definition with_confirmed (w : McsProbeWindow) (b : bool) : McsProbeWindow :=
  MkMcsProbeWindow w.(pw_table) w.(pw_tv) w.(pw_p) w.(have_context_) w.(profile_) w.(selected_mcs_) w.(candidate_)
    b w.(window_start_ms_) w.(successes_) w.(failures_) w.(candidate_observed_) w.(have_head_) w.(head_seq_)
    w.(walked_seq_) w.(seen_).
Definition with_window (w : McsProbeWindow) (head walked : Z) (seen : list Z) : McsProbeWindow :=
  MkMcsProbeWindow w.(pw_table) w.(pw_tv) w.(pw_p) w.(have_context_) w.(profile_) w.(selected_mcs_) w.(candidate_)
    w.(confirmed_) w.(window_start_ms_) w.(successes_) w.(failures_) w.(candidate_observed_) true head walked seen.

(** ** The bitmap *)
Definition bit_get (seen : list Z) (bit : Z) : bool :=
  negb (Z.land (Z.shiftr (default 0 (seen !! Z.to_nat (bit / 64))) (bit mod 64)) 1 =? 0).
Definition bit_set (seen : list Z) (bit : Z) : list Z :=
  alter (fun w => Z.lor w (Z.shiftl 1 (bit mod 64))) (Z.to_nat (bit / 64)) seen.
(** [seen_[bit / 64] &= ~(uint64_t{1} << (bit % 64))]. *)
Definition bit_clear (seen : list Z) (bit : Z) : list Z :=
  alter (fun w => Z.ldiff w (Z.shiftl 1 (bit mod 64))) (Z.to_nat (bit / 64)) seen.
Definition seen_at (seen : list Z) (seq : Z) : bool := bit_get seen (seq mod kSeenBits).
Definition mark_at (seen : list Z) (seq : Z) : list Z := bit_set seen (seq mod kSeenBits).
(** The bits of the numbers after [head] up to [seq]. *)
Definition recycle (seen : list Z) (head seq : Z) : list Z :=
  fold_left (fun seen s => bit_clear seen (s mod kSeenBits)) (seqZ (head + 1) (seq - head)) seen.

(** ** Operations *)
Definition reset (w : McsProbeWindow) : McsProbeWindow :=
  MkMcsProbeWindow w.(pw_table) w.(pw_tv) w.(pw_p) false w.(profile_) w.(selected_mcs_) None false w.(window_start_ms_)
    0 0 0 false w.(head_seq_) w.(walked_seq_) w.(seen_).

(** [table_->profiles], the last entry with the id. *)
Definition last_profile (table : ProfileTable) (id : Z) : option Profile :=
  fold_left (fun cur p => if p.(pf_id) =? id then Some p else cur) table.(profiles) None.
Definition reset_context (w : McsProbeWindow) (table : ProfileTable) (active_profile now_ms : Z) : McsProbeWindow :=
  let w := reset w in
  match last_profile table active_profile with
  | None =>
    MkMcsProbeWindow w.(pw_table) w.(pw_tv) w.(pw_p) false active_profile w.(selected_mcs_) None false
      w.(window_start_ms_) 0 0 0 false w.(head_seq_) w.(walked_seq_) w.(seen_)
  | Some cur =>
    MkMcsProbeWindow w.(pw_table) w.(pw_tv) w.(pw_p) true active_profile cur.(pf_mcs)
      (probe_up_candidate_mcs table active_profile 255) false now_ms 0 0 0 false w.(head_seq_) w.(walked_seq_) w.(seen_)
  end.

(** A missing probe slot is charged while the commanded rate is confirmed. *)
Definition charges (w : McsProbeWindow) (table : ProfileTable) (s : Z) : bool :=
  bool_decide (is_Some w.(candidate_)) && w.(confirmed_) && negb (seen_at w.(seen_) s) &&
  probe_slot_hit s table.(probe_period) table.(probe_slot).
(** The loop of [advance_gap_walk]: the distance to the head bounds it. *)
Fixpoint gap_walk (fuel : nat) (w : McsProbeWindow) (table : ProfileTable) : McsProbeWindow :=
  if to_u32 (w.(head_seq_) - w.(walked_seq_)) >? w.(pw_p).(gap_horizon) then
    match fuel with
    | O => w
    | S fuel =>
      let s := to_u32 (w.(walked_seq_) + 1) in
      let w := if charges w table s
               then with_counts w w.(window_start_ms_) w.(successes_) (to_u32 (w.(failures_) + 1)) w.(candidate_observed_)
               else w in
      gap_walk fuel (with_window w w.(head_seq_) s w.(seen_)) table
    end
  else w.
Definition advance_gap_walk (w : McsProbeWindow) (table : ProfileTable) : McsProbeWindow :=
  let w := if to_u32 (w.(head_seq_) - w.(walked_seq_)) >? kSeenBits
           then with_window w w.(head_seq_) (to_u32 (w.(head_seq_) - kSeenBits)) w.(seen_) else w in
  gap_walk (Z.to_nat (to_u32 (w.(head_seq_) - w.(walked_seq_)))) w table.

(** Rolling freshness. *)
Definition refresh (w : McsProbeWindow) (now_ms : Z) : McsProbeWindow :=
  if to_u64 (now_ms - w.(window_start_ms_)) >? w.(pw_p).(max_age_ms) then with_counts w now_ms 0 0 0 else w.

(** Where [seq] falls in the window: the new window and [first_arrival];
    [None] is the early return. *)
Definition arrive (w : McsProbeWindow) (table : ProfileTable) (seq : Z) : option (McsProbeWindow * bool) :=
  if negb w.(have_head_) then Some (with_window w seq seq (mark_at (replicate 16 0) seq), true)
  else if seq >? w.(head_seq_) then
    let delta := seq - w.(head_seq_) in
    let w := if delta >=? kSeenBits then with_window w seq seq (mark_at (replicate 16 0) seq)
             else with_window w seq w.(walked_seq_) (mark_at (recycle w.(seen_) w.(head_seq_) seq) seq) in
    Some (advance_gap_walk w table, true)
  else if (w.(head_seq_) - seq >=? kSeenBits) || (seq <=? w.(walked_seq_)) then None
  else Some (with_window w w.(head_seq_) w.(walked_seq_) (mark_at w.(seen_) seq), negb (seen_at w.(seen_) seq)).

(** The four guards on the frame itself. *)
Definition score (w : McsProbeWindow) (table : ProfileTable) (seq rx_mcs : Z) (first_arrival : bool) : McsProbeWindow :=
  if probe_slot_hit seq table.(probe_period) table.(probe_slot) then
    if first_arrival && bool_decide (w.(candidate_) = Some rx_mcs)
    then with_counts w w.(window_start_ms_) (to_u32 (w.(successes_) + 1)) w.(failures_) (to_u32 (w.(candidate_observed_) + 1))
    else w
  else if rx_mcs =? w.(selected_mcs_) then with_confirmed w true
  else if negb (rx_mcs =? kUplinkRxMcsUnknown) then with_confirmed w false
  else w.

Definition on_data (w : McsProbeWindow) (seq active_profile table_version rx_mcs now_ms : Z) : McsProbeWindow :=
  match w.(pw_table) with
  | None => w
  | Some table =>
    if table.(probe_period) =? 0 then w else
    if match w.(pw_tv) with Some tv => negb (table_version =? tv) | None => false end then w else
    let w := if negb w.(have_context_) || negb (active_profile =? w.(profile_))
             then reset_context w table active_profile now_ms else w in
    if negb w.(have_context_) then w else
    let w := refresh w now_ms in
    match arrive w table seq with
    | None => w
    | Some (w, first_arrival) => score w table seq rx_mcs first_arrival
    end
  end.

Definition on_crc_frames (w : McsProbeWindow) (rx_mcs count now_ms : Z) : McsProbeWindow :=
  match w.(pw_table), w.(candidate_) with
  | Some table, Some candidate =>
    if (table.(probe_period) =? 0) || negb w.(have_context_) || negb w.(confirmed_) || (count =? 0) then w else
    let w := refresh w now_ms in
    if rx_mcs =? candidate
    then with_counts w w.(window_start_ms_) w.(successes_) (to_u32 (w.(failures_) + count)) (to_u32 (w.(candidate_observed_) + count))
    else w
  | _, _ => w
  end.

(** [None] is a division by zero. *)
Definition probe_per (w : McsProbeWindow) (now_ms : Z) : option (option Z) :=
  if negb w.(have_context_) || negb (bool_decide (is_Some w.(candidate_))) then Some None else
  if to_u64 (now_ms - w.(window_start_ms_)) >? w.(pw_p).(max_age_ms) then Some None else
  let total := to_u32 (w.(successes_) + w.(failures_)) in
  if (total <? w.(pw_p).(min_samples)) || (w.(candidate_observed_) =? 0) then Some None else
  if total =? 0 then None else
  let per := to_u32 (w.(failures_) * 1000 / total) in
  Some (Some (to_u16 (if per >? 1000 then 1000 else per))).
