(* ===== verification/McsProbeProps.v ===== *)
(** * The evidence window against a reference

    The reference keeps the sequence numbers themselves - those heard in time,
    the probe slots credited and the probe slots charged - where the code keeps
    a ring of 1024 bits and three counters.  Both report the same, and in the
    reference no slot is counted twice. *)
From S2P Require Import Prelude Types Table McsProbe.
Lemma to_u32_add_l a b : to_u32 (to_u32 a + b) = to_u32 (a + b).
Proof. unfold to_u32. by rewrite Zplus_mod_idemp_l. Qed.
Lemma to_u32_small z : 0 <= z < 2 ^ 32 -> to_u32 z = z.
Proof. intros. apply to_u32_id. unfold u32. lia. Qed.

(** ** The ring of bits *)
Lemma bit_get_testbit seen bit : 0 <= bit ->
  bit_get seen bit = Z.testbit (default 0 (seen !! Z.to_nat (bit / 64))) (bit mod 64).
Proof.
  intros Hb. unfold bit_get. set (v := default 0 _).
  pose proof (Z.mod_pos_bound bit 64 ltac:(lia)) as Hm.
  rewrite Z.testbit_odd. assert (Hl : forall x, Z.land x 1 = x mod 2) by (intros x; exact (Z.land_ones x 1 ltac:(lia))).
  rewrite Hl, Zmod_odd. by destruct (Z.odd _).
Qed.

Lemma word_bit_eq a b : a / 64 = b / 64 -> a mod 64 = b mod 64 -> a = b.
Proof. pose proof (Z.div_mod a 64). pose proof (Z.div_mod b 64). lia. Qed.

(** A word-wise update by the mask of bit [a]. *)
Lemma bit_get_alter (f : Z -> Z -> Z) (v : bool) seen a b :
  (forall w i j, 0 <= i -> 0 <= j -> Z.testbit (f w (Z.shiftl 1 i)) j = if i =? j then v else Z.testbit w j) ->
  length seen = 16%nat -> 0 <= a < 1024 -> 0 <= b < 1024 ->
  bit_get (alter (fun w => f w (Z.shiftl 1 (a mod 64))) (Z.to_nat (a / 64)) seen) b = if a =? b then v else bit_get seen b.
Proof.
  intros Hf Hl Ha Hb. rewrite !bit_get_testbit by lia.
  pose proof (Z.mod_pos_bound a 64 ltac:(lia)) as Ham. pose proof (Z.mod_pos_bound b 64 ltac:(lia)) as Hbm.
  assert (Had : 0 <= a / 64 < 16) by (split; [apply Z.div_pos; lia | apply Z.div_lt_upper_bound; lia]).
  assert (Hbd : 0 <= b / 64 < 16) by (split; [apply Z.div_pos; lia | apply Z.div_lt_upper_bound; lia]).
  destruct (decide (a / 64 = b / 64)) as [Hd|Hd].
  - rewrite Hd, list_lookup_alter_eq.
    destruct (lookup_lt_is_Some_2 seen (Z.to_nat (b / 64))) as [w Hw]; [lia|].
    rewrite Hw. simpl. rewrite Hf by lia.
    destruct (Z.eqb_spec a b) as [->|Hn]; [by rewrite Z.eqb_refl|].
    destruct (Z.eqb_spec (a mod 64) (b mod 64)) as [He|]; [|done].
    exfalso. by apply Hn, word_bit_eq.
  - rewrite list_lookup_alter_ne by lia.
    destruct (Z.eqb_spec a b) as [->|]; [congruence|done].
Qed.

Lemma testbit_mask i j : 0 <= i -> 0 <= j -> Z.testbit (Z.shiftl 1 i) j = (i =? j).
Proof. intros. rewrite Z.shiftl_1_l, Z.pow2_bits_eqb by lia. done. Qed.
Lemma bit_get_set seen a b : length seen = 16%nat -> 0 <= a < 1024 -> 0 <= b < 1024 ->
  bit_get (bit_set seen a) b = if a =? b then true else bit_get seen b.
Proof.
  apply (bit_get_alter Z.lor true). intros w i j Hi Hj. rewrite Z.lor_spec, testbit_mask by done.
  destruct (i =? j); [apply orb_true_r | apply orb_false_r].
Qed.
Lemma bit_get_clear seen a b : length seen = 16%nat -> 0 <= a < 1024 -> 0 <= b < 1024 ->
  bit_get (bit_clear seen a) b = if a =? b then false else bit_get seen b.
Proof.
  apply (bit_get_alter Z.ldiff false). intros w i j Hi Hj. rewrite Z.ldiff_spec, testbit_mask by done.
  destruct (i =? j); simpl; [apply andb_false_r | apply andb_true_r].
Qed.
Lemma bit_set_length seen a : length (bit_set seen a) = length seen.
Proof. apply length_alter. Qed.
Lemma bit_clear_length seen a : length (bit_clear seen a) = length seen.
Proof. apply length_alter. Qed.
Lemma bit_get_zero b : bit_get (replicate 16 0) b = false.
Proof.
  unfold bit_get. destruct (replicate 16 0 !! _) as [w|] eqn:E; simpl.
  - apply lookup_replicate in E as [-> _]. by rewrite Z.shiftr_0_l.
  - by rewrite Z.shiftr_0_l.
Qed.

(** In a span of fewer than 1024 numbers the ring does not fold. *)
Lemma ring_inj a b : Z.abs (a - b) < 1024 -> a mod kSeenBits = b mod kSeenBits -> a = b.
Proof.
  unfold kSeenBits. intros Hd He. pose proof (Z.div_mod a 1024). pose proof (Z.div_mod b 1024). nia.
Qed.
Lemma ring_range a : 0 <= a mod kSeenBits < 1024.
Proof. apply Z.mod_pos_bound. done. Qed.

Lemma seen_at_mark seen a b : length seen = 16%nat -> Z.abs (a - b) < 1024 ->
  seen_at (mark_at seen a) b = (a =? b) || seen_at seen b.
Proof.
  intros Hl Hd. unfold seen_at, mark_at. rewrite bit_get_set by (done || apply ring_range).
  destruct (Z.eqb_spec a b) as [->|Hn]; [by rewrite Z.eqb_refl|].
  destruct (Z.eqb_spec (a mod kSeenBits) (b mod kSeenBits)) as [He|]; [|done].
  exfalso. by apply Hn, ring_inj.
Qed.
Lemma mark_at_length seen a : length (mark_at seen a) = length seen.
Proof. apply bit_set_length. Qed.

Lemma recycle_length l seen : length (fold_left (fun seen s => bit_clear seen (s mod kSeenBits)) l seen) = length seen.
Proof. revert seen. induction l as [|s l IH]; intros seen; simpl; [done|]. by rewrite IH, bit_clear_length. Qed.
Lemma recycle_bits l seen b : length seen = 16%nat -> 0 <= b < 1024 ->
  bit_get (fold_left (fun seen s => bit_clear seen (s mod kSeenBits)) l seen) b =
  bit_get seen b && negb (existsb (fun s => s mod kSeenBits =? b) l).
Proof.
  intros Hl Hb. revert seen Hl. induction l as [|s l IH]; intros seen Hl; simpl; [by rewrite andb_true_r|].
  rewrite IH by (by rewrite bit_clear_length). rewrite bit_get_clear by (done || apply ring_range).
  destruct (_ =? b); simpl; [by rewrite andb_false_r|done].
Qed.
(** The bits of the numbers entering the window are clear, those of the numbers that stay are kept. *)
Lemma seen_at_recycle seen head seq s : length seen = 16%nat -> head < seq -> seq - head < 1024 -> seq - 1024 < s <= seq ->
  seen_at (recycle seen head seq) s = (s <=? head) && seen_at seen s.
Proof.
  intros Hl Hh Hd Hs. unfold seen_at, recycle. rewrite recycle_bits by (done || apply ring_range).
  rewrite andb_comm. f_equal. destruct (Z.leb_spec s head) as [Hle|Hgt].
  - apply negb_true_iff, not_true_iff_false. intros He. apply existsb_exists in He as (t & Ht & E).
    apply list_elem_of_In, elem_of_seqZ in Ht. apply Z.eqb_eq, ring_inj in E; lia.
  - apply negb_false_iff, existsb_exists. exists s. split; [|apply Z.eqb_refl].
    apply list_elem_of_In, elem_of_seqZ. lia.
Qed.

(** ** The gap walk *)
Definition walk_top (w : McsProbeWindow) : Z := Z.max w.(walked_seq_) (w.(head_seq_) - w.(pw_p).(gap_horizon)).
Definition walked_to (w : McsProbeWindow) (table : ProfileTable) (top : Z) : McsProbeWindow :=
  let lost := List.filter (charges w table) (seqZ (w.(walked_seq_) + 1) (top - w.(walked_seq_))) in
  with_window (with_counts w w.(window_start_ms_) w.(successes_) (to_u32 (w.(failures_) + len lost)) w.(candidate_observed_))
    w.(head_seq_) top w.(seen_).

Record walkable (w : McsProbeWindow) : Prop := {
  wk_head : w.(have_head_) = true;
  wk_span : 0 <= w.(walked_seq_) <= w.(head_seq_) /\ w.(head_seq_) < 2 ^ 32;
  wk_fail : to_u32 w.(failures_) = w.(failures_);
  wk_gap : 0 <= w.(pw_p).(gap_horizon)
}.

Lemma walked_to_same w table : walkable w -> walked_to w table w.(walked_seq_) = w.
Proof.
  intros [Hh Hs Hf Hg]. unfold walked_to. rewrite Z.sub_diag. rewrite seqZ_nil by lia. simpl.
  unfold len. simpl. rewrite Z.add_0_r, Hf. unfold with_window, with_counts. simpl. destruct w; simpl in *. by subst.
Qed.

Lemma gap_walk_spec fuel w table : walkable w -> w.(head_seq_) - w.(walked_seq_) <= Z.of_nat fuel ->
  gap_walk fuel w table = walked_to w table (walk_top w).
Proof.
  revert w. induction fuel as [|fuel IH]; intros w Hw Hfu; pose proof Hw as [Hh Hs Hf Hg]; simpl;
    rewrite (to_u32_small (head_seq_ w - walked_seq_ w)) by lia; rewrite Z.gtb_ltb;
    destruct (Z.ltb_spec (gap_horizon (pw_p w)) (head_seq_ w - walked_seq_ w)) as [Hlt|Hge]; try lia.
  1, 3: unfold walk_top; rewrite Z.max_l by lia; by rewrite walked_to_same.
  rewrite (to_u32_small (walked_seq_ w + 1)) by lia.
  set (s := walked_seq_ w + 1).
  set (w1 := if charges w table s then _ else w).
  rewrite IH.
  - unfold walk_top. unfold w1, walked_to. destruct (charges w table s) eqn:Ec; cbn -[Z.max seqZ to_u32].
    all: rewrite !Z.max_r by (unfold s; lia).
    all: replace (head_seq_ w - gap_horizon (pw_p w) - walked_seq_ w) with
      (Z.succ (head_seq_ w - gap_horizon (pw_p w) - s)) by (unfold s; lia).
    all: rewrite (seqZ_cons (walked_seq_ w + 1) (Z.succ _)) by (unfold s; lia).
    all: fold s; replace (Z.pred (Z.succ (head_seq_ w - gap_horizon (pw_p w) - s))) with (head_seq_ w - gap_horizon (pw_p w) - s) by lia.
    all: change (Z.succ s) with (s + 1); cbn [List.filter]; rewrite Ec.
    + unfold with_window, with_counts; cbn -[Z.of_nat to_u32 seqZ]. f_equal.
      rewrite to_u32_add_l. f_equal. rewrite Nat2Z.inj_succ.
      change (charges _ table) with (charges w table). lia.
    + done.
  - constructor; unfold w1; destruct (charges w table s); cbn -[to_u32]; unfold s in *; try done; try lia.
    apply to_u32_id, to_u32_u32.
  - unfold w1. destruct (charges w table s); simpl; unfold s; lia.
Qed.

(** ** The reference *)
Record ProbeRef : Type := MkProbeRef {
  pr_context : option (Z * Z * option Z);   (** profile, its rate, the candidate rate *)
  pr_confirmed : bool;
  pr_start : Z;
  pr_span : option (Z * Z);                 (** the head, and what is settled *)
  pr_heard : list Z;
  pr_credited : list Z;
  pr_charged : list Z;
  pr_corrupt : Z
}.
Definition ProbeRef_init : ProbeRef := MkProbeRef None false 0 None [] [] [] 0.

Section Ref.
Context (table : ProfileTable) (tv : option Z) (p : ProbeParams).
Local Abbreviation slot := (fun s => probe_slot_hit s table.(probe_period) table.(probe_slot)).

Definition ref_context (r : ProbeRef) (active now : Z) : ProbeRef :=
  match last_profile table active with
  | None => MkProbeRef None false r.(pr_start) None [] [] [] 0
  | Some cur => MkProbeRef (Some (active, cur.(pf_mcs), probe_up_candidate_mcs table active 255)) false now None [] [] [] 0
  end.
Definition ref_refresh (r : ProbeRef) (now : Z) : ProbeRef :=
  if to_u64 (now - r.(pr_start)) >? p.(max_age_ms)
  then MkProbeRef r.(pr_context) r.(pr_confirmed) now r.(pr_span) r.(pr_heard) [] [] 0 else r.
Definition ref_candidate (r : ProbeRef) : option Z := '(_, _, c) ← r.(pr_context); c.

(** The probe slots of [(low, top]] that were not heard. *)
Definition lost_slots (r : ProbeRef) (heard : list Z) (low top : Z) : list Z :=
  List.filter (fun s => bool_decide (is_Some (ref_candidate r)) && r.(pr_confirmed) && negb (bool_decide (s ∈ heard)) && slot s)
    (seqZ (low + 1) (top - low)).

Definition ref_arrive (r : ProbeRef) (seq : Z) : option (ProbeRef * bool) :=
  match r.(pr_span) with
  | None => Some (MkProbeRef r.(pr_context) r.(pr_confirmed) r.(pr_start) (Some (seq, seq)) [seq] r.(pr_credited) r.(pr_charged) r.(pr_corrupt), true)
  | Some (head, walked) =>
    if seq >? head then
      if seq - head >=? 1024
      then Some (MkProbeRef r.(pr_context) r.(pr_confirmed) r.(pr_start) (Some (seq, seq)) [seq] r.(pr_credited) r.(pr_charged) r.(pr_corrupt), true)
      else
        let low := Z.max walked (seq - 1024) in
        let top := Z.max low (seq - p.(gap_horizon)) in
        Some (MkProbeRef r.(pr_context) r.(pr_confirmed) r.(pr_start) (Some (seq, top)) (seq :: r.(pr_heard)) r.(pr_credited)
                (r.(pr_charged) ++ lost_slots r (seq :: r.(pr_heard)) low top) r.(pr_corrupt), true)
    else if seq <=? walked then None
    else Some (MkProbeRef r.(pr_context) r.(pr_confirmed) r.(pr_start) r.(pr_span) (seq :: r.(pr_heard)) r.(pr_credited)
                 r.(pr_charged) r.(pr_corrupt), negb (bool_decide (seq ∈ r.(pr_heard))))
  end.

Definition ref_score (r : ProbeRef) (seq rx_mcs : Z) (fresh : bool) : ProbeRef :=
  if slot seq then
    if fresh && bool_decide (ref_candidate r = Some rx_mcs)
    then MkProbeRef r.(pr_context) r.(pr_confirmed) r.(pr_start) r.(pr_span) r.(pr_heard) (seq :: r.(pr_credited)) r.(pr_charged) r.(pr_corrupt)
    else r
  else
    let confirmed := match r.(pr_context) with
      | Some (_, mcs, _) => if rx_mcs =? mcs then true else if rx_mcs =? kUplinkRxMcsUnknown then r.(pr_confirmed) else false
      | None => r.(pr_confirmed) end in
    MkProbeRef r.(pr_context) confirmed r.(pr_start) r.(pr_span) r.(pr_heard) r.(pr_credited) r.(pr_charged) r.(pr_corrupt).

Definition ref_data (r : ProbeRef) (seq active tver rx_mcs now : Z) : ProbeRef :=
  if table.(probe_period) =? 0 then r else
  if match tv with Some v => negb (tver =? v) | None => false end then r else
  let r := match r.(pr_context) with
    | Some (prof, _, _) => if active =? prof then r else ref_context r active now
    | None => ref_context r active now end in
  match r.(pr_context) with
  | None => r
  | Some _ =>
    let r := ref_refresh r now in
    match ref_arrive r seq with
    | None => r
    | Some (r, fresh) => ref_score r seq rx_mcs fresh
    end
  end.

Definition ref_crc (r : ProbeRef) (rx_mcs count now : Z) : ProbeRef :=
  match ref_candidate r with
  | Some c =>
    if (table.(probe_period) =? 0) || negb r.(pr_confirmed) || (count =? 0) then r else
    let r := ref_refresh r now in
    if rx_mcs =? c
    then MkProbeRef r.(pr_context) r.(pr_confirmed) r.(pr_start) r.(pr_span) r.(pr_heard) r.(pr_credited) r.(pr_charged) (r.(pr_corrupt) + count)
    else r
  | None => r
  end.

Definition ref_reset (r : ProbeRef) : ProbeRef := MkProbeRef None false r.(pr_start) None [] [] [] 0.

(** The failure rate of the evidence. *)
Definition ref_per (r : ProbeRef) (now : Z) : option (option Z) :=
  if bool_decide (ref_candidate r = None) then Some None else
  if to_u64 (now - r.(pr_start)) >? p.(max_age_ms) then Some None else
  let bad := to_u32 (len r.(pr_charged) + r.(pr_corrupt)) in
  let total := to_u32 (len r.(pr_credited) + len r.(pr_charged) + r.(pr_corrupt)) in
  if (total <? p.(min_samples)) || (to_u32 (len r.(pr_credited) + r.(pr_corrupt)) =? 0) then Some None else
  if total =? 0 then None else Some (Some (Z.min 1000 (to_u32 (bad * 1000 / total)))).

(** ** Events *)
Inductive ProbeEvent : Type :=
| PData (seq active tver rx_mcs now : Z)
| PCrc (rx_mcs count now : Z)
| PReset.
Definition probe_step (w : McsProbeWindow) (e : ProbeEvent) : McsProbeWindow :=
  match e with
  | PData seq active tver rx_mcs now => on_data w seq active tver rx_mcs now
  | PCrc rx_mcs count now => on_crc_frames w rx_mcs count now
  | PReset => reset w
  end.
Definition ref_step (r : ProbeRef) (e : ProbeEvent) : ProbeRef :=
  match e with
  | PData seq active tver rx_mcs now => ref_data r seq active tver rx_mcs now
  | PCrc rx_mcs count now => ref_crc r rx_mcs count now
  | PReset => ref_reset r
  end.
Definition event_u32 (e : ProbeEvent) : Prop := match e with PData seq _ _ _ _ => u32 seq | _ => True end.

(** ** The simulation *)
Definition span_sim (w : McsProbeWindow) (span : option (Z * Z)) (heard : list Z) : Prop :=
  match span with
  | None => w.(have_head_) = false
  | Some (head, walked) =>
    w.(have_head_) = true /\ w.(head_seq_) = head /\ w.(walked_seq_) = walked /\ 0 <= walked <= head /\ u32 head /\
    head - walked <= 1024 /\ (forall s, s ∈ heard -> s <= head) /\
    (forall s, walked < s <= head -> head - 1024 < s -> seen_at w.(seen_) s = bool_decide (s ∈ heard))
  end.
Definition context_sim (w : McsProbeWindow) (c : option (Z * Z * option Z)) : Prop :=
  match c with
  | None => w.(have_context_) = false /\ w.(candidate_) = None
  | Some (prof, mcs, cand) =>
    w.(have_context_) = true /\ w.(profile_) = prof /\ w.(selected_mcs_) = mcs /\ w.(candidate_) = cand
  end.
Record sim (w : McsProbeWindow) (r : ProbeRef) : Prop := MkSim {
  si_table : w.(pw_table) = Some table;
  si_tv : w.(pw_tv) = tv;
  si_p : w.(pw_p) = p;
  si_len : length w.(seen_) = 16%nat;
  si_context : context_sim w r.(pr_context);
  si_confirmed : w.(confirmed_) = r.(pr_confirmed);
  si_start : w.(window_start_ms_) = r.(pr_start);
  si_successes : w.(successes_) = to_u32 (len r.(pr_credited));
  si_failures : w.(failures_) = to_u32 (len r.(pr_charged) + r.(pr_corrupt));
  si_observed : w.(candidate_observed_) = to_u32 (len r.(pr_credited) + r.(pr_corrupt));
  si_span : span_sim w r.(pr_span) r.(pr_heard)
}.
Hypothesis Hgap : 0 <= p.(gap_horizon).

Lemma sim_candidate w r : sim w r -> w.(candidate_) = ref_candidate r.
Proof.
  intros H. pose proof (si_context _ _ H) as Hc. unfold ref_candidate, context_sim in *.
  destruct (pr_context r) as [[[pf m] c]|]; simpl; tauto.
Qed.

Lemma sim_init : sim (McsProbeWindow_init (Some table) tv p) ProbeRef_init.
Proof. constructor; try reflexivity. by split. Qed.

Lemma sim_reset w r : sim w r -> sim (reset w) (ref_reset r).
Proof. intros []. constructor; try done. all: by split. Qed.

Lemma sim_reset_context w r active now : sim w r -> sim (reset_context w table active now) (ref_context r active now).
Proof.
  intros []. unfold reset_context, ref_context. destruct (last_profile table active) as [cur|]; constructor; try done.
  all: by split.
Qed.

Lemma sim_refresh w r now : sim w r -> sim (refresh w now) (ref_refresh r now).
Proof.
  intros H. pose proof H as []. unfold refresh, ref_refresh. rewrite si_p0, si_start0.
  destruct (_ >? _); [|done]. by constructor.
Qed.

(** The charge of the code on the numbers the bits still know. *)
Lemma lost_slots_charges w r heard low top :
  w.(candidate_) = ref_candidate r -> w.(confirmed_) = r.(pr_confirmed) ->
  (forall s, low < s <= top -> seen_at w.(seen_) s = bool_decide (s ∈ heard)) ->
  List.filter (charges w table) (seqZ (low + 1) (top - low)) = lost_slots r heard low top.
Proof.
  intros Hc Hk Hs. unfold lost_slots. apply List.filter_ext_in. intros s Hin.
  apply list_elem_of_In, elem_of_seqZ in Hin. unfold charges. rewrite Hc, Hk, Hs by lia. done.
Qed.

(** Where the gap walk starts. *)
Lemma advance_gap_walk_spec w : walkable w -> w.(head_seq_) - w.(walked_seq_) < 2 ^ 32 ->
  let low := Z.max w.(walked_seq_) (w.(head_seq_) - 1024) in
  let w' := with_window w w.(head_seq_) low w.(seen_) in
  advance_gap_walk w table = walked_to w' table (Z.max low (w.(head_seq_) - w.(pw_p).(gap_horizon))).
Proof.
  intros Hw Hd low w'. pose proof Hw as [Hh Hs Hf Hg]. unfold advance_gap_walk.
  rewrite (to_u32_small (head_seq_ w - walked_seq_ w)) by lia.
  assert (E : (if head_seq_ w - walked_seq_ w >? kSeenBits
               then with_window w (head_seq_ w) (to_u32 (head_seq_ w - kSeenBits)) (seen_ w) else w) = w').
  { unfold w', low. rewrite Z.gtb_ltb. unfold kSeenBits. destruct (Z.ltb_spec 1024 (head_seq_ w - walked_seq_ w)).
    - rewrite to_u32_small by lia. by rewrite Z.max_r by lia.
    - rewrite Z.max_l by lia. unfold with_window. destruct w; simpl in *; by subst. }
  rewrite E. rewrite gap_walk_spec; [done| |].
  - constructor; unfold w'; simpl; unfold low in *; try done; lia.
  - unfold w'; simpl. rewrite to_u32_small by (unfold low; lia). lia.
Qed.

(** The window started at [seq]. *)
Lemma sim_restart w r seq : u32 seq -> sim w r ->
  sim (with_window w seq seq (mark_at (replicate 16 0) seq))
    (MkProbeRef r.(pr_context) r.(pr_confirmed) r.(pr_start) (Some (seq, seq)) [seq] r.(pr_credited) r.(pr_charged) r.(pr_corrupt)).
Proof.
  intros Hu []. constructor; try done; [cbn -[mark_at replicate]; by rewrite mark_at_length|].
  cbn -[mark_at replicate]. unfold u32 in *. do 6 (split; [done || lia|]). split.
  - intros s ->%list_elem_of_singleton. lia.
  - intros s Hs. lia.
Qed.

Lemma sim_arrive w r seq : u32 seq -> sim w r ->
  match arrive w table seq, ref_arrive r seq with
  | None, None => True
  | Some (w', f), Some (r', f') => f = f' /\ sim w' r'
  | _, _ => False
  end.
Proof.
  intros Hu H. pose proof H as []. unfold arrive, ref_arrive, span_sim in *. unfold u32 in *.
  assert (Hz : length (replicate 16 0) = 16%nat) by done.
  destruct (pr_span r) as [[head walked]|]; [|rewrite si_span0; split; [done | by apply sim_restart]].
  destruct si_span0 as (Hh & Hhd & Hwk & Hle & Hhu & Hd & Hheard & Hbits). rewrite Hh, Hhd; simpl.
  rewrite !Z.gtb_ltb. destruct (Z.ltb_spec head seq) as [Hlt|Hge].
  - rewrite !Z.geb_leb. unfold kSeenBits at 1. destruct (Z.leb_spec 1024 (seq - head)) as [Hfar|Hnear]; simpl.
    + split; [done|]. set (w' := with_window w seq seq _).
      assert (Hw : walkable w').
      { constructor; unfold w'; cbn -[to_u32]; [done|lia| |by rewrite si_p0]. rewrite si_failures0. apply to_u32_id, to_u32_u32. }
      rewrite advance_gap_walk_spec by (done || (unfold w'; simpl; lia)).
      unfold w' at 2 3 4. cbn -[to_u32 mark_at replicate walked_to]. rewrite si_p0.
      rewrite (Z.max_l seq (seq - 1024)), Z.max_l by lia.
      change (with_window w' seq seq _) with w'. change (walked_to w' table seq) with (walked_to w' table (walked_seq_ w')).
      rewrite walked_to_same by done. by apply sim_restart.
    + split; [done|]. set (seen' := mark_at (recycle (seen_ w) head seq) seq).
      assert (Hlr : length (recycle (seen_ w) head seq) = 16%nat) by (unfold recycle; by rewrite recycle_length).
      assert (Hseen : forall s, walked < s <= seq -> seq - 1024 < s -> seen_at seen' s = bool_decide (s ∈ seq :: pr_heard r)).
      { intros s Hs1 Hs2. unfold seen'. rewrite seen_at_mark by (done || lia).
        rewrite seen_at_recycle by (done || lia).
        destruct (Z.eqb_spec seq s) as [->|Hne]; [symmetry; apply bool_decide_eq_true_2; by left|]. simpl.
        destruct (Z.leb_spec s head); simpl.
        - rewrite Hbits by lia. apply bool_decide_ext. rewrite elem_of_cons. split; [tauto|]. intros [->|]; [lia|done].
        - symmetry. apply bool_decide_eq_false_2. rewrite elem_of_cons. intros [->|Hin]; [lia|]. apply Hheard in Hin. lia. }
      rewrite advance_gap_walk_spec; simpl; [|constructor; simpl; try done; [lia| |by rewrite si_p0]|lia].
      2:{ rewrite si_failures0. apply to_u32_id, to_u32_u32. }
      rewrite Hwk, si_p0. set (low := Z.max walked (seq - 1024)). set (top := Z.max low (seq - gap_horizon p)).
      unfold walked_to; simpl. fold seen'.
      rewrite (lost_slots_charges _ r (seq :: pr_heard r)); simpl; [|by apply sim_candidate|done|].
      2:{ intros s Hs. apply Hseen; unfold low, top in *; lia. }
      constructor; simpl; try done.
      * unfold seen'. rewrite mark_at_length. done.
      * rewrite si_failures0, to_u32_add_l, length_app. f_equal. lia.
      * repeat split; unfold u32 in *; try (unfold low, top in *; lia).
        -- intros s. rewrite elem_of_cons. intros [->|Hin]; [lia|]. apply Hheard in Hin. lia.
        -- intros s Hs1 Hs2. apply Hseen; unfold low, top in *; lia.
  - rewrite Z.geb_leb, Hwk. unfold kSeenBits at 1.
    destruct (Z.leb_spec seq walked) as [Ho|Hn]; [by rewrite orb_true_r|]. rewrite orb_false_r.
    destruct (Z.leb_spec 1024 (head - seq)); [lia|].
    split; [f_equal; apply Hbits; lia|]. constructor; try done; simpl.
    + by rewrite mark_at_length.
    + repeat split; unfold u32 in *; try lia.
      * intros s. rewrite elem_of_cons. intros [->|Hin]; [lia|]. by apply Hheard.
      * intros s Hs1 Hs2. rewrite seen_at_mark by (done || lia).
        destruct (Z.eqb_spec seq s) as [->|Hne]; [symmetry; apply bool_decide_eq_true_2; by left|]. simpl.
        rewrite Hbits by lia. apply bool_decide_ext. rewrite elem_of_cons. split; [tauto|]. intros [->|]; [lia|done].
Qed.

Lemma sim_score w r seq rx_mcs fresh : sim w r -> is_Some r.(pr_context) ->
  sim (score w table seq rx_mcs fresh) (ref_score r seq rx_mcs fresh).
Proof.
  intros H Hctx. pose proof (sim_candidate _ _ H) as Hc. pose proof H as []. unfold score, ref_score. rewrite Hc.
  destruct (probe_slot_hit _ _ _).
  - destruct (fresh && bool_decide (ref_candidate r = Some rx_mcs)); [|done]. constructor; try done; simpl.
    + rewrite si_successes0, to_u32_succ. f_equal. lia.
    + rewrite si_observed0, to_u32_succ. f_equal. lia.
  - destruct Hctx as [[[pf m] c] E]. rewrite E in *. destruct si_context0 as (? & ? & Hs & ?). rewrite Hs.
    destruct (rx_mcs =? m); [by constructor; simpl; rewrite ?E|].
    destruct (rx_mcs =? kUplinkRxMcsUnknown); by constructor; simpl; rewrite ?E.
Qed.

Lemma ref_arrive_context r seq r' f : ref_arrive r seq = Some (r', f) -> r'.(pr_context) = r.(pr_context).
Proof. unfold ref_arrive. intros. repeat case_match; by simplify_eq. Qed.
Lemma ref_refresh_context r now : (ref_refresh r now).(pr_context) = r.(pr_context).
Proof. unfold ref_refresh. by case_match. Qed.

Lemma sim_data w r seq active tver rx_mcs now : u32 seq -> sim w r ->
  sim (on_data w seq active tver rx_mcs now) (ref_data r seq active tver rx_mcs now).
Proof.
  intros Hu H. pose proof (si_context _ _ H) as Hc. unfold on_data, ref_data.
  rewrite (si_table _ _ H), (si_tv _ _ H). destruct (probe_period table =? 0); [done|].
  destruct (match tv with Some _ => _ | None => _ end); [done|].
  assert (Hs : sim (if negb (have_context_ w) || negb (active =? profile_ w) then reset_context w table active now else w)
    (match pr_context r with Some (prof, _, _) => if active =? prof then r else ref_context r active now
     | None => ref_context r active now end)).
  { destruct (pr_context r) as [[[pf m] c]|]; simpl in Hc; [destruct Hc as (-> & -> & _) | destruct Hc as (-> & _)]; simpl.
    - destruct (active =? pf); simpl; [done | by apply sim_reset_context].
    - by apply sim_reset_context. }
  revert Hs. generalize (if negb (have_context_ w) || negb (active =? profile_ w) then reset_context w table active now else w) as w1.
  generalize (match pr_context r with Some (prof, _, _) => if active =? prof then r else ref_context r active now
     | None => ref_context r active now end) as r1. clear -Hgap Hu.
  intros r1 w1 H. pose proof (si_context _ _ H) as Hc.
  destruct (pr_context r1) as [c1|] eqn:E; simpl in Hc.
  2:{ destruct Hc as [-> _]. done. }
  assert (Hh : have_context_ w1 = true) by (destruct c1 as [[??]?]; tauto). rewrite Hh; simpl.
  pose proof (sim_refresh _ _ now H) as Hr. pose proof (sim_arrive _ _ seq Hu Hr) as Ha.
  destruct (arrive (refresh w1 now) table seq) as [[w2 f]|], (ref_arrive (ref_refresh r1 now) seq) as [[r2 f']|] eqn:Er; try done.
  destruct Ha as [<- Ha]. apply sim_score; [done|].
  rewrite (ref_arrive_context _ _ _ _ Er), ref_refresh_context, E. done.
Qed.

Lemma sim_crc w r rx_mcs count now : sim w r -> sim (on_crc_frames w rx_mcs count now) (ref_crc r rx_mcs count now).
Proof.
  intros H. pose proof (sim_candidate _ _ H) as Hc. pose proof (si_context _ _ H) as Hx. unfold on_crc_frames, ref_crc.
  rewrite (si_table _ _ H), Hc. destruct (ref_candidate r) as [c|] eqn:E; [|done].
  assert (Hh : have_context_ w = true).
  { unfold ref_candidate in E. destruct (pr_context r) as [[[??]?]|]; [simpl in Hx; tauto | done]. }
  rewrite Hh, (si_confirmed _ _ H), orb_false_r. destruct (_ || _ || _); [done|].
  pose proof (sim_refresh _ _ now H) as Hr. destruct (rx_mcs =? c); [|done]. pose proof Hr as [].
  constructor; try done; simpl.
  - rewrite si_failures0, to_u32_add_l. f_equal. lia.
  - rewrite si_observed0, to_u32_add_l. f_equal. lia.
Qed.

Lemma sim_run l w r : Forall event_u32 l -> sim w r -> sim (fold_left probe_step l w) (fold_left ref_step l r).
Proof.
  intros Hl. revert w r. induction Hl as [|e l He Hl IH]; intros w r H; simpl; [done|]. apply IH. destruct e; simpl in *.
  - by apply sim_data.
  - by apply sim_crc.
  - by apply sim_reset.
Qed.

Lemma sim_per w r now : sim w r -> probe_per w now = ref_per r now.
Proof.
  intros H. pose proof (sim_candidate _ _ H) as Hc. pose proof (si_context _ _ H) as Hx. pose proof H as [].
  unfold probe_per, ref_per. rewrite Hc, si_p0, si_start0, si_successes0, si_failures0, si_observed0.
  destruct (ref_candidate r) as [c|] eqn:E.
  2:{ rewrite !bool_decide_false by (done || by intros [? ?]). by rewrite orb_true_r. }
  assert (Hh : have_context_ w = true).
  { unfold ref_candidate in E. destruct (pr_context r) as [[[??]?]|]; [simpl in Hx; tauto | done]. }
  rewrite Hh, (bool_decide_true (is_Some _)), (bool_decide_false (Some c = None)) by done. simpl.
  destruct (_ >? max_age_ms p); [done|].
  assert (Et : to_u32 (to_u32 (len (pr_credited r)) + to_u32 (len (pr_charged r) + pr_corrupt r)) =
    to_u32 (len (pr_credited r) + len (pr_charged r) + pr_corrupt r)).
  { rewrite to_u32_add_l, Z.add_comm, to_u32_add_l. f_equal. lia. }
  rewrite Et. set (total := to_u32 (len (pr_credited r) + len (pr_charged r) + pr_corrupt r)). destruct (_ || _); [done|].
  destruct (total =? 0) eqn:Ez; [done|]. do 2 f_equal.
  pose proof (to_u32_u32 (to_u32 (len (pr_charged r) + pr_corrupt r) * 1000 / total)) as Hu. unfold u32 in Hu.
  rewrite Z.gtb_ltb. destruct (Z.ltb_spec 1000 (to_u32 (to_u32 (len (pr_charged r) + pr_corrupt r) * 1000 / total))).
  - rewrite Z.min_l by lia. done.
  - rewrite Z.min_r by lia. apply to_u16_id. unfold u16. lia.
Qed.

(** ** The accounts of the reference *)
Definition accounts (r : ProbeRef) (head walked : Z) : Prop :=
  walked <= head /\ (forall s, s ∈ r.(pr_heard) -> s <= head) /\
  NoDup r.(pr_credited) /\ NoDup r.(pr_charged) /\
  (forall s, s ∈ r.(pr_credited) -> (slot s = true) /\ s <= head /\ (s ∈ r.(pr_heard) \/ s <= walked) /\ s ∉ r.(pr_charged)) /\
  (forall s, s ∈ r.(pr_charged) -> (slot s = true) /\ s <= walked /\ s ∉ r.(pr_heard)).
Definition accounted (r : ProbeRef) : Prop :=
  match r.(pr_span) with
  | None => r.(pr_credited) = [] /\ r.(pr_charged) = []
  | Some (head, walked) => accounts r head walked
  end.

Lemma elem_of_lost_slots r heard low top s : s ∈ lost_slots r heard low top -> low < s <= top /\ (s ∉ heard) /\ (slot s = true).
Proof.
  unfold lost_slots. rewrite list_elem_of_In, filter_In, <- list_elem_of_In, elem_of_seqZ. intros [Hs Hp].
  repeat (apply andb_true_iff in Hp as [Hp ?]). split; [lia|]. split; [|done].
  apply (bool_decide_eq_false (s ∈ heard)), negb_true_iff. done.
Qed.
Lemma lost_slots_NoDup r heard low top : NoDup (lost_slots r heard low top).
Proof. unfold lost_slots. apply NoDup_ListNoDup, List.NoDup_filter, NoDup_ListNoDup, NoDup_seqZ. Qed.

Lemma accounted_arrive r seq r' f : accounted r -> ref_arrive r seq = Some (r', f) ->
  accounted r' /\ (f = true -> (seq ∉ r'.(pr_credited)) /\ (seq ∉ r'.(pr_charged))) /\
  exists head walked, r'.(pr_span) = Some (head, walked) /\ seq <= head /\ seq ∈ r'.(pr_heard).
Proof.
  unfold accounted, accounts, ref_arrive. destruct (pr_span r) as [[head walked]|].
  2:{ intros [Hc Hk] E. simplify_eq; simpl. rewrite Hc, Hk. split_and!; [lia | | | | | | |].
      - intros s ->%list_elem_of_singleton. lia.
      - constructor.
      - constructor.
      - intros s []%not_elem_of_nil.
      - intros s []%not_elem_of_nil.
      - intros _. split; apply not_elem_of_nil.
      - exists seq, seq. split_and!; [done|lia|]. by left. }
  intros (Hw & Hh & Hnc & Hnk & Hc & Hk) E. rewrite Z.gtb_ltb, Z.geb_leb in E.
  destruct (Z.ltb_spec head seq) as [Hlt|Hge].
  - destruct (Z.leb_spec 1024 (seq - head)); simplify_eq; simpl.
    + split; [|split; [intros _; split|]].
      * split_and!; [lia| |done|done| |].
        -- intros s ->%list_elem_of_singleton. lia.
        -- intros s Hs. destruct (Hc s Hs) as (? & ? & ? & ?). split_and!; [done|lia|right; lia|done].
        -- intros s Hs. destruct (Hk s Hs) as (? & ? & ?). split_and!; [done|lia|]. intros E%list_elem_of_singleton. lia.
      * intros Hs. apply Hc in Hs. lia.
      * intros Hs. apply Hk in Hs. lia.
      * exists seq, seq. split_and!; [done|lia|]. by left.
    + set (low := Z.max walked (seq - 1024)). set (top := Z.max low (seq - gap_horizon p)).
      assert (Hnew : forall s, s ∈ pr_charged r ++ lost_slots r (seq :: pr_heard r) low top ->
        (slot s = true) /\ s <= top /\ s ∉ seq :: pr_heard r).
      { intros s [Hs|Hs]%elem_of_app.
        - destruct (Hk s Hs) as (? & ? & ?). split_and!; [done|unfold low, top in *; lia|]. rewrite elem_of_cons. intros [E|]; [lia|done].
        - apply elem_of_lost_slots in Hs as (? & ? & ?). split_and!; [done|lia|done]. }
      assert (Hold : forall s, s ∈ pr_credited r -> s ∉ pr_charged r ++ lost_slots r (seq :: pr_heard r) low top).
      { intros s Hs. destruct (Hc s Hs) as (? & ? & Hd & ?). intros [|Hl]%elem_of_app; [done|].
        apply elem_of_lost_slots in Hl as (? & Hn & _). destruct Hd; [apply Hn; by right|]. unfold low in *; lia. }
      split; [|split; [intros _; split|]].
      * split_and!; [unfold low, top in *; lia| |done| | |done].
        -- intros s [->|Hs]%elem_of_cons; [lia|]. apply Hh in Hs. lia.
        -- apply NoDup_app. split_and!; [done| |apply lost_slots_NoDup].
           intros s Hs Hl. apply elem_of_lost_slots in Hl as (? & _ & _). apply Hk in Hs. unfold low in *; lia.
        -- intros s Hs. destruct (Hc s Hs) as (? & ? & Hd & ?). split_and!; [done|lia| |by apply Hold].
           destruct Hd; [left; by right | right; unfold low, top in *; lia].
      * intros Hs. apply Hc in Hs. lia.
      * intros Hs. apply Hnew in Hs as (_ & _ & []). by left.
      * exists seq, top. split_and!; [done|lia|]. by left.
  - destruct (Z.leb_spec seq walked); simplify_eq; simpl. split; [|split].
    + split_and!; [lia| |done|done| |].
      * intros s [->|Hs]%elem_of_cons; [lia|]. by apply Hh.
      * intros s Hs. destruct (Hc s Hs) as (? & ? & Hd & ?). split_and!; [done|lia| |done]. destruct Hd; [left; by right|by right].
      * intros s Hs. destruct (Hk s Hs) as (? & ? & ?). split_and!; [done|lia|]. rewrite elem_of_cons. intros [E|]; [lia|done].
    + intros Hf%negb_true_iff%bool_decide_eq_false. split.
      * intros Hs. destruct (Hc _ Hs) as (_ & _ & [?|?] & _); [done|lia].
      * intros Hs. apply Hk in Hs. lia.
    + exists head, walked. split_and!; [done|lia|]. by left.
Qed.

Lemma accounted_context r active now : accounted (ref_context r active now).
Proof. unfold ref_context. by destruct (last_profile table active). Qed.
Lemma accounted_refresh r now : accounted r -> accounted (ref_refresh r now).
Proof.
  unfold ref_refresh. destruct (_ >? _); [|done]. unfold accounted, accounts; simpl.
  destruct (pr_span r) as [[head walked]|]; [|done]. intros (? & ? & _).
  split_and!; [done|done|apply NoDup_nil_2|apply NoDup_nil_2| |]; by intros s []%not_elem_of_nil.
Qed.
Lemma accounted_score r seq rx_mcs fresh head walked :
  accounted r -> (fresh = true -> (seq ∉ r.(pr_credited)) /\ (seq ∉ r.(pr_charged))) ->
  r.(pr_span) = Some (head, walked) -> seq <= head -> seq ∈ r.(pr_heard) -> accounted (ref_score r seq rx_mcs fresh).
Proof.
  intros H Hf Hs Hh Hin. unfold ref_score. destruct (probe_slot_hit seq (probe_period table) (probe_slot table)) eqn:Es; [|done].
  destruct (fresh && bool_decide _) eqn:E; [|done]. apply andb_true_iff in E as [-> _].
  destruct (Hf eq_refl) as [H1 H2]. unfold accounted, accounts in *; simpl. rewrite Hs in *.
  destruct H as (? & ? & ? & ? & Hc & ?). split_and!; try done; [by constructor|].
  intros s [->|Hsc]%elem_of_cons; [|by apply Hc]. split_and!; [done|done|by left|done].
Qed.
Lemma accounted_step r e : accounted r -> accounted (ref_step r e).
Proof.
  intros H. destruct e as [seq active tver rx_mcs now|rx_mcs count now|]; simpl; [| |done].
  - unfold ref_data. destruct (_ =? 0); [done|]. destruct (match tv with Some _ => _ | None => _ end); [done|].
    assert (H1 : accounted (match pr_context r with Some (prof, _, _) => if active =? prof then r else ref_context r active now
      | None => ref_context r active now end)).
    { destruct (pr_context r) as [[[pf ?] ?]|]; [destruct (active =? pf); [done|]|]; apply accounted_context. }
    revert H1. generalize (match pr_context r with Some (prof, _, _) => if active =? prof then r else ref_context r active now
      | None => ref_context r active now end) as r1. intros r1 H1. destruct (pr_context r1); [|done].
    apply (accounted_refresh _ now) in H1. destruct (ref_arrive (ref_refresh r1 now) seq) as [[r2 f]|] eqn:E; [|done].
    destruct (accounted_arrive _ _ _ _ H1 E) as (H2 & Hf & head & walked & Hs & Hle & Hin). by eapply accounted_score.
  - unfold ref_crc. destruct (ref_candidate r); [|done]. destruct (_ || _ || _); [done|].
    apply (accounted_refresh _ now) in H. by destruct (rx_mcs =? z).
Qed.
Lemma accounted_run l r : accounted r -> accounted (fold_left ref_step l r).
Proof. revert r. induction l as [|e l IH]; intros r H; simpl; [done|]. by apply IH, accounted_step. Qed.

Lemma accounted_sound r : accounted r ->
  NoDup (r.(pr_credited) ++ r.(pr_charged)) /\ (forall s, s ∈ r.(pr_charged) -> s ∉ r.(pr_heard)) /\
  forall s, s ∈ r.(pr_credited) ++ r.(pr_charged) -> slot s = true.
Proof.
  unfold accounted. destruct (pr_span r) as [[head walked]|].
  - intros (_ & _ & Hc & Hk & Hcs & Hks). split_and!.
    + apply NoDup_app. split_and!; [done| |done]. intros s Hs. by apply Hcs.
    + intros s Hs. by apply Hks.
    + intros s [Hs|Hs]%elem_of_app; [by apply Hcs | by apply Hks].
  - intros [-> ->]. split_and!; [constructor|by intros s []%not_elem_of_nil|by intros s []%not_elem_of_nil].
Qed.

(** C35. After any sequence of received frames, corrupt frames and resets, the
    window of the code reports exactly the rate of the reference, whose lists
    hold every probe slot at most once: a slot is not credited twice, not
    charged twice, not both, and no charged slot was heard since the window
    (re)started. *)
Theorem probe_window_exact (l : list ProbeEvent) (now : Z) : Forall event_u32 l ->
  let w := fold_left probe_step l (McsProbeWindow_init (Some table) tv p) in
  let r := fold_left ref_step l ProbeRef_init in
  probe_per w now = ref_per r now /\
  NoDup (r.(pr_credited) ++ r.(pr_charged)) /\
  (forall s, s ∈ r.(pr_charged) -> s ∉ r.(pr_heard)) /\
  (forall s, s ∈ r.(pr_credited) ++ r.(pr_charged) -> probe_slot_hit s table.(probe_period) table.(probe_slot) = true).
Proof.
  intros Hl w r. split.
  - apply sim_per, sim_run; [done|]. apply sim_init.
  - apply accounted_sound, accounted_run. by split.
Qed.
End Ref.

(** Two rungs, a probe in every fourth frame; the craft flies rate 1 and probes
    rate 3.  Slot 105 is lost; slot 109 arrives, and one corrupt frame is seen
    at the candidate rate. *)
Definition demo_probe_table : ProfileTable :=
  MkProfileTable [MkProfile 0 1 kShort 4 700 1424 kRlc256 100 30 20 1000 1000 2000;
                  MkProfile 1 3 kLong 4 800 1424 kNone 0 30 20 2000 1000 2000] 0 4 1.
Definition demo_probe_params : ProbeParams := MkProbeParams 3 8000 2.
Definition demo_probe_events : list ProbeEvent :=
  [PData 100 0 7 1 1000; PData 101 0 7 3 1001; PData 102 0 7 1 1002; PData 104 0 7 1 1003; PData 103 0 7 1 1004;
   PData 108 0 7 1 1005; PData 105 0 7 3 1006; PData 109 0 7 3 1007; PData 109 0 7 3 1008; PCrc 3 1 1009;
   PData 1400 0 7 1 1010; PData 1401 0 7 3 1011].

Lemma probe_window_exact_witness :
  probe_per (fold_left probe_step demo_probe_events (McsProbeWindow_init (Some demo_probe_table) (Some 7) demo_probe_params)) 1012 =
  Some (Some 400).
Proof.
  destruct (probe_window_exact demo_probe_table (Some 7) demo_probe_params ltac:(simpl; lia) demo_probe_events 1012) as [H _].
  - repeat constructor; simpl; unfold u32; lia.
  - exact (eq_trans H ltac:(vm_compute; reflexivity)).
Defined.

(** A frame heard again behind the walk, or a rate that was never observed,
    reports nothing. *)
Example demo_probe_silent :
  probe_per (fold_left probe_step (map (fun i => PData (100 + 8 * i) 0 7 1 1000) (seqZ 0 40))
    (McsProbeWindow_init (Some demo_probe_table) (Some 7) demo_probe_params)) 1001 = Some None.
Proof. vm_compute. reflexivity. Qed.
