(* ===== verification/Double.v ===== *)
(** * The [double] of the program

    IEEE-754 binary64 with round to nearest even, as the standard specification
    of floating-point arithmetic gives it ([SpecFloat]).  The model takes every
    operation on its own (no contraction into a fused multiply-add). *)
From Stdlib Require Import SpecFloat.
From S2P Require Import Prelude.

Definition double : Type := spec_float.

Definition double_of (z : Z) : double := binary_normalize 53 1024 z 0 false.
Definition dadd (a b : double) : double := SFadd 53 1024 a b.
Definition dsub (a b : double) : double := SFsub 53 1024 a b.
Definition dmul (a b : double) : double := SFmul 53 1024 a b.
Definition ddiv (a b : double) : double := SFdiv 53 1024 a b.
Definition dopp (a : double) : double := SFopp a.
Definition dle (a b : double) : bool := SFleb a b.
Definition dlt (a b : double) : bool := SFltb a b.
Definition dge (a b : double) : bool := SFleb b a.
(** [std::clamp(v, lo, hi)]. *)
Definition dclamp (v lo hi : double) : double := if dlt v lo then lo else if dlt hi v then hi else v.

(** Conversion to an integer truncates; [None] outside the finite values. *)
Definition double_trunc (a : double) : option Z :=
  match a with
  | S754_zero _ => Some 0
  | S754_finite s m e =>
    let q := if 0 <=? e then Z.pos m * 2 ^ e else Z.pos m / 2 ^ (- e) in Some (if s then - q else q)
  | _ => None
  end.
(** [None] is a conversion the language leaves undefined. *)
Definition double_to_u16 (a : double) : option Z :=
  z ← double_trunc a; if (0 <=? z) && (z <=? 65535) then Some z else None.

(** Decimal literals, rounded. *)
Definition dlit (num den : Z) : double := ddiv (double_of num) (double_of den).
