(* ===== verification/Selector.v ===== *)
(** * The adaptive selector ([core/include/wblink/selector.h], [core/src/selector.cpp])

    The craft's ladder of profiles: the decision cascade on receiver reports, the
    sequencing of bitrate and rate, lockouts, flap layers, and the fail-safe.
    The class is one record of groups; a method takes and returns it.  [None] is
    an access outside the table or a per-rung array. *)
From Stdlib Require Import String.
From S2P Require Import Prelude Types Wire Table McsProbe Double.
Open Scope Z_scope.

Record SelectorPolicy : Type := MkSelectorPolicy {
  demote_milli : Z;
  emergency_loss_milli : Z;
  loss_min_uniq : Z;
  loss_persist_score : Z;
  rung_lockout_ms : Z;
  rung_lockout_latch_count : Z;
  rssi_floor_dbm : Z;
  rssi_fade_db_per_s : double;
  rssi_fade_arm_dbm : Z;
  fade_ticks : Z;
  down_cooldown_ms : Z;
  ewma_alpha : double;
  slope_alpha : double;
  rung_rssi_floor_dbm : list Z;      (** [std::array<int8_t, 8>] *)
  promote_rssi_hyst_db : double;
  promote_dwell_ms : Z;
  verdict_ttl_ms : Z;
  probe_veto_permille : Z;
  probe_veto_ttl_ms : Z;
  bitrate_lead_ms : Z;
  mcs_up_grace_ms : Z;
  mcs_settle_ms : Z;
  reentry_backoff_ms : Z;
  reentry_dwell_ms : Z;
  flap_freeze_count : Z;
  flap_freeze_window_ms : Z;
  flap_freeze_ms : Z;
  min_profile : Z;
  max_profile : Z;
  max_bitrate_kbps : Z;
  report_timeout_ms : Z;
  failsafe_hold_ms : Z;
  failsafe_step_ms : Z;
  pressure_escape_ms : Z
}.
Definition SelectorPolicy_init : SelectorPolicy :=
  MkSelectorPolicy 45 200 32 5 30000 4 (-85) (double_of 10) (-65) 3 200 (dlit 3 10) (dlit 1 2)
    [-88; -85; -83; -80; -77; -73; -71; -70] (double_of 6) 500 3000 50 3000 500 250 5000 5000 2000 3 10000 10000
    0 255 0 500 1000 1000 2000.

Inductive SelectorReason : Type :=
| kNone | kBoot | kLossEmergency | kLossPersistent | kReportTimeout | kRssiFloor | kRssiFade | kBackpressure
| kPromote | kRepin | kEnvironmentReset.
#[export] Instance SelectorReason_eq_dec : EqDecision SelectorReason.
Proof. solve_decision. Defined.
Definition selector_reason_name (r : SelectorReason) : string :=
  match r with
  | kNone => "NONE" | kBoot => "BOOT" | kLossEmergency => "LOSS_EMERGENCY" | kLossPersistent => "LOSS_PERSISTENT"
  | kReportTimeout => "REPORT_TIMEOUT" | kRssiFloor => "RSSI_FLOOR" | kRssiFade => "RSSI_FADE"
  | kBackpressure => "BACKPRESSURE" | kPromote => "PROMOTE" | kRepin => "REPIN" | kEnvironmentReset => "ENVIRONMENT_RESET"
  end%string.

Record SelectorLockout : Type := MkSelectorLockout {
  sl_active : bool;
  sl_latched : bool;
  sl_conflict : bool;
  sl_profile : Z;
  sl_ceiling_profile : Z;
  sl_strikes : Z;
  sl_remaining_ms : Z;
  sl_active_mask : Z;
  sl_latched_mask : Z
}.
Definition SelectorLockout_init : SelectorLockout := MkSelectorLockout false false false 0xFF 0 0 0 0 0.

Record ProfileCommit : Type := MkProfileCommit {
  pc_profile_id : Z;
  pc_mcs : Z;
  pc_gi : GuardInterval;
  pc_tx_power_level : Z
}.
Definition commit_of (p : Profile) : ProfileCommit := MkProfileCommit p.(pf_id) p.(pf_mcs) p.(pf_gi) p.(pf_tx_power_level).

Record SelectorActions : Type := MkSelectorActions {
  sa_commit : option ProfileCommit;
  sa_bitrate_kbps : option Z
}.
Definition SelectorActions_init : SelectorActions := MkSelectorActions None None.

Definition kHt20LgiKbps : list Z := [6500; 13000; 19500; 26000; 39000; 52000; 58500; 65000].

(** The products are in 64 bits; [1000 - fec_overhead_permille] is an [int],
    which a negative value turns into a large unsigned factor. *)
Definition derive_bitrate_kbps (p : Profile) : Z :=
  if p.(pf_mcs) >=? 8 then p.(pf_bitrate_min_kbps) else
  let kbps := default 0 (kHt20LgiKbps !! Z.to_nat p.(pf_mcs)) in
  let kbps := match p.(pf_gi) with kShort => to_u64 (kbps * 10) / 9 | kLong => kbps end in
  let kbps := to_u64 (kbps * p.(pf_airtime_budget_permille)) / 1000 in
  let kbps := to_u64 (kbps * to_u64 (1000 - p.(pf_fec_overhead_permille))) / 1000 in
  let reserve_kbps := to_u64 (p.(pf_reserve_control_bps) + p.(pf_reserve_telemetry_bps)) / 1000 in
  let kbps := if kbps >? reserve_kbps then kbps - reserve_kbps else 0 in
  to_u32 (Z.max kbps p.(pf_bitrate_min_kbps)).
Definition clamp_bitrate_kbps (derived_kbps max_kbps : Z) : Z :=
  if negb (max_kbps =? 0) && (derived_kbps >? max_kbps) then max_kbps else derived_kbps.

Inductive Phase : Type := kPhaseBoot | kPhaseIdle | kBitrateLead | kMcsGrace.

Record RungLossState : Type := MkRungLossState {
  score : Z;
  strikes : Z;
  blocked_until_ms : Z;
  latched : bool
}.
Definition RungLossState_init : RungLossState := MkRungLossState 0 0 0 false.

(** The members, in groups. *)
Record Operating : Type := MkOperating {
  rung_ : nat;
  phase_ : Phase;
  pending_target_ : nat;
  phase_deadline_ms_ : Z;
  last_change_ms_ : Z;
  last_demote_ms_ : Z;
  bitrate_kbps_ : Z;
  state_ : string;
  reason_ : SelectorReason
}.
Record Intake : Type := MkIntake {
  report_source_ : option (Z * Z);
  last_epoch_ : Z;
  last_report_ms_ : Z;
  have_report_ : bool;
  have_smoothing_ : bool;
  rssi_ewma_ : double;
  loss_ewma_milli_ : double;
  slope_ewma_ : double;
  prev_rssi_ : double;
  prev_report_ms_ : Z;
  fade_ticks_ : Z
}.
Record LossClass : Type := MkLossClass {
  rung_loss_ : list RungLossState;
  loss_window_milli_ : Z;
  loss_uniq_ : Z;
  loss_observed_rung_ : nat;
  emergency_pending_ : bool
}.
Record Flap : Type := MkFlap {
  demote_times_ : list Z;            (** a deque, oldest first *)
  freeze_until_ms_ : Z;
  demoted_from_ms_ : list Z;
  promoted_into_ms_ : list Z
}.
Record ClimbGates : Type := MkClimbGates {
  verdict_ : Z;
  verdict_ms_ : Z;
  promote_blocked_saturated_ : Z;
  probe_per_ : Z;
  probe_per_ms_ : Z;
  promote_blocked_probe_ : Z
}.
Record Guards : Type := MkGuards {
  csa_freeze_until_ms_ : Z;
  failsafe_next_step_ms_ : Z;
  pressure_ : bool;
  pressure_since_ms_ : Z;
  rf_environment_ : option (Z * Z)
}.
Record Selector : Type := MkSelector {
  policy_ : SelectorPolicy;
  table_ : option ProfileTable;
  op : Operating;
  intake : Intake;
  loss : LossClass;
  flap : Flap;
  gates : ClimbGates;
  guards : Guards
}.
Definition set_op (s : Selector) (o : Operating) : Selector :=
  MkSelector s.(policy_) s.(table_) o s.(intake) s.(loss) s.(flap) s.(gates) s.(guards).
Definition set_intake (s : Selector) (i : Intake) : Selector :=
  MkSelector s.(policy_) s.(table_) s.(op) i s.(loss) s.(flap) s.(gates) s.(guards).
Definition set_loss (s : Selector) (l : LossClass) : Selector :=
  MkSelector s.(policy_) s.(table_) s.(op) s.(intake) l s.(flap) s.(gates) s.(guards).
Definition set_flap (s : Selector) (f : Flap) : Selector :=
  MkSelector s.(policy_) s.(table_) s.(op) s.(intake) s.(loss) f s.(gates) s.(guards).
Definition set_gates (s : Selector) (g : ClimbGates) : Selector :=
  MkSelector s.(policy_) s.(table_) s.(op) s.(intake) s.(loss) s.(flap) g s.(guards).
Definition set_guards (s : Selector) (g : Guards) : Selector :=
  MkSelector s.(policy_) s.(table_) s.(op) s.(intake) s.(loss) s.(flap) s.(gates) g.
Definition kNoProbe : Z := 0xFFFF.
Definition kSaturated : Z := 2.

(** ** The ladder *)
Section Ladder.
Context (s : Selector).

Definition ladder : list Profile := match s.(table_) with Some t => t.(profiles) | None => [] end.
Definition ladder_size : nat := length ladder.
(** The first entry with the id. *)
Definition index_of_id (id : Z) : option nat := fst <$> list_find (fun p => p.(pf_id) = id) ladder.
Definition rung_of_id (id : Z) (fallback : nat) : nat := default fallback (index_of_id id).
Definition clamp_rung (r : nat) : nat :=
  if decide (ladder_size = 0)%nat then 0%nat else
  let lo := rung_of_id s.(policy_).(min_profile) 0 in
  let hi := rung_of_id s.(policy_).(max_profile) (ladder_size - 1) in
  let lo := if decide (hi < lo)%nat then hi else lo in
  if decide (r < lo)%nat then lo else if decide (hi < r)%nat then hi else r.
Definition floor_rung : nat :=
  match s.(table_) with Some t => rung_of_id t.(floor_profile) 0 | None => 0%nat end.
Definition safe_floor_rung : nat := Nat.max (clamp_rung 0) (clamp_rung floor_rung).

Definition rung_locked (rung : nat) (now_ms : Z) : bool :=
  match s.(loss).(rung_loss_) !! rung with
  | Some r => r.(latched) || (now_ms <? r.(blocked_until_ms))
  | None => false
  end.
(** The first locked rung at or below [hi]. *)
Definition first_locked (now_ms : Z) (hi : nat) : option nat :=
  fst <$> list_find (fun r => rung_locked r now_ms = true) (seq 0 (Nat.min (S hi) (length s.(loss).(rung_loss_)))).
(** The ceiling and [conflict]. *)
Definition lockout_ceiling_rung (now_ms : Z) (lo hi : nat) : nat * bool :=
  match first_locked now_ms hi with
  | None => (hi, false)
  | Some r => if decide (r <= lo)%nat then (hi, true) else ((r - 1)%nat, false)
  end.
Definition adaptive_hi (now_ms : Z) (lo hi : nat) : nat :=
  let '(ceiling, conflict) := lockout_ceiling_rung now_ms lo hi in
  if conflict : bool then hi else Nat.min hi ceiling.

Definition effective_ceiling_profile (now_ms : Z) : option Z :=
  if decide (ladder_size = 0)%nat then Some s.(policy_).(max_profile) else
  p ← ladder !! adaptive_hi now_ms (clamp_rung 0) (clamp_rung (ladder_size - 1)); Some p.(pf_id).

Definition profile_id : option Z :=
  if decide (ladder_size = 0)%nat then Some 0 else p ← ladder !! s.(op).(rung_); Some p.(pf_id).
Definition mcs : option Z :=
  if decide (ladder_size = 0)%nat then Some 0 else p ← ladder !! s.(op).(rung_); Some p.(pf_mcs).
Definition tx_power_level : option Z :=
  if decide (ladder_size = 0)%nat then Some 0 else p ← ladder !! s.(op).(rung_); Some p.(pf_tx_power_level).
Definition loss_ewma_milli : option Z :=
  double_to_u16 (dadd (dclamp s.(intake).(loss_ewma_milli_) (double_of 0) (double_of 1000)) (dlit 1 2)).
Definition loss_score : Z := match s.(loss).(rung_loss_) !! s.(op).(rung_) with Some r => r.(score) | None => 0 end.
Definition safe_floor_profile : Z := match ladder !! safe_floor_rung with Some p => p.(pf_id) | None => 0 end.

(** The masks: one bit per rung, eight rungs. *)
Definition rung_mask (f : nat -> bool) (n : nat) : Z :=
  fold_left (fun m r => if f r then Z.lor m (to_u8 (Z.shiftl 1 (Z.of_nat r))) else m) (seq 0 n) 0.
Definition lockout (now_ms : Z) : option SelectorLockout :=
  let rl := s.(loss).(rung_loss_) in
  let n := Nat.min (length rl) 8 in
  let active_mask := rung_mask (fun r => rung_locked r now_ms) n in
  let latched_mask := rung_mask (fun r => match rl !! r with Some x => x.(latched) | None => false end) n in
  if decide (ladder_size = 0)%nat then Some (MkSelectorLockout false false false 0xFF 0 0 0 active_mask latched_mask) else
  let hi := clamp_rung (ladder_size - 1) in
  let '(ceiling, conflict) := lockout_ceiling_rung now_ms (clamp_rung 0) hi in
  c ← ladder !! ceiling;
  match first_locked now_ms hi with
  | None => Some (MkSelectorLockout false false conflict 0xFF c.(pf_id) 0 0 active_mask latched_mask)
  | Some r =>
    x ← rl !! r; p ← ladder !! r;
    let remaining := if negb x.(latched) && (x.(blocked_until_ms) >? now_ms)
                     then to_u32 (Z.min (x.(blocked_until_ms) - now_ms) 0xFFFFFFFF) else 0 in
    Some (MkSelectorLockout true x.(latched) conflict p.(pf_id) c.(pf_id) x.(strikes) remaining active_mask latched_mask)
  end.

Definition report_age_ms (now_ms : Z) : Z :=
  if negb s.(intake).(have_report_) || (now_ms <=? s.(intake).(last_report_ms_)) then 0
  else now_ms - s.(intake).(last_report_ms_).
Definition flap_frozen (now_ms : Z) : bool := now_ms <? s.(flap).(freeze_until_ms_).
Definition saturated_fresh (now_ms : Z) : bool :=
  (s.(gates).(verdict_) =? kSaturated) && negb (s.(gates).(verdict_ms_) =? 0) && (now_ms >=? s.(gates).(verdict_ms_)) &&
  (now_ms - s.(gates).(verdict_ms_) <? s.(policy_).(verdict_ttl_ms)).
Definition probe_veto_fresh (now_ms : Z) : bool :=
  negb (s.(gates).(probe_per_) =? kNoProbe) && (s.(gates).(probe_per_) >=? s.(policy_).(probe_veto_permille)) &&
  negb (s.(gates).(probe_per_ms_) =? 0) && (now_ms >=? s.(gates).(probe_per_ms_)) &&
  (now_ms - s.(gates).(probe_per_ms_) <? s.(policy_).(probe_veto_ttl_ms)).
Definition rssi_guard_active : bool :=
  dle s.(intake).(rssi_ewma_) (double_of s.(policy_).(rssi_floor_dbm)) ||
  (s.(intake).(fade_ticks_) >=? s.(policy_).(fade_ticks)).
(** The bitrate the encoder is given at a profile. *)
Definition target_bitrate (p : Profile) : Z := clamp_bitrate_kbps (derive_bitrate_kbps p) s.(policy_).(max_bitrate_kbps).
End Ladder.

(** [Selector::Selector]. *)
Definition Selector_init (policy : SelectorPolicy) (table : option ProfileTable) : Selector :=
  let n := match table with Some t => length t.(profiles) | None => 0%nat end in
  let s := MkSelector policy table
    (MkOperating 0 kPhaseBoot 0 0 0 0 0 "BOOT" kBoot)
    (MkIntake None 0 0 false false (double_of 0) (double_of 0) (double_of 0) (double_of 0) 0 0)
    (MkLossClass (replicate n RungLossState_init) 0 0 0 false)
    (MkFlap [] 0 (replicate n 0) (replicate n 0))
    (MkClimbGates 0 0 0 kNoProbe 0 0)
    (MkGuards 0 0 false 0 None) in
  set_op s (MkOperating (safe_floor_rung s) kPhaseBoot 0 0 0 0 0 "BOOT" kBoot).

(** ** Inputs *)
Definition on_verdict (s : Selector) (verdict now_ms : Z) : Selector :=
  let g := s.(gates) in
  set_gates s (MkClimbGates verdict now_ms g.(promote_blocked_saturated_) g.(probe_per_) g.(probe_per_ms_) g.(promote_blocked_probe_)).
Definition with_probe (s : Selector) (per ms : Z) : Selector :=
  let g := s.(gates) in
  set_gates s (MkClimbGates g.(verdict_) g.(verdict_ms_) g.(promote_blocked_saturated_) per ms g.(promote_blocked_probe_)).
Definition with_reason (s : Selector) (r : SelectorReason) : Selector :=
  let o := s.(op) in
  set_op s (MkOperating o.(rung_) o.(phase_) o.(pending_target_) o.(phase_deadline_ms_) o.(last_change_ms_) o.(last_demote_ms_)
              o.(bitrate_kbps_) o.(state_) r).
Definition with_state (s : Selector) (st : string) : Selector :=
  let o := s.(op) in
  set_op s (MkOperating o.(rung_) o.(phase_) o.(pending_target_) o.(phase_deadline_ms_) o.(last_change_ms_) o.(last_demote_ms_)
              o.(bitrate_kbps_) st o.(reason_)).
Definition with_failsafe_next (s : Selector) (t : Z) : Selector :=
  let g := s.(guards) in
  set_guards s (MkGuards g.(csa_freeze_until_ms_) t g.(pressure_) g.(pressure_since_ms_) g.(rf_environment_)).

Definition reset_environment_state (s : Selector) (now_ms : Z) : Selector :=
  let i := s.(intake) in let o := s.(op) in let f := s.(flap) in
  let s := set_loss s (MkLossClass (map (fun _ => RungLossState_init) s.(loss).(rung_loss_)) 0 0 o.(rung_) false) in
  let s := set_intake s (MkIntake i.(report_source_) i.(last_epoch_) i.(last_report_ms_) i.(have_report_) false
                           (double_of 0) (double_of 0) (double_of 0) (double_of 0) 0 0) in
  let s := set_flap s (MkFlap [] 0 (map (fun _ => 0) f.(demoted_from_ms_)) (map (fun _ => 0) f.(promoted_into_ms_))) in
  let s := with_failsafe_next s 0 in
  let s := set_op s (MkOperating o.(rung_) o.(phase_) o.(pending_target_) o.(phase_deadline_ms_) now_ms 0
                       o.(bitrate_kbps_) o.(state_) o.(reason_)) in
  with_probe s kNoProbe 0.

(** The identity block of [on_report]. *)
Definition take_identity (s : Selector) (identity : Z * Z) (now_ms : Z) : Selector :=
  if decide (s.(intake).(report_source_) = Some identity) then s else
  let changed := bool_decide (is_Some s.(intake).(report_source_)) in
  let i := s.(intake) in
  let s := set_intake s (MkIntake (Some identity) 0 i.(last_report_ms_) false i.(have_smoothing_) i.(rssi_ewma_)
                           i.(loss_ewma_milli_) i.(slope_ewma_) i.(prev_rssi_) i.(prev_report_ms_) i.(fade_ticks_)) in
  let s := reset_environment_state s now_ms in
  if changed then with_reason s kEnvironmentReset else s.
(** The smoothing and the fade arming. *)
Definition smooth (p : SelectorPolicy) (i : Intake) (r : LinkReport) (now_ms : Z) : Intake :=
  let rssi := double_of r.(lr_rssi_mean) in
  let lossd := double_of r.(lr_loss_postdiv_prearq) in
  let i :=
    if negb i.(have_smoothing_) then
      MkIntake i.(report_source_) i.(last_epoch_) i.(last_report_ms_) i.(have_report_) true rssi lossd i.(slope_ewma_) rssi
        now_ms i.(fade_ticks_)
    else
      let rssi_ewma := dadd i.(rssi_ewma_) (dmul p.(ewma_alpha) (dsub rssi i.(rssi_ewma_))) in
      let loss_ewma := dadd i.(loss_ewma_milli_) (dmul p.(ewma_alpha) (dsub lossd i.(loss_ewma_milli_))) in
      let slope_ewma :=
        if now_ms >? i.(prev_report_ms_) then
          let dt_s := ddiv (double_of (now_ms - i.(prev_report_ms_))) (double_of 1000) in
          let slope := ddiv (dsub rssi i.(prev_rssi_)) dt_s in
          dadd i.(slope_ewma_) (dmul p.(slope_alpha) (dsub slope i.(slope_ewma_)))
        else i.(slope_ewma_) in
      MkIntake i.(report_source_) i.(last_epoch_) i.(last_report_ms_) i.(have_report_) true rssi_ewma loss_ewma slope_ewma rssi
        now_ms i.(fade_ticks_) in
  let fade :=
    if dle i.(rssi_ewma_) (double_of p.(rssi_fade_arm_dbm)) && dle i.(slope_ewma_) (dopp p.(rssi_fade_db_per_s))
    then (if i.(fade_ticks_) <? 255 then i.(fade_ticks_) + 1 else i.(fade_ticks_)) else 0 in
  MkIntake i.(report_source_) i.(last_epoch_) i.(last_report_ms_) i.(have_report_) i.(have_smoothing_) i.(rssi_ewma_)
    i.(loss_ewma_milli_) i.(slope_ewma_) i.(prev_rssi_) i.(prev_report_ms_) fade.
(** The leaky score of one rung. *)
Definition leak (p : SelectorPolicy) (loss_milli : Z) (rs : RungLossState) : RungLossState :=
  let sc := if loss_milli >=? p.(demote_milli)
            then (if rs.(score) <? p.(loss_persist_score) then rs.(score) + 1 else rs.(score))
            else if rs.(score) >? 0 then rs.(score) - 1 else rs.(score) in
  MkRungLossState sc rs.(strikes) rs.(blocked_until_ms) rs.(latched).
(** The raw-window classifier. *)
Definition classify (s : Selector) (r : LinkReport) (now_ms : Z) : LossClass :=
  let p := s.(policy_) in let rung := s.(op).(rung_) in
  let filled := r.(lr_uniq) >=? p.(loss_min_uniq) in
  MkLossClass
    (if filled && negb (rung_locked s rung now_ms) then alter (leak p r.(lr_loss_postdiv_prearq)) rung s.(loss).(rung_loss_)
     else s.(loss).(rung_loss_))
    r.(lr_loss_postdiv_prearq) r.(lr_uniq) rung
    (filled && (r.(lr_loss_postdiv_prearq) >=? p.(emergency_loss_milli))).

Definition on_report (s : Selector) (r : LinkReport) (now_ms : Z) : Selector * bool :=
  let s := take_identity s (r.(lr_prefix).(originator), r.(lr_prefix).(session_id)) now_ms in
  if s.(intake).(have_report_) && (r.(lr_report_epoch) <=? s.(intake).(last_epoch_)) then (s, false) else
  let s := if negb (r.(lr_probe_per) =? kNoProbe) then with_probe s r.(lr_probe_per) now_ms else s in
  let i := smooth s.(policy_) s.(intake) r now_ms in
  let s := set_loss s (classify s r now_ms) in
  let s := set_intake s (MkIntake i.(report_source_) r.(lr_report_epoch) now_ms true i.(have_smoothing_) i.(rssi_ewma_)
                           i.(loss_ewma_milli_) i.(slope_ewma_) i.(prev_rssi_) i.(prev_report_ms_) i.(fade_ticks_)) in
  (with_failsafe_next s 0, true).

Definition on_rf_environment (s : Selector) (channel_mhz bw now_ms : Z) : Selector * bool :=
  let g := s.(guards) in
  let next := (channel_mhz, bw) in
  let s' := set_guards s (MkGuards g.(csa_freeze_until_ms_) g.(failsafe_next_step_ms_) g.(pressure_) g.(pressure_since_ms_) (Some next)) in
  match g.(rf_environment_) with
  | None => (s', false)
  | Some env =>
    if decide (env = next) then (s, false)
    else (with_reason (reset_environment_state s' now_ms) kEnvironmentReset, true)
  end.

Definition set_pressure (s : Selector) (on : bool) (now_ms : Z) : Selector :=
  let g := s.(guards) in
  let since := if on && negb g.(pressure_) then now_ms else g.(pressure_since_ms_) in
  set_guards s (MkGuards g.(csa_freeze_until_ms_) g.(failsafe_next_step_ms_) on since g.(rf_environment_)).
Definition csa_freeze (s : Selector) (until_ms : Z) : Selector :=
  let g := s.(guards) in
  if until_ms >? g.(csa_freeze_until_ms_)
  then set_guards s (MkGuards until_ms g.(failsafe_next_step_ms_) g.(pressure_) g.(pressure_since_ms_) g.(rf_environment_)) else s.
Definition set_profile_pin (s : Selector) (mn mx : Z) : Selector :=
  let p := s.(policy_) in
  MkSelector
    (MkSelectorPolicy p.(demote_milli) p.(emergency_loss_milli) p.(loss_min_uniq) p.(loss_persist_score) p.(rung_lockout_ms)
       p.(rung_lockout_latch_count) p.(rssi_floor_dbm) p.(rssi_fade_db_per_s) p.(rssi_fade_arm_dbm) p.(fade_ticks)
       p.(down_cooldown_ms) p.(ewma_alpha) p.(slope_alpha) p.(rung_rssi_floor_dbm) p.(promote_rssi_hyst_db) p.(promote_dwell_ms)
       p.(verdict_ttl_ms) p.(probe_veto_permille) p.(probe_veto_ttl_ms) p.(bitrate_lead_ms) p.(mcs_up_grace_ms) p.(mcs_settle_ms)
       p.(reentry_backoff_ms) p.(reentry_dwell_ms) p.(flap_freeze_count) p.(flap_freeze_window_ms) p.(flap_freeze_ms) mn mx
       p.(max_bitrate_kbps) p.(report_timeout_ms) p.(failsafe_hold_ms) p.(failsafe_step_ms) p.(pressure_escape_ms))
    s.(table_) s.(op) s.(intake) s.(loss) s.(flap) s.(gates) s.(guards).

(** ** Transitions *)
Definition charge_lockout (s : Selector) (rung : nat) (now_ms : Z) : Selector :=
  match s.(loss).(rung_loss_) !! rung with
  | None => s
  | Some rs =>
    if bool_decide (rung <= safe_floor_rung s)%nat || rung_locked s rung now_ms then s else
    let p := s.(policy_) in
    let k := if rs.(strikes) <? p.(rung_lockout_latch_count) then rs.(strikes) + 1 else rs.(strikes) in
    let rs' :=
      if k >=? p.(rung_lockout_latch_count) then MkRungLossState 0 k 0 true
      else
        let room := 18446744073709551615 - now_ms in
        MkRungLossState 0 k (if p.(rung_lockout_ms) >? room then 18446744073709551615 else now_ms + p.(rung_lockout_ms)) rs.(latched) in
    let l := s.(loss) in
    set_loss s (MkLossClass (<[rung := rs']> l.(rung_loss_)) l.(loss_window_milli_) l.(loss_uniq_) l.(loss_observed_rung_)
                  l.(emergency_pending_))
  end.

(** The loop that drops the demotes older than the window. *)
Fixpoint drop_old (window now_ms : Z) (l : list Z) : list Z :=
  match l with
  | [] => []
  | t :: l' => if to_u64 (now_ms - t) >? window then drop_old window now_ms l' else l
  end.
Definition note_demote_for_flap (s : Selector) (now_ms : Z) : option Selector :=
  let p := s.(policy_) in let f := s.(flap) in
  promoted ← f.(promoted_into_ms_) !! s.(op).(rung_);
  let l := if negb (promoted =? 0) && (now_ms >=? promoted) && (now_ms - promoted <? p.(flap_freeze_window_ms))
           then f.(demote_times_) ++ [now_ms] else f.(demote_times_) in
  let l := drop_old p.(flap_freeze_window_ms) now_ms l in
  let '(l, until) := if len l >=? p.(flap_freeze_count) then ([], to_u64 (now_ms + p.(flap_freeze_ms))) else (l, f.(freeze_until_ms_)) in
  Some (set_flap s (MkFlap l until f.(demoted_from_ms_) f.(promoted_into_ms_))).

(** [demoted_from_ms_[r] = now_ms] for [target < r <= rung]. *)
Definition mark_vacated (l : list Z) (target rung : nat) (now_ms : Z) : list Z :=
  imap (fun r t => if decide (target < r <= rung)%nat then now_ms else t) l.
(** The new bitrate, reported when it differs. *)
Definition move_bitrate (s : Selector) (p : Profile) (a : SelectorActions) : Selector * SelectorActions :=
  let br := target_bitrate s p in
  let o := s.(op) in
  if br =? o.(bitrate_kbps_) then (s, a)
  else (set_op s (MkOperating o.(rung_) o.(phase_) o.(pending_target_) o.(phase_deadline_ms_) o.(last_change_ms_)
                    o.(last_demote_ms_) br o.(state_) o.(reason_)),
        MkSelectorActions a.(sa_commit) (Some br)).

Definition start_demote (s : Selector) (target : nat) (now_ms : Z) (a : SelectorActions) (reason : SelectorReason)
    (charge_rung : bool) : option (Selector * SelectorActions) :=
  let s := with_probe s kNoProbe 0 in
  let s := if charge_rung then charge_lockout s s.(op).(rung_) now_ms else s in
  s ← note_demote_for_flap s now_ms;
  let f := s.(flap) in let o := s.(op) in
  let s := set_flap s (MkFlap f.(demote_times_) f.(freeze_until_ms_) (mark_vacated f.(demoted_from_ms_) target o.(rung_) now_ms)
                         f.(promoted_into_ms_)) in
  let s := set_op s (MkOperating o.(rung_) kBitrateLead target (to_u64 (now_ms + s.(policy_).(bitrate_lead_ms)))
                       o.(last_change_ms_) now_ms o.(bitrate_kbps_) "DEMOTE" reason) in
  p ← ladder s !! target;
  Some (move_bitrate s p a).

Definition start_promote (s : Selector) (target : nat) (now_ms : Z) (a : SelectorActions) (reason : SelectorReason)
    : option (Selector * SelectorActions) :=
  let s := with_probe s kNoProbe 0 in
  let f := s.(flap) in let o := s.(op) in
  _ ← f.(promoted_into_ms_) !! target;
  let s := set_flap s (MkFlap f.(demote_times_) f.(freeze_until_ms_) f.(demoted_from_ms_) (<[target := now_ms]> f.(promoted_into_ms_))) in
  let s := set_op s (MkOperating target kMcsGrace target (to_u64 (now_ms + s.(policy_).(mcs_up_grace_ms))) now_ms
                       o.(last_demote_ms_) o.(bitrate_kbps_) "PROMOTE" reason) in
  p ← ladder s !! target;
  Some (s, MkSelectorActions (Some (commit_of p)) a.(sa_bitrate_kbps)).

(** The jump of a pin: rate and bitrate together. *)
Definition snap (s : Selector) (target : nat) (now_ms : Z) (a : SelectorActions) : option (Selector * SelectorActions) :=
  let o := s.(op) in
  let s := set_op s (MkOperating target o.(phase_) o.(pending_target_) o.(phase_deadline_ms_) now_ms o.(last_demote_ms_)
                       o.(bitrate_kbps_) o.(state_) kRepin) in
  p ← ladder s !! target;
  Some (move_bitrate s p (MkSelectorActions (Some (commit_of p)) a.(sa_bitrate_kbps))).

(** ** The cascade *)
(** Rule 1 consumes the pending event. *)
Definition take_emergency (s : Selector) : Selector :=
  let l := s.(loss) in
  let s' := set_loss s (MkLossClass l.(rung_loss_) l.(loss_window_milli_) l.(loss_uniq_) l.(loss_observed_rung_) false) in
  if decide (l.(loss_observed_rung_) = s.(op).(rung_)) then with_reason s' kLossEmergency else s'.
Definition with_last_demote (s : Selector) (t : Z) : Selector :=
  let o := s.(op) in
  set_op s (MkOperating o.(rung_) o.(phase_) o.(pending_target_) o.(phase_deadline_ms_) o.(last_change_ms_) t
              o.(bitrate_kbps_) o.(state_) o.(reason_)).
Definition with_fade_ticks (s : Selector) (n : Z) : Selector :=
  let i := s.(intake) in
  set_intake s (MkIntake i.(report_source_) i.(last_epoch_) i.(last_report_ms_) i.(have_report_) i.(have_smoothing_) i.(rssi_ewma_)
                  i.(loss_ewma_milli_) i.(slope_ewma_) i.(prev_rssi_) i.(prev_report_ms_) n).
Definition with_last_report (s : Selector) (t : Z) : Selector :=
  let i := s.(intake) in
  set_intake s (MkIntake i.(report_source_) i.(last_epoch_) t i.(have_report_) i.(have_smoothing_) i.(rssi_ewma_)
                  i.(loss_ewma_milli_) i.(slope_ewma_) i.(prev_rssi_) i.(prev_report_ms_) i.(fade_ticks_)).

Definition demote_ok (s : Selector) (now_ms : Z) : bool :=
  to_u64 (now_ms - s.(op).(last_demote_ms_)) >=? s.(policy_).(down_cooldown_ms).
(** The guards of the rules, as the code tests them. *)
Definition persistent_loss (s : Selector) : bool :=
  negb s.(guards).(pressure_) && bool_decide (s.(loss).(loss_observed_rung_) = s.(op).(rung_)) &&
  match s.(loss).(rung_loss_) !! s.(op).(rung_) with Some r => r.(score) >=? s.(policy_).(loss_persist_score) | None => false end.
Definition rssi_floor_hit (s : Selector) : bool := dle s.(intake).(rssi_ewma_) (double_of s.(policy_).(rssi_floor_dbm)).
Definition rssi_fading (s : Selector) : bool := s.(intake).(fade_ticks_) >=? s.(policy_).(fade_ticks).
Definition pressure_escapes (s : Selector) (now_ms : Z) (ahi : nat) : bool :=
  s.(guards).(pressure_) && negb (rssi_guard_active s) &&
  (to_u64 (now_ms - s.(guards).(pressure_since_ms_)) >=? s.(policy_).(pressure_escape_ms)) && demote_ok s now_ms &&
  bool_decide (s.(op).(rung_) < ahi)%nat && negb (flap_frozen s now_ms).
Definition margin_open (s : Selector) (now_ms : Z) (ahi : nat) : bool :=
  bool_decide (s.(op).(rung_) < ahi)%nat && negb (rssi_guard_active s) && negb (flap_frozen s now_ms) &&
  dlt s.(intake).(loss_ewma_milli_) (double_of s.(policy_).(demote_milli)).
Definition margin_met (s : Selector) (now_ms : Z) : option bool :=
  let p := s.(policy_) in
  let next := S s.(op).(rung_) in
  fl ← p.(rung_rssi_floor_dbm) !! Nat.min next (length p.(rung_rssi_floor_dbm) - 1);
  let need := dadd (double_of fl) p.(promote_rssi_hyst_db) in
  demoted ← s.(flap).(demoted_from_ms_) !! next;
  let recent := negb (demoted =? 0) && (now_ms >=? demoted) && (now_ms - demoted <? p.(reentry_backoff_ms)) in
  let dwell := if recent then p.(reentry_dwell_ms) else p.(promote_dwell_ms) in
  Some (dge s.(intake).(rssi_ewma_) need && (to_u64 (now_ms - s.(op).(last_change_ms_)) >=? dwell)).

(** Rule 7, with the suppressions of this tick. *)
Definition hold (s : Selector) (now_ms : Z) (blocked_saturated blocked_probe : bool) (a : SelectorActions) : Selector * SelectorActions :=
  let g := s.(gates) in
  let s := set_gates s (MkClimbGates g.(verdict_) g.(verdict_ms_)
    (if blocked_saturated then to_u64 (g.(promote_blocked_saturated_) + 1) else g.(promote_blocked_saturated_))
    g.(probe_per_) g.(probe_per_ms_)
    (if blocked_probe then to_u64 (g.(promote_blocked_probe_) + 1) else g.(promote_blocked_probe_))) in
  (with_state s (if flap_frozen s now_ms then "FREEZE" else "HOLD"), a).
(** Rule 6. *)
Definition rule_margin (s : Selector) (now_ms : Z) (ahi : nat) (bs bp : bool) (a : SelectorActions) : option (Selector * SelectorActions) :=
  if margin_open s now_ms ahi then
    met ← margin_met s now_ms;
    if met : bool then
      if saturated_fresh s now_ms then Some (hold s now_ms true bp a)
      else if probe_veto_fresh s now_ms then Some (hold s now_ms bs true a)
      else start_promote s (S s.(op).(rung_)) now_ms a kPromote
    else Some (hold s now_ms bs bp a)
  else Some (hold s now_ms bs bp a).
(** Rules 5 to 7. *)
Definition climb_rules (s : Selector) (now_ms : Z) (lo hi : nat) (a : SelectorActions) : option (Selector * SelectorActions) :=
  let ahi := adaptive_hi s now_ms lo hi in
  if pressure_escapes s now_ms ahi then
    if saturated_fresh s now_ms then rule_margin s now_ms ahi true false a
    else if probe_veto_fresh s now_ms then rule_margin s now_ms ahi false true a
    else start_promote (with_last_demote s now_ms) (S s.(op).(rung_)) now_ms a kBackpressure
  else rule_margin s now_ms ahi false false a.
(** Rules 2 to 4. *)
Definition demote_rules (s : Selector) (now_ms : Z) (lo hi floor : nat) (a : SelectorActions) : option (Selector * SelectorActions) :=
  let rung := s.(op).(rung_) in
  let above := bool_decide (floor < rung)%nat in
  if demote_ok s now_ms && persistent_loss s && above then start_demote s (rung - 1) now_ms a kLossPersistent true
  else if demote_ok s now_ms && rssi_floor_hit s && above then start_demote s (rung - 1) now_ms a kRssiFloor false
  else if demote_ok s now_ms && rssi_fading s && above then start_demote (with_fade_ticks s 0) (rung - 1) now_ms a kRssiFade false
  else climb_rules s now_ms lo hi a.
(** Rules 1 to 7, on fresh feedback. *)
Definition cascade (s : Selector) (now_ms : Z) (lo hi floor : nat) (a : SelectorActions) : option (Selector * SelectorActions) :=
  if s.(loss).(emergency_pending_) then
    let hit := bool_decide (s.(loss).(loss_observed_rung_) = s.(op).(rung_)) in
    let s := take_emergency s in
    if hit && bool_decide (floor < s.(op).(rung_))%nat then start_demote s floor now_ms a kLossEmergency true
    else demote_rules s now_ms lo hi floor a
  else demote_rules s now_ms lo hi floor a.
(** The stale-feedback branch. *)
Definition failsafe (s : Selector) (now_ms : Z) (floor : nat) (a : SelectorActions) : option (Selector * SelectorActions) :=
  let s := with_state s "FAILSAFE" in
  if report_age_ms s now_ms <? to_u32 (s.(policy_).(report_timeout_ms) + s.(policy_).(failsafe_hold_ms)) then Some (s, a)
  else if bool_decide (floor < s.(op).(rung_))%nat && (now_ms >=? s.(guards).(failsafe_next_step_ms_)) then
    let s := with_failsafe_next s (to_u64 (now_ms + s.(policy_).(failsafe_step_ms))) in
    start_demote s (s.(op).(rung_) - 1) now_ms a kReportTimeout false
  else Some (s, a).
Definition stale (s : Selector) (now_ms : Z) : bool :=
  negb s.(intake).(have_report_) || (report_age_ms s now_ms >? s.(policy_).(report_timeout_ms)).

(** The end of a CSA freeze excuses the blackout. *)
Definition end_freeze (s : Selector) : Selector :=
  let g := s.(guards) in
  let s := if s.(intake).(have_report_) && (s.(intake).(last_report_ms_) <? g.(csa_freeze_until_ms_))
           then with_last_report s g.(csa_freeze_until_ms_) else s in
  set_guards s (MkGuards 0 g.(failsafe_next_step_ms_) g.(pressure_) g.(pressure_since_ms_) g.(rf_environment_)).
Definition evaluate_open (s : Selector) (now_ms : Z) (a : SelectorActions) : option (Selector * SelectorActions) :=
  let lo := clamp_rung s 0 in
  let hi := clamp_rung s (ladder_size s - 1) in
  let floor := safe_floor_rung s in
  let rung := s.(op).(rung_) in
  if decide (lo = hi) then
    let s := with_state s "PINNED" in
    if decide (rung = lo) then Some (s, a) else snap s lo now_ms a
  else if bool_decide (hi < rung)%nat ||
          bool_decide (rung < lo)%nat && s.(intake).(have_report_) && (report_age_ms s now_ms <=? s.(policy_).(report_timeout_ms)) then
    '(s, a) ← snap s (if decide (hi < rung)%nat then hi else lo) now_ms a;
    Some (with_state s "REPIN", a)
  else if stale s now_ms then failsafe s now_ms floor a
  else cascade s now_ms lo hi floor a.
Definition evaluate (s : Selector) (now_ms : Z) (a : SelectorActions) : option (Selector * SelectorActions) :=
  if s.(guards).(csa_freeze_until_ms_) =? 0 then evaluate_open s now_ms a
  else if now_ms <? s.(guards).(csa_freeze_until_ms_) then Some (with_state s "CSA_FREEZE", a)
  else evaluate_open (end_freeze s) now_ms a.

Definition enter_idle (s : Selector) (rung : nat) (last_change : Z) (st : string) : Selector :=
  let o := s.(op) in
  set_op s (MkOperating rung kPhaseIdle o.(pending_target_) o.(phase_deadline_ms_) last_change o.(last_demote_ms_)
              o.(bitrate_kbps_) st o.(reason_)).
Definition tick (s : Selector) (now_ms : Z) : option (Selector * SelectorActions) :=
  let a := SelectorActions_init in
  let o := s.(op) in
  if decide (ladder_size s = 0)%nat then Some (s, a) else
  match o.(phase_) with
  | kPhaseBoot =>
    p ← ladder s !! o.(rung_);
    let s := enter_idle s o.(rung_) now_ms "HOLD" in
    let br := target_bitrate s p in
    let o := s.(op) in
    Some (set_op s (MkOperating o.(rung_) o.(phase_) o.(pending_target_) o.(phase_deadline_ms_) o.(last_change_ms_)
                      o.(last_demote_ms_) br o.(state_) o.(reason_)),
          MkSelectorActions (Some (commit_of p)) (Some br))
  | kBitrateLead =>
    if now_ms >=? o.(phase_deadline_ms_) then
      p ← ladder s !! o.(pending_target_);
      Some (enter_idle s o.(pending_target_) now_ms o.(state_), MkSelectorActions (Some (commit_of p)) None)
    else Some (s, a)
  | kMcsGrace =>
    if now_ms >=? o.(phase_deadline_ms_) then
      p ← ladder s !! o.(rung_);
      Some (move_bitrate (enter_idle s o.(rung_) o.(last_change_ms_) o.(state_)) p a)
    else Some (s, a)
  | kPhaseIdle => evaluate s now_ms a
  end.
