(* ===== verification/SelectorSpec.v ===== *)
(** * The selector's contract: what a tick may do, and on what evidence

    The documented cascade as a relation on moves: which move is warranted in a
    state, and what a move does.  Every tick of the code is one warranted move. *)
From Stdlib Require Import String.
From S2P Require Import Prelude Types Wire Table McsProbe Double Selector.
Open Scope Z_scope.

Record shaped (s : Selector) : Prop := {
  sh_loss : length s.(loss).(rung_loss_) = ladder_size s;
  sh_demoted : length s.(flap).(demoted_from_ms_) = ladder_size s;
  sh_promoted : length s.(flap).(promoted_into_ms_) = ladder_size s;
  sh_floors : length s.(policy_).(rung_rssi_floor_dbm) = 8%nat;
  sh_rung : ladder_size s <> 0%nat -> (s.(op).(rung_) < ladder_size s)%nat;
  sh_pending : ladder_size s <> 0%nat -> (s.(op).(pending_target_) < ladder_size s)%nat
}.

(** ** The rungs of the pins *)
Lemma index_of_id_lt s id i : index_of_id s id = Some i -> (i < ladder_size s)%nat.
Proof.
  unfold index_of_id. destruct (list_find _ _) as [[j p]|] eqn:E; [|done]. simpl. intros [= <-].
  apply list_find_Some in E as [E _]. by eapply lookup_lt_Some.
Qed.
Lemma rung_of_id_lt s id f : (f < ladder_size s)%nat -> (rung_of_id s id f < ladder_size s)%nat.
Proof. intros Hf. unfold rung_of_id. destruct (index_of_id s id) eqn:E; simpl; [by eapply index_of_id_lt|done]. Qed.

Section Range.
Context (s : Selector) (Hn : ladder_size s <> 0%nat).
Lemma clamp_rung_lt r : (clamp_rung s r < ladder_size s)%nat.
Proof.
  unfold clamp_rung. rewrite decide_False by done.
  pose proof (rung_of_id_lt s (min_profile (policy_ s)) 0 ltac:(lia)).
  pose proof (rung_of_id_lt s (max_profile (policy_ s)) (ladder_size s - 1) ltac:(lia)).
  repeat case_decide; lia.
Qed.
Lemma clamp_rung_mono a b : (a <= b)%nat -> (clamp_rung s a <= clamp_rung s b)%nat.
Proof. intros. unfold clamp_rung. repeat case_decide; lia. Qed.
Lemma clamp_rung_id r : (clamp_rung s 0 <= r)%nat -> (r <= clamp_rung s (ladder_size s - 1))%nat -> (r < ladder_size s)%nat -> clamp_rung s r = r.
Proof.
  unfold clamp_rung. rewrite !decide_False by done.
  pose proof (rung_of_id_lt s (min_profile (policy_ s)) 0 ltac:(lia)).
  pose proof (rung_of_id_lt s (max_profile (policy_ s)) (ladder_size s - 1) ltac:(lia)).
  repeat case_decide; lia.
Qed.
(** The safe floor lies between the pins. *)
Lemma safe_floor_range : (clamp_rung s 0 <= safe_floor_rung s <= clamp_rung s (ladder_size s - 1))%nat.
Proof.
  unfold safe_floor_rung. pose proof (clamp_rung_mono 0 (floor_rung s)) as H0.
  assert (Hf : (floor_rung s <= ladder_size s - 1)%nat).
  { unfold floor_rung, ladder_size, ladder in *. destruct (table_ s) as [t|] eqn:E; [|simpl; lia].
    pose proof (rung_of_id_lt s (floor_profile t) 0) as H. unfold ladder_size, ladder in H. rewrite E in H. lia. }
  pose proof (clamp_rung_mono _ _ Hf). pose proof (clamp_rung_mono 0 (ladder_size s - 1)). lia.
Qed.
End Range.

Lemma lockout_ceiling_le s now lo hi : ((lockout_ceiling_rung s now lo hi).1 <= hi)%nat.
Proof.
  unfold lockout_ceiling_rung, first_locked. destruct (list_find _ _) as [[j r]|] eqn:E; simpl; [|lia].
  apply list_find_Some in E as (E & _ & _). apply lookup_seq in E. case_decide; simpl; lia.
Qed.
Lemma adaptive_hi_le s now lo hi : (adaptive_hi s now lo hi <= hi)%nat.
Proof.
  unfold adaptive_hi. pose proof (lockout_ceiling_le s now lo hi). destruct (lockout_ceiling_rung s now lo hi) as [c []]; simpl in *; lia.
Qed.
(** Where the lockouts leave room, no rung up to the adaptive ceiling is locked. *)
Lemma adaptive_hi_unlocked s now lo hi r : (lockout_ceiling_rung s now lo hi).2 = false ->
  (r <= adaptive_hi s now lo hi)%nat -> rung_locked s r now = false.
Proof.
  unfold adaptive_hi, lockout_ceiling_rung, first_locked.
  set (l := seq 0 _). destruct (list_find _ l) as [[j x]|] eqn:E; simpl.
  - apply list_find_Some in E as (E & Hx & Hmin). unfold l in *. pose proof E as E'. apply lookup_seq in E as [-> Hj].
    case_decide; [done|]. simpl. intros _ Hr. simpl in *.
    apply not_true_iff_false. apply (Hmin r r); [|lia]. apply lookup_seq. lia.
  - intros _ Hr. apply list_find_None in E. rewrite Nat.min_id in Hr.
    destruct (decide (r < length (rung_loss_ (loss s)))%nat).
    + rewrite Forall_forall in E. apply not_true_iff_false, E. unfold l. apply elem_of_seq. lia.
    + unfold rung_locked. by rewrite (lookup_ge_None_2 _ r) by lia.
Qed.

(** ** What an operation may do to the shape *)
Definition same_frame (s s' : Selector) : Prop :=
  s'.(table_) = s.(table_) /\ s'.(policy_) = s.(policy_) /\
  length s'.(loss).(rung_loss_) = length s.(loss).(rung_loss_) /\
  length s'.(flap).(demoted_from_ms_) = length s.(flap).(demoted_from_ms_) /\
  length s'.(flap).(promoted_into_ms_) = length s.(flap).(promoted_into_ms_).
#[export] Instance same_frame_po : PreOrder same_frame.
Proof. split; [done|]. intros a b c (?&?&?&?&?) (?&?&?&?&?). unfold same_frame. by split_and!; etrans. Qed.

Lemma same_frame_ladder s s' : same_frame s s' -> ladder s' = ladder s.
Proof. intros (H & _). unfold ladder. by rewrite H. Qed.
Lemma same_frame_size s s' : same_frame s s' -> ladder_size s' = ladder_size s.
Proof. intros H. unfold ladder_size. by rewrite (same_frame_ladder _ _ H). Qed.
Lemma same_frame_clamp s s' r : same_frame s s' -> clamp_rung s' r = clamp_rung s r.
Proof.
  intros H. pose proof H as (_ & Hp & _). unfold clamp_rung, rung_of_id, index_of_id.
  by rewrite (same_frame_size _ _ H), (same_frame_ladder _ _ H), Hp.
Qed.
Lemma same_frame_floor s s' : same_frame s s' -> safe_floor_rung s' = safe_floor_rung s.
Proof.
  intros H. pose proof H as (Ht & _). unfold safe_floor_rung, floor_rung, rung_of_id, index_of_id.
  by rewrite !(same_frame_clamp _ _ _ H), (same_frame_ladder _ _ H), Ht.
Qed.
Lemma same_frame_target s s' p : same_frame s s' -> target_bitrate s' p = target_bitrate s p.
Proof. intros (_ & Hp & _). unfold target_bitrate. by rewrite Hp. Qed.
(** The shape follows when the rungs do. *)
Lemma shaped_step s s' : shaped s -> same_frame s s' ->
  (ladder_size s <> 0%nat -> (s'.(op).(rung_) < ladder_size s)%nat) ->
  (ladder_size s <> 0%nat -> (s'.(op).(pending_target_) < ladder_size s)%nat) -> shaped s'.
Proof.
  intros [] H Hr Hp. pose proof (same_frame_size _ _ H) as Hs. destruct H as (_ & Hpol & ? & ? & ?).
  split; rewrite ?Hs; try congruence; auto.
Qed.
Lemma shaped_same_op s s' : shaped s -> same_frame s s' -> s'.(op).(rung_) = s.(op).(rung_) ->
  s'.(op).(pending_target_) = s.(op).(pending_target_) -> shaped s'.
Proof. intros H Hf Hr Hp. pose proof H as []. by apply (shaped_step s); rewrite ?Hr, ?Hp. Qed.

(** ** The transitions *)
Ltac frame := unfold same_frame, mark_vacated; cbn -[insert alter map imap length]; rewrite ?length_map, ?length_alter, ?length_insert, ?length_imap; by split_and!.

(** The action that reports a new bitrate. *)
Definition bitrate_action (old new : Z) (a : SelectorActions) : SelectorActions :=
  if new =? old then a else MkSelectorActions a.(sa_commit) (Some new).
Lemma move_bitrate_spec s p a : exists s',
  move_bitrate s p a = (s', bitrate_action s.(op).(bitrate_kbps_) (target_bitrate s p) a) /\
  same_frame s s' /\ s'.(intake) = s.(intake) /\ s'.(guards) = s.(guards) /\
  s'.(op) = MkOperating s.(op).(rung_) s.(op).(phase_) s.(op).(pending_target_) s.(op).(phase_deadline_ms_) s.(op).(last_change_ms_)
    s.(op).(last_demote_ms_) (target_bitrate s p) s.(op).(state_) s.(op).(reason_).
Proof.
  unfold move_bitrate, bitrate_action. destruct (Z.eqb_spec (target_bitrate s p) (bitrate_kbps_ (op s))) as [E|E].
  - exists s. split_and!; try done. rewrite E. by destruct (op s).
  - eexists. split; [done|]. split_and!; done.
Qed.

Lemma charge_lockout_frame s rung now : same_frame s (charge_lockout s rung now) /\
  (charge_lockout s rung now).(op) = s.(op) /\ (charge_lockout s rung now).(intake) = s.(intake) /\
  (charge_lockout s rung now).(guards) = s.(guards) /\ (charge_lockout s rung now).(flap) = s.(flap).
Proof.
  unfold charge_lockout. destruct (_ !! rung); [|done]. case_match; [done|]. split_and!; try done. frame.
Qed.

Lemma note_demote_spec s now : (s.(op).(rung_) < length s.(flap).(promoted_into_ms_))%nat ->
  exists s', note_demote_for_flap s now = Some s' /\ same_frame s s' /\ s'.(op) = s.(op) /\ s'.(intake) = s.(intake) /\ s'.(guards) = s.(guards).
Proof.
  intros H. unfold note_demote_for_flap. destruct (lookup_lt_is_Some_2 _ _ H) as [t ->]. simpl.
  destruct (len _ >=? _); eexists; (split; [done|]); split_and!; try done; frame.
Qed.

Lemma start_demote_spec s target now a reason charge p :
  shaped s -> ladder s !! target = Some p -> exists s',
  start_demote s target now a reason charge =
    Some (s', bitrate_action s.(op).(bitrate_kbps_) (target_bitrate s p) a) /\
  same_frame s s' /\ s'.(intake) = s.(intake) /\ s'.(guards) = s.(guards) /\
  s'.(op) = MkOperating s.(op).(rung_) kBitrateLead target (to_u64 (now + s.(policy_).(bitrate_lead_ms))) s.(op).(last_change_ms_)
    now (target_bitrate s p) "DEMOTE" reason.
Proof.
  intros [] Hp. apply lookup_lt_Some in Hp as Hlt. fold (ladder_size s) in Hlt. unfold start_demote.
  set (s1 := if charge then _ else _).
  assert (H1 : same_frame s s1 /\ s1.(op) = s.(op) /\ s1.(intake) = s.(intake) /\ s1.(guards) = s.(guards) /\ s1.(flap) = s.(flap)).
  { unfold s1. destruct charge; [|done].
    destruct (charge_lockout_frame (with_probe s kNoProbe 0) (rung_ (op s)) now) as (? & ? & ? & ? & ?). done. }
  destruct H1 as (F1 & O1 & I1 & G1 & L1).
  destruct (note_demote_spec s1 now) as (s2 & -> & F2 & O2 & I2 & G2).
  { rewrite O1, L1, sh_promoted0. apply sh_rung0. lia. }
  cbn [mbind option_bind].
  set (s3 := set_op _ _).
  assert (F3 : same_frame s s3).
  { etrans; [exact F1|]. etrans; [exact F2|]. unfold s3. frame. }
  rewrite (same_frame_ladder _ _ F3), Hp. cbn [mbind option_bind].
  destruct (move_bitrate_spec s3 p a) as (s4 & -> & F4 & I4 & G4 & O4).
  exists s4. rewrite (same_frame_target _ _ _ F3) in *. split_and!.
  - unfold s3; cbn. rewrite O2, O1. done.
  - by etrans.
  - rewrite I4. unfold s3; cbn. congruence.
  - rewrite G4. unfold s3; cbn. congruence.
  - rewrite O4. unfold s3; cbn. rewrite O2, O1. destruct F1 as (_ & P1 & _), F2 as (_ & P2 & _). by rewrite P2, P1.
Qed.

Lemma start_promote_spec s target now a reason p : shaped s -> ladder s !! target = Some p -> exists s',
  start_promote s target now a reason = Some (s', MkSelectorActions (Some (commit_of p)) a.(sa_bitrate_kbps)) /\
  same_frame s s' /\ s'.(intake) = s.(intake) /\ s'.(guards) = s.(guards) /\
  s'.(op) = MkOperating target kMcsGrace target (to_u64 (now + s.(policy_).(mcs_up_grace_ms))) now s.(op).(last_demote_ms_)
    s.(op).(bitrate_kbps_) "PROMOTE" reason.
Proof.
  intros [] Hp. apply lookup_lt_Some in Hp as Hlt. fold (ladder_size s) in Hlt. unfold start_promote.
  destruct (lookup_lt_is_Some_2 (promoted_into_ms_ (flap s)) target) as [t Ht]; [lia|].
  cbn. rewrite Ht. cbn.
  set (s1 := set_op _ _). assert (F1 : same_frame s s1) by (unfold s1; frame).
  change (ladder s1) with (ladder s). rewrite Hp. cbn. exists s1. split_and!; done.
Qed.

Lemma snap_spec s target now a p : ladder s !! target = Some p -> exists s',
  snap s target now a =
    Some (s', bitrate_action s.(op).(bitrate_kbps_) (target_bitrate s p) (MkSelectorActions (Some (commit_of p)) a.(sa_bitrate_kbps))) /\
  same_frame s s' /\ s'.(intake) = s.(intake) /\ s'.(guards) = s.(guards) /\
  s'.(op) = MkOperating target s.(op).(phase_) s.(op).(pending_target_) s.(op).(phase_deadline_ms_) now s.(op).(last_demote_ms_)
    (target_bitrate s p) s.(op).(state_) kRepin.
Proof.
  intros Hp. unfold snap. set (s1 := set_op _ _). assert (F1 : same_frame s s1) by (unfold s1; frame).
  change (ladder s1) with (ladder s). rewrite Hp. cbn [mbind option_bind].
  destruct (move_bitrate_spec s1 p (MkSelectorActions (Some (commit_of p)) a.(sa_bitrate_kbps))) as (s2 & -> & F2 & I2 & G2 & O2).
  exists s2. split_and!; done.
Qed.

Lemma margin_met_some s now : shaped s -> (S s.(op).(rung_) < ladder_size s)%nat -> is_Some (margin_met s now).
Proof.
  intros [] H. unfold margin_met. rewrite sh_floors0.
  destruct (lookup_lt_is_Some_2 (rung_rssi_floor_dbm (policy_ s)) (Nat.min (S (rung_ (op s))) (8 - 1))) as [f ->]; [lia|].
  cbn [mbind option_bind].
  destruct (lookup_lt_is_Some_2 (demoted_from_ms_ (flap s)) (S (rung_ (op s)))) as [d ->]; [lia|].
  by eexists.
Qed.

Open Scope Z_scope.

Inductive Move : Type :=
| MStay                                        (** no rung, phase or bitrate changes *)
| MBoot                                        (** the first operating point *)
| MLand                                        (** the rate follows a bitrate that led *)
| MGrace                                       (** the bitrate follows a rate that led *)
| MSnap (target : nat)                         (** a pin moves rate and bitrate together *)
| MDemote (target : nat) (reason : SelectorReason)
| MClimb (target : nat) (reason : SelectorReason).

(** ** Evidence *)
Section Evidence.
Context (s : Selector) (now : Z).
Definition pin_lo : nat := clamp_rung s 0.
Definition pin_hi : nat := clamp_rung s (ladder_size s - 1).
Definition above_floor : bool := bool_decide (safe_floor_rung s < s.(op).(rung_))%nat.
Definition emergency_here : bool :=
  s.(loss).(emergency_pending_) && bool_decide (s.(loss).(loss_observed_rung_) = s.(op).(rung_)).
(** Rules 1 to 4. *)
Definition demote_due : bool :=
  above_floor && (emergency_here || demote_ok s now && (persistent_loss s || rssi_floor_hit s || rssi_fading s)).
Definition ceiling : nat := adaptive_hi s now pin_lo pin_hi.
(** Rules 5 and 6. *)
Definition climb_due : bool :=
  pressure_escapes s now ceiling || margin_open s now ceiling && bool_decide (margin_met s now = Some true).
Definition climb_vetoed : bool := saturated_fresh s now || probe_veto_fresh s now.
Definition failsafe_due : bool :=
  negb (report_age_ms s now <? to_u32 (s.(policy_).(report_timeout_ms) + s.(policy_).(failsafe_hold_ms))) &&
  above_floor && (now >=? s.(guards).(failsafe_next_step_ms_)).
(** Below the pinned range on fresh feedback, or above it at all. *)
Definition repin_due : bool :=
  bool_decide (pin_hi < s.(op).(rung_))%nat ||
  bool_decide (s.(op).(rung_) < pin_lo)%nat && s.(intake).(have_report_) && (report_age_ms s now <=? s.(policy_).(report_timeout_ms)).

(** A move of the cascade, out of any freeze. *)
Definition idle_warrant (m : Move) : Prop :=
  let rung := s.(op).(rung_) in
  if decide (pin_lo = pin_hi) then m = (if decide (rung = pin_lo) then MStay else MSnap pin_lo)
  else if repin_due then m = MSnap (if decide (pin_hi < rung)%nat then pin_hi else pin_lo)
  else if stale s now then m = (if failsafe_due then MDemote (rung - 1) kReportTimeout else MStay)
  else match m with
  | MStay => demote_due = false /\ (climb_due = true -> climb_vetoed = true)
  | MDemote t reason =>
    above_floor = true /\
    match reason with
    | kLossEmergency => t = safe_floor_rung s /\ emergency_here = true
    | kLossPersistent => t = (rung - 1)%nat /\ emergency_here = false /\ demote_ok s now = true /\ persistent_loss s = true
    | kRssiFloor => t = (rung - 1)%nat /\ emergency_here = false /\ demote_ok s now = true /\ persistent_loss s = false /\ rssi_floor_hit s = true
    | kRssiFade => t = (rung - 1)%nat /\ emergency_here = false /\ demote_ok s now = true /\ persistent_loss s = false /\
                   rssi_floor_hit s = false /\ rssi_fading s = true
    | _ => False
    end
  | MClimb t reason =>
    t = S rung /\ (t <= pin_hi)%nat /\ demote_due = false /\ climb_vetoed = false /\
    rssi_guard_active s = false /\ flap_frozen s now = false /\
    (rung_locked s t now = false \/ (lockout_ceiling_rung s now pin_lo pin_hi).2 = true) /\
    match reason with
    | kBackpressure => pressure_escapes s now ceiling = true
    | kPromote => pressure_escapes s now ceiling = false /\ margin_open s now ceiling = true /\ margin_met s now = Some true
    | _ => False
    end
  | _ => False
  end.
End Evidence.

Definition frozen (s : Selector) (now : Z) : bool :=
  negb (s.(guards).(csa_freeze_until_ms_) =? 0) && (now <? s.(guards).(csa_freeze_until_ms_)).
(** The state the cascade judges: a freeze that has run out excuses its silence. *)
Definition thaw (s : Selector) : Selector := if s.(guards).(csa_freeze_until_ms_) =? 0 then s else end_freeze s.
Definition warranted (s : Selector) (now : Z) (m : Move) : Prop :=
  if decide (ladder_size s = 0%nat) then m = MStay else
  match s.(op).(phase_) with
  | kPhaseBoot => m = MBoot
  | kBitrateLead => m = (if now >=? s.(op).(phase_deadline_ms_) then MLand else MStay)
  | kMcsGrace => m = (if now >=? s.(op).(phase_deadline_ms_) then MGrace else MStay)
  | kPhaseIdle => if frozen s now then m = MStay else idle_warrant (thaw s) now m
  end.

(** ** What a move does *)
Definition moved (o o' : Operating) (rung : nat) (ph : Phase) (pending : nat) (br : Z) : Prop :=
  o'.(rung_) = rung /\ o'.(phase_) = ph /\ o'.(pending_target_) = pending /\ o'.(bitrate_kbps_) = br.
Definition effect (s : Selector) (now : Z) (m : Move) (s' : Selector) (a : SelectorActions) : Prop :=
  let o := s.(op) in let o' := s'.(op) in
  match m with
  | MStay => moved o o' o.(rung_) o.(phase_) o.(pending_target_) o.(bitrate_kbps_) /\
             o'.(phase_deadline_ms_) = o.(phase_deadline_ms_) /\ a = SelectorActions_init
  | MBoot => exists p, ladder s !! o.(rung_) = Some p /\
             moved o o' o.(rung_) kPhaseIdle o.(pending_target_) (target_bitrate s p) /\
             a = MkSelectorActions (Some (commit_of p)) (Some (target_bitrate s p))
  | MLand => exists p, ladder s !! o.(pending_target_) = Some p /\
             moved o o' o.(pending_target_) kPhaseIdle o.(pending_target_) o.(bitrate_kbps_) /\
             a = MkSelectorActions (Some (commit_of p)) None
  | MGrace => exists p, ladder s !! o.(rung_) = Some p /\
             moved o o' o.(rung_) kPhaseIdle o.(pending_target_) (target_bitrate s p) /\
             a = bitrate_action o.(bitrate_kbps_) (target_bitrate s p) SelectorActions_init
  | MSnap t => exists p, ladder s !! t = Some p /\
             moved o o' t kPhaseIdle o.(pending_target_) (target_bitrate s p) /\ o'.(reason_) = kRepin /\
             a = bitrate_action o.(bitrate_kbps_) (target_bitrate s p) (MkSelectorActions (Some (commit_of p)) None)
  | MDemote t r => exists p, ladder s !! t = Some p /\
             moved o o' o.(rung_) kBitrateLead t (target_bitrate s p) /\ o'.(reason_) = r /\
             o'.(phase_deadline_ms_) = to_u64 (now + s.(policy_).(bitrate_lead_ms)) /\
             a = bitrate_action o.(bitrate_kbps_) (target_bitrate s p) SelectorActions_init
  | MClimb t r => exists p, ladder s !! t = Some p /\
             moved o o' t kMcsGrace t o.(bitrate_kbps_) /\ o'.(reason_) = r /\
             o'.(phase_deadline_ms_) = to_u64 (now + s.(policy_).(mcs_up_grace_ms)) /\
             a = MkSelectorActions (Some (commit_of p)) None
  end.

(** ** The rules *)
(** A rule evaluated in [s] makes a move of which [P] holds. *)
Definition outcome (s : Selector) (now : Z) (P : Move -> Prop) (r : option (Selector * SelectorActions)) : Prop :=
  exists s' a m, r = Some (s', a) /\ same_frame s s' /\ P m /\ effect s now m s' a.
Lemma outcome_mono s now (P Q : Move -> Prop) r : (forall m, P m -> Q m) -> outcome s now P r -> outcome s now Q r.
Proof. intros H (s' & a & m & ? & ? & ? & ?). exists s', a, m. auto. Qed.
(** A preparation that touches neither the frame nor the operating point. *)
Lemma outcome_prep s s1 now P r : same_frame s s1 -> s1.(op).(rung_) = s.(op).(rung_) -> s1.(op).(phase_) = s.(op).(phase_) ->
  s1.(op).(pending_target_) = s.(op).(pending_target_) -> s1.(op).(bitrate_kbps_) = s.(op).(bitrate_kbps_) ->
  s1.(op).(phase_deadline_ms_) = s.(op).(phase_deadline_ms_) -> outcome s1 now P r -> outcome s now P r.
Proof.
  intros F Hr Hp Ht Hb Hd (s' & a & m & E & F' & Hm & He). exists s', a, m. split; [done|]. split; [by etrans|]. split; [done|].
  pose proof F as (_ & Hpol & _). unfold effect, moved in *. rewrite Hr, Hp, Ht, Hb, Hd, Hpol in He.
  rewrite (same_frame_ladder _ _ F) in He. destruct m; try exact He;
    destruct He as (p & ? & ?); exists p; rewrite (same_frame_target _ _ p F) in *; done.
Qed.

Lemma demote_outcome s now t r charge (P : Move -> Prop) : shaped s -> (t < ladder_size s)%nat -> P (MDemote t r) ->
  outcome s now P (start_demote s t now SelectorActions_init r charge).
Proof.
  intros Hs Ht HP. destruct (lookup_lt_is_Some_2 (ladder s) t Ht) as [p Hp].
  destruct (start_demote_spec s t now SelectorActions_init r charge p Hs Hp) as (s' & E & F & _ & _ & O).
  eexists s', _, (MDemote t r). split; [exact E|]. split_and!; [done|done|]. exists p. rewrite O. done.
Qed.
Lemma climb_outcome s now t r (P : Move -> Prop) : shaped s -> (t < ladder_size s)%nat -> P (MClimb t r) ->
  outcome s now P (start_promote s t now SelectorActions_init r).
Proof.
  intros Hs Ht HP. destruct (lookup_lt_is_Some_2 (ladder s) t Ht) as [p Hp].
  destruct (start_promote_spec s t now SelectorActions_init r p Hs Hp) as (s' & E & F & _ & _ & O).
  eexists s', _, (MClimb t r). split; [exact E|]. split_and!; [done|done|]. exists p. rewrite O. done.
Qed.
Lemma hold_outcome s now bs bp (P : Move -> Prop) : P MStay -> outcome s now P (Some (hold s now bs bp SelectorActions_init)).
Proof. intros HP. eexists _, _, MStay. split; [done|]. split; [frame|]. done. Qed.

Section Rules.
Context (s : Selector) (now : Z).
Hypothesis Hs : shaped s.
Hypothesis Hn : ladder_size s <> 0%nat.
Local Abbreviation lo := (pin_lo s).
Local Abbreviation hi := (pin_hi s).

Lemma pin_hi_lt : (hi < ladder_size s)%nat.
Proof. by apply clamp_rung_lt. Qed.
Lemma ceiling_hi : (ceiling s now <= hi)%nat.
Proof. apply adaptive_hi_le. Qed.
Lemma below_ceiling : (s.(op).(rung_) < ceiling s now)%nat ->
  (S s.(op).(rung_) <= hi)%nat /\ (S s.(op).(rung_) < ladder_size s)%nat /\
  (rung_locked s (S s.(op).(rung_)) now = false \/ (lockout_ceiling_rung s now lo hi).2 = true).
Proof.
  intros H. pose proof ceiling_hi. pose proof pin_hi_lt. split; [lia|]. split; [lia|].
  destruct (lockout_ceiling_rung s now lo hi).2 eqn:E; [by right|left].
  eapply adaptive_hi_unlocked; [exact E|]. unfold ceiling in H. lia.
Qed.
Lemma demote_target : above_floor s = true -> (s.(op).(rung_) - 1 < ladder_size s)%nat /\ (safe_floor_rung s < ladder_size s)%nat.
Proof. intros H%bool_decide_eq_true. pose proof (sh_rung _ Hs Hn). lia. Qed.

(** The climbing rules when no rule demotes. *)
Definition climb_spec (m : Move) : Prop :=
  match m with
  | MStay => climb_due s now = true -> climb_vetoed s now = true
  | MClimb t reason =>
    t = S s.(op).(rung_) /\ (t <= hi)%nat /\ climb_vetoed s now = false /\
    rssi_guard_active s = false /\ flap_frozen s now = false /\
    (rung_locked s t now = false \/ (lockout_ceiling_rung s now lo hi).2 = true) /\
    match reason with
    | kBackpressure => pressure_escapes s now (ceiling s now) = true
    | kPromote => pressure_escapes s now (ceiling s now) = false /\ margin_open s now (ceiling s now) = true /\ margin_met s now = Some true
    | _ => False
    end
  | _ => False
  end.

Lemma rule_margin_outcome bs bp :
  (pressure_escapes s now (ceiling s now) = true -> climb_vetoed s now = true) ->
  outcome s now climb_spec (rule_margin s now (ceiling s now) bs bp SelectorActions_init).
Proof.
  intros Hpe. unfold rule_margin. destruct (margin_open s now (ceiling s now)) eqn:Eo.
  2:{ apply hold_outcome. simpl. unfold climb_due. rewrite Eo, orb_false_r. done. }
  pose proof Eo as Eo'. unfold margin_open in Eo'. repeat (apply andb_true_iff in Eo' as [Eo' ?]).
  apply bool_decide_eq_true in Eo'. destruct (below_ceiling Eo') as (Hhi & Hlt & Hlock).
  destruct (margin_met_some s now Hs Hlt) as [met Em]. rewrite Em. cbn [mbind option_bind].
  destruct met.
  2:{ apply hold_outcome. simpl. unfold climb_due. rewrite Em, Eo, (bool_decide_false (Some false = Some true)), orb_false_r by done. done. }
  destruct (saturated_fresh s now) eqn:Esat; [apply hold_outcome; simpl; unfold climb_vetoed; by rewrite Esat|].
  destruct (probe_veto_fresh s now) eqn:Epr; [apply hold_outcome; simpl; unfold climb_vetoed; by rewrite Epr, orb_true_r|].
  assert (Hv : climb_vetoed s now = false) by (unfold climb_vetoed; by rewrite Esat, Epr).
  apply climb_outcome; [done|done|]. simpl. split_and!; try done.
  - by apply negb_true_iff.
  - by apply negb_true_iff.
  - apply not_true_iff_false. intros H'. apply Hpe in H'. congruence.
Qed.

Lemma climb_rules_outcome : outcome s now climb_spec (climb_rules s now lo hi SelectorActions_init).
Proof.
  unfold climb_rules. fold (ceiling s now). destruct (pressure_escapes s now (ceiling s now)) eqn:Ep.
  2:{ apply rule_margin_outcome. congruence. }
  destruct (saturated_fresh s now) eqn:Esat; [apply rule_margin_outcome; intros _; unfold climb_vetoed; by rewrite Esat|].
  destruct (probe_veto_fresh s now) eqn:Epr; [apply rule_margin_outcome; intros _; unfold climb_vetoed; by rewrite Epr, orb_true_r|].
  pose proof Ep as Ep'. unfold pressure_escapes in Ep'. repeat (apply andb_true_iff in Ep' as [Ep' ?]).
  destruct (below_ceiling ltac:(by eapply bool_decide_eq_true)) as (Hhi & Hlt & Hlock).
  apply (outcome_prep s (with_last_demote s now)); try done.
  apply climb_outcome; [by apply (shaped_same_op s)|done|]. simpl. split_and!; try done.
  - unfold climb_vetoed. by rewrite Esat, Epr.
  - by apply negb_true_iff.
  - by apply negb_true_iff.
Qed.

(** Rules 2 to 7. *)
Definition demote_spec (m : Move) : Prop :=
  let calm := above_floor s && (demote_ok s now && (persistent_loss s || rssi_floor_hit s || rssi_fading s)) in
  match m with
  | MStay | MClimb _ _ => calm = false /\ climb_spec m
  | MDemote t reason =>
    above_floor s = true /\ t = (s.(op).(rung_) - 1)%nat /\ demote_ok s now = true /\
    match reason with
    | kLossPersistent => persistent_loss s = true
    | kRssiFloor => persistent_loss s = false /\ rssi_floor_hit s = true
    | kRssiFade => persistent_loss s = false /\ rssi_floor_hit s = false /\ rssi_fading s = true
    | _ => False
    end
  | _ => False
  end.
Lemma demote_rules_outcome : outcome s now demote_spec (demote_rules s now lo hi (safe_floor_rung s) SelectorActions_init).
Proof.
  unfold demote_rules. fold (above_floor s).
  destruct (demote_ok s now) eqn:Ed; [|rewrite !andb_false_l].
  2:{ eapply outcome_mono; [|apply climb_rules_outcome]. intros m Hm. unfold demote_spec. rewrite Ed, andb_false_l, andb_false_r.
      destruct m; done. }
  rewrite !andb_true_l. destruct (above_floor s) eqn:Ea; [|rewrite !andb_false_r].
  2:{ eapply outcome_mono; [|apply climb_rules_outcome]. intros m Hm. unfold demote_spec. rewrite Ea. destruct m; done. }
  rewrite !andb_true_r. destruct (demote_target Ea) as [Ht _].
  destruct (persistent_loss s) eqn:E1; [apply demote_outcome; by simpl|].
  destruct (rssi_floor_hit s) eqn:E2; [apply demote_outcome; by simpl|].
  destruct (rssi_fading s) eqn:E3.
  - apply (outcome_prep s (with_fade_ticks s 0)); try done. apply demote_outcome; [by apply (shaped_same_op s)|done|]. by simpl.
  - eapply outcome_mono; [|apply climb_rules_outcome]. intros m Hm. unfold demote_spec. rewrite Ea, Ed, E1, E2, E3. destruct m; done.
Qed.
End Rules.

(** ** The cascade *)
(** Consuming the pending event changes nothing the other rules read. *)
Lemma demote_spec_take_emergency s now m : demote_spec (take_emergency s) now m <-> demote_spec s now m.
Proof. unfold take_emergency. by case_decide. Qed.
Lemma take_emergency_frame s : same_frame s (take_emergency s) /\
  (take_emergency s).(op).(rung_) = s.(op).(rung_) /\ (take_emergency s).(op).(phase_) = s.(op).(phase_) /\
  (take_emergency s).(op).(pending_target_) = s.(op).(pending_target_) /\
  (take_emergency s).(op).(bitrate_kbps_) = s.(op).(bitrate_kbps_) /\
  (take_emergency s).(op).(phase_deadline_ms_) = s.(op).(phase_deadline_ms_).
Proof. unfold take_emergency. case_decide; (split_and!; [|done..]; frame). Qed.

Section Cascade.
Context (s : Selector) (now : Z).
Hypothesis Hs : shaped s.
Hypothesis Hn : ladder_size s <> 0%nat.

Lemma cascade_outcome : pin_lo s <> pin_hi s -> repin_due s now = false -> stale s now = false ->
  outcome s now (idle_warrant s now) (cascade s now (pin_lo s) (pin_hi s) (safe_floor_rung s) SelectorActions_init).
Proof.
  intros Hp Hr Hst.
  assert (Hcalm : emergency_here s && above_floor s = false -> forall m, demote_spec s now m -> idle_warrant s now m).
  { intros He m Hm. unfold idle_warrant. rewrite decide_False, Hr, Hst by done.
    assert (Hd : demote_due s now = above_floor s && (demote_ok s now && (persistent_loss s || rssi_floor_hit s || rssi_fading s))).
    { unfold demote_due. destruct (above_floor s); simpl; [|done]. rewrite andb_true_r in He. by rewrite He. }
    destruct m; try done; simpl in Hm; rewrite ?Hd.
    - destruct Hm as [-> Hm]. done.
    - destruct Hm as (Ha & Ht & Hok & Hm). rewrite Ha, andb_true_r in He. split; [done|]. destruct reason; try done; tauto.
    - destruct Hm as [-> Hm]. tauto. }
  destruct (take_emergency_frame s) as (F & E1 & E2 & E3 & E4 & E5).
  unfold cascade. destruct (emergency_pending_ (loss s)) eqn:Ee.
  2:{ eapply outcome_mono; [|by apply demote_rules_outcome]. apply Hcalm. unfold emergency_here. by rewrite Ee. }
  rewrite E1. fold (above_floor s). destruct (bool_decide (loss_observed_rung_ (loss s) = rung_ (op s)) && above_floor s) eqn:Eh.
  - apply andb_true_iff in Eh as [Eo Ea]. destruct (demote_target s Hs Hn Ea) as [_ Ht].
    apply (outcome_prep s (take_emergency s)); try done.
    apply demote_outcome; [by apply (shaped_same_op s)|by rewrite (same_frame_size _ _ F)|].
    unfold idle_warrant. rewrite decide_False, Hr, Hst by done. split; [done|]. split; [done|]. unfold emergency_here. by rewrite Ee.
  - apply (outcome_prep s (take_emergency s)); try done.
    eapply outcome_mono; [intros m Hm; apply Hcalm; [unfold emergency_here; by rewrite Ee|by apply demote_spec_take_emergency, Hm]|].
    unfold pin_lo, pin_hi. rewrite <- (same_frame_clamp _ _ _ F), <- (same_frame_size _ _ F), <- (same_frame_clamp _ _ _ F),
      <- (same_frame_floor _ _ F).
    apply demote_rules_outcome; [by apply (shaped_same_op s)|by rewrite (same_frame_size _ _ F)].
Qed.

Lemma failsafe_outcome : outcome s now (fun m => m = (if failsafe_due s now then MDemote (s.(op).(rung_) - 1) kReportTimeout else MStay))
  (failsafe s now (safe_floor_rung s) SelectorActions_init).
Proof.
  unfold failsafe, failsafe_due. cbn [policy_ op rung_ guards with_state set_op].
  change (report_age_ms (with_state s "FAILSAFE") now) with (report_age_ms s now). fold (above_floor s).
  assert (Hstay : forall P : Move -> Prop, P MStay -> outcome s now P (Some (with_state s "FAILSAFE", SelectorActions_init))).
  { intros P HP. eexists _, _, MStay. split; [done|]. split; [frame|]. done. }
  destruct (_ <? _); [by apply Hstay|]. cbn [negb]. rewrite andb_true_l.
  destruct (above_floor s && _) eqn:E; [|by apply Hstay].
  apply andb_true_iff in E as [Ea _]. destruct (demote_target s Hs Hn Ea) as [Ht _].
  apply (outcome_prep s (with_failsafe_next (with_state s "FAILSAFE") (to_u64 (now + failsafe_step_ms (policy_ s))))); try done.
  apply demote_outcome; [|done|done]. by apply (shaped_same_op s).
Qed.

Lemma snap_outcome s0 t st (P : Move -> Prop) : same_frame s s0 -> s0.(op).(phase_) = kPhaseIdle ->
  s0.(op).(pending_target_) = s.(op).(pending_target_) -> s0.(op).(bitrate_kbps_) = s.(op).(bitrate_kbps_) ->
  (t < ladder_size s)%nat -> P (MSnap t) ->
  outcome s now P ('(s', a) ← snap s0 t now SelectorActions_init; Some (with_state s' st, a)).
Proof.
  intros F Hph Hpe Hbr Ht HP. destruct (lookup_lt_is_Some_2 (ladder s) t Ht) as [p Hp].
  destruct (snap_spec s0 t now SelectorActions_init p) as (s1 & E & F1 & _ & _ & O); [by rewrite (same_frame_ladder _ _ F)|].
  rewrite E. cbn [mbind option_bind]. eexists _, _, (MSnap t). split; [done|]. split; [|split; [done|]].
  - etrans; [exact F|]. etrans; [exact F1|]. frame.
  - exists p. cbn. rewrite O. unfold moved. cbn. rewrite (same_frame_target _ _ _ F), Hph, Hpe, Hbr. done.
Qed.

Lemma evaluate_open_outcome : s.(op).(phase_) = kPhaseIdle ->
  outcome s now (idle_warrant s now) (evaluate_open s now SelectorActions_init).
Proof.
  intros Hph. pose proof (pin_hi_lt s Hn). pose proof (clamp_rung_lt s Hn 0) as Hlo.
  unfold evaluate_open. fold (pin_lo s) (pin_hi s) in *. destruct (decide (pin_lo s = pin_hi s)) as [Ep|Ep].
  - destruct (decide (rung_ (op s) = pin_lo s)) as [Er|Er].
    + eexists _, _, MStay. split; [done|]. split; [frame|]. split; [|done].
      unfold idle_warrant. by rewrite !decide_True by done.
    + assert (W : idle_warrant s now (MSnap (pin_lo s))) by (unfold idle_warrant; rewrite decide_True, decide_False by done; done).
      destruct (lookup_lt_is_Some_2 (ladder s) _ Hlo) as [p Hp].
      destruct (snap_spec (with_state s "PINNED") (pin_lo s) now SelectorActions_init p Hp) as (s1 & E & F1 & _ & _ & O).
      eexists _, _, (MSnap (pin_lo s)). split; [exact E|]. split; [etrans; [|exact F1]; frame|]. split; [done|].
      exists p. rewrite O. unfold moved. cbn. by rewrite Hph.
  - fold (repin_due s now). destruct (repin_due s now) eqn:Er.
    + apply snap_outcome; try done; [case_decide; lia|]. unfold idle_warrant. by rewrite decide_False, Er by done.
    + destruct (stale s now) eqn:Est; [|by apply cascade_outcome].
      eapply outcome_mono; [|apply failsafe_outcome]. intros m ->. unfold idle_warrant. by rewrite decide_False, Er, Est by done.
Qed.
End Cascade.

Lemma thaw_frame s : same_frame s (thaw s) /\ (thaw s).(op) = s.(op).
Proof. unfold thaw, end_freeze. destruct (_ =? 0); [done|]. destruct (_ && _); (split; [frame|done]). Qed.

Lemma effect_shaped s now m s' a : shaped s -> same_frame s s' -> effect s now m s' a -> shaped s'.
Proof.
  intros Hs F He. pose proof Hs as [].
  assert (Hl : forall t p, ladder s !! t = Some p -> (t < ladder_size s)%nat) by (intros t p Ht; by eapply lookup_lt_Some).
  destruct m; simpl in He; [destruct He as ((Hr & _ & Hp & _) & _)|destruct He as (p & Hp' & (Hr & _ & Hp & _) & _)..];
    apply (shaped_step s); try done; rewrite ?Hr, ?Hp; auto; intros _; by eapply Hl.
Qed.

Lemma tick_outcome s now : shaped s -> outcome s now (warranted s now) (tick s now).
Proof.
  intros Hs. unfold tick, warranted. destruct (decide (ladder_size s = 0%nat)) as [Hz|Hn].
  { by exists s, SelectorActions_init, MStay. }
  pose proof (sh_rung _ Hs Hn) as Hr. pose proof (sh_pending _ Hs Hn) as Hpe.
  destruct (lookup_lt_is_Some_2 (ladder s) _ Hr) as [p Hp]. destruct (lookup_lt_is_Some_2 (ladder s) _ Hpe) as [q Hq].
  assert (Hwait : outcome s now (eq MStay) (Some (s, SelectorActions_init))) by (by exists s, SelectorActions_init, MStay).
  destruct (phase_ (op s)) eqn:Ephase.
  - rewrite Hp. cbn [mbind option_bind]. eexists _, _, MBoot. split; [done|]. split; [frame|]. split; [done|]. by exists p.
  - unfold evaluate, frozen. destruct (thaw_frame s) as [F O]. unfold thaw in *.
    destruct (csa_freeze_until_ms_ (guards s) =? 0) eqn:Ez; simpl.
    + by apply evaluate_open_outcome.
    + destruct (now <? csa_freeze_until_ms_ (guards s)) eqn:Ef.
      * eexists _, _, MStay. split; [done|]. split; [frame|]. done.
      * apply (outcome_prep s (end_freeze s)); [done|by rewrite O..|].
        apply evaluate_open_outcome; [by apply (shaped_same_op s); rewrite ?O|by rewrite (same_frame_size _ _ F)|by rewrite O].
  - destruct (now >=? phase_deadline_ms_ (op s)); [|eapply outcome_mono; [|exact Hwait]; by intros m <-].
    rewrite Hq. cbn [mbind option_bind]. eexists _, _, MLand. split; [done|]. split; [frame|]. split; [done|]. by exists q.
  - destruct (now >=? phase_deadline_ms_ (op s)); [|eapply outcome_mono; [|exact Hwait]; by intros m <-].
    rewrite Hp. cbn [mbind option_bind].
    destruct (move_bitrate_spec (enter_idle s (rung_ (op s)) (last_change_ms_ (op s)) (state_ (op s))) p SelectorActions_init)
      as (s1 & E & F1 & _ & _ & O).
    rewrite E. eexists _, _, MGrace. split; [done|]. split; [etrans; [|exact F1]; frame|]. split; [done|].
    exists p. rewrite O. done.
Qed.
Lemma tick_moves s now : shaped s -> exists s' a m,
  tick s now = Some (s', a) /\ shaped s' /\ same_frame s s' /\ warranted s now m /\ effect s now m s' a.
Proof.
  intros Hs. destruct (tick_outcome s now Hs) as (s' & a & m & E & F & W & H). exists s', a, m.
  split_and!; try done. by eapply effect_shaped.
Qed.
