(* ===== verification/SelectorProps.v ===== *)
(** * Theorems about the selector

    Every tick is one move the documented cascade warrants; the caller's rate
    and bitrate agree with the selector and never oversubscribe a rung; the pins
    and the safe floor bound the rung; a silent link descends to the floor. *)
From Stdlib Require Import String.
From S2P Require Import Prelude Types Wire Table McsProbe Double Selector SelectorSpec.
Open Scope Z_scope.

(** ** Runs *)
Inductive SelEvent : Type :=
| SReport (r : LinkReport) (now : Z)
| SVerdict (verdict now : Z)
| SPressure (on : bool) (now : Z)
| SEnvironment (channel_mhz bw now : Z)
| SFreeze (until : Z)
| SPin (mn mx : Z)
| STick (now : Z).
Definition sel_step (s : Selector) (e : SelEvent) : option (Selector * SelectorActions) :=
  match e with
  | SReport r now => Some ((on_report s r now).1, SelectorActions_init)
  | SVerdict v now => Some (on_verdict s v now, SelectorActions_init)
  | SPressure on now => Some (set_pressure s on now, SelectorActions_init)
  | SEnvironment ch bw now => Some ((on_rf_environment s ch bw now).1, SelectorActions_init)
  | SFreeze until => Some (csa_freeze s until, SelectorActions_init)
  | SPin mn mx => Some (set_profile_pin s mn mx, SelectorActions_init)
  | STick now => tick s now
  end.
(** What the caller has actuated: the last commit and the last bitrate. *)
Definition Radio : Type := option ProfileCommit * option Z.
Definition actuate (r : Radio) (a : SelectorActions) : Radio :=
  (match a.(sa_commit) with Some c => Some c | None => r.1 end,
   match a.(sa_bitrate_kbps) with Some b => Some b | None => r.2 end).
Fixpoint sel_run (s : Selector) (r : Radio) (l : list SelEvent) : option (Selector * Radio) :=
  match l with
  | [] => Some (s, r)
  | e :: l => '(s, a) ← sel_step s e; sel_run s (actuate r a) l
  end.

(** An input changes neither the table nor the operating point. *)
Definition quiet (s s' : Selector) : Prop :=
  s'.(table_) = s.(table_) /\ s'.(policy_).(max_bitrate_kbps) = s.(policy_).(max_bitrate_kbps) /\
  s'.(op).(rung_) = s.(op).(rung_) /\ s'.(op).(phase_) = s.(op).(phase_) /\
  s'.(op).(pending_target_) = s.(op).(pending_target_) /\ s'.(op).(bitrate_kbps_) = s.(op).(bitrate_kbps_) /\
  s'.(op).(phase_deadline_ms_) = s.(op).(phase_deadline_ms_).
#[export] Instance quiet_po : PreOrder quiet.
Proof. split; [done|]. intros a b c (?&?&?&?&?&?&?) (?&?&?&?&?&?&?). unfold quiet. split_and!; by etrans. Qed.

Lemma reset_environment_quiet s now : same_frame s (reset_environment_state s now) /\ quiet s (reset_environment_state s now).
Proof. unfold reset_environment_state. split; [frame|done]. Qed.
Lemma take_identity_quiet s id now : same_frame s (take_identity s id now) /\ quiet s (take_identity s id now).
Proof.
  unfold take_identity. case_decide; [by split|].
  destruct (reset_environment_quiet (set_intake s (MkIntake (Some id) 0 s.(intake).(last_report_ms_) false s.(intake).(have_smoothing_)
    s.(intake).(rssi_ewma_) s.(intake).(loss_ewma_milli_) s.(intake).(slope_ewma_) s.(intake).(prev_rssi_) s.(intake).(prev_report_ms_)
    s.(intake).(fade_ticks_))) now) as [F Q].
  destruct (bool_decide _); split; done.
Qed.
Lemma on_report_quiet s r now : same_frame s (on_report s r now).1 /\ quiet s (on_report s r now).1.
Proof.
  unfold on_report. destruct (take_identity_quiet s (r.(lr_prefix).(originator), r.(lr_prefix).(session_id)) now) as [F Q].
  set (s1 := take_identity _ _ _) in *. destruct (_ && _); [done|]. simpl.
  destruct (negb _); (split; [etrans; [exact F|]; unfold classify; destruct (_ && _); frame|done]).
Qed.
Lemma on_rf_environment_quiet s ch bw now : same_frame s (on_rf_environment s ch bw now).1 /\ quiet s (on_rf_environment s ch bw now).1.
Proof.
  unfold on_rf_environment. destruct (rf_environment_ _) as [env|]; [|done]. case_decide; [done|]. simpl.
  set (s1 := set_guards s _). destruct (reset_environment_quiet s1 now) as [F Q]. by split.
Qed.
Lemma sel_step_quiet s e : (forall now, e <> STick now) -> shaped s -> exists s',
  sel_step s e = Some (s', SelectorActions_init) /\ quiet s s' /\ shaped s' /\ ((forall mn mx, e <> SPin mn mx) -> same_frame s s').
Proof.
  intros Ht Hs. destruct e as [r now|v now|on now|ch bw now|until|mn mx|now]; [..|by edestruct Ht]; eexists; (split; [done|]).
  1: destruct (on_report_quiet s r now) as [F Q]. 4: destruct (on_rf_environment_quiet s ch bw now) as [F Q].
  1, 4: (split; [done|]; split; [|done]; destruct Q as (_ & _ & ? & _ & ? & _); by apply (shaped_same_op s)).
  1, 2: split_and!; try done; by apply (shaped_same_op s).
  - unfold csa_freeze. destruct (_ >? _); split_and!; try done; by apply (shaped_same_op s).
  - split_and!; try done; [by destruct Hs|]. by intros H; edestruct H.
Qed.

(** ** Rate and bitrate *)
(** What the caller runs is what the selector says; between moves the bitrate
    is that of the rung, during a move that of the lower rung. *)
Definition paced (s : Selector) (r : Radio) : Prop :=
  match s.(op).(phase_) with
  | kPhaseBoot => True
  | ph => exists p, ladder s !! s.(op).(rung_) = Some p /\ r = (Some (commit_of p), Some s.(op).(bitrate_kbps_)) /\
    match ph with
    | kBitrateLead => (s.(op).(pending_target_) < s.(op).(rung_))%nat /\
        exists q, ladder s !! s.(op).(pending_target_) = Some q /\ s.(op).(bitrate_kbps_) = target_bitrate s q
    | kMcsGrace => exists j q, (j < s.(op).(rung_))%nat /\ ladder s !! j = Some q /\ s.(op).(bitrate_kbps_) = target_bitrate s q
    | _ => s.(op).(bitrate_kbps_) = target_bitrate s p
    end
  end.
Lemma quiet_ladder s s' : quiet s s' -> ladder s' = ladder s.
Proof. intros (H & _). unfold ladder. by rewrite H. Qed.
Lemma quiet_target s s' p : quiet s s' -> target_bitrate s' p = target_bitrate s p.
Proof. intros (_ & H & _). unfold target_bitrate. by rewrite H. Qed.
Lemma paced_quiet s s' r : quiet s s' -> paced s r -> paced s' r.
Proof.
  intros Q. pose proof Q as (_ & _ & Hr & Hp & Ht & Hb & _). unfold paced. rewrite Hr, Hp, Ht, Hb, (quiet_ladder _ _ Q).
  destruct (phase_ (op s)); [done| | |].
  - intros (p & ? & ? & E). exists p. by rewrite (quiet_target _ _ _ Q).
  - intros (p & ? & ? & ? & q & ? & E). exists p. split_and!; try done. exists q. by rewrite (quiet_target _ _ _ Q).
  - intros (p & ? & ? & j & q & ? & ? & E). exists p. split_and!; try done. exists j, q. by rewrite (quiet_target _ _ _ Q).
Qed.
Lemma actuate_bitrate c old new a : a.(sa_bitrate_kbps) = None ->
  actuate (Some c, Some old) (bitrate_action old new a) = (match a.(sa_commit) with Some c' => Some c' | None => Some c end, Some new).
Proof.
  intros E. unfold actuate, bitrate_action. destruct (Z.eqb_spec new old) as [->|]; simpl; [|done]. by rewrite E.
Qed.

Section Warrant.
Context (s : Selector) (now : Z) (Hs : shaped s).
Hypothesis Hn : ladder_size s <> 0%nat.
Lemma thaw_rung : (thaw s).(op) = s.(op) /\ pin_lo (thaw s) = pin_lo s /\ pin_hi (thaw s) = pin_hi s /\
  safe_floor_rung (thaw s) = safe_floor_rung s.
Proof.
  destruct (thaw_frame s) as [F O]. unfold pin_lo, pin_hi. rewrite !(same_frame_clamp _ _ _ F), (same_frame_size _ _ F), (same_frame_floor _ _ F).
  done.
Qed.
(** The phase in which a move is made, and where it may lead. *)
Lemma warranted_phase m : warranted s now m ->
  match m with
  | MStay => True
  | MBoot => s.(op).(phase_) = kPhaseBoot
  | MLand => s.(op).(phase_) = kBitrateLead
  | MGrace => s.(op).(phase_) = kMcsGrace
  | MSnap t => s.(op).(phase_) = kPhaseIdle /\ (t = pin_lo s \/ t = pin_hi s) /\ (pin_lo s = pin_hi s \/ repin_due (thaw s) now = true)
  | MDemote t _ => s.(op).(phase_) = kPhaseIdle /\ (safe_floor_rung s <= t < s.(op).(rung_))%nat
  | MClimb t _ => s.(op).(phase_) = kPhaseIdle /\ t = S s.(op).(rung_) /\ (t <= pin_hi s)%nat
  end.
Proof.
  unfold warranted. rewrite decide_False by done. destruct thaw_rung as (O & L & H & Fl).
  destruct (phase_ (op s)) eqn:Ep; try (destruct (now >=? _)); try by intros ->.
  destruct (frozen s now); [by intros ->|]. unfold idle_warrant. rewrite O, L, H, Fl.
  destruct (decide (pin_lo s = pin_hi s)) as [El|El].
  { destruct (decide (_ = pin_lo s)); intros ->; [done|]. split_and!; auto. }
  destruct (repin_due (thaw s) now); [intros ->; split_and!; auto; case_decide; auto|].
  assert (Ha : above_floor (thaw s) = true -> (safe_floor_rung s < rung_ (op s))%nat).
  { intros Ha%bool_decide_eq_true. by rewrite O, Fl in Ha. }
  destruct (stale (thaw s) now).
  { unfold failsafe_due. destruct (above_floor (thaw s)) eqn:Eab; rewrite ?andb_false_r; simpl; [|by intros ->].
    specialize (Ha eq_refl). destruct (negb _ && true && _); intros ->; [|done]. split; [done|lia]. }
  destruct m as [| | | | |t r|t r]; try done.
  - intros [Hab Hr]. specialize (Ha Hab). split; [done|]. destruct r; try done; destruct Hr as [-> _]; lia.
  - intros (-> & ? & _). done.
Qed.
End Warrant.

Lemma paced_tick s now r s' a m : shaped s -> ladder_size s <> 0%nat -> same_frame s s' ->
  warranted s now m -> effect s now m s' a -> paced s r -> paced s' (actuate r a).
Proof.
  intros Hs Hn F W E P. pose proof (same_frame_ladder _ _ F) as Hl. pose proof (warranted_phase s now Hn m W) as Hw.
  assert (Ht : forall p, target_bitrate s' p = target_bitrate s p) by (intros; by apply same_frame_target).
  unfold paced in *. rewrite Hl. destruct m as [| | | |t|t rs|t rs]; simpl in E.
  - destruct E as ((Er & Ep & Epd & Eb) & _ & ->). rewrite Er, Ep, Epd, Eb.
    assert (Ha : actuate r SelectorActions_init = r) by (by destruct r). rewrite Ha.
    destruct (phase_ (op s)); [done| | |].
    + destruct P as (p & ? & ? & ?). exists p. by rewrite Ht.
    + destruct P as (p & ? & ? & ? & q & ? & ?). exists p. split_and!; try done. exists q. by rewrite Ht.
    + destruct P as (p & ? & ? & j & q & ? & ? & ?). exists p. split_and!; try done. exists j, q. by rewrite Ht.
  - destruct E as (p & Hp & (Er & -> & _ & Eb) & ->). rewrite Er, Eb. exists p. by rewrite Ht.
  - destruct E as (p & Hp & (Er & -> & _ & Eb) & ->). rewrite Er, Eb. rewrite Hw in P.
    destruct P as (p0 & _ & -> & _ & q & Hq & Hb). exists p. rewrite Ht. split_and!; try done. congruence.
  - destruct E as (p & Hp & (Er & -> & _ & Eb) & ->). rewrite Er, Eb. rewrite Hw in P.
    destruct P as (p0 & Hp0 & -> & _). exists p. rewrite actuate_bitrate, Ht by done. split_and!; try done. by simplify_eq.
  - destruct E as (p & Hp & (Er & -> & _ & Eb) & _ & ->). rewrite Er, Eb. destruct Hw as [Hw _]. rewrite Hw in P.
    destruct P as (p0 & Hp0 & -> & _). exists p. rewrite actuate_bitrate, Ht by done. done.
  - destruct E as (p & Hp & (Er & -> & Epd & Eb) & _ & _ & ->). rewrite Er, Eb, Epd. destruct Hw as [Hw Hlt]. rewrite Hw in P.
    destruct P as (p0 & Hp0 & -> & _). exists p0. rewrite actuate_bitrate by done. split_and!; try done; [lia|].
    exists p. by rewrite Ht.
  - destruct E as (p & Hp & (Er & -> & Epd & Eb) & _ & _ & ->). rewrite Er, Eb. destruct Hw as (Hw & -> & _). rewrite Hw in P.
    destruct P as (p0 & Hp0 & -> & Hb). exists p. split_and!; try done. exists (rung_ (op s)), p0. rewrite Ht. split_and!; [lia|done|done].
Qed.

(** ** The bounds of the ladder *)
Definition bounded (s : Selector) : Prop :=
  (safe_floor_rung s <= s.(op).(rung_) <= pin_hi s)%nat /\
  (s.(op).(phase_) = kBitrateLead -> (safe_floor_rung s <= s.(op).(pending_target_) <= pin_hi s)%nat).
Lemma bounded_frame s s' : same_frame s s' -> quiet s s' -> bounded s -> bounded s'.
Proof.
  intros F (_ & _ & Hr & Hp & Ht & _). unfold bounded, pin_hi.
  by rewrite (same_frame_floor _ _ F), (same_frame_size _ _ F), (same_frame_clamp _ _ _ F), Hr, Hp, Ht.
Qed.
Lemma bounded_tick s now s' a m : shaped s -> ladder_size s <> 0%nat -> same_frame s s' ->
  warranted s now m -> effect s now m s' a -> bounded s -> bounded s'.
Proof.
  intros Hs Hn F W E [B Bp]. pose proof (warranted_phase s now Hn m W) as Hw. pose proof (safe_floor_range s Hn) as Hf.
  fold (pin_lo s) (pin_hi s) in Hf.
  unfold bounded, pin_hi. rewrite (same_frame_floor _ _ F), (same_frame_size _ _ F), (same_frame_clamp _ _ _ F). fold (pin_hi s).
  destruct m as [| | | |t|t rs|t rs]; simpl in E.
  1: destruct E as ((-> & -> & -> & _) & _); done.
  all: destruct E as (p & Hp & (-> & -> & Epd & _) & _); rewrite ?Epd.
  - done.
  - split; [by apply Bp|done].
  - done.
  - split; [|done]. destruct thaw_rung with (s := s) as (O & L & H & _). destruct Hw as (_ & Ht & [He|Hr]).
    + destruct Ht as [-> | ->]; lia.
    + exfalso. unfold repin_due in Hr. rewrite O, L, H in Hr.
      rewrite !bool_decide_eq_false_2 in Hr by lia. done.
  - split; [done|]. intros _. lia.
  - split; [|done]. lia.
Qed.

(** ** Runs from the constructor *)
Lemma Selector_init_shaped policy table : length policy.(rung_rssi_floor_dbm) = 8%nat ->
  shaped (Selector_init policy table) /\ bounded (Selector_init policy table) /\ paced (Selector_init policy table) (None, None).
Proof.
  intros Hf. unfold Selector_init. set (n := match table with Some t => _ | None => _ end).
  set (s0 := MkSelector _ _ _ _ _ _ _ _). set (s := set_op s0 _).
  assert (Hn : ladder_size s = n) by (unfold ladder_size, ladder, s, n; simpl; by destruct table).
  assert (F : same_frame s0 s) by (unfold s; frame).
  assert (Hr : ladder_size s <> 0%nat -> (safe_floor_rung s <= pin_hi s /\ pin_hi s < ladder_size s)%nat).
  { intros Hz. split; [by apply safe_floor_range|by apply pin_hi_lt]. }
  split_and!; [|split; [|done]|done].
  - split; try (rewrite Hn; unfold s, s0; cbn; by rewrite ?length_replicate); try done.
    + intros Hz. specialize (Hr Hz). change (rung_ (op s)) with (safe_floor_rung s0). rewrite <- (same_frame_floor _ _ F). lia.
    + intros Hz. change (pending_target_ (op s)) with 0%nat. lia.
  - change (rung_ (op s)) with (safe_floor_rung s0). rewrite <- (same_frame_floor _ _ F).
    destruct (decide (ladder_size s = 0%nat)) as [Hz|Hz]; [|specialize (Hr Hz); lia].
    unfold safe_floor_rung, pin_hi, clamp_rung. rewrite !decide_True by done. simpl. lia.
Qed.

#[export] Instance stick_dec e : Decision (exists now, e = STick now).
Proof. destruct e; try (right; by intros [? ?]). left; by eexists. Defined.

Lemma sel_run_inv l s r : shaped s -> ladder_size s <> 0%nat -> paced s r -> exists s' r',
  sel_run s r l = Some (s', r') /\ shaped s' /\ ladder s' = ladder s /\
  s'.(policy_).(max_bitrate_kbps) = s.(policy_).(max_bitrate_kbps) /\ paced s' r' /\
  (Forall (fun e => forall mn mx, e <> SPin mn mx) l -> bounded s -> bounded s').
Proof.
  revert s r. induction l as [|e l IH]; intros s r Hs Hn P; simpl; [by exists s, r|].
  assert (H : exists s1 a, sel_step s e = Some (s1, a) /\ shaped s1 /\ ladder s1 = ladder s /\
    s1.(policy_).(max_bitrate_kbps) = s.(policy_).(max_bitrate_kbps) /\ paced s1 (actuate r a) /\
    ((forall mn mx, e <> SPin mn mx) -> bounded s -> bounded s1)).
  { destruct (decide (exists now, e = STick now)) as [[now ->]|Hnt].
    - destruct (tick_moves s now Hs) as (s1 & a & m & E & Hs1 & F & W & Ef). exists s1, a.
      split; [exact E|]. split; [done|]. split; [by apply same_frame_ladder|]. split; [by destruct F as (_ & -> & _)|].
      split; [exact (paced_tick s now r s1 a m Hs Hn F W Ef P)|]. intros _ B. exact (bounded_tick s now s1 a m Hs Hn F W Ef B).
    - destruct (sel_step_quiet s e) as (s1 & E & Q & Hs1 & HF); [intros now He; apply Hnt; by exists now|done|].
      exists s1, SelectorActions_init. split; [done|]. split; [done|]. split; [by apply quiet_ladder|].
      split; [by destruct Q as (_ & ? & _)|]. split; [|intros Hp B; by apply (bounded_frame s s1); [apply HF| |]].
      assert (Ha : actuate r SelectorActions_init = r) by (by destruct r). rewrite Ha. by apply (paced_quiet s). }
  destruct H as (s1 & a & -> & Hs1 & Hl & Hm & P1 & Hb). cbn [mbind option_bind].
  destruct (IH s1 (actuate r a) Hs1) as (s2 & r2 & E & Hs2 & Hl2 & Hm2 & P2 & Hb2); [unfold ladder_size in *; by rewrite Hl|done|].
  exists s2, r2. split_and!; try done; [congruence|congruence|].
  intros [He Hf]%Forall_cons B. by apply Hb2, Hb.
Qed.

(** ** The documented cascade
    Written from the protocol's rules over the raw fields, with none of the
    code's predicates. *)
Fixpoint place (id : Z) (l : list Profile) : option nat :=
  match l with
  | [] => None
  | p :: l => if p.(pf_id) =? id then Some 0%nat else S <$> place id l
  end.

Section Documented.
Context (s : Selector) (now : Z).
Local Abbreviation pol := s.(policy_).
Local Abbreviation here := s.(op).(rung_).
Local Abbreviation next := (S s.(op).(rung_)).

Definition rungs : list Profile := match s.(table_) with Some t => t.(profiles) | None => [] end.
(** The operator's range of rungs, and the safe floor in it. *)
Definition range_top : nat := default (length rungs - 1)%nat (place pol.(max_profile) rungs).
Definition range_low : nat := Nat.min (default 0%nat (place pol.(min_profile) rungs)) range_top.
Definition range_floor : nat :=
  Nat.max range_low (Nat.min range_top (match s.(table_) with Some t => default 0%nat (place t.(floor_profile) rungs) | None => 0%nat end)).

(** Silence counts from the last report, and from the end of a freeze that
    outlasted it: what the code takes for fresh. *)
Definition heard_from : Z :=
  if decide (s.(guards).(csa_freeze_until_ms_) = 0) then s.(intake).(last_report_ms_)
  else Z.max s.(intake).(last_report_ms_) s.(guards).(csa_freeze_until_ms_).
Definition silence : Z := if s.(intake).(have_report_) then Z.max 0 (now - heard_from) else 0.
Definition fresh : Prop := s.(intake).(have_report_) = true /\ silence <= pol.(report_timeout_ms).

Definition locked (r : nat) : Prop := exists x, s.(loss).(rung_loss_) !! r = Some x /\ (x.(latched) = true \/ now < x.(blocked_until_ms)).
(** A climb stays below the lowest locked rung, unless the range itself starts
    at or above a locked one: then the lockouts bind no climb. *)
Definition reachable (t : nat) : Prop :=
  (t <= range_top)%nat /\ ((forall r, (r <= t)%nat -> ~ locked r) \/ exists r, (r <= range_low)%nat /\ locked r).

(** What demands a demote. *)
Definition emergency : Prop := s.(loss).(emergency_pending_) = true /\ s.(loss).(loss_observed_rung_) = here.
Definition cooled : Prop := pol.(down_cooldown_ms) <= (now - s.(op).(last_demote_ms_)) mod 2 ^ 64.
Definition losing : Prop := s.(guards).(pressure_) = false /\ s.(loss).(loss_observed_rung_) = here /\
  exists x, s.(loss).(rung_loss_) !! here = Some x /\ pol.(loss_persist_score) <= x.(score).
Definition at_floor : Prop := dle s.(intake).(rssi_ewma_) (double_of pol.(rssi_floor_dbm)) = true.
Definition fading : Prop := pol.(fade_ticks) <= s.(intake).(fade_ticks_).
Definition calm : Prop := (range_floor < here)%nat -> ~ emergency /\ (cooled -> ~ losing /\ ~ at_floor /\ ~ fading).

(** What allows a climb. *)
Definition flapping : Prop := now < s.(flap).(freeze_until_ms_).
Definition vetoed : Prop :=
  (s.(gates).(verdict_) = 2 /\ s.(gates).(verdict_ms_) <> 0 /\
   s.(gates).(verdict_ms_) <= now < s.(gates).(verdict_ms_) + pol.(verdict_ttl_ms)) \/
  (s.(gates).(probe_per_) <> 65535 /\ pol.(probe_veto_permille) <= s.(gates).(probe_per_) /\ s.(gates).(probe_per_ms_) <> 0 /\
   s.(gates).(probe_per_ms_) <= now < s.(gates).(probe_per_ms_) + pol.(probe_veto_ttl_ms)).
Definition free : Prop := reachable next /\ ~ at_floor /\ ~ fading /\ ~ flapping.
Definition pressed : Prop := free /\ cooled /\ s.(guards).(pressure_) = true /\
  pol.(pressure_escape_ms) <= (now - s.(guards).(pressure_since_ms_)) mod 2 ^ 64.
Definition dwell : Z :=
  match s.(flap).(demoted_from_ms_) !! next with
  | Some d => if decide (d <> 0 /\ d <= now < d + pol.(reentry_backoff_ms)) then pol.(reentry_dwell_ms) else pol.(promote_dwell_ms)
  | None => pol.(promote_dwell_ms)
  end.
Definition margin : Prop := free /\ dlt s.(intake).(loss_ewma_milli_) (double_of pol.(demote_milli)) = true /\
  dwell <= (now - s.(op).(last_change_ms_)) mod 2 ^ 64 /\
  exists f, pol.(rung_rssi_floor_dbm) !! Nat.min next 7 = Some f /\
    dge s.(intake).(rssi_ewma_) (dadd (double_of f) pol.(promote_rssi_hyst_db)) = true.

Inductive idle_move : Move -> Prop :=
| Pinned : range_low = range_top -> here = range_low -> idle_move MStay
| Pin : range_low = range_top -> here <> range_low -> idle_move (MSnap range_low)
| Above : range_low <> range_top -> (range_top < here)%nat -> idle_move (MSnap range_top)
| Below : range_low <> range_top -> (here < range_low)%nat -> fresh -> idle_move (MSnap range_low)
(** Silence. *)
| Descend : range_low <> range_top -> (here <= range_top)%nat -> ~ fresh -> (range_floor < here)%nat ->
    (pol.(report_timeout_ms) + pol.(failsafe_hold_ms)) mod 2 ^ 32 <= silence -> s.(guards).(failsafe_next_step_ms_) <= now ->
    idle_move (MDemote (here - 1) kReportTimeout)
| Silent : range_low <> range_top -> (here <= range_top)%nat -> ~ fresh ->
    ((range_floor < here)%nat -> (pol.(report_timeout_ms) + pol.(failsafe_hold_ms)) mod 2 ^ 32 <= silence ->
     now < s.(guards).(failsafe_next_step_ms_)) -> idle_move MStay
(** Rules 1 to 7, on fresh feedback. *)
| Ruled m : range_low <> range_top -> (range_low <= here <= range_top)%nat -> fresh -> ruled m -> idle_move m
with ruled : Move -> Prop :=
| Emergency : (range_floor < here)%nat -> emergency -> ruled (MDemote range_floor kLossEmergency)
| Losing : (range_floor < here)%nat -> ~ emergency -> cooled -> losing -> ruled (MDemote (here - 1) kLossPersistent)
| AtFloor : (range_floor < here)%nat -> ~ emergency -> cooled -> ~ losing -> at_floor -> ruled (MDemote (here - 1) kRssiFloor)
| Fading : (range_floor < here)%nat -> ~ emergency -> cooled -> ~ losing -> ~ at_floor -> fading -> ruled (MDemote (here - 1) kRssiFade)
| Escape : calm -> ~ vetoed -> pressed -> ruled (MClimb next kBackpressure)
| Promote : calm -> ~ vetoed -> ~ pressed -> margin -> ruled (MClimb next kPromote)
| Hold : calm -> (vetoed \/ ~ pressed /\ ~ margin) -> ruled MStay.

Inductive documented : Move -> Prop :=
| NoLadder : rungs = [] -> documented MStay
| Boot : rungs <> [] -> s.(op).(phase_) = kPhaseBoot -> documented MBoot
| Leads : rungs <> [] -> s.(op).(phase_) = kBitrateLead -> now < s.(op).(phase_deadline_ms_) -> documented MStay
| Lands : rungs <> [] -> s.(op).(phase_) = kBitrateLead -> s.(op).(phase_deadline_ms_) <= now -> documented MLand
| Waits : rungs <> [] -> s.(op).(phase_) = kMcsGrace -> now < s.(op).(phase_deadline_ms_) -> documented MStay
| Raises : rungs <> [] -> s.(op).(phase_) = kMcsGrace -> s.(op).(phase_deadline_ms_) <= now -> documented MGrace
| Frozen : rungs <> [] -> s.(op).(phase_) = kPhaseIdle -> s.(guards).(csa_freeze_until_ms_) <> 0 ->
    now < s.(guards).(csa_freeze_until_ms_) -> documented MStay
| Judged m : rungs <> [] -> s.(op).(phase_) = kPhaseIdle ->
    (s.(guards).(csa_freeze_until_ms_) = 0 \/ s.(guards).(csa_freeze_until_ms_) <= now) -> idle_move m -> documented m.
End Documented.

(** ** The code's predicates against the documented ones *)
Lemma place_index s id : place id (ladder s) = index_of_id s id.
Proof.
  unfold index_of_id. induction (ladder s) as [|p l IH]; [done|]. simpl. destruct (Z.eqb_spec (pf_id p) id) as [E|E].
  - by rewrite decide_True.
  - rewrite decide_False by done. rewrite IH. by destruct (list_find _ l) as [[]|].
Qed.
Section Agree.
Context (s : Selector) (now : Z) (Hs : shaped s).
Hypothesis Hn : ladder_size s <> 0%nat.
Lemma range_agree : range_low s = pin_lo s /\ range_top s = pin_hi s /\ range_floor s = safe_floor_rung s.
Proof.
  unfold range_floor, range_low, range_top, pin_lo, pin_hi, safe_floor_rung, floor_rung. change (rungs s) with (ladder s).
  rewrite !place_index. fold (rung_of_id s (max_profile (policy_ s)) (length (ladder s) - 1)) (rung_of_id s (min_profile (policy_ s)) 0).
  assert (Hf : match table_ s with Some t => default 0%nat (place (floor_profile t) (ladder s)) | None => 0%nat end =
    match table_ s with Some t => rung_of_id s (floor_profile t) 0 | None => 0%nat end).
  { destruct (table_ s); [|done]. by rewrite place_index. }
  rewrite Hf. unfold clamp_rung. rewrite !(decide_False (P := ladder_size s = 0%nat)) by done. fold (ladder_size s).
  pose proof (rung_of_id_lt s (min_profile (policy_ s)) 0 ltac:(lia)).
  pose proof (rung_of_id_lt s (max_profile (policy_ s)) (ladder_size s - 1) ltac:(lia)).
  repeat case_decide; lia.
Qed.
Lemma locked_agree r : rung_locked s r now = true <-> locked s now r.
Proof.
  unfold rung_locked, locked. destruct (_ !! r) as [x|]; [|split; [done|by intros (? & ? & _)]].
  rewrite orb_true_iff, Z.ltb_lt. split; [intros H; by exists x|by intros (? & [= <-] & H)].
Qed.
Lemma reachable_agree : (s.(op).(rung_) < ceiling s now)%nat <-> reachable s now (S s.(op).(rung_)).
Proof.
  destruct range_agree as (Hl & Ht & _). unfold reachable. rewrite Hl, Ht. pose proof (pin_hi_lt s Hn) as Hhi.
  unfold ceiling, adaptive_hi, lockout_ceiling_rung, first_locked. rewrite (sh_loss _ Hs), Nat.min_l by lia.
  assert (Hlk : forall r, (r <= pin_hi s)%nat -> seq 0 (S (pin_hi s)) !! r = Some r) by (intros; apply lookup_seq; lia).
  assert (Hlo : (pin_lo s <= pin_hi s)%nat) by (destruct range_agree as (<- & <- & _); unfold range_low; lia).
  destruct (list_find _ _) as [[j x]|] eqn:E; simpl.
  - apply list_find_Some in E as (E & Hx & Hmin). apply lookup_seq in E as [-> Hj]. simpl in *. rewrite locked_agree in Hx.
    case_decide as Hd.
    + split; [|lia]. intros H. split; [lia|]. right. exists j. by split; [lia|].
    + split; intros H.
      * split; [lia|]. left. intros r Hr Hk%locked_agree. revert Hk. apply (Hmin r r); [apply Hlk; lia|lia].
      * destruct H as [Hh [Ha|(r & Hr & Hk%locked_agree)]].
        -- destruct (decide (j <= S (rung_ (op s)))%nat) as [Hle|]; [by destruct (Ha j Hle)|lia].
        -- exfalso. revert Hk. apply (Hmin r r); [apply Hlk; lia|lia].
  - apply list_find_None in E. rewrite Nat.min_id. split; [|lia]. intros H. split; [lia|]. left. intros r Hr Hk%locked_agree.
    rewrite Forall_forall in E. apply (E r); [|done]. apply elem_of_seq. lia.
Qed.
End Agree.

Section Reflect.
Context (s : Selector) (now : Z) (Hs : shaped s).
Hypothesis Hn : ladder_size s <> 0%nat.
Hypothesis Hz : s.(guards).(csa_freeze_until_ms_) = 0.
Lemma age_silence : report_age_ms s now = silence s now.
Proof using All.
  unfold report_age_ms, silence, heard_from. rewrite Hz. destruct (have_report_ _); [|done]. simpl.
  destruct (Z.leb_spec now (last_report_ms_ (intake s))); lia.
Qed.
Lemma fresh_agree : stale s now = false <-> fresh s now.
Proof using All. unfold stale, fresh. rewrite age_silence, orb_false_iff, negb_false_iff, Z.gtb_ltb, Z.ltb_ge. done. Qed.
Lemma emergency_agree : emergency_here s = true <-> emergency s.
Proof using All. unfold emergency_here, emergency. by rewrite andb_true_iff, bool_decide_eq_true. Qed.
Lemma cooled_agree : demote_ok s now = true <-> cooled s now.
Proof using All. unfold demote_ok, cooled. rewrite Z.geb_le. done. Qed.
Lemma losing_agree : persistent_loss s = true <-> losing s.
Proof using All.
  unfold persistent_loss, losing. rewrite !andb_true_iff, negb_true_iff, bool_decide_eq_true.
  destruct (_ !! _) as [x|]; [rewrite Z.geb_le|]; (split; [intros [[? ?] HS]|intros (? & ? & y & Hy & HS)]); simplify_eq; try done.
  split_and!; try done. by exists x.
Qed.
Lemma fading_agree : rssi_fading s = true <-> fading s.
Proof using All. unfold rssi_fading, fading. by rewrite Z.geb_le. Qed.
Lemma floor_agree : above_floor s = true <-> (range_floor s < s.(op).(rung_))%nat.
Proof using All. unfold above_floor. destruct (range_agree s Hn) as (_ & _ & ->). by rewrite bool_decide_eq_true. Qed.
Lemma calm_agree : demote_due s now = false -> calm s now.
Proof using All.
  unfold demote_due, calm. intros H Ha. apply floor_agree in Ha. rewrite Ha in H. simpl in H.
  apply orb_false_iff in H as [He H]. rewrite <- emergency_agree, He. split; [done|]. intros Hc%cooled_agree. rewrite Hc in H. simpl in H.
  apply orb_false_iff in H as [H H3]. apply orb_false_iff in H as [H1 H2]. unfold at_floor. fold (rssi_floor_hit s).
  rewrite <- losing_agree, <- fading_agree, H1, H2, H3. done.
Qed.
Lemma vetoed_agree : climb_vetoed s now = true <-> vetoed s now.
Proof using All.
  unfold climb_vetoed, vetoed, saturated_fresh, probe_veto_fresh, kSaturated, kNoProbe.
  rewrite orb_true_iff, !andb_true_iff, !negb_true_iff, !Z.eqb_eq, !Z.eqb_neq, !Z.geb_le, !Z.ltb_lt. split; intros [H|H]; (left + right); lia.
Qed.
Lemma guard_agree : rssi_guard_active s = false <-> ~ at_floor s /\ ~ fading s.
Proof using All.
  unfold rssi_guard_active, at_floor. fold (rssi_fading s). rewrite <- fading_agree, orb_false_iff, !not_true_iff_false. done.
Qed.
Lemma flapping_agree : flap_frozen s now = false <-> ~ flapping s now.
Proof using All. unfold flap_frozen, flapping. rewrite Z.ltb_ge. lia. Qed.
Lemma free_agree :
  (s.(op).(rung_) < ceiling s now)%nat /\ rssi_guard_active s = false /\ flap_frozen s now = false <-> free s now.
Proof using All. unfold free. rewrite reachable_agree, guard_agree, flapping_agree by done. tauto. Qed.
Lemma pressed_agree : pressure_escapes s now (ceiling s now) = true <-> pressed s now.
Proof using All.
  unfold pressure_escapes, pressed. rewrite <- free_agree, !andb_true_iff, !negb_true_iff, bool_decide_eq_true, Z.geb_le, cooled_agree. tauto.
Qed.
Lemma margin_agree :
  (margin_open s now (ceiling s now) && bool_decide (margin_met s now = Some true)) = true <-> margin s now.
Proof using All.
  unfold margin_open, margin. rewrite <- free_agree, !andb_true_iff, !negb_true_iff, !bool_decide_eq_true.
  assert (E : margin_met s now = Some true /\ (rung_ (op s) < ceiling s now)%nat <->
    (dwell s now <= (now - last_change_ms_ (op s)) mod 2 ^ 64 /\
     exists f, rung_rssi_floor_dbm (policy_ s) !! Nat.min (S (rung_ (op s))) 7 = Some f /\
       dge (rssi_ewma_ (intake s)) (dadd (double_of f) (promote_rssi_hyst_db (policy_ s))) = true) /\ (rung_ (op s) < ceiling s now)%nat).
  { cut ((rung_ (op s) < ceiling s now)%nat -> (margin_met s now = Some true <->
      dwell s now <= (now - last_change_ms_ (op s)) mod 2 ^ 64 /\
      exists f, rung_rssi_floor_dbm (policy_ s) !! Nat.min (S (rung_ (op s))) 7 = Some f /\
        dge (rssi_ewma_ (intake s)) (dadd (double_of f) (promote_rssi_hyst_db (policy_ s))) = true)); [tauto|].
    intros Hc. destruct (below_ceiling s now Hn Hc) as (_ & Hlt & _). unfold margin_met, dwell.
    rewrite (sh_floors _ Hs). change (8 - 1)%nat with 7%nat.
    destruct (_ !! Nat.min _ 7) as [f|]; cbn [mbind option_bind]; [|split; [done|by intros (_ & ? & [=] & _)]].
    destruct (lookup_lt_is_Some_2 (demoted_from_ms_ (flap s)) (S (rung_ (op s)))) as [d Hd]; [by rewrite (sh_demoted _ Hs)|].
    rewrite Hd. cbn [mbind option_bind].
    assert (Hb : negb (d =? 0) && (now >=? d) && (now - d <? reentry_backoff_ms (policy_ s)) =
      bool_decide (d <> 0 /\ d <= now < d + reentry_backoff_ms (policy_ s))).
    { apply eq_bool_prop_intro. rewrite !Is_true_true, bool_decide_eq_true, !andb_true_iff, negb_true_iff, Z.eqb_neq, Z.geb_le, Z.ltb_lt. lia. }
    rewrite Hb. case_bool_decide as Hbd; [rewrite (decide_True _ _ Hbd)|rewrite (decide_False _ _ Hbd)];
    (split; [intros [= H]; apply andb_true_iff in H as [H1 H2%Z.geb_le]; split; [done|by exists f]
            |intros (H1 & f' & [= <-] & ->); f_equal; by apply Z.geb_le]). }
  unfold free in *. tauto.
Qed.
End Reflect.

Lemma idle_documented s now m : shaped s -> ladder_size s <> 0%nat -> s.(guards).(csa_freeze_until_ms_) = 0 ->
  idle_warrant s now m -> idle_move s now m.
Proof.
  intros Hs Hn Hz. destruct (range_agree s Hn) as (Hl & Ht & Hf).
  pose proof (fresh_agree s now Hs Hn Hz) as Hfr. pose proof (age_silence s now Hs Hn Hz) as Hage.
  pose proof (calm_agree s now Hs Hn Hz) as Hcalm. pose proof (floor_agree s now Hs Hn Hz) as Hab.
  pose proof (emergency_agree s now Hs Hn Hz) as Hem. pose proof (cooled_agree s now Hs Hn Hz) as Hco. pose proof (losing_agree s now Hs Hn Hz) as Hlo.
  pose proof (fading_agree s now Hs Hn Hz) as Hfa. pose proof (vetoed_agree s now Hs Hn Hz) as Hve.
  pose proof (pressed_agree s now Hs Hn Hz) as Hpr. pose proof (margin_agree s now Hs Hn Hz) as Hma.
  unfold idle_warrant. rewrite <- Hl, <- Ht. destruct (decide (range_low s = range_top s)) as [Ep|Ep].
  { destruct (decide (rung_ (op s) = range_low s)); intros ->; [by apply Pinned|by apply Pin]. }
  assert (Hrp : repin_due s now = true <-> (range_top s < rung_ (op s))%nat \/ (rung_ (op s) < range_low s)%nat /\ fresh s now).
  { unfold repin_due, fresh. rewrite <- Hl, <- Ht, Hage, orb_true_iff, !andb_true_iff, !bool_decide_eq_true, Z.leb_le. tauto. }
  destruct (repin_due s now).
  { destruct (proj1 Hrp eq_refl) as [H|[H Hfs]]; destruct (decide (range_top s < rung_ (op s))%nat); intros ->; try lia; [by apply Above|by apply Above|by apply Below]. }
  assert (Hin : ~ (range_top s < rung_ (op s))%nat /\ ~ ((rung_ (op s) < range_low s)%nat /\ fresh s now)).
  { split; intros H; assert (false = true) by (apply Hrp; auto); done. }
  destruct Hin as [Hin1 Hin2]. destruct (stale s now) eqn:Est.
  { assert (Hnf : ~ fresh s now) by (rewrite <- Hfr; done).
    unfold failsafe_due. rewrite Hage. destruct (above_floor s) eqn:Ea.
    - pose proof (proj1 Hab eq_refl) as Ha'. destruct (Z.ltb_spec (silence s now) (to_u32 (report_timeout_ms (policy_ s) + failsafe_hold_ms (policy_ s)))) as [H|H]; simpl.
      + intros ->. apply Silent; [done|lia|done|]. intros _ H'. by apply Z.lt_nge in H.
      + destruct (Z.geb_spec now (failsafe_next_step_ms_ (guards s))); intros ->; [by apply Descend; (done || lia)|].
        apply Silent; [done|lia|done|]. intros _ _. lia.
    - rewrite andb_false_r. intros ->. apply Silent; [done|lia|done|]. intros Ha%Hab. done. }
  pose proof (proj1 Hfr eq_refl) as Hfs. intros H. apply Ruled; [done|split; [|lia]|done|].
  { destruct (decide (rung_ (op s) < range_low s)%nat); [by destruct Hin2|lia]. }
  assert (Hat : rssi_floor_hit s = true <-> at_floor s) by done.
  destruct m as [| | | | |t r|t r]; try done.
  - destruct H as [Hd Hc]. apply Hold; [by apply Hcalm|]. unfold climb_due in Hc. rewrite orb_true_iff, Hpr, Hma, Hve in Hc.
    destruct (decide (climb_vetoed s now = true)) as [Hv|Hv]; [left; tauto|right; tauto].
  - destruct H as [Ha%Hab H]. rewrite <- Hf in H.
    assert (Hef : emergency_here s = false -> ~ emergency s) by (intros E; rewrite <- Hem, E; done).
    assert (Hlf : persistent_loss s = false -> ~ losing s) by (intros E; rewrite <- Hlo, E; done).
    assert (Haf : rssi_floor_hit s = false -> ~ at_floor s) by (intros E; rewrite <- Hat, E; done).
    destruct r; try done.
    + destruct H as [-> H]. apply Emergency; tauto.
    + destruct H as (-> & H1 & H2 & H3). apply Losing; [done|..]; tauto.
    + destruct H as (-> & H1 & H2 & H3 & H4). apply AtFloor; tauto.
    + destruct H as (-> & ? & ? & ? & ? & ?). apply Fading; tauto.
  - destruct H as (-> & _ & Hd & Hv & _ & _ & _ & H).
    assert (Hnv : ~ vetoed s now) by (rewrite <- Hve, Hv; done). destruct r; try done.
    + apply Escape; tauto.
    + destruct H as (Hp & Ho & Hm). rewrite Ho, bool_decide_true in Hma by done. apply Promote; [tauto|done| |tauto].
      rewrite <- Hpr, Hp. done.
Qed.

Lemma thaw_silence s now : silence (thaw s) now = silence s now.
Proof.
  unfold thaw, silence, heard_from. destruct (Z.eqb_spec (csa_freeze_until_ms_ (guards s)) 0) as [E|E]; [done|].
  rewrite (decide_False (P := csa_freeze_until_ms_ (guards s) = 0)) by done. unfold end_freeze. destruct (have_report_ (intake s)) eqn:Eh; simpl; [|by rewrite Eh].
  destruct (Z.ltb_spec (last_report_ms_ (intake s)) (csa_freeze_until_ms_ (guards s))); simpl; rewrite Eh; lia.
Qed.
(** The cascade reads of the freeze only what it makes of the silence. *)
Lemma idle_move_thaw s now m : idle_move (thaw s) now m -> idle_move s now m.
Proof.
  pose proof (thaw_silence s now) as Hsi.
  assert (Hf : fresh (thaw s) now <-> fresh s now).
  { unfold fresh. rewrite Hsi. unfold thaw, end_freeze. destruct (_ =? 0); [done|]. by destruct (_ && _). }
  assert (E : exists lr g, thaw s = set_guards (with_last_report s lr) (MkGuards g s.(guards).(failsafe_next_step_ms_)
    s.(guards).(pressure_) s.(guards).(pressure_since_ms_) s.(guards).(rf_environment_))).
  { unfold thaw, end_freeze. destruct (_ =? 0); [|destruct (_ && _)].
    - exists s.(intake).(last_report_ms_), s.(guards).(csa_freeze_until_ms_). by destruct s as [? ? ? [] ? ? ? []].
    - eexists _, _. done.
    - exists s.(intake).(last_report_ms_), 0. by destruct s as [? ? ? [] ? ? ? []]. }
  destruct E as (lr & g & E). destruct 1 as [H1 H2|H1 H2|H1 H2|H1 H2 H3|H1 H2 H3 H4 H5 H6|H1 H2 H3 H4|m H1 H2 H3 H4];
    rewrite ?Hf, ?Hsi, E in *.
  - by apply Pinned.
  - by apply (Pin s).
  - by apply (Above s).
  - by apply (Below s).
  - by apply (Descend s).
  - by apply (Silent s).
  - apply (Ruled s); [done..|]. destruct H4.
    + by apply (Emergency s).
    + by apply (Losing s).
    + by apply (AtFloor s).
    + by apply (Fading s).
    + by apply (Escape s).
    + by apply (Promote s).
    + by apply (Hold s).
Qed.
Lemma warranted_documented s now m : shaped s -> warranted s now m -> documented s now m.
Proof.
  intros Hs. unfold warranted. destruct (decide (ladder_size s = 0%nat)) as [E|Hn].
  { intros ->. apply NoLadder. by apply nil_length_inv. }
  assert (Hr : rungs s <> []) by (intros E; apply Hn; unfold ladder_size, ladder; unfold rungs in E; by rewrite E).
  destruct (phase_ (op s)) eqn:Ep.
  - intros ->. by apply Boot.
  - unfold frozen. destruct (Z.eqb_spec (csa_freeze_until_ms_ (guards s)) 0) as [Ez|Ez]; simpl.
    + intros H. apply Judged; auto. apply idle_move_thaw, idle_documented; [| | |done];
        (unfold thaw; rewrite Ez; simpl; done).
    + destruct (Z.ltb_spec now (csa_freeze_until_ms_ (guards s))); [intros ->; by apply Frozen|].
      intros Hm. apply Judged; auto. destruct (thaw_frame s) as [F O]. apply idle_move_thaw, idle_documented; [| | |done].
      * by apply (shaped_same_op s); rewrite ?O.
      * by rewrite (same_frame_size _ _ F).
      * unfold thaw, end_freeze. apply Z.eqb_neq in Ez. rewrite Ez. done.
  - destruct (Z.geb_spec now (phase_deadline_ms_ (op s))); intros ->; [by apply Lands|apply Leads; (done || lia)].
  - destruct (Z.geb_spec now (phase_deadline_ms_ (op s))); intros ->; [by apply Raises|apply Waits; (done || lia)].
Qed.

(** ** The theorems *)
(** C17. Each tick of the code is one move of the documented cascade, stated over
    the raw fields: it is defined, its evidence is what the rules ask of that move
    - a demote lands on the safe floor or one rung down with its cause present and
    no earlier rule's, a climb is one rung, with no rule demanding a demote, no
    saturation or probe veto, no flap freeze, no RSSI guard, every rung up to the
    new one unlocked, and on feedback the code counts as fresh - and its effect is
    the one of the move.  Two readings of the rules are the code's: a freeze that
    ends restarts the clock of the silence, and a range that starts at or above a
    locked rung lifts the lockouts off every rung. *)
Theorem selector_tick_refines (s : Selector) (now : Z) : shaped s -> exists s' a m,
  tick s now = Some (s', a) /\ shaped s' /\ documented s now m /\ effect s now m s' a.
Proof.
  intros Hs. destruct (tick_moves s now Hs) as (s' & a & m & E & Hs' & _ & W & Ef). exists s', a, m.
  split_and!; try done. by apply warranted_documented.
Qed.

(** C18. After any events the rate and the bitrate the caller has actuated are those
    of the selector, and where higher rungs carry more the encoder never runs
    faster than the rung in the air carries; nothing is accessed out of range. *)
Theorem selector_never_oversubscribes (policy : SelectorPolicy) (table : ProfileTable) (l : list SelEvent) :
  length policy.(rung_rssi_floor_dbm) = 8%nat -> table.(profiles) <> [] ->
  exists s r, sel_run (Selector_init policy (Some table)) (None, None) l = Some (s, r) /\
    (s.(op).(phase_) <> kPhaseBoot -> exists p,
       table.(profiles) !! s.(op).(rung_) = Some p /\ r = (Some (commit_of p), Some s.(op).(bitrate_kbps_)) /\
       ((forall i j a b, (i <= j)%nat -> table.(profiles) !! i = Some a -> table.(profiles) !! j = Some b ->
           clamp_bitrate_kbps (derive_bitrate_kbps a) policy.(max_bitrate_kbps) <=
           clamp_bitrate_kbps (derive_bitrate_kbps b) policy.(max_bitrate_kbps)) ->
        s.(op).(bitrate_kbps_) <= clamp_bitrate_kbps (derive_bitrate_kbps p) policy.(max_bitrate_kbps))).
Proof.
  intros Hf Ht. destruct (Selector_init_shaped policy (Some table) Hf) as (Hs & _ & P).
  destruct (sel_run_inv l (Selector_init policy (Some table)) (None, None) Hs) as (s & r & E & Hs' & Hl & Hm & P' & _); [|done|].
  { unfold ladder_size, ladder; simpl. by destruct (profiles table). }
  exists s, r. split; [exact E|]. change (ladder (Selector_init policy (Some table))) with (profiles table) in Hl.
  change (max_bitrate_kbps (policy_ (Selector_init policy (Some table)))) with (max_bitrate_kbps policy) in Hm.
  unfold paced, target_bitrate in P'. rewrite Hl, Hm in P'. intros Hb.
  destruct (phase_ (op s)); [done|destruct P' as (p & Hp & Hr & B)..]; exists p; (split_and!; [done|done|]); intros Hmono.
  - rewrite B. done.
  - destruct B as (Hlt & q & Hq & ->). by eapply (Hmono (pending_target_ (op s)) (rung_ (op s))); [lia| |].
  - destruct B as (j & q & Hlt & Hq & ->). by eapply (Hmono j (rung_ (op s))); [lia| |].
Qed.

(** While the operator leaves the pins alone the rung stays between the safe
    floor and the pinned top, whatever arrives. *)
Theorem selector_stays_in_range (policy : SelectorPolicy) (table : ProfileTable) (l : list SelEvent) :
  length policy.(rung_rssi_floor_dbm) = 8%nat -> table.(profiles) <> [] ->
  Forall (fun e => forall mn mx, e <> SPin mn mx) l ->
  exists s r, sel_run (Selector_init policy (Some table)) (None, None) l = Some (s, r) /\
    (safe_floor_rung s <= s.(op).(rung_) <= pin_hi s)%nat.
Proof.
  intros Hf Ht Hl. destruct (Selector_init_shaped policy (Some table) Hf) as (Hs & B & P).
  destruct (sel_run_inv l (Selector_init policy (Some table)) (None, None) Hs) as (s & r & E & _ & _ & _ & _ & Hb); [|done|].
  { unfold ladder_size, ladder; simpl. by destruct (profiles table). }
  exists s, r. split; [exact E|]. by apply Hb.
Qed.

(** ** The fail-safe descent *)
Section Silent.
Context (gap : Z).
(** A link that has gone silent by the time [t], with nothing else going on. *)
Record silent (s : Selector) (t : Z) : Prop := {
  sl_shaped : shaped s;
  sl_size : ladder_size s <> 0%nat;
  sl_bounded : bounded s;
  sl_heard : s.(intake).(have_report_) = true;
  sl_thawed : s.(guards).(csa_freeze_until_ms_) = 0;
  sl_range : pin_lo s <> pin_hi s;
  sl_booted : s.(op).(phase_) <> kPhaseBoot;
  sl_params : 0 < s.(policy_).(failsafe_hold_ms) /\ 0 <= s.(policy_).(report_timeout_ms) /\
    s.(policy_).(report_timeout_ms) + s.(policy_).(failsafe_hold_ms) < 2 ^ 32 /\
    0 <= s.(policy_).(bitrate_lead_ms) <= gap /\ 0 <= s.(policy_).(failsafe_step_ms) <= gap;
  sl_old : 0 <= s.(intake).(last_report_ms_) /\
    s.(intake).(last_report_ms_) + s.(policy_).(report_timeout_ms) + s.(policy_).(failsafe_hold_ms) <= t;
  sl_next : s.(guards).(failsafe_next_step_ms_) <= t;
  sl_deadline : s.(op).(phase_) <> kPhaseIdle -> s.(op).(phase_deadline_ms_) <= t
}.
Definition work (s : Selector) : nat :=
  match s.(op).(phase_) with
  | kBitrateLead => S (2 * (s.(op).(pending_target_) - safe_floor_rung s))
  | kMcsGrace => S (2 * (s.(op).(rung_) - safe_floor_rung s))
  | _ => 2 * (s.(op).(rung_) - safe_floor_rung s)
  end%nat.
Lemma silent_later s t t' : t <= t' -> silent s t -> silent s t'.
Proof. intros H []. split; try done; try lia. intros Hp. specialize (sl_deadline0 Hp). lia. Qed.
(** What a tick must keep for the link to stay silent. *)
Lemma silent_step s s' t : silent s t -> same_frame s s' -> shaped s' -> bounded s' ->
  s'.(intake).(have_report_) = true -> s'.(intake).(last_report_ms_) = s.(intake).(last_report_ms_) ->
  s'.(guards).(csa_freeze_until_ms_) = 0 -> s'.(guards).(failsafe_next_step_ms_) <= t + gap ->
  s'.(op).(phase_) <> kPhaseBoot -> (s'.(op).(phase_) <> kPhaseIdle -> s'.(op).(phase_deadline_ms_) <= t + gap) ->
  silent s' (t + gap).
Proof.
  intros [] F Hs Hb Hh Hl Hc Hn Hp Hd. pose proof F as (_ & Hpol & _).
  split; try done; rewrite ?Hpol, ?Hl; try lia.
  - by rewrite (same_frame_size _ _ F).
  - unfold pin_lo, pin_hi in *. by rewrite !(same_frame_clamp _ _ _ F), (same_frame_size _ _ F).
Qed.

Lemma silent_age s t : silent s t ->
  report_age_ms s t = t - s.(intake).(last_report_ms_) /\ stale s t = true /\ repin_due s t = false.
Proof.
  intros []. destruct sl_params0 as (? & ? & ? & _), sl_old0.
  assert (Ha : report_age_ms s t = t - last_report_ms_ (intake s)).
  { unfold report_age_ms. rewrite sl_heard0. simpl. destruct (Z.leb_spec t (last_report_ms_ (intake s))); lia. }
  split; [done|]. unfold stale, repin_due. rewrite Ha, sl_heard0. simpl. split; [rewrite Z.gtb_ltb; apply Z.ltb_lt; lia|].
  destruct sl_bounded0 as [B _]. pose proof (safe_floor_range s sl_size0) as Hf. fold (pin_lo s) in Hf.
  rewrite !bool_decide_eq_false_2 by lia. done.
Qed.

Lemma silent_tick s t : silent s t -> t + gap < 2 ^ 64 -> exists s' a,
  tick s t = Some (s', a) /\ silent s' (t + gap) /\ safe_floor_rung s' = safe_floor_rung s /\ work s' = (work s - 1)%nat.
Proof.
  intros Hsil Ht. pose proof Hsil as [Hs Hz Hb Hh Hc Hr Hbt Hpar Hold Hnext Hdl].
  destruct (tick_moves s t Hs) as (s' & a & m & E & Hs' & F & W & Ef). exists s', a. split; [exact E|].
  pose proof (bounded_tick s t s' a m Hs Hz F W Ef Hb) as Hb'. pose proof (same_frame_floor _ _ F) as Hfl.
  destruct (silent_age s t Hsil) as (Hage & Hst & Hrp). destruct Hpar as (? & ? & ? & Hlead & Hstep), Hold.
  pose proof (sh_rung _ Hs Hz) as Hrl. pose proof (sh_pending _ Hs Hz) as Hpl.
  revert E. unfold tick. rewrite decide_False by done. unfold work. rewrite Hfl.
  destruct (phase_ (op s)) eqn:Ep; [done| | |].
  - unfold evaluate, evaluate_open. rewrite Hc. cbn [Z.eqb]. fold (pin_lo s) (pin_hi s). rewrite decide_False by done.
    fold (repin_due s t). rewrite Hrp, Hst. unfold failsafe. cbn [policy_ op rung_ guards with_state set_op].
    change (report_age_ms (with_state s "FAILSAFE") t) with (report_age_ms s t).
    rewrite Hage, to_u32_id by (unfold u32; lia). destruct (Z.ltb_spec (t - last_report_ms_ (intake s)) (report_timeout_ms (policy_ s) + failsafe_hold_ms (policy_ s))); [lia|].
    rewrite (proj2 (Z.geb_le t _)) by lia. rewrite andb_true_r.
    destruct (bool_decide (safe_floor_rung s < rung_ (op s))%nat) eqn:Eb.
    + apply bool_decide_eq_true in Eb. set (s1 := with_failsafe_next _ _).
      assert (F1 : same_frame s s1) by frame.
      destruct (lookup_lt_is_Some_2 (ladder s1) (rung_ (op s) - 1)) as [p Hp]; [change (ladder s1) with (ladder s); fold (ladder_size s); lia|].
      destruct (start_demote_spec s1 (rung_ (op s) - 1) t SelectorActions_init kReportTimeout false p) as (s2 & E2 & F2 & I2 & G2 & O2);
        [by apply (shaped_same_op s)|done|].
      intros E. change (rung_ (op s1)) with (rung_ (op s)) in E. rewrite E2 in E. injection E as -> _. rewrite O2. cbn [phase_ rung_ pending_target_]. split; [|split; [done|lia]].
      apply (silent_step s); try done; rewrite ?I2, ?G2, ?O2; cbn; try done.
      * rewrite to_u64_id by (unfold u64; lia). lia.
      * intros _. rewrite to_u64_id by (unfold u64; lia). lia.
    + apply bool_decide_eq_false in Eb. intros [= <- <-]. cbn. rewrite Ep. split; [|split; [done|lia]].
      apply (silent_step s); try done; cbn; rewrite ?Ep; (done || lia).
  - rewrite (proj2 (Z.geb_le t _)) by (apply Hdl; congruence). destruct (lookup_lt_is_Some_2 (ladder s) _ Hpl) as [q ->].
    cbn [mbind option_bind]. intros [= <- <-]. cbn. split; [|split; [done|lia]].
    apply (silent_step s); try done; cbn; (done || lia).
  - rewrite (proj2 (Z.geb_le t _)) by (apply Hdl; congruence). destruct (lookup_lt_is_Some_2 (ladder s) _ Hrl) as [q ->].
    cbn [mbind option_bind].
    destruct (move_bitrate_spec (enter_idle s (rung_ (op s)) (last_change_ms_ (op s)) (state_ (op s))) q SelectorActions_init)
      as (s1 & E1 & F1 & I1 & G1 & O1).
    rewrite E1. intros [= <- _]. rewrite O1. cbn. split; [|split; [done|lia]].
    apply (silent_step s); try done; rewrite ?I1, ?G1, ?O1; cbn; try done. lia.
Qed.

(** Ticks at least [gap] apart, from [t] on. *)
Fixpoint spaced (t : Z) (l : list Z) : Prop :=
  match l with [] => True | u :: l => t <= u /\ u + gap < 2 ^ 64 /\ spaced (u + gap) l end.
Fixpoint ticks (s : Selector) (l : list Z) : option Selector :=
  match l with [] => Some s | u :: l => '(s, _) ← tick s u; ticks s l end.

(** C33. On a silent link every tick brings the rung closer to the safe floor and,
    two ticks per rung later, it is there and stays there. *)
Theorem selector_failsafe_descends (s : Selector) (t : Z) (l : list Z) : silent s t -> spaced t l -> (work s <= length l)%nat ->
  exists s', ticks s l = Some s' /\ s'.(op).(phase_) = kPhaseIdle /\ s'.(op).(rung_) = safe_floor_rung s.
Proof.
  revert s t. induction l as [|u l IH]; intros s t Hs Hl Hw; simpl in *.
  - exists s. split; [done|]. pose proof Hs as [_ _ [[B _] _] _ _ _ Hbt _ _ _ _]. unfold work in Hw.
    destruct (phase_ (op s)) eqn:E; simpl in Hw; [done| |lia|lia]. split; [done|lia].
  - destruct Hl as (Htu & Hu & Hl). destruct (silent_tick s u (silent_later s t u Htu Hs) Hu) as (s1 & a & -> & Hs1 & Hf & Hw1).
    cbn [mbind option_bind]. rewrite <- Hf. apply (IH s1 (u + gap)); [done|done|lia].
Qed.
End Silent.

(** ** A craft on a ladder of four rungs *)
Definition demo_ladder : ProfileTable :=
  MkProfileTable [MkProfile 0 0 kLong 10 800 1424 kRlc256 200 30 20 1000 100000 20000;
                  MkProfile 1 1 kLong 10 800 1424 kRlc256 200 30 20 1000 100000 20000;
                  MkProfile 2 3 kShort 8 800 1424 kRlc256 200 30 20 1000 100000 20000;
                  MkProfile 3 5 kShort 6 800 1424 kRlc256 200 30 20 1000 100000 20000] 0 0 0.
Definition demo_sel : Selector := Selector_init SelectorPolicy_init (Some demo_ladder).
Definition demo_report (epoch rssi loss_milli uniq : Z) : LinkReport :=
  MkLinkReport (MkCommonPrefix 2 1 77) 1 5 0 epoch 1 rssi rssi loss_milli uniq 0 1 0xFFFF 0xFF.
(** Clean reports every 100 ms. *)
Definition demo_clean (n : Z) : list SelEvent :=
  SEnvironment 5180 0 0 :: STick 1 ::
  flat_map (fun i => [SReport (demo_report (i + 1) (-50) 0 500) (100 * i + 100); STick (100 * i + 101)]) (seqZ 0 n).
Definition demo_after (l : list SelEvent) : Selector := default demo_sel (fst <$> sel_run demo_sel (None, None) l).
Definition demo_point (l : list SelEvent) : option (nat * string * SelectorReason * Radio) :=
  (fun '(s, r) => (s.(op).(rung_), s.(op).(state_), s.(op).(reason_), r)) <$> sel_run demo_sel (None, None) l.
Definition demo_commit (i : nat) : option ProfileCommit := commit_of <$> demo_ladder.(profiles) !! i.

Example demo_climbs : demo_point (demo_clean 20) = Some (3%nat, "HOLD"%string, kPromote, (demo_commit 3, Some 36856)).
Proof. vm_compute. reflexivity. Qed.
(** One report with 30% loss: bitrate first, then the floor rung. *)
Example demo_emergency :
  demo_point (demo_clean 20 ++ [SReport (demo_report 21 (-50) 300 500) 2200; STick 2201]) =
    Some (3%nat, "DEMOTE"%string, kLossEmergency, (demo_commit 3, Some 4040)) /\
  demo_point (demo_clean 20 ++ [SReport (demo_report 21 (-50) 300 500) 2200; STick 2201; STick 2702]) =
    Some (0%nat, "DEMOTE"%string, kLossEmergency, (demo_commit 0, Some 4040)).
Proof. split; vm_compute; reflexivity. Qed.

(** The craft is at rung 1 when it follows a channel switch; the reports stop.
    The environment reset leaves the smoothed RSSI at 0 dBm and the end of the
    freeze makes the last report fresh again, so the craft climbs on the new
    channel although nothing was ever heard there. *)
Example demo_blind_climb :
  demo_point (demo_clean 9) = Some (1%nat, "PROMOTE"%string, kPromote, (demo_commit 1, Some 8200)) /\
  demo_point (demo_clean 9 ++ [SFreeze 4000; SEnvironment 5500 0 2000; STick 2001; STick 3900; STick 4001]) =
    Some (2%nat, "PROMOTE"%string, kPromote, (demo_commit 2, Some 8200)).
Proof. split; vm_compute; reflexivity. Qed.
(** A craft that never heard a report, pinned up and released: a minute later it
    still holds the top rung. *)
Example demo_never_heard :
  demo_point ([STick 1; SPin 3 3; STick 2; SPin 0 255] ++ map (fun i => STick (1000 * i)) (seqZ 1 60)) =
    Some (3%nat, "FAILSAFE"%string, kRepin, (demo_commit 3, Some 36856)).
Proof. vm_compute. reflexivity. Qed.

(** Rungs 3 and 1 are locked, and the operator pins the range to start at rung 1.
    The conflict lifts the ceiling for every rung: the craft climbs past the
    rung the pin requires and into rung 3, which is locked still. *)
Definition demo_more (e t n : Z) : list SelEvent :=
  flat_map (fun i => [SReport (demo_report (e + i) (-50) 0 500) (t + 100 * i); STick (t + 100 * i + 1)]) (seqZ 0 n).
Definition demo_lost (e t : Z) : list SelEvent := [SReport (demo_report e (-50) 300 500) t; STick (t + 1); STick (t + 502)].
Definition demo_both_locked : list SelEvent := demo_clean 20 ++ demo_lost 21 2200 ++ demo_more 22 2800 28 ++ demo_lost 50 5700.
Example demo_climbs_into_locked :
  demo_point (demo_both_locked ++ demo_more 51 6400 100) = Some (0%nat, "HOLD"%string, kLossEmergency, (demo_commit 0, Some 4040)) /\
  demo_point (demo_both_locked ++ SPin 1 255 :: demo_more 51 6400 100) = Some (3%nat, "HOLD"%string, kPromote, (demo_commit 3, Some 36856)) /\
  sl_active_mask <$> lockout (demo_after (demo_both_locked ++ SPin 1 255 :: demo_more 51 6400 100)) 16400 = Some 10.
Proof. split_and!; vm_compute; reflexivity. Qed.

(** ** Witnesses *)
Definition demo_lossy : Selector := demo_after (demo_clean 20 ++ [SReport (demo_report 21 (-50) 300 500) 2200]).
Lemma selector_tick_refines_witness :
  exists s' a, tick demo_lossy 2201 = Some (s', a) /\
    s'.(op).(phase_) = kBitrateLead /\ s'.(op).(pending_target_) = 0%nat /\ a = MkSelectorActions None (Some 4040).
Proof.
  destruct (selector_tick_refines demo_lossy 2201) as (s' & a & m & E & _ & _ & _).
  - split; vm_compute; (reflexivity || lia).
  - exists s', a. split; [exact E|].
    assert (H : (fun '(s, a) => ((op s).(phase_), (op s).(pending_target_), a)) <$> tick demo_lossy 2201 =
      Some (kBitrateLead, 0%nat, MkSelectorActions None (Some 4040))) by (vm_compute; reflexivity).
    rewrite E in H. cbn in H. injection H as H1 H2 H3. repeat split; assumption.
Defined.

Lemma selector_never_oversubscribes_witness :
  exists s r, sel_run demo_sel (None, None) (demo_clean 20) = Some (s, r) /\ s.(op).(bitrate_kbps_) <= 36856.
Proof.
  destruct (selector_never_oversubscribes SelectorPolicy_init demo_ladder (demo_clean 20)) as (s & r & E & H).
  - reflexivity.
  - discriminate.
  - exists s, r. split; [exact E|].
    assert (Hp : (fun x => ((op (fst x)).(phase_), (op (fst x)).(rung_))) <$> sel_run demo_sel (None, None) (demo_clean 20) =
      Some (kPhaseIdle, 3%nat)) by (vm_compute; reflexivity).
    unfold demo_sel in Hp. rewrite E in Hp. cbn in Hp. injection Hp as H1 H2.
    destruct H as (p & Hp & _ & Hb); [rewrite H1; discriminate|]. rewrite H2 in Hp. injection Hp as <-.
    apply Hb. clear. intros i j a b Hij Ha Hb.
    do 4 (destruct i as [|i]; [do 4 (destruct j as [|j]; [try (exfalso; lia); injection Ha as <-; injection Hb as <-; vm_compute; discriminate|]); discriminate Hb|]).
    discriminate Ha.
Defined.

Lemma selector_failsafe_descends_witness :
  exists s', ticks (demo_after (demo_clean 20)) (map (fun i => 5000 + 1000 * i) (seqZ 0 6)) = Some s' /\
    s'.(op).(phase_) = kPhaseIdle /\ s'.(op).(rung_) = 0%nat.
Proof.
  apply (selector_failsafe_descends 1000 (demo_after (demo_clean 20)) 5000).
  - constructor.
    + split; vm_compute; (reflexivity || lia).
    + vm_compute; discriminate.
    + split; [vm_compute; lia|]. intros H; vm_compute in H; discriminate H.
    + vm_compute; reflexivity.
    + vm_compute; reflexivity.
    + vm_compute; discriminate.
    + vm_compute; discriminate.
    + vm_compute. repeat split; (discriminate || reflexivity).
    + vm_compute. repeat split; (discriminate || reflexivity).
    + vm_compute. discriminate.
    + intros _. vm_compute. discriminate.
  - vm_compute. repeat split; (discriminate || reflexivity).
  - vm_compute. lia.
Defined.
