(* ===== verification/UplinkData.v ===== *)
(** * Uplink data plane ([node/include/wblink/node/uplink_data.h])

    The ground half frames a datagram and sends it at once or holds it for the
    next return window; the craft half accepts a stream's frames from the bound
    ground in strictly increasing order.  Calls of [send_now] and [deliver] are
    lists, in order. *)
From S2P Require Import Prelude Types Wire Framer.

Definition kUplinkMaxDatagram : Z := 1424 - kDataHeaderSize.

Record UplinkPolicy : Type := MkUplinkPolicy {
  fallback_ms : Z;
  pps_budget : Z;
  telemetry_hold : Z
}.
Definition UplinkPolicy_init : UplinkPolicy := MkUplinkPolicy 50 100 32.

(** The counters of [UplinkDataStreamStats]. *)
Record UplinkDataStreamStats : Type := MkUplinkDataStreamStats {
  ud_submitted : Z;
  ud_sent : Z;
  ud_dropped_stale : Z;
  ud_dropped_budget : Z;
  ud_dropped_oversize : Z;
  ud_accepted : Z;
  ud_rej_unbound : Z;
  ud_rej_stream : Z;
  ud_dup : Z
}.
Definition UplinkDataStreamStats_init : UplinkDataStreamStats := MkUplinkDataStreamStats 0 0 0 0 0 0 0 0 0.
Definition count_uplink (s : UplinkDataStreamStats) (submitted sent stale budget oversize : Z) : UplinkDataStreamStats :=
  MkUplinkDataStreamStats (to_u64 (s.(ud_submitted) + submitted)) (to_u64 (s.(ud_sent) + sent)) (to_u64 (s.(ud_dropped_stale) + stale))
    (to_u64 (s.(ud_dropped_budget) + budget)) (to_u64 (s.(ud_dropped_oversize) + oversize))
    s.(ud_accepted) s.(ud_rej_unbound) s.(ud_rej_stream) s.(ud_dup).
Definition count_accept (s : UplinkDataStreamStats) (accepted unbound stream dup : Z) : UplinkDataStreamStats :=
  MkUplinkDataStreamStats s.(ud_submitted) s.(ud_sent) s.(ud_dropped_stale) s.(ud_dropped_budget) s.(ud_dropped_oversize)
    (to_u64 (s.(ud_accepted) + accepted)) (to_u64 (s.(ud_rej_unbound) + unbound)) (to_u64 (s.(ud_rej_stream) + stream))
    (to_u64 (s.(ud_dup) + dup)).

(** ** Ground half *)
Record UplinkDataStream : Type := MkUplinkDataStream {
  us_stream_id : Z;
  us_stype : Z;
  us_framer : Framer;
  us_held : list (list Z);            (** a deque, oldest first *)
  pps_win_start_us : Z;
  pps_in_win : Z;
  us_st : UplinkDataStreamStats
}.
Definition UplinkDataStream_init (sid stream_type_in : Z) (fc : FramerConfig) : UplinkDataStream :=
  MkUplinkDataStream sid stream_type_in (Framer_init fc) [] 0 0 UplinkDataStreamStats_init.

(** The callback on one frame: the new hold, the frames sent, sent and stale
    counts.  [None] pops an empty deque. *)
Definition emit_frame (stype : Z) (gated : bool) (pol : UplinkPolicy) (held : list (list Z)) (f : list Z)
    : option (list (list Z) * list (list Z) * Z * Z) :=
  if negb gated then Some (held, [f], 1, 0)
  else if stype =? stream_type_kControl then Some ([f], [], 0, len held)
  else if len held >=? pol.(telemetry_hold) then
    match held with
    | [] => None
    | _ :: held => Some (held ++ [f], [], 0, 1)
    end
  else Some (held ++ [f], [], 0, 0).

Definition uplink_on_datagram (u : UplinkDataStream) (d : list Z) (now_ms_in now_us_in : Z) (gated : bool) (pol : UplinkPolicy)
    : option (bool * list (list Z) * UplinkDataStream) :=
  let st := count_uplink u.(us_st) 1 0 0 0 0 in
  if len d >? kUplinkMaxDatagram then
    Some (false, [], MkUplinkDataStream u.(us_stream_id) u.(us_stype) u.(us_framer) u.(us_held) u.(pps_win_start_us) u.(pps_in_win)
                       (count_uplink st 0 0 0 0 1))
  else
    let '(start, n) := if to_u64 (now_us_in - u.(pps_win_start_us)) >=? 1000000 then (now_us_in, 0)
                       else (u.(pps_win_start_us), u.(pps_in_win)) in
    let n := to_u32 (n + 1) in
    if n >? pol.(pps_budget) then
      Some (false, [], MkUplinkDataStream u.(us_stream_id) u.(us_stype) u.(us_framer) u.(us_held) start n (count_uplink st 0 0 0 1 0))
    else
      '(_, frames, framer) ← on_datagram u.(us_framer) d now_ms_in;
      '(held, sent, nsent, nstale) ←
        foldl (fun acc '(f, _, _) =>
          '(held, sent, nsent, nstale) ← acc;
          '(held, s, a, b) ← emit_frame u.(us_stype) gated pol held f;
          Some (held, sent ++ s, nsent + a, nstale + b)) (Some (u.(us_held), [], 0, 0)) frames;
      Some (gated && negb (bool_decide (frames = [])), sent,
            MkUplinkDataStream u.(us_stream_id) u.(us_stype) framer held start n (count_uplink st 0 nsent nstale 0 0)).

Definition flush (u : UplinkDataStream) : list (list Z) * UplinkDataStream :=
  (u.(us_held), MkUplinkDataStream u.(us_stream_id) u.(us_stype) u.(us_framer) [] u.(pps_win_start_us) u.(pps_in_win)
                  (count_uplink u.(us_st) 0 (len u.(us_held)) 0 0 0)).

(** ** Craft half *)
Record UplinkAcceptor : Type := MkUplinkAcceptor {
  ua_stream_id : Z;
  ua_stype : Z;
  src_originator : Z;
  src_session : Z;
  have_seq : bool;
  last_seq : Z;
  ua_st : UplinkDataStreamStats
}.
Definition UplinkAcceptor_init (sid stream_type_in : Z) : UplinkAcceptor :=
  MkUplinkAcceptor sid stream_type_in 0 0 false 0 UplinkDataStreamStats_init.
Definition with_ua_st (a : UplinkAcceptor) (s : UplinkDataStreamStats) : UplinkAcceptor :=
  MkUplinkAcceptor a.(ua_stream_id) a.(ua_stype) a.(src_originator) a.(src_session) a.(have_seq) a.(last_seq) s.

(** Whether the frame is this stream's, and the payloads delivered. *)
Definition accept_data (a : UplinkAcceptor) (v : DataView) (bound : option Z) : bool * list (ptr * Z) * UplinkAcceptor :=
  let h := v.(dv_hdr) in
  let orig := h.(dh_prefix).(originator) in let sess := h.(dh_prefix).(session_id) in
  if negb (h.(dh_stream_id) =? a.(ua_stream_id)) then (false, [], a)
  else if negb (h.(dh_stream_type) =? a.(ua_stype)) then (true, [], with_ua_st a (count_accept a.(ua_st) 0 0 1 0))
  else if negb (bool_decide (bound = Some orig)) then (true, [], with_ua_st a (count_accept a.(ua_st) 0 1 0 0))
  else if a.(have_seq) && (a.(src_originator) =? orig) && (a.(src_session) =? sess) && (h.(dh_seq) <=? a.(last_seq))
  then (true, [], with_ua_st a (count_accept a.(ua_st) 0 0 0 1))
  else (true, [(v.(dv_payload), v.(dv_payload_len))],
        MkUplinkAcceptor a.(ua_stream_id) a.(ua_stype) orig sess true h.(dh_seq) (count_accept a.(ua_st) 1 0 0 0)).
(** The node's use of it: a frame that decodes to DATA goes to the acceptor. *)
Definition accept_frame (a : UplinkAcceptor) (frame : list Z) (bound : option Z) : option (list (ptr * Z) * UplinkAcceptor) :=
  dec ← decode (Some frame);
  match dec with
  | DData v => let '(_, out, a) := accept_data a v bound in Some (out, a)
  | _ => Some ([], a)
  end.
