(* ===== verification/UplinkProps.v ===== *)
(** * Theorems about the uplink data plane

    The ground's ledger closes, and what the craft delivers from any frames it
    hears is a subsequence of the datagrams submitted, in order, each at most
    once; without loss it is everything sent. *)
From Stdlib Require Import Sorting.Sorted.
From S2P Require Import Prelude Types Wire WireFacts Framer FramerProps UplinkData.

(** ** Runs *)
Inductive UplinkEvent : Type :=
| UDatagram (d : list Z) (now_ms now_us : Z) (gated : bool)
| UFlush.
Definition uplink_step (pol : UplinkPolicy) (u : UplinkDataStream) (e : UplinkEvent) : option (list (list Z) * UplinkDataStream) :=
  match e with
  | UDatagram d now_ms now_us gated => '(_, sent, u) ← uplink_on_datagram u d now_ms now_us gated pol; Some (sent, u)
  | UFlush => Some (flush u)
  end.
Fixpoint uplink_run (pol : UplinkPolicy) (u : UplinkDataStream) (l : list UplinkEvent) : option (list (list Z) * UplinkDataStream) :=
  match l with
  | [] => Some ([], u)
  | e :: l => '(s, u) ← uplink_step pol u e; '(s', u) ← uplink_run pol u l; Some (s ++ s', u)
  end.
Definition submitted (l : list UplinkEvent) : list (list Z) := omap (fun e => match e with UDatagram d _ _ _ => Some d | UFlush => None end) l.
Fixpoint accept_run (a : UplinkAcceptor) (bound : option Z) (l : list (list Z)) : option (list (ptr * Z) * UplinkAcceptor) :=
  match l with
  | [] => Some ([], a)
  | f :: l => '(out, a) ← accept_frame a f bound; '(out', a) ← accept_run a bound l; Some (out ++ out', a)
  end.
(** The datagrams too large for a frame. *)
Definition oversized (l : list (list Z)) : Z := len (List.filter (fun d => len d >? kUplinkMaxDatagram) l).
Lemma oversized_snoc l d : oversized (l ++ [d]) = oversized l + if len d >? kUplinkMaxDatagram then 1 else 0.
Proof. unfold oversized. rewrite List.filter_app, length_app. cbn [List.filter]. destruct (_ >? _); cbn [length]; lia. Qed.
Definition payload_of (x : ptr * Z) : list Z := default [] x.1.

(** ** Indices *)
Lemma sublist_indices {A} (J : list nat) (D ks : list A) :
  StronglySorted lt J -> Forall2 (fun i d => ks !! i = Some d) J D -> D `sublist_of` ks.
Proof.
  revert J D. induction ks as [|k ks IH]; intros J D HJ HD.
  - destruct HD; [done|]. rewrite lookup_nil in *. done.
  - assert (Hshift : forall J' D', Forall (fun i => 0 < i)%nat J' -> StronglySorted lt J' ->
      Forall2 (fun i d => (k :: ks) !! i = Some d) J' D' -> D' `sublist_of` ks).
    { intros J' D' Hpos HJ' HD'. apply (IH (map Nat.pred J')).
      - clear HD'. induction HJ' as [|i J' HJ' IH' Hi]; simpl; constructor; apply Forall_cons in Hpos as [? Hpos]; [by apply IH'|].
        apply Forall_map, Forall_forall. intros j Hj. rewrite Forall_forall in Hi, Hpos. specialize (Hi _ Hj). specialize (Hpos _ Hj).
        simpl. lia.
      - clear HJ'. induction HD' as [|i d J' D' Hi HD' IH']; simpl; constructor; apply Forall_cons in Hpos as [? Hpos]; [|by apply IH'].
        destruct i; [lia|]. done. }
    destruct HD as [|i d J D Hi HD]; [apply sublist_nil_l|].
    apply StronglySorted_inv in HJ as [HJ Hmin]. destruct i as [|i].
    + simpl in Hi. simplify_eq. apply sublist_skip, (Hshift J); [|done|done].
      eapply Forall_impl; [exact Hmin|]. simpl. lia.
    + apply sublist_cons, (Hshift (S i :: J)); [|by constructor|by constructor].
      constructor; [lia|]. eapply Forall_impl; [exact Hmin|]. simpl. lia.
Qed.

Lemma seqs_sorted_snoc (J : list nat) k : StronglySorted lt J -> Forall (fun i => i < k)%nat J -> StronglySorted lt (J ++ [k]).
Proof.
  intros HJ Hk. induction HJ as [|i J HJ IH Hi]; simpl; [by repeat constructor|]. apply Forall_cons in Hk as [? Hk].
  constructor; [by apply IH|]. apply Forall_app. split; [done|]. by constructor.
Qed.
Lemma sorted_drop (I J : list nat) k : StronglySorted lt (I ++ k :: J) -> StronglySorted lt (I ++ J).
Proof.
  induction I as [|i I IH]; simpl; intros H; apply StronglySorted_inv in H as [H Hi]; [done|].
  constructor; [by apply IH|]. rewrite !Forall_app, Forall_cons in *. tauto.
Qed.
Lemma sorted_app_l (I J : list nat) : StronglySorted lt (I ++ J) -> StronglySorted lt I.
Proof.
  induction I as [|i I IH]; simpl; intros H; [constructor|]. apply StronglySorted_inv in H as [H Hi].
  constructor; [by apply IH|]. by apply Forall_app in Hi as [? _].
Qed.

(** ** The ground half *)
Section Ground.
Context (f0 : Framer) (pol : UplinkPolicy) (mode : option bool) (sid stype : Z).
Hypothesis Hwf : wf_framer_cfg f0.
Hypothesis Hhold : 1 <= pol.(telemetry_hold).

Definition view_of_datagram (ks : list (list Z)) (i : nat) (d : list Z) : DataView :=
  MkDataView (expected_hdr f0 (take i ks) d) (if len d >? 0 then Some d else None) (len d).
(** The frame of the [i]-th datagram framed. *)
Definition frame_at (ks : list (list Z)) (i : nat) (f : list Z) : Prop :=
  exists d, ks !! i = Some d /\ decode (Some f) = Some (DData (view_of_datagram ks i d)).
Lemma frame_at_snoc ks d i f : frame_at ks i f -> frame_at (ks ++ [d]) i f.
Proof.
  intros (x & Hx & Hd). exists x. pose proof (lookup_lt_Some _ _ _ Hx). split; [by apply lookup_app_l_Some|].
  unfold view_of_datagram in *. by rewrite take_app_le by lia.
Qed.
Lemma frames_snoc ks d I fs : Forall2 (frame_at ks) I fs -> Forall2 (frame_at (ks ++ [d])) I fs.
Proof. intros H. eapply Forall2_impl; [exact H|]. intros; by apply frame_at_snoc. Qed.
Lemma frames_bound ks I fs : Forall2 (frame_at ks) I fs -> Forall (fun i => i < length ks)%nat I.
Proof. induction 1 as [|i f I fs (d & Hd & _) _ IH]; constructor; [by eapply lookup_lt_Some|done]. Qed.

(** What the stream is after the datagrams [subs], [sent] sent so far. *)
Record ground_ok (subs sent : list (list Z)) (u : UplinkDataStream) : Prop := {
  go_stype : u.(us_stype) = stype;
  go_frames : exists ks I J n o,
    framer_inv f0 ks n o u.(us_framer) /\ ks `sublist_of` subs /\ Forall2 (frame_at ks) I sent /\ Forall2 (frame_at ks) J u.(us_held) /\
    forall g, mode = Some g -> StronglySorted lt (I ++ J) /\ (g = false -> J = []);
  go_ledger : exists stale budget oversize, 0 <= stale /\ 0 <= budget /\ oversize = oversized subs /\
    len subs = len sent + len u.(us_held) + stale + budget + oversize /\
    u.(us_st).(ud_submitted) = to_u64 (len subs) /\ u.(us_st).(ud_sent) = to_u64 (len sent) /\
    u.(us_st).(ud_dropped_stale) = to_u64 stale /\ u.(us_st).(ud_dropped_budget) = to_u64 budget /\
    u.(us_st).(ud_dropped_oversize) = to_u64 oversize
}.

Lemma to_u64_add_l a b : to_u64 (to_u64 a + b) = to_u64 (a + b).
Proof. unfold to_u64. by rewrite Zplus_mod_idemp_l. Qed.
Lemma to_u64_idem a : to_u64 (to_u64 a) = to_u64 a.
Proof. apply to_u64_id, to_u64_u64. Qed.
Ltac ledger := simpl; repeat first [rewrite to_u64_add_l | rewrite Z.add_0_r | rewrite to_u64_idem].

Ltac balance := split_and!; try done; try lia; try (f_equal; lia).

Lemma emit_frame_ok ks I J sent held gated f :
  Forall2 (frame_at ks) I sent -> Forall2 (frame_at ks) J held -> frame_at ks (length ks - 1) f -> ks <> [] ->
  Forall (fun i => i < length ks - 1)%nat (I ++ J) ->
  (forall g, mode = Some g -> gated = g /\ StronglySorted lt (I ++ J) /\ (g = false -> J = [])) ->
  exists held' s a b I' J', emit_frame stype gated pol held f = Some (held', s, a, b) /\
    Forall2 (frame_at ks) I' (sent ++ s) /\ Forall2 (frame_at ks) J' held' /\
    (forall g, mode = Some g -> StronglySorted lt (I' ++ J') /\ (g = false -> J' = [])) /\
    a = len s /\ len held + 1 = len s + len held' + b /\ 0 <= b.
Proof.
  intros HI HJ Hf Hks Hlt Hm. unfold emit_frame. set (k := (length ks - 1)%nat) in *.
  destruct gated; simpl.
  2:{ exists held, [f], 1, 0, (I ++ [k]), J. split; [done|]. split; [apply Forall2_app; [done|by repeat constructor]|]. split; [done|].
      split; [|split; [done|simpl; lia]]. intros g Eg. destruct (Hm g Eg) as (<- & Hs & Hj). specialize (Hj eq_refl). subst J.
      rewrite !app_nil_r in *. split; [by apply seqs_sorted_snoc|done]. }
  assert (Hsnoc : forall J0 h0, Forall2 (frame_at ks) J0 h0 -> Forall (fun i => i < k)%nat (I ++ J0) ->
    (forall g, mode = Some g -> StronglySorted lt (I ++ J0)) ->
    Forall2 (frame_at ks) (J0 ++ [k]) (h0 ++ [f]) /\ forall g, mode = Some g -> StronglySorted lt (I ++ J0 ++ [k]) /\ (g = false -> J0 ++ [k] = [])).
  { intros J0 h0 H0 Hlt0 Hs0. split; [apply Forall2_app; [done|by repeat constructor]|]. intros g Eg.
    rewrite app_assoc. split; [apply seqs_sorted_snoc; [by apply (Hs0 g)|done]|]. destruct (Hm g Eg) as (<- & _). done. }
  destruct (stype =? stream_type_kControl).
  { destruct (Hsnoc [] []) as [H1 H2]; [constructor|by rewrite app_nil_r; apply Forall_app in Hlt as [? _]|
      intros g Eg; rewrite app_nil_r; destruct (Hm g Eg) as (_ & Hs & _); by eapply sorted_app_l|].
    exists [f], [], 0, (len held), I, [k]. rewrite app_nil_r. split_and!; try done; simpl; lia. }
  rewrite Z.geb_leb. destruct (Z.leb_spec (telemetry_hold pol) (len held)) as [Hfull|Hroom].
  - destruct HJ as [|j h J held Hj HJ]; [simpl in Hfull; lia|].
    destruct (Hsnoc J held HJ) as [H1 H2]; [rewrite !Forall_app, Forall_cons in *; tauto|
      intros g Eg; destruct (Hm g Eg) as (_ & Hs & _); by eapply sorted_drop|].
    exists (held ++ [f]), [], 0, 1, I, (J ++ [k]). rewrite app_nil_r. split_and!; try done; rewrite ?length_app; simpl; lia.
  - destruct (Hsnoc J held HJ Hlt) as [H1 H2]; [intros g Eg; by destruct (Hm g Eg) as (_ & ? & _)|].
    exists (held ++ [f]), [], 0, 0, I, (J ++ [k]). rewrite app_nil_r. split_and!; try done; rewrite ?length_app; simpl; lia.
Qed.

(** One event keeps the account. *)
Definition mode_ok (e : UplinkEvent) : Prop :=
  match e with UDatagram d _ _ g => bytes d /\ (forall g', mode = Some g' -> g = g') | UFlush => True end.
Lemma ground_step subs sent u e : ground_ok subs sent u -> mode_ok e -> exists s u',
  uplink_step pol u e = Some (s, u') /\ ground_ok (subs ++ submitted [e]) (sent ++ s) u'.
Proof.
  intros [Hst (ks & I & J & n & o & Hfi & Hsub & HI & HJ & Hm) (stale & budget & over & S1 & S2 & S3 & Hsum & L1 & L2 & L3 & L4 & L5)] He.
  destruct e as [d now_ms now_us gated|]; simpl.
  2:{ eexists _, _. split; [done|]. rewrite app_nil_r. split; [done| |].
      - exists ks, (I ++ J), [], n, o. rewrite app_nil_r. split_and!; try done; [by apply Forall2_app|].
        intros g Eg. destruct (Hm g Eg). split_and!; done.
      - exists stale, budget, over. simpl. rewrite L1, L2, L3, L4, L5, length_app. ledger.
        balance. }
  destruct He as [Hd Hg]. unfold submitted. simpl.
  assert (Hlen : len (subs ++ [d]) = len subs + 1) by (rewrite length_app; simpl; lia).
  assert (Hs1 : ks `sublist_of` subs ++ [d]) by (by apply sublist_inserts_r).
  pose proof (oversized_snoc subs d) as Hov. rewrite Z.gtb_ltb in Hov.
  unfold uplink_on_datagram. rewrite Z.gtb_ltb. destruct (Z.ltb_spec kUplinkMaxDatagram (len d)) as [Hbig|Hfit].
  { simpl. eexists _, _. split; [done|]. rewrite app_nil_r. split; [done|by exists ks, I, J, n, o|].
    exists stale, budget, (over + 1). simpl. rewrite L1, L2, L3, L4, L5, Hlen. ledger. balance. }
  destruct (if to_u64 (now_us - pps_win_start_us u) >=? 1000000 then (now_us, 0) else (pps_win_start_us u, pps_in_win u)) as [start cnt].
  destruct (to_u32 (cnt + 1) >? pps_budget pol).
  { simpl. eexists _, _. split; [done|]. rewrite app_nil_r. split; [done|by exists ks, I, J, n, o|].
    exists stale, (budget + 1), over. simpl. rewrite L1, L2, L3, L4, L5, Hlen. ledger. balance. }
  destruct (on_datagram_spec f0 ks n o (us_framer u) d now_ms Hwf Hd Hfi) as (ok & frames & f' & E & Hcase).
  rewrite (proj2 (Z.leb_le _ _)) in Hcase by (unfold kUplinkMaxDatagram, kMaxDataPayload, kDataHeaderSize in *; lia).
  destruct Hcase as (_ & Hfi' & x & -> & (Hx1 & _ & Hdec)). rewrite E. cbn [mbind option_bind foldl].
  destruct x as [[fr hd] tm]. cbn [fst snd] in *. set (ks' := ks ++ [d]) in *.
  assert (Hlk : length ks' = S (length ks)) by (unfold ks'; rewrite length_app; simpl; lia).
  rewrite Hst. destruct (emit_frame_ok ks' I J sent (us_held u) gated fr) as (held' & s & a & b & I' & J' & -> & HI' & HJ' & Hm' & Ha & Hcnt & Hb).
  - by apply frames_snoc.
  - by apply frames_snoc.
  - exists d. unfold view_of_datagram, ks'. rewrite length_app. simpl.
    replace (length ks + 1 - 1)%nat with (length ks) by lia. split; [by apply list_lookup_middle|].
    by rewrite take_app_length.
  - unfold ks'. intros Hnil. apply (f_equal length) in Hnil. rewrite length_app in Hnil. simpl in Hnil. lia.
  - rewrite Hlk. apply Forall_app. split; (eapply Forall_impl; [eapply frames_bound; done|]; simpl; lia).
  - intros g Eg. destruct (Hm g Eg). split_and!; auto.
  - cbn [mbind option_bind app]. eexists _, _. split; [done|]. split; [done| |].
    + exists ks', I', J', (n + 1), o. split_and!; try done. unfold ks'. apply sublist_app; done.
    + exists (stale + b), budget, over. simpl. rewrite L1, L2, L3, L4, L5, Hlen, length_app. ledger.
      balance.
Qed.
Lemma ground_run l subs sent u : ground_ok subs sent u -> Forall mode_ok l -> exists s u',
  uplink_run pol u l = Some (s, u') /\ ground_ok (subs ++ submitted l) (sent ++ s) u'.
Proof.
  intros Hg Hl. revert subs sent u Hg. induction Hl as [|e l He Hl IH]; intros subs sent u Hg.
  - exists [], u. unfold submitted; simpl. rewrite !app_nil_r. done.
  - destruct (ground_step subs sent u e Hg He) as (s & u1 & E & H1). cbn [uplink_run]. rewrite E. cbn [mbind option_bind].
    destruct (IH _ _ _ H1) as (s2 & u2 & -> & H2). cbn [mbind option_bind]. eexists _, _. split; [done|].
    assert (Hsub : submitted (e :: l) = submitted [e] ++ submitted l) by (unfold submitted; simpl; by destruct e).
    rewrite Hsub, !app_assoc. exact H2.
Qed.
End Ground.

(** ** The craft half *)
Section Craft.
Context (f0 : Framer) (ks : list (list Z)) (sid stype : Z).
Hypothesis Hwf : wf_framer_cfg f0.
Hypothesis Hsmall : len ks < 2 ^ 32.
Hypothesis Hsid : f0.(fr_cfg).(fc_stream_id) = sid.
Hypothesis Hstype : f0.(fr_cfg).(fc_stream_type) = stype.
Local Abbreviation orig := f0.(fr_cfg).(fc_originator).
Local Abbreviation sess := f0.(fr_cfg).(fc_session_id).

(** A frame another sender could have put on the air: it is no DATA of this
    stream from the bound ground. *)
Definition foreign (f : list Z) : Prop :=
  bytes f /\ forall v, decode (Some f) = Some (DData v) ->
    v.(dv_hdr).(dh_stream_id) <> sid \/ v.(dv_hdr).(dh_stream_type) <> stype \/ v.(dv_hdr).(dh_prefix).(originator) <> orig.

(** Delivered so far: the datagrams at increasing indices. *)
Record craft_ok (D : list (ptr * Z)) (J : list nat) (a : UplinkAcceptor) : Prop := {
  co_sid : a.(ua_stream_id) = sid;
  co_stype : a.(ua_stype) = stype;
  co_sorted : StronglySorted lt J;
  co_delivered : Forall2 (fun i x => exists d, ks !! i = Some d /\ x = (if len d >? 0 then Some d else None, len d)) J D;
  co_bound : Forall (fun i => i < length ks)%nat J;
  co_cursor : if a.(have_seq)
    then a.(src_originator) = orig /\ a.(src_session) = sess /\ exists i, last J = Some i /\ a.(last_seq) = Z.of_nat i
    else J = []
}.

Lemma sorted_last J i : StronglySorted lt J -> last J = Some i -> Forall (fun j => j <= i)%nat J.
Proof.
  induction 1 as [|j J HJ IH Hj]; intros Hl; [done|]. destruct J as [|k J]; simpl in Hl.
  - injection Hl as ->. by constructor.
  - specialize (IH Hl). constructor; [|done]. apply Forall_cons in Hj as [? _]. apply Forall_cons in IH as [? _]. lia.
Qed.

Lemma seq_of_index i d : ks !! i = Some d -> dh_seq (expected_hdr f0 (take i ks) d) = Z.of_nat i.
Proof.
  intros Hi. apply lookup_lt_Some in Hi as Hlt. unfold expected_hdr. cbn [dh_seq]. rewrite length_take_le by lia.
  apply to_u32_id. unfold u32. lia.
Qed.

Lemma craft_own D J a f i : craft_ok D J a -> frame_at f0 ks i f -> exists out a',
  accept_frame a f (Some orig) = Some (out, a') /\
  (exists J', craft_ok (D ++ out) J' a' /\
     (Forall (fun j => j < i)%nat J -> J' = J ++ [i] /\ length out = 1%nat)).
Proof.
  intros [] (d & Hd & Hdec). pose proof (seq_of_index i d Hd) as Hseq. apply lookup_lt_Some in Hd as Hlt.
  unfold accept_frame. rewrite Hdec. cbn [mbind option_bind]. unfold accept_data, view_of_datagram. cbn [dv_hdr dv_payload dv_payload_len].
  rewrite Hseq. unfold expected_hdr. cbn [dh_prefix dh_stream_id dh_stream_type originator session_id].
  rewrite Hsid, Hstype, co_sid0, co_stype0, !Z.eqb_refl, bool_decide_true by done. simpl.
  assert (Hnew : forall J', J' = J -> Forall (fun j => j < i)%nat J' ->
    craft_ok (D ++ [(if len d >? 0 then Some d else None, len d)]) (J ++ [i])
      (MkUplinkAcceptor sid stype orig sess true (Z.of_nat i) (count_accept a.(ua_st) 1 0 0 0))).
  { intros J' -> HJ. split; cbn; try done.
    - by apply seqs_sorted_snoc.
    - apply Forall2_app; [done|]. constructor; [by exists d|done].
    - apply Forall_app. split; [done|]. by constructor.
    - split_and!; try done. exists i. by rewrite last_snoc. }
  destruct (have_seq a) eqn:Eh.
  - destruct co_cursor0 as (Eo & Es & i0 & Hl & El). rewrite Eo, Es, El, !Z.eqb_refl. simpl.
    pose proof (sorted_last _ _ co_sorted0 Hl) as Hmax.
    destruct (Z.leb_spec (Z.of_nat i) (Z.of_nat i0)) as [Hle|Hgt].
    + eexists [], _. split; [done|]. exists J. rewrite app_nil_r. split.
      * split; cbn; try done. rewrite Eh. split_and!; try done. by exists i0.
      * intros HJ. exfalso. apply last_Some in Hl as [J0 ->]. apply Forall_app in HJ as [_ HJ]. apply Forall_cons in HJ as [? _]. lia.
    + eexists _, _. split; [done|]. exists (J ++ [i]). split; [|done]. apply (Hnew J eq_refl).
      eapply Forall_impl; [exact Hmax|]. simpl. lia.
  - subst J. eexists _, _. split; [done|]. exists ([] ++ [i]). split; [|done]. by apply (Hnew []).
Qed.
Lemma craft_foreign D J a f : craft_ok D J a -> foreign f -> exists a',
  accept_frame a f (Some orig) = Some ([], a') /\ craft_ok D J a'.
Proof.
  intros [] [Hb Hf]. unfold accept_frame.
  destruct (decode_total_lemma (Some f)) as [dec Hdec]; [by intros buf [= <-]|]. rewrite Hdec in *. cbn [mbind option_bind].
  destruct dec as [| v | | | | | | | | | | | | | | | | |]; try (exists a; done).
  specialize (Hf v eq_refl). unfold accept_data. rewrite co_sid0, co_stype0.
  destruct (Z.eqb_spec (dh_stream_id (dv_hdr v)) sid); simpl; [|exists a; done].
  destruct (Z.eqb_spec (dh_stream_type (dv_hdr v)) stype); simpl; [|eexists; split; [done|]; by split].
  rewrite bool_decide_false; [eexists; split; [done|]; by split|]. intros [= Ho]. destruct Hf as [|[|Hf]]; [done|done|]. congruence.
Qed.

Lemma craft_run l : forall D J a, craft_ok D J a -> Forall (fun f => (exists i, frame_at f0 ks i f) \/ foreign f) l ->
  exists out a' J', accept_run a (Some orig) l = Some (out, a') /\ craft_ok (D ++ out) J' a'.
Proof.
  induction l as [|f l IH]; intros D J a Ha Hl; simpl.
  - exists [], a, J. by rewrite app_nil_r.
  - apply Forall_cons in Hl as [Hf Hl].
    assert (H : exists out a1 J1, accept_frame a f (Some orig) = Some (out, a1) /\ craft_ok (D ++ out) J1 a1).
    { destruct Hf as [[i Hi]|Hf].
      - destruct (craft_own D J a f i Ha Hi) as (out & a1 & E & J1 & H1 & _). by exists out, a1, J1.
      - destruct (craft_foreign D J a f Ha Hf) as (a1 & E & H1). exists [], a1, J. by rewrite app_nil_r. }
    destruct H as (out & a1 & J1 & -> & H1). cbn [mbind option_bind].
    destruct (IH _ _ _ H1 Hl) as (out2 & a2 & J2 & -> & H2). cbn [mbind option_bind]. eexists _, _, J2. split; [done|].
    by rewrite app_assoc.
Qed.
(** Every frame in order: all of them are delivered. *)
Lemma craft_all l I : forall D J a, craft_ok D J a -> Forall2 (frame_at f0 ks) I l -> StronglySorted lt (J ++ I) ->
  exists out a', accept_run a (Some orig) l = Some (out, a') /\ length out = length l.
Proof.
  revert I. induction l as [|f l IH]; intros I D J a Ha Hl Hs; simpl; [by exists [], a|].
  apply Forall2_cons_inv_r in Hl as (i & I' & Hi & HI & ->).
  destruct (craft_own D J a f i Ha Hi) as (out & a1 & -> & J1 & H1 & Hnew). cbn [mbind option_bind].
  assert (HJ : Forall (fun j => j < i)%nat J).
  { clear -Hs. induction J as [|j J IHJ]; [constructor|]. simpl in Hs. apply StronglySorted_inv in Hs as [Hs Hj].
    constructor; [|by apply IHJ]. rewrite Forall_app, Forall_cons in Hj. tauto. }
  destruct (Hnew HJ) as [-> Ho]. destruct (IH I' _ _ _ H1 HI) as (out2 & a2 & -> & Hlen); [by rewrite <- app_assoc|].
  cbn [mbind option_bind]. eexists _, _. split; [done|]. rewrite length_app. lia.
Qed.
End Craft.

(** ** The theorem *)
Lemma ground_init fc mode sid : ground_ok (Framer_init fc) mode fc.(fc_stream_type) [] [] (UplinkDataStream_init sid fc.(fc_stream_type) fc).
Proof.
  split; [done| |].
  - exists [], [], [], 0, 0. split_and!; try done.
    intros g _. split; [constructor|done].
  - by exists 0, 0, 0.
Qed.
Lemma craft_init f0 ks sid stype : craft_ok f0 ks sid stype [] [] (UplinkAcceptor_init sid stype).
Proof. split; try done. constructor. Qed.

Lemma payloads_of (ks : list (list Z)) (J : list nat) D : Forall2 (fun i x => exists d, ks !! i = Some d /\ x = (if len d >? 0 then Some d else None, len d)) J D ->
  Forall2 (fun i d => ks !! i = Some d) J (map payload_of D).
Proof.
  induction 1 as [|i x J D (d & Hd & ->) _ IH]; simpl; constructor; [|done]. rewrite Hd. f_equal. unfold payload_of; simpl.
  destruct d; [done|]. by simpl.
Qed.
Lemma sublist_len {A} (k l : list A) : k `sublist_of` l -> len k <= len l.
Proof. intros H%sublist_length. lia. Qed.
Lemma sublist_full {A} (k l : list A) : k `sublist_of` l -> length k = length l -> k = l.
Proof.
  induction 1 as [|x k l Hs IH|x k l Hs IH]; cbn; intros E; [done|f_equal; apply IH; lia|]. apply sublist_length in Hs. lia.
Qed.
Lemma submitted_len l : len (submitted l) <= len l.
Proof.
  induction l as [|e l IH]; [done|].
  assert (H : length (submitted (e :: l)) = (length (submitted [e]) + length (submitted l))%nat) by (unfold submitted; simpl; by destruct e).
  rewrite H. destruct e; cbn [length submitted omap list_omap]; lia.
Qed.

(** C9. The uplink is a FIFO that loses only what it counts.  Whatever the
    ingress, gating and flushes: every datagram submitted is sent, held, or
    counted as stale, over budget or oversize - the oversize ones exactly those
    too large for a frame - and from any frames the craft hears - those sent, in
    any order, with losses and repetitions, mixed with foreign ones - it delivers
    datagrams that were submitted, unaltered, in the order of their submission
    and each at most once.  Where the gating does not change and the frames
    arrive as sent, it delivers one for every frame sent: all that was submitted
    but the counted drops and what is still held, and with none of those exactly
    what was submitted. *)
Theorem uplink_in_order (fc : FramerConfig) (pol : UplinkPolicy) (mode : option bool) (l : list UplinkEvent) :
  wf_framer_cfg (Framer_init fc) -> 1 <= pol.(telemetry_hold) -> Forall (mode_ok mode) l -> len l < 2 ^ 32 ->
  exists sent u,
    uplink_run pol (UplinkDataStream_init fc.(fc_stream_id) fc.(fc_stream_type) fc) l = Some (sent, u) /\
    u.(us_st).(ud_submitted) = len (submitted l) /\ u.(us_st).(ud_sent) = len sent /\
    u.(us_st).(ud_dropped_oversize) = oversized (submitted l) /\
    len (submitted l) = len sent + len u.(us_held) + u.(us_st).(ud_dropped_stale) + u.(us_st).(ud_dropped_budget) + u.(us_st).(ud_dropped_oversize) /\
    forall heard, Forall (fun f => f ∈ sent \/ foreign (Framer_init fc) fc.(fc_stream_id) fc.(fc_stream_type) f) heard ->
    exists out a, accept_run (UplinkAcceptor_init fc.(fc_stream_id) fc.(fc_stream_type)) (Some fc.(fc_originator)) heard = Some (out, a) /\
      map payload_of out `sublist_of` submitted l /\
      (is_Some mode -> heard = sent -> length out = length sent /\
        (u.(us_held) = [] -> u.(us_st).(ud_dropped_stale) = 0 -> u.(us_st).(ud_dropped_budget) = 0 -> u.(us_st).(ud_dropped_oversize) = 0 ->
         map payload_of out = submitted l)).
Proof.
  intros Hwf Hhold Hl Hlen. set (f0 := Framer_init fc).
  destruct (ground_run f0 pol mode fc.(fc_stream_type) Hwf Hhold l [] [] _ (ground_init fc mode fc.(fc_stream_id)) Hl)
    as (sent & u & E & [_ (ks & I & J & n & o & _ & Hsub & HI & _ & Hm) (stale & budget & over & S1 & S2 & S3 & Hsum & L1 & L2 & L3 & L4 & L5)]).
  simpl in *. pose proof (submitted_len l) as Hsl. assert (0 <= over) by (subst over; unfold oversized; lia).
  rewrite to_u64_id in L1, L2, L3, L4, L5 by (unfold u64; lia). exists sent, u.
  assert (Hsum' : len (submitted l) = len sent + len u.(us_held) + u.(us_st).(ud_dropped_stale) + u.(us_st).(ud_dropped_budget) + u.(us_st).(ud_dropped_oversize)) by congruence.
  split; [exact E|]. split; [done|]. split; [done|]. split; [congruence|]. split; [done|].
  intros heard Hh. assert (Hks : len ks < 2 ^ 32) by (apply sublist_len in Hsub; lia).
  assert (Hown : forall f, f ∈ sent -> exists i, frame_at f0 ks i f).
  { intros f Hf. clear -HI Hf. induction HI as [|i g I s Hi _ IH]; [by apply not_elem_of_nil in Hf|].
    apply elem_of_cons in Hf as [->|Hf]; [by exists i|by apply IH]. }
  destruct (craft_run f0 ks fc.(fc_stream_id) fc.(fc_stream_type) Hks eq_refl eq_refl heard [] [] _ (craft_init f0 ks _ _))
    as (out & a & J' & E' & [_ _ Hs Hd _ _]).
  { eapply Forall_impl; [exact Hh|]. simpl. intros f [Hf|Hf]; [left; by apply Hown|by right]. }
  assert (Hfifo : map payload_of out `sublist_of` submitted l) by (etrans; [|exact Hsub]; by eapply sublist_indices, payloads_of).
  exists out, a. split; [exact E'|]. split; [done|].
  intros [g Eg] ->. destruct (Hm g Eg) as [HsI _]. apply sorted_app_l in HsI.
  destruct (craft_all f0 ks fc.(fc_stream_id) fc.(fc_stream_type) Hks eq_refl eq_refl sent I [] [] _ (craft_init f0 ks _ _) HI HsI)
    as (out2 & a2 & E2 & Hout). change (fc_originator (fr_cfg f0)) with (fc_originator fc) in *. rewrite E' in E2. injection E2 as -> ->.
  split; [done|]. intros H1 H2 H3 H4. apply sublist_full; [done|]. rewrite H1, H2, H3, H4 in Hsum'. cbn in Hsum'. rewrite length_map. lia.
Qed.

(** ** A telemetry stream *)
Definition demo_uplink_cfg : FramerConfig := MkFramerConfig 2 77 9 stream_type_kTelemetry 1.
Definition demo_uplink (l : list UplinkEvent) : option (list (list Z)) :=
  '(sent, _) ← uplink_run UplinkPolicy_init (UplinkDataStream_init 9 stream_type_kTelemetry demo_uplink_cfg) l;
  '(out, _) ← accept_run (UplinkAcceptor_init 9 stream_type_kTelemetry) (Some 2) sent; Some (map payload_of out).
(** Held frames are released in order. *)
Example demo_uplink_gated :
  demo_uplink [UDatagram [1; 2] 10 10000 true; UDatagram [3] 11 11000 true; UFlush; UDatagram [] 12 12000 true; UFlush] =
  Some [[1; 2]; [3]; []].
Proof. vm_compute. reflexivity. Qed.
(** The window closes while a frame is held: the next datagram overtakes it, and
    when the held frame is flushed the craft takes it for a duplicate. *)
Example demo_uplink_overtaken :
  demo_uplink [UDatagram [1; 2] 10 10000 true; UDatagram [3] 11 11000 false; UFlush] = Some [[3]].
Proof. vm_compute. reflexivity. Qed.

Lemma uplink_in_order_witness : exists sent u,
  uplink_run UplinkPolicy_init (UplinkDataStream_init 9 stream_type_kTelemetry demo_uplink_cfg)
    [UDatagram [1; 2] 10 10000 true; UDatagram [3] 11 11000 true; UFlush] = Some (sent, u) /\
  exists out a, accept_run (UplinkAcceptor_init 9 stream_type_kTelemetry) (Some 2) sent = Some (out, a) /\
    map payload_of out `sublist_of` [[1; 2]; [3]] /\ length out = length sent.
Proof.
  destruct (uplink_in_order demo_uplink_cfg UplinkPolicy_init (Some true)
    [UDatagram [1; 2] 10 10000 true; UDatagram [3] 11 11000 true; UFlush]) as (sent & u & E & _ & _ & _ & _ & H).
  - split; vm_compute; split; (discriminate || reflexivity).
  - vm_compute. discriminate.
  - repeat constructor; try (vm_compute; discriminate); intros g [= <-]; reflexivity.
  - reflexivity.
  - exists sent, u. split; [exact E|].
    destruct (H sent) as (out & a & E2 & Hsub & Hall).
    + apply Forall_forall. intros f Hf. left. exact Hf.
    + exists out, a. split; [exact E2|]. split; [exact Hsub|]. apply Hall; [eexists|]; reflexivity.
Defined.
