(* ===== verification/Feedback.v ===== *)
(** * The feedback loop ([core/.../reporter], [core/.../report_gate.h], [core/.../selector_state.h],
    [node/include/wblink/node/rx_core.h], [node/include/wblink/node/tx_core.h])

    The ground builds a report per latched video stream, stamps its epoch at the
    radio call and spends it only if the radio took the frame; the craft admits
    reports of its reporter and hands them to the selector. *)
From stdpp Require Import gmap.
From S2P Require Import Prelude Types Wire SMap Rx McsProbe Double Selector.

(** ** Report gate *)
Record ReportGatePolicy : Type := MkReportGatePolicy {
  preferred_originator : Z;
  relatch_ms : Z
}.
Definition ReportGatePolicy_init : ReportGatePolicy := MkReportGatePolicy 0 2000.
Record ReportGate : Type := MkReportGate {
  rg_p : ReportGatePolicy;
  latched_ : option (Z * Z);
  last_ms_ : Z;
  rejected_ : Z
}.
Definition ReportGate_init (p : ReportGatePolicy) : ReportGate := MkReportGate p None 0 0.

Definition accept (g : ReportGate) (orig session now_ms : Z) : ReportGate * bool :=
  let reject := (MkReportGate g.(rg_p) g.(latched_) g.(last_ms_) (to_u64 (g.(rejected_) + 1)), false) in
  let take := (MkReportGate g.(rg_p) (Some (orig, session)) now_ms g.(rejected_), true) in
  if negb (g.(rg_p).(preferred_originator) =? 0) then
    if negb (orig =? g.(rg_p).(preferred_originator)) then reject
    else (MkReportGate g.(rg_p) g.(latched_) now_ms g.(rejected_), true)
  else match g.(latched_) with
  | None => take
  | Some (o, _) =>
    if o =? orig then take
    else if (now_ms >? g.(last_ms_)) && (now_ms - g.(last_ms_) >? g.(rg_p).(relatch_ms)) then take
    else reject
  end.
Definition force_latch (g : ReportGate) (orig now_ms : Z) : ReportGate :=
  if negb (g.(rg_p).(preferred_originator) =? 0) then g
  else if orig =? 0 then g
  else MkReportGate g.(rg_p) (Some (orig, 0)) now_ms g.(rejected_).
Definition clear_latch (g : ReportGate) : ReportGate :=
  if negb (g.(rg_p).(preferred_originator) =? 0) then g else MkReportGate g.(rg_p) None 0 g.(rejected_).
Definition latched_originator (g : ReportGate) : Z :=
  if negb (g.(rg_p).(preferred_originator) =? 0) then g.(rg_p).(preferred_originator)
  else match g.(latched_) with Some (o, _) => o | None => 0 end.
Definition latched_session (g : ReportGate) : Z := match g.(latched_) with Some (_, s) => s | None => 0 end.

(** ** Selector summary admission *)
Definition kSelectorStateExpiryMs : Z := 1500.
Definition selector_state_admissible (state : SelectorState) (local_table_version : option Z) (rtp_originator rtp_session : Z) : bool :=
  match local_table_version with
  | None => false
  | Some tv =>
    (state.(ss_table_version) =? tv) && (state.(ss_prefix).(destination) =? 0) &&
    (state.(ss_prefix).(originator) =? rtp_originator) && (state.(ss_prefix).(session_id) =? rtp_session)
  end.
Definition selector_state_fresh (now_ms received_ms : Z) : bool :=
  (now_ms >=? received_ms) && (now_ms - received_ms <=? kSelectorStateExpiryMs).

(** ** Reporter *)
Record ReporterSnap : Type := MkReporterSnap { sn_uniq : Z; sn_lost : Z }.
Record Reporter : Type := MkReporter {
  rp_interval_ms : Z;
  rp_tv : option Z;
  epoch_ : Z;
  next_ms_ : Z;
  last_ : gmap Z ReporterSnap;
  probe_ : option (StreamKey * Z)
}.
Definition Reporter_init (interval_ms : Z) (tv : option Z) : Reporter := MkReporter interval_ms tv 0 0 ∅ None.
Definition next_epoch (r : Reporter) : Z := to_u32 (r.(epoch_) + 1).
Definition commit_epoch (r : Reporter) : Reporter :=
  MkReporter r.(rp_interval_ms) r.(rp_tv) (to_u32 (r.(epoch_) + 1)) r.(next_ms_) r.(last_) r.(probe_).
Definition reset_link (r : Reporter) : Reporter := MkReporter r.(rp_interval_ms) r.(rp_tv) r.(epoch_) r.(next_ms_) ∅ r.(probe_).
Definition set_probe_per (r : Reporter) (key : StreamKey) (per : option Z) : Reporter :=
  MkReporter r.(rp_interval_ms) r.(rp_tv) r.(epoch_) r.(next_ms_) r.(last_)
    (match per with Some per => Some (key, per) | None => None end).
Definition report_pack (k : StreamKey) : Z :=
  Z.lor (Z.lor (to_u64 (Z.shiftl k.(sk_originator) 40)) (to_u64 (Z.shiftl k.(sk_session_id) 8))) k.(sk_stream_id).

(** The RF summary over the live adapters: best, sum and number. *)
Definition rf_step (acc : Z * Z * Z) (kv : Z * (Adapter * bool)) : Z * Z * Z :=
  let '(best, mean_sum, mean_n) := acc in
  let '(a, stalled) := kv.2 in
  if (stalled : bool) || negb a.(have_rssi) then acc
  else (if (mean_n =? 0) || (a.(rssi_last) >? best) then a.(rssi_last) else best,
        mean_sum + to_i8 (Z.quot a.(rssi_ewma_q4) 16), mean_n + 1).
Definition rf_summary (e : RxEngine) : Z * Z :=
  let '(best, mean_sum, mean_n) := fold_left rf_step (adapters e) (0, 0, 0) in
  (best, if mean_n >? 0 then to_i8 (Z.quot mean_sum mean_n) else 0).
(** One stream's report. *)
Definition report_of (r : Reporter) (s : Stream) (best mean live : Z) : LinkReport * gmap Z ReporterSnap :=
  let prev := default (MkReporterSnap 0 0) (r.(last_) !! report_pack s.(st_key)) in
  let d_uniq := to_u64 (s.(counters).(uniq) - prev.(sn_uniq)) in
  let d_lost := to_u64 (s.(counters).(lost_declared) - prev.(sn_lost)) in
  let denom := to_u64 (d_uniq + d_lost) in
  (MkLinkReport (MkCommonPrefix 0 0 0) s.(st_key).(sk_originator) s.(st_key).(sk_session_id) s.(st_key).(sk_stream_id) 0
     (default 0 r.(rp_tv)) best mean
     (if denom =? 0 then 0 else to_u16 (to_u64 (d_lost * 1000) / denom))
     (to_u32 (Z.min denom 0xFFFFFFFF)) (to_u32 s.(counters).(diversity)) live
     (match r.(probe_) with Some (k, per) => if decide (k = s.(st_key)) then per else kNoProbe | None => kNoProbe end) 0,
   <[report_pack s.(st_key) := MkReporterSnap s.(counters).(uniq) s.(counters).(lost_declared)]> r.(last_)).
Definition with_last (r : Reporter) (m : gmap Z ReporterSnap) : Reporter :=
  MkReporter r.(rp_interval_ms) r.(rp_tv) r.(epoch_) r.(next_ms_) m r.(probe_).
Fixpoint build_streams (r : Reporter) (ss : smap Stream) (best mean live : Z) : list LinkReport * Reporter :=
  match ss with
  | [] => ([], r)
  | (_, s) :: ss =>
    if negb (s.(st_stream_type) =? stream_type_kRtp) then build_streams r ss best mean live
    else
      let '(x, m) := report_of r s best mean live in
      let '(out, r) := build_streams (with_last r m) ss best mean live in
      (x :: out, r)
  end.
Definition build (r : Reporter) (e : RxEngine) (now_ms : Z) : list LinkReport * Reporter :=
  if now_ms <? r.(next_ms_) then ([], r)
  else
    let r := MkReporter r.(rp_interval_ms) r.(rp_tv) r.(epoch_) (to_u64 (now_ms + r.(rp_interval_ms))) r.(last_) r.(probe_) in
    let '(best, mean) := rf_summary e in
    build_streams r e.(streams_) best mean (live_adapter_count e).

(** ** The ground's reports on the air *)
Definition stamp_prefix (orig session : Z) (r : LinkReport) : LinkReport :=
  MkLinkReport (MkCommonPrefix orig r.(lr_target_originator) session) r.(lr_target_originator) r.(lr_target_session)
    r.(lr_target_stream_id) r.(lr_report_epoch) r.(lr_table_version) r.(lr_rssi_best) r.(lr_rssi_mean) r.(lr_loss_postdiv_prearq)
    r.(lr_uniq) r.(lr_diversity) r.(lr_adapters) r.(lr_probe_per) r.(lr_recommended_prof).
(** The injector: the epoch is stamped at the radio call, whose result [ok] is
    the radio's, and committed when it took the frame. *)
Definition inject_report (r : Reporter) (frame : list Z) (ok : bool) : option (Reporter * list (list Z)) :=
  '(_, f) ← link_report_stamp_epoch (Some frame) (len frame) (next_epoch r);
  f ← f;
  Some (if ok then (commit_epoch r, [f]) else (r, [])).
(** The report loop of [RxCore::tick]. *)
Fixpoint emit_reports (orig session : Z) (r : Reporter) (rs : list LinkReport) (oks : list bool) : option (Reporter * list (list Z)) :=
  match rs with
  | [] => Some (r, [])
  | x :: rs =>
    '(n, buf) ← encode_link_report (stamp_prefix orig session x) (Some (replicate (Z.to_nat kLinkReportSize) 0)) kLinkReportSize;
    '(r, fs) ← (if (n : Z) >? 0 then buf ← buf; inject_report r buf (hd false oks) else Some (r, []));
    '(r, fs') ← emit_reports orig session r rs (tl oks);
    Some (r, fs ++ fs')
  end.
Definition report_tick (orig session : Z) (r : Reporter) (e : RxEngine) (now_ms : Z) (oks : list bool) : option (Reporter * list (list Z)) :=
  let '(rs, r) := build r e now_ms in emit_reports orig session r rs oks.

(** ** The craft's admission ([TxCore::on_air]) *)
Record CraftFeedback : Type := MkCraftFeedback {
  cf_originator : Z;
  cf_session : Z;
  cf_streams : list (Z * Z);            (** stream id and type *)
  cf_gate : ReportGate;
  cf_selector : Selector;
  cf_reports_received : Z;
  cf_verdict_epoch_src : option (Z * Z);
  cf_verdict_epoch_seen : Z;
  cf_verdict_rx_ms : Z
}.
Definition video_stream (c : CraftFeedback) (id : Z) : bool :=
  existsb (fun s => (s.1 =? id) && (s.2 =? stream_type_kRtp)) c.(cf_streams).
Definition on_link_report (c : CraftFeedback) (r : LinkReport) (now : Z) : CraftFeedback :=
  if negb (r.(lr_target_originator) =? c.(cf_originator)) || negb (r.(lr_target_session) =? c.(cf_session)) then c
  else if negb (video_stream c r.(lr_target_stream_id)) then c
  else
    let '(g, ok) := accept c.(cf_gate) r.(lr_prefix).(originator) r.(lr_prefix).(session_id) now in
    let c := MkCraftFeedback c.(cf_originator) c.(cf_session) c.(cf_streams) g c.(cf_selector) c.(cf_reports_received)
               c.(cf_verdict_epoch_src) c.(cf_verdict_epoch_seen) c.(cf_verdict_rx_ms) in
    if negb ok then c else
    let '(s, fresh) := on_report c.(cf_selector) r now in
    MkCraftFeedback c.(cf_originator) c.(cf_session) c.(cf_streams) g s
      (if fresh : bool then to_u32 (c.(cf_reports_received) + 1) else c.(cf_reports_received))
      c.(cf_verdict_epoch_src) c.(cf_verdict_epoch_seen) c.(cf_verdict_rx_ms).
Definition on_link_verdict (c : CraftFeedback) (v : LinkVerdictPkt) (now : Z) : CraftFeedback :=
  let p := v.(lv_prefix) in
  if negb (p.(destination) =? c.(cf_originator)) || negb (v.(lv_target_originator) =? c.(cf_originator)) ||
     negb (v.(lv_target_session) =? c.(cf_session)) then c
  else if negb (latched_originator c.(cf_gate) =? p.(originator)) then c
  else if negb (latched_session c.(cf_gate) =? 0) && negb (latched_session c.(cf_gate) =? p.(session_id)) then c
  else
    let vid := (p.(originator), p.(session_id)) in
    let seen := if decide (c.(cf_verdict_epoch_src) = Some vid) then c.(cf_verdict_epoch_seen) else 0 in
    if negb (seen =? 0) && (v.(lv_report_epoch) <? seen)
    then MkCraftFeedback c.(cf_originator) c.(cf_session) c.(cf_streams) c.(cf_gate) c.(cf_selector) c.(cf_reports_received)
           (Some vid) seen c.(cf_verdict_rx_ms)
    else MkCraftFeedback c.(cf_originator) c.(cf_session) c.(cf_streams) c.(cf_gate) (on_verdict c.(cf_selector) v.(lv_verdict) now)
           c.(cf_reports_received) (Some vid) v.(lv_report_epoch) now.
(** The branches of [on_air] for the report family. *)
Definition on_air_feedback (c : CraftFeedback) (frame : list Z) (now : Z) : option CraftFeedback :=
  dec ← decode (Some frame);
  Some (match dec with
        | DLinkReport r => on_link_report c r now
        | DLinkVerdict v => on_link_verdict c v now
        | _ => c
        end).
