(* ===== verification/FeedbackProps.v ===== *)
(** * The feedback loop composed

    From the ground's reporter through the codec, a lossy air and the craft's
    gate to the selector: no report counts twice, no epoch is spent on a frame
    the radio did not take. *)
From stdpp Require Import gmap.
From S2P Require Import Prelude Types Wire WireLayout WireFacts WireProps SMap Table Rx McsProbe Double Selector Feedback.

(** ** The ground *)
Section GroundSide.
Context (orig sess : Z).
Hypothesis Ho : u16 orig.
Hypothesis Hs : u32 sess.

(** What the codec can carry of an engine's streams and adapters. *)
Definition reportable (r : Reporter) (e : RxEngine) : Prop :=
  Forall (fun kv => u16 kv.2.(st_key).(sk_originator) /\ u32 kv.2.(st_key).(sk_session_id) /\ u8 kv.2.(st_key).(sk_stream_id)) e.(streams_) /\
  Forall (fun kv => i8 kv.2.1.(rssi_last)) (adapters e) /\
  from_option u8 True r.(rp_tv) /\ from_option (fun p => u16 p.2) True r.(probe_).

(** The report the air carries with epoch [n]. *)
Definition on_the_air (n : Z) (f : list Z) : Prop :=
  exists r, decode (Some f) = Some (DLinkReport r) /\ r.(lr_prefix).(originator) = orig /\ r.(lr_prefix).(session_id) = sess /\
    r.(lr_report_epoch) = n.
Definition report_wf (x : LinkReport) : Prop := wf_packet (PLinkReport (stamp_prefix orig sess x)).

Lemma rf_step_i8 acc kv : i8 kv.2.1.(rssi_last) -> i8 acc.1.1 -> i8 (rf_step acc kv).1.1.
Proof. unfold rf_step. destruct acc as [[b m] n], kv as [k [a st]]. simpl. intros. by repeat case_match. Qed.
Lemma rf_summary_i8 e : Forall (fun kv => i8 kv.2.1.(rssi_last)) (adapters e) -> i8 (rf_summary e).1 /\ i8 (rf_summary e).2.
Proof.
  unfold rf_summary. intros H.
  assert (G : forall l acc, Forall (fun kv : Z * (Adapter * bool) => i8 kv.2.1.(rssi_last)) l -> i8 acc.1.1 -> i8 (fold_left rf_step l acc).1.1).
  { induction l as [|kv l IH]; intros acc Hl Ha; simpl; [done|]. apply Forall_cons in Hl as [? Hl]. apply IH; [done|]. by apply rf_step_i8. }
  specialize (G _ (0, 0, 0) H). destruct (fold_left rf_step (adapters e) (0, 0, 0)) as [[b m] n]. simpl in *.
  split; [apply G; by vm_compute|]. destruct (n >? 0); [apply to_i8_i8|by vm_compute].
Qed.
Lemma live_count_u8 e : u8 (live_adapter_count e).
Proof.
  unfold live_adapter_count.
  assert (G : forall l n, u8 n -> u8 (fold_left (fun n (kv : Z * (Adapter * bool)) => to_u8 (n + (if (snd (snd kv) : bool) then 0 else 1))) l n)).
  { induction l as [|kv l IH]; intros n Hn; simpl; [done|]. apply IH, to_u8_u8. }
  apply G. by vm_compute.
Qed.

Lemma report_of_wf r s best mean live :
  u16 s.(st_key).(sk_originator) -> u32 s.(st_key).(sk_session_id) -> u8 s.(st_key).(sk_stream_id) ->
  from_option u8 True r.(rp_tv) -> from_option (fun p => u16 p.2) True r.(probe_) -> i8 best -> i8 mean -> u8 live ->
  report_wf (report_of r s best mean live).1.
Proof.
  intros Hk1 Hk2 Hk3 Ht Hp Hb Hm Hl. unfold report_wf, report_of, wf_prefix, stamp_prefix.
  cbn [fst wf_packet lr_prefix lr_target_originator lr_target_session lr_target_stream_id lr_report_epoch lr_table_version lr_rssi_best
    lr_rssi_mean lr_loss_postdiv_prearq lr_uniq lr_diversity lr_adapters lr_probe_per lr_recommended_prof originator destination session_id].
  assert (H0 : u8 0) by (unfold u8; lia). assert (Hn : u16 kNoProbe) by (unfold u16, kNoProbe; lia).
  split_and!; auto using to_u32_u32.
  - done.
  - by destruct (rp_tv r).
  - case_match; [unfold u16; lia|apply to_u16_u16].
  - destruct (probe_ r) as [[k per]|]; [case_decide|]; done.
Qed.
Lemma build_streams_wf ss : forall r best mean live,
  Forall (fun kv => u16 kv.2.(st_key).(sk_originator) /\ u32 kv.2.(st_key).(sk_session_id) /\ u8 kv.2.(st_key).(sk_stream_id)) ss ->
  from_option u8 True r.(rp_tv) -> from_option (fun p => u16 p.2) True r.(probe_) -> i8 best -> i8 mean -> u8 live ->
  Forall report_wf (build_streams r ss best mean live).1 /\ (build_streams r ss best mean live).2.(epoch_) = r.(epoch_).
Proof.
  induction ss as [|[k s] ss IH]; intros r best mean live Hk Ht Hp Hb Hm Hl; simpl; [done|]. apply Forall_cons in Hk as [(? & ? & ?) Hk].
  destruct (negb _); [by apply IH|].
  destruct (IH (with_last r (report_of r s best mean live).2) best mean live Hk Ht Hp Hb Hm Hl) as [IH1 IH2].
  unfold report_of in *. simpl in *. destruct (build_streams _ ss best mean live) as [out r']. simpl in *.
  split; [|done]. constructor; [|done]. by apply (report_of_wf r s best mean live).
Qed.
Lemma build_wf r e now : reportable r e -> Forall report_wf (build r e now).1 /\ (build r e now).2.(epoch_) = r.(epoch_).
Proof.
  intros (Hk & Ha & Ht & Hp). unfold build. destruct (now <? next_ms_ r); [done|].
  destruct (rf_summary_i8 e Ha) as [Hb Hm]. destruct (rf_summary e) as [best mean]. simpl in *.
  set (r1 := MkReporter _ _ _ _ _ _). apply (build_streams_wf (streams_ e) r1); try done. apply live_count_u8.
Qed.

(** One report at the radio: it flies with the next epoch, or spends none. *)
Lemma inject_one r x ok : report_wf x -> exists buf r' fs,
  encode_link_report (stamp_prefix orig sess x) (Some (replicate (Z.to_nat kLinkReportSize) 0)) kLinkReportSize = Some (kLinkReportSize, Some buf) /\
  inject_report r buf ok = Some (r', fs) /\
  if ok then r' = commit_epoch r /\ exists f, fs = [f] /\ on_the_air (next_epoch r) f else r' = r /\ fs = [].
Proof.
  intros Hx. set (p := stamp_prefix orig sess x) in *.
  pose proof (encode_link_report_spec (replicate (Z.to_nat kLinkReportSize) 0) kLinkReportSize p ltac:(rewrite length_replicate; vm_compute; discriminate)) as E.
  unfold encodes_as in E. cbn [packet_valid packet_size encode_packet andb] in E. rewrite Z.leb_refl in E.
  rewrite drop_replicate, Nat.sub_diag in E. cbn [replicate] in E.
  assert (Hlen : len (layout (PLinkReport p) ++ []) = kLinkReportSize) by (rewrite app_nil_r; by apply layout_length).
  eexists. unfold inject_report.
  destruct ok; eexists _, _; (split; [exact E|]);
    rewrite Hlen, stamp_epoch_is_reencode, Z.ltb_irrefl; cbn [mbind option_bind]; (split; [done|]); [|done].
  split; [done|]. eexists. split; [done|]. rewrite app_nil_r. exists (with_epoch p (next_epoch r)). split; [|done].
  apply (decode_layout (PLinkReport (with_epoch p (next_epoch r)))); [|done|done].
  unfold report_wf in Hx. fold p in Hx. simpl in *. destruct Hx as (? & ? & ? & ? & ? & ? & ? & ? & ? & ? & ? & ? & ? & ?).
  split_and!; try done. apply to_u32_u32.
Qed.

(** The frames of a run carry consecutive epochs. *)
Fixpoint numbered (n : Z) (fs : list (list Z)) : Prop :=
  match fs with [] => True | f :: fs => on_the_air (to_u32 (n + 1)) f /\ numbered (n + 1) fs end.
Lemma numbered_app n fs gs : numbered n fs -> numbered (n + len fs) gs -> numbered n (fs ++ gs).
Proof.
  revert n. induction fs as [|f fs IH]; intros n Hf Hg; simpl in *; [by rewrite Z.add_0_r in Hg|].
  destruct Hf as [Hf Hfs]. split; [done|]. apply IH; [done|]. by replace (n + 1 + len fs) with (n + Z.of_nat (S (length fs))) by lia.
Qed.
Lemma emit_reports_ok rs : forall r oks n, Forall report_wf rs -> r.(epoch_) = to_u32 n -> exists r' fs,
  emit_reports orig sess r rs oks = Some (r', fs) /\ numbered n fs /\ r'.(epoch_) = to_u32 (n + len fs) /\ r'.(rp_tv) = r.(rp_tv) /\ r'.(probe_) = r.(probe_).
Proof.
  induction rs as [|x rs IH]; intros r oks n Hrs He; cbn [emit_reports].
  - exists r, []. simpl. by rewrite Z.add_0_r.
  - apply Forall_cons in Hrs as [Hx Hrs].
    destruct (inject_one r x (hd false oks) Hx) as (buf & r1 & fs & -> & Ei & Hok). cbn [mbind option_bind].
    change (kLinkReportSize >? 0) with true. cbn [mbind option_bind]. rewrite Ei. cbn [mbind option_bind].
    destruct (hd false oks).
    + destruct Hok as (-> & f & -> & Hf).
      assert (Hn : next_epoch r = to_u32 (n + 1)) by (unfold next_epoch; rewrite He; apply to_u32_succ).
      destruct (IH (commit_epoch r) (tl oks) (n + 1) Hrs) as (r2 & fs2 & -> & Hnum & He2 & Ht & Hp); [unfold next_epoch in Hn; done|].
      cbn [mbind option_bind]. exists r2, ([f] ++ fs2). split; [done|]. split; [simpl; by rewrite <- Hn|].
      split; [|done]. rewrite He2. f_equal. simpl. lia.
    + destruct Hok as [-> ->]. destruct (IH r (tl oks) n Hrs He) as (r2 & fs2 & -> & ?). cbn [mbind option_bind]. by exists r2, fs2.
Qed.

(** A ground: what its engine is at each report tick, and what the radio takes. *)
Fixpoint ground_reports (r : Reporter) (l : list (RxEngine * Z * list bool)) : option (Reporter * list (list Z)) :=
  match l with
  | [] => Some (r, [])
  | (e, now, oks) :: l =>
    '(r, fs) ← report_tick orig sess r e now oks;
    '(r, fs') ← ground_reports r l; Some (r, fs ++ fs')
  end.
Lemma ground_reports_ok l : forall r n, Forall (fun x => reportable r x.1.1) l -> r.(epoch_) = to_u32 n -> exists r' fs,
  ground_reports r l = Some (r', fs) /\ numbered n fs /\ r'.(epoch_) = to_u32 (n + len fs).
Proof.
  induction l as [|[[e now] oks] l IH]; intros r n Hl He; simpl.
  - exists r, []. simpl. by rewrite Z.add_0_r.
  - apply Forall_cons in Hl as [Hr Hl]. simpl in Hr. unfold report_tick. destruct (build_wf r e now Hr) as [Hwf He1].
    destruct Hr as (_ & _ & Ht & Hp).
    assert (Hkeep : (build r e now).2.(rp_tv) = r.(rp_tv) /\ (build r e now).2.(probe_) = r.(probe_)).
    { unfold build. destruct (now <? _); [done|]. destruct (rf_summary e). clear. generalize (live_adapter_count e). intros lv.
      set (r1 := MkReporter _ _ _ _ _ _). change (rp_tv r) with (rp_tv r1). change (probe_ r) with (probe_ r1). clearbody r1. revert r1.
      induction (streams_ e) as [|[k s] ss IH]; intros r1; simpl; [done|]. destruct (negb _); [by apply IH|].
      specialize (IH (with_last r1 (report_of r1 s z z0 lv).2)). unfold report_of in *. simpl in *. by destruct (build_streams _ ss z z0 lv). }
    destruct (build r e now) as [rs r1]. simpl in *. destruct Hkeep as [Hk1 Hk2].
    destruct (emit_reports_ok rs r1 oks n Hwf ltac:(congruence)) as (r2 & fs & -> & Hnum & He2 & Ht2 & Hp2). cbn [mbind option_bind].
    destruct (IH r2 (n + len fs)) as (r3 & fs3 & -> & Hnum3 & He3); [|done|].
    + eapply Forall_impl; [exact Hl|]. unfold reportable. intros x (? & ? & ? & ?). by rewrite Ht2, Hp2, Hk1, Hk2.
    + cbn [mbind option_bind]. exists r3, (fs ++ fs3). split; [done|]. split; [by apply numbered_app|].
      rewrite He3, length_app. f_equal. lia.
Qed.
End GroundSide.

(** ** The craft *)
Fixpoint air_run (c : CraftFeedback) (l : list (list Z * Z)) : option CraftFeedback :=
  match l with [] => Some c | (f, now) :: l => c ← on_air_feedback c f now; air_run c l end.
(** A report for a video stream of this craft. *)
Definition for_craft (c : CraftFeedback) (r : LinkReport) : bool :=
  (r.(lr_target_originator) =? c.(cf_originator)) && (r.(lr_target_session) =? c.(cf_session)) && video_stream c r.(lr_target_stream_id).
(** A frame of no concern to the count: it decodes to no report for this craft. *)
Definition no_report (c : CraftFeedback) (f : list Z) : Prop :=
  bytes f /\ forall r, decode (Some f) = Some (DLinkReport r) -> for_craft c r = false.
Definition same_craft (c c' : CraftFeedback) : Prop :=
  c'.(cf_originator) = c.(cf_originator) /\ c'.(cf_session) = c.(cf_session) /\ c'.(cf_streams) = c.(cf_streams) /\
  c'.(cf_gate).(rg_p) = c.(cf_gate).(rg_p).
Lemma same_craft_for c c' r : same_craft c c' -> for_craft c' r = for_craft c r.
Proof. intros (H1 & H2 & H3 & _). unfold for_craft, video_stream. by rewrite H1, H2, H3. Qed.
Lemma accept_policy g o s now : (accept g o s now).1.(rg_p) = g.(rg_p).
Proof. unfold accept. repeat case_match; done. Qed.
Lemma on_link_report_same c r now : same_craft c (on_link_report c r now).
Proof.
  unfold on_link_report. repeat case_match; simplify_eq; try done; unfold same_craft; cbn;
    match goal with H : accept _ _ _ _ = _ |- _ => pose proof (f_equal (rg_p ∘ fst) H) as Hp end; simpl in Hp;
    rewrite accept_policy in Hp; by rewrite <- Hp.
Qed.
Lemma on_link_verdict_same c v now : same_craft c (on_link_verdict c v now) /\
  (on_link_verdict c v now).(cf_selector).(intake) = c.(cf_selector).(intake) /\
  (on_link_verdict c v now).(cf_reports_received) = c.(cf_reports_received) /\ (on_link_verdict c v now).(cf_gate) = c.(cf_gate).
Proof. unfold on_link_verdict. repeat case_match; done. Qed.
Lemma not_for_craft c r now : for_craft c r = false -> on_link_report c r now = c.
Proof.
  unfold for_craft, on_link_report. intros H. destruct (lr_target_originator r =? cf_originator c); simpl in *; [|done].
  destruct (lr_target_session r =? cf_session c); simpl in *; [|done]. by rewrite H.
Qed.

(** The selector's side of a report. *)
Lemma on_report_forward s r now e : s.(intake).(report_source_) = Some (r.(lr_prefix).(originator), r.(lr_prefix).(session_id)) ->
  s.(intake).(have_report_) = true -> s.(intake).(last_epoch_) = e ->
  if r.(lr_report_epoch) <=? e then on_report s r now = (s, false)
  else (on_report s r now).2 = true /\ (on_report s r now).1.(intake).(report_source_) = s.(intake).(report_source_) /\
    (on_report s r now).1.(intake).(have_report_) = true /\ (on_report s r now).1.(intake).(last_epoch_) = r.(lr_report_epoch).
Proof.
  intros H1 H2 H3. unfold on_report, take_identity. rewrite decide_True by done. rewrite H2, H3. cbn [andb].
  destruct (lr_report_epoch r <=? e); [done|].
  split; [done|]. unfold smooth. destruct (negb (lr_probe_per r =? kNoProbe)); cbn -[dadd dmul dsub ddiv double_of dle]; (split; [|done]);
    destruct (negb (have_smoothing_ (intake s))); done.
Qed.
Lemma on_report_first s r now : s.(intake).(report_source_) = None ->
  (on_report s r now).2 = true /\ (on_report s r now).1.(intake).(report_source_) = Some (r.(lr_prefix).(originator), r.(lr_prefix).(session_id)) /\
    (on_report s r now).1.(intake).(have_report_) = true /\ (on_report s r now).1.(intake).(last_epoch_) = r.(lr_report_epoch).
Proof.
  intros H. unfold on_report, take_identity. rewrite decide_False by (by rewrite H). rewrite H.
  rewrite bool_decide_false by (by intros [? ?]). cbn -[dadd dmul dsub ddiv double_of dle].
  destruct (negb (lr_probe_per r =? kNoProbe)); done.
Qed.

Section CraftSide.
Context (orig sess : Z) (n : Z).
Hypothesis Hn : 0 <= n < 2 ^ 32.
Local Abbreviation report_no := (on_the_air orig sess).

Definition counted (c : CraftFeedback) : Prop :=
  let i := c.(cf_selector).(intake) in
  (i.(report_source_) = None /\ c.(cf_reports_received) = 0) \/
  (i.(report_source_) = Some (orig, sess) /\ i.(have_report_) = true /\ 0 <= c.(cf_reports_received) <= i.(last_epoch_) /\ i.(last_epoch_) <= n).

Lemma counted_report c f now k : counted c -> 1 <= k <= n -> report_no k f -> exists c',
  on_air_feedback c f now = Some c' /\ same_craft c c' /\ counted c'.
Proof.
  intros Hc Hk (r & Hd & Ho & Hs & He). unfold on_air_feedback. rewrite Hd. cbn [mbind option_bind].
  eexists. split; [done|]. split; [apply on_link_report_same|].
  unfold on_link_report. destruct (_ || _); [done|]. destruct (negb _); [done|].
  destruct (accept (cf_gate c) (originator (lr_prefix r)) (session_id (lr_prefix r)) now) as [g ok]. destruct ok; simpl; [|done].
  destruct Hc as [[H1 H2]|(H1 & H2 & H3 & H4)].
  - pose proof (on_report_first (cf_selector c) r now H1) as (E1 & E2 & E3 & E4).
    destruct (on_report (cf_selector c) r now) as [s fresh]. simpl in *. subst fresh. right. cbn. rewrite H2, E2, E3, E4, Ho, Hs, He.
    rewrite to_u32_id by (unfold u32; lia). split_and!; (done || lia).
  - rewrite <- Ho, <- Hs in H1. pose proof (on_report_forward (cf_selector c) r now _ H1 H2 eq_refl) as Hf. rewrite He in Hf.
    destruct (Z.leb_spec k (last_epoch_ (intake (cf_selector c)))).
    + rewrite Hf. right. cbn. rewrite H1, Ho, Hs. done.
    + destruct Hf as (E1 & E2 & E3 & E4). destruct (on_report (cf_selector c) r now) as [s fresh]. simpl in *. subst fresh. right. cbn.
      rewrite E2, E3, E4, H1, Ho, Hs. rewrite to_u32_id by (unfold u32; lia). split_and!; (done || lia).
Qed.
Lemma counted_other c f now : counted c -> no_report c f -> exists c', on_air_feedback c f now = Some c' /\ same_craft c c' /\ counted c'.
Proof.
  intros Hc [Hb Hf]. unfold on_air_feedback.
  destruct (decode_total_lemma (Some f)) as [dec Hd]; [by intros buf [= <-]|]. rewrite Hd. cbn [mbind option_bind].
  eexists. split; [done|]. destruct dec; try done.
  - rewrite (not_for_craft _ _ _ (Hf _ Hd)). done.
  - destruct (on_link_verdict_same c v now) as (H1 & H2 & H3 & _). split; [done|]. unfold counted. by rewrite H2, H3.
Qed.

Lemma counted_run l : forall c, counted c ->
  Forall (fun x => (exists k, 1 <= k <= n /\ report_no k x.1) \/ no_report c x.1) l ->
  exists c', air_run c l = Some c' /\ counted c'.
Proof.
  induction l as [|[f now] l IH]; intros c Hc Hl; simpl; [by exists c|]. apply Forall_cons in Hl as [Hf Hl]. simpl in Hf.
  assert (H : exists c', on_air_feedback c f now = Some c' /\ same_craft c c' /\ counted c').
  { destruct Hf as [(k & Hk & Hf)|Hf]; [by eapply counted_report|by apply counted_other]. }
  destruct H as (c' & -> & Hsame & Hc'). cbn [mbind option_bind]. apply IH; [done|].
  eapply Forall_impl; [exact Hl|]. intros x [?|[? Hx]]; [by left|right]. split; [done|].
  intros r Hr. rewrite (same_craft_for _ _ _ Hsame). by apply Hx.
Qed.

(** In order and without loss every report counts. *)
Definition admits (g : ReportGate) : Prop :=
  if negb (g.(rg_p).(preferred_originator) =? 0) then g.(rg_p).(preferred_originator) = orig
  else match g.(latched_) with Some (o, _) => o = orig | None => True end.
Lemma accept_admits g now : admits g -> (accept g orig sess now).2 = true /\ admits (accept g orig sess now).1.
Proof.
  unfold admits, accept. destruct (preferred_originator (rg_p g) =? 0) eqn:E; simpl.
  - destruct (latched_ g) as [[o s]|]; [intros ->; rewrite Z.eqb_refl|intros _]; simpl; by rewrite E.
  - intros H. rewrite H, Z.eqb_refl. simpl. by rewrite E.
Qed.
(** The epoch a frame reports to this craft, 0 for every other frame; and how
    often a sequence of epochs rises above all before it. *)
Definition report_epoch (c : CraftFeedback) (f : list Z) : Z :=
  match decode (Some f) with
  | Some (DLinkReport r) => if for_craft c r then r.(lr_report_epoch) else 0
  | _ => 0
  end.
Fixpoint records (e : Z) (l : list Z) : Z :=
  match l with [] => 0 | k :: l => if k <=? e then records e l else 1 + records k l end.
Lemma report_epoch_same c c' f : same_craft c c' -> report_epoch c' f = report_epoch c f.
Proof. intros H. unfold report_epoch. destruct (decode (Some f)) as [[]|]; try done. by rewrite (same_craft_for c c'). Qed.

Definition in_step (c : CraftFeedback) (m e : Z) : Prop :=
  let i := c.(cf_selector).(intake) in
  c.(cf_reports_received) = m /\ admits c.(cf_gate) /\
  (e = 0 /\ i.(report_source_) = None \/ i.(report_source_) = Some (orig, sess) /\ i.(have_report_) = true /\ i.(last_epoch_) = e).
Lemma in_step_report c m e r now : in_step c m e -> 0 <= m <= e -> e <= n -> for_craft c r = true ->
  r.(lr_prefix).(originator) = orig -> r.(lr_prefix).(session_id) = sess -> 1 <= r.(lr_report_epoch) <= n ->
  if r.(lr_report_epoch) <=? e then in_step (on_link_report c r now) m e
  else in_step (on_link_report c r now) (m + 1) r.(lr_report_epoch).
Proof.
  intros (Hcnt & Hg & Hsel) Hm He Hr Ho Hs Hk. unfold on_link_report, for_craft in *.
  apply andb_true_iff in Hr as [Hr Hv]. apply andb_true_iff in Hr as [Hr1 Hr2]. rewrite Hr1, Hr2, Hv. cbn [negb orb]. rewrite Ho, Hs.
  destruct (accept_admits (cf_gate c) now Hg) as [Ha Hg']. destruct (accept (cf_gate c) orig sess now) as [g ok]. simpl in *. subst ok. cbn [negb].
  destruct Hsel as [[-> Hsrc]|(Hsrc & Hh & Hl)].
  - pose proof (on_report_first (cf_selector c) r now Hsrc) as (E1 & E2 & E3 & E4). rewrite Ho, Hs in E2.
    destruct (on_report (cf_selector c) r now) as [s fresh]. simpl in *. subst fresh.
    destruct (Z.leb_spec (lr_report_epoch r) 0); [lia|]. unfold in_step. cbn. rewrite Hcnt, to_u32_id by (unfold u32; lia).
    split; [done|]. split; [done|]. by right.
  - rewrite <- Ho, <- Hs in Hsrc. pose proof (on_report_forward (cf_selector c) r now _ Hsrc Hh Hl) as Hf.
    destruct (Z.leb_spec (lr_report_epoch r) e).
    + rewrite Hf. cbn. unfold in_step. cbn. split; [done|]. split; [done|]. right. by rewrite Hsrc, Ho, Hs.
    + destruct Hf as (E1 & E2 & E3 & E4). destruct (on_report (cf_selector c) r now) as [s fresh]. simpl in *. subst fresh.
      unfold in_step. cbn. rewrite Hcnt, to_u32_id by (unfold u32; lia). split; [done|]. split; [done|]. right. by rewrite E2, Hsrc, Ho, Hs.
Qed.
(** An admitted ground is counted once per record of its epochs. *)
Definition ours (c : CraftFeedback) (f : list Z) : Prop :=
  exists k, 1 <= k <= n /\ report_no k f /\ forall r, decode (Some f) = Some (DLinkReport r) -> for_craft c r = true.
Lemma heard_run l : forall c m e, in_step c m e -> 0 <= m <= e -> e <= n ->
  Forall (fun x => ours c x.1 \/ no_report c x.1) l ->
  exists c', air_run c l = Some c' /\ c'.(cf_reports_received) = m + records e (map (fun x => report_epoch c x.1) l).
Proof.
  induction l as [|[f now] l IH]; intros c m e Hc Hm He Hl; simpl.
  { exists c. split; [done|]. destruct Hc as [-> _]. lia. }
  apply Forall_cons in Hl as [Hf Hl]. simpl in Hf.
  assert (Hkeep : forall c', same_craft c c' -> Forall (fun x => ours c' x.1 \/ no_report c' x.1) l /\
    map (fun x => report_epoch c' x.1) l = map (fun x : list Z * Z => report_epoch c x.1) l).
  { intros c' Hsame. split.
    - eapply Forall_impl; [exact Hl|]. intros x [(k & ? & ? & Hx)|[? Hx]]; [left; exists k; split; [done|]|right]; (split; [done|]);
        intros r Hr; rewrite (same_craft_for _ _ _ Hsame); by apply Hx.
    - apply map_ext. intros x. by apply report_epoch_same. }
  destruct Hf as [(k & Hk & (r & Hd & Ho & Hs & Hek) & Hfor)|Hno].
  - specialize (Hfor r Hd). unfold on_air_feedback at 1. rewrite Hd. cbn [mbind option_bind].
    destruct (Hkeep _ (on_link_report_same c r now)) as [Hl' Hmap].
    assert (Hrep : report_epoch c f = k) by (unfold report_epoch; by rewrite Hd, Hfor). rewrite Hrep.
    pose proof (in_step_report c m e r now Hc Hm He Hfor Ho Hs ltac:(lia)) as Hst. rewrite Hek in Hst.
    destruct (Z.leb_spec k e).
    + destruct (IH _ m e Hst Hm He Hl') as (c' & -> & Hc'). exists c'. by rewrite Hc', Hmap.
    + destruct (IH _ (m + 1) k Hst ltac:(lia) ltac:(lia) Hl') as (c' & -> & Hc'). exists c'. rewrite Hc', Hmap. split; [done|lia].
  - assert (Hrep : report_epoch c f = 0).
    { unfold report_epoch. destruct Hno as [_ Hno]. destruct (decode (Some f)) as [[]|] eqn:E; try done. by rewrite Hno. }
    rewrite Hrep. destruct (Z.leb_spec 0 e); [|lia]. destruct Hno as [Hb Hno]. unfold on_air_feedback at 1.
    destruct (decode_total_lemma (Some f)) as [dec Hd]; [by intros buf [= <-]|]. rewrite Hd. cbn [mbind option_bind].
    destruct dec; try (destruct (IH c m e Hc Hm He Hl) as (c' & -> & Hc'); by exists c').
    + rewrite (not_for_craft _ _ _ (Hno _ Hd)). by apply IH.
    + destruct (on_link_verdict_same c v now) as (H1 & H2 & H3 & H4). destruct (Hkeep _ H1) as [Hl' Hmap]. rewrite <- Hmap.
      apply IH; [|done|done|done]. unfold in_step. by rewrite H2, H3, H4.
Qed.
End CraftSide.

Lemma numbered_in orig sess fs : forall n f, 0 <= n -> n + len fs < 2 ^ 32 -> numbered orig sess n fs -> f ∈ fs ->
  exists k, 1 <= k <= n + len fs /\ on_the_air orig sess k f.
Proof.
  induction fs as [|g fs IH]; intros n f Hn Hb Hnum Hin; [by apply elem_of_nil in Hin|]. simpl in *. destruct Hnum as [Hg Hnum].
  apply elem_of_cons in Hin as [->|Hin].
  - exists (n + 1). rewrite to_u32_id in Hg by (unfold u32; lia). split; [lia|done].
  - destruct (IH (n + 1) f) as (k & Hk & Hf); [lia|lia|done|done|]. exists k. split; [lia|done].
Qed.
(** In order, every epoch is a record. *)
Lemma records_in_order orig sess c fs : forall n, 0 <= n -> n + len fs < 2 ^ 32 -> numbered orig sess n fs ->
  Forall (fun f => forall x, decode (Some f) = Some (DLinkReport x) -> for_craft c x = true) fs ->
  records n (map (report_epoch c) fs) = len fs.
Proof.
  induction fs as [|f fs IH]; intros n Hn Hb Hnum Hf; simpl in *; [done|]. destruct Hnum as [(r & Hd & _ & _ & He) Hnum].
  apply Forall_cons in Hf as [Hr Hf]. rewrite to_u32_id in He by (unfold u32; lia).
  assert (Hrep : report_epoch c f = n + 1) by (unfold report_epoch; by rewrite Hd, (Hr r Hd)). rewrite Hrep.
  destruct (Z.leb_spec (n + 1) n); [lia|]. rewrite IH by (done || lia). lia.
Qed.

(** C8. The feedback loop counts every report once and spends no epoch on a
    frame the radio did not take. A ground that starts afresh and reports over
    any sequence of engines, the radio taking any of its frames, never fails
    to encode, and its epoch is the number of frames it has on the air. A
    craft that hears these frames in any order, repeated or lost, among frames
    that are no report of its own video streams, never fails to decode, and
    counts no more reports than the last epoch it admitted, itself no more
    than the frames sent. If its gate admits this ground, it counts exactly
    the frames whose epoch is above every one before; all of them when they
    come in order. *)
Theorem feedback_ledger orig sess interval tv ticks c (Ho : u16 orig) (Hs : u32 sess)
  (Hr : Forall (fun x => reportable (Reporter_init interval tv) x.1.1) ticks)
  (Hnew : c.(cf_selector).(intake).(report_source_) = None /\ c.(cf_reports_received) = 0) :
  exists r fs, ground_reports orig sess (Reporter_init interval tv) ticks = Some (r, fs) /\ r.(epoch_) = to_u32 (len fs) /\
    (len fs < 2 ^ 32 ->
      (forall air, Forall (fun x => x.1 ∈ fs \/ no_report c x.1) air ->
        exists c', air_run c air = Some c' /\ 0 <= c'.(cf_reports_received) <= len fs /\
          (c'.(cf_reports_received) <> 0 -> c'.(cf_reports_received) <= c'.(cf_selector).(intake).(last_epoch_) <= len fs)) /\
      (admits orig c.(cf_gate) ->
        Forall (fun f => forall x, decode (Some f) = Some (DLinkReport x) -> for_craft c x = true) fs ->
        (forall air, Forall (fun x => x.1 ∈ fs \/ no_report c x.1) air ->
          exists c', air_run c air = Some c' /\ c'.(cf_reports_received) = records 0 (map (fun x => report_epoch c x.1) air)) /\
        records 0 (map (report_epoch c) fs) = len fs)).
Proof.
  destruct (ground_reports_ok orig sess Ho Hs ticks (Reporter_init interval tv) 0 Hr) as (r & fs & Hg & Hnum & He); [done|].
  exists r, fs. split; [done|]. split; [done|]. intros Hb. destruct Hnew as [Hsrc Hcnt].
  assert (Hin : forall f, f ∈ fs -> exists k, 1 <= k <= len fs /\ on_the_air orig sess k f).
  { intros f Hf. apply (numbered_in orig sess fs 0 f); (done || lia). }
  split.
  - intros air Hair. destruct (counted_run orig sess (len fs) ltac:(lia) air c) as (c' & Hc & Hinv).
    + by left.
    + eapply Forall_impl; [exact Hair|]. intros x [Hx|Hx]; [left; by apply Hin|by right].
    + exists c'. split; [done|]. destruct Hinv as [[_ H0]|(_ & _ & H0 & H1)]; split; lia.
  - intros Had Hf. split.
    + intros air Hair. destruct (heard_run orig sess (len fs) ltac:(lia) air c 0 0) as (c' & Hc & Hc'); [|lia|lia| |by exists c'; rewrite Hc'].
      * split; [done|]. split; [done|]. by left.
      * eapply Forall_impl; [exact Hair|]. intros x [Hx|Hx]; [left|by right]. destruct (Hin _ Hx) as (k & Hk & Hon).
        exists k. split; [done|]. split; [done|]. by rewrite Forall_forall in Hf; apply Hf.
    + apply (records_in_order orig sess); (done || lia).
Qed.

(** ** A ground that heard craft 7, and the craft *)
Definition loop_view (seq : Z) : DataView := MkDataView (MkDataHeader (MkCommonPrefix 7 0 9) 2 stream_type_kRtp seq 1 0 0 0) (Some [seq]) 1.
Definition loop_engine : RxEngine :=
  fold_left (fun e seq => match Rx.on_data (E := unit) e 0 (loop_view seq) (90 + seq) (-50) None tt with Some (e, _, _) => e | None => e end)
    [1; 2; 3; 4] (RxEngine_init RxPolicy_init [MkWantSpec 1 stream_type_kRtp None] None None).
Definition loop_ticks : list (RxEngine * Z * list bool) :=
  [(loop_engine, 100, [true]); (loop_engine, 200, [false]); (loop_engine, 300, [true]); (loop_engine, 350, [true]); (loop_engine, 400, [true])].
Definition loop_craft : CraftFeedback :=
  MkCraftFeedback 7 9 [(2, stream_type_kRtp)] (ReportGate_init ReportGatePolicy_init) (Selector_init SelectorPolicy_init None) 0 None 0 0.
Definition loop_frames : list (list Z) := from_option snd [] (ground_reports 3 5 (Reporter_init 100 (Some 1)) loop_ticks).
Definition loop_counts (air : list nat) : option Z :=
  cf_reports_received <$> air_run loop_craft (map (fun i => (nth i loop_frames [], 1000)) air).

(** Three of the four reports due went out, with epochs 1 to 3: the second was
    refused by the radio and its epoch reused, the tick at 350 ms was early.
    All count in order; a repetition or a straggler does not. *)
Example loop_demo :
  map (report_epoch loop_craft) loop_frames = [1; 2; 3] /\
  loop_counts [0; 1; 2]%nat = Some 3 /\ loop_counts [0; 0; 2; 1; 2]%nat = Some 2.
Proof. by vm_compute. Qed.

Lemma loop_reportable : reportable (Reporter_init 100 (Some 1)) loop_engine.
Proof.
  unfold reportable.
  let v := eval vm_compute in (streams_ loop_engine) in replace (streams_ loop_engine) with v by (by vm_compute).
  let v := eval vm_compute in (adapters loop_engine) in replace (adapters loop_engine) with v by (by vm_compute).
  rewrite !Forall_singleton. cbn. unfold u16, u32, u8, i8. lia.
Qed.
Lemma feedback_ledger_witness :
  exists r fs, ground_reports 3 5 (Reporter_init 100 (Some 1)) loop_ticks = Some (r, fs) /\ r.(epoch_) = to_u32 (len fs).
Proof.
  destruct (feedback_ledger 3 5 100 (Some 1) loop_ticks loop_craft) as (r & fs & E & He & _).
  - unfold u16. lia.
  - unfold u32. lia.
  - unfold loop_ticks. rewrite !Forall_cons, Forall_nil. cbn [fst]. repeat split; apply loop_reportable.
  - split; reflexivity.
  - exact (ex_intro _ r (ex_intro _ fs (conj E He))).
Defined.
