(* ===== verification/Dwell.v ===== *)
(** * The calibration dwell ([core/.../calib_dwell.h])

    One dwell: the sender emits numbered probes, the receiver counts the
    distinct ones and answers with a tally. *)
From S2P Require Import Prelude Types McsProbe.

(** ** Sender *)
Inductive DwellState : Type := dIdle | dEmitting | dAwaitTally | dDone | dNoEvidence.
#[export] Instance DwellState_dec : EqDecision DwellState.
Proof. solve_decision. Defined.

Record DwellSendParams : Type := MkDwellSendParams {
  probe_pace_us : Z;
  tally_wait_ms : Z;
  tally_retries : Z;
  max_probes_per_tick : Z
}.
Definition DwellSendParams_init : DwellSendParams := MkDwellSendParams 2000 500 3 8.
(** The sequence number of a probe to emit, [None] where [send] is false. *)
Definition DwellProbeOut : Type := option Z.

Record DwellResult : Type := MkDwellResult {
  dr_sent : Z;
  dr_received : Z;
  dr_rssi_sum_dbm : Z;
  dr_rx_mcs : Z;
  dr_adapter_fingerprint : Z
}.
Definition DwellResult_init : DwellResult := MkDwellResult 0 0 0 kUplinkRxMcsUnknown 0.
Definition loss_milli (r : DwellResult) : Z :=
  if r.(dr_sent) =? 0 then 1000
  else
    let x := if r.(dr_received) >? r.(dr_sent) then r.(dr_sent) else r.(dr_received) in
    to_u16 (1000 * (r.(dr_sent) - x) / r.(dr_sent)).

Record DwellSender : Type := MkDwellSender {
  ds_p : DwellSendParams;
  ds_state : DwellState;
  ds_run_id : Z;
  ds_dwell_id : Z;
  ds_count : Z;
  ds_next_seq : Z;
  ds_retries_left : Z;
  ds_last_emit_ms : Z;
  ds_emit_credit_us : Z;
  ds_emitted_this_tick : Z;
  ds_wait_since_ms : Z;
  ds_result : DwellResult
}.
Definition DwellSender_init (p : DwellSendParams) : DwellSender :=
  MkDwellSender p dIdle 0 0 0 1 0 0 0 0 0 DwellResult_init.

Definition begin (s : DwellSender) (run_id dwell_id count now_ms : Z) : DwellSender * bool :=
  if (dwell_id =? 0) || (count =? 0) then (s, false)
  else
    (MkDwellSender s.(ds_p) dEmitting run_id dwell_id count 1 s.(ds_p).(tally_retries) now_ms s.(ds_p).(probe_pace_us)
       s.(ds_emitted_this_tick) 0 DwellResult_init, true).
Definition accrue_ (s : DwellSender) (now_ms : Z) : DwellSender :=
  let d := to_u64 (now_ms - s.(ds_last_emit_ms)) in
  let cap := to_u64 (s.(ds_p).(probe_pace_us) * s.(ds_p).(max_probes_per_tick)) in
  let credit := to_u64 (s.(ds_emit_credit_us) + to_u64 (d * 1000)) in
  MkDwellSender s.(ds_p) s.(ds_state) s.(ds_run_id) s.(ds_dwell_id) s.(ds_count) s.(ds_next_seq) s.(ds_retries_left) now_ms
    (if credit >? cap then cap else credit) s.(ds_emitted_this_tick) s.(ds_wait_since_ms) s.(ds_result).
Definition with_ds_state (s : DwellSender) (st : DwellState) : DwellSender :=
  MkDwellSender s.(ds_p) st s.(ds_run_id) s.(ds_dwell_id) s.(ds_count) s.(ds_next_seq) s.(ds_retries_left) s.(ds_last_emit_ms)
    s.(ds_emit_credit_us) s.(ds_emitted_this_tick) s.(ds_wait_since_ms) s.(ds_result).

Definition next_probe (s : DwellSender) (now_ms : Z) : DwellSender * DwellProbeOut :=
  match s.(ds_state) with
  | dEmitting =>
    let s := accrue_ s now_ms in
    if s.(ds_emitted_this_tick) >=? s.(ds_p).(max_probes_per_tick) then (s, None)
    else if s.(ds_emit_credit_us) <? s.(ds_p).(probe_pace_us) then (s, None)
    else
      let last := s.(ds_next_seq) =? s.(ds_count) in
      (MkDwellSender s.(ds_p) (if last then dAwaitTally else s.(ds_state)) s.(ds_run_id) s.(ds_dwell_id) s.(ds_count)
         (if last then s.(ds_next_seq) else to_u16 (s.(ds_next_seq) + 1)) s.(ds_retries_left) s.(ds_last_emit_ms)
         (s.(ds_emit_credit_us) - s.(ds_p).(probe_pace_us)) (to_u16 (s.(ds_emitted_this_tick) + 1))
         (if last then now_ms else s.(ds_wait_since_ms)) s.(ds_result),
       Some s.(ds_next_seq))
  | dAwaitTally =>
    let s := accrue_ s now_ms in
    if to_u64 (now_ms - s.(ds_wait_since_ms)) <? s.(ds_p).(tally_wait_ms) then (s, None)
    else if s.(ds_retries_left) =? 0 then (with_ds_state s dNoEvidence, None)
    else
      (MkDwellSender s.(ds_p) s.(ds_state) s.(ds_run_id) s.(ds_dwell_id) s.(ds_count) s.(ds_next_seq) (s.(ds_retries_left) - 1)
         s.(ds_last_emit_ms) s.(ds_emit_credit_us) s.(ds_emitted_this_tick) now_ms s.(ds_result),
       Some s.(ds_count))
  | _ => (s, None)
  end.

Definition on_tally (s : DwellSender) (run_id dwell_id received rssi_sum_dbm rx_mcs adapter_fingerprint : Z) : DwellSender * bool :=
  if negb (bool_decide (s.(ds_state) = dEmitting)) && negb (bool_decide (s.(ds_state) = dAwaitTally)) then (s, false)
  else if negb (run_id =? s.(ds_run_id)) || negb (dwell_id =? s.(ds_dwell_id)) then (s, false)
  else
    (MkDwellSender s.(ds_p) dDone s.(ds_run_id) s.(ds_dwell_id) s.(ds_count) s.(ds_next_seq) s.(ds_retries_left) s.(ds_last_emit_ms)
       s.(ds_emit_credit_us) s.(ds_emitted_this_tick) s.(ds_wait_since_ms)
       (MkDwellResult s.(ds_count) received rssi_sum_dbm rx_mcs adapter_fingerprint), true).
Definition sender_reset (s : DwellSender) : DwellSender := with_ds_state s dIdle.
Definition new_tick (s : DwellSender) : DwellSender :=
  MkDwellSender s.(ds_p) s.(ds_state) s.(ds_run_id) s.(ds_dwell_id) s.(ds_count) s.(ds_next_seq) s.(ds_retries_left)
    s.(ds_last_emit_ms) s.(ds_emit_credit_us) 0 s.(ds_wait_since_ms) s.(ds_result).

(** ** Receiver *)
Record DwellTallyOut : Type := MkDwellTallyOut {
  to_send : bool;
  to_run_id : Z;
  to_dwell_id : Z;
  to_received : Z;
  to_rssi_sum_dbm : Z;
  to_rx_mcs : Z;
  to_new_run : bool
}.
Definition DwellTallyOut_init : DwellTallyOut := MkDwellTallyOut false 0 0 0 0 kUplinkRxMcsUnknown false.
Definition kMaxDwellFrames : Z := 1024.

Record Acc : Type := MkAcc {
  acc_received : Z;
  acc_rssi_sum : Z;
  acc_rx_mcs : Z;
  acc_seen : list Z           (** [std::array<uint64_t, 16>] *)
}.
Definition Acc_init : Acc := MkAcc 0 0 kUplinkRxMcsUnknown (replicate 16 0).
(** [test_set]: the prior bit, [None] past the array. *)
Definition test_set (seen : list Z) (seq : Z) : option (list Z * bool) :=
  let i := to_u16 (seq - 1) in
  let j := Z.to_nat (Z.shiftr i 6) in
  w ← seen !! j;
  let bit := to_u64 (Z.shiftl 1 (Z.land i 63)) in
  Some (<[j := Z.lor w bit]> seen, negb (Z.land w bit =? 0)).

Record Closed : Type := MkClosed { cl_dwell_id : Z; cl_received : Z; cl_rssi_sum : Z; cl_rx_mcs : Z }.
Definition Closed_init : Closed := MkClosed 0 0 0 kUplinkRxMcsUnknown.
Record DwellReceiver : Type := MkDwellReceiver {
  rc_run_id : Z;
  open_dwell_ : Z;
  closed_dwell_ : Z;
  acc_ : Acc;
  closed_tally_ : Closed;
  last_probe_ms_ : Z
}.
Definition DwellReceiver_init : DwellReceiver := MkDwellReceiver 0 0 0 Acc_init Closed_init 0.

Definition close_ (r : DwellReceiver) : DwellReceiver :=
  MkDwellReceiver r.(rc_run_id) 0 r.(open_dwell_) Acc_init
    (MkClosed r.(open_dwell_) r.(acc_).(acc_received) r.(acc_).(acc_rssi_sum) r.(acc_).(acc_rx_mcs)) r.(last_probe_ms_).
Definition fill_ (r : DwellReceiver) (out : DwellTallyOut) : DwellTallyOut :=
  let c := r.(closed_tally_) in
  MkDwellTallyOut true r.(rc_run_id) c.(cl_dwell_id) c.(cl_received) c.(cl_rssi_sum) c.(cl_rx_mcs) out.(to_new_run).
(** A probe of the open dwell is booked. *)
Definition book (a : Acc) (seq rssi rx_mcs : Z) : option Acc :=
  if seq <=? kMaxDwellFrames then
    '(seen, had) ← test_set a.(acc_seen) seq;
    Some (if (had : bool) then MkAcc a.(acc_received) a.(acc_rssi_sum) a.(acc_rx_mcs) seen
          else MkAcc (to_u16 (a.(acc_received) + 1)) (to_u32 (a.(acc_rssi_sum) + to_u32 rssi)) rx_mcs seen)
  else Some a.
Definition with_acc (r : DwellReceiver) (a : Acc) : DwellReceiver :=
  MkDwellReceiver r.(rc_run_id) r.(open_dwell_) r.(closed_dwell_) a r.(closed_tally_) r.(last_probe_ms_).

Definition on_probe (r : DwellReceiver) (run_id dwell_id seq count rssi rx_mcs now_ms : Z)
    : option (DwellReceiver * DwellTallyOut) :=
  let out := DwellTallyOut_init in
  let r := MkDwellReceiver r.(rc_run_id) r.(open_dwell_) r.(closed_dwell_) r.(acc_) r.(closed_tally_) now_ms in
  let '(r, out) :=
    if negb (run_id =? r.(rc_run_id)) then
      (MkDwellReceiver run_id 0 0 r.(acc_) r.(closed_tally_) r.(last_probe_ms_), MkDwellTallyOut false 0 0 0 0 kUplinkRxMcsUnknown true)
    else (r, out) in
  if (dwell_id =? r.(closed_dwell_)) && negb (r.(closed_dwell_) =? 0) then Some (r, fill_ r out)
  else if (dwell_id <? r.(open_dwell_)) || (dwell_id <? r.(closed_dwell_)) then Some (r, out)
  else
    let '(r, out) :=
      if negb (dwell_id =? r.(open_dwell_)) then
        let '(r, out) := if negb (r.(open_dwell_) =? 0) then (close_ r, fill_ (close_ r) out) else (r, out) in
        (MkDwellReceiver r.(rc_run_id) dwell_id r.(closed_dwell_) Acc_init r.(closed_tally_) r.(last_probe_ms_), out)
      else (r, out) in
    a ← book r.(acc_) seq rssi rx_mcs;
    let r := with_acc r a in
    if seq =? count then Some (close_ r, fill_ (close_ r) out) else Some (r, out).

Definition quiet_for (r : DwellReceiver) (now_ms timeout_ms : Z) : bool :=
  negb (r.(rc_run_id) =? 0) && (to_u64 (now_ms - r.(last_probe_ms_)) >=? timeout_ms).
Definition expire_run (r : DwellReceiver) : DwellReceiver :=
  MkDwellReceiver 0 0 0 r.(acc_) r.(closed_tally_) r.(last_probe_ms_).
