(* ===== verification/DwellProps.v ===== *)
(** * What a dwell's tally says

    The receiver's tally is the number of distinct probes it heard and the sum
    of their signal, however the air repeats, reorders or drops them; the
    sender numbers its burst, bounds it, and ends. *)
From S2P Require Import Prelude Types McsProbe Dwell.

(** ** The bitmap *)
Definition seen_rep (seen : list Z) (S : list Z) : Prop :=
  length seen = 16%nat /\ Forall u64 seen /\
  forall i, 0 <= i < 1024 -> Z.testbit (default 0 (seen !! Z.to_nat (i / 64))) (i mod 64) = bool_decide (i + 1 ∈ S).
Lemma seen_rep_nil : seen_rep (replicate 16 0) [].
Proof.
  split; [done|]. split; [apply Forall_replicate; unfold u64; lia|]. intros i Hi.
  rewrite lookup_replicate_2; [|pose proof (Z.div_lt_upper_bound i 64 16); pose proof (Z.div_pos i 64); lia].
  rewrite bool_decide_false by apply not_elem_of_nil. apply Z.testbit_0_l.
Qed.
Lemma land_bit w k : 0 <= k -> negb (Z.land w (2 ^ k) =? 0) = Z.testbit w k.
Proof.
  intros Hk. destruct (Z.eqb_spec (Z.land w (2 ^ k)) 0) as [E|E]; simpl.
  - assert (H : Z.testbit (Z.land w (2 ^ k)) k = false) by (rewrite E; apply Z.testbit_0_l).
    rewrite Z.land_spec, Z.pow2_bits_true, andb_true_r in H by lia. done.
  - destruct (Z.testbit w k) eqn:Et; [done|]. exfalso. apply E. apply Z.bits_inj'. intros n Hn. rewrite Z.land_spec, Z.testbit_0_l.
    destruct (decide (n = k)) as [->|]; [by rewrite Et|]. rewrite Z.pow2_bits_false by lia. apply andb_false_r.
Qed.
Lemma lor_u64 w k : u64 w -> 0 <= k < 64 -> u64 (Z.lor w (2 ^ k)).
Proof.
  intros Hw Hk. unfold u64 in *. assert (Hnn : 0 <= Z.lor w (2 ^ k)) by (apply Z.lor_nonneg; split; [lia|apply Z.pow_nonneg; lia]).
  split; [done|]. change 18446744073709551616 with (2 ^ 64). destruct (decide (Z.lor w (2 ^ k) = 0)) as [->|Hne]; [done|].
  apply Z.log2_lt_pow2; [lia|]. rewrite Z.log2_lor by (try apply Z.pow_nonneg; lia). rewrite Z.log2_pow2 by lia.
  destruct (decide (w = 0)) as [->|]; [simpl; lia|]. assert (Z.log2 w < 64) by (apply Z.log2_lt_pow2; [lia|]; lia). lia.
Qed.
Lemma test_set_rep seen S seq : seen_rep seen S -> 1 <= seq <= 1024 ->
  exists seen', test_set seen seq = Some (seen', bool_decide (seq ∈ S)) /\ seen_rep seen' (seq :: S).
Proof.
  intros (Hlen & Hu & Hb) Hs. unfold test_set. rewrite to_u16_id by (unfold u16; lia). set (i := seq - 1).
  assert (Hi : 0 <= i < 1024) by (unfold i; lia).
  assert (Hj : Z.shiftr i 6 = i / 64) by (rewrite Z.shiftr_div_pow2 by lia; done).
  assert (Hk : Z.land i 63 = i mod 64) by (apply (Z.land_ones i 6); lia). rewrite Hj, Hk.
  pose proof (Z.mod_pos_bound i 64 ltac:(lia)) as Hm.
  assert (Hjr : 0 <= i / 64 < 16) by (split; [apply Z.div_pos; lia|apply Z.div_lt_upper_bound; lia]).
  destruct (lookup_lt_is_Some_2 seen (Z.to_nat (i / 64))) as [w Hw]; [lia|]. rewrite Hw. cbn [mbind option_bind].
  rewrite Z.shiftl_1_l, to_u64_id.
  2:{ unfold u64. split; [apply Z.pow_nonneg; lia|]. change 18446744073709551616 with (2 ^ 64). apply Z.pow_lt_mono_r; lia. }
  rewrite land_bit by lia. pose proof (Hb i Hi) as Hbi. rewrite Hw in Hbi. simpl in Hbi. replace (i + 1) with seq in Hbi by (unfold i; lia).
  rewrite Hbi. eexists. split; [reflexivity|]. split; [by rewrite length_insert|]. split.
  { apply Forall_insert; [done|]. apply lor_u64; [|lia]. rewrite Forall_lookup in Hu. by eapply Hu. }
  intros x Hx. pose proof (Z.div_pos x 64 ltac:(lia) ltac:(lia)).
  assert (Hcons : bool_decide (x + 1 ∈ seq :: S) = bool_decide (x = i) || bool_decide (x + 1 ∈ S)).
  { apply eq_bool_prop_intro. rewrite orb_True, !bool_decide_spec, elem_of_cons. unfold i. intuition lia. }
  rewrite Hcons, <- (Hb x Hx). destruct (decide (x / 64 = i / 64)) as [E|E].
  - rewrite E, list_lookup_insert_eq by lia. simpl. rewrite Hw. simpl. rewrite Z.lor_spec, orb_comm.
    pose proof (Z.div_mod x 64 ltac:(lia)). pose proof (Z.div_mod i 64 ltac:(lia)). f_equal.
    destruct (decide (x = i)) as [->|Hne];
      [rewrite bool_decide_true by done; apply Z.pow2_bits_true; lia|rewrite bool_decide_false by done; apply Z.pow2_bits_false; lia].
  - rewrite list_lookup_insert_ne by lia. rewrite (bool_decide_false (x = i)); [done|]. intros ->. done.
Qed.

(** ** The first copies of what was heard *)
Definition Copy : Type := (Z * Z * Z)%type.   (** sequence number, signal, rate *)
Definition seqs (l : list Copy) : list Z := map (fun x => x.1.1) l.
Definition add_copy (l : list Copy) (x : Copy) : list Copy := if decide (x.1.1 ∈ seqs l) then l else l ++ [x].
Definition copies (l : list Copy) : list Copy := foldl add_copy [] l.
Definition rssi_sum (l : list Copy) : Z := to_u32 (foldl (fun n x => n + x.1.2) 0 l).
Lemma probe_seqs_app l k : seqs (l ++ k) = seqs l ++ seqs k.
Proof. apply map_app. Qed.
Lemma add_copy_nodup l x : NoDup (seqs l) -> NoDup (seqs (add_copy l x)).
Proof.
  intros H. unfold add_copy. destruct (decide _) as [|Hn]; [done|]. rewrite probe_seqs_app. apply NoDup_app. split; [done|].
  split; [|apply NoDup_singleton]. intros y Hy Hx. apply list_elem_of_singleton in Hx as ->. done.
Qed.
Lemma copies_nodup l : NoDup (seqs (copies l)).
Proof.
  unfold copies. assert (G : forall acc, NoDup (seqs acc) -> NoDup (seqs (foldl add_copy acc l))).
  { induction l as [|x l IH]; intros acc Ha; [done|]. by apply IH, add_copy_nodup. }
  apply G. constructor.
Qed.
Lemma add_copy_seqs l x y : y ∈ seqs (add_copy l x) <-> y ∈ seqs l \/ y = x.1.1.
Proof.
  unfold add_copy. destruct (decide _) as [Hi|].
  - split; [tauto|]. intros [?| ->]; done.
  - rewrite probe_seqs_app, elem_of_app. unfold seqs at 2. simpl. by rewrite list_elem_of_singleton.
Qed.
Lemma copies_seqs l y : y ∈ seqs (copies l) <-> y ∈ seqs l.
Proof.
  unfold copies. assert (G : forall acc, y ∈ seqs (foldl add_copy acc l) <-> y ∈ seqs acc \/ y ∈ seqs l).
  { induction l as [|x l IH]; intros acc; simpl; [by rewrite elem_of_nil; tauto|].
    rewrite IH, add_copy_seqs, elem_of_cons. tauto. }
  rewrite G. unfold seqs at 1. simpl. rewrite elem_of_nil. tauto.
Qed.

(** ** The receiver in one dwell *)
Definition u32_sum (n : Z) (l : list Copy) : Z := foldl (fun n x => to_u32 (n + to_u32 x.1.2)) n l.
Lemma u32_sum_eq l : forall n m, n = to_u32 m -> u32_sum n l = to_u32 (foldl (fun n x => n + x.1.2) m l).
Proof.
  induction l as [|x l IH]; intros n m ->; simpl; [done|]. apply IH. unfold to_u32. by rewrite <- Zplus_mod.
Qed.
Record counts (a : Acc) (l : list Copy) : Prop := {
  ct_n : a.(acc_received) = len l;
  ct_sum : a.(acc_rssi_sum) = u32_sum 0 l;
  ct_mcs : a.(acc_rx_mcs) = from_option (fun x => x.2) kUplinkRxMcsUnknown (last l);
  ct_seen : seen_rep a.(acc_seen) (seqs l);
  ct_seqs : NoDup (seqs l) /\ Forall (fun s => 1 <= s <= 1024) (seqs l)
}.
Lemma counts_init : counts Acc_init [].
Proof. constructor; try done; [apply seen_rep_nil|split; constructor]. Qed.
Lemma seqs_1024 l : NoDup (seqs l) -> Forall (fun s => 1 <= s <= 1024) (seqs l) -> len l <= 1024.
Proof.
  intros Hn Hf. assert (Hl : length l = length (seqs l)) by (unfold seqs; by rewrite length_map). rewrite Hl.
  assert (H : (length (seqs l) <= length (seqZ 1 1024))%nat); [|rewrite length_seqZ in H; lia].
  apply submseteq_length, NoDup_submseteq; [done|]. intros x Hx. rewrite Forall_forall in Hf. apply Hf in Hx. apply elem_of_seqZ. lia.
Qed.
Lemma seen_rep_perm seen S T : (forall x, x ∈ S <-> x ∈ T) -> seen_rep seen S -> seen_rep seen T.
Proof. intros H (H1 & H2 & H3). split_and!; try done. intros i Hi. rewrite H3 by done. by apply bool_decide_ext. Qed.
Lemma book_counts a l seq rssi mcs : counts a l -> 1 <= seq <= 1024 -> exists a',
  book a seq rssi mcs = Some a' /\ counts a' (add_copy l (seq, rssi, mcs)).
Proof.
  intros [C1 C2 C3 C4 [C5 C6]] Hs. unfold book. unfold kMaxDwellFrames. rewrite (proj2 (Z.leb_le _ _)) by lia.
  destruct (test_set_rep _ _ _ C4 Hs) as (seen' & -> & Hrep). cbn [mbind option_bind]. unfold add_copy. cbn [fst snd].
  case_bool_decide as Hin; [rewrite decide_True by done|rewrite decide_False by done]; (eexists; split; [reflexivity|]).
  - constructor; cbn; try done. eapply seen_rep_perm; [|exact Hrep]. intros x. rewrite elem_of_cons. split; [intros [->|]; done|by right].
  - pose proof (add_copy_nodup l (seq, rssi, mcs) C5) as Hnd. unfold add_copy in Hnd. cbn [fst] in Hnd. rewrite decide_False in Hnd by done.
    assert (Hf : Forall (fun s => 1 <= s <= 1024) (seqs (l ++ [(seq, rssi, mcs)]))).
    { rewrite probe_seqs_app. apply Forall_app. split; [done|]. by apply Forall_singleton. }
    pose proof (seqs_1024 _ C5 C6). constructor; cbn; try done.
    + rewrite C1, length_app, to_u16_id by (unfold u16; lia). simpl. lia.
    + rewrite C2. unfold u32_sum. by rewrite foldl_app.
    + by rewrite last_snoc.
    + eapply seen_rep_perm; [|exact Hrep]. intros x. rewrite probe_seqs_app, elem_of_app, elem_of_cons. unfold seqs at 3. simpl.
      rewrite list_elem_of_singleton. tauto.
Qed.

(** A receiver that has not heard of the dwell. *)
Definition fresh (r : DwellReceiver) (run D : Z) : Prop :=
  run <> r.(rc_run_id) \/ (r.(open_dwell_) < D /\ r.(closed_dwell_) < D).
Record opened (r : DwellReceiver) (run D : Z) (l : list Copy) : Prop := {
  op_run : r.(rc_run_id) = run;
  op_open : r.(open_dwell_) = D;
  op_closed : r.(closed_dwell_) < D;
  op_acc : counts r.(acc_) l
}.
Record closed (r : DwellReceiver) (run D : Z) (l : list Copy) : Prop := {
  cd_run : r.(rc_run_id) = run;
  cd_open : r.(open_dwell_) = 0;
  cd_closed : r.(closed_dwell_) = D;
  cd_tally : r.(closed_tally_) = MkClosed D (len l) (rssi_sum l) (from_option (fun x => x.2) kUplinkRxMcsUnknown (last l))
}.
(** The tally of these copies. *)
Record tells (out : DwellTallyOut) (run D : Z) (l : list Copy) : Prop := {
  tl_send : out.(to_send) = true;
  tl_run : out.(to_run_id) = run;
  tl_dwell : out.(to_dwell_id) = D;
  tl_received : out.(to_received) = len l;
  tl_sum : out.(to_rssi_sum_dbm) = rssi_sum l;
  tl_mcs : out.(to_rx_mcs) = from_option (fun x => x.2) kUplinkRxMcsUnknown (last l)
}.
Definition not_about (out : DwellTallyOut) (D : Z) : Prop := out.(to_send) = true -> out.(to_dwell_id) < D.
Definition heard_by (r : DwellReceiver) (run D n : Z) (x : Copy * Z) : option (DwellReceiver * DwellTallyOut) :=
  on_probe r run D x.1.1.1 n x.1.1.2 x.1.2 x.2.
Fixpoint hear (r : DwellReceiver) (run D n : Z) (l : list (Copy * Z)) : option (DwellReceiver * list DwellTallyOut) :=
  match l with
  | [] => Some (r, [])
  | x :: l => '(r, out) ← heard_by r run D n x; '(r, outs) ← hear r run D n l; Some (r, out :: outs)
  end.

Section OneDwell.
Context (run D n : Z).
Hypothesis HD : 1 <= D.
Hypothesis Hn : 1 <= n <= 1024.
(** Booking into the open dwell, and closing it on the tail. *)
Lemma book_step r l out seq rssi mcs : opened r run D l -> 1 <= seq <= n -> exists r' out',
  (a ← book r.(acc_) seq rssi mcs;
   let r := with_acc r a in if seq =? n then Some (close_ r, fill_ (close_ r) out) else Some (r, out)) = Some (r', out') /\
  (if seq =? n then closed r' run D (add_copy l (seq, rssi, mcs)) /\ tells out' run D (add_copy l (seq, rssi, mcs))
   else opened r' run D (add_copy l (seq, rssi, mcs)) /\ out' = out).
Proof.
  intros [O1 O2 O3 O4] Hs. destruct (book_counts _ l seq rssi mcs O4 ltac:(lia)) as (a & -> & Hc). cbn [mbind option_bind].
  destruct (seq =? n); (eexists _, _; split; [reflexivity|]); [|by split].
  destruct Hc as [C1 C2 C3 _ _]. assert (Hsum : acc_rssi_sum a = rssi_sum (add_copy l (seq, rssi, mcs))).
  { rewrite C2. by apply u32_sum_eq. }
  split; constructor; cbn; try done. by rewrite O2, C1, C3, Hsum.
Qed.
Lemma first_step r x : fresh r run D -> 1 <= x.1.1.1 <= n -> 0 <= r.(closed_dwell_) -> exists r' out, heard_by r run D n x = Some (r', out) /\
  (if x.1.1.1 =? n then closed r' run D (add_copy [] x.1) /\ tells out run D (add_copy [] x.1)
   else opened r' run D (add_copy [] x.1) /\ not_about out D).
Proof.
  intros Hf Hs Hc. destruct x as [[[seq rssi] mcs] now]. cbn [fst snd] in *. unfold heard_by, on_probe. cbn [fst snd rc_run_id open_dwell_ closed_dwell_].
  set (r0 := MkDwellReceiver (rc_run_id r) (open_dwell_ r) (closed_dwell_ r) (acc_ r) (closed_tally_ r) now).
  set (R := if negb (run =? rc_run_id r) then _ else _).
  assert (HR : exists r1 o1, R = (r1, o1) /\ rc_run_id r1 = run /\ open_dwell_ r1 < D /\ 0 <= closed_dwell_ r1 < D /\ o1.(to_send) = false).
  { unfold R. destruct (Z.eqb_spec run (rc_run_id r)) as [E|E]; cbn [negb]; eexists _, _; (split; [reflexivity|]); cbn; split_and!; try done; try lia;
      destruct Hf as [?|[? ?]]; (done || lia). }
  destruct HR as (r1 & o1 & -> & H1 & H2 & H3 & H4). rewrite (proj2 (Z.eqb_neq _ _)) by lia. cbn [andb].
  rewrite (proj2 (Z.ltb_ge _ _)) by lia. rewrite (proj2 (Z.ltb_ge D (closed_dwell_ r1))) by lia. cbn [orb].
  rewrite (proj2 (Z.eqb_neq D (open_dwell_ r1))) by lia. cbn [negb].
  set (Q := if negb (open_dwell_ r1 =? 0) then _ else _).
  assert (HQ : exists r2 o2, Q = (r2, o2) /\ rc_run_id r2 = run /\ closed_dwell_ r2 < D /\ not_about o2 D).
  { unfold Q. destruct (open_dwell_ r1 =? 0); cbn [negb]; eexists _, _; (split; [reflexivity|]); cbn; split_and!; try done; try lia.
    - intros Hsend. congruence.
    - unfold not_about. cbn. lia. }
  destruct HQ as (r2 & o2 & -> & Q1 & Q2 & Q3).
  destruct (book_step (MkDwellReceiver (rc_run_id r2) D (closed_dwell_ r2) Acc_init (closed_tally_ r2) (last_probe_ms_ r2)) [] o2 seq rssi mcs)
    as (r' & out & E & Hres); [constructor; cbn; try done; apply counts_init|done|].
  exists r', out. split; [exact E|]. destruct (seq =? n); [done|]. destruct Hres as [? ->]. done.
Qed.
Lemma next_step r l x : opened r run D l -> 1 <= x.1.1.1 <= n -> exists r' out, heard_by r run D n x = Some (r', out) /\
  (if x.1.1.1 =? n then closed r' run D (add_copy l x.1) /\ tells out run D (add_copy l x.1)
   else opened r' run D (add_copy l x.1) /\ not_about out D).
Proof.
  intros [O1 O2 O3 O4] Hs. destruct x as [[[seq rssi] mcs] now]. cbn [fst snd] in *. unfold heard_by, on_probe. cbn [fst snd rc_run_id open_dwell_ closed_dwell_].
  rewrite O1, Z.eqb_refl. cbn [negb open_dwell_ closed_dwell_]. rewrite (proj2 (Z.eqb_neq D (closed_dwell_ r))) by lia. cbn [andb].
  rewrite O2, Z.ltb_irrefl, (proj2 (Z.ltb_ge D (closed_dwell_ r))), Z.eqb_refl by lia. cbn [orb negb].
  destruct (book_step (MkDwellReceiver run D (closed_dwell_ r) (acc_ r) (closed_tally_ r) now) l DwellTallyOut_init seq rssi mcs)
    as (r' & out & E & Hres); [by constructor|done|].
  exists r', out. split; [exact E|]. destruct (seq =? n); [done|]. by destruct Hres as [? ->].
Qed.
Lemma closed_step r l x : closed r run D l -> exists r' out, heard_by r run D n x = Some (r', out) /\ closed r' run D l /\ tells out run D l.
Proof.
  intros [C1 C2 C3 C4]. unfold heard_by, on_probe. cbn [rc_run_id open_dwell_ closed_dwell_]. rewrite C1, Z.eqb_refl. cbn [negb closed_dwell_].
  rewrite C3, Z.eqb_refl, (proj2 (Z.eqb_neq D 0)) by lia. cbn [andb negb]. eexists _, _. split; [reflexivity|].
  split; constructor; cbn; try done; by rewrite C4.
Qed.
Lemma hear_closed l : forall r got, closed r run D got -> exists r' outs, hear r run D n l = Some (r', outs) /\
  length outs = length l /\ Forall (fun out => tells out run D got) outs.
Proof.
  induction l as [|x l IH]; intros r got Hc; cbn [hear]; [by exists r, []|].
  destruct (closed_step r got x Hc) as (r1 & out & -> & Hc1 & Ht). cbn [mbind option_bind].
  destruct (IH r1 got Hc1) as (r2 & outs & -> & Hl & Hf). cbn [mbind option_bind]. exists r2, (out :: outs).
  split; [done|]. split; [simpl; by rewrite Hl|]. by constructor.
Qed.
Lemma hear_open pre tail post : forall r l, opened r run D l -> tail.1.1.1 = n ->
  Forall (fun x : Copy * Z => 1 <= x.1.1.1 < n) pre ->
  exists r' o1 o2, hear r run D n (pre ++ tail :: post) = Some (r', o1 ++ o2) /\ length o1 = length pre /\ length o2 = S (length post) /\
    Forall (fun out => not_about out D) o1 /\ Forall (fun out => tells out run D (foldl add_copy l (map fst (pre ++ [tail])))) o2.
Proof.
  induction pre as [|x pre IH]; intros r l Ho Ht Hpre; cbn [app hear].
  - destruct (next_step r l tail Ho ltac:(rewrite Ht; lia)) as (r1 & out & -> & Hres). rewrite Ht, Z.eqb_refl in Hres. destruct Hres as [Hc Hout].
    cbn [mbind option_bind]. destruct (hear_closed post r1 _ Hc) as (r2 & outs & -> & Hl & Hf). cbn [mbind option_bind].
    exists r2, [], (out :: outs). split; [done|]. split; [done|]. split; [simpl; by rewrite Hl|]. split; [done|]. by constructor.
  - apply Forall_cons in Hpre as [Hx Hpre]. destruct (next_step r l x Ho (conj (proj1 Hx) (Z.lt_le_incl _ _ (proj2 Hx)))) as (r1 & out & -> & Hres).
    rewrite (proj2 (Z.eqb_neq _ _)) in Hres by (apply Z.lt_neq, Hx). destruct Hres as [Ho1 Hout]. cbn [mbind option_bind].
    destruct (IH r1 _ Ho1 Ht Hpre) as (r2 & o1 & o2 & -> & H1 & H2 & H3 & H4). cbn [mbind option_bind].
    exists r2, (out :: o1), o2. split; [done|]. split; [simpl; by rewrite H1|]. split; [done|]. split; [by constructor|done].
Qed.
Lemma hear_fresh pre tail post r : fresh r run D -> 0 <= r.(closed_dwell_) -> tail.1.1.1 = n ->
  Forall (fun x : Copy * Z => 1 <= x.1.1.1 < n) pre ->
  exists r' o1 o2, hear r run D n (pre ++ tail :: post) = Some (r', o1 ++ o2) /\ length o1 = length pre /\ length o2 = S (length post) /\
    Forall (fun out => not_about out D) o1 /\ Forall (fun out => tells out run D (copies (map fst (pre ++ [tail])))) o2.
Proof.
  intros Hf Hc Ht Hpre. destruct pre as [|x pre]; cbn [app hear].
  - destruct (first_step r tail Hf ltac:(rewrite Ht; lia) Hc) as (r1 & out & -> & Hres). rewrite Ht, Z.eqb_refl in Hres. destruct Hres as [Hcl Hout].
    cbn [mbind option_bind]. destruct (hear_closed post r1 _ Hcl) as (r2 & outs & -> & Hl & Hfo). cbn [mbind option_bind].
    exists r2, [], (out :: outs). split; [done|]. split; [done|]. split; [simpl; by rewrite Hl|]. split; [done|]. by constructor.
  - apply Forall_cons in Hpre as [Hx Hpre]. destruct (first_step r x Hf (conj (proj1 Hx) (Z.lt_le_incl _ _ (proj2 Hx))) Hc) as (r1 & out & -> & Hres).
    rewrite (proj2 (Z.eqb_neq _ _)) in Hres by (apply Z.lt_neq, Hx). destruct Hres as [Ho1 Hout]. cbn [mbind option_bind].
    destruct (hear_open pre tail post r1 _ Ho1 Ht Hpre) as (r2 & o1 & o2 & -> & H1 & H2 & H3 & H4). cbn [mbind option_bind].
    exists r2, (out :: o1), o2. split; [done|]. split; [simpl; by rewrite H1|]. split; [done|]. split; [by constructor|done].
Qed.
End OneDwell.

(** ** The sender's burst *)
Inductive SendEvent : Type := SvTick | SvProbe (now_ms : Z).
Fixpoint send_run (s : DwellSender) (l : list SendEvent) : DwellSender * list Z :=
  match l with
  | [] => (s, [])
  | SvTick :: l => send_run (new_tick s) l
  | SvProbe now :: l =>
    let '(s, out) := next_probe s now in let '(s, e) := send_run s l in (s, from_option (fun q => [q]) [] out ++ e)
  end.
Record bursting (s : DwellSender) (run D n : Z) (retries : Z) (E : list Z) : Prop := {
  bu_id : s.(ds_run_id) = run /\ s.(ds_dwell_id) = D /\ s.(ds_count) = n;
  bu_left : 0 <= s.(ds_retries_left) <= retries;
  bu_state : match s.(ds_state) with
    | dEmitting => s.(ds_retries_left) = retries /\ 1 <= s.(ds_next_seq) <= n /\ E = seqZ 1 (s.(ds_next_seq) - 1)
    | dAwaitTally => E = seqZ 1 n ++ replicate (Z.to_nat (retries - s.(ds_retries_left))) n
    | dNoEvidence => E = seqZ 1 n ++ replicate (Z.to_nat retries) n
    | _ => False
    end
}.
Lemma seqZ_snoc k : 1 <= k -> seqZ 1 (k - 1) ++ [k] = seqZ 1 k.
Proof.
  intros Hk. replace k with (k - 1 + 1) at 3 by lia. rewrite seqZ_app by lia. f_equal. replace (1 + (k - 1)) with k by lia. done.
Qed.
Lemma next_probe_bursting s run D n R E now : 1 <= n < 65536 -> bursting s run D n R E ->
  bursting (next_probe s now).1 run D n R (E ++ from_option (fun q => [q]) [] (next_probe s now).2).
Proof.
  intros Hn [[B1 [B2 B3]] BL B4]. unfold next_probe.
  destruct (ds_state s) eqn:Es; try done.
  - destruct B4 as (B5 & B6 & B7). destruct (_ >=? _); [constructor; cbn; try done; rewrite Es, app_nil_r; done|].
    destruct (_ <? _); [constructor; cbn; try done; rewrite Es, app_nil_r; done|].
    cbn [fst snd from_option accrue_ ds_next_seq ds_count]. destruct (Z.eqb_spec (ds_next_seq s) (ds_count s)) as [Ee|Ee].
    + constructor; cbn; try done. rewrite B5, Z.sub_diag. simpl. rewrite app_nil_r. subst E. rewrite seqZ_snoc by lia. congruence.
    + constructor; cbn; try done. rewrite Es. rewrite to_u16_id by (unfold u16; lia). split; [done|]. split; [lia|].
      subst E. rewrite seqZ_snoc by lia. f_equal. lia.
  - destruct (_ <? _); [constructor; cbn; try done; rewrite Es, app_nil_r; done|].
    destruct (Z.eqb_spec (ds_retries_left (accrue_ s now)) 0) as [E0|E0]; cbn in E0.
    + constructor; cbn; try done. rewrite app_nil_r, B4, E0. by replace (R - 0) with R by lia.
    + constructor; cbn; try done; [lia|]. rewrite Es, B4, B3, <- app_assoc. f_equal.
      replace (Z.to_nat (R - (ds_retries_left s - 1))) with (Z.to_nat (R - ds_retries_left s) + 1)%nat by lia.
      by rewrite replicate_add.
  - constructor; cbn; try done. by rewrite Es, app_nil_r.
Qed.
Lemma send_run_bursting l : forall s run D n R E, 1 <= n < 65536 -> bursting s run D n R E ->
  bursting (send_run s l).1 run D n R (E ++ (send_run s l).2).
Proof.
  induction l as [|[|now] l IH]; intros s run D n R E Hn Hb; cbn [send_run].
  - by rewrite app_nil_r.
  - apply IH; [done|]. destruct Hb. by constructor.
  - pose proof (next_probe_bursting s run D n R E now Hn Hb) as H1. destruct (next_probe s now) as [s1 out]. cbn [fst snd] in H1.
    pose proof (IH s1 run D n R _ Hn H1) as H2. destruct (send_run s1 l) as [s2 e]. cbn [fst snd] in *. by rewrite app_assoc.
Qed.
Lemma bursting_range s run D n R E : 1 <= n -> bursting s run D n R E -> (forall q, q ∈ E -> 1 <= q <= n) /\ len E <= n + R.
Proof.
  intros Hn [_ BL B4]. assert (Ht : forall j q, q ∈ replicate j n -> q = n) by (intros j q Hq; by apply elem_of_replicate in Hq as [-> _]).
  destruct (ds_state s); try done.
  - destruct B4 as (_ & Hs & ->). split; [intros q Hq; apply elem_of_seqZ in Hq; lia|rewrite length_seqZ; lia].
  - subst E. split; [intros q Hq; apply elem_of_app in Hq as [Hq|Hq]; [apply elem_of_seqZ in Hq; lia|apply Ht in Hq; lia]|].
    rewrite length_app, length_seqZ, length_replicate. lia.
  - subst E. split; [intros q Hq; apply elem_of_app in Hq as [Hq|Hq]; [apply elem_of_seqZ in Hq; lia|apply Ht in Hq; lia]|].
    rewrite length_app, length_seqZ, length_replicate. lia.
Qed.

Lemma loss_milli_exact r n d : r.(dr_sent) = n -> r.(dr_received) = d -> 0 <= d <= n -> 1 <= n < 65536 ->
  loss_milli r = 1000 * (n - d) / n.
Proof.
  intros Hs Hr Hd Hn. unfold loss_milli. rewrite Hs, Hr, (proj2 (Z.eqb_neq n 0)) by lia. destruct (Z.gtb_spec d n); [lia|].
  apply to_u16_id. unfold u16. split; [apply Z.div_pos; lia|]. apply Z.div_lt_upper_bound; nia.
Qed.

(** C19. A dwell measures exactly. The sender emits its probes in order, each
    once, then the tail at most as often as it may ask again. Of these a
    receiver that has not heard of the dwell may hear any, in any order,
    repeated or lost: until the tail it sends no tally of this dwell; with the
    tail, and again with everything it hears of the dwell after, it sends the
    number of distinct probes heard so far, the sum of the signal of their
    first copies and the rate of the last. A sender still waiting takes such a
    tally and no other, and then reports the thousandths of its own count that
    were not heard, between none and all but one. *)
Theorem dwell_exchange s0 run D n now0 events r heard (HD : 1 <= D) (Hn : 1 <= n <= kMaxDwellFrames)
  (HR : 0 <= s0.(ds_p).(tally_retries)) (Hf : fresh r run D) (Hc : 0 <= r.(closed_dwell_))
  (Hheard : Forall (fun x : Copy * Z => x.1.1.1 ∈ (send_run (begin s0 run D n now0).1 events).2) heard) :
  let '(s, emitted) := send_run (begin s0 run D n now0).1 events in
  (exists k j, emitted = seqZ 1 k ++ replicate j n /\ k <= n /\ (j <> 0%nat -> k = n) /\ Z.of_nat j <= s0.(ds_p).(tally_retries)) /\
  forall pre tail post, heard = pre ++ tail :: post -> tail.1.1.1 = n -> n ∉ seqs (map fst pre) ->
    let got := copies (map fst (pre ++ [tail])) in
    1 <= len got <= n /\
    exists r' before after, hear r run D n heard = Some (r', before ++ after) /\ length before = length pre /\
      Forall (fun out => not_about out D) before /\ Forall (fun out => tells out run D got) after /\
      forall out fp, out.(to_send) = true ->
        let '(s', took) := on_tally s out.(to_run_id) out.(to_dwell_id) out.(to_received) out.(to_rssi_sum_dbm) out.(to_rx_mcs) fp in
        (out ∈ before -> took = false) /\
        (out ∈ after -> s.(ds_state) <> dNoEvidence -> took = true /\ s'.(ds_state) = dDone /\
           loss_milli s'.(ds_result) = 1000 * (n - len got) / n).
Proof.
  unfold kMaxDwellFrames in Hn. set (s1 := (begin s0 run D n now0).1) in *.
  assert (Hb0 : bursting s1 run D n (tally_retries (ds_p s0)) []).
  { unfold s1, begin. rewrite (proj2 (Z.eqb_neq _ _)), (proj2 (Z.eqb_neq n 0)) by lia. constructor; cbn; [done|lia|].
    split; [done|]. split; [lia|done]. }
  pose proof (send_run_bursting events s1 run D n _ [] ltac:(lia) Hb0) as Hb. cbn [app] in Hb.
  destruct (send_run s1 events) as [s emitted]. cbn [fst snd] in *. pose proof (bursting_range _ _ _ _ _ _ (proj1 Hn) Hb) as [Hrange _].
  split.
  { destruct Hb as [_ BL B4]. destruct (ds_state s); try done.
    - destruct B4 as (_ & Hs & ->). exists (ds_next_seq s - 1), 0%nat. rewrite app_nil_r. split; [done|]. split; [lia|]. split; [done|simpl; lia].
    - eexists n, _. split; [exact B4|]. split; [lia|]. split; [done|]. lia.
    - eexists n, _. split; [exact B4|]. split; [lia|]. split; [done|]. lia. }
  intros pre tail post -> Ht Hpre. set (got := copies _). apply Forall_app in Hheard as [Hh1 _].
  assert (Hpre' : Forall (fun x : Copy * Z => 1 <= x.1.1.1 < n) pre).
  { rewrite Forall_forall in Hh1. apply Forall_forall. intros x Hx. pose proof (Hrange _ (Hh1 x Hx)).
    assert (x.1.1.1 <> n); [|lia]. intros Heq. apply Hpre. rewrite <- Heq. unfold seqs.
    apply (list_elem_of_fmap_2 (fun y : Copy => y.1.1)), (list_elem_of_fmap_2 fst), Hx. }
  assert (Hgot : 1 <= len got <= n).
  { assert (Hseq : forall q, q ∈ seqs got -> 1 <= q <= n).
    { intros q Hq. apply (proj1 (copies_seqs _ _)) in Hq. unfold seqs in Hq. apply list_elem_of_fmap in Hq as (x & -> & Hx).
      apply list_elem_of_fmap in Hx as (y & -> & Hy). apply elem_of_app in Hy as [Hy|Hy].
      - rewrite Forall_forall in Hpre'. specialize (Hpre' y Hy). simpl in Hpre'. lia.
      - apply list_elem_of_singleton in Hy as ->. rewrite Ht. lia. }
    assert (Hlen : length got = length (seqs got)) by (unfold seqs; by rewrite length_map). split.
    - destruct got as [|x l] eqn:Eg; [|simpl; lia]. exfalso. assert (Hin : n ∈ seqs got).
      { unfold got. apply copies_seqs. unfold seqs. rewrite !map_app, elem_of_app. right. simpl. rewrite Ht. apply elem_of_cons. by left. }
      rewrite Eg in Hin. by apply elem_of_nil in Hin.
    - rewrite Hlen. assert (H : (length (seqs got) <= length (seqZ 1 n))%nat); [|rewrite length_seqZ in H; lia].
      apply submseteq_length, NoDup_submseteq; [apply copies_nodup|]. intros q Hq. apply elem_of_seqZ. specialize (Hseq q Hq). lia. }
  split; [done|]. destruct (hear_fresh run D n HD Hn pre tail post r Hf Hc Ht Hpre') as (r' & o1 & o2 & Eh & H1 & H2 & H3 & H4).
  exists r', o1, o2. split; [done|]. split; [done|]. split; [done|]. split; [done|]. intros out fp Hsend. unfold on_tally.
  destruct Hb as [[I1 [I2 I3]] _ Hst]. rewrite Forall_forall in H3, H4.
  destruct (_ && _) eqn:Ew.
  { split; [done|]. intros _ Hne. exfalso. apply andb_true_iff in Ew as [E1 E2].
    destruct (ds_state s); done. }
  rewrite I1, I2, I3. destruct (_ || _) eqn:Eid; split; try done.
  - intros Hin _. destruct (H4 out Hin) as [_ T2 T3 _ _ _]. by rewrite T2, T3, !Z.eqb_refl in Eid.
  - intros Hin. specialize (H3 out Hin Hsend). apply orb_false_iff in Eid as [_ Eid].
    apply negb_false_iff, Z.eqb_eq in Eid. lia.
  - intros Hin _. destruct (H4 out Hin) as [T1 T2 T3 T4 T5 T6]. split; [done|]. split; [done|].
    apply loss_milli_exact; [done|exact T4|lia|lia].
Qed.

(** ** A dwell of five probes: the third lost, the second repeated, the fourth
    late; the tail heard twice *)
Definition demo_heard : list (Copy * Z) :=
  [((1, -50, 3), 10); ((2, -52, 3), 11); ((2, -60, 3), 12); ((5, -54, 3), 13); ((4, -50, 3), 14); ((5, -54, 3), 15)].
Definition demo_sends : list SendEvent := [SvTick; SvProbe 1; SvProbe 3; SvProbe 5; SvProbe 7; SvProbe 9; SvProbe 700].
Definition demo_sender : DwellSender := DwellSender_init DwellSendParams_init.
Example demo_dwell :
  (send_run (begin demo_sender 7 1 5 0).1 demo_sends).2 = [1; 2; 3; 4; 5; 5] /\
  (fun '(_, outs) => map (fun o => (o.(to_send), o.(to_received), to_i32 o.(to_rssi_sum_dbm))) outs) <$> hear DwellReceiver_init 7 1 5 demo_heard =
    Some [(false, 0, 0); (false, 0, 0); (false, 0, 0); (true, 3, -156); (true, 3, -156); (true, 3, -156)].
Proof. by vm_compute. Qed.
Lemma dwell_exchange_witness :
  len (copies (map fst (take 3 demo_heard ++ [((5, -54, 3), 13)]))) = 3 /\
  exists r' before after, hear DwellReceiver_init 7 1 5 demo_heard = Some (r', before ++ after) /\ length before = 3%nat.
Proof.
  split; [by vm_compute|].
  pose proof (dwell_exchange demo_sender 7 1 5 0 demo_sends DwellReceiver_init demo_heard) as H.
  assert (Hh : Forall (fun x : Copy * Z => x.1.1.1 ∈ (send_run (begin demo_sender 7 1 5 0).1 demo_sends).2) demo_heard).
  { let e := eval vm_compute in (send_run (begin demo_sender 7 1 5 0).1 demo_sends).2 in
      replace ((send_run (begin demo_sender 7 1 5 0).1 demo_sends).2) with e by (by vm_compute).
    apply Forall_forall. intros x Hx. apply list_elem_of_In. apply list_elem_of_In in Hx. simpl in Hx. intuition (subst x; simpl; tauto). }
  specialize (H ltac:(lia) ltac:(unfold kMaxDwellFrames; lia) ltac:(vm_compute; discriminate) ltac:(left; vm_compute; discriminate) ltac:(vm_compute; discriminate) Hh).
  destruct (send_run _ demo_sends) as [s e]. destruct H as [_ H].
  destruct (H (take 3 demo_heard) ((5, -54, 3), 13) (drop 4 demo_heard)) as (_ & r' & b & a & H1 & H2 & _).
  - reflexivity.
  - reflexivity.
  - intros Hin. apply list_elem_of_In in Hin. simpl in Hin. intuition lia.
  - exact (ex_intro _ r' (ex_intro _ b (ex_intro _ a (conj H1 H2)))).
Defined.
