(* ===== verification/Calibrate.v ===== *)
(** * Link calibration ([core/.../calibrate.h], [core/.../power.h])

    The power search shared by both directions and the craft's calibrator: a
    sweep per rung, a verify walk, and one restore on every exit.  Power is in
    quarter dB; signed sums are exact, and the bounds theorem shows that they
    stay within 32 bits. *)
From Stdlib Require Import SpecFloat String.
From S2P Require Import Prelude Types Double Dwell.
Open Scope Z_scope.

(** [std::lround]: half away from zero; unspecified (0 here) on what is not
    finite. *)
Definition lround (a : double) : Z :=
  match a with
  | S754_finite s m e =>
    let q := if 0 <=? e then Z.pos m * 2 ^ e else (Z.pos m + 2 ^ (- e - 1)) / 2 ^ (- e) in
    if s then - q else q
  | _ => 0
  end.

(** ** Power curve *)
Definition kPowerLevelBaseline : Z := 4.
Definition kQdbPerLevel : Z := 8.
Record PowerCurve : Type := MkPowerCurve { curve_qdb : list Z; curve_valid : bool }.
Definition resolve_power_qdb (curve : PowerCurve) (mcs level : Z) (max_power_qdb : option Z) : option Z :=
  if negb curve.(curve_valid) || (mcs >=? len curve.(curve_qdb)) then None
  else
    q ← curve.(curve_qdb) !! Z.to_nat mcs;
    let v := q + (level - kPowerLevelBaseline) * kQdbPerLevel in
    Some (match max_power_qdb with Some m => Z.min v m | None => v end).

(** ** The power search *)
Record SeekParams : Type := MkSeekParams {
  sp_loss_ok_milli : Z;
  sp_loss_bad_milli : Z;
  sp_seek_step_qdb : Z;
  sp_rssi_guard_dbm : Z;
  sp_min_qdb : Z;
  sp_max_qdb : Z;
  sp_verify_descent_budget : Z;
  sp_no_bracket_cap_qdb : option Z
}.
Definition SeekParams_init : SeekParams := MkSeekParams 15 50 16 (-6) 4 108 3 None.
Inductive DwellVerdict : Type := kClean | kBad | kNoEvidence.
Inductive SeekKind : Type := kProbe | kVerify | kDone | kFailed.
Record SeekStep : Type := MkSeekStep { ss_kind : SeekKind; ss_qdb : Z; ss_power_changed : bool; ss_fail_reason : option string }.
Inductive SeekPhase : Type := pSweep | pVerify.
Record PowerSeek : Type := MkPowerSeek {
  sk_p : SeekParams;
  sk_phase : SeekPhase;
  sk_qdb : Z;
  sk_last_clean : option (Z * double);
  sk_verify_descents : Z;
  sk_last_clean_rssi : Z;
  sk_has_bad : bool;
  sk_first_bad_rssi : Z;
  sk_first_bad_qdb : Z;
  sk_have_best : bool;
  sk_best_loss : Z;
  sk_best_rssi : double;
  sk_best_qdb : Z;
  sk_placed_loss : Z;
  sk_placed_rssi : double
}.
Definition PowerSeek_init (p : SeekParams) : PowerSeek :=
  MkPowerSeek p pSweep 0 None 0 127 false 0 0 false 0 (double_of 0) 0 0 (double_of 0).
Definition seek_begin (s : PowerSeek) : PowerSeek * SeekStep :=
  let q := s.(sk_p).(sp_min_qdb) in
  (MkPowerSeek s.(sk_p) pSweep q None 0 127 false 0 0 false 0 (double_of 0) q 0 (double_of 0), MkSeekStep kProbe q true None).
Definition seek_begin_at (s : PowerSeek) (max_qdb : Z) : PowerSeek * SeekStep :=
  let p := s.(sk_p) in
  seek_begin (MkPowerSeek
    (MkSeekParams p.(sp_loss_ok_milli) p.(sp_loss_bad_milli) p.(sp_seek_step_qdb) p.(sp_rssi_guard_dbm) p.(sp_min_qdb)
       (Z.max p.(sp_min_qdb) max_qdb) p.(sp_verify_descent_budget) p.(sp_no_bracket_cap_qdb))
    s.(sk_phase) s.(sk_qdb) s.(sk_last_clean) s.(sk_verify_descents) s.(sk_last_clean_rssi) s.(sk_has_bad) s.(sk_first_bad_rssi)
    s.(sk_first_bad_qdb) s.(sk_have_best) s.(sk_best_loss) s.(sk_best_rssi) s.(sk_best_qdb) s.(sk_placed_loss) s.(sk_placed_rssi)).

Definition note_bad_ (s : PowerSeek) (rssi : double) : PowerSeek :=
  if s.(sk_has_bad) then s
  else MkPowerSeek s.(sk_p) s.(sk_phase) s.(sk_qdb) s.(sk_last_clean) s.(sk_verify_descents) s.(sk_last_clean_rssi) true
         (to_i8 (lround rssi)) s.(sk_qdb) s.(sk_have_best) s.(sk_best_loss) s.(sk_best_rssi) s.(sk_best_qdb) s.(sk_placed_loss) s.(sk_placed_rssi).
Definition at_qdb (s : PowerSeek) (ph : SeekPhase) (q descents : Z) : PowerSeek :=
  MkPowerSeek s.(sk_p) ph q s.(sk_last_clean) descents s.(sk_last_clean_rssi) s.(sk_has_bad) s.(sk_first_bad_rssi)
    s.(sk_first_bad_qdb) s.(sk_have_best) s.(sk_best_loss) s.(sk_best_rssi) s.(sk_best_qdb) s.(sk_placed_loss) s.(sk_placed_rssi).
(** [place_], called with a clean probe. *)
Definition place_ (s : PowerSeek) (clean_qdb : Z) : PowerSeek * SeekStep :=
  let live_bracket := s.(sk_has_bad) && (s.(sk_first_bad_qdb) >? clean_qdb) in
  let q := match s.(sk_p).(sp_no_bracket_cap_qdb) with
           | Some cap => if negb live_bracket && (clean_qdb >? cap) then Z.max s.(sk_p).(sp_min_qdb) cap else clean_qdb
           | None => clean_qdb
           end in
  (at_qdb s pVerify q s.(sk_verify_descents), MkSeekStep kVerify q true None).
Definition note_best (s : PowerSeek) (rssi : double) (loss : Z) : PowerSeek :=
  MkPowerSeek s.(sk_p) s.(sk_phase) s.(sk_qdb) s.(sk_last_clean) s.(sk_verify_descents) s.(sk_last_clean_rssi) s.(sk_has_bad)
    s.(sk_first_bad_rssi) s.(sk_first_bad_qdb) true loss rssi s.(sk_qdb) s.(sk_placed_loss) s.(sk_placed_rssi).
Definition verify_ (s : PowerSeek) (rssi : double) (loss : Z) : PowerSeek * SeekStep :=
  let is_best := negb s.(sk_have_best) || (loss <? s.(sk_best_loss)) in
  let s := if is_best then note_best s rssi loss else s in
  let unacceptable := loss >? s.(sk_p).(sp_loss_ok_milli) in
  let can_descend := (s.(sk_verify_descents) <? s.(sk_p).(sp_verify_descent_budget)) && (s.(sk_qdb) >? s.(sk_p).(sp_min_qdb)) in
  if (unacceptable || is_best) && can_descend then
    let s := if loss >? s.(sk_p).(sp_loss_bad_milli) then note_bad_ s rssi else s in
    let q := Z.max s.(sk_p).(sp_min_qdb) (s.(sk_qdb) - s.(sk_p).(sp_seek_step_qdb)) in
    (at_qdb s pVerify q (to_u8 (s.(sk_verify_descents) + 1)), MkSeekStep kVerify q true None)
  else
    (MkPowerSeek s.(sk_p) s.(sk_phase) s.(sk_best_qdb) s.(sk_last_clean) s.(sk_verify_descents) s.(sk_last_clean_rssi) s.(sk_has_bad)
       s.(sk_first_bad_rssi) s.(sk_first_bad_qdb) s.(sk_have_best) s.(sk_best_loss) s.(sk_best_rssi) s.(sk_best_qdb)
       s.(sk_best_loss) s.(sk_best_rssi),
     MkSeekStep kDone s.(sk_best_qdb) (negb (s.(sk_qdb) =? s.(sk_best_qdb))) None).
Definition climb (s : PowerSeek) : PowerSeek * SeekStep :=
  if s.(sk_qdb) >=? s.(sk_p).(sp_max_qdb) then
    match s.(sk_last_clean) with
    | Some (q, _) => place_ s q
    | None => (s, MkSeekStep kFailed s.(sk_qdb) false (Some "no_clean_point"%string))
    end
  else
    let q := Z.min s.(sk_p).(sp_max_qdb) (s.(sk_qdb) + s.(sk_p).(sp_seek_step_qdb)) in
    (at_qdb s s.(sk_phase) q s.(sk_verify_descents), MkSeekStep kProbe q true None).
Definition is_clean (v : DwellVerdict) : bool := match v with kClean => true | _ => false end.
Definition on_dwell (s : PowerSeek) (v : DwellVerdict) (rssi : double) (loss_milli : Z) : PowerSeek * SeekStep :=
  match v with
  | kNoEvidence => (s, MkSeekStep (match s.(sk_phase) with pVerify => kVerify | pSweep => kProbe end) s.(sk_qdb) false None)
  | _ =>
    match s.(sk_phase) with
    | pVerify => verify_ s rssi loss_milli
    | pSweep =>
      if is_clean v && (loss_milli <=? s.(sk_p).(sp_loss_bad_milli)) then
        let s := MkPowerSeek s.(sk_p) s.(sk_phase) s.(sk_qdb) (Some (s.(sk_qdb), rssi)) s.(sk_verify_descents) (to_i8 (lround rssi))
                   s.(sk_has_bad) s.(sk_first_bad_rssi) s.(sk_first_bad_qdb) s.(sk_have_best) s.(sk_best_loss) s.(sk_best_rssi)
                   s.(sk_best_qdb) s.(sk_placed_loss) s.(sk_placed_rssi) in
        if dlt (double_of s.(sk_p).(sp_rssi_guard_dbm)) rssi then place_ s s.(sk_qdb) else climb s
      else match s.(sk_last_clean) with
           | Some _ => climb (note_bad_ s rssi)
           | None => climb s
           end
    end
  end.
Definition in_verify (s : PowerSeek) : bool := match s.(sk_phase) with pVerify => true | pSweep => false end.
Definition last_clean_qdb (s : PowerSeek) : Z := match s.(sk_last_clean) with Some (q, _) => q | None => s.(sk_p).(sp_min_qdb) end.

(** ** The craft's calibrator *)
Record CalibrateParams : Type := MkCalibrateParams {
  cb_loss_ok_milli : Z;
  cb_loss_bad_milli : Z;
  cb_seek_step_qdb : Z;
  cb_rssi_guard_dbm : Z;
  cb_min_qdb : Z;
  cb_max_qdb : Z;
  cb_settle_ms : Z;
  cb_dwell_probe_frames : Z;
  cb_dwell_verify_frames : Z;
  cb_dwell : DwellSendParams;
  cb_hard_cap_ms : Z;
  cb_levels : list Z;
  cb_taper_rung_ceiling : bool
}.
Definition CalibrateParams_init : CalibrateParams :=
  MkCalibrateParams 15 50 16 (-6) 4 108 300 500 1000 DwellSendParams_init 600000 [4; 4; 3; 3; 2; 2; 1; 1] true.
Definition zclamp (v lo hi : Z) : Z := if v <? lo then lo else if hi <? v then hi else v.
Definition rung_max_qdb (p : CalibrateParams) (rung : Z) : Z :=
  if negb p.(cb_taper_rung_ceiling) then p.(cb_max_qdb)
  else
    let lvl := if rung <? len p.(cb_levels) then default 0 (p.(cb_levels) !! Z.to_nat rung) else kPowerLevelBaseline in
    zclamp (p.(cb_max_qdb) + (lvl - kPowerLevelBaseline) * kQdbPerLevel) p.(cb_min_qdb) p.(cb_max_qdb).
Record CalibCeiling : Type := MkCalibCeiling { cc_last_clean_rssi : Z; cc_has_bad : bool; cc_first_bad_rssi : Z }.
Definition CalibCeiling_init : CalibCeiling := MkCalibCeiling 127 false 0.
Record CalibArtifact : Type := MkCalibArtifact {
  ca_curve_qdb : list Z;
  ca_placement_qdb : list Z;
  ca_placement_rssi : list Z;
  ca_placement_loss_milli : list Z;
  ca_ceilings : list CalibCeiling
}.
Definition CalibArtifact_init : CalibArtifact :=
  MkCalibArtifact (replicate 8 0) (replicate 8 0) (replicate 8 0) (replicate 8 0) (replicate 8 CalibCeiling_init).
Inductive CalibState : Type := cIdle | cRunning | cDone | cFailed.
#[export] Instance CalibState_dec : EqDecision CalibState.
Proof. solve_decision. Defined.
Record CalibActions : Type := MkCalibActions {
  act_pin_rung : option Z;
  act_set_qdb : option Z;
  act_restore : bool;
  act_artifact_ready : bool
}.
Definition CalibActions_init : CalibActions := MkCalibActions None None false false.
Record Calibrator : Type := MkCalibrator {
  c_p : CalibrateParams;
  c_state : CalibState;
  c_fail_reason : option string;
  c_artifact : CalibArtifact;
  c_started_ms : Z;
  c_dwell_start_ms : Z;
  c_run_id : Z;
  c_dwell_seq : Z;
  c_dwell_count : Z;
  c_dwell : DwellSender;
  c_rung : Z;
  c_qdb : Z;
  c_placement_qdb : Z;
  c_enter_rung : bool;
  c_restore_pending : bool;
  c_artifact_pending : bool;
  c_seek : PowerSeek
}.
Definition seek_params (p : CalibrateParams) : SeekParams :=
  MkSeekParams p.(cb_loss_ok_milli) p.(cb_loss_bad_milli) p.(cb_seek_step_qdb) p.(cb_rssi_guard_dbm) p.(cb_min_qdb) p.(cb_max_qdb) 3
    (if negb p.(cb_taper_rung_ceiling) then Some 0 else None).
Definition Calibrator_init (p : CalibrateParams) : Calibrator :=
  MkCalibrator p cIdle None CalibArtifact_init 0 0 0 0 0 (DwellSender_init p.(cb_dwell)) 0 0 0 true false false (PowerSeek_init (seek_params p)).

(** Members written together. *)
Definition with_dwell (c : Calibrator) (d : DwellSender) : Calibrator :=
  MkCalibrator c.(c_p) c.(c_state) c.(c_fail_reason) c.(c_artifact) c.(c_started_ms) c.(c_dwell_start_ms) c.(c_run_id) c.(c_dwell_seq)
    c.(c_dwell_count) d c.(c_rung) c.(c_qdb) c.(c_placement_qdb) c.(c_enter_rung) c.(c_restore_pending) c.(c_artifact_pending) c.(c_seek).
Definition with_artifact (c : Calibrator) (a : CalibArtifact) : Calibrator :=
  MkCalibrator c.(c_p) c.(c_state) c.(c_fail_reason) a c.(c_started_ms) c.(c_dwell_start_ms) c.(c_run_id) c.(c_dwell_seq)
    c.(c_dwell_count) c.(c_dwell) c.(c_rung) c.(c_qdb) c.(c_placement_qdb) c.(c_enter_rung) c.(c_restore_pending) c.(c_artifact_pending) c.(c_seek).
Definition with_seek (c : Calibrator) (rung qdb : Z) (s : PowerSeek) : Calibrator :=
  MkCalibrator c.(c_p) c.(c_state) c.(c_fail_reason) c.(c_artifact) c.(c_started_ms) c.(c_dwell_start_ms) c.(c_run_id) c.(c_dwell_seq)
    c.(c_dwell_count) c.(c_dwell) rung qdb c.(c_placement_qdb) c.(c_enter_rung) c.(c_restore_pending) c.(c_artifact_pending) s.
Definition with_enter (c : Calibrator) (b : bool) : Calibrator :=
  MkCalibrator c.(c_p) c.(c_state) c.(c_fail_reason) c.(c_artifact) c.(c_started_ms) c.(c_dwell_start_ms) c.(c_run_id) c.(c_dwell_seq)
    c.(c_dwell_count) c.(c_dwell) c.(c_rung) c.(c_qdb) c.(c_placement_qdb) b c.(c_restore_pending) c.(c_artifact_pending) c.(c_seek).

(** [take_restore_] and [take_artifact_]: the flag, and the state without it. *)
Definition take_restore_ (c : Calibrator) : Calibrator * bool :=
  (MkCalibrator c.(c_p) c.(c_state) c.(c_fail_reason) c.(c_artifact) c.(c_started_ms) c.(c_dwell_start_ms) c.(c_run_id) c.(c_dwell_seq)
     c.(c_dwell_count) c.(c_dwell) c.(c_rung) c.(c_qdb) c.(c_placement_qdb) c.(c_enter_rung) false c.(c_artifact_pending) c.(c_seek),
   c.(c_restore_pending)).
Definition take_artifact_ (c : Calibrator) : Calibrator * bool :=
  (MkCalibrator c.(c_p) c.(c_state) c.(c_fail_reason) c.(c_artifact) c.(c_started_ms) c.(c_dwell_start_ms) c.(c_run_id) c.(c_dwell_seq)
     c.(c_dwell_count) c.(c_dwell) c.(c_rung) c.(c_qdb) c.(c_placement_qdb) c.(c_enter_rung) c.(c_restore_pending) false c.(c_seek),
   c.(c_artifact_pending)).
Definition finish (c : Calibrator) (st : CalibState) (reason : option string) : Calibrator :=
  MkCalibrator c.(c_p) st reason c.(c_artifact) c.(c_started_ms) 0 c.(c_run_id) c.(c_dwell_seq)
    c.(c_dwell_count) (sender_reset c.(c_dwell)) c.(c_rung) c.(c_qdb) c.(c_placement_qdb) c.(c_enter_rung) true
    (bool_decide (st = cDone)) c.(c_seek).
Definition begin_dwell (c : Calibrator) (now_ms frames : Z) : Calibrator :=
  let seq := to_u16 (c.(c_dwell_seq) + 1) in
  MkCalibrator c.(c_p) c.(c_state) c.(c_fail_reason) c.(c_artifact) c.(c_started_ms) (to_u64 (now_ms + c.(c_p).(cb_settle_ms)))
    c.(c_run_id) seq frames (begin c.(c_dwell) c.(c_run_id) seq frames now_ms).1 c.(c_rung) c.(c_qdb) c.(c_placement_qdb)
    c.(c_enter_rung) c.(c_restore_pending) c.(c_artifact_pending) c.(c_seek).

Definition start (c : Calibrator) (now_ms : Z) : Calibrator * bool :=
  if decide (c.(c_state) = cRunning) then (c, false)
  else
    let '(s, st) := seek_begin_at c.(c_seek) (rung_max_qdb c.(c_p) 0) in
    (MkCalibrator c.(c_p) cRunning None CalibArtifact_init now_ms 0 (Z.lor (to_u32 now_ms) 1) 0 c.(c_dwell_count) c.(c_dwell) 0
       st.(ss_qdb) c.(c_placement_qdb) true false false s, true).
Definition abort (c : Calibrator) (reason : string) : Calibrator * bool :=
  if decide (c.(c_state) = cRunning) then (finish c cFailed (Some reason), true) else (c, false).
Definition calib_on_tally (c : Calibrator) (run_id dwell_id received rssi_sum_dbm rx_mcs adapter_fingerprint : Z) : Calibrator :=
  if decide (c.(c_state) = cRunning)
  then with_dwell c (on_tally c.(c_dwell) run_id dwell_id received rssi_sum_dbm rx_mcs adapter_fingerprint).1 else c.
Definition calib_new_tick (c : Calibrator) : Calibrator := with_dwell c (new_tick c.(c_dwell)).
Definition calib_next_probe (c : Calibrator) (now_ms : Z) : Calibrator * DwellProbeOut :=
  if negb (bool_decide (c.(c_state) = cRunning)) || (c.(c_dwell_start_ms) =? 0) || (now_ms <? c.(c_dwell_start_ms)) then (c, None)
  else let '(d, out) := next_probe c.(c_dwell) now_ms in (with_dwell c d, out).

(** [artifact_.ceilings[rung_]] and the placement arrays: an index past the end
    is undefined. *)
Definition set_at {A} (l : list A) (i : Z) (x : A) : option (list A) :=
  if (0 <=? i) && (i <? len l) then Some (<[Z.to_nat i := x]> l) else None.
Definition sync_ceiling (c : Calibrator) : option Calibrator :=
  let a := c.(c_artifact) in
  l ← set_at a.(ca_ceilings) c.(c_rung) (MkCalibCeiling c.(c_seek).(sk_last_clean_rssi) c.(c_seek).(sk_has_bad) c.(c_seek).(sk_first_bad_rssi));
  Some (with_artifact c (MkCalibArtifact a.(ca_curve_qdb) a.(ca_placement_qdb) a.(ca_placement_rssi) a.(ca_placement_loss_milli) l)).
Definition apply_step (c : Calibrator) (a : CalibActions) (now_ms : Z) (s : SeekStep) : option (Calibrator * CalibActions) :=
  c ← sync_ceiling c;
  let c := with_seek c c.(c_rung) s.(ss_qdb) c.(c_seek) in
  let a := if s.(ss_power_changed) then MkCalibActions a.(act_pin_rung) (Some s.(ss_qdb)) a.(act_restore) a.(act_artifact_ready) else a in
  Some (match s.(ss_kind) with
  | kFailed =>
    let '(c, r) := take_restore_ (finish c cFailed s.(ss_fail_reason)) in
    (c, MkCalibActions a.(act_pin_rung) a.(act_set_qdb) r a.(act_artifact_ready))
  | kVerify => (begin_dwell c now_ms c.(c_p).(cb_dwell_verify_frames), a)
  | kDone | kProbe => (begin_dwell c now_ms c.(c_p).(cb_dwell_probe_frames), a)
  end).
Definition found_no_wall_anywhere (c : Calibrator) : option bool :=
  foldr (fun m acc =>
    x ← c.(c_artifact).(ca_ceilings) !! m;
    q ← c.(c_artifact).(ca_placement_qdb) !! m;
    if x.(cc_has_bad) then Some false
    else if q <? rung_max_qdb c.(c_p) (Z.of_nat m) then Some false else acc) (Some true) (seq 0 8).
Definition curve_of (p : CalibrateParams) (placement : list Z) : list Z :=
  zip_with (fun q lvl => q - (lvl - kPowerLevelBaseline) * kQdbPerLevel) placement p.(cb_levels).
Definition next_rung (c : Calibrator) (a : CalibActions) (now_ms : Z) : option (Calibrator * CalibActions) :=
  if c.(c_rung) >=? 7 then
    no_wall ← (if c.(c_p).(cb_taper_rung_ceiling) then found_no_wall_anywhere c else Some false);
    Some (if (no_wall : bool) then
      let '(c, r) := take_restore_ (finish c cFailed (Some "no_wall_found"%string)) in
      (c, MkCalibActions a.(act_pin_rung) a.(act_set_qdb) r a.(act_artifact_ready))
    else
      let x := c.(c_artifact) in
      let c := with_artifact c (MkCalibArtifact (curve_of c.(c_p) x.(ca_placement_qdb)) x.(ca_placement_qdb) x.(ca_placement_rssi)
                                  x.(ca_placement_loss_milli) x.(ca_ceilings)) in
      let '(c, r) := take_restore_ (finish c cDone None) in
      let '(c, ar) := take_artifact_ c in
      (c, MkCalibActions a.(act_pin_rung) a.(act_set_qdb) r ar))
  else
    let rung := c.(c_rung) + 1 in
    let '(s, st) := seek_begin_at c.(c_seek) (rung_max_qdb c.(c_p) rung) in
    let c := with_seek c rung st.(ss_qdb) s in
    Some (begin_dwell c now_ms c.(c_p).(cb_dwell_probe_frames),
          MkCalibActions (Some rung) (Some st.(ss_qdb)) a.(act_restore) a.(act_artifact_ready)).
(** The evidence of a completed dwell: loss and mean RSSI. *)
Definition guard_rssi (guard : Z) : double := dsub (double_of guard) (double_of 60).
Definition mean_rssi (guard : Z) (r : DwellResult) : double :=
  if r.(dr_received) >? 0 then ddiv (double_of (to_i32 r.(dr_rssi_sum_dbm))) (double_of r.(dr_received)) else guard_rssi guard.
Definition record_placement (c : Calibrator) (q : Z) : option Calibrator :=
  let a := c.(c_artifact) in
  l1 ← set_at a.(ca_placement_qdb) c.(c_rung) q;
  l2 ← set_at a.(ca_placement_rssi) c.(c_rung) (to_i8 (lround c.(c_seek).(sk_placed_rssi)));
  l3 ← set_at a.(ca_placement_loss_milli) c.(c_rung) c.(c_seek).(sk_placed_loss);
  Some (MkCalibrator c.(c_p) c.(c_state) c.(c_fail_reason) (MkCalibArtifact a.(ca_curve_qdb) l1 l2 l3 a.(ca_ceilings)) c.(c_started_ms)
          c.(c_dwell_start_ms) c.(c_run_id) c.(c_dwell_seq) c.(c_dwell_count) c.(c_dwell) c.(c_rung) c.(c_qdb) q c.(c_enter_rung)
          c.(c_restore_pending) c.(c_artifact_pending) c.(c_seek)).
(** A dwell with a tally. *)
Definition dwell_done (c : Calibrator) (now_ms : Z) : option (Calibrator * CalibActions) :=
  let r := c.(c_dwell).(ds_result) in
  let loss := loss_milli r in
  let rssi := mean_rssi c.(c_p).(cb_rssi_guard_dbm) r in
  let c := with_dwell c (sender_reset c.(c_dwell)) in
  let v := if loss >? c.(c_p).(cb_loss_bad_milli) then kBad else kClean in
  let was_verify := in_verify c.(c_seek) in
  let '(sk, s) := on_dwell c.(c_seek) v rssi loss in
  let c := with_seek c c.(c_rung) c.(c_qdb) sk in
  match s.(ss_kind) with
  | kDone =>
    if was_verify then
      c ← record_placement c s.(ss_qdb);
      c ← sync_ceiling c;
      next_rung c CalibActions_init now_ms
    else apply_step c CalibActions_init now_ms s
  | _ => apply_step c CalibActions_init now_ms s
  end.
(** A dwell whose tally never came. *)
Definition dwell_blackout (c : Calibrator) (now_ms : Z) : option (Calibrator * CalibActions) :=
  let '(sk, s) := on_dwell c.(c_seek) kBad (guard_rssi c.(c_p).(cb_rssi_guard_dbm)) 1000 in
  let c := with_seek c c.(c_rung) c.(c_qdb) sk in
  match s.(ss_kind) with
  | kProbe | kVerify => apply_step c CalibActions_init now_ms s
  | _ =>
    let '(c, r) := take_restore_ (finish c cFailed (Some "evidence_lost"%string)) in
    Some (c, MkCalibActions None None r false)
  end.
Definition tick (c : Calibrator) (now_ms : Z) : option (Calibrator * CalibActions) :=
  if negb (bool_decide (c.(c_state) = cRunning)) then
    let '(c, r) := take_restore_ c in
    let '(c, ar) := take_artifact_ c in
    Some (c, MkCalibActions None None r ar)
  else if to_u64 (now_ms - c.(c_started_ms)) >? c.(c_p).(cb_hard_cap_ms) then
    let '(c, r) := take_restore_ (finish c cFailed (Some "hard_cap"%string)) in
    Some (c, MkCalibActions None None r false)
  else if bool_decide (c.(c_dwell).(ds_state) = dNoEvidence) then dwell_blackout c now_ms
  else if c.(c_enter_rung) then
    let c := with_enter c false in
    Some (begin_dwell c now_ms c.(c_p).(cb_dwell_probe_frames), MkCalibActions (Some c.(c_rung)) (Some c.(c_qdb)) false false)
  else if negb (bool_decide (c.(c_dwell).(ds_state) = dDone)) then Some (c, CalibActions_init)
  else dwell_done c now_ms.
(** The calibration word. *)
Definition word (c : Calibrator) : Z :=
  let st := match c.(c_state) with cIdle => 0 | cRunning => 1 | cDone => 2 | cFailed => 3 end in
  Z.lor (Z.land st 3) (Z.shiftl (Z.land (if decide (c.(c_state) = cRunning) then c.(c_rung) else 0) 7) 2).
