(* ===== verification/CalibrateProps.v ===== *)
(** * What calibration may do to the transmit power

    The power search visits a grid within its bounds, ends after a bounded
    number of dwells, and on a channel whose evidence is a function of the
    power computes a reference search.  The calibrator commands power only
    within the bounds of the rung it has pinned, and gives it back once on
    every exit. *)
From Stdlib Require Import SpecFloat String.
From S2P Require Import Prelude Types Double Dwell Calibrate.
Open Scope Z_scope.

(** ** The power search *)
Record seek_params_ok (p : SeekParams) : Prop := {
  spo_range : p.(sp_min_qdb) <= p.(sp_max_qdb);
  spo_step : 0 < p.(sp_seek_step_qdb);
  spo_budget : 0 <= p.(sp_verify_descent_budget) < 255
}.
Definition within (p : SeekParams) (q : Z) : Prop := p.(sp_min_qdb) <= q <= p.(sp_max_qdb).
Record seek_ok (s : PowerSeek) : Prop := {
  so_p : seek_params_ok s.(sk_p);
  so_qdb : within s.(sk_p) s.(sk_qdb);
  so_clean : forall q r, s.(sk_last_clean) = Some (q, r) -> within s.(sk_p) q;
  so_best : s.(sk_have_best) = true -> within s.(sk_p) s.(sk_best_qdb);
  so_descents : 0 <= s.(sk_verify_descents) <= s.(sk_p).(sp_verify_descent_budget);
  so_sweep : s.(sk_phase) = pSweep -> s.(sk_verify_descents) = 0 /\ s.(sk_have_best) = false
}.
(** How many more dwells the search can ask for. *)
Definition steps_to (p : SeekParams) (q : Z) : Z := (p.(sp_max_qdb) - q + p.(sp_seek_step_qdb) - 1) / p.(sp_seek_step_qdb).
Definition dwells_left (s : PowerSeek) : Z :=
  match s.(sk_phase) with
  | pSweep => steps_to s.(sk_p) s.(sk_qdb) + 1 + s.(sk_p).(sp_verify_descent_budget)
  | pVerify => s.(sk_p).(sp_verify_descent_budget) - s.(sk_verify_descents)
  end.

Lemma steps_to_nonneg p q : seek_params_ok p -> within p q -> 0 <= steps_to p q.
Proof. intros [? ? ?] [? ?]. apply Z.div_pos; lia. Qed.
Lemma steps_to_next p q : seek_params_ok p -> within p q -> q < p.(sp_max_qdb) ->
  steps_to p (Z.min p.(sp_max_qdb) (q + p.(sp_seek_step_qdb))) < steps_to p q.
Proof.
  intros [? ? ?] [? ?] Hq. unfold steps_to. apply Z.lt_le_trans with ((sp_max_qdb p - q - 1) / sp_seek_step_qdb p + 1).
  - destruct (Z.min_spec (sp_max_qdb p) (q + sp_seek_step_qdb p)) as [[Hc ->]|[Hc ->]].
    + replace (sp_max_qdb p - sp_max_qdb p + sp_seek_step_qdb p - 1) with (sp_seek_step_qdb p - 1) by lia.
      rewrite (Z.div_small (sp_seek_step_qdb p - 1)) by lia. pose proof (Z.div_pos (sp_max_qdb p - q - 1) (sp_seek_step_qdb p)). lia.
    + apply Z.lt_succ_r, Z.div_le_mono; lia.
  - rewrite <- (Z.div_add _ 1) by lia. apply Z.div_le_mono; lia.
Qed.

(** What one answer of the search may be. *)
Record step_ok (s s' : PowerSeek) (st : SeekStep) : Prop := {
  sto_ok : seek_ok s';
  sto_p : s'.(sk_p) = s.(sk_p);
  sto_qdb : st.(ss_qdb) = s'.(sk_qdb);
  sto_kind : match st.(ss_kind) with
             | kProbe => s'.(sk_phase) = pSweep
             | kVerify => s'.(sk_phase) = pVerify
             | kDone => s.(sk_phase) = pVerify /\ s'.(sk_phase) = pVerify /\ s'.(sk_have_best) = true /\ st.(ss_qdb) = s'.(sk_best_qdb) /\
                        s'.(sk_placed_loss) = s'.(sk_best_loss)
             | kFailed => s.(sk_phase) = pSweep /\ st.(ss_power_changed) = false
             end;
  sto_less : match st.(ss_kind) with kProbe | kVerify => dwells_left s' < dwells_left s | _ => True end
}.
Lemma within_min p : seek_params_ok p -> within p p.(sp_min_qdb).
Proof. intros [? ? ?]. unfold within. lia. Qed.
Lemma seek_begin_at_ok s m : 0 < s.(sk_p).(sp_seek_step_qdb) -> 0 <= s.(sk_p).(sp_verify_descent_budget) < 255 ->
  let '(s', st) := seek_begin_at s m in seek_ok s' /\ st = MkSeekStep kProbe s.(sk_p).(sp_min_qdb) true None /\
    s'.(sk_qdb) = s.(sk_p).(sp_min_qdb) /\ s'.(sk_phase) = pSweep /\ s'.(sk_p).(sp_min_qdb) = s.(sk_p).(sp_min_qdb) /\
    s'.(sk_p).(sp_max_qdb) = Z.max s.(sk_p).(sp_min_qdb) m /\ s'.(sk_p).(sp_seek_step_qdb) = s.(sk_p).(sp_seek_step_qdb) /\
    s'.(sk_p).(sp_verify_descent_budget) = s.(sk_p).(sp_verify_descent_budget).
Proof.
  intros Hs Hb. cbn. split_and!; try done. constructor; cbn; try done.
  - constructor; cbn; lia.
  - unfold within; cbn; lia.
  - lia.
Qed.

Lemma note_bad_same s r : (note_bad_ s r).(sk_p) = s.(sk_p) /\ (note_bad_ s r).(sk_qdb) = s.(sk_qdb) /\
  (note_bad_ s r).(sk_phase) = s.(sk_phase) /\ (note_bad_ s r).(sk_last_clean) = s.(sk_last_clean) /\
  (note_bad_ s r).(sk_verify_descents) = s.(sk_verify_descents) /\ (note_bad_ s r).(sk_have_best) = s.(sk_have_best) /\
  (note_bad_ s r).(sk_best_qdb) = s.(sk_best_qdb).
Proof. unfold note_bad_. by destruct (sk_has_bad s). Qed.
Lemma note_bad_ok s r : seek_ok s -> seek_ok (note_bad_ s r).
Proof.
  intros [? ? ? ? ? ?]. destruct (note_bad_same s r) as (H1 & H2 & H3 & H4 & H5 & H6 & H7).
  constructor; rewrite ?H1, ?H2, ?H3, ?H4, ?H5, ?H6, ?H7; done.
Qed.
Lemma place_ok s q : seek_ok s -> s.(sk_phase) = pSweep -> within s.(sk_p) q ->
  let '(s', st) := place_ s q in step_ok s s' st /\ st.(ss_qdb) <= Z.max q s.(sk_p).(sp_min_qdb).
Proof.
  intros [Hp Hq Hc Hb Hd Hs] Hph Hw. unfold place_. set (v := match sp_no_bracket_cap_qdb _ with Some _ => _ | None => _ end).
  destruct (Hs Hph) as [Hd0 Hh0].
  assert (Hv : within (sk_p s) v /\ v <= Z.max q s.(sk_p).(sp_min_qdb)).
  { unfold v, within in *. destruct Hp, (sp_no_bracket_cap_qdb (sk_p s)) as [cap|]; [|lia].
    destruct (negb _ && (q >? cap)) eqn:E; [|lia]. apply andb_true_iff in E as [_ E]. lia. }
  split; [|cbn; lia]. constructor; cbn; try done.
  - constructor; cbn; try done; try apply Hv.
  - unfold dwells_left. rewrite Hph. cbn. pose proof (steps_to_nonneg _ _ Hp Hq). lia.
Qed.
Lemma climb_ok s : seek_ok s -> s.(sk_phase) = pSweep -> let '(s', st) := climb s in step_ok s s' st.
Proof.
  intros Hok Hph. pose proof Hok as [Hp Hq Hc Hb Hd Hs]. unfold climb. destruct (Z.geb_spec (sk_qdb s) (sp_max_qdb (sk_p s))).
  - destruct (sk_last_clean s) as [[q r]|] eqn:El.
    + pose proof (place_ok s q Hok Hph (Hc _ _ eq_refl)) as H1. destruct (place_ s q). tauto.
    + constructor; cbn; try done.
  - destruct (Hs Hph) as [Hd0 Hh0]. constructor; cbn; try done.
    + constructor; cbn; try done; rewrite ?Hph; try done. unfold within in *. destruct Hp. lia.
    + unfold dwells_left. cbn. rewrite Hph. pose proof (steps_to_next _ _ Hp Hq ltac:(lia)). lia.
Qed.
Lemma verify_ok s r loss : seek_ok s -> s.(sk_phase) = pVerify -> let '(s', st) := verify_ s r loss in step_ok s s' st.
Proof.
  intros Hok Hph. unfold verify_. set (is_best := negb _ || _). set (s0 := if is_best then _ else s).
  assert (Hok0 : seek_ok s0 /\ sk_p s0 = sk_p s /\ sk_phase s0 = pVerify /\ sk_verify_descents s0 = sk_verify_descents s /\ sk_have_best s0 = true).
  { unfold s0, is_best. destruct Hok as [? ? ? ? ? ?]. destruct (sk_have_best s) eqn:Eh; cbn [negb orb].
    - destruct (loss <? _); (split_and!; [|done..]); constructor; cbn; try done; try (by rewrite Hph); auto.
    - split_and!; try done. constructor; cbn; try done; by rewrite Hph. }
  destruct Hok0 as (Hok0 & Hp0 & Hph0 & Hd0 & Hh0). clearbody s0 is_best.
  destruct ((_ || is_best) && _) eqn:E.
  - set (s1 := if _ >? _ then note_bad_ s0 r else s0).
    assert (Hok1 : seek_ok s1 /\ sk_p s1 = sk_p s /\ sk_verify_descents s1 = sk_verify_descents s /\ sk_qdb s1 = sk_qdb s0).
    { unfold s1. destruct (note_bad_same s0 r) as (H1 & H2 & H3 & H4 & H5 & _). destruct (loss >? sp_loss_bad_milli (sk_p s0)).
      - split; [by apply note_bad_ok|]. by rewrite H1, H2, H5.
      - done. }
    destruct Hok1 as (Hok1 & Hp1 & Hd1 & Hq1). clearbody s1. apply andb_true_iff in E as [_ E]. apply andb_true_iff in E as [E1 E2].
    rewrite Hp0, Hd0 in *. destruct Hok1 as [Hq Hw Hc Hb Hd Hs]. rewrite Hp1, Hd1 in *.
    assert (Hinc : to_u8 (sk_verify_descents s + 1) = sk_verify_descents s + 1).
    { apply to_u8_id. destruct Hq. unfold u8. lia. }
    constructor; cbn; try done.
    + constructor; cbn; rewrite ?Hp1; try done; try lia. unfold within in *. destruct Hq. lia.
    + unfold dwells_left. cbn. rewrite ?Hph, ?Hp1, ?Hd1, ?Hinc. lia.
  - destruct Hok0 as [? ? ? ? ? ?]. constructor; cbn; try done.
    constructor; cbn; try done; rewrite ?Hph0; try done. auto.
Qed.

Lemma on_dwell_ok s v r loss : seek_ok s -> v <> kNoEvidence -> let '(s', st) := on_dwell s v r loss in step_ok s s' st.
Proof.
  intros Hok Hv. destruct v; [|..|done]; cbn [on_dwell is_clean andb]; destruct (sk_phase s) eqn:Hph;
    try (apply verify_ok; done).
  - destruct (loss <=? _).
    + set (s1 := MkPowerSeek _ _ _ (Some _) _ _ _ _ _ _ _ _ _ _ _).
      assert (H1 : seek_ok s1).
      { destruct Hok as [? ? ? ? ? ?]. constructor; cbn; rewrite ?Hph; try done; try tauto. by intros q r0 [= <- <-]. }
      assert (Hstep : forall x, (let '(s', st) := x in step_ok s1 s' st) -> let '(s', st) := x in step_ok s s' st).
      { intros [s' st] [H2 H3 H4 H5 H6]. assert (Hph1 : sk_phase s = sk_phase s1) by (by rewrite Hph).
        constructor; [done..|by rewrite Hph1|]. assert (Hd : dwells_left s = dwells_left s1) by (unfold dwells_left; by rewrite Hph1). by rewrite Hd. }
      apply Hstep. destruct (dlt _ r).
      * pose proof (place_ok s1 (sk_qdb s1) H1) as H2. destruct (place_ s1 (sk_qdb s1)). apply H2; [by cbn|]. by destruct H1.
      * by apply climb_ok.
    + destruct (sk_last_clean s); [|by apply climb_ok].
      pose proof (climb_ok (note_bad_ s r) (note_bad_ok _ _ Hok)) as H. destruct (note_bad_same s r) as (H1 & H2 & H3 & H4 & H5 & H6 & H7).
      specialize (H ltac:(congruence)). destruct (climb (note_bad_ s r)) as [s' st]. destruct H as [? Hpp ? Hk Hl].
      constructor; try done; [congruence|by rewrite H3 in Hk|]. unfold dwells_left in *. by rewrite H1, H2, H3, H5 in Hl.
  - destruct (sk_last_clean s); [|by apply climb_ok].
    pose proof (climb_ok (note_bad_ s r) (note_bad_ok _ _ Hok)) as H. destruct (note_bad_same s r) as (H1 & H2 & H3 & H4 & H5 & H6 & H7).
    specialize (H ltac:(congruence)). destruct (climb (note_bad_ s r)) as [s' st]. destruct H as [? Hpp ? Hk Hl].
    constructor; try done; [congruence|by rewrite H3 in Hk|]. unfold dwells_left in *. by rewrite H1, H2, H3, H5 in Hl.
Qed.

(** ** The calibrator *)
(** The dwells a rung can take: the sweep's grid, the verify walk. *)
Definition per_rung (p : CalibrateParams) : Z := (p.(cb_max_qdb) - p.(cb_min_qdb) + p.(cb_seek_step_qdb) - 1) / p.(cb_seek_step_qdb) + 5.
Record params_ok (p : CalibrateParams) : Prop := {
  po_range : p.(cb_min_qdb) <= p.(cb_max_qdb);
  po_step : 0 < p.(cb_seek_step_qdb);
  po_frames : 0 < p.(cb_dwell_probe_frames) /\ 0 < p.(cb_dwell_verify_frames);
  po_levels : length p.(cb_levels) = 8%nat;
  po_dwells : 8 * per_rung p < 65536
}.
Lemma rung_max_range p r : params_ok p -> p.(cb_min_qdb) <= rung_max_qdb p r <= p.(cb_max_qdb).
Proof.
  intros [? ? ? ? ?]. unfold rung_max_qdb, zclamp. destruct (negb _); [lia|]. set (v := cb_max_qdb p + _). clearbody v.
  destruct (Z.ltb_spec v (cb_min_qdb p)); [lia|]. destruct (Z.ltb_spec (cb_max_qdb p) v); lia.
Qed.

Record arrays_ok (a : CalibArtifact) : Prop := {
  ao_placement : length a.(ca_placement_qdb) = 8%nat;
  ao_rssi : length a.(ca_placement_rssi) = 8%nat;
  ao_loss : length a.(ca_placement_loss_milli) = 8%nat;
  ao_ceilings : length a.(ca_ceilings) = 8%nat
}.
(** The rungs below [n] are placed within their bounds. *)
Definition placed_below (p : CalibrateParams) (a : CalibArtifact) (n : Z) : Prop :=
  forall r q, 0 <= r < n -> a.(ca_placement_qdb) !! Z.to_nat r = Some q -> p.(cb_min_qdb) <= q <= rung_max_qdb p r.
Record running_ok (p : CalibrateParams) (c : Calibrator) : Prop := {
  ro_rung : 0 <= c.(c_rung) <= 7;
  ro_seek : seek_ok c.(c_seek);
  ro_min : c.(c_seek).(sk_p).(sp_min_qdb) = p.(cb_min_qdb);
  ro_max : c.(c_seek).(sk_p).(sp_max_qdb) = rung_max_qdb p c.(c_rung);
  ro_qdb : c.(c_qdb) = c.(c_seek).(sk_qdb);
  ro_arrays : arrays_ok c.(c_artifact);
  ro_placed : placed_below p c.(c_artifact) c.(c_rung);
  ro_flags : c.(c_restore_pending) = false /\ c.(c_artifact_pending) = false;
  ro_seq : 0 <= c.(c_dwell_seq) /\ c.(c_dwell_seq) + dwells_left c.(c_seek) + (if c.(c_enter_rung) then 1 else 0) <= (c.(c_rung) + 1) * per_rung p;
  ro_enter : c.(c_enter_rung) = true -> c.(c_dwell).(ds_state) = dIdle
}.
Record calib_ok (p : CalibrateParams) (c : Calibrator) : Prop := {
  co_p : c.(c_p) = p;
  co_step : c.(c_seek).(sk_p).(sp_seek_step_qdb) = p.(cb_seek_step_qdb);
  co_budget : c.(c_seek).(sk_p).(sp_verify_descent_budget) = 3;
  co_min : c.(c_seek).(sk_p).(sp_min_qdb) = p.(cb_min_qdb);
  co_running : c.(c_state) = cRunning -> running_ok p c;
  co_stopped : c.(c_state) <> cRunning -> c.(c_artifact_pending) = false /\ c.(c_dwell).(ds_state) = dIdle
}.

(** Who commands the power and the rung: the calibrator, with the rung it
    pinned last, from a start to the restore. *)
Inductive Authority : Type := Free | Held (pin : option Z).
Definition pin_after (pin : option Z) (a : CalibActions) : option Z :=
  match a.(act_pin_rung) with Some r => Some r | None => pin end.
Definition allowed (p : CalibrateParams) (au : Authority) (c' : Calibrator) (a : CalibActions) : Prop :=
  match au with
  | Free => a = CalibActions_init
  | Held pin =>
    (forall r, a.(act_pin_rung) = Some r -> 0 <= r <= 7) /\
    (forall q, a.(act_set_qdb) = Some q -> exists r, pin_after pin a = Some r /\ p.(cb_min_qdb) <= q <= rung_max_qdb p r) /\
    (a.(act_restore) = true -> a.(act_pin_rung) = None /\ a.(act_set_qdb) = None /\ c'.(c_state) <> cRunning) /\
    (a.(act_restore) = false -> c'.(c_state) = cRunning) /\
    (a.(act_artifact_ready) = true -> a.(act_restore) = true /\ c'.(c_state) = cDone /\ placed_below p c'.(c_artifact) 8 /\
       c'.(c_artifact).(ca_curve_qdb) = curve_of p c'.(c_artifact).(ca_placement_qdb))
  end.
Definition authority_after (au : Authority) (a : CalibActions) : Authority :=
  if a.(act_restore) then Free else match au with Free => Free | Held pin => Held (pin_after pin a) end.
Definition holds (au : Authority) (c : Calibrator) : Prop :=
  match au with
  | Free => c.(c_state) <> cRunning /\ c.(c_restore_pending) = false
  | Held pin => (c.(c_state) = cRunning /\ (c.(c_enter_rung) = false -> pin = Some c.(c_rung))) \/ (c.(c_state) <> cRunning /\ c.(c_restore_pending) = true)
  end.

Lemma set_at_Some {A} (l : list A) i x : 0 <= i < len l -> set_at l i x = Some (<[Z.to_nat i := x]> l).
Proof. intros H. unfold set_at. destruct (Z.leb_spec 0 i), (Z.ltb_spec i (len l)); simpl; (done || lia). Qed.
Lemma sync_ceiling_ok c : arrays_ok c.(c_artifact) -> 0 <= c.(c_rung) <= 7 -> exists l, length l = 8%nat /\
  sync_ceiling c = Some (with_artifact c (MkCalibArtifact c.(c_artifact).(ca_curve_qdb) c.(c_artifact).(ca_placement_qdb)
    c.(c_artifact).(ca_placement_rssi) c.(c_artifact).(ca_placement_loss_milli) l)).
Proof.
  intros [H1 H2 H3 H4] Hr. unfold sync_ceiling. rewrite set_at_Some by lia. cbn [mbind option_bind]. eexists. split; [|done].
  by rewrite length_insert.
Qed.
Lemma begin_state d run seq frames now : seq <> 0 -> frames <> 0 ->
  (begin d run seq frames now).1.(ds_state) = dEmitting /\ (begin d run seq frames now).1.(ds_dwell_id) = seq.
Proof. intros H1 H2. unfold begin. destruct (Z.eqb_spec seq 0), (Z.eqb_spec frames 0); done. Qed.

(** A next dwell within the budget keeps the invariant. *)
Lemma begin_dwell_ok p c now frames : params_ok p -> calib_ok p c -> c.(c_state) = cRunning -> 0 < frames ->
  c.(c_enter_rung) = false ->
  c.(c_dwell_seq) + 1 + dwells_left c.(c_seek) <= (c.(c_rung) + 1) * per_rung p ->
  calib_ok p (begin_dwell c now frames) /\ (begin_dwell c now frames).(c_dwell_seq) = c.(c_dwell_seq) + 1.
Proof.
  intros Hp [H1 H2 H3 H4 H5 H6] Hst Hf He Hseq. pose proof (H5 Hst) as [R1 R2 R3 R4 R5 R6 R7 R8 R9 R10].
  assert (Hid : to_u16 (c.(c_dwell_seq) + 1) = c.(c_dwell_seq) + 1).
  { assert (0 <= dwells_left (c_seek c)).
    { destruct R2 as [Rp Rq _ _ Rd _]. unfold dwells_left. destruct (sk_phase (c_seek c)); [|lia]. pose proof (steps_to_nonneg _ _ Rp Rq). destruct Rp. lia. }
    apply to_u16_id. unfold u16. pose proof (po_dwells p Hp). assert (0 < per_rung p).
    { unfold per_rung. pose proof (Z.div_pos (cb_max_qdb p - cb_min_qdb p + cb_seek_step_qdb p - 1) (cb_seek_step_qdb p)). destruct Hp. lia. }
    nia. }
  split; [|by cbn]. constructor; try done.
  - intros _. constructor; try done; cbn; rewrite ?Hid.
    + rewrite He. lia.
    + by rewrite He.
Qed.

(** What a tick of a running calibrator leaves. *)
Definition tick_post (p : CalibrateParams) (pin : option Z) (x : Calibrator * CalibActions) : Prop :=
  calib_ok p x.1 /\ allowed p (Held pin) x.1 x.2 /\ holds (authority_after (Held pin) x.2) x.1.
Record base_ok (p : CalibrateParams) (c : Calibrator) : Prop := {
  bo_p : c.(c_p) = p;
  bo_step : c.(c_seek).(sk_p).(sp_seek_step_qdb) = p.(cb_seek_step_qdb);
  bo_budget : c.(c_seek).(sk_p).(sp_verify_descent_budget) = 3;
  bo_min : c.(c_seek).(sk_p).(sp_min_qdb) = p.(cb_min_qdb)
}.
Lemma fail_post p c pin reason : base_ok p c ->
  tick_post p pin (let '(c, r) := take_restore_ (finish c cFailed reason) in (c, MkCalibActions None None r false)).
Proof. intros [? ? ? ?]. split; [by constructor|]. split; [|by split]. by split_and!. Qed.
Lemma continue_post p c a now frames : params_ok p -> calib_ok p c -> c.(c_state) = cRunning -> 0 < frames -> c.(c_enter_rung) = false ->
  c.(c_dwell_seq) + 1 + dwells_left c.(c_seek) <= (c.(c_rung) + 1) * per_rung p ->
  a.(act_restore) = false -> a.(act_artifact_ready) = false ->
  forall pin, (forall r, a.(act_pin_rung) = Some r -> r = c.(c_rung)) -> pin_after pin a = Some c.(c_rung) ->
  (forall q, a.(act_set_qdb) = Some q -> p.(cb_min_qdb) <= q <= rung_max_qdb p c.(c_rung)) ->
  tick_post p pin (begin_dwell c now frames, a).
Proof.
  intros Hp Hc Hst Hf He Hseq Ha1 Ha2 pin Hpin Hafter Hset. destruct (begin_dwell_ok p c now frames Hp Hc Hst Hf He Hseq) as [Hc' _].
  split; [done|]. cbn [fst snd]. split.
  - split_and!; rewrite ?Ha1, ?Ha2; try done.
    + intros r Hr. rewrite (Hpin r Hr). destruct (co_running _ _ Hc Hst) as [? _ _ _ _ _ _ _ _ _]. done.
    + intros q Hq. exists (c_rung c). auto.
  - unfold authority_after. rewrite Ha1. left. by split.
Qed.
Lemma base_of p c : calib_ok p c -> base_ok p c.
Proof. intros [? ? ? ? _ _]. by constructor. Qed.

Lemma apply_step_post p c d q sk st now : params_ok p -> calib_ok p c -> c.(c_state) = cRunning -> c.(c_enter_rung) = false ->
  step_ok c.(c_seek) sk st -> st.(ss_kind) <> kDone ->
  exists x, apply_step (with_seek (with_dwell c d) c.(c_rung) q sk) CalibActions_init now st = Some x /\ tick_post p (Some c.(c_rung)) x.
Proof.
  intros Hp Hc Hst He [S1 S2 S3 S4 S5] Hk. pose proof Hc as [H1 H2 H3 H4 H5 H6]. pose proof (H5 Hst) as [R1 R2 R3 R4 R5 R6 R7 R8 R9 R10].
  unfold apply_step. edestruct (sync_ceiling_ok (with_seek (with_dwell c d) (c_rung c) q sk)) as (l & Hl & ->); [done|done|].
  cbn [mbind option_bind]. eexists. split; [reflexivity|].
  set (c1 := with_seek (with_artifact _ _) _ _ _). set (a := if ss_power_changed st then _ else _).
  assert (Hb : base_ok p c1) by (constructor; cbn; try done; by rewrite S2).
  assert (Hok : st.(ss_kind) = kProbe \/ st.(ss_kind) = kVerify -> forall frames, 0 < frames -> tick_post p (Some (c_rung c)) (begin_dwell c1 now frames, a)).
  { intros Hpv frames Hf. assert (Hless : dwells_left sk < dwells_left (c_seek c)) by (by destruct Hpv as [E|E]; rewrite E in S5).
    apply (continue_post p c1 a now frames); unfold a; try done; cbn.
    - constructor; cbn; try done; try (by rewrite S2).
      intros _. constructor; cbn; try done; try (by rewrite S2).
      + destruct R6. by constructor.
      + rewrite He in *. lia.
      + by rewrite He.
    - rewrite He in R9. lia.
    - by destruct (ss_power_changed st).
    - by destruct (ss_power_changed st).
    - intros r. by destruct (ss_power_changed st).
    - by destruct (ss_power_changed st).
    - intros x. destruct (ss_power_changed st); [|done]. intros [= <-]. rewrite S3. destruct S1 as [_ Hw _ _ _ _]. unfold within in Hw.
      rewrite S2, R3, R4 in Hw. lia. }
  destruct (ss_kind st) eqn:Ek; try done.
  - apply Hok; [by left|]. cbn. rewrite H1. by destruct Hp as [? ? [? ?] ? ?].
  - apply Hok; [by right|]. cbn. rewrite H1. by destruct Hp as [? ? [? ?] ? ?].
  - destruct S4 as [_ Hch]. unfold a. rewrite Hch. by apply (fail_post p c1).
Qed.

Lemma found_no_wall_defined c : arrays_ok c.(c_artifact) -> is_Some (found_no_wall_anywhere c).
Proof.
  intros [H1 _ _ H4]. unfold found_no_wall_anywhere.
  assert (G : forall l, (forall m, m ∈ l -> (m < 8)%nat) -> is_Some (foldr (fun m acc =>
    x ← ca_ceilings (c_artifact c) !! m; q ← ca_placement_qdb (c_artifact c) !! m;
    if cc_has_bad x then Some false else if q <? rung_max_qdb (c_p c) (Z.of_nat m) then Some false else acc) (Some true) l)).
  { induction l as [|m l IH]; intros Hl; [by eexists|]. cbn [foldr].
    assert (Hm : (m < 8)%nat) by (apply Hl; left).
    destruct (lookup_lt_is_Some_2 (ca_ceilings (c_artifact c)) m) as [x ->]; [lia|].
    destruct (lookup_lt_is_Some_2 (ca_placement_qdb (c_artifact c)) m) as [q ->]; [lia|]. cbn [mbind option_bind].
    destruct (cc_has_bad x); [by eexists|]. destruct (q <? _); [by eexists|]. apply IH. intros i Hi. apply Hl. by right. }
  apply G. intros m Hm. apply elem_of_seq in Hm. lia.
Qed.
Lemma seek_left p s m : params_ok p -> s.(sk_p).(sp_seek_step_qdb) = p.(cb_seek_step_qdb) -> s.(sk_p).(sp_verify_descent_budget) = 3 ->
  s.(sk_p).(sp_min_qdb) = p.(cb_min_qdb) -> p.(cb_min_qdb) <= m <= p.(cb_max_qdb) ->
  dwells_left (seek_begin_at s m).1 <= per_rung p - 1 /\ 0 <= dwells_left (seek_begin_at s m).1.
Proof.
  intros Hp H1 H2 H3 Hm. unfold dwells_left, steps_to, per_rung. cbn. rewrite H1, H2, H3.
  replace (Z.max (cb_min_qdb p) m) with m by lia. destruct Hp as [? ? _ _ _].
  pose proof (Z.div_le_mono (m - cb_min_qdb p + cb_seek_step_qdb p - 1) (cb_max_qdb p - cb_min_qdb p + cb_seek_step_qdb p - 1) (cb_seek_step_qdb p)).
  pose proof (Z.div_pos (m - cb_min_qdb p + cb_seek_step_qdb p - 1) (cb_seek_step_qdb p)). lia.
Qed.

(** The rung just placed. *)
Lemma next_rung_post p c now : params_ok p -> base_ok p c -> c.(c_state) = cRunning -> c.(c_enter_rung) = false ->
  0 <= c.(c_rung) <= 7 -> arrays_ok c.(c_artifact) -> placed_below p c.(c_artifact) (c.(c_rung) + 1) ->
  c.(c_restore_pending) = false /\ c.(c_artifact_pending) = false -> 0 <= c.(c_dwell_seq) <= (c.(c_rung) + 1) * per_rung p ->
  exists x, next_rung c CalibActions_init now = Some x /\ tick_post p (Some c.(c_rung)) x.
Proof.
  intros Hp Hb Hst He Hr Ha Hpl [Hf1 Hf2] Hseq. pose proof Hb as [B1 B2 B3 B4]. unfold next_rung. destruct (Z.geb_spec (c_rung c) 7).
  - destruct (found_no_wall_defined c Ha) as [w Hw].
    assert (Hno : exists b, (if cb_taper_rung_ceiling (c_p c) then found_no_wall_anywhere c else Some false) = Some b)
      by (destruct (cb_taper_rung_ceiling _); eauto).
    destruct Hno as [b ->]. cbn [mbind option_bind]. eexists. split; [reflexivity|]. destruct b; [by apply fail_post|].
    cbn. rewrite B1. split; [constructor; cbn; done|]. split; [|by split]. cbn. split_and!; try done. intros _. split_and!; try done.
    by replace 8 with (c_rung c + 1) by lia.
  - pose proof (rung_max_range p (c_rung c + 1) Hp) as Hm. pose proof (seek_left p (c_seek c) _ Hp B2 B3 B4 Hm) as Hl.
    pose proof (seek_begin_at_ok (c_seek c) (rung_max_qdb p (c_rung c + 1))) as Hs.
    rewrite B1. destruct (seek_begin_at (c_seek c) (rung_max_qdb p (c_rung c + 1))) as [sk st].
    destruct Hs as (S1 & -> & S3 & S4 & S5 & S6 & S7 & S8); [rewrite B2; by destruct Hp|lia|]. cbn [ss_qdb fst] in *.
    eexists. split; [reflexivity|]. rewrite B4 in *.
    apply (continue_post p (with_seek c (c_rung c + 1) (cb_min_qdb p) sk)); try done; cbn.
    + constructor; cbn; try done; try congruence. intros _. constructor; cbn; try done; try congruence; try lia.
      rewrite He. nia.
    + rewrite B1. by destruct Hp as [? ? [? ?] ? ?].
    + nia.
    + by intros r [= <-].
    + intros q [= <-]. lia.
Qed.

Lemma dwell_done_post p c now : params_ok p -> calib_ok p c -> c.(c_state) = cRunning -> c.(c_enter_rung) = false ->
  exists x, dwell_done c now = Some x /\ tick_post p (Some c.(c_rung)) x.
Proof.
  intros Hp Hc Hst He. pose proof Hc as [H1 H2 H3 H4 H5 H6]. pose proof (H5 Hst) as [R1 R2 R3 R4 R5 R6 R7 R8 R9 R10].
  unfold dwell_done. set (v := if _ >? _ then kBad else kClean). set (r := mean_rssi _ _). set (loss := loss_milli _).
  assert (Hv : v <> kNoEvidence) by (unfold v; by destruct (_ >? _)). clearbody v r loss. cbn [with_dwell c_seek].
  pose proof (on_dwell_ok (c_seek c) v r loss R2 Hv) as Hstep. destruct (on_dwell (c_seek c) v r loss) as [sk st].
  destruct (ss_kind st) eqn:Ek; try (apply (apply_step_post p c); try done; by rewrite Ek).
  destruct Hstep as [S1 S2 S3 S4 S5]. rewrite Ek in S4. destruct S4 as (P1 & P2 & P3 & P4 & P5).
  unfold in_verify. rewrite P1. unfold record_placement. cbn [with_seek with_dwell c_artifact c_rung c_seek].
  pose proof R6 as [A1 A2 A3 A4]. rewrite !set_at_Some by lia. cbn [mbind option_bind].
  edestruct sync_ceiling_ok as (l & Hl & Hs); [| |rewrite Hs]; cbn; [constructor; cbn; by rewrite ?length_insert|done|].
  cbn [mbind option_bind].
  match goal with |- exists x, next_rung ?c1 _ _ = _ /\ _ => apply (next_rung_post p c1 now) end; cbn; try done.
  - constructor; cbn; try done; by rewrite S2.
  - constructor; cbn; by rewrite ?length_insert.
  - intros r0 q Hr0. cbn. destruct (decide (r0 = c_rung c)) as [->|Hne].
    + rewrite list_lookup_insert_eq by lia. intros [= <-]. destruct S1 as [_ Hw _ _ _ _]. unfold within in Hw. rewrite S2, R3, R4 in Hw. lia.
    + rewrite list_lookup_insert_ne by lia. apply R7. lia.
  - rewrite He in R9. assert (0 <= dwells_left (c_seek c)); [|lia]. unfold dwells_left. rewrite P1. destruct R2. lia.
Qed.
Lemma dwell_blackout_post p c now : params_ok p -> calib_ok p c -> c.(c_state) = cRunning -> c.(c_enter_rung) = false ->
  exists x, dwell_blackout c now = Some x /\ tick_post p (Some c.(c_rung)) x.
Proof.
  intros Hp Hc Hst He. pose proof Hc as [H1 H2 H3 H4 H5 H6]. pose proof (H5 Hst) as [R1 R2 R3 R4 R5 R6 R7 R8 R9 R10].
  unfold dwell_blackout. set (r := guard_rssi _). clearbody r.
  pose proof (on_dwell_ok (c_seek c) kBad r 1000 R2 ltac:(done)) as Hstep. destruct (on_dwell (c_seek c) kBad r 1000) as [sk st].
  assert (Hd : c = with_dwell c (c_dwell c)) by (by destruct c). rewrite Hd. cbn [with_dwell c_rung c_qdb].
  assert (Hb : base_ok p (with_seek (with_dwell c (c_dwell c)) (c_rung c) (c_qdb c) sk)).
  { destruct Hstep as [_ S2 _ _ _]. constructor; cbn; try done; by rewrite S2. }
  destruct (ss_kind st) eqn:Ek; try (apply (apply_step_post p c); try done; by rewrite Ek); (eexists; split; [reflexivity|]); by apply fail_post.
Qed.

(** ** Any run *)
Inductive CalEvent : Type :=
| EStart (now_ms : Z)
| EAbort (reason : string)
| ETally (run_id dwell_id received rssi_sum_dbm rx_mcs adapter_fingerprint : Z)
| ENewTick
| EProbe (now_ms : Z)
| ETick (now_ms : Z).
Definition cal_step (c : Calibrator) (e : CalEvent) : option (Calibrator * CalibActions) :=
  match e with
  | EStart now => Some ((start c now).1, CalibActions_init)
  | EAbort reason => Some ((abort c reason).1, CalibActions_init)
  | ETally r d n s m f => Some (calib_on_tally c r d n s m f, CalibActions_init)
  | ENewTick => Some (calib_new_tick c, CalibActions_init)
  | EProbe now => Some ((calib_next_probe c now).1, CalibActions_init)
  | ETick now => tick c now
  end.
(** The authority a start takes. *)
Definition before (au : Authority) (c : Calibrator) (e : CalEvent) : Authority :=
  match e with EStart _ => if decide (c.(c_state) = cRunning) then au else Held None | _ => au end.
(** When a tick must give the power back. *)
Definition due (c : Calibrator) (e : CalEvent) : Prop :=
  match e with
  | ETick now => c.(c_state) <> cRunning \/ to_u64 (now - c.(c_started_ms)) > c.(c_p).(cb_hard_cap_ms)
  | _ => False
  end.
Fixpoint lawful (p : CalibrateParams) (au : Authority) (c : Calibrator) (l : list CalEvent) : Prop :=
  match l with
  | [] => True
  | e :: l =>
    exists c' a, cal_step c e = Some (c', a) /\
      match e with
      | ETick _ => allowed p au c' a /\ (forall pin, au = Held pin -> due c e -> a.(act_restore) = true)
      | _ => a = CalibActions_init
      end /\
      lawful p (authority_after (before au c e) a) c' l
  end.

Lemma running_dwell p c d : (c.(c_enter_rung) = true -> d.(ds_state) = dIdle) -> running_ok p c -> running_ok p (with_dwell c d).
Proof. intros H [? ? ? ? ? ? ? ? ? ?]. by constructor. Qed.
Lemma calib_with_dwell p c d : calib_ok p c -> (c.(c_dwell).(ds_state) = dIdle -> d.(ds_state) = dIdle) -> calib_ok p (with_dwell c d).
Proof.
  intros [H1 H2 H3 H4 H5 H6] Hd. constructor; try done.
  - intros Hs. apply running_dwell; [|by apply H5]. intros He. apply Hd. by destruct (H5 Hs) as [_ _ _ _ _ _ _ _ _ R10]; apply R10.
  - intros Hs. destruct (H6 Hs). auto.
Qed.
Lemma holds_with_dwell au c d : holds au c -> holds au (with_dwell c d).
Proof. by destruct au. Qed.
Lemma idle_next_probe d now : d.(ds_state) = dIdle -> (next_probe d now).1.(ds_state) = dIdle.
Proof. intros H. unfold next_probe. by rewrite H. Qed.
Lemma idle_on_tally d a b x y z w : d.(ds_state) = dIdle -> (on_tally d a b x y z w).1.(ds_state) = dIdle.
Proof. intros H. unfold on_tally. by rewrite H. Qed.

Lemma calib_tick_ok p c au now : params_ok p -> calib_ok p c -> holds au c -> exists c' a, tick c now = Some (c', a) /\
  calib_ok p c' /\ allowed p au c' a /\ (forall pin, au = Held pin -> due c (ETick now) -> a.(act_restore) = true) /\ holds (authority_after au a) c'.
Proof.
  intros Hp Hc Hh. pose proof Hc as [H1 H2 H3 H4 H5 H6]. unfold tick. destruct (decide (c_state c = cRunning)) as [Hst|Hst].
  - rewrite bool_decide_true by done. cbn [negb]. pose proof (H5 Hst) as R.
    assert (Hpin : exists pin, au = Held pin /\ (c_enter_rung c = false -> pin = Some (c_rung c))).
    { destruct au as [|pin]; [by destruct Hh|]. exists pin. split; [done|]. destruct Hh as [[_ ?]|[? _]]; done. }
    destruct Hpin as (pin & -> & Hpin).
    assert (Hfin : forall x, tick_post p pin x -> (due c (ETick now) -> x.2.(act_restore) = true) -> exists c' a, Some x = Some (c', a) /\
      calib_ok p c' /\ allowed p (Held pin) c' a /\ (forall pin0, Held pin = Held pin0 -> due c (ETick now) -> act_restore a = true) /\ holds (authority_after (Held pin) a) c').
    { intros [c' a] (T1 & T2 & T3) Hd. exists c', a. split_and!; done. }
    destruct (Z.gtb_spec (to_u64 (now - c_started_ms c)) (cb_hard_cap_ms (c_p c))).
    { apply (Hfin _ (fail_post p c pin _ (base_of _ _ Hc))). done. }
    assert (Hnd : ~ due c (ETick now)) by (intros [?|?]; [done|lia]).
    destruct (c_enter_rung c) eqn:He.
    + destruct R as [R1 R2 R3 R4 R5 R6 R7 R8 R9 R10]. rewrite (R10 He). rewrite bool_decide_false by done.
      apply Hfin; [|done]. rewrite He in R9.
      apply (continue_post p (with_enter c false)); try done; cbn.
      * constructor; try done. intros _. constructor; try done. cbn. lia.
      * rewrite H1. by destruct Hp as [? ? [? ?] ? ?].
      * lia.
      * by intros r [= <-].
      * intros q [= <-]. rewrite R5. destruct R2 as [_ Hw _ _ _ _]. unfold within in Hw. by rewrite R3, R4 in Hw.
    + rewrite (Hpin eq_refl) in *. case_bool_decide.
      * destruct (dwell_blackout_post p c now Hp Hc Hst He) as (x & -> & Hx). by apply Hfin.
      * case_bool_decide; cbn [negb].
        -- destruct (dwell_done_post p c now Hp Hc Hst He) as (x & -> & Hx). by apply Hfin.
        -- apply Hfin; [|done]. split; [done|]. split; [by split_and!|]. left. by split.
  - rewrite bool_decide_false by done. cbn [negb]. destruct (H6 Hst) as [Ha Hd]. cbn. rewrite Ha. eexists _, _. split; [reflexivity|].
    split; [constructor; cbn; try done|]. destruct au as [|pin].
    + destruct Hh as [_ Hr]. rewrite Hr. by split_and!.
    + destruct Hh as [[? _]|[_ Hr]]; [done|]. rewrite Hr. split_and!; done.
Qed.

Lemma calib_start_ok p c now : params_ok p -> calib_ok p c -> c.(c_state) <> cRunning -> calib_ok p (start c now).1 /\ holds (Held None) (start c now).1.
Proof.
  intros Hp [H1 H2 H3 H4 H5 H6] Hst. unfold start. rewrite decide_False by done. rewrite H1.
  pose proof (rung_max_range p 0 Hp) as Hm. pose proof (seek_left p (c_seek c) _ Hp H2 H3 H4 Hm) as Hl.
  pose proof (seek_begin_at_ok (c_seek c) (rung_max_qdb p 0)) as Hs.
  destruct (seek_begin_at (c_seek c) (rung_max_qdb p 0)) as [sk st].
  destruct Hs as (S1 & -> & S3 & S4 & S5 & S6 & S7 & S8); [rewrite H2; by destruct Hp|lia|]. cbn [ss_qdb fst] in *.
  split; [|left; by split]. constructor; cbn; try done; try congruence. intros _. constructor; cbn; try done; try congruence; try lia.
  - intros r q Hr. lia.
  - by destruct (H6 Hst).
Qed.
Lemma cal_step_ok p c au e : params_ok p -> calib_ok p c -> holds au c -> exists c' a, cal_step c e = Some (c', a) /\
  calib_ok p c' /\ holds (authority_after (before au c e) a) c' /\
  match e with
  | ETick _ => allowed p au c' a /\ (forall pin, au = Held pin -> due c e -> a.(act_restore) = true)
  | _ => a = CalibActions_init
  end.
Proof.
  intros Hp Hc Hh. destruct e; cbn [cal_step before].
  - eexists _, _. split; [reflexivity|]. destruct (decide (c_state c = cRunning)) as [Hst|Hst].
    + unfold start. rewrite decide_True by done. by destruct au.
    + destruct (calib_start_ok p c now_ms Hp Hc Hst) as [H1 H2]. done.
  - eexists _, _. split; [reflexivity|]. unfold abort. destruct (decide (c_state c = cRunning)) as [Hst|Hst]; [|by destruct au].
    destruct Hc as [H1 H2 H3 H4 H5 H6]. split; [by constructor|]. split; [|done]. destruct au as [|pin]; [by destruct Hh|]. right. by split.
  - eexists _, _. split; [reflexivity|]. unfold calib_on_tally. destruct (decide _); [|by destruct au].
    split; [|split; [|done]]; [apply calib_with_dwell; [done|apply idle_on_tally]|by destruct au].
  - eexists _, _. split; [reflexivity|]. split; [by apply calib_with_dwell|]. by destruct au.
  - eexists _, _. split; [reflexivity|]. unfold calib_next_probe. destruct (_ || _); [by destruct au|].
    pose proof (idle_next_probe (c_dwell c) now_ms) as Hi. destruct (next_probe (c_dwell c) now_ms) as [d out]. cbn [fst].
    split; [by apply calib_with_dwell|]. by destruct au.
  - destruct (calib_tick_ok p c au now_ms Hp Hc Hh) as (c' & a & Ht & Hc' & Ha & Hd & Hh'). by exists c', a.
Qed.
Lemma lawful_run p l : forall au c, params_ok p -> calib_ok p c -> holds au c -> lawful p au c l.
Proof.
  induction l as [|e l IH]; intros au c Hp Hc Hh; [done|]. destruct (cal_step_ok p c au e Hp Hc Hh) as (c' & a & Hs & Hc' & Hh' & Ha).
  exists c', a. split; [done|]. split; [done|]. by apply IH.
Qed.
Lemma Calibrator_init_ok p : params_ok p -> calib_ok p (Calibrator_init p).
Proof. intros Hp. by constructor. Qed.

(** C20. A calibration never commands a power outside the bounds of the rung it
    has pinned, and always gives the power back. Whatever the starts, aborts,
    tallies and ticks, at whatever times: every event is defined; the
    calibrator acts only between a start and the restore; there each power it
    sets lies between the floor and the ceiling of the rung it pinned last;
    the restore comes once, on the tick that ends the run or follows its
    abort, at the latest on the first tick past the hard cap, and no power or
    pin comes with it; an artifact is ready only with a restore, of a run that
    placed all eight rungs within their bounds. *)
Theorem calibration_lawful p l (Hp : params_ok p) : lawful p Free (Calibrator_init p) l.
Proof. apply lawful_run; [done|by apply Calibrator_init_ok|]. by split. Qed.

Lemma calibration_lawful_witness :
  lawful CalibrateParams_init Free (Calibrator_init CalibrateParams_init)
    [EStart 10; ETick 11; ENewTick; EProbe 400; ETally 11 1 500 0 3 9; ETick 900; EAbort "abort"; ETick 901; ETick 902].
Proof.
  apply calibration_lawful. constructor; [..|done|done]; vm_compute; done.
Defined.

Open Scope Z_scope.

Section Stationary.
Context (p : SeekParams) (ev : Z -> double * Z).
Local Abbreviation rssi_at q := (ev q).1.
Local Abbreviation loss_at q := (ev q).2.

(** The dwells of the caller, who derives the verdict from the loss. *)
Definition verdict (loss : Z) : DwellVerdict := if loss >? p.(sp_loss_bad_milli) then kBad else kClean.
Fixpoint seek_loop (fuel : nat) (s : PowerSeek) (st : SeekStep) : option (PowerSeek * SeekStep) :=
  match st.(ss_kind), fuel with
  | kDone, _ | kFailed, _ => Some (s, st)
  | _, O => None
  | _, S fuel =>
    let '(s, st) := on_dwell s (verdict (loss_at st.(ss_qdb))) (rssi_at st.(ss_qdb)) (loss_at st.(ss_qdb)) in seek_loop fuel s st
  end.

(** The reference. *)
Definition clean (q : Z) : bool := loss_at q <=? p.(sp_loss_bad_milli).
Definition cooks (q : Z) : bool := dlt (double_of p.(sp_rssi_guard_dbm)) (rssi_at q).
Fixpoint grid (n : nat) (q : Z) : list Z :=
  q :: match n with
       | O => []
       | S n => if q >=? p.(sp_max_qdb) then [] else grid n (Z.min p.(sp_max_qdb) (q + p.(sp_seek_step_qdb)))
       end.
(** Up to the first clean power that overloads the receiver. *)
Fixpoint visited (l : list Z) : list Z :=
  match l with [] => [] | q :: l => q :: (if clean q && cooks q then [] else visited l) end.
(** The highest clean power, and the first bad one above a clean one. *)
Definition sweep_note (acc : option Z * option Z) (q : Z) : option Z * option Z :=
  if clean q then (Some q, acc.2)
  else match acc with (Some c, None) => (Some c, Some q) | _ => acc end.
Definition start_of (top : Z) (bracket : option Z) : Z :=
  match p.(sp_no_bracket_cap_qdb) with
  | Some cap => if negb (from_option (fun b => b >? top) false bracket) && (top >? cap) then Z.max p.(sp_min_qdb) cap else top
  | None => top
  end.
(** The verify walk: down while the loss is unacceptable or the least so far. *)
Fixpoint walk (n : nat) (best : option Z) (q : Z) : list Z :=
  let is_best := from_option (fun b => loss_at q <? b) true best in
  q :: match n with
       | O => []
       | S n =>
         if ((loss_at q >? p.(sp_loss_ok_milli)) || is_best) && (q >? p.(sp_min_qdb))
         then walk n (if is_best then Some (loss_at q) else best) (Z.max p.(sp_min_qdb) (q - p.(sp_seek_step_qdb))) else []
       end.
(** The first of the powers with the least loss. *)
Definition better (b : option Z) (q : Z) : option Z :=
  match b with Some b => if loss_at q <? loss_at b then Some q else Some b | None => Some q end.

Lemma better_spec l : forall b r, foldl better b l = Some r ->
  (b = Some r \/ r ∈ l) /\ (forall x, b = Some x -> loss_at r <= loss_at x) /\ (forall x, x ∈ l -> loss_at r <= loss_at x).
Proof.
  induction l as [|q l IH]; intros b r; simpl.
  - intros ->. split; [by left|]. split; [intros x [= ->]; lia|]. intros x Hx. by apply elem_of_nil in Hx.
  - intros H. destruct (IH _ _ H) as (H1 & H2 & H3). unfold better in *. destruct b as [b|].
    + destruct (Z.ltb_spec (loss_at q) (loss_at b)) as [Hl|Hl].
      * pose proof (H2 q eq_refl). split; [right; destruct H1 as [[= ->]|?]; [left|by right]|].
        split; [intros x [= <-]; lia|]. intros x Hx. apply elem_of_cons in Hx as [->|Hx]; auto.
      * pose proof (H2 b eq_refl). split; [destruct H1 as [[= ->]|?]; [by left|right; by right]|].
        split; [intros x [= <-]; lia|]. intros x Hx. apply elem_of_cons in Hx as [->|Hx]; [lia|auto].
    + pose proof (H2 q eq_refl). split; [right; destruct H1 as [[= ->]|?]; [left|by right]|].
      split; [done|]. intros x Hx. apply elem_of_cons in Hx as [->|Hx]; auto.
Qed.
Lemma better_some l : forall b, foldl better (Some b) l <> None.
Proof. induction l as [|q l IH]; intros b; [done|]. simpl. destruct (_ <? _); apply IH. Qed.
Lemma walk_le n : forall best q x, 0 < p.(sp_seek_step_qdb) -> p.(sp_min_qdb) <= q -> x ∈ walk n best q -> p.(sp_min_qdb) <= x <= q.
Proof.
  induction n as [|n IH]; intros best q x Hs Hq; cbn [walk]; intros Hx; apply elem_of_cons in Hx as [->|Hx]; try lia.
  - by apply elem_of_nil in Hx.
  - destruct (_ && _) eqn:E; [|by apply elem_of_nil in Hx]. apply andb_true_iff in E as [_ E]. apply IH in Hx; lia.
Qed.

(** ** The verify walk *)
Record verifying (s : PowerSeek) (q : Z) (n : nat) (best : option Z) : Prop := {
  vf_p : s.(sk_p) = p;
  vf_phase : s.(sk_phase) = pVerify;
  vf_qdb : s.(sk_qdb) = q;
  vf_left : s.(sk_verify_descents) = p.(sp_verify_descent_budget) - Z.of_nat n;
  vf_have : s.(sk_have_best) = bool_decide (is_Some best);
  vf_best : forall b, best = Some b -> s.(sk_best_qdb) = b /\ s.(sk_best_loss) = loss_at b /\ s.(sk_best_rssi) = rssi_at b
}.
Lemma on_dwell_verify s l r : s.(sk_phase) = pVerify -> on_dwell s (verdict l) r l = verify_ s r l.
Proof. intros H. unfold on_dwell, verdict. rewrite H. by destruct (l >? _). Qed.
Lemma seek_loop_verify f s q ch : s.(sk_phase) = pVerify ->
  seek_loop (S f) s (MkSeekStep kVerify q ch None) = let '(s', st) := verify_ s (rssi_at q) (loss_at q) in seek_loop f s' st.
Proof. intros H. cbn [seek_loop ss_kind ss_qdb]. by rewrite on_dwell_verify. Qed.
Lemma verify_run n : forall q best s ch, 0 <= p.(sp_verify_descent_budget) < 255 -> Z.of_nat n <= p.(sp_verify_descent_budget) ->
  verifying s q n best -> exists s' st r,
  seek_loop (S n) s (MkSeekStep kVerify q ch None) = Some (s', st) /\ st.(ss_kind) = kDone /\
  foldl better best (walk n ((fun b => loss_at b) <$> best) q) = Some r /\
  st.(ss_qdb) = r /\ s'.(sk_qdb) = r /\ s'.(sk_placed_loss) = loss_at r /\ s'.(sk_placed_rssi) = rssi_at r.
Proof.
  induction n as [|n IH]; intros q best s ch Hb Hn [V1 V2 V3 V4 V5 V6]; rewrite seek_loop_verify by done; unfold verify_;
    set (is_best := negb (sk_have_best s) || (loss_at q <? sk_best_loss s));
    assert (Hib : is_best = from_option (fun b => loss_at q <? b) true ((fun b => loss_at b) <$> best))
      by (unfold is_best; destruct best as [b|]; rewrite V5; cbn; [destruct (V6 b eq_refl) as (_ & -> & _)|]; done);
    set (s0 := if is_best then note_best s (rssi_at q) (loss_at q) else s);
    set (best0 := better best q);
    assert (Hs0 : sk_p s0 = p /\ sk_phase s0 = pVerify /\ sk_qdb s0 = q /\ sk_verify_descents s0 = sk_verify_descents s /\ sk_have_best s0 = true /\
      exists b, best0 = Some b /\ sk_best_qdb s0 = b /\ sk_best_loss s0 = loss_at b /\ sk_best_rssi s0 = rssi_at b)
      by (unfold s0, best0, better; rewrite Hib; destruct best as [b|]; cbn;
          [destruct (V6 b eq_refl) as (E1 & E2 & E3); destruct (loss_at q <? loss_at b); cbn; split_and!; try done; eauto; by rewrite V5
          |split_and!; try done; eauto]);
    destruct Hs0 as (P1 & P2 & P3 & P4 & P5 & b0 & P6 & P7 & P8 & P9); rewrite P1, P4, P3, V4.
  - rewrite (proj2 (Z.ltb_ge _ _)) by lia. cbn [andb]. rewrite andb_false_r. cbn [seek_loop ss_kind].
    eexists _, _, b0. split; [done|]. cbn [walk foldl]. fold best0. rewrite P6. done.
  - rewrite (proj2 (Z.ltb_lt _ _)) by lia. cbn [andb walk foldl]. rewrite <- Hib. fold best0.
    destruct ((loss_at q >? sp_loss_ok_milli p) || is_best); cbn [andb]; [destruct (q >? sp_min_qdb p) eqn:Eq|]; cbn [andb];
      [|cbn [seek_loop ss_kind]; eexists _, _, b0; split; [done|]; cbn [foldl]; rewrite P6; done..].
    set (s1 := if loss_at q >? sp_loss_bad_milli p then note_bad_ s0 (rssi_at q) else s0).
    assert (Hs1 : sk_p s1 = p /\ sk_qdb s1 = q /\ sk_verify_descents s1 = sk_verify_descents s0 /\ sk_have_best s1 = true /\
      sk_best_qdb s1 = sk_best_qdb s0 /\ sk_best_loss s1 = sk_best_loss s0 /\ sk_best_rssi s1 = sk_best_rssi s0).
    { unfold s1, note_bad_. destruct (loss_at q >? sp_loss_bad_milli p); [|done]. by destruct (sk_has_bad s0). }
    destruct Hs1 as (Q1 & Q2 & Q3 & Q4 & Q5 & Q6 & Q7). clearbody s1. rewrite Q1, Q2, Q3, P4, V4.
    assert (Hloss : (if is_best then Some (loss_at q) else (fun b => loss_at b) <$> best) = (fun b => loss_at b) <$> best0).
    { rewrite Hib. unfold best0, better. destruct best as [b|]; cbn; [|done]. by destruct (loss_at q <? loss_at b). }
    rewrite Hloss. apply IH; [done|lia|]. constructor; cbn; try done.
    + rewrite to_u8_id by (unfold u8; lia). lia.
    + by rewrite Q4, P6.
    + intros b. rewrite P6. intros [= <-]. by rewrite Q5, Q6, Q7.
Qed.

(** ** The sweep *)
Record sweeping (s : PowerSeek) (q : Z) (acc : option Z * option Z) : Prop := {
  sw_p : s.(sk_p) = p;
  sw_phase : s.(sk_phase) = pSweep;
  sw_qdb : s.(sk_qdb) = q;
  sw_clean : fst <$> s.(sk_last_clean) = acc.1;
  sw_bad : (if s.(sk_has_bad) then Some s.(sk_first_bad_qdb) else None) = acc.2;
  sw_descents : s.(sk_verify_descents) = 0;
  sw_have : s.(sk_have_best) = false
}.
Definition noted (s : PowerSeek) (q : Z) : PowerSeek :=
  if clean q then
    MkPowerSeek s.(sk_p) s.(sk_phase) s.(sk_qdb) (Some (q, rssi_at q)) s.(sk_verify_descents) (to_i8 (lround (rssi_at q)))
      s.(sk_has_bad) s.(sk_first_bad_rssi) s.(sk_first_bad_qdb) s.(sk_have_best) s.(sk_best_loss) s.(sk_best_rssi)
      s.(sk_best_qdb) s.(sk_placed_loss) s.(sk_placed_rssi)
  else match s.(sk_last_clean) with Some _ => note_bad_ s (rssi_at q) | None => s end.
Lemma on_dwell_sweep s q : s.(sk_phase) = pSweep -> s.(sk_p) = p -> s.(sk_qdb) = q ->
  on_dwell s (verdict (loss_at q)) (rssi_at q) (loss_at q) =
  if clean q && cooks q then place_ (noted s q) q else climb (noted s q).
Proof.
  intros H1 H2 H3. unfold on_dwell, verdict, noted, clean, cooks. rewrite H1, H2, H3.
  destruct (Z.gtb_spec (loss_at q) (sp_loss_bad_milli p)), (Z.leb_spec (loss_at q) (sp_loss_bad_milli p)); try lia; cbn [is_clean andb].
  - by destruct (sk_last_clean s).
  - cbn [sk_p sk_qdb]. rewrite ?H1. destruct (dlt _ (rssi_at q)); [by cbn; rewrite ?H3|done].
Qed.
Lemma noted_sweeping s q acc : sweeping s q acc -> sweeping (noted s q) q (sweep_note acc q).
Proof.
  intros [? ? ? Hc Hb ? ?]. unfold noted, sweep_note. destruct (clean q) eqn:E; [by constructor|].
  destruct acc as [c b]; simpl in *. destruct (sk_last_clean s) as [[q0 r0]|] eqn:El; simpl in Hc; subst c; [|constructor; try done; by rewrite El].
  unfold note_bad_. destruct (sk_has_bad s) eqn:Eh; subst b; (constructor; cbn; rewrite ?El, ?Eh; try done). by f_equal.
Qed.
Lemma place_verifying s q acc ch0 : sweeping s q (Some ch0, acc) -> 0 <= p.(sp_verify_descent_budget) < 255 ->
  exists s', place_ s ch0 = (s', MkSeekStep kVerify (start_of ch0 acc) true None) /\
    verifying s' (start_of ch0 acc) (Z.to_nat p.(sp_verify_descent_budget)) None.
Proof.
  intros [S1 S2 S3 S4 S5 S6 S7] Hb. simpl in *. unfold place_, start_of. rewrite S1, <- S5.
  assert (Hl : sk_has_bad s && (sk_first_bad_qdb s >? ch0) = from_option (fun b => b >? ch0) false (if sk_has_bad s then Some (sk_first_bad_qdb s) else None))
    by (by destruct (sk_has_bad s)).
  rewrite Hl. eexists. split; [reflexivity|]. constructor; cbn; try done. lia.
Qed.
Definition outcome (s' : PowerSeek) (st : SeekStep) (acc : option Z * option Z) : Prop :=
  match acc.1 with
  | None => st.(ss_kind) = kFailed /\ st.(ss_fail_reason) = Some "no_clean_point"%string
  | Some top =>
    let w := walk (Z.to_nat p.(sp_verify_descent_budget)) None (start_of top acc.2) in
    exists r, st.(ss_kind) = kDone /\ foldl better None w = Some r /\ st.(ss_qdb) = r /\ s'.(sk_qdb) = r /\
      s'.(sk_placed_loss) = loss_at r /\ s'.(sk_placed_rssi) = rssi_at r
  end.
Lemma seek_loop_more f g s st x : (f <= g)%nat -> seek_loop f s st = Some x -> seek_loop g s st = Some x.
Proof.
  revert g s st. induction f as [|f IH]; intros [|g] s st Hg; cbn [seek_loop]; destruct (ss_kind st); try done; try lia;
    destruct (on_dwell _ _ _ _); apply IH; lia.
Qed.
Lemma placed_outcome s q top b f : sweeping s q (Some top, b) -> 0 <= p.(sp_verify_descent_budget) < 255 ->
  (S (Z.to_nat p.(sp_verify_descent_budget)) <= f)%nat ->
  exists s' st, (let '(s1, st1) := place_ s top in seek_loop f s1 st1) = Some (s', st) /\ outcome s' st (Some top, b).
Proof.
  intros Hs Hb Hf. destruct (place_verifying s q b top Hs Hb) as (s1 & -> & Hv).
  destruct (verify_run (Z.to_nat (sp_verify_descent_budget p)) _ None s1 true Hb ltac:(lia) Hv) as (s' & st & r & Hl & H1 & H2 & H3 & H4 & H5 & H6).
  exists s', st. split; [by apply (seek_loop_more _ _ _ _ _ Hf Hl)|]. by exists r.
Qed.
Lemma sweep_run n : forall q acc s ch, seek_params_ok p -> (Z.of_nat n >= steps_to p q) -> within p q -> sweeping s q acc ->
  exists s' st, seek_loop (n + S (S (Z.to_nat p.(sp_verify_descent_budget)))) s (MkSeekStep kProbe q ch None) = Some (s', st) /\
    outcome s' st (foldl sweep_note acc (visited (grid n q))).
Proof.
  set (B := S (Z.to_nat _)).
  induction n as [|n IH]; intros q acc s ch Hp Hn Hw Hs; pose proof Hs as [S1 S2 S3 _ _ _ _].
  all: rewrite ?Nat.add_0_l, ?Nat.add_succ_l; cbn [seek_loop ss_kind ss_qdb]; rewrite on_dwell_sweep by done.
  all: pose proof (noted_sweeping s q acc Hs) as Hs1; set (s1 := noted s q) in *; clearbody s1.
  all: cbn [grid visited foldl]; destruct (clean q && cooks q) eqn:Ec.
  1,3: cbn [foldl]; apply andb_true_iff in Ec as [Ec _]; revert Hs1; unfold sweep_note; rewrite Ec; intros Hs1;
    apply (placed_outcome s1 q); [done|by destruct Hp|unfold B; lia].
  all: unfold climb; pose proof Hs1 as [T1 T2 T3 T4 _ _ _]; rewrite T1, T3.
  - rewrite (proj2 (Z.geb_le _ _)) by (unfold steps_to in Hn; destruct Hp; apply Z.nlt_ge; intros Hlt;
      assert (0 < (sp_max_qdb p - q + sp_seek_step_qdb p - 1) / sp_seek_step_qdb p) by (apply Z.div_str_pos; lia); lia).
    cbn [visited foldl]. destruct (sweep_note acc q) as [[top|] b]; simpl in T4.
    + destruct (sk_last_clean s1) as [[q0 r0]|] eqn:El; simpl in T4; [|done]. injection T4 as ->.
      apply (placed_outcome s1 q); [done|by destruct Hp|unfold B; lia].
    + destruct (sk_last_clean s1); [done|]. eexists _, _. split; [reflexivity|]. done.
  - destruct (Z.geb_spec q (sp_max_qdb p)) as [Hge|Hlt].
    + cbn [visited foldl]. destruct (sweep_note acc q) as [[top|] b]; simpl in T4.
      * destruct (sk_last_clean s1) as [[q0 r0]|] eqn:El; simpl in T4; [|done]. injection T4 as ->.
        apply (placed_outcome s1 q); [done|by destruct Hp|unfold B; lia].
      * destruct (sk_last_clean s1); [done|]. eexists _, _. split; [by rewrite Nat.add_succ_r|]. done.
    + apply IH; [done| | |].
      * pose proof (steps_to_next p q Hp Hw Hlt). lia.
      * unfold within in *. destruct Hp. lia.
      * destruct Hs1. by constructor; cbn.
Qed.

(** ** What the reference says *)
Lemma grid_from n : forall q x, 0 < p.(sp_seek_step_qdb) -> q <= p.(sp_max_qdb) -> x ∈ visited (grid n q) -> q <= x <= p.(sp_max_qdb).
Proof.
  induction n as [|n IH]; intros q x Hs Hq; cbn [grid visited]; intros Hx; apply elem_of_cons in Hx as [->|Hx]; try lia;
    destruct (clean q && cooks q); try (by apply elem_of_nil in Hx).
  destruct (Z.geb_spec q (sp_max_qdb p)); [by apply elem_of_nil in Hx|]. apply IH in Hx; lia.
Qed.
Lemma sweep_note_top acc q : (sweep_note acc q).1 = if clean q then Some q else acc.1.
Proof. unfold sweep_note. destruct (clean q); [done|]. by destruct acc as [[c|] [b|]]. Qed.
(** The sweep ends on the highest clean power it visited. *)
Definition top_ok (acc : option Z) (v : list Z) (top : option Z) : Prop :=
  match top with
  | Some t => (acc = Some t \/ t ∈ v /\ clean t = true) /\ (forall x, x ∈ v -> clean x = true -> x <= t) /\ (forall c, acc = Some c -> c <= t)
  | None => acc = None /\ forall x, x ∈ v -> clean x = false
  end.
Lemma top_cons q acc v : (forall c, acc = Some c -> c <= q) -> (forall x, x ∈ v -> q <= x) -> forall top,
  top_ok (if clean q then Some q else acc) v top -> top_ok acc (q :: v) top.
Proof.
  intros Hacc Hv [t|]; simpl.
  - intros (H1 & H2 & H3). destruct (clean q) eqn:Ec.
    + pose proof (H3 q eq_refl). split; [right; destruct H1 as [[= ->]|[? ?]]; split; try done; [left|by right]|].
      split; [intros x Hx Hcl; apply elem_of_cons in Hx as [->|Hx]; auto|]. intros c Hc. specialize (Hacc c Hc). lia.
    + split; [destruct H1 as [?|[? ?]]; [by left|right; split; [by right|done]]|].
      split; [intros x Hx Hcl; apply elem_of_cons in Hx as [->|Hx]; [congruence|auto]|done].
  - destruct (clean q) eqn:Ec; [by intros [? _]|]. intros [? H]. split; [done|]. intros x Hx. apply elem_of_cons in Hx as [->|Hx]; auto.
Qed.
Lemma top_spec n : forall q acc, 0 < p.(sp_seek_step_qdb) -> q <= p.(sp_max_qdb) -> (forall c, acc.1 = Some c -> c <= q) ->
  top_ok acc.1 (visited (grid n q)) (foldl sweep_note acc (visited (grid n q))).1.
Proof.
  assert (Hnil : forall (acc : option Z * option Z) q, (forall c, acc.1 = Some c -> c <= q) -> top_ok acc.1 [] acc.1).
  { intros [[c|] b] q H; simpl in *; [|by split; [|intros x Hx; apply elem_of_nil in Hx]].
    split; [by left|]. split; [intros x Hx; by apply elem_of_nil in Hx|]. intros x [= ->]. lia. }
  assert (Hnote : forall acc q, (forall c, acc.1 = Some c -> c <= q) -> forall c, (sweep_note acc q).1 = Some c -> c <= q).
  { intros acc q H c. rewrite sweep_note_top. destruct (clean q); [intros [= <-]; lia|apply H]. }
  induction n as [|n IH]; intros q acc Hs Hq Hacc; cbn [grid visited foldl]; (apply top_cons; [done| |]); rewrite <- ?sweep_note_top.
  - destruct (clean q && cooks q); intros x Hx; by apply elem_of_nil in Hx.
  - destruct (clean q && cooks q); apply (Hnil _ q), Hnote, Hacc.
  - destruct (clean q && cooks q); [intros x Hx; by apply elem_of_nil in Hx|].
    destruct (Z.geb_spec q (sp_max_qdb p)); [intros x Hx; by apply elem_of_nil in Hx|].
    intros x Hx. apply grid_from in Hx; lia.
  - destruct (clean q && cooks q); [apply (Hnil _ q), Hnote, Hacc|].
    destruct (Z.geb_spec q (sp_max_qdb p)); [apply (Hnil _ q), Hnote, Hacc|].
    apply IH; [done|lia|]. intros c Hc. specialize (Hnote _ _ Hacc c Hc). lia.
Qed.
Lemma start_of_le top b : p.(sp_min_qdb) <= top -> p.(sp_min_qdb) <= start_of top b <= top.
Proof.
  intros H. unfold start_of. destruct (sp_no_bracket_cap_qdb p) as [cap|]; [|lia].
  destruct (negb _ && (top >? cap)) eqn:E; [|lia]. apply andb_true_iff in E as [_ E]. lia.
Qed.
End Stationary.

(** C21. On a channel whose loss and signal are functions of the power, the
    search terminates and finds what it is meant to find. It sweeps the grid
    from the floor up, to the ceiling or the first clean power that overloads
    the receiver; if no power it visited is clean it fails; otherwise it
    places at a power of the walk down from the highest clean one it visited
    (or from the reference bound, where none is proved by a wall above), with
    the least loss of the whole walk, and reports that power's own loss and
    signal. *)
Theorem seek_finds_best (p : SeekParams) (ev : Z -> double * Z) (Hp : seek_params_ok p) :
  let v := visited p ev (grid p (Z.to_nat (steps_to p p.(sp_min_qdb))) p.(sp_min_qdb)) in
  exists fuel s st, seek_loop p ev fuel (seek_begin (PowerSeek_init p)).1 (seek_begin (PowerSeek_init p)).2 = Some (s, st) /\
    ((forall x, x ∈ v -> clean p ev x = false) /\ st.(ss_kind) = kFailed /\ st.(ss_fail_reason) = Some "no_clean_point"%string \/
     exists top, top ∈ v /\ clean p ev top = true /\ (forall x, x ∈ v -> clean p ev x = true -> x <= top) /\
       let w := walk p ev (Z.to_nat p.(sp_verify_descent_budget)) None (start_of p top (foldl (sweep_note p ev) (None, None) v).2) in
       st.(ss_kind) = kDone /\ s.(sk_qdb) = st.(ss_qdb) /\ st.(ss_qdb) ∈ w /\ (forall x, x ∈ w -> (ev st.(ss_qdb)).2 <= (ev x).2) /\
       p.(sp_min_qdb) <= st.(ss_qdb) <= top /\ top <= p.(sp_max_qdb) /\
       s.(sk_placed_loss) = (ev st.(ss_qdb)).2 /\ s.(sk_placed_rssi) = (ev st.(ss_qdb)).1).
Proof.
  intros v. pose proof Hp as [Hr Hst Hb]. set (n := Z.to_nat (steps_to p (sp_min_qdb p))) in *.
  assert (Hw : within p (sp_min_qdb p)) by (unfold within; lia). pose proof (steps_to_nonneg p _ Hp Hw) as Hnn.
  destruct (sweep_run p ev n (sp_min_qdb p) (None, None) (seek_begin (PowerSeek_init p)).1 true Hp ltac:(lia) Hw) as (s & st & Hl & Ho).
  { by constructor. }
  exists (n + S (S (Z.to_nat (sp_verify_descent_budget p))))%nat, s, st. split; [exact Hl|].
  pose proof (top_spec p ev n (sp_min_qdb p) (None, None) Hst Hr ltac:(done)) as Ht. fold v in Ho, Ht. unfold outcome in Ho.
  destruct (foldl (sweep_note p ev) (None, None) v) as [[top|] b]; simpl in Ho, Ht.
  - right. exists top. destruct Ht as ([?|[T1 T2]] & T3 & _); [done|]. destruct Ho as (r & O1 & O2 & O3 & O4 & O5 & O6). rewrite O3.
    destruct (better_spec ev _ _ _ O2) as ([?|B1] & _ & B2); [done|]. pose proof (grid_from p ev n _ _ Hst Hr T1) as Htop.
    pose proof (start_of_le p top b ltac:(lia)) as Hso. pose proof (walk_le p ev _ _ _ _ Hst (proj1 Hso) B1) as Hwr. simpl.
    split_and!; try done; lia.
  - left. by destruct Ht as [_ ?].
Qed.

(** ** A power amplifier with its least loss inside the range *)
Definition demo_pa (q : Z) : double * Z :=
  (double_of (q / 4 - 60), if q <? 36 then 900 else if q <? 60 then 10 else if q <? 92 then 2 else if q <? 100 then 30 else 400).
Example demo_seek :
  from_option (fun '(_, st) => Some (st.(ss_qdb), visited SeekParams_init demo_pa (grid SeekParams_init 7 4))) None
    (seek_loop SeekParams_init demo_pa 20 (seek_begin (PowerSeek_init SeekParams_init)).1 (seek_begin (PowerSeek_init SeekParams_init)).2) =
  Some (84, [4; 20; 36; 52; 68; 84; 100; 108]).
Proof. by vm_compute. Qed.
Lemma seek_finds_best_witness : exists fuel s st,
  seek_loop SeekParams_init demo_pa fuel (seek_begin (PowerSeek_init SeekParams_init)).1 (seek_begin (PowerSeek_init SeekParams_init)).2 = Some (s, st).
Proof.
  destruct (seek_finds_best SeekParams_init demo_pa) as (fuel & s & st & H & _).
  - constructor; cbn; lia.
  - exact (ex_intro _ fuel (ex_intro _ s (ex_intro _ st H))).
Defined.

(** ** A craft calibrating over that amplifier *)
Definition demo_cal : CalibrateParams :=
  MkCalibrateParams 15 50 16 (-6) 4 108 300 500 1000 DwellSendParams_init 600000 [4; 4; 4; 4; 4; 4; 4; 4] true.
Fixpoint demo_calibrate (fuel : nat) (c : Calibrator) (now : Z) (log : list Z) : option (Calibrator * list Z) :=
  match fuel with
  | O => Some (c, log)
  | S fuel =>
    '(c, a) ← tick c now;
    let log := log ++ from_option (fun q => [q]) [] a.(act_set_qdb) ++ (if a.(act_restore) then [-1] else []) in
    let d := c.(c_dwell) in
    let received := d.(ds_count) * (1000 - (demo_pa c.(c_qdb)).2) / 1000 in
    let c := calib_on_tally c d.(ds_run_id) d.(ds_dwell_id) received (to_u32 (received * -50)) 3 9 in
    demo_calibrate fuel c (now + 1000) log
  end.
(** Eight rungs placed at 84; powers of the first, the restore (-1) last. *)
Example demo_calibration :
  (fun '(c, log) => (c.(c_state), c.(c_artifact).(ca_placement_qdb), c.(c_artifact).(ca_placement_loss_milli), take 12 log, last log))
    <$> demo_calibrate 100 (start (Calibrator_init demo_cal) 5).1 5 [] =
  Some (cDone, replicate 8 84, replicate 8 2, [4; 20; 36; 52; 68; 84; 100; 108; 84; 68; 4; 20], Some (-1)).
Proof. by vm_compute. Qed.
