(* ===== verification/UplinkCalibrate.v ===== *)
(** * Uplink calibration ([core/.../uplink_calibrate.h])

    The ground's calibrator of its one uplink rate, over the search and the
    dwell of [Calibrate] and [Dwell], and the sequencer that runs the uplink
    phase before the craft's. *)
From Stdlib Require Import SpecFloat String.
From S2P Require Import Prelude Types Double Dwell Calibrate.
Open Scope Z_scope.

Record UplinkRate : Type := MkUplinkRate { ur_mcs : Z; ur_short_gi : bool }.
Record UplinkCalibParams : Type := MkUplinkCalibParams {
  up_seek : SeekParams;
  up_rung_level : Z;
  up_taper_rung_ceiling : bool;
  up_settle_ms : Z;
  up_dwell_probe_frames : Z;
  up_dwell_verify_frames : Z;
  up_dwell : DwellSendParams;
  up_hard_cap_ms : Z;
  up_rate : UplinkRate
}.
Definition UplinkCalibParams_init : UplinkCalibParams :=
  MkUplinkCalibParams SeekParams_init 4 true 300 500 1000 DwellSendParams_init 600000 (MkUplinkRate 0 false).
Record UplinkPlacement : Type := MkUplinkPlacement {
  pl_mcs : Z;
  pl_short_gi : bool;
  pl_placement_qdb : Z;
  pl_placement_rssi_dbm : Z;
  pl_placement_loss_milli : Z;
  pl_last_clean_qdb : Z;
  pl_has_first_bad : bool;
  pl_first_bad_qdb : Z
}.
Record UplinkCalibActions : Type := MkUplinkCalibActions {
  ua_set_rate : option UplinkRate;
  ua_set_qdb : option Z;
  ua_restore : bool;
  ua_artifact_ready : bool
}.
Definition UplinkCalibActions_init : UplinkCalibActions := MkUplinkCalibActions None None false false.
Record DwellRecord : Type := MkDwellRecord {
  rec_seq : Z; rec_qdb : Z; rec_verify : bool; rec_sent : Z; rec_received : Z; rec_loss_milli : Z; rec_rssi_mean : Z; rec_target : Z
}.
Definition DwellRecord_init : DwellRecord := MkDwellRecord 0 0 false 0 0 0 0 0.
Record UplinkCalibrator : Type := MkUplinkCalibrator {
  u_p : UplinkCalibParams;
  u_dwell : DwellSender;
  u_seek : PowerSeek;
  u_state : CalibState;
  u_fail_reason : option string;
  u_placements : list UplinkPlacement;
  u_started_ms : Z;
  u_dwell_start_ms : Z;
  u_run_id : Z;
  u_dwell_seq : Z;
  u_dwell_count : Z;
  u_qdb : Z;
  u_restore_pending : bool;
  u_artifact_pending : bool;
  u_pending_rate : option UplinkRate;
  u_pending_qdb : option Z;
  u_last : DwellRecord
}.
Definition UplinkCalibrator_init (p : UplinkCalibParams) : UplinkCalibrator :=
  MkUplinkCalibrator p (DwellSender_init p.(up_dwell)) (PowerSeek_init p.(up_seek)) cIdle None [] 0 0 0 0 0 0 false false None None DwellRecord_init.
Definition set_max_qdb (c : UplinkCalibrator) (qdb : Z) : UplinkCalibrator * bool :=
  if decide (c.(u_state) = cRunning) then (c, false)
  else
    let p := c.(u_p) in let s := p.(up_seek) in
    let s := MkSeekParams s.(sp_loss_ok_milli) s.(sp_loss_bad_milli) s.(sp_seek_step_qdb) s.(sp_rssi_guard_dbm) s.(sp_min_qdb) qdb
               s.(sp_verify_descent_budget) s.(sp_no_bracket_cap_qdb) in
    (MkUplinkCalibrator
       (MkUplinkCalibParams s p.(up_rung_level) p.(up_taper_rung_ceiling) p.(up_settle_ms) p.(up_dwell_probe_frames) p.(up_dwell_verify_frames)
          p.(up_dwell) p.(up_hard_cap_ms) p.(up_rate))
       c.(u_dwell) c.(u_seek) c.(u_state) c.(u_fail_reason) c.(u_placements) c.(u_started_ms) c.(u_dwell_start_ms) c.(u_run_id) c.(u_dwell_seq)
       c.(u_dwell_count) c.(u_qdb) c.(u_restore_pending) c.(u_artifact_pending) c.(u_pending_rate) c.(u_pending_qdb) c.(u_last), true).
Definition rung_ceiling_qdb (p : UplinkCalibParams) : Z :=
  if negb p.(up_taper_rung_ceiling) then p.(up_seek).(sp_max_qdb)
  else zclamp (p.(up_seek).(sp_max_qdb) + (p.(up_rung_level) - kPowerLevelBaseline) * kQdbPerLevel)
         p.(up_seek).(sp_min_qdb) p.(up_seek).(sp_max_qdb).

(** Members written together. *)
Definition with_u_dwell (c : UplinkCalibrator) (d : DwellSender) : UplinkCalibrator :=
  MkUplinkCalibrator c.(u_p) d c.(u_seek) c.(u_state) c.(u_fail_reason) c.(u_placements) c.(u_started_ms) c.(u_dwell_start_ms)
    c.(u_run_id) c.(u_dwell_seq) c.(u_dwell_count) c.(u_qdb) c.(u_restore_pending) c.(u_artifact_pending) c.(u_pending_rate) c.(u_pending_qdb) c.(u_last).
Definition with_u_seek (c : UplinkCalibrator) (q : Z) (s : PowerSeek) (last : DwellRecord) : UplinkCalibrator :=
  MkUplinkCalibrator c.(u_p) c.(u_dwell) s c.(u_state) c.(u_fail_reason) c.(u_placements) c.(u_started_ms) c.(u_dwell_start_ms)
    c.(u_run_id) c.(u_dwell_seq) c.(u_dwell_count) q c.(u_restore_pending) c.(u_artifact_pending) c.(u_pending_rate) c.(u_pending_qdb) last.
Definition with_u_placements (c : UplinkCalibrator) (l : list UplinkPlacement) : UplinkCalibrator :=
  MkUplinkCalibrator c.(u_p) c.(u_dwell) c.(u_seek) c.(u_state) c.(u_fail_reason) l c.(u_started_ms) c.(u_dwell_start_ms)
    c.(u_run_id) c.(u_dwell_seq) c.(u_dwell_count) c.(u_qdb) c.(u_restore_pending) c.(u_artifact_pending) c.(u_pending_rate) c.(u_pending_qdb) c.(u_last).
Definition drain_pending (c : UplinkCalibrator) : UplinkCalibrator :=
  MkUplinkCalibrator c.(u_p) c.(u_dwell) c.(u_seek) c.(u_state) c.(u_fail_reason) c.(u_placements) c.(u_started_ms) c.(u_dwell_start_ms)
    c.(u_run_id) c.(u_dwell_seq) c.(u_dwell_count) c.(u_qdb) c.(u_restore_pending) c.(u_artifact_pending) None None c.(u_last).

Definition take_u_restore (c : UplinkCalibrator) : UplinkCalibrator * bool :=
  (MkUplinkCalibrator c.(u_p) c.(u_dwell) c.(u_seek) c.(u_state) c.(u_fail_reason) c.(u_placements) c.(u_started_ms) c.(u_dwell_start_ms)
     c.(u_run_id) c.(u_dwell_seq) c.(u_dwell_count) c.(u_qdb) false c.(u_artifact_pending) c.(u_pending_rate) c.(u_pending_qdb) c.(u_last),
   c.(u_restore_pending)).
Definition take_u_artifact (c : UplinkCalibrator) : UplinkCalibrator * bool :=
  (MkUplinkCalibrator c.(u_p) c.(u_dwell) c.(u_seek) c.(u_state) c.(u_fail_reason) c.(u_placements) c.(u_started_ms) c.(u_dwell_start_ms)
     c.(u_run_id) c.(u_dwell_seq) c.(u_dwell_count) c.(u_qdb) c.(u_restore_pending) false c.(u_pending_rate) c.(u_pending_qdb) c.(u_last),
   c.(u_artifact_pending)).
Definition u_finish (c : UplinkCalibrator) (st : CalibState) (reason : option string) : UplinkCalibrator :=
  MkUplinkCalibrator c.(u_p) (sender_reset c.(u_dwell)) c.(u_seek) st reason c.(u_placements) c.(u_started_ms) 0
    c.(u_run_id) c.(u_dwell_seq) c.(u_dwell_count) c.(u_qdb) true (bool_decide (st = cDone)) c.(u_pending_rate) c.(u_pending_qdb) c.(u_last).
Definition u_begin_dwell (c : UplinkCalibrator) (now_ms frames : Z) : UplinkCalibrator :=
  let seq := to_u16 (c.(u_dwell_seq) + 1) in
  MkUplinkCalibrator c.(u_p) (begin c.(u_dwell) c.(u_run_id) seq frames now_ms).1 c.(u_seek) c.(u_state) c.(u_fail_reason) c.(u_placements)
    c.(u_started_ms) (to_u64 (now_ms + c.(u_p).(up_settle_ms))) c.(u_run_id) seq frames c.(u_qdb) c.(u_restore_pending) c.(u_artifact_pending)
    c.(u_pending_rate) c.(u_pending_qdb) c.(u_last).

Definition u_start (c : UplinkCalibrator) (now_ms : Z) : UplinkCalibrator * bool :=
  if decide (c.(u_state) = cRunning) then (c, false)
  else
    let '(s, st) := seek_begin_at c.(u_seek) (rung_ceiling_qdb c.(u_p)) in
    (u_begin_dwell
       (MkUplinkCalibrator c.(u_p) c.(u_dwell) s cRunning None [] now_ms c.(u_dwell_start_ms) (Z.lor (to_u32 now_ms) 1) 0 c.(u_dwell_count)
          st.(ss_qdb) false false (Some c.(u_p).(up_rate)) (Some st.(ss_qdb)) c.(u_last))
       now_ms c.(u_p).(up_dwell_probe_frames), true).
Definition u_abort (c : UplinkCalibrator) : UplinkCalibrator * bool :=
  if decide (c.(u_state) = cRunning) then (u_finish c cFailed (Some "abort"%string), true) else (c, false).
Definition fail_persist (c : UplinkCalibrator) : UplinkCalibrator :=
  if decide (c.(u_state) = cDone) then u_finish c cFailed (Some "artifact_write_failed"%string) else c.
Definition u_on_tally (c : UplinkCalibrator) (run_id dwell_id received rssi_sum_dbm rx_mcs adapter_fingerprint : Z) : UplinkCalibrator :=
  if decide (c.(u_state) = cRunning)
  then with_u_dwell c (on_tally c.(u_dwell) run_id dwell_id received rssi_sum_dbm rx_mcs adapter_fingerprint).1 else c.
Definition u_new_tick (c : UplinkCalibrator) : UplinkCalibrator := with_u_dwell c (new_tick c.(u_dwell)).
Definition u_next_probe (c : UplinkCalibrator) (now_ms : Z) : UplinkCalibrator * DwellProbeOut :=
  if negb (bool_decide (c.(u_state) = cRunning)) || (c.(u_dwell_start_ms) =? 0) || (now_ms <? c.(u_dwell_start_ms)) then (c, None)
  else let '(d, out) := next_probe c.(u_dwell) now_ms in (with_u_dwell c d, out).

Definition placement_of (c : UplinkCalibrator) (q : Z) : UplinkPlacement :=
  MkUplinkPlacement c.(u_p).(up_rate).(ur_mcs) c.(u_p).(up_rate).(ur_short_gi) q (to_i8 (lround c.(u_seek).(sk_placed_rssi)))
    c.(u_seek).(sk_placed_loss) (last_clean_qdb c.(u_seek)) c.(u_seek).(sk_has_bad) c.(u_seek).(sk_first_bad_qdb).
Definition fail_with (c : UplinkCalibrator) (a : UplinkCalibActions) (reason : option string) : UplinkCalibrator * UplinkCalibActions :=
  let '(c, r) := take_u_restore (u_finish c cFailed reason) in (c, MkUplinkCalibActions a.(ua_set_rate) a.(ua_set_qdb) r a.(ua_artifact_ready)).
(** A finished dwell, or one whose tally never came. *)
Definition score (c : UplinkCalibrator) (a : UplinkCalibActions) (now_ms loss : Z) (rssi : double) (sent received : Z) (blackout : bool)
    : UplinkCalibrator * UplinkCalibActions :=
  let verify := in_verify c.(u_seek) in
  let v := if loss >? c.(u_p).(up_seek).(sp_loss_bad_milli) then kBad else kClean in
  let last := MkDwellRecord (to_u32 (c.(u_last).(rec_seq) + 1)) c.(u_qdb) verify sent received loss (to_i32 (lround rssi)) c.(u_dwell_count) in
  let '(sk, s) := on_dwell c.(u_seek) v rssi loss in
  let c := with_u_seek c s.(ss_qdb) sk last in
  let a := if s.(ss_power_changed) then MkUplinkCalibActions a.(ua_set_rate) (Some s.(ss_qdb)) a.(ua_restore) a.(ua_artifact_ready) else a in
  match s.(ss_kind) with
  | kFailed => fail_with c a (if blackout then Some "evidence_lost"%string else s.(ss_fail_reason))
  | kDone =>
    if c.(u_seek).(sk_placed_loss) >? c.(u_p).(up_seek).(sp_loss_ok_milli) then fail_with c a (Some "verify_failed"%string)
    else
      let pl := placement_of c s.(ss_qdb) in
      let c := with_u_placements c (c.(u_placements) ++ [pl]) in
      if c.(u_p).(up_taper_rung_ceiling) && negb pl.(pl_has_first_bad) && (pl.(pl_placement_qdb) >=? rung_ceiling_qdb c.(u_p))
      then fail_with c a (Some "no_wall_found"%string)
      else
        let '(c, r) := take_u_restore (u_finish c cDone None) in
        let '(c, ar) := take_u_artifact c in
        (c, MkUplinkCalibActions a.(ua_set_rate) a.(ua_set_qdb) r ar)
  | kVerify => (u_begin_dwell c now_ms c.(u_p).(up_dwell_verify_frames), a)
  | kProbe => (u_begin_dwell c now_ms c.(u_p).(up_dwell_probe_frames), a)
  end.
Definition u_tick (c : UplinkCalibrator) (now_ms : Z) : UplinkCalibrator * UplinkCalibActions :=
  if negb (bool_decide (c.(u_state) = cRunning)) then
    let '(c, r) := take_u_restore c in
    let '(c, ar) := take_u_artifact c in
    (c, MkUplinkCalibActions None None r ar)
  else
    let a := MkUplinkCalibActions c.(u_pending_rate) c.(u_pending_qdb) false false in
    let c := drain_pending c in
    if to_u64 (now_ms - c.(u_started_ms)) >? c.(u_p).(up_hard_cap_ms) then fail_with c a (Some "hard_cap"%string)
    else if bool_decide (c.(u_dwell).(ds_state) = dNoEvidence) then
      score c a now_ms 1000 (guard_rssi c.(u_p).(up_seek).(sp_rssi_guard_dbm)) c.(u_dwell_count) 0 true
    else if negb (bool_decide (c.(u_dwell).(ds_state) = dDone)) then (c, a)
    else
      let r := c.(u_dwell).(ds_result) in
      let c := with_u_dwell c (sender_reset c.(u_dwell)) in
      score c a now_ms (loss_milli r) (mean_rssi c.(u_p).(up_seek).(sp_rssi_guard_dbm) r) r.(dr_sent) r.(dr_received) false.

(** ** The sequencer *)
Inductive CalibPhase : Type := qIdle | qUplink | qDownlink | qDone | qFailed.
Record SeqActions : Type := MkSeqActions { start_downlink : bool; abort_downlink : bool }.
Definition SeqActions_init : SeqActions := MkSeqActions false false.
Record CalibSequencer : Type := MkCalibSequencer {
  q_start_timeout_ms : Z;
  q_cap_ms : Z;
  q_phase : CalibPhase;
  q_fail_reason : option string;
  q_entered_ms : Z;
  q_saw_running : bool
}.
Definition CalibSequencer_init (start_timeout cap : Z) : CalibSequencer := MkCalibSequencer start_timeout cap qIdle None 0 false.
Definition q_finish (q : CalibSequencer) (ph : CalibPhase) (reason : option string) (now_ms : Z) : CalibSequencer :=
  MkCalibSequencer q.(q_start_timeout_ms) q.(q_cap_ms) ph reason now_ms q.(q_saw_running).
Definition q_start (q : CalibSequencer) (now_ms : Z) : CalibSequencer :=
  MkCalibSequencer q.(q_start_timeout_ms) q.(q_cap_ms) qUplink None now_ms false.
Definition q_abort (q : CalibSequencer) (now_ms : Z) : CalibSequencer * SeqActions :=
  match q.(q_phase) with
  | qDownlink => (q_finish q qFailed (Some "abort"%string) now_ms, MkSeqActions false true)
  | qUplink => (q_finish q qFailed (Some "abort"%string) now_ms, SeqActions_init)
  | _ => (q, SeqActions_init)
  end.
Definition q_tick (q : CalibSequencer) (uplink_state : CalibState) (craft_calib_state now_ms : Z) : CalibSequencer * SeqActions :=
  match q.(q_phase) with
  | qUplink =>
    match uplink_state with
    | cRunning => (q, SeqActions_init)
    | cDone => (MkCalibSequencer q.(q_start_timeout_ms) q.(q_cap_ms) qDownlink q.(q_fail_reason) now_ms false, MkSeqActions true false)
    | _ => (q_finish q qFailed (Some "uplink_phase_failed"%string) now_ms, SeqActions_init)
    end
  | qDownlink =>
    if q.(q_saw_running) && (to_u64 (now_ms - q.(q_entered_ms)) >? q.(q_cap_ms))
    then (q_finish q qFailed (Some "downlink_timeout"%string) now_ms, MkSeqActions false true)
    else if craft_calib_state =? 1
    then (MkCalibSequencer q.(q_start_timeout_ms) q.(q_cap_ms) qDownlink q.(q_fail_reason) q.(q_entered_ms) true, SeqActions_init)
    else if negb q.(q_saw_running) then
      if to_u64 (now_ms - q.(q_entered_ms)) >? q.(q_start_timeout_ms)
      then (q_finish q qFailed (Some "downlink_no_ack"%string) now_ms, SeqActions_init) else (q, SeqActions_init)
    else if craft_calib_state =? 2 then (q_finish q qDone None now_ms, SeqActions_init)
    else if craft_calib_state =? 3 then (q_finish q qFailed (Some "downlink_phase_failed"%string) now_ms, SeqActions_init)
    else (q, SeqActions_init)
  | _ => (q, SeqActions_init)
  end.
Definition active (q : CalibSequencer) : bool := match q.(q_phase) with qUplink | qDownlink => true | _ => false end.
