(* ===== verification/UplinkCalibProps.v ===== *)
(** * Commissioning the uplink, then the downlink

    The ground's calibrator obeys the rules of the craft's and hands over only
    a verified placement; the sequencer starts the craft's phase only on one. *)
From Stdlib Require Import SpecFloat String.
From S2P Require Import Prelude Types Double Dwell Calibrate CalibrateProps UplinkCalibrate.
Open Scope Z_scope.

(** The dwells of a run: the sweep's grid, the verify walk. *)
Definition per_run (s : SeekParams) : Z := steps_to s s.(sp_min_qdb) + 2 + s.(sp_verify_descent_budget).
Record uparams_ok (p : UplinkCalibParams) : Prop := {
  uo_seek : seek_params_ok p.(up_seek);
  uo_frames : 0 < p.(up_dwell_probe_frames) /\ 0 < p.(up_dwell_verify_frames);
  uo_dwells : per_run p.(up_seek) < 65536
}.
Lemma rung_ceiling_range p : seek_params_ok p.(up_seek) -> within p.(up_seek) (rung_ceiling_qdb p).
Proof.
  intros [? ? ?]. unfold rung_ceiling_qdb, zclamp, within. destruct (negb _); [lia|]. set (v := sp_max_qdb _ + _). clearbody v.
  destruct (Z.ltb_spec v (sp_min_qdb (up_seek p))); [lia|]. destruct (Z.ltb_spec (sp_max_qdb (up_seek p)) v); lia.
Qed.
Definition in_bounds (p : UplinkCalibParams) (q : Z) : Prop := p.(up_seek).(sp_min_qdb) <= q <= rung_ceiling_qdb p.

(** A placement fit to apply at boot. *)
Definition verified (p : UplinkCalibParams) (l : list UplinkPlacement) : Prop :=
  exists pl, l = [pl] /\ pl.(pl_placement_loss_milli) <= p.(up_seek).(sp_loss_ok_milli) /\
    pl.(pl_mcs) = p.(up_rate).(ur_mcs) /\ pl.(pl_short_gi) = p.(up_rate).(ur_short_gi).
Definition walled (p : UplinkCalibParams) (l : list UplinkPlacement) : Prop :=
  forall pl, pl ∈ l -> in_bounds p pl.(pl_placement_qdb) /\
    (p.(up_taper_rung_ceiling) = true -> pl.(pl_has_first_bad) = true \/ pl.(pl_placement_qdb) < rung_ceiling_qdb p).

Record u_base (c : UplinkCalibrator) : Prop := {
  ub_p : uparams_ok c.(u_p);
  ub_step : c.(u_seek).(sk_p).(sp_seek_step_qdb) = c.(u_p).(up_seek).(sp_seek_step_qdb);
  ub_budget : c.(u_seek).(sk_p).(sp_verify_descent_budget) = c.(u_p).(up_seek).(sp_verify_descent_budget);
  ub_min : c.(u_seek).(sk_p).(sp_min_qdb) = c.(u_p).(up_seek).(sp_min_qdb)
}.
Record u_running (c : UplinkCalibrator) : Prop := {
  ur_seek : seek_ok c.(u_seek);
  ur_max : c.(u_seek).(sk_p).(sp_max_qdb) = rung_ceiling_qdb c.(u_p);
  ur_qdb : c.(u_qdb) = c.(u_seek).(sk_qdb);
  ur_placements : c.(u_placements) = [];
  ur_flags : c.(u_restore_pending) = false /\ c.(u_artifact_pending) = false;
  ur_seq : 0 <= c.(u_dwell_seq) /\ c.(u_dwell_seq) + dwells_left c.(u_seek) <= per_run c.(u_p).(up_seek);
  ur_pending : (forall q, c.(u_pending_qdb) = Some q -> in_bounds c.(u_p) q) /\ (forall r, c.(u_pending_rate) = Some r -> r = c.(u_p).(up_rate))
}.
Record u_ok (c : UplinkCalibrator) : Prop := {
  uk_base : u_base c;
  uk_running : c.(u_state) = cRunning -> u_running c;
  uk_stopped : c.(u_state) <> cRunning -> c.(u_artifact_pending) = false;
  uk_done : c.(u_state) = cDone -> verified c.(u_p) c.(u_placements)
}.

(** Whether the calibrator owns the uplink's power and rate. *)
Definition u_allowed (held : bool) (c' : UplinkCalibrator) (a : UplinkCalibActions) : Prop :=
  if held then
    (forall q, a.(ua_set_qdb) = Some q -> in_bounds c'.(u_p) q) /\ (forall r, a.(ua_set_rate) = Some r -> r = c'.(u_p).(up_rate)) /\
    (a.(ua_restore) = false <-> c'.(u_state) = cRunning) /\
    (a.(ua_artifact_ready) = true -> a.(ua_restore) = true /\ c'.(u_state) = cDone /\ verified c'.(u_p) c'.(u_placements) /\ walled c'.(u_p) c'.(u_placements))
  else a = UplinkCalibActions_init.
Definition u_holds (held : bool) (c : UplinkCalibrator) : Prop :=
  if held then c.(u_state) = cRunning \/ c.(u_restore_pending) = true else c.(u_state) <> cRunning /\ c.(u_restore_pending) = false.
Definition u_post (x : UplinkCalibrator * UplinkCalibActions) : Prop :=
  u_ok x.1 /\ u_allowed true x.1 x.2 /\ u_holds (negb x.2.(ua_restore)) x.1.

Definition acts_ok (p : UplinkCalibParams) (a : UplinkCalibActions) : Prop :=
  (forall q, a.(ua_set_qdb) = Some q -> in_bounds p q) /\ (forall r, a.(ua_set_rate) = Some r -> r = p.(up_rate)) /\
  a.(ua_restore) = false /\ a.(ua_artifact_ready) = false.
Lemma u_fail_post c a reason : u_base c -> acts_ok c.(u_p) a -> u_post (fail_with c a reason).
Proof.
  intros Hb (A1 & A2 & A3 & A4). split; [|split; [|by split]].
  - constructor; cbn; try done. by destruct Hb.
  - cbn. rewrite A4. split_and!; done.
Qed.
Lemma u_continue_post c a now frames : u_base c -> c.(u_state) = cRunning -> u_running c -> 0 < frames ->
  c.(u_dwell_seq) + 1 + dwells_left c.(u_seek) <= per_run c.(u_p).(up_seek) -> acts_ok c.(u_p) a -> u_post (u_begin_dwell c now frames, a).
Proof.
  intros Hb Hst [R1 R2 R3 R4 R5 R6 R7] Hf Hseq (A1 & A2 & A3 & A4).
  assert (Hid : to_u16 (c.(u_dwell_seq) + 1) = c.(u_dwell_seq) + 1).
  { assert (0 <= dwells_left (u_seek c)).
    { destruct R1 as [Rp Rq _ _ Rd _]. unfold dwells_left. destruct (sk_phase (u_seek c)); [|lia]. pose proof (steps_to_nonneg _ _ Rp Rq). destruct Rp. lia. }
    apply to_u16_id. unfold u16. destruct Hb as [[_ _ Hd] _ _ _]. lia. }
  split; [|split].
  - constructor; cbn; try done; [by destruct Hb| |by rewrite Hst]. intros _. constructor; cbn; rewrite ?Hid; try done. lia.
  - cbn. rewrite A3, A4. split_and!; try done.
  - cbn. rewrite A3. by left.
Qed.
Lemma score_post c a now loss rssi sent received blackout : u_ok c -> c.(u_state) = cRunning -> acts_ok c.(u_p) a ->
  u_post (score c a now loss rssi sent received blackout).
Proof.
  intros [Hb Hr _ _] Hst Ha. pose proof Hb as [B1 B2 B3 B4]. destruct (Hr Hst) as [R1 R2 R3 R4 R5 R6 R7].
  unfold score. set (v := if _ >? _ then kBad else kClean).
  assert (Hv : v <> kNoEvidence) by (unfold v; by destruct (_ >? _)). clearbody v.
  pose proof (on_dwell_ok (u_seek c) v rssi loss R1 Hv) as Hstep. destruct (on_dwell (u_seek c) v rssi loss) as [sk st].
  destruct Hstep as [S1 S2 S3 S4 S5]. set (last := MkDwellRecord _ _ _ _ _ _ _ _). clearbody last.
  set (c1 := with_u_seek c _ _ _). set (a1 := if ss_power_changed st then _ else a).
  assert (Hin : in_bounds (u_p c) (ss_qdb st)).
  { unfold in_bounds. rewrite S3. destruct S1 as [_ Hw _ _ _ _]. unfold within in Hw. by rewrite S2, B4, R2 in Hw. }
  assert (Ha1 : acts_ok (u_p c1) a1).
  { destruct Ha as (A1 & A2 & A3 & A4). unfold a1. destruct (ss_power_changed st); [|done]. split_and!; cbn; try done. by intros q [= <-]. }
  assert (Hb1 : u_base c1) by (constructor; cbn; try done; by rewrite S2).
  assert (Hgo : ss_kind st = kProbe \/ ss_kind st = kVerify -> forall frames, 0 < frames -> u_post (u_begin_dwell c1 now frames, a1)).
  { intros Hk frames Hf. assert (dwells_left sk < dwells_left (u_seek c)) by (by destruct Hk as [E|E]; rewrite E in S5).
    apply u_continue_post; try done; cbn.
    - constructor; cbn; try done; try (by rewrite S2). lia.
    - lia. }
  destruct B1 as [_ [F1 F2] _].
  destruct (ss_kind st) eqn:Ek; [by apply Hgo; [left|]|by apply Hgo; [right|]| |by apply u_fail_post].
  destruct (Z.gtb_spec (sk_placed_loss (u_seek c1)) (sp_loss_ok_milli (up_seek (u_p c1)))); [by apply u_fail_post|].
  set (pl := placement_of c1 (ss_qdb st)). set (c2 := with_u_placements c1 _).
  assert (Hb2 : u_base c2) by (destruct Hb1; by constructor).
  destruct (_ && _ && _) eqn:Ew; [by apply u_fail_post|].
  assert (Hver : verified (u_p c) (u_placements c2)) by (exists pl; cbn; rewrite R4; split_and!; done).
  destruct Ha1 as (A1 & A2 & A3 & A4). split; [|split; [|by split]].
  - constructor; cbn; try done. by destruct Hb2.
  - cbn. split_and!; try done. intros _. split_and!; try done. intros pl0 Hpl. rewrite R4 in Hpl. apply list_elem_of_singleton in Hpl as ->.
    split; [done|]. intros Ht. cbn in Ew. rewrite Ht in Ew. cbn in Ew. apply andb_false_iff in Ew as [Ew|Ew].
    + left. by apply negb_false_iff in Ew.
    + right. cbn. rewrite Z.geb_leb in Ew. apply Z.leb_gt in Ew. done.
Qed.

Definition u_due (c : UplinkCalibrator) (now : Z) : Prop := c.(u_state) <> cRunning \/ to_u64 (now - c.(u_started_ms)) > c.(u_p).(up_hard_cap_ms).
Lemma u_tick_post c now held : u_ok c -> u_holds held c -> let '(c', a) := u_tick c now in
  u_ok c' /\ u_allowed held c' a /\ u_holds (held && negb a.(ua_restore)) c' /\ (held = true -> u_due c now -> a.(ua_restore) = true).
Proof.
  intros Hc Hh. pose proof Hc as [Hb Hr Hs Hd]. unfold u_tick. destruct (decide (u_state c = cRunning)) as [Hst|Hst].
  - rewrite bool_decide_true by done. cbn [negb]. assert (held = true) as -> by (destruct held; [done|by destruct Hh]).
    destruct (Hr Hst) as [R1 R2 R3 R4 R5 R6 [R7 R8]]. set (a := MkUplinkCalibActions _ _ _ _).
    assert (Ha : acts_ok (u_p c) a) by (split_and!; cbn; auto).
    assert (Hdr : u_ok (drain_pending c)).
    { constructor; cbn; [by destruct Hb| |done|done]. intros _. by constructor. }
    assert (Hfin : forall x, u_post x -> (u_due c now -> x.2.(ua_restore) = true) -> let '(c', a) := x in
      u_ok c' /\ u_allowed true c' a /\ u_holds (true && negb a.(ua_restore)) c' /\ (true = true -> u_due c now -> a.(ua_restore) = true)).
    { intros [c' a'] (P1 & P2 & P3) P4. split_and!; auto. }
    cbn [drain_pending u_started_ms u_p u_dwell].
    destruct (Z.gtb_spec (to_u64 (now - u_started_ms c)) (up_hard_cap_ms (u_p c))).
    { apply Hfin; [|done]. apply u_fail_post; [by destruct Hdr|done]. }
    assert (Hnd : ~ u_due c now) by (intros [?|?]; [done|lia]).
    case_bool_decide; [apply Hfin; [by apply score_post|intros Hdue; by destruct (Hnd Hdue)]|]. case_bool_decide; cbn [negb].
    + apply Hfin; [|intros Hdue; by destruct (Hnd Hdue)]. apply score_post; try done. destruct Hdr as [[? ? ? ?] D2 ? ?]. constructor; cbn; [by constructor| |done|done].
      intros _. destruct (D2 Hst). by constructor.
    + apply (Hfin (drain_pending c, a)); [|intros Hdue; by destruct (Hnd Hdue)]. destruct Ha as (A1 & A2 & A3 & A4).
      split; [exact Hdr|]. split; [split_and!; try done; by split|]. by left.
  - rewrite bool_decide_false by done. cbn [negb]. cbn. rewrite (Hs Hst). split; [constructor; cbn; try done; by destruct Hb|].
    destruct held; cbn in Hh.
    + destruct Hh as [?|Hp]; [done|]. rewrite Hp. by split_and!.
    + destruct Hh as [_ Hp]. rewrite Hp. by split_and!.
Qed.

(** ** Any run of both *)
Inductive CommEvent : Type :=
| UStart (now_ms : Z)
| UAbort
| UFailPersist
| UMax (qdb : Z)
| UTally (run_id dwell_id received rssi_sum_dbm rx_mcs adapter_fingerprint : Z)
| UNewTick
| UProbe (now_ms : Z)
| UTick (now_ms : Z)
| QStart (now_ms : Z)
| QAbort (now_ms : Z)
| QTick (craft_calib_state now_ms : Z).
(** A power tier leaves room for a sweep that can be numbered. *)
Definition comm_event_ok (p : UplinkCalibParams) (e : CommEvent) : Prop :=
  match e with
  | UMax q => p.(up_seek).(sp_min_qdb) <= q /\
      (q - p.(up_seek).(sp_min_qdb) + p.(up_seek).(sp_seek_step_qdb) - 1) / p.(up_seek).(sp_seek_step_qdb) + 2 + p.(up_seek).(sp_verify_descent_budget) < 65536
  | _ => True
  end.
Definition comm_step (c : UplinkCalibrator) (q : CalibSequencer) (e : CommEvent)
    : UplinkCalibrator * CalibSequencer * UplinkCalibActions * SeqActions :=
  match e with
  | UStart now => ((u_start c now).1, q, UplinkCalibActions_init, SeqActions_init)
  | UAbort => ((u_abort c).1, q, UplinkCalibActions_init, SeqActions_init)
  | UFailPersist => (fail_persist c, q, UplinkCalibActions_init, SeqActions_init)
  | UMax m => ((set_max_qdb c m).1, q, UplinkCalibActions_init, SeqActions_init)
  | UTally r d n s m f => (u_on_tally c r d n s m f, q, UplinkCalibActions_init, SeqActions_init)
  | UNewTick => (u_new_tick c, q, UplinkCalibActions_init, SeqActions_init)
  | UProbe now => ((u_next_probe c now).1, q, UplinkCalibActions_init, SeqActions_init)
  | UTick now => let '(c, a) := u_tick c now in (c, q, a, SeqActions_init)
  | QStart now => (c, q_start q now, UplinkCalibActions_init, SeqActions_init)
  | QAbort now => let '(q, a) := q_abort q now in (c, q, UplinkCalibActions_init, a)
  | QTick s now => let '(q, a) := q_tick q c.(u_state) s now in (c, q, UplinkCalibActions_init, a)
  end.
Definition takes_power (held : bool) (c : UplinkCalibrator) (e : CommEvent) : bool :=
  match e with
  | UStart _ => true
  | UFailPersist => if decide (c.(u_state) = cDone) then true else held
  | _ => held
  end.
(** What the sequencer may do: [asked] where it has started the craft's phase
    and that phase is open, [seen] where the craft has aired its run since. *)
Definition seq_allowed (asked seen : bool) (c : UplinkCalibrator) (q q' : CalibSequencer) (e : CommEvent) (a : SeqActions) : Prop :=
  (a.(start_downlink) = true -> asked = false /\ c.(u_state) = cDone /\ verified c.(u_p) c.(u_placements)) /\
  (a.(abort_downlink) = true -> asked = true /\ q'.(q_phase) = qFailed) /\
  (q.(q_phase) <> qDone -> q'.(q_phase) = qDone -> asked = true /\ seen = true /\ exists now, e = QTick 2 now).
Definition asked_after (asked : bool) (q' : CalibSequencer) : bool := match q'.(q_phase) with qDownlink => true | _ => false end.
Definition seen_after (seen : bool) (q' : CalibSequencer) (e : CommEvent) (a : SeqActions) : bool :=
  if a.(start_downlink) then false
  else match q'.(q_phase), e with qDownlink, QTick 1 _ => true | qDownlink, _ => seen | _, _ => false end.
Fixpoint commissioning (held asked seen : bool) (c : UplinkCalibrator) (q : CalibSequencer) (l : list CommEvent) : Prop :=
  match l with
  | [] => True
  | e :: l =>
    let '(c', q', a, s) := comm_step c q e in
    match e with
    | UTick now => u_allowed held c' a /\ (held = true -> u_due c now -> a.(ua_restore) = true)
    | _ => a = UplinkCalibActions_init
    end /\
    seq_allowed asked seen c q q' e s /\
    commissioning (takes_power held c e && negb a.(ua_restore)) (asked_after asked q') (seen_after seen q' e s) c' q' l
  end.

Definition same_sweep (p : UplinkCalibParams) (c : UplinkCalibrator) : Prop :=
  c.(u_p).(up_seek).(sp_min_qdb) = p.(up_seek).(sp_min_qdb) /\ c.(u_p).(up_seek).(sp_seek_step_qdb) = p.(up_seek).(sp_seek_step_qdb) /\
  c.(u_p).(up_seek).(sp_verify_descent_budget) = p.(up_seek).(sp_verify_descent_budget).
Lemma u_start_ok c now : u_ok c -> c.(u_state) <> cRunning -> u_ok (u_start c now).1 /\ u_holds true (u_start c now).1.
Proof.
  intros [Hb Hr Hs Hd] Hst. pose proof Hb as [B1 B2 B3 B4]. unfold u_start. rewrite decide_False by done.
  pose proof B1 as [[P1 P2 P3] [F1 F2] Hdw].
  pose proof (rung_ceiling_range (u_p c) (uo_seek _ B1)) as Hm.
  pose proof (seek_begin_at_ok (u_seek c) (rung_ceiling_qdb (u_p c)) ltac:(rewrite B2; done) ltac:(rewrite B3; done)) as Hsk.
  destruct (seek_begin_at (u_seek c) (rung_ceiling_qdb (u_p c))) as [sk st]. destruct Hsk as (S1 & -> & S3 & S4 & S5 & S6 & S7 & S8).
  cbn [ss_qdb]. set (c1 := MkUplinkCalibrator _ _ _ _ _ _ _ _ _ _ _ _ _ _ _ _ _).
  assert (Hb1 : u_base c1) by (constructor; cbn; try done; congruence).
  assert (Hr1 : u_running c1 /\ 0 + 1 + dwells_left sk <= per_run (up_seek (u_p c))).
  { assert (Hl : 0 + 1 + dwells_left sk <= per_run (up_seek (u_p c))).
    { unfold dwells_left, per_run, steps_to. rewrite S4, S3, S6, S7, S8, B2, B3, B4. destruct Hm as [Hm1 Hm2].
      replace (Z.max (sp_min_qdb (up_seek (u_p c))) (rung_ceiling_qdb (u_p c))) with (rung_ceiling_qdb (u_p c)) by lia.
      pose proof (Z.div_le_mono (rung_ceiling_qdb (u_p c) - sp_min_qdb (up_seek (u_p c)) + sp_seek_step_qdb (up_seek (u_p c)) - 1)
        (sp_max_qdb (up_seek (u_p c)) - sp_min_qdb (up_seek (u_p c)) + sp_seek_step_qdb (up_seek (u_p c)) - 1) (sp_seek_step_qdb (up_seek (u_p c)))).
      lia. }
    split; [|done]. constructor; cbn; try done; try congruence.
    - rewrite S6, B4. destruct Hm. lia.
    - lia.
    - split; [|by intros r [= <-]]. intros q [= <-]. unfold in_bounds. rewrite B4. destruct Hm. cbn. lia. }
  destruct Hr1 as [Hr1 Hl].
  destruct (u_continue_post c1 UplinkCalibActions_init now (up_dwell_probe_frames (u_p c)) Hb1 eq_refl Hr1 F1 Hl) as (U1 & _ & _); [by split_and!|].
  split; [done|]. by left.
Qed.
Lemma u_with_dwell_ok c d : u_ok c -> u_ok (with_u_dwell c d).
Proof.
  intros [[? ? ? ?] Hr Hs Hd]. constructor; cbn; [by constructor| |done|done]. intros Hst. destruct (Hr Hst). by constructor.
Qed.
Lemma u_holds_with_dwell h c d : u_holds h c -> u_holds h (with_u_dwell c d).
Proof. by destruct h. Qed.
Lemma score_params c a now loss rssi sent received b : u_p (score c a now loss rssi sent received b).1 = u_p c.
Proof.
  unfold score. destruct (on_dwell _ _ _ _) as [sk st]. destruct (ss_kind st); try done.
  destruct (sk_placed_loss _ >? _); [done|]. by destruct (up_taper_rung_ceiling _ && _ && _).
Qed.
(** The calibrator's half of an event. *)
Lemma comm_step_u p c q e held : u_ok c -> u_holds held c -> same_sweep p c -> comm_event_ok p e ->
  let '(c', q', a, s) := comm_step c q e in
  u_ok c' /\ u_holds (takes_power held c e && negb a.(ua_restore)) c' /\ same_sweep p c' /\
  match e with
  | UTick now => u_allowed held c' a /\ (held = true -> u_due c now -> a.(ua_restore) = true)
  | _ => a = UplinkCalibActions_init
  end.
Proof.
  intros Hc Hh Hsame He. assert (Hid : forall h, h && negb (ua_restore UplinkCalibActions_init) = h) by (intros []; done).
  destruct e; cbn [comm_step takes_power]; rewrite ?Hid; try done.
  - destruct (decide (u_state c = cRunning)) as [Hst|Hst].
    + unfold u_start. rewrite decide_True by done. split_and!; try done. by left.
    + destruct (u_start_ok c now_ms Hc Hst). split_and!; try done. unfold u_start. rewrite decide_False by done.
      by destruct (seek_begin_at _ _).
  - unfold u_abort. destruct (decide (u_state c = cRunning)) as [Hst|Hst]; [|done].
    destruct Hc as [Hb Hr Hs Hd]. split; [constructor; cbn; try done; by destruct Hb|]. split; [|done].
    destruct held; [by right|]. by destruct Hh.
  - unfold fail_persist. destruct (decide (u_state c = cDone)) as [Hst|Hst]; [|done].
    destruct Hc as [Hb Hr Hs Hd]. split; [constructor; cbn; try done; by destruct Hb|]. split; [by right|done].
  - unfold set_max_qdb. destruct (decide (u_state c = cRunning)) as [Hst|Hst]; [done|]. destruct Hc as [[[[P1 P2 P3] F D] B2 B3 B4] Hr Hs Hd].
    destruct Hsame as (E1 & E2 & E3). destruct He as [He1 He2]. split; [|by destruct held].
    constructor; cbn; try done. constructor; cbn; try done. constructor; cbn; try done; [constructor; cbn; try done; lia|].
    unfold per_run, steps_to. cbn. rewrite E1, E2, E3. lia.
  - unfold u_on_tally. destruct (decide _); [|done]. split; [by apply u_with_dwell_ok|]. split; [by apply u_holds_with_dwell|done].
  - split; [by apply u_with_dwell_ok|]. split; [by apply u_holds_with_dwell|done].
  - unfold u_next_probe. destruct (_ || _); [done|]. destruct (next_probe _ _). split; [by apply u_with_dwell_ok|]. split; [by apply u_holds_with_dwell|done].
  - pose proof (u_tick_post c now_ms held Hc Hh) as H. assert (Hp : (u_tick c now_ms).1.(u_p) = c.(u_p)).
    { unfold u_tick. destruct (negb (bool_decide (u_state c = cRunning))); [done|].
      destruct (to_u64 _ >? _); [done|]. destruct (bool_decide (_ = dNoEvidence)); [by rewrite score_params|].
      destruct (negb (bool_decide (_ = dDone))); [done|]. by rewrite score_params. }
    destruct (u_tick c now_ms) as [c' a]. destruct H as (H1 & H2 & H3 & H4). cbn in Hp. unfold same_sweep. by rewrite Hp.
  - destruct (q_abort q now_ms). rewrite Hid. by split_and!.
  - destruct (q_tick q (u_state c) craft_calib_state now_ms). rewrite Hid. by split_and!.
Qed.
Definition q_ok (asked seen : bool) (q : CalibSequencer) : Prop :=
  match q.(q_phase) with qDownlink => asked = true /\ q.(q_saw_running) = seen | _ => asked = false /\ seen = false end.
Lemma seq_quiet_step asked seen c q e : q_ok asked seen q -> (q.(q_phase) = qDownlink -> forall n, e <> QTick 1 n) ->
  seq_allowed asked seen c q q e SeqActions_init /\ q_ok (asked_after asked q) (seen_after seen q e SeqActions_init) q.
Proof.
  intros Hq He. split; [by split_and!|]. unfold q_ok, asked_after, seen_after in *. cbn. destruct (q_phase q); try done.
  destruct Hq as [_ Hq]. specialize (He eq_refl). destruct e; try done. destruct craft_calib_state as [|[]|]; try done. by destruct (He now_ms).
Qed.
Lemma comm_step_q c q e asked seen : u_ok c -> q_ok asked seen q ->
  let '(c', q', a, s) := comm_step c q e in
  seq_allowed asked seen c q q' e s /\ q_ok (asked_after asked q') (seen_after seen q' e s) q'.
Proof.
  intros Hc Hq. destruct e; cbn [comm_step]; try (by apply seq_quiet_step).
  - by destruct (u_tick c now_ms); apply seq_quiet_step.
  - split; [by split_and!|]. done.
  - pose proof Hq as Hp. unfold q_ok in Hp. unfold q_abort. destruct (q_phase q) eqn:Eq; try (by apply seq_quiet_step);
      (split; [split_and!; cbn; try done|done]). intros _. by destruct Hp.
  - pose proof Hq as Hp. unfold q_ok in Hp. unfold q_tick. destruct (q_phase q) eqn:Eq; try (apply seq_quiet_step; rewrite ?Eq; done).
    + destruct Hp as [-> ->]. destruct (u_state c) eqn:Eu; try (apply seq_quiet_step; rewrite ?Eq; done).
      * split; [split_and!; done|done].
      * split; [split_and!; cbn; try done|done]. intros _. split; [done|]. split; [done|]. by apply uk_done.
      * split; [split_and!; done|done].
    + destruct Hp as [-> Hs]. destruct (q_saw_running q && _) eqn:Ecap; [split; [by split_and!|done]|].
      destruct (Z.eqb_spec craft_calib_state 1) as [->|H1]; [split; [by split_and!|done]|].
      assert (Hne : forall n, QTick craft_calib_state now_ms <> QTick 1 n) by (intros n [= ? ?]; done).
      destruct (q_saw_running q) eqn:Esaw; cbn [negb].
      * destruct (Z.eqb_spec craft_calib_state 2) as [->|H2]; [split; [split_and!; cbn; try done|done]; subst seen; eauto|].
        destruct (Z.eqb_spec craft_calib_state 3) as [->|H3]; [split; [by split_and!|done]|]. by apply seq_quiet_step.
      * clear Ecap. destruct (_ >? _); [split; [by split_and!|done]|]. by apply seq_quiet_step.
Qed.
Lemma commissioning_run p l : forall held asked seen c q, u_ok c -> u_holds held c -> same_sweep p c -> q_ok asked seen q ->
  Forall (comm_event_ok p) l -> commissioning held asked seen c q l.
Proof.
  induction l as [|e l IH]; intros held asked seen c q Hc Hh Hs Hq Hl; [done|]. apply Forall_cons in Hl as [He Hl]. cbn [commissioning].
  pose proof (comm_step_u p c q e held Hc Hh Hs He) as H1. pose proof (comm_step_q c q e asked seen Hc Hq) as H2.
  destruct (comm_step c q e) as [[[c' q'] a] s]. destruct H1 as (U1 & U2 & U3 & U4). destruct H2 as [Q1 Q2].
  split; [done|]. split; [done|]. by apply IH.
Qed.

(** C22. Commissioning keeps its order and its bounds. Whatever the starts,
    aborts, tiers, tallies and ticks: the ground's calibrator acts on the
    uplink only between a start (or a failed write) and the restore, sets only
    the configured rate and powers between the floor and the ceiling, gives
    them back on the tick that ends the run or follows its abort, at the
    latest on the first past the hard cap, and offers an artifact only with
    one placement within the bounds, whose own verified loss is acceptable
    and which a wall or the ceiling above it justifies; and the sequencer asks
    for the craft's phase only while the calibrator holds such a verified
    placement, once per phase, cancels it only while it is open, and succeeds
    only if it saw the craft run and then report success. *)
Theorem commissioning_ordered p timeout cap l (Hp : uparams_ok p) (Hl : Forall (comm_event_ok p) l) :
  commissioning false false false (UplinkCalibrator_init p) (CalibSequencer_init timeout cap) l.
Proof.
  by apply (commissioning_run p).
Qed.

Definition commission_demo : list CommEvent :=
  [UMax 120; UStart 1000; QStart 1000; UTick 1010; UTally 1001 1 400 (-20000) 0 7; UProbe 1500; QTick 0 1600; UAbort; UTick 1700; QTick 0 1710].
Lemma commissioning_ordered_witness :
  uparams_ok UplinkCalibParams_init /\
  commissioning false false false (UplinkCalibrator_init UplinkCalibParams_init) (CalibSequencer_init 5000 600000) commission_demo.
Proof.
  assert (uparams_ok UplinkCalibParams_init) by (constructor; [constructor; cbn; lia|cbn; lia|vm_compute; done]).
  split; [done|]. apply commissioning_ordered; [done|]. repeat constructor; vm_compute; done.
Defined.
