(* ===== verification/Pacing.v ===== *)
(** * Pacing ([core/.../quietgap.h], [core/.../video_slot_cadence.h], [core/.../fps_ladder.h])

    The quiet gap both ends agree on, the cadence of traffic that rides in video
    slots, and the craft's ladder of frame rates; and that a scheduled return
    falls into the gap. *)
From Stdlib Require Import SpecFloat String.
From S2P Require Import Prelude Double.
Open Scope Z_scope.

(** ** Quiet gap *)
Record QuietGapPolicy : Type := MkQuietGapPolicy { qg_enabled : bool; guard_us : Z; window_us : Z; skip_backlog : Z }.
Definition QuietGapPolicy_init : QuietGapPolicy := MkQuietGapPolicy false 300 2000 32.
Record QuietGap : Type := MkQuietGap { qg_p : QuietGapPolicy; gap_start_us_ : Z; gap_end_us_ : Z }.
Definition QuietGap_init (p : QuietGapPolicy) : QuietGap := MkQuietGap p 0 0.
Definition note_eob_sent (g : QuietGap) (now_us : Z) : QuietGap :=
  if g.(qg_p).(qg_enabled) then
    let start := to_u64 (now_us + g.(qg_p).(guard_us)) in
    MkQuietGap g.(qg_p) start (to_u64 (start + g.(qg_p).(window_us)))
  else g.
Definition can_send_video (g : QuietGap) (now_us held_frames : Z) : bool :=
  if negb g.(qg_p).(qg_enabled) || (held_frames >=? g.(qg_p).(skip_backlog)) then true
  else (now_us <? g.(gap_start_us_)) || (now_us >=? g.(gap_end_us_)).
Definition return_deadline (g : QuietGap) (now_us tsfl_eob : Z) (tsf_now : option Z) : Z :=
  if negb g.(qg_p).(qg_enabled) then now_us
  else
    let target := to_u32 (g.(qg_p).(guard_us) + g.(qg_p).(window_us) / 2) in
    let elapsed := match tsf_now with Some t => to_u32 (to_u32 t - tsfl_eob) | None => 0 end in
    if elapsed >=? target then now_us else to_u64 (now_us + (target - elapsed)).

(** ** Cadence *)
Definition kU64Max : Z := 18446744073709551615.
Record VideoSlotCadence : Type := MkVideoSlotCadence { vc_period_ms : Z; vc_next_due_ms : Z }.
Definition VideoSlotCadence_init (period_ms : Z) : VideoSlotCadence := MkVideoSlotCadence period_ms 0.
Definition due (c : VideoSlotCadence) (live_video_slot : bool) (now_ms : Z) : bool := live_video_slot && (now_ms >=? c.(vc_next_due_ms)).
Definition note_submitted (c : VideoSlotCadence) (submission_count now_ms : Z) : VideoSlotCadence * bool :=
  if submission_count =? 0 then (c, false)
  else
    let room := kU64Max - now_ms in
    (MkVideoSlotCadence c.(vc_period_ms) (if c.(vc_period_ms) >? room then kU64Max else now_ms + c.(vc_period_ms)), true).

(** ** Frame-rate ladder *)
Definition kFpsLadder : list Z := [30; 45; 60; 75; 90; 100; 120; 144].
Definition snap_step (measured_us : Z) (acc : Z * Z) (fps : Z) : Z * Z :=
  let '(best, best_diff) := acc in
  let period := 1000000 / fps in
  let diff := if period >? measured_us then period - measured_us else measured_us - period in
  if diff <? best_diff then (period, diff) else acc.
Definition snap_frame_period_us (measured_us : Z) : Z :=
  if measured_us =? 0 then 0 else (fold_left (snap_step measured_us) kFpsLadder (0, kU64Max)).1.
Definition fps_ladder_member (fps : Z) : bool := existsb (Z.eqb fps) kFpsLadder.
Record FpsLadderPolicy : Type := MkFpsLadderPolicy {
  fl_min_fps : Z;
  fl_preferred_fps : Z;
  fl_min_p_frame_bytes : Z;
  fl_restore_hysteresis_bytes : Z;
  fl_sample_timeout_ms : Z;
  fl_reduce_after_ms : Z;
  fl_reduce_dwell_ms : Z;
  fl_restore_after_ms : Z;
  fl_settle_ms : Z
}.
Definition FpsLadderPolicy_init : FpsLadderPolicy := MkFpsLadderPolicy 60 100 10000 1000 500 3000 4000 8000 1500.
Record FpsLadder : Type := MkFpsLadder {
  fl_p : FpsLadderPolicy;
  fl_started : bool;
  fl_current : Z;
  fl_ewma_bytes : double;
  fl_have_sample : bool;
  fl_last_sample_ms : Z;
  fl_last_change_ms : Z;
  fl_settle_until_ms : Z;
  fl_reduce_since_ms : Z;
  fl_restore_since_ms : Z;
  fl_state : string
}.
Definition FpsLadder_init (p : FpsLadderPolicy) : FpsLadder := MkFpsLadder p false 0 (double_of 0) false 0 0 0 0 0 "INIT".
Definition note_p_frame (l : FpsLadder) (bytes now_ms : Z) : FpsLadder :=
  if bytes =? 0 then l
  else
    MkFpsLadder l.(fl_p) l.(fl_started) l.(fl_current)
      (if l.(fl_have_sample) then dadd (dmul (dlit 7 10) l.(fl_ewma_bytes)) (dmul (dlit 3 10) (double_of bytes)) else double_of bytes)
      true now_ms l.(fl_last_change_ms) l.(fl_settle_until_ms) l.(fl_reduce_since_ms) l.(fl_restore_since_ms) l.(fl_state).
(** The evidence timers and the state's name. *)
Definition fl_wait (l : FpsLadder) (reduce restore : Z) (st : string) : FpsLadder :=
  MkFpsLadder l.(fl_p) l.(fl_started) l.(fl_current) l.(fl_ewma_bytes) l.(fl_have_sample) l.(fl_last_sample_ms) l.(fl_last_change_ms)
    l.(fl_settle_until_ms) reduce restore st.
(** [step(-1)] and [step(+1)]. *)
Definition fps_step (l : FpsLadder) (up : bool) : Z :=
  match list_find (fun f => f = l.(fl_current)) kFpsLadder with
  | Some (i, _) =>
    let j := if up then Some (S i) else match i with O => None | S i => Some i end in
    match j ≫= (fun j => kFpsLadder !! j) with
    | Some f => if (f >=? l.(fl_p).(fl_min_fps)) && (f <=? l.(fl_p).(fl_preferred_fps)) then f else l.(fl_current)
    | None => l.(fl_current)
    end
  | None => l.(fl_current)
  end.
Definition fps_commit (l : FpsLadder) (fps now_ms : Z) : FpsLadder :=
  MkFpsLadder l.(fl_p) l.(fl_started) fps (double_of 0) false 0 now_ms (to_u64 (now_ms + l.(fl_p).(fl_settle_ms))) 0 0 "SETTLE".
Definition fps_reduce (l : FpsLadder) (now_ms : Z) : FpsLadder * option Z :=
  let down := fps_step l false in
  if down =? l.(fl_current) then (fl_wait l 0 0 "FLOOR", None)
  else
    let since := if l.(fl_reduce_since_ms) =? 0 then now_ms else l.(fl_reduce_since_ms) in
    let l := fl_wait l since 0 "REDUCE_WAIT" in
    if (to_u64 (now_ms - since) >=? l.(fl_p).(fl_reduce_after_ms)) && (to_u64 (now_ms - l.(fl_last_change_ms)) >=? l.(fl_p).(fl_reduce_dwell_ms))
    then (fps_commit l down now_ms, Some down) else (l, None).
Definition fps_restore (l : FpsLadder) (now_ms : Z) : FpsLadder * option Z :=
  let up := fps_step l true in
  if up =? l.(fl_current) then (fl_wait l 0 0 "HOLD", None)
  else
    let predicted_up := ddiv (dmul l.(fl_ewma_bytes) (double_of l.(fl_current))) (double_of up) in
    let restore_floor := to_u64 (l.(fl_p).(fl_min_p_frame_bytes) + l.(fl_p).(fl_restore_hysteresis_bytes)) in
    if dge predicted_up (double_of restore_floor) then
      let since := if l.(fl_restore_since_ms) =? 0 then now_ms else l.(fl_restore_since_ms) in
      let l := fl_wait l 0 since "RESTORE_WAIT" in
      if to_u64 (now_ms - since) >=? l.(fl_p).(fl_restore_after_ms) then (fps_commit l up now_ms, Some up) else (l, None)
    else (fl_wait l 0 0 "HOLD", None).
Definition fps_tick (l : FpsLadder) (now_ms : Z) (actuator_settling : bool) : FpsLadder * option Z :=
  if negb l.(fl_started) then
    (MkFpsLadder l.(fl_p) true l.(fl_p).(fl_preferred_fps) l.(fl_ewma_bytes) l.(fl_have_sample) l.(fl_last_sample_ms) now_ms
       (to_u64 (now_ms + l.(fl_p).(fl_settle_ms))) l.(fl_reduce_since_ms) l.(fl_restore_since_ms) "SETTLE", Some l.(fl_p).(fl_preferred_fps))
  else if actuator_settling then (fl_wait l 0 0 "ACTUATOR_SETTLE", None)
  else if now_ms <? l.(fl_settle_until_ms) then (fl_wait l l.(fl_reduce_since_ms) l.(fl_restore_since_ms) "SETTLE", None)
  else if negb l.(fl_have_sample) || (to_u64 (now_ms - l.(fl_last_sample_ms)) >? l.(fl_p).(fl_sample_timeout_ms))
  then (fl_wait l 0 0 "STALE", None)
  else if dlt l.(fl_ewma_bytes) (double_of l.(fl_p).(fl_min_p_frame_bytes)) then fps_reduce l now_ms
  else fps_restore l now_ms.
Definition fps_resume (l : FpsLadder) (now_ms : Z) : FpsLadder :=
  MkFpsLadder l.(fl_p) l.(fl_started) l.(fl_current) (double_of 0) false 0 l.(fl_last_change_ms) (to_u64 (now_ms + l.(fl_p).(fl_settle_ms))) 0 0 "SETTLE".
Definition note_external_fps (l : FpsLadder) (fps : Z) : FpsLadder :=
  MkFpsLadder l.(fl_p) l.(fl_started) fps l.(fl_ewma_bytes) l.(fl_have_sample) l.(fl_last_sample_ms) l.(fl_last_change_ms)
    l.(fl_settle_until_ms) l.(fl_reduce_since_ms) l.(fl_restore_since_ms) l.(fl_state).
(** [None] is a conversion the language leaves undefined. *)
Definition observed_p_frame_bytes (l : FpsLadder) : option Z :=
  if l.(fl_have_sample) then
    z ← double_trunc (dadd l.(fl_ewma_bytes) (dlit 1 2)); if (0 <=? z) && (z <=? 4294967295) then Some z else None
  else Some 0.

(** ** The return falls into the gap *)
(** C31. A return scheduled by the ground meets the quiet gap the craft opened.
    The craft opens the gap on its own clock when it sends a frame's last packet
    at [eob]; the ground, [d] microseconds of shared radio time later and on a
    clock of its own, schedules its return from the stamp on that packet. The
    return is never before now, and when it arrives, [flight] later, the craft
    is holding its video exactly when the later of [d] and the gap's middle,
    plus the flight, is still inside the gap - so a timely return with less
    flight than half the window always meets it - and a craft with a backlog
    sends regardless. The stamp may have wrapped. *)
Theorem return_meets_gap (p : QuietGapPolicy) (eob ground stamp d flight held : Z)
  (He : p.(qg_enabled) = true) (Hg : 0 <= p.(guard_us)) (Hw : 0 < p.(window_us)) (Hgw : p.(guard_us) + p.(window_us) < 4294967296)
  (Hd : 0 <= d < 4294967296) (Hs : u32 stamp) (Hf : 0 <= flight) (Heob : 0 <= eob) (Hgr : 0 <= ground)
  (H64 : eob + 2 ^ 34 + flight < 18446744073709551616) (H64' : ground + 2 ^ 34 < 18446744073709551616) :
  let target := p.(guard_us) + p.(window_us) / 2 in
  let r := return_deadline (QuietGap_init p) ground stamp (Some (stamp + d)) in
  ground <= r /\
  can_send_video (note_eob_sent (QuietGap_init p) eob) (eob + d + (r - ground) + flight) held =
    (held >=? p.(skip_backlog)) || (p.(guard_us) + p.(window_us) <=? Z.max d target + flight).
Proof.
  intros target r. assert (Ht : 0 <= p.(window_us) / 2 <= p.(window_us)) by (split; [apply Z.div_pos; lia|apply Z.div_le_upper_bound; lia]).
  assert (Er : r = ground + (Z.max d target - d)).
  { unfold r, return_deadline. cbn [QuietGap_init qg_p]. rewrite He. cbn [negb]. fold target.
    rewrite (to_u32_id target) by (unfold u32, target; lia).
    assert (El : to_u32 (to_u32 (stamp + d) - stamp) = d).
    { unfold to_u32, u32 in *. rewrite Zminus_mod_idemp_l. replace (stamp + d - stamp) with d by lia. apply Z.mod_small. lia. }
    rewrite El. rewrite Z.geb_leb. destruct (Z.leb_spec target d); [lia|]. rewrite to_u64_id by (unfold u64, target in *; lia). lia. }
  rewrite Er. split; [lia|]. unfold can_send_video, note_eob_sent. cbn [QuietGap_init qg_p]. rewrite He. cbn [qg_p gap_start_us_ gap_end_us_]. rewrite He.
  cbn [negb orb]. destruct (held >=? skip_backlog p); [reflexivity|]. cbn [orb].
  rewrite (to_u64_id (eob + guard_us p)) by (unfold u64; lia). rewrite to_u64_id by (unfold u64; lia).
  rewrite Z.geb_leb. set (m := Z.max d target). assert (target <= m) by lia.
  destruct (Z.ltb_spec (eob + d + (ground + (m - d) - ground) + flight) (eob + guard_us p)); [unfold target in *; lia|]. cbn [orb].
  destruct (Z.leb_spec (eob + guard_us p + window_us p) (eob + d + (ground + (m - d) - ground) + flight)), (Z.leb_spec (guard_us p + window_us p) (m + flight)); lia || done.
Qed.
Lemma return_meets_gap_witness :
  let p := MkQuietGapPolicy true 300 2000 32 in
  let r := return_deadline (QuietGap_init p) 900000 4294967000 (Some (4294967000 + 500)) in
  900000 <= r /\ can_send_video (note_eob_sent (QuietGap_init p) 70000) (70000 + 500 + (r - 900000) + 40) 3 = false.
Proof.
  intros p r. destruct (return_meets_gap p 70000 900000 4294967000 500 40 3) as [H1 H2]; try (unfold u32; cbn; lia).
  split; [exact H1|]. unfold r. rewrite H2. vm_compute. reflexivity.
Defined.

(** ** The frame-rate ladder *)
Inductive FpsEvent : Type :=
| FPFrame (bytes now_ms : Z)
| FTick (now_ms : Z) (actuator_settling : bool)
| FResume (now_ms : Z).
Definition fps_event (l : FpsLadder) (e : FpsEvent) : FpsLadder :=
  match e with FPFrame n now => note_p_frame l n now | FTick now s => (fps_tick l now s).1 | FResume now => fps_resume l now end.
Definition fps_run (p : FpsLadderPolicy) (l : list FpsEvent) : FpsLadder := foldl fps_event (FpsLadder_init p) l.
Definition on_ladder (p : FpsLadderPolicy) (f : Z) : Prop := f ∈ kFpsLadder /\ p.(fl_min_fps) <= f <= p.(fl_preferred_fps).
(** [f'] is the rung next to [f]. *)
Definition next_rung_of (f f' : Z) : Prop :=
  exists i, (kFpsLadder !! i = Some f /\ kFpsLadder !! S i = Some f') \/ (kFpsLadder !! i = Some f' /\ kFpsLadder !! S i = Some f).
Record fps_ok (p : FpsLadderPolicy) (l : FpsLadder) : Prop := {
  fo_p : l.(fl_p) = p;
  fo_current : l.(fl_started) = true -> on_ladder p l.(fl_current)
}.
Lemma fps_step_spec l up : l.(fl_current) ∈ kFpsLadder -> fps_step l up = l.(fl_current) \/
  (on_ladder l.(fl_p) (fps_step l up) /\ next_rung_of l.(fl_current) (fps_step l up)).
Proof.
  intros Hin. unfold fps_step. destruct (list_find _ _) as [[i f]|] eqn:E; [|by left]. apply list_find_Some in E as (Hi & -> & _).
  assert (H : forall j f, kFpsLadder !! j = Some f -> (S i = j \/ S j = i) ->
    (if (f >=? fl_min_fps (fl_p l)) && (f <=? fl_preferred_fps (fl_p l)) then f else fl_current l) = fl_current l \/
    (on_ladder (fl_p l) (if (f >=? fl_min_fps (fl_p l)) && (f <=? fl_preferred_fps (fl_p l)) then f else fl_current l) /\
     next_rung_of (fl_current l) (if (f >=? fl_min_fps (fl_p l)) && (f <=? fl_preferred_fps (fl_p l)) then f else fl_current l))).
  { intros j f Hj Hij. destruct (_ && _) eqn:Eb; [|by left]. right. apply andb_true_iff in Eb as [E1 E2]. split.
    - split; [by eapply list_elem_of_lookup_2|]. rewrite Z.geb_leb in E1. lia.
    - destruct Hij as [<- | <-]; [exists i; by left|exists j; by right]. }
  destruct up; cbn [mbind option_bind].
  - destruct (kFpsLadder !! S i) as [f|] eqn:Ej; [|by left]. apply (H (S i)); auto.
  - destruct i as [|i]; [by left|]. cbn [mbind option_bind]. destruct (kFpsLadder !! i) as [f|] eqn:Ej; [|by left]. apply (H i); auto.
Qed.
(** What a tick does to a ladder that has started. *)
Definition tick_answer (p : FpsLadderPolicy) (l : FpsLadder) (now : Z) (settling : bool) (l' : FpsLadder) (a : option Z) : Prop :=
  match a with
  | None => l'.(fl_current) = l.(fl_current)
  | Some f => l'.(fl_current) = f /\ on_ladder p f /\ l'.(fl_settle_until_ms) = to_u64 (now + p.(fl_settle_ms)) /\
      (l.(fl_started) = true -> next_rung_of l.(fl_current) f /\ settling = false /\ l.(fl_settle_until_ms) <= now /\
         to_u64 (now - l.(fl_last_sample_ms)) <= p.(fl_sample_timeout_ms) /\
         (f < l.(fl_current) -> dlt l.(fl_ewma_bytes) (double_of p.(fl_min_p_frame_bytes)) = true)) /\
      (l.(fl_started) = false -> f = p.(fl_preferred_fps))
  end.
Lemma ladder_ascends i a b : kFpsLadder !! i = Some a -> kFpsLadder !! S i = Some b -> a < b.
Proof. intros Ha Hb. do 8 (destruct i as [|i]; [injection Ha as <-; try (injection Hb as <-; lia); done|]). done. Qed.
Lemma fps_step_up l : l.(fl_current) <= fps_step l true.
Proof.
  unfold fps_step. destruct (list_find _ _) as [[i f]|] eqn:E; [|lia]. apply list_find_Some in E as (Hi & -> & _). cbn [mbind option_bind].
  destruct (kFpsLadder !! S i) as [f|] eqn:Ej; [|lia]. pose proof (ladder_ascends i _ _ Hi Ej). destruct (_ && _); lia.
Qed.
Lemma commit_answer p l f now st : l.(fl_p) = p -> fps_ok p l -> l.(fl_current) ∈ kFpsLadder -> (f = fps_step l st) -> f <> l.(fl_current) ->
  fps_ok p (fps_commit l f now) /\ on_ladder p f /\ next_rung_of l.(fl_current) f.
Proof.
  intros Ep Hl Hin -> Hne. destruct (fps_step_spec l st Hin) as [?|[H1 H2]]; [done|]. rewrite Ep in H1. split; [|done]. by constructor.
Qed.
Lemma fps_tick_answer p l now settling : on_ladder p p.(fl_preferred_fps) -> fps_ok p l ->
  fps_ok p (fps_tick l now settling).1 /\ tick_answer p l now settling (fps_tick l now settling).1 (fps_tick l now settling).2.
Proof.
  intros Hpre Hl. pose proof Hl as [Ep Hc]. unfold fps_tick. destruct (fl_started l) eqn:Es; cbn [negb].
  2: { split; [constructor; cbn; [done|by rewrite Ep]|]. cbn. rewrite Ep. split_and!; try done. intros ?. congruence. }
  specialize (Hc eq_refl). assert (Hw : forall a b st, fps_ok p (fl_wait l a b st)) by (intros; by constructor).
  destruct settling; [by split|]. destruct (Z.ltb_spec now (fl_settle_until_ms l)) as [|Hnow]; [by split|].
  rewrite Z.gtb_ltb. destruct (Z.ltb_spec (fl_sample_timeout_ms (fl_p l)) (to_u64 (now - fl_last_sample_ms l))) as [|Hfr]; [rewrite orb_true_r; by split|].
  rewrite orb_false_r. destruct (fl_have_sample l); cbn [negb]; [|by split]. rewrite Ep in Hfr. destruct Hc as [Hin Hrange].
  assert (Hcommit : forall up a b st, fps_step l up <> fl_current l -> (fps_step l up < fl_current l -> dlt l.(fl_ewma_bytes) (double_of p.(fl_min_p_frame_bytes)) = true) ->
    fps_ok p (fps_commit (fl_wait l a b st) (fps_step l up) now) /\
    tick_answer p l now false (fps_commit (fl_wait l a b st) (fps_step l up) now) (Some (fps_step l up))).
  { intros up a b st Hne Hd. destruct (fps_step_spec l up Hin) as [?|[H1 H2]]; [done|]. rewrite Ep in H1. split; [by constructor|].
    cbn. rewrite Ep. split_and!; try done. rewrite Es. done. }
  destruct (dlt (fl_ewma_bytes l) (double_of (fl_min_p_frame_bytes (fl_p l)))) eqn:Ed.
  - unfold fps_reduce. cbv zeta. destruct (Z.eqb_spec (fps_step l false) (fl_current l)); [by split|].
    match goal with |- context [fl_wait l ?a ?b ?c] => set (l1 := fl_wait l a b c) end.
    destruct (_ && _); [|by split]. apply Hcommit; [done|]. intros _. by rewrite Ep in Ed.
  - unfold fps_restore. cbv zeta. destruct (Z.eqb_spec (fps_step l true) (fl_current l)); [by split|]. destruct (dge _ _); [|by split].
    match goal with |- context [fl_wait l ?a ?b ?c] => set (l1 := fl_wait l a b c) end.
    destruct (_ >=? _); [|by split]. apply Hcommit; [done|]. pose proof (fps_step_up l). lia.
Qed.
Lemma fps_event_ok p l e : on_ladder p p.(fl_preferred_fps) -> fps_ok p l -> fps_ok p (fps_event l e).
Proof.
  intros Hp Hl. destruct e as [n now|now s|now]; cbn [fps_event]; [|by apply fps_tick_answer|by destruct Hl].
  unfold note_p_frame. destruct (n =? 0); [done|]. by destruct Hl.
Qed.
(** C32. The frame rate moves one rung at a time, on evidence, within its bounds.
    After any frames, ticks and resumes at any times, a tick either keeps the
    frame rate or asks one that is on the ladder between the minimum and the
    preferred rate: the preferred rate at the first tick; then a rung next to
    the present one, and only when neither the encoder nor the last change is
    still settling and a frame was sampled within the timeout, and lower only
    while the smoothed size of base frames is below the policy's minimum; and a
    change starts a new settling time. *)
Theorem fps_ladder_steps (p : FpsLadderPolicy) (l : list FpsEvent) (now : Z) (settling : bool)
  (Hp : on_ladder p p.(fl_preferred_fps)) :
  tick_answer p (fps_run p l) now settling (fps_tick (fps_run p l) now settling).1 (fps_tick (fps_run p l) now settling).2.
Proof.
  apply fps_tick_answer; [done|]. unfold fps_run. assert (H : fps_ok p (FpsLadder_init p)) by done. revert H. generalize (FpsLadder_init p).
  induction l as [|e l IH]; intros s Hs; [done|]. cbn. by apply IH, fps_event_ok.
Qed.
Lemma fps_ladder_steps_witness :
  let p := FpsLadderPolicy_init in
  let l := fps_run p ([FTick 0 false; FPFrame 4000 1600; FTick 1700 false] ++ flat_map (fun i => [FPFrame 4000 (1700 + 400 * i)]) (seqZ 1 10)) in
  (fps_tick l 5800 false).2 = Some 90 /\ tick_answer p l 5800 false (fps_tick l 5800 false).1 (fps_tick l 5800 false).2.
Proof.
  intros p l. split; [vm_compute; reflexivity|]. apply fps_ladder_steps. split; [|cbn; lia]. unfold kFpsLadder. cbn. repeat constructor.
Defined.
