(* ===== verification/Jscc.v ===== *)
(** * Protection of one frame ([core/.../jscc_controller], [core/.../jscc_runtime_shadow])

    The decision on a frame's parity and deadline, and the shadow that feeds it
    the ground's last feedback. *)
From S2P Require Import Prelude Types Wire.

Inductive JsccReason : Type := kDeadlineUnreachable | kFecCapacityLimited | kFecOnly | kUnprotected.
Record JsccInnerInput : Type := MkJsccInnerInput {
  in_source_k : Z;
  predicted_loss_symbols : Z;
  fec_floor_symbols : Z;
  fec_cap_symbols : Z;
  in_deadline_us : Z;
  elapsed_us : Z;
  in_source_tx_remaining_us : Z
}.
Definition JsccInnerInput_init : JsccInnerInput := MkJsccInnerInput 0 0 0 0 0 0 0.
Record JsccInnerDecision : Type := MkJsccInnerDecision {
  parity_symbols : Z;
  remaining_after_source_us : Z;
  discard : bool;
  fec_capacity_limited : bool;
  reason : JsccReason
}.
Definition JsccInnerDecision_init : JsccInnerDecision := MkJsccInnerDecision 0 0 false false kUnprotected.
Definition jscc_inner_decide (i : JsccInnerInput) : JsccInnerDecision :=
  let source_done := to_u64 (i.(elapsed_us) + i.(in_source_tx_remaining_us)) in
  if source_done >? i.(in_deadline_us) then MkJsccInnerDecision 0 0 true false kDeadlineUnreachable
  else
    let desired := Z.max i.(predicted_loss_symbols) i.(fec_floor_symbols) in
    let gf_cap := if i.(in_source_k) <=? kFecMaxSymbols then to_u16 (kFecMaxSymbols - i.(in_source_k)) else 0 in
    let cap := Z.min i.(fec_cap_symbols) gf_cap in
    let parity := Z.min desired cap in
    MkJsccInnerDecision parity (to_u32 (i.(in_deadline_us) - source_done)) false (desired >? cap)
      (if desired >? cap then kFecCapacityLimited else if parity >? 0 then kFecOnly else kUnprotected).

(** ** The shadow *)
Definition jscc_feedback_flags_kRepairReady : Z := 0x01.
Record JsccRuntimeShadowConfig : Type := MkJsccRuntimeShadowConfig {
  fec_floor_permille : Z;
  fec_cap_permille : Z;
  feedback_timeout_ms : Z
}.
Inductive JsccShadowFallback : Type :=
| fNone | kFeedbackMissing | kFeedbackStale | kRepairNotReady | kAirtimeUnavailable | kDeadlineUnavailable.
Record JsccShadowFrameInput : Type := MkJsccShadowFrameInput {
  fi_source_k : Z;
  fi_deadline_us : Z;
  fi_source_tx_remaining_us : option Z;
  fi_now_ms : Z
}.
Record JsccShadowResult : Type := MkJsccShadowResult {
  js_valid : bool;
  js_fallback : JsccShadowFallback;
  js_feedback_epoch : Z;
  js_feedback_age_ms : Z;
  js_input : JsccInnerInput;
  js_decision : JsccInnerDecision
}.
Definition JsccShadowResult_init : JsccShadowResult := MkJsccShadowResult false kFeedbackMissing 0 0 JsccInnerInput_init JsccInnerDecision_init.
Record JsccRuntimeShadow : Type := MkJsccRuntimeShadow {
  jr_cfg : JsccRuntimeShadowConfig;
  feedback_ : option JsccFeedback;
  feedback_at_ms_ : Z
}.
Definition JsccRuntimeShadow_init (cfg : JsccRuntimeShadowConfig) : JsccRuntimeShadow := MkJsccRuntimeShadow cfg None 0.
Definition forward_u32 (next previous : Z) : bool := to_i32 (next - previous) >? 0.
Definition rate_symbols (rate k : Z) : Z := Z.min 65535 (to_u32 (rate * k + 999) / 1000).
Definition observe_feedback (s : JsccRuntimeShadow) (f : JsccFeedback) (now_ms : Z) : JsccRuntimeShadow * bool :=
  let stale := match s.(feedback_) with
               | Some g => (f.(jf_prefix).(originator) =? g.(jf_prefix).(originator)) &&
                           (f.(jf_prefix).(session_id) =? g.(jf_prefix).(session_id)) &&
                           negb (forward_u32 f.(jf_feedback_epoch) g.(jf_feedback_epoch))
               | None => false
               end in
  if stale then (s, false) else (MkJsccRuntimeShadow s.(jr_cfg) (Some f) now_ms, true).
Definition evaluate (s : JsccRuntimeShadow) (frame : JsccShadowFrameInput) : JsccShadowResult :=
  match s.(feedback_) with
  | None => JsccShadowResult_init
  | Some f =>
    let age := Z.min 4294967295 (if frame.(fi_now_ms) >=? s.(feedback_at_ms_) then frame.(fi_now_ms) - s.(feedback_at_ms_) else 0) in
    let fall r := MkJsccShadowResult false r f.(jf_feedback_epoch) age JsccInnerInput_init JsccInnerDecision_init in
    if (frame.(fi_now_ms) <? s.(feedback_at_ms_)) || (age >? s.(jr_cfg).(feedback_timeout_ms)) then fall kFeedbackStale
    else if Z.land f.(jf_valid_flags) jscc_feedback_flags_kRepairReady =? 0 then fall kRepairNotReady
    else match frame.(fi_source_tx_remaining_us) with
    | None => fall kAirtimeUnavailable
    | Some tx =>
      if frame.(fi_deadline_us) =? 0 then fall kDeadlineUnavailable
      else
        let i := MkJsccInnerInput frame.(fi_source_k) (rate_symbols f.(jf_repair_demand_permille) frame.(fi_source_k))
                   (rate_symbols s.(jr_cfg).(fec_floor_permille) frame.(fi_source_k)) (rate_symbols s.(jr_cfg).(fec_cap_permille) frame.(fi_source_k))
                   frame.(fi_deadline_us) 0 tx in
        MkJsccShadowResult true fNone f.(jf_feedback_epoch) age i (jscc_inner_decide i)
    end
  end.
Definition shadow_reset (s : JsccRuntimeShadow) : JsccRuntimeShadow := MkJsccRuntimeShadow s.(jr_cfg) None 0.
