(* ===== verification/TxPower.v ===== *)
(** * The craft's transmit power ([node/include/wblink/node/tx_core.h])

    Who owns the power of every TX adapter: the boot offset, the curve resolved
    at the committed rate, the power tier that bounds it, and the operator's
    latch that overrides it.  Hooks into the radio are effects, in order; the
    radio's answer to a power write is the environment's. *)
From S2P Require Import Prelude Types Double Dwell Calibrate.

(** ** Effects and the environment *)
Inductive Effect : Type :=
| EInject (frame : list Z)
| ESendCalib (frame : list Z)
| EApplyMode (mcs : Z) (sgi : bool)
| EApplyProbe (period slot mcs : Z)
| EApplyPower (idx qdb : Z)
| EApplyPowerOffset (idx qdb : Z)
| EVencPoll
| EVencSetBitrate (kbps : Z)
| EVencSetFps (fps : Z)
| EVencRequestIdr.
(** Which hooks are set, and what they answer: the radio to a power write after
    the effects so far, the backend's estimate of airtime for bytes and packet
    budget, the fingerprint the artifact store writes (0: it failed), whether
    the encoder is settling. *)
Record TxEnv : Type := MkTxEnv {
  has_apply_mode : bool;
  has_apply_probe : bool;
  has_apply_power : bool;
  has_apply_power_offset : bool;
  has_send_calib : bool;
  radio_takes : list Effect -> Effect -> bool;
  estimate_airtime : option (Z -> Z -> option Z);
  on_calib_artifact : option (CalibArtifact -> Z);
  venc_settling : bool
}.

Record PowerAdapter : Type := MkPowerAdapter {
  pa_adapter_idx : Z;
  pa_curve : PowerCurve;
  pa_ceiling : option Z;
  pa_presets_qdb : list Z;
  pa_offset_presets_qdb : list Z;
  pa_offset_max_qdb : Z;
  pa_applied_qdb : option Z
}.
Record PowerTarget : Type := MkPowerTarget {
  pt_adapter_idx : Z;
  pt_ceiling : option Z;
  pt_presets_qdb : list Z;
  pt_offset_presets_qdb : list Z;
  pt_offset_qdb : Z;
  pt_offset_max_qdb : Z
}.
Record TxPower : Type := MkTxPower {
  power_ : list PowerAdapter;
  power_targets_ : list PowerTarget;
  power_tier_ : Z;
  power_override_ : option Z;
  backend_relative_ : bool;
  power_actuator_ : bool;
  curve_is_offset_space_ : bool;
  warned_curve_refused_ : bool;
  last_commit_mcs_ : option Z;
  last_commit_level_ : Z
}.
Definition with_power (p : TxPower) (l : list PowerAdapter) : TxPower :=
  MkTxPower l p.(power_targets_) p.(power_tier_) p.(power_override_) p.(backend_relative_) p.(power_actuator_)
    p.(curve_is_offset_space_) p.(warned_curve_refused_) p.(last_commit_mcs_) p.(last_commit_level_).
Definition with_override (p : TxPower) (o : option Z) : TxPower :=
  MkTxPower p.(power_) p.(power_targets_) p.(power_tier_) o p.(backend_relative_) p.(power_actuator_)
    p.(curve_is_offset_space_) p.(warned_curve_refused_) p.(last_commit_mcs_) p.(last_commit_level_).
Definition with_commit (p : TxPower) (mcs level : Z) : TxPower :=
  MkTxPower p.(power_) p.(power_targets_) p.(power_tier_) p.(power_override_) p.(backend_relative_) p.(power_actuator_)
    p.(curve_is_offset_space_) p.(warned_curve_refused_) (Some mcs) level.
Definition with_warned (p : TxPower) : TxPower :=
  MkTxPower p.(power_) p.(power_targets_) p.(power_tier_) p.(power_override_) p.(backend_relative_) p.(power_actuator_)
    p.(curve_is_offset_space_) true p.(last_commit_mcs_) p.(last_commit_level_).
Definition with_applied (pa : PowerAdapter) (q : option Z) : PowerAdapter :=
  MkPowerAdapter pa.(pa_adapter_idx) pa.(pa_curve) pa.(pa_ceiling) pa.(pa_presets_qdb) pa.(pa_offset_presets_qdb) pa.(pa_offset_max_qdb) q.

(** ** Construction *)
Definition TxPower_init (power : list PowerAdapter) (targets : list PowerTarget) : TxPower :=
  MkTxPower power targets (-1) None false true false false None 4.
Definition set_power_actuator (p : TxPower) (ok : bool) : TxPower :=
  MkTxPower p.(power_) p.(power_targets_) p.(power_tier_) p.(power_override_) p.(backend_relative_) ok
    p.(curve_is_offset_space_) p.(warned_curve_refused_) p.(last_commit_mcs_) p.(last_commit_level_).
Definition set_backend_relative (p : TxPower) (on : bool) : TxPower :=
  let power := if on then map (fun pa => MkPowerAdapter pa.(pa_adapter_idx) pa.(pa_curve) (Some pa.(pa_offset_max_qdb)) pa.(pa_offset_presets_qdb) []
                                           pa.(pa_offset_max_qdb) pa.(pa_applied_qdb)) p.(power_) else p.(power_) in
  let targets := if on then map (fun t => MkPowerTarget t.(pt_adapter_idx) (Some t.(pt_offset_max_qdb)) t.(pt_offset_presets_qdb) []
                                            t.(pt_offset_qdb) t.(pt_offset_max_qdb)) p.(power_targets_) else p.(power_targets_) in
  MkTxPower power targets p.(power_tier_) p.(power_override_) on p.(power_actuator_)
    p.(curve_is_offset_space_) p.(warned_curve_refused_) p.(last_commit_mcs_) p.(last_commit_level_).
Definition install_curve (p : TxPower) (c : PowerCurve) : TxPower :=
  MkTxPower (map (fun t => MkPowerAdapter t.(pt_adapter_idx) c t.(pt_ceiling) t.(pt_presets_qdb) [] t.(pt_offset_max_qdb) None) p.(power_targets_))
    p.(power_targets_) p.(power_tier_) p.(power_override_) p.(backend_relative_) p.(power_actuator_)
    p.(backend_relative_) p.(warned_curve_refused_) p.(last_commit_mcs_) p.(last_commit_level_).
Definition has_power_curve (p : TxPower) : bool := match p.(power_) with [] => false | _ => true end.
Definition curve_actuates (p : TxPower) : bool := has_power_curve p && (negb p.(backend_relative_) || p.(curve_is_offset_space_)).
Definition offset_window (p : TxPower) : option (Z * Z) :=
  match p.(power_targets_) with
  | [] => None
  | t :: l =>
    if negb p.(backend_relative_) then None
    else
      let lo := fold_left (fun lo t => Z.min lo t.(pt_offset_qdb)) (t :: l) t.(pt_offset_qdb) in
      let hi := fold_left (fun hi t => Z.min hi t.(pt_offset_max_qdb)) (t :: l) t.(pt_offset_max_qdb) in
      if hi <=? lo then None else Some (lo, hi)
  end.
Definition tiered_target (p : TxPower) : option PowerTarget :=
  find (fun t => match t.(pt_presets_qdb) with [] => false | _ => true end) p.(power_targets_).
Definition power_tier_ceiling (p : TxPower) : option Z :=
  match tiered_target p with
  | Some t => t.(pt_ceiling)
  | None => foldr (fun t acc => match t.(pt_ceiling) with Some c => Some c | None => acc end) None p.(power_targets_)
  end.

(** ** Actuation *)
Section Actuation.
Context (e : TxEnv).

Definition command (log : list Effect) (c : Effect) : list Effect * bool := (log ++ [c], e.(radio_takes) log c).
(** A loop over the adapters. *)
Fixpoint each {A : Type} (f : list Effect -> A -> list Effect * A) (log : list Effect) (l : list A) : list Effect * list A :=
  match l with
  | [] => (log, [])
  | x :: l => let '(log, x) := f log x in let '(log, l) := each f log l in (log, x :: l)
  end.
Definition resolve_one (rel : bool) (mcs level : Z) (log : list Effect) (pa : PowerAdapter) : list Effect * PowerAdapter :=
  match resolve_power_qdb pa.(pa_curve) mcs level pa.(pa_ceiling) with
  | Some q =>
    if decide (pa.(pa_applied_qdb) = Some q) then (log, pa)
    else
      let '(log, ok) := if rel && e.(has_apply_power_offset) then command log (EApplyPowerOffset pa.(pa_adapter_idx) q)
                        else if negb rel && e.(has_apply_power) then command log (EApplyPower pa.(pa_adapter_idx) q)
                        else (log, true) in
      (log, if ok : bool then with_applied pa (Some q) else pa)
  | None => (log, pa)
  end.
Definition resolve_and_apply_power (p : TxPower) (log : list Effect) (mcs level : Z) : TxPower * list Effect :=
  if has_power_curve p && negb (curve_actuates p) then (with_warned p, log)
  else let '(log, l) := each (resolve_one p.(backend_relative_) mcs level) log p.(power_) in (with_power p l, log).
Definition latch_step (qdb : Z) (acc : list Effect * bool) (t : PowerTarget) : list Effect * bool :=
  let '(log, all_ok) := acc in
  let hw := match t.(pt_ceiling) with Some c => Z.min qdb c | None => qdb end in
  if e.(has_apply_power_offset) then let '(log, ok) := command log (EApplyPowerOffset t.(pt_adapter_idx) hw) in (log, ok && all_ok)
  else (log, all_ok).
Definition set_power_override (p : TxPower) (log : list Effect) (qdb : Z) : TxPower * list Effect * bool :=
  if existsb (fun t => qdb >? t.(pt_offset_max_qdb)) p.(power_targets_) then (p, log, false)
  else match p.(power_targets_) with
  | [] => (p, log, false)
  | l =>
    let '(log, all_ok) := fold_left (latch_step qdb) l (log, true) in
    if all_ok : bool then (with_override p (Some qdb), log, true) else (p, log, false)
  end.
(** [apply_boot_power_offsets], and the same loop where the latch is released
    and where a calibration has no curve to fall back on. *)
Definition apply_boot_power_offsets (p : TxPower) (log : list Effect) : list Effect :=
  if e.(has_apply_power_offset)
  then fold_left (fun log t => (command log (EApplyPowerOffset t.(pt_adapter_idx) t.(pt_offset_qdb))).1) p.(power_targets_) log else log.
Definition forget_applied (p : TxPower) : TxPower := with_power p (map (fun pa => with_applied pa None) p.(power_)).
Definition resolve_committed (p : TxPower) (log : list Effect) : TxPower * list Effect :=
  match p.(last_commit_mcs_) with Some m => resolve_and_apply_power p log m p.(last_commit_level_) | None => (p, log) end.
Definition clear_power_override (p : TxPower) (log : list Effect) : TxPower * list Effect :=
  let p := with_override p None in
  resolve_committed (forget_applied p) (apply_boot_power_offsets p log).
Definition reassert_one (log : list Effect) (pa : PowerAdapter) : list Effect * PowerAdapter :=
  match pa.(pa_applied_qdb) with
  | Some q => if e.(has_apply_power) then let '(log, ok) := command log (EApplyPower pa.(pa_adapter_idx) q) in
                                         (log, if ok : bool then pa else with_applied pa None)
              else (log, pa)
  | None => (log, pa)
  end.
Definition reassert_power (p : TxPower) (log : list Effect) : TxPower * list Effect :=
  match p.(power_override_) with
  | Some q => (set_power_override p log q).1
  | None =>
    let any_curve := existsb (fun pa => bool_decide (is_Some pa.(pa_applied_qdb)) && e.(has_apply_power)) p.(power_) in
    let '(log, l) := each reassert_one log p.(power_) in
    let p := with_power p l in
    (p, if any_curve then log else apply_boot_power_offsets p log)
  end.

(** ** The tier: checked on every adapter, then the ceilings *)
Definition tier_accepted (p : TxPower) (tier : Z) : bool :=
  existsb (fun t => 0 <? len t.(pt_presets_qdb)) p.(power_targets_) &&
  forallb (fun t => (len t.(pt_presets_qdb) =? 0) || (tier <? len t.(pt_presets_qdb))) p.(power_targets_).
Definition tier_adapter (tier : Z) (pa : PowerAdapter) : option PowerAdapter :=
  if tier >=? len pa.(pa_presets_qdb) then Some pa
  else
    c ← pa.(pa_presets_qdb) !! Z.to_nat tier;
    Some (MkPowerAdapter pa.(pa_adapter_idx) pa.(pa_curve) (Some c) pa.(pa_presets_qdb) pa.(pa_offset_presets_qdb) pa.(pa_offset_max_qdb) None).
Definition tier_target (tier : Z) (t : PowerTarget) : option PowerTarget :=
  if tier >=? len t.(pt_presets_qdb) then Some t
  else
    c ← t.(pt_presets_qdb) !! Z.to_nat tier;
    Some (MkPowerTarget t.(pt_adapter_idx) (Some c) t.(pt_presets_qdb) t.(pt_offset_presets_qdb) t.(pt_offset_qdb) t.(pt_offset_max_qdb)).
Definition tier_ceilings (p : TxPower) (tier : Z) : option TxPower :=
  l ← mapM (tier_adapter tier) p.(power_);
  ts ← mapM (tier_target tier) p.(power_targets_);
  Some (MkTxPower l ts tier p.(power_override_) p.(backend_relative_) p.(power_actuator_) p.(curve_is_offset_space_)
          p.(warned_curve_refused_) p.(last_commit_mcs_) p.(last_commit_level_)).
(** The end of [set_power_tier]: the latch, or the curve, at the new ceiling. *)
Definition tier_apply (p : TxPower) (log : list Effect) : TxPower * list Effect :=
  match p.(power_override_) with
  | Some q => (set_power_override p log q).1
  | None => resolve_committed p log
  end.

(** ** What a calibration does to the power *)
Definition restore_power (p : TxPower) (log : list Effect) : TxPower * list Effect :=
  match p.(power_override_) with
  | Some q => (set_power_override p log q).1
  | None => if curve_actuates p then resolve_committed p log else (p, apply_boot_power_offsets p log)
  end.
Definition probe_step (rel : bool) (q : Z) (log : list Effect) (t : PowerTarget) : list Effect :=
  if rel then
    if e.(has_apply_power_offset) then (command log (EApplyPowerOffset t.(pt_adapter_idx) (Z.min q t.(pt_offset_max_qdb)))).1 else log
  else
    if e.(has_apply_power)
    then (command log (EApplyPower t.(pt_adapter_idx) (match t.(pt_ceiling) with Some c => Z.min q c | None => q end))).1 else log.
Definition probe_power (p : TxPower) (log : list Effect) (q : Z) : list Effect :=
  fold_left (probe_step p.(backend_relative_) q) p.(power_targets_) log.
End Actuation.
