(* ===== verification/TxPowerProps.v ===== *)
(** * The bound and the owner of the craft's power: lemmas

    On a relative backend every power write is within the bound of its adapter;
    and where the radio takes every write, the adapter holds what the present
    owner of the power asks for. *)
From S2P Require Import Prelude Types Double Dwell Calibrate TxPower.

(** ** The bound *)
(** Adapters and their bounds. *)
Definition bounds (p : TxPower) : list (Z * Z) := map (fun t => (t.(pt_adapter_idx), t.(pt_offset_max_qdb))) p.(power_targets_).
Definition bounded_by (b : list (Z * Z)) (c : Effect) : Prop :=
  match c with EApplyPower i q | EApplyPowerOffset i q => exists m, (i, m) ∈ b /\ q <= m | _ => True end.
Record target_ok (t : PowerTarget) : Prop := {
  to_offset : t.(pt_offset_qdb) <= t.(pt_offset_max_qdb);
  to_ceiling : exists c, t.(pt_ceiling) = Some c /\ c <= t.(pt_offset_max_qdb);
  to_presets : Forall (fun q => q <= t.(pt_offset_max_qdb)) t.(pt_presets_qdb)
}.
Record adapter_ok (b : list (Z * Z)) (pa : PowerAdapter) : Prop := {
  ao_bound : exists m, (pa.(pa_adapter_idx), m) ∈ b /\ (exists c, pa.(pa_ceiling) = Some c /\ c <= m) /\
    Forall (fun q => q <= m) pa.(pa_presets_qdb) /\ (forall q, pa.(pa_applied_qdb) = Some q -> q <= m)
}.
Record power_ok (b : list (Z * Z)) (p : TxPower) : Prop := {
  po_relative : p.(backend_relative_) = true;
  po_bounds : bounds p = b;
  po_targets : Forall target_ok p.(power_targets_);
  po_adapters : Forall (adapter_ok b) p.(power_)
}.

Lemma target_bound b p t : power_ok b p -> t ∈ p.(power_targets_) -> target_ok t /\ (t.(pt_adapter_idx), t.(pt_offset_max_qdb)) ∈ b.
Proof.
  intros [H1 H2 H3 H4] Ht. split; [by eapply Forall_forall|]. rewrite <- H2. unfold bounds. apply list_elem_of_fmap. by exists t.
Qed.
Lemma adapter_forget b pa : adapter_ok b pa -> adapter_ok b (with_applied pa None).
Proof. intros [(m & H1 & H2 & H3 & H4)]. constructor. by exists m. Qed.

Section Bound.
Context (e : TxEnv) (b : list (Z * Z)).
Local Abbreviation fine := (Forall (bounded_by b)).

Lemma command_fine log c : fine log -> bounded_by b c -> fine (command e log c).1.
Proof. intros Hl Hc. unfold command. cbn. apply Forall_app. split; [done|by constructor]. Qed.
Lemma each_fine {A} (P : A -> Prop) f (l : list A) : forall log,
  (forall log x, fine log -> P x -> fine (f log x).1 /\ P (f log x).2) -> fine log -> Forall P l ->
  fine (each f log l).1 /\ Forall P (each f log l).2.
Proof.
  induction l as [|x l IH]; intros log Hf Hl HP; [by split|]. apply Forall_cons in HP as [Hx HP]. cbn [each].
  destruct (Hf log x Hl Hx) as [F1 F2]. destruct (f log x) as [log1 x1]. destruct (IH log1 Hf F1 HP) as [G1 G2].
  destruct (each f log1 l) as [log2 l2]. split; [done|by constructor].
Qed.
Lemma fold_fine {A} (P : A -> Prop) f (l : list A) : forall log,
  (forall log x, fine log -> P x -> fine (f log x)) -> fine log -> Forall P l -> fine (fold_left f l log).
Proof.
  induction l as [|x l IH]; intros log Hf Hl HP; [done|]. apply Forall_cons in HP as [Hx HP]. cbn. apply IH; [done| |done]. by apply Hf.
Qed.

Lemma resolve_bound c mcs level m q : resolve_power_qdb c mcs level (Some m) = Some q -> q <= m.
Proof. unfold resolve_power_qdb. destruct (_ || _); [done|]. destruct (_ !! _); simpl; [|done]. intros [= <-]. lia. Qed.
Lemma resolve_one_fine rel mcs level log pa : fine log -> adapter_ok b pa ->
  fine (resolve_one e rel mcs level log pa).1 /\ adapter_ok b (resolve_one e rel mcs level log pa).2.
Proof.
  intros Hl Ha. pose proof Ha as [(m & H1 & (c & Hc & Hcm) & H3 & H4)]. unfold resolve_one. rewrite Hc.
  destruct (resolve_power_qdb _ _ _ _) as [q|] eqn:Eq; [|done]. apply resolve_bound in Eq. destruct (decide _); [done|].
  assert (Hb : forall x, x = EApplyPower (pa_adapter_idx pa) q \/ x = EApplyPowerOffset (pa_adapter_idx pa) q -> bounded_by b x).
  { intros x [-> | ->]; exists m; split; [done|lia|done|lia]. }
  assert (Hok : adapter_ok b (with_applied pa (Some q))) by (constructor; exists m; split_and!; cbn; [done|by exists c|done|intros ? [= <-]; lia]).
  assert (Hdone : forall l' (ok : bool), fine l' -> fine (l', if ok then with_applied pa (Some q) else pa).1 /\
            adapter_ok b (l', if ok then with_applied pa (Some q) else pa).2) by (intros l' []; done).
  destruct (rel && _); [|destruct (negb rel && _)]; [| |by apply (Hdone log true)];
    match goal with |- context [command e log ?x] => pose proof (command_fine log x Hl (Hb _ ltac:(auto))); destruct (command e log x) end; by apply Hdone.
Qed.
Lemma resolve_fine p log mcs level : power_ok b p -> fine log ->
  fine (resolve_and_apply_power e p log mcs level).2 /\ power_ok b (resolve_and_apply_power e p log mcs level).1.
Proof.
  intros [H1 H2 H3 H4] Hl. unfold resolve_and_apply_power. destruct (_ && _); [by split|].
  pose proof (each_fine (adapter_ok b) (resolve_one e (backend_relative_ p) mcs level) (power_ p) log
    (fun log x => resolve_one_fine _ mcs level log x) Hl H4) as [G1 G2].
  destruct (each _ _ _). by split.
Qed.
Lemma resolve_committed_fine p log : power_ok b p -> fine log -> fine (resolve_committed e p log).2 /\ power_ok b (resolve_committed e p log).1.
Proof. intros Hp Hl. unfold resolve_committed. destruct (last_commit_mcs_ p); [by apply resolve_fine|done]. Qed.
Lemma latch_step_fine q log ok t : fine log -> target_ok t /\ (t.(pt_adapter_idx), t.(pt_offset_max_qdb)) ∈ b -> q <= t.(pt_offset_max_qdb) ->
  fine (latch_step e q (log, ok) t).1.
Proof.
  intros Hl [[_ (c & Hc & Hcm) _] Hb] Hq. unfold latch_step. rewrite Hc. destruct (has_apply_power_offset e); [|done].
  pose proof (command_fine log (EApplyPowerOffset (pt_adapter_idx t) (Z.min q c)) Hl) as H. destruct (command _ _ _). apply H.
  exists (pt_offset_max_qdb t). split; [done|lia].
Qed.
Lemma latch_fold_fine q l : forall acc, fine acc.1 ->
  Forall (fun t => (target_ok t /\ (t.(pt_adapter_idx), t.(pt_offset_max_qdb)) ∈ b) /\ q <= t.(pt_offset_max_qdb)) l ->
  fine (fold_left (latch_step e q) l acc).1.
Proof.
  induction l as [|t l IH]; intros [log ok] Hl HP; [done|]. apply Forall_cons in HP as [[Ht Hq] HP]. cbn [fold_left].
  apply IH; [|done]. by apply latch_step_fine.
Qed.
Lemma with_override_ok p o : power_ok b p -> power_ok b (with_override p o).
Proof. by intros [H1 H2 H3 H4]. Qed.
Lemma override_fine p log q : power_ok b p -> fine log ->
  fine (set_power_override e p log q).1.2 /\ power_ok b (set_power_override e p log q).1.1.
Proof.
  intros Hp Hl. unfold set_power_override. destruct (existsb _ _) eqn:Ex; [done|].
  destruct (power_targets_ p) as [|t0 l0] eqn:Et; [done|]. rewrite <- Et in *.
  pose proof (latch_fold_fine q (power_targets_ p) (log, true) Hl) as H. destruct (fold_left _ _ _) as [log' ok].
  assert (Hf : fine log').
  { apply H. apply Forall_forall. intros t Ht. split; [by apply (target_bound b p)|].
    destruct (Z.gtb_spec q (pt_offset_max_qdb t)) as [Hgt|]; [|lia]. exfalso.
    assert (existsb (fun t => q >? pt_offset_max_qdb t) (power_targets_ p) = true); [|congruence].
    apply existsb_exists. exists t. split; [by apply list_elem_of_In|]. lia. }
  destruct ok; (split; [done|]); [by apply with_override_ok|done].
Qed.
Lemma boot_fine p log : power_ok b p -> fine log -> fine (apply_boot_power_offsets e p log).
Proof.
  intros Hp Hl. unfold apply_boot_power_offsets. destruct (has_apply_power_offset e); [|done].
  apply (fold_fine (fun t => target_ok t /\ (t.(pt_adapter_idx), t.(pt_offset_max_qdb)) ∈ b)); [|done|].
  - intros log0 t Hl0 [[H1 _ _] H2]. apply command_fine; [done|]. by exists (pt_offset_max_qdb t).
  - apply Forall_forall. intros t Ht. by apply (target_bound b p).
Qed.
Lemma forget_ok p : power_ok b p -> power_ok b (forget_applied p).
Proof.
  intros [H1 H2 H3 H4]. constructor; try done. cbn. apply Forall_map. eapply Forall_impl; [exact H4|]. apply adapter_forget.
Qed.
Lemma clear_fine p log : power_ok b p -> fine log -> fine (clear_power_override e p log).2 /\ power_ok b (clear_power_override e p log).1.
Proof.
  intros Hp Hl. unfold clear_power_override. apply resolve_committed_fine; [by apply forget_ok, with_override_ok|].
  apply boot_fine; [by apply with_override_ok|done].
Qed.
Lemma reassert_one_fine log pa : fine log -> adapter_ok b pa -> fine (reassert_one e log pa).1 /\ adapter_ok b (reassert_one e log pa).2.
Proof.
  intros Hl Ha. pose proof Ha as [(m & H1 & H2 & H3 & H4)]. unfold reassert_one. destruct (pa_applied_qdb pa) as [q|] eqn:Eq; [|done].
  destruct (has_apply_power e); [|done]. pose proof (command_fine log (EApplyPower (pa_adapter_idx pa) q) Hl) as H. destruct (command _ _ _) as [l' []].
  - split; [|done]. apply H. exists m. auto.
  - split; [|by apply adapter_forget]. apply H. exists m. auto.
Qed.
Lemma reassert_fine p log : power_ok b p -> fine log -> fine (reassert_power e p log).2 /\ power_ok b (reassert_power e p log).1.
Proof.
  intros Hp Hl. unfold reassert_power. destruct (power_override_ p) as [q|].
  { destruct (override_fine p log q Hp Hl). destruct (set_power_override _ _ _ _) as [[? ?] ?]. done. }
  destruct (each_fine (adapter_ok b) (reassert_one e) (power_ p) log reassert_one_fine Hl (po_adapters _ _ Hp)) as [G1 G2].
  destruct (each _ _ _) as [log' l']. cbn in G1, G2. destruct Hp as [H1 H2 H3 H4].
  assert (power_ok b (with_power p l')) by (by constructor). split; [|done]. destruct (existsb _ _); [done|]. by apply boot_fine.
Qed.
Lemma tier_apply_fine p log : power_ok b p -> fine log -> fine (tier_apply e p log).2 /\ power_ok b (tier_apply e p log).1.
Proof.
  intros Hp Hl. unfold tier_apply. destruct (power_override_ p) as [q|]; [|by apply resolve_committed_fine].
  destruct (override_fine p log q Hp Hl). by destruct (set_power_override _ _ _ _) as [[? ?] ?].
Qed.
Lemma restore_fine p log : power_ok b p -> fine log -> fine (restore_power e p log).2 /\ power_ok b (restore_power e p log).1.
Proof.
  intros Hp Hl. unfold restore_power. destruct (power_override_ p) as [q|].
  { destruct (override_fine p log q Hp Hl). by destruct (set_power_override _ _ _ _) as [[? ?] ?]. }
  destruct (curve_actuates p); [by apply resolve_committed_fine|]. split; [by apply boot_fine|done].
Qed.
Lemma probe_fine p log q : power_ok b p -> fine log -> fine (probe_power e p log q).
Proof.
  intros Hp Hl. unfold probe_power. rewrite (po_relative _ _ Hp).
  apply (fold_fine (fun t => (t.(pt_adapter_idx), t.(pt_offset_max_qdb)) ∈ b)); [|done|].
  - intros log0 t Hl0 Hb. unfold probe_step. destruct (has_apply_power_offset e); [|done]. apply command_fine; [done|].
    exists (pt_offset_max_qdb t). split; [done|lia].
  - apply Forall_forall. intros t Ht. by apply (target_bound b p).
Qed.
End Bound.

Lemma tier_target_ok tier t : 0 <= tier -> target_ok t -> exists t', tier_target tier t = Some t' /\ target_ok t' /\
  t'.(pt_adapter_idx) = t.(pt_adapter_idx) /\ t'.(pt_offset_max_qdb) = t.(pt_offset_max_qdb).
Proof.
  intros Ht [H1 H2 H3]. unfold tier_target. destruct (Z.geb_spec tier (len (pt_presets_qdb t))); [by exists t|].
  destruct (lookup_lt_is_Some_2 (pt_presets_qdb t) (Z.to_nat tier)) as [c Hc]; [lia|]. rewrite Hc. cbn [mbind option_bind].
  eexists. split; [done|]. split; [|done]. constructor; cbn; try done. exists c. split; [done|]. by eapply (Forall_lookup_1 _ _ _ _ H3).
Qed.
Lemma tier_adapter_ok b tier pa : 0 <= tier -> adapter_ok b pa -> exists pa', tier_adapter tier pa = Some pa' /\ adapter_ok b pa'.
Proof.
  intros Ht Ha. pose proof Ha as [(m & H1 & H2 & H3 & H4)]. unfold tier_adapter. destruct (Z.geb_spec tier (len (pa_presets_qdb pa))); [by exists pa|].
  destruct (lookup_lt_is_Some_2 (pa_presets_qdb pa) (Z.to_nat tier)) as [c Hc]; [lia|]. rewrite Hc. cbn [mbind option_bind].
  eexists. split; [done|]. constructor. exists m. split_and!; cbn; try done. exists c. split; [done|]. by eapply (Forall_lookup_1 _ _ _ _ H3).
Qed.
Lemma mapM_total {A B} (f : A -> option B) (P : A -> B -> Prop) l : Forall (fun x => exists y, f x = Some y /\ P x y) l ->
  exists l', mapM f l = Some l' /\ Forall2 P l l'.
Proof.
  induction 1 as [|x l (y & E & HP) _ (l' & El & HF)]; [by exists []|]. exists (y :: l'). cbn. rewrite E. cbn. rewrite El. by split; [|constructor].
Qed.
Lemma tier_ceilings_ok b p tier : 0 <= tier -> power_ok b p -> exists p', tier_ceilings p tier = Some p' /\ power_ok b p'.
Proof.
  intros Ht [H1 H2 H3 H4]. unfold tier_ceilings.
  destruct (mapM_total (tier_adapter tier) (fun _ pa' => adapter_ok b pa') (power_ p)) as (l & -> & Hl).
  { eapply Forall_impl; [exact H4|]. intros pa Hpa. by apply tier_adapter_ok. }
  destruct (mapM_total (tier_target tier) (fun t t' => target_ok t' /\ t'.(pt_adapter_idx) = t.(pt_adapter_idx) /\ t'.(pt_offset_max_qdb) = t.(pt_offset_max_qdb))
    (power_targets_ p)) as (ts & -> & Hts).
  { eapply Forall_impl; [exact H3|]. intros t Hti. by apply tier_target_ok. }
  cbn [mbind option_bind]. eexists. split; [done|]. constructor; cbn; try done.
  - rewrite <- H2. unfold bounds. cbn. clear -Hts. induction Hts as [|t t' ts ts' (_ & E1 & E2) _ IH]; [done|]. cbn. by rewrite E1, E2, IH.
  - clear -Hts. induction Hts as [|t t' ts ts' (? & _) _ IH]; by constructor.
  - clear -Hl. induction Hl; by constructor.
Qed.
Lemma install_ok b p c : power_ok b p -> power_ok b (install_curve p c).
Proof.
  intros Hp. pose proof Hp as [H1 H2 H3 H4]. constructor; try done. cbn. apply Forall_map. apply Forall_forall. intros t Ht.
  destruct (target_bound b p t Hp Ht) as [[? (x & ? & ?) ?] Hb]. constructor. exists (pt_offset_max_qdb t). cbn. split_and!; try done. by exists x.
Qed.
Lemma with_commit_ok b p mcs level : power_ok b p -> power_ok b (with_commit p mcs level).
Proof. by intros [H1 H2 H3 H4]. Qed.
(** The configuration of a relative backend's adapters ([io/src/config.cpp]
    refuses or clamps the rest). *)
Record power_config_ok (power : list PowerAdapter) (targets : list PowerTarget) : Prop := {
  pc_targets : Forall (fun t => t.(pt_offset_qdb) <= t.(pt_offset_max_qdb) /\ Forall (fun q => q <= t.(pt_offset_max_qdb)) t.(pt_offset_presets_qdb)) targets;
  pc_adapters : Forall (fun pa => exists t, t ∈ targets /\ pa.(pa_adapter_idx) = t.(pt_adapter_idx) /\ pa.(pa_offset_max_qdb) = t.(pt_offset_max_qdb) /\
                                  Forall (fun q => q <= t.(pt_offset_max_qdb)) pa.(pa_offset_presets_qdb) /\ pa.(pa_applied_qdb) = None) power
}.
Lemma set_backend_relative_ok power targets : power_config_ok power targets ->
  power_ok (bounds (TxPower_init power targets)) (set_backend_relative (TxPower_init power targets) true).
Proof.
  intros [H1 H2]. constructor; cbn; try done.
  - unfold bounds. cbn. rewrite map_map. done.
  - apply Forall_map. eapply Forall_impl; [exact H1|]. intros t [? ?]. constructor; cbn; try done. by eexists.
  - apply Forall_map. eapply Forall_impl; [exact H2|]. intros pa (t & Ht & E1 & E2 & Hpr & Ea). constructor. cbn. exists (pt_offset_max_qdb t).
    split_and!; try done; [|by exists (pa_offset_max_qdb pa); rewrite E2|by rewrite Ea].
    rewrite E1. unfold bounds. cbn. apply list_elem_of_fmap. by exists t.
Qed.

(** ** The owner *)
(** The last power write of an adapter. *)
Definition power_write (i : Z) (acc : option Z) (c : Effect) : option Z :=
  match c with EApplyPower j q | EApplyPowerOffset j q => if j =? i then Some q else acc | _ => acc end.
Definition last_power (log : list Effect) (i : Z) : option Z := fold_left (power_write i) log None.
(** What the curve asks for at the committed rate. *)
Definition want (p : TxPower) (pa : PowerAdapter) : option Z :=
  if curve_actuates p then m ← p.(last_commit_mcs_); resolve_power_qdb pa.(pa_curve) m p.(last_commit_level_) pa.(pa_ceiling) else None.
(** What the adapter is owed: the latch under the tier's ceiling; without a
    latch the curve's value; without either the safe boot offset. *)
Definition owed (p : TxPower) (t : PowerTarget) : Z :=
  match p.(power_override_) with
  | Some q => match t.(pt_ceiling) with Some c => Z.min q c | None => q end
  | None =>
    match find (fun pa => pa.(pa_adapter_idx) =? t.(pt_adapter_idx)) p.(power_) with
    | Some pa => default t.(pt_offset_qdb) (want p pa)
    | None => t.(pt_offset_qdb)
    end
  end.
Definition placed (p : TxPower) (log : list Effect) : Prop :=
  Forall (fun t => last_power log t.(pt_adapter_idx) = Some (owed p t)) p.(power_targets_).
Definition curve_ok (c : PowerCurve) : Prop := c.(curve_valid) = true /\ length c.(curve_qdb) = 8%nat.
(** An installed curve has one entry per target, with its ceiling and tiers. *)
Definition aligned (pa : PowerAdapter) (t : PowerTarget) : Prop :=
  pa.(pa_adapter_idx) = t.(pt_adapter_idx) /\ pa.(pa_ceiling) = t.(pt_ceiling) /\ pa.(pa_presets_qdb) = t.(pt_presets_qdb) /\ curve_ok pa.(pa_curve).
Record power_inv (p : TxPower) : Prop := {
  pi_relative : p.(backend_relative_) = true;
  pi_nodup : NoDup (map pt_adapter_idx p.(power_targets_));
  pi_curve : if p.(curve_is_offset_space_) then Forall2 aligned p.(power_) p.(power_targets_) else Forall (fun pa => pa.(pa_applied_qdb) = None) p.(power_);
  pi_latch : forall q t, p.(power_override_) = Some q -> t ∈ p.(power_targets_) -> q <= t.(pt_offset_max_qdb);
  pi_commit : forall m, p.(last_commit_mcs_) = Some m -> 0 <= m < 8
}.
(** Nobody else holds the power: every adapter has what it is owed, and the
    cache says so. *)
Record settled (p : TxPower) (log : list Effect) : Prop := {
  st_inv : power_inv p;
  st_placed : placed p log;
  st_cache : p.(power_override_) = None -> Forall (fun pa => pa.(pa_applied_qdb) = want p pa) p.(power_)
}.
Record all_take (e : TxEnv) : Prop := {
  at_power : e.(has_apply_power) = true;
  at_offset : e.(has_apply_power_offset) = true;
  at_radio : forall log c, e.(radio_takes) log c = true
}.

Lemma last_power_snoc log c i : last_power (log ++ [c]) i = power_write i (last_power log i) c.
Proof. unfold last_power. by rewrite fold_left_app. Qed.
Lemma last_power_quiet log l i : (forall c, c ∈ l -> match c with EApplyPower _ _ | EApplyPowerOffset _ _ => False | _ => True end) ->
  last_power (log ++ l) i = last_power log i.
Proof.
  intros H. unfold last_power. rewrite fold_left_app. generalize (fold_left (power_write i) log None). induction l as [|c l IH]; intros acc; [done|].
  cbn. rewrite IH by (intros; apply H; by constructor). specialize (H c ltac:(constructor)). by destruct c.
Qed.
Lemma resolve_Some c m level ceiling : curve_ok c -> 0 <= m < 8 -> exists q, resolve_power_qdb c m level ceiling = Some q.
Proof.
  intros [Hv Hl] Hm. unfold resolve_power_qdb. rewrite Hv. destruct (Z.geb_spec m (len (curve_qdb c))); [lia|]. cbn [negb orb].
  destruct (lookup_lt_is_Some_2 (curve_qdb c) (Z.to_nat m)) as [q Hq]; [lia|]. rewrite Hq. cbn. by eexists.
Qed.

Section Owner.
Context (e : TxEnv) (He : all_take e).
Lemma command_take log c : command e log c = (log ++ [c], true).
Proof. unfold command. by rewrite (at_radio _ He). Qed.

(** The resolve loop: each adapter ends with its resolved value, written or cached. *)
Lemma resolve_loop mcs level l : forall log,
  NoDup (map pa_adapter_idx l) ->
  Forall (fun pa => exists q, resolve_power_qdb pa.(pa_curve) mcs level pa.(pa_ceiling) = Some q /\
                    forall x, pa.(pa_applied_qdb) = Some x -> last_power log pa.(pa_adapter_idx) = Some x) l ->
  exists log', each (resolve_one e true mcs level) log l =
      (log', map (fun pa => with_applied pa (resolve_power_qdb pa.(pa_curve) mcs level pa.(pa_ceiling))) l) /\
    (forall pa, pa ∈ l -> last_power log' pa.(pa_adapter_idx) = resolve_power_qdb pa.(pa_curve) mcs level pa.(pa_ceiling)) /\
    (forall i, i ∉ map pa_adapter_idx l -> last_power log' i = last_power log i).
Proof.
  induction l as [|pa l IH]; intros log Hn HF; [exists log; split_and!; [done|intros pa Hpa; by apply not_elem_of_nil in Hpa|done]|].
  apply NoDup_cons in Hn as [Hni Hn]. apply Forall_cons in HF as [(q & Hq & Hc) HF]. cbn [each].
  assert (Hone : exists log1, resolve_one e true mcs level log pa = (log1, with_applied pa (Some q)) /\
    last_power log1 (pa_adapter_idx pa) = Some q /\ forall i, i <> pa_adapter_idx pa -> last_power log1 i = last_power log i).
  { unfold resolve_one. rewrite Hq. destruct (decide _) as [Ha|Ha].
    - exists log. split_and!; [|by apply Hc|done]. destruct pa; cbn in *. by rewrite Ha.
    - rewrite (at_offset _ He). cbn [andb]. rewrite command_take. eexists. split; [done|]. split; [|intros i Hi]; rewrite last_power_snoc; cbn.
      + by rewrite Z.eqb_refl.
      + destruct (Z.eqb_spec (pa_adapter_idx pa) i); [by subst|done]. }
  destruct Hone as (log1 & -> & L1 & L2). destruct (IH log1 Hn) as (log2 & -> & M1 & M2).
  { apply Forall_forall. intros x Hx. eapply Forall_forall in HF as (y & Hy & Hyc); [|exact Hx]. exists y. split; [done|]. intros z Hz.
    rewrite L2; [by apply Hyc|]. intros Ei. apply Hni. rewrite <- Ei. apply list_elem_of_fmap. by exists x. }
  exists log2. cbn [map]. rewrite Hq. split; [done|]. split.
  - intros x Hx. apply elem_of_cons in Hx as [-> |Hx]; [|by apply M1]. by rewrite Hq, M2.
  - intros i Hi. apply not_elem_of_cons in Hi as [Hi1 Hi2]. rewrite M2 by done. by apply L2.
Qed.
(** A loop that writes every target. *)
Lemma write_loop (v : PowerTarget -> Z) l : forall log, NoDup (map pt_adapter_idx l) ->
  let log' := fold_left (fun log t => log ++ [EApplyPowerOffset t.(pt_adapter_idx) (v t)]) l log in
  (forall t, t ∈ l -> last_power log' t.(pt_adapter_idx) = Some (v t)) /\ forall i, i ∉ map pt_adapter_idx l -> last_power log' i = last_power log i.
Proof.
  induction l as [|t l IH]; intros log Hn; [split; [intros t Ht; by apply not_elem_of_nil in Ht|done]|].
  apply NoDup_cons in Hn as [Hni Hn]. cbn [fold_left]. destruct (IH (log ++ [EApplyPowerOffset (pt_adapter_idx t) (v t)]) Hn) as [I1 I2]. split.
  - intros x Hx. apply elem_of_cons in Hx as [-> |Hx]; [|by apply I1]. rewrite I2 by done. rewrite last_power_snoc. cbn. by rewrite Z.eqb_refl.
  - intros i Hi. apply not_elem_of_cons in Hi as [Hi1 Hi2]. rewrite I2 by done. rewrite last_power_snoc. cbn.
    destruct (Z.eqb_spec (pt_adapter_idx t) i); [by subst|done].
Qed.
Lemma boot_writes p log : apply_boot_power_offsets e p log =
  fold_left (fun log t => log ++ [EApplyPowerOffset t.(pt_adapter_idx) t.(pt_offset_qdb)]) p.(power_targets_) log.
Proof. unfold apply_boot_power_offsets. rewrite (at_offset _ He). done. Qed.
Definition latched_value (q : Z) (t : PowerTarget) : Z := match t.(pt_ceiling) with Some c => Z.min q c | None => q end.
Lemma latch_writes q l : forall log, fold_left (latch_step e q) l (log, true) =
  (fold_left (fun log t => log ++ [EApplyPowerOffset t.(pt_adapter_idx) (latched_value q t)]) l log, true).
Proof.
  induction l as [|t l IH]; intros log; [done|]. cbn [fold_left]. unfold latch_step at 2. rewrite (at_offset _ He), command_take. cbn. apply IH.
Qed.
Lemma override_outcome p log q : (forall t, t ∈ p.(power_targets_) -> q <= t.(pt_offset_max_qdb)) ->
  p.(power_targets_) <> [] -> set_power_override e p log q =
  (with_override p (Some q), fold_left (fun log t => log ++ [EApplyPowerOffset t.(pt_adapter_idx) (latched_value q t)]) p.(power_targets_) log, true).
Proof.
  intros Hq Hne. unfold set_power_override. destruct (existsb _ _) eqn:Ex.
  - apply existsb_exists in Ex as (t & Ht & Hgt). apply list_elem_of_In in Ht. specialize (Hq t Ht). lia.
  - destruct (power_targets_ p) as [|t0 l0] eqn:Et; [done|]. by rewrite latch_writes.
Qed.

(** *** Aligned adapters *)
Lemma aligned_idx l ts : Forall2 aligned l ts -> map pa_adapter_idx l = map pt_adapter_idx ts.
Proof. induction 1 as [|pa t l ts (E & _) _ IH]; [done|]. cbn. by rewrite E, IH. Qed.
Lemma aligned_find l ts t : Forall2 aligned l ts -> NoDup (map pt_adapter_idx ts) -> t ∈ ts ->
  exists pa, find (fun pa => pa.(pa_adapter_idx) =? t.(pt_adapter_idx)) l = Some pa /\ pa ∈ l /\ aligned pa t.
Proof.
  induction 1 as [|pa t' l ts Ha _ IH]; intros Hn Ht; [by apply not_elem_of_nil in Ht|]. apply NoDup_cons in Hn as [Hni Hn]. cbn [find].
  pose proof Ha as (E & _). rewrite E. apply elem_of_cons in Ht as [-> |Ht].
  - rewrite Z.eqb_refl. exists pa. split; [done|]. split; [constructor|done].
  - destruct (Z.eqb_spec (pt_adapter_idx t') (pt_adapter_idx t)) as [Ei|_].
    + exfalso. apply Hni. rewrite Ei. apply list_elem_of_fmap. by exists t.
    + destruct (IH Hn Ht) as (x & Hx & Hin & Hal). exists x. split; [done|]. split; [by constructor|done].
Qed.
Lemma aligned_target l ts pa : Forall2 aligned l ts -> pa ∈ l -> exists t, t ∈ ts /\ aligned pa t.
Proof.
  induction 1 as [|pa0 t l ts Ha _ IH]; intros Hin; [by apply not_elem_of_nil in Hin|]. apply elem_of_cons in Hin as [-> |Hin].
  - exists t. split; [constructor|done].
  - destruct (IH Hin) as (t' & ? & ?). exists t'. split; [by constructor|done].
Qed.
Lemma curve_actuates_eq p : power_inv p -> curve_actuates p = has_power_curve p && p.(curve_is_offset_space_).
Proof. intros Hp. unfold curve_actuates. by rewrite (pi_relative _ Hp). Qed.
Lemma want_idle p pa : (curve_actuates p = false \/ p.(last_commit_mcs_) = None) -> want p pa = None.
Proof. unfold want. intros [-> | ->]; [done|]. by destruct (curve_actuates p). Qed.
Lemma owed_idle p t : p.(power_override_) = None -> (curve_actuates p = false \/ p.(last_commit_mcs_) = None) -> owed p t = t.(pt_offset_qdb).
Proof. intros Ho Hi. unfold owed. rewrite Ho. destruct (find _ _) as [pa|]; [|done]. by rewrite (want_idle p pa Hi). Qed.

(** After the safe offsets, with nothing cached, the resolve settles the power;
    and so it does from a settled state, whatever rate is committed. *)
Lemma with_power_map_find (g : PowerAdapter -> option Z) i l :
  find (fun pa => pa.(pa_adapter_idx) =? i) (map (fun pa => with_applied pa (g pa)) l) =
  (fun pa => with_applied pa (g pa)) <$> find (fun pa => pa.(pa_adapter_idx) =? i) l.
Proof. induction l as [|pa l IH]; [done|]. cbn. destruct (_ =? _); [done|apply IH]. Qed.
Lemma resolve_settles p log m : power_inv p -> p.(power_override_) = None -> p.(last_commit_mcs_) = Some m ->
  (curve_actuates p = false -> placed p log /\ Forall (fun pa => pa.(pa_applied_qdb) = None) p.(power_)) ->
  Forall (fun pa => forall x, pa.(pa_applied_qdb) = Some x -> last_power log pa.(pa_adapter_idx) = Some x) p.(power_) ->
  settled (resolve_and_apply_power e p log m p.(last_commit_level_)).1 (resolve_and_apply_power e p log m p.(last_commit_level_)).2.
Proof.
  intros Hp Ho Hm Hidle Hcache. pose proof Hp as [P1 P2 P3 P4 P5]. unfold resolve_and_apply_power.
  destruct (curve_actuates p) eqn:Eact; cbn [negb].
  - rewrite andb_false_r. rewrite curve_actuates_eq in Eact by done. apply andb_true_iff in Eact as [Ehas Eoff]. rewrite Eoff in P3.
    rewrite P1. destruct (resolve_loop m (last_commit_level_ p) (power_ p) log) as (log' & -> & L1 & L2).
    { by rewrite (aligned_idx _ _ P3). }
    { apply Forall_forall. intros pa Hpa. destruct (aligned_target _ _ pa P3 Hpa) as (t & _ & (_ & _ & _ & Hc)).
      destruct (resolve_Some (pa_curve pa) m (last_commit_level_ p) (pa_ceiling pa) Hc (P5 m Hm)) as [q Hq]. exists q. split; [done|].
      by eapply Forall_forall in Hcache. }
    cbn [fst snd]. set (g := fun pa => resolve_power_qdb (pa_curve pa) m (last_commit_level_ p) (pa_ceiling pa)) in *.
    set (p' := with_power p _). assert (Hact : curve_actuates p' = true).
    { unfold curve_actuates, has_power_curve, p'. cbn. rewrite Eoff, orb_true_r, andb_true_r. unfold has_power_curve in Ehas. by destruct (power_ p). }
    assert (Hw : forall pa x, want p' (with_applied pa x) = g pa) by (intros pa x; unfold want; rewrite Hact; cbn; by rewrite Hm).
    constructor.
    + constructor; try done. unfold p'. cbn. rewrite Eoff. clear -P3. induction P3; by constructor.
    + unfold placed. apply Forall_forall. intros t Ht. destruct (aligned_find _ _ t P3 P2 Ht) as (pa & Hf & Hin & (Ei & Ec & _ & Hc)).
      unfold owed. unfold p' at 1. cbn [with_power power_override_]. rewrite Ho. unfold p' at 1. cbn [with_power power_].
      rewrite (with_power_map_find g), Hf. cbn [fmap option_fmap option_map]. rewrite Hw, <- Ei, L1 by done. unfold g.
      destruct (resolve_Some (pa_curve pa) m (last_commit_level_ p) (pa_ceiling pa) Hc (P5 m Hm)) as [q ->]. done.
    + intros _. unfold p'. cbn [with_power power_]. apply Forall_map. apply Forall_forall. intros pa _. by rewrite Hw.
  - destruct (Hidle eq_refl) as [Hpl Hca]. assert (Hset : forall p', p' = p \/ p' = with_warned p -> settled p' log).
    { intros p' Hp'. assert (Hi : power_inv p') by (destruct Hp' as [-> | ->]; [done|by constructor]).
      assert (Ha : curve_actuates p' = false) by (by destruct Hp' as [-> | ->]). constructor; [done| |].
      - destruct Hp' as [-> | ->]; done.
      - intros _. assert (Hpw : power_ p' = power_ p) by (by destruct Hp' as [-> | ->]). rewrite Hpw. eapply Forall_impl; [exact Hca|].
        intros pa ->. symmetry. apply want_idle. by left. }
    destruct (has_power_curve p) eqn:Eh; cbn [andb fst snd]; [by apply Hset; right|].
    unfold has_power_curve in Eh. destruct (power_ p) eqn:El; [|done]. cbn [each fst snd]. apply Hset. left. destruct p; cbn in *. by subst.
Qed.

(** *** The operations *)
Lemma find_self l pa : NoDup (map pa_adapter_idx l) -> pa ∈ l -> find (fun x => x.(pa_adapter_idx) =? pa.(pa_adapter_idx)) l = Some pa.
Proof.
  induction l as [|x l IH]; intros Hn Hin; [by apply not_elem_of_nil in Hin|]. apply NoDup_cons in Hn as [Hni Hn]. cbn [find].
  apply elem_of_cons in Hin as [-> |Hin]; [by rewrite Z.eqb_refl|]. destruct (Z.eqb_spec (pa_adapter_idx x) (pa_adapter_idx pa)) as [Ei|_]; [|by apply IH].
  exfalso. apply Hni. rewrite Ei. apply list_elem_of_fmap. by exists pa.
Qed.
Lemma cache_last p log : settled p log -> p.(power_override_) = None ->
  Forall (fun pa => forall x, pa.(pa_applied_qdb) = Some x -> last_power log pa.(pa_adapter_idx) = Some x) p.(power_).
Proof.
  intros [Hi Hpl Hc] Ho. specialize (Hc Ho). apply Forall_forall. intros pa Hpa x Hx. eapply Forall_forall in Hc; [|exact Hpa].
  rewrite Hc in Hx. pose proof Hx as Hw. unfold want in Hw. destruct (curve_actuates p) eqn:Eact; [|done].
  rewrite curve_actuates_eq in Eact by done. apply andb_true_iff in Eact as [_ Eoff]. destruct Hi as [P1 P2 P3 P4 P5]. rewrite Eoff in P3.
  destruct (aligned_target _ _ pa P3 Hpa) as (t & Ht & (Ei & _)). eapply Forall_forall in Hpl; [|exact Ht]. rewrite Ei, Hpl. unfold owed.
  rewrite Ho, <- Ei, find_self by (rewrite ?(aligned_idx _ _ P3); done). by rewrite Hx.
Qed.
Lemma idle_settles p log : power_inv p -> p.(power_override_) = None -> (curve_actuates p = false \/ p.(last_commit_mcs_) = None) ->
  Forall (fun pa => pa.(pa_applied_qdb) = None) p.(power_) ->
  (forall t, t ∈ p.(power_targets_) -> last_power log t.(pt_adapter_idx) = Some t.(pt_offset_qdb)) -> settled p log.
Proof.
  intros Hp Ho Hi Hc Hl. constructor; [done| |].
  - apply Forall_forall. intros t Ht. rewrite owed_idle by done. by apply Hl.
  - intros _. eapply Forall_impl; [exact Hc|]. intros pa ->. by rewrite want_idle.
Qed.
Lemma forget_inv p : power_inv p -> power_inv (forget_applied p).
Proof.
  intros [P1 P2 P3 P4 P5]. constructor; try done. cbn. destruct (curve_is_offset_space_ p).
  - clear -P3. induction P3; by constructor.
  - apply Forall_map. by apply Forall_forall.
Qed.
Lemma forget_none p : Forall (fun pa => pa.(pa_applied_qdb) = None) (forget_applied p).(power_).
Proof. cbn. apply Forall_map. by apply Forall_forall. Qed.
Lemma forget_actuates p : curve_actuates (forget_applied p) = curve_actuates p.
Proof. unfold curve_actuates, has_power_curve. cbn. by destruct (power_ p). Qed.
(** The committed resolve from the safe offsets with nothing cached. *)
Lemma committed_settles p log : power_inv p -> p.(power_override_) = None -> Forall (fun pa => pa.(pa_applied_qdb) = None) p.(power_) ->
  (curve_actuates p = false \/ p.(last_commit_mcs_) = None -> forall t, t ∈ p.(power_targets_) -> last_power log t.(pt_adapter_idx) = Some t.(pt_offset_qdb)) ->
  settled (resolve_committed e p log).1 (resolve_committed e p log).2.
Proof.
  intros Hp Ho Hc Hl. unfold resolve_committed. destruct (last_commit_mcs_ p) as [m|] eqn:Em.
  - apply resolve_settles; try done.
    + intros Ha. split; [|done]. apply Forall_forall. intros t Ht. rewrite owed_idle by auto. apply Hl; auto.
    + eapply Forall_impl; [exact Hc|]. by intros pa ->.
  - apply idle_settles; auto.
Qed.
Lemma boot_last p log : power_inv p -> forall t, t ∈ p.(power_targets_) -> last_power (apply_boot_power_offsets e p log) t.(pt_adapter_idx) = Some t.(pt_offset_qdb).
Proof. intros Hp t Ht. rewrite boot_writes. by apply (write_loop pt_offset_qdb _ log (pi_nodup _ Hp)). Qed.
Lemma clear_settles p log : power_inv p -> settled (clear_power_override e p log).1 (clear_power_override e p log).2.
Proof.
  intros Hp. unfold clear_power_override. assert (Hp' : power_inv (with_override p None)) by (destruct Hp; by constructor).
  apply committed_settles; [by apply forget_inv|done|apply forget_none|]. intros _. by apply (boot_last (with_override p None)).
Qed.
Lemma latch_settles p log q : power_inv p -> (forall t, t ∈ p.(power_targets_) -> q <= t.(pt_offset_max_qdb)) -> p.(power_targets_) <> [] ->
  settled (set_power_override e p log q).1.1 (set_power_override e p log q).1.2.
Proof.
  intros Hp Hq Hne. rewrite override_outcome by done. cbn [fst snd]. constructor; [|apply Forall_forall; intros t Ht|done].
  - destruct Hp as [P1 P2 P3 P4 P5]. constructor; try done. intros x t [= <-] Ht. by apply Hq.
  - unfold owed. cbn [with_override power_override_]. by apply (write_loop (latched_value q) _ log (pi_nodup _ Hp)).
Qed.
Lemma override_settles p log q : settled p log -> settled (set_power_override e p log q).1.1 (set_power_override e p log q).1.2.
Proof.
  intros Hs. destruct (set_power_override e p log q) as [[p' log'] ok] eqn:E. cbn [fst snd].
  unfold set_power_override in E. destruct (existsb _ _) eqn:Ex; [by injection E as <- <- _|].
  destruct (power_targets_ p) as [|t0 l0] eqn:Et; [by injection E as <- <- _|]. rewrite <- Et in *.
  assert (Hq : forall t, t ∈ power_targets_ p -> q <= pt_offset_max_qdb t).
  { intros t Ht. destruct (Z.gtb_spec q (pt_offset_max_qdb t)) as [Hgt|]; [|lia]. exfalso.
    assert (existsb (fun t => q >? pt_offset_max_qdb t) (power_targets_ p) = true); [|congruence].
    apply existsb_exists. exists t. split; [by apply list_elem_of_In|]. lia. }
  pose proof (latch_settles p log q (st_inv _ _ Hs) Hq ltac:(by rewrite Et)) as H.
  unfold set_power_override in H. rewrite Ex, Et in H. rewrite <- Et in H. by rewrite E in H.
Qed.
Lemma relatch_settles p log q : power_inv p -> p.(power_override_) = Some q ->
  settled (set_power_override e p log q).1.1 (set_power_override e p log q).1.2.
Proof.
  intros Hp Ho. destruct (power_targets_ p) as [|t0 l0] eqn:Et.
  - unfold set_power_override. rewrite Et. cbn. constructor; [done|unfold placed; by rewrite Et|by rewrite Ho].
  - apply latch_settles; [done| |by rewrite Et]. intros t Ht. by apply (pi_latch _ Hp).
Qed.
Lemma reassert_settles p log : settled p log -> settled (reassert_power e p log).1 (reassert_power e p log).2.
Proof.
  intros Hs. pose proof (st_inv _ _ Hs) as Hp. unfold reassert_power. destruct (power_override_ p) as [q|] eqn:Eo; [by apply relatch_settles|].
  pose proof (cache_last p log Hs Eo) as Hcl. pose proof (st_cache _ _ Hs Eo) as Hca.
  assert (Hsame : exists log', each (reassert_one e) log (power_ p) = (log', power_ p) /\ forall i, last_power log' i = last_power log i).
  { clear -He Hcl. revert log Hcl. induction (power_ p) as [|pa l IH]; intros log Hcl; [by exists log|].
    apply Forall_cons in Hcl as [Ha Hcl]. cbn [each].
    assert (H1 : exists log1, reassert_one e log pa = (log1, pa) /\ forall i, last_power log1 i = last_power log i).
    { unfold reassert_one. destruct (pa_applied_qdb pa) as [x|]; [|by exists log]. rewrite (at_power _ He), command_take. eexists. split; [done|].
      intros i. rewrite last_power_snoc. cbn. destruct (Z.eqb_spec (pa_adapter_idx pa) i); [subst i; symmetry; by apply Ha|done]. }
    destruct H1 as (log1 & -> & L1). destruct (IH log1) as (log2 & -> & L2).
    { eapply Forall_impl; [exact Hcl|]. intros y Hy z Hz. rewrite L1. by apply Hy. }
    exists log2. split; [done|]. intros i. by rewrite L2, L1. }
  destruct Hsame as (log' & -> & Hl). assert (Hpp : with_power p (power_ p) = p) by (by destruct p). rewrite Hpp. cbn [fst snd].
  assert (Hset : settled p log').
  { destruct Hs as [S1 S2 S3]. constructor; [done| |done]. eapply Forall_impl; [exact S2|]. intros t Ht. cbn in *. by rewrite Hl. }
  destruct (existsb _ _) eqn:Ex; [done|]. assert (Hnone : Forall (fun pa => pa.(pa_applied_qdb) = None) (power_ p)).
  { apply Forall_forall. intros pa Hpa. destruct (pa_applied_qdb pa) eqn:Ea; [|done]. exfalso.
    assert (existsb (fun pa => bool_decide (is_Some (pa_applied_qdb pa)) && has_apply_power e) (power_ p) = true); [|congruence].
    apply existsb_exists. exists pa. split; [by apply list_elem_of_In|]. rewrite (at_power _ He), Ea. done. }
  destruct (decide (curve_actuates p = false \/ last_commit_mcs_ p = None)) as [Hi|Hi].
  - apply idle_settles; try done. by apply boot_last.
  - (* a curve that actuates a committed rate has something cached *)
    assert (Hact : curve_actuates p = true) by (destruct (curve_actuates p); [done|by destruct Hi; left]).
    assert (Hm : exists m, last_commit_mcs_ p = Some m) by (destruct (last_commit_mcs_ p); [by eexists|by destruct Hi; right]).
    destruct Hm as [m Hm]. exfalso. pose proof Hact as Hact'. rewrite curve_actuates_eq in Hact by done. apply andb_true_iff in Hact as [Hhas Eoff].
    destruct Hp as [P1 P2 P3 P4 P5]. rewrite Eoff in P3. unfold has_power_curve in Hhas. destruct (power_ p) as [|pa l] eqn:El; [done|].
    apply Forall_cons in Hnone as [Hn _]. apply Forall_cons in Hca as [Hw _].
    destruct (aligned_target _ _ pa P3 ltac:(constructor)) as (t & _ & (_ & _ & _ & Hc)).
    rewrite Hn in Hw. unfold want in Hw. rewrite Hact', Hm in Hw. cbn in Hw.
    destruct (resolve_Some (pa_curve pa) m (last_commit_level_ p) (pa_ceiling pa) Hc (P5 m Hm)) as [x Hx]. congruence.
Qed.
Lemma power_commit_inv p m level : power_inv p -> 0 <= m < 8 -> power_inv (with_commit p m level).
Proof. intros [P1 P2 P3 P4 P5] Hm. constructor; try done. by intros ? [= <-]. Qed.
Lemma commit_settles p log m level : settled p log -> 0 <= m < 8 ->
  match p.(power_override_) with
  | None => settled (resolve_and_apply_power e (with_commit p m level) log m level).1 (resolve_and_apply_power e (with_commit p m level) log m level).2
  | Some _ => settled (with_commit p m level) log
  end.
Proof.
  intros Hs Hm. pose proof (st_inv _ _ Hs) as Hp. destruct (power_override_ p) as [q|] eqn:Eo.
  - destruct Hs as [S1 S2 S3]. constructor; [by apply power_commit_inv| |by cbn; rewrite Eo].
    eapply Forall_impl; [exact S2|]. intros t Ht. cbn in *. rewrite Ht. unfold owed. cbn. by rewrite Eo.
  - apply (resolve_settles (with_commit p m level) log m); [by apply power_commit_inv|done|done| |by apply (cache_last p log Hs Eo)].
    intros Ha. change (curve_actuates p = false) in Ha. split.
    + apply Forall_forall. intros t Ht. pose proof (st_placed _ _ Hs) as Hpl. eapply Forall_forall in Hpl; [|exact Ht].
      rewrite Hpl, !owed_idle; try done; by left.
    + eapply Forall_impl; [exact (st_cache _ _ Hs Eo)|]. intros pa ->. apply want_idle. by left.
Qed.
(** *** The tier *)
Lemma tier_target_shape tier t t' : tier_target tier t = Some t' -> t'.(pt_adapter_idx) = t.(pt_adapter_idx) /\
  t'.(pt_offset_qdb) = t.(pt_offset_qdb) /\ t'.(pt_offset_max_qdb) = t.(pt_offset_max_qdb).
Proof.
  unfold tier_target. destruct (_ >=? _); [by intros [= <-]|]. destruct (_ !! _); [|done]. by intros [= <-].
Qed.
Lemma tier_adapter_shape tier pa pa' : tier_adapter tier pa = Some pa' -> pa' = pa \/ pa'.(pa_applied_qdb) = None.
Proof. unfold tier_adapter. destruct (_ >=? _); [intros [= <-]; by left|]. destruct (_ !! _); [|done]. intros [= <-]. by right. Qed.
Lemma tier_aligned tier pa t pa' t' : aligned pa t -> tier_adapter tier pa = Some pa' -> tier_target tier t = Some t' -> aligned pa' t'.
Proof.
  intros (E1 & E2 & E3 & E4). unfold tier_adapter, tier_target. rewrite E3. destruct (_ >=? _); [intros [= <-] [= <-]; done|].
  destruct (_ !! _); [|done]. intros [= <-] [= <-]. by split_and!.
Qed.
Lemma tier_idx tier ts ts' : mapM (tier_target tier) ts = Some ts' -> map pt_adapter_idx ts' = map pt_adapter_idx ts.
Proof.
  intros H. apply mapM_Some in H. induction H as [|t t' ts ts' E _ IH]; [done|]. cbn. destruct (tier_target_shape _ _ _ E) as (-> & _). by rewrite IH.
Qed.
Lemma tier_inv p tier p' : power_inv p -> tier_ceilings p tier = Some p' -> power_inv p'.
Proof.
  intros [P1 P2 P3 P4 P5] H. unfold tier_ceilings in H. destruct (mapM (tier_adapter tier) _) as [l|] eqn:El; [|done].
  destruct (mapM (tier_target tier) _) as [ts|] eqn:Ets; [|done]. injection H as <-. constructor; cbn; try done.
  - by rewrite (tier_idx _ _ _ Ets).
  - apply mapM_Some in El, Ets. destruct (curve_is_offset_space_ p).
    + clear -P3 El Ets. revert l ts El Ets. induction P3 as [|pa t l0 ts0 Ha _ IH]; intros l ts El Ets.
      * inversion El. inversion Ets. constructor.
      * inversion El as [|? pa' ? l' E1 El']; subst. inversion Ets as [|? t' ? ts' E2 Ets']; subst. constructor; [by eapply tier_aligned|by apply IH].
    + clear -P3 El. induction El as [|pa pa' l0 l E _ IH]; [done|]. apply Forall_cons in P3 as [Hn P3]. constructor; [|by apply IH].
      destruct (tier_adapter_shape _ _ _ E) as [-> | ->]; done.
  - intros q t Ho Ht. apply mapM_Some in Ets. apply list_elem_of_lookup in Ht as [i Hi]. destruct (Forall2_lookup_r _ _ _ _ _ Ets Hi) as (t0 & H0 & E).
    destruct (tier_target_shape _ _ _ E) as (_ & _ & ->). apply (P4 q t0 Ho). by eapply list_elem_of_lookup_2.
Qed.
Lemma tier_settles p log tier p' : settled p log -> tier_ceilings p tier = Some p' -> settled (tier_apply e p' log).1 (tier_apply e p' log).2.
Proof.
  intros Hs Ht. pose proof (tier_inv _ _ _ (st_inv _ _ Hs) Ht) as Hp'. pose proof Ht as Ht0. unfold tier_ceilings in Ht0.
  destruct (mapM (tier_adapter tier) _) as [l|] eqn:El; [|done]. destruct (mapM (tier_target tier) _) as [ts|] eqn:Ets; [|done]. injection Ht0 as E.
  unfold tier_apply. destruct (power_override_ p') as [q|] eqn:Eo; [by apply relatch_settles|]. assert (Eo' : power_override_ p = None) by (by rewrite <- E in Eo).
  assert (Hact : curve_actuates p' = curve_actuates p).
  { rewrite <- E. unfold curve_actuates, has_power_curve. cbn. apply mapM_Some in El. by destruct El. }
  assert (Hold : forall t', t' ∈ power_targets_ p' -> exists t, t ∈ power_targets_ p /\ pt_adapter_idx t' = pt_adapter_idx t /\ pt_offset_qdb t' = pt_offset_qdb t).
  { intros t' Hin. rewrite <- E in Hin. cbn in Hin. apply mapM_Some in Ets. apply list_elem_of_lookup in Hin as [i Hi].
    destruct (Forall2_lookup_r _ _ _ _ _ Ets Hi) as (t & Hti & Hsh). destruct (tier_target_shape _ _ _ Hsh) as (E1 & E2 & _).
    exists t. split; [by eapply list_elem_of_lookup_2|done]. }
  assert (Hcache : Forall (fun pa => forall x, pa.(pa_applied_qdb) = Some x -> last_power log pa.(pa_adapter_idx) = Some x) (power_ p')).
  { rewrite <- E. cbn. pose proof (cache_last p log Hs Eo') as Hcl. apply mapM_Some in El. clear -El Hcl. induction El as [|pa pa' l0 l Ea _ IH]; [done|].
    apply Forall_cons in Hcl as [Hc Hcl]. constructor; [|by apply IH]. destruct (tier_adapter_shape _ _ _ Ea) as [-> | ->]; [done|done]. }
  assert (Hidle : curve_actuates p = false \/ last_commit_mcs_ p = None -> placed p' log /\ Forall (fun pa => pa.(pa_applied_qdb) = None) (power_ p')).
  { intros Hi. assert (Hi' : curve_actuates p' = false \/ last_commit_mcs_ p' = None) by (rewrite Hact, <- E; done). split.
    - apply Forall_forall. intros t' Hin. destruct (Hold t' Hin) as (t & Hti & -> & Eoff). pose proof (st_placed _ _ Hs) as Hpl.
      eapply Forall_forall in Hpl; [|exact Hti]. rewrite Hpl, !owed_idle by done. by rewrite Eoff.
    - rewrite <- E. cbn. pose proof (st_cache _ _ Hs Eo') as Hca. apply mapM_Some in El. clear -El Hca Hi. induction El as [|pa pa' l0 l Ea _ IH]; [done|].
      apply Forall_cons in Hca as [Hc Hca]. constructor; [|by apply IH]. rewrite want_idle in Hc by done.
      destruct (tier_adapter_shape _ _ _ Ea) as [-> | ->]; done. }
  unfold resolve_committed. destruct (last_commit_mcs_ p') as [m|] eqn:Em.
  - apply resolve_settles; try done. intros Ha. apply Hidle. left. congruence.
  - assert (last_commit_mcs_ p = None) by (by rewrite <- E in Em). destruct Hidle as [H1 H2]; [by right|]. constructor; [done|done|].
    intros _. eapply Forall_impl; [exact H2|]. intros pa ->. rewrite want_idle; [done|by right].
Qed.
(** *** The end of a calibration *)
Lemma restore_settles p log m : power_inv p -> p.(last_commit_mcs_) = Some m ->
  settled (restore_power e (forget_applied p) log).1 (restore_power e (forget_applied p) log).2.
Proof.
  intros Hp Hm. pose proof (forget_inv _ Hp) as Hf. unfold restore_power. destruct (power_override_ (forget_applied p)) as [q|] eqn:Eo; [by apply relatch_settles|].
  destruct (curve_actuates (forget_applied p)) eqn:Ea.
  - apply committed_settles; [done|done|apply forget_none|]. intros [?|?]; [congruence|]. cbn in *. congruence.
  - apply idle_settles; [done|done|by left|apply forget_none|]. by apply boot_last.
Qed.
Lemma install_inv p c : power_inv p -> curve_ok c -> power_inv (install_curve p c).
Proof.
  intros [P1 P2 P3 P4 P5] Hc. constructor; try done. cbn. rewrite P1. clear -Hc. induction (power_targets_ p); [constructor|]. cbn. by constructor.
Qed.
End Owner.

(** *** While a calibration holds the power *)
Section Held.
Context (e : TxEnv).
Lemma each_aligned (f : list Effect -> PowerAdapter -> list Effect * PowerAdapter) l ts :
  (forall log pa t, aligned pa t -> aligned (f log pa).2 t) -> Forall2 aligned l ts -> forall log, Forall2 aligned (each f log l).2 ts.
Proof.
  intros Hf. induction 1 as [|pa t l ts Ha _ IH]; intros log; [constructor|]. cbn [each]. specialize (Hf log pa t Ha). destruct (f log pa) as [log1 pa1].
  specialize (IH log1). destruct (each f log1 l). by constructor.
Qed.
Lemma applied_aligned pa q t : aligned pa t -> aligned (with_applied pa q) t.
Proof. done. Qed.
Lemma resolve_one_aligned rel m l log pa t : aligned pa t -> aligned (resolve_one e rel m l log pa).2 t.
Proof.
  intros Ha. unfold resolve_one. destruct (resolve_power_qdb _ _ _ _) as [q|]; [|done]. destruct (decide _); [done|].
  destruct (if rel && _ then _ else _) as [log' []]; [by apply applied_aligned|done].
Qed.
Lemma resolve_inv p log m l : power_inv p -> power_inv (resolve_and_apply_power e p log m l).1.
Proof.
  intros Hp. unfold resolve_and_apply_power. rewrite (curve_actuates_eq p Hp). destruct Hp as [P1 P2 P3 P4 P5].
  destruct (has_power_curve p && negb (has_power_curve p && curve_is_offset_space_ p)) eqn:E; [by constructor|].
  assert (H : if curve_is_offset_space_ p then Forall2 aligned (each (resolve_one e (backend_relative_ p) m l) log (power_ p)).2 (power_targets_ p)
              else Forall (fun pa => pa.(pa_applied_qdb) = None) (each (resolve_one e (backend_relative_ p) m l) log (power_ p)).2).
  { destruct (curve_is_offset_space_ p); [by apply each_aligned; [intros; by apply resolve_one_aligned|]|].
    unfold has_power_curve in E. by destruct (power_ p). }
  destruct (each _ _ _) as [log' l']. by constructor.
Qed.
Lemma reassert_inv p log : power_inv p -> p.(power_override_) = None -> power_inv (reassert_power e p log).1.
Proof.
  intros Hp Ho. unfold reassert_power. rewrite Ho. destruct Hp as [P1 P2 P3 P4 P5].
  assert (H : if curve_is_offset_space_ p then Forall2 aligned (each (reassert_one e) log (power_ p)).2 (power_targets_ p)
              else Forall (fun pa => pa.(pa_applied_qdb) = None) (each (reassert_one e) log (power_ p)).2).
  { destruct (curve_is_offset_space_ p).
    - apply each_aligned; [|done]. intros log' pa t Ha. unfold reassert_one. destruct (pa_applied_qdb pa); [|done].
      destruct (has_apply_power e); [|done]. destruct (command _ _ _) as [? []]; [done|by apply applied_aligned].
    - clear -P3. revert log. induction P3 as [|pa l Hn _ IH]; intros log; [constructor|]. cbn [each]. unfold reassert_one at 1. rewrite Hn.
      specialize (IH log). destruct (each _ _ _). by constructor. }
  destruct (each _ _ _) as [log' l']. by constructor.
Qed.
Lemma override_inv p log q : power_inv p -> power_inv (set_power_override e p log q).1.1.
Proof.
  intros Hp. unfold set_power_override. destruct (existsb _ _) eqn:Ex; [done|]. destruct (power_targets_ p) as [|t0 l0] eqn:Et; [done|]. rewrite <- Et in *.
  destruct (fold_left _ _ _) as [log' []]; [|done]. cbn. destruct Hp as [P1 P2 P3 P4 P5]. constructor; try done. cbn. intros x t [= <-] Ht.
  destruct (Z.gtb_spec q (pt_offset_max_qdb t)) as [Hgt|]; [|lia]. exfalso.
  assert (existsb (fun t => q >? pt_offset_max_qdb t) (power_targets_ p) = true); [|congruence].
  apply existsb_exists. exists t. split; [by apply list_elem_of_In|]. lia.
Qed.
End Held.
