(* ===== verification/TxCore.v ===== *)
(** * The craft's core ([node/include/wblink/node/tx_core.h])

    [TxCore]: the framers, the selector, the frame protection, the return
    gates, the calibrators and the power of one craft, driven by the node's
    loop.  The encoder is driven through effects; reporting to JSON is left
    out. *)
From Stdlib Require Import String.
From S2P Require Import Prelude Types Wire Table FrameShm FrameFramer Framer McsProbe Double Selector Feedback Dwell Calibrate Pacing Jscc TxPower.
Open Scope Z_scope.

Definition vcmd_id_kSelector : Z := 0x02.
Definition vcmd_id_kFpsLadder : Z := 0x03.
Definition vcmd_id_kFpsSelect : Z := 0x04.
Definition vcmd_id_kCalibrate : Z := 0x08.
Definition vcmd_id_kMtuTier : Z := 0x09.
Definition vcmd_id_kTxPower : Z := 0x0A.
Definition kProbeMcsNone : Z := 0xFF.

Record CalibrationPolicy : Type := MkCalibrationPolicy {
  cal_loss_ok_milli : Z;
  cal_loss_bad_milli : Z;
  cal_seek_step_qdb : Z;
  cal_offset_seek_step_qdb : Z;
  cal_rssi_guard_dbm : Z;
  cal_min_qdb : Z;
  cal_max_qdb : Z;
  cal_settle_ms : Z;
  cal_hard_cap_ms : Z;
  cal_dwell_probe_frames : Z;
  cal_dwell_verify_frames : Z;
  cal_probe_pace_us : Z;
  cal_tally_wait_ms : Z;
  cal_tally_retries : Z;
  cal_feed_quiet_ms : Z
}.
Definition CalibrationPolicy_init : CalibrationPolicy := MkCalibrationPolicy 15 50 16 8 (-6) 4 108 300 600000 500 1000 2000 500 3 2000.
Definition calib_params_from (c : CalibrationPolicy) : CalibrateParams :=
  MkCalibrateParams (to_u16 c.(cal_loss_ok_milli)) (to_u16 c.(cal_loss_bad_milli)) c.(cal_seek_step_qdb) c.(cal_rssi_guard_dbm)
    c.(cal_min_qdb) c.(cal_max_qdb) (to_u32 c.(cal_settle_ms)) (to_u16 c.(cal_dwell_probe_frames)) (to_u16 c.(cal_dwell_verify_frames))
    (MkDwellSendParams (to_u32 c.(cal_probe_pace_us)) (to_u32 c.(cal_tally_wait_ms)) (to_u32 c.(cal_tally_retries)) 8)
    (to_u32 c.(cal_hard_cap_ms)) [4; 4; 3; 3; 2; 2; 1; 1] true.

(** ** State *)
Record TxStream : Type := MkTxStream {
  ts_stream_id : Z;
  ts_stream_type : Z;
  ts_framer : option Framer;
  ts_frame_framer : option FrameFramer;
  ts_jscc_shadow : option JsccRuntimeShadow;
  ts_jscc_latest : JsccShadowResult;
  ts_jscc_decision_frames : Z;
  ts_jscc_valid_decisions : Z;
  ts_jscc_fallback_decisions : Z;
  ts_jscc_enforce : bool;
  ts_jscc_enforced_frames : Z;
  ts_jscc_discarded_frames : Z;
  ts_jscc_exempt_frames : Z
}.
Record TxConst : Type := MkTxConst {
  tc_originator : Z;
  tc_session : Z;
  tc_table_version : Z;
  tc_table : option ProfileTable;
  tc_mtu_supported : Z;
  tc_boot_min_profile : Z;
  tc_boot_max_profile : Z;
  tc_venc_enabled : bool;
  tc_preset_fps : list Z;
  tc_fps_hint : Z
}.
Record TxCalib : Type := MkTxCalib {
  calibrator_ : option Calibrator;
  calib_policy_ : CalibrationPolicy;
  calib_rx_ : DwellReceiver;
  calib_ident_fingerprint_ : Z;
  feed_quiet_ms_ : Z;
  calib_probes_tx_ : Z;
  calib_tallies_rx_ : Z;
  calib_tallies_tx_ : Z;
  calib_rx_mcs_ : Z;
  calib_fingerprint_ : Z;
  calib_stale_ : bool
}.
Record TxFps : Type := MkTxFps {
  fps_ladder_ : option FpsLadder;
  cmd_fps_enabled_ : bool;
  cmd_fps_select_ : Z;
  cmd_fps_select_hz_ : Z;
  frame_cadence_us_ : Z;
  cadence_start_ms_ : Z;
  cadence_frames_ : Z
}.
Record TxReturn : Type := MkTxReturn {
  feedback_gate_ : ReportGate;
  report_gate_ : ReportGate;
  verdict_epoch_seen_ : Z;
  verdict_epoch_src_ : option (Z * Z);
  verdict_rx_ms_ : Z;
  reports_received_ : Z
}.
Record TxCore : Type := MkTxCore {
  tx_c : TxConst;
  tx_selector : Selector;
  tx_power : TxPower;
  tx_calib : TxCalib;
  tx_fps : TxFps;
  tx_ret : TxReturn;
  tx_streams : list TxStream;
  negotiated_packet_budget_ : Z;
  cmd_selector_frozen_ : bool;
  probe_candidate_mcs_ : Z
}.
(** Members written together. *)
Definition set_tx_selector (t : TxCore) (s : Selector) : TxCore :=
  MkTxCore t.(tx_c) s t.(tx_power) t.(tx_calib) t.(tx_fps) t.(tx_ret) t.(tx_streams) t.(negotiated_packet_budget_) t.(cmd_selector_frozen_) t.(probe_candidate_mcs_).
Definition set_tx_power (t : TxCore) (p : TxPower) : TxCore :=
  MkTxCore t.(tx_c) t.(tx_selector) p t.(tx_calib) t.(tx_fps) t.(tx_ret) t.(tx_streams) t.(negotiated_packet_budget_) t.(cmd_selector_frozen_) t.(probe_candidate_mcs_).
Definition set_tx_calib (t : TxCore) (c : TxCalib) : TxCore :=
  MkTxCore t.(tx_c) t.(tx_selector) t.(tx_power) c t.(tx_fps) t.(tx_ret) t.(tx_streams) t.(negotiated_packet_budget_) t.(cmd_selector_frozen_) t.(probe_candidate_mcs_).
Definition set_tx_fps (t : TxCore) (f : TxFps) : TxCore :=
  MkTxCore t.(tx_c) t.(tx_selector) t.(tx_power) t.(tx_calib) f t.(tx_ret) t.(tx_streams) t.(negotiated_packet_budget_) t.(cmd_selector_frozen_) t.(probe_candidate_mcs_).
Definition set_tx_ret (t : TxCore) (r : TxReturn) : TxCore :=
  MkTxCore t.(tx_c) t.(tx_selector) t.(tx_power) t.(tx_calib) t.(tx_fps) r t.(tx_streams) t.(negotiated_packet_budget_) t.(cmd_selector_frozen_) t.(probe_candidate_mcs_).
Definition set_tx_streams (t : TxCore) (l : list TxStream) : TxCore :=
  MkTxCore t.(tx_c) t.(tx_selector) t.(tx_power) t.(tx_calib) t.(tx_fps) t.(tx_ret) l t.(negotiated_packet_budget_) t.(cmd_selector_frozen_) t.(probe_candidate_mcs_).
Definition set_tx_budget (t : TxCore) (b : Z) : TxCore :=
  MkTxCore t.(tx_c) t.(tx_selector) t.(tx_power) t.(tx_calib) t.(tx_fps) t.(tx_ret) t.(tx_streams) b t.(cmd_selector_frozen_) t.(probe_candidate_mcs_).
Definition set_tx_frozen (t : TxCore) (b : bool) : TxCore :=
  MkTxCore t.(tx_c) t.(tx_selector) t.(tx_power) t.(tx_calib) t.(tx_fps) t.(tx_ret) t.(tx_streams) t.(negotiated_packet_budget_) b t.(probe_candidate_mcs_).
Definition set_tx_candidate (t : TxCore) (m : Z) : TxCore :=
  MkTxCore t.(tx_c) t.(tx_selector) t.(tx_power) t.(tx_calib) t.(tx_fps) t.(tx_ret) t.(tx_streams) t.(negotiated_packet_budget_) t.(cmd_selector_frozen_) m.
Definition with_calibrator (c : TxCalib) (x : option Calibrator) : TxCalib :=
  MkTxCalib x c.(calib_policy_) c.(calib_rx_) c.(calib_ident_fingerprint_) c.(feed_quiet_ms_) c.(calib_probes_tx_) c.(calib_tallies_rx_)
    c.(calib_tallies_tx_) c.(calib_rx_mcs_) c.(calib_fingerprint_) c.(calib_stale_).
Definition with_calib_rx (c : TxCalib) (r : DwellReceiver) (tallies_tx : Z) : TxCalib :=
  MkTxCalib c.(calibrator_) c.(calib_policy_) r c.(calib_ident_fingerprint_) c.(feed_quiet_ms_) c.(calib_probes_tx_) c.(calib_tallies_rx_)
    tallies_tx c.(calib_rx_mcs_) c.(calib_fingerprint_) c.(calib_stale_).
Definition set_calibrator (t : TxCore) (x : Calibrator) : TxCore := set_tx_calib t (with_calibrator t.(tx_calib) (Some x)).
Definition set_pin (t : TxCore) (mn mx : Z) : TxCore := set_tx_selector t (set_profile_pin t.(tx_selector) mn mx).

Definition calibrating (t : TxCore) : bool :=
  match t.(tx_calib).(calibrator_) with Some c => bool_decide (c.(c_state) = cRunning) | None => false end.
Definition feed_paused (t : TxCore) : bool := calibrating t || negb (t.(tx_calib).(calib_rx_).(rc_run_id) =? 0).

(** ** Payload budget and deadline of the operating point *)
Definition table_profiles (t : TxCore) : list Profile := match t.(tx_c).(tc_table) with Some x => x.(profiles) | None => [] end.
Definition profile_max_payload_for (t : TxCore) (id : Z) : Z :=
  match find (fun p => p.(pf_id) =? id) (table_profiles t) with Some p => p.(pf_max_payload) | None => kDefaultMaxPayload end.
Definition max_payload_for (t : TxCore) (id : Z) : Z := Z.min (profile_max_payload_for t id) t.(negotiated_packet_budget_).
(** [None]: the selector's rung is outside the table. *)
Definition frame_deadline_us (t : TxCore) : option Z :=
  match t.(tx_c).(tc_table) with
  | None => Some 0
  | Some x =>
    active ← profile_id t.(tx_selector);
    Some (match find (fun p => p.(pf_id) =? active) x.(profiles) with
          | Some p => to_u32 (Z.min p.(pf_arq_deadline_iframe_ms) p.(pf_arq_deadline_pframe_ms) * 1000)
          | None => 0
          end)
  end.
Definition mtu_effective (t : TxCore) : option Z := id ← profile_id t.(tx_selector); Some (max_payload_for t id).

(** ** Ingress *)
Fixpoint update_first {A} (f : A -> bool) (g : A -> option (A * list Effect)) (l : list A) : option (list A * list Effect) :=
  match l with
  | [] => Some ([], [])
  | x :: l =>
    if f x then '(x, out) ← g x; Some (x :: l, out)
    else '(l, out) ← update_first f g l; Some (x :: l, out)
  end.
Definition with_framer (s : TxStream) (f : Framer) : TxStream :=
  MkTxStream s.(ts_stream_id) s.(ts_stream_type) (Some f) s.(ts_frame_framer) s.(ts_jscc_shadow) s.(ts_jscc_latest) s.(ts_jscc_decision_frames)
    s.(ts_jscc_valid_decisions) s.(ts_jscc_fallback_decisions) s.(ts_jscc_enforce) s.(ts_jscc_enforced_frames) s.(ts_jscc_discarded_frames)
    s.(ts_jscc_exempt_frames).
Definition with_frame_framer (s : TxStream) (f : FrameFramer) : TxStream :=
  MkTxStream s.(ts_stream_id) s.(ts_stream_type) s.(ts_framer) (Some f) s.(ts_jscc_shadow) s.(ts_jscc_latest) s.(ts_jscc_decision_frames)
    s.(ts_jscc_valid_decisions) s.(ts_jscc_fallback_decisions) s.(ts_jscc_enforce) s.(ts_jscc_enforced_frames) s.(ts_jscc_discarded_frames)
    s.(ts_jscc_exempt_frames).
Definition with_shadow (s : TxStream) (x : JsccRuntimeShadow) : TxStream :=
  MkTxStream s.(ts_stream_id) s.(ts_stream_type) s.(ts_framer) s.(ts_frame_framer) (Some x) s.(ts_jscc_latest) s.(ts_jscc_decision_frames)
    s.(ts_jscc_valid_decisions) s.(ts_jscc_fallback_decisions) s.(ts_jscc_enforce) s.(ts_jscc_enforced_frames) s.(ts_jscc_discarded_frames)
    s.(ts_jscc_exempt_frames).
Definition with_decision (s : TxStream) (r : JsccShadowResult) (enforced discarded exempt : Z) : TxStream :=
  MkTxStream s.(ts_stream_id) s.(ts_stream_type) s.(ts_framer) s.(ts_frame_framer) s.(ts_jscc_shadow) r
    (to_u64 (s.(ts_jscc_decision_frames) + 1))
    (if r.(js_valid) then to_u64 (s.(ts_jscc_valid_decisions) + 1) else s.(ts_jscc_valid_decisions))
    (if r.(js_valid) then s.(ts_jscc_fallback_decisions) else to_u64 (s.(ts_jscc_fallback_decisions) + 1))
    s.(ts_jscc_enforce) (to_u64 (s.(ts_jscc_enforced_frames) + enforced)) (to_u64 (s.(ts_jscc_discarded_frames) + discarded))
    (to_u64 (s.(ts_jscc_exempt_frames) + exempt)).
Definition on_ingress (t : TxCore) (log : list Effect) (stream_id : Z) (d : list Z) (now : Z) : option (TxCore * list Effect) :=
  '(l, out) ← update_first (fun s => (s.(ts_stream_id) =? stream_id) && bool_decide (is_Some s.(ts_framer)))
                (fun s => f ← s.(ts_framer);
                          '(_, frames, f) ← Framer.on_datagram f d now;
                          Some (with_framer s f, map (fun x => EInject x.1.1) frames)) t.(tx_streams);
  Some (set_tx_streams t l, log ++ out).

(** What the decision is given for a frame of [len] bytes. *)
Definition jscc_input (e : TxEnv) (ff : FrameFramer) (deadline blen now : Z) : JsccShadowFrameInput :=
  let symbol := symbol_size ff in
  let k := Z.min (1 + (blen - 1) / symbol) 65535 in
  let source_bytes := blen + k * (kDataHeaderSize + kFecSourceSubheaderSize) in
  let budget := to_u16 (symbol + kDataHeaderSize + kFecSourceSubheaderSize) in
  MkJsccShadowFrameInput k deadline (match e.(estimate_airtime) with Some f => f source_bytes budget | None => None end) now.
(** The shadow's verdict on a frame and what it enforces; [None] in the second
    place: the frame is discarded. *)
Definition jscc_frame (e : TxEnv) (s : TxStream) (ff : FrameFramer) (sh : JsccRuntimeShadow) (enhance : bool) (deadline blen now : Z)
    : TxStream * option FrameFramer :=
  let r := evaluate sh (jscc_input e ff deadline blen now) in
  if s.(ts_jscc_enforce) && r.(js_valid) then
    if enhance then (with_decision s r 0 0 1, Some ff)
    else if r.(js_decision).(discard) then (with_decision s r 0 1 0, None)
    else (with_decision s r 1 0 0, Some (set_next_frame_override ff r.(js_decision).(parity_symbols)))
  else (with_decision s r 0 0 0, Some ff).
Definition stream_frame (e : TxEnv) (deadline : option Z) (have_meta enhance : bool) (blob : ptr) (blen now : Z) (s : TxStream)
    : option (TxStream * list Effect) :=
  ff ← s.(ts_frame_framer);
  '(s, ff) ← (match s.(ts_jscc_shadow) with
              | Some sh => if have_meta : bool then d ← deadline; Some (jscc_frame e s ff sh enhance d blen now) else Some (s, Some ff)
              | None => Some (s, Some ff)
              end);
  match ff with
  | Some ff => '(_, ff, out) ← FrameFramer.on_frame ff blob blen now; Some (with_frame_framer s ff, map (fun x => EInject x.(e_frame)) out)
  | None => Some (s, [])
  end.
Definition count_cadence (f : TxFps) (now : Z) : TxFps :=
  MkTxFps f.(fps_ladder_) f.(cmd_fps_enabled_) f.(cmd_fps_select_) f.(cmd_fps_select_hz_) f.(frame_cadence_us_)
    (if f.(cadence_start_ms_) =? 0 then now else f.(cadence_start_ms_)) (to_u32 (f.(cadence_frames_) + 1)).
Definition with_ladder (f : TxFps) (l : option FpsLadder) : TxFps :=
  MkTxFps l f.(cmd_fps_enabled_) f.(cmd_fps_select_) f.(cmd_fps_select_hz_) f.(frame_cadence_us_) f.(cadence_start_ms_) f.(cadence_frames_).
Definition frame_stream (stream_id : Z) (s : TxStream) : bool := (s.(ts_stream_id) =? stream_id) && bool_decide (is_Some s.(ts_frame_framer)).
Definition on_frame (e : TxEnv) (t : TxCore) (log : list Effect) (stream_id : Z) (blob : ptr) (blen now : Z) : option (TxCore * list Effect) :=
  if existsb (frame_stream stream_id) t.(tx_streams) then
    '(have_meta, m) ← read_frame_meta blob blen VencFrameMeta_init;
    let idr := have_meta && negb (Z.land m.(flags) kFrameFlagIdr =? 0) in
    let enhance := have_meta && negb idr && negb (Z.land m.(flags) kFrameFlagEnhance =? 0) in
    let fps := count_cadence t.(tx_fps) now in
    let fps := if have_meta && negb idr
               then with_ladder fps ((fun l => note_p_frame l (Z.min (blen - kVencFrameMetaSize) 4294967295) now) <$> fps.(fps_ladder_)) else fps in
    '(l, out) ← update_first (frame_stream stream_id) (stream_frame e (frame_deadline_us t) have_meta enhance blob blen now) t.(tx_streams);
    Some (set_tx_streams (set_tx_fps t fps) l, log ++ out)
  else Some (t, log).

(** ** Air *)
Definition feedback_of (t : TxCore) : CraftFeedback :=
  let r := t.(tx_ret) in
  MkCraftFeedback t.(tx_c).(tc_originator) t.(tx_c).(tc_session) (map (fun s => (s.(ts_stream_id), s.(ts_stream_type))) t.(tx_streams))
    r.(report_gate_) t.(tx_selector) r.(reports_received_) r.(verdict_epoch_src_) r.(verdict_epoch_seen_) r.(verdict_rx_ms_).
Definition take_feedback (t : TxCore) (c : CraftFeedback) : TxCore :=
  set_tx_ret (set_tx_selector t c.(cf_selector))
    (MkTxReturn t.(tx_ret).(feedback_gate_) c.(cf_gate) c.(cf_verdict_epoch_seen) c.(cf_verdict_epoch_src) c.(cf_verdict_rx_ms) c.(cf_reports_received)).
(** The filter of the calibration exchange: addressed to this craft by the
    reporter it is latched on. *)
Definition from_reporter (t : TxCore) (p : CommonPrefix) : bool :=
  let g := t.(tx_ret).(report_gate_) in
  (p.(destination) =? t.(tx_c).(tc_originator)) && (latched_originator g =? p.(originator)) &&
  ((latched_session g =? 0) || (latched_session g =? p.(session_id))).
Definition on_jscc_feedback (t : TxCore) (f : JsccFeedback) (now : Z) : option TxCore :=
  if negb (f.(jf_target_originator) =? t.(tx_c).(tc_originator)) || negb (f.(jf_target_session) =? t.(tx_c).(tc_session)) then Some t
  else
    let r := t.(tx_ret) in
    let '(g, ok) := accept r.(feedback_gate_) f.(jf_prefix).(originator) f.(jf_prefix).(session_id) now in
    let t := set_tx_ret t (MkTxReturn g r.(report_gate_) r.(verdict_epoch_seen_) r.(verdict_epoch_src_) r.(verdict_rx_ms_) r.(reports_received_)) in
    if negb ok then Some t
    else
      '(l, _) ← update_first (fun s => (s.(ts_stream_id) =? f.(jf_target_stream_id)) && bool_decide (is_Some s.(ts_jscc_shadow)))
                  (fun s => sh ← s.(ts_jscc_shadow); Some (with_shadow s (observe_feedback sh f now).1, [])) t.(tx_streams);
      Some (set_tx_streams t l).
Definition on_calib_probe (e : TxEnv) (t : TxCore) (log : list Effect) (p : CalibProbe) (rx_rssi rx_mcs now : Z) : option (TxCore * list Effect) :=
  if negb (from_reporter t p.(cp_prefix)) then Some (t, log)
  else
    let c := t.(tx_calib) in
    '(rx, out) ← on_probe c.(calib_rx_) p.(cp_run_id) p.(cp_dwell_id) p.(cp_seq) p.(cp_count) rx_rssi rx_mcs now;
    if out.(to_send) && e.(has_send_calib) then
      let pkt := MkCalibTally (MkCommonPrefix t.(tx_c).(tc_originator) p.(cp_prefix).(originator) t.(tx_c).(tc_session))
                   out.(to_run_id) out.(to_dwell_id) out.(to_received) out.(to_rssi_sum_dbm) out.(to_rx_mcs) c.(calib_ident_fingerprint_) in
      '(n, buf) ← encode_calib_tally pkt (Some (replicate (Z.to_nat kCalibTallySize) 0)) kCalibTallySize;
      if (n : Z) =? 0 then Some (set_tx_calib t (with_calib_rx c rx c.(calib_tallies_tx_)), log)
      else
        buf ← buf;
        Some (set_tx_calib t (with_calib_rx c rx (to_u64 (c.(calib_tallies_tx_) + 1))), log ++ [ESendCalib (take (Z.to_nat n) buf)])
    else Some (set_tx_calib t (with_calib_rx c rx c.(calib_tallies_tx_)), log).
Definition tx_on_tally (t : TxCore) (p : CalibTally) : TxCore :=
  let c := t.(tx_calib) in
  if negb (from_reporter t p.(ct_prefix)) then t
  else match c.(calibrator_) with
  | Some x =>
    let x := calib_on_tally x p.(ct_run_id) p.(ct_dwell_id) p.(ct_received) p.(ct_rssi_sum_dbm) p.(ct_rx_mcs) p.(ct_adapter_fingerprint) in
    set_tx_calib t (MkTxCalib (Some x) c.(calib_policy_) c.(calib_rx_) c.(calib_ident_fingerprint_) c.(feed_quiet_ms_) c.(calib_probes_tx_)
                      (to_u64 (c.(calib_tallies_rx_) + 1)) c.(calib_tallies_tx_) p.(ct_rx_mcs) c.(calib_fingerprint_) c.(calib_stale_))
  | None => t
  end.
Definition on_recovery_request (t : TxCore) (log : list Effect) (r : RecoveryRequest) : list Effect :=
  if negb (r.(rr_target_originator) =? t.(tx_c).(tc_originator)) || negb (r.(rr_target_session) =? t.(tx_c).(tc_session)) then log
  else if existsb (fun s => (s.(ts_stream_id) =? r.(rr_target_stream_id)) && (s.(ts_stream_type) =? stream_type_kRtp)) t.(tx_streams)
  then log ++ [EVencRequestIdr] else log.
Definition on_air (e : TxEnv) (t : TxCore) (log : list Effect) (d : list Z) (now rx_rssi rx_mcs : Z) : option (TxCore * list Effect) :=
  dec ← decode (Some d);
  match dec with
  | DJsccFeedback f => t ← on_jscc_feedback t f now; Some (t, log)
  | DLinkReport r => Some (take_feedback t (on_link_report (feedback_of t) r now), log)
  | DLinkVerdict v => Some (take_feedback t (on_link_verdict (feedback_of t) v now), log)
  | DCalibProbe p => on_calib_probe e t log p rx_rssi rx_mcs now
  | DCalibTally p => Some (tx_on_tally t p, log)
  | DRecoveryRequest r => Some (t, on_recovery_request t log r)
  | _ => Some (t, log)
  end.

(** ** Calibration *)
Definition set_level (l : list Z) (p : Profile) : list Z := if p.(pf_mcs) <? len l then <[Z.to_nat p.(pf_mcs) := p.(pf_tx_power_level)]> l else l.
Definition calib_params_for (t : TxCore) (c : CalibrationPolicy) (max_power_qdb : option Z) : CalibrateParams :=
  let p := calib_params_from c in
  let levels := fold_left set_level (table_profiles t) p.(cb_levels) in
  let '(mn, mx, step, taper) :=
    match offset_window t.(tx_power) with
    | Some (lo, hi) => (lo, hi, c.(cal_offset_seek_step_qdb), false)
    | None => (p.(cb_min_qdb), match max_power_qdb with Some m => Z.min p.(cb_max_qdb) m | None => p.(cb_max_qdb) end, p.(cb_seek_step_qdb), true)
    end in
  MkCalibrateParams p.(cb_loss_ok_milli) p.(cb_loss_bad_milli) step p.(cb_rssi_guard_dbm) mn mx p.(cb_settle_ms)
    p.(cb_dwell_probe_frames) p.(cb_dwell_verify_frames) p.(cb_dwell) p.(cb_hard_cap_ms) levels taper.
Definition seed_calib_policy (t : TxCore) (c : CalibrationPolicy) : TxCore :=
  let k := t.(tx_calib) in
  set_tx_calib t (MkTxCalib k.(calibrator_) c k.(calib_rx_) k.(calib_ident_fingerprint_) (to_u32 c.(cal_feed_quiet_ms)) k.(calib_probes_tx_)
                    k.(calib_tallies_rx_) k.(calib_tallies_tx_) k.(calib_rx_mcs_) k.(calib_fingerprint_) k.(calib_stale_)).
Definition init_calibration (t : TxCore) (c : CalibrationPolicy) (max_power_qdb : option Z) : TxCore :=
  set_calibrator (seed_calib_policy t c) (Calibrator_init (calib_params_for t c max_power_qdb)).
Definition profile_id_for_mcs (t : TxCore) (m : Z) : option Z :=
  pf_id <$> fold_left (fun best p => if (p.(pf_mcs) =? m) && (match best with None => true | Some b => p.(pf_id) <? b.(pf_id) end)
                                     then Some p else best) (table_profiles t) None.
(** [on_calib_artifact] of [run_tx]: the store's fingerprint, 0 where it failed. *)
Definition persist_artifact (t : TxCore) (art : CalibArtifact) (fp : Z) : TxCore :=
  if fp =? 0 then t
  else
    let k := t.(tx_calib) in
    set_tx_calib (set_tx_power t (install_curve t.(tx_power) (MkPowerCurve art.(ca_curve_qdb) true)))
      (MkTxCalib k.(calibrator_) k.(calib_policy_) k.(calib_rx_) k.(calib_ident_fingerprint_) k.(feed_quiet_ms_) k.(calib_probes_tx_)
         k.(calib_tallies_rx_) k.(calib_tallies_tx_) k.(calib_rx_mcs_) fp false).
(** The window a calibration, or the selector command, leaves the selector. *)
Definition own_window (t : TxCore) : option TxCore :=
  if t.(cmd_selector_frozen_) then pf ← profile_id t.(tx_selector); Some (set_pin t pf pf)
  else Some (set_pin t t.(tx_c).(tc_boot_min_profile) t.(tx_c).(tc_boot_max_profile)).
Definition calib_restore (e : TxEnv) (t : TxCore) (log : list Effect) : option (TxCore * list Effect) :=
  t ← own_window (set_tx_power t (forget_applied t.(tx_power)));
  let '(p, log) := restore_power e t.(tx_power) log in
  Some (set_tx_power t p, log).
Definition calib_pin (t : TxCore) (c : Calibrator) (m : Z) : TxCore :=
  match t.(tx_c).(tc_table) with
  | None => set_pin t m m
  | Some _ =>
    match profile_id_for_mcs t m with
    | Some id => set_pin t id id
    | None => set_calibrator t (abort c "mcs_not_in_ladder").1
    end
  end.
Definition calibrate_service (e : TxEnv) (t : TxCore) (log : list Effect) (now : Z) : option (TxCore * list Effect) :=
  match t.(tx_calib).(calibrator_) with
  | None => Some (t, log)
  | Some c =>
    '(c, a) ← Calibrate.tick c now;
    let t := set_calibrator t c in
    let t := match e.(on_calib_artifact) with
             | Some store => if a.(act_artifact_ready) then persist_artifact t c.(c_artifact) (store c.(c_artifact)) else t
             | None => t
             end in
    '(t, log) ← (if a.(act_restore) then calib_restore e t log else Some (t, log));
    let log := match a.(act_set_qdb) with Some q => probe_power e t.(tx_power) log q | None => log end in
    Some (match a.(act_pin_rung) with Some m => calib_pin t c m | None => t end, log)
  end.
(** The drain of [next_probe]. *)
Fixpoint drain_probes (fuel : nat) (t : TxCore) (log : list Effect) (c : Calibrator) (dest budget now : Z) : option (TxCore * list Effect) :=
  match fuel with
  | O => None
  | S fuel =>
    let '(c, po) := calib_next_probe c now in
    match po with
    | None => Some (set_calibrator t c, log)
    | Some seq =>
      let pkt := MkCalibProbe (MkCommonPrefix t.(tx_c).(tc_originator) dest t.(tx_c).(tc_session)) c.(c_run_id) c.(c_dwell).(ds_dwell_id) seq
                   c.(c_dwell_count) 0 in
      '(n, buf) ← encode_calib_probe pkt budget (Some (replicate (Z.to_nat mtu_tier_kHighBudget) 0)) mtu_tier_kHighBudget;
      if (n : Z) =? 0 then drain_probes fuel t log c dest budget now
      else
        buf ← buf;
        let k := t.(tx_calib) in
        let t := set_tx_calib t (MkTxCalib k.(calibrator_) k.(calib_policy_) k.(calib_rx_) k.(calib_ident_fingerprint_) k.(feed_quiet_ms_)
                                   (to_u64 (k.(calib_probes_tx_) + 1)) k.(calib_tallies_rx_) k.(calib_tallies_tx_) k.(calib_rx_mcs_)
                                   k.(calib_fingerprint_) k.(calib_stale_)) in
        drain_probes fuel t (log ++ [ESendCalib (take (Z.to_nat n) buf)]) c dest budget now
    end
  end.
Definition calibrate_probe_service (e : TxEnv) (t : TxCore) (log : list Effect) (now : Z) : option (TxCore * list Effect) :=
  match t.(tx_calib).(calibrator_) with
  | Some c =>
    if negb e.(has_send_calib) then Some (t, log)
    else
      let c := calib_new_tick c in
      let dest := latched_originator t.(tx_ret).(report_gate_) in
      if dest =? 0 then Some (set_calibrator t c, log)
      else
        budget ← mtu_effective t;
        drain_probes (Z.to_nat (c.(c_dwell).(ds_p).(max_probes_per_tick) + c.(c_dwell).(ds_retries_left) + 2)) t log c dest budget now
  | None => Some (t, log)
  end.

(** ** The tick *)
Definition refresh_probe (e : TxEnv) (t : TxCore) (log : list Effect) (id : Z) : TxCore * list Effect :=
  if negb e.(has_apply_probe) then (t, log)
  else
    let table := match t.(tx_c).(tc_table) with Some x => if x.(probe_period) =? 0 then None else Some x | None => None end in
    let cand := x ← table; m ← probe_up_candidate_mcs x id t.(tx_selector).(policy_).(max_profile); Some (x, m) in
    let next := match cand with Some (_, m) => m | None => kProbeMcsNone end in
    if next =? t.(probe_candidate_mcs_) then (t, log)
    else (set_tx_candidate t next,
          log ++ [match cand with Some (x, m) => EApplyProbe x.(probe_period) x.(probe_slot) m | None => EApplyProbe 0 0 0 end]).
Definition stream_operating_point (id tv mp : Z) (s : TxStream) : TxStream :=
  MkTxStream s.(ts_stream_id) s.(ts_stream_type) ((fun f => Framer.set_operating_point f id tv) <$> s.(ts_framer))
    ((fun f => FrameFramer.set_operating_point f id tv mp) <$> s.(ts_frame_framer)) s.(ts_jscc_shadow) s.(ts_jscc_latest) s.(ts_jscc_decision_frames)
    s.(ts_jscc_valid_decisions) s.(ts_jscc_fallback_decisions) s.(ts_jscc_enforce) s.(ts_jscc_enforced_frames) s.(ts_jscc_discarded_frames)
    s.(ts_jscc_exempt_frames).
Definition do_commit (e : TxEnv) (t : TxCore) (log : list Effect) (c : ProfileCommit) : TxCore * list Effect :=
  let mp := profile_max_payload_for t c.(pc_profile_id) in
  let t := set_tx_streams t (map (stream_operating_point c.(pc_profile_id) t.(tx_c).(tc_table_version) mp) t.(tx_streams)) in
  let log := if e.(has_apply_mode) then log ++ [EApplyMode c.(pc_mcs) (match c.(pc_gi) with kShort => true | kLong => false end)] else log in
  let p := with_commit t.(tx_power) c.(pc_mcs) c.(pc_tx_power_level) in
  if negb (bool_decide (is_Some p.(power_override_))) && negb (calibrating t)
  then let '(p, log) := resolve_and_apply_power e p log c.(pc_mcs) c.(pc_tx_power_level) in (set_tx_power t p, log)
  else (set_tx_power t p, log).
Definition cadence_step (paused : bool) (f : TxFps) (now : Z) : TxFps :=
  let upd us start frames := MkTxFps f.(fps_ladder_) f.(cmd_fps_enabled_) f.(cmd_fps_select_) f.(cmd_fps_select_hz_) us start frames in
  if paused then upd f.(frame_cadence_us_) now 0
  else if negb (f.(cadence_start_ms_) =? 0) && (now >=? to_u64 (f.(cadence_start_ms_) + 1000))
  then upd (if f.(cadence_frames_) >? 0 then to_u64 ((now - f.(cadence_start_ms_)) * 1000) / f.(cadence_frames_) else 0) now 0
  else f.
Definition fps_service (e : TxEnv) (f : TxFps) (log : list Effect) (now : Z) : TxFps * list Effect :=
  match f.(fps_ladder_) with
  | Some l =>
    if f.(cmd_fps_enabled_) then
      let l := (fps_tick l now e.(venc_settling)).1 in (with_ladder f (Some l), log ++ [EVencSetFps l.(fl_current)])
    else (f, if f.(cmd_fps_select_hz_) =? 0 then log else log ++ [EVencSetFps f.(cmd_fps_select_hz_)])
  | None => (f, if f.(cmd_fps_select_hz_) =? 0 then log else log ++ [EVencSetFps f.(cmd_fps_select_hz_)])
  end.
Definition expire_quiet (t : TxCore) (now : Z) : TxCore :=
  let k := t.(tx_calib) in
  if negb (k.(calib_rx_).(rc_run_id) =? 0) && quiet_for k.(calib_rx_) now k.(feed_quiet_ms_)
  then set_tx_calib t (with_calib_rx k (expire_run k.(calib_rx_)) k.(calib_tallies_tx_)) else t.
Definition tick (e : TxEnv) (t : TxCore) (log : list Effect) (now : Z) : option (TxCore * list Effect) :=
  '(s, act) ← Selector.tick t.(tx_selector) now;
  let t := set_tx_selector t s in
  id ← profile_id s;
  let '(t, log) := refresh_probe e t log id in
  let '(t, log) := match act.(sa_commit) with Some c => do_commit e t log c | None => (t, log) end in
  let log := log ++ [EVencPoll] in
  '(t, log) ← calibrate_service e t log now;
  '(t, log) ← calibrate_probe_service e t log now;
  let t := expire_quiet t now in
  let kbps := t.(tx_selector).(op).(bitrate_kbps_) in
  let log := if kbps >? 0 then log ++ [EVencSetBitrate kbps] else log in
  let f := cadence_step (feed_paused t) t.(tx_fps) now in
  let '(f, log) := fps_service e f log now in
  Some (set_tx_fps t f, log).

(** ** Commands *)
Definition set_power_tier (e : TxEnv) (t : TxCore) (log : list Effect) (tier : Z) : option (TxCore * list Effect * bool) :=
  if calibrating t then Some (t, log, false)
  else if negb (tier_accepted t.(tx_power) tier) then Some (t, log, false)
  else
    p ← tier_ceilings t.(tx_power) tier;
    let t := set_tx_power t p in
    let t := match t.(tx_calib).(calibrator_), power_tier_ceiling p with
             | Some _, Some c => init_calibration t t.(tx_calib).(calib_policy_) (Some c)
             | _, _ => t
             end in
    let '(p, log) := tier_apply e t.(tx_power) log in
    Some (set_tx_power t p, log, true).
Definition map_frame_framers (f : FrameFramer -> FrameFramer) (s : TxStream) : TxStream :=
  match s.(ts_frame_framer) with Some ff => with_frame_framer s (f ff) | None => s end.
Definition cmd_fps_ladder (f : TxFps) : bool := match f.(fps_ladder_) with Some _ => f.(cmd_fps_enabled_) | None => false end.
Definition cmd_selector (t : TxCore) (arg : Z) : option TxCore := own_window (set_tx_frozen t (negb (arg =? 0))).
Definition cmd_fps_run (t : TxCore) (l : FpsLadder) (arg now : Z) : TxCore :=
  let f := t.(tx_fps) in
  let f := if negb (arg =? 0) && negb f.(cmd_fps_enabled_)
           then MkTxFps (Some (fps_resume l now)) f.(cmd_fps_enabled_) f.(cmd_fps_select_) 0 f.(frame_cadence_us_) f.(cadence_start_ms_) f.(cadence_frames_)
           else f in
  set_tx_fps t (MkTxFps f.(fps_ladder_) (negb (arg =? 0)) f.(cmd_fps_select_) f.(cmd_fps_select_hz_) f.(frame_cadence_us_) f.(cadence_start_ms_) f.(cadence_frames_)).
Definition cmd_fps_select (t : TxCore) (fps arg : Z) : TxCore :=
  let f := t.(tx_fps) in
  set_tx_fps t (MkTxFps ((fun l => note_external_fps l fps) <$> f.(fps_ladder_)) f.(cmd_fps_enabled_) (to_u8 (arg + 1)) fps
                  f.(frame_cadence_us_) f.(cadence_start_ms_) f.(cadence_frames_)).
Definition cmd_calibrate (e : TxEnv) (t : TxCore) (arg now : Z) : TxCore * bool :=
  match t.(tx_calib).(calibrator_) with
  | None => (t, false)
  | Some c =>
    if arg =? 1 then
      if negb t.(tx_power).(power_actuator_) then (t, false)
      else if (if t.(tx_power).(backend_relative_) then negb e.(has_apply_power_offset) || negb (bool_decide (is_Some (offset_window t.(tx_power))))
               else negb e.(has_apply_power)) then (t, false)
      else if latched_originator t.(tx_ret).(report_gate_) =? 0 then (t, false)
      else let '(c, ok) := start c now in (set_calibrator t c, ok)
    else let '(c, ok) := abort c "abort" in (set_calibrator t c, ok)
  end.
Definition cmd_mtu_tier (t : TxCore) (arg : Z) : TxCore * bool :=
  if negb (mtu_tier_valid arg) then (t, false)
  else
    let requested := mtu_tier_budget arg in
    if requested >? t.(tx_c).(tc_mtu_supported) then (t, false)
    else (set_tx_streams (set_tx_budget t requested)
            (map (map_frame_framers (fun f => set_negotiated_packet_budget f requested)) t.(tx_streams)), true).
Definition apply_command (e : TxEnv) (t : TxCore) (log : list Effect) (cmd_id arg now : Z) : option (TxCore * list Effect * bool) :=
  let refuse := Some (t, log, false) in
  if cmd_id =? vcmd_id_kSelector then
    if arg >? 1 then refuse else t ← cmd_selector t arg; Some (t, log, true)
  else if cmd_id =? vcmd_id_kFpsLadder then
    if arg >? 1 then refuse
    else match t.(tx_fps).(fps_ladder_) with Some l => Some (cmd_fps_run t l arg now, log, true) | None => refuse end
  else if cmd_id =? vcmd_id_kFpsSelect then
    if negb t.(tx_c).(tc_venc_enabled) then refuse
    else if arg >=? len t.(tx_c).(tc_preset_fps) then refuse
    else if cmd_fps_ladder t.(tx_fps) then refuse
    else fps ← t.(tx_c).(tc_preset_fps) !! Z.to_nat arg; Some (cmd_fps_select t fps arg, log ++ [EVencSetFps fps], true)
  else if cmd_id =? vcmd_id_kCalibrate then
    if arg >? 1 then refuse else let '(t, ok) := cmd_calibrate e t arg now in Some (t, log, ok)
  else if cmd_id =? vcmd_id_kTxPower then set_power_tier e t log arg
  else if cmd_id =? vcmd_id_kMtuTier then let '(t, ok) := cmd_mtu_tier t arg in Some (t, log, ok)
  else refuse.

Definition reset_negotiated_mtu (e : TxEnv) (t : TxCore) (log : list Effect) : option (TxCore * list Effect * bool) :=
  apply_command e t log vcmd_id_kMtuTier 0 0.

(** ** The node's other calls *)
Definition tx_set_power_override (e : TxEnv) (t : TxCore) (log : list Effect) (qdb : Z) : TxCore * list Effect * bool :=
  let '(p, log, ok) := set_power_override e t.(tx_power) log qdb in (set_tx_power t p, log, ok).
Definition tx_clear_power_override (e : TxEnv) (t : TxCore) (log : list Effect) : TxCore * list Effect :=
  let '(p, log) := clear_power_override e t.(tx_power) log in (set_tx_power t p, log).
Definition tx_reassert_power (e : TxEnv) (t : TxCore) (log : list Effect) : TxCore * list Effect :=
  let '(p, log) := reassert_power e t.(tx_power) log in (set_tx_power t p, log).
Definition set_stream_fec (t : TxCore) (stream_id i_permille p_permille min_r : Z) (e_permille : option Z) : option (TxCore * bool) :=
  match find (fun s => s.(ts_stream_id) =? stream_id) t.(tx_streams) with
  | None => Some (t, false)
  | Some s =>
    if bool_decide (is_Some s.(ts_frame_framer)) then
      '(l, _) ← update_first (fun s => s.(ts_stream_id) =? stream_id)
                  (fun s => Some (map_frame_framers (fun f => set_fec_rates f i_permille p_permille min_r e_permille) s, [])) t.(tx_streams);
      Some (set_tx_streams t l, true)
    else Some (t, false)
  end.
Definition set_csa_armed (t : TxCore) (on : bool) : TxCore :=
  let f := if on then data_flags_kCsaArmed else 0 in
  set_tx_streams t (map (fun s => map_frame_framers (fun ff => FrameFramer.set_extra_flags ff f)
                                    (match s.(ts_framer) with Some x => with_framer s (Framer.set_extra_flags x f) | None => s end)) t.(tx_streams)).
Definition tx_csa_freeze (t : TxCore) (until_ms : Z) : TxCore := set_tx_selector t (csa_freeze t.(tx_selector) until_ms).
Definition tx_set_pressure (t : TxCore) (on : bool) (now : Z) : TxCore := set_tx_selector t (set_pressure t.(tx_selector) on now).
Definition tx_on_rf_environment (t : TxCore) (channel_mhz bw now_ms : Z) : TxCore :=
  set_tx_selector t (on_rf_environment t.(tx_selector) channel_mhz bw now_ms).1.
Definition with_gates (t : TxCore) (report feedback : ReportGate) : TxCore :=
  let r := t.(tx_ret) in set_tx_ret t (MkTxReturn feedback report r.(verdict_epoch_seen_) r.(verdict_epoch_src_) r.(verdict_rx_ms_) r.(reports_received_)).
Definition report_authority_set (t : TxCore) (orig now_ms : Z) : TxCore :=
  with_gates t (force_latch t.(tx_ret).(report_gate_) orig now_ms) (force_latch t.(tx_ret).(feedback_gate_) orig now_ms).
Definition report_authority_clear (t : TxCore) : TxCore :=
  with_gates t (clear_latch t.(tx_ret).(report_gate_)) (clear_latch t.(tx_ret).(feedback_gate_)).
Definition cadence_period_us (t : TxCore) : option Z :=
  let f := t.(tx_fps) in
  let rest := if negb (f.(cmd_fps_select_hz_) =? 0) then Some (1000000 / f.(cmd_fps_select_hz_))
              else if negb (f.(frame_cadence_us_) =? 0) then Some f.(frame_cadence_us_)
              else if t.(tx_c).(tc_fps_hint) =? 0 then None else Some (1000000 / t.(tx_c).(tc_fps_hint)) in
  match f.(fps_ladder_) with
  | Some l => if l.(fl_current) >? 0 then Some (1000000 / l.(fl_current)) else rest
  | None => rest
  end.
Definition reset_stream_stats (s : TxStream) : TxStream :=
  let framer := Framer.reset_stats <$> s.(ts_framer) in
  let ff := FrameFramer.reset_stats <$> s.(ts_frame_framer) in
  match s.(ts_jscc_shadow) with
  | Some sh => MkTxStream s.(ts_stream_id) s.(ts_stream_type) framer ff (Some (shadow_reset sh)) JsccShadowResult_init 0 0 0 s.(ts_jscc_enforce) 0 0 0
  | None => MkTxStream s.(ts_stream_id) s.(ts_stream_type) framer ff None s.(ts_jscc_latest) s.(ts_jscc_decision_frames) s.(ts_jscc_valid_decisions)
              s.(ts_jscc_fallback_decisions) s.(ts_jscc_enforce) s.(ts_jscc_enforced_frames) s.(ts_jscc_discarded_frames) s.(ts_jscc_exempt_frames)
  end.
Definition tx_reset_stats (t : TxCore) : TxCore :=
  let r := t.(tx_ret) in
  set_tx_ret (set_tx_streams t (map reset_stream_stats t.(tx_streams)))
    (MkTxReturn r.(feedback_gate_) r.(report_gate_) r.(verdict_epoch_seen_) r.(verdict_epoch_src_) r.(verdict_rx_ms_) 0).
Definition SelectorReason_code (r : SelectorReason) : Z :=
  match r with
  | kNone => 0 | kBoot => 1 | kLossEmergency => 2 | kLossPersistent => 3 | kReportTimeout => 4 | kRssiFloor => 5 | kRssiFade => 6
  | kBackpressure => 7 | kPromote => 8 | kRepin => 9 | kEnvironmentReset => 10
  end.
Definition selector_state (t : TxCore) (now_ms : Z) : option SelectorState :=
  let s := t.(tx_selector) in
  lock ← lockout s now_ms;
  active ← profile_id s;
  ewma ← loss_ewma_milli s;
  let fl := Z.lor (Z.lor (if lock.(sl_active) then selector_state_flags_kActive else 0) (if lock.(sl_latched) then selector_state_flags_kLatched else 0))
              (Z.lor (if lock.(sl_conflict) then selector_state_flags_kConflict else 0) selector_state_flags_kHolderPresent) in
  let '(fl, word, fp) := match t.(tx_calib).(calibrator_) with
                         | Some c => (Z.lor fl selector_state_flags_kCalibPresent, word c, t.(tx_calib).(calib_fingerprint_))
                         | None => (fl, 0, 0)
                         end in
  Some (MkSelectorState (MkCommonPrefix t.(tx_c).(tc_originator) 0 t.(tx_c).(tc_session)) t.(tx_c).(tc_table_version) active (safe_floor_profile s)
          lock.(sl_ceiling_profile) lock.(sl_profile) fl (if lock.(sl_active) then lock.(sl_strikes) else 0)
          (to_u16 (Z.min lock.(sl_remaining_ms) 0xFFFF)) (SelectorReason_code s.(op).(reason_)) s.(loss).(loss_window_milli_)
          lock.(sl_active_mask) lock.(sl_latched_mask) ewma s.(loss).(loss_uniq_) (loss_score s) (latched_originator t.(tx_ret).(report_gate_)) word fp).

(** ** Construction *)
Record TxStreamCfg : Type := MkTxStreamCfg {
  sc_stream_id : Z;
  sc_stream_type : Z;
  sc_frame_shm : bool;
  sc_fec : FrameFecConfig;
  sc_jscc_shadow : option (JsccRuntimeShadowConfig * bool)
}.
Definition new_stream (originator session tv mp budget : Z) (c : TxStreamCfg) : TxStream :=
  if c.(sc_frame_shm) then
    let ff := set_negotiated_packet_budget
                (FrameFramer.set_operating_point
                   (FrameFramer_init (MkFrameFramerConfig originator session c.(sc_stream_id) c.(sc_stream_type) 0 c.(sc_fec))) 0 tv mp) budget in
    MkTxStream c.(sc_stream_id) c.(sc_stream_type) None (Some ff) (JsccRuntimeShadow_init ∘ fst <$> c.(sc_jscc_shadow)) JsccShadowResult_init 0 0 0
      (match c.(sc_jscc_shadow) with Some (_, enforce) => enforce | None => false end) 0 0 0
  else
    MkTxStream c.(sc_stream_id) c.(sc_stream_type)
      (Some (Framer.set_operating_point (Framer_init (MkFramerConfig originator session c.(sc_stream_id) c.(sc_stream_type) 0)) 0 tv))
      None None JsccShadowResult_init 0 0 0 false 0 0 0.
(** The adapters are the configuration's TX adapters with the curves their maps
    hold; [boot_ladder] is the frame-rate policy and run state of an enabled
    encoder, [rf] the channel and width of the first TX adapter. *)
Definition TxCore_init (c : TxConst) (sp : SelectorPolicy) (gate : ReportGatePolicy) (boot_ladder : option (FpsLadderPolicy * bool))
    (power : list PowerAdapter) (targets : list PowerTarget) (streams : list TxStreamCfg) (rf : option (Z * Z)) : TxCore :=
  let t := MkTxCore c (Selector_init sp c.(tc_table)) (TxPower_init power targets)
    (MkTxCalib None CalibrationPolicy_init DwellReceiver_init 0 2000 0 0 0 kUplinkRxMcsUnknown 0 false)
    (MkTxFps (FpsLadder_init ∘ fst <$> boot_ladder) (match boot_ladder with Some (_, on) => on | None => true end) 0 0 0 0 0)
    (MkTxReturn (ReportGate_init gate) (ReportGate_init gate) 0 None 0 0) [] kDefaultMaxPayload false kProbeMcsNone in
  let t := match rf with Some (mhz, bw) => set_tx_selector t (on_rf_environment t.(tx_selector) mhz bw 0).1 | None => t end in
  set_tx_streams t (map (new_stream c.(tc_originator) c.(tc_session) c.(tc_table_version) (profile_max_payload_for t 0) kDefaultMaxPayload) streams).

(** ** The node's boot ([run_tx], [node/src/tx_node.cpp]) *)
(** A stored artifact: whether it was stored under the adapter's identity, its
    curve, its placements, its fingerprint. *)
Record CalibStored : Type := MkCalibStored { cst_ours : bool; cst_curve : PowerCurve; cst_placement_qdb : list Z; cst_fingerprint : Z }.
(** What the node knows of its backend: relative, whether the lever works; and
    of calibration: the policy, whether the adapter has an identity, its
    fingerprint, its ceiling, what the store holds. *)
Record NodeBoot : Type := MkNodeBoot {
  nb_relative : bool;
  nb_actuator : option bool;
  nb_policy : CalibrationPolicy;
  nb_ident : bool;
  nb_ident_fingerprint : Z;
  nb_max_power_qdb : option Z;
  nb_stored : option CalibStored
}.
Definition set_calib_identity (t : TxCore) (fp : Z) : TxCore :=
  let k := t.(tx_calib) in
  set_tx_calib t (MkTxCalib k.(calibrator_) k.(calib_policy_) k.(calib_rx_) fp k.(feed_quiet_ms_) k.(calib_probes_tx_)
                    k.(calib_tallies_rx_) k.(calib_tallies_tx_) k.(calib_rx_mcs_) k.(calib_fingerprint_) k.(calib_stale_)).
Definition set_calib_loaded (t : TxCore) (fp : Z) (stale : bool) : TxCore :=
  let k := t.(tx_calib) in
  set_tx_calib t (MkTxCalib k.(calibrator_) k.(calib_policy_) k.(calib_rx_) k.(calib_ident_fingerprint_) k.(feed_quiet_ms_) k.(calib_probes_tx_)
                    k.(calib_tallies_rx_) k.(calib_tallies_tx_) k.(calib_rx_mcs_) fp stale).
Definition boot_load (t : TxCore) (st : CalibStored) : TxCore :=
  let space_ok := match offset_window t.(tx_power) with
                  | Some (lo, hi) => forallb (fun q => negb ((q <? lo) || (q >? hi))) st.(cst_placement_qdb)
                  | None => true
                  end in
  if st.(cst_ours) && space_ok
  then set_calib_loaded (if has_power_curve t.(tx_power) then t else set_tx_power t (install_curve t.(tx_power) st.(cst_curve)))
         st.(cst_fingerprint) t.(tx_calib).(calib_stale_)
  else set_calib_loaded t t.(tx_calib).(calib_fingerprint_) true.
Definition node_boot (e : TxEnv) (b : NodeBoot) (t : TxCore) : TxCore * list Effect :=
  let t := set_tx_power t (set_backend_relative t.(tx_power) b.(nb_relative)) in
  let t := match b.(nb_actuator) with Some ok => set_tx_power t (set_power_actuator t.(tx_power) ok) | None => t end in
  let t := seed_calib_policy t b.(nb_policy) in
  let t := if b.(nb_ident) then init_calibration t b.(nb_policy) b.(nb_max_power_qdb) else t in
  let t := set_calib_identity t b.(nb_ident_fingerprint) in
  let t := match b.(nb_stored) with Some st => if b.(nb_ident) then boot_load t st else t | None => t end in
  (t, apply_boot_power_offsets e t.(tx_power) []).
