(* ===== verification/TxCoreFacts.v ===== *)
(** * The invariant of the craft's core: lemmas

    Streams, the calibration exchange and its drain of probes, then the core.
    Every operation of the core is defined and keeps the core well formed and
    its power writes bounded; and where the radio takes every write, the
    adapters hold what they are owed whenever no calibration holds them. *)
From Stdlib Require Import String.
From S2P Require Import Prelude Endian Types Wire WireLayout WireFacts Table FrameShm FrameFramer FrameSpec FramerFacts Framer FramerProps McsProbe Double Selector SelectorSpec SelectorProps Feedback FeedbackProps Dwell Calibrate CalibrateProps Pacing Jscc TxPower TxPowerProps TxCore.
Open Scope Z_scope.

(** ** A datagram framer takes any datagram *)
Record datagrams_ok (f : Framer) : Prop := {
  do_cfg : wf_framer_cfg f;
  do_seq : u32 f.(fr_next_seq);
  do_block : u32 f.(fr_block_id)
}.
Lemma on_datagram_total f d now : datagrams_ok f -> bytes d -> exists ok out f', Framer.on_datagram f d now = Some (ok, out, f') /\ datagrams_ok f'.
Proof.
  intros [[C1 C2 C3 C4 C5 C6 C7] Hs Hb] Hd. unfold Framer.on_datagram. set (f1 := with_stats f _).
  rewrite Z.gtb_ltb. destruct (Z.ltb_spec kMaxDataPayload (len d)); [eexists _, _, _; split; [done|]; by constructor|].
  assert (Eb : (if f1.(fr_cfg).(fc_stream_type) =? stream_type_kRtp
    then rtp ← parse_rtp_header (Some d) (len d); Some (rtp_boundary f1 rtp)
    else Some (datagram_boundary f1)) = Some (boundary f1 d)).
  { unfold boundary, is_rtp. rewrite parse_rtp_ok. by destruct (_ =? _). }
  rewrite Eb. cbn [mbind option_bind].
  assert (Hk : datagrams_ok (boundary f1 d).1).
  { unfold boundary, rtp_boundary, datagram_boundary. destruct (is_rtp f1); [destruct (rtp_of d)|]; constructor; try done; cbn;
      repeat case_match; auto using to_u32_u32. }
  destruct (boundary f1 d) as [f2 eob]. cbn [fst] in Hk. destruct Hk as [[D1 D2 D3 D4 D5 D6 D7] Hs2 Hb2].
  destruct (frame_decodes (frame_hdr f2 eob) d) as (n & buf & -> & Hn & _); [|done|done|].
  { unfold frame_hdr, wf_data_header, wf_prefix. cbn. split_and!; auto using to_u8_u8. }
  cbn [mbind option_bind]. destruct (Z.eqb_spec n 0); [done|]. eexists _, _, _. split; [done|]. constructor; cbn; auto using to_u32_u32. by constructor.
Qed.
Lemma datagrams_point f id tv : datagrams_ok f -> u8 id -> u8 tv -> datagrams_ok (Framer.set_operating_point f id tv).
Proof. intros [[] ? ?] ? ?. by constructor. Qed.
Lemma datagrams_flags f x : datagrams_ok f -> datagrams_ok (Framer.set_extra_flags f x).
Proof. intros [[] ? ?]. by constructor. Qed.
Lemma datagrams_reset f : datagrams_ok f -> datagrams_ok (Framer.reset_stats f).
Proof. intros [[] ? ?]. by constructor. Qed.

(** ** A frame framer takes any frame *)
Record frames_ok (f : FrameFramer) : Prop := {
  fo_wf : wf_framer f;
  fo_budget : f.(FrameFramer.negotiated_packet_budget_) <= 4122
}.
Definition blob_ok (blob : ptr) : Prop := match blob with Some b => bytes b /\ u32 (len b) | None => True end.
Definition blob_len (blob : ptr) : Z := match blob with Some b => len b | None => 0 end.

Lemma wf_override f o : wf_framer f -> u16 (default 0 o) -> wf_framer (set_override f o).
Proof. intros [] ?. by constructor. Qed.
Lemma frames_override f o : frames_ok f -> u16 (default 0 o) -> frames_ok (set_override f o).
Proof. intros [H ?] ?. constructor; [by apply wf_override|done]. Qed.
Lemma symbol_size_max f : frames_ok f -> symbol_size f <= 4085.
Proof.
  intros [[] Hb]. assert (H : 0 <= effective_packet_budget f <= 4122).
  { unfold effective_packet_budget, u16 in *. destruct (Z.ltb_spec (profile_max_payload_ f) (FrameFramer.negotiated_packet_budget_ f)); lia. }
  unfold symbol_size, kDataHeaderSize, kFecRepairSubheaderSize. destruct (Z.gtb_spec (effective_packet_budget f - 26 - 11) 0); [|lia].
  rewrite to_u16_id by (unfold u16; lia). lia.
Qed.
(** What a frame leaves of the framer's setup. *)
Lemma on_frame_total f blob now : frames_ok f -> blob_ok blob -> exists ok f' out,
  FrameFramer.on_frame f blob (blob_len blob) now = Some (ok, f', out) /\ frames_ok f'.
Proof.
  intros Hf Hb. pose proof Hf as [Hw Hbud]. pose proof (symbol_size_pos f Hw) as Hs. pose proof (symbol_size_max f Hf).
  destruct (decide (blob = None \/ blob_len blob < 8 \/ frame_k f (blob_len blob) > 65535)) as [Hbad|Hgood].
  - exists false, (set_stats (set_override f None) (stat_malformed f.(stats_))), [].
    split; [|destruct (frames_override f None) as [[] ?]; [done|unfold u16; cbn; lia|by constructor]].
    unfold FrameFramer.on_frame. destruct blob as [b|]; [|reflexivity]. unfold kVencFrameMetaSize.
    destruct (Z.ltb_spec (blob_len (Some b)) 8); [reflexivity|].
    change (symbol_size (set_override f None)) with (symbol_size f). unfold frame_k in Hbad.
    destruct (Z.gtb_spec (1 + (blob_len (Some b) - 1) / symbol_size f) 0xFFFF); [reflexivity|]. exfalso. destruct Hbad as [|[|]]; [done|lia|lia].
  - destruct blob as [b|]; [|by destruct Hgood; left]. cbn in Hb, Hgood. destruct Hb as [Hb Hu].
    destruct (on_frame_spec f b now Hw Hb ltac:(lia) Hu ltac:(done) ltac:(lia)) as (f' & E & E1 & E2 & E3 & E4 & E5 & E6 & E7 & E8 & E9 & E10 & E11).
    cbn [blob_len]. eexists _, _, _. split; [exact E|]. destruct Hw. constructor; [constructor|]; rewrite ?E1, ?E2, ?E3, ?E4, ?E5, ?E6, ?E7, ?E8, ?E9; auto using to_u32_u32.
    unfold u16. cbn. lia.
Qed.
Lemma frames_point f id tv mp : frames_ok f -> u8 id -> u8 tv -> u16 mp -> frames_ok (FrameFramer.set_operating_point f id tv mp).
Proof. intros [[] ?] ? ? ?. constructor; [by constructor|done]. Qed.
Lemma frames_budget f b : frames_ok f -> 0 <= b <= 4122 -> frames_ok (set_negotiated_packet_budget f b).
Proof. intros [[] ?] ?. constructor; [constructor; try done; unfold u16; cbn; lia|cbn; lia]. Qed.
Lemma frames_flags f x : frames_ok f -> u8 x -> frames_ok (FrameFramer.set_extra_flags f x).
Proof. intros [[] ?] ?. constructor; [by constructor|done]. Qed.
Lemma frames_reset f : frames_ok f -> frames_ok (FrameFramer.reset_stats f).
Proof. intros [[] ?]. constructor; [by constructor|done]. Qed.
Lemma frames_rates f i p m e : frames_ok f -> u16 i -> u16 p -> u16 m -> u16 (default 0 e) -> frames_ok (set_fec_rates f i p m e).
Proof. intros [[] ?] ? ? ? ?. constructor; [by constructor|done]. Qed.

(** ** The decision's parity fits *)
Lemma rate_symbols_range r k : 0 <= rate_symbols r k <= 65535.
Proof. unfold rate_symbols. pose proof (to_u32_u32 (r * k + 999)). unfold u32 in *. pose proof (Z.div_pos (to_u32 (r * k + 999)) 1000). lia. Qed.
Definition decided_ok (d : JsccInnerDecision) : Prop := u16 d.(parity_symbols).
Lemma decide_parity i : 0 <= i.(predicted_loss_symbols) <= 65535 -> 0 <= i.(fec_cap_symbols) <= 65535 -> decided_ok (jscc_inner_decide i).
Proof.
  intros H1 H2. unfold decided_ok, jscc_inner_decide. destruct (_ >? _); [unfold u16; cbn; lia|]. cbn [parity_symbols].
  set (gf := if _ <=? _ then _ else _). assert (u16 gf) by (unfold gf; destruct (_ <=? _); [apply to_u16_u16|unfold u16; lia]).
  unfold u16 in *. lia.
Qed.
Lemma evaluate_parity sh f : decided_ok (evaluate sh f).(js_decision).
Proof.
  assert (H0 : decided_ok JsccInnerDecision_init) by (unfold decided_ok, u16; cbn; lia).
  unfold evaluate. destruct (feedback_ sh); [|done]. destruct (_ || _); [done|]. destruct (_ =? 0); [done|].
  destruct (fi_source_tx_remaining_us f); [|done]. destruct (_ =? 0); [done|]. cbn [js_decision]. apply decide_parity; apply rate_symbols_range.
Qed.

(** ** Streams *)
Record stream_ok (s : TxStream) : Prop := {
  so_framer : forall f, s.(ts_framer) = Some f -> datagrams_ok f;
  so_frame_framer : forall f, s.(ts_frame_framer) = Some f -> frames_ok f
}.
Lemma update_first_ok {A} (P : A -> Prop) (C : Effect -> Prop) f g (l : list A) : Forall P l ->
  (forall x, P x -> f x = true -> exists x' out, g x = Some (x', out) /\ P x' /\ Forall C out) ->
  exists l' out, update_first f g l = Some (l', out) /\ Forall P l' /\ Forall C out.
Proof.
  intros Hl Hg. induction Hl as [|x l Hx Hl (l' & out & IH & H1 & H2)]; [by exists [], []|]. cbn [update_first]. destruct (f x) eqn:Ef.
  - destruct (Hg x Hx Ef) as (x' & o & -> & ? & ?). cbn. exists (x' :: l), o. split; [done|]. by split; [constructor|].
  - rewrite IH. cbn. exists (x :: l'), out. split; [done|]. by split; [constructor|].
Qed.
Definition quiet_effect (c : Effect) : Prop := match c with EApplyPower _ _ | EApplyPowerOffset _ _ => False | _ => True end.
Lemma inject_quiet {A} (f : A -> list Z) l : Forall quiet_effect (map (fun x => EInject (f x)) l).
Proof. apply Forall_map. by apply Forall_forall. Qed.

Lemma stream_framer_ok s f : stream_ok s -> datagrams_ok f -> stream_ok (with_framer s f).
Proof. intros [H1 H2] Hf. constructor; cbn; [by intros ? [= <-]|done]. Qed.
Lemma stream_frame_framer_ok s f : stream_ok s -> frames_ok f -> stream_ok (with_frame_framer s f).
Proof. intros [H1 H2] Hf. constructor; cbn; [done|by intros ? [= <-]]. Qed.
Lemma map_frame_framers_ok g s : (forall f, frames_ok f -> frames_ok (g f)) -> stream_ok s -> stream_ok (map_frame_framers g s).
Proof. intros Hg Hs. unfold map_frame_framers. destruct (ts_frame_framer s) eqn:E; [|done]. apply stream_frame_framer_ok; [done|]. by apply Hg, (so_frame_framer s). Qed.
Lemma jscc_frame_ok e s ff sh en d n now : stream_ok s -> frames_ok ff ->
  stream_ok (jscc_frame e s ff sh en d n now).1 /\ forall ff', (jscc_frame e s ff sh en d n now).2 = Some ff' -> frames_ok ff'.
Proof.
  intros Hs Hf. unfold jscc_frame. set (r := evaluate _ _). assert (Hd : forall a b c, stream_ok (with_decision s r a b c)) by (intros; by destruct Hs).
  destruct (_ && _); [|split; [apply Hd|by intros ? [= <-]]]. destruct en; [split; [apply Hd|by intros ? [= <-]]|].
  destruct (discard _); [split; [apply Hd|done]|].
  split; [apply Hd|]. intros ff' [= <-]. apply frames_override; [done|]. apply evaluate_parity.
Qed.
Lemma stream_frame_ok e d meta en blob now s : stream_ok s -> is_Some s.(ts_frame_framer) -> is_Some d -> blob_ok blob ->
  exists s' out, stream_frame e d meta en blob (blob_len blob) now s = Some (s', out) /\ stream_ok s' /\ Forall quiet_effect out.
Proof.
  intros Hs [ff Eff] [x ->] Hb. unfold stream_frame. rewrite Eff. cbn [mbind option_bind]. pose proof (so_frame_framer s Hs ff Eff) as Hf.
  assert (Hst : exists s1 o, (match s.(ts_jscc_shadow) with
              | Some sh => if meta : bool then Some (jscc_frame e s ff sh en x (blob_len blob) now) else Some (s, Some ff)
              | None => Some (s, Some ff) end) = Some (s1, o) /\ stream_ok s1 /\ forall ff', o = Some ff' -> frames_ok ff').
  { destruct (ts_jscc_shadow s) as [sh|]; [destruct meta|]; [|by eexists _, _; split; [done|]; split; [done|intros ? [= <-]]..].
    cbn [mbind option_bind]. pose proof (jscc_frame_ok e s ff sh en x (blob_len blob) now Hs Hf) as [H1 H2].
    destruct (jscc_frame _ _ _ _ _ _ _ _) as [s1 o]. by exists s1, o. }
  destruct Hst as (s1 & o & -> & Hs1 & Ho). cbn [mbind option_bind]. destruct o as [ff1|]; [|by exists s1, []].
  destruct (on_frame_total ff1 blob now (Ho _ eq_refl) Hb) as (ok & f' & out & -> & Hf'). cbn [mbind option_bind].
  eexists _, _. split; [done|]. split; [by apply stream_frame_framer_ok|apply inject_quiet].
Qed.
Lemma read_meta_total blob out : blob_ok blob -> exists ok m, read_frame_meta blob (blob_len blob) out = Some (ok, m).
Proof.
  intros Hb. unfold read_frame_meta. destruct blob as [b|]; [|by eexists _, _]. cbn [blob_len]. unfold kVencFrameMetaSize.
  destruct (Z.ltb_spec (len b) 8); [by eexists _, _|]. do 8 (destruct b as [|? b]; [cbn in *; lia|]). cbn. by eexists _, _.
Qed.

(** ** Probes *)
Definition rx_ok (r : DwellReceiver) : Prop := length r.(acc_).(acc_seen) = 16%nat.
Lemma test_set_total l seq : length l = 16%nat -> 1 <= seq <= 1024 -> exists l' b, test_set l seq = Some (l', b) /\ length l' = 16%nat.
Proof.
  intros Hl Hs. unfold test_set. rewrite to_u16_id by (unfold u16; lia). rewrite Z.shiftr_div_pow2 by lia. change (2 ^ 6) with 64.
  assert (0 <= (seq - 1) / 64 < 16) by (split; [apply Z.div_pos; lia|apply Z.div_lt_upper_bound; lia]).
  destruct (lookup_lt_is_Some_2 l (Z.to_nat ((seq - 1) / 64))) as [w ->]; [lia|]. cbn. eexists _, _. split; [done|]. by rewrite length_insert.
Qed.
Lemma book_total a seq rssi m : length a.(acc_seen) = 16%nat -> 1 <= seq -> exists a', book a seq rssi m = Some a' /\ length a'.(acc_seen) = 16%nat.
Proof.
  intros Ha Hs. unfold book, kMaxDwellFrames. destruct (Z.leb_spec seq 1024); [|by exists a].
  destruct (test_set_total (acc_seen a) seq Ha ltac:(lia)) as (l' & b & -> & Hl). cbn. destruct b; by eexists.
Qed.
Lemma on_probe_total r run D seq n rssi m now : rx_ok r -> 1 <= seq -> exists r' out, on_probe r run D seq n rssi m now = Some (r', out) /\ rx_ok r'.
Proof.
  intros Hr Hs. unfold on_probe. destruct (if negb (run =? _) then _ else _) as [r1 o1] eqn:E1.
  assert (H1 : rx_ok r1) by (destruct (negb _); by injection E1 as <- <-). clear E1.
  destruct (_ && _); [by eexists _, _|]. destruct (_ || _); [by eexists _, _|].
  destruct (if negb (D =? _) then _ else _) as [r2 o2] eqn:E2.
  assert (H2 : rx_ok r2) by (repeat case_match; injection E2 as <- <-; done). clear E2.
  destruct (book_total (acc_ r2) seq rssi m H2 Hs) as (a & -> & Ha). cbn [mbind option_bind]. destruct (_ =? _); by eexists _, _.
Qed.
Lemma probe_seq_pos d p : bytes d -> decode (Some d) = Some (DCalibProbe p) -> 1 <= p.(cp_seq).
Proof.
  intros Hd H. destruct (decode_canonical_lemma d _ Hd H) as [(x & ?)|[(x & ?)|[(x & ?)|(q & [Hr|Hr])]]]; try done.
  - destruct Hr as (Hw & Hv & _ & Hview & _). destruct q; try discriminate Hview. cbn in Hview, Hv, Hw. injection Hview as <-. cbn. bool_hyps. destruct_and?. unfold u16 in *. lia.
  - destruct Hr as (Hw & Hv & Hview & _). destruct q; try discriminate Hview. cbn in Hview, Hv, Hw. injection Hview as <-. cbn. bool_hyps. destruct_and?. unfold u16 in *. lia.
Qed.

(** ** The calibrator's arrays and sender *)
Record sender_ok (d : DwellSender) : Prop := {
  sd_retries : 0 <= d.(ds_retries_left);
  sd_params : 0 <= d.(ds_p).(max_probes_per_tick) <= 65534 /\ 0 <= d.(ds_p).(tally_retries)
}.
Definition parts_ok (c : Calibrator) : Prop := arrays_ok c.(c_artifact) /\ sender_ok c.(c_dwell).
Lemma finish_parts c st r : parts_ok c -> parts_ok (finish c st r).
Proof. by intros [? []]. Qed.
Lemma begin_sender d run D n now : sender_ok d -> sender_ok (begin d run D n now).1.
Proof. intros [H1 [H2 H3]]. unfold begin. by destruct (_ || _). Qed.
Lemma begin_parts c now n : parts_ok c -> parts_ok (begin_dwell c now n).
Proof. intros [H1 H2]. split; [done|]. cbn. by apply begin_sender. Qed.
Lemma set_at_length {A} (l l' : list A) i x : set_at l i x = Some l' -> length l' = length l.
Proof. unfold set_at. destruct (_ && _); [|done]. intros [= <-]. apply length_insert. Qed.
Lemma sync_parts c c' : parts_ok c -> sync_ceiling c = Some c' -> parts_ok c'.
Proof.
  intros [[A1 A2 A3 A4] H2]. unfold sync_ceiling. destruct (set_at _ _ _) as [l|] eqn:E; [|done]. apply set_at_length in E. intros [= <-].
  split; [|done]. constructor; cbn; congruence.
Qed.
Lemma apply_parts c a now st c' a' : parts_ok c -> apply_step c a now st = Some (c', a') -> parts_ok c'.
Proof.
  intros Hc. unfold apply_step. destruct (sync_ceiling c) as [c1|] eqn:E; [|done]. apply sync_parts in E; [|done]. cbn [mbind option_bind]. intros [= H].
  assert (H2 : forall r q s, parts_ok (with_seek c1 r q s)) by (intros; by destruct E).
  destruct (ss_kind st); cbn in H; injection H as <- _; try (by apply begin_parts); by destruct E as [? []].
Qed.
Lemma next_parts c a now c' a' : parts_ok c -> length c.(c_p).(cb_levels) = 8%nat -> next_rung c a now = Some (c', a') -> parts_ok c'.
Proof.
  intros Hc Hl. unfold next_rung. destruct (_ >=? _).
  - destruct (if cb_taper_rung_ceiling _ then _ else _) as [w|]; [|done]. cbn [mbind option_bind]. intros [= H].
    destruct w; cbn in H; injection H as <- _; destruct Hc as [[A1 A2 A3 A4] [B1 B2]]; by split.
  - destruct (seek_begin_at _ _) as [s st]. intros [= <- _]. apply begin_parts. by destruct Hc.
Qed.
Lemma record_parts c q c' : parts_ok c -> record_placement c q = Some c' -> parts_ok c' /\ c'.(c_p) = c.(c_p).
Proof.
  intros [[A1 A2 A3 A4] H2]. unfold record_placement. destruct (set_at (ca_placement_qdb _) _ _) as [l1|] eqn:E1; [|done].
  destruct (set_at (ca_placement_rssi _) _ _) as [l2|] eqn:E2; [|done]. destruct (set_at (ca_placement_loss_milli _) _ _) as [l3|] eqn:E3; [|done].
  apply set_at_length in E1, E2, E3. intros [= <-]. split; [|done]. split; [|done]. constructor; cbn; congruence.
Qed.
Lemma sync_p c c' : sync_ceiling c = Some c' -> c'.(c_p) = c.(c_p).
Proof. unfold sync_ceiling. destruct (set_at _ _ _); [|done]. by intros [= <-]. Qed.
Lemma tick_parts c now c' a : parts_ok c -> length c.(c_p).(cb_levels) = 8%nat -> Calibrate.tick c now = Some (c', a) -> parts_ok c'.
Proof.
  intros Hc Hl. unfold Calibrate.tick. destruct (negb (bool_decide (c_state c = _))); [intros [= <- _]; by destruct Hc|].
  destruct (_ >? _); [intros [= <- _]; by destruct Hc as [? []]|]. destruct (bool_decide _).
  { unfold dwell_blackout. destruct (on_dwell _ _ _ _) as [sk st]. assert (H : parts_ok (with_seek c (c_rung c) (c_qdb c) sk)) by (by destruct Hc).
    destruct (ss_kind st); intros E; try (by apply apply_parts in E); injection E as <- _; by destruct H as [? []]. }
  destruct (c_enter_rung c); [intros [= <- _]; apply begin_parts; by destruct Hc|]. destruct (negb _); [by intros [= <- _]|].
  unfold dwell_done. destruct (on_dwell _ _ _ _) as [sk st]. set (c1 := with_seek _ _ _ _).
  assert (H : parts_ok c1) by (by destruct Hc as [? []]). assert (Hp : c_p c1 = c_p c) by done. clearbody c1.
  destruct (ss_kind st); try (by intros E; apply apply_parts in E). destruct (in_verify _); [|by intros E; apply apply_parts in E].
  destruct (record_placement c1 _) as [c2|] eqn:E2; [|done]. apply record_parts in E2 as [H2 P2]; [|done]. cbn [mbind option_bind].
  destruct (sync_ceiling c2) as [c3|] eqn:E3; [|done]. pose proof (sync_p _ _ E3) as P3. apply sync_parts in E3; [|done]. cbn [mbind option_bind].
  intros E. apply next_parts in E; [done|done|congruence].
Qed.
Lemma next_probe_sender d now : sender_ok d -> sender_ok (next_probe d now).1.
Proof.
  intros [H1 H2]. unfold next_probe. destruct (ds_state d); try done.
  - destruct (_ >=? _); [done|]. by destruct (_ <? _).
  - destruct (_ <? _); [done|]. destruct (Z.eqb_spec (ds_retries_left (accrue_ d now)) 0); [done|]. constructor; cbn in *; lia || done.
Qed.
Lemma cal_event_parts c ev c' a : parts_ok c -> length c.(c_p).(cb_levels) = 8%nat -> cal_step c ev = Some (c', a) -> parts_ok c'.
Proof.
  intros Hc Hl. destruct ev; cbn [cal_step]; intros E; [injection E as <- _..|].
  - unfold start. destruct (decide _); [done|]. destruct (seek_begin_at _ _) as [s st]. by destruct Hc.
  - unfold abort. destruct (decide _); [by apply finish_parts|done].
  - unfold calib_on_tally. destruct (decide _); [|done]. destruct Hc as [H1 [H2 H3]]. split; [done|]. cbn. unfold on_tally.
    destruct (_ && _); [done|]. destruct (_ || _); done.
  - by destruct Hc as [? []].
  - unfold calib_next_probe. destruct (_ || _); [done|]. destruct Hc as [H1 H2]. pose proof (next_probe_sender (c_dwell c) now_ms H2).
    by destruct (next_probe _ _).
  - by apply tick_parts in E.
Qed.

(** ** The drain of the probes ends *)
Definition probes_left (d : DwellSender) : Z :=
  match d.(ds_state) with
  | dEmitting => Z.max 0 (d.(ds_p).(max_probes_per_tick) - d.(ds_emitted_this_tick)) + d.(ds_retries_left) + 1
  | dAwaitTally => d.(ds_retries_left) + 1
  | _ => 1
  end.
Lemma next_probe_left d now d' q : sender_ok d -> 0 <= d.(ds_emitted_this_tick) -> next_probe d now = (d', Some q) ->
  probes_left d' < probes_left d /\ 0 <= d'.(ds_emitted_this_tick).
Proof.
  intros [H1 [H2 H3]] He. unfold next_probe, probes_left. destruct (ds_state d) eqn:Es; try done.
  - rewrite Z.geb_leb. destruct (Z.leb_spec (max_probes_per_tick (ds_p (accrue_ d now))) (ds_emitted_this_tick (accrue_ d now))) as [|Hlt]; [done|].
    destruct (_ <? _); [done|]. cbn in Hlt. rewrite (to_u16_id (ds_emitted_this_tick (accrue_ d now) + 1)) by (unfold u16; cbn; lia). intros [= <- _]. cbn. rewrite Es. destruct (_ =? _); lia.
  - destruct (_ <? _); [done|]. destruct (_ =? 0); [done|]. intros [= <- _]. cbn. rewrite Es. lia.
Qed.

(** ** Small facts *)
Lemma profile_id_some s : shaped s -> is_Some (profile_id s).
Proof.
  intros Hs. unfold profile_id. destruct (decide (ladder_size s = 0)%nat); [by eexists|].
  destruct (lookup_lt_is_Some_2 (ladder s) (op s).(rung_)) as [p ->]; [by apply (sh_rung s Hs)|]. by eexists.
Qed.
(** The power calls keep the targets and the committed rate. *)
Definition same_targets (p p' : TxPower) : Prop :=
  p'.(power_targets_) = p.(power_targets_) /\ p'.(backend_relative_) = p.(backend_relative_) /\ p'.(last_commit_mcs_) = p.(last_commit_mcs_).
#[export] Instance same_targets_po : PreOrder same_targets.
Proof. split; [done|]. intros x y z (?&?&?) (?&?&?). split_and!; congruence. Qed.
Section Targets.
Context (e : TxEnv).
Lemma resolve_targets p log m l : same_targets p (resolve_and_apply_power e p log m l).1.
Proof. unfold resolve_and_apply_power. destruct (_ && _); [done|]. by destruct (each _ _ _). Qed.
Lemma committed_targets p log : same_targets p (resolve_committed e p log).1.
Proof. unfold resolve_committed. destruct (last_commit_mcs_ p); [apply resolve_targets|done]. Qed.
Lemma override_targets p log q : same_targets p (set_power_override e p log q).1.1.
Proof. unfold set_power_override. destruct (existsb _ _); [done|]. destruct (power_targets_ p) eqn:E; [done|]. rewrite <- E. destruct (fold_left _ _ _) as [? []]; done. Qed.
Lemma clear_targets p log : same_targets p (clear_power_override e p log).1.
Proof. unfold clear_power_override. by etrans; [|apply committed_targets]. Qed.
Lemma latched_targets p log q : same_targets p (set_power_override e p log q).1.1.
Proof. apply override_targets. Qed.
Lemma reassert_targets p log : same_targets p (reassert_power e p log).1.
Proof. unfold reassert_power. destruct (power_override_ p); [apply override_targets|]. by destruct (each _ _ _). Qed.
Lemma restore_targets p log : same_targets p (restore_power e p log).1.
Proof. unfold restore_power. destruct (power_override_ p); [apply override_targets|]. destruct (curve_actuates p); [apply committed_targets|done]. Qed.
Lemma tier_apply_targets p log : same_targets p (tier_apply e p log).1.
Proof. unfold tier_apply. destruct (power_override_ p); [apply override_targets|apply committed_targets]. Qed.
End Targets.
Lemma window_targets p p' : same_targets p p' -> offset_window p' = offset_window p.
Proof. intros (E1&E2&_). unfold offset_window. by rewrite E1, E2. Qed.
Lemma fold_min_map {A} (g h : A -> Z) (l l' : list A) : Forall2 (fun x y => g y = h x) l l' -> forall z,
  fold_left (fun a x => Z.min a (g x)) l' z = fold_left (fun a x => Z.min a (h x)) l z.
Proof. induction 1 as [|x y l l' E _ IH]; intros z; [done|]. cbn. by rewrite E, IH. Qed.
Lemma tier_window p tier p' : tier_ceilings p tier = Some p' -> offset_window p' = offset_window p.
Proof.
  unfold tier_ceilings. destruct (mapM (tier_adapter tier) _); [|done]. destruct (mapM (tier_target tier) _) as [ts|] eqn:E; [|done].
  intros [= <-]. apply mapM_Some in E. unfold offset_window. cbn.
  assert (F : Forall2 (fun x y => pt_offset_qdb y = pt_offset_qdb x /\ pt_offset_max_qdb y = pt_offset_max_qdb x) (power_targets_ p) ts).
  { eapply Forall2_impl; [exact E|]. intros x y Hxy. by destruct (tier_target_shape _ _ _ Hxy) as (_ & ? & ?). }
  inversion F as [|x y xs ys [E1 E2] F' Ha Hb]; [done|]. cbn [fold_left]. rewrite E1, E2.
  rewrite (fold_min_map pt_offset_qdb pt_offset_qdb xs ys), (fold_min_map pt_offset_max_qdb pt_offset_max_qdb xs ys); [done|..];
    (eapply Forall2_impl; [exact F'|by intros ?? []]).
Qed.
Lemma tier_relative p tier p' : tier_ceilings p tier = Some p' -> p'.(backend_relative_) = p.(backend_relative_).
Proof. unfold tier_ceilings. destruct (mapM (tier_adapter tier) _); [|done]. destruct (mapM (tier_target tier) _); [|done]. by intros [= <-]. Qed.

(** ** The invariant *)
Definition profile_fits (p : Profile) : Prop := u8 p.(pf_id) /\ u16 p.(pf_max_payload) /\ 0 <= p.(pf_mcs) < 8.
Record const_ok (c : TxConst) : Prop := {
  cc_table : forall x, c.(tc_table) = Some x -> Forall profile_fits x.(profiles);
  cc_version : u8 c.(tc_table_version)
}.
Definition calibrator_ok (c : Calibrator) : Prop := params_ok c.(c_p) /\ calib_ok c.(c_p) c /\ parts_ok c /\ exists au, holds au c.
Record core_ok (C : TxConst) (b : list (Z * Z)) (t : TxCore) : Prop := {
  ck_const : t.(tx_c) = C;
  ck_table : t.(tx_selector).(table_) = C.(tc_table);
  ck_selector : shaped t.(tx_selector);
  ck_power : power_ok b t.(tx_power);
  ck_streams : Forall stream_ok t.(tx_streams);
  ck_budget : 0 <= t.(negotiated_packet_budget_) <= 4122;
  ck_rx : rx_ok t.(tx_calib).(calib_rx_);
  ck_calib : forall c, t.(tx_calib).(calibrator_) = Some c -> calibrator_ok c;
  ck_params : forall m, params_ok (calib_params_for t t.(tx_calib).(calib_policy_) m)
}.
(** No calibration holds the power. *)
Definition resting (t : TxCore) : Prop :=
  match t.(tx_calib).(calibrator_) with Some c => c.(c_state) <> cRunning /\ c.(c_restore_pending) = false | None => True end.
Record governed (t : TxCore) (log : list Effect) : Prop := {
  gv_ladder : ladder_size t.(tx_selector) <> 0%nat;
  gv_inv : power_inv t.(tx_power);
  gv_rest : resting t -> settled t.(tx_power) log;
  gv_committed : t.(tx_power).(last_commit_mcs_) = None -> t.(tx_selector).(op).(phase_) = kPhaseBoot
}.
Lemma settled_quiet p log l : Forall quiet_effect l -> settled p log -> settled p (log ++ l).
Proof.
  intros Hl [S1 S2 S3]. constructor; [done| |done]. eapply Forall_impl; [exact S2|]. intros t Ht. cbn in *. rewrite last_power_quiet; [done|].
  intros c Hc. eapply Forall_forall in Hl; [|exact Hc]. by destruct c.
Qed.
Lemma quiet_fine b l : Forall quiet_effect l -> Forall (bounded_by b) l.
Proof. intros H. eapply Forall_impl; [exact H|]. by intros []. Qed.
Lemma governed_frame t t' log l : ladder_size t'.(tx_selector) = ladder_size t.(tx_selector) -> t'.(tx_power) = t.(tx_power) ->
  (resting t' -> resting t) -> (t.(tx_selector).(op).(phase_) = kPhaseBoot -> t'.(tx_selector).(op).(phase_) = kPhaseBoot) ->
  Forall quiet_effect l -> governed t log -> governed t' (log ++ l).
Proof.
  intros E1 E2 E3 E4 Hl [G1 G2 G3 G4]. constructor; rewrite ?E1, ?E2; auto. intros Hr. apply settled_quiet; auto.
Qed.

Section Core.
Context (C : TxConst) (b : list (Z * Z)) (HC : const_ok C).
Local Abbreviation ok := (core_ok C b).
Local Abbreviation fine := (Forall (bounded_by b)).

Definition step_ok (e : TxEnv) (A : Prop) (t : TxCore) (log : list Effect) (r : option (TxCore * list Effect)) : Prop :=
  exists t' log', r = Some (t', log') /\ ok t' /\ fine log' /\ (all_take e -> A -> governed t log -> governed t' log').
(** An operation that leaves the power, the calibration's hold and the phase. *)
Lemma step_frame e A t log t' l : ok t' -> fine log -> Forall quiet_effect l ->
  ladder_size t'.(tx_selector) = ladder_size t.(tx_selector) -> t'.(tx_power) = t.(tx_power) -> (resting t' -> resting t) ->
  (t.(tx_selector).(op).(phase_) = kPhaseBoot -> t'.(tx_selector).(op).(phase_) = kPhaseBoot) ->
  step_ok e A t log (Some (t', log ++ l)).
Proof.
  intros Ht Hl Hq E1 E2 E3 E4. exists t', (log ++ l). split; [done|]. split; [done|]. split; [apply Forall_app; split; [done|by apply quiet_fine]|].
  intros _ _ G. by apply (governed_frame t).
Qed.
Lemma step_same e A t log t' : ok t' -> fine log ->
  ladder_size t'.(tx_selector) = ladder_size t.(tx_selector) -> t'.(tx_power) = t.(tx_power) -> (resting t' -> resting t) ->
  (t.(tx_selector).(op).(phase_) = kPhaseBoot -> t'.(tx_selector).(op).(phase_) = kPhaseBoot) ->
  step_ok e A t log (Some (t', log)).
Proof. intros. rewrite <- (app_nil_r log) at 2. by apply step_frame. Qed.
Lemma step_none e A t log : ok t -> fine log -> step_ok e A t log (Some (t, log)).
Proof. intros. by apply step_same. Qed.
Lemma step_bind e A B t log r k : step_ok e A t log r -> (A -> B) ->
  (forall t' log', ok t' -> fine log' -> step_ok e B t' log' (k t' log')) -> step_ok e A t log ('(t', log') ← r; k t' log').
Proof.
  intros (t1 & l1 & -> & Ht & Hl & G1) HAB Hk. cbn [mbind option_bind]. destruct (Hk t1 l1 Ht Hl) as (t2 & l2 & E & Ht2 & Hl2 & G2).
  exists t2, l2. split; [exact E|]. split; [done|]. split; [done|]. auto.
Qed.

(** *** Members *)
Lemma ok_selector t s : ok t -> shaped s -> s.(table_) = t.(tx_selector).(table_) -> ok (set_tx_selector t s).
Proof. intros [K1 K2 K3 K4 K5 K6 K7 K8 K9] Hs Et. constructor; try done. cbn. by rewrite Et. Qed.
Lemma ok_power t p : ok t -> power_ok b p -> offset_window p = offset_window t.(tx_power) -> ok (set_tx_power t p).
Proof.
  intros [K1 K2 K3 K4 K5 K6 K7 K8 K9] Hp Ew. constructor; try done. intros m. specialize (K9 m). unfold calib_params_for, table_profiles in *. cbn in *. by rewrite Ew.
Qed.
Lemma ok_streams t l : ok t -> Forall stream_ok l -> ok (set_tx_streams t l).
Proof. intros [K1 K2 K3 K4 K5 K6 K7 K8 K9] Hl. by constructor. Qed.
Lemma ok_fps t f : ok t -> ok (set_tx_fps t f).
Proof. intros [K1 K2 K3 K4 K5 K6 K7 K8 K9]. by constructor. Qed.
Lemma ok_ret t r : ok t -> ok (set_tx_ret t r).
Proof. intros [K1 K2 K3 K4 K5 K6 K7 K8 K9]. by constructor. Qed.
Lemma ok_budget t n : ok t -> 0 <= n <= 4122 -> ok (set_tx_budget t n).
Proof. intros [K1 K2 K3 K4 K5 K6 K7 K8 K9] ?. by constructor. Qed.
Lemma ok_frozen t x : ok t -> ok (set_tx_frozen t x).
Proof. intros [K1 K2 K3 K4 K5 K6 K7 K8 K9]. by constructor. Qed.
Lemma ok_candidate t m : ok t -> ok (set_tx_candidate t m).
Proof. intros [K1 K2 K3 K4 K5 K6 K7 K8 K9]. by constructor. Qed.
Lemma ok_calib t k : ok t -> rx_ok k.(calib_rx_) -> (forall c, k.(calibrator_) = Some c -> calibrator_ok c) ->
  k.(calib_policy_) = t.(tx_calib).(calib_policy_) -> ok (set_tx_calib t k).
Proof. intros [K1 K2 K3 K4 K5 K6 K7 K8 K9] H1 H2 H3. constructor; try done. cbn. by rewrite H3. Qed.
Lemma ok_calibrator t c : ok t -> calibrator_ok c -> ok (set_calibrator t c).
Proof. intros Ht Hc. apply ok_calib; [done|by destruct Ht|by intros ? [= <-]|done]. Qed.
Lemma ok_sel_step t ev : ok t -> (forall now, ev <> STick now) -> exists s', sel_step t.(tx_selector) ev = Some (s', SelectorActions_init) /\
  ok (set_tx_selector t s') /\ ladder_size s' = ladder_size t.(tx_selector) /\ s'.(op).(phase_) = t.(tx_selector).(op).(phase_).
Proof.
  intros Ht Hn. destruct (sel_step_quiet t.(tx_selector) ev Hn (ck_selector _ _ _ Ht)) as (s' & E & (Q1 & _ & _ & Q4 & _) & Hs & _).
  exists s'. split; [done|]. split; [by apply ok_selector|]. split; [|done]. unfold ladder_size, ladder. by rewrite Q1.
Qed.
Lemma ok_pin t mn mx : ok t -> ok (set_pin t mn mx).
Proof. intros Ht. destruct (ok_sel_step t (SPin mn mx) Ht ltac:(done)) as (s' & [= <-] & ? & _). done. Qed.
Lemma calibrator_event c ev c' a : calibrator_ok c -> cal_step c ev = Some (c', a) -> calibrator_ok c'.
Proof.
  intros (Hp & Hc & Hpa & au & Hau) E.
  destruct (cal_step_ok (c_p c) c au ev Hp Hc Hau) as (c1 & a1 & E1 & Hc1 & Hh & _).
  pose proof (cal_event_parts c ev c' a Hpa (po_levels _ Hp) E) as Hpa'. rewrite E in E1. injection E1 as <- <-.
  unfold calibrator_ok. rewrite (co_p _ _ Hc1). split; [done|]. split; [done|]. split; [done|]. by eexists.
Qed.
Lemma ok_cal_event t c ev c' a : ok t -> t.(tx_calib).(calibrator_) = Some c -> cal_step c ev = Some (c', a) -> calibrator_ok c'.
Proof. intros Ht Ec. apply calibrator_event. by apply (ck_calib _ _ _ Ht). Qed.
(** *** Ingress *)
Lemma ingress_step e A t log sid d now : ok t -> fine log -> bytes d -> step_ok e A t log (on_ingress t log sid d now).
Proof.
  intros Ht Hl Hd. unfold on_ingress.
  destruct (update_first_ok stream_ok quiet_effect (fun s => (s.(ts_stream_id) =? sid) && bool_decide (is_Some s.(ts_framer)))
    (fun s => f ← s.(ts_framer); '(_, frames, f) ← Framer.on_datagram f d now; Some (with_framer s f, map (fun x => EInject x.1.1) frames))
    t.(tx_streams) (ck_streams _ _ _ Ht)) as (l & out & -> & H1 & H2).
  - intros s Hs Hf. apply andb_true_iff in Hf as [_ Hf]. apply bool_decide_eq_true in Hf as [f Ef]. rewrite Ef. cbn [mbind option_bind].
    destruct (on_datagram_total f d now (so_framer s Hs f Ef) Hd) as (o & frs & f' & -> & Hf'). cbn [mbind option_bind].
    eexists _, _. split; [done|]. split; [by apply stream_framer_ok|apply (inject_quiet (fun x => x.1.1))].
  - cbn [mbind option_bind]. apply step_frame; try done. by apply ok_streams.
Qed.
Lemma deadline_some t : ok t -> is_Some (frame_deadline_us t).
Proof.
  intros Ht. unfold frame_deadline_us. destruct (tc_table _); [|by eexists]. destruct (profile_id_some _ (ck_selector _ _ _ Ht)) as [i ->]. by eexists.
Qed.
Lemma frame_step e A t log sid blob now : ok t -> fine log -> blob_ok blob -> step_ok e A t log (TxCore.on_frame e t log sid blob (blob_len blob) now).
Proof.
  intros Ht Hl Hb. unfold TxCore.on_frame. destruct (existsb _ _); [|by apply step_none].
  destruct (read_meta_total blob VencFrameMeta_init Hb) as (meta & m & ->). cbn [mbind option_bind]. set (en := _ && _ && _).
  match goal with |- context [set_tx_fps t ?f] => generalize f; intros fps end.
  destruct (update_first_ok stream_ok quiet_effect (frame_stream sid) (stream_frame e (frame_deadline_us t) meta en blob (blob_len blob) now)
    t.(tx_streams) (ck_streams _ _ _ Ht)) as (l & out & -> & H1 & H2).
  - intros s Hs Hf. apply andb_true_iff in Hf as [_ Hf]. apply bool_decide_eq_true in Hf. apply stream_frame_ok; try done. by apply deadline_some.
  - cbn [mbind option_bind]. apply step_frame; try done. apply ok_streams; [by apply ok_fps|done].
Qed.

(** *** Air *)
Lemma feedback_shaped t c : ok t -> c.(cf_selector) = t.(tx_selector) \/ (exists ev, (forall now, ev <> STick now) /\ sel_step t.(tx_selector) ev = Some (c.(cf_selector), SelectorActions_init)) ->
  ok (take_feedback t c) /\ ladder_size c.(cf_selector) = ladder_size t.(tx_selector) /\ c.(cf_selector).(op).(phase_) = t.(tx_selector).(op).(phase_).
Proof.
  intros Ht Hc. unfold take_feedback. destruct Hc as [-> |(ev & Hn & E)].
  - split; [|done]. apply ok_ret. by destruct t.
  - destruct (ok_sel_step t ev Ht Hn) as (s' & E' & H1 & H2 & H3). rewrite E in E'. injection E' as <-. split; [|done]. by apply ok_ret.
Qed.
Lemma report_selector c r now : (on_link_report c r now).(cf_selector) = c.(cf_selector) \/ exists ev, (forall now, ev <> STick now) /\
  sel_step c.(cf_selector) ev = Some ((on_link_report c r now).(cf_selector), SelectorActions_init).
Proof.
  unfold on_link_report. destruct (_ || _); [by left|]. destruct (negb _); [by left|]. destruct (accept _ _ _ _) as [g []]; cbn [negb]; [|by left].
  destruct (on_report (cf_selector c) r now) as [s' fr] eqn:E. right. exists (SReport r now). split; [done|]. cbn. by rewrite E.
Qed.
Lemma verdict_selector c v now : (on_link_verdict c v now).(cf_selector) = c.(cf_selector) \/ exists ev, (forall now, ev <> STick now) /\
  sel_step c.(cf_selector) ev = Some ((on_link_verdict c v now).(cf_selector), SelectorActions_init).
Proof.
  unfold on_link_verdict. destruct (_ || _); [by left|]. destruct (negb _); [by left|]. destruct (_ && _); [by left|]. destruct (_ && _); [by left|].
  right. exists (SVerdict v.(lv_verdict) now). by split.
Qed.
Lemma jscc_feedback_step e A t log f now : ok t -> fine log -> step_ok e A t log (t' ← on_jscc_feedback t f now; Some (t', log)).
Proof.
  intros Ht Hl. unfold on_jscc_feedback. destruct (_ || _); [by apply step_none|]. destruct (accept _ _ _ _) as [g ok'].
  set (t1 := set_tx_ret t _). assert (H1 : ok t1) by by apply ok_ret. destruct (negb ok'); [by apply step_same|].
  destruct (update_first_ok stream_ok quiet_effect (fun s => (s.(ts_stream_id) =? f.(jf_target_stream_id)) && bool_decide (is_Some s.(ts_jscc_shadow)))
    (fun s => sh ← s.(ts_jscc_shadow); Some (with_shadow s (observe_feedback sh f now).1, [])) t1.(tx_streams) (ck_streams _ _ _ Ht)) as (l & out & -> & H2 & H3).
  - intros s Hs Hf. apply andb_true_iff in Hf as [_ Hf]. apply bool_decide_eq_true in Hf as [sh ->]. cbn. eexists _, _. split; [done|].
    split; [by destruct Hs|done].
  - cbn [mbind option_bind]. apply step_same; try done. by apply ok_streams.
Qed.
Lemma calib_probe_step e A t log p rssi m now : ok t -> fine log -> 1 <= p.(cp_seq) -> step_ok e A t log (on_calib_probe e t log p rssi m now).
Proof.
  intros Ht Hl Hp. unfold on_calib_probe. destruct (negb _); [by apply step_none|].
  destruct (on_probe_total (calib_rx_ (tx_calib t)) (cp_run_id p) (cp_dwell_id p) (cp_seq p) (cp_count p) rssi m now (ck_rx _ _ _ Ht) Hp) as (rx & out & -> & Hrx).
  cbn [mbind option_bind].
  assert (Hk : forall n, ok (set_tx_calib t (with_calib_rx (tx_calib t) rx n))) by (intros n; apply ok_calib; try done; apply Ht).
  destruct (_ && _); [|by apply step_same]. set (pkt := MkCalibTally _ _ _ _ _ _ _).
  assert (He : exists n o, encode_calib_tally pkt (Some (replicate (Z.to_nat kCalibTallySize) 0)) kCalibTallySize = Some (n, Some o)).
  { pose proof (fun o cap => encode_calib_tally_spec o cap pkt) as H. unfold encodes_as, encode_packet in H.
    rewrite H by done. destruct (_ && _); by eexists _, _. }
  destruct He as (n & o & ->). cbn [mbind option_bind]. destruct (n =? 0); [by apply step_same|]. apply step_frame; try done. by constructor.
Qed.
Lemma tally_step e A t log p : ok t -> fine log -> step_ok e A t log (Some (tx_on_tally t p, log)).
Proof.
  intros Ht Hl. unfold tx_on_tally. destruct (negb _); [by apply step_none|]. destruct (calibrator_ (tx_calib t)) as [c|] eqn:Ec; [|by apply step_none].
  apply step_same; try done.
  - apply ok_calib; [done|apply Ht|intros c' [= <-]; by eapply (ok_cal_event t c (ETally _ _ _ _ _ _))|done].
  - unfold resting. cbn. rewrite Ec. unfold calib_on_tally. by destruct (decide _).
Qed.
Lemma air_step e A t log d now rssi m : ok t -> fine log -> bytes d -> step_ok e A t log (on_air e t log d now rssi m).
Proof.
  intros Ht Hl Hd. unfold on_air. destruct (decode_total_lemma (Some d)) as [dec Hdec]; [by intros ? [= <-]|]. rewrite Hdec. cbn [mbind option_bind].
  assert (Hf : forall c, c.(cf_selector) = t.(tx_selector) \/ (exists ev, (forall now, ev <> STick now) /\
      sel_step t.(tx_selector) ev = Some (c.(cf_selector), SelectorActions_init)) -> step_ok e A t log (Some (take_feedback t c, log))).
  { intros c Hc. destruct (feedback_shaped t c Ht Hc) as (H1 & H2 & H3). apply step_same; try done. intros E. cbn. by rewrite H3. }
  destruct dec; try (by apply step_none); try (by apply jscc_feedback_step); try (by apply tally_step).
  - apply Hf, report_selector.
  - unfold on_recovery_request. destruct (_ || _); [by apply step_none|]. destruct (existsb _ _); [|by apply step_none]. apply step_frame; try done. by constructor.
  - apply calib_probe_step; try done. by eapply probe_seq_pos.
  - apply Hf, verdict_selector.
Qed.

(** *** Calibration *)
(** The power is somebody's: a calibration's, or where it should be. *)
Definition held (t : TxCore) (log : list Effect) : Prop := power_inv t.(tx_power) /\ (resting t -> settled t.(tx_power) log).
Definition held_ok (e : TxEnv) (t : TxCore) (log : list Effect) (r : option (TxCore * list Effect)) : Prop :=
  exists t' log', r = Some (t', log') /\ ok t' /\ fine log' /\ t'.(tx_selector).(op).(phase_) = t.(tx_selector).(op).(phase_) /\
    (t.(tx_power).(last_commit_mcs_) <> None -> t'.(tx_power).(last_commit_mcs_) <> None) /\
    (all_take e -> t.(tx_power).(last_commit_mcs_) <> None -> held t log -> held t' log').
Lemma held_frame e t log t' l : ok t' -> fine log -> Forall quiet_effect l -> t'.(tx_power) = t.(tx_power) ->
  t'.(tx_selector).(op).(phase_) = t.(tx_selector).(op).(phase_) -> (resting t' -> resting t) -> held_ok e t log (Some (t', log ++ l)).
Proof.
  intros H1 H2 H3 H4 H5 H6. exists t', (log ++ l). split_and!; rewrite ?H4; try done.
  - apply Forall_app. split; [done|by apply quiet_fine].
  - intros _ _ [G1 G2]. unfold held. rewrite H4. split; [done|]. intros Hr. apply settled_quiet; auto.
Qed.
Lemma held_same e t log t' : ok t' -> fine log -> t'.(tx_power) = t.(tx_power) ->
  t'.(tx_selector).(op).(phase_) = t.(tx_selector).(op).(phase_) -> (resting t' -> resting t) -> held_ok e t log (Some (t', log)).
Proof. intros. rewrite <- (app_nil_r log) at 2. by apply held_frame. Qed.
Lemma held_bind e t log r k : held_ok e t log r -> (forall t' log', ok t' -> fine log' -> held_ok e t' log' (k t' log')) ->
  held_ok e t log ('(t', log') ← r; k t' log').
Proof.
  intros (t1 & l1 & -> & Ht & Hl & P1 & L1 & G1) Hk. cbn [mbind option_bind]. destruct (Hk t1 l1 Ht Hl) as (t2 & l2 & E & Ht2 & Hl2 & P2 & L2 & G2).
  exists t2, l2. split_and!; try done; [congruence|auto|auto].
Qed.
Lemma own_window_ok t : ok t -> exists t', own_window t = Some t' /\ ok t' /\ t'.(tx_power) = t.(tx_power) /\ t'.(tx_calib) = t.(tx_calib) /\
  t'.(tx_selector).(op).(phase_) = t.(tx_selector).(op).(phase_) /\ ladder_size t'.(tx_selector) = ladder_size t.(tx_selector).
Proof.
  intros Ht. unfold own_window. destruct (cmd_selector_frozen_ t); [|eexists; split; [done|]; split; [by apply ok_pin|done]].
  destruct (profile_id_some _ (ck_selector _ _ _ Ht)) as [i ->]. eexists; split; [done|]; split; [by apply ok_pin|done].
Qed.
Lemma restore_step e t log : ok t -> fine log -> exists t' log', calib_restore e t log = Some (t', log') /\ ok t' /\ fine log' /\
  t'.(tx_selector).(op).(phase_) = t.(tx_selector).(op).(phase_) /\ t'.(tx_calib) = t.(tx_calib) /\
  t'.(tx_power).(last_commit_mcs_) = t.(tx_power).(last_commit_mcs_) /\
  (all_take e -> power_inv t.(tx_power) -> forall m, t.(tx_power).(last_commit_mcs_) = Some m -> settled t'.(tx_power) log').
Proof.
  intros Ht Hl. unfold calib_restore.
  assert (H0 : ok (set_tx_power t (forget_applied (tx_power t)))) by (apply ok_power; [done|apply forget_ok, Ht|done]).
  destruct (own_window_ok _ H0) as (t1 & -> & Ht1 & Ep & Ec & Eph & _). cbn [mbind option_bind].
  destruct (restore_fine e b _ log (ck_power _ _ _ Ht1) Hl) as [F1 F2]. pose proof (restore_targets e (tx_power t1) log) as Hw.
  pose proof (fun He : all_take e => restore_settles e He (tx_power t) log) as Hs. rewrite Ep in *. cbn [tx_power set_tx_power] in *.
  destruct (restore_power _ _ _) as [p' log']. cbn in F1, F2, Hw, Hs. eexists _, _. split; [done|].
  split; [apply ok_power; [done|done|]|].
  - rewrite (window_targets _ _ Hw), Ep. done.
  - split_and!; try done; [by destruct Hw as (_ & _ & ?)|]. intros He Hp m Em. by apply (Hs He m).
Qed.
Lemma curve_of_length p l : length l = 8%nat -> length p.(cb_levels) = 8%nat -> length (curve_of p l) = 8%nat.
Proof. intros H1 H2. unfold curve_of. rewrite length_zip_with. lia. Qed.
Lemma persist_ok t a fp : ok t -> ok (persist_artifact t a fp) /\ (power_inv t.(tx_power) -> length a.(ca_curve_qdb) = 8%nat -> power_inv (persist_artifact t a fp).(tx_power)) /\
  (persist_artifact t a fp).(tx_selector) = t.(tx_selector) /\ (persist_artifact t a fp).(tx_calib).(calibrator_) = t.(tx_calib).(calibrator_) /\
  (persist_artifact t a fp).(tx_power).(last_commit_mcs_) = t.(tx_power).(last_commit_mcs_).
Proof.
  intros Ht. unfold persist_artifact. destruct (fp =? 0); [done|]. split; [|split; [|done]].
  - apply ok_calib; [apply ok_power; [done|apply install_ok, Ht|done]|apply Ht|apply (ck_calib _ _ _ Ht)|done].
  - intros Hi Hl. cbn. by apply install_inv.
Qed.
Lemma calib_pin_ok t c m : ok t -> t.(tx_calib).(calibrator_) = Some c -> ok (calib_pin t c m) /\ (calib_pin t c m).(tx_power) = t.(tx_power) /\
  (calib_pin t c m).(tx_selector).(op).(phase_) = t.(tx_selector).(op).(phase_) /\ (c.(c_state) = cRunning -> ~ resting (calib_pin t c m)).
Proof.
  intros Ht Ec. assert (Hr : c.(c_state) = cRunning -> ~ resting t) by (unfold resting; rewrite Ec; by intros ? [? _]).
  assert (Hpin : forall a b', ok (set_pin t a b') /\ (set_pin t a b').(tx_power) = t.(tx_power) /\
     (set_pin t a b').(tx_selector).(op).(phase_) = t.(tx_selector).(op).(phase_) /\ (c.(c_state) = cRunning -> ~ resting (set_pin t a b')))
    by (intros; split; [by apply ok_pin|done]).
  unfold calib_pin. destruct (tc_table _); [|apply Hpin]. destruct (profile_id_for_mcs t m); [apply Hpin|].
  split; [apply ok_calibrator; [done|by eapply (ok_cal_event t c (EAbort _))]|]. split; [done|]. split; [done|].
  intros Hs. unfold abort. rewrite decide_True by done. by intros [_ ?].
Qed.
Lemma calibrate_service_ok e t log now : ok t -> fine log -> held_ok e t log (calibrate_service e t log now).
Proof.
  intros Ht Hl. unfold calibrate_service. destruct (calibrator_ (tx_calib t)) as [c|] eqn:Ec; [|by apply held_same].
  destruct (ck_calib _ _ _ Ht c Ec) as (Hp & Hc & Hpa & au & Hau).
  destruct (calib_tick_ok (c_p c) c au now Hp Hc Hau) as (c' & a & E & Hc' & Hal & _ & Hau'). rewrite E. cbn [mbind option_bind].
  assert (Hok' : calibrator_ok c') by by eapply (ok_cal_event t c (ETick now)).
  assert (Ht1 : ok (set_calibrator t c')) by by apply ok_calibrator.
  assert (Hrest : resting t <-> au = Free).
  { unfold resting. rewrite Ec. destruct au as [|pin]; [split; [done|by intros]|]. split; [|done]. intros [? Hrp]. destruct Hau as [[? _]|[_ ?]]; [done|congruence]. }
  destruct au as [|pin].
  - (* nothing to do *)
    cbn in Hal. rewrite Hal in *. destruct (on_calib_artifact e); cbn [act_artifact_ready act_restore act_set_qdb act_pin_rung CalibActions_init mbind option_bind];
      apply held_same; try done; intros _; by apply Hrest.
  - destruct Hal as (_ & _ & A3 & A4 & A5).
    set (t2 := match on_calib_artifact e with Some _ => _ | None => _ end).
    assert (H2 : ok t2 /\ (power_inv t.(tx_power) -> power_inv t2.(tx_power)) /\ t2.(tx_selector) = t.(tx_selector) /\
      t2.(tx_calib).(calibrator_) = Some c' /\ t2.(tx_power).(last_commit_mcs_) = t.(tx_power).(last_commit_mcs_) /\ (act_restore a = false -> t2.(tx_power) = t.(tx_power))).
    { unfold t2. destruct (on_calib_artifact e) as [store|]; [|done]. destruct (act_artifact_ready a) eqn:Ea; [|done].
      destruct (A5 eq_refl) as (Ar & _ & _ & Ecv). destruct (persist_ok (set_calibrator t c') (c_artifact c') (store (c_artifact c')) Ht1) as (P1 & P2 & P3 & P4 & P5).
      split_and!; try done; [|by rewrite Ar]. intros Hi. apply P2; [done|]. rewrite Ecv. destruct Hok' as (_ & _ & [[? _ _ _] _] & _). by apply curve_of_length; [|apply Hp]. }
    clearbody t2. destruct H2 as (Ht2 & Hi2 & Es2 & Ec2 & El2 & Ep2). destruct (act_restore a) eqn:Ar.
    + destruct (A3 eq_refl) as (-> & -> & Hst). destruct (restore_step e t2 log Ht2 Hl) as (t3 & l3 & -> & Ht3 & Hl3 & Eph & Eca & Elc & Hset). cbn [mbind option_bind].
      exists t3, l3. split_and!; try done; [by rewrite Eph, Es2|congruence|]. intros He Hm [Hi _]. destruct (last_commit_mcs_ (tx_power t)) as [m|] eqn:Em; [|done].
      assert (S : settled (tx_power t3) l3) by (apply (Hset He (Hi2 Hi) m); congruence). split; [by destruct S|done].
    + cbn [mbind option_bind]. specialize (A4 eq_refl). specialize (Ep2 eq_refl).
      set (l3 := match act_set_qdb a with Some q => _ | None => _ end).
      assert (Hl3 : fine l3) by (unfold l3; destruct (act_set_qdb a); [apply probe_fine; [apply Ht2|done]|done]). clearbody l3.
      set (t3 := match act_pin_rung a with Some m => _ | None => _ end).
      assert (H3 : ok t3 /\ t3.(tx_power) = t2.(tx_power) /\ t3.(tx_selector).(op).(phase_) = t2.(tx_selector).(op).(phase_) /\ ~ resting t3).
      { unfold t3. destruct (act_pin_rung a) as [m|].
        - destruct (calib_pin_ok t2 c' m Ht2 Ec2) as (?&?&?&?). auto.
        - split_and!; try done. unfold resting. rewrite Ec2. by intros [? _]. }
      clearbody t3. destruct H3 as (Ht3 & Ep3 & Eph3 & Hnr). exists t3, l3. split_and!; try done.
      * by rewrite Eph3, Es2.
      * by rewrite Ep3, El2.
      * intros _ _ [Hi _]. split; [rewrite Ep3; auto|done].
Qed.
Definition idle_calibrator (c : Calibrator) : Prop := c.(c_state) <> cRunning /\ c.(c_restore_pending) = false.
Lemma drain_ok fuel : forall t log c dest budget now, ok t -> calibrator_ok c -> probes_left c.(c_dwell) < Z.of_nat fuel ->
  0 <= c.(c_dwell).(ds_emitted_this_tick) -> (idle_calibrator c -> resting t) ->
  exists t' l, drain_probes fuel t log c dest budget now = Some (t', log ++ l) /\ ok t' /\ Forall quiet_effect l /\ t'.(tx_power) = t.(tx_power) /\
    t'.(tx_selector) = t.(tx_selector) /\ (resting t' -> resting t).
Proof.
  induction fuel as [|fuel IH]; intros t log c dest budget now Ht Hc Hf He Hi.
  { assert (1 <= probes_left (c_dwell c)); [|lia]. destruct Hc as (_ & _ & [_ [? _]] & _). unfold probes_left. destruct (ds_state _); lia. }
  cbn [drain_probes]. pose proof (calibrator_event c (EProbe now) _ _ Hc eq_refl) as Hc'.
  assert (Hsame : forall po c1, calib_next_probe c now = (c1, po) -> c1.(c_state) = c.(c_state) /\ c1.(c_restore_pending) = c.(c_restore_pending) /\
    (po <> None -> probes_left c1.(c_dwell) < probes_left c.(c_dwell) /\ 0 <= c1.(c_dwell).(ds_emitted_this_tick))).
  { intros po c1. unfold calib_next_probe. destruct (_ || _); [by intros [= <- <-]|]. destruct (next_probe (c_dwell c) now) as [d out] eqn:E. intros [= <- <-].
    split; [done|]. split; [done|]. intros Hn. destruct out as [q|]; [|done]. cbn. destruct Hc as (_ & _ & [_ Hs] & _). by eapply next_probe_left. }
  destruct (calib_next_probe c now) as [c1 po]. cbn [fst] in Hc'. destruct (Hsame po c1 eq_refl) as (E1 & E2 & Hlt). clear Hsame.
  assert (Hi1 : idle_calibrator c1 -> resting t) by (unfold idle_calibrator; rewrite E1, E2; exact Hi).
  destruct po as [seq|].
  - destruct (Hlt ltac:(done)) as [Hl1 Hl2]. set (pkt := MkCalibProbe _ _ _ _ _ _).
    assert (Henc : exists n o, encode_calib_probe pkt budget (Some (replicate (Z.to_nat mtu_tier_kHighBudget) 0)) mtu_tier_kHighBudget = Some (n, Some o)).
    { pose proof (encode_calib_probe_spec pkt budget (replicate (Z.to_nat mtu_tier_kHighBudget) 0) mtu_tier_kHighBudget) as H. unfold encodes_as, encode_packet in H.
      rewrite H by done. destruct (_ && _); by eexists _, _. }
    destruct Henc as (n & o & ->). cbn [mbind option_bind]. destruct (n =? 0).
    + apply IH; try done. lia.
    + set (t1 := set_tx_calib t _). destruct (IH t1 (log ++ [ESendCalib (take (Z.to_nat n) o)]) c1 dest budget now) as (t' & l & -> & H1 & H2 & H3 & H4 & H5); try done; [|lia|].
      { apply ok_calib; [done|apply Ht|apply (ck_calib _ _ _ Ht)|done]. }
      exists t', (ESendCalib (take (Z.to_nat n) o) :: l). rewrite <- app_assoc. split; [done|]. split; [done|]. split; [by constructor|]. done.
  - exists (set_calibrator t c1), []. rewrite app_nil_r. split; [done|]. split; [by apply ok_calibrator|]. split; [done|]. split; [done|]. split; [done|]. exact Hi1.
Qed.
Lemma probe_service_ok e t log now : ok t -> fine log -> held_ok e t log (calibrate_probe_service e t log now).
Proof.
  intros Ht Hl. unfold calibrate_probe_service. destruct (calibrator_ (tx_calib t)) as [c|] eqn:Ec; [|by apply held_same]. destruct (negb _); [by apply held_same|].
  pose proof (ok_cal_event t c ENewTick _ _ Ht Ec eq_refl) as Hc'.
  assert (Hi : idle_calibrator (calib_new_tick c) -> resting t) by (unfold resting; by rewrite Ec).
  destruct (_ =? 0); [apply held_same; try done; by apply ok_calibrator|]. unfold mtu_effective.
  destruct (profile_id_some _ (ck_selector _ _ _ Ht)) as [i ->]. cbn [mbind option_bind].
  edestruct (drain_ok (Z.to_nat (max_probes_per_tick (ds_p (c_dwell (calib_new_tick c))) + ds_retries_left (c_dwell (calib_new_tick c)) + 2)) t log)
    as (t' & l & -> & H1 & H2 & H3 & H4 & H5); [done|exact Hc'| |done|exact Hi|].
  - destruct Hc' as (_ & _ & [_ [R [M _]]] & _). unfold probes_left. cbn [calib_new_tick with_dwell c_dwell new_tick ds_emitted_this_tick] in *. destruct (ds_state _); lia.
  - apply held_frame; try done. by rewrite H4.
Qed.

(** *** The tick *)
Lemma refresh_probe_ok e t log id : ok t -> fine log -> exists t' l, refresh_probe e t log id = (t', log ++ l) /\ ok t' /\ Forall quiet_effect l /\
  t'.(tx_power) = t.(tx_power) /\ t'.(tx_selector) = t.(tx_selector) /\ t'.(tx_calib) = t.(tx_calib) /\ t'.(tx_streams) = t.(tx_streams).
Proof.
  intros Ht Hl. unfold refresh_probe. destruct (negb _); [exists t, []; rewrite app_nil_r; by split_and!|].
  match goal with |- context [if ?x =? _ then _ else _] => generalize x; intros next end.
  match goal with |- context [log ++ [?x]] => assert (Hq : quiet_effect x) by (by repeat case_match); revert Hq; generalize x; intros eff Hq end.
  destruct (_ =? _); [exists t, []; rewrite app_nil_r; by split_and!|].
  exists (set_tx_candidate t next), [eff]. split; [done|]. split; [by apply ok_candidate|]. split; [by constructor|]. done.
Qed.
Lemma profiles_fit t : ok t -> Forall profile_fits (table_profiles t).
Proof. intros Ht. unfold table_profiles. rewrite (ck_const _ _ _ Ht). destruct (tc_table C) eqn:E; [by apply (cc_table C HC)|done]. Qed.
Lemma max_payload_u16 t id : ok t -> u16 (profile_max_payload_for t id).
Proof.
  intros Ht. unfold profile_max_payload_for. destruct (find _ _) as [p|] eqn:E; [|unfold u16, kDefaultMaxPayload; lia].
  apply find_some in E as [Hin _]. apply list_elem_of_In in Hin. pose proof (profiles_fit t Ht) as Hf. eapply Forall_forall in Hf; [|exact Hin]. by apply Hf.
Qed.
Lemma point_ok id tv mp s : u8 id -> u8 tv -> u16 mp -> stream_ok s -> stream_ok (stream_operating_point id tv mp s).
Proof.
  intros H1 H2 H3 [S1 S2]. constructor; cbn; intros f.
  - destruct (ts_framer s) as [g|]; [|done]. intros [= <-]. apply datagrams_point; auto.
  - destruct (ts_frame_framer s) as [g|]; [|done]. intros [= <-]. apply frames_point; auto.
Qed.
Lemma commit_ok e t log p : ok t -> fine log -> profile_fits p -> exists t' log', do_commit e t log (commit_of p) = (t', log') /\ ok t' /\ fine log' /\
  t'.(tx_selector) = t.(tx_selector) /\ t'.(tx_power).(last_commit_mcs_) = Some p.(pf_mcs) /\ (all_take e -> held t log -> held t' log').
Proof.
  intros Ht Hl (F1 & F2 & F3). unfold do_commit. cbn [commit_of pc_profile_id pc_mcs pc_gi pc_tx_power_level].
  set (t1 := set_tx_streams t _).
  assert (Ht1 : ok t1).
  { apply ok_streams; [done|]. apply Forall_map. eapply Forall_impl; [apply (ck_streams _ _ _ Ht)|]. intros s. apply point_ok; [done| |by apply max_payload_u16].
    rewrite (ck_const _ _ _ Ht). by destruct HC. }
  set (log1 := if has_apply_mode e then _ else _).
  assert (Hlog : exists l, log1 = log ++ l /\ Forall quiet_effect l).
  { unfold log1. destruct (has_apply_mode e); [eexists; split; [done|by constructor]|]. exists []. by rewrite app_nil_r. }
  clearbody log1. destruct Hlog as (l & -> & Hq). assert (Hl1 : fine (log ++ l)) by (apply Forall_app; split; [done|by apply quiet_fine]).
  set (pw := with_commit (tx_power t1) (pf_mcs p) (pf_tx_power_level p)). assert (Hpw : power_ok b pw) by (apply with_commit_ok, Ht).
  assert (Hhold : held t log -> held t1 (log ++ l)) by (intros [G1 G2]; split; [done|intros Hr; apply settled_quiet; auto]).
  assert (Hinv : held t log -> power_inv pw) by (intros [G1 _]; by apply power_commit_inv).
  destruct (_ && _) eqn:Eb.
  - apply andb_true_iff in Eb as [Eo Ec]. apply negb_true_iff, bool_decide_eq_false in Eo.
    destruct (resolve_fine e b pw (log ++ l) (pf_mcs p) (pf_tx_power_level p) Hpw Hl1) as [R1 R2].
    pose proof (resolve_targets e pw (log ++ l) (pf_mcs p) (pf_tx_power_level p)) as Hw.
    pose proof (resolve_inv e pw (log ++ l) (pf_mcs p) (pf_tx_power_level p)) as Hri.
    assert (Hset : all_take e -> settled (tx_power t1) (log ++ l) ->
      settled (resolve_and_apply_power e pw (log ++ l) (pf_mcs p) (pf_tx_power_level p)).1 (resolve_and_apply_power e pw (log ++ l) (pf_mcs p) (pf_tx_power_level p)).2).
    { intros He Hs. pose proof (commit_settles e He (tx_power t1) (log ++ l) (pf_mcs p) (pf_tx_power_level p) Hs F3) as H.
      cbn [with_commit power_override_] in Eo. unfold pw. destruct (power_override_ (tx_power t1)) as [q|] eqn:Eq; [|done]. exfalso. apply Eo. exists q. exact Eq. }
    destruct (resolve_and_apply_power _ _ _ _ _) as [p' log']. cbn [fst snd] in *. eexists _, _. split; [done|].
    split; [apply ok_power; [done|done|by rewrite (window_targets _ _ Hw)]|]. split; [done|]. split; [done|]. split; [destruct Hw as (_ & _ & E3); exact E3|].
    intros He Hh. split; [by apply Hri, Hinv|]. intros Hr. apply Hset; [done|]. by apply (Hhold Hh).
  - eexists _, _. split; [done|]. split; [by apply ok_power|]. split; [done|]. split; [done|]. split; [done|]. intros He Hh. split; [by apply Hinv|].
    intros Hr. destruct (Hhold Hh) as [_ G2]. specialize (G2 Hr).
    pose proof (commit_settles e He (tx_power t1) (log ++ l) (pf_mcs p) (pf_tx_power_level p) G2 F3) as H. cbn [with_commit power_override_] in Eb.
    destruct (power_override_ (tx_power t1)) as [q|] eqn:Eq; [done|]. exfalso.
    assert (Hnc : calibrating t1 = false).
    { unfold calibrating, resting in *. change (tx_calib t1) with (tx_calib t) in *. cbn in Hr. destruct (calibrator_ (tx_calib t)); [|done]. apply bool_decide_eq_false. by destruct Hr. }
    rewrite Hnc in Eb. unfold pw in Eb. cbn in Eb. change (power_override_ (tx_power t)) with (power_override_ (tx_power t1)) in Eb. by rewrite Eq in Eb.
Qed.
Lemma effect_commit s now m s' a c : effect s now m s' a -> a.(sa_commit) = Some c -> exists p, p ∈ ladder s /\ c = commit_of p.
Proof.
  assert (Hb : forall x y z, (bitrate_action x y z).(sa_commit) = z.(sa_commit)) by (intros; unfold bitrate_action; by case_match).
  assert (Hp : forall i p, ladder s !! i = Some p -> Some (commit_of p) = Some c -> exists p, p ∈ ladder s /\ c = commit_of p).
  { intros i p Hi [= <-]. exists p. split; [by eapply list_elem_of_lookup_2|done]. }
  unfold effect. destruct m; intros H E.
  - by destruct H as (_ & _ & ->).
  - destruct H as (p & Hi & _ & ->). by apply (Hp _ p Hi).
  - destruct H as (p & Hi & _ & ->). by apply (Hp _ p Hi).
  - destruct H as (p & _ & _ & ->). by rewrite Hb in E.
  - destruct H as (p & Hi & _ & _ & ->). rewrite Hb in E. by apply (Hp _ p Hi).
  - destruct H as (p & _ & _ & _ & _ & ->). by rewrite Hb in E.
  - destruct H as (p & Hi & _ & _ & _ & ->). by apply (Hp _ p Hi).
Qed.
Lemma boot_commits s now m s' a : ladder_size s <> 0%nat -> s.(op).(phase_) = kPhaseBoot -> warranted s now m -> effect s now m s' a -> a.(sa_commit) <> None.
Proof. intros Hn Hp Hw He. unfold warranted in Hw. rewrite decide_False, Hp in Hw by done. subst. by destruct He as (p & _ & _ & ->). Qed.
Lemma fps_service_quiet e f log now : exists f' l, fps_service e f log now = (f', log ++ l) /\ Forall quiet_effect l.
Proof.
  assert (Hh : exists f' l, (f, if f.(cmd_fps_select_hz_) =? 0 then log else log ++ [EVencSetFps f.(cmd_fps_select_hz_)]) = (f', log ++ l) /\ Forall quiet_effect l).
  { destruct (_ =? 0); [exists f, []; by rewrite app_nil_r|]. eexists _, _. split; [done|by constructor]. }
  unfold fps_service. destruct (fps_ladder_ f); [|done]. destruct (cmd_fps_enabled_ f); [|done]. eexists _, _. split; [done|by constructor].
Qed.
Lemma tick_step e A t log now : ok t -> fine log -> step_ok e A t log (TxCore.tick e t log now).
Proof.
  intros Ht Hl. unfold TxCore.tick. destruct (tick_moves t.(tx_selector) now (ck_selector _ _ _ Ht)) as (s' & a & m & E & Hs' & F & W & Ef).
  rewrite E. cbn [mbind option_bind]. assert (Ht1 : ok (set_tx_selector t s')) by (apply ok_selector; [done|done|by destruct F]).
  assert (Hsz : ladder_size s' = ladder_size t.(tx_selector)) by by apply same_frame_size.
  set (t1 := set_tx_selector t s') in *. destruct (profile_id_some s' Hs') as [i ->]. cbn [mbind option_bind].
  destruct (refresh_probe_ok e t1 log i Ht1 Hl) as (t2 & l2 & -> & Ht2 & Hq2 & Ep2 & Es2 & Ec2 & _).
  assert (Hl2 : fine (log ++ l2)) by (apply Forall_app; split; [done|by apply quiet_fine]).
  assert (Hh2 : governed t log -> held t2 (log ++ l2)).
  { intros [G1 G2 G3 G4]. unfold held, resting in *. rewrite Ep2, Ec2. split; [done|]. intros Hr. apply settled_quiet; auto. }
  assert (Hc : exists t3 l3, match a.(sa_commit) with Some c => do_commit e t2 (log ++ l2) c | None => (t2, log ++ l2) end = (t3, l3) /\ ok t3 /\ fine l3 /\
    t3.(tx_selector) = s' /\ (all_take e -> governed t log -> held t3 l3 /\ t3.(tx_power).(last_commit_mcs_) <> None)).
  { destruct (sa_commit a) as [c|] eqn:Ea.
    - destruct (effect_commit _ _ _ _ _ _ Ef Ea) as (p & Hin & ->).
      assert (Hfit : profile_fits p).
      { pose proof (profiles_fit t Ht) as Hf. unfold table_profiles in Hf. unfold ladder in Hin. rewrite (ck_table _ _ _ Ht), <- (ck_const _ _ _ Ht) in Hin.
        by eapply Forall_forall in Hf. }
      destruct (commit_ok e t2 (log ++ l2) p Ht2 Hl2 Hfit) as (t3 & l3 & -> & H1 & H2 & H3 & H4 & H5). exists t3, l3. split_and!; try done; [by rewrite H3, Es2|].
      intros He G. split; [auto|congruence].
    - exists t2, (log ++ l2). split_and!; try done. intros He G. split; [auto|]. rewrite Ep2. intros Hn. destruct G as [G1 _ _ G4].
      by apply (boot_commits _ _ _ _ _ G1 (G4 Hn) W Ef). }
  destruct Hc as (t3 & l3 & -> & Ht3 & Hl3 & Es3 & Hh3).
  set (l4 := l3 ++ [EVencPoll]). assert (Hl4 : fine l4) by (apply Forall_app; split; [done|by repeat constructor]).
  destruct (calibrate_service_ok e t3 l4 now Ht3 Hl4) as (t5 & l5 & -> & Ht5 & Hl5 & Eph5 & Hm5 & Hh5). cbn [mbind option_bind].
  destruct (probe_service_ok e t5 l5 now Ht5 Hl5) as (t6 & l6 & -> & Ht6 & Hl6 & Eph6 & Hm6 & Hh6). cbn [mbind option_bind].
  set (t7 := expire_quiet t6 now).
  assert (H7 : ok t7 /\ t7.(tx_power) = t6.(tx_power) /\ t7.(tx_selector) = t6.(tx_selector) /\ (resting t7 -> resting t6)).
  { unfold t7, expire_quiet. destruct (_ && _); [|done]. split; [|done]. apply ok_calib; [done|apply Ht6|apply (ck_calib _ _ _ Ht6)|done]. }
  clearbody t7. destruct H7 as (Ht7 & Ep7 & Es7 & Hr7).
  set (l7 := if bitrate_kbps_ _ >? 0 then _ else _).
  assert (Hl7 : exists l, l7 = l6 ++ l /\ Forall quiet_effect l).
  { unfold l7. destruct (_ >? 0); [eexists; split; [done|by constructor]|]. exists []. by rewrite app_nil_r. }
  clearbody l7. destruct Hl7 as (q7 & -> & Hq7).
  destruct (fps_service_quiet e (cadence_step (feed_paused t7) (tx_fps t7) now) (l6 ++ q7) now) as (f' & q8 & -> & Hq8).
  rewrite <- app_assoc. assert (Hq : Forall quiet_effect (q7 ++ q8)) by (by apply Forall_app).
  eexists _, _. split; [done|]. split; [by apply ok_fps|]. split; [apply Forall_app; split; [done|by apply quiet_fine]|].
  intros He _ G. destruct (Hh3 He G) as [G3 Gm3]. assert (G4 : held t3 l4) by (destruct G3; split; [done|intros; apply settled_quiet; [by repeat constructor|auto]]).
  pose proof (Hh5 He Gm3 G4) as G5. pose proof (Hh6 He (Hm5 Gm3) G5) as [G6a G6b]. constructor; cbn.
  - destruct G. unfold ladder_size, ladder in *. rewrite (ck_table _ _ _ Ht7), <- (ck_table _ _ _ Ht). done.
  - by rewrite Ep7.
  - intros Hr. rewrite Ep7. apply settled_quiet; [done|]. auto.
  - rewrite Ep7. intros Hn. by destruct (Hm6 (Hm5 Gm3)).
Qed.

(** *** Commands *)
Definition cmd_ok (e : TxEnv) (A : Prop) (t : TxCore) (log : list Effect) (r : option (TxCore * list Effect * bool)) : Prop :=
  exists t' log' done, r = Some (t', log', done) /\ ok t' /\ fine log' /\ (all_take e -> A -> governed t log -> governed t' log').
Lemma cmd_of_step e A t log r d : step_ok e A t log r -> cmd_ok e A t log ('(t', log') ← r; Some (t', log', d)).
Proof. intros (t' & l' & -> & H1 & H2 & H3). cbn. by exists t', l', d. Qed.
Lemma cmd_of_some e A t log t' log' d : step_ok e A t log (Some (t', log')) -> cmd_ok e A t log (Some (t', log', d)).
Proof. intros (t1 & l1 & [= <- <-] & H1 & H2 & H3). by exists t', log', d. Qed.
Lemma step_of_cmd e A t log r : cmd_ok e A t log r -> step_ok e A t log ('(t', log', _) ← r; Some (t', log')).
Proof. intros (t' & l' & d & -> & H1 & H2 & H3). cbn. by exists t', l'. Qed.
(** An operation on the power alone. *)
Lemma power_step e A t log p log' : ok t -> power_ok b p -> fine log' -> same_targets t.(tx_power) p ->
  (all_take e -> power_inv t.(tx_power) -> power_inv p /\ (settled t.(tx_power) log -> settled p log')) -> step_ok e A t log (Some (set_tx_power t p, log')).
Proof.
  intros Ht Hp Hl Hw Hg. exists (set_tx_power t p), log'. split; [done|]. split; [apply ok_power; [done|done|by apply window_targets]|]. split; [done|].
  intros He _ [G1 G2 G3 G4]. destruct (Hg He G2) as [H1 H2]. constructor; [done|done| |].
  - intros Hr. apply H2, G3, Hr.
  - destruct Hw as (_ & _ & Ew). cbn. by rewrite Ew.
Qed.
Lemma override_step e A t log q : ok t -> fine log -> cmd_ok e A t log (Some (tx_set_power_override e t log q)).
Proof.
  intros Ht Hl. unfold tx_set_power_override. pose proof (override_fine e b (tx_power t) log q (ck_power _ _ _ Ht) Hl) as [F1 F2].
  pose proof (override_targets e (tx_power t) log q) as Hw. pose proof (override_inv e (tx_power t) log q) as Hi.
  pose proof (fun He => override_settles e He (tx_power t) log q) as Hs. destruct (set_power_override _ _ _ _) as [[p' log'] d]. cbn [fst snd] in *.
  apply cmd_of_some. apply power_step; try done. intros He Hpi. auto.
Qed.
Lemma clear_step e A t log : ok t -> fine log -> step_ok e A t log (Some (tx_clear_power_override e t log)).
Proof.
  intros Ht Hl. unfold tx_clear_power_override. pose proof (clear_fine e b (tx_power t) log (ck_power _ _ _ Ht) Hl) as [F1 F2].
  pose proof (clear_targets e (tx_power t) log) as Hw. pose proof (fun He => clear_settles e He (tx_power t) log) as Hs.
  destruct (clear_power_override _ _ _) as [p' log']. cbn [fst snd] in *. apply power_step; try done. intros He Hpi. destruct (Hs He Hpi). split; [done|]. auto.
Qed.
Lemma reassert_step e A t log : ok t -> fine log -> step_ok e A t log (Some (tx_reassert_power e t log)).
Proof.
  intros Ht Hl. unfold tx_reassert_power. pose proof (reassert_fine e b (tx_power t) log (ck_power _ _ _ Ht) Hl) as [F1 F2].
  pose proof (reassert_targets e (tx_power t) log) as Hw. pose proof (fun He => reassert_settles e He (tx_power t) log) as Hs.
  assert (Hi : power_inv (tx_power t) -> power_inv (reassert_power e (tx_power t) log).1).
  { intros Hp. destruct (power_override_ (tx_power t)) as [q|] eqn:Eo; [|by apply reassert_inv]. unfold reassert_power. rewrite Eo. by apply override_inv. }
  destruct (reassert_power _ _ _) as [p' log']. cbn [fst snd] in *. apply power_step; try done. auto.
Qed.
(** No restore is pending. *)
Definition no_restore_due (t : TxCore) : Prop := calibrating t = false -> resting t.
Lemma init_calibrator_ok t m : ok t -> calibrator_ok (Calibrator_init (calib_params_for t t.(tx_calib).(calib_policy_) m)).
Proof.
  intros Ht. pose proof (ck_params _ _ _ Ht m) as Hp. split; [done|]. split; [by apply Calibrator_init_ok|]. split; [|exists Free; by split].
  split; [by constructor|]. assert (E : cb_dwell (calib_params_for t t.(tx_calib).(calib_policy_) m) = cb_dwell (calib_params_from t.(tx_calib).(calib_policy_))).
  { unfold calib_params_for. by destruct (offset_window _) as [[? ?]|]. }
  cbn [Calibrator_init c_dwell DwellSender_init]. rewrite E. constructor; cbn; [lia|]. pose proof (to_u32_u32 (cal_tally_retries (calib_policy_ (tx_calib t)))). unfold u32 in *. lia.
Qed.
Lemma tier_step e t log tier : ok t -> fine log -> 0 <= tier -> cmd_ok e (no_restore_due t) t log (set_power_tier e t log tier).
Proof.
  intros Ht Hl Hti. assert (H0 : cmd_ok e (no_restore_due t) t log (Some (t, log, false))) by (apply cmd_of_some; by apply step_none).
  unfold set_power_tier. destruct (calibrating t) eqn:Ecal; [done|]. destruct (negb _); [done|].
  destruct (tier_ceilings_ok b (tx_power t) tier Hti (ck_power _ _ _ Ht)) as (p & Etc & Hp). rewrite Etc. cbn [mbind option_bind].
  set (t1 := set_tx_power t p). assert (Ht1 : ok t1) by (apply ok_power; [done|done|by apply (tier_window _ tier)]).
  set (t2 := match calibrator_ _ with Some _ => _ | None => _ end).
  assert (H2 : ok t2 /\ t2.(tx_power) = p /\ t2.(tx_selector) = t.(tx_selector)).
  { unfold t2. destruct (calibrator_ (tx_calib t1)); [|done]. destruct (power_tier_ceiling p) as [mx|]; [|done]. split; [|done].
    unfold init_calibration. apply (ok_calibrator (seed_calib_policy t1 (calib_policy_ (tx_calib t1)))); [|by apply init_calibrator_ok].
    apply ok_calib; [done|apply Ht1|apply (ck_calib _ _ _ Ht1)|done]. }
  clearbody t2. destruct H2 as (Ht2 & Ep2 & Es2). rewrite Ep2.
  pose proof (tier_apply_fine e b p log Hp Hl) as [F1 F2]. pose proof (tier_apply_targets e p log) as Hw.
  pose proof (fun He Hs => tier_settles e He (tx_power t) log tier p Hs Etc) as Hset.
  assert (Elc : last_commit_mcs_ p = last_commit_mcs_ (tx_power t)).
  { clear -Etc. unfold tier_ceilings in Etc. destruct (mapM (tier_adapter tier) _); [|done]. destruct (mapM (tier_target tier) _); [|done]. by injection Etc as <-. }
  destruct (tier_apply e p log) as [p' log']. cbn [fst snd] in *. eexists _, _, _. split; [done|].
  split; [apply ok_power; [done|done|by rewrite Ep2; apply window_targets]|]. split; [done|]. intros He HA [G1 G2 G3 G4].
  pose proof (Hset He (G3 (HA Ecal))) as S. constructor; cbn.
  - by rewrite Es2.
  - by destruct S.
  - by intros _.
  - destruct Hw as (_ & _ & Ew). rewrite Ew, Elc, Es2. done.
Qed.
Lemma streams_map g t : (forall s, stream_ok s -> stream_ok (g s)) -> ok t -> ok (set_tx_streams t (map g t.(tx_streams))).
Proof. intros Hg Ht. apply ok_streams; [done|]. apply Forall_map. eapply Forall_impl; [apply (ck_streams _ _ _ Ht)|done]. Qed.
Lemma command_step e t log cmd arg now : ok t -> fine log -> 0 <= arg -> cmd_ok e (cmd = vcmd_id_kTxPower -> no_restore_due t) t log (apply_command e t log cmd arg now).
Proof.
  intros Ht Hl Ha. set (A := cmd = vcmd_id_kTxPower -> no_restore_due t).
  assert (Hsame : forall t' d, ok t' -> ladder_size t'.(tx_selector) = ladder_size t.(tx_selector) -> t'.(tx_power) = t.(tx_power) -> (resting t' -> resting t) ->
    t'.(tx_selector).(op).(phase_) = t.(tx_selector).(op).(phase_) -> cmd_ok e A t log (Some (t', log, d))).
  { intros t' d H1 H2 H3 H4 H5. apply cmd_of_some, step_same; try done. by rewrite H5. }
  assert (Hrefuse : cmd_ok e A t log (Some (t, log, false))) by by apply Hsame.
  unfold apply_command. destruct (cmd =? vcmd_id_kSelector).
  { destruct (_ >? 1); [done|]. unfold cmd_selector. destruct (own_window_ok (set_tx_frozen t (negb (arg =? 0)))) as (t' & -> & H1 & H2 & H3 & H4 & H5); [by apply ok_frozen|].
    cbn [mbind option_bind]. apply Hsame; try done. unfold resting. by rewrite H3. }
  destruct (cmd =? vcmd_id_kFpsLadder).
  { destruct (_ >? 1); [done|]. destruct (fps_ladder_ (tx_fps t)) as [l|]; [|done]. apply Hsame; try done. by apply ok_fps. }
  destruct (cmd =? vcmd_id_kFpsSelect).
  { destruct (negb _); [done|]. rewrite Z.geb_leb. destruct (Z.leb_spec (len (tc_preset_fps (tx_c t))) arg) as [|Hlt]; [done|]. destruct (cmd_fps_ladder _); [done|].
    destruct (lookup_lt_is_Some_2 (tc_preset_fps (tx_c t)) (Z.to_nat arg)) as [f ->]; [lia|]. cbn [mbind option_bind].
    apply cmd_of_some, step_frame; try done; [by apply ok_fps|by constructor]. }
  destruct (cmd =? vcmd_id_kCalibrate).
  { destruct (_ >? 1); [done|]. unfold cmd_calibrate. destruct (calibrator_ (tx_calib t)) as [c|] eqn:Ec; [|done].
    assert (Hst : (start c now).1.(c_state) = cRunning).
    { unfold start. destruct (decide (c_state c = cRunning)); [done|]. by destruct (seek_begin_at _ _). }
    assert (Hab : idle_calibrator (abort c "abort"%string).1 -> idle_calibrator c) by (unfold abort; destruct (decide _); [by intros [_ ?]|done]).
    pose proof (ok_cal_event t c (EStart now) _ _ Ht Ec eq_refl) as Hs'. pose proof (ok_cal_event t c (EAbort "abort"%string) _ _ Ht Ec eq_refl) as Ha'.
    destruct (arg =? 1).
    - destruct (negb _); [done|]. match goal with |- context [if ?x then (t, false) else if latched_originator _ =? 0 then _ else _] => destruct x end; [done|].
      destruct (_ =? 0); [done|]. destruct (start c now) as [c' d]. cbn in Hs', Hst. apply Hsame; try done; [by apply ok_calibrator|].
      unfold resting. cbn. by intros [? _].
    - destruct (abort c "abort") as [c' d]. cbn [fst] in *. apply Hsame; try done; [by apply ok_calibrator|]. unfold resting. cbn. rewrite Ec. exact Hab. }
  destruct (Z.eqb_spec cmd vcmd_id_kTxPower) as [->|].
  { destruct (tier_step e t log arg Ht Hl Ha) as (t' & l' & d & E & H1 & H2 & H3). exists t', l', d. split; [done|]. split; [done|]. split; [done|]. intros He HA. by apply H3, HA. }
  destruct (cmd =? vcmd_id_kMtuTier); [|done]. unfold cmd_mtu_tier. destruct (negb _); [done|]. destruct (_ >? _); [done|].
  assert (Hb : 0 <= mtu_tier_budget arg <= 4122).
  { unfold mtu_tier_budget, mtu_tier_kHighBudget, mtu_tier_kMediumBudget, kDefaultMaxPayload. destruct (_ =? _); [lia|]. destruct (_ =? _); lia. }
  apply Hsame; try done. apply (streams_map _ (set_tx_budget t (mtu_tier_budget arg))); [|by apply ok_budget].
  intros s Hs. apply map_frame_framers_ok; [|done]. intros f Hf. by apply frames_budget.
Qed.
End Core.
