(* ===== verification/TxCoreProps.v ===== *)
(** * Theorems about the craft's core

    Whatever happens to the core, it goes on and no adapter is driven past its
    bound; where the radio takes every write, the adapters have what the
    operator, the calibrated curve or the safe offset asks whenever no
    calibration holds them - unless a power tier is commanded between an abort
    and the tick that delivers it, which the last example shows. *)
From Stdlib Require Import String.
From S2P Require Import Prelude Types Wire WireLayout WireFacts Table FrameShm FrameFramer FrameSpec FramerFacts Framer FramerProps McsProbe Double Selector SelectorSpec SelectorProps Feedback Dwell Calibrate CalibrateProps Pacing Jscc TxPower TxPowerProps TxCore TxCoreFacts.
Open Scope Z_scope.

(** ** What can happen to the core *)
Inductive TxEvent : Type :=
| TvIngress (stream_id : Z) (d : list Z)
| TvFrame (stream_id : Z) (blob : ptr)
| TvAir (d : list Z) (rssi rx_mcs : Z)
| TvTick
| TvCommand (cmd_id arg : Z)
| TvResetMtu
| TvOverride (qdb : Z)
| TvClearOverride
| TvReassert
| TvFec (stream_id i_permille p_permille min_r : Z) (e_permille : option Z)
| TvCsaArmed (on : bool)
| TvCsaFreeze (until_ms : Z)
| TvPressure (on : bool)
| TvEnvironment (channel_mhz bw : Z)
| TvAuthority (orig : option Z)
| TvResetStats.
Definition tx_step (e : TxEnv) (now : Z) (t : TxCore) (log : list Effect) (ev : TxEvent) : option (TxCore * list Effect) :=
  match ev with
  | TvIngress id d => on_ingress t log id d now
  | TvFrame id blob => TxCore.on_frame e t log id blob (blob_len blob) now
  | TvAir d rssi m => on_air e t log d now rssi m
  | TvTick => TxCore.tick e t log now
  | TvCommand id arg => '(t, log, _) ← apply_command e t log id arg now; Some (t, log)
  | TvResetMtu => '(t, log, _) ← reset_negotiated_mtu e t log; Some (t, log)
  | TvOverride q => '(t, log, _) ← Some (tx_set_power_override e t log q); Some (t, log)
  | TvClearOverride => Some (tx_clear_power_override e t log)
  | TvReassert => Some (tx_reassert_power e t log)
  | TvFec id i p m ep => '(t, _) ← set_stream_fec t id i p m ep; Some (t, log)
  | TvCsaArmed on => Some (set_csa_armed t on, log)
  | TvCsaFreeze until => Some (tx_csa_freeze t until, log)
  | TvPressure on => Some (tx_set_pressure t on now, log)
  | TvEnvironment mhz bw => Some (tx_on_rf_environment t mhz bw now, log)
  | TvAuthority (Some orig) => Some (report_authority_set t orig now, log)
  | TvAuthority None => Some (report_authority_clear t, log)
  | TvResetStats => Some (tx_reset_stats t, log)
  end.
Fixpoint tx_run (t : TxCore) (log : list Effect) (l : list (TxEnv * Z * TxEvent)) : option (TxCore * list Effect) :=
  match l with
  | [] => Some (t, log)
  | (e, now, ev) :: l => '(t, log) ← tx_step e now t log ev; tx_run t log l
  end.
(** The inputs have their C++ types. *)
Definition input_ok (ev : TxEvent) : Prop :=
  match ev with
  | TvIngress _ d | TvAir d _ _ => bytes d
  | TvFrame _ blob => blob_ok blob
  | TvCommand _ arg => u8 arg
  | TvFec _ i p m ep => u16 i /\ u16 p /\ u16 m /\ u16 (default 0 ep)
  | _ => True
  end.
(** A power tier is not commanded between the abort of a calibration and the
    tick that gives the power back. *)
Definition tier_clear (t : TxCore) (ev : TxEvent) : Prop := forall arg, ev = TvCommand vcmd_id_kTxPower arg -> no_restore_due t.
Fixpoint tiers_clear (t : TxCore) (log : list Effect) (l : list (TxEnv * Z * TxEvent)) : Prop :=
  match l with
  | [] => True
  | (e, now, ev) :: l => tier_clear t ev /\ match tx_step e now t log ev with Some (t, log) => tiers_clear t log l | None => True end
  end.

Section Steps.
Context (C : TxConst) (b : list (Z * Z)) (HC : const_ok C).
Local Abbreviation ok := (core_ok C b).
Local Abbreviation fine := (Forall (bounded_by b)).

Lemma fec_step e A t log id i p m ep : ok t -> fine log -> u16 i /\ u16 p /\ u16 m /\ u16 (default 0 ep) ->
  step_ok C b e A t log ('(t', _) ← set_stream_fec t id i p m ep; Some (t', log)).
Proof.
  intros Ht Hl (H1 & H2 & H3 & H4). unfold set_stream_fec. destruct (find _ _) as [s|]; [|by apply step_none]. destruct (bool_decide _); [|by apply step_none].
  destruct (update_first_ok stream_ok quiet_effect (fun s => s.(ts_stream_id) =? id)
    (fun s => Some (map_frame_framers (fun f => set_fec_rates f i p m ep) s, [])) t.(tx_streams) (ck_streams _ _ _ Ht)) as (l & out & -> & H5 & H6).
  - intros x Hx _. eexists _, _. split; [done|]. split; [|done]. apply map_frame_framers_ok; [|done]. intros f Hf. by apply frames_rates.
  - cbn [mbind option_bind]. apply step_same; try done. by apply ok_streams.
Qed.
Lemma armed_ok on s : stream_ok s -> stream_ok
  (map_frame_framers (fun ff => FrameFramer.set_extra_flags ff (if on : bool then data_flags_kCsaArmed else 0))
     (match s.(ts_framer) with Some x => with_framer s (Framer.set_extra_flags x (if on then data_flags_kCsaArmed else 0)) | None => s end)).
Proof.
  intros Hs. apply map_frame_framers_ok.
  - intros f Hf. apply frames_flags; [done|]. destruct on; unfold u8, data_flags_kCsaArmed; lia.
  - destruct (ts_framer s) eqn:E; [|done]. apply stream_framer_ok; [done|]. by apply datagrams_flags, (so_framer s).
Qed.
Lemma reset_ok s : stream_ok s -> stream_ok (reset_stream_stats s).
Proof.
  intros [H1 H2]. unfold reset_stream_stats. destruct (ts_jscc_shadow s); constructor; cbn; intros f;
    (destruct (ts_framer s) as [g|] || idtac); (destruct (ts_frame_framer s) as [g'|] || idtac); try done; intros [= <-];
    (by apply datagrams_reset; auto) || (by apply frames_reset; auto).
Qed.
Lemma sel_event_step e A t log ev s' : ok t -> fine log -> (forall now, ev <> STick now) -> sel_step t.(tx_selector) ev = Some (s', SelectorActions_init) ->
  step_ok C b e A t log (Some (set_tx_selector t s', log)).
Proof.
  intros Ht Hl Hn E. destruct (ok_sel_step C b t ev Ht Hn) as (s1 & E1 & H1 & H2 & H3). rewrite E in E1. injection E1 as <-.
  apply step_same; try done. cbn. by rewrite H3.
Qed.
Lemma step_total e now t log ev : ok t -> fine log -> input_ok ev -> step_ok C b e (tier_clear t ev) t log (tx_step e now t log ev).
Proof.
  intros Ht Hl Hi. destruct ev as [id d|id blob|d rssi m| |id arg| |q| | |id i p m ep|on|until|on|mhz bw|[orig|]|]; cbn [tx_step input_ok] in *.
  - by apply ingress_step.
  - by apply frame_step.
  - by apply air_step.
  - by apply tick_step.
  - destruct (command_step C b e t log id arg now Ht Hl ltac:(unfold u8 in *; lia)) as (t' & l' & d & -> & H1 & H2 & H3). cbn. exists t', l'.
    split; [done|]. split; [done|]. split; [done|]. intros He HA. apply H3; [done|]. intros ->. by apply (HA arg).
  - apply (step_of_cmd C b). destruct (command_step C b e t log vcmd_id_kMtuTier 0 0 Ht Hl ltac:(lia)) as (t' & l' & d & H0 & H1 & H2 & H3). exists t', l', d.
    split; [exact H0|]. split; [done|]. split; [done|]. intros He _. by apply H3.
  - by apply (step_of_cmd C b), override_step.
  - by apply clear_step.
  - by apply reassert_step.
  - by apply fec_step.
  - apply step_same; try done. apply streams_map; [|done]. apply armed_ok.
  - by apply (sel_event_step e _ t log (SFreeze until)).
  - by apply (sel_event_step e _ t log (SPressure on now)).
  - by apply (sel_event_step e _ t log (SEnvironment mhz bw now)).
  - apply step_same; try done. by apply ok_ret.
  - apply step_same; try done. by apply ok_ret.
  - apply step_same; try done. apply ok_ret. apply streams_map; [|done]. apply reset_ok.
Qed.
Lemma run_total l : forall t log, ok t -> fine log -> Forall (fun x => input_ok x.2) l -> exists t' log', tx_run t log l = Some (t', log') /\ ok t' /\ fine log' /\
  (Forall (fun x => all_take x.1.1) l -> tiers_clear t log l -> governed t log -> governed t' log').
Proof.
  induction l as [|[[e now] ev] l IH]; intros t log Ht Hl Hi; [by exists t, log|]. apply Forall_cons in Hi as [Hev Hi]. cbn [tx_run tiers_clear].
  destruct (step_total e now t log ev Ht Hl Hev) as (t1 & l1 & -> & H1 & H2 & H3). cbn [mbind option_bind].
  destruct (IH t1 l1 H1 H2 Hi) as (t2 & l2 & E & H4 & H5 & H6). exists t2, l2. split; [done|]. split; [done|]. split; [done|].
  intros [He HF]%Forall_cons [HA Hc] G. auto.
Qed.
End Steps.

(** ** A booted craft *)
Record stream_cfg_ok (s : TxStreamCfg) : Prop := {
  sg_id : u8 s.(sc_stream_id) /\ u8 s.(sc_stream_type);
  sg_rates : u16 s.(sc_fec).(i_rate_permille) /\ u16 s.(sc_fec).(p_rate_permille) /\ u16 (default 0 s.(sc_fec).(e_rate_permille)) /\ u16 s.(sc_fec).(min_r)
}.
Record CraftCfg : Type := MkCraftCfg {
  cg_const : TxConst;
  cg_selector : SelectorPolicy;
  cg_gate : ReportGatePolicy;
  cg_ladder : option (FpsLadderPolicy * bool);
  cg_power : list PowerAdapter;
  cg_targets : list PowerTarget;
  cg_streams : list TxStreamCfg;
  cg_rf : option (Z * Z);
  cg_boot : NodeBoot
}.
Definition craft_core (g : CraftCfg) : TxCore :=
  TxCore_init g.(cg_const) g.(cg_selector) g.(cg_gate) g.(cg_ladder) g.(cg_power) g.(cg_targets) g.(cg_streams) g.(cg_rf).
#[local] Arguments craft_core : simpl never.
Definition craft_boot (e : TxEnv) (g : CraftCfg) : TxCore * list Effect := node_boot e g.(cg_boot) (craft_core g).
(** The constructor's core on the radio's backend, whose lever is relative. *)
Definition radio_core (g : CraftCfg) : TxCore := set_tx_power (craft_core g) (set_backend_relative (craft_core g).(tx_power) true).
(** A configuration of the right types ([io/src/config.cpp] refuses or clamps
    the rest), on the radio's backend, with calibration bounds that can sweep. *)
Record craft_ok (g : CraftCfg) : Prop := {
  cf_const : const_ok g.(cg_const);
  cf_ids : u16 g.(cg_const).(tc_originator) /\ u32 g.(cg_const).(tc_session);
  cf_floors : length g.(cg_selector).(rung_rssi_floor_dbm) = 8%nat;
  cf_power : power_config_ok g.(cg_power) g.(cg_targets);
  cf_streams : Forall stream_cfg_ok g.(cg_streams);
  cf_relative : g.(cg_boot).(nb_relative) = true;
  cf_params : forall m, params_ok (calib_params_for (radio_core g) g.(cg_boot).(nb_policy) m)
}.
Definition craft_bounds (g : CraftCfg) : list (Z * Z) := map (fun t => (t.(pt_adapter_idx), t.(pt_offset_max_qdb))) g.(cg_targets).

Section Boot.
Context (g : CraftCfg) (Hg : craft_ok g).
Local Abbreviation ok := (core_ok g.(cg_const) (craft_bounds g)).

Lemma new_stream_ok mp c : u16 mp -> stream_cfg_ok c ->
  stream_ok (new_stream g.(cg_const).(tc_originator) g.(cg_const).(tc_session) g.(cg_const).(tc_table_version) mp kDefaultMaxPayload c).
Proof.
  intros Hmp [[H1 H2] (H3 & H4 & H5 & H6)]. destruct Hg as [[_ Hv] [Ho Hs] _ _ _ _ _]. unfold new_stream. destruct (sc_frame_shm c); constructor; cbn; try done; intros f [= <-].
  - constructor; [constructor|]; cbn; try done; try (unfold u8, u16, u32; cbn; lia). constructor.
  - constructor; [constructor|..]; cbn; try done; unfold u8, u16, u32; lia.
Qed.
Lemma init_selector : exists s, (craft_core g).(tx_selector) = s /\ shaped s /\ s.(table_) = g.(cg_const).(tc_table) /\ s.(op).(phase_) = kPhaseBoot.
Proof.
  eexists. split; [done|]. destruct (Selector_init_shaped g.(cg_selector) g.(cg_const).(tc_table) (cf_floors _ Hg)) as (Hs & _ & _).
  unfold craft_core, TxCore_init. destruct (cg_rf g) as [[mhz bw]|]; [|done].
  destruct (sel_step_quiet _ (SEnvironment mhz bw 0) ltac:(done) Hs) as (s' & [= E] & (Q1 & _ & _ & Q4 & _) & Hs' & _). cbn. rewrite E. split; [done|].
  done.
Qed.
Lemma radio_ok : ok (seed_calib_policy (radio_core g) g.(cg_boot).(nb_policy)).
Proof.
  destruct init_selector as (s & Es & Hs & Et & _). pose proof (set_backend_relative_ok g.(cg_power) g.(cg_targets) (cf_power _ Hg)) as Hp.
  assert (Ep : (craft_core g).(tx_power) = TxPower_init g.(cg_power) g.(cg_targets)) by (unfold craft_core, TxCore_init; by destruct (cg_rf g) as [[? ?]|]).
  assert (Ec : (craft_core g).(tx_c) = g.(cg_const)) by (unfold craft_core, TxCore_init; by destruct (cg_rf g) as [[? ?]|]).
  constructor; cbn [seed_calib_policy set_tx_calib radio_core set_tx_power tx_c tx_selector tx_power tx_streams tx_calib
    negotiated_packet_budget_ calib_rx_ calibrator_ calib_policy_].
  - exact Ec.
  - by rewrite Es.
  - by rewrite Es.
  - rewrite Ep. exact Hp.
  - unfold craft_core, TxCore_init. set (t0 := match cg_rf g with Some _ => _ | None => _ end).
    assert (Hmp : u16 (profile_max_payload_for t0 0)).
    { assert (E0 : t0.(tx_c) = g.(cg_const)) by (unfold t0; by destruct (cg_rf g) as [[? ?]|]). unfold profile_max_payload_for, table_profiles. rewrite E0.
      destruct (find _ _) as [p|] eqn:Ef; [|unfold u16, kDefaultMaxPayload; lia]. apply find_some in Ef as [Hin _]. apply list_elem_of_In in Hin.
      destruct (tc_table (cg_const g)) as [x|] eqn:Ex; [|by apply not_elem_of_nil in Hin]. destruct (cf_const _ Hg) as [Ht _]. specialize (Ht x Ex).
      eapply Forall_forall in Ht; [|exact Hin]. by apply Ht. }
    cbn [tx_streams set_tx_streams]. apply Forall_map. eapply Forall_impl; [apply (cf_streams _ Hg)|]. intros c Hc. by apply new_stream_ok.
  - unfold craft_core, TxCore_init. destruct (cg_rf g) as [[? ?]|]; cbn; unfold kDefaultMaxPayload; lia.
  - unfold craft_core, TxCore_init. by destruct (cg_rf g) as [[? ?]|].
  - unfold craft_core, TxCore_init. destruct (cg_rf g) as [[? ?]|]; cbn; done.
  - intros m. exact (cf_params _ Hg m).
Qed.
Lemma ok_quiet_calib t k : ok t -> k.(calib_rx_) = t.(tx_calib).(calib_rx_) -> k.(calibrator_) = t.(tx_calib).(calibrator_) ->
  k.(calib_policy_) = t.(tx_calib).(calib_policy_) -> ok (set_tx_calib t k).
Proof. intros Ht E1 E2 E3. apply ok_calib; [done|rewrite E1; apply Ht|rewrite E2; apply (ck_calib _ _ _ Ht)|done]. Qed.
(** What a boot leaves: the calibrator idle, the power at the safe offsets. *)
Record booted (t : TxCore) : Prop := {
  bt_ok : ok t;
  bt_rest : resting t;
  bt_phase : t.(tx_selector).(op).(phase_) = kPhaseBoot;
  bt_override : t.(tx_power).(power_override_) = None;
  bt_commit : t.(tx_power).(last_commit_mcs_) = None;
  bt_applied : Forall (fun pa => pa.(pa_applied_qdb) = None) t.(tx_power).(power_);
  bt_targets : map pt_adapter_idx t.(tx_power).(power_targets_) = map pt_adapter_idx g.(cg_targets);
  bt_curve : (forall st, g.(cg_boot).(nb_stored) = Some st -> curve_ok st.(cst_curve)) ->
    t.(tx_power).(curve_is_offset_space_) = true -> Forall2 aligned t.(tx_power).(power_) t.(tx_power).(power_targets_)
}.
Lemma craft_booted e : booted (craft_boot e g).1 /\ Forall (bounded_by (craft_bounds g)) (craft_boot e g).2 /\
  (craft_boot e g).2 = apply_boot_power_offsets e (craft_boot e g).1.(tx_power) [].
Proof.
  set (b := g.(cg_boot)). destruct init_selector as (s & Es & Hs & Et & Eph).
  assert (Ep : (craft_core g).(tx_power) = TxPower_init g.(cg_power) g.(cg_targets)) by (unfold craft_core, TxCore_init; by destruct (cg_rf g) as [[? ?]|]).
  assert (Er : (craft_core g).(tx_calib).(calibrator_) = None) by (unfold craft_core, TxCore_init; by destruct (cg_rf g) as [[? ?]|]).
  assert (H1 : booted (seed_calib_policy (radio_core g) b.(nb_policy))).
  { constructor; [apply radio_ok|unfold resting|..]; cbn; rewrite ?Ep, ?Er, ?Es; cbn; try done.
    - apply Forall_map. destruct (cf_power _ Hg) as [_ Ha]. eapply Forall_impl; [exact Ha|]. by intros pa (t & _ & _ & _ & _ & ?).
    - by rewrite map_map. }
  set (t2 := match b.(nb_actuator) with Some x => set_tx_power (radio_core g) (set_power_actuator (radio_core g).(tx_power) x) | None => radio_core g end).
  assert (H2 : booted (seed_calib_policy t2 b.(nb_policy))).
  { unfold t2. destruct (nb_actuator b) as [x|]; [|done]. destruct H1 as [B1 B2 B3 B4 B5 B6 B7 B8]. constructor; try done.
    apply (ok_power _ _ (seed_calib_policy (radio_core g) (nb_policy b))); [done| |done]. by destruct (ck_power _ _ _ B1). }
  set (t3 := seed_calib_policy t2 b.(nb_policy)) in *.
  set (t4 := if b.(nb_ident) then init_calibration t3 b.(nb_policy) b.(nb_max_power_qdb) else t3).
  assert (H4 : booted t4).
  { unfold t4. destruct (nb_ident b); [|done]. destruct H2 as [B1 B2 B3 B4 B5 B6 B7 B8]. constructor; try done.
    unfold init_calibration. apply ok_calibrator; [by apply ok_quiet_calib|]. by apply (init_calibrator_ok g.(cg_const) (craft_bounds g)). }
  set (t5 := set_calib_identity t4 b.(nb_ident_fingerprint)).
  assert (H5 : booted t5) by (destruct H4 as [B1 B2 B3 B4 B5 B6 B7 B8]; constructor; try done; by apply ok_quiet_calib).
  set (t6 := match b.(nb_stored) with Some st => if b.(nb_ident) then boot_load t5 st else t5 | None => t5 end).
  assert (H6 : booted t6).
  { unfold t6. destruct (nb_stored b) as [st|] eqn:Est; [|done]. destruct (nb_ident b); [|done]. unfold boot_load. destruct (_ && _).
    - assert (H5' : booted (if has_power_curve t5.(tx_power) then t5 else set_tx_power t5 (install_curve t5.(tx_power) st.(cst_curve)))).
      { destruct (has_power_curve _); [done|]. destruct H5 as [B1 B2 B3 B4 B5 B6 B7 B8]. constructor; try done; cbn.
        - apply ok_power; [done|apply install_ok, B1|done].
        - apply Forall_map. by apply Forall_forall.
        - intros Hc _. specialize (Hc st Est). match goal with |- Forall2 _ _ ?x => generalize x end. intros ts. induction ts; constructor; done. }
      destruct H5' as [B1 B2 B3 B4 B5 B6 B7 B8]. constructor; try done. by apply ok_quiet_calib.
    - destruct H5 as [B1 B2 B3 B4 B5 B6 B7 B8]. constructor; try done. by apply ok_quiet_calib. }
  assert (E : craft_boot e g = (t6, apply_boot_power_offsets e t6.(tx_power) [])).
  { unfold craft_boot, node_boot. rewrite (cf_relative _ Hg). reflexivity. }
  rewrite E. cbn [fst snd]. split; [done|]. split; [|done]. apply boot_fine; [apply H6|done].
Qed.
End Boot.

(** ** Safety and authority *)
(** C2. The craft's core survives anything and never overdrives an adapter.
    Whatever the configured core on the radio's backend is given after its boot -
    datagrams, frame blobs, any bytes off the air, ticks, commands, latches,
    re-asserted power, at whatever times and with whatever the hooks answer -
    every call is defined (no index outside a table or a buffer, every loop
    ends), and every power write, of whichever owner - safe offset, curve, tier,
    operator's latch, calibration - is for a configured adapter and within its
    offset bound. *)
Theorem craft_safe (g : CraftCfg) (e0 : TxEnv) (l : list (TxEnv * Z * TxEvent))
  (Hg : craft_ok g) (Hi : Forall (fun x => input_ok x.2) l) :
  exists t log, tx_run (craft_boot e0 g).1 (craft_boot e0 g).2 l = Some (t, log) /\
    forall i q, EApplyPower i q ∈ log \/ EApplyPowerOffset i q ∈ log ->
      exists target, target ∈ g.(cg_targets) /\ target.(pt_adapter_idx) = i /\ q <= target.(pt_offset_max_qdb).
Proof.
  destruct (craft_booted g Hg e0) as (Hb & Hl & _).
  destruct (run_total _ _ (cf_const _ Hg) l _ _ (bt_ok _ _ Hb) Hl Hi) as (t & log & E & _ & Hf & _). exists t, log. split; [done|].
  intros i q Hin. assert (H : exists m, (i, m) ∈ craft_bounds g /\ q <= m) by (rewrite Forall_forall in Hf; destruct Hin as [Hin|Hin]; exact (Hf _ Hin)).
  destruct H as (m & Hm & Hq). apply list_elem_of_fmap in Hm as (x & [= -> ->] & Hx). by exists x.
Qed.

Lemma booted_governed g e0 : craft_ok g -> all_take e0 -> NoDup (map pt_adapter_idx g.(cg_targets)) ->
  (forall st, g.(cg_boot).(nb_stored) = Some st -> curve_ok st.(cst_curve)) ->
  (exists x, g.(cg_const).(tc_table) = Some x /\ x.(profiles) <> []) -> governed (craft_boot e0 g).1 (craft_boot e0 g).2.
Proof.
  intros Hg He Hd Hst (x & Ex & Hx). destruct (craft_booted g Hg e0) as ([B1 B2 B3 B4 B5 B6 B7 B8] & _ & ->).
  set (t := (craft_boot e0 g).1) in *.
  assert (Hp : power_inv t.(tx_power)).
  { constructor; [apply B1|by rewrite B7| |by rewrite B4|by rewrite B5]. destruct (curve_is_offset_space_ _) eqn:E; [by apply B8|done]. }
  constructor; [|done| |done].
  - unfold ladder_size, ladder. rewrite (ck_table _ _ _ B1), Ex. by destruct (profiles x).
  - intros _. apply (idle_settles); [done|done|by right|done|]. by apply (boot_last e0 He).
Qed.

(** ** Whose the power is *)
(** What was asked for since the boot, kept apart from the core's own records:
    the tier commanded, the operator's latch, the rate the selector committed,
    the curve the boot loaded or a calibration left. *)
Record Ledger : Type := MkLedger { lg_tier : option Z; lg_latch : option Z; lg_rate : option (Z * Z); lg_curve : option PowerCurve }.
(** A tier is offered: some adapter has tiers, and each one that has any has
    this one. *)
Definition tier_offered (ls : list (list Z)) (tier : Z) : Prop := Exists (fun l => l <> []) ls /\ Forall (fun l => l = [] \/ tier < len l) ls.
#[export] Instance tier_offered_dec ls tier : Decision (tier_offered ls tier).
Proof. unfold tier_offered. apply _. Defined.
Definition latch_allowed (ts : list PowerTarget) (q : Z) : Prop := ts <> [] /\ Forall (fun t => q <= t.(pt_offset_max_qdb)) ts.
#[export] Instance latch_allowed_dec ts q : Decision (latch_allowed ts q).
Proof. unfold latch_allowed. apply _. Defined.
Definition ledger_init (g : CraftCfg) : Ledger :=
  let b := g.(cg_boot) in
  MkLedger None None None
    (match b.(nb_stored), g.(cg_power) with
     | Some st, [] =>
       if b.(nb_ident) && st.(cst_ours) &&
          (match offset_window (radio_core g).(tx_power) with
           | Some (lo, hi) => forallb (fun q => (lo <=? q) && (q <=? hi)) st.(cst_placement_qdb)
           | None => true end)
       then Some st.(cst_curve) else None
     | _, _ => None end).
Definition ledger_step (g : CraftCfg) (e : TxEnv) (now : Z) (t : TxCore) (ev : TxEvent) (k : Ledger) : Ledger :=
  match ev with
  | TvCommand id arg =>
    if (id =? vcmd_id_kTxPower) && negb (calibrating t) && bool_decide (tier_offered (map pt_offset_presets_qdb g.(cg_targets)) arg)
    then MkLedger (Some arg) k.(lg_latch) k.(lg_rate) k.(lg_curve) else k
  | TvOverride q => if bool_decide (latch_allowed g.(cg_targets) q) then MkLedger k.(lg_tier) (Some q) k.(lg_rate) k.(lg_curve) else k
  | TvClearOverride => MkLedger k.(lg_tier) None k.(lg_rate) k.(lg_curve)
  | TvTick =>
    MkLedger k.(lg_tier) k.(lg_latch)
      (match Selector.tick t.(tx_selector) now with
       | Some (_, a) => match a.(sa_commit) with Some c => Some (c.(pc_mcs), c.(pc_tx_power_level)) | None => k.(lg_rate) end
       | None => k.(lg_rate) end)
      (match e.(on_calib_artifact), (c ← t.(tx_calib).(calibrator_); Calibrate.tick c now) with
       | Some store, Some (c, a) =>
         if a.(act_artifact_ready) && negb (store c.(c_artifact) =? 0) then Some (MkPowerCurve c.(c_artifact).(ca_curve_qdb) true) else k.(lg_curve)
       | _, _ => k.(lg_curve) end)
  | _ => k
  end.
Fixpoint ledger_run (g : CraftCfg) (t : TxCore) (log : list Effect) (k : Ledger) (l : list (TxEnv * Z * TxEvent)) : Ledger :=
  match l with
  | [] => k
  | (e, now, ev) :: l => match tx_step e now t log ev with Some (t', log') => ledger_run g t' log' (ledger_step g e now t ev k) l | None => k end
  end.
(** The adapter's ceiling: its tier's power once a tier is commanded. *)
Definition ceiling_at (tier : option Z) (t : PowerTarget) : Z :=
  default t.(pt_offset_max_qdb) (n ← tier; t.(pt_offset_presets_qdb) !! Z.to_nat n).
(** The adapter's power: the latch under the ceiling; without a latch, the
    curve's offset at the committed rate, 2 dB a level, under the ceiling;
    without a curve or a rate, the safe offset. *)
Definition entitled (k : Ledger) (t : PowerTarget) : Z :=
  match k.(lg_latch), k.(lg_curve), k.(lg_rate) with
  | Some q, _, _ => Z.min q (ceiling_at k.(lg_tier) t)
  | None, Some c, Some (m, level) => default t.(pt_offset_qdb) ((fun q => Z.min (q + (level - 4) * 8) (ceiling_at k.(lg_tier) t)) <$> c.(curve_qdb) !! Z.to_nat m)
  | _, _, _ => t.(pt_offset_qdb)
  end.

(** *** What the operations leave of the records *)
Record same_view (p p' : TxPower) : Prop := {
  sv_targets : p'.(power_targets_) = p.(power_targets_);
  sv_override : p'.(power_override_) = p.(power_override_);
  sv_space : p'.(curve_is_offset_space_) = p.(curve_is_offset_space_);
  sv_curves : map pa_curve p'.(power_) = map pa_curve p.(power_);
  sv_mcs : p'.(last_commit_mcs_) = p.(last_commit_mcs_);
  sv_level : p'.(last_commit_level_) = p.(last_commit_level_)
}.
#[export] Instance same_view_preorder : PreOrder same_view.
Proof. split; [by intros p; constructor|]. intros p q r [] []. constructor; congruence. Qed.
Section View.
Context (e : TxEnv).
Lemma each_curves (f : list Effect -> PowerAdapter -> list Effect * PowerAdapter) l :
  (forall log pa, (f log pa).2.(pa_curve) = pa.(pa_curve)) -> forall log, map pa_curve (each f log l).2 = map pa_curve l.
Proof.
  intros Hf. induction l as [|pa l IH]; intros log; [done|]. cbn [each]. specialize (Hf log pa). destruct (f log pa) as [log1 pa1].
  specialize (IH log1). destruct (each f log1 l). cbn in *. by rewrite Hf, IH.
Qed.
Lemma resolve_view p log m l : same_view p (resolve_and_apply_power e p log m l).1.
Proof.
  unfold resolve_and_apply_power. destruct (_ && _); [done|].
  pose proof (each_curves (resolve_one e p.(backend_relative_) m l) p.(power_)) as H. specialize (H ltac:(intros log0 pa; unfold resolve_one; repeat case_match; done) log).
  destruct (each _ _ _). by constructor.
Qed.
Lemma forget_view p : same_view p (forget_applied p).
Proof. constructor; try done. cbn. by rewrite map_map. Qed.
Lemma relatch_view p log q : p.(power_override_) = Some q -> same_view p (set_power_override e p log q).1.1.
Proof.
  intros Ho. unfold set_power_override. destruct (existsb _ _); [done|]. destruct (power_targets_ p) eqn:E; [done|]. rewrite <- E.
  destruct (fold_left _ _ _) as [? []]; [|done]. by constructor.
Qed.
Lemma committed_view p log : same_view p (resolve_committed e p log).1.
Proof. unfold resolve_committed. destruct (last_commit_mcs_ p); [apply resolve_view|done]. Qed.
Lemma restore_view p log : same_view p (restore_power e p log).1.
Proof. unfold restore_power. destruct (power_override_ p) eqn:E; [by apply relatch_view|]. destruct (curve_actuates p); [apply committed_view|done]. Qed.
Lemma tier_apply_view p log : same_view p (tier_apply e p log).1.
Proof. unfold tier_apply. destruct (power_override_ p) eqn:E; [by apply relatch_view|apply committed_view]. Qed.
Lemma reassert_view p log : same_view p (reassert_power e p log).1.
Proof.
  unfold reassert_power. destruct (power_override_ p) eqn:E; [by apply relatch_view|].
  pose proof (each_curves (reassert_one e) p.(power_)) as H. specialize (H ltac:(intros log0 pa; unfold reassert_one; repeat case_match; done) log).
  destruct (each _ _ _). by constructor.
Qed.
End View.

(** *** The core's records are the ledger's *)
Definition booked (tier : option Z) (t : PowerTarget) : PowerTarget :=
  MkPowerTarget t.(pt_adapter_idx) (Some (ceiling_at tier t)) t.(pt_offset_presets_qdb) [] t.(pt_offset_qdb) t.(pt_offset_max_qdb).
Record ledgered (g : CraftCfg) (k : Ledger) (p : TxPower) : Prop := {
  ld_targets : p.(power_targets_) = map (booked k.(lg_tier)) g.(cg_targets);
  ld_latch : p.(power_override_) = k.(lg_latch);
  ld_rate : match k.(lg_rate) with
            | Some (m, level) => p.(last_commit_mcs_) = Some m /\ p.(last_commit_level_) = level
            | None => p.(last_commit_mcs_) = None end;
  ld_curve : match k.(lg_curve) with
             | Some c => p.(curve_is_offset_space_) = true /\ Forall (fun c' => c' = c) (map pa_curve p.(power_))
             | None => p.(curve_is_offset_space_) = false end
}.
Lemma ledgered_view g k p p' : same_view p p' -> ledgered g k p -> ledgered g k p'.
Proof. intros [E1 E2 E3 E4 E5 E6] [L1 L2 L3 L4]. constructor; [by rewrite E1|by rewrite E2|by rewrite E5, E6|by rewrite E3, E4]. Qed.
(** What the records give an adapter is what the ledger entitles it to. *)
Lemma owed_entitled g k p t : power_inv p -> ledgered g k p -> t ∈ g.(cg_targets) -> owed p (booked k.(lg_tier) t) = entitled k t.
Proof.
  intros Hp [L1 L2 L3 L4] Ht. unfold owed, entitled. rewrite L2. destruct (lg_latch k) as [q|]; [done|]. cbn [booked pt_offset_qdb pt_adapter_idx].
  assert (Hin : booked (lg_tier k) t ∈ power_targets_ p) by (rewrite L1; apply list_elem_of_fmap; by exists t).
  destruct (lg_curve k) as [c|].
  - destruct L4 as [Es Ec]. pose proof (pi_curve _ Hp) as Hal. rewrite Es in Hal.
    destruct (aligned_find _ _ _ Hal (pi_nodup _ Hp) Hin) as (pa & Hf & Hpa & (_ & Ecl & _ & Hcv & Hlen)). cbn [booked pt_adapter_idx] in Hf. rewrite Hf.
    assert (Hpc : pa_curve pa = c) by (eapply Forall_forall in Ec; [exact Ec|]; apply list_elem_of_fmap; by exists pa). subst c.
    unfold want. rewrite curve_actuates_eq, Es, andb_true_r by done. unfold has_power_curve. destruct (power_ p) as [|x l]; [by apply not_elem_of_nil in Hpa|].
    destruct (lg_rate k) as [[m level]|]; [|by rewrite L3]. destruct L3 as [Em El]. rewrite Em, El. cbn [mbind option_bind].
    pose proof (pi_commit _ Hp m Em). unfold resolve_power_qdb. rewrite Hcv, Ecl. destruct (Z.geb_spec m (len (curve_qdb (pa_curve pa)))); [lia|]. cbn [negb orb booked pt_ceiling].
    by destruct (curve_qdb (pa_curve pa) !! Z.to_nat m).
  - assert (Hw : forall pa, want p pa = None) by (intros pa; apply want_idle; left; rewrite curve_actuates_eq, L4, andb_false_r by done; done).
    destruct (find _ _); by rewrite ?Hw.
Qed.

Lemma tier_accepted_offered p tier : tier_accepted p tier = bool_decide (tier_offered (map pt_presets_qdb p.(power_targets_)) tier).
Proof.
  unfold tier_accepted, tier_offered. generalize (power_targets_ p). intros ts. apply eq_true_iff_eq. rewrite andb_true_iff, bool_decide_eq_true.
  rewrite Exists_exists, Forall_map. f_equiv; [rewrite existsb_exists|rewrite forallb_forall, Forall_forall].
  - split; [intros (t & Ht & H); exists (pt_presets_qdb t); split; [apply list_elem_of_fmap; exists t; split; [done|by apply list_elem_of_In]|]; destruct (pt_presets_qdb t); (done || (cbn in *; lia))|].
    intros (l & (t & -> & Ht)%list_elem_of_fmap & H). exists t. split; [by apply list_elem_of_In|]. destruct (pt_presets_qdb t); (done || (cbn in *; lia)).
  - split; intros H t Ht; apply list_elem_of_In in Ht; specialize (H t Ht); destruct (pt_presets_qdb t) as [|q l]; [by left| |done|].
    + right. apply orb_true_iff in H as [H|H]; [by apply Z.eqb_eq in H|by apply Z.ltb_lt].
    + destruct H as [H|H]; [done|]. apply orb_true_iff. right. by apply Z.ltb_lt.
Qed.
Lemma ledger_presets g k p : ledgered g k p -> map pt_presets_qdb p.(power_targets_) = map pt_offset_presets_qdb g.(cg_targets).
Proof. intros [-> _ _ _]. by rewrite map_map. Qed.
Lemma tier_ledgered g k p p' n : 0 <= n -> ledgered g k p -> tier_offered (map pt_offset_presets_qdb g.(cg_targets)) n -> tier_ceilings p n = Some p' ->
  ledgered g (MkLedger (Some n) k.(lg_latch) k.(lg_rate) k.(lg_curve)) p'.
Proof.
  intros Hn [L1 L2 L3 L4] [_ Hoff] H. unfold tier_ceilings in H. destruct (mapM (tier_adapter n) _) as [l|] eqn:El; [|done].
  destruct (mapM (tier_target n) _) as [ts|] eqn:Ets; [|done]. injection H as <-. constructor; cbn [power_targets_ power_override_ last_commit_mcs_ last_commit_level_ curve_is_offset_space_ power_ lg_tier lg_latch lg_rate lg_curve]; try done.
  - rewrite L1 in Ets. apply mapM_Some in Ets. clear -Ets Hoff Hn. revert Hoff Ets. generalize (cg_targets g). intros cs. revert ts.
    induction cs as [|t cs IH]; intros ts Hoff Hts; inversion Hts as [|? t' ? ts' E Hts']; subst; [done|]. apply Forall_cons in Hoff as [H1 Hoff]. cbn [map]. f_equal; [|by apply IH].
    unfold tier_target, booked in *. cbn [pt_presets_qdb] in E.
    assert (Hcl : ceiling_at (Some n) t = default t.(pt_offset_max_qdb) (pt_offset_presets_qdb t !! Z.to_nat n)) by done. rewrite Hcl. clear Hcl. destruct H1 as [H1|H1].
    + rewrite H1 in *. destruct (Z.geb_spec n (len ([] : list Z))) as [_|Hc]; [|cbn in Hc; lia]. injection E as <-. unfold ceiling_at. rewrite H1. by destruct (lg_tier k) as [z|].
    + destruct (Z.geb_spec n (len (pt_offset_presets_qdb t))); [lia|]. destruct (lookup_lt_is_Some_2 (pt_offset_presets_qdb t) (Z.to_nat n)) as [c Hc]; [lia|].
      rewrite Hc in *. by injection E as <-.
  - assert (Ec : map pa_curve l = map pa_curve (power_ p)).
    { apply mapM_Some in El. clear -El. induction El as [|pa pa' l0 l E _ IH]; [done|]. cbn [map]. f_equal; [|done]. unfold tier_adapter in E.
      destruct (_ >=? _); [by injection E as <-|]. destruct (_ !! _); [|done]. by injection E as <-. }
    by rewrite Ec.
Qed.
Lemma commit_ledgered g k p m level : ledgered g k p -> ledgered g (MkLedger k.(lg_tier) k.(lg_latch) (Some (m, level)) k.(lg_curve)) (with_commit p m level).
Proof. intros [L1 L2 L3 L4]. by constructor. Qed.
Lemma install_ledgered g k p c : p.(backend_relative_) = true -> ledgered g k p -> ledgered g (MkLedger k.(lg_tier) k.(lg_latch) k.(lg_rate) (Some c)) (install_curve p c).
Proof.
  intros Hr [L1 L2 L3 L4]. constructor; try done. cbn. split; [done|]. rewrite map_map. apply Forall_map, Forall_forall. done.
Qed.
Lemma command_ledgered g k e t log id arg now t' log' d : u8 arg -> ledgered g k t.(tx_power) ->
  apply_command e t log id arg now = Some (t', log', d) -> ledgered g (ledger_step g e now t (TvCommand id arg) k) t'.(tx_power).
Proof.
  intros Ha HL H. unfold apply_command in H. cbn [ledger_step].
  destruct (Z.eqb_spec id vcmd_id_kTxPower) as [->|Hid]; cbn [andb].
  - cbn in H. unfold set_power_tier in H. rewrite tier_accepted_offered, (ledger_presets _ _ _ HL) in H.
    destruct (calibrating t); cbn [negb andb]; [by injection H as <- <- <-|]. destruct (bool_decide (tier_offered _ _)) eqn:Eo; cbn [negb] in H; [|by injection H as <- <- <-].
    apply bool_decide_eq_true in Eo. destruct (tier_ceilings _ _) as [p|] eqn:Ep; [|done]. cbn [mbind option_bind] in H.
    pose proof (tier_ledgered g k _ _ arg ltac:(unfold u8 in *; lia) HL Eo Ep) as Hp.
    match type of H with context [tier_apply e (tx_power ?x) log] => assert (Et : tx_power x = p) by (by repeat case_match); revert H; generalize dependent x end.
    intros t2 Et H. rewrite Et in H. pose proof (tier_apply_view e p log) as Hv. destruct (tier_apply e p log) as [p' l']. injection H as <- _ _.
    by apply (ledgered_view _ _ _ _ Hv).
  - repeat match type of H with
      | (if ?x then _ else _) = _ => destruct x eqn:?
      | match ?x with _ => _ end = _ => destruct x eqn:?
      | (_ ← ?x; _) = _ => destruct x eqn:?; [cbn [mbind option_bind] in H|done]
      | Some _ = Some _ => injection H as <- <- <-
      end; try done; try (bool_hyps; congruence).
    all: repeat match goal with
      | E : cmd_selector _ _ = Some _ |- _ => unfold cmd_selector, own_window in E; cbn in E
      | E : cmd_calibrate _ _ _ _ = _ |- _ => unfold cmd_calibrate in E
      | E : cmd_mtu_tier _ _ = _ |- _ => unfold cmd_mtu_tier in E
      | E : (if ?x then _ else _) = _ |- _ => destruct x
      | E : match ?x with _ => _ end = _ |- _ => destruct x
      | E : (_ ← ?x; _) = _ |- _ => destruct x; [cbn [mbind option_bind] in E|done]
      | E : Some _ = Some _ |- _ => injection E as <-
      | E : (_, _) = (_, _) |- _ => injection E as <- _
      end; done.
Qed.
Lemma override_ledgered g k e p log q : all_take e -> power_inv p -> ledgered g k p ->
  ledgered g (if bool_decide (latch_allowed g.(cg_targets) q) then MkLedger k.(lg_tier) (Some q) k.(lg_rate) k.(lg_curve) else k) (set_power_override e p log q).1.1.
Proof.
  intros He Hp HL. pose proof HL as [L1 L2 L3 L4]. destruct (bool_decide _) eqn:Eb.
  - apply bool_decide_eq_true in Eb as [Hne Hq]. rewrite override_outcome; [|done|..].
    + by constructor.
    + intros t Ht. rewrite L1 in Ht. apply list_elem_of_fmap in Ht as (x & -> & Hx). cbn. by eapply Forall_forall in Hq.
    + rewrite L1. by destruct (cg_targets g).
  - apply bool_decide_eq_false in Eb. unfold set_power_override. destruct (existsb _ _) eqn:Ex; [done|].
    destruct (power_targets_ p) as [|x l] eqn:Et; [done|]. exfalso. apply Eb. split; [rewrite L1 in Et; by destruct (cg_targets g)|].
    apply Forall_forall. intros t Ht. destruct (Z.leb_spec q (pt_offset_max_qdb t)) as [|Hgt]; [done|]. exfalso.
    assert (existsb (fun t => q >? pt_offset_max_qdb t) (power_targets_ p) = true); [|congruence].
    rewrite Et, L1.
    apply existsb_exists. exists (booked (lg_tier k) t). split; [apply list_elem_of_In, list_elem_of_fmap; by exists t|]. cbn. lia.
Qed.
Lemma clear_ledgered g k e p log : ledgered g k p -> ledgered g (MkLedger k.(lg_tier) None k.(lg_rate) k.(lg_curve)) (clear_power_override e p log).1.
Proof.
  intros [L1 L2 L3 L4]. unfold clear_power_override. eapply ledgered_view; [etrans; [apply forget_view|apply committed_view]|]. by constructor.
Qed.
(** *** The tick *)
Lemma refresh_probe_same e t log id : (refresh_probe e t log id).1.(tx_power) = t.(tx_power) /\ (refresh_probe e t log id).1.(tx_calib) = t.(tx_calib).
Proof. unfold refresh_probe. repeat case_match; done. Qed.
Lemma do_commit_ledgered g k e t log c : ledgered g k t.(tx_power) ->
  ledgered g (MkLedger k.(lg_tier) k.(lg_latch) (Some (c.(pc_mcs), c.(pc_tx_power_level))) k.(lg_curve)) (do_commit e t log c).1.(tx_power) /\
  (do_commit e t log c).1.(tx_calib) = t.(tx_calib) /\ (do_commit e t log c).1.(tx_power).(backend_relative_) = t.(tx_power).(backend_relative_).
Proof.
  intros HL. unfold do_commit. set (log1 := if has_apply_mode e then _ else _). clearbody log1. cbn [set_tx_streams tx_power tx_calib].
  pose proof (commit_ledgered g k _ c.(pc_mcs) c.(pc_tx_power_level) HL) as H1. set (p := with_commit _ _ _) in *.
  change (calibrating _) with (calibrating t). destruct (_ && _); [|done].
  pose proof (resolve_view e p log1 c.(pc_mcs) c.(pc_tx_power_level)) as Hv. pose proof (resolve_targets e p log1 c.(pc_mcs) c.(pc_tx_power_level)) as (_ & Hb & _).
  destruct (resolve_and_apply_power _ _ _ _ _) as [p' l']. cbn in *. split; [by apply (ledgered_view _ _ _ _ Hv)|]. done.
Qed.
Lemma own_window_power t t' : own_window t = Some t' -> t'.(tx_power) = t.(tx_power).
Proof. unfold own_window. destruct (cmd_selector_frozen_ t); [|by intros [= <-]]. destruct (profile_id _); [|done]. by intros [= <-]. Qed.
Lemma calib_pin_power t c m : (calib_pin t c m).(tx_power) = t.(tx_power).
Proof. unfold calib_pin. repeat case_match; done. Qed.
Lemma calibrate_service_ledgered g k e t log now t' log' : t.(tx_power).(backend_relative_) = true -> ledgered g k t.(tx_power) ->
  calibrate_service e t log now = Some (t', log') ->
  ledgered g (MkLedger k.(lg_tier) k.(lg_latch) k.(lg_rate)
    (match e.(on_calib_artifact), (c ← t.(tx_calib).(calibrator_); Calibrate.tick c now) with
     | Some store, Some (c, a) =>
       if a.(act_artifact_ready) && negb (store c.(c_artifact) =? 0) then Some (MkPowerCurve c.(c_artifact).(ca_curve_qdb) true) else k.(lg_curve)
     | _, _ => k.(lg_curve) end)) t'.(tx_power).
Proof.
  intros Hr HL H. unfold calibrate_service in H. assert (Ek : MkLedger k.(lg_tier) k.(lg_latch) k.(lg_rate) k.(lg_curve) = k) by by destruct k.
  destruct (calibrator_ (tx_calib t)) as [c|]; cbn [mbind option_bind].
  2:{ injection H as <- <-. destruct (on_calib_artifact e); by rewrite Ek. }
  destruct (Calibrate.tick c now) as [[c' a]|]; [|done]. cbn [mbind option_bind] in H.
  set (t2 := match on_calib_artifact e with Some _ => _ | None => _ end) in H. set (k' := MkLedger _ _ _ _).
  assert (H2 : ledgered g k' t2.(tx_power)).
  { unfold t2, k'. destruct (on_calib_artifact e) as [store|]; [|by rewrite Ek]. destruct (act_artifact_ready a); cbn [andb]; [|by rewrite Ek].
    unfold persist_artifact. destruct (store _ =? 0); cbn [negb]; [by rewrite Ek|]. by apply install_ledgered. }
  clearbody t2 k'. clear HL Ek.
  assert (H3 : exists t3 l3, (if act_restore a then calib_restore e t2 log else Some (t2, log)) = Some (t3, l3) /\ ledgered g k' t3.(tx_power)).
  { destruct (act_restore a); [|by exists t2, log]. destruct (calib_restore e t2 log) as [[t3 l3]|] eqn:E; [|done]. exists t3, l3. split; [done|].
    unfold calib_restore in E. destruct (own_window _) as [t4|] eqn:Ew; [|done]. cbn [mbind option_bind] in E. apply own_window_power in Ew.
    pose proof (restore_view e (tx_power t4) log) as Hv. destruct (restore_power _ _ _) as [p l]. injection E as <- <-. cbn in *. apply (ledgered_view _ _ _ _ Hv).
    rewrite Ew. by apply (ledgered_view _ _ _ _ (forget_view _)). }
  destruct H3 as (t3 & l3 & E3 & H3). rewrite E3 in H. cbn [mbind option_bind] in H. injection H as <- _.
  destruct (act_pin_rung a); [by rewrite calib_pin_power|done].
Qed.
Lemma drain_power fuel : forall t log c dest budget now t' log', drain_probes fuel t log c dest budget now = Some (t', log') -> t'.(tx_power) = t.(tx_power).
Proof.
  induction fuel as [|fuel IH]; intros t log c dest budget now t' log' H; [done|]. cbn [drain_probes] in H. destruct (calib_next_probe c now) as [c1 [seq|]].
  - destruct (encode_calib_probe _ _ _ _) as [[n o]|]; [|done]. cbn [mbind option_bind] in H. destruct (n =? 0); [by apply IH in H|]. destruct o; [|done]. cbn [mbind option_bind] in H.
    apply IH in H. done.
  - by injection H as <- _.
Qed.
Lemma probe_service_power e t log now t' log' : calibrate_probe_service e t log now = Some (t', log') -> t'.(tx_power) = t.(tx_power).
Proof.
  unfold calibrate_probe_service. destruct (calibrator_ _); [|by intros [= <- _]]. destruct (negb _); [by intros [= <- _]|]. destruct (_ =? 0); [by intros [= <- _]|].
  destruct (mtu_effective t); [|done]. apply drain_power.
Qed.
Lemma tick_ledgered g k e t log now t' log' : t.(tx_power).(backend_relative_) = true -> ledgered g k t.(tx_power) ->
  TxCore.tick e t log now = Some (t', log') -> ledgered g (ledger_step g e now t TvTick k) t'.(tx_power).
Proof.
  intros Hr HL H. unfold TxCore.tick in H. cbn [ledger_step]. destruct (Selector.tick (tx_selector t) now) as [[s a]|]; [|done]. cbn [mbind option_bind] in H.
  destruct (profile_id s) as [id|]; [|done]. cbn [mbind option_bind] in H.
  destruct (refresh_probe_same e (set_tx_selector t s) log id) as [Ep Ec]. destruct (refresh_probe _ _ _ _) as [t1 l1]. cbn [fst set_tx_selector tx_power tx_calib] in Ep, Ec.
  set (r := match sa_commit a with Some _ => do_commit _ _ _ _ | None => _ end) in H. set (rate := match sa_commit a with Some _ => _ | None => _ end).
  assert (Hc : ledgered g (MkLedger k.(lg_tier) k.(lg_latch) rate k.(lg_curve)) r.1.(tx_power) /\ r.1.(tx_calib) = t.(tx_calib) /\ r.1.(tx_power).(backend_relative_) = true).
  { unfold r, rate. rewrite <- Ep in HL. destruct (sa_commit a) as [c|].
    - destruct (do_commit_ledgered g k e t1 l1 c HL) as (H1 & -> & ->). by rewrite Ep.
    - cbn. rewrite Ec, Ep. split; [|done]. rewrite <- Ep. by destruct k. }
  clearbody r rate. destruct r as [t2 l2]. cbn [fst] in Hc. destruct Hc as (H2 & Ec2 & Er2).
  destruct (calibrate_service e t2 _ now) as [[t3 l3]|] eqn:E3; [|done]. cbn [mbind option_bind] in H.
  pose proof (calibrate_service_ledgered g _ e t2 _ now t3 l3 Er2 H2 E3) as H3. rewrite Ec2 in H3.
  destruct (calibrate_probe_service e t3 l3 now) as [[t4 l4]|] eqn:E4; [|done]. cbn [mbind option_bind] in H. apply probe_service_power in E4.
  assert (E5 : (expire_quiet t4 now).(tx_power) = t4.(tx_power)) by (unfold expire_quiet; by repeat case_match).
  destruct (fps_service _ _ _ _) as [f l5]. injection H as <- _. cbn. by rewrite E5, E4.
Qed.
(** Nothing off the air touches the power. *)
Lemma on_air_power e t log d now rssi m t' log' : on_air e t log d now rssi m = Some (t', log') -> t'.(tx_power) = t.(tx_power).
Proof.
  unfold on_air. destruct (decode _) as [dec|]; [|done]. cbn [mbind option_bind]. destruct dec; try (by intros [= <- _]).
  - unfold on_jscc_feedback. destruct (_ || _); [by intros [= <- _]|]. destruct (accept _ _ _ _) as [g []]; cbn [negb]; [|by intros [= <- _]].
    destruct (update_first _ _ _) as [[l o]|]; [|done]. by intros [= <- _].
  - unfold on_calib_probe. destruct (negb _); [by intros [= <- _]|]. destruct (on_probe _ _ _ _ _ _ _ _) as [[rx out]|]; [|done]. cbn [mbind option_bind].
    destruct (_ && _); [|by intros [= <- _]]. destruct (encode_calib_tally _ _ _) as [[n o]|]; [|done]. cbn [mbind option_bind].
    destruct (n =? 0); [by intros [= <- _]|]. destruct o; [|done]. by intros [= <- _].
  - intros [= <- _]. unfold tx_on_tally. by repeat case_match.
Qed.
Lemma step_ledgered g k e t log now ev t' log' : all_take e -> input_ok ev -> power_inv t.(tx_power) -> ledgered g k t.(tx_power) ->
  tx_step e now t log ev = Some (t', log') -> ledgered g (ledger_step g e now t ev k) t'.(tx_power).
Proof.
  intros He Hi Hp HL H. assert (Hq : t'.(tx_power) = t.(tx_power) -> ledgered g k t'.(tx_power)) by by intros ->.
  destruct ev as [id d|id blob|d rssi m| |id arg| |q| | |id i p m ep|on|until|on|mhz bw|[orig|]|]; cbn [tx_step] in H.
  - apply Hq. unfold on_ingress in H. destruct (update_first _ _ _) as [[l o]|]; [|done]. by injection H as <- _.
  - apply Hq. unfold TxCore.on_frame in H. destruct (existsb _ _); [|by injection H as <- _]. destruct (read_frame_meta _ _ _) as [[hm m]|]; [|done]. cbn [mbind option_bind] in H.
    destruct (update_first _ _ _) as [[l o]|]; [|done]. by injection H as <- _.
  - apply Hq. by apply on_air_power in H.
  - by eapply tick_ledgered; [apply Hp| |].
  - destruct (apply_command e t log id arg now) as [[[t1 l1] d]|] eqn:E; [|done]. injection H as <- _. by eapply command_ledgered.
  - destruct (reset_negotiated_mtu e t log) as [[[t1 l1] d]|] eqn:E; [|done]. injection H as <- _. unfold reset_negotiated_mtu in E.
    apply (command_ledgered g k e t log vcmd_id_kMtuTier 0 0 t1 l1 d ltac:(unfold u8; lia) HL E).
  - pose proof (override_ledgered g k e t.(tx_power) log q He Hp HL) as H1. unfold tx_set_power_override in H. destruct (set_power_override _ _ _ _) as [[p l] d].
    by injection H as <- _.
  - pose proof (clear_ledgered g k e t.(tx_power) log HL) as H1. unfold tx_clear_power_override in H. destruct (clear_power_override _ _ _) as [p l]. by injection H as <- _.
  - pose proof (reassert_view e t.(tx_power) log) as H1. unfold tx_reassert_power in H. destruct (reassert_power _ _ _) as [p l]. injection H as <- _.
    by apply (ledgered_view _ _ _ _ H1).
  - apply Hq. destruct (set_stream_fec _ _ _ _ _ _) as [[t1 d]|] eqn:E; [|done]. injection H as <- _. unfold set_stream_fec in E.
    destruct (find _ _); [|by injection E as <- _]. destruct (bool_decide _); [|by injection E as <- _]. destruct (update_first _ _ _) as [[l o]|]; [|done]. by injection E as <- _.
  - injection H as <- _. by apply Hq.
  - injection H as <- _. by apply Hq.
  - injection H as <- _. by apply Hq.
  - injection H as <- _. by apply Hq.
  - injection H as <- _. by apply Hq.
  - injection H as <- _. by apply Hq.
  - injection H as <- _. by apply Hq.
Qed.
Lemma boot_ledgered g e0 : craft_ok g -> ledgered g (ledger_init g) (craft_boot e0 g).1.(tx_power).
Proof.
  intros Hg. set (b := g.(cg_boot)).
  assert (Ep : (craft_core g).(tx_power) = TxPower_init g.(cg_power) g.(cg_targets)) by (unfold craft_core, TxCore_init; by destruct (cg_rf g) as [[? ?]|]).
  set (k0 := MkLedger None None None None).
  assert (H1 : ledgered g k0 (radio_core g).(tx_power)).
  { unfold radio_core. cbn [set_tx_power tx_power]. rewrite Ep. by constructor. }
  unfold craft_boot, node_boot. rewrite (cf_relative _ Hg). fold (radio_core g). fold b. cbn [fst].
  set (t2 := match b.(nb_actuator) with Some x => _ | None => _ end).
  assert (H2 : ledgered g k0 t2.(tx_power) /\ offset_window t2.(tx_power) = offset_window (radio_core g).(tx_power) /\ has_power_curve t2.(tx_power) = has_power_curve (radio_core g).(tx_power) /\
    t2.(tx_power).(backend_relative_) = true).
  { unfold t2. destruct (nb_actuator b); [|done]. split; [|done]. by apply (ledgered_view g k0 (radio_core g).(tx_power)). }
  clearbody t2. destruct H2 as (H2 & Ew & Ehc & Er2).
  set (t4 := if nb_ident b then _ else _). assert (E4 : t4.(tx_power) = t2.(tx_power)) by (unfold t4; by destruct (nb_ident b)). clearbody t4.
  unfold ledger_init. fold b. assert (Ehp : has_power_curve (radio_core g).(tx_power) = match g.(cg_power) with [] => false | _ => true end).
  { unfold radio_core. cbn [set_tx_power tx_power]. rewrite Ep. unfold has_power_curve. cbn. by destruct (cg_power g). }
  destruct (nb_stored b) as [st|]; [|change (ledgered g k0 (set_calib_identity t4 (nb_ident_fingerprint b)).(tx_power)); cbn; by rewrite E4].
  destruct (nb_ident b); cbn [andb]; [|destruct (cg_power g); cbn; by rewrite E4].
  unfold boot_load. cbn [set_calib_identity set_tx_calib tx_power]. rewrite E4, Ew.
  assert (Esp : match offset_window (radio_core g).(tx_power) with
    | Some (lo, hi) => forallb (fun q => negb ((q <? lo) || (q >? hi))) st.(cst_placement_qdb) | None => true end =
    match offset_window (radio_core g).(tx_power) with Some (lo, hi) => forallb (fun q => (lo <=? q) && (q <=? hi)) st.(cst_placement_qdb) | None => true end).
  { destruct (offset_window (tx_power (radio_core g))) as [[lo hi]|]; [|done]. clear. induction (cst_placement_qdb st) as [|q l IH]; [done|]. cbn [forallb]. rewrite IH. f_equal.
    by rewrite negb_orb, Z.gtb_ltb, <- !Z.leb_antisym. }
  rewrite Esp. destruct (cst_ours st && _) eqn:Eo.
  - rewrite Ehc, Ehp. destruct (cg_power g); cbn [set_calib_loaded set_tx_calib set_tx_power set_calib_identity tx_power]; rewrite ?E4; [|done].
    by apply (install_ledgered g k0).
  - destruct (cg_power g); cbn; by rewrite E4.
Qed.
Lemma run_ledgered C b (HC : const_ok C) g l : forall t log k t' log', core_ok C b t -> Forall (bounded_by b) log -> Forall (fun x => input_ok x.2) l ->
  Forall (fun x => all_take x.1.1) l -> tiers_clear t log l -> governed t log -> ledgered g k t.(tx_power) -> tx_run t log l = Some (t', log') ->
  ledgered g (ledger_run g t log k l) t'.(tx_power).
Proof.
  induction l as [|[[e now] ev] l IH]; intros t log k t' log' Ht Hl Hi He Hc G HL H; [by injection H as <- _|].
  apply Forall_cons in Hi as [Hev Hi]. apply Forall_cons in He as [Hte He]. cbn [tx_run ledger_run tiers_clear fst snd] in *. destruct Hc as [HA Hc].
  destruct (step_total C b HC e now t log ev Ht Hl Hev) as (t1 & l1 & E & H1 & H2 & H3). rewrite E in *. cbn [mbind option_bind] in H.
  eapply (IH t1 l1); try done; [by auto|]. eapply step_ledgered; try done. by apply G.
Qed.
(** C3. The craft's power is always the right owner's. With a radio that takes
    every write, after any events since the boot: whenever no calibration runs
    or still has the power to give back, the last power written to every
    configured adapter is what a ledger of the commands entitles it to - the
    operator's latch, as last set within every adapter's bound and not released,
    under the ceiling of the last tier taken; without a latch, the offset of the
    curve in force (loaded at boot, or left by the last calibration whose
    artifact was stored) at the rate and level the selector last committed,
    under that ceiling; without either, the adapter's configured safe offset -
    through commits, tiers, latches set and released, re-asserted power,
    calibrations that finish, fail or are aborted, provided no power tier is
    commanded between an abort and the tick that delivers it. The ledger is kept
    from the configuration and the events, not from the core's own records. *)
Theorem power_authority (g : CraftCfg) (e0 : TxEnv) (l : list (TxEnv * Z * TxEvent))
  (Hg : craft_ok g) (Hd : NoDup (map pt_adapter_idx g.(cg_targets)))
  (Hst : forall st, g.(cg_boot).(nb_stored) = Some st -> curve_ok st.(cst_curve))
  (Ht : exists x, g.(cg_const).(tc_table) = Some x /\ x.(profiles) <> [])
  (He0 : all_take e0) (He : Forall (fun x => all_take x.1.1) l)
  (Hi : Forall (fun x => input_ok x.2) l) (Hc : tiers_clear (craft_boot e0 g).1 (craft_boot e0 g).2 l) :
  exists t log, tx_run (craft_boot e0 g).1 (craft_boot e0 g).2 l = Some (t, log) /\
    (resting t -> forall target, target ∈ g.(cg_targets) ->
       last_power log target.(pt_adapter_idx) =
         Some (entitled (ledger_run g (craft_boot e0 g).1 (craft_boot e0 g).2 (ledger_init g) l) target)).
Proof.
  destruct (craft_booted g Hg e0) as (Hb & Hl & _). pose proof (booted_governed g e0 Hg He0 Hd Hst Ht) as G.
  destruct (run_total _ _ (cf_const _ Hg) l _ _ (bt_ok _ _ Hb) Hl Hi) as (t & log & E & _ & _ & Hgov). exists t, log. split; [done|].
  intros Hr target Hin. destruct (Hgov He Hc G) as [_ G2 G3 _]. pose proof (st_placed _ _ (G3 Hr)) as Hp.
  pose proof (run_ledgered _ _ (cf_const _ Hg) g l _ _ (ledger_init g) _ _ (bt_ok _ _ Hb) Hl Hi He Hc G (boot_ledgered g e0 Hg) E) as HL.
  rewrite <- (owed_entitled g _ _ target G2 HL Hin). apply (proj1 (Forall_forall _ _) Hp (booked _ target)). rewrite (ld_targets _ _ _ HL). apply list_elem_of_fmap. by exists target.
Qed.

(** *** A craft *)
Definition radio_env : TxEnv := MkTxEnv true true true true true (fun _ _ => true) None None false.
Definition craft_table : ProfileTable :=
  MkProfileTable [MkProfile 0 0 kLong 4 800 1424 kRlc256 250 50 50 500 100 100; MkProfile 1 3 kLong 3 800 1424 kRlc256 250 50 50 500 100 100] 0 0 0.
Definition craft_cfg (stored : option CalibStored) : CraftCfg :=
  MkCraftCfg (MkTxConst 7 99 1 (Some craft_table) 3072 0 255 true [60; 90] 60) SelectorPolicy_init ReportGatePolicy_init None []
    [MkPowerTarget 0 None [] [4; 16] 0 24] [MkTxStreamCfg 1 stream_type_kRtp true FrameFecConfig_init None] (Some (5800, 20))
    (MkNodeBoot true (Some true) CalibrationPolicy_init true 33 None stored).
Definition craft_curve : CalibStored := MkCalibStored true (MkPowerCurve [8; 9; 10; 11; 12; 13; 14; 15] true) [8; 9; 10; 11; 12; 13; 14; 15] 33.
Lemma craft_cfg_ok st : craft_ok (craft_cfg st).
Proof.
  constructor; try done.
  - constructor; [|unfold u8; cbn; lia]. intros x [= <-]. do 2 (constructor; [unfold profile_fits, u8, u16; cbn; lia|]). constructor.
  - constructor; [|constructor]. constructor; [|constructor]. cbn. split; [lia|]. do 2 (constructor; [lia|]). constructor.
  - constructor; [|constructor]. constructor; cbn; unfold u8, u16, stream_type_kRtp; lia.
Qed.
Definition at_ms (l : list (Z * TxEvent)) : list (TxEnv * Z * TxEvent) := map (fun x => (radio_env, x.1, x.2)) l.
(** The last power written to adapter 0, and whether the run rests. *)
Definition run_power (l : list (Z * TxEvent)) (st : option CalibStored) : option (option Z * bool) :=
  (fun r : TxCore * list Effect => (last_power r.2 0, negb (calibrating r.1))) <$> tx_run (craft_boot radio_env (craft_cfg st)).1 (craft_boot radio_env (craft_cfg st)).2 (at_ms l).
Definition restingb (t : TxCore) : bool :=
  match t.(tx_calib).(calibrator_) with Some c => negb (bool_decide (c.(c_state) = cRunning)) && negb c.(c_restore_pending) | None => true end.
Lemma restingb_spec t : restingb t = true -> resting t.
Proof.
  unfold restingb, resting. destruct (calibrator_ _) as [c|]; [|done]. intros [H1 H2]%andb_true_iff. apply negb_true_iff in H1, H2.
  apply bool_decide_eq_false in H1. done.
Qed.
Lemma no_tiers_clear l : Forall (fun x => forall arg, x.2 <> TvCommand vcmd_id_kTxPower arg) l -> forall t log, tiers_clear t log l.
Proof.
  induction 1 as [|[[e now] ev] l Hx _ IH]; intros t log; [done|]. cbn. split; [intros arg ->; by destruct (Hx arg)|]. destruct (tx_step _ _ _ _ _) as [[t' log']|]; [apply IH|done].
Qed.
(** A commit, an over-bound latch refused, a latch, an aborted calibration. *)
Definition craft_events : list (Z * TxEvent) :=
  [(1, TvTick); (2, TvOverride 30); (3, TvOverride 20); (4, TvAuthority (Some 9)); (5, TvCommand vcmd_id_kCalibrate 1); (6, TvTick); (400, TvTick);
   (401, TvCommand vcmd_id_kCalibrate 0); (402, TvTick); (403, TvReassert); (404, TvClearOverride); (405, TvAir [87; 66; 9] (-50) 3)].
Lemma craft_events_ok : Forall (fun x => input_ok x.2) (at_ms craft_events).
Proof. repeat (constructor; [cbn; try done; unfold u8; lia|]). constructor; [|constructor]. cbn. repeat (constructor; [unfold u8; lia|]). constructor. Qed.
Lemma craft_safe_witness : exists t log,
  tx_run (craft_boot radio_env (craft_cfg (Some craft_curve))).1 (craft_boot radio_env (craft_cfg (Some craft_curve))).2 (at_ms craft_events) = Some (t, log) /\
  forall i q, EApplyPower i q ∈ log \/ EApplyPowerOffset i q ∈ log -> exists target, target ∈ cg_targets (craft_cfg (Some craft_curve)) /\
    target.(pt_adapter_idx) = i /\ q <= target.(pt_offset_max_qdb).
Proof. apply craft_safe; [apply craft_cfg_ok|apply craft_events_ok]. Defined.
Lemma power_authority_witness : exists t log,
  tx_run (craft_boot radio_env (craft_cfg (Some craft_curve))).1 (craft_boot radio_env (craft_cfg (Some craft_curve))).2 (at_ms craft_events) = Some (t, log) /\
  last_power log 0 = Some 8.
Proof.
  destruct (power_authority (craft_cfg (Some craft_curve)) radio_env (at_ms craft_events)) as (t & log & E & H).
  - apply craft_cfg_ok.
  - cbn. apply NoDup_singleton.
  - intros st [= <-]. by split.
  - exists craft_table. by split.
  - by constructor.
  - repeat (constructor; [by constructor|]). constructor.
  - apply craft_events_ok.
  - apply no_tiers_clear. repeat (constructor; [by intros arg|]). constructor.
  - exists t, log. split; [exact E|].
    assert (Hx : (fun r : TxCore * list Effect => restingb r.1) <$>
      tx_run (craft_boot radio_env (craft_cfg (Some craft_curve))).1 (craft_boot radio_env (craft_cfg (Some craft_curve))).2 (at_ms craft_events) = Some true)
      by (vm_compute; reflexivity).
    rewrite E in Hx. cbn in Hx. injection Hx as Hx. specialize (H (restingb_spec t Hx) (MkPowerTarget 0 None [] [4; 16] 0 24) (list_elem_of_here _ _)).
    assert (Hk : entitled (ledger_run (craft_cfg (Some craft_curve)) (craft_boot radio_env (craft_cfg (Some craft_curve))).1
      (craft_boot radio_env (craft_cfg (Some craft_curve))).2 (ledger_init (craft_cfg (Some craft_curve))) (at_ms craft_events)) (MkPowerTarget 0 None [] [4; 16] 0 24) = 8)
      by (vm_compute; reflexivity).
    rewrite Hk in H. exact H.
Defined.
(** A tier commanded between the abort and the tick replaces the calibrator
    before its restore is delivered: the rung stays pinned to the sweep's. *)
Definition pins_after (l : list (Z * TxEvent)) : option (Z * Z * bool) :=
  (fun r : TxCore * list Effect => (r.1.(tx_selector).(policy_).(min_profile), r.1.(tx_selector).(policy_).(max_profile), calibrating r.1)) <$>
    tx_run (craft_boot radio_env (craft_cfg None)).1 (craft_boot radio_env (craft_cfg None)).2 (at_ms l).
Definition sweep_events : list (Z * TxEvent) :=
  [(1, TvTick); (2, TvAuthority (Some 9)); (3, TvCommand vcmd_id_kCalibrate 1); (4, TvTick); (5, TvCommand vcmd_id_kCalibrate 0)].
Example tier_strands_the_sweep : pins_after (sweep_events ++ [(7, TvTick)]) = Some (0, 255, false) /\
  pins_after (sweep_events ++ [(6, TvCommand vcmd_id_kTxPower 1); (7, TvTick); (8, TvTick)]) = Some (0, 0, false).
Proof. by vm_compute. Qed.
