(* ===== verification/TxProtect.v ===== *)
(** * Theorems about commands and frame protection on the craft

    A command is taken exactly when its conditions hold, and a refused one
    changes nothing; the ground's loss feedback sizes the parity of each frame,
    or drops the frame that cannot make its deadline. *)
From Stdlib Require Import String.
From S2P Require Import Prelude Types Wire Table FrameShm FrameFramer FrameSpec FramerFacts Framer FramerProps McsProbe Double Selector SelectorSpec Feedback Dwell Calibrate Pacing Jscc TxPower TxPowerProps TxCore TxCoreFacts TxCoreProps.
Open Scope Z_scope.

(** ** Commands *)
(** The conditions of the protocol for each command. A sweep has room: some
    adapter's safe offset is below every adapter's bound. *)
Definition sweep_room (ts : list PowerTarget) : Prop := Exists (fun t => Forall (fun u => t.(pt_offset_qdb) < u.(pt_offset_max_qdb)) ts) ts.
#[export] Instance sweep_room_dec ts : Decision (sweep_room ts).
Proof. unfold sweep_room. apply _. Defined.
Definition sweeping (t : TxCore) : bool := match t.(tx_calib).(calibrator_) with Some c => bool_decide (c.(c_state) = cRunning) | None => false end.
Definition packet_budget (tier : Z) : option Z := if tier =? 0 then Some 1424 else if tier =? 1 then Some 2048 else if tier =? 2 then Some 3072 else None.
(** When a command is taken. *)
Definition calibrate_taken (e : TxEnv) (t : TxCore) (arg : Z) : bool :=
  match t.(tx_calib).(calibrator_) with
  | None => false
  | Some _ =>
    if arg =? 1 then
      t.(tx_power).(power_actuator_) &&
      (if t.(tx_power).(backend_relative_) then e.(has_apply_power_offset) && bool_decide (sweep_room t.(tx_power).(power_targets_)) else e.(has_apply_power)) &&
      negb (latched_originator t.(tx_ret).(report_gate_) =? 0) && negb (sweeping t)
    else sweeping t
  end.
Definition command_taken (e : TxEnv) (t : TxCore) (cmd arg : Z) : bool :=
  if cmd =? vcmd_id_kSelector then arg <=? 1
  else if cmd =? vcmd_id_kFpsLadder then (arg <=? 1) && bool_decide (is_Some t.(tx_fps).(fps_ladder_))
  else if cmd =? vcmd_id_kFpsSelect then
    t.(tx_c).(tc_venc_enabled) && (arg <? len t.(tx_c).(tc_preset_fps)) && negb (bool_decide (is_Some t.(tx_fps).(fps_ladder_)) && t.(tx_fps).(cmd_fps_enabled_))
  else if cmd =? vcmd_id_kCalibrate then (arg <=? 1) && calibrate_taken e t arg
  else if cmd =? vcmd_id_kTxPower then negb (sweeping t) && bool_decide (tier_offered (map pt_presets_qdb t.(tx_power).(power_targets_)) arg)
  else if cmd =? vcmd_id_kMtuTier then match packet_budget arg with Some b => b <=? t.(tx_c).(tc_mtu_supported) | None => false end
  else false.

Lemma gtb_negb a b : (a >? b) = negb (a <=? b).
Proof. rewrite Z.gtb_ltb. destruct (Z.ltb_spec b a), (Z.leb_spec a b); (done || lia). Qed.
Lemma geb_negb a b : (a >=? b) = negb (a <? b).
Proof. rewrite Z.geb_leb. destruct (Z.leb_spec b a), (Z.ltb_spec a b); (done || lia). Qed.
Lemma fold_min_le {A} (f : A -> Z) l : forall x z, z < fold_left (fun m t => Z.min m (f t)) l x <-> z < x /\ Forall (fun t => z < f t) l.
Proof.
  induction l as [|t l IH]; intros x z; cbn; [split; [by intros|tauto]|]. rewrite IH, Forall_cons. split; [intros [? ?]|intros (? & ? & ?)]; split_and?; (done || lia).
Qed.
Lemma fold_min_in {A} (f : A -> Z) l : forall x, fold_left (fun m t => Z.min m (f t)) l x = x \/ exists t, t ∈ l /\ fold_left (fun m t => Z.min m (f t)) l x = f t.
Proof.
  induction l as [|t l IH]; intros x; cbn; [by left|]. destruct (IH (Z.min x (f t))) as [E|(u & Hu & E)].
  - rewrite E. destruct (Z.min_spec x (f t)) as [[_ ->]|[_ ->]]; [by left|]. right. exists t. split; [constructor|done].
  - right. exists u. split; [by constructor|done].
Qed.
Lemma sweep_room_ok p : p.(backend_relative_) = true -> bool_decide (is_Some (offset_window p)) = bool_decide (sweep_room p.(power_targets_)).
Proof.
  intros Hr. apply bool_decide_ext. unfold offset_window, sweep_room. rewrite Hr. destruct (power_targets_ p) as [|t l]; [split; [by intros [? ?]|by intros ?%Exists_nil]|].
  cbn [negb]. set (lo := fold_left (fun lo t => Z.min lo t.(pt_offset_qdb)) (t :: l) t.(pt_offset_qdb)).
  set (hi := fold_left _ (t :: l) t.(pt_offset_max_qdb)).
  assert (Hhi : forall z, z < hi <-> Forall (fun u => z < u.(pt_offset_max_qdb)) (t :: l)).
  { intros z. unfold hi. rewrite fold_min_le, Forall_cons. tauto. }
  destruct (Z.leb_spec hi lo) as [Hle|Hlt].
  - split; [by intros [? ?]|]. intros [u [Hu Hf]]%Exists_exists. exfalso. apply Hhi in Hf.
    assert (Hlo : ~ u.(pt_offset_qdb) < lo).
    { intros Hl. unfold lo in Hl. apply fold_min_le in Hl as [_ Hl]. eapply Forall_forall in Hl; [|exact Hu]. lia. }
    lia.
  - split; [|by eexists]. intros _. apply Exists_exists. destruct (fold_min_in pt_offset_qdb (t :: l) t.(pt_offset_qdb)) as [E|(u & Hu & E)]; fold lo in E.
    + exists t. split; [constructor|]. apply Hhi. lia.
    + exists u. split; [done|]. apply Hhi. lia.
Qed.
Lemma packet_budget_ok arg : 0 <= arg -> match packet_budget arg with Some b => mtu_tier_valid arg = true /\ mtu_tier_budget arg = b | None => mtu_tier_valid arg = false end.
Proof.
  intros Ha. unfold packet_budget, mtu_tier_valid, mtu_tier_budget, mtu_tier_kHigh, mtu_tier_kMedium.
  destruct (Z.eqb_spec arg 0) as [->|]; [done|]. destruct (Z.eqb_spec arg 1) as [->|]; [done|]. destruct (Z.eqb_spec arg 2) as [->|]; [done|]. lia.
Qed.
Lemma set_calibrator_same t c : t.(tx_calib).(calibrator_) = Some c -> set_calibrator t c = t.
Proof. destruct t as [? ? ? k ? ? ? ? ? ?], k. cbn. by intros ->. Qed.
Lemma tier_ceilings_total p tier : 0 <= tier -> is_Some (tier_ceilings p tier).
Proof.
  intros Ht. unfold tier_ceilings.
  destruct (mapM_total (tier_adapter tier) (fun _ _ => True) (power_ p)) as (l & -> & _).
  { apply Forall_forall. intros pa _. unfold tier_adapter. rewrite geb_negb. destruct (Z.ltb_spec tier (len (pa_presets_qdb pa))); cbn [negb]; [|by eexists].
    destruct (lookup_lt_is_Some_2 (pa_presets_qdb pa) (Z.to_nat tier)) as [c ->]; [lia|]. by eexists. }
  destruct (mapM_total (tier_target tier) (fun _ _ => True) (power_targets_ p)) as (ts & -> & _).
  { apply Forall_forall. intros t _. unfold tier_target. rewrite geb_negb. destruct (Z.ltb_spec tier (len (pt_presets_qdb t))); cbn [negb]; [|by eexists].
    destruct (lookup_lt_is_Some_2 (pt_presets_qdb t) (Z.to_nat tier)) as [c ->]; [lia|]. by eexists. }
  by eexists.
Qed.
Lemma calibrating_some t c : t.(tx_calib).(calibrator_) = Some c -> calibrating t = bool_decide (c.(c_state) = cRunning).
Proof. unfold calibrating. by intros ->. Qed.

(** C30. A command is taken exactly when its conditions hold, and a refused one
    changes nothing. On a craft with its selector well formed and for every
    8-bit argument, [apply_command] is defined, its answer is whether the
    command is known, its argument within the command's range, and the state
    the command needs present - a frame-rate ladder, an encoder without one
    running, an actuator with a sweepable window and a ground to answer for a
    calibration start, a run to abort, a power tier on every tiered adapter and
    no sweep in the way, an MTU the radio supports; where the answer is no, the
    state is unchanged and nothing reaches the radio or the encoder. *)
Theorem command_answer (e : TxEnv) (t : TxCore) (log : list Effect) (cmd arg now : Z) (Hs : shaped t.(tx_selector)) (Ha : u8 arg) :
  exists t' log', apply_command e t log cmd arg now = Some (t', log', command_taken e t cmd arg) /\
    (command_taken e t cmd arg = false -> t' = t /\ log' = log).
Proof.
  unfold u8 in Ha. unfold apply_command, command_taken. destruct (cmd =? vcmd_id_kSelector).
  { rewrite gtb_negb. destruct (arg <=? 1); cbn [negb]; [|by eexists _, _]. unfold cmd_selector, own_window. cbn [cmd_selector_frozen_ set_tx_frozen tx_selector].
    destruct (negb (arg =? 0)); [|by eexists _, _]. destruct (profile_id_some _ Hs) as [i ->]. by eexists _, _. }
  destruct (cmd =? vcmd_id_kFpsLadder).
  { rewrite gtb_negb. destruct (arg <=? 1); cbn [negb andb]; [|by eexists _, _]. destruct (fps_ladder_ (tx_fps t)); [|by eexists _, _].
    rewrite bool_decide_true by by eexists. by eexists _, _. }
  destruct (cmd =? vcmd_id_kFpsSelect).
  { destruct (tc_venc_enabled (tx_c t)); cbn [negb andb]; [|by eexists _, _]. rewrite geb_negb.
    destruct (Z.ltb_spec arg (len (tc_preset_fps (tx_c t)))); cbn [negb andb]; [|by eexists _, _].
    replace (bool_decide (is_Some (fps_ladder_ (tx_fps t))) && cmd_fps_enabled_ (tx_fps t)) with (cmd_fps_ladder (tx_fps t))
      by (unfold cmd_fps_ladder; destruct (fps_ladder_ (tx_fps t)); [by rewrite bool_decide_true by by eexists|by rewrite bool_decide_false by by intros [? ?]]).
    destruct (cmd_fps_ladder _); [by eexists _, _|].
    destruct (lookup_lt_is_Some_2 (tc_preset_fps (tx_c t)) (Z.to_nat arg)) as [f ->]; [lia|]. by eexists _, _. }
  destruct (cmd =? vcmd_id_kCalibrate).
  { rewrite gtb_negb. destruct (arg <=? 1); cbn [negb andb]; [|by eexists _, _]. unfold cmd_calibrate, calibrate_taken, sweeping.
    destruct (calibrator_ (tx_calib t)) as [c|] eqn:Ec; [|by eexists _, _]. destruct (arg =? 1).
    - destruct (power_actuator_ _); cbn [negb andb]; [|by eexists _, _].
      match goal with |- context [if ?x then (t, false) else _] => replace x with
        (negb (if backend_relative_ (tx_power t) then e.(has_apply_power_offset) && bool_decide (sweep_room t.(tx_power).(power_targets_)) else e.(has_apply_power)))
        by (destruct (backend_relative_ (tx_power t)) eqn:Er; [by rewrite negb_andb, sweep_room_ok|done]) end.
      destruct (if backend_relative_ _ then _ else _); cbn [negb andb]; [|by eexists _, _]. destruct (_ =? 0); cbn [negb andb]; [by eexists _, _|].
      unfold start. case_bool_decide; [rewrite decide_True by done|rewrite decide_False by done; destruct (seek_begin_at _ _); by eexists _, _].
      eexists _, _. split; [reflexivity|]. intros _. split; [by apply set_calibrator_same|done].
    - unfold abort. case_bool_decide; [rewrite decide_True by done; by eexists _, _|rewrite decide_False by done].
      eexists _, _. split; [reflexivity|]. intros _. split; [by apply set_calibrator_same|done]. }
  destruct (cmd =? vcmd_id_kTxPower).
  { unfold set_power_tier. change (calibrating t) with (sweeping t). rewrite tier_accepted_offered. destruct (sweeping t); [by eexists _, _|].
    destruct (bool_decide (tier_offered _ _)); cbn [negb andb]; [|by eexists _, _].
    destruct (tier_ceilings_total (tx_power t) arg ltac:(lia)) as [p ->]. cbn [mbind option_bind]. destruct (tier_apply _ _ _). by eexists _, _. }
  destruct (cmd =? vcmd_id_kMtuTier); [|by eexists _, _]. unfold cmd_mtu_tier. pose proof (packet_budget_ok arg ltac:(lia)) as Hb.
  destruct (packet_budget arg) as [b|]; [destruct Hb as [-> ->]|rewrite Hb; by eexists _, _]. cbn [negb].
  rewrite gtb_negb. destruct (_ <=? tc_mtu_supported _); by eexists _, _.
Qed.
Lemma command_answer_witness :
  let t := (craft_boot radio_env (craft_cfg None)).1 in
  exists t' log', apply_command radio_env t [] vcmd_id_kCalibrate 1 5 = Some (t', log', false) /\ (t' = t /\ log' = []).
Proof.
  intros t. assert (Hs : shaped t.(tx_selector)) by (destruct (craft_booted (craft_cfg None) (craft_cfg_ok None) radio_env) as [[B _ _ _ _ _ _ _] _]; apply B).
  assert (Hf : command_taken radio_env t vcmd_id_kCalibrate 1 = false) by (vm_compute; reflexivity).
  destruct (command_answer radio_env t [] vcmd_id_kCalibrate 1 5 Hs ltac:(unfold u8; lia)) as (t' & log' & E & H). rewrite Hf in E.
  exists t', log'. split; [exact E|]. by apply H.
Defined.

(** ** Frame protection *)
Definition ceil_permille (rate k : Z) : Z := (rate * k + 999) / 1000.
(** What the feedback decides of a frame of [k] symbols. *)
Inductive Verdict : Type := VPolicy | VDiscard | VParity (n : Z).
Definition feedback_fresh (sh : JsccRuntimeShadow) (now : Z) : option JsccFeedback :=
  f ← sh.(feedback_);
  if (sh.(feedback_at_ms_) <=? now) && (now - sh.(feedback_at_ms_) <=? sh.(jr_cfg).(feedback_timeout_ms)) &&
     negb (Z.land f.(jf_valid_flags) jscc_feedback_flags_kRepairReady =? 0) then Some f else None.
Definition frame_verdict (s : TxStream) (sh : JsccRuntimeShadow) (k : Z) (airtime : option Z) (deadline now : Z) (enhance : bool) : Verdict :=
  match feedback_fresh sh now, airtime with
  | Some f, Some tx =>
    if negb s.(ts_jscc_enforce) || enhance || (deadline =? 0) then VPolicy
    else if tx >? deadline then VDiscard
    else VParity (Z.min (Z.max (ceil_permille f.(jf_repair_demand_permille) k) (ceil_permille sh.(jr_cfg).(fec_floor_permille) k))
                        (Z.min (ceil_permille sh.(jr_cfg).(fec_cap_permille) k) (Z.max 0 (kFecMaxSymbols - k))))
  | _, _ => VPolicy
  end.
(** The fields have their C++ types; a timeout of 2^32-1 ms would saturate. *)
Record shadow_ok (sh : JsccRuntimeShadow) : Prop := {
  sw_timeout : 0 <= sh.(jr_cfg).(feedback_timeout_ms) < 4294967295;
  sw_rates : u16 sh.(jr_cfg).(fec_floor_permille) /\ u16 sh.(jr_cfg).(fec_cap_permille);
  sw_demand : forall f, sh.(feedback_) = Some f -> u16 f.(jf_repair_demand_permille)
}.
Lemma rate_symbols_ceil r k : u16 r -> 0 <= k <= 65535 -> rate_symbols r k = Z.min 65535 (ceil_permille r k).
Proof. unfold u16, rate_symbols, ceil_permille. intros Hr Hk. rewrite to_u32_id; [done|]. unfold u32. nia. Qed.
Lemma ceil_nonneg r k : 0 <= r -> 0 <= k -> 0 <= ceil_permille r k.
Proof. intros. unfold ceil_permille. apply Z.div_pos; nia. Qed.
Lemma decided i d c f k tx D : i = MkJsccInnerInput k (Z.min 65535 d) (Z.min 65535 f) (Z.min 65535 c) D 0 tx -> 0 <= d -> 0 <= f -> 0 <= c -> 1 <= k <= 65535 -> u32 tx ->
  jscc_inner_decide i = let r := jscc_inner_decide i in
    MkJsccInnerDecision (if tx >? D then 0 else Z.min (Z.max d f) (Z.min c (Z.max 0 (kFecMaxSymbols - k)))) r.(remaining_after_source_us) (tx >? D) r.(fec_capacity_limited) r.(reason).
Proof.
  intros -> Hd Hf Hc Hk Ht. unfold jscc_inner_decide. cbn [elapsed_us in_source_tx_remaining_us in_deadline_us predicted_loss_symbols fec_floor_symbols fec_cap_symbols in_source_k].
  rewrite Z.add_0_l, to_u64_id by (unfold u32, u64 in *; lia). destruct (tx >? D); [done|]. cbn. f_equal. unfold kFecMaxSymbols.
  destruct (Z.leb_spec k 256); [rewrite to_u16_id by (unfold u16; lia)|]; lia.
Qed.
(** A frame that jumbo packets would leave with fewer than 16 symbols, where
    packets of the default size would not. *)
Definition short_jumbo (ff : FrameFramer) (blen : Z) : bool :=
  (1387 <? symbol_size ff) && (frame_k ff blen <? 16) && (16 <=? 1 + (blen - 1) / 1387).
(** The repairs a frame is owed: none without the code; the parity asked, within
    what the code can carry, of a frame that is referenced; otherwise the rate of
    its class of [k] symbols but at least the minimum, and none where that does
    not fit; and a short jumbo frame has at least what 16 symbols would have. *)
Definition repairs_owed (ff : FrameFramer) (blen flags : Z) (asked : option Z) : Z :=
  let c := ff.(cfg_).(ff_fec) in
  let k := frame_k ff blen in
  let idr := negb (Z.land flags kFrameFlagIdr =? 0) in
  let enhance := negb idr && negb (Z.land flags kFrameFlagEnhance =? 0) in
  let rate := if idr then c.(i_rate_permille) else if enhance then default c.(p_rate_permille) c.(e_rate_permille) else c.(p_rate_permille) in
  let want n := Z.max (ceil_permille rate n) c.(min_r) in
  let policy := if (rate =? 0) || (256 <? k + want k) then 0 else want k in
  let base := match asked with Some n => if enhance then policy else Z.min n (Z.max 0 (256 - k)) | None => policy end in
  if bool_decide (c.(scheme) = kRlc256)
  then if short_jumbo ff blen && negb (rate =? 0) && (k + want 16 <=? 256) then Z.max base (want 16) else base
  else 0.
Lemma class_rate_flags ff flags : class_rate ff (fec_class flags) =
  let c := ff.(cfg_).(ff_fec) in
  if negb (Z.land flags kFrameFlagIdr =? 0) then c.(i_rate_permille)
  else if negb (negb (Z.land flags kFrameFlagIdr =? 0)) && negb (Z.land flags kFrameFlagEnhance =? 0) then default c.(p_rate_permille) c.(e_rate_permille) else c.(p_rate_permille).
Proof. unfold class_rate, fec_class. destruct (negb (Z.land flags kFrameFlagIdr =? 0)); cbn [negb andb]; [done|]. by destruct (negb _). Qed.
Lemma enhance_flags flags : match fec_class flags with kEnhance => true | _ => false end =
  negb (negb (Z.land flags kFrameFlagIdr =? 0)) && negb (Z.land flags kFrameFlagEnhance =? 0).
Proof. unfold fec_class. destruct (negb (Z.land flags kFrameFlagIdr =? 0)); cbn [negb andb]; [done|]. by destruct (negb _). Qed.
Lemma short_jumbo_guard ff blen : wf_framer ff ->
  jumbo_fec_guard ff blen (symbol_size ff) (frame_k ff blen) = is_rlc256 ff && short_jumbo ff blen.
Proof.
  intros Hw. unfold jumbo_fec_guard, short_jumbo, mtu_tier_kFecProtectionK. change (to_u16 (kDefaultMaxPayload - kDataHeaderSize - kFecRepairSubheaderSize)) with 1387.
  rewrite Z.gtb_ltb. destruct (Z.ltb_spec 1387 (symbol_size ff)).
  - rewrite Z.min_r by lia. rewrite (proj2 (Z.ltb_lt _ _)) by lia. rewrite Z.geb_leb. by rewrite !andb_assoc.
  - rewrite Z.min_l by lia. rewrite Z.ltb_irrefl. by rewrite !andb_false_r.
Qed.
Lemma repairs_owed_ok ff blen flags : wf_framer ff -> 1 <= frame_k ff blen <= 65535 ->
  frame_repairs ff blen flags = repairs_owed ff blen flags ff.(override_parity_).
Proof.
  intros Hw Hk. unfold frame_repairs. rewrite short_jumbo_guard by done. set (k := frame_k ff blen) in *.
  pose proof (class_rate_u16 ff (fec_class flags) Hw) as Hrt. pose proof (wff_min_r _ Hw) as Hm. pose proof (wff_override _ Hw) as Ho.
  pose proof (repair_count_policy ff k (fec_class flags) Hw Hk) as Hp. unfold choose_repairs, repairs_owed.
  rewrite enhance_flags. fold k. rewrite <- class_rate_flags. set (rate := class_rate ff (fec_class flags)) in *.
  change (bool_decide (scheme (ff_fec (cfg_ ff)) = kRlc256)) with (is_rlc256 ff).
  destruct (repair_count ff k (fec_class flags)) as [r0 f1] eqn:E1. cbn [fst] in Hp. subst r0.
  assert (Hf1 : is_rlc256 f1 = is_rlc256 ff /\ class_rate f1 (fec_class flags) = rate /\ cfg_ f1 = cfg_ ff)
    by (unfold repair_count in E1; repeat case_match; injection E1 as _ <-; done).
  destruct Hf1 as (-> & -> & ->). unfold policy_repairs. fold rate. destruct (is_rlc256 ff) eqn:Erlc; cbn [negb orb andb].
  2:{ rewrite andb_false_r. destruct (override_parity_ ff); done. }
  rewrite andb_true_r. set (enh := negb (negb _) && _). unfold mtu_tier_kFecProtectionK, kFecMaxSymbols, ceil_permille.
  rewrite (Z.mul_comm k rate), Z.gtb_ltb, (Z.mul_comm 16 rate). set (want := fun n => Z.max ((rate * n + 999) / 1000) (min_r (ff_fec (cfg_ ff)))).
  change (Z.max ((rate * k + 999) / 1000) (min_r (ff_fec (cfg_ ff)))) with (want k).
  rewrite (Z.max_comm (min_r _)). change (Z.max ((rate * 16 + 999) / 1000) (min_r (ff_fec (cfg_ ff)))) with (want 16).
  set (policy := if (rate =? 0) || _ then 0 else _).
  assert (Hw16 : u16 (want 16)).
  { unfold want, u16 in *. split; [lia|]. apply Z.max_lub_lt; [|lia]. apply Z.div_lt_upper_bound; lia. }
  rewrite (to_u16_id (want 16)) by done.
  set (base := match override_parity_ ff with Some ov => if negb enh then _ else _ | None => _ end).
  assert (Eb : base = match override_parity_ ff with Some n => if enh then policy else Z.min n (Z.max 0 (256 - k)) | None => policy end).
  { unfold base. destruct (override_parity_ ff) as [ov|]; [|done]. cbn in Ho. destruct enh; cbn [negb]; [done|].
    unfold u16 in *. destruct (Z.ltb_spec k 256); rewrite to_u16_id by (unfold u16; lia); lia. }
  rewrite <- Eb. clearbody base policy. unfold short_jumbo. fold k. destruct (1387 <? symbol_size ff); cbn [andb]; [|done].
  destruct (Z.ltb_spec k 16); cbn [andb]; [|done]. destruct (16 <=? _); cbn [andb]; [|done].
  rewrite to_u32_id by (unfold u32; lia). destruct (rate =? 0); cbn [negb andb]; [done|]. unfold u16 in *.
  destruct (Z.leb_spec (want 16) (256 - k)), (Z.leb_spec (k + want 16) 256); try lia; cbn [andb fst]; [|done].
  destruct (Z.ltb_spec base (want 16)); cbn [fst]; lia.
Qed.
Lemma update_first_find {A} (f : A -> bool) (g : A -> option (A * list Effect)) l x x' out : find f l = Some x -> g x = Some (x', out) ->
  exists l', update_first f g l = Some (l', out).
Proof.
  intros Hf Hg. induction l as [|y l IH]; [done|]. cbn in *. destruct (f y); [injection Hf as ->; rewrite Hg; by eexists|].
  destruct (IH Hf) as [l' ->]. by eexists.
Qed.
Definition frame_airtime (e : TxEnv) (ff : FrameFramer) (k blen : Z) : option Z :=
  match e.(estimate_airtime) with
  | Some f => f (blen + k * (kDataHeaderSize + kFecSourceSubheaderSize)) (to_u16 (symbol_size ff + kDataHeaderSize + kFecSourceSubheaderSize))
  | None => None
  end.
Definition is_enhance (b : list Z) : bool := match fec_class (blob_flags b) with kEnhance => true | _ => false end.
(** The effects of a frame sent with [r] repair symbols. *)
Definition sent_with (ff : FrameFramer) (b : list Z) (r now : Z) : list Effect :=
  map (fun x => EInject x.(e_frame)) (block_packets ff ff.(block_id_) b (Z.to_nat (symbol_size ff)) (Z.to_nat r) now).
Lemma verdict_frame e s ff sh D b now : shadow_ok sh -> 1 <= frame_k ff (len b) <= 65535 ->
  (forall tx, frame_airtime e ff (frame_k ff (len b)) (len b) = Some tx -> u32 tx) ->
  match frame_verdict s sh (frame_k ff (len b)) (frame_airtime e ff (frame_k ff (len b)) (len b)) D now (is_enhance b) with
  | VPolicy => (jscc_frame e s ff sh (is_enhance b) D (len b) now).2 = Some ff
  | VDiscard => (jscc_frame e s ff sh (is_enhance b) D (len b) now).2 = None
  | VParity n => (jscc_frame e s ff sh (is_enhance b) D (len b) now).2 = Some (set_next_frame_override ff n) /\ is_enhance b = false /\
      0 <= n <= Z.max 0 (kFecMaxSymbols - frame_k ff (len b))
  end.
Proof.
  intros [Htm [Hfl Hcap] Hdem] Hk Htx. set (k := frame_k ff (len b)) in *.
  assert (Ein : jscc_input e ff D (len b) now = MkJsccShadowFrameInput k D (frame_airtime e ff k (len b)) now).
  { unfold jscc_input. change (1 + (len b - 1) / symbol_size ff) with (frame_k ff (len b)). fold k. rewrite Z.min_l by lia. done. }
  unfold jscc_frame. rewrite Ein. unfold evaluate, frame_verdict, feedback_fresh.
  destruct (feedback_ sh) as [f|] eqn:Ef; cbn [mbind option_bind]; [|by rewrite andb_false_r].
  specialize (Hdem f eq_refl). cbn [fi_now_ms fi_source_tx_remaining_us fi_deadline_us fi_source_k].
  set (stale := (now <? feedback_at_ms_ sh) || _). assert (Est : stale = negb ((feedback_at_ms_ sh <=? now) && (now - feedback_at_ms_ sh <=? feedback_timeout_ms (jr_cfg sh)))).
  { unfold stale. rewrite geb_negb, gtb_negb. destruct (Z.ltb_spec now (feedback_at_ms_ sh)), (Z.leb_spec (feedback_at_ms_ sh) now); cbn [negb orb andb]; lia. }
  clearbody stale. rewrite Est. clear Est stale. destruct ((feedback_at_ms_ sh <=? now) && _); cbn [negb andb]; [|by rewrite andb_false_r].
  destruct (Z.land (jf_valid_flags f) jscc_feedback_flags_kRepairReady =? 0); cbn [negb]; [by rewrite andb_false_r|].
  destruct (frame_airtime e ff k (len b)) as [tx|] eqn:Etx; [|by rewrite andb_false_r]. specialize (Htx tx eq_refl).
  destruct (D =? 0); [by rewrite andb_false_r, orb_true_r|]. rewrite orb_false_r. cbn [js_valid js_decision]. rewrite andb_true_r.
  destruct (ts_jscc_enforce s); cbn [negb orb]; [|done]. destruct (is_enhance b) eqn:Een; [done|].
  unfold u16 in *. rewrite !rate_symbols_ceil by (unfold u16; lia).
  rewrite (decided _ _ _ _ k tx D eq_refl) by (try done; apply ceil_nonneg; lia). cbn [discard parity_symbols].
  pose proof (ceil_nonneg (jf_repair_demand_permille f) k ltac:(lia) ltac:(lia)). pose proof (ceil_nonneg (fec_cap_permille (jr_cfg sh)) k ltac:(lia) ltac:(lia)).
  destruct (tx >? D); [done|]. split; [done|]. split; [done|]. lia.
Qed.

(** C13. The ground's loss feedback sizes the protection of each frame, within
    the frame's deadline. For any frame of a stream with the feedback loop:
    with fresh feedback - within the timeout, repair ready - an airtime
    estimate, a deadline and enforcement on, a base frame whose own
    transmission would miss the deadline is dropped, and any other is sent with
    the parity the feedback asks, at least the floor, at most the cap and what
    the code can carry - on a stream with the code, and raised to what 16
    symbols are owed where jumbo packets leave the frame shorter than that; an
    enhance frame, and every frame when any of these is missing, is sent with
    the override pending or the rate of its class, under the same conditions; a
    stream without the code has no repairs. The packets are the source block and
    exactly that many repairs, in order. *)
Theorem jscc_protects (e : TxEnv) (t : TxCore) (log : list Effect) (sid : Z) (s : TxStream) (ff : FrameFramer) (sh : JsccRuntimeShadow) (b : list Z) (now : Z)
  (Ht : shaped t.(tx_selector)) (Hs : find (frame_stream sid) t.(tx_streams) = Some s)
  (Hff : s.(ts_frame_framer) = Some ff) (Hsh : s.(ts_jscc_shadow) = Some sh) (Hf : frames_ok ff) (Hok : shadow_ok sh)
  (Hb : bytes b) (Hb8 : 8 <= len b) (Hb32 : u32 (len b)) (Hk : frame_k ff (len b) <= 65535)
  (Htx : forall tx, frame_airtime e ff (frame_k ff (len b)) (len b) = Some tx -> u32 tx) :
  exists t' D sent, frame_deadline_us t = Some D /\ TxCore.on_frame e t log sid (Some b) (len b) now = Some (t', log ++ sent) /\
    match frame_verdict s sh (frame_k ff (len b)) (frame_airtime e ff (frame_k ff (len b)) (len b)) D now (is_enhance b) with
    | VDiscard => sent = []
    | VPolicy => sent = sent_with ff b (repairs_owed ff (len b) (blob_flags b) ff.(override_parity_)) now
    | VParity n => sent = sent_with ff b (repairs_owed ff (len b) (blob_flags b) (Some n)) now
    end.
Proof.
  assert (HD : is_Some (frame_deadline_us t)).
  { unfold frame_deadline_us. destruct (tc_table _); [|by eexists]. destruct (profile_id_some _ Ht) as [i ->]. by eexists. }
  destruct HD as [D HD]. assert (Hk1 : 1 <= frame_k ff (len b) <= 65535).
  { split; [|done]. unfold frame_k. pose proof (symbol_size_pos ff (fo_wf _ Hf)). pose proof (Z.div_pos (len b - 1) (symbol_size ff)). lia. }
  destruct (read_meta_flags b ltac:(lia)) as (m & Hm & Hmf).
  assert (Hsend : forall f1, (f1 = ff \/ exists n, f1 = set_next_frame_override ff n /\ u16 n) ->
    exists ok f', FrameFramer.on_frame f1 (Some b) (len b) now = Some (ok, f', block_packets ff ff.(block_id_) b (Z.to_nat (symbol_size ff))
      (Z.to_nat (frame_repairs f1 (len b) (blob_flags b))) now)).
  { intros f1 Hf1. assert (Hw : frames_ok f1) by (destruct Hf1 as [-> |(n & -> & Hn)]; [done|by apply (frames_override ff (Some n))]).
    assert (Es : symbol_size f1 = symbol_size ff) by (by destruct Hf1 as [-> |(n & -> & _)]).
    assert (Ek : frame_k f1 (len b) = frame_k ff (len b)) by (unfold frame_k; by rewrite Es).
    destruct (on_frame_spec f1 b now (fo_wf _ Hw) Hb ltac:(lia) Hb32 (symbol_size_max _ Hw) ltac:(lia)) as (f' & E & _). exists true, f'. rewrite E, Es.
    by destruct Hf1 as [-> |(n & -> & _)]. }
  pose proof (verdict_frame e s ff sh D b now Hok Hk1 Htx) as Hv.
  set (V := frame_verdict _ _ _ _ _ _ _) in *.
  assert (Hstream : exists s' sent, stream_frame e (frame_deadline_us t) true (is_enhance b) (Some b) (len b) now s = Some (s', sent) /\
    match V with
    | VDiscard => sent = []
    | VPolicy => sent = sent_with ff b (repairs_owed ff (len b) (blob_flags b) ff.(override_parity_)) now
    | VParity n => sent = sent_with ff b (repairs_owed ff (len b) (blob_flags b) (Some n)) now
    end).
  { unfold stream_frame. rewrite Hff, Hsh, HD. cbn [mbind option_bind]. destruct (jscc_frame _ _ _ _ _ _ _ _) as [s1 o]. cbn [snd] in Hv.
    destruct V as [| |n]; subst.
    - destruct (Hsend ff ltac:(by left)) as (ok & f' & ->). rewrite (repairs_owed_ok ff) by (try done; apply Hf). by eexists _, _.
    - by eexists _, _.
    - destruct Hv as (-> & Hen & Hn).
      destruct (Hsend (set_next_frame_override ff n)) as (ok & f' & ->); [right; exists n; split; [done|unfold u16, kFecMaxSymbols in *; lia]|].
      eexists _, _. split; [done|]. rewrite repairs_owed_ok; [reflexivity| |done]. apply wf_override; [apply Hf|].
      unfold u16, kFecMaxSymbols in *. cbn. lia. }
  destruct Hstream as (s' & sent & Est & Hsent).
  assert (Hex : existsb (frame_stream sid) t.(tx_streams) = true).
  { apply existsb_exists. exists s. by apply find_some. }
  unfold TxCore.on_frame. rewrite Hex, Hm. cbn [mbind option_bind andb].
  replace (negb (negb (Z.land (flags m) kFrameFlagIdr =? 0)) && negb (Z.land (flags m) kFrameFlagEnhance =? 0)) with (is_enhance b)
    by (unfold is_enhance, fec_class; rewrite Hmf; repeat case_match; done).
  destruct (update_first_find _ _ _ s s' sent Hs Est) as [l ->]. cbn [mbind option_bind]. eexists _, D, sent. split; [done|]. by split.
Qed.
(** A frame of 3 symbols on a craft told to expect one symbol in two lost. *)
Definition protect_fec : FrameFecConfig := MkFrameFecConfig kRlc256 250 100 None 2.
Definition protect_feedback : JsccFeedback := MkJsccFeedback (MkCommonPrefix 9 7 5) 7 99 1 1 500 0 0 0 1 0.
Definition protect_cfg : JsccRuntimeShadowConfig := MkJsccRuntimeShadowConfig 100 1000 500.
Definition protect_shadow : JsccRuntimeShadow := (observe_feedback (JsccRuntimeShadow_init protect_cfg) protect_feedback 1000).1.
Definition protect_stream : TxStream :=
  with_shadow (new_stream 7 99 1 1424 1424 (MkTxStreamCfg 1 stream_type_kRtp true protect_fec (Some (protect_cfg, true)))) protect_shadow.
Definition protect_framer : FrameFramer :=
  set_negotiated_packet_budget (FrameFramer.set_operating_point
    (FrameFramer_init (MkFrameFramerConfig 7 99 1 stream_type_kRtp 0 protect_fec)) 0 1 1424) 1424.
Definition protect_blob : list Z := [0; 0; 0; 0; 1; 0; 0; 0] ++ replicate 3000 7.
Definition protect_env : TxEnv := MkTxEnv true true true true true (fun _ _ => true) (Some (fun _ _ => Some 3000)) None false.
Definition protect_core : TxCore := set_tx_streams (craft_boot protect_env (craft_cfg None)).1 [protect_stream].
Lemma jscc_protects_witness : exists t' sent,
  TxCore.on_frame protect_env protect_core [] 1 (Some protect_blob) (len protect_blob) 1200 = Some (t', sent) /\ sent = sent_with protect_framer protect_blob 2 1200 /\ length sent = 5%nat.
Proof.
  assert (Hs : shaped protect_core.(tx_selector)) by (destruct (craft_booted (craft_cfg None) (craft_cfg_ok None) protect_env) as [[B _ _ _ _ _ _ _] _]; apply B).
  assert (Hb : bytes protect_blob) by (apply Forall_app; split; [repeat (constructor; [unfold u8; lia|]); constructor|apply Forall_replicate; unfold u8; lia]).
  assert (Hf : frames_ok protect_framer).
  { constructor; [constructor|]; cbn; try done; unfold u8, u16, u32; cbn; try lia. constructor. }
  assert (Hsh : shadow_ok protect_shadow) by (constructor; cbn; unfold u16; [lia|lia|intros f [= <-]; cbn; lia]).
  assert (Hl : 8 <= len protect_blob) by (vm_compute; discriminate).
  assert (Hu : u32 (len protect_blob)) by (split; [vm_compute; discriminate|vm_compute; reflexivity]).
  assert (Hk : frame_k protect_framer (len protect_blob) <= 65535) by (vm_compute; discriminate).
  assert (Htx : forall tx, frame_airtime protect_env protect_framer (frame_k protect_framer (len protect_blob)) (len protect_blob) = Some tx -> u32 tx)
    by (intros tx [= <-]; unfold u32; lia).
  assert (Hst : find (frame_stream 1) protect_core.(tx_streams) = Some protect_stream) by reflexivity.
  assert (Hfr : protect_stream.(ts_frame_framer) = Some protect_framer) by reflexivity.
  assert (Hss : protect_stream.(ts_jscc_shadow) = Some protect_shadow) by reflexivity.
  destruct (jscc_protects protect_env protect_core [] 1 protect_stream protect_framer protect_shadow protect_blob 1200
    Hs Hst Hfr Hss Hf Hsh Hb Hl Hu Hk Htx) as (t' & D & sent & ED & E & H).
  - exists t', sent. split; [exact E|].
    assert (Ev : frame_verdict protect_stream protect_shadow (frame_k protect_framer (len protect_blob))
        (frame_airtime protect_env protect_framer (frame_k protect_framer (len protect_blob)) (len protect_blob)) D 1200 (is_enhance protect_blob) = VParity 2).
    { assert (HD : frame_deadline_us protect_core = Some 50000) by (vm_compute; reflexivity). rewrite HD in ED. injection ED as <-. vm_compute. reflexivity. }
    rewrite Ev in H. assert (Er : repairs_owed protect_framer (len protect_blob) (blob_flags protect_blob) (Some 2) = 2) by (vm_compute; reflexivity).
    rewrite Er in H. subst sent. split; [done|]. vm_compute. reflexivity.
Defined.
